(* ===== verification/_CoqProject ===== *)
-Q . S2P
Prelude.v
Safe.v
Words.v
Handoff.v
Frame.v
FrameSpec.v
FrameAlloc.v
FrameOwners.v
FrameInit.v
Heap.v
HeapSpec.v
HeapOwners.v
Packets.v
PacketSpec.v
Config.v
Tcp.v
TcpInput.v
TcpRuns.v
TcpReceive.v
TcpStream.v
TcpBounds.v
TcpServes.v
Link.v
LinkSpec.v
Udp.v
Sockets.v
SocketsSpec.v
SocketsServe.v
Dhcp.v
DhcpSpec.v
Host.v
Fs.v
FsSpec.v
FsCalls.v
Fd.v
Bytes.v
Time.v
Cpio.v
Boot.v
BootSpec.v
Name.v
Cache.v
CacheSpec.v
CacheFlush.v
CacheIo.v
CacheWrite.v
Devices.v
Table.v
TableSpec.v
Chains.v
Scans.v
Dir.v
RawSpec.v
LongNames.v
SafeDir.v
Volume.v
Linking.v
SafeVolume.v
SafeFiles.v
Ops.v
SafeOps.v
Mounted.v
Card.v
CardSpec.v
Partition.v
Pipe.v
FifoSpec.v
Witness.v
WitnessMemory.v
WitnessCard.v
WitnessNet.v
WitnessFs.v
Walk.v
WalkSpec.v
Space.v
SpaceSpec.v
SpaceRun.v
SpaceFork.v
SpaceIso.v
SpaceLab.v
