(* ===== verification/Prelude.v ===== *)
(** * claudeos: files, memory and the network of the kernel

    A model of parts of the claudeos kernel (src/kernel/src) and what makes them
    correct: the FAT32 volume of the SD card that is mounted at /data, the tree of
    files in memory with its descriptors, pipes, the frame allocator and the heap,
    page tables and address spaces, and the network from Ethernet frames to sockets.

    ** The parts and how they interact

    - /data. A block device is an instance of the trait [Blocks] (fat/cache.rs),
      the class [Blocks] here; what the code on top relies on is [BlocksOk]: a read
      returns what the blocks hold, a write changes no other block, and one that
      fails may leave anything in its own. The cache ([Cache]) keeps up to 8192
      blocks and writes them back in order; the boot sector ([parse], [probe])
      gives the [Layout], the FAT the chains of clusters, directories and names the
      files; the volume (fat/volume.rs) is what the kernel calls. A [Partition] is
      the device it mounts, on the card (storage/card.rs), which sends commands to
      its host controller; [choose] finds the volume.
    - The tree in memory (fs/mod.rs, with the directories of fs/procfs.rs and the
      devices of fs/dev.rs): a node is an entry of [nodes] under its number, a
      reference is the number. fs/cpio.rs fills it at the start. Open files and
      descriptor tables (fs/mod.rs) and the calls on them (syscall/file.rs) are on
      top: a table holds handles of open files, which share their position.
    - Pipes and FIFOs (fs/pipe.rs), as the steps of tasks that interleave.
    - Memory: the regions a loader hands over (boot.rs), the frame allocator built
      from them (mm/frame.rs), the heap (mm/heap.rs), which grows by mapping frames.
    - Address spaces: what a descriptor is on each machine (arch/*/paging.rs), the
      walk of the tables behind the trait [Machine] (mm/walk.rs), the owners of tables
      (mm/tables.rs), address spaces with their regions, faults, copy-on-write and
      fork (mm/space.rs), and the calls on them (syscall/mem.rs). Frames come from the
      frame allocator, which counts the references to each; the processor may keep a
      descriptor it has used until it is told to throw it away.
    - The network (net/): packets, a configuration, the ARP cache and sending, UDP,
      TCP control blocks, the table of sockets with its loopback queue and its
      clock, the DHCP client. Each knows what is below it as a class; the whole
      machine ([Host]) puts them together.

    A function of the code that can fail or change state is a computation
    [M S E A]: the state in, the state and a [result] out, a value, an error or
    [Stuck]. Stuck is a panic (an overflow: the kernel is built with overflow
    checks; an index out of range; a division by zero) or, in the model only, a
    loop out of fuel. An integer is a [Z], and where the code adds, subtracts or
    multiplies, [u32], [u64] and [usize] say what the width lets through; bytes
    are integers from 0 to 255, a buffer is a list of them. The characters of a
    name on the volume are Unicode scalar values; a path in memory is its bytes.

    Loops are [loop] with a fuel that is a number the loop's own bound gives (the
    bytes, clusters, entries or segments left, the slots of the cache or a table);
    that it is enough is part of every theorem that says a computation is not
    stuck. [is_within] has the turns a walk of the whole subtree takes
    ([walk_turns]), enough because the tree has no loop; links are followed as deep
    as the code follows them. [next_populated] and the loop of [fork] have 2 ^ 28
    turns: a turn passes a block of two megabytes at least, and there are 2 ^ 27 of
    them below the top. [find_free_region] has a turn for each region. The one wait, [wait_programmed], has 2 ^ 24 turns: a
    turn takes a microsecond at least and the wait ends after ten million of them.

    ** Files

    - Prelude: integers, slices, strings, the monad, its weakest preconditions [wp]
      with one rule per construct, loops. Safe: a logic for "keeps an invariant and
      is not stuck" ([safe]), and the rules for what a computation leaves alone.
      Words: 64-bit words, rounding, counting, and the error numbers of abi.rs.
    - /data: fat/mod.rs and the devices of tools/fatdisk/src/image.rs are Bytes and
      Devices; fat/time.rs Time; fat/boot.rs Boot and BootSpec; fat/name.rs Name and
      LongNames; fat/cache.rs Cache, CacheSpec (the invariant [cache_ok], [view] and
      [bv]: the blocks and the bytes the cache shows), CacheFlush, CacheIo,
      CacheWrite; fat/table.rs Table, TableSpec ([chain]), Chains, Scans;
      fat/dir.rs Dir, RawSpec, SafeDir (with what keeps the table safe); fat/volume.rs Volume and Ops, Linking,
      SafeVolume, SafeFiles, SafeOps; Mounted: any sequence of requests on a mounted
      volume, as a step relation. storage/card.rs is Card and CardSpec, over a host
      controller that is a class ([SdHost], its promises [SdHostOk]);
      storage/card/partition.rs Partition.
    - Files in memory: Fs is fs/mod.rs, fs/dev.rs and the tree of fs/procfs.rs, with
      [linkat] and [mknodat] of syscall/file.rs; FsSpec paths and contents, the
      invariant [tree_ok], what looking up changes ([looked]) and [beneath];
      FsCalls what each call does ([edits]) and runs of calls. Fd is open files,
      tables and the calls of syscall/file.rs. Cpio is fs/cpio.rs. What is outside is the class [FsEnv] (clock, memory left, console,
      descriptors of a task, contents of /proc) and the class [Channels].
    - fs/pipe.rs is Pipe (with one pipe as a queue) and FifoSpec (the registry).
    - Memory: Handoff is boot.rs; Frame, FrameSpec, FrameAlloc, FrameOwners and
      FrameInit are mm/frame.rs; Heap, HeapSpec and HeapOwners mm/heap.rs.
    - Address spaces: Walk is arch/*/paging.rs (the class [Paging] with its laws
      [PagingLaws], the instances in X86 and Arm) and mm/walk.rs; WalkSpec the two
      maps a hierarchy of tables stands for ([hier]); Space is mm/tables.rs,
      mm/space.rs and syscall/mem.rs, with the record of regions; SpaceSpec the
      invariant of all address spaces together ([inv]); SpaceRun what each call does
      to the pages programs see ([amem]); SpaceFork is fork; SpaceIso faults, and the
      machine of programs with private memories.
    - Network: Packets and PacketSpec are net/ether.rs, ip.rs, arp.rs, icmp.rs, udp.rs
      and the segments of tcp.rs; Config is the configuration of net/mod.rs; Tcp and
      TcpInput are net/tcp.rs, with TcpRuns, TcpReceive, TcpStream, TcpBounds
      and TcpServes; Link and LinkSpec are net/arp.rs and sending; Udp the queue of a
      UDP socket; Sockets, SocketsSpec and SocketsServe net/socket.rs; Dhcp and
      DhcpSpec net/dhcp.rs; Host the machine.
    - Witness, WitnessCard, WitnessMemory, WitnessNet, WitnessFs and SpaceLab: a small
      volume, a card with a partition table, a small memory, two ends of a wire, a
      small tree and a PC with a few programs, on which the theorems are applied.

    ** What the theorems show

    - The volume as a whole (Mounted, Partition): after a mount and any
      requests, whatever bytes the card holds and whichever commands fail, the
      next request ends without a panic, nothing is left unwritten between
      requests, and what is remembered is bounded; until writes are allowed
      nothing is written; and no block of the card outside the volume's
      partition ever changes.
    - The cache (CacheWrite) refines an array of bytes, and a failed flush loses
      nothing. The FAT (TableSpec, Chains, Scans, Linking): walking decides whether a
      chain ends and gives its clusters; freeing, searching and counting are exact;
      new clusters extend a chain and leave the other links alone. The layout
      (BootSpec): [parse] is total and what it accepts lies inside the partition.
      Names, entries and times read back as they were written (LongNames, RawSpec,
      Time). The card (CardSpec): a write has been programmed when it succeeds.
    - The tree (FsCalls): after the start and any calls it is a tree, and no call
      panics or runs on; a call that is refused has changed nothing; rename, unlink
      and replace change exactly the entries they name; [is_within] decides whether
      a node is beneath another; a process appears in /proc whole. Contents (FsSpec)
      are an array of bytes; normalised paths are canonical. Descriptors (Fd) are
      the lowest free; a file read to the end is read whole; a directory is listed
      as it was when the listing began. An archive is read back as it was written
      (Cpio).
    - Pipes (Pipe, FifoSpec): a pipe is a queue whatever the interleaving, and the
      registry of FIFOs has an entry exactly while a file is open on it.
    - Memory: a frame handed out has no other handle, as long as no frame has more
      handles than its 16-bit count holds, the search is next-fit, and the
      allocator holds exactly what is usable and not held back (FrameOwners,
      FrameAlloc, FrameInit); blocks of the heap are apart whatever the interleaving
      of tasks, and a block handed back leaves the heap as it was (HeapOwners,
      HeapSpec); an allocation is a sequence of steps of the shared heap (HeapOwners).
    - Address spaces: every run of the machine, in which programs store through
      whatever descriptor the processor goes by while the kernel serves faults,
      copy-on-write, unmapping, forks and ends, is a run of one in which each program
      has a memory of its own (SpaceIso); fork makes a copy (SpaceFork); breaking
      copy-on-write changes no page, munmap takes out exactly its range, and the end
      of a program gives back all its frames (SpaceRun); a page prepared without the
      lock is put in only if the record still asks for it (SpaceIso); the search for
      a free range ends with one (Space).
    - Network: whatever arrives and whatever programs ask, nothing panics or runs on
      until a 32-bit counter is full, which takes millions of events, and every
      queue keeps its limit (Host, TcpServes); a program reads a first part
      of the other end's stream (TcpStream); frames carry the machine's own address
      (LinkSpec); checksums are those of RFC 1071 and packets come apart as they were
      put together (PacketSpec); a configuration is a host on its subnet (Config);
      the DHCP client asks whenever something is due and leaves the configuration of
      its lease (DhcpSpec, Host).
    - What the code does not do: [early_end_of_file] and [pipe_memory_unbounded]
      (Pipe), [finish_sent_twice] (TcpStream), [saturated_count_releases]
      (FrameOwners), [top_region_panics] (FrameInit), [empty_name_panics] (Cpio),
      [rename_self_two_names], [pwrite_unchecked] and [append_lost] (WitnessFs),
      [full_counter_panics] (TcpServes),
      [mprotect_writes_through] (SpaceIso), [mmap_past_user_half] (SpaceRun).

    ** What is not modelled, and what is assumed

    The clock is a function from the number of the call to the time, or a field of
    the world outside. Messages are values of an error type, not text, and what is
    printed is left out. Registers (the SD host controller, network cards, the
    console), the initialisation of the card ([attach]) and the scheduler's
    wait queues are not modelled: the first are the classes [SdHost], [FsEnv] and
    those of the network, the second the hypothesis [card_wf], a wait a task that
    looks again. The heap knows the kernel's own tables as the class [Tables]. A call
    on an address space is a sequence of turns of its lock; what is done in one turn
    is one computation, and calls of different programs run one after the other. The
    address space a processor is on is an argument, for one processor; how it is
    chosen, the release that waits until interrupts are on (mm/active.rs), mremap and
    the copying from and to user memory are left out. In the tree, nodes of the data
    volume are told apart and the volume answers ENOENT, as on a machine without a
    card; calls on the tree run one at a time, and the claim on a file that is being
    changed ([with_claim]) is free. User memory is an argument of a call on a file.
    Tasks, signals, the other system calls, WiFi, the terminal, ELF files, the user
    programs and the build tools are not modelled.

    Left to do: the calls on /data through the tree (fs/data.rs), poll and epoll
    (fs/chan.rs), futexes and timers, signals, the ELF loader. *)

From stdpp Require Export base numbers list gmap sorting.
From Stdlib Require Export ZArith Lia.
From Stdlib Require Ascii String.
Export String.StringSyntax.

#[global] Open Scope Z_scope.

(** [lia] knows division and remainder. *)
Ltac Zify.zify_post_hook ::= Z.to_euclidean_division_equations.

(** ** Machine integers *)

Definition u8_max : Z := 255.
Definition u16_max : Z := 65535.
Definition u32_max : Z := 4294967295.
Definition u64_max : Z := 18446744073709551615.

(** [as u8], [as u16] and [as u32]: truncation to the low bits. *)
Definition as_u8 (x : Z) : Z := x `mod` 256.
Definition as_u16 (x : Z) : Z := x `mod` 65536.
Definition as_u32 (x : Z) : Z := x `mod` 4294967296.

(** [checked_add] on u32, u64 (and usize), [saturating_add] and friends. *)
Definition checked_add32 (a b : Z) : option Z :=
  if a + b <=? u32_max then Some (a + b) else None.
Definition checked_add64 (a b : Z) : option Z :=
  if a + b <=? u64_max then Some (a + b) else None.
Definition saturating_add32 (a b : Z) : Z := Z.min (a + b) u32_max.
Definition saturating_sub (a b : Z) : Z := Z.max 0 (a - b).
Definition saturating_mul64 (a b : Z) : Z := Z.min (a * b) u64_max.
(** [div_ceil] on unsigned integers. *)
Definition div_ceil (a b : Z) : Z := a / b + (if a `mod` b =? 0 then 0 else 1).

Definition is_u8 (x : Z) : Prop := 0 <= x <= u8_max.
Definition is_u16 (x : Z) : Prop := 0 <= x <= u16_max.
Definition is_u32 (x : Z) : Prop := 0 <= x <= u32_max.
Definition is_u64 (x : Z) : Prop := 0 <= x <= u64_max.

Lemma div_ceil_spec a b : 0 <= a -> 0 < b -> 0 <= div_ceil a b /\ a <= div_ceil a b * b < a + b.
Proof. intros Ha Hb. unfold div_ceil. destruct (a `mod` b =? 0) eqn:E; nia. Qed.

(** ** Slices

    A buffer is a list of bytes; its length and positions are integers. *)

Abbreviation bytes := (list Z) (only parsing).

Abbreviation len l := (Z.of_nat (length l)).

Declare Scope rust_scope.
Delimit Scope rust_scope with rust.

(** [slice.get(at)] and [slice.get(from..to)]. *)
Definition get {A} (l : list A) (at_ : Z) : option A :=
  if 0 <=? at_ then l !! Z.to_nat at_ else None.
Definition get_range {A} (l : list A) (from to : Z) : option (list A) :=
  if (0 <=? from) && (from <=? to) && (to <=? len l)
  then Some (take (Z.to_nat (to - from)) (drop (Z.to_nat from) l)) else None.
(** [target.get_mut(at..at + data.len())] with [copy_from_slice(data)]. *)
Definition splice {A} (l : list A) (at_ : nat) (data : list A) : list A :=
  take at_ l ++ data ++ drop (at_ + length data) l.

(** [iter().rposition(p)]: the index of the last element that satisfies [p]. *)
Fixpoint rposition {A} (p : A -> bool) (l : list A) : option nat :=
  match l with
  | [] => None
  | x :: l => match rposition p l with
              | Some i => Some (Datatypes.S i)
              | None => if p x then Some O else None
              end
  end.
(** [iter().position(p)]. *)
Fixpoint position {A} (p : A -> bool) (l : list A) : option nat :=
  match l with
  | [] => None
  | x :: l => if p x then Some O else Datatypes.S <$> position p l
  end.
(** [chunks_exact(n)], what does not fill a chunk left out. *)
Fixpoint chunks_exact_fuel {A} (fuel n : nat) (l : list A) : list (list A) :=
  match fuel with
  | O => []
  | Datatypes.S fuel =>
      if (length l <? n)%nat then [] else take n l :: chunks_exact_fuel fuel n (drop n l)
  end.
Definition chunks_exact {A} (n : nat) (l : list A) : list (list A) :=
  chunks_exact_fuel (length l) n l.
(** [chunks(n)], the last one shorter if it must be. *)
Fixpoint chunks_fuel {A} (fuel n : nat) (l : list A) : list (list A) :=
  match fuel, l with
  | O, _ | _, [] => []
  | Datatypes.S fuel, _ => take n l :: chunks_fuel fuel n (drop n l)
  end.
Definition chunks {A} (n : nat) (l : list A) : list (list A) := chunks_fuel (length l) n l.
Definition starts_with (l p : list Z) : bool := bool_decide (take (length p) l = p).

(** ** Strings

    A [&str] is the list of its characters, each a Unicode scalar value. What
    the code asks of bytes, a length or an index, is [utf8_len] of the
    characters. *)

Definition str (s : String.string) : list Z :=
  (fun c => Z.of_nat (Ascii.nat_of_ascii c)) <$> String.list_ascii_of_string s.
Arguments str s%_string_scope.
Definition char_len_utf8 (c : Z) : Z :=
  if c <? 0x80 then 1 else if c <? 0x800 then 2 else if c <? 0x10000 then 3 else 4.
Definition utf8_len (s : list Z) : Z := foldr (fun c n => char_len_utf8 c + n) 0 s.
Definition is_ascii (c : Z) : bool := c <? 0x80.
Definition to_ascii_uppercase (c : Z) : Z := if (97 <=? c) && (c <=? 122) then c - 32 else c.
Definition to_ascii_lowercase (c : Z) : Z := if (65 <=? c) && (c <=? 90) then c + 32 else c.
Definition eq_ignore_ascii_case (a b : list Z) : bool :=
  bool_decide ((to_ascii_lowercase <$> a) = (to_ascii_lowercase <$> b)).
(** [rsplit_once(c)]: what is before and after the last [c]. *)
Definition rsplit_once (c : Z) (s : list Z) : option (list Z * list Z) :=
  match rposition (Z.eqb c) s with
  | Some i => Some (take i s, drop (Datatypes.S i) s)
  | None => None
  end.
(** [split(c)]. *)
Fixpoint split_on (c : Z) (s : list Z) : list (list Z) :=
  match s with
  | [] => [[]]
  | x :: s =>
      if x =? c then [] :: split_on c s
      else match split_on c s with
           | part :: parts => (x :: part) :: parts
           | [] => [[x]]
           end
  end.

(** ** Results, and what a panic or a loop without end is

    A computation of the code returns a value, returns an error, or is stuck:
    an arithmetic overflow (the kernel is built with overflow checks, so one is
    a panic), or, in the model only, a loop that has used up its fuel. *)

Inductive stuck := Panic | OutOfFuel.

Inductive result (E A : Type) :=
| Ok (a : A)
| Err (e : E)
| Stuck (w : stuck).
Arguments Ok {E A} a.
Arguments Err {E A} e.
Arguments Stuck {E A} w.

(** A stateful computation: [&mut] state in, state and result out. An error
    keeps the state reached, as it does in the code. *)
Definition M (S E A : Type) : Type := S -> S * result E A.

Section monad.
Context {S E : Type}.

Definition ret {A} (a : A) : M S E A := fun s => (s, Ok a).
Definition throw {A} (e : E) : M S E A := fun s => (s, Err e).
Definition fail_with {A} (w : stuck) : M S E A := fun s => (s, Stuck w).
Definition bind {A B} (m : M S E A) (k : A -> M S E B) : M S E B :=
  fun s => match m s with
           | (s', Ok a) => k a s'
           | (s', Err e) => (s', Err e)
           | (s', Stuck w) => (s', Stuck w)
           end.
Definition gets {A} (f : S -> A) : M S E A := fun s => (s, Ok (f s)).
Definition modify (f : S -> S) : M S E unit := fun s => (f s, Ok tt).
(** A state update that also returns something. *)
Definition state {A} (f : S -> S * A) : M S E A :=
  fun s => let (s', a) := f s in (s', Ok a).
(** [option.ok_or(e)?] *)
Definition ok_or {A} (o : option A) (e : E) : M S E A :=
  match o with Some a => ret a | None => throw e end.
(** What the overflow checks let through. *)
Definition checked (hi : Z) (x : Z) : M S E Z :=
  if (0 <=? x) && (x <=? hi) then ret x else fail_with Panic.
(** Division by zero is a panic as well. *)
Definition divisor (d : Z) : M S E Z := if d =? 0 then fail_with Panic else ret d.
(** Run [m] and hand its error back as a value: [match m { .. }] in the code. *)
Definition try_ {A} (m : M S E A) : M S E (A + E) :=
  fun s => match m s with
           | (s', Ok a) => (s', Ok (inl a))
           | (s', Err e) => (s', Ok (inr e))
           | (s', Stuck w) => (s', Stuck w)
           end.
End monad.

(** [slice[at]] and [&slice[from..to]]: out of range is a panic. *)
Definition index_at {S E A} (l : list A) (at_ : Z) : M S E A :=
  match get l at_ with Some x => ret x | None => fail_with Panic end.
Definition slice {S E A} (l : list A) (from to : Z) : M S E (list A) :=
  match get_range l from to with Some part => ret part | None => fail_with Panic end.

(** [map_err], which [?] does with [From]. *)
Definition map_err {S E E' A} (f : E -> E') (m : M S E A) : M S E' A :=
  fun s => match m s with
           | (s', Ok a) => (s', Ok a)
           | (s', Err e) => (s', Err (f e))
           | (s', Stuck w) => (s', Stuck w)
           end.

(** A method of a field: [self.field.method(..)]. *)
Definition zoom {S T E A} (view : S -> T) (update : T -> S -> S) (m : M T E A) : M S E A :=
  fun s => match m (view s) with (t, r) => (update t s, r) end.

Notation "'let!' x := m 'in' k" := (bind m (fun x => k))
  (at level 10, x name, m at level 100, k at level 200) : rust_scope.
Notation "'let!' ' p := m 'in' k" := (bind m (fun x => match x with p => k end))
  (at level 10, p pattern, m at level 100, k at level 200) : rust_scope.
Notation "m ';;;' k" := (bind m (fun _ => k))
  (at level 199, k at level 200, right associativity) : rust_scope.
Abbreviation u32 := (checked u32_max).
Abbreviation u64 := (checked u64_max).
Abbreviation usize := (checked u64_max).
#[global] Open Scope rust_scope.

(** A loop over a list that stops at the first error. *)
Fixpoint mapM_ {S E A} (f : A -> M S E unit) (l : list A) : M S E unit :=
  match l with
  | [] => ret tt
  | x :: l => f x ;;; mapM_ f l
  end.

(** [loop { .. }] and [while]: the body goes on with [inl] and breaks with
    [inr]. *)
Fixpoint loop {S E A R} (fuel : nat) (body : A -> M S E (A + R)) (a : A) : M S E R :=
  match fuel with
  | O => fail_with OutOfFuel
  | Datatypes.S fuel =>
      let! next := body a in
      match next with
      | inl a' => loop fuel body a'
      | inr r => ret r
      end
  end.

(** The same for a loop that waits: up to [2 ^ n] turns, without a number that
    long. *)
Fixpoint turns {S E A R} (n : nat) (body : A -> M S E (A + R)) (a : A) : M S E (A + R) :=
  match n with
  | O => body a
  | Datatypes.S n =>
      let! next := turns n body a in
      match next with
      | inl a' => turns n body a'
      | inr r => ret (inr r)
      end
  end.
Definition long_loop {S E A R} (n : nat) (body : A -> M S E (A + R)) (a : A) : M S E R :=
  let! last := turns n body a in
  match last with
  | inl _ => fail_with OutOfFuel
  | inr r => ret r
  end.

(** ** Reasoning about computations

    [wp m Q X s]: run from [s], [m] is not stuck; a value leaves a state and
    value in [Q], an error a state and error in [X]. *)

Section wp.
Context {S E : Type}.

Definition wp {A} (m : M S E A) (Q : S -> A -> Prop) (X : S -> E -> Prop) (s : S) : Prop :=
  match m s with
  | (s', Ok a) => Q s' a
  | (s', Err e) => X s' e
  | (_, Stuck _) => False
  end.

Lemma wp_mono {A} (m : M S E A) (Q Q' : S -> A -> Prop) (X X' : S -> E -> Prop) s :
  wp m Q X s ->
  (forall s' a, Q s' a -> Q' s' a) -> (forall s' e, X s' e -> X' s' e) ->
  wp m Q' X' s.
Proof. unfold wp. destruct (m s) as [s' [a|e|w]]; eauto. Qed.

(** Two specifications of one run hold together. *)
Lemma wp_and {A} (m : M S E A) Q Q' X X' s :
  wp m Q X s -> wp m Q' X' s ->
  wp m (fun s' a => Q s' a /\ Q' s' a) (fun s' e => X s' e /\ X' s' e) s.
Proof. unfold wp. destruct (m s) as [s' [a|e|w]]; auto. Qed.

Lemma wp_ret {A} (a : A) Q X s : Q s a -> wp (ret a) Q X s.
Proof. done. Qed.

Lemma wp_throw {A} (e : E) (Q : S -> A -> Prop) X s : X s e -> wp (throw e) Q X s.
Proof. done. Qed.

Lemma wp_bind {A B} (m : M S E A) (k : A -> M S E B) Q X s :
  wp m (fun s' a => wp (k a) Q X s') X s -> wp (bind m k) Q X s.
Proof. unfold wp, bind. destruct (m s) as [s' [a|e|w]]; done. Qed.

Lemma wp_gets {A} (f : S -> A) Q X s : Q s (f s) -> wp (gets f) Q X s.
Proof. done. Qed.

Lemma wp_modify (f : S -> S) Q X s : Q (f s) tt -> wp (modify f) Q X s.
Proof. done. Qed.

Lemma wp_state {A} (f : S -> S * A) Q X s :
  Q (fst (f s)) (snd (f s)) -> wp (state f) Q X s.
Proof. unfold wp, state. by destruct (f s). Qed.

Lemma wp_checked hi x (Q : S -> Z -> Prop) X s :
  0 <= x <= hi -> Q s x -> wp (checked hi x) Q X s.
Proof.
  intros Hx HQ. unfold checked.
  replace ((0 <=? x) && (x <=? hi)) with true by (symmetry; lia). done.
Qed.

Lemma wp_divisor d (Q : S -> Z -> Prop) X s :
  d <> 0 -> Q s d -> wp (divisor d) Q X s.
Proof. intros Hd HQ. unfold divisor. by rewrite (proj2 (Z.eqb_neq d 0) Hd). Qed.

Lemma wp_ok_or {A} (o : option A) (e : E) Q X s :
  match o with Some a => Q s a | None => X s e end -> wp (ok_or o e) Q X s.
Proof. by destruct o. Qed.

Lemma wp_try {A} (m : M S E A) Q X s :
  wp m (fun s' a => Q s' (inl a)) (fun s' e => Q s' (inr e)) s -> wp (try_ m) Q X s.
Proof. unfold wp, try_. destruct (m s) as [s' [a|e|w]]; done. Qed.

(** One rule for every loop of the code: an invariant, and a measure that
    each turn lowers and the fuel starts above. *)
Lemma wp_loop {A R} (I : A -> S -> Prop) (mu : A -> S -> nat)
    (body : A -> M S E (A + R)) Q X :
  (forall a s, I a s ->
     wp (body a) (fun s' r => match r with
                              | inl a' => I a' s' /\ (mu a' s' < mu a s)%nat
                              | inr r => Q s' r
                              end) X s) ->
  forall fuel a s, I a s -> (mu a s < fuel)%nat -> wp (loop fuel body a) Q X s.
Proof.
  intros Hbody fuel. induction fuel as [|fuel IH]; intros a s HI Hfuel; [lia|].
  cbn [loop]. apply wp_bind. eapply wp_mono; [by apply Hbody| |done].
  intros s' [a'|r]; [|done]. intros [HI' Hmu]. apply IH; [done|lia].
Qed.

Lemma wp_turns {A R} (I : A -> S -> Prop) (mu : A -> S -> Z) (body : A -> M S E (A + R)) Q X :
  (forall a s, I a s ->
     wp (body a) (fun s' r => match r with
                              | inl a' => I a' s' /\ mu a' s' <= mu a s - 1
                              | inr r => Q s' r
                              end) X s) ->
  forall n a s, I a s ->
    wp (turns n body a) (fun s' r => match r with
                                     | inl a' => I a' s' /\ mu a' s' <= mu a s - 2 ^ Z.of_nat n
                                     | inr r => Q s' r
                                     end) X s.
Proof.
  intros Hbody n. induction n as [|n IH]; intros a s HI; [by apply Hbody|]. cbn [turns].
  apply wp_bind. eapply wp_mono; [by apply IH| |done]. intros s1 [a1|r] H; [|by apply wp_ret]. destruct H as [HI1 H1].
  eapply wp_mono; [by apply IH| |done]. intros s2 [a2|r] H; [|done]. destruct H as [HI2 H2]. split; [done|].
  replace (Z.of_nat (Datatypes.S n)) with (Z.of_nat n + 1) by lia. rewrite Z.pow_add_r by lia. lia.
Qed.

Lemma wp_long_loop {A R} (I : A -> S -> Prop) (mu : A -> S -> Z) (body : A -> M S E (A + R)) Q X n a s :
  (forall a s, I a s -> 0 <= mu a s) ->
  (forall a s, I a s ->
     wp (body a) (fun s' r => match r with
                              | inl a' => I a' s' /\ mu a' s' <= mu a s - 1
                              | inr r => Q s' r
                              end) X s) ->
  I a s -> mu a s < 2 ^ Z.of_nat n -> wp (long_loop n body a) Q X s.
Proof.
  intros Hmu Hbody HI Hfuel. unfold long_loop. apply wp_bind.
  eapply wp_mono; [by apply (wp_turns I mu)| |done]. intros s' [a'|r] H; [|by apply wp_ret].
  destruct H as [HI' H]. specialize (Hmu a' s' HI'). lia.
Qed.

Lemma wp_mapM {A} (f : A -> M S E unit) (I : list A -> S -> Prop) X :
  (forall x l s, I (x :: l) s -> wp (f x) (fun s' _ => I l s') X s) ->
  forall l s, I l s -> wp (mapM_ f l) (fun s' _ => I [] s') X s.
Proof.
  intros Hf l. induction l as [|x l IH]; intros s HI; [by apply wp_ret|].
  apply wp_bind. eapply wp_mono; [by apply Hf| |done]. auto.
Qed.
End wp.

Lemma wp_map_err {S E E' A} (f : E -> E') (m : M S E A) Q X s :
  wp m Q (fun s' e => X s' (f e)) s -> wp (map_err f m) Q X s.
Proof. unfold wp, map_err. destruct (m s) as [s' [a|e|w]]; done. Qed.

Lemma wp_zoom {S T E A} (view : S -> T) (update : T -> S -> S) (m : M T E A) Q X s :
  wp m (fun t a => Q (update t s) a) (fun t e => X (update t s) e) (view s) ->
  wp (zoom view update m) Q X s.
Proof. unfold wp, zoom. destruct (m (view s)) as [t [a|e|w]]; done. Qed.

Lemma wp_index {S E A} (l : list A) i (Q : S -> A -> Prop) (X : S -> E -> Prop) s :
  0 <= i < len l -> (forall x, x ∈ l -> Q s x) -> wp (index_at l i) Q X s.
Proof.
  intros Hi HQ. unfold index_at, get. rewrite (proj2 (Z.leb_le _ _)) by lia.
  destruct (lookup_lt_is_Some_2 l (Z.to_nat i)) as [x Hx]; [lia|]. rewrite Hx. apply wp_ret, HQ. by eapply list_elem_of_lookup_2.
Qed.

Lemma get_range_prefix {A} (l : list A) a b :
  0 <= a <= b -> b <= len l -> get_range l a b = Some (take (Z.to_nat (b - a)) (drop (Z.to_nat a) l)).
Proof. intros Ha Hb. unfold get_range. replace ((0 <=? a) && (a <=? b) && (b <=? len l)) with true by lia. done. Qed.

Lemma wp_slice {S E A} (l : list A) a b (Q : S -> list A -> Prop) (X : S -> E -> Prop) s :
  0 <= a <= b -> b <= len l -> Q s (take (Z.to_nat (b - a)) (drop (Z.to_nat a) l)) -> wp (slice l a b) Q X s.
Proof. intros Ha Hb HQ. unfold slice. by rewrite get_range_prefix. Qed.
