(* ===== verification/Safe.v ===== *)
(** * Computations that keep an invariant

    [safe Inv Bad m P]: from any state with the invariant [Inv], [m] is not
    stuck, keeps [Inv] and returns a value in [P], or fails with a state and an
    error in [Bad]. One rule per construct of the code, and [safe_auto], which
    applies them. *)

From S2P Require Import Prelude.

Section safe.
Context {S E : Type} (Inv : S -> Prop) (Bad : S -> E -> Prop).

Definition safe {A} (m : M S E A) (P : A -> Prop) : Prop :=
  forall s, Inv s -> wp m (fun s' a => Inv s' /\ P a) Bad s.

Lemma safe_mono {A} (m : M S E A) (P P' : A -> Prop) : safe m P -> (forall a, P a -> P' a) -> safe m P'.
Proof. intros H HP s Hs. eapply wp_mono; [by apply H| |done]. intros s' a [? ?]. auto. Qed.

Lemma safe_ret {A} (a : A) (P : A -> Prop) : P a -> safe (ret a) P.
Proof. intros HP s Hs. by apply wp_ret. Qed.

Lemma safe_bind {A C} (m : M S E A) (k : A -> M S E C) (P : A -> Prop) (Q : C -> Prop) :
  safe m P -> (forall a, P a -> safe (k a) Q) -> safe (bind m k) Q.
Proof.
  intros Hm Hk s Hs. apply wp_bind. eapply wp_mono; [by apply Hm| |done]. intros s' a [Hs' Ha]. by apply Hk.
Qed.

Lemma safe_gets {A} (f : S -> A) (P : A -> Prop) : (forall s, Inv s -> P (f s)) -> safe (gets f) P.
Proof. intros H s Hs. apply wp_gets. auto. Qed.

Lemma safe_modify (f : S -> S) (P : unit -> Prop) : (forall s, Inv s -> Inv (f s)) -> P tt -> safe (modify f) P.
Proof. intros H HP s Hs. apply wp_modify. auto. Qed.

Lemma safe_state {A} (f : S -> S * A) (P : A -> Prop) :
  (forall s, Inv s -> Inv (f s).1 /\ P (f s).2) -> safe (state f) P.
Proof. intros H s Hs. apply wp_state. auto. Qed.

Lemma safe_checked hi x (P : Z -> Prop) : 0 <= x <= hi -> P x -> safe (checked hi x) P.
Proof. intros Hx HP s Hs. by apply wp_checked. Qed.

Lemma safe_divisor d (P : Z -> Prop) : d <> 0 -> P d -> safe (divisor d) P.
Proof. intros Hd HP s Hs. by apply wp_divisor. Qed.

(** A loop whose measure depends on the loop's variables alone. *)
Lemma safe_loop {A R} (J : A -> Prop) (mu : A -> nat) (body : A -> M S E (A + R)) (P : R -> Prop) fuel a :
  (forall a, J a -> safe (body a) (fun r => match r with
                                            | inl a' => J a' /\ (mu a' < mu a)%nat
                                            | inr r => P r
                                            end)) ->
  J a -> (mu a < fuel)%nat -> safe (loop fuel body a) P.
Proof.
  intros Hbody Ha Hfuel s Hs.
  apply (wp_loop (fun a s => Inv s /\ J a) (fun a _ => mu a)); [|done|done].
  clear a Ha Hfuel s Hs. intros a s [Hs Ha]. eapply wp_mono; [by apply Hbody| |done].
  intros s' [a'|r]; [|done]. intros (Hs' & Ha' & Hmu). done.
Qed.

Lemma safe_mapM {A} (f : A -> M S E unit) (l : list A) :
  (forall x, x ∈ l -> safe (f x) (fun _ => True)) -> safe (mapM_ f l) (fun _ => True).
Proof.
  induction l as [|x l IH]; intros Hf; [by apply safe_ret|]. cbn [mapM_].
  eapply safe_bind; [apply Hf; set_solver|]. intros [] _. apply IH. intros y Hy. apply Hf. set_solver.
Qed.

(** An error of the code itself leaves the state as it is. *)
Context (Hbad : forall s e, Inv s -> Bad s e).

Lemma safe_throw {A} e (P : A -> Prop) : safe (throw e) P.
Proof. intros s Hs. apply wp_throw. auto. Qed.

Lemma safe_ok_or {A} (o : option A) e (P : A -> Prop) : (forall a, o = Some a -> P a) -> safe (ok_or o e) P.
Proof. intros H. destruct o as [a|]; [apply safe_ret; auto|apply safe_throw]. Qed.

Lemma safe_if {A} (b : bool) (m1 m2 : M S E A) P :
  (b = true -> safe m1 P) -> (b = false -> safe m2 P) -> safe (if b then m1 else m2) P.
Proof. destruct b; auto. Qed.
End safe.

Lemma safe_map_err {S E E' A} (Inv : S -> Prop) (Bad : S -> E' -> Prop) (f : E -> E') (m : M S E A) P :
  safe Inv (fun s e => Bad s (f e)) m P -> safe Inv Bad (map_err f m) P.
Proof. intros H s Hs. apply wp_map_err. by apply H. Qed.

Lemma safe_zoom {S T E A} (InvS : S -> Prop) (InvT : T -> Prop) (BadS : S -> E -> Prop) (BadT : T -> E -> Prop)
    (view : S -> T) (update : T -> S -> S) (m : M T E A) P :
  (forall s, InvS s -> InvT (view s)) ->
  (forall s t, InvS s -> InvT t -> InvS (update t s)) ->
  (forall s t e, InvS s -> BadT t e -> BadS (update t s) e) ->
  safe InvT BadT m P -> safe InvS BadS (zoom view update m) P.
Proof.
  intros H1 H2 H3 Hm s Hs. apply wp_zoom. eapply wp_mono; [apply Hm; auto| |].
  - intros t a [Ht HP]. auto.
  - eauto.
Qed.

(** * Partial correctness

    [wlp m Q s]: if [m] run from [s] is not stuck, the state it leaves is in
    [Q], whether it returned a value or an error. [keeps view m]: nothing [m]
    does is seen through [view]. Both follow the shape of a computation, and
    [keep_steps] walks it. *)

Section wlp.
Context {S E : Type}.

Definition wlp {A} (m : M S E A) (Q : S -> A + E -> Prop) (s : S) : Prop :=
  match m s with
  | (s', Ok a) => Q s' (inl a)
  | (s', Err e) => Q s' (inr e)
  | (_, Stuck _) => True
  end.

Lemma wlp_mono {A} (m : M S E A) (Q Q' : S -> A + E -> Prop) s :
  wlp m Q s -> (forall s' r, Q s' r -> Q' s' r) -> wlp m Q' s.
Proof. unfold wlp. destruct (m s) as [s' [a|e|w]]; auto. Qed.

Lemma wlp_bind {A B} (m : M S E A) (k : A -> M S E B) Q s :
  wlp m (fun s' r => match r with inl a => wlp (k a) Q s' | inr e => Q s' (inr e) end) s -> wlp (bind m k) Q s.
Proof. unfold wlp, bind. destruct (m s) as [s' [a|e|w]]; done. Qed.

Lemma wlp_ret {A} (a : A) Q s : Q s (inl a) -> wlp (ret a) Q s.
Proof. done. Qed.
Lemma wlp_throw {A} (e : E) (Q : S -> A + E -> Prop) s : Q s (inr e) -> wlp (throw e) Q s.
Proof. done. Qed.
Lemma wlp_gets {A} (f : S -> A) Q s : Q s (inl (f s)) -> wlp (gets f) Q s.
Proof. done. Qed.
Lemma wlp_modify (f : S -> S) Q s : Q (f s) (inl tt) -> wlp (modify f) Q s.
Proof. done. Qed.
Lemma wlp_checked hi x (Q : S -> Z + E -> Prop) s : Q s (inl x) -> wlp (checked hi x) Q s.
Proof. intros HQ. unfold checked. by destruct (_ && _). Qed.

Lemma wp_wlp {A} (m : M S E A) Q X s : wp m Q X s -> wlp m (fun s' r => match r with inl a => Q s' a | inr e => X s' e end) s.
Proof. unfold wp, wlp. by destruct (m s) as [s' [a|e|w]]. Qed.

(** What a run that ended tells. *)
Lemma wlp_ended {A} (m : M S E A) Q s s' r :
  m s = (s', r) -> wlp m Q s -> match r with Ok a => Q s' (inl a) | Err e => Q s' (inr e) | Stuck _ => True end.
Proof. unfold wlp. by intros ->. Qed.

Lemma wlp_and {A} (m : M S E A) Q Q' s : wlp m Q s -> wlp m Q' s -> wlp m (fun s' r => Q s' r /\ Q' s' r) s.
Proof. unfold wlp. destruct (m s) as [s' [a|e|w]]; auto. Qed.

(** ** What never returns an error *)

Definition quiet {A} (m : M S E A) : Prop := forall s, wlp m (fun _ r => match r with inl _ => True | inr _ => False end) s.

Lemma quiet_bind {A B} (m : M S E A) (k : A -> M S E B) : quiet m -> (forall a, quiet (k a)) -> quiet (bind m k).
Proof. intros Hm Hk s. apply wlp_bind. eapply wlp_mono; [apply Hm|]. intros s' [a|e] H; [apply Hk|done]. Qed.
Lemma quiet_ret {A} (a : A) : quiet (ret a).
Proof. done. Qed.
Lemma quiet_gets {A} (f : S -> A) : quiet (gets f).
Proof. done. Qed.
Lemma quiet_checked hi x : quiet (checked hi x).
Proof. intros s. by apply wlp_checked. Qed.
Lemma quiet_try {A} (m : M S E A) : quiet (try_ m).
Proof. intros s. unfold wlp, try_. by destruct (m s) as [s' [a|e|w]]. Qed.
Lemma quiet_if {A} (b : bool) (m k : M S E A) : quiet m -> quiet k -> quiet (if b then m else k).
Proof. by destruct b. Qed.
Lemma quiet_loop {A R} (body : A -> M S E (A + R)) : (forall a, quiet (body a)) -> forall fuel a, quiet (loop fuel body a).
Proof.
  intros Hb fuel. induction fuel as [|fuel IH]; intros a; [done|]. cbn [loop]. apply quiet_bind; [done|]. intros [a'|r]; [apply IH|apply quiet_ret].
Qed.

(** What every turn of a loop keeps. *)
Lemma wlp_loop {A R} (I : S -> Prop) (body : A -> M S E (A + R)) :
  (forall a s, I s -> wlp (body a) (fun s' r => match r with inl _ => I s' | inr _ => True end) s) ->
  forall fuel a s, I s -> wlp (loop fuel body a) (fun s' r => match r with inl _ => I s' | inr _ => True end) s.
Proof.
  intros Hb fuel. induction fuel as [|fuel IH]; intros a s Hs; [done|]. cbn [loop]. apply wlp_bind.
  eapply wlp_mono; [by apply Hb|]. intros s' [[a'|r]|e] Hs'; [by apply IH|by apply wlp_ret|done].
Qed.

(** ** What is not changed *)

Section keeps.
Context {V : Type} (view : S -> V).

Definition keeps {A} (m : M S E A) : Prop := forall s, wlp m (fun s' _ => view s' = view s) s.

Lemma keeps_bind {A B} (m : M S E A) (k : A -> M S E B) : keeps m -> (forall a, keeps (k a)) -> keeps (bind m k).
Proof.
  intros Hm Hk s. apply wlp_bind. eapply wlp_mono; [apply Hm|]. intros s' [a|e] E1; [|done].
  eapply wlp_mono; [apply Hk|]. intros s'' r ->. done.
Qed.
Lemma keeps_ret {A} (a : A) : keeps (ret a).
Proof. done. Qed.
Lemma keeps_throw {A} (e : E) : keeps (@throw S E A e).
Proof. done. Qed.
Lemma keeps_gets {A} (f : S -> A) : keeps (gets f).
Proof. done. Qed.
Lemma keeps_modify f : (forall s, view (f s) = view s) -> keeps (modify f).
Proof. intros H s. apply wlp_modify, H. Qed.
Lemma keeps_checked hi x : keeps (checked hi x).
Proof. intros s. by apply wlp_checked. Qed.
Lemma keeps_try {A} (m : M S E A) : keeps m -> keeps (try_ m).
Proof. intros H s. specialize (H s). unfold wlp, try_ in *. by destruct (m s) as [s' [a|e|w]]. Qed.
Lemma keeps_if {A} (b : bool) (m k : M S E A) : keeps m -> keeps k -> keeps (if b then m else k).
Proof. by destruct b. Qed.
Lemma keeps_loop {A R} (body : A -> M S E (A + R)) : (forall a, keeps (body a)) -> forall fuel a, keeps (loop fuel body a).
Proof.
  intros Hb fuel. induction fuel as [|fuel IH]; intros a; [done|]. cbn [loop]. apply keeps_bind; [done|].
  intros [a'|r]; [apply IH|apply keeps_ret].
Qed.

(** After what is not seen, what was known of the view still is. *)
Lemma wlp_keeps {A} (m : M S E A) (Q : S -> A + E -> Prop) s :
  keeps m -> (forall s' r, view s' = view s -> Q s' r) -> wlp m Q s.
Proof. intros Hm HQ. eapply wlp_mono; [apply Hm|]. intros s' r E1. by apply HQ. Qed.

Lemma wp_keeps {A} (m : M S E A) (Q : S -> A -> Prop) (X : S -> E -> Prop) s :
  wp m Q X s -> keeps m -> wp m (fun s' a => Q s' a /\ view s' = view s) (fun s' e => X s' e /\ view s' = view s) s.
Proof. intros Hm Hk. specialize (Hk s). unfold wp, wlp in *. destruct (m s) as [s' [a|e|w]]; auto. Qed.
End keeps.
End wlp.

Lemma keeps_zoom {S T E V A} (view : S -> V) (get_ : S -> T) (put : T -> S -> S) (m : M T E A) :
  (forall t s, view (put t s) = view s) -> keeps (E := E) view (zoom get_ put m).
Proof. intros H s. unfold wlp, zoom. destruct (m (get_ s)) as [t [a|e|w]]; [apply H..|done]. Qed.

Create HintDb keeps.
#[export] Hint Resolve keeps_ret keeps_throw keeps_gets keeps_checked : keeps.

(** One step down a computation; a change that cannot be seen goes by
    computation. *)
Ltac keep_step :=
  match goal with
  | |- keeps _ (bind _ _) => apply keeps_bind; [|intros ?]
  | |- keeps _ (try_ _) => apply keeps_try
  | |- keeps _ (if _ then _ else _) => apply keeps_if
  | |- keeps _ (modify _) => apply keeps_modify; intros ?; try reflexivity
  | |- keeps _ (zoom _ _ _) => apply keeps_zoom; intros ? ?; reflexivity
  | |- keeps _ (loop _ _ _) => apply keeps_loop; intros ?
  | |- keeps _ (match ?x with _ => _ end) => destruct x
  | |- keeps _ _ => solve [eauto with keeps]
  end; cbv beta zeta.
Ltac keep_steps := repeat keep_step.

Ltac quiet_step :=
  match goal with
  | |- quiet (bind _ _) => apply quiet_bind; [|intros ?]
  | |- quiet (ret _) => apply quiet_ret
  | |- quiet (gets _) => apply quiet_gets
  | |- quiet (checked _ _) => apply quiet_checked
  | |- quiet (try_ _) => apply quiet_try
  | |- quiet (if _ then _ else _) => apply quiet_if
  | |- quiet (loop _ _ _) => apply quiet_loop; intros ?
  | |- quiet (match ?x with _ => _ end) => destruct x
  end; cbv beta zeta.
Ltac quiet_steps := repeat quiet_step.
