(* ===== verification/Words.v ===== *)
(** * Bits, alignment and counting

    What the memory allocators and the network code share: words of 64 bits with
    their complement and trailing zeros, rounding an address up to a power of
    two, the number of members of a range with a property, and [wp_steps], which
    goes through a computation by the rules of [wp]. *)

From S2P Require Import Prelude.

(** One rule of [wp] at a time, the conditions split and the arithmetic left to
    [lia]. *)
Ltac wp_step :=
  match goal with
  | |- wp (bind _ _) _ _ _ => apply wp_bind
  | |- wp (ret _) _ _ _ => apply wp_ret
  | |- wp (throw _) _ _ _ => apply wp_throw
  | |- wp (gets _) _ _ _ => apply wp_gets
  | |- wp (modify _) _ _ _ => apply wp_modify
  | |- wp (checked _ _) _ _ _ => apply wp_checked; [first [lia | unfold u64_max, u32_max, u16_max in *; lia]|]
  | |- wp (if ?b then _ else _) _ _ _ => destruct b eqn:?
  end; cbn beta.
Ltac wp_steps := repeat wp_step.

(** A computation that reads what does not change. *)
Lemma wp_fun {S E A} (m : M S E A) (r : A) s Q X : m s = (s, Ok r) -> Q s r -> wp m Q X s.
Proof. unfold wp. by intros ->. Qed.

(** ** Words *)

(** [!w] on a [u64]. *)
Definition not64 (w : Z) : Z := Z.lxor w u64_max.

(** [trailing_zeros] on a [u64]. *)
Fixpoint pos_trailing_zeros (p : positive) : Z :=
  match p with
  | xO p => 1 + pos_trailing_zeros p
  | _ => 0
  end.
Definition trailing_zeros (w : Z) : Z := match w with Zpos p => pos_trailing_zeros p | _ => 64 end.

Lemma u64_max_bits i : Z.testbit u64_max i = bool_decide (0 <= i < 64).
Proof.
  change u64_max with (Z.ones 64). destruct (decide (0 <= i)) as [Hi|Hi].
  - case_bool_decide; [by apply Z.ones_spec_low|apply Z.ones_spec_high; lia].
  - rewrite Z.testbit_neg_r, bool_decide_false by lia. done.
Qed.

Lemma is_u64_bits w : is_u64 w <-> 0 <= w < 2 ^ 64.
Proof. unfold is_u64, u64_max. lia. Qed.

Lemma high_bits w i : is_u64 w -> 64 <= i -> Z.testbit w i = false.
Proof.
  intros Hw%is_u64_bits Hi. destruct (Z.eq_dec w 0) as [->|]; [apply Z.bits_0|].
  apply Z.bits_above_log2; [lia|]. apply Z.log2_lt_pow2; [lia|].
  eapply Z.lt_le_trans; [apply Hw|]. apply Z.pow_le_mono_r; lia.
Qed.

Lemma u64_of_bits w : 0 <= w -> (forall i, 64 <= i -> Z.testbit w i = false) -> is_u64 w.
Proof.
  intros H0 Hb. apply is_u64_bits. split; [done|].
  destruct (Z.eq_dec w 0) as [->|]; [lia|]. apply Z.log2_lt_pow2; [lia|].
  destruct (decide (Z.log2 w < 64)); [done|]. specialize (Hb (Z.log2 w) ltac:(lia)).
  rewrite Z.bit_log2 in Hb by lia. done.
Qed.

Lemma not64_bit w i : 0 <= i < 64 -> Z.testbit (not64 w) i = negb (Z.testbit w i).
Proof. intros Hi. unfold not64. rewrite Z.lxor_spec, u64_max_bits, bool_decide_true by done. apply xorb_true_r. Qed.

Lemma not64_u64 w : is_u64 w -> is_u64 (not64 w).
Proof.
  intros Hw. apply u64_of_bits.
  - apply Z.lxor_nonneg. unfold is_u64, u64_max in *. lia.
  - intros i Hi. unfold not64. rewrite Z.lxor_spec, u64_max_bits, high_bits by done. rewrite bool_decide_false by lia. done.
Qed.

Lemma pos_trailing_zeros_spec p :
  0 <= pos_trailing_zeros p /\ Z.testbit (Zpos p) (pos_trailing_zeros p) = true /\
  forall i, 0 <= i < pos_trailing_zeros p -> Z.testbit (Zpos p) i = false.
Proof.
  induction p as [p IH|p IH|]; cbn [pos_trailing_zeros]; [split_and!; [lia|done|lia]| |split_and!; [lia|done|lia]].
  destruct IH as (H0 & H1 & Hlow). change (Z.pos p~0) with (2 * Z.pos p).
  split_and!; [lia| |].
  - rewrite Z.add_1_l, Z.double_bits_succ. done.
  - intros i Hi. destruct (Z.eq_dec i 0) as [->|]; [apply Z.testbit_even_0|].
    replace i with (Z.succ (i - 1)) by lia. rewrite Z.double_bits_succ. apply Hlow. lia.
Qed.

(** The lowest clear bit of a word that has one. *)
Lemma first_clear_bit w :
  is_u64 w -> w <> u64_max ->
  let b := trailing_zeros (not64 w) in
  0 <= b < 64 /\ Z.testbit w b = false /\ forall i, 0 <= i < b -> Z.testbit w i = true.
Proof.
  intros Hw Hne. pose proof (not64_u64 w Hw) as Hn. cbn zeta.
  destruct (not64 w) as [|p|p] eqn:E.
  { apply Z.lxor_eq in E. congruence. }
  2: { destruct Hn. lia. }
  cbn [trailing_zeros]. destruct (pos_trailing_zeros_spec p) as (H0 & H1 & Hlow). rewrite <- E in *.
  assert (Hb : pos_trailing_zeros p < 64).
  { destruct (decide (pos_trailing_zeros p < 64)); [done|]. rewrite high_bits in H1; [done|done|lia]. }
  split_and!; [done|done| |].
  - rewrite not64_bit in H1 by lia. by apply negb_true_iff.
  - intros i Hi. specialize (Hlow i Hi). rewrite not64_bit in Hlow by lia. by apply negb_false_iff.
Qed.

Lemma full_word w i : w = u64_max -> 0 <= i < 64 -> Z.testbit w i = true.
Proof. intros -> Hi. by rewrite u64_max_bits, bool_decide_true. Qed.

(** ** Setting, clearing and testing one bit *)

Definition set_bit (w i : Z) : Z := Z.lor w (Z.shiftl 1 i).
Definition clear_bit (w i : Z) : Z := Z.land w (not64 (Z.shiftl 1 i)).
Definition test_bit (w i : Z) : bool := negb (Z.land (Z.shiftr w i) 1 =? 0).

Lemma one_bit i j : 0 <= i -> 0 <= j -> Z.testbit (Z.shiftl 1 i) j = bool_decide (i = j).
Proof.
  intros Hi Hj. rewrite Z.shiftl_spec by done. case_bool_decide as E; [subst; by rewrite Z.sub_diag|].
  destruct (decide (j < i)); [by rewrite Z.testbit_neg_r by lia|]. by apply Z.bits_above_log2; cbn; lia.
Qed.

Lemma test_bit_spec w i : 0 <= i -> test_bit w i = Z.testbit w i.
Proof.
  intros Hi. unfold test_bit. change 1 with (Z.ones 1). rewrite Z.land_ones by lia. change (2 ^ 1) with 2.
  rewrite <- Z.bit0_mod, Z.shiftr_spec by lia. rewrite Z.add_0_l. by destruct (Z.testbit w i).
Qed.

Lemma set_bit_spec w i j : 0 <= i -> 0 <= j -> Z.testbit (set_bit w i) j = bool_decide (i = j) || Z.testbit w j.
Proof. intros Hi Hj. unfold set_bit. rewrite Z.lor_spec, one_bit by done. apply orb_comm. Qed.

Lemma clear_bit_spec w i j :
  0 <= i < 64 -> 0 <= j < 64 -> Z.testbit (clear_bit w i) j = negb (bool_decide (i = j)) && Z.testbit w j.
Proof. intros Hi Hj. unfold clear_bit. rewrite Z.land_spec, not64_bit, one_bit by lia. apply andb_comm. Qed.

Lemma set_bit_u64 w i : is_u64 w -> 0 <= i < 64 -> is_u64 (set_bit w i).
Proof.
  intros Hw Hi. apply u64_of_bits.
  - apply Z.lor_nonneg. split; [apply Hw|]. apply Z.shiftl_nonneg. lia.
  - intros j Hj. rewrite set_bit_spec, high_bits by (done || lia). by rewrite bool_decide_false by lia.
Qed.

Lemma clear_bit_u64 w i : is_u64 w -> is_u64 (clear_bit w i).
Proof.
  intros Hw. apply u64_of_bits.
  - apply Z.land_nonneg. left. apply Hw.
  - intros j Hj. unfold clear_bit. rewrite Z.land_spec, high_bits by done. done.
Qed.

(** ** Alignment ([mm/mod.rs]) *)

Definition align_down (value align : Z) : Z := Z.land value (not64 (align - 1)).

(** [value + align - 1], which the overflow checks watch. *)
Definition align_up {S E} (value align : Z) : M S E Z :=
  let! sum := u64 (value + align) in
  let! sum := u64 (sum - 1) in
  ret (align_down sum align).

(** [a] is [v] rounded up to a multiple of [align]. *)
Definition rounded_up (v align a : Z) : Prop := a `mod` align = 0 /\ v <= a < v + align.

Lemma align_down_spec v k : is_u64 v -> 0 <= k < 64 -> align_down v (2 ^ k) = v - v `mod` 2 ^ k.
Proof.
  intros Hv Hk. assert (Hp : 0 < 2 ^ k) by (apply Z.pow_pos_nonneg; lia).
  replace (v - v `mod` 2 ^ k) with (Z.shiftl (Z.shiftr v k) k).
  2: { rewrite Z.shiftl_mul_pow2, Z.shiftr_div_pow2 by lia. pose proof (Z.div_mod v (2 ^ k)). lia. }
  unfold align_down. apply Z.bits_inj'. intros i Hi. replace (2 ^ k - 1) with (Z.ones k) by (rewrite Z.ones_equiv; lia).
  rewrite Z.land_spec, Z.shiftl_spec by done.
  destruct (decide (i < k)).
  - rewrite (Z.testbit_neg_r _ (i - k)), not64_bit, Z.ones_spec_low by lia. apply andb_false_r.
  - rewrite Z.shiftr_spec by lia. replace (i - k + k) with i by lia. destruct (decide (i < 64)).
    + rewrite not64_bit, Z.ones_spec_high by lia. apply andb_true_r.
    + by rewrite high_bits by (done || lia).
Qed.

Lemma wp_align_up {S E} v k Q X (s : S) :
  0 <= v -> 0 <= k < 64 -> v + 2 ^ k <= u64_max ->
  (forall a, rounded_up v (2 ^ k) a -> Q s a) ->
  wp (align_up (E := E) v (2 ^ k)) Q X s.
Proof.
  intros Hv Hk Hmax HQ. assert (Hp : 0 < 2 ^ k) by (apply Z.pow_pos_nonneg; lia).
  unfold align_up. wp_steps. apply HQ. rewrite align_down_spec by (unfold is_u64; lia).
  pose proof (Z.mod_pos_bound (v + 2 ^ k - 1) (2 ^ k) Hp). split; [|lia].
  rewrite Zminus_mod_idemp_r, Z.sub_diag. by apply Z.mod_0_l; lia.
Qed.

(** ** How many of [0 .. n - 1] have a property *)

Definition count (p : Z -> bool) (l : list Z) : Z := len (filter (fun x => p x = true) l).
Definition count_in (p : Z -> bool) (n : Z) : Z := count p (seqZ 0 n).

Lemma count_app p l l' : count p (l ++ l') = count p l + count p l'.
Proof. unfold count. rewrite filter_app, length_app. lia. Qed.

Lemma count_cons p x l : count p (x :: l) = (if p x then 1 else 0) + count p l.
Proof. unfold count. rewrite filter_cons. destruct (p x); cbn [decide decide_rel]; case_decide; try done; cbn [length]; lia. Qed.

Lemma count_ext p q l : (forall x, x ∈ l -> p x = q x) -> count p l = count q l.
Proof.
  induction l as [|x l IH]; intros H; [done|]. rewrite !count_cons, (H x), IH; [done| |by left].
  intros y Hy. apply H. by right.
Qed.

Lemma count_bounds p l : 0 <= count p l <= len l.
Proof. unfold count. pose proof (length_filter (fun x => p x = true) l). lia. Qed.

Lemma count_all p l : count p l = len l <-> Forall (fun x => p x = true) l.
Proof.
  induction l as [|x l IH]; [split; [intros _; constructor|done]|]. rewrite count_cons, Forall_cons, <- IH. cbn [length].
  pose proof (count_bounds p l). destruct (p x); split; [intros; split; [done|]|intros []| |intros []]; lia || done.
Qed.

Lemma count_in_bounds p n : 0 <= n -> 0 <= count_in p n <= n.
Proof. intros Hn. pose proof (count_bounds p (seqZ 0 n)) as H. rewrite length_seqZ in H. unfold count_in. lia. Qed.

Lemma count_in_ext p q n : (forall x, 0 <= x < n -> p x = q x) -> count_in p n = count_in q n.
Proof. intros H. apply count_ext. intros x Hx%elem_of_seqZ. apply H. lia. Qed.

Lemma count_in_all p n : 0 <= n -> count_in p n = n <-> forall x, 0 <= x < n -> p x = true.
Proof.
  intros Hn. unfold count_in. pose proof (count_all p (seqZ 0 n)) as H. rewrite length_seqZ, Z2Nat.id in H by done.
  rewrite H, Forall_forall. split; intros Hx x; specialize (Hx x); rewrite elem_of_seqZ in *; intros; apply Hx; lia.
Qed.

(** One member more. *)
Lemma count_in_flip p q f n :
  0 <= f < n -> p f = false -> q f = true -> (forall x, 0 <= x < n -> x <> f -> q x = p x) ->
  count_in q n = count_in p n + 1.
Proof.
  intros Hf Hp Hq Hsame. unfold count_in.
  replace n with (f + (1 + (n - f - 1))) by lia. rewrite !seqZ_app, !count_app by lia.
  change (seqZ (0 + f) 1) with [0 + f]. rewrite !count_cons, !Z.add_0_l, Hp, Hq.
  rewrite (count_ext q p (seqZ 0 f)), (count_ext q p (seqZ (f + 1) _)).
  2, 3: intros x Hx%elem_of_seqZ; apply Hsame; lia.
  unfold count at 2 5. cbn. lia.
Qed.

(** ** [for x in lo..hi] *)

Lemma wp_for {S E} (f : Z -> M S E unit) (I : Z -> S -> Prop) lo hi Q X s :
  (forall x s, lo <= x < hi -> I x s -> wp (f x) (fun s' _ => I (x + 1) s') X s) ->
  I lo s -> (forall s, I (Z.max lo hi) s -> Q s tt) ->
  wp (mapM_ f (seqZ lo (hi - lo))) Q X s.
Proof.
  intros Hf HI HQ.
  apply (wp_mono _ (fun s' _ => I (Z.max lo hi) s') _ X); [|intros s' []; apply HQ|done].
  pose (J := fun l s => exists x, lo <= x <= Z.max lo hi /\ l = seqZ x (Z.max lo hi - x) /\ I x s).
  eapply wp_mono; [apply (wp_mapM f J X)| |done].
  - intros y l s' (x & Hx & Hl & Hs). destruct (decide (x = Z.max lo hi)) as [->|].
    { rewrite Z.sub_diag in Hl. done. }
    rewrite seqZ_cons in Hl by lia. injection Hl as -> ->. eapply wp_mono; [apply Hf; [lia|done]| |done].
    intros s2 [] H2. exists (x + 1). split_and!; [lia|lia| |done]. f_equal; lia.
  - exists lo. split_and!; [lia|lia| |done]. destruct (decide (lo <= hi)); [f_equal; lia|].
    rewrite !seqZ_nil by lia. done.
  - cbn. intros s' [] (x & Hx & Hl & Hs). destruct (decide (x = Z.max lo hi)) as [->|]; [done|].
    rewrite seqZ_cons in Hl by lia. done.
Qed.

(** ** 32-bit words *)

Lemma u32_bits x : is_u32 x <-> 0 <= x < 2 ^ 32.
Proof. unfold is_u32, u32_max. lia. Qed.

Lemma u32_lor a b : is_u32 a -> is_u32 b -> is_u32 (Z.lor a b).
Proof.
  rewrite !u32_bits. intros Ha Hb. split; [apply Z.lor_nonneg; lia|].
  destruct (decide (Z.lor a b = 0)) as [->|Hne]; [lia|].
  assert (0 <= Z.lor a b) by (apply Z.lor_nonneg; lia).
  apply Z.log2_lt_pow2; [lia|]. rewrite Z.log2_lor by lia.
  apply Z.max_lub_lt.
  - destruct (decide (a = 0)) as [->|]; [cbn; lia|]. apply Z.log2_lt_pow2; lia.
  - destruct (decide (b = 0)) as [->|]; [cbn; lia|]. apply Z.log2_lt_pow2; lia.
Qed.

Lemma u32_land a b : 0 <= a -> is_u32 b -> is_u32 (Z.land a b).
Proof.
  rewrite !u32_bits. intros Ha Hb. split; [apply Z.land_nonneg; lia|].
  destruct (decide (Z.land a b = 0)) as [->|Hne]; [lia|].
  assert (0 <= Z.land a b) by (apply Z.land_nonneg; lia).
  apply Z.log2_lt_pow2; [lia|]. pose proof (Z.log2_land a b Ha ltac:(lia)).
  assert (b <> 0) by (intros ->; rewrite Z.land_0_r in Hne; lia).
  assert (Z.log2 b < 32) by (apply Z.log2_lt_pow2; lia). lia.
Qed.

(** * Error numbers

    [Errno] of [kernel/src/abi.rs], with the numbers user programs see. *)

Inductive Errno :=
  | EPERM | ENOENT | ESRCH | EINTR | EIO | ENXIO | E2BIG | ENOEXEC | EBADF | ECHILD | EAGAIN
  | ENOMEM | EACCES | EFAULT | EBUSY | EEXIST | EXDEV | ENODEV | ENOTDIR | EISDIR | EINVAL | ENFILE
  | EMFILE | ENOTTY | ETXTBSY | EFBIG | ENOSPC | ESPIPE | EROFS | EMLINK | EPIPE | EDOM | ERANGE
  | ENAMETOOLONG | ENOSYS | ENOTEMPTY | ELOOP | ENOTSOCK | EDESTADDRREQ | EMSGSIZE | EPROTOTYPE
  | ENOPROTOOPT | EPROTONOSUPPORT | EOPNOTSUPP | EAFNOSUPPORT | EADDRINUSE | EADDRNOTAVAIL
  | ENETDOWN | ENETUNREACH | ECONNABORTED | ECONNRESET | ENOBUFS | EISCONN | ENOTCONN | ESHUTDOWN
  | ETIMEDOUT | ECONNREFUSED | EHOSTUNREACH | EALREADY | EINPROGRESS | ESTALE | EUCLEAN.

#[global] Instance errno_eq : EqDecision Errno.
Proof. solve_decision. Defined.

(** [err as i64]. *)
Definition errno_number (e : Errno) : Z :=
  match e with
  | EPERM => 1 | ENOENT => 2 | ESRCH => 3 | EINTR => 4 | EIO => 5 | ENXIO => 6 | E2BIG => 7
  | ENOEXEC => 8 | EBADF => 9 | ECHILD => 10 | EAGAIN => 11 | ENOMEM => 12 | EACCES => 13
  | EFAULT => 14 | EBUSY => 16 | EEXIST => 17 | EXDEV => 18 | ENODEV => 19 | ENOTDIR => 20
  | EISDIR => 21 | EINVAL => 22 | ENFILE => 23 | EMFILE => 24 | ENOTTY => 25 | ETXTBSY => 26
  | EFBIG => 27 | ENOSPC => 28 | ESPIPE => 29 | EROFS => 30 | EMLINK => 31 | EPIPE => 32
  | EDOM => 33 | ERANGE => 34 | ENAMETOOLONG => 36 | ENOSYS => 38 | ENOTEMPTY => 39 | ELOOP => 40
  | ENOTSOCK => 88 | EDESTADDRREQ => 89 | EMSGSIZE => 90 | EPROTOTYPE => 91 | ENOPROTOOPT => 92
  | EPROTONOSUPPORT => 93 | EOPNOTSUPP => 95 | EAFNOSUPPORT => 97 | EADDRINUSE => 98
  | EADDRNOTAVAIL => 99 | ENETDOWN => 100 | ENETUNREACH => 101 | ECONNABORTED => 103
  | ECONNRESET => 104 | ENOBUFS => 105 | EISCONN => 106 | ENOTCONN => 107 | ESHUTDOWN => 108
  | ETIMEDOUT => 110 | ECONNREFUSED => 111 | EHOSTUNREACH => 113 | EALREADY => 114
  | EINPROGRESS => 115 | ESTALE => 116 | EUCLEAN => 117
  end.

(** Two errors have two numbers. *)
Lemma errno_number_inj e e' : errno_number e = errno_number e' -> e = e'.
Proof. destruct e, e'; (done || discriminate). Qed.
