(* ===== verification/Handoff.v ===== *)
(** * What the kernel is told of the machine

    [kernel/src/boot.rs]: the memory map, the modules and the reserved ranges
    the loader hands over. A table of the code, an array and how many of its
    entries are in use, is the list of those entries. *)

From S2P Require Import Prelude.

Record MemRegion := mkRegion { r_addr : Z; r_len : Z; usable : bool }.

(** [MemRegion::end]; [add_region] keeps the sum in a [u64]. *)
Definition r_end (r : MemRegion) : Z := r_addr r + r_len r.

Record PhysRange := mkRange { rg_start : Z; rg_end : Z }.
Record Module_ := mkModule { m_start : Z; m_end : Z }.

Definition MAX_REGIONS : Z := 32.
Definition MAX_MODULES : Z := 8.
Definition MAX_RESERVED : Z := 64.
Definition CMDLINE_MAX : Z := 2048.

Record BootInfo := mkBootInfo {
  regions : list MemRegion;
  modules : list Module_;
  reserved : list PhysRange;
  cmdline_bytes : list Z;
}.

Definition boot_new : BootInfo := mkBootInfo [] [] [] [].

Definition add_region (addr ln : Z) (free : bool) (b : BootInfo) : BootInfo :=
  let ln := Z.min ln (u64_max - addr) in
  if len (regions b) <? MAX_REGIONS
  then mkBootInfo (regions b ++ [mkRegion addr ln free]) (modules b) (reserved b) (cmdline_bytes b)
  else b.

Definition add_module (start end_ : Z) (b : BootInfo) : BootInfo :=
  if (start <? end_) && (len (modules b) <? MAX_MODULES)
  then mkBootInfo (regions b) (modules b ++ [mkModule start end_]) (reserved b) (cmdline_bytes b)
  else b.

(** A range grown to take in another. *)
Definition widen (start end_ : Z) (r : PhysRange) : PhysRange :=
  mkRange (Z.min (rg_start r) start) (Z.max (rg_end r) end_).

Definition touches (start end_ : Z) (r : PhysRange) : bool := (start <=? rg_end r) && (rg_start r <=? end_).

(** The first loop of [reserve]: the first entry that touches is widened. *)
Fixpoint join_first (start end_ : Z) (t : list PhysRange) : option (list PhysRange) :=
  match t with
  | [] => None
  | r :: t =>
      if touches start end_ r then Some (widen start end_ r :: t)
      else cons r <$> join_first start end_ t
  end.

Definition abs_diff (a b : Z) : Z := Z.abs (a - b).

(** The second loop: the entry whose start is nearest. *)
Fixpoint nearest_from (start : Z) (i nearest : nat) (distance : Z) (t : list PhysRange) : nat :=
  match t with
  | [] => nearest
  | r :: t =>
      let d := abs_diff start (rg_start r) in
      if d <? distance then nearest_from start (S i) i d t else nearest_from start (S i) nearest distance t
  end.

Definition reserve_in (start end_ : Z) (t : list PhysRange) : list PhysRange :=
  if end_ <=? start then t
  else
    match join_first start end_ t with
    | Some t => t
    | None =>
        if len t <? MAX_RESERVED then t ++ [mkRange start end_]
        else alter (widen start end_) (nearest_from start 0 0 u64_max t) t
    end.

Definition reserve (start end_ : Z) (b : BootInfo) : BootInfo :=
  mkBootInfo (regions b) (modules b) (reserve_in start end_ (reserved b)) (cmdline_bytes b).

Definition set_cmdline (line : list Z) (b : BootInfo) : BootInfo :=
  mkBootInfo (regions b) (modules b) (reserved b) (take (Z.to_nat CMDLINE_MAX) line).

(** ** What the tables keep *)

(** What a loader can hand over: any sequence of these calls. *)
Inductive handed : BootInfo -> Prop :=
| handed_new : handed boot_new
| handed_region addr ln free b : is_u64 addr -> is_u64 ln -> handed b -> handed (add_region addr ln free b)
| handed_module start end_ b : is_u64 start -> is_u64 end_ -> handed b -> handed (add_module start end_ b)
| handed_reserve start end_ b : is_u64 start -> is_u64 end_ -> handed b -> handed (reserve start end_ b)
| handed_cmdline line b : handed b -> handed (set_cmdline line b).

Definition region_ok (r : MemRegion) : Prop := 0 <= r_addr r /\ 0 <= r_len r /\ r_end r <= u64_max.
Definition range_ok (r : PhysRange) : Prop := 0 <= rg_start r /\ rg_start r < rg_end r <= u64_max.
Definition module_ok (m : Module_) : Prop := 0 <= m_start m /\ m_start m < m_end m <= u64_max.

Record boot_ok (b : BootInfo) : Prop := {
  bo_regions : Forall region_ok (regions b);
  bo_modules : Forall module_ok (modules b);
  bo_reserved : Forall range_ok (reserved b);
  bo_sizes : len (regions b) <= MAX_REGIONS /\ len (modules b) <= MAX_MODULES /\ len (reserved b) <= MAX_RESERVED;
}.

Definition covers (t : list PhysRange) (x : Z) : Prop := Exists (fun r => rg_start r <= x < rg_end r) t.

Lemma widen_ok start end_ r : is_u64 start -> is_u64 end_ -> range_ok r -> range_ok (widen start end_ r).
Proof. unfold is_u64, range_ok, widen. cbn. lia. Qed.

Lemma widen_covers start end_ r x :
  rg_start r <= x < rg_end r \/ start <= x < end_ -> rg_start (widen start end_ r) <= x < rg_end (widen start end_ r).
Proof. unfold widen. cbn. lia. Qed.

Lemma join_first_spec start end_ t t' :
  join_first start end_ t = Some t' ->
  exists t1 r t2, t = t1 ++ r :: t2 /\ t' = t1 ++ widen start end_ r :: t2.
Proof.
  revert t'. induction t as [|r t IH]; intros t' H; [done|]. cbn in H. destruct (touches start end_ r).
  - simplify_eq. by exists [], r, t.
  - destruct (join_first start end_ t) as [u|]; [|done]. cbn in H. simplify_eq.
    destruct (IH u eq_refl) as (t1 & r' & t2 & -> & ->). by exists (r :: t1), r', t2.
Qed.

Lemma nearest_from_lt start t : forall i nearest distance,
  (nearest < i + length t)%nat -> (nearest_from start i nearest distance t < i + length t)%nat.
Proof.
  induction t as [|r t IH]; intros i nearest distance H; [done|]. cbn [nearest_from length] in *.
  replace (i + S (length t))%nat with (S i + length t)%nat in * by lia.
  case_match; apply IH; lia.
Qed.

(** One call leaves the table as it was, but for one entry wider or one more. *)
Lemma reserve_in_cases start end_ t :
  start < end_ ->
  (exists t1 r t2, t = t1 ++ r :: t2 /\ reserve_in start end_ t = t1 ++ widen start end_ r :: t2) \/
  (len t < MAX_RESERVED /\ reserve_in start end_ t = t ++ [mkRange start end_]).
Proof.
  intros Hlt. unfold reserve_in. destruct (end_ <=? start) eqn:E; [lia|].
  destruct (join_first start end_ t) as [t'|] eqn:Ej; [left; by apply join_first_spec|].
  destruct (len t <? MAX_RESERVED) eqn:El; [right; split; [lia|done]|left].
  apply Z.ltb_ge in El. unfold MAX_RESERVED in El. set (n := nearest_from start 0 0 u64_max t).
  assert (n < length t)%nat as Hn by (apply (nearest_from_lt start t 0); lia).
  destruct (lookup_lt_is_Some_2 t n Hn) as [r Hr].
  exists (take n t), r, (drop (S n) t). split; [by rewrite take_drop_middle|].
  apply take_drop_middle in Hr as Ht. rewrite <- Ht at 1.
  rewrite alter_app_r_alt by (rewrite length_take; lia). rewrite length_take. replace (n - n `min` length t)%nat with 0%nat by lia. done.
Qed.

Lemma reserve_in_ok start end_ t :
  is_u64 start -> is_u64 end_ -> Forall range_ok t -> len t <= MAX_RESERVED ->
  Forall range_ok (reserve_in start end_ t) /\ len (reserve_in start end_ t) <= MAX_RESERVED.
Proof.
  intros Hs He Ht Hn. destruct (decide (start < end_)) as [Hlt|Hge].
  2: { unfold reserve_in. by rewrite (proj2 (Z.leb_le end_ start)) by lia. }
  destruct (reserve_in_cases start end_ t Hlt) as [(t1 & r & t2 & -> & ->)|[Hr ->]].
  - rewrite !Forall_app, !Forall_cons, !length_app in *. cbn [length] in *. destruct Ht as (? & ? & ?).
    split_and!; [done|by apply widen_ok|done|lia].
  - rewrite Forall_app, Forall_singleton, length_app. cbn. unfold range_ok, is_u64 in *. cbn. split_and!; try done || lia.
Qed.

Lemma handed_ok b : handed b -> boot_ok b.
Proof.
  induction 1 as [|addr ln free b Ha Hl _ [H1 H2 H3 H4]|start end_ b Hs He _ [H1 H2 H3 H4]
                 |start end_ b Hs He _ [H1 H2 H3 H4]|line b _ [H1 H2 H3 H4]]; try by split.
  - unfold add_region. destruct (len (regions b) <? MAX_REGIONS) eqn:E; [|by split]. split; cbn; [|done..|].
    + apply Forall_app. split; [done|]. apply Forall_singleton. unfold region_ok, r_end, is_u64 in *. cbn. lia.
    + rewrite length_app. cbn. lia.
  - unfold add_module. destruct (start <? end_) eqn:E1; cbn [andb]; [|by split].
    destruct (len (modules b) <? MAX_MODULES) eqn:E2; [|by split]. split; cbn; [done| |done|].
    + apply Forall_app. split; [done|]. apply Forall_singleton. unfold module_ok, is_u64 in *. cbn. lia.
    + rewrite length_app. cbn. lia.
  - destruct H4 as (? & ? & ?). destruct (reserve_in_ok start end_ (reserved b)) as [? ?]; try done.
Qed.

(** What has been reserved stays reserved, and a new range is reserved whole,
    also when the table is full. *)
Lemma reserve_in_covers start end_ t x :
  covers t x \/ start <= x < end_ -> covers (reserve_in start end_ t) x.
Proof.
  intros Hx. unfold covers in *. destruct (decide (start < end_)) as [Hlt|Hge].
  2: { unfold reserve_in. rewrite (proj2 (Z.leb_le end_ start)) by lia. destruct Hx; [done|lia]. }
  destruct (reserve_in_cases start end_ t Hlt) as [(t1 & r & t2 & -> & ->)|[_ ->]]; rewrite !Exists_app, ?Exists_cons in *.
  - destruct Hx as [[?|[?|?]]|?]; [by left|right; left; by apply widen_covers; left|by right; right|
      right; left; by apply widen_covers; right].
  - destruct Hx as [?|?]; [by left|right; left; done].
Qed.
