(* ===== verification/Frame.v ===== *)
(** * The frame allocator

    [kernel/src/mm/frame.rs], with the constants of [mm/mod.rs] and [arch] it
    uses. The bitmap and the reference counts are arrays the kernel reaches
    through raw pointers: an access outside them is stuck here. The allocator is
    behind a spinlock, so one call is one step. *)

From S2P Require Import Prelude Words Handoff.

Definition PAGE_SIZE : Z := 4096.

(** What the portable code asks of the machine it runs on: [arch]. The end of
    the kernel image is the linker's. *)
Class Machine := {
  HHDM_LIMIT : Z;
  DEVICE_PHYS_BASE : Z;
  KERNEL_PHYS_START : Z;
  RESERVED_PHYS : list (Z * Z);
  kernel_phys_end : Z;
}.

Definition aarch64 (image_end : Z) : Machine := {|
  HHDM_LIMIT := 4 * 1024 * 1024 * 1024;
  DEVICE_PHYS_BASE := 0xFC000000;
  KERNEL_PHYS_START := 0x80000;
  RESERVED_PHYS := [(0, 0x80000)];
  kernel_phys_end := image_end;
|}.

Definition x86_64 (image_end : Z) : Machine := {|
  HHDM_LIMIT := 4 * 1024 * 1024 * 1024;
  DEVICE_PHYS_BASE := 4 * 1024 * 1024 * 1024;
  KERNEL_PHYS_START := 0x100000;
  RESERVED_PHYS := [(0, 0x100000)];
  kernel_phys_end := image_end;
|}.

Definition page_align_up {S E} (value : Z) : M S E Z := align_up value PAGE_SIZE.

Record BitmapAllocator := mkAllocator {
  bitmap : list Z;
  refcounts : list Z;
  frames : Z;
  managed : Z;
  used : Z;
  hint : Z;
  bitmap_phys : Z;
  bitmap_bytes : Z;
}.

Definition with_bitmap (w : list Z) (a : BitmapAllocator) : BitmapAllocator :=
  mkAllocator w (refcounts a) (frames a) (managed a) (used a) (hint a) (bitmap_phys a) (bitmap_bytes a).
Definition with_refcounts (c : list Z) (a : BitmapAllocator) : BitmapAllocator :=
  mkAllocator (bitmap a) c (frames a) (managed a) (used a) (hint a) (bitmap_phys a) (bitmap_bytes a).
Definition with_used (n : Z) (a : BitmapAllocator) : BitmapAllocator :=
  mkAllocator (bitmap a) (refcounts a) (frames a) (managed a) n (hint a) (bitmap_phys a) (bitmap_bytes a).
Definition with_hint (n : Z) (a : BitmapAllocator) : BitmapAllocator :=
  mkAllocator (bitmap a) (refcounts a) (frames a) (managed a) (used a) n (bitmap_phys a) (bitmap_bytes a).
Definition with_managed (n : Z) (a : BitmapAllocator) : BitmapAllocator :=
  mkAllocator (bitmap a) (refcounts a) (frames a) n (used a) (hint a) (bitmap_phys a) (bitmap_bytes a).

(** Nothing here returns an error. *)
Definition FM : Type -> Type := M BitmapAllocator Empty_set.

(** [*self.bitmap.add(i)] and [*self.refcounts.add(i)]. *)
Definition word_at (i : Z) : FM Z :=
  fun a => match get (bitmap a) i with Some w => (a, Ok w) | None => (a, Stuck Panic) end.
Definition put_word (i w : Z) : FM unit :=
  fun a => match get (bitmap a) i with
           | Some _ => (with_bitmap (<[Z.to_nat i := w]> (bitmap a)) a, Ok tt)
           | None => (a, Stuck Panic)
           end.

Definition test (frame : Z) : FM bool :=
  let! word := word_at (frame / 64) in ret (test_bit word (frame `mod` 64)).

Definition set (frame : Z) : FM unit :=
  let! word := word_at (frame / 64) in put_word (frame / 64) (set_bit word (frame `mod` 64)).

Definition clear (frame : Z) : FM unit :=
  let! word := word_at (frame / 64) in put_word (frame / 64) (clear_bit word (frame `mod` 64)).

Definition set_count (frame value : Z) : FM unit :=
  fun a => match get (refcounts a) frame with
           | Some _ => (with_refcounts (<[Z.to_nat frame := value]> (refcounts a)) a, Ok tt)
           | None => (a, Stuck Panic)
           end.

Definition count_of (frame : Z) : FM Z :=
  fun a => match get (refcounts a) frame with Some n => (a, Ok n) | None => (a, Stuck Panic) end.

Definition covered : FM Z := let! n := gets frames in u64 (n * PAGE_SIZE).

Definition add_used (n : Z) : FM unit :=
  let! u := gets used in let! u := usize (u + n) in modify (with_used u).

Definition mark_range_used (start end_ : Z) : FM unit :=
  let! top := covered in
  let first := Z.min start top / PAGE_SIZE in
  let! last := page_align_up (Z.min end_ top) in
  let last := last / PAGE_SIZE in
  let! n := gets frames in
  mapM_ (fun f =>
           let! held := test f in
           (if held then ret tt else add_used 1) ;;;
           set f ;;;
           set_count f 1) (seqZ first (Z.min last n - first)).

Definition mark_range_free (start end_ : Z) : FM unit :=
  let! top := covered in
  let! first := page_align_up (Z.min start top) in
  let first := first / PAGE_SIZE in
  let last := Z.min end_ top / PAGE_SIZE in
  let! n := gets frames in
  mapM_ (fun f =>
           let! held := test f in
           (if held then add_used (-1) else ret tt) ;;;
           clear f) (seqZ first (Z.min last n - first)).

(** ** Handing frames out *)

(** The [while] loop of [alloc] over [todo] words from [w]. *)
Fixpoint alloc_words (todo : nat) (w : Z) : FM (option Z) :=
  match todo with
  | O => ret None
  | S todo =>
      let! word := word_at w in
      let next := alloc_words todo (w + 1) in
      if word =? u64_max then next
      else
        let bit := trailing_zeros (not64 word) in
        let! frame := usize (w * 64 + bit) in
        let! n := gets frames in
        if n <=? frame then next
        else
          let! held := test frame in
          if held then next
          else
            set frame ;;;
            set_count frame 1 ;;;
            add_used 1 ;;;
            modify (with_hint (frame + 1)) ;;;
            let! phys := u64 (frame * PAGE_SIZE) in
            ret (Some phys)
  end.

Definition alloc_pass (start end_ : Z) : FM (option Z) :=
  let w := start / 64 in
  let! wend := usize (end_ + 63) in
  alloc_words (Z.to_nat (wend / 64 - w)) w.

Definition alloc : FM (option Z) :=
  let! u := gets used in
  let! n := gets frames in
  if n <=? u then ret None
  else
    let! h := gets hint in
    let! found := alloc_pass h n in
    match found with
    | Some phys => ret (Some phys)
    | None => let! h := gets hint in alloc_pass 0 h
    end.

(** The [for] loop of [alloc_contiguous], at frame [f] with [todo] to go and
    the last [run] of them free. *)
Fixpoint alloc_run (todo : nat) (count f run : Z) : FM (option Z) :=
  match todo with
  | O => ret None
  | S todo =>
      let! held := test f in
      if held then alloc_run todo count (f + 1) 0
      else
        let! run := usize (run + 1) in
        if run =? count then
          let first := f + 1 - count in
          mapM_ (fun x => set x ;;; set_count x 1) (seqZ first count) ;;;
          add_used count ;;;
          let! phys := u64 (first * PAGE_SIZE) in
          ret (Some phys)
        else alloc_run todo count (f + 1) run
  end.

Definition alloc_contiguous (count : Z) : FM (option Z) :=
  if count =? 0 then ret None
  else if count =? 1 then alloc
  else let! n := gets frames in alloc_run (Z.to_nat n) count 0 0.

(** Drop one reference. *)
Definition free (phys : Z) : FM unit :=
  let frame := phys / PAGE_SIZE in
  let! n := gets frames in
  if n <=? frame then ret tt
  else
    let! held := test frame in
    if negb held then ret tt
    else
      let! c := count_of frame in
      let remaining := saturating_sub c 1 in
      set_count frame remaining ;;;
      if 0 <? remaining then ret tt
      else
        add_used (-1) ;;;
        clear frame ;;;
        let! h := gets hint in
        if frame <? h then modify (with_hint frame) else ret tt.

(** Take one: [saturating_add] on a [u16]. *)
Definition share (phys : Z) : FM unit :=
  let frame := phys / PAGE_SIZE in
  let! n := gets frames in
  if frame <? n then
    let! held := test frame in
    if held then let! c := count_of frame in set_count frame (Z.min (c + 1) u16_max) else ret tt
  else ret tt.

Definition references (phys : Z) : FM Z :=
  let frame := phys / PAGE_SIZE in
  let! n := gets frames in
  if frame <? n then count_of frame else ret 0.

Definition total_frames (a : BitmapAllocator) : Z := managed a.
Definition used_frames : FM Z :=
  let! u := gets used in let! n := gets frames in let! m := gets managed in
  let! holes := usize (n - m) in usize (u - holes).
Definition free_frames : FM Z := let! u := gets used in let! n := gets frames in usize (n - u).
Definition bitmap_region (a : BitmapAllocator) : Z * Z := (bitmap_phys a, bitmap_bytes a).

(** ** Building the allocator *)

Section init.
Context `{Machine}.

Definition usable_limit (boot : BootInfo) : Z :=
  let max_addr := foldl (fun top r => if usable r then Z.max top (r_end r) else top) 0 (regions boot) in
  Z.min (Z.min max_addr DEVICE_PHYS_BASE) HHDM_LIMIT.

(** The bytes of the bitmap and of the reference counts. *)
Definition metadata_parts {S} (limit : Z) : M S Empty_set (Z * Z) :=
  let frames := limit / PAGE_SIZE in
  let! bits := usize (frames + 7) in
  let! bitmap_bytes := page_align_up (bits / 8) in
  let! counts := usize (frames * 2) in
  let! refcount_bytes := page_align_up counts in
  ret (bitmap_bytes, refcount_bytes).

Definition metadata_bytes {S} (limit : Z) : M S Empty_set Z :=
  let! '(bitmap_bytes, refcount_bytes) := metadata_parts limit in
  usize (bitmap_bytes + refcount_bytes).

(** A local [BitmapAllocator] of the code, as the state of [m]. *)
Definition run_on {S} (a : BitmapAllocator) (m : FM unit) : M S Empty_set BitmapAllocator :=
  fun s => match m a with
           | (a, Ok _) => (s, Ok a)
           | (_, Err e) => match e with end
           | (_, Stuck w) => (s, Stuck w)
           end.

(** The marks of [build], in order. The ranges the map calls something other
    than usable come after those it calls usable. *)
Definition release_usable (boot : BootInfo) (limit : Z) : FM unit :=
  mapM_ (fun r => if usable r then mark_range_free (r_addr r) (Z.min (r_end r) limit) else ret tt) (regions boot).

Definition hold_unusable (boot : BootInfo) : FM unit :=
  mapM_ (fun r => if usable r then ret tt else mark_range_used (r_addr r) (r_end r)) (regions boot).

Definition hold_ranges (ranges : list (Z * Z)) : FM unit :=
  mapM_ (fun '(start, end_) => mark_range_used start end_) ranges.

Definition build_marks (boot : BootInfo) (limit metadata_phys metadata : Z) : FM unit :=
  release_usable boot limit ;;;
  hold_unusable boot ;;;
  (let! u := gets used in let! n := gets frames in let! m := usize (n - u) in modify (with_managed m)) ;;;
  hold_ranges RESERVED_PHYS ;;;
  mark_range_used KERNEL_PHYS_START kernel_phys_end ;;;
  (let! metadata_end := u64 (metadata_phys + metadata) in mark_range_used metadata_phys metadata_end) ;;;
  hold_ranges ((fun r => (rg_start r, rg_end r)) <$> reserved boot) ;;;
  hold_ranges ((fun m => (m_start m, m_end m)) <$> modules boot).

(** The two [write_bytes]: every bit set, every count zero. *)
Definition fresh (frames metadata_phys bitmap_bytes refcount_bytes : Z) : BitmapAllocator :=
  mkAllocator (replicate (Z.to_nat (bitmap_bytes / 8)) u64_max) (replicate (Z.to_nat (refcount_bytes / 2)) 0)
    frames 0 frames 0 metadata_phys (bitmap_bytes + refcount_bytes).

Definition build {S} (boot : BootInfo) (limit metadata_phys : Z) : M S Empty_set BitmapAllocator :=
  let frames := limit / PAGE_SIZE in
  let! '(bitmap_bytes, refcount_bytes) := metadata_parts limit in
  let! metadata := usize (bitmap_bytes + refcount_bytes) in
  run_on (fresh frames metadata_phys bitmap_bytes refcount_bytes) (build_marks boot limit metadata_phys metadata).

(** What [build] will hold back, in the order [first_overlap] looks. *)
Definition held_back (boot : BootInfo) : list (Z * Z) :=
  [(KERNEL_PHYS_START, kernel_phys_end)] ++
  ((fun r => (rg_start r, rg_end r)) <$> reserved boot) ++
  ((fun m => (m_start m, m_end m)) <$> modules boot) ++
  RESERVED_PHYS ++
  ((fun r => (r_addr r, r_end r)) <$> filter (fun r => usable r = false) (regions boot)).

Definition overlaps (start end_ : Z) (range : Z * Z) : bool := (range.1 <? end_) && (start <? range.2).

Definition first_overlap (boot : BootInfo) (start end_ : Z) : option Z :=
  match position (overlaps start end_) (held_back boot) with
  | Some i => snd <$> held_back boot !! i
  | None => None
  end.

(** The [while] loop of [init] in one usable region. A range that is passed is
    not met again, so it turns at most once per range. *)
Definition search_region {S} (boot : BootInfo) (metadata start end_ : Z) : M S Empty_set (option Z) :=
  loop (Datatypes.S (length (held_back boot))) (fun start =>
    if Z.min (start + metadata) u64_max <=? end_ then
      let! to := u64 (start + metadata) in
      match first_overlap boot start to with
      | None => ret (inr (Some start))
      | Some past =>
          if past <? end_ then let! start := page_align_up past in ret (inl start)
          else ret (inr None)
      end
    else ret (inr None)) start.

Fixpoint search_regions {S} (boot : BootInfo) (limit metadata : Z) (rs : list MemRegion) : M S Empty_set (option Z) :=
  match rs with
  | [] => ret None
  | r :: rs =>
      if negb (usable r) then search_regions boot limit metadata rs
      else
        let end_ := Z.min (r_end r) limit in
        let! start := page_align_up (r_addr r) in
        let! found := search_region boot metadata start end_ in
        match found with
        | Some phys => ret (Some phys)
        | None => search_regions boot limit metadata rs
        end
  end.

(** The static [ALLOCATOR]. *)
Definition AllocM : Type -> Type := M (option BitmapAllocator) Empty_set.

Definition init (boot : BootInfo) : AllocM unit :=
  let limit := usable_limit boot in
  let! metadata := metadata_bytes limit in
  let! phys := search_regions boot limit metadata (regions boot) in
  match phys with
  | None => fail_with Panic
  | Some phys => let! a := build boot limit phys in modify (fun _ => Some a)
  end.
End init.

(** ** The kernel's own calls

    A method of the allocator behind the lock, or [none] before [init]. *)

Definition locked {A} (none : A) (m : FM A) : AllocM A :=
  fun s => match s with
           | None => (None, Ok none)
           | Some a => let (a, r) := m a in (Some a, r)
           end.

(** A [Frame] is its address; dropping one is [free_frame], [into_recorded] and
    [from_recorded] turn it into an address and back. *)
Definition kalloc : AllocM (option Z) := locked None alloc.
Definition kalloc_contiguous (count : Z) : AllocM (option Z) := locked None (alloc_contiguous count).
Definition free_frame (phys : Z) : AllocM unit := locked tt (free phys).
Definition share_frame (phys : Z) : AllocM unit := locked tt (share phys).
Definition frame_share (phys : Z) : AllocM Z := share_frame phys ;;; ret phys.
Definition frame_references (phys : Z) : AllocM Z := locked 0 (references phys).
Definition stats : AllocM (Z * Z) :=
  locked (0, 0) (let! u := used_frames in let! t := gets total_frames in ret (u, t)).
