(* ===== verification/FrameSpec.v ===== *)
(** * What the operations of the frame allocator do

    [held a f]: the bit of frame [f] is set; [refs a f]: its count. The invariant
    [frames_ok] says that the arrays cover the frames ([arrays_ok]) and that
    [used] is the number of bits set. Each operation is described by what it does to [held],
    [refs] and [used]: it changes one frame, or one range of frames. *)

From S2P Require Import Prelude Words Handoff Frame.

Definition held (a : BitmapAllocator) (f : Z) : bool := Z.testbit (bitmap a !!! Z.to_nat (f / 64)) (f `mod` 64).
Definition refs (a : BitmapAllocator) (f : Z) : Z := refcounts a !!! Z.to_nat f.

(** The sizes of a 64-bit machine's memory: a bound far above [HHDM_LIMIT]. *)
Definition MAX_FRAMES : Z := 2 ^ 40.

Record arrays_ok (a : BitmapAllocator) : Prop := {
  fo_frames : 0 <= frames a <= MAX_FRAMES;
  fo_words : frames a <= 64 * len (bitmap a);
  fo_counts : frames a <= len (refcounts a);
  fo_u64 : Forall is_u64 (bitmap a);
  fo_u16 : Forall is_u16 (refcounts a);
  fo_hint : 0 <= hint a <= frames a;
}.

Record frames_ok (a : BitmapAllocator) : Prop := {
  fo_arrays :> arrays_ok a;
  fo_used : used a = count_in (held a) (frames a);
}.

(** [b] is [a] but for [held], [refs], [used] and [hint]. *)
Definition same_memory (a b : BitmapAllocator) : Prop :=
  frames b = frames a /\ managed b = managed a /\ bitmap_phys b = bitmap_phys a /\ bitmap_bytes b = bitmap_bytes a.

#[global] Instance same_memory_po : PreOrder same_memory.
Proof. unfold same_memory. split; [by intros a|intros a b c]. intuition congruence. Qed.

Lemma held_count a : frames_ok a -> 0 <= used a <= frames a.
Proof. intros Ha. rewrite (fo_used a Ha). apply count_in_bounds, Ha. Qed.

Lemma held_all a : frames_ok a -> used a = frames a <-> forall f, 0 <= f < frames a -> held a f = true.
Proof. intros Ha. rewrite (fo_used a Ha). apply count_in_all, Ha. Qed.

Lemma frame_word a f : arrays_ok a -> 0 <= f < frames a -> exists w, get (bitmap a) (f / 64) = Some w /\ is_u64 w /\
  bitmap a !!! Z.to_nat (f / 64) = w.
Proof.
  intros Ha Hf. unfold get. replace (0 <=? f / 64) with true by lia.
  destruct (lookup_lt_is_Some_2 (bitmap a) (Z.to_nat (f / 64))) as [w Hw].
  { pose proof (fo_words a Ha). lia. }
  exists w. split; [done|]. split; [exact (Forall_lookup_1 _ _ _ _ (fo_u64 a Ha) Hw)|]. by apply list_lookup_total_correct.
Qed.

Lemma frame_count a f : arrays_ok a -> 0 <= f < frames a ->
  get (refcounts a) f = Some (refs a f) /\ is_u16 (refs a f).
Proof.
  intros Ha Hf. unfold get. replace (0 <=? f) with true by lia.
  destruct (lookup_lt_is_Some_2 (refcounts a) (Z.to_nat f)) as [n Hn].
  { pose proof (fo_counts a Ha). lia. }
  unfold refs. rewrite (list_lookup_total_correct _ _ _ Hn).
  split; [done|exact (Forall_lookup_1 _ _ _ _ (fo_u16 a Ha) Hn)].
Qed.

(** ** One bit, one count *)

Lemma wp_test a f (Q : BitmapAllocator -> bool -> Prop) X :
  arrays_ok a -> 0 <= f < frames a -> Q a (held a f) -> wp (test f) Q X a.
Proof.
  intros Ha Hf HQ. destruct (frame_word a f Ha Hf) as (w & Hw & Hu & Ht).
  unfold test. apply wp_bind. unfold word_at, wp. rewrite Hw. cbn. rewrite test_bit_spec by lia. by rewrite <- Ht.
Qed.

(** [a] with the bit of [f] made [v]. *)
Definition write_held (f : Z) (v : bool) (a : BitmapAllocator) : BitmapAllocator :=
  let w := bitmap a !!! Z.to_nat (f / 64) in
  with_bitmap (<[Z.to_nat (f / 64) := if v then set_bit w (f `mod` 64) else clear_bit w (f `mod` 64)]> (bitmap a)) a.

Lemma wp_write_held a f (v : bool) (Q : BitmapAllocator -> unit -> Prop) X :
  arrays_ok a -> 0 <= f < frames a -> Q (write_held f v a) tt -> wp (if v then set f else clear f) Q X a.
Proof.
  intros Ha Hf HQ. destruct (frame_word a f Ha Hf) as (w & Hw & Hu & Ht). unfold write_held in HQ. rewrite Ht in HQ.
  destruct v; unfold set, clear; apply wp_bind; unfold word_at, put_word, wp; rewrite Hw; cbn; rewrite Hw; done.
Qed.

Lemma held_write a f v g :
  arrays_ok a -> 0 <= f < frames a -> 0 <= g ->
  held (write_held f v a) g = if decide (g = f) then v else held a g.
Proof.
  intros Ha Hf Hg. destruct (frame_word a f Ha Hf) as (w & Hw & Hu & Ht). unfold held, write_held. rewrite Ht. cbn.
  unfold get in Hw. replace (0 <=? f / 64) with true in Hw by lia. apply lookup_lt_Some in Hw as Hlt.
  destruct (decide (g / 64 = f / 64)) as [E|E].
  - rewrite E, list_lookup_total_insert_eq by done. rewrite Ht.
    destruct v; [rewrite set_bit_spec by lia|rewrite clear_bit_spec by lia].
    all: destruct (decide (g = f)) as [->|Hne]; [by rewrite bool_decide_true|].
    all: rewrite bool_decide_false by lia; done.
  - rewrite list_lookup_total_insert_ne by lia. rewrite decide_False by (intros ->; done). done.
Qed.

Lemma write_held_arrays a f v :
  arrays_ok a -> 0 <= f < frames a ->
  length (bitmap (write_held f v a)) = length (bitmap a) /\ Forall is_u64 (bitmap (write_held f v a)).
Proof.
  intros Ha Hf. destruct (frame_word a f Ha Hf) as (w & Hw & Hu & Ht). unfold write_held. rewrite Ht. cbn.
  rewrite length_insert. split; [done|]. apply Forall_insert; [apply Ha|].
  destruct v; [apply set_bit_u64; [done|lia]|by apply clear_bit_u64].
Qed.

Definition write_count (f n : Z) (a : BitmapAllocator) : BitmapAllocator :=
  with_refcounts (<[Z.to_nat f := n]> (refcounts a)) a.

Lemma wp_set_count a f n (Q : BitmapAllocator -> unit -> Prop) X :
  arrays_ok a -> 0 <= f < frames a -> Q (write_count f n a) tt -> wp (set_count f n) Q X a.
Proof. intros Ha Hf HQ. unfold wp, set_count. by rewrite (proj1 (frame_count a f Ha Hf)). Qed.

Lemma wp_count_of a f (Q : BitmapAllocator -> Z -> Prop) X :
  arrays_ok a -> 0 <= f < frames a -> Q a (refs a f) -> wp (count_of f) Q X a.
Proof. intros Ha Hf HQ. unfold wp, count_of. by rewrite (proj1 (frame_count a f Ha Hf)). Qed.

Lemma refs_write a f n g :
  arrays_ok a -> 0 <= f < frames a -> 0 <= g ->
  refs (write_count f n a) g = if decide (g = f) then n else refs a g.
Proof.
  intros Ha Hf Hg. unfold refs, write_count. cbn. pose proof (fo_counts a Ha). case_decide as E.
  - subst. apply list_lookup_total_insert_eq. lia.
  - apply list_lookup_total_insert_ne. lia.
Qed.

(** ** One frame taken, one given back *)

Definition take_frame (f : Z) (a : BitmapAllocator) : BitmapAllocator :=
  write_count f 1 (write_held f true a).

Lemma write_held_ok a f v : arrays_ok a -> 0 <= f < frames a -> arrays_ok (write_held f v a).
Proof.
  intros Ha Hf. destruct (write_held_arrays a f v Ha Hf) as [Hl Hu].
  split; try apply Ha; [|done]. rewrite Hl. apply Ha.
Qed.

Lemma write_count_ok a f n : arrays_ok a -> is_u16 n -> arrays_ok (write_count f n a).
Proof.
  intros Ha Hn. split; try apply Ha; cbn; [rewrite length_insert; apply Ha|]. apply Forall_insert; [apply Ha|done].
Qed.

Lemma with_used_ok a n : arrays_ok a -> arrays_ok (with_used n a).
Proof. intros Ha. split; apply Ha. Qed.

Lemma with_hint_ok a n : arrays_ok a -> 0 <= n <= frames a -> arrays_ok (with_hint n a).
Proof. intros Ha Hn. split; try apply Ha. done. Qed.

Lemma take_frame_ok a f : arrays_ok a -> 0 <= f < frames a -> arrays_ok (take_frame f a).
Proof. intros Ha Hf. apply write_count_ok; [by apply write_held_ok|]. unfold is_u16, u16_max. lia. Qed.

Lemma held_take a f g :
  arrays_ok a -> 0 <= f < frames a -> 0 <= g -> held (take_frame f a) g = (if decide (g = f) then true else held a g).
Proof. intros. by apply (held_write a f true g). Qed.

Lemma refs_take a f g :
  arrays_ok a -> 0 <= f < frames a -> 0 <= g -> refs (take_frame f a) g = (if decide (g = f) then 1 else refs a g).
Proof. intros Ha Hf Hg. unfold take_frame. rewrite refs_write; [done|by apply write_held_ok|done|done]. Qed.

Lemma used_after a b f (v : bool) :
  frames_ok a -> frames b = frames a -> 0 <= f < frames a -> held a f = negb v ->
  (forall g, 0 <= g -> held b g = if decide (g = f) then v else held a g) ->
  count_in (held b) (frames b) = used a + (if v then 1 else -1).
Proof.
  intros Ha Hfr Hf Hv Hb. rewrite (fo_used a Ha), Hfr. destruct v.
  - rewrite (count_in_flip (held a) (held b) f); [done|done|done| |].
    + rewrite Hb by lia. by rewrite decide_True.
    + intros x Hx Hne. rewrite Hb by lia. by rewrite decide_False.
  - rewrite (count_in_flip (held b) (held a) f); [lia|done| |done|].
    + rewrite Hb by lia. by rewrite decide_True.
    + intros x Hx Hne. rewrite Hb by lia. by rewrite decide_False.
Qed.

Lemma wp_add_used a n (Q : BitmapAllocator -> unit -> Prop) X :
  0 <= used a + n <= u64_max -> Q (with_used (used a + n) a) tt -> wp (add_used n) Q X a.
Proof. intros Hn HQ. unfold add_used. by wp_steps. Qed.

(** ** Ranges *)

(** The page of frame [f] meets [start, end_), or lies inside it. *)
Definition page_meets (start end_ f : Z) : bool := (start <? (f + 1) * PAGE_SIZE) && (f * PAGE_SIZE <? end_).
Definition page_inside (start end_ f : Z) : bool := (start <=? f * PAGE_SIZE) && ((f + 1) * PAGE_SIZE <=? end_).

Lemma page_align_spec {S} v Q X (s : S) :
  0 <= v <= MAX_FRAMES * PAGE_SIZE -> (forall a, rounded_up v PAGE_SIZE a -> Q s a) ->
  wp (page_align_up (E := Empty_set) v) Q X s.
Proof. intros Hv HQ. unfold page_align_up. apply (wp_align_up v 12); unfold MAX_FRAMES, PAGE_SIZE, u64_max in *; try lia. done. Qed.

Lemma wp_covered a (Q : BitmapAllocator -> Z -> Prop) X :
  arrays_ok a -> Q a (frames a * PAGE_SIZE) -> wp covered Q X a.
Proof. intros Ha HQ. unfold covered. pose proof (fo_frames a Ha). unfold MAX_FRAMES, PAGE_SIZE in *. by wp_steps. Qed.

Lemma take_held_ok a f : frames_ok a -> 0 <= f < frames a -> held a f = true -> frames_ok (take_frame f a).
Proof.
  intros Ha Hf Hh. split; [apply take_frame_ok; [apply Ha|done]|]. change (frames (take_frame f a)) with (frames a).
  transitivity (count_in (held a) (frames a)); [apply Ha|]. apply count_in_ext. intros x Hx.
  rewrite held_take by (apply Ha || lia). case_decide; [by subst|done].
Qed.

Lemma take_free_ok a f :
  frames_ok a -> 0 <= f < frames a -> held a f = false -> frames_ok (with_used (used a + 1) (take_frame f a)).
Proof.
  intros Ha Hf Hh. split; [apply with_used_ok, take_frame_ok; [apply Ha|done]|].
  symmetry. apply (used_after a _ f true); [done..|]. intros g Hg. by apply held_take; [apply Ha|..].
Qed.

(** [b] has [held] and [refs] of [a], but for the frames in [p], which are now
    [v] with [n] references. *)
Definition marked (p : Z -> bool) (v : bool) (n : option Z) (a b : BitmapAllocator) : Prop :=
  frames_ok b /\ same_memory a b /\ hint b = hint a /\
  forall g, 0 <= g < frames a -> held b g = (if p g then v else held a g) /\
    (forall c, n = Some c -> refs b g = if p g then c else refs a g) /\ (n = None -> refs b g = refs a g).

Lemma marked_ext p q v n a b : (forall g, 0 <= g < frames a -> p g = q g) -> marked p v n a b -> marked q v n a b.
Proof. intros Hpq (H1 & H2 & H3 & H4). split_and!; [done..|]. intros g Hg. rewrite <- Hpq by done. by apply H4. Qed.

(** One frame more. *)
Lemma marked_step lo x v n a b c :
  marked (fun g => bool_decide (lo <= g < x)) v n a b -> lo <= x < frames a -> 0 <= lo ->
  marked (fun g => bool_decide (g = x)) v n b c ->
  marked (fun g => bool_decide (lo <= g < x + 1)) v n a c.
Proof.
  intros (_ & Hm & Hh & H) Hx Hlo (Hc & Hm' & Hh' & H'). split_and!; [done|by etrans|congruence|].
  intros g Hg. destruct Hm as [Hfr _]. rewrite <- Hfr in Hg. destruct (H' g Hg) as (E1 & E2 & E3).
  rewrite Hfr in Hg. destruct (H g Hg) as (F1 & F2 & F3).
  destruct (decide (g = x)) as [->|Hne].
  - rewrite bool_decide_true in E1, E2 by done. rewrite (bool_decide_true (lo <= x < x + 1)) by lia.
    rewrite bool_decide_false in F1, F2 by lia. split_and!; [done|auto|]. intros Hn. by rewrite E3, F3.
  - rewrite bool_decide_false in E1, E2 by done.
    rewrite (bool_decide_ext (lo <= g < x + 1) (lo <= g < x)) by lia.
    split_and!; [congruence| |intros Hn; by rewrite E3, F3]. intros k Hk. rewrite (E2 k Hk). auto.
Qed.

Lemma marked_nothing lo x v n a : frames_ok a -> x <= lo -> marked (fun g => bool_decide (lo <= g < x)) v n a a.
Proof. intros Ha Hx. split_and!; [done..|]. intros g Hg. rewrite bool_decide_false by lia. done. Qed.

Lemma wp_hold_one a f (Q : BitmapAllocator -> unit -> Prop) X :
  frames_ok a -> 0 <= f < frames a ->
  (forall b, marked (fun g => bool_decide (g = f)) true (Some 1) a b -> Q b tt) ->
  wp (let! held := test f in (if held then ret tt else add_used 1) ;;; set f ;;; set_count f 1) Q X a.
Proof.
  intros Ha Hf HQ. pose proof (held_count a Ha). pose proof (fo_frames a Ha). unfold MAX_FRAMES in *.
  apply wp_bind, wp_test; [apply Ha|done|]. destruct (held a f) eqn:Hh; apply wp_bind; [apply wp_ret|apply wp_add_used; [unfold u64_max; lia|]].
  all: apply wp_bind, (wp_write_held _ f true); [by try apply with_used_ok; apply Ha|done|].
  all: apply wp_set_count; [apply write_held_ok; [by try apply with_used_ok; apply Ha|done]|done|]; apply HQ.
  all: split_and!; [|done|done|].
  - by apply take_held_ok.
  - intros g Hg. fold (take_frame f a). rewrite held_take, refs_take by (apply Ha || lia).
    destruct (decide (g = f)); [rewrite bool_decide_true by done|rewrite bool_decide_false by done]; split_and!; naive_solver.
  - exact (take_free_ok a f Ha Hf Hh).
  - intros g Hg. change (write_count f 1 (write_held f true (with_used (used a + 1) a))) with (with_used (used a + 1) (take_frame f a)).
    change (held (with_used ?n ?b)) with (held b). change (refs (with_used ?n ?b)) with (refs b).
    rewrite held_take, refs_take by (apply Ha || lia).
    destruct (decide (g = f)); [rewrite bool_decide_true by done|rewrite bool_decide_false by done]; split_and!; naive_solver.
Qed.

(** What [mark_range_used] holds and [mark_range_free] releases, exactly. *)
Lemma wp_mark_range_used a start end_ (Q : BitmapAllocator -> unit -> Prop) X :
  frames_ok a -> is_u64 start -> is_u64 end_ ->
  (forall b, marked (page_meets start end_) true (Some 1) a b -> Q b tt) ->
  wp (mark_range_used start end_) Q X a.
Proof.
  intros Ha Hs He HQ. pose proof (fo_frames a Ha) as Hn. unfold is_u64 in *. unfold mark_range_used.
  apply wp_bind, wp_covered; [apply Ha|]. apply wp_bind, page_align_spec; [unfold PAGE_SIZE; lia|].
  intros top [Ht1 Ht2]. apply wp_bind, wp_gets. unfold PAGE_SIZE in *.
  set (first := Z.min start (frames a * 4096) / 4096). set (last := Z.min (top / 4096) (frames a)).
  apply (wp_for _ (fun x s => marked (fun g => bool_decide (first <= g < x)) true (Some 1) a s)).
  - intros x s Hx Hs'. pose proof Hs' as (Hok & [Hfr _] & _ & _). apply wp_hold_one; [done|lia|].
    intros b Hb. eapply marked_step; [exact Hs'|lia|lia|done].
  - apply marked_nothing; [done|lia].
  - intros s Hs'. apply HQ. eapply marked_ext; [|exact Hs']. intros g Hg.
    apply eq_true_iff_eq. unfold page_meets, PAGE_SIZE. rewrite bool_decide_eq_true, andb_true_iff, !Z.ltb_lt. lia.
Qed.

Lemma clear_held_ok a f :
  frames_ok a -> 0 <= f < frames a -> held a f = true ->
  1 <= used a /\ frames_ok (write_held f false (with_used (used a - 1) a)).
Proof.
  intros Ha Hf Hh.
  assert (Hc : count_in (held (write_held f false a)) (frames a) = used a + (-1)).
  { apply (used_after a (write_held f false a) f false); [done..|]. intros g Hg. apply held_write; [apply Ha|done|done]. }
  pose proof (count_in_bounds (held (write_held f false a)) (frames a) ltac:(apply Ha)).
  split; [lia|]. split; [apply write_held_ok; [apply with_used_ok, Ha|done]|]. symmetry. exact Hc.
Qed.

Lemma clear_free_ok a f : frames_ok a -> 0 <= f < frames a -> held a f = false -> frames_ok (write_held f false a).
Proof.
  intros Ha Hf Hh. split; [apply write_held_ok; [apply Ha|done]|].
  transitivity (count_in (held a) (frames a)); [apply Ha|]. apply count_in_ext. intros x Hx.
  rewrite held_write by (apply Ha || lia). case_decide; [by subst|done].
Qed.

Lemma wp_release_one a f (Q : BitmapAllocator -> unit -> Prop) X :
  frames_ok a -> 0 <= f < frames a ->
  (forall b, marked (fun g => bool_decide (g = f)) false None a b -> Q b tt) ->
  wp (let! held := test f in (if held then add_used (-1) else ret tt) ;;; clear f) Q X a.
Proof.
  intros Ha Hf HQ. pose proof (held_count a Ha). pose proof (fo_frames a Ha). unfold MAX_FRAMES in *.
  assert (Hm : forall b, frames_ok (write_held f false b) -> b = a \/ b = with_used (used a - 1) a ->
            marked (fun g => bool_decide (g = f)) false None a (write_held f false b)).
  { intros b Hb Heq. split_and!; [done|by destruct Heq as [-> | ->]..|]. intros g Hg.
    assert (Hw : held (write_held f false b) g = held (write_held f false a) g) by (by destruct Heq as [-> | ->]).
    rewrite Hw, held_write by (apply Ha || lia).
    split_and!; [by destruct (decide (g = f)); [rewrite bool_decide_true by done|rewrite bool_decide_false by done]|done|].
    by destruct Heq as [-> | ->]. }
  apply wp_bind, wp_test; [apply Ha|done|]. destruct (held a f) eqn:Hh; apply wp_bind; [apply wp_add_used|apply wp_ret].
  - destruct (clear_held_ok a f Ha Hf Hh). unfold u64_max. lia.
  - apply (wp_write_held _ f false); [apply with_used_ok, Ha|done|]. apply HQ, Hm; [|by right].
    apply (clear_held_ok a f Ha Hf Hh).
  - apply (wp_write_held _ f false); [apply Ha|done|]. apply HQ, Hm; [|by left]. by apply clear_free_ok.
Qed.

Lemma wp_mark_range_free a start end_ (Q : BitmapAllocator -> unit -> Prop) X :
  frames_ok a -> is_u64 start -> is_u64 end_ ->
  (forall b, marked (page_inside start end_) false None a b -> Q b tt) ->
  wp (mark_range_free start end_) Q X a.
Proof.
  intros Ha Hs He HQ. pose proof (fo_frames a Ha) as Hn. unfold is_u64 in *. unfold mark_range_free.
  apply wp_bind, wp_covered; [apply Ha|]. apply wp_bind, page_align_spec; [unfold PAGE_SIZE; lia|].
  intros low [Ht1 Ht2]. apply wp_bind, wp_gets. unfold PAGE_SIZE in *.
  set (first := low / 4096). set (last := Z.min (Z.min end_ (frames a * 4096) / 4096) (frames a)).
  apply (wp_for _ (fun x s => marked (fun g => bool_decide (first <= g < x)) false None a s)).
  - intros x s Hx Hs'. pose proof Hs' as (Hok & [Hfr _] & _ & _). apply wp_release_one; [done|lia|].
    intros b Hb. eapply marked_step; [exact Hs'|lia|lia|done].
  - apply marked_nothing; [done|lia].
  - intros s Hs'. apply HQ. eapply marked_ext; [|exact Hs']. intros g Hg.
    apply eq_true_iff_eq. unfold page_inside, PAGE_SIZE. rewrite bool_decide_eq_true, andb_true_iff, !Z.leb_le. lia.
Qed.
