(* ===== verification/FrameAlloc.v ===== *)
(** * Handing frames out and taking them back

    [alloc] scans the bitmap a word at a time and picks the lowest clear bit of
    the first word that has one; that is a next-fit search, frame by frame, from
    the first frame of the word the hint is in. [alloc_contiguous] finds the
    first run that is long enough, [free] and [share] count references. *)

From S2P Require Import Prelude Words Handoff Frame FrameSpec.

(** ** The search [alloc] is equivalent to *)

(** The first of [lo .. hi - 1] that is not in [p]. *)
Definition first_in (p : Z -> bool) (lo hi : Z) : option Z := head (filter (fun f => p f = false) (seqZ lo (hi - lo))).

(** From the word of the hint to the end, then from the start. *)
Definition next_fit (p : Z -> bool) (n h : Z) : option Z :=
  match first_in p (64 * (h / 64)) n with
  | Some f => Some f
  | None => first_in p 0 n
  end.

Definition lowest (p : Z -> bool) (lo hi : Z) (r : option Z) : Prop :=
  match r with
  | Some f => lo <= f < hi /\ p f = false /\ forall g, lo <= g < f -> p g = true
  | None => forall g, lo <= g < hi -> p g = true
  end.

Lemma first_in_lowest p lo hi : lowest p lo hi (first_in p lo hi).
Proof.
  unfold lowest, first_in. destruct (head _) as [f|] eqn:E.
  - destruct (filter _ _) as [|f' l] eqn:El; [done|]. cbn in E. simplify_eq.
    assert (Hf : f ∈ filter (fun f => p f = false) (seqZ lo (hi - lo))) by (rewrite El; left).
    apply list_elem_of_filter in Hf as [Hp Hf%elem_of_seqZ]. split_and!; [lia|lia|done|].
    intros g Hg. destruct (p g) eqn:Eg; [done|exfalso].
    replace (hi - lo) with (f - lo + (hi - f)) in El by lia. rewrite seqZ_app, filter_app in El by lia.
    assert (Hin : g ∈ filter (fun f => p f = false) (seqZ lo (f - lo))).
    { apply list_elem_of_filter. split; [done|]. apply elem_of_seqZ. lia. }
    destruct (filter _ (seqZ lo (f - lo))) as [|g' l'] eqn:El'; [by apply elem_of_nil in Hin|].
    cbn in El. simplify_eq.
    assert (Hf' : f ∈ filter (fun f => p f = false) (seqZ lo (f - lo))) by (rewrite El'; left).
    apply list_elem_of_filter in Hf' as [_ Hf'%elem_of_seqZ]. lia.
  - destruct (filter _ _) as [|f' l] eqn:El; [|done]. intros g Hg. destruct (p g) eqn:Eg; [done|exfalso].
    assert (Hin : g ∈ filter (fun f => p f = false) (seqZ lo (hi - lo))).
    { apply list_elem_of_filter. split; [done|]. apply elem_of_seqZ. lia. }
    rewrite El in Hin. by apply elem_of_nil in Hin.
Qed.

Lemma lowest_unique p lo hi r r' : lowest p lo hi r -> lowest p lo hi r' -> r = r'.
Proof.
  destruct r as [f|], r' as [g|]; cbn; [|intros (Hf & Pf & _) H; by rewrite H in Pf|intros H (Hf & Pf & _); by rewrite H in Pf|done].
  intros (Hf & Pf & Lf) (Hg & Pg & Lg). destruct (Ztrichotomy f g) as [H|[-> |H]]; [|done|].
  - rewrite Lg in Pf by lia. done.
  - rewrite Lf in Pg by lia. done.
Qed.

(** What [alloc] leaves when it has chosen [f]. *)
Definition handed_out (f : Z) (a : BitmapAllocator) : BitmapAllocator :=
  with_hint (f + 1) (with_used (used a + 1) (take_frame f a)).

Lemma handed_out_ok a f : frames_ok a -> 0 <= f < frames a -> held a f = false -> frames_ok (handed_out f a).
Proof.
  intros Ha Hf Hh. destruct (take_free_ok a f Ha Hf Hh) as [H1 H2].
  split; [|exact H2]. apply with_hint_ok; [done|]. cbn. lia.
Qed.

(** The lowest clear bit of a word is the lowest frame of its 64 that is free. *)
Lemma word_lowest a w word :
  arrays_ok a -> 0 <= w -> get (bitmap a) w = Some word -> word <> u64_max ->
  let f := w * 64 + trailing_zeros (not64 word) in
  w * 64 <= f < (w + 1) * 64 /\ held a f = false /\ forall g, w * 64 <= g < f -> held a g = true.
Proof.
  intros Ha Hw Hget Hne. assert (Hl : bitmap a !! Z.to_nat w = Some word).
  { unfold get in Hget. by rewrite (proj2 (Z.leb_le 0 w) Hw) in Hget. }
  assert (Hu : is_u64 word) by exact (Forall_lookup_1 _ _ _ _ (fo_u64 a Ha) Hl).
  destruct (first_clear_bit word Hu Hne) as (Hb & Hclear & Hlow). cbn zeta. set (b := trailing_zeros (not64 word)) in *.
  assert (Hheld : forall i, 0 <= i < 64 -> held a (w * 64 + i) = Z.testbit word i).
  { intros i Hi. unfold held. replace ((w * 64 + i) / 64) with w by lia. replace ((w * 64 + i) `mod` 64) with i by lia.
    by rewrite (list_lookup_total_correct _ _ _ Hl). }
  split_and!; [lia|lia|by rewrite Hheld|]. intros g Hg. replace g with (w * 64 + (g - w * 64)) by lia.
  rewrite Hheld by lia. apply Hlow. lia.
Qed.

Lemma word_full a w : get (bitmap a) w = Some u64_max -> 0 <= w -> forall g, w * 64 <= g < (w + 1) * 64 -> held a g = true.
Proof.
  intros Hget Hw g Hg. unfold get in Hget. rewrite (proj2 (Z.leb_le 0 w) Hw) in Hget.
  unfold held. replace (g / 64) with w by lia. rewrite (list_lookup_total_correct _ _ _ Hget). apply full_word; [done|lia].
Qed.

Lemma wp_alloc_words a todo : forall w,
  frames_ok a -> 0 <= w -> w + Z.of_nat todo <= (frames a + 63) / 64 ->
  wp (alloc_words todo w)
    (fun b r => exists o, lowest (held a) (w * 64) (Z.min (frames a) ((w + Z.of_nat todo) * 64)) o /\
       r = (fun f => f * PAGE_SIZE) <$> o /\ b = match o with Some f => handed_out f a | None => a end)
    (fun _ _ => False) a.
Proof.
  induction todo as [|todo IH]; intros w Ha Hw Htop.
  { apply wp_ret. exists None. split_and!; [|done|done]. cbn. lia. }
  pose proof (fo_frames a Ha) as Hn. pose proof (fo_words a Ha) as Hwords. unfold MAX_FRAMES in Hn.
  cbn [alloc_words].
  destruct (lookup_lt_is_Some_2 (bitmap a) (Z.to_nat w)) as [word Hword]; [lia|].
  assert (Hget : get (bitmap a) w = Some word) by (unfold get; by rewrite (proj2 (Z.leb_le 0 w) Hw)).
  assert (Hskip : (forall g, w * 64 <= g < Z.min (frames a) ((w + 1) * 64) -> held a g = true) ->
    wp (alloc_words todo (w + 1))
      (fun b r => exists o, lowest (held a) (w * 64) (Z.min (frames a) ((w + Z.of_nat (S todo)) * 64)) o /\
         r = (fun f => f * PAGE_SIZE) <$> o /\ b = match o with Some f => handed_out f a | None => a end)
      (fun _ _ => False) a).
  { intros Hall. eapply wp_mono; [apply (IH (w + 1)); [done|lia|lia]| |done].
    intros b r (o & Ho & -> & ->). exists o. split_and!; [|done|done].
    replace (w + Z.of_nat (S todo)) with (w + 1 + Z.of_nat todo) by lia. destruct o as [f|]; cbn in *.
    - destruct Ho as (Hf & Hp & Hlow). split_and!; [lia|lia|done|]. intros g Hg.
      destruct (decide (g < (w + 1) * 64)); [apply Hall; lia|apply Hlow; lia].
    - intros g Hg. destruct (decide (g < (w + 1) * 64)); [apply Hall; lia|apply Ho; lia]. }
  apply wp_bind. unfold word_at at 1, wp at 1. rewrite Hget.
  destruct (word =? u64_max) eqn:Emax.
  { apply Z.eqb_eq in Emax as ->. apply Hskip. intros g Hg. apply (word_full a w Hget Hw). lia. }
  apply Z.eqb_neq in Emax. destruct (word_lowest a w word Ha Hw Hget Emax) as (Hf & Hfree & Hlow).
  cbn zeta in *. set (f := w * 64 + trailing_zeros (not64 word)) in *.
  wp_steps.
  { apply Hskip. intros g Hg. apply Hlow. lia. }
  apply wp_test; [apply Ha|lia|]. rewrite Hfree. pose proof (held_count a Ha).
  apply wp_bind, (wp_write_held _ f true); [apply Ha|lia|].
  apply wp_bind, wp_set_count; [apply write_held_ok; [apply Ha|lia]|cbn; lia|]. fold (take_frame f a).
  apply wp_bind, wp_add_used; [change (used (take_frame f a)) with (used a); unfold u64_max; lia|].
  apply wp_bind, wp_modify, wp_bind, wp_checked; [unfold PAGE_SIZE, u64_max; lia|].
  apply wp_ret. exists (Some f). split_and!; [|done|done]. cbn. split_and!; [lia|lia|done|done].
Qed.

Lemma alloc_is_next_fit_eq a :
  frames_ok a ->
  alloc a = match next_fit (held a) (frames a) (hint a) with
            | Some f => (handed_out f a, Ok (Some (f * PAGE_SIZE)))
            | None => (a, Ok None)
            end.
Proof.
  intros Ha. pose proof (held_count a Ha) as Hu. pose proof (fo_hint a Ha) as Hh. pose proof (fo_frames a Ha) as Hn.
  unfold MAX_FRAMES in Hn.
  enough (H : wp alloc (fun b r => exists o, o = next_fit (held a) (frames a) (hint a) /\
              r = (fun f => f * PAGE_SIZE) <$> o /\ b = match o with Some f => handed_out f a | None => a end)
            (fun _ _ => False) a).
  { unfold wp in H. destruct (alloc a) as [b [r|e|w]]; [|done..]. destruct H as (o & <- & -> & ->). by destruct o. }
  pose proof (first_in_lowest (held a) (64 * (hint a / 64)) (frames a)) as H1.
  pose proof (first_in_lowest (held a) 0 (frames a)) as H2. unfold next_fit.
  unfold alloc. apply wp_bind, wp_gets, wp_bind, wp_gets. destruct (frames a <=? used a) eqn:Efull.
  { apply wp_ret. exists None. split_and!; [|done|done].
    assert (Hall : forall f, 0 <= f < frames a -> held a f = true) by (apply held_all; [done|lia]).
    rewrite (lowest_unique (held a) (64 * (hint a / 64)) (frames a) _ None H1) by (intros g Hg; apply Hall; lia).
    apply (lowest_unique (held a) 0 (frames a)); [done|done]. }
  apply wp_bind, wp_gets, wp_bind. unfold alloc_pass. apply wp_bind, wp_checked; [unfold u64_max; lia|].
  eapply wp_mono; [apply (wp_alloc_words a); [done|lia|lia]| |done].
  intros b r (o & Ho & -> & ->).
  replace (hint a / 64 + _) with ((frames a + 63) / 64) in Ho by lia.
  replace (hint a / 64 * 64) with (64 * (hint a / 64)) in Ho by lia.
  rewrite Z.min_l in Ho by lia. rewrite (lowest_unique _ _ _ _ _ H1 Ho).
  destruct o as [f|]; cbn [fmap option_fmap option_map]; [apply wp_ret; by exists (Some f)|].
  apply wp_bind, wp_gets, wp_bind, wp_checked; [unfold u64_max; lia|].
  eapply wp_mono; [apply (wp_alloc_words a); [done|lia|lia]| |done].
  intros b r (o & Ho' & -> & ->). exists o. split_and!; [|done|done].
  apply (lowest_unique (held a) 0 (frames a)); [|done].
  cbn in Ho. destruct o as [f|]; cbn in *.
  - destruct Ho' as (Hf & Hp & Hlow). split_and!; [lia|lia|done|]. intros g Hg. apply Hlow. lia.
  - intros g Hg. destruct (decide (g < 64 * (hint a / 64))); [apply Ho'; lia|apply Ho; lia].
Qed.

Lemma next_fit_spec a :
  frames_ok a ->
  match next_fit (held a) (frames a) (hint a) with
  | Some f => 0 <= f < frames a /\ held a f = false
  | None => forall f, 0 <= f < frames a -> held a f = true
  end.
Proof.
  intros Ha. unfold next_fit. pose proof (fo_hint a Ha). pose proof (first_in_lowest (held a) (64 * (hint a / 64)) (frames a)) as H1.
  destruct (first_in _ _ _) as [f|]; [destruct H1 as (? & ? & _); split; [lia|done]|].
  pose proof (first_in_lowest (held a) 0 (frames a)) as H2. destruct (first_in _ 0 _) as [f|]; [|done].
  by destruct H2 as (? & ? & _).
Qed.

(** ** Dropping and taking a reference *)

(** [free] of a held frame: one reference fewer, or the frame released. *)
Definition dropped (f : Z) (a : BitmapAllocator) : BitmapAllocator :=
  if 1 <? refs a f then write_count f (refs a f - 1) a
  else with_hint (Z.min f (hint a)) (write_held f false (with_used (used a - 1) (write_count f 0 a))).

Definition shared (f : Z) (a : BitmapAllocator) : BitmapAllocator := write_count f (Z.min (refs a f + 1) u16_max) a.

(** Whether [phys] is in a frame that is held. *)
Definition is_held (a : BitmapAllocator) (phys : Z) : bool := (phys / PAGE_SIZE <? frames a) && held a (phys / PAGE_SIZE).

Lemma with_hint_same a : with_hint (hint a) a = a.
Proof. by destruct a. Qed.

Lemma count_frames_ok a f n : frames_ok a -> is_u16 n -> frames_ok (write_count f n a).
Proof. intros Ha Hn. split; [apply write_count_ok; [apply Ha|done]|]. apply Ha. Qed.

Lemma free_spec a phys :
  frames_ok a -> 0 <= phys ->
  free phys a = (if is_held a phys then dropped (phys / PAGE_SIZE) a else a, Ok tt).
Proof.
  intros Ha Hp. set (f := phys / PAGE_SIZE).
  enough (H : wp (free phys) (fun b _ => b = if is_held a phys then dropped f a else a) (fun _ _ => False) a).
  { unfold wp in H. destruct (free phys a) as [b [[]|e|w]]; [|done..]. by rewrite H. }
  assert (0 <= f) by (unfold f, PAGE_SIZE; lia).
  unfold free, is_held. fold f. apply wp_bind, wp_gets. destruct (frames a <=? f) eqn:E1.
  { apply wp_ret. rewrite (proj2 (Z.ltb_ge f (frames a))) by lia. done. }
  rewrite (proj2 (Z.ltb_lt f (frames a))) by lia. assert (Hf : 0 <= f < frames a) by lia.
  apply wp_bind, wp_test; [apply Ha|done|]. destruct (held a f) eqn:Hh; cbn [negb andb]; [|by apply wp_ret].
  destruct (frame_count a f (fo_arrays a Ha) Hf) as [_ Hc]. unfold is_u16 in Hc.
  apply wp_bind, wp_count_of; [apply Ha|done|]. apply wp_bind, wp_set_count; [apply Ha|done|].
  unfold dropped, saturating_sub. destruct (1 <? refs a f) eqn:E2.
  - rewrite (proj2 (Z.ltb_lt 0 _)) by lia. apply wp_ret. by rewrite Z.max_r by lia.
  - rewrite (proj2 (Z.ltb_ge 0 _)) by lia. rewrite Z.max_l by lia.
    assert (Ha' : frames_ok (write_count f 0 a)) by (apply count_frames_ok; [done|unfold is_u16, u16_max; lia]).
    destruct (clear_held_ok _ f Ha' Hf Hh) as [Hu Ha2]. pose proof (held_count a Ha). pose proof (fo_frames a Ha).
    apply wp_bind, wp_add_used; [cbn in *; unfold u64_max, MAX_FRAMES in *; lia|].
    apply wp_bind, (wp_write_held _ f false); [apply with_used_ok, Ha'|done|].
    apply wp_bind, wp_gets. wp_steps.
    + by rewrite Z.min_l by (cbn in *; lia).
    + rewrite Z.min_r by (cbn in *; lia). symmetry. exact (with_hint_same (write_held f false (with_used (used a - 1) (write_count f 0 a)))).
Qed.

Lemma share_spec a phys :
  frames_ok a -> 0 <= phys ->
  share phys a = (if is_held a phys then shared (phys / PAGE_SIZE) a else a, Ok tt).
Proof.
  intros Ha Hp. set (f := phys / PAGE_SIZE).
  enough (H : wp (share phys) (fun b _ => b = if is_held a phys then shared f a else a) (fun _ _ => False) a).
  { unfold wp in H. destruct (share phys a) as [b [[]|e|w]]; [|done..]. by rewrite H. }
  assert (0 <= f) by (unfold f, PAGE_SIZE; lia).
  unfold share, is_held. fold f. apply wp_bind, wp_gets. destruct (f <? frames a) eqn:E1; [|by apply wp_ret].
  assert (Hf : 0 <= f < frames a) by lia. apply wp_bind, wp_test; [apply Ha|done|].
  destruct (held a f); cbn [andb]; [|by apply wp_ret]. apply wp_bind, wp_count_of; [apply Ha|done|].
  by apply wp_set_count; [apply Ha|done|].
Qed.

(** What a drop does to [held], [refs] and the invariant. *)
Lemma dropped_ok a f : frames_ok a -> 0 <= f < frames a -> held a f = true -> frames_ok (dropped f a).
Proof.
  intros Ha Hf Hh. destruct (frame_count a f (fo_arrays a Ha) Hf) as [_ Hc]. unfold is_u16 in Hc. unfold dropped.
  destruct (1 <? refs a f) eqn:E; [apply count_frames_ok; [done|unfold is_u16; lia]|].
  assert (Ha' : frames_ok (write_count f 0 a)) by (apply count_frames_ok; [done|unfold is_u16, u16_max; lia]).
  destruct (clear_held_ok _ f Ha' Hf Hh) as [_ [H1 H2]]. split; [|exact H2].
  apply with_hint_ok; [exact H1|]. pose proof (fo_hint a Ha). cbn. lia.
Qed.

Lemma held_dropped a f g :
  arrays_ok a -> 0 <= f < frames a -> 0 <= g ->
  held (dropped f a) g = if decide (g = f) then (if 1 <? refs a f then held a f else false) else held a g.
Proof.
  intros Ha Hf Hg. unfold dropped. destruct (1 <? refs a f); [case_decide; by subst|].
  change (held (with_hint ?n ?b)) with (held b).
  rewrite (held_write (with_used (used a - 1) (write_count f 0 a)) f false g); [done| |done|done].
  apply with_used_ok, write_count_ok; [done|unfold is_u16, u16_max; lia].
Qed.

Lemma refs_dropped a f g :
  arrays_ok a -> 0 <= f < frames a -> 0 <= g ->
  refs (dropped f a) g = if decide (g = f) then saturating_sub (refs a f) 1 else refs a g.
Proof.
  intros Ha Hf Hg. destruct (frame_count a f Ha Hf) as [_ Hc]. unfold is_u16 in Hc.
  assert (E : refs (dropped f a) g = refs (write_count f (saturating_sub (refs a f) 1) a) g).
  { unfold dropped, saturating_sub. destruct (1 <? refs a f) eqn:E; [by rewrite Z.max_r by lia|by rewrite Z.max_l by lia]. }
  rewrite E, refs_write by done. done.
Qed.

Lemma shared_ok a f : frames_ok a -> 0 <= f < frames a -> frames_ok (shared f a).
Proof.
  intros Ha Hf. destruct (frame_count a f (fo_arrays a Ha) Hf) as [_ Hc]. unfold is_u16, u16_max in Hc.
  apply count_frames_ok; [done|unfold is_u16, u16_max; lia].
Qed.

Lemma refs_shared a f g :
  arrays_ok a -> 0 <= f < frames a -> 0 <= g ->
  refs (shared f a) g = if decide (g = f) then Z.min (refs a f + 1) u16_max else refs a g.
Proof. intros. by apply refs_write. Qed.

(** ** Runs of frames *)

Definition take_frames (l : list Z) (a : BitmapAllocator) : BitmapAllocator := foldl (fun a f => take_frame f a) a l.

Lemma take_frames_used l n a : take_frames l (with_used n a) = with_used n (take_frames l a).
Proof. revert a. induction l as [|f l IH]; intros a; [done|]. exact (IH (take_frame f a)). Qed.

Lemma take_frames_frames l a : frames (take_frames l a) = frames a /\ used (take_frames l a) = used a.
Proof. revert a. induction l as [|f l IH]; intros a; [done|]. exact (IH (take_frame f a)). Qed.

Lemma take_frames_spec l a :
  arrays_ok a -> Forall (fun f => 0 <= f < frames a) l ->
  arrays_ok (take_frames l a) /\
  forall g, 0 <= g -> held (take_frames l a) g = (if decide (g ∈ l) then true else held a g) /\
    refs (take_frames l a) g = (if decide (g ∈ l) then 1 else refs a g).
Proof.
  revert a. induction l as [|f l IH]; intros a Ha Hl; [by split|]. apply Forall_cons in Hl as [Hf Hl].
  destruct (IH (take_frame f a)) as [H1 H2]; [by apply take_frame_ok|done|]. split; [done|].
  intros g Hg. destruct (H2 g Hg) as [E1 E2].
  change (take_frames (f :: l) a) with (take_frames l (take_frame f a)). rewrite E1, E2.
  rewrite held_take, refs_take by done.
  destruct (decide (g ∈ l)), (decide (g = f)), (decide (g ∈ f :: l)) as [Hin|Hin]; try done; exfalso; rewrite elem_of_cons in Hin; tauto.
Qed.

Lemma take_frames_ok l a :
  frames_ok a -> NoDup l -> Forall (fun f => 0 <= f < frames a /\ held a f = false) l ->
  frames_ok (with_used (used a + len l) (take_frames l a)).
Proof.
  revert a. induction l as [|f l IH]; intros a Ha Hnd Hl.
  { change (len []) with 0. rewrite Z.add_0_r. by destruct a. }
  apply NoDup_cons in Hnd as [Hni Hnd]. apply Forall_cons in Hl as [[Hf Hfree] Hl].
  specialize (IH (with_used (used a + 1) (take_frame f a)) (take_free_ok a f Ha Hf Hfree) Hnd).
  rewrite take_frames_used in IH. cbn [length].
  replace (used a + Z.of_nat (S (length l))) with (used a + 1 + len l) by lia. apply IH.
  apply Forall_forall. intros g Hg. destruct (proj1 (Forall_forall _ _) Hl g Hg) as [Hg0 Hgf]. split; [done|].
  change (held (take_frame f a) g = false). rewrite held_take by (apply Ha || lia). rewrite decide_False by (intros ->; done). done.
Qed.

(** A run of [count] free frames from [first]. *)
Definition free_run (a : BitmapAllocator) (count first : Z) : Prop :=
  0 <= first /\ first + count <= frames a /\ forall g, first <= g < first + count -> held a g = false.

Definition first_run (a : BitmapAllocator) (count : Z) (r : option Z) : Prop :=
  match r with
  | Some first => free_run a count first /\ forall x, free_run a count x -> first <= x
  | None => forall x, ~ free_run a count x
  end.

Definition run_out (count first : Z) (a : BitmapAllocator) : BitmapAllocator :=
  with_used (used a + count) (take_frames (seqZ first count) a).

Lemma wp_take_frames a l (Q : BitmapAllocator -> unit -> Prop) X :
  arrays_ok a -> Forall (fun f => 0 <= f < frames a) l ->
  Q (take_frames l a) tt -> wp (mapM_ (fun x => set x ;;; set_count x 1) l) Q X a.
Proof.
  revert a. induction l as [|f l IH]; intros a Ha Hl HQ; [by apply wp_ret|]. apply Forall_cons in Hl as [Hf Hl].
  cbn [mapM_]. apply wp_bind, wp_bind, (wp_write_held _ f true); [done|done|].
  apply wp_set_count; [by apply write_held_ok|done|]. apply IH; [by apply take_frame_ok|done|done].
Qed.

Lemma wp_alloc_run a count todo : forall f run,
  frames_ok a -> 1 < count -> 0 <= run < count -> run <= f -> f + Z.of_nat todo = frames a ->
  (forall g, f - run <= g < f -> held a g = false) -> (f - run = 0 \/ held a (f - run - 1) = true) ->
  (forall x, free_run a count x -> f - run <= x) ->
  wp (alloc_run todo count f run)
    (fun b r => exists o, first_run a count o /\ r = (fun first => first * PAGE_SIZE) <$> o /\
       b = match o with Some first => run_out count first a | None => a end) (fun _ _ => False) a.
Proof.
  induction todo as [|todo IH]; intros f run Ha Hc Hr Hrf Hf Hrun Hedge Hlow; cbn [alloc_run].
  { apply wp_ret. exists None. split_and!; [|done|done]. intros x Hx. pose proof (Hlow x Hx). destruct Hx. lia. }
  pose proof (fo_frames a Ha) as Hn. unfold MAX_FRAMES in Hn.
  apply wp_bind, wp_test; [apply Ha|lia|]. destruct (held a f) eqn:Hh.
  { apply IH; [done|lia|lia|lia|lia|intros; lia|right; by replace (f + 1 - 0 - 1) with f by lia|].
    intros x Hx. destruct (decide (f + 1 - 0 <= x)); [done|]. pose proof (Hlow x Hx). destruct Hx as (_ & _ & Hall).
    rewrite Hall in Hh by lia. done. }
  apply wp_bind, wp_checked; [unfold u64_max; lia|]. destruct (run + 1 =? count) eqn:Ec.
  - set (first := f + 1 - count). assert (Hfree : free_run a count first).
    { unfold first. split_and!; [lia|lia|]. intros g Hg. destruct (decide (g = f)) as [->|]; [done|]. apply Hrun. lia. }
    apply wp_bind, wp_take_frames; [apply Ha|apply Forall_forall; intros g Hg%elem_of_seqZ; lia|].
    destruct (take_frames_frames (seqZ first count) a) as [Efr Eus]. pose proof (held_count a Ha).
    apply wp_bind, wp_add_used; [rewrite Eus; unfold u64_max; lia|]. rewrite Eus.
    apply wp_bind, wp_checked; [unfold PAGE_SIZE, u64_max; lia|]. apply wp_ret.
    exists (Some first). split_and!; [|done|done]. split; [done|]. intros x Hx. pose proof (Hlow x Hx). lia.
  - apply IH; [done|lia|lia|lia|lia| | |].
    + intros g Hg. destruct (decide (g = f)) as [->|]; [done|]. apply Hrun. lia.
    + by replace (f + 1 - (run + 1)) with (f - run) by lia.
    + intros x Hx. pose proof (Hlow x Hx). lia.
Qed.

(** [alloc_contiguous] of two frames or more takes the first run there is. *)
Lemma alloc_contiguous_spec a count :
  frames_ok a -> 1 < count ->
  exists o, first_run a count o /\
    alloc_contiguous count a = match o with
                               | Some first => (run_out count first a, Ok (Some (first * PAGE_SIZE)))
                               | None => (a, Ok None)
                               end.
Proof.
  intros Ha Hc. pose proof (fo_frames a Ha).
  assert (H' : wp (alloc_contiguous count) (fun b r => exists o, first_run a count o /\ r = (fun first => first * PAGE_SIZE) <$> o /\
       b = match o with Some first => run_out count first a | None => a end) (fun _ _ => False) a).
  { unfold alloc_contiguous. rewrite (proj2 (Z.eqb_neq count 0)), (proj2 (Z.eqb_neq count 1)) by lia.
    apply wp_bind, wp_gets. apply wp_alloc_run; [done|lia|lia|lia|lia|intros; lia|by left|]. intros x Hx. destruct Hx. lia. }
  unfold wp in H'. destruct (alloc_contiguous count a) as [b [r|e|w]]; [|done..]. destruct H' as (o & Ho & -> & ->).
  exists o. split; [done|]. by destruct o.
Qed.

Lemma run_out_ok a count first : frames_ok a -> 0 <= count -> free_run a count first -> frames_ok (run_out count first a).
Proof.
  intros Ha Hc (H0 & H1 & Hall). unfold run_out.
  pose proof (take_frames_ok (seqZ first count) a Ha (NoDup_seqZ _ _)) as H.
  rewrite length_seqZ, Z2Nat.id in H by done. apply H. apply Forall_forall. intros g Hg%elem_of_seqZ. split; [lia|apply Hall; lia].
Qed.

(** C28: [alloc] is a next-fit search over single frames: it takes the first free
    frame at or after the start of the word of the hint, else the first there
    is, and it finds nothing exactly when every frame is held. *)
Theorem alloc_is_next_fit a :
  frames_ok a ->
  alloc a = match next_fit (held a) (frames a) (hint a) with
            | Some f => (handed_out f a, Ok (Some (f * PAGE_SIZE)))
            | None => (a, Ok None)
            end /\
  (next_fit (held a) (frames a) (hint a) = None <-> used a = frames a).
Proof.
  intros Ha. split; [by apply alloc_is_next_fit_eq|]. rewrite held_all by done. pose proof (next_fit_spec a Ha) as H.
  destruct (next_fit _ _ _) as [f|]; split; try done. intros Hall. destruct H as [Hf H]. rewrite Hall in H by done. done.
Qed.
