(* ===== verification/FrameOwners.v ===== *)
(** * Who owns a frame

    The kernel holds frames through [Frame] values, or through page table
    entries that stand for one. A step of the kernel takes a frame or a run of
    frames, shares a frame it has a handle of, or drops a handle. Whatever the
    steps, as long as no frame has more than 65535 handles, the count of a frame is
    the number of its handles, so a frame is handed out again only after its last handle has gone, and a frame held back
    when the allocator was built is never handed out. *)

From S2P Require Import Prelude Words Handoff Frame FrameSpec FrameAlloc.

(** The allocator, and the address of every handle there is. *)
Record Kernel := mkKernel { allocator : BitmapAllocator; handles : list Z }.

Definition occ (p : Z) (hs : list Z) : Z := count (Z.eqb p) hs.

Definition run_addresses (first count : Z) : list Z := (fun i => first + i * PAGE_SIZE) <$> seqZ 0 count.

Inductive kstep : Kernel -> Kernel -> Prop :=
| step_alloc a a' r hs :
    alloc a = (a', Ok r) -> kstep (mkKernel a hs) (mkKernel a' (option_list r ++ hs))
| step_run a a' n r hs :
    0 <= n -> alloc_contiguous n a = (a', Ok r) ->
    kstep (mkKernel a hs) (mkKernel a' (match r with Some first => run_addresses first n | None => [] end ++ hs))
| step_share a a' p hs :
    p ∈ hs -> share p a = (a', Ok tt) -> kstep (mkKernel a hs) (mkKernel a' (p :: hs))
| step_drop a a' p hs hs' :
    hs ≡ₚ p :: hs' -> free p a = (a', Ok tt) -> kstep (mkKernel a hs) (mkKernel a' hs').

(** No frame has more handles than a [u16] counts. *)
Definition counted (k : Kernel) : Prop := forall p, occ p (handles k) <= u16_max.

(** A step after which every handle can be counted. *)
Definition counted_step (k k' : Kernel) : Prop := kstep k k' /\ counted k'.

(** [f] was held from the start, or it is held exactly while it has handles,
    and then its count is the number of them. *)
Definition owned_right (r : Z -> bool) (k : Kernel) (f : Z) : Prop :=
  let n := occ (f * PAGE_SIZE) (handles k) in
  if r f then held (allocator k) f = true /\ n = 0
  else held (allocator k) f = (0 <? n) /\ (0 < n -> refs (allocator k) f = n).

Definition owners_ok (r : Z -> bool) (n : Z) (k : Kernel) : Prop :=
  frames_ok (allocator k) /\ frames (allocator k) = n /\
  Forall (fun p => exists f, 0 <= f < n /\ p = f * PAGE_SIZE) (handles k) /\
  forall f, 0 <= f < n -> owned_right r k f.

Lemma occ_cons p q hs : occ p (q :: hs) = (if decide (p = q) then 1 else 0) + occ p hs.
Proof.
  unfold occ. rewrite count_cons. case_decide as E; [by rewrite (proj2 (Z.eqb_eq p q) E)|by rewrite (proj2 (Z.eqb_neq p q) E)].
Qed.

Lemma occ_app p hs hs' : occ p (hs ++ hs') = occ p hs + occ p hs'.
Proof. apply count_app. Qed.

Lemma occ_perm p hs hs' : hs ≡ₚ hs' -> occ p hs = occ p hs'.
Proof. intros H. unfold occ, count. f_equal. apply Permutation_length. by rewrite H. Qed.

Lemma occ_pos p hs : 0 < occ p hs <-> p ∈ hs.
Proof.
  induction hs as [|q hs IH]; [split; [done|by intros ?%elem_of_nil]|]. rewrite occ_cons, elem_of_cons, <- IH.
  pose proof (count_bounds (Z.eqb p) hs) as H. fold (occ p hs) in H. case_decide; split; intros; try (left; done); try (destruct_or!); try lia; done || (right; lia).
Qed.

Lemma occ_nonneg p hs : 0 <= occ p hs.
Proof. apply count_bounds. Qed.

Lemma page_of f : f * PAGE_SIZE / PAGE_SIZE = f.
Proof. by apply Z.div_mul. Qed.

Lemma page_eq f g : f * PAGE_SIZE = g * PAGE_SIZE <-> f = g.
Proof. unfold PAGE_SIZE. lia. Qed.

Lemma run_addresses_frames first n : run_addresses (first * PAGE_SIZE) n = (fun f => f * PAGE_SIZE) <$> seqZ first n.
Proof.
  unfold run_addresses. replace (seqZ first n) with (seqZ (first + 0) n) by (f_equal; lia). rewrite <- fmap_add_seqZ, <- list_fmap_compose.
  apply list_fmap_ext. intros _ i _. cbn. unfold PAGE_SIZE. lia.
Qed.

Lemma occ_pages g l : occ (g * PAGE_SIZE) ((fun f => f * PAGE_SIZE) <$> l) = occ g l.
Proof.
  induction l as [|f l IH]; [done|]. rewrite fmap_cons, !occ_cons, IH. f_equal.
  destruct (decide (g = f)); [by rewrite decide_True by congruence|]. rewrite decide_False; [done|]. by rewrite page_eq.
Qed.

Lemma occ_nodup g l : NoDup l -> occ g l = if decide (g ∈ l) then 1 else 0.
Proof.
  induction 1 as [|f l Hf Hl IH]; [done|]. rewrite occ_cons, IH.
  destruct (decide (g = f)), (decide (g ∈ l)), (decide (g ∈ f :: l)) as [Hin|Hin]; subst; try done; exfalso; rewrite elem_of_cons in Hin; tauto.
Qed.

Lemma occ_run g first n : occ (g * PAGE_SIZE) (run_addresses (first * PAGE_SIZE) n) = if decide (g ∈ seqZ first n) then 1 else 0.
Proof. rewrite run_addresses_frames, occ_pages. apply occ_nodup, NoDup_seqZ. Qed.

(** ** The invariant holds after every step *)

Section steps.
Context (r : Z -> bool) (n : Z).

(** Frames [l], free until now, are taken with one handle each. *)
Lemma owners_take a a' hs l :
  owners_ok r n (mkKernel a hs) -> frames_ok a' -> frames a' = n -> NoDup l ->
  Forall (fun f => 0 <= f < n /\ held a f = false) l ->
  (forall g, 0 <= g -> held a' g = (if decide (g ∈ l) then true else held a g) /\
     refs a' g = (if decide (g ∈ l) then 1 else refs a g)) ->
  owners_ok r n (mkKernel a' (((fun f => f * PAGE_SIZE) <$> l) ++ hs)).
Proof.
  intros (Ha & Hn & Hhs & Hf) Ha' Hn' Hnd Hl Hch. cbn [allocator handles] in *. split_and!; [done|done| |].
  - apply Forall_app. split; [|done]. apply Forall_fmap. eapply Forall_impl; [exact Hl|]. intros f [Hr _]. cbn. eauto.
  - intros f Hfr. specialize (Hf f Hfr). unfold owned_right in *. cbn [allocator handles] in *.
    rewrite occ_app, occ_pages, occ_nodup by done. destruct (Hch f) as [E1 E2]; [lia|]. rewrite E1, E2.
    pose proof (occ_nonneg (f * PAGE_SIZE) hs). destruct (decide (f ∈ l)) as [Hin|Hni]; [|by rewrite Z.add_0_l].
    destruct (proj1 (Forall_forall _ _) Hl f Hin) as [_ Hfree]. rewrite Hfree in Hf.
    destruct (r f); destruct Hf as [Hh Hc]; [done|]. symmetry in Hh. apply Z.ltb_ge in Hh.
    split; [symmetry; apply Z.ltb_lt; lia|lia].
Qed.

Lemma owners_alloc a a' x hs :
  owners_ok r n (mkKernel a hs) -> alloc a = (a', Ok x) -> owners_ok r n (mkKernel a' (option_list x ++ hs)).
Proof.
  intros Hk Hal. pose proof Hk as (Ha & Hn & _). cbn [allocator] in *. rewrite alloc_is_next_fit_eq in Hal by done.
  pose proof (next_fit_spec a Ha) as Hfit. destruct (next_fit _ _ _) as [f|]; injection Hal as <- <-; [|done].
  destruct Hfit as [Hf Hfree]. apply (owners_take a _ hs [f]); [done|by apply handed_out_ok|done|apply NoDup_singleton| |].
  - apply Forall_singleton. split; [|done]. lia.
  - intros g Hg. split; rewrite (decide_ext (g ∈ [f]) (g = f)) by apply list_elem_of_singleton.
    all: [> exact (held_take a f g Ha Hf Hg)|exact (refs_take a f g Ha Hf Hg)].
Qed.

Lemma owners_run a a' count x hs :
  owners_ok r n (mkKernel a hs) -> 0 <= count -> alloc_contiguous count a = (a', Ok x) ->
  owners_ok r n (mkKernel a' (match x with Some first => run_addresses first count | None => [] end ++ hs)).
Proof.
  intros Hk Hc Hal. pose proof Hk as (Ha & Hn & _). cbn [allocator] in *.
  destruct (decide (count = 0)) as [->|]; [injection Hal as <- <-; done|].
  destruct (decide (count = 1)) as [->|].
  { change (alloc_contiguous 1 a) with (alloc a) in Hal. pose proof (owners_alloc a a' x hs Hk Hal) as H.
    destruct x as [p|]; [|done]. replace (run_addresses p 1) with [p]; [done|]. unfold run_addresses. change (seqZ 0 1) with [0]. cbn [fmap list_fmap]. f_equal. lia. }
  destruct (alloc_contiguous_spec a count Ha) as (o & Ho & E); [lia|]. rewrite E in Hal.
  destruct o as [first|]; injection Hal as <- <-; [|done]. destruct Ho as [Hrun _].
  rewrite run_addresses_frames. pose proof Hrun as (H0 & H1 & Hall).
  assert (Hin : Forall (fun f => 0 <= f < frames a) (seqZ first count)).
  { apply Forall_forall. intros g Hg%elem_of_seqZ. lia. }
  apply (owners_take a _ hs); [done|by apply run_out_ok| |apply NoDup_seqZ| |].
  - unfold run_out. cbn. by rewrite (proj1 (take_frames_frames _ a)).
  - apply Forall_forall. intros g Hg%elem_of_seqZ. split; [lia|apply Hall; lia].
  - intros g Hg. exact (proj2 (take_frames_spec _ a Ha Hin) g Hg).
Qed.

(** A handle is of a frame that is held and was not held from the start. *)
Lemma handle_held a hs p :
  owners_ok r n (mkKernel a hs) -> p ∈ hs ->
  exists f, 0 <= f < n /\ p = f * PAGE_SIZE /\ r f = false /\ is_held a p = true /\ held a f = true /\ refs a f = occ p hs /\ 0 < occ p hs.
Proof.
  intros (Ha & Hn & Hhs & Hf) Hp. cbn [allocator handles] in *.
  destruct (proj1 (Forall_forall _ _) Hhs p Hp) as (f & Hfr & ->). exists f. specialize (Hf f Hfr). unfold owned_right in Hf.
  cbn [allocator handles] in Hf. apply occ_pos in Hp.
  destruct (r f); destruct Hf as [Hh Hc]; [lia|].
  assert (Hheld : held a f = true) by (rewrite Hh; apply Z.ltb_lt; lia).
  split_and!; try done; [lia|lia| |by apply Hc].
  unfold is_held. rewrite page_of, Hheld. rewrite (proj2 (Z.ltb_lt f (frames a))) by lia. done.
Qed.

(** What a change of one count does to the others: nothing. *)
Lemma owners_one a a' hs hs' f :
  owners_ok r n (mkKernel a hs) -> frames_ok a' -> frames a' = n -> 0 <= f < n ->
  Forall (fun p => exists f, 0 <= f < n /\ p = f * PAGE_SIZE) hs' ->
  (forall g, 0 <= g < n -> g <> f -> held a' g = held a g /\ refs a' g = refs a g /\ occ (g * PAGE_SIZE) hs' = occ (g * PAGE_SIZE) hs) ->
  owned_right r (mkKernel a' hs') f -> owners_ok r n (mkKernel a' hs').
Proof.
  intros (Ha & Hn & Hhs & Hf) Ha' Hn' Hfr Hhs' Hother Hown. cbn [allocator handles] in *. split_and!; [done..|].
  intros g Hg. destruct (decide (g = f)) as [->|Hne]; [done|]. destruct (Hother g Hg Hne) as (E1 & E2 & E3).
  specialize (Hf g Hg). unfold owned_right in *. cbn [allocator handles] in *. by rewrite E1, E2, E3.
Qed.

Lemma owners_share a a' p hs :
  owners_ok r n (mkKernel a hs) -> p ∈ hs -> occ p hs < u16_max -> share p a = (a', Ok tt) ->
  owners_ok r n (mkKernel a' (p :: hs)).
Proof.
  intros Hk Hp Hroom Hsh. destruct (handle_held a hs p Hk Hp) as (f & Hf & -> & Hr & His & Hheld & Hrefs & Hpos).
  pose proof Hk as (Ha & Hn & Hhs & _). cbn [allocator handles] in *.
  rewrite share_spec, His, page_of in Hsh by (done || (unfold PAGE_SIZE; lia)). injection Hsh as <-.
  assert (Hfa : 0 <= f < frames a) by lia. apply (owners_one a _ hs _ f); [done|by apply shared_ok|done|done| | |].
  - apply Forall_cons. split; [by exists f|done].
  - intros g Hg Hne. split_and!; [done| |].
    + rewrite refs_shared by (apply Ha || lia). by rewrite decide_False.
    + rewrite occ_cons, decide_False; [done|]. by rewrite page_eq.
  - unfold owned_right. cbn [allocator handles]. rewrite Hr, occ_cons, decide_True by done.
    rewrite refs_shared, decide_True by (apply Ha || done || lia). change (held (shared f a) f) with (held a f).
    rewrite Hheld. split; [symmetry; apply Z.ltb_lt; lia|]. intros _. rewrite Hrefs. lia.
Qed.

Lemma owners_drop a a' p hs hs' :
  owners_ok r n (mkKernel a hs) -> hs ≡ₚ p :: hs' -> free p a = (a', Ok tt) -> owners_ok r n (mkKernel a' hs').
Proof.
  intros Hk Hperm Hfr. assert (Hp : p ∈ hs) by (rewrite Hperm; left).
  destruct (handle_held a hs p Hk Hp) as (f & Hf & -> & Hr & His & Hheld & Hrefs & Hpos).
  pose proof Hk as (Ha & Hn & Hhs & _). cbn [allocator handles] in *.
  rewrite free_spec, His, page_of in Hfr by (done || (unfold PAGE_SIZE; lia)). injection Hfr as <-.
  assert (Hfa : 0 <= f < frames a) by lia.
  assert (Hocc : forall g, occ (g * PAGE_SIZE) hs = (if decide (g = f) then 1 else 0) + occ (g * PAGE_SIZE) hs').
  { intros g. rewrite (occ_perm _ _ _ Hperm), occ_cons. f_equal.
    destruct (decide (g = f)); [by rewrite decide_True by congruence|]. rewrite decide_False; [done|]. by rewrite page_eq. }
  apply (owners_one a _ hs _ f); [done|by apply dropped_ok| |done| | |].
  - unfold dropped. by destruct (1 <? refs a f).
  - rewrite Hperm in Hhs. by apply Forall_cons in Hhs as [_ ?].
  - intros g Hg Hne. rewrite held_dropped, refs_dropped, !decide_False by (apply Ha || done || lia).
    split_and!; [done|done|]. by rewrite Hocc, decide_False.
  - unfold owned_right. cbn [allocator handles]. rewrite Hr, held_dropped, refs_dropped, !decide_True by (apply Ha || done || lia).
    rewrite Hheld, Hrefs, Hocc, decide_True by done. pose proof (occ_nonneg (f * PAGE_SIZE) hs').
    unfold saturating_sub. split; [|lia]. destruct (1 <? 1 + occ (f * PAGE_SIZE) hs') eqn:E; symmetry; [apply Z.ltb_lt|apply Z.ltb_ge]; lia.
Qed.

Lemma owners_step k k' : owners_ok r n k -> counted_step k k' -> owners_ok r n k'.
Proof.
  intros Hk [Hs Hc]. destruct Hs as [| |a a' p hs Hin E|]; [by eapply owners_alloc|by eapply owners_run| |by eapply owners_drop].
  apply (owners_share a a' p hs); [done|done| |done]. specialize (Hc p). cbn [handles] in Hc. rewrite occ_cons, decide_True in Hc by done. lia.
Qed.

Lemma owners_reachable k k' : owners_ok r n k -> rtc counted_step k k' -> owners_ok r n k'.
Proof. intros Hk Hs. induction Hs; [done|]. eauto using owners_step. Qed.
End steps.

Lemma owners_start a : frames_ok a -> owners_ok (held a) (frames a) (mkKernel a []).
Proof.
  intros Ha. split_and!; [done|done|constructor|]. intros f Hf. unfold owned_right. cbn.
  by destruct (held a f).
Qed.

(** C26: Whatever the kernel has taken, shared and dropped since the allocator was
    built, as long as no frame has had more than 65535 handles at once: the next
    frame it is given has no handle left and was not held back at
    the start; it is given one as long as such a frame exists; and every handle
    is of a frame that is held, whose count is the number of its handles. With
    one handle more it is not so: [saturated_count_releases]. *)
Theorem frames_exclusive a0 a hs :
  frames_ok a0 -> rtc counted_step (mkKernel a0 []) (mkKernel a hs) ->
  (exists a' r, alloc a = (a', Ok r) /\
     match r with
     | Some p => exists f, 0 <= f < frames a0 /\ p = f * PAGE_SIZE /\ (p ∉ hs) /\ held a0 f = false
     | None => forall f, 0 <= f < frames a0 -> held a0 f = true \/ f * PAGE_SIZE ∈ hs
     end) /\
  (forall p, p ∈ hs -> is_held a p = true /\ references p a = (a, Ok (occ p hs)) /\ held a0 (p / PAGE_SIZE) = false).
Proof.
  intros Ha0 Hr. pose proof (owners_reachable _ _ _ _ (owners_start a0 Ha0) Hr) as Hk.
  pose proof Hk as (Ha & Hn & _ & Hf). cbn [allocator] in *. split.
  - rewrite alloc_is_next_fit_eq by done. pose proof (next_fit_spec a Ha) as Hfit. rewrite Hn in Hfit |- *.
    destruct (next_fit _ _ _) as [f|]; eexists _, _; (split; [done|]).
    + exists f. destruct Hfit as [Hfr Hfree]. specialize (Hf f Hfr). unfold owned_right in Hf. cbn in Hf. rewrite Hfree in Hf.
      split_and!; [lia|lia|done| |].
      * intros Hin%occ_pos. destruct (held a0 f); destruct Hf as [H _]; [done|]. symmetry in H. apply Z.ltb_ge in H. lia.
      * destruct (held a0 f); [by destruct Hf|done].
    + intros f Hfr. specialize (Hf f Hfr). unfold owned_right in Hf. cbn in Hf. rewrite Hfit in Hf by done.
      destruct (held a0 f); [by left|right]. destruct Hf as [H _]. symmetry in H. apply Z.ltb_lt in H. by apply occ_pos.
  - intros p Hp. destruct (handle_held _ _ a hs p Hk Hp) as (f & Hfr & -> & Hr0 & His & Hheld & Hrefs & Hpos).
    rewrite page_of. split_and!; [done| |done]. unfold references, bind, gets. rewrite page_of, Hn.
    rewrite (proj2 (Z.ltb_lt f (frames a0))) by lia. unfold count_of.
    rewrite (proj1 (frame_count a f Ha ltac:(lia))). by rewrite Hrefs.
Qed.

(** ** More handles than a count can hold *)

Definition share_times (k : nat) (p : Z) (a : BitmapAllocator) : BitmapAllocator := Nat.iter k (fun a => (share p a).1) a.
Definition free_times (k : nat) (p : Z) (a : BitmapAllocator) : BitmapAllocator := Nat.iter k (fun a => (free p a).1) a.

Lemma frame_is_held a f : 0 <= f < frames a -> is_held a (f * PAGE_SIZE) = held a f.
Proof. intros Hf. unfold is_held. rewrite page_of, (proj2 (Z.ltb_lt f (frames a))) by lia. done. Qed.

Lemma share_times_spec k a f :
  frames_ok a -> 0 <= f < frames a -> held a f = true -> refs a f <= u16_max ->
  let b := share_times k (f * PAGE_SIZE) a in
  frames_ok b /\ frames b = frames a /\ held b f = true /\ refs b f = Z.min (refs a f + Z.of_nat k) u16_max.
Proof.
  intros Ha Hf Hh Hr. induction k as [|k IH]; cbn zeta.
  { split_and!; [done..|]. change (refs a f = Z.min (refs a f + 0) u16_max). lia. }
  change (share_times (S k) (f * PAGE_SIZE) a) with ((share (f * PAGE_SIZE) (share_times k (f * PAGE_SIZE) a)).1).
  cbn zeta in IH. destruct IH as (H1 & H2 & H3 & H4). set (b := share_times k (f * PAGE_SIZE) a) in *.
  rewrite share_spec, frame_is_held, H3, page_of by (done || lia || (unfold PAGE_SIZE; lia)). cbn [fst].
  split_and!; [apply shared_ok; [done|lia]|done|done|].
  rewrite refs_shared, decide_True by (apply H1 || done || lia). lia.
Qed.

Lemma free_times_spec k a f :
  frames_ok a -> 0 <= f < frames a -> held a f = true -> Z.of_nat k < refs a f ->
  let b := free_times k (f * PAGE_SIZE) a in
  frames_ok b /\ frames b = frames a /\ held b f = true /\ refs b f = refs a f - Z.of_nat k.
Proof.
  intros Ha Hf Hh Hk. induction k as [|k IH]; cbn zeta.
  { split_and!; [done..|]. change (refs a f = refs a f - 0). lia. }
  change (free_times (S k) (f * PAGE_SIZE) a) with ((free (f * PAGE_SIZE) (free_times k (f * PAGE_SIZE) a)).1).
  cbn zeta in IH. destruct IH as (H1 & H2 & H3 & H4); [lia|]. set (b := free_times k (f * PAGE_SIZE) a) in *.
  rewrite free_spec, frame_is_held, H3, page_of by (done || lia || (unfold PAGE_SIZE; lia)). cbn [fst].
  assert (Hf' : 0 <= f < frames b) by lia. split_and!.
  - by apply dropped_ok.
  - unfold dropped. by destruct (1 <? refs b f).
  - rewrite held_dropped, decide_True, H3 by (apply H1 || done || lia). by rewrite (proj2 (Z.ltb_lt 1 (refs b f))) by lia.
  - rewrite refs_dropped, decide_True by (apply H1 || done || lia). unfold saturating_sub. lia.
Qed.

Lemma free_all k a f :
  frames_ok a -> 0 <= f < frames a -> held a f = true -> refs a f = Z.of_nat k -> (0 < k)%nat ->
  held (free_times k (f * PAGE_SIZE) a) f = false.
Proof.
  intros Ha Hf Hh Hr Hk. destruct k as [|k]; [lia|].
  change (free_times (S k) (f * PAGE_SIZE) a) with ((free (f * PAGE_SIZE) (free_times k (f * PAGE_SIZE) a)).1).
  destruct (free_times_spec k a f) as (H5 & H6 & H7 & H8); [done|done|done|lia|]. cbn zeta in *. set (c := free_times _ _ a) in *.
  rewrite free_spec, frame_is_held, H7, page_of by (done || lia || (unfold PAGE_SIZE; lia)). cbn [fst].
  rewrite held_dropped, decide_True by (apply H5 || done || lia). rewrite (proj2 (Z.ltb_ge 1 (refs c f))) by lia. done.
Qed.

(** A count stops at 65535, so a frame shared 65535 times has one handle more
    than its count says; dropping 65535 of the 65536 handles releases the frame
    while the last handle still stands for it. *)
Theorem saturated_count_releases a f :
  frames_ok a -> 0 <= f < frames a -> held a f = true -> refs a f = 1 ->
  let p := f * PAGE_SIZE in
  let b := share_times (Z.to_nat u16_max) p a in
  let c := free_times (Z.to_nat u16_max) p b in
  held b f = true /\ held c f = false.
Proof.
  intros Ha Hf Hh Hr. cbn zeta. assert (Hk : Z.of_nat (Z.to_nat u16_max) = u16_max) by (apply Z2Nat.id; done).
  revert Hk. generalize (Z.to_nat u16_max). intros k Hk.
  destruct (share_times_spec k a f) as (H1 & H2 & H3 & H4); [done..|unfold u16_max; lia|]. cbn zeta in *.
  split; [done|]. apply free_all; [done|lia|done| |unfold u16_max in *; lia]. rewrite H4. lia.
Qed.
