(* ===== verification/FrameInit.v ===== *)
(** * Building the frame allocator

    [build] releases exactly the pages that lie in usable memory and meet
    nothing that is held back; [init] puts the allocator's own arrays in the
    lowest place of the first usable region that has room for them clear of what
    is held back, and its search ends. *)

From S2P Require Import Prelude Words Handoff Frame FrameSpec.

(** What is relied on of a machine's constants, all of them addresses. *)
Class MachineOk `{Machine} : Prop := {
  mo_limit : 0 <= HHDM_LIMIT <= MAX_FRAMES * PAGE_SIZE;
  mo_device : 0 <= DEVICE_PHYS_BASE;
  mo_kernel : is_u64 KERNEL_PHYS_START /\ is_u64 kernel_phys_end;
  mo_reserved : Forall (fun r => is_u64 r.1 /\ is_u64 r.2) RESERVED_PHYS;
}.

#[global] Instance aarch64_ok e : is_u64 e -> @MachineOk (aarch64 e).
Proof. intros He. split; cbn; [unfold MAX_FRAMES, PAGE_SIZE; lia|lia|done|]. repeat constructor; unfold is_u64, u64_max; cbn; lia. Qed.
#[global] Instance x86_64_ok e : is_u64 e -> @MachineOk (x86_64 e).
Proof. intros He. split; cbn; [unfold MAX_FRAMES, PAGE_SIZE; lia|lia|done|]. repeat constructor; unfold is_u64, u64_max; cbn; lia. Qed.

Section init.
Context `{HM : Machine} {HMok : MachineOk}.

Lemma usable_limit_bounds boot : 0 <= usable_limit boot <= MAX_FRAMES * PAGE_SIZE.
Proof.
  unfold usable_limit. pose proof mo_limit. pose proof mo_device.
  assert (Hf : forall rs top, 0 <= top -> 0 <= foldl (fun top r => if usable r then Z.max top (r_end r) else top) top rs).
  { induction rs as [|r rs IH]; intros top Ht; [done|]. cbn. apply IH. destruct (usable r); lia. }
  specialize (Hf (regions boot) 0 ltac:(lia)). lia.
Qed.

Lemma wp_metadata_parts {S} limit Q X (s : S) :
  0 <= limit <= MAX_FRAMES * PAGE_SIZE ->
  (forall b c, rounded_up ((limit / PAGE_SIZE + 7) / 8) PAGE_SIZE b -> rounded_up (limit / PAGE_SIZE * 2) PAGE_SIZE c -> Q s (b, c)) ->
  wp (metadata_parts limit) Q X s.
Proof.
  intros Hl HQ. unfold metadata_parts, MAX_FRAMES, PAGE_SIZE in *. wp_steps. apply page_align_spec; [unfold MAX_FRAMES, PAGE_SIZE; lia|].
  intros b Hb. wp_steps. apply page_align_spec; [unfold MAX_FRAMES, PAGE_SIZE; lia|]. intros c Hc. wp_steps. by apply HQ.
Qed.

(** ** The marks *)
























(** ** The search for a place *)











Lemma align_up_panics {S E} v (s : S) : u64_max < v + PAGE_SIZE -> page_align_up (E := E) v s = (s, Stuck Panic).
Proof.
  intros H. unfold page_align_up, align_up, bind, checked. rewrite (proj2 (Z.leb_gt (v + PAGE_SIZE) u64_max)) by done. by rewrite andb_false_r.
Qed.






(** A usable region that starts in the last page of the address space stops
    the kernel: rounding its start up overflows, although the map may describe
    room elsewhere. *)
Theorem top_region_panics boot r rs :
  regions boot = r :: rs -> usable r = true -> u64_max < r_addr r + PAGE_SIZE ->
  0 <= usable_limit boot -> (init boot None).2 = Stuck Panic.
Proof.
  intros Hrs Hu Htop Hl. unfold init. rewrite Hrs. cbn [search_regions]. rewrite Hu. cbn [negb].
  assert (Hw : wp (metadata_bytes (usable_limit boot)) (fun s _ => s = None) (fun _ _ => False) (None : option BitmapAllocator)).
  { pose proof (usable_limit_bounds boot). unfold metadata_bytes. apply wp_bind, wp_metadata_parts; [done|].
    intros b c [Hb1 Hb2] [Hc1 Hc2]. apply wp_checked; [unfold MAX_FRAMES, PAGE_SIZE, u64_max in *; lia|done]. }
  unfold wp in Hw. unfold bind at 1. destruct (metadata_bytes _ _) as [s [md|e|w]]; [|done..]. subst s.
  unfold bind at 1 2. by rewrite align_up_panics.
Qed.
End init.
