(* ===== verification/Heap.v ===== *)
(** * The kernel heap

    [kernel/src/mm/heap.rs]. The free list is threaded through the free memory
    itself, each hole holding its size and the address of the next; it is the
    list of (address, size) here, in the order of the links. What is done with
    the lock held is one step, so [LockedHeap::alloc] that has to map memory is
    three: a try, a claim, and the memory given to the list with another try. *)

From S2P Require Import Prelude Words Frame.

Definition KERNEL_HEAP_BASE : Z := 0xFFFFC00000000000.
Definition KERNEL_HEAP_MAX : Z := 512 * 1024 * 1024.
Definition KERNEL_HEAP_SIZE : Z := 16 * 1024 * 1024.
Definition FRAME_RESERVE : Z := 8 * 1024 * 1024.
Definition HEAP_MARGIN : Z := 4 * 1024 * 1024.

Definition MIN_BLOCK : Z := 16.

Record HoleList := mkHoleList {
  holes : list (Z * Z);
  free_bytes : Z;
  total_bytes : Z;
  mapped : Z;
}.

Definition with_holes (l : list (Z * Z)) (h : HoleList) : HoleList := mkHoleList l (free_bytes h) (total_bytes h) (mapped h).
Definition with_free (n : Z) (h : HoleList) : HoleList := mkHoleList (holes h) n (total_bytes h) (mapped h).
Definition with_total (n : Z) (h : HoleList) : HoleList := mkHoleList (holes h) (free_bytes h) n (mapped h).
Definition with_mapped (n : Z) (h : HoleList) : HoleList := mkHoleList (holes h) (free_bytes h) (total_bytes h) n.

Definition heap_new : HoleList := mkHoleList [] 0 0 0.

Definition HeapM : Type -> Type := M HoleList Empty_set.

(** [core::alloc::Layout]: a size and an alignment. *)
Record Layout := mkLayout { l_size : Z; l_align : Z }.

Definition normalize {S} (layout : Layout) : M S Empty_set (Z * Z) :=
  let align := Z.max (l_align layout) MIN_BLOCK in
  let! size := align_up (Z.max (l_size layout) MIN_BLOCK) MIN_BLOCK in
  ret (size, align).

(** ** The free list *)

(** The walk of [insert]: the holes below the block, and the others. *)
Fixpoint holes_below (block : Z) (l : list (Z * Z)) : list (Z * Z) * list (Z * Z) :=
  match l with
  | [] => ([], [])
  | (addr, size) :: rest =>
      if addr <? block then let (below, others) := holes_below block rest in ((addr, size) :: below, others)
      else ([], l)
  end.

(** Forward, then backward. *)
Definition merge_forward (block size : Z) (others : list (Z * Z)) : Z * list (Z * Z) :=
  match others with
  | (cur, cur_size) :: rest => if block + size =? cur then (size + cur_size, rest) else (size, others)
  | [] => (size, [])
  end.

Definition merge_backward (block size : Z) (below others : list (Z * Z)) : list (Z * Z) :=
  match last below with
  | Some (prev, prev_size) =>
      if prev + prev_size =? block then removelast below ++ (prev, prev_size + size) :: others
      else below ++ (block, size) :: others
  | None => (block, size) :: others
  end.

Definition insert_hole (block size : Z) (l : list (Z * Z)) : list (Z * Z) :=
  let (below, others) := holes_below block l in
  let (size, others) := merge_forward block size others in
  merge_backward block size below others.

(** The sums that forms, each of which must fit in a [usize]. *)
Definition insert_sums (block size : Z) (l : list (Z * Z)) : list Z :=
  let (below, others) := holes_below block l in
  let (size', _) := merge_forward block size others in
  match others with [] => [] | _ => [block + size; size'] end ++
  match last below with
  | Some (prev, prev_size) => (prev + prev_size) :: if prev + prev_size =? block then [prev_size + size'] else []
  | None => []
  end.

Definition insert (block size : Z) : HeapM unit :=
  let! free := gets free_bytes in
  let! free := usize (free + size) in
  let! l := gets holes in
  mapM_ (fun x => let! _ := usize x in ret tt) (insert_sums block size l) ;;;
  modify (fun h => with_free free (with_holes (insert_hole block size l) h)).

Definition add_region (start size : Z) : HeapM unit :=
  if size <? MIN_BLOCK then ret tt
  else
    let! total := gets total_bytes in
    let! total := usize (total + size) in
    modify (with_total total) ;;;
    insert start size.

(** What is left of a hole before and behind the block must hold a hole. *)
Definition fits (hole_size front size : Z) : bool :=
  (front + size <=? hole_size) && ((front =? 0) || (MIN_BLOCK <=? front)) &&
  (let back := hole_size - front - size in (back =? 0) || (MIN_BLOCK <=? back)).

(** The [while] loop of [alloc], past the holes [before]. *)
Fixpoint alloc_from (size align : Z) (before l : list (Z * Z)) : HeapM (option Z) :=
  match l with
  | [] => ret None
  | (hole_addr, hole_size) :: rest =>
      let! alloc_start := align_up hole_addr align in
      let front := alloc_start - hole_addr in
      let! _ := usize (front + size) in
      if fits hole_size front size then
        let back := hole_size - front - size in
        let! free := gets free_bytes in
        let! free := usize (free - hole_size) in
        modify (fun h => with_free free (with_holes (before ++ rest) h)) ;;;
        (if 0 <? front then insert hole_addr front else ret tt) ;;;
        (if 0 <? back then insert (alloc_start + size) back else ret tt) ;;;
        ret (Some alloc_start)
      else alloc_from size align (before ++ [(hole_addr, hole_size)]) rest
  end.

Definition alloc (layout : Layout) : HeapM (option Z) :=
  let! '(size, align) := normalize layout in
  let! l := gets holes in
  alloc_from size align [] l.

Definition dealloc (ptr : Z) (layout : Layout) : HeapM unit :=
  let! '(size, _) := normalize layout in
  insert ptr size.

(** ** Growing *)

Record Claim := mkClaim { c_start : Z; c_bytes : Z }.

(** [stats] is what [frame::stats] returns. *)
Definition claim (stats : Z * Z) (needed least : Z) : HeapM (option Claim) :=
  let! want := page_align_up (Z.max needed least) in
  let! m := gets mapped in
  let! m' := usize (m + want) in
  if KERNEL_HEAP_MAX <? m' then ret None
  else
    let (used, total) := stats in
    let! free := usize (total - used) in
    let! free := usize (free * PAGE_SIZE) in
    let! least := usize (want + FRAME_RESERVE) in
    if free <? least then ret None
    else
      let! start := u64 (KERNEL_HEAP_BASE + m) in
      modify (with_mapped m') ;;;
      ret (Some (mkClaim start want)).

(** What the heap asks of the rest of memory management: the frames in use and
    in all ([frame::stats]), and a page mapped or not ([AddressSpace::map_new]). *)
Class Tables (K : Type) := {
  frame_stats : K -> Z * Z;
  map_new : Z -> K -> K * bool;
}.

(** The heap behind its lock, the flag [BELOW_MARGIN], and the tables. *)
Record World K := mkWorld { heap : HoleList; below_margin : bool; tables : K }.
Arguments mkWorld {K}.
Arguments heap {K}.
Arguments below_margin {K}.
Arguments tables {K}.

Section world.
Context {K : Type} `{!Tables K}.

Definition WM : Type -> Type := M (World K) Empty_set.

Definition on_heap {A} (m : HeapM A) : WM A :=
  zoom heap (fun h w => mkWorld h (below_margin w) (tables w)) m.

Definition publish_margin : WM unit :=
  modify (fun w => mkWorld (heap w) (free_bytes (heap w) <? HEAP_MARGIN) (tables w)).

(** The loop of [map_claim] over [todo] pages from [page]: how many bytes got
    pages. *)
Fixpoint map_pages (todo : nat) (start page : Z) : WM (option Z) :=
  match todo with
  | O => ret None
  | S todo =>
      let! virt := u64 (start + page * PAGE_SIZE) in
      let! ok := state (fun w => let (t, ok) := map_new virt (tables w) in (mkWorld (heap w) (below_margin w) t, ok)) in
      if ok : bool then map_pages todo start (page + 1) else ret (Some (page * PAGE_SIZE))
  end.

Definition map_claim (c : Claim) : WM Z :=
  let! short := map_pages (Z.to_nat (c_bytes c / PAGE_SIZE)) (c_start c) 0 in
  ret (default (c_bytes c) short).

Definition make_claim (needed least : Z) : WM (option Claim) :=
  let! w := gets id in on_heap (claim (frame_stats (tables w)) needed least).

Definition CHUNK : Z := 8 * 1024 * 1024.

(** The first part of [LockedHeap::alloc], with the lock held. *)
Definition try_alloc (layout : Layout) : WM (option Z) :=
  let! ptr := on_heap (alloc layout) in
  match ptr with
  | Some p => publish_margin ;;; ret (Some p)
  | None => ret None
  end.

(** The last part of it: the memory of a claim goes to the list, then a try. *)
Definition alloc_grown (layout : Layout) (start mapped : Z) : WM (option Z) :=
  on_heap (add_region start mapped) ;;;
  let! ptr := on_heap (alloc layout) in
  publish_margin ;;;
  ret ptr.

(** [LockedHeap::alloc] when nothing comes between its parts. *)
Definition locked_alloc (layout : Layout) : WM (option Z) :=
  let! ptr := try_alloc layout in
  match ptr with
  | Some p => ret (Some p)
  | None =>
      let! c := make_claim (l_size layout) CHUNK in
      match c with
      | None => ret None
      | Some c =>
          let! mapped := map_claim c in
          if mapped =? 0 then ret None else alloc_grown layout (c_start c) mapped
      end
  end.

Definition locked_dealloc (ptr : Z) (layout : Layout) : WM unit :=
  on_heap (dealloc ptr layout) ;;; publish_margin.

Definition STEP : Z := 256 * 1024.

(** How far the free list is below the margin, said with the lock held. *)
Definition margin_short : WM Z :=
  publish_margin ;;;
  let! w := gets id in ret (saturating_sub HEAP_MARGIN (free_bytes (heap w))).

Definition top_up : WM unit :=
  let! low := gets below_margin in
  if negb low then ret tt
  else
    let! short := margin_short in
    if short =? 0 then ret tt
    else
      let! c := make_claim short STEP in
      match c with
      | None => ret tt
      | Some c =>
          let! mapped := map_claim c in
          if mapped =? 0 then ret tt
          else on_heap (add_region (c_start c) mapped) ;;; publish_margin
      end.

Definition mapped_bytes : WM Z := gets (fun w => mapped (heap w)).

(** [init]; a page that cannot be mapped is a panic. *)
Definition heap_init : WM unit :=
  let! short := map_pages (Z.to_nat (KERNEL_HEAP_SIZE / PAGE_SIZE)) KERNEL_HEAP_BASE 0 in
  match short with
  | Some _ => fail_with Panic
  | None =>
      on_heap (modify (with_mapped KERNEL_HEAP_SIZE)) ;;;
      on_heap (add_region KERNEL_HEAP_BASE KERNEL_HEAP_SIZE) ;;;
      publish_margin
  end.

Definition heap_stats : WM (Z * Z) :=
  let! w := gets id in
  let! held := usize (total_bytes (heap w) - free_bytes (heap w)) in
  ret (held, total_bytes (heap w)).
End world.
