(* ===== verification/HeapSpec.v ===== *)
(** * What the free list of the heap is

    [holes_ok]: the holes are in order of address, apart from one another (two
    holes never touch), and made of whole blocks of 16 bytes inside the heap's
    address space. Such a list is determined by the bytes that are free
    ([holes_canonical]), so what an operation does is what it does to them: an
    insertion adds the block's bytes, an allocation takes a block's. *)

From S2P Require Import Prelude Words Frame Heap.

Definition HEAP_END : Z := KERNEL_HEAP_BASE + KERNEL_HEAP_MAX.

Definition inside (h : Z * Z) (x : Z) : Prop := h.1 <= x < h.1 + h.2.
Definition gap (h1 h2 : Z * Z) : Prop := h1.1 + h1.2 < h2.1.
Definition free_at (l : list (Z * Z)) (x : Z) : Prop := Exists (fun h => inside h x) l.
Definition bytes_of (l : list (Z * Z)) : Z := foldr (fun h n => h.2 + n) 0 l.

Record hole_ok (h : Z * Z) : Prop := {
  ho_addr : h.1 `mod` MIN_BLOCK = 0;
  ho_size : h.2 `mod` MIN_BLOCK = 0;
  ho_min : MIN_BLOCK <= h.2;
  ho_place : KERNEL_HEAP_BASE <= h.1 /\ h.1 + h.2 <= HEAP_END;
}.

Record holes_ok (l : list (Z * Z)) : Prop := {
  hs_sorted : StronglySorted gap l;
  hs_holes : Forall hole_ok l;
}.

(** Apart from every hole. *)
Definition apart (l : list (Z * Z)) (b : Z * Z) : Prop := Forall (fun h => h.1 + h.2 <= b.1 \/ b.1 + b.2 <= h.1) l.

Lemma bytes_of_app l l' : bytes_of (l ++ l') = bytes_of l + bytes_of l'.
Proof. induction l as [|h l IH]; [done|]. change (h.2 + bytes_of (l ++ l') = h.2 + bytes_of l + bytes_of l'). lia. Qed.

Lemma bytes_of_cons h l : bytes_of (h :: l) = h.2 + bytes_of l.
Proof. done. Qed.

Lemma free_at_app l l' x : free_at (l ++ l') x <-> free_at l x \/ free_at l' x.
Proof. apply Exists_app. Qed.

Lemma free_at_cons h l x : free_at (h :: l) x <-> inside h x \/ free_at l x.
Proof. apply Exists_cons. Qed.

Lemma free_at_nil x : free_at [] x <-> False.
Proof. apply Exists_nil. Qed.

Lemma holes_ok_app l l' :
  holes_ok (l ++ l') <-> holes_ok l /\ holes_ok l' /\ forall h h', h ∈ l -> h' ∈ l' -> gap h h'.
Proof.
  split.
  - intros [Hs Hh]. apply StronglySorted_app in Hs as (H1 & H2 & H3). apply Forall_app in Hh as [H4 H5]. by split_and!.
  - intros ([H1 H2] & [H3 H4] & H5). split; [apply StronglySorted_app; auto|by apply Forall_app].
Qed.

Lemma holes_ok_cons h l : holes_ok (h :: l) <-> hole_ok h /\ holes_ok l /\ Forall (gap h) l.
Proof.
  split.
  - intros [Hs Hh]. apply StronglySorted_cons in Hs as [H1 H2]. apply Forall_cons in Hh as [H3 H4]. by split_and!.
  - intros (H1 & [H2 H3] & H4). split; [by apply StronglySorted_cons|by apply Forall_cons].
Qed.

Lemma holes_ok_nil : holes_ok [].
Proof. split; constructor. Qed.

Lemma gap_free l x h : Forall (gap h) l -> free_at l x -> h.1 + h.2 < x.
Proof.
  intros Hg (h' & Hin & Hx)%Exists_exists. rewrite Forall_forall in Hg. specialize (Hg h' Hin).
  unfold gap, inside in *. lia.
Qed.

Lemma free_at_place l x : holes_ok l -> free_at l x -> KERNEL_HEAP_BASE <= x < HEAP_END.
Proof.
  intros [_ Hh] (h & Hin & Hx)%Exists_exists. rewrite Forall_forall in Hh. destruct (Hh h Hin) as [_ _ _ Hp].
  unfold inside in *. lia.
Qed.

(** ** The bytes that are free determine the list *)

Lemma first_hole h l : holes_ok (h :: l) ->
  free_at (h :: l) h.1 /\ (forall x, free_at (h :: l) x -> h.1 <= x) /\ ~ free_at (h :: l) (h.1 + h.2) /\
  (forall x, inside h x -> free_at (h :: l) x).
Proof.
  intros (Ho & Hl & Hg)%holes_ok_cons. pose proof (ho_min h Ho). unfold MIN_BLOCK in *. split_and!.
  - left. unfold inside. lia.
  - intros x [Hx|Hx]%free_at_cons; [unfold inside in Hx; lia|]. pose proof (gap_free l x h Hg Hx). lia.
  - intros [Hx|Hx]%free_at_cons; [unfold inside in Hx; lia|]. pose proof (gap_free l _ h Hg Hx). lia.
  - intros x Hx. by left.
Qed.

Theorem holes_canonical l l' : holes_ok l -> holes_ok l' -> (forall x, free_at l x <-> free_at l' x) -> l = l'.
Proof.
  revert l'. induction l as [|h l IH]; intros l' Hl Hl' Hx.
  - destruct l' as [|h' l']; [done|]. destruct (first_hole h' l' Hl') as [H _]. apply Hx in H. by apply free_at_nil in H.
  - destruct (first_hole h l Hl) as (F1 & F2 & F3 & F4).
    destruct l' as [|h' l']; [apply Hx in F1; by apply free_at_nil in F1|].
    destruct (first_hole h' l' Hl') as (G1 & G2 & G3 & G4).
    assert (E1 : h.1 = h'.1).
    { apply Hx in F1 as F1'. apply Hx in G1 as G1'. specialize (F2 _ G1'). specialize (G2 _ F1'). lia. }
    apply holes_ok_cons in Hl as (Ho & Hl & Hg). apply holes_ok_cons in Hl' as (Ho' & Hl' & Hg').
    pose proof (ho_min h Ho). pose proof (ho_min h' Ho'). unfold MIN_BLOCK in *.
    assert (E2 : h.2 = h'.2).
    { destruct (Ztrichotomy h.2 h'.2) as [H1|[H1|H1]]; [|done|].
      - exfalso. apply F3, Hx, G4. unfold inside. lia.
      - exfalso. apply G3, Hx, F4. unfold inside. lia. }
    assert (E : h = h') by (destruct h, h'; cbn in *; congruence). subst h'. f_equal. apply IH; [done|done|].
    intros x. specialize (Hx x). rewrite !free_at_cons in Hx. split; intros Hf.
    + pose proof (gap_free l x h Hg Hf). destruct Hx as [Hx _]. destruct (Hx (or_intror Hf)) as [Hi|?]; [|done].
      unfold inside in Hi. lia.
    + pose proof (gap_free l' x h Hg' Hf). destruct Hx as [_ Hx]. destruct (Hx (or_intror Hf)) as [Hi|?]; [|done].
      unfold inside in Hi. lia.
Qed.

(** ** Insertion *)

Lemma holes_below_app block l below others : holes_below block l = (below, others) -> l = below ++ others.
Proof.
  revert below others. induction l as [|[addr size] l IH]; intros below others H; cbn in H; [by simplify_eq|].
  destruct (addr <? block); [|by simplify_eq]. destruct (holes_below block l) as [b o]. simplify_eq.
  cbn. f_equal. by apply IH.
Qed.

(** A block apart from the holes has those that end before it below, and those
    that start behind it among the others. *)
Lemma holes_below_spec block size l below others :
  holes_ok l -> 0 < size -> apart l (block, size) -> holes_below block l = (below, others) ->
  Forall (fun h => h.1 + h.2 <= block) below /\ Forall (fun h => block + size <= h.1) others.
Proof.
  revert below others. induction l as [|[addr hsize] l IH]; intros below others Hl Hs Ha H; cbn in H; [by simplify_eq|].
  pose proof Hl as (Ho & Hl' & Hg)%holes_ok_cons. apply Forall_cons in Ha as [Ha Ha']. cbn in Ha. pose proof (ho_min _ Ho) as Hm. unfold MIN_BLOCK in Hm. cbn in Hm.
  destruct (addr <? block) eqn:E.
  - destruct (holes_below block l) as [b o] eqn:Eb. simplify_eq. destruct (IH b others Hl' Hs Ha' eq_refl) as [H1 H2].
    split; [|done]. apply Forall_cons. split; [cbn; lia|done].
  - simplify_eq. split; [constructor|]. apply Forall_cons. cbn. split; [lia|].
    eapply Forall_impl; [exact Hg|]. intros h Hh. unfold gap in Hh. cbn in *. lia.
Qed.

Lemma merge_forward_spec block size others size' others' :
  hole_ok (block, size) -> holes_ok others -> Forall (fun h => block + size <= h.1) others ->
  merge_forward block size others = (size', others') ->
  hole_ok (block, size') /\ holes_ok others' /\ Forall (gap (block, size')) others' /\
  (forall x, inside (block, size') x \/ free_at others' x <-> inside (block, size) x \/ free_at others x) /\
  size' + bytes_of others' = size + bytes_of others /\ size <= size'.
Proof.
  intros Hb Ho Hf H. destruct others as [|[cur cs] rest]; cbn in H; [simplify_eq; by split_and!|].
  apply holes_ok_cons in Ho as (Hc & Hr & Hg). apply Forall_cons in Hf as [Hf0 Hf]. cbn in Hf0.
  pose proof (ho_min _ Hc) as Hcm. cbn in Hcm. unfold MIN_BLOCK in Hcm.
  destruct (block + size =? cur) eqn:E; simplify_eq.
  - apply Z.eqb_eq in E. destruct Hb as [B1 B2 B3 [B4 B5]], Hc as [C1 C2 C3 [C4 C5]]. unfold MIN_BLOCK in *.
    cbn [fst snd] in *. split_and!.
    + split; cbn; unfold MIN_BLOCK; lia.
    + done.
    + eapply Forall_impl; [exact Hg|]. intros h Hh. unfold gap in *. cbn in *. lia.
    + intros x. rewrite free_at_cons. unfold inside. cbn. split; [intros [?|?]|intros [?|[?|?]]]; try (left; lia) || (by right; right) || (by right); [].
      destruct (decide (x < block + size)); [left; lia|right; left; lia].
    + rewrite bytes_of_cons. cbn. lia.
    + lia.
  - split_and!; try done; [by apply holes_ok_cons|]. apply Z.eqb_neq in E. apply Forall_cons. split; [unfold gap; cbn; lia|].
    eapply Forall_impl; [exact Hg|]. intros h Hh. unfold gap in *. cbn in *. lia.
Qed.

Lemma merge_backward_spec block size below others :
  hole_ok (block, size) -> holes_ok below -> holes_ok others ->
  Forall (fun h => h.1 + h.2 <= block) below -> Forall (gap (block, size)) others ->
  let l := merge_backward block size below others in
  holes_ok l /\ (forall x, free_at l x <-> free_at below x \/ inside (block, size) x \/ free_at others x) /\
  bytes_of l = bytes_of below + size + bytes_of others.
Proof.
  intros Hb Hbel Hoth Hend Hg. cbn zeta. unfold merge_backward.
  pose proof (ho_min _ Hb) as Hm. unfold MIN_BLOCK in Hm. cbn in Hm.
  assert (Hcons : holes_ok ((block, size) :: others)) by (by apply holes_ok_cons).
  assert (Hapart : Forall (fun h => h.1 + h.2 < block) below ->
    holes_ok (below ++ (block, size) :: others) /\
    (forall x, free_at (below ++ (block, size) :: others) x <-> free_at below x \/ inside (block, size) x \/ free_at others x) /\
    bytes_of (below ++ (block, size) :: others) = bytes_of below + size + bytes_of others).
  { intros Hlt. split_and!.
    - apply holes_ok_app. split_and!; [done|done|]. intros h h' Hh Hh'. rewrite Forall_forall in Hlt. specialize (Hlt h Hh).
      apply elem_of_cons in Hh' as [->|Hh']; [unfold gap; cbn; lia|]. rewrite Forall_forall in Hg. specialize (Hg h' Hh').
      unfold gap in *. cbn in *. lia.
    - intros x. by rewrite free_at_app, free_at_cons.
    - rewrite bytes_of_app, bytes_of_cons. cbn. lia. }
  destruct (last below) as [[prev ps]|] eqn:El.
  - apply last_Some in El as [below' ->]. rewrite removelast_last.
    apply holes_ok_app in Hbel as (H1 & H2 & H3). apply holes_ok_cons in H2 as (Hp & _ & _).
    apply Forall_app in Hend as [He1 He2]. apply Forall_cons in He2 as [He2 _]. cbn in He2.
    assert (Hprev : Forall (fun h => h.1 + h.2 < prev) below').
    { apply Forall_forall. intros h Hh. specialize (H3 h (prev, ps) Hh ltac:(by left)). exact H3. }
    pose proof (ho_min _ Hp) as Hpm. unfold MIN_BLOCK in Hpm. cbn in Hpm.
    destruct (prev + ps =? block) eqn:E.
    + apply Z.eqb_eq in E. destruct Hb as [B1 B2 B3 [B4 B5]], Hp as [C1 C2 C3 [C4 C5]]. unfold MIN_BLOCK in *. cbn [fst snd] in *.
      assert (Hnew : hole_ok (prev, ps + size)) by (split; cbn; unfold MIN_BLOCK; lia).
      assert (Hg' : Forall (gap (prev, ps + size)) others).
      { eapply Forall_impl; [exact Hg|]. intros h Hh. unfold gap in *. cbn in *. lia. }
      split_and!.
      * apply holes_ok_app. split_and!; [done|by apply holes_ok_cons|]. intros h h' Hh Hh'.
        rewrite Forall_forall in Hprev. specialize (Hprev h Hh). apply elem_of_cons in Hh' as [->|Hh']; [unfold gap; cbn; lia|].
        rewrite Forall_forall in Hg'. specialize (Hg' h' Hh'). unfold gap in *. cbn in *. lia.
      * intros x. rewrite !free_at_app, !free_at_cons, free_at_nil.
        assert (Hin : inside (prev, ps + size) x <-> inside (prev, ps) x \/ inside (block, size) x) by (unfold inside; cbn; lia). tauto.
      * rewrite !bytes_of_app, !bytes_of_cons. change (bytes_of []) with 0. cbn [snd]. lia.
    + apply Hapart. apply Z.eqb_neq in E. apply Forall_app. split.
      * eapply Forall_impl; [exact Hprev|]. intros h Hh. cbn beta in *. lia.
      * apply Forall_singleton. cbn. lia.
  - apply last_None in El as ->. apply Hapart. constructor.
Qed.

(** What [insert] makes of the list: a list in good order, with the block's bytes
    free as well. *)
Lemma insert_hole_spec block size l :
  holes_ok l -> hole_ok (block, size) -> apart l (block, size) ->
  let l' := insert_hole block size l in
  holes_ok l' /\ (forall x, free_at l' x <-> free_at l x \/ inside (block, size) x) /\ bytes_of l' = bytes_of l + size.
Proof.
  intros Hl Hb Ha. cbn zeta. unfold insert_hole. pose proof (ho_min _ Hb) as Hm. unfold MIN_BLOCK in Hm. cbn in Hm.
  destruct (holes_below block l) as [below others] eqn:Eb.
  destruct (holes_below_spec block size l below others) as [H1 H2]; [done|lia|done|done|].
  apply holes_below_app in Eb as ->. apply holes_ok_app in Hl as (Hl1 & Hl2 & _).
  destruct (merge_forward block size others) as [size' others'] eqn:Ef.
  destruct (merge_forward_spec block size others size' others') as (F1 & F2 & F3 & F4 & F5 & F6); [done..|].
  destruct (merge_backward_spec block size' below others') as (G1 & G2 & G3); [done..|]. cbn zeta in *.
  split_and!; [done| |rewrite G3, bytes_of_app; lia].
  intros x. rewrite G2, F4, free_at_app. tauto.
Qed.

Lemma bytes_of_bound l x : holes_ok l -> Forall (fun h => x <= h.1) l -> x <= HEAP_END -> 0 <= bytes_of l <= HEAP_END - x.
Proof.
  revert x. induction l as [|h l IH]; intros x Hl Hx Hend; [cbn; lia|].
  apply holes_ok_cons in Hl as (Ho & Hl & Hg). apply Forall_cons in Hx as [Hx _]. destruct Ho as [_ _ Hm [_ He]].
  specialize (IH (h.1 + h.2) Hl). rewrite bytes_of_cons. unfold MIN_BLOCK in Hm.
  assert (0 <= bytes_of l <= HEAP_END - (h.1 + h.2)); [|lia]. apply IH; [|lia].
  eapply Forall_impl; [exact Hg|]. intros h' Hh'. unfold gap in Hh'. lia.
Qed.

Lemma bytes_of_max l : holes_ok l -> 0 <= bytes_of l <= KERNEL_HEAP_MAX.
Proof.
  intros Hl. pose proof (bytes_of_bound l KERNEL_HEAP_BASE Hl) as H. unfold HEAP_END in H.
  assert (0 <= bytes_of l <= KERNEL_HEAP_BASE + KERNEL_HEAP_MAX - KERNEL_HEAP_BASE); [|lia]. apply H.
  - eapply Forall_impl; [apply Hl|]. intros h Hh. apply Hh.
  - unfold KERNEL_HEAP_MAX. lia.
Qed.

Lemma insert_sums_fit block size l :
  holes_ok l -> hole_ok (block, size) -> apart l (block, size) -> Forall is_u64 (insert_sums block size l).
Proof.
  intros Hl Hb Ha. unfold insert_sums. pose proof (ho_min _ Hb) as Hm. unfold MIN_BLOCK in Hm. cbn in Hm.
  destruct (holes_below block l) as [below others] eqn:Eb.
  destruct (holes_below_spec block size l below others) as [H1 H2]; [done|lia|done|done|].
  apply holes_below_app in Eb as ->. pose proof Hl as (Hl1 & Hl2 & _)%holes_ok_app.
  destruct (merge_forward block size others) as [size' others'] eqn:Ef.
  destruct (merge_forward_spec block size others size' others') as (F1 & F2 & F3 & F4 & F5 & F6); [done..|].
  destruct (ho_place _ Hb) as [B1 B2], (ho_place _ F1) as [B3 B4]. cbn in B1, B2, B3, B4.
  unfold HEAP_END, KERNEL_HEAP_BASE, KERNEL_HEAP_MAX in *.
  apply Forall_app. split.
  - destruct others; [constructor|]. repeat constructor; unfold is_u64, u64_max; lia.
  - destruct (last below) as [[prev ps]|] eqn:El; [|constructor]. apply last_Some in El as [below' ->].
    apply holes_ok_app in Hl1 as (_ & Hp & _). apply holes_ok_cons in Hp as (Hp & _). destruct (ho_place _ Hp) as [P1 P2].
    pose proof (ho_min _ Hp) as Hpm. unfold MIN_BLOCK, HEAP_END, KERNEL_HEAP_BASE, KERNEL_HEAP_MAX in *. cbn in P1, P2, Hpm.
    constructor; [unfold is_u64, u64_max; lia|]. destruct (_ =? _); constructor; [unfold is_u64, u64_max; lia|constructor].
Qed.

(** ** The heap as a whole *)

Record heap_ok (h : HoleList) : Prop := {
  hp_holes : holes_ok (holes h);
  hp_free : free_bytes h = bytes_of (holes h);
}.

Lemma wp_sums {S} (l : list Z) (Q : S -> unit -> Prop) X (s : S) :
  Forall is_u64 l -> Q s tt -> wp (E := Empty_set) (mapM_ (fun x => let! _ := usize x in ret tt) l) Q X s.
Proof.
  intros Hl HQ. induction Hl as [|x l Hx Hl IH]; [by apply wp_ret|]. unfold is_u64 in Hx. cbn [mapM_].
  apply wp_bind, wp_bind, wp_checked; [done|]. by apply wp_ret.
Qed.

Definition inserted (block size : Z) (h : HoleList) : HoleList :=
  with_free (free_bytes h + size) (with_holes (insert_hole block size (holes h)) h).

Lemma wp_insert block size h (Q : HoleList -> unit -> Prop) X :
  heap_ok h -> hole_ok (block, size) -> apart (holes h) (block, size) ->
  Q (inserted block size h) tt -> wp (insert block size) Q X h.
Proof.
  intros [Hl Hf] Hb Ha HQ. pose proof (bytes_of_max _ Hl). destruct (ho_place _ Hb) as [B1 B2]. pose proof (ho_min _ Hb) as Hm.
  unfold HEAP_END, KERNEL_HEAP_MAX, MIN_BLOCK in *. cbn in B1, B2, Hm.
  unfold insert. apply wp_bind, wp_gets, wp_bind, wp_checked; [unfold u64_max; lia|]. apply wp_bind, wp_gets, wp_bind.
  apply wp_sums; [by apply insert_sums_fit|]. apply wp_modify. exact HQ.
Qed.

Lemma inserted_ok block size h :
  heap_ok h -> hole_ok (block, size) -> apart (holes h) (block, size) ->
  heap_ok (inserted block size h) /\
  (forall x, free_at (holes (inserted block size h)) x <-> free_at (holes h) x \/ inside (block, size) x).
Proof.
  intros [Hl Hf] Hb Ha. destruct (insert_hole_spec block size _ Hl Hb Ha) as (H1 & H2 & H3).
  split; [split; [done|]|done]. change (free_bytes h + size = bytes_of (insert_hole block size (holes h))). cbn zeta in H3. lia.
Qed.

(** ** Allocation *)

(** What a caller may ask for: an alignment that is a power of two, as [Layout]
    has it, and no more of either than the heap could ever hold. *)
Definition layout_ok (l : Layout) : Prop :=
  0 <= l_size l <= KERNEL_HEAP_MAX /\ exists k, 0 <= k <= 40 /\ l_align l = 2 ^ k.

(** The size and the alignment the list works in. *)
Definition block_size (l : Layout) : Z := (Z.max (l_size l) MIN_BLOCK + 15) / 16 * 16.
Definition block_align (l : Layout) : Z := Z.max (l_align l) MIN_BLOCK.

Lemma wp_normalize {S} l (Q : S -> Z * Z -> Prop) X (s : S) :
  layout_ok l -> Q s (block_size l, block_align l) -> wp (normalize l) Q X s.
Proof.
  intros [Hs _] HQ. unfold normalize. apply wp_bind. unfold MIN_BLOCK in *.
  apply (wp_align_up _ 4); [lia|lia|unfold KERNEL_HEAP_MAX, u64_max in *; lia|]. intros a [H1 H2]. apply wp_ret.
  replace a with (block_size l); [done|]. unfold block_size, MIN_BLOCK. change (2 ^ 4) with 16 in *. lia.
Qed.

Lemma block_size_ok l : layout_ok l -> block_size l `mod` 16 = 0 /\ 16 <= block_size l <= KERNEL_HEAP_MAX + 16 /\ l_size l <= block_size l.
Proof. intros [Hs _]. unfold block_size, MIN_BLOCK. lia. Qed.

(** The alignment is a power of two, and 16 divides it. *)
Lemma block_align_ok l : layout_ok l -> exists k, 4 <= k <= 40 /\ block_align l = 2 ^ k.
Proof.
  intros [_ (k & Hk & Ha)]. unfold block_align, MIN_BLOCK. rewrite Ha. destruct (decide (k <= 4)).
  - exists 4. split; [lia|]. change (2 ^ 4) with 16. rewrite Z.max_r; [done|]. change 16 with (2 ^ 4). apply Z.pow_le_mono_r; lia.
  - exists k. split; [lia|]. rewrite Z.max_l; [done|]. change 16 with (2 ^ 4). apply Z.pow_le_mono_r; lia.
Qed.

Lemma aligned_16 k a : 4 <= k -> a `mod` 2 ^ k = 0 -> a `mod` 16 = 0.
Proof.
  intros Hk Ha. replace k with (4 + (k - 4)) in Ha by lia. rewrite Z.pow_add_r in Ha by lia. change (2 ^ 4) with 16 in Ha.
  assert (0 < 2 ^ (k - 4)) by (apply Z.pow_pos_nonneg; lia).
  apply Z.mod_divide in Ha as [q ->]; [|lia]. rewrite Z.mul_assoc, (Z.mul_comm q 16), <- Z.mul_assoc, Z.mul_comm. by apply Z.mod_mul.
Qed.

(** A block of [size] bytes at [p], all of them free. *)
Definition block_free (l : list (Z * Z)) (align size p : Z) : Prop :=
  p `mod` align = 0 /\ forall x, p <= x < p + size -> free_at l x.

(** A run of free bytes lies in one hole, because holes do not touch. *)
Lemma free_run_in_hole l p size :
  holes_ok l -> 0 < size -> (forall x, p <= x < p + size -> free_at l x) ->
  exists h, h ∈ l /\ h.1 <= p /\ p + size <= h.1 + h.2.
Proof.
  intros Hl Hs Hx. pose proof (Hx p ltac:(lia)) as (h & Hin & Hp)%Exists_exists. exists h. split; [done|].
  unfold inside in Hp. split; [lia|]. destruct (decide (p + size <= h.1 + h.2)); [done|exfalso].
  pose proof (Hx (h.1 + h.2) ltac:(lia)) as (h' & Hin' & Hp')%Exists_exists. unfold inside in Hp'.
  apply list_elem_of_split in Hin as (l1 & l2 & ->). apply holes_ok_app in Hl as (_ & Hl2 & Hg).
  apply holes_ok_cons in Hl2 as (Ho & _ & Hg2). apply elem_of_app in Hin' as [Hin'|Hin'].
  - specialize (Hg h' h Hin' ltac:(by left)). unfold gap in Hg. destruct Ho as [_ _ Hm _]. unfold MIN_BLOCK in Hm. lia.
  - apply elem_of_cons in Hin' as [->|Hin']; [lia|]. rewrite Forall_forall in Hg2. specialize (Hg2 h' Hin'). unfold gap in Hg2. lia.
Qed.

(** The bytes of a block taken out of a list. *)
Definition taken_out (h h' : HoleList) (p size : Z) : Prop :=
  heap_ok h' /\ total_bytes h' = total_bytes h /\ mapped h' = mapped h /\ free_bytes h' = free_bytes h - size /\
  (forall x, free_at (holes h') x <-> free_at (holes h) x /\ ~ (p <= x < p + size)).

(** What is left of a hole on one side of a block, if anything is. *)
Lemma wp_insert_rest block size h X :
  heap_ok h -> block `mod` 16 = 0 -> size `mod` 16 = 0 -> 0 <= size -> KERNEL_HEAP_BASE <= block -> block + size <= HEAP_END ->
  apart (holes h) (block, size) ->
  wp (if 0 <? size then insert block size else ret tt)
    (fun h' _ => heap_ok h' /\ total_bytes h' = total_bytes h /\ mapped h' = mapped h /\ free_bytes h' = free_bytes h + size /\
       forall x, free_at (holes h') x <-> free_at (holes h) x \/ inside (block, size) x) X h.
Proof.
  intros Hh Hb Hs H0 Hp1 Hp2 Ha. destruct (0 <? size) eqn:E.
  - assert (Ho : hole_ok (block, size)) by (split; cbn; unfold MIN_BLOCK; lia).
    destruct (inserted_ok block size h Hh Ho Ha) as [H1 H2]. apply wp_insert; [done..|]. by split_and!.
  - apply wp_ret. split_and!; [done..|lia|]. intros x. unfold inside. cbn. split; [by left|intros [?|?]; [done|lia]].
Qed.

Lemma apart_app l l' b : apart (l ++ l') b <-> apart l b /\ apart l' b.
Proof. apply Forall_app. Qed.

(** Blocks inside one hole are apart from the others. *)
Lemma inside_apart before a s rest b :
  holes_ok (before ++ (a, s) :: rest) -> a <= b.1 -> 0 <= b.2 -> b.1 + b.2 <= a + s -> apart (before ++ rest) b.
Proof.
  intros (_ & Hr & Hg)%holes_ok_app H1 H2 H3. apply holes_ok_cons in Hr as (_ & _ & Hgr). apply apart_app. split.
  - apply Forall_forall. intros h Hh. specialize (Hg h (a, s) Hh ltac:(by left)). unfold gap in Hg. cbn in Hg. left. lia.
  - eapply Forall_impl; [exact Hgr|]. intros h Hh. unfold gap in Hh. cbn in Hh. right. lia.
Qed.

Lemma apart_free l b x : apart l b -> free_at l x -> ~ inside b x.
Proof.
  intros Ha (h & Hin & Hx)%Exists_exists Hb. unfold apart in Ha; rewrite Forall_forall in Ha. specialize (Ha h Hin). unfold inside in *. lia.
Qed.

Lemma free_apart l b :
  holes_ok l -> 0 <= b.2 -> (forall x, inside b x -> ~ free_at l x) -> 0 < b.2 -> apart l b.
Proof.
  intros Hl H0 Hx Hpos. apply Forall_forall. intros h Hh. destruct Hl as [_ Hl]. rewrite Forall_forall in Hl.
  destruct (Hl h Hh) as [_ _ Hm _]. unfold MIN_BLOCK in Hm.
  destruct (decide (h.1 + h.2 <= b.1)); [by left|]. destruct (decide (b.1 + b.2 <= h.1)); [by right|exfalso].
  apply (Hx (Z.max h.1 b.1)); [unfold inside; lia|]. apply Exists_exists. exists h. split; [done|]. unfold inside. lia.
Qed.

(** The first hole that fits is split. *)
Lemma wp_alloc_hole before a s rest k size start h X :
  heap_ok h -> holes h = before ++ (a, s) :: rest -> 4 <= k <= 40 -> size `mod` 16 = 0 -> 16 <= size ->
  start `mod` 2 ^ k = 0 -> a <= start -> start + size <= a + s ->
  wp (let! free := gets free_bytes in
      let! free := usize (free - s) in
      modify (fun h => with_free free (with_holes (before ++ rest) h)) ;;;
      (if 0 <? start - a then insert a (start - a) else ret tt) ;;;
      (if 0 <? s - (start - a) - size then insert (start + size) (s - (start - a) - size) else ret tt) ;;;
      ret (Some start))
    (fun h' r => r = Some start /\ taken_out h h' start size) X h.
Proof.
  intros [Hl Hf] Hh Hk Hs1 Hs2 Hst Hge Hle. rewrite Hh in Hl, Hf. pose proof (bytes_of_max _ Hl) as Hmax.
  pose proof Hl as (Hl1 & Hl2 & Hgap)%holes_ok_app. pose proof Hl2 as (Ho & Hr & Hgr)%holes_ok_cons.
  destruct Ho as [O1 O2 O3 [O4 O5]]. unfold MIN_BLOCK in *. cbn [fst snd] in *.
  apply aligned_16 in Hst; [|lia].
  rewrite bytes_of_app, bytes_of_cons in Hf, Hmax. cbn [snd] in Hf, Hmax.
  assert (Hmid : holes_ok (before ++ rest)).
  { apply holes_ok_app. split_and!; [done|done|]. intros h1 h2 H1 H2. apply Hgap; [done|by right]. }
  pose proof (bytes_of_max _ Hmid) as Hmax2. rewrite bytes_of_app in Hmax2.
  apply wp_bind, wp_gets, wp_bind, wp_checked; [unfold KERNEL_HEAP_MAX, u64_max in *; lia|]. apply wp_bind, wp_modify.
  set (h1 := with_free (free_bytes h - s) (with_holes (before ++ rest) h)).
  assert (Hh1 : heap_ok h1).
  { split; [done|]. change (free_bytes h - s = bytes_of (before ++ rest)). rewrite bytes_of_app. lia. }
  apply wp_bind. eapply wp_mono; [apply (wp_insert_rest a (start - a) h1); [done|done|lia|lia|lia|lia|]| |done].
  { eapply inside_apart; [exact Hl|cbn; lia..]. }
  intros h2 [] (Hh2 & T2 & M2 & F2 & E2). change (holes h1) with (before ++ rest) in E2.
  change (total_bytes h1) with (total_bytes h) in T2. change (mapped h1) with (mapped h) in M2. change (free_bytes h1) with (free_bytes h - s) in F2.
  assert (Hap2 : 0 < s - (start - a) - size -> apart (holes h2) (start + size, s - (start - a) - size)).
  { intros Hpos. apply free_apart; [apply Hh2|cbn; lia| |done]. intros x Hx. unfold inside in Hx. cbn in Hx. rewrite E2. intros [Hfr|Hfr].
    - eapply (apart_free (before ++ rest) (a, s)); [eapply inside_apart; [exact Hl|cbn; lia..]|exact Hfr|]. unfold inside. cbn. lia.
    - unfold inside in Hfr. cbn in Hfr. lia. }
  apply wp_bind. destruct (0 <? s - (start - a) - size) eqn:Eb.
  - pose proof (wp_insert_rest (start + size) (s - (start - a) - size) h2 X Hh2 ltac:(lia) ltac:(lia) ltac:(lia) ltac:(lia) ltac:(lia) (Hap2 ltac:(lia))) as Hw.
    rewrite Eb in Hw. eapply wp_mono; [exact Hw| |done]. intros h3 [] (Hh3 & T3 & M3 & F3 & E3). apply wp_ret. split; [done|].
    split_and!; [done|congruence|congruence|rewrite F3, F2; lia|]. intros x. rewrite E3, E2, Hh, !free_at_app, free_at_cons.
    pose proof (apart_free (before ++ rest) (a, s) x ltac:(eapply inside_apart; [exact Hl|cbn; lia..])) as Hx. rewrite free_at_app in Hx.
    unfold inside in *. cbn in *. destruct (decide (start <= x < start + size)); intuition lia.
  - apply wp_ret. apply wp_ret. split; [done|]. split_and!; [done|done|done|rewrite F2; lia|].
    intros x. rewrite E2, Hh, !free_at_app, free_at_cons.
    pose proof (apart_free (before ++ rest) (a, s) x ltac:(eapply inside_apart; [exact Hl|cbn; lia..])) as Hx. rewrite free_at_app in Hx.
    unfold inside in *. cbn in *. destruct (decide (start <= x < start + size)); intuition lia.
Qed.

(** A hole that an aligned block fits in is one that [fits] accepts. *)
Lemma fits_iff a s k size start :
  hole_ok (a, s) -> 4 <= k -> size `mod` 16 = 0 -> 16 <= size -> rounded_up a (2 ^ k) start ->
  fits s (start - a) size = true <-> exists p, p `mod` 2 ^ k = 0 /\ a <= p /\ p + size <= a + s.
Proof.
  intros [O1 O2 O3 O4] Hk Hs1 Hs2 [R1 R2]. unfold MIN_BLOCK in *. cbn [fst snd] in *. pose proof (aligned_16 k start Hk R1) as R16.
  unfold fits, MIN_BLOCK. rewrite !andb_true_iff, !orb_true_iff, !Z.leb_le, !Z.eqb_eq. split.
  - intros [[H1 _] _]. exists start. split_and!; [done|lia|lia].
  - intros (p & Hp & H1 & H2). assert (start <= p); [|split_and!; lia].
    assert (0 < 2 ^ k) by (apply Z.pow_pos_nonneg; lia). apply Z.mod_divide in Hp as [x ->]; [|lia]. apply Z.mod_divide in R1 as [y ->]; [|lia].
    assert (y <= x); [|nia]. destruct (decide (y <= x)); [done|exfalso]. nia.
Qed.

Lemma wp_alloc_from k size h l : forall before X,
  heap_ok h -> holes h = before ++ l -> 4 <= k <= 40 -> size `mod` 16 = 0 -> 16 <= size <= KERNEL_HEAP_MAX + 16 ->
  Forall (fun g => forall p, p `mod` 2 ^ k = 0 -> g.1 <= p -> ~ p + size <= g.1 + g.2) before ->
  wp (alloc_from size (2 ^ k) before l)
    (fun h' r => match r with
                 | Some p => block_free (holes h) (2 ^ k) size p /\ taken_out h h' p size
                 | None => h' = h /\ forall p, ~ block_free (holes h) (2 ^ k) size p
                 end) X h.
Proof.
  induction l as [|[a s] rest IH]; intros before X Hh Heq Hk Hs1 Hs2 Hno; cbn [alloc_from].
  - apply wp_ret. split; [done|]. intros p [Hp Hx]. rewrite Heq, app_nil_r in Hx.
    assert (Hl : holes_ok before) by (rewrite <- (app_nil_r before), <- Heq; apply Hh).
    destruct (free_run_in_hole before p size Hl) as (g & Hin & H1 & H2); [lia|done|].
    rewrite Forall_forall in Hno. exact (Hno g Hin p Hp H1 H2).
  - assert (Hl : holes_ok (before ++ (a, s) :: rest)) by (rewrite <- Heq; apply Hh).
    pose proof Hl as (_ & (Ho & _)%holes_ok_cons & _)%holes_ok_app. pose proof (ho_place _ Ho) as [P1 P2]. cbn in P1, P2.
    pose proof (ho_min _ Ho) as Hm. unfold MIN_BLOCK in Hm. cbn in Hm.
    assert (Hpow : 0 < 2 ^ k <= 2 ^ 40) by (split; [apply Z.pow_pos_nonneg; lia|apply Z.pow_le_mono_r; lia]).
    unfold HEAP_END, KERNEL_HEAP_BASE, KERNEL_HEAP_MAX in *.
    apply wp_bind, wp_align_up; [lia|lia|unfold u64_max; lia|]. intros start Hst.
    apply wp_bind, wp_checked; [destruct Hst; unfold u64_max; lia|].
    pose proof (fits_iff a s k size start Ho ltac:(lia) Hs1 ltac:(lia) Hst) as Hfit. destruct (fits s (start - a) size).
    + pose proof (proj1 Hfit eq_refl) as (p & Hp & H1 & H2). assert (Hsp : start <= p).
      { destruct Hst as [R1 R2]. apply Z.mod_divide in Hp as [x ->]; [|lia]. apply Z.mod_divide in R1 as [y ->]; [|lia].
        assert (y <= x); [|nia]. destruct (decide (y <= x)); [done|exfalso]. nia. }
      destruct Hst as [R1 R2]. eapply wp_mono; [apply (wp_alloc_hole before a s rest k size start); try done; lia| |done].
      intros h' r [-> Ht]. split; [|done]. split; [done|]. intros x Hx. rewrite Heq, free_at_app, free_at_cons.
      right. left. unfold inside. cbn. lia.
    + apply IH; try done; [by rewrite <- app_assoc|]. apply Forall_app. split; [done|]. apply Forall_cons. split; [|constructor].
      cbn. intros p Hp H1 H2. destruct Hfit as [_ Hfit]. discriminate Hfit. by exists p.
Qed.

Lemma alloc_spec l h :
  heap_ok h -> layout_ok l ->
  wp (alloc l)
    (fun h' r => match r with
                 | Some p => block_free (holes h) (block_align l) (block_size l) p /\ taken_out h h' p (block_size l)
                 | None => h' = h /\ forall p, ~ block_free (holes h) (block_align l) (block_size l) p
                 end) (fun _ _ => False) h.
Proof.
  intros Hh Hl. destruct (block_size_ok l Hl) as (H1 & H2 & _). destruct (block_align_ok l Hl) as (k & Hk & Ha).
  unfold alloc. apply wp_bind, wp_normalize; [done|]. rewrite Ha. apply wp_bind, wp_gets.
  by apply wp_alloc_from.
Qed.

(** What is handed back: a block apart from everything that is free. *)
Lemma dealloc_spec p l h :
  heap_ok h -> layout_ok l -> hole_ok (p, block_size l) -> apart (holes h) (p, block_size l) ->
  dealloc p l h = (inserted p (block_size l) h, Ok tt).
Proof.
  intros Hh Hl Hb Ha. assert (H : wp (dealloc p l) (fun h' _ => h' = inserted p (block_size l) h) (fun _ _ => False) h).
  { unfold dealloc. apply wp_bind, wp_normalize; [done|]. by apply wp_insert. }
  unfold wp in H. destruct (dealloc p l h) as [h' [[]|e|w]]; [by subst|done..].
Qed.

Lemma taken_block_ok h k size p :
  heap_ok h -> 4 <= k -> size `mod` 16 = 0 -> 16 <= size -> block_free (holes h) (2 ^ k) size p -> hole_ok (p, size).
Proof.
  intros [Hl _] Hk Hs1 Hs2 [Hp Hx]. destruct (free_run_in_hole _ p size Hl) as (g & Hin & H1 & H2); [lia|done|].
  destruct Hl as [_ Hl]. rewrite Forall_forall in Hl. destruct (Hl g Hin) as [_ _ _ [P1 P2]]. apply aligned_16 in Hp; [|done].
  split; cbn; unfold MIN_BLOCK; lia.
Qed.

Lemma taken_out_apart h h' p size : 16 <= size -> taken_out h h' p size -> apart (holes h') (p, size).
Proof.
  intros Hs (Hh & _ & _ & _ & Hx). apply free_apart; [apply Hh|cbn; lia| |cbn; lia]. intros x Hi Hf. apply Hx in Hf as [_ Hf].
  apply Hf. exact Hi.
Qed.

(** Allocation is first fit with no loss: it returns a block of free bytes,
    aligned and as long as asked for, and takes those bytes and no other; it
    returns nothing only when no aligned block of free bytes is that long; and to
    hand the block back makes the heap exactly what it was. *)
Theorem alloc_exact h l :
  heap_ok h -> layout_ok l ->
  match alloc l h with
  | (h', Ok (Some p)) =>
      block_free (holes h) (block_align l) (block_size l) p /\ taken_out h h' p (block_size l) /\
      dealloc p l h' = (h, Ok tt)
  | (h', Ok None) => h' = h /\ forall p, ~ block_free (holes h) (block_align l) (block_size l) p
  | _ => False
  end.
Proof.
  intros Hh Hl. pose proof (alloc_spec l h Hh Hl) as H. unfold wp in H.
  destruct (alloc l h) as [h' [[p|]|e|w]]; [|done..]. destruct H as [Hb Ht]. split_and!; [done|done|].
  destruct (block_size_ok l Hl) as (S1 & S2 & _). destruct (block_align_ok l Hl) as (k & Hk & Ha). rewrite Ha in Hb.
  assert (Hok : hole_ok (p, block_size l)) by (apply (taken_block_ok h k); [done|lia|done|lia|done]).
  assert (Hap : apart (holes h') (p, block_size l)) by (eapply taken_out_apart; [lia|exact Ht]).
  pose proof Ht as (Hh' & T1 & T2 & T3 & T4). rewrite dealloc_spec by done. f_equal.
  destruct (inserted_ok p (block_size l) h' Hh' Hok Hap) as [[I1 I2] I3].
  assert (E : holes (inserted p (block_size l) h') = holes h).
  { apply holes_canonical; [done|apply Hh|]. intros x. rewrite I3, T4. destruct Hb as [_ Hx]. specialize (Hx x).
    unfold inside. cbn. destruct (decide (p <= x < p + block_size l)); tauto. }
  unfold inserted in *. cbn [holes with_free with_holes] in E. unfold with_free, with_holes. cbn. rewrite E, T1, T2, T3.
  replace (free_bytes h - block_size l + block_size l) with (free_bytes h) by lia. by destruct h.
Qed.
