(* ===== verification/HeapOwners.v ===== *)
(** * The heap under every interleaving

    What a task does to the heap with its lock held is one step: a try at an
    allocation, a block handed back, a claim of address space, the memory of a
    claim given to the list. Between two steps of one task, others may take
    theirs. Whatever the order, the blocks handed out, the claims under way and
    the holes are apart from one another, and the counts add up. *)

From S2P Require Import Prelude Words Frame Heap HeapSpec.

(** A block that has been handed out, with the layout it was asked for. *)
Definition Block : Type := Z * Layout.

(** The heap, the blocks in use, and the claims not yet given to the list. *)
Record Shared := mkShared { list_of : HoleList; live : list Block; pending : list Claim }.

Inductive hstep : Shared -> Shared -> Prop :=
| step_alloc h h' l r bs cs :
    layout_ok l -> alloc l h = (h', Ok r) ->
    hstep (mkShared h bs cs) (mkShared h' (match r with Some p => [(p, l)] | None => [] end ++ bs) cs)
| step_dealloc h h' p l bs bs' cs :
    bs ≡ₚ (p, l) :: bs' -> dealloc p l h = (h', Ok tt) -> hstep (mkShared h bs cs) (mkShared h' bs' cs)
| step_claim h h' stats needed least r bs cs :
    0 <= needed <= KERNEL_HEAP_MAX -> 0 < least <= KERNEL_HEAP_MAX -> claim stats needed least h = (h', Ok r) ->
    hstep (mkShared h bs cs) (mkShared h' bs (option_list r ++ cs))
| step_grow h h' c n bs cs cs' :
    (** [n] bytes of the claim got pages. *)
    cs ≡ₚ c :: cs' -> 0 < n <= c_bytes c -> n `mod` PAGE_SIZE = 0 -> add_region (c_start c) n h = (h', Ok tt) ->
    hstep (mkShared h bs cs) (mkShared h' bs cs')
| step_lost h c bs cs cs' :
    (** No page of the claim did. *)
    cs ≡ₚ c :: cs' -> hstep (mkShared h bs cs) (mkShared h bs cs').

(** ** What holds after every step *)

Definition block_range (b : Block) : Z * Z := (b.1, block_size b.2).
Definition claim_range (c : Claim) : Z * Z := (c_start c, c_bytes c).

(** Everything that is not a hole. *)
Definition ranges (s : Shared) : list (Z * Z) := (block_range <$> live s) ++ (claim_range <$> pending s).

Fixpoint all_apart (l : list (Z * Z)) : Prop :=
  match l with
  | [] => True
  | b :: l => apart l b /\ all_apart l
  end.

Definition live_bytes (bs : list Block) : Z := bytes_of (block_range <$> bs).

Record shared_ok (s : Shared) : Prop := {
  so_heap : heap_ok (list_of s);
  so_apart : all_apart (ranges s);
  so_holes : Forall (apart (holes (list_of s))) (ranges s);
  so_ranges : Forall (fun r => hole_ok r /\ r.1 + r.2 <= KERNEL_HEAP_BASE + mapped (list_of s)) (ranges s);
  so_below : Forall (fun h => h.1 + h.2 <= KERNEL_HEAP_BASE + mapped (list_of s)) (holes (list_of s));
  so_live : Forall (fun b => layout_ok b.2 /\ b.1 `mod` block_align b.2 = 0) (live s);
  so_mapped : 0 <= mapped (list_of s) <= KERNEL_HEAP_MAX /\ mapped (list_of s) `mod` PAGE_SIZE = 0;
  so_claims : Forall (fun c => c_start c `mod` PAGE_SIZE = 0 /\ c_bytes c `mod` PAGE_SIZE = 0) (pending s);
  so_total : total_bytes (list_of s) = free_bytes (list_of s) + live_bytes (live s);
}.

Lemma apart_sym (a b : Z * Z) l : apart (a :: l) b -> apart [b] a.
Proof. intros [H _]%Forall_cons. apply Forall_cons. split; [|constructor]. lia. Qed.

Lemma apart_perm l l' b : l ≡ₚ l' -> apart l b -> apart l' b.
Proof. intros Hp. unfold apart. by rewrite Hp. Qed.

Lemma all_apart_perm l l' : l ≡ₚ l' -> all_apart l -> all_apart l'.
Proof.
  induction 1 as [|b l l' Hp IH|a b l|l l' l'' _ IH1 _ IH2]; cbn; [done| | |auto].
  - intros [H1 H2]. split; [by eapply apart_perm|auto].
  - intros [H1 [H2 H3]]. apply Forall_cons in H1 as [H1 H4]. split; [apply Forall_cons; split; [lia|done]|done].
Qed.

Lemma bytes_of_perm l l' : l ≡ₚ l' -> bytes_of l = bytes_of l'.
Proof. induction 1; rewrite ?bytes_of_cons in *; lia || done. Qed.

Lemma live_bytes_cons b bs : live_bytes (b :: bs) = block_size b.2 + live_bytes bs.
Proof. done. Qed.

Lemma ranges_perm_live h bs bs' cs : bs ≡ₚ bs' -> ranges (mkShared h bs cs) ≡ₚ ranges (mkShared h bs' cs).
Proof. intros Hp. unfold ranges. cbn. by rewrite Hp. Qed.

Lemma ranges_perm_pending h h' bs cs c cs' :
  cs ≡ₚ c :: cs' -> ranges (mkShared h bs cs) ≡ₚ claim_range c :: ranges (mkShared h' bs cs').
Proof. intros Hp. unfold ranges. cbn. rewrite Hp. cbn. by rewrite <- Permutation_middle. Qed.

(** A part of a piece is apart from what the piece is apart from. *)
Lemma apart_part l (b c : Z * Z) : b.1 <= c.1 -> c.1 + c.2 <= b.1 + b.2 -> apart l b -> apart l c.
Proof. intros H1 H2 Ha. eapply Forall_impl; [exact Ha|]. intros h Hh. cbn beta in *. lia. Qed.

(** A block of free bytes is apart from what is apart from the holes. *)
Lemma free_block_apart l rs p size :
  holes_ok l -> 0 < size -> (forall x, p <= x < p + size -> free_at l x) -> Forall (apart l) rs -> apart rs (p, size).
Proof.
  intros Hl Hs Hx Hr. destruct (free_run_in_hole l p size Hl Hs Hx) as (h & Hin & H1 & H2).
  eapply Forall_impl; [exact Hr|]. intros r Ha. unfold apart in Ha. rewrite Forall_forall in Ha. specialize (Ha h Hin). cbn. lia.
Qed.

(** With fewer bytes free, what was apart from the holes still is. *)
Lemma apart_fewer l l' r : holes_ok l' -> 0 < r.2 -> (forall x, free_at l' x -> free_at l x) -> apart l r -> apart l' r.
Proof.
  intros Hl' Hr Hx Ha. apply free_apart; [done|lia| |done]. intros x Hi Hf. exact (apart_free l r x Ha (Hx x Hf) Hi).
Qed.

Lemma range_pos r : hole_ok r -> 0 < r.2.
Proof. intros [_ _ H _]. unfold MIN_BLOCK in H. lia. Qed.

(** The holes end below [e] exactly when every free byte is below it. *)
Lemma below_free l e : holes_ok l -> Forall (fun h => h.1 + h.2 <= e) l <-> forall x, free_at l x -> x < e.
Proof.
  intros [_ Hl]. rewrite !Forall_forall in *. split.
  - intros H x (h & Hin & Hx)%Exists_exists. specialize (H h Hin). unfold inside in Hx. lia.
  - intros H h Hin. pose proof (range_pos h (Hl h Hin)). assert (h.1 + h.2 - 1 < e); [|lia]. apply H, Exists_exists. exists h.
    split; [done|]. unfold inside. lia.
Qed.

(** The rest of the state stays right when the holes lose or gain a block that
    goes to, or comes from, what is not a hole. *)
Lemma shared_alloc h h' l p bs cs :
  shared_ok (mkShared h bs cs) -> layout_ok l ->
  block_free (holes h) (block_align l) (block_size l) p -> taken_out h h' p (block_size l) ->
  shared_ok (mkShared h' ((p, l) :: bs) cs).
Proof.
  intros [Hh Hap Hho Hra Hbe Hli Hma Hcl Hto] Hl Hb Ht. cbn [list_of live pending] in *.
  destruct (block_size_ok l Hl) as (S1 & S2 & _). destruct (block_align_ok l Hl) as (k & Hk & Ha).
  pose proof Ht as (Hh' & T1 & T2 & T3 & T4).
  assert (Hok : hole_ok (p, block_size l)) by (rewrite Ha in Hb; apply (taken_block_ok h k); [done|lia|done|lia|done]).
  assert (Hbelow : forall x, free_at (holes h) x -> x < KERNEL_HEAP_BASE + mapped h) by (apply below_free; [apply Hh|done]).
  assert (Hranges : ranges (mkShared h' ((p, l) :: bs) cs) = (p, block_size l) :: ranges (mkShared h bs cs)) by done.
  destruct Hb as [Hal Hx]. split; cbn [list_of live pending]; rewrite ?Hranges, ?T2.
  - done.
  - split; [|done]. by eapply free_block_apart; [apply Hh|lia|done|done].
  - apply Forall_cons. split; [eapply taken_out_apart; [|done]; lia|].
    apply Forall_forall. intros r Hr. rewrite Forall_forall in Hho. rewrite Forall_forall in Hra. destruct (Hra r Hr) as [Hr1 _].
    apply (apart_fewer (holes h)); [apply Hh'|by apply range_pos| |by apply Hho]. intros x Hf. by apply T4 in Hf as [? _].
  - apply Forall_cons. split; [split; [done|]|done]. cbn. pose proof (Hbelow (p + block_size l - 1) ltac:(apply Hx; lia)). lia.
  - apply below_free; [apply Hh'|]. intros x Hf. apply T4 in Hf as [? _]. auto.
  - apply Forall_cons. done.
  - done.
  - done.
  - rewrite live_bytes_cons. cbn [snd]. lia.
Qed.

Lemma shared_dealloc h h' p l bs bs' cs :
  shared_ok (mkShared h bs cs) -> bs ≡ₚ (p, l) :: bs' -> dealloc p l h = (h', Ok tt) -> shared_ok (mkShared h' bs' cs).
Proof.
  intros [Hh Hap Hho Hra Hbe Hli Hma Hcl Hto] Hp Hd. cbn [list_of live pending] in *.
  assert (Hperm : ranges (mkShared h bs cs) ≡ₚ (p, block_size l) :: ranges (mkShared h bs' cs)) by (by rewrite (ranges_perm_live _ _ _ _ Hp)).
  apply (all_apart_perm _ _ Hperm) in Hap as [Hap1 Hap2]. rewrite Hperm in Hho, Hra. rewrite Hp in Hli.
  apply Forall_cons in Hho as [Hho1 Hho2]. apply Forall_cons in Hra as [[Hok Hend] Hra2]. apply Forall_cons in Hli as [[Hl _] Hli2].
  cbn in Hl, Hend. rewrite dealloc_spec in Hd by done. injection Hd as <-.
  destruct (inserted_ok p (block_size l) h Hh Hok Hho1) as [Hh' Hx].
  split; cbn [list_of live pending]; try done.
  - apply Forall_forall. intros r Hr. unfold apart in Hap1. rewrite Forall_forall in Hho2, Hra2, Hap1.
    destruct (Hra2 r Hr) as [Hr1 _]. apply free_apart; [apply Hh'|pose proof (range_pos r Hr1); lia| |by apply range_pos].
    intros x Hi Hf. apply Hx in Hf as [Hf|Hf]; [exact (apart_free _ _ _ (Hho2 r Hr) Hf Hi)|].
    specialize (Hap1 r Hr). unfold inside in *. cbn in *. lia.
  - apply below_free; [apply Hh'|]. intros x Hf. apply Hx in Hf as [Hf|Hf]; [|unfold inside in Hf; cbn in *; lia].
    apply (proj1 (below_free _ (KERNEL_HEAP_BASE + mapped h) (hp_holes _ Hh)) Hbe x Hf).
  - change (total_bytes h = free_bytes h + block_size l + live_bytes bs'). rewrite Hto.
    unfold live_bytes. rewrite (bytes_of_perm (block_range <$> bs) (block_range <$> ((p, l) :: bs'))) by (by rewrite Hp).
    rewrite fmap_cons, bytes_of_cons. cbn [block_range snd]. lia.
Qed.

(** A claim is the next range of address space, and moves [mapped] past it. *)
Lemma claim_spec stats needed least h h' r :
  0 <= needed <= KERNEL_HEAP_MAX -> 0 < least <= KERNEL_HEAP_MAX -> claim stats needed least h = (h', Ok r) ->
  h' = h /\ r = None \/
  exists want, 0 < want /\ want `mod` PAGE_SIZE = 0 /\ mapped h + want <= KERNEL_HEAP_MAX /\
    h' = with_mapped (mapped h + want) h /\ r = Some (mkClaim (KERNEL_HEAP_BASE + mapped h) want).
Proof.
  intros Hn Hle Hc. unfold KERNEL_HEAP_MAX in Hn, Hle. unfold claim, bind in Hc. destruct stats as [used total].
  assert (Ha : wp (E := Empty_set) (page_align_up (Z.max needed least)) (fun s want => s = h /\ rounded_up (Z.max needed least) PAGE_SIZE want) (fun _ _ => False) h).
  { unfold page_align_up. apply (wp_align_up _ 12); [lia|lia|unfold u64_max; lia|]. done. }
  unfold wp in Ha. destruct (page_align_up (Z.max needed least) h) as [h1 [want|e|w]]; [|done..]. destruct Ha as [-> [R1 R2]].
  unfold gets, checked, ret, fail_with, modify in Hc. unfold PAGE_SIZE in R1, R2.
  repeat case_match; simplify_eq; try (by left). right. exists want.
  unfold PAGE_SIZE. split_and!; try done; lia.
Qed.

Lemma shared_claim h h' stats needed least r bs cs :
  shared_ok (mkShared h bs cs) -> 0 <= needed <= KERNEL_HEAP_MAX -> 0 < least <= KERNEL_HEAP_MAX ->
  claim stats needed least h = (h', Ok r) -> shared_ok (mkShared h' bs (option_list r ++ cs)).
Proof.
  intros Hs Hn Hle Hc. pose proof Hs as [Hh Hap Hho Hra Hbe Hli [Hma1 Hma2] Hcl Hto]. cbn [list_of live pending] in *.
  destruct (claim_spec _ _ _ _ _ _ Hn Hle Hc) as [[-> ->]|(want & W1 & W2 & W3 & -> & ->)]; [done|].
  set (c := mkClaim (KERNEL_HEAP_BASE + mapped h) want).
  assert (Hok : hole_ok (claim_range c)).
  { unfold claim_range. split; cbn; unfold MIN_BLOCK, PAGE_SIZE, HEAP_END, KERNEL_HEAP_BASE in *; lia. }
  assert (Hperm : ranges (mkShared (with_mapped (mapped h + want) h) bs (c :: cs)) ≡ₚ claim_range c :: ranges (mkShared h bs cs)) by (by apply ranges_perm_pending).
  assert (Hfar : apart (ranges (mkShared h bs cs)) (claim_range c)).
  { eapply Forall_impl; [exact Hra|]. intros r' [_ Hr]. left. cbn. lia. }
  split; cbn [list_of live pending option_list app]; try done.
  - destruct Hh. by split.
  - apply (all_apart_perm (claim_range c :: ranges (mkShared h bs cs))); [by rewrite Hperm|]. done.
  - rewrite Hperm. apply Forall_cons. split; [|done]. eapply Forall_impl; [exact Hbe|]. intros g Hg. left. cbn in *. lia.
  - rewrite Hperm. apply Forall_cons. split; [split; [done|cbn; lia]|].
    eapply Forall_impl; [exact Hra|]. intros g [Hg1 Hg2]. split; [done|]. cbn. lia.
  - eapply Forall_impl; [exact Hbe|]. intros g Hg. cbn in *. lia.
  - cbn. split; [lia|]. rewrite Z.add_mod, Hma2, W2 by done. done.
  - apply Forall_cons. split; [|done]. cbn. split; [|done]. unfold KERNEL_HEAP_BASE, PAGE_SIZE in *. lia.
Qed.

Lemma shared_forget h c bs cs cs' : shared_ok (mkShared h bs cs) -> cs ≡ₚ c :: cs' -> shared_ok (mkShared h bs cs').
Proof.
  intros [Hh Hap Hho Hra Hbe Hli Hma Hcl Hto] Hp. cbn [list_of live pending] in *.
  pose proof (ranges_perm_pending h h bs cs c cs' Hp) as Hperm.
  apply (all_apart_perm _ _ Hperm) in Hap as [Hap1 Hap2]. rewrite Hperm in Hho, Hra. rewrite Hp in Hcl.
  apply Forall_cons in Hho as [_ Hho2]. apply Forall_cons in Hra as [_ Hra2]. apply Forall_cons in Hcl as [_ Hcl2].
  by split.
Qed.

Lemma wp_add_region start n h (Q : HoleList -> unit -> Prop) X :
  heap_ok h -> hole_ok (start, n) -> apart (holes h) (start, n) -> 0 <= total_bytes h <= KERNEL_HEAP_MAX ->
  Q (inserted start n (with_total (total_bytes h + n) h)) tt -> wp (add_region start n) Q X h.
Proof.
  intros Hh Hok Ha Ht HQ. pose proof (ho_min _ Hok) as Hm. destruct (ho_place _ Hok) as [P1 P2].
  unfold HEAP_END, KERNEL_HEAP_MAX, MIN_BLOCK in *. cbn in Hm, P1, P2.
  unfold add_region. rewrite (proj2 (Z.ltb_ge n MIN_BLOCK)) by (unfold MIN_BLOCK; lia).
  apply wp_bind, wp_gets, wp_bind, wp_checked; [unfold u64_max; lia|]. apply wp_bind, wp_modify.
  apply wp_insert; [destruct Hh; by split|done|done|done].
Qed.

(** Inserting a range leaves apart what was apart from it and from the holes. *)
Lemma apart_inserted l b r :
  holes_ok l -> hole_ok b -> apart l b -> hole_ok r -> apart l r -> apart [b] r -> apart (insert_hole b.1 b.2 l) r.
Proof.
  intros Hl Hb Hab Hr Har Hbr. destruct b as [block size]. destruct (insert_hole_spec block size l Hl Hb Hab) as (H1 & H2 & _).
  apply free_apart; [done|pose proof (range_pos r Hr); lia| |by apply range_pos]. intros x Hi Hf.
  apply H2 in Hf as [Hf|Hf]; [exact (apart_free _ _ _ Har Hf Hi)|]. apply Forall_cons in Hbr as [Hbr _].
  unfold inside in *. cbn in *. lia.
Qed.

(** Ranges apart from the holes and from one another could all be holes, so with
    the holes they fill no more than the heap's address space. *)
Lemma ranges_bound rs : forall l,
  holes_ok l -> all_apart rs -> Forall (apart l) rs -> Forall hole_ok rs -> bytes_of l + bytes_of rs <= KERNEL_HEAP_MAX.
Proof.
  induction rs as [|r rs IH]; intros l Hl Hap Har Hok; [pose proof (bytes_of_max l Hl); cbn; lia|].
  destruct Hap as [Hr Hap]. apply Forall_cons in Har as [Har Hars]. apply Forall_cons in Hok as [Ho Hok].
  destruct r as [block size]. destruct (insert_hole_spec block size l Hl Ho Har) as (H1 & _ & H3). cbn zeta in *.
  specialize (IH (insert_hole block size l) H1 Hap). rewrite bytes_of_cons. cbn [snd].
  assert (bytes_of (insert_hole block size l) + bytes_of rs <= KERNEL_HEAP_MAX); [|lia]. apply IH; [|done].
  apply Forall_forall. intros r Hin. unfold apart in Hr. rewrite Forall_forall in Hars, Hok, Hr.
  apply (apart_inserted l (block, size) r); auto. apply Forall_cons. split; [|constructor]. specialize (Hr r Hin). cbn in *. lia.
Qed.

Lemma all_apart_app l l' : all_apart (l ++ l') -> all_apart l.
Proof. induction l as [|b l IH]; cbn; [done|]. intros [H1 H2]. split; [by apply apart_app in H1 as [? _]|auto]. Qed.

Lemma total_bound s : shared_ok s -> 0 <= total_bytes (list_of s) <= KERNEL_HEAP_MAX /\ free_bytes (list_of s) <= total_bytes (list_of s).
Proof.
  destruct s as [h bs cs]. intros [Hh Hap Hho Hra _ _ _ _ Hto]. cbn [list_of live pending] in *. pose proof (bytes_of_max _ (hp_holes _ Hh)).
  rewrite Hto, (hp_free _ Hh). unfold ranges in *. cbn in *. apply all_apart_app in Hap.
  apply Forall_app in Hra as [Hra _]. apply Forall_app in Hho as [Hho _].
  assert (Hok : Forall hole_ok (block_range <$> bs)) by (eapply Forall_impl; [exact Hra|]; by intros r [? _]).
  pose proof (ranges_bound _ _ (hp_holes _ Hh) Hap Hho Hok) as Hb. fold (live_bytes bs) in Hb.
  assert (0 <= live_bytes bs); [|lia]. unfold live_bytes. clear -Hok.
  induction Hok as [|r l Hr _ IH]; [done|]. rewrite bytes_of_cons. pose proof (range_pos r Hr). lia.
Qed.

Lemma shared_grow h h' c n bs cs cs' :
  shared_ok (mkShared h bs cs) -> cs ≡ₚ c :: cs' -> 0 < n <= c_bytes c -> n `mod` PAGE_SIZE = 0 ->
  add_region (c_start c) n h = (h', Ok tt) -> shared_ok (mkShared h' bs cs').
Proof.
  intros Hs Hp Hn Hpage Hadd. destruct (total_bound _ Hs) as [Htot _]. pose proof (shared_forget h c bs cs cs' Hs Hp) as Hs'.
  destruct Hs as [Hh Hap Hho Hra Hbe Hli Hma Hcl Hto]. cbn [list_of live pending] in *.
  pose proof (ranges_perm_pending h h bs cs c cs' Hp) as Hperm.
  apply (all_apart_perm _ _ Hperm) in Hap as [Hap1 Hap2]. rewrite Hperm in Hho, Hra. rewrite Hp in Hcl.
  apply Forall_cons in Hho as [Hho1 Hho2]. apply Forall_cons in Hra as [[Hok Hend] Hra2]. apply Forall_cons in Hcl as [[Hc1 Hc2] Hcl2].
  set (b := (c_start c, n)).
  assert (Hb : hole_ok b).
  { destruct Hok as [O1 O2 O3 [O4 O5]]. unfold b. split; cbn in *; unfold MIN_BLOCK, PAGE_SIZE in *; lia. }
  assert (Hpart : forall l, apart l (claim_range c) -> apart l b) by (intros l; apply apart_part; cbn; lia).
  assert (Hw : wp (add_region (c_start c) n) (fun h2 _ => h2 = inserted (c_start c) n (with_total (total_bytes h + n) h)) (fun _ _ => False) h)
    by (apply wp_add_region; [done|done|by apply Hpart|done|done]).
  unfold wp in Hw. rewrite Hadd in Hw. subst h'.
  assert (Hh1 : heap_ok (with_total (total_bytes h + n) h)) by (destruct Hh; by split).
  destruct (inserted_ok (c_start c) n _ Hh1 Hb (Hpart _ Hho1)) as [Hh2 Hx].
  destruct Hs' as [_ _ Hho' Hra' _ _ _ _ _]. cbn [list_of live pending] in *.
  split; cbn [list_of live pending]; try done.
  - apply Forall_forall. intros r Hr. apply Hpart in Hap1. unfold apart in Hap1. rewrite Forall_forall in Hap1, Hho2, Hra2.
    apply (apart_inserted (holes h) b r); [apply Hh|done|by apply Hpart|by apply Hra2|by apply Hho2|].
    apply Forall_cons. split; [|constructor]. specialize (Hap1 r Hr). cbn in *. lia.
  - apply below_free; [apply Hh2|]. intros x Hf. apply Hx in Hf as [Hf|Hf]; [|unfold inside in Hf; cbn in *; lia].
    apply (proj1 (below_free _ (KERNEL_HEAP_BASE + mapped h) (hp_holes _ Hh)) Hbe x Hf).
  - change (total_bytes h + n = free_bytes h + n + live_bytes bs). lia.
Qed.

Lemma shared_step s s' : shared_ok s -> hstep s s' -> shared_ok s'.
Proof.
  intros Hs Hstep. destruct Hstep as [h h' l r bs cs Hl Ha|h h' p l bs bs' cs Hp Hd|h h' stats needed least r bs cs H1 H2 Hc
                                     |h h' c n bs cs cs' Hp H1 H2 Ha|h c bs cs cs' Hp].
  - pose proof (alloc_spec l h (so_heap _ Hs) Hl) as Hw. unfold wp in Hw. rewrite Ha in Hw. destruct r as [p|].
    + destruct Hw as [H1 H2]. by apply (shared_alloc h).
    + destruct Hw as [-> _]. done.
  - by eapply shared_dealloc.
  - by eapply shared_claim.
  - by eapply shared_grow.
  - by eapply shared_forget.
Qed.

Lemma shared_reachable s s' : shared_ok s -> rtc hstep s s' -> shared_ok s'.
Proof. intros Hs Hr. induction Hr; [done|]. eauto using shared_step. Qed.

(** The heap as [heap_init] leaves it. *)
Definition first_heap : HoleList :=
  mkHoleList [(KERNEL_HEAP_BASE, KERNEL_HEAP_SIZE)] KERNEL_HEAP_SIZE KERNEL_HEAP_SIZE KERNEL_HEAP_SIZE.

Lemma first_heap_ok : shared_ok (mkShared first_heap [] []).
Proof.
  assert (Hok : hole_ok (KERNEL_HEAP_BASE, KERNEL_HEAP_SIZE)).
  { split; cbn; unfold MIN_BLOCK, HEAP_END, KERNEL_HEAP_BASE, KERNEL_HEAP_SIZE, KERNEL_HEAP_MAX; lia. }
  split; cbn [list_of live pending]; try (by constructor); try done.
  - split; [|done]. apply holes_ok_cons. split_and!; [done|apply holes_ok_nil|constructor].
Qed.

(** C27: From the heap as it is set up, after any interleaving of the steps of any
    tasks: two blocks in use never share a byte, none of their bytes is free,
    each is aligned and at least as long as asked for, the next allocation and
    every hand-back end without a panic, and the bytes free and in use are the
    bytes there are. *)
Theorem blocks_apart h bs cs :
  rtc hstep (mkShared first_heap [] []) (mkShared h bs cs) ->
  (forall i j b c, bs !! i = Some b -> bs !! j = Some c -> i <> j ->
     b.1 + l_size b.2 <= c.1 \/ c.1 + l_size c.2 <= b.1) /\
  (forall b, b ∈ bs -> b.1 `mod` l_align b.2 = 0 /\ l_size b.2 <= block_size b.2 /\
     (forall x, b.1 <= x < b.1 + l_size b.2 -> ~ free_at (holes h) x) /\ exists h', dealloc b.1 b.2 h = (h', Ok tt)) /\
  (forall l, layout_ok l -> exists h' r, alloc l h = (h', Ok r)) /\
  total_bytes h = free_bytes h + live_bytes bs.
Proof.
  intros Hr. pose proof (shared_reachable _ _ first_heap_ok Hr) as [Hh Hap Hho Hra Hbe Hli Hma Hcl Hto].
  cbn [list_of live pending] in *. unfold ranges in *. cbn [live pending] in *. apply all_apart_app in Hap.
  apply Forall_app in Hra as [Hra _]. apply Forall_app in Hho as [Hho _]. rewrite !Forall_fmap, !Forall_forall in *.
  assert (Hsz : forall b, b ∈ bs -> l_size b.2 <= block_size b.2).
  { intros b Hb. destruct (Hli b Hb) as [Hl _]. by apply block_size_ok in Hl as (_ & _ & ?). }
  split_and!.
  - intros i j b c Hi Hj Hne.
    assert (Hpair : forall i j b c, (i < j)%nat -> bs !! i = Some b -> bs !! j = Some c ->
              b.1 + block_size b.2 <= c.1 \/ c.1 + block_size c.2 <= b.1).
    { clear -Hap. induction bs as [|d bs IH]; intros i j b c Hij Hi Hj; [done|]. destruct Hap as [Hd Hap].
      destruct j as [|j]; [lia|]. cbn in Hj. destruct i as [|i]; [|by eapply (IH Hap i j); [lia|..]]. cbn in Hi. simplify_eq.
      unfold apart in Hd. rewrite Forall_fmap, Forall_forall in Hd. specialize (Hd c ltac:(by eapply list_elem_of_lookup_2)).
      cbn in Hd. lia. }
    pose proof (Hsz b ltac:(by eapply list_elem_of_lookup_2)). pose proof (Hsz c ltac:(by eapply list_elem_of_lookup_2)).
    destruct (decide (i < j)%nat) as [Hlt|Hge]; [specialize (Hpair i j b c Hlt Hi Hj)|specialize (Hpair j i c b ltac:(lia) Hj Hi)]; lia.
  - intros b Hb. destruct (Hli b Hb) as [Hl Hal]. specialize (Hho b Hb). destruct (Hra b Hb) as [Hok _].
    split_and!; [|by apply Hsz| |].
    + destruct Hl as [_ (k & Hk & Ha)]. unfold block_align, MIN_BLOCK in Hal. rewrite Ha in *.
      destruct (decide (16 <= 2 ^ k)); [by rewrite Z.max_l in Hal by lia|]. rewrite Z.max_r in Hal by lia.
      assert (Hp : 0 < 2 ^ k) by (apply Z.pow_pos_nonneg; lia).
      assert (Hk4 : k <= 4) by (destruct (decide (k <= 4)); [done|]; pose proof (Z.pow_le_mono_r 2 4 k); lia).
      change 16 with (2 ^ 4) in Hal. replace 4 with (k + (4 - k)) in Hal by lia. rewrite Z.pow_add_r in Hal by lia.
      assert (0 < 2 ^ (4 - k)) by (apply Z.pow_pos_nonneg; lia). apply Z.mod_divide in Hal as [q ->]; [|lia].
      rewrite (Z.mul_comm (2 ^ k)), Z.mul_assoc. by apply Z.mod_mul; lia.
    + intros x Hx Hf. apply (apart_free _ _ _ Hho Hf). unfold inside, block_range. cbn. specialize (Hsz b Hb). lia.
    + eexists. by apply dealloc_spec.
  - intros l Hl. pose proof (alloc_spec l h Hh Hl) as Hw. unfold wp in Hw. destruct (alloc l h) as [h' [r|e|w]]; [eauto|done..].
  - done.
Qed.

(** * The allocator the kernel calls

    [locked_alloc], [locked_dealloc], [top_up] and [heap_init] are made of the
    steps of HeapOwners, whatever the page tables do; none of them is stuck, and
    [BELOW_MARGIN] says what the free list holds after each. *)

(** What is relied on of the frame allocator: it uses no more than there is, and
    there is no more than a 64-bit machine can have. *)
Class TablesOk (K : Type) `{!Tables K} : Prop := {
  stats_ok k : 0 <= (frame_stats k).1 <= (frame_stats k).2 /\ (frame_stats k).2 <= 2 ^ 40;
}.

Section world.
Context {K : Type} `{!Tables K} `{!TablesOk K}.
Implicit Types w : World K.

Definition shared_of w (bs : list Block) (cs : list Claim) : Shared := mkShared (heap w) bs cs.

Lemma wp_map_pages todo start : forall page w,
  0 <= page -> KERNEL_HEAP_BASE <= start -> start + (page + Z.of_nat todo) * PAGE_SIZE <= HEAP_END ->
  wp (map_pages todo start page)
    (fun w' r => heap w' = heap w /\ below_margin w' = below_margin w /\
       match r with
       | Some n => page * PAGE_SIZE <= n < (page + Z.of_nat todo) * PAGE_SIZE /\ n `mod` PAGE_SIZE = 0
       | None => True
       end) (fun _ _ => False) w.
Proof.
  induction todo as [|todo IH]; intros page w Hp Hs He; cbn [map_pages]; [by apply wp_ret|].
  unfold HEAP_END, KERNEL_HEAP_BASE, KERNEL_HEAP_MAX, PAGE_SIZE in *.
  apply wp_bind, wp_checked; [unfold u64_max; lia|]. apply wp_bind, wp_state.
  destruct (map_new _ (tables w)) as [t ok]. cbn [fst snd]. destruct ok.
  - eapply wp_mono; [apply IH; lia| |done]. intros w' r (H1 & H2 & H3). cbn in H1, H2. split_and!; [done|done|].
    destruct r as [n|]; [|done]. destruct H3. split; [lia|done].
  - apply wp_ret. split_and!; [done|done|lia|lia|]. apply Z.mod_mul. lia.
Qed.

Lemma wp_map_claim c w :
  KERNEL_HEAP_BASE <= c_start c -> c_start c + c_bytes c <= HEAP_END -> 0 <= c_bytes c -> c_bytes c `mod` PAGE_SIZE = 0 ->
  wp (map_claim c)
    (fun w' n => heap w' = heap w /\ below_margin w' = below_margin w /\ 0 <= n <= c_bytes c /\ n `mod` PAGE_SIZE = 0) (fun _ _ => False) w.
Proof.
  intros Hs He H0 Hm. unfold map_claim. apply wp_bind. unfold PAGE_SIZE in *.
  eapply wp_mono; [apply wp_map_pages; [lia|done|unfold PAGE_SIZE; lia]| |done].
  intros w' r (H1 & H2 & H3). apply wp_ret. unfold PAGE_SIZE in *. destruct r as [n|]; cbn [default from_option id]; split_and!; try done; lia.
Qed.

(** One step of the heap with its lock held. *)
Lemma wp_on_heap {A} (m : HeapM A) w (P : HoleList -> A -> Prop) (Q : World K -> A -> Prop) X :
  wp m P (fun _ _ => False) (heap w) ->
  (forall h a, P h a -> m (heap w) = (h, Ok a) -> Q (mkWorld h (below_margin w) (tables w)) a) ->
  wp (on_heap m) Q X w.
Proof.
  intros Hm HQ. unfold on_heap. apply wp_zoom. unfold wp in *. destruct (m (heap w)) as [h [a|e|u]] eqn:E; [|done..]. by apply HQ.
Qed.

Definition margin_right w : Prop := below_margin w = (free_bytes (heap w) <? HEAP_MARGIN).

Lemma wp_try_alloc l w bs cs :
  shared_ok (shared_of w bs cs) -> layout_ok l ->
  wp (on_heap (alloc l)) (fun w' r => hstep (shared_of w bs cs) (shared_of w' (match r with Some p => [(p, l)] | None => [] end ++ bs) cs) /\
       below_margin w' = below_margin w /\ (r = None -> heap w' = heap w)) (fun _ _ => False) w.
Proof.
  intros Hs Hl. eapply wp_on_heap; [apply alloc_spec; [apply Hs|done]|]. intros h r Hsp Hr. split_and!; [by apply step_alloc|done|].
  intros ->. by destruct Hsp.
Qed.

Lemma wp_make_claim needed least w bs cs :
  shared_ok (shared_of w bs cs) -> 0 <= needed <= KERNEL_HEAP_MAX -> 0 < least <= KERNEL_HEAP_MAX ->
  wp (make_claim needed least)
    (fun w' r => hstep (shared_of w bs cs) (shared_of w' bs (option_list r ++ cs)) /\ below_margin w' = below_margin w /\
       free_bytes (heap w') = free_bytes (heap w)) (fun _ _ => False) w.
Proof.
  intros Hs Hn Hle. unfold make_claim. apply wp_bind, wp_gets. unfold id. destruct (stats_ok (tables w)) as [Hst1 Hst2].
  destruct (so_mapped _ Hs) as [Hma _]. cbn [list_of shared_of] in Hma.
  eapply (wp_on_heap _ w (fun _ _ => True)).
  - unfold claim. destruct (frame_stats (tables w)) as [used total]. cbn [fst snd] in *. unfold KERNEL_HEAP_MAX in *.
    apply wp_bind. unfold page_align_up. apply (wp_align_up _ 12); [lia|lia|unfold u64_max; lia|]. intros want [R1 R2]. change (2 ^ 12) with 4096 in *.
    unfold FRAME_RESERVE, PAGE_SIZE, KERNEL_HEAP_BASE in *. by wp_steps.
  - intros h r _ Hr. split_and!; [by apply (step_claim _ _ (frame_stats (tables w)) needed least)|done|].
    destruct (claim_spec _ _ _ _ _ _ Hn Hle Hr) as [[-> _]|(want & _ & _ & _ & -> & _)]; done.
Qed.

Lemma claim_place h bs c cs :
  shared_ok (mkShared h bs (c :: cs)) ->
  KERNEL_HEAP_BASE <= c_start c /\ c_start c + c_bytes c <= HEAP_END /\ 0 <= c_bytes c /\ c_bytes c `mod` PAGE_SIZE = 0.
Proof.
  intros Hs. pose proof (so_ranges _ Hs) as Hra. pose proof (so_claims _ Hs) as Hcl. cbn [pending] in Hcl.
  rewrite (ranges_perm_pending h h bs (c :: cs) c cs) in Hra by done. apply Forall_cons in Hra as [[Hok _] _].
  apply Forall_cons in Hcl as [[_ Hp] _]. destruct Hok as [_ _ O3 [O4 O5]]. unfold MIN_BLOCK in O3. cbn in O3, O4, O5.
  split_and!; [done|done|lia|done].
Qed.

Lemma wp_publish w (Q : World K -> unit -> Prop) X :
  Q (mkWorld (heap w) (free_bytes (heap w) <? HEAP_MARGIN) (tables w)) tt -> wp publish_margin Q X w.
Proof. intros HQ. by apply wp_modify. Qed.

Lemma wp_grow c n w bs cs :
  shared_ok (shared_of w bs (c :: cs)) -> 0 < n <= c_bytes c -> n `mod` PAGE_SIZE = 0 ->
  wp (on_heap (add_region (c_start c) n)) (fun w' _ => hstep (shared_of w bs (c :: cs)) (shared_of w' bs cs) /\ tables w' = tables w) (fun _ _ => False) w.
Proof.
  intros Hs Hn Hp. destruct (claim_place _ _ _ _ Hs) as (C1 & C2 & C3 & C4). destruct (total_bound _ Hs) as [Ht _].
  pose proof (so_ranges _ Hs) as Hra. pose proof (so_holes _ Hs) as Hho.
  rewrite (ranges_perm_pending (heap w) (heap w) bs (c :: cs) c cs) in Hra, Hho by done.
  apply Forall_cons in Hra as [[Hok _] _]. apply Forall_cons in Hho as [Hho _].
  assert (Hb : hole_ok (c_start c, n)).
  { destruct Hok as [O1 O2 O3 [O4 O5]]. split; cbn in *; unfold MIN_BLOCK, PAGE_SIZE in *; lia. }
  eapply (wp_on_heap _ w (fun _ _ => True)).
  - apply wp_add_region; [apply Hs|done| |done|done]. eapply apart_part; [| |exact Hho]; cbn; lia.
  - intros h [] _ Hr. split; [|done]. by apply (step_grow _ _ c n).
Qed.

(** An allocation the kernel makes ends without a panic, whatever the page
    tables do and however much memory is left; it is a sequence of steps of the
    heap, at the end of which the block it returns, if any, is in use and no
    claim is left over; and the flag says whether the margin has been eaten into. *)
Theorem locked_alloc_serves l w bs cs :
  shared_ok (shared_of w bs cs) -> layout_ok l -> margin_right w ->
  match locked_alloc l w with
  | (w', Ok r) => margin_right w' /\
      rtc hstep (shared_of w bs cs) (shared_of w' (match r with Some p => [(p, l)] | None => [] end ++ bs) cs)
  | _ => False
  end.
Proof.
  intros Hs Hl Hm.
  enough (H : wp (locked_alloc l) (fun w' r => margin_right w' /\
      rtc hstep (shared_of w bs cs) (shared_of w' (match r with Some p => [(p, l)] | None => [] end ++ bs) cs)) (fun _ _ => False) w).
  { unfold wp in H. by destruct (locked_alloc l w) as [w' [r|e|u]]. }
  pose proof Hl as [Hl1 _]. unfold locked_alloc. apply wp_bind. unfold try_alloc. apply wp_bind.
  eapply wp_mono; [by apply wp_try_alloc| |done]. intros w1 r (H1 & B1 & E1). destruct r as [p|].
  { apply wp_bind, wp_publish, wp_ret, wp_ret. split; [done|]. apply rtc_once. exact H1. }
  apply wp_ret. pose proof (shared_step _ _ Hs H1) as Hs1. cbn [app] in H1, Hs1.
  specialize (E1 eq_refl). apply wp_bind.
  eapply wp_mono; [apply (wp_make_claim (l_size l) CHUNK w1 bs cs); [done|done|unfold CHUNK, KERNEL_HEAP_MAX; lia]| |done].
  intros w2 r (H2 & B2 & F2). pose proof (shared_step _ _ Hs1 H2) as Hs2.
  assert (Hm2 : margin_right w2) by (unfold margin_right in *; congruence).
  destruct r as [c|]; cbn [option_list app] in H2, Hs2.
  2: { apply wp_ret. split; [done|]. by eapply rtc_l, rtc_once. }
  destruct (claim_place _ _ _ _ Hs2) as (C1 & C2 & C3 & C4). apply wp_bind.
  eapply wp_mono; [by apply wp_map_claim| |done]. intros w3 n (E3 & B3 & N1 & N2).
  assert (Hs3 : shared_of w3 bs (c :: cs) = shared_of w2 bs (c :: cs)) by (unfold shared_of; by rewrite E3).
  destruct (n =? 0) eqn:En.
  { apply wp_ret. split; [unfold margin_right in *; congruence|]. eapply rtc_l; [exact H1|]. eapply rtc_l; [exact H2|].
    apply rtc_once. unfold shared_of. rewrite E3. by apply (step_lost _ c). }
  unfold alloc_grown. apply wp_bind.
  assert (Hs2' : shared_ok (shared_of w3 bs (c :: cs))) by (rewrite Hs3; exact Hs2).
  assert (H2' : hstep (shared_of w1 bs cs) (shared_of w3 bs (c :: cs))) by (rewrite Hs3; exact H2).
  eapply wp_mono; [apply (wp_grow c n w3 bs cs); [done|lia|done]| |done]. intros w4 [] [H4 _].
  pose proof (shared_step _ _ Hs2' H4) as Hs4. apply wp_bind.
  eapply wp_mono; [by apply wp_try_alloc| |done]. intros w5 r (H5 & _). apply wp_bind, wp_publish, wp_ret.
  split; [done|]. eapply rtc_l; [exact H1|]. eapply rtc_l; [exact H2'|]. eapply rtc_l; [exact H4|]. apply rtc_once. exact H5.
Qed.

Lemma locked_dealloc_step p l w bs bs' cs :
  shared_ok (shared_of w bs cs) -> bs ≡ₚ (p, l) :: bs' ->
  exists w', locked_dealloc p l w = (w', Ok tt) /\ margin_right w' /\ hstep (shared_of w bs cs) (shared_of w' bs' cs).
Proof.
  intros Hs Hp. pose proof (so_ranges _ Hs) as Hra. pose proof (so_holes _ Hs) as Hho. pose proof (so_live _ Hs) as Hli.
  cbn [live shared_of list_of] in *. unfold shared_of in Hra, Hho. rewrite (ranges_perm_live _ _ _ _ Hp) in Hra, Hho. rewrite Hp in Hli.
  apply Forall_cons in Hra as [[Hok _] _]. apply Forall_cons in Hho as [Hho _]. apply Forall_cons in Hli as [[Hl _] _].
  pose proof (dealloc_spec p l (heap w) (so_heap _ Hs) Hl Hok Hho) as Hd.
  eexists. split; [unfold locked_dealloc, on_heap, zoom, bind; by rewrite Hd|]. split; [done|].
  by apply (step_dealloc _ _ p l).
Qed.

(** [top_up] takes steps of the heap too, and is never stuck. *)
Lemma top_up_serves w bs cs :
  shared_ok (shared_of w bs cs) -> margin_right w ->
  exists w', top_up w = (w', Ok tt) /\ margin_right w' /\ rtc hstep (shared_of w bs cs) (shared_of w' bs cs).
Proof.
  intros Hs Hm.
  enough (H : wp top_up (fun w' _ => margin_right w' /\ rtc hstep (shared_of w bs cs) (shared_of w' bs cs)) (fun _ _ => False) w).
  { unfold wp in H. destruct (top_up w) as [w' [[]|e|u]]; [|done..]. exists w'. by destruct H. }
  unfold top_up. apply wp_bind, wp_gets. destruct (negb (below_margin w)); [by apply wp_ret|].
  apply wp_bind. unfold margin_short. apply wp_bind, wp_publish, wp_bind, wp_gets, wp_ret. unfold id. cbn [heap].
  set (w1 := mkWorld (heap w) _ (tables w)). pose proof (bytes_of_max _ (hp_holes _ (so_heap _ Hs))) as Hb.
  rewrite <- (hp_free _ (so_heap _ Hs)) in Hb. cbn [list_of shared_of] in Hb. unfold saturating_sub.
  destruct (Z.max 0 (HEAP_MARGIN - free_bytes (heap w)) =? 0) eqn:E; [by apply wp_ret|]. apply wp_bind.
  eapply wp_mono; [apply (wp_make_claim _ STEP w1 bs cs); [done|unfold HEAP_MARGIN, KERNEL_HEAP_MAX in *; lia|unfold STEP, KERNEL_HEAP_MAX; lia]| |done].
  intros w2 r (H2 & B2 & F2). pose proof (shared_step _ _ Hs H2) as Hs2.
  assert (Hm2 : margin_right w2) by (unfold margin_right; rewrite B2, F2; done).
  destruct r as [c|]; cbn [option_list app] in H2, Hs2; [|apply wp_ret; split; [done|by apply rtc_once]].
  destruct (claim_place _ _ _ _ Hs2) as (C1 & C2 & C3 & C4). apply wp_bind.
  eapply wp_mono; [by apply wp_map_claim| |done]. intros w3 n (E3 & B3 & N1 & N2).
  assert (Hs3 : shared_of w3 bs (c :: cs) = shared_of w2 bs (c :: cs)) by (unfold shared_of; by rewrite E3).
  destruct (n =? 0) eqn:En.
  { apply wp_ret. split; [unfold margin_right in *; congruence|]. eapply rtc_l; [exact H2|].
    apply rtc_once. unfold shared_of. rewrite E3. by apply (step_lost _ c). }
  apply wp_bind.
  assert (Hs2' : shared_ok (shared_of w3 bs (c :: cs))) by (rewrite Hs3; exact Hs2).
  assert (H2' : hstep (shared_of w1 bs cs) (shared_of w3 bs (c :: cs))) by (rewrite Hs3; exact H2).
  eapply wp_mono; [apply (wp_grow c n w3 bs cs); [done|lia|done]| |done]. intros w4 [] [H4 _].
  apply wp_publish. split; [done|]. eapply rtc_l; [exact H2'|]. by apply rtc_once.
Qed.

(** [heap_init] sets up the heap the other theorems start from, or panics when a
    page could not be mapped. *)
Lemma heap_init_pages n w :
  heap w = heap_new -> Z.of_nat n = 4096 ->
  match (let! short := map_pages n KERNEL_HEAP_BASE 0 in
         match short with
         | Some _ => fail_with Panic
         | None =>
             on_heap (modify (with_mapped KERNEL_HEAP_SIZE)) ;;;
             on_heap (add_region KERNEL_HEAP_BASE KERNEL_HEAP_SIZE) ;;;
             publish_margin
         end) w with
  | (w', Ok tt) => heap w' = first_heap /\ margin_right w'
  | (_, Stuck Panic) => True
  | _ => False
  end.
Proof.
  intros Hw Hn.
  pose proof (wp_map_pages n KERNEL_HEAP_BASE 0 w ltac:(lia) ltac:(lia)) as H. rewrite Hn in H. specialize (H ltac:(done)).
  unfold wp in H. unfold bind at 1. destruct (map_pages n KERNEL_HEAP_BASE 0 w) as [w' [[k|]|e|u]]; [done| |done..].
  destruct H as (H & _ & _). unfold on_heap, zoom, bind. rewrite H, Hw. by split.
Qed.

Lemma heap_init_starts w :
  heap w = heap_new ->
  match heap_init w with
  | (w', Ok tt) => heap w' = first_heap /\ margin_right w'
  | (_, Stuck Panic) => True
  | _ => False
  end.
Proof. intros Hw. apply (heap_init_pages (Z.to_nat (KERNEL_HEAP_SIZE / PAGE_SIZE)) w Hw). apply (Z2Nat.id 4096). lia. Qed.
End world.
