(* ===== verification/Packets.v ===== *)
(** * The packets of the network

    Building and taking apart what crosses the link: Ethernet frames
    ([kernel/src/net/ether.rs]), ARP packets ([arp.rs]), IPv4 datagrams with
    their checksum ([ip.rs]), and ICMP, UDP and TCP ([icmp.rs], [udp.rs],
    [tcp.rs]). A packet is the list of its bytes. Indexing past the end of a
    slice and arithmetic past the width of a type are panics. *)

From S2P Require Import Prelude Words.

(** [to_be_bytes] and [from_be_bytes]. *)
Definition be16 (x : Z) : list Z := [as_u8 (x / 256); as_u8 x].
Definition be32 (x : Z) : list Z := [as_u8 (x / 16777216); as_u8 (x / 65536); as_u8 (x / 256); as_u8 x].

Section read.
Context {S E : Type}.

(** [u16::from_be_bytes([bytes[at], bytes[at + 1]])], and four bytes. *)
Definition be16_at (bytes : list Z) (at_ : Z) : M S E Z :=
  let! a := index_at bytes at_ in
  let! b := index_at bytes (at_ + 1) in
  ret (a * 256 + b).

Definition be32_at (bytes : list Z) (at_ : Z) : M S E Z :=
  let! a := index_at bytes at_ in
  let! b := index_at bytes (at_ + 1) in
  let! c := index_at bytes (at_ + 2) in
  let! d := index_at bytes (at_ + 3) in
  ret (a * 16777216 + b * 65536 + c * 256 + d).
End read.

(** ** Ethernet *)
Module Ether.
Definition HEADER_LEN : Z := 14.
Definition MIN_FRAME_LEN : Z := 60.
Definition MTU : Z := 1500.
Definition ETHERTYPE_IPV4 : Z := 0x0800.
Definition ETHERTYPE_ARP : Z := 0x0806.
Definition BROADCAST : list Z := replicate 6 0xFF.

Record Frame := mkFrame { destination : list Z; source : list Z; ethertype : Z; payload : list Z }.

Definition parse {S E} (bytes : list Z) : M S E (option Frame) :=
  if len bytes <? HEADER_LEN then ret None
  else
    let! destination := slice bytes 0 6 in
    let! source := slice bytes 6 12 in
    let! ethertype := be16_at bytes 12 in
    let! payload := slice bytes HEADER_LEN (len bytes) in
    ret (Some (mkFrame destination source ethertype payload)).

Definition build (destination source : list Z) (ethertype : Z) (payload : list Z) : list Z :=
  let frame := destination ++ source ++ be16 ethertype ++ payload in
  frame ++ replicate (Z.to_nat (MIN_FRAME_LEN - len frame)) 0.

(** The group bit. *)
Definition is_group {S E} (address : list Z) : M S E bool :=
  let! first := index_at address 0 in ret (negb (Z.land first 1 =? 0)).
End Ether.

(** ** IPv4 *)
Module Ip.

(** An [Ipv4Addr] is its number, in host byte order. *)
Definition UNSPECIFIED : Z := 0.
Definition BROADCAST : Z := 0xFFFFFFFF.
Definition addr (a b c d : Z) : Z := Z.lor (Z.lor (Z.lor (Z.shiftl a 24) (Z.shiftl b 16)) (Z.shiftl c 8)) d.
Definition is_unspecified (a : Z) : bool := a =? 0.
Definition is_broadcast (a : Z) : bool := a =? 0xFFFFFFFF.
Definition is_multicast (a : Z) : bool := Z.shiftr a 28 =? 0xE.
Definition is_loopback (a : Z) : bool := Z.shiftr a 24 =? 127.

(** [Display] of a [u8], and of an address. *)
Definition decimal (b : Z) : list Z :=
  (if 100 <=? b then [48 + b / 100] else []) ++ (if 10 <=? b then [48 + b / 10 `mod` 10] else []) ++ [48 + b `mod` 10].

Definition DOT : Z := 46.
Definition PLUS : Z := 43.

Definition display (a : Z) : list Z :=
  match be32 a with
  | [b0; b1; b2; b3] => decimal b0 ++ [DOT] ++ decimal b1 ++ [DOT] ++ decimal b2 ++ [DOT] ++ decimal b3
  | _ => []
  end.

(** [str::parse::<u8>]: a sign it may have, and at least one digit. *)
Fixpoint digits_value (value : Z) (s : list Z) : option Z :=
  match s with
  | [] => Some value
  | c :: s => if (48 <=? c) && (c <=? 57) then digits_value (value * 10 + (c - 48)) s else None
  end.

Definition parse_u8 (s : list Z) : option Z :=
  let digits := match s with c :: rest => if c =? PLUS then rest else s | [] => s end in
  match digits with
  | [] => None
  | _ => match digits_value 0 digits with Some v => if v <=? 255 then Some v else None | None => None end
  end.

(** The loop over the parts, with the octets seen so far. *)
Fixpoint parse_octets (parts : list (list Z)) (octets : list Z) : option (list Z) :=
  match parts with
  | [] => Some octets
  | part :: parts =>
      if (len octets =? 4) || (utf8_len part =? 0) || (3 <? utf8_len part) then None
      else match parse_u8 part with Some v => parse_octets parts (octets ++ [v]) | None => None end
  end.

Definition of_octets (octets : list Z) : Z := foldl (fun a b => a * 256 + b) 0 octets.

Definition parse_address (text : list Z) : option Z :=
  match parse_octets (split_on DOT text) [] with
  | Some octets => if len octets =? 4 then Some (of_octets octets) else None
  | None => None
  end.

Definition PROTO_ICMP : Z := 1.
Definition PROTO_TCP : Z := 6.
Definition PROTO_UDP : Z := 17.
Definition HEADER_LEN : Z := 20.
Definition DEFAULT_TTL : Z := 64.
Definition FLAG_DONT_FRAGMENT : Z := 0x4000.
Definition FLAG_MORE_FRAGMENTS : Z := 0x2000.
Definition FRAGMENT_OFFSET_MASK : Z := 0x1FFF.

(** ** The checksum *)

(** Sixteen-bit big-endian words; an odd last byte is the high half of one. *)
Fixpoint sum {S E} (bytes : list Z) (total : Z) : M S E Z :=
  match bytes with
  | a :: b :: rest => let! total := u32 (total + (a * 256 + b)) in sum rest total
  | [a] => u32 (total + Z.shiftl a 8)
  | [] => ret total
  end.

(** [!(total as u16)], once the carries have been folded in. The sum of two
    16-bit halves has at most one carry, whose fold has none: three turns. *)
Definition not16 (x : Z) : Z := Z.lxor (as_u16 x) u16_max.
Definition fold {S E} (total : Z) : M S E Z :=
  loop 4 (fun total =>
    if Z.shiftr total 16 =? 0 then ret (inr (not16 total))
    else let! total := u32 (Z.land total 0xFFFF + Z.shiftr total 16) in ret (inl total)) total.

Definition checksum {S E} (bytes : list Z) : M S E Z := let! total := sum bytes 0 in fold total.

(** What the IP header adds to the checksum of UDP and TCP. *)
Definition pseudo_sum {S E} (source destination protocol length : Z) : M S E Z :=
  u32 (Z.shiftr source 16 + Z.land source 0xFFFF + Z.shiftr destination 16 + Z.land destination 0xFFFF
       + protocol + as_u32 length).

(** ** Datagrams *)

Record Header := mkHeader {
  ihl : Z;
  total_length : Z;
  identification : Z;
  flags_and_offset : Z;
  ttl : Z;
  protocol : Z;
  source : Z;
  destination : Z;
}.

Definition is_fragment (h : Header) : bool :=
  negb (Z.land (flags_and_offset h) FLAG_MORE_FRAGMENTS =? 0) || negb (Z.land (flags_and_offset h) FRAGMENT_OFFSET_MASK =? 0).

Definition parse {S E} (bytes : list Z) : M S E (option (Header * list Z)) :=
  if len bytes <? HEADER_LEN then ret None
  else
    let! first := index_at bytes 0 in
    if negb (Z.shiftr first 4 =? 4) then ret None
    else
      let ihl := Z.land first 0x0F * 4 in
      if (ihl <? HEADER_LEN) || (len bytes <? ihl) then ret None
      else
        let! header := slice bytes 0 ihl in
        let! sum := checksum header in
        if negb (sum =? 0) then ret None
        else
          let! total_length := be16_at bytes 2 in
          if (total_length <? ihl) || (len bytes <? total_length) then ret None
          else
            let! identification := be16_at bytes 4 in
            let! flags_and_offset := be16_at bytes 6 in
            let! ttl := index_at bytes 8 in
            let! protocol := index_at bytes 9 in
            let! source := be32_at bytes 12 in
            let! destination := be32_at bytes 16 in
            let! payload := slice bytes ihl total_length in
            ret (Some (mkHeader ihl total_length identification flags_and_offset ttl protocol source destination, payload)).

(** [NEXT_ID] is read and counted up before, and is [id] here. *)
Definition build {S E} (id source destination protocol : Z) (payload : list Z) : M S E (list Z) :=
  let! total := usize (HEADER_LEN + len payload) in
  let out := [0x45; 0] ++ be16 (as_u16 total) ++ be16 id ++ be16 FLAG_DONT_FRAGMENT
             ++ [DEFAULT_TTL; protocol] ++ [0; 0] ++ be32 source ++ be32 destination in
  let! header_checksum := checksum out in
  ret (splice out 10 (be16 header_checksum) ++ payload).
End Ip.

(** An address and a port. *)
Record Endpoint := mkEndpoint { address : Z; port : Z }.
Definition unspecified_endpoint : Endpoint := mkEndpoint Ip.UNSPECIFIED 0.
#[global] Instance endpoint_eq : EqDecision Endpoint.
Proof. solve_decision. Defined.
Definition endpoint_is_unspecified (e : Endpoint) : bool := Ip.is_unspecified (address e) && (port e =? 0).

(** ** ARP *)
Module ArpPacket.
Definition PACKET_LEN : Z := 28.
Definition HARDWARE_ETHERNET : Z := 1.
Definition OP_REQUEST : Z := 1.
Definition OP_REPLY : Z := 2.

Definition build (operation : Z) (sender_mac : list Z) (sender_ip : Z) (target_mac : list Z) (target_ip : Z) : list Z :=
  be16 HARDWARE_ETHERNET ++ be16 Ether.ETHERTYPE_IPV4 ++ [6; 4] ++ be16 operation
  ++ sender_mac ++ be32 sender_ip ++ target_mac ++ be32 target_ip.

Record Arp := mkArp { operation : Z; sender_mac : list Z; sender_ip : Z; target_ip : Z }.

(** The first half of [receive]. *)
Definition parse {S E} (bytes : list Z) : M S E (option Arp) :=
  if len bytes <? PACKET_LEN then ret None
  else
    let! hardware := be16_at bytes 0 in
    if negb (hardware =? HARDWARE_ETHERNET) then ret None
    else
      let! protocol := be16_at bytes 2 in
      if negb (protocol =? Ether.ETHERTYPE_IPV4) then ret None
      else
        let! hlen := index_at bytes 4 in
        let! plen := index_at bytes 5 in
        if negb (hlen =? 6) || negb (plen =? 4) then ret None
        else
          let! operation := be16_at bytes 6 in
          let! sender_mac := slice bytes 8 14 in
          let! sender_ip := be32_at bytes 14 in
          let! target_ip := be32_at bytes 24 in
          ret (Some (mkArp operation sender_mac sender_ip target_ip)).
End ArpPacket.

(** ** ICMP *)
Module Icmp.
Definition TYPE_ECHO_REPLY : Z := 0.
Definition TYPE_ECHO_REQUEST : Z := 8.
Definition HEADER_LEN : Z := 8.

Definition build {S E} (kind code : Z) (rest body : list Z) : M S E (list Z) :=
  let message := [kind; code] ++ [0; 0] ++ rest ++ body in
  let! checksum := Ip.checksum message in
  ret (splice message 2 (be16 checksum)).
End Icmp.

(** ** UDP *)
Module UdpPacket.
Definition HEADER_LEN : Z := 8.

Definition build {S E} (source destination : Endpoint) (payload : list Z) : M S E (list Z) :=
  let! length := usize (HEADER_LEN + len payload) in
  let datagram := be16 (port source) ++ be16 (port destination) ++ be16 (as_u16 length) ++ [0; 0] ++ payload in
  let! pseudo := Ip.pseudo_sum (address source) (address destination) Ip.PROTO_UDP length in
  let! total := Ip.sum datagram pseudo in
  let! checksum := Ip.fold total in
  let checksum := if checksum =? 0 then 0xFFFF else checksum in
  ret (splice datagram 6 (be16 checksum)).

(** The first half of [receive]: who sent it, whom it is for, and what it
    carries. *)
Definition parse {S E} (source destination : Z) (datagram : list Z) : M S E (option (Endpoint * Endpoint * list Z)) :=
  if len datagram <? HEADER_LEN then ret None
  else
    let! length := be16_at datagram 4 in
    if (length <? HEADER_LEN) || (len datagram <? length) then ret None
    else
      let! datagram := slice datagram 0 length in
      let! carried := be16_at datagram 6 in
      let! good :=
        (if carried =? 0 then ret true
         else
           let! pseudo := Ip.pseudo_sum source destination Ip.PROTO_UDP length in
           let! total := Ip.sum datagram pseudo in
           let! sum := Ip.fold total in
           ret (sum =? 0)) in
      if negb good then ret None
      else
        let! from := be16_at datagram 0 in
        let! to := be16_at datagram 2 in
        let! body := slice datagram HEADER_LEN (len datagram) in
        ret (Some (mkEndpoint source from, mkEndpoint destination to, body)).
End UdpPacket.

(** ** TCP segments *)
Module Segment.
Definition FIN : Z := 0x01.
Definition SYN : Z := 0x02.
Definition RST : Z := 0x04.
Definition PSH : Z := 0x08.
Definition ACK : Z := 0x10.
Definition URG : Z := 0x20.
Definition HEADER_LEN : Z := 20.

Record Segment := mkSegment {
  source_port : Z;
  destination_port : Z;
  sequence : Z;
  acknowledgement : Z;
  flags : Z;
  window : Z;
  mss : option Z;
  payload : list Z;
}.

Definition has (flags flag : Z) : bool := negb (Z.land flags flag =? 0).

(** The options, from [i]. Each turn goes forward, and there are at most forty
    bytes of them. *)
Definition parse_options {S E} (bytes : list Z) (offset : Z) : M S E (option Z) :=
  loop 41 (fun '(i, mss) =>
    if offset <=? i then ret (inr mss)
    else
      let! kind := index_at bytes i in
      if kind =? 0 then ret (inr mss)
      else if kind =? 1 then let! i := usize (i + 1) in ret (inl (i, mss))
      else if offset <=? i + 1 then ret (inr mss)
      else
        let! length := index_at bytes (i + 1) in
        if (length <? 2) || (offset <? i + length) then ret (inr mss)
        else
          let! mss :=
            (if (kind =? 2) && (length =? 4) then let! v := be16_at bytes (i + 2) in ret (Some v) else ret mss) in
          let! i := usize (i + length) in
          ret (inl (i, mss))) (HEADER_LEN, None).

Definition parse {S E} (bytes : list Z) : M S E (option Segment) :=
  if len bytes <? HEADER_LEN then ret None
  else
    let! b12 := index_at bytes 12 in
    let offset := Z.shiftr b12 4 * 4 in
    if (offset <? HEADER_LEN) || (len bytes <? offset) then ret None
    else
      let! mss := parse_options bytes offset in
      let! source_port := be16_at bytes 0 in
      let! destination_port := be16_at bytes 2 in
      let! sequence := be32_at bytes 4 in
      let! acknowledgement := be32_at bytes 8 in
      let! flags := index_at bytes 13 in
      let! window := be16_at bytes 14 in
      let! payload := slice bytes offset (len bytes) in
      ret (Some (mkSegment source_port destination_port sequence acknowledgement flags window mss payload)).

(** How many sequence numbers a segment takes. *)
Definition seq_length {S E} (s : Segment) : M S E Z :=
  u32 (as_u32 (len (payload s)) + (if has (flags s) SYN then 1 else 0) + (if has (flags s) FIN then 1 else 0)).

Definition build {S E} (source destination : Endpoint) (sequence acknowledgement flags window : Z) (mss : option Z) (payload : list Z) : M S E (list Z) :=
  let options := match mss with Some _ => 4 | None => 0 end in
  let offset := HEADER_LEN + options in
  let segment :=
    be16 (port source) ++ be16 (port destination) ++ be32 sequence ++ be32 acknowledgement
    ++ [as_u8 (Z.shiftl (as_u8 (offset / 4)) 4); flags] ++ be16 window ++ [0; 0] ++ [0; 0]
    ++ match mss with Some mss => [2; 4] ++ be16 mss | None => [] end
    ++ payload in
  let! pseudo := Ip.pseudo_sum (address source) (address destination) Ip.PROTO_TCP (len segment) in
  let! total := Ip.sum segment pseudo in
  let! checksum := Ip.fold total in
  ret (splice segment 16 (be16 checksum)).
End Segment.

(** * Sequence numbers

    [seq_lt], [seq_le] and [seq_gt] of [kernel/src/net/tcp.rs]: 32-bit numbers
    that wrap, compared by the sign of their difference. A number stands for a
    position in a stream that never wraps; positions less than [2 ^ 31] apart
    compare as their numbers do. *)

(** [wrapping_add] and [wrapping_sub] on a [u32], and [as i32]. *)
Definition wrapping_add (a b : Z) : Z := as_u32 (a + b).
Definition wrapping_sub (a b : Z) : Z := as_u32 (a - b).
Definition as_i32 (x : Z) : Z := if x <? 2147483648 then x else x - 4294967296.

Definition seq_lt (a b : Z) : bool := as_i32 (wrapping_sub a b) <? 0.
Definition seq_le (a b : Z) : bool := as_i32 (wrapping_sub a b) <=? 0.
Definition seq_gt (a b : Z) : bool := 0 <? as_i32 (wrapping_sub a b).

(** ** Positions *)

Definition near (p q : Z) : Prop := - 2147483648 <= p - q < 2147483648.

Lemma as_i32_near p q : near p q -> as_i32 (as_u32 (p - q)) = p - q.
Proof. unfold near, as_i32, as_u32. intros H. destruct (_ <? _) eqn:E; lia. Qed.

Lemma wrapping_sub_pos p q : wrapping_sub (as_u32 p) (as_u32 q) = as_u32 (p - q).
Proof. unfold wrapping_sub, as_u32. symmetry. apply Zminus_mod. Qed.

Lemma wrapping_add_pos p n : wrapping_add (as_u32 p) n = as_u32 (p + n).
Proof. unfold wrapping_add, as_u32. by rewrite Zplus_mod_idemp_l. Qed.

Lemma seq_lt_pos p q : near p q -> seq_lt (as_u32 p) (as_u32 q) = (p <? q).
Proof. intros H. unfold seq_lt. rewrite wrapping_sub_pos, as_i32_near by done. destruct (_ <? 0) eqn:E1, (p <? q) eqn:E2; lia. Qed.

Lemma seq_le_pos p q : near p q -> seq_le (as_u32 p) (as_u32 q) = (p <=? q).
Proof. intros H. unfold seq_le. rewrite wrapping_sub_pos, as_i32_near by done. destruct (_ <=? 0) eqn:E1, (p <=? q) eqn:E2; lia. Qed.

Lemma seq_gt_pos p q : near p q -> seq_gt (as_u32 p) (as_u32 q) = (q <? p).
Proof. intros H. unfold seq_gt. rewrite wrapping_sub_pos, as_i32_near by done. destruct (0 <? _) eqn:E1, (q <? p) eqn:E2; lia. Qed.

Lemma as_u32_small x : 0 <= x <= u32_max -> as_u32 x = x.
Proof. unfold as_u32, u32_max. lia. Qed.

Lemma as_u32_bounds x : is_u32 (as_u32 x).
Proof. unfold is_u32, as_u32, u32_max. lia. Qed.

(** Near positions with the same number are the same. *)
Lemma as_u32_inj p q : - 4294967296 < p - q < 4294967296 -> as_u32 p = as_u32 q -> p = q.
Proof. unfold as_u32. lia. Qed.
