(* ===== verification/PacketSpec.v ===== *)
(** * What the packets carry

    The checksum is the ones' complement sum of RFC 1071; what a [build] makes,
    the [parse] on the other side takes apart into the same fields, through
    every layer and whatever padding the link added; and nothing a link can
    deliver makes a [parse] panic. *)

From Stdlib Require Import Zbitwise.
From S2P Require Import Prelude Words Packets.

(** ** The checksum *)

(** The 16-bit words of a message, the last padded with a zero. *)
Fixpoint words (bytes : list Z) : list Z :=
  match bytes with
  | a :: b :: rest => (a * 256 + b) :: words rest
  | [a] => [a * 256]
  | [] => []
  end.

(** Ones' complement addition: the carry out of 16 bits goes back in. *)
Definition ones_add (a b : Z) : Z := if a + b <=? 65535 then a + b else a + b - 65535.
Definition ones_sum (ws : list Z) : Z := foldl ones_add 0 ws.

Definition wsum (bytes : list Z) : Z := foldr Z.add 0 (words bytes).

(** The representative of a sum in ones' complement: 0 for 0 only. *)
Definition rep (t : Z) : Z := if t =? 0 then 0 else (t - 1) `mod` 65535 + 1.

Lemma rep_bounds t : 0 <= t -> 0 <= rep t <= 65535.
Proof. unfold rep. destruct (t =? 0); lia. Qed.

Lemma rep_small t : 0 <= t <= 65535 -> rep t = t.
Proof. unfold rep. intros Ht. destruct (t =? 0) eqn:E; lia. Qed.

Lemma rep_add a b : 0 <= a -> 0 <= b -> rep (rep a + b) = rep (a + b).
Proof. unfold rep. intros Ha Hb. destruct (a =? 0) eqn:E1, (_ + b =? 0) eqn:E2, (a + b =? 0) eqn:E3; lia. Qed.

Lemma rep_zero t : 0 <= t -> rep t = 65535 <-> 0 < t /\ t `mod` 65535 = 0.
Proof. unfold rep. intros Ht. destruct (t =? 0) eqn:E; lia. Qed.

Lemma ones_add_rep a b : 0 <= a <= 65535 -> 0 <= b <= 65535 -> ones_add a b = rep (a + b).
Proof. unfold ones_add, rep. intros Ha Hb. destruct (a + b <=? 65535) eqn:E1, (a + b =? 0) eqn:E2; lia. Qed.

Lemma words_u16 bytes : Forall is_u8 bytes -> Forall is_u16 (words bytes).
Proof.
  revert bytes. fix IH 1. intros [|a [|b rest]] H; cbn [words]; [constructor| |].
  - apply Forall_cons in H as [Ha _]. repeat constructor; unfold is_u8, u8_max, u16_max in *; lia.
  - apply Forall_cons in H as [Ha H]. apply Forall_cons in H as [Hb H]. constructor; [|by apply IH].
    unfold is_u8, is_u16, u8_max, u16_max in *. lia.
Qed.

Lemma sum_nonneg ws : Forall is_u16 ws -> 0 <= foldr Z.add 0 ws <= 65535 * len ws.
Proof.
  induction 1 as [|w ws Hw _ IH]; cbn [foldr length]; [lia|]. unfold is_u16, u16_max in Hw. lia.
Qed.

Lemma words_length bytes : len (words bytes) = (len bytes + 1) / 2.
Proof. revert bytes. fix IH 1. intros [|a [|b rest]]; [done..|]. cbn [words length]. specialize (IH rest). lia. Qed.

Lemma wsum_bounds bytes : Forall is_u8 bytes -> 0 <= wsum bytes <= 65535 * ((len bytes + 1) / 2).
Proof. intros H. rewrite <- words_length. by apply sum_nonneg, words_u16. Qed.

Lemma ones_sum_rep ws : Forall is_u16 ws -> ones_sum ws = rep (foldr Z.add 0 ws).
Proof.
  intros H. unfold ones_sum. enough (G : forall acc, 0 <= acc -> foldl ones_add (rep acc) ws = rep (acc + foldr Z.add 0 ws)) by (exact (G 0 ltac:(lia))).
  induction H as [|w ws Hw _ IH]; intros acc Ha; cbn [foldl foldr]; [by rewrite Z.add_0_r|].
  unfold is_u16, u16_max in Hw. pose proof (rep_bounds acc Ha). rewrite ones_add_rep, rep_add by lia. rewrite IH by lia. f_equal. lia.
Qed.

Section checksum.
Context {S E : Type}.
Implicit Types (s : S).

Lemma sum_spec bytes : forall total s, Forall is_u8 bytes -> 0 <= total -> total + wsum bytes <= u32_max ->
  @Ip.sum S E bytes total s = (s, Ok (total + wsum bytes)).
Proof.
  revert bytes. fix IH 1. intros [|a [|b rest]] total s H H0 Hm; cbn [Ip.sum].
  - unfold ret, wsum. cbn [words foldr]. by rewrite Z.add_0_r.
  - apply Forall_cons in H as [Ha _]. unfold is_u8, u8_max in Ha. rewrite Z.shiftl_mul_pow2 by lia. change (2 ^ 8) with 256.
    unfold wsum in *. cbn [words foldr] in *. rewrite Z.add_0_r in *. unfold checked.
    replace ((0 <=? total + a * 256) && (total + a * 256 <=? u32_max)) with true by lia. done.
  - apply Forall_cons in H as [Ha H]. apply Forall_cons in H as [Hb H]. unfold is_u8, u8_max in *. pose proof (wsum_bounds rest H) as Hr.
    unfold wsum in *. cbn [words foldr] in *. unfold bind, checked.
    replace ((0 <=? total + (a * 256 + b)) && (total + (a * 256 + b) <=? u32_max)) with true by lia.
    cbn [ret]. unfold ret. rewrite IH by (done || lia). do 2 f_equal. lia.
Qed.

Lemma not16_spec x : 0 <= x <= 65535 -> Ip.not16 x = 65535 - x.
Proof.
  intros Hx. unfold Ip.not16, as_u16. rewrite Z.mod_small by lia. pose proof (Z.add_lxor_2land x u16_max) as H.
  change u16_max with (Z.ones 16) in H at 2. rewrite Z.land_ones in H by lia. unfold u16_max in *. lia.
Qed.

Lemma fold_spec t s : 0 <= t <= u32_max -> @Ip.fold S E t s = (s, Ok (65535 - rep t)).
Proof.
  intros Ht. enough (H : wp (@Ip.fold S E t) (fun s' r => s' = s /\ r = 65535 - rep t) (fun _ _ => False) s).
  { unfold wp in H. destruct (Ip.fold t s) as [s' [r|e|w]]; [|done..]. by destruct H as [-> ->]. }
  unfold Ip.fold. unfold u32_max in Ht.
  apply (wp_loop (fun a s' => s' = s /\ 0 <= a <= u32_max /\ rep a = rep t)
    (fun a _ => if 131071 <=? a then 2%nat else if 65536 <=? a then 1%nat else 0%nat)).
  - intros a s' (-> & Ha & Er). unfold u32_max in Ha. rewrite Z.shiftr_div_pow2 by lia. change (2 ^ 16) with 65536.
    destruct (a / 65536 =? 0) eqn:Ez.
    + apply wp_ret. split; [done|]. rewrite not16_spec by lia. rewrite <- Er, rep_small; lia.
    + change 65535 with (Z.ones 16). rewrite Z.land_ones by lia. change (2 ^ 16) with 65536.
      apply wp_bind, wp_checked; [unfold u32_max; lia|]. apply wp_ret. split; [split; [done|split; [unfold u32_max; lia|]]|].
      * rewrite <- Er. unfold rep. destruct (a =? 0) eqn:E1, (a mod 65536 + a / 65536 =? 0) eqn:E2; lia.
      * repeat match goal with |- context [if ?b then _ else _] => destruct b eqn:? end; lia.
  - split_and!; [done|unfold u32_max; lia..].
  - repeat match goal with |- context [if ?b then _ else _] => destruct b eqn:? end; lia.
Qed.

(** Whatever the pseudo header adds, if the sum fits 32 bits. *)
Lemma sum_fold_spec bytes pseudo s : Forall is_u8 bytes -> 0 <= pseudo -> pseudo + wsum bytes <= u32_max ->
  bind (Ip.sum bytes pseudo) (@Ip.fold S E) s = (s, Ok (65535 - rep (pseudo + wsum bytes))).
Proof.
  intros Hb Hp Hm. unfold bind. rewrite sum_spec by done. pose proof (wsum_bounds bytes Hb). apply fold_spec. lia.
Qed.

Lemma checksum_spec bytes s : Forall is_u8 bytes -> len bytes <= 131074 ->
  @Ip.checksum S E bytes s = (s, Ok (65535 - rep (wsum bytes))).
Proof.
  intros Hb Hl. apply (sum_fold_spec bytes 0); [done|lia|]. pose proof (wsum_bounds bytes Hb). unfold u32_max. lia.
Qed.
End checksum.

Lemma wsum_app a b : (length a `mod` 2 = 0)%nat -> wsum (a ++ b) = wsum a + wsum b.
Proof.
  unfold wsum. revert a. fix IH 1. intros [|x [|y rest]] H; [done|done|].
  cbn [app words foldr]. rewrite IH; [lia|]. cbn [length] in H. by rewrite <- (Nat.Div0.mod_add (length rest) 1 2), Nat.add_comm.
Qed.

Lemma be16_word x : is_u16 x -> wsum (be16 x) = x.
Proof. unfold is_u16, u16_max. intros Hx. unfold wsum, be16, as_u8. cbn [words foldr]. lia. Qed.

Lemma be16_bytes x : Forall is_u8 (be16 x).
Proof. repeat constructor; unfold as_u8, u8_max; lia. Qed.

Lemma be32_bytes x : Forall is_u8 (be32 x).
Proof. repeat constructor; unfold as_u8, u8_max; lia. Qed.

Lemma field_bytes pre post x : Forall is_u8 pre -> Forall is_u8 post -> Forall is_u8 (pre ++ be16 x ++ post).
Proof. intros H1 H2. rewrite !Forall_app. auto using be16_bytes. Qed.

Lemma field_length pre post x : length (pre ++ be16 x ++ post) = (length pre + 2 + length post)%nat.
Proof. rewrite !length_app. cbn. lia. Qed.

(** A word in the middle of a message. *)
Lemma wsum_field pre post x : (length pre `mod` 2 = 0)%nat -> is_u16 x -> wsum (pre ++ be16 x ++ post) = wsum pre + x + wsum post.
Proof. intros Hp Hx. rewrite wsum_app by done. rewrite wsum_app by done. rewrite be16_word by done. lia. Qed.

(** With the field zero while the sum is taken, the complement of the sum
    written there makes the whole come out as the other zero. *)
Lemma checksum_closes pseudo pre post c :
  (length pre `mod` 2 = 0)%nat -> 0 <= pseudo -> Forall is_u8 pre -> Forall is_u8 post ->
  c = 65535 - rep (pseudo + wsum (pre ++ be16 0 ++ post)) \/ (c = 65535 /\ rep (pseudo + wsum (pre ++ be16 0 ++ post)) = 65535) ->
  is_u16 c /\ rep (pseudo + wsum (pre ++ be16 c ++ post)) = 65535.
Proof.
  intros He Hp Hpre Hpost Hc. pose proof (wsum_bounds pre Hpre) as Hb1. pose proof (wsum_bounds post Hpost) as Hb2.
  rewrite wsum_field in Hc by (done || (unfold is_u16, u16_max; lia)).
  pose proof (rep_bounds (pseudo + (wsum pre + 0 + wsum post)) ltac:(lia)) as Hr.
  assert (Hcu : is_u16 c) by (unfold is_u16, u16_max; destruct Hc as [->|[-> _]]; lia).
  split; [done|]. rewrite wsum_field by done. unfold is_u16, u16_max in Hcu.
  apply rep_zero; [lia|]. unfold rep in *. destruct (_ =? 0) eqn:Ez; destruct Hc as [Hc|[Hc Hc']]; lia.
Qed.

(** Two messages that both check out and differ in one word differ between the
    two zeros only. *)
Lemma one_word_differs pseudo pre post x y :
  (length pre `mod` 2 = 0)%nat -> 0 <= pseudo -> Forall is_u8 pre -> Forall is_u8 post -> is_u16 x -> is_u16 y ->
  rep (pseudo + wsum (pre ++ be16 x ++ post)) = 65535 -> rep (pseudo + wsum (pre ++ be16 y ++ post)) = 65535 ->
  x = y \/ (x = 0 /\ y = 65535) \/ (x = 65535 /\ y = 0).
Proof.
  intros He Hp Hpre Hpost Hx Hy H1 H2. pose proof (wsum_bounds pre Hpre) as Hb1. pose proof (wsum_bounds post Hpost) as Hb2.
  rewrite wsum_field in H1, H2 by done. unfold is_u16, u16_max in *. apply rep_zero in H1; [|lia]. apply rep_zero in H2; [|lia]. lia.
Qed.

Lemma Ok_inj {E A} (a b : A) : @Ok E A a = Ok b -> a = b.
Proof. congruence. Qed.

(** C30: The checksum of at most 131074 bytes, with its 32-bit total and its
    folding, is the complement of
    the ones' complement sum of RFC 1071, which adds word by word with the carry
    put back; and of two such messages that check out, one is never the other with
    a single 16-bit word at an even place changed, but for the change of 0x0000
    into 0xFFFF or back, which cannot be seen. *)
Theorem checksum_is_rfc1071 {S E} bytes (s : S) :
  Forall is_u8 bytes -> len bytes <= 131074 ->
  @Ip.checksum S E bytes s = (s, Ok (65535 - ones_sum (words bytes))) /\
  forall pre post x y,
    bytes = pre ++ be16 x ++ post -> (length pre `mod` 2 = 0)%nat -> is_u16 x -> is_u16 y ->
    @Ip.checksum S E bytes s = (s, Ok 0) -> @Ip.checksum S E (pre ++ be16 y ++ post) s = (s, Ok 0) ->
    x = y \/ (x = 0 /\ y = 65535) \/ (x = 65535 /\ y = 0).
Proof.
  intros Hb Hl. split.
  - rewrite checksum_spec by done. rewrite ones_sum_rep by (by apply words_u16). done.
  - intros pre post x y -> He Hx Hy. apply Forall_app in Hb as [Hpre Hrest]. apply Forall_app in Hrest as [_ Hpost].
    rewrite field_length in Hl.
    rewrite !checksum_spec; [|by apply field_bytes|rewrite field_length; lia|by apply field_bytes|rewrite field_length; lia].
    intros H1%(f_equal snd) H2%(f_equal snd). cbn [snd] in H1, H2. apply Ok_inj in H1, H2.
    apply (one_word_differs 0 pre post); try done; rewrite Z.add_0_l; lia.
Qed.

(** ** Reading back *)

Lemma be16_value x : is_u16 x -> as_u8 (x / 256) * 256 + as_u8 x = x.
Proof. unfold is_u16, u16_max, as_u8. lia. Qed.

Lemma be32_value x : is_u32 x ->
  as_u8 (x / 16777216) * 16777216 + as_u8 (x / 65536) * 65536 + as_u8 (x / 256) * 256 + as_u8 x = x.
Proof. unfold is_u32, u32_max, as_u8. lia. Qed.

Section reads.
Context {S E : Type}.
Implicit Types (s : S) (X : S -> E -> Prop) (Q : S -> Z -> Prop).

Lemma wp_be16_at bytes i a b Q X s :
  get bytes i = Some a -> get bytes (i + 1) = Some b -> Q s (a * 256 + b) -> wp (be16_at bytes i) Q X s.
Proof. intros Ha Hb HQ. unfold be16_at, index_at. rewrite Ha, Hb. done. Qed.

Lemma wp_be32_at bytes i a b c d Q X s :
  get bytes i = Some a -> get bytes (i + 1) = Some b -> get bytes (i + 2) = Some c -> get bytes (i + 3) = Some d ->
  Q s (a * 16777216 + b * 65536 + c * 256 + d) -> wp (be32_at bytes i) Q X s.
Proof. intros Ha Hb Hc Hd HQ. unfold be32_at, index_at. rewrite Ha, Hb, Hc, Hd. done. Qed.

Lemma wp_byte bytes i a Q X s : get bytes i = Some a -> Q s a -> wp (index_at bytes i) Q X s.
Proof. intros Ha HQ. unfold index_at. by rewrite Ha. Qed.

(** What a computation that only reads returns. *)
Lemma wp_returns {A} (m : M S E A) (a : A) s :
  wp m (fun s' r => s' = s /\ r = a) (fun _ _ => False) s -> m s = (s, Ok a).
Proof. unfold wp. destruct (m s) as [s' [r|e|w]]; [|done..]. by intros [-> ->]. Qed.
End reads.

(** The known bytes at the front of a packet are read by computation. *)
Ltac read_known :=
  match goal with
  | |- wp (bind _ _) _ _ _ => apply wp_bind
  | |- wp (index_at _ _) _ _ _ => eapply wp_byte; [reflexivity|]
  | |- wp (be16_at _ _) _ _ _ => eapply wp_be16_at; [reflexivity..|]
  | |- wp (be32_at _ _) _ _ _ => eapply wp_be32_at; [reflexivity..|]
  end; cbv beta.
(** A condition that is false, and what that is in arithmetic. *)
Ltac guard_false :=
  match goal with
  | |- wp (if ?c then _ else _) _ _ _ =>
      replace c with false by first [reflexivity | symmetry; rewrite ?orb_false_iff, ?negb_false_iff, ?Z.ltb_ge, ?Z.leb_gt, ?Z.eqb_eq; cbn [length]; lia]
  end; cbv iota.

Lemma ether_round_trip {S E} d m t p (s : S) :
  length d = 6%nat -> length m = 6%nat -> is_u16 t ->
  exists n, @Ether.parse S E (Ether.build d m t p) s = (s, Ok (Some (Ether.mkFrame d m t (p ++ replicate n 0)))).
Proof.
  intros Hd Hm Ht. unfold Ether.build. set (n := Z.to_nat _). exists n. clearbody n. apply wp_returns.
  do 7 (destruct d as [|? d]; [try done|try (exfalso; cbn in Hd; lia)]). do 7 (destruct m as [|? m]; [try done|try (exfalso; cbn in Hm; lia)]).
  rewrite <- app_assoc. cbn [app be16]. unfold Ether.parse, Ether.HEADER_LEN.
  guard_false.
  apply wp_bind, wp_slice; [lia|cbn [length]; lia|]. apply wp_bind, wp_slice; [lia|cbn [length]; lia|]. repeat read_known.
  apply wp_slice; [cbn [length]; lia|lia|]. apply wp_ret. split; [done|]. rewrite be16_value by done. do 2 f_equal.
  change (Z.to_nat 14) with 14%nat. cbn [drop]. apply take_ge. cbn [length]. lia.
Qed.

(** The header of a datagram around its checksum. *)
Definition ip_front (id total protocol : Z) : list Z :=
  [0x45; 0] ++ be16 total ++ be16 id ++ be16 Ip.FLAG_DONT_FRAGMENT ++ [Ip.DEFAULT_TTL; protocol].
Definition ip_back (source destination : Z) : list Z := be32 source ++ be32 destination.

Lemma ip_front_bytes id total protocol : is_u8 protocol -> Forall is_u8 (ip_front id total protocol).
Proof.
  intros Hp. unfold ip_front. rewrite !Forall_app. split_and!; auto using be16_bytes; repeat constructor; unfold u8_max, Ip.DEFAULT_TTL; try lia; apply Hp.
Qed.

Lemma ip_back_bytes source destination : Forall is_u8 (ip_back source destination).
Proof. unfold ip_back. rewrite Forall_app. auto using be32_bytes. Qed.

Lemma ip_build_spec {S E} id source destination protocol payload (s : S) :
  is_u8 protocol -> len payload <= 65515 ->
  exists c, is_u16 c /\ rep (wsum (ip_front id (20 + len payload) protocol ++ be16 c ++ ip_back source destination)) = 65535 /\
    @Ip.build S E id source destination protocol payload s =
      (s, Ok ((ip_front id (20 + len payload) protocol ++ be16 c ++ ip_back source destination) ++ payload)).
Proof.
  intros Hp Hl. pose proof (ip_front_bytes id (20 + len payload) protocol Hp) as Hf. pose proof (ip_back_bytes source destination) as Hb.
  set (c := 65535 - rep (wsum (ip_front id (20 + len payload) protocol ++ be16 0 ++ ip_back source destination))).
  destruct (checksum_closes 0 (ip_front id (20 + len payload) protocol) (ip_back source destination) c) as [Hc Hr]; [done|lia|done|done|by left|].
  exists c. split_and!; [done|exact Hr|]. apply wp_returns. unfold Ip.build, Ip.HEADER_LEN.
  apply wp_bind, wp_checked; [unfold u64_max; lia|]. replace (as_u16 (20 + len payload)) with (20 + len payload) by (unfold as_u16; lia).
  apply wp_bind. eapply wp_fun; [apply checksum_spec|]; [by apply (field_bytes (ip_front id (20 + len payload) protocol) (ip_back source destination) 0)|cbn; lia|].
  apply wp_ret. split; [done|]. reflexivity.
Qed.

Lemma ip_round_trip {S E} id source destination protocol payload (s : S) :
  is_u16 id -> is_u32 source -> is_u32 destination -> is_u8 protocol -> Forall is_u8 payload -> len payload <= 65515 ->
  exists bytes, @Ip.build S E id source destination protocol payload s = (s, Ok bytes) /\
    Forall is_u8 bytes /\ len bytes = 20 + len payload /\
    forall S' E' (s' : S') pad, @Ip.parse S' E' (bytes ++ pad) s' =
      (s', Ok (Some (Ip.mkHeader 20 (20 + len payload) id Ip.FLAG_DONT_FRAGMENT Ip.DEFAULT_TTL protocol source destination, payload))).
Proof.
  intros Hid Hs Hd Hp Hb Hl. destruct (@ip_build_spec S E id source destination protocol payload s Hp Hl) as (c & Hc & Hr & E1).
  pose proof (field_bytes _ _ c (ip_front_bytes id (20 + len payload) protocol Hp) (ip_back_bytes source destination)) as Hh.
  eexists. split; [exact E1|]. split; [by apply Forall_app|]. split; [rewrite length_app; cbn; lia|].
  intros S' E' s' pad. apply wp_returns. rewrite <- app_assoc. set (header := _ ++ _ ++ ip_back source destination) in *.
  assert (H20 : length header = 20%nat) by done.
  unfold Ip.parse, Ip.HEADER_LEN. rewrite length_app, H20. guard_false. rewrite length_app. repeat read_known.
  change (Z.land 69 15 * 4) with 20. guard_false. guard_false.
  apply wp_bind, wp_slice; [lia|rewrite !length_app; lia|].
  replace (take _ _) with header by (change (Z.to_nat 0) with 0%nat; rewrite drop_0; symmetry; exact (take_app_length header _)).
  apply wp_bind. eapply wp_fun; [apply checksum_spec; [exact Hh|lia]|]. rewrite Hr. cbv iota beta. guard_false. repeat read_known.
  rewrite be16_value by (unfold is_u16, u16_max; lia). guard_false. repeat read_known.
  apply wp_slice; [lia|rewrite !length_app; lia|]. apply wp_ret. split; [done|].
  rewrite !be16_value by (done || (unfold is_u16, u16_max, Ip.FLAG_DONT_FRAGMENT; lia)). rewrite !be32_value by done. do 3 f_equal.
  change (Z.to_nat 20) with (length header). rewrite drop_app_length. replace (Z.to_nat (20 + len payload - 20)) with (length payload) by lia.
  by rewrite take_app_length.
Qed.

(** The pseudo header as one number. *)
Definition psum (source destination protocol length : Z) : Z :=
  source / 65536 + source `mod` 65536 + destination / 65536 + destination `mod` 65536 + protocol + length.

Lemma psum_bounds source destination protocol length :
  is_u32 source -> is_u32 destination -> is_u8 protocol -> 0 <= length <= 65535 -> 0 <= psum source destination protocol length <= 400000.
Proof. unfold is_u32, is_u8, u32_max, u8_max, psum. lia. Qed.

Lemma pseudo_spec {S E} source destination protocol length (s : S) :
  is_u32 source -> is_u32 destination -> is_u8 protocol -> 0 <= length <= 65535 ->
  @Ip.pseudo_sum S E source destination protocol length s = (s, Ok (psum source destination protocol length)).
Proof.
  intros Hs Hd Hp Hl. pose proof (psum_bounds source destination protocol length Hs Hd Hp Hl) as Hb. unfold Ip.pseudo_sum.
  change 65535 with (Z.ones 16). rewrite !Z.land_ones, !Z.shiftr_div_pow2 by lia. change (2 ^ 16) with 65536.
  replace (as_u32 length) with length by (unfold as_u32; lia). unfold psum in *. apply wp_returns, wp_checked; [unfold u32_max; lia|done].
Qed.

(** The checksum of a message with a pseudo header, one that is even in length
    up to the field. *)
Lemma wp_pseudo_sum {S E} source destination protocol bytes (Q : S -> Z -> Prop) (X : S -> E -> Prop) s :
  is_u32 source -> is_u32 destination -> is_u8 protocol -> Forall is_u8 bytes -> len bytes <= 65535 ->
  Q s (65535 - rep (psum source destination protocol (len bytes) + wsum bytes)) ->
  wp (let! pseudo := Ip.pseudo_sum source destination protocol (len bytes) in
      let! total := Ip.sum bytes pseudo in Ip.fold total) Q X s.
Proof.
  intros Hs Hd Hp Hb Hl HQ. apply wp_bind. eapply wp_fun; [apply pseudo_spec; [done..|lia]|].
  eapply wp_fun; [apply sum_fold_spec; [done| |]|done].
  all: pose proof (psum_bounds source destination protocol (len bytes) Hs Hd Hp ltac:(lia)).
  - lia.
  - pose proof (wsum_bounds bytes Hb). unfold u32_max. lia.
Qed.

Lemma wp_loop_step {S E A R} fuel (body : A -> M S E (A + R)) a Q X s :
  wp (body a) (fun s' r => match r with inl a' => wp (loop fuel body a') Q X s' | inr r => Q s' r end) X s ->
  wp (loop (Datatypes.S fuel) body a) Q X s.
Proof. intros H. cbn [loop]. apply wp_bind. eapply wp_mono; [exact H| |done]. by intros s' [a'|r] HQ. Qed.

(** A segment around its checksum. *)
Definition mss_option (mss : option Z) : list Z := match mss with Some mss => [2; 4] ++ be16 mss | None => [] end.
Definition tcp_offset (mss : option Z) : Z := match mss with Some _ => 24 | None => 20 end.
Definition tcp_front (source destination : Endpoint) (sequence acknowledgement flags window : Z) (mss : option Z) : list Z :=
  be16 (port source) ++ be16 (port destination) ++ be32 sequence ++ be32 acknowledgement
  ++ [tcp_offset mss * 4; flags] ++ be16 window.
Definition tcp_back (mss : option Z) (payload : list Z) : list Z := [0; 0] ++ mss_option mss ++ payload.

Definition endpoint_ok (e : Endpoint) : Prop := is_u32 (address e) /\ is_u16 (port e).

Lemma two_bytes a b : is_u8 a -> is_u8 b -> Forall is_u8 [a; b].
Proof. intros Ha Hb. constructor; [done|]. constructor; [done|constructor]. Qed.

Lemma tcp_front_bytes source destination sequence acknowledgement flags window mss :
  is_u8 flags -> Forall is_u8 (tcp_front source destination sequence acknowledgement flags window mss).
Proof.
  intros Hf. unfold tcp_front. rewrite !Forall_app. split_and!; auto using be16_bytes, be32_bytes.
  apply two_bytes; [|done]. unfold is_u8, u8_max. destruct mss; cbn; lia.
Qed.

Lemma tcp_back_bytes mss payload : Forall is_u8 payload -> Forall is_u8 (tcp_back mss payload).
Proof.
  intros Hp. unfold tcp_back, mss_option. apply Forall_app. split; [by apply two_bytes|]. apply Forall_app. split; [|done].
  destruct mss; [|constructor]. apply Forall_app. split; [by apply two_bytes|apply be16_bytes].
Qed.

Lemma tcp_back_length mss payload : len (tcp_back mss payload) = tcp_offset mss - 18 + len payload.
Proof. unfold tcp_back, mss_option. destruct mss; cbn [app length be16 tcp_offset]; lia. Qed.

(** The window test of [tcp::receive] aside, its first half: a segment whose
    checksum is right. *)
Definition checks_out (source destination : Z) (bytes : list Z) : Prop :=
  rep (psum source destination Ip.PROTO_TCP (len bytes) + wsum bytes) = 65535.

Lemma tcp_build_spec {S E} source destination sequence acknowledgement flags window mss payload (s : S) :
  endpoint_ok source -> endpoint_ok destination -> is_u8 flags -> Forall is_u8 payload -> len payload <= 65511 ->
  exists c, is_u16 c /\
    let bytes := tcp_front source destination sequence acknowledgement flags window mss ++ be16 c ++ tcp_back mss payload in
    checks_out (address source) (address destination) bytes /\
    @Segment.build S E source destination sequence acknowledgement flags window mss payload s = (s, Ok bytes).
Proof.
  intros [Hs _] [Hd _] Hf Hp Hl. set (front := tcp_front _ _ _ _ _ _ _). set (back := tcp_back mss payload).
  assert (Hfb : Forall is_u8 front) by (by apply tcp_front_bytes). assert (Hbb : Forall is_u8 back) by (by apply tcp_back_bytes).
  assert (H16 : length front = 16%nat) by done.
  assert (Hlen : forall c, len (front ++ be16 c ++ back) = tcp_offset mss + len payload).
  { intros c. rewrite field_length, H16. pose proof (tcp_back_length mss payload). fold back in H. lia. }
  assert (Hoff : 20 <= tcp_offset mss <= 24) by (destruct mss; cbn; lia).
  pose proof (psum_bounds (address source) (address destination) Ip.PROTO_TCP (tcp_offset mss + len payload) Hs Hd ltac:(unfold is_u8, u8_max, Ip.PROTO_TCP; lia) ltac:(lia)) as Hps.
  set (c := 65535 - rep (psum (address source) (address destination) Ip.PROTO_TCP (tcp_offset mss + len payload) + wsum (front ++ be16 0 ++ back))).
  destruct (checksum_closes (psum (address source) (address destination) Ip.PROTO_TCP (tcp_offset mss + len payload)) front back c) as [Hc Hr];
    [by rewrite H16|lia|done|done|by left|].
  exists c. split; [done|]. cbn zeta. split; [unfold checks_out; by rewrite Hlen|].
  unfold Segment.build, Segment.HEADER_LEN.
  replace (be16 (port source) ++ _) with (front ++ be16 0 ++ back) by (unfold front, back, tcp_front, tcp_back, mss_option; by destruct mss).
  apply wp_returns.
  assert (Hall : wp (let! pseudo := Ip.pseudo_sum (address source) (address destination) Ip.PROTO_TCP (len (front ++ be16 0 ++ back)) in
      let! total := Ip.sum (front ++ be16 0 ++ back) pseudo in Ip.fold total) (fun s' r => s' = s /\ r = c) (fun _ (_ : E) => False) s).
  { apply wp_pseudo_sum; [done|done|unfold is_u8, u8_max, Ip.PROTO_TCP; lia|by apply field_bytes|rewrite Hlen; lia|]. by rewrite Hlen. }
  unfold wp, bind in *. destruct (Ip.pseudo_sum _ _ _ _ s) as [s1 [p1|e1|w1]]; [|done..]. destruct (Ip.sum _ p1 s1) as [s2 [p2|e2|w2]]; [|done..].
  destruct (Ip.fold p2 s2) as [s3 [p3|e3|w3]]; [|done..]. destruct Hall as [-> ->]. split; [done|].
  unfold splice. rewrite <- H16 at 1. rewrite take_app_length. change (16 + length (be16 c))%nat with (16 + length (be16 0))%nat. rewrite <- H16, <- drop_drop, drop_app_length.
  by rewrite drop_app_length.
Qed.

Lemma tcp_options_spec {S E} source destination sequence acknowledgement flags window mss c payload (s : S) :
  option_Forall is_u16 mss ->
  @Segment.parse_options S E (tcp_front source destination sequence acknowledgement flags window mss ++ be16 c ++ tcp_back mss payload) (tcp_offset mss) s
    = (s, Ok mss).
Proof.
  intros Hm. apply wp_returns. unfold Segment.parse_options, Segment.HEADER_LEN. destruct mss as [m|]; apply wp_loop_step; cbv beta iota.
  - cbn [tcp_offset]. guard_false. repeat read_known. guard_false. guard_false. guard_false. repeat read_known. guard_false.
    apply wp_bind. change ((2 =? 2) && (4 =? 4)) with true. cbv iota. repeat read_known. apply wp_ret, wp_bind, wp_checked; [unfold u64_max; lia|].
    apply wp_ret. cbv beta iota. apply wp_loop_step. cbv beta iota. apply wp_ret. split; [done|].
    rewrite be16_value; [done|by inversion Hm].
  - apply wp_ret. done.
Qed.

Lemma tcp_round_trip {S E} source destination sequence acknowledgement flags window mss c payload (s : S) :
  endpoint_ok source -> endpoint_ok destination -> is_u32 sequence -> is_u32 acknowledgement -> is_u16 window -> option_Forall is_u16 mss ->
  @Segment.parse S E (tcp_front source destination sequence acknowledgement flags window mss ++ be16 c ++ tcp_back mss payload) s =
    (s, Ok (Some (Segment.mkSegment (port source) (port destination) sequence acknowledgement flags window mss payload))).
Proof.
  intros [_ Hs] [_ Hd] Hq Ha Hw Hm. apply wp_returns. pose proof (@tcp_options_spec S E source destination sequence acknowledgement flags window mss c payload s Hm) as Ho.
  set (bytes := _ ++ _ ++ _) in *.
  assert (Hl : len bytes = tcp_offset mss + len payload).
  { unfold bytes. rewrite field_length. pose proof (tcp_back_length mss payload). change (length (tcp_front _ _ _ _ _ _ _)) with 16%nat. lia. }
  assert (Hoff : 20 <= tcp_offset mss <= 24) by (destruct mss; cbn; lia).
  unfold Segment.parse, Segment.HEADER_LEN. guard_false. repeat read_known.
  replace (Z.shiftr (tcp_offset mss * 4) 4 * 4) with (tcp_offset mss) by (by destruct mss). guard_false.
  apply wp_bind. eapply wp_fun; [exact Ho|]. repeat read_known. apply wp_slice; [lia|lia|]. apply wp_ret. split; [done|].
  rewrite !be16_value, !be32_value by done. do 3 f_equal.
  replace (drop _ _) with payload by (unfold bytes; by destruct mss). apply take_ge. lia.
Qed.

(** C31: What is sent is what arrives: a segment put into a datagram and that into
    a frame, padded as short frames are, comes apart on the other side into the
    same addresses, ports, numbers, flags, window, option and bytes, and every
    checksum on the way is right. *)
Theorem frame_carries_segment {S E} source destination sequence acknowledgement flags window mss payload id dmac smac (s : S) :
  endpoint_ok source -> endpoint_ok destination -> is_u32 sequence -> is_u32 acknowledgement -> is_u8 flags -> is_u16 window ->
  option_Forall is_u16 mss -> Forall is_u8 payload -> len payload <= 65491 -> is_u16 id -> length dmac = 6%nat -> length smac = 6%nat ->
  exists segment datagram rest,
    @Segment.build S E source destination sequence acknowledgement flags window mss payload s = (s, Ok segment) /\
    @Ip.build S E id (address source) (address destination) Ip.PROTO_TCP segment s = (s, Ok datagram) /\
    @Ether.parse S E (Ether.build dmac smac Ether.ETHERTYPE_IPV4 datagram) s =
      (s, Ok (Some (Ether.mkFrame dmac smac Ether.ETHERTYPE_IPV4 rest))) /\
    @Ip.parse S E rest s =
      (s, Ok (Some (Ip.mkHeader 20 (20 + len segment) id Ip.FLAG_DONT_FRAGMENT Ip.DEFAULT_TTL Ip.PROTO_TCP (address source) (address destination), segment))) /\
    @Segment.parse S E segment s =
      (s, Ok (Some (Segment.mkSegment (port source) (port destination) sequence acknowledgement flags window mss payload))) /\
    (let! pseudo := Ip.pseudo_sum (address source) (address destination) Ip.PROTO_TCP (len segment) in
     let! total := Ip.sum segment pseudo in @Ip.fold S E total) s = (s, Ok 0).
Proof.
  intros Hs Hd Hq Ha Hf Hw Hm Hp Hl Hid Hdm Hsm.
  destruct (@tcp_build_spec S E source destination sequence acknowledgement flags window mss payload s) as (c & Hc & Hck & Eb); [done..|lia|].
  cbn zeta in Hck, Eb. set (segment := tcp_front _ _ _ _ _ _ _ ++ _ ++ _) in *.
  assert (Hsb : Forall is_u8 segment) by (apply field_bytes; [by apply tcp_front_bytes|by apply tcp_back_bytes]).
  assert (Hsl : len segment = tcp_offset mss + len payload).
  { unfold segment. rewrite field_length. pose proof (tcp_back_length mss payload). change (length (tcp_front _ _ _ _ _ _ _)) with 16%nat. lia. }
  assert (Hoff : 20 <= tcp_offset mss <= 24) by (destruct mss; cbn; lia).
  assert (Hproto : is_u8 Ip.PROTO_TCP) by (unfold is_u8, u8_max, Ip.PROTO_TCP; lia).
  destruct (@ip_round_trip S E id (address source) (address destination) Ip.PROTO_TCP segment s) as (datagram & Ei & _ & _ & Hparse); [apply Hid|apply Hs|apply Hd|done|done|lia|].
  destruct (@ether_round_trip S E dmac smac Ether.ETHERTYPE_IPV4 datagram s) as (n & Ee); [done|done|unfold is_u16, u16_max, Ether.ETHERTYPE_IPV4; lia|].
  exists segment, datagram, (datagram ++ replicate n 0). split_and!; [done|done|done|apply Hparse|by apply tcp_round_trip|].
  apply wp_returns, wp_pseudo_sum; [apply Hs|apply Hd|done|done|lia|]. unfold checks_out in Hck. rewrite Hck. done.
Qed.

(** * Packets from anywhere

    Nothing a link can deliver makes a parser panic or run on: every index is in
    range, the options of a segment are walked once, and what is handed up has
    fields of the widths it should have. *)

Section hostile.
Context {S E : Type}.
Implicit Types (s : S) (X : S -> E -> Prop).

Lemma wp_byte_in bytes i (Q : S -> Z -> Prop) X s :
  Forall is_u8 bytes -> 0 <= i < len bytes -> (forall b, is_u8 b -> Q s b) -> wp (index_at bytes i) Q X s.
Proof. intros Hb Hi HQ. apply wp_index; [done|]. intros b Hin. apply HQ. rewrite Forall_forall in Hb. by apply Hb. Qed.

Lemma wp_be16_in bytes i (Q : S -> Z -> Prop) X s :
  Forall is_u8 bytes -> 0 <= i -> i + 2 <= len bytes -> (forall v, is_u16 v -> Q s v) -> wp (be16_at bytes i) Q X s.
Proof.
  intros Hb Hi Hl HQ. unfold be16_at. apply wp_bind, wp_byte_in; [done|lia|]. intros a Ha. apply wp_bind, wp_byte_in; [done|lia|].
  intros b Hb'. apply wp_ret, HQ. unfold is_u8, is_u16, u8_max, u16_max in *. lia.
Qed.

Lemma wp_be32_in bytes i (Q : S -> Z -> Prop) X s :
  Forall is_u8 bytes -> 0 <= i -> i + 4 <= len bytes -> (forall v, is_u32 v -> Q s v) -> wp (be32_at bytes i) Q X s.
Proof.
  intros Hb Hi Hl HQ. unfold be32_at. do 4 (apply wp_bind, wp_byte_in; [done|lia|]; intros ? ?).
  apply wp_ret, HQ. unfold is_u8, is_u32, u8_max, u32_max in *. lia.
Qed.

Lemma wp_slice_in bytes a b (Q : S -> list Z -> Prop) X s :
  Forall is_u8 bytes -> 0 <= a <= b -> b <= len bytes ->
  (forall l, Forall is_u8 l -> len l = b - a -> Q s l) -> wp (slice bytes a b) Q X s.
Proof.
  intros Hb Ha Hl HQ. apply wp_slice; [done|done|]. apply HQ; [by apply Forall_take, Forall_drop|].
  rewrite length_take, length_drop. lia.
Qed.
End hostile.

(** The next read of a parser is in range. *)
Ltac read_in :=
  match goal with
  | |- wp (bind _ _) _ _ _ => apply wp_bind
  | |- wp (ret _) _ _ _ => apply wp_ret
  | |- wp (index_at _ _) _ _ _ => apply wp_byte_in; [done|lia|intros ? ?]
  | |- wp (be16_at _ _) _ _ _ => apply wp_be16_in; [done|lia|lia|intros ? ?]
  | |- wp (be32_at _ _) _ _ _ => apply wp_be32_in; [done|lia|lia|intros ? ?]
  | |- wp (slice _ _ _) _ _ _ => apply wp_slice_in; [done|lia|lia|intros ? ? ?]
  | |- wp (if ?b then _ else _) _ _ _ => destruct b eqn:?
  end; cbv beta; try done.

Lemma arp_parse_safe {S E} bytes (s : S) :
  Forall is_u8 bytes ->
  wp (@ArpPacket.parse S E bytes) (fun s' r => s' = s /\ match r with
    | Some a => is_u16 (ArpPacket.operation a) /\ Forall is_u8 (ArpPacket.sender_mac a) /\ length (ArpPacket.sender_mac a) = 6%nat /\
                is_u32 (ArpPacket.sender_ip a) /\ is_u32 (ArpPacket.target_ip a)
    | None => True end) (fun _ _ => False) s.
Proof.
  intros Hb. unfold ArpPacket.parse, ArpPacket.PACKET_LEN. destruct (_ <? 28) eqn:Hl; [done|]. apply Z.ltb_ge in Hl.
  repeat read_in. cbn. split_and!; try done. lia.
Qed.

Lemma ether_parse_safe {S E} bytes (s : S) :
  Forall is_u8 bytes ->
  wp (@Ether.parse S E bytes) (fun s' r => s' = s /\ match r with
    | Some f => length (Ether.destination f) = 6%nat /\ length (Ether.source f) = 6%nat /\ Forall is_u8 (Ether.destination f) /\
                Forall is_u8 (Ether.source f) /\ Forall is_u8 (Ether.payload f) /\ is_u16 (Ether.ethertype f) /\ len (Ether.payload f) = len bytes - 14
    | None => True end) (fun _ _ => False) s.
Proof.
  intros Hb. unfold Ether.parse, Ether.HEADER_LEN. destruct (_ <? 14) eqn:Hl; [done|]. apply Z.ltb_ge in Hl.
  repeat read_in. cbn. split_and!; try done; lia.
Qed.

Lemma ip_parse_safe {S E} bytes (s : S) :
  Forall is_u8 bytes ->
  wp (@Ip.parse S E bytes) (fun s' r => s' = s /\ match r with
    | Some (h, payload) => is_u32 (Ip.source h) /\ is_u32 (Ip.destination h) /\ is_u8 (Ip.protocol h) /\ Forall is_u8 payload /\
        20 <= Ip.ihl h <= Ip.total_length h /\ len payload = Ip.total_length h - Ip.ihl h /\ Ip.total_length h <= Z.min 65535 (len bytes)
    | None => True end) (fun _ _ => False) s.
Proof.
  intros Hb. unfold Ip.parse, Ip.HEADER_LEN. destruct (_ <? 20) eqn:Hl; [done|]. apply Z.ltb_ge in Hl.
  do 2 read_in. destruct (negb _); [done|]. change 15 with (Z.ones 4). rewrite Z.land_ones by lia. change (2 ^ 4) with 16.
  destruct (_ || _) eqn:Hg; [done|]. apply orb_false_iff in Hg as [Hg1%Z.ltb_ge Hg2%Z.ltb_ge]. do 2 read_in.
  apply wp_bind. eapply wp_fun; [apply checksum_spec; [done|lia]|]. destruct (negb _); [done|]. do 2 read_in.
  destruct (_ || _) eqn:Hg; [done|]. apply orb_false_iff in Hg as [Hg3%Z.ltb_ge Hg4%Z.ltb_ge]. repeat read_in.
  cbn. unfold is_u16, u16_max in *. split_and!; try done; lia.
Qed.

Lemma wp_checked_udp {S E} source destination datagram (Q : S -> bool -> Prop) (X : S -> E -> Prop) s :
  is_u32 source -> is_u32 destination -> Forall is_u8 datagram -> len datagram <= 65535 -> (forall b, Q s b) ->
  wp (let! pseudo := Ip.pseudo_sum source destination Ip.PROTO_UDP (len datagram) in
      let! total := Ip.sum datagram pseudo in let! sum := Ip.fold total in ret (sum =? 0)) Q X s.
Proof.
  intros Hs Hd Hb Hl HQ. assert (Hp : is_u8 Ip.PROTO_UDP) by (unfold is_u8, u8_max, Ip.PROTO_UDP; lia).
  pose proof (psum_bounds source destination Ip.PROTO_UDP (len datagram) Hs Hd Hp ltac:(lia)). pose proof (wsum_bounds datagram Hb).
  apply wp_bind. eapply wp_fun; [apply pseudo_spec; [done..|lia]|]. apply wp_bind. eapply wp_fun; [apply sum_spec; [done|lia|unfold u32_max; lia]|].
  apply wp_bind. eapply wp_fun; [apply fold_spec; unfold u32_max; lia|]. apply wp_ret, HQ.
Qed.

Lemma udp_parse_safe {S E} source destination datagram (s : S) :
  is_u32 source -> is_u32 destination -> Forall is_u8 datagram ->
  wp (@UdpPacket.parse S E source destination datagram) (fun s' r => s' = s /\ match r with
    | Some (from, to, body) => address from = source /\ address to = destination /\ is_u16 (port from) /\ is_u16 (port to) /\
        Forall is_u8 body /\ len body <= Z.min 65527 (len datagram - 8)
    | None => True end) (fun _ _ => False) s.
Proof.
  intros Hs Hd Hb. unfold UdpPacket.parse, UdpPacket.HEADER_LEN. destruct (_ <? 8) eqn:Hl; [done|]. apply Z.ltb_ge in Hl. do 2 read_in.
  destruct (_ || _) eqn:Hg; [done|]. apply orb_false_iff in Hg as [Hg1%Z.ltb_ge Hg2%Z.ltb_ge]. unfold is_u16, u16_max in H.
  do 4 read_in. apply wp_bind.
  assert (Hrest : forall good : bool, wp (if negb good then ret None else
    let! from := be16_at l 0 in let! to := be16_at l 2 in let! body := slice l 8 (len l) in
    @ret S E _ (Some (mkEndpoint source from, mkEndpoint destination to, body)))
    (fun s' r => s' = s /\ match r with
      | Some (from, to, body) => address from = source /\ address to = destination /\ is_u16 (port from) /\ is_u16 (port to) /\
          Forall is_u8 body /\ len body <= Z.min 65527 (len datagram - 8)
      | None => True end) (fun _ _ => False) s).
  { intros [|]; cbn [negb]; [|done]. repeat read_in. cbn. split_and!; try done; lia. }
  match goal with H : len l = v - 0 |- _ => rewrite Z.sub_0_r in H; rewrite <- H in * end.
  destruct (_ =? 0); [apply wp_ret, (Hrest true)|]. apply wp_checked_udp; [done..|clear Hrest; lia|done].
Qed.

Lemma options_safe {S E} bytes offset (s : S) :
  Forall is_u8 bytes -> 20 <= offset <= 60 -> offset <= len bytes ->
  wp (@Segment.parse_options S E bytes offset) (fun s' r => s' = s /\ option_Forall is_u16 r) (fun _ _ => False) s.
Proof.
  intros Hb Ho Hl. unfold Segment.parse_options.
  apply (wp_loop (fun a s' => s' = s /\ 20 <= a.1 <= offset /\ option_Forall is_u16 a.2) (fun a _ => Z.to_nat (offset - a.1))).
  - intros [i mss] s' (-> & Hi & Hm). cbn [fst snd] in *.
    destruct (offset <=? i) eqn:E1; [done|]. apply Z.leb_gt in E1. do 2 read_in. destruct (b =? 0); [done|]. destruct (b =? 1).
    { apply wp_bind, wp_checked; [unfold u64_max; lia|]. apply wp_ret. cbn. split; [split_and!; [done|lia..|done]|lia]. }
    destruct (offset <=? i + 1) eqn:E2; [done|]. apply Z.leb_gt in E2. do 2 read_in.
    destruct (_ || _) eqn:Hg; [done|]. apply orb_false_iff in Hg as [Hg1%Z.ltb_ge Hg2%Z.ltb_ge]. apply wp_bind.
    assert (Hrest : forall mss, option_Forall is_u16 mss -> wp (let! i := usize (i + b0) in @ret S E ((Z * option Z) + option Z) (inl (i, mss)))
      (fun s' r => match r with
        | inl a' => (s' = s /\ 20 <= a'.1 <= offset /\ option_Forall is_u16 a'.2) /\ (Z.to_nat (offset - a'.1) < Z.to_nat (offset - i))%nat
        | inr r => s' = s /\ option_Forall is_u16 r end) (fun _ _ => False) s).
    { intros m' Hm'. apply wp_bind, wp_checked; [unfold u64_max, is_u8, u8_max in *; lia|]. apply wp_ret. cbn. split; [split_and!; [done|lia..|done]|lia]. }
    destruct ((b =? 2) && (b0 =? 4)) eqn:E3; [|by apply wp_ret, Hrest]. apply andb_true_iff in E3 as [_ E3%Z.eqb_eq]. subst b0.
    do 2 read_in. apply wp_ret, Hrest. by constructor.
  - cbn. split_and!; [done|unfold Segment.HEADER_LEN; lia..|constructor].
  - cbn. unfold Segment.HEADER_LEN. lia.
Qed.

Definition segment_ok (g : Segment.Segment) : Prop :=
  is_u16 (Segment.source_port g) /\ is_u16 (Segment.destination_port g) /\ is_u32 (Segment.sequence g) /\ is_u32 (Segment.acknowledgement g) /\
  is_u8 (Segment.flags g) /\ is_u16 (Segment.window g) /\ option_Forall is_u16 (Segment.mss g) /\ Forall is_u8 (Segment.payload g).

Lemma segment_parse_safe {S E} bytes (s : S) :
  Forall is_u8 bytes ->
  wp (@Segment.parse S E bytes) (fun s' r => s' = s /\ match r with
    | Some g => segment_ok g /\ len (Segment.payload g) <= len bytes - 20
    | None => True end) (fun _ _ => False) s.
Proof.
  intros Hb. unfold Segment.parse, Segment.HEADER_LEN. destruct (_ <? 20) eqn:Hl; [done|]. apply Z.ltb_ge in Hl. do 2 read_in.
  rewrite Z.shiftr_div_pow2 by lia. change (2 ^ 4) with 16. unfold is_u8, u8_max in H.
  destruct (_ || _) eqn:Hg; [done|]. apply orb_false_iff in Hg as [Hg1%Z.ltb_ge Hg2%Z.ltb_ge].
  apply wp_bind. eapply wp_mono; [apply options_safe; [done|lia|lia]| |done]. intros s' mss [-> Hm].
  repeat read_in. cbn. split; [done|]. split; [|lia]. unfold segment_ok. cbn. by split_and!.
Qed.
