(* ===== verification/Config.v ===== *)
(** * The addresses a machine uses

    [Config] of [kernel/src/net/mod.rs]: an address with its netmask, gateway and
    name servers, which change together. An address is the 32-bit number of
    [Ipv4Addr]. *)

From S2P Require Import Prelude Words Packets.

Definition MAX_NAMESERVERS : Z := 3.

(** [!x] on u32, and the bit tricks of the netmask. *)
Definition not32 (x : Z) : Z := Z.lxor x u32_max.

Record Config := mkConfig {
  config_address : Z;
  netmask : Z;
  gateway : option Z;
  nameserver_slots : list Z;
  nameserver_count : Z;
}.

#[global] Instance config_eq : EqDecision Config.
Proof. solve_decision. Defined.

(** An address a host can have as its own. *)
Definition is_host_address (a : Z) : bool :=
  let first := Z.shiftr a 24 in
  negb (first =? 0) && negb (first =? 127) && (first <? 224).

(** Why addresses cannot be a configuration. *)
Inductive ConfigError := NotAHost | NotANetmask | SubnetAddress | NotAGateway.

Definition on_link (c : Config) (other : Z) : bool := Z.land other (netmask c) =? Z.land (config_address c) (netmask c).

(** Addresses nothing answers on. *)
Definition unusable_server (server : Z) : bool :=
  Ip.is_unspecified server || Ip.is_broadcast server || Ip.is_multicast server.

(** The loop over the name servers; an index past the slots would panic. *)
Fixpoint add_nameservers {S} (servers : list Z) (c : Config) : M S ConfigError Config :=
  match servers with
  | [] => ret c
  | server :: rest =>
      if nameserver_count c =? MAX_NAMESERVERS then ret c
      else if unusable_server server then add_nameservers rest c
      else
        let! _ := index_at (nameserver_slots c) (nameserver_count c) in
        let! count := usize (nameserver_count c + 1) in
        add_nameservers rest
          (mkConfig (config_address c) (netmask c) (gateway c) (<[Z.to_nat (nameserver_count c) := server]> (nameserver_slots c)) count)
  end.

Definition config_new {S} (address netmask : Z) (gateway : option Z) (nameservers : list Z) : M S ConfigError Config :=
  if negb (is_host_address address) then throw NotAHost
  else
    let host_bits := not32 netmask in
    if (netmask =? 0) || negb (Z.land host_bits (as_u32 (host_bits + 1)) =? 0) then throw NotANetmask
    else if (1 <? host_bits) && ((Z.land address host_bits =? 0) || (Z.land address host_bits =? host_bits)) then throw SubnetAddress
    else
      let config := mkConfig address netmask None (replicate 3 Ip.UNSPECIFIED) 0 in
      match gateway with
      | Some g =>
          if (g =? address) || negb (is_host_address g) || negb (on_link config g) then throw NotAGateway
          else add_nameservers nameservers (mkConfig address netmask (Some g) (replicate 3 Ip.UNSPECIFIED) 0)
      | None => add_nameservers nameservers config
      end.

(** The netmask of an address's class. *)
Definition class_netmask (a : Z) : Z :=
  let first := Z.shiftr a 24 in
  if first <=? 127 then Ip.addr 255 0 0 0
  else if first <=? 191 then Ip.addr 255 255 0 0
  else Ip.addr 255 255 255 0.

Definition nameservers (c : Config) : list Z := take (Z.to_nat (nameserver_count c)) (nameserver_slots c).

(** [leading_ones] of a 32-bit number, from bit [n - 1] down. *)
Fixpoint leading_ones (n : nat) (x : Z) : Z :=
  match n with
  | O => 0
  | S n => if Z.testbit x (Z.of_nat n) then 1 + leading_ones n x else 0
  end.
Definition prefix_len (c : Config) : Z := leading_ones 32 (netmask c).

Definition broadcast (c : Config) : Z := Z.lor (config_address c) (not32 (netmask c)).

(** Whom a datagram for [destination] is handed to. *)
Definition next_hop (c : Config) (destination : Z) : option Z :=
  if Ip.is_broadcast destination || Ip.is_multicast destination || on_link c destination then Some destination
  else gateway c.

(** The address to send from; [config] is the machine's, if it has one. *)
Definition source_for {S} (config : option Config) (destination : Z) : M S Errno Z :=
  if Ip.is_loopback destination then ret (Ip.addr 127 0 0 1)
  else match config with
       | Some c => ret (config_address c)
       | None => if Ip.is_broadcast destination then ret Ip.UNSPECIFIED else throw ENETUNREACH
       end.

(** * What a configuration is

    [Config::new] accepts exactly the addresses a host can hold on a subnet that
    a netmask describes, with a gateway on it; and a configuration routes every
    datagram to a neighbour or refuses it. *)

(** The netmask of [p] ones. *)
Definition prefix_mask (p : Z) : Z := 2 ^ 32 - 2 ^ (32 - p).

(** ** Bits *)

Lemma land_succ_even x : 0 <= x -> Z.land (2 * x) (2 * x + 1) = 2 * x.
Proof.
  intros Hx. apply Z.bits_inj'. intros i Hi. rewrite Z.land_spec. destruct (Z.eq_dec i 0) as [->|].
  - by rewrite Z.testbit_even_0.
  - replace i with (Z.succ (i - 1)) by lia. rewrite Z.testbit_even_succ, Z.testbit_odd_succ by lia. apply andb_diag.
Qed.

Lemma land_succ_odd x : 0 <= x -> Z.land (2 * x + 1) (2 * (x + 1)) = 2 * Z.land x (x + 1).
Proof.
  intros Hx. apply Z.bits_inj'. intros i Hi. rewrite Z.land_spec. destruct (Z.eq_dec i 0) as [->|].
  - by rewrite !Z.testbit_even_0, andb_false_r.
  - replace i with (Z.succ (i - 1)) by lia. by rewrite !Z.testbit_even_succ, Z.testbit_odd_succ, Z.land_spec by lia.
Qed.

(** A run of ones from the bottom is one less than a power of two. *)
Lemma low_ones n : forall x, 0 <= x < 2 ^ Z.of_nat n -> Z.land x (x + 1) = 0 -> exists k, 0 <= k <= Z.of_nat n /\ x = 2 ^ k - 1.
Proof.
  induction n as [|n IH]; intros x Hx Hl.
  { exists 0. change (2 ^ Z.of_nat 0) with 1 in Hx. split; [lia|]. change (2 ^ 0) with 1. lia. }
  rewrite Nat2Z.inj_succ, Z.pow_succ_r in Hx by lia. destruct (Z.Even_or_Odd x) as [[y ->]|[y ->]].
  - rewrite land_succ_even in Hl by lia. exists 0. split; [lia|]. change (2 ^ 0) with 1. lia.
  - replace (2 * y + 1 + 1) with (2 * (y + 1)) in Hl by lia. rewrite land_succ_odd in Hl by lia.
    destruct (IH y) as (k & Hk & ->); [lia|lia|]. exists (k + 1). split; [lia|]. rewrite Z.pow_add_r by lia. lia.
Qed.

Lemma low_ones_land k : 0 <= k -> Z.land (2 ^ k - 1) (2 ^ k) = 0.
Proof.
  intros Hk. replace (2 ^ k - 1) with (Z.ones k) by (rewrite Z.ones_equiv; lia). rewrite Z.land_comm, Z.land_ones, Z.mod_same by lia. done.
Qed.

Lemma not32_bounds x : is_u32 x -> not32 x = u32_max - x /\ is_u32 (not32 x).
Proof.
  intros Hx. assert (E : not32 x = u32_max - x).
  { unfold not32. change u32_max with (Z.ones 32). replace (Z.ones 32 - x) with (Z.lnot x `mod` 2 ^ 32).
    - rewrite <- Z.land_ones by lia. apply Z.bits_inj'. intros i Hi. rewrite Z.lxor_spec, Z.land_spec, Z.lnot_spec by lia.
      destruct (Z.lt_ge_cases i 32).
      + rewrite Z.ones_spec_low by lia. by destruct (Z.testbit x i).
      + rewrite Z.ones_spec_high, xorb_false_r, andb_false_r by lia. apply Z.testbit_false; [done|]. rewrite Z.div_small; [done|]. unfold is_u32, u32_max in Hx.
        split; [lia|]. eapply Z.lt_le_trans; [|apply (Z.pow_le_mono_r 2 32); lia]. lia.
    - unfold Z.lnot. change (Z.ones 32) with 4294967295. change (2 ^ 32) with 4294967296. unfold is_u32, u32_max in Hx. lia. }
  split; [done|]. rewrite E. unfold is_u32 in *. lia.
Qed.

(** ** Netmasks *)

Lemma prefix_mask_ok p : 1 <= p <= 32 -> is_u32 (prefix_mask p) /\ not32 (prefix_mask p) = 2 ^ (32 - p) - 1 /\ 0 < prefix_mask p.
Proof.
  intros Hp. assert (H : 1 <= 2 ^ (32 - p) <= 2 ^ 31).
  { split; [change 1 with (2 ^ 0); apply Z.pow_le_mono_r; lia|apply Z.pow_le_mono_r; lia]. }
  assert (Hu : is_u32 (prefix_mask p)) by (unfold prefix_mask, is_u32, u32_max; lia).
  split_and!; [done| |unfold prefix_mask; lia]. rewrite (proj1 (not32_bounds _ Hu)). unfold prefix_mask, u32_max. lia.
Qed.

(** The test of the code finds exactly the netmasks. *)
Lemma netmask_test m :
  is_u32 m ->
  (m =? 0) || negb (Z.land (not32 m) (as_u32 (not32 m + 1)) =? 0) = false <-> exists p, 1 <= p <= 32 /\ m = prefix_mask p.
Proof.
  intros Hm. destruct (not32_bounds m Hm) as [E Hn]. rewrite orb_false_iff, negb_false_iff, Z.eqb_neq, Z.eqb_eq. split.
  - intros [H0 Hl]. assert (Hlt : not32 m < u32_max) by (unfold is_u32 in *; lia).
    rewrite as_u32_small in Hl by (unfold is_u32 in *; lia).
    destruct (low_ones 32 (not32 m)) as (k & Hk & Ek); [unfold is_u32, u32_max in *; change (Z.of_nat 32) with 32; lia|done|].
    assert (k <> 32) by (intros ->; unfold u32_max in *; change (2 ^ 32) with 4294967296 in Ek; lia).
    exists (32 - k). split; [lia|]. unfold prefix_mask. replace (32 - (32 - k)) with k by lia. unfold u32_max in *. lia.
  - intros (p & Hp & ->). destruct (prefix_mask_ok p Hp) as (_ & En & Hpos). rewrite En. split; [lia|].
    assert (1 <= 2 ^ (32 - p)) by (change 1 with (2 ^ 0) at 1; apply Z.pow_le_mono_r; lia).
    assert (2 ^ (32 - p) <= 2 ^ 31) by (apply Z.pow_le_mono_r; lia).
    replace (2 ^ (32 - p) - 1 + 1) with (2 ^ (32 - p)) by lia. rewrite as_u32_small by (unfold u32_max; lia). apply low_ones_land. lia.
Qed.

(** The part of an address inside its subnet, and the part that names it. *)
Lemma land_host a p : 1 <= p <= 32 -> Z.land a (not32 (prefix_mask p)) = a `mod` 2 ^ (32 - p).
Proof.
  intros Hp. destruct (prefix_mask_ok p Hp) as (_ & En & _). rewrite En.
  replace (2 ^ (32 - p) - 1) with (Z.ones (32 - p)) by (rewrite Z.ones_equiv; lia). apply Z.land_ones. lia.
Qed.

Lemma land_subnet a p : is_u32 a -> 1 <= p <= 32 -> Z.land a (prefix_mask p) = a / 2 ^ (32 - p) * 2 ^ (32 - p).
Proof.
  intros Ha Hp. rewrite <- Z.shiftr_div_pow2, <- Z.shiftl_mul_pow2 by lia.
  replace (prefix_mask p) with (Z.shiftl (Z.ones p) (32 - p)).
  - apply Z.bits_inj'. intros i Hi. rewrite Z.land_spec, !Z.shiftl_spec by lia. destruct (Z.lt_ge_cases i (32 - p)) as [H|H].
    + by rewrite !(Z.testbit_neg_r _ (i - (32 - p))), andb_false_r by lia.
    + rewrite Z.shiftr_spec by lia. replace (i - (32 - p) + (32 - p)) with i by lia. destruct (Z.lt_ge_cases i 32) as [H'|H'].
      * by rewrite Z.ones_spec_low, andb_true_r by lia.
      * rewrite Z.ones_spec_high, andb_false_r by lia. symmetry. apply Z.testbit_false; [done|]. rewrite Z.div_small; [done|]. unfold is_u32, u32_max in Ha.
        split; [lia|]. eapply Z.lt_le_trans; [|apply (Z.pow_le_mono_r 2 32); lia]. lia.
  - rewrite Z.shiftl_mul_pow2, Z.ones_equiv by lia. unfold prefix_mask. replace (2 ^ 32) with (2 ^ p * 2 ^ (32 - p)); [lia|].
    rewrite <- Z.pow_add_r by lia. f_equal. lia.
Qed.

Lemma on_link_subnet c a p :
  is_u32 a -> is_u32 (config_address c) -> 1 <= p <= 32 -> netmask c = prefix_mask p ->
  on_link c a = bool_decide (a / 2 ^ (32 - p) = config_address c / 2 ^ (32 - p)).
Proof.
  intros Ha Hc Hp Em. unfold on_link. rewrite Em, !land_subnet by done. apply eq_true_iff_eq. rewrite Z.eqb_eq, bool_decide_eq_true.
  assert (0 < 2 ^ (32 - p)) by (apply Z.pow_pos_nonneg; lia). split; [|by intros ->]. intros H'%Z.mul_cancel_r; lia.
Qed.

(** ** The name servers *)

Lemma add_nameservers_spec {W} servers : forall c (s : W),
  0 <= nameserver_count c <= 3 -> length (nameserver_slots c) = 3%nat ->
  drop (Z.to_nat (nameserver_count c)) (nameserver_slots c) = replicate (3 - Z.to_nat (nameserver_count c)) Ip.UNSPECIFIED ->
  exists c', add_nameservers servers c s = (s, Ok c') /\ config_address c' = config_address c /\ netmask c' = netmask c /\ gateway c' = gateway c /\
    0 <= nameserver_count c' <= 3 /\ length (nameserver_slots c') = 3%nat /\
    drop (Z.to_nat (nameserver_count c')) (nameserver_slots c') = replicate (3 - Z.to_nat (nameserver_count c')) Ip.UNSPECIFIED /\
    nameservers c' = take 3 (nameservers c ++ filter (fun x => unusable_server x = false) servers).
Proof.
  induction servers as [|x servers IH]; intros c s Hc Hl Hz; cbn [add_nameservers].
  { exists c. split_and!; try done; try lia. cbn. rewrite app_nil_r, take_ge; [done|]. unfold nameservers. rewrite length_take. lia. }
  assert (Hn : length (nameservers c) = Z.to_nat (nameserver_count c)) by (unfold nameservers; rewrite length_take; lia).
  destruct (_ =? _) eqn:E3.
  { apply Z.eqb_eq in E3. unfold MAX_NAMESERVERS in E3. exists c. split_and!; try done; try lia. rewrite take_app_le, take_ge by lia. done. }
  apply Z.eqb_neq in E3. unfold MAX_NAMESERVERS in E3. rewrite filter_cons. destruct (unusable_server x) eqn:Eu.
  { destruct (IH c s) as (c' & H); [done..|]. exists c'. by rewrite decide_False by done. }
  rewrite decide_True by done. set (k := Z.to_nat (nameserver_count c)) in *.
  set (c1 := mkConfig (config_address c) (netmask c) (gateway c) (<[k := x]> (nameserver_slots c)) (nameserver_count c + 1)). destruct (IH c1 s) as (c' & E & H1 & H2 & H3 & H4 & H5 & H6 & H7).
  - cbn. lia.
  - cbn. by rewrite length_insert.
  - cbn [nameserver_count nameserver_slots c1]. replace (Z.to_nat (nameserver_count c + 1)) with (S k) by lia.
    rewrite drop_insert_lt by lia. replace (S k) with (k + 1)%nat by lia. rewrite <- drop_drop, Hz, drop_replicate. f_equal. lia.
  - exists c'. split_and!; try done; try lia.
    + assert (Hk : exists y, nameserver_slots c !! k = Some y) by (apply lookup_lt_is_Some_2; lia). destruct Hk as [y Hk].
      unfold bind, index_at, get. rewrite (proj2 (Z.leb_le _ _)) by lia. fold k. rewrite Hk. cbn [ret].
      unfold checked. replace ((0 <=? _) && _) with true by (unfold u64_max; lia). done.
    + rewrite H7. f_equal. cbn [nameservers nameserver_count nameserver_slots c1]. rewrite cons_middle, app_assoc. f_equal.
      unfold nameservers. cbn [nameserver_count nameserver_slots c1]. replace (Z.to_nat (nameserver_count c + 1)) with (S k) by lia. fold k.
      rewrite (take_S_r _ k x), take_insert_ge by (try lia; apply list_lookup_insert_eq; lia). done.
Qed.

(** ** What is accepted *)

(** [a] on a subnet of [p] bits with gateway [g]. *)
Definition host_on (p a : Z) (g : option Z) : Prop :=
  1 <= p <= 32 /\ is_host_address a = true /\
  (p <= 30 -> a `mod` 2 ^ (32 - p) <> 0 /\ a `mod` 2 ^ (32 - p) <> 2 ^ (32 - p) - 1) /\
  option_Forall (fun r => r <> a /\ is_host_address r = true /\ r / 2 ^ (32 - p) = a / 2 ^ (32 - p)) g.

Lemma host_bits_test p a :
  1 <= p <= 32 ->
  (1 <? not32 (prefix_mask p)) && ((Z.land a (not32 (prefix_mask p)) =? 0) || (Z.land a (not32 (prefix_mask p)) =? not32 (prefix_mask p))) = false <->
  (p <= 30 -> a `mod` 2 ^ (32 - p) <> 0 /\ a `mod` 2 ^ (32 - p) <> 2 ^ (32 - p) - 1).
Proof.
  intros Hp. rewrite land_host by done. destruct (prefix_mask_ok p Hp) as (_ & -> & _).
  rewrite andb_false_iff, orb_false_iff, Z.ltb_ge, !Z.eqb_neq. destruct (Z.le_gt_cases p 30) as [H|H].
  - assert (2 ^ 2 <= 2 ^ (32 - p)) by (apply Z.pow_le_mono_r; lia). change (2 ^ 2) with 4 in *. split; [|tauto]. intros [?|?]; [lia|tauto].
  - assert (2 ^ (32 - p) <= 2 ^ 1) by (apply Z.pow_le_mono_r; lia). change (2 ^ 1) with 2 in *. split; [lia|]. intros _. left. lia.
Qed.

(** What [config_new] does once the address and the netmask are in order. *)
Lemma config_new_gateway {W} a p g servers (s : W) :
  is_u32 a -> option_Forall is_u32 g -> is_host_address a = true -> 1 <= p <= 32 ->
  (p <= 30 -> a `mod` 2 ^ (32 - p) <> 0 /\ a `mod` 2 ^ (32 - p) <> 2 ^ (32 - p) - 1) ->
  config_new a (prefix_mask p) g servers s = match g with
    | Some r => if bool_decide (r <> a /\ is_host_address r = true /\ r / 2 ^ (32 - p) = a / 2 ^ (32 - p))
                then add_nameservers servers (mkConfig a (prefix_mask p) (Some r) (replicate 3 Ip.UNSPECIFIED) 0) s
                else (s, Err NotAGateway)
    | None => add_nameservers servers (mkConfig a (prefix_mask p) None (replicate 3 Ip.UNSPECIFIED) 0) s end.
Proof.
  intros Ha Hg Hh Hp Hs. destruct (prefix_mask_ok p Hp) as (Hu & _ & _). unfold config_new. rewrite Hh. cbn [negb].
  rewrite (proj2 (netmask_test (prefix_mask p) Hu)) by (by exists p). rewrite (proj2 (host_bits_test p a Hp) Hs).
  destruct g as [r|]; [|done]. rewrite (on_link_subnet _ r p) by (try done; by inversion Hg). cbn [config_address].
  replace ((r =? a) || negb (is_host_address r) || negb (bool_decide (r / 2 ^ (32 - p) = a / 2 ^ (32 - p))))
    with (negb (bool_decide (r <> a /\ is_host_address r = true /\ r / 2 ^ (32 - p) = a / 2 ^ (32 - p)))); [by case_bool_decide|].
  destruct (Z.eqb_spec r a), (is_host_address r); repeat case_bool_decide; cbn; try tauto.
Qed.

(** C32: A configuration can be made from an address, a netmask, a gateway and name
    servers exactly when the netmask is [p] ones and then zeroes, the address is
    one a host of that subnet can hold, and the gateway is another host of the
    same subnet; it holds these, with the first three name servers that can
    answer and zeroes in the slots after them. *)
Theorem config_exact {W} a m g servers (s : W) :
  is_u32 a -> is_u32 m -> option_Forall is_u32 g ->
  match config_new a m g servers s with
  | (s', Ok c) => s' = s /\ exists p, m = prefix_mask p /\ host_on p a g /\ config_address c = a /\ netmask c = m /\ gateway c = g /\
      nameservers c = take 3 (filter (fun x => unusable_server x = false) servers) /\
      nameserver_slots c = nameservers c ++ replicate (3 - length (nameservers c)) Ip.UNSPECIFIED
  | (s', Err _) => s' = s /\ forall p, m = prefix_mask p -> ~ host_on p a g
  | (_, Stuck _) => False
  end.
Proof.
  intros Ha Hm Hg. destruct (is_host_address a) eqn:Eh; [|unfold config_new; rewrite Eh; split; [done|]; intros p _ (_ & H & _); congruence].
  destruct (((m =? 0) || negb (Z.land (not32 m) (as_u32 (not32 m + 1)) =? 0))) eqn:Em.
  { unfold config_new. rewrite Eh. cbn [negb]. rewrite Em. split; [done|]. intros p Hp (H1 & _).
    assert (Hn : true = false); [|done]. rewrite <- Em. apply netmask_test; [done|by exists p]. }
  destruct (proj1 (netmask_test m Hm) Em) as (p & Hp & ->).
  assert (Huniq : forall q, 1 <= q <= 32 -> prefix_mask p = prefix_mask q -> q = p).
  { intros q Hq E. unfold prefix_mask in E. assert (32 - q = 32 - p); [|lia]. apply (Z.pow_inj_r 2); lia. }
  destruct ((1 <? not32 (prefix_mask p)) && ((Z.land a (not32 (prefix_mask p)) =? 0) || (Z.land a (not32 (prefix_mask p)) =? not32 (prefix_mask p)))) eqn:Es.
  { unfold config_new. rewrite Eh. cbn [negb]. rewrite Em, Es. split; [done|]. intros q Eq Hq. pose proof (Huniq q (proj1 Hq) Eq) as ->.
    destruct Hq as (_ & _ & Hq & _). apply (host_bits_test p a Hp) in Hq. congruence. }
  pose proof (proj1 (host_bits_test p a Hp) Es) as Es'. clear Es. rename Es' into Es. rewrite (config_new_gateway a p g servers s Ha Hg Eh Hp Es).
  assert (Hmake : forall g', (g' = None \/ option_Forall (fun r => r <> a /\ is_host_address r = true /\ r / 2 ^ (32 - p) = a / 2 ^ (32 - p)) g') -> g' = g ->
    match add_nameservers servers (mkConfig a (prefix_mask p) g' (replicate 3 Ip.UNSPECIFIED) 0) s with
    | (s', Ok c) => s' = s /\ exists q, prefix_mask p = prefix_mask q /\ host_on q a g /\ config_address c = a /\ netmask c = prefix_mask p /\ gateway c = g /\
        nameservers c = take 3 (filter (fun x => unusable_server x = false) servers) /\
        nameserver_slots c = nameservers c ++ replicate (3 - length (nameservers c)) Ip.UNSPECIFIED
    | (s', Err _) => s' = s /\ forall q, prefix_mask p = prefix_mask q -> ~ host_on q a g
    | (_, Stuck _) => False end).
  { intros g' Hg' <-. destruct (add_nameservers_spec servers (mkConfig a (prefix_mask p) g' (replicate 3 Ip.UNSPECIFIED) 0) s) as (c & E & H1 & H2 & H3 & H4 & H5 & H6 & H7);
      [cbn; lia|done|done|]. rewrite E. split; [done|]. exists p. split_and!; try done.
    - split; [done|]. split; [done|]. split; [exact Es|]. destruct Hg' as [->|Hg']; [constructor|done].
    - rewrite <- (take_drop (Z.to_nat (nameserver_count c)) (nameserver_slots c)) at 1. rewrite H6. fold (nameservers c). do 2 f_equal.
      unfold nameservers. rewrite length_take. lia. }
  destruct g as [r|]; [|apply Hmake; [by left|done]]. case_bool_decide as Hr; [apply Hmake; [right; by constructor|done]|].
  split; [done|]. intros q Eq Hq. pose proof (Huniq q (proj1 Hq) Eq) as ->. destruct Hq as (_ & _ & _ & Hq). by inversion Hq.
Qed.
