(* ===== verification/Tcp.v ===== *)
(** * TCP

    [kernel/src/net/tcp.rs]: one connection, its transmission control block, and
    every method of it. A method runs on the block and on the wire below, which
    is an interface here: the clocks, the address to send from, the datagram
    sent, the bytes all connections hold past a gap. *)

From S2P Require Import Prelude Words Packets.
Import Segment.

Definition MSS : Z := 1460.
Definition MIN_MSS : Z := 536.
Definition RECEIVE_WINDOW : Z := 65535.
Definition SEND_BUFFER : Z := 64 * 1024.
Definition INITIAL_RTO : Z := 100.
Definition MIN_RTO : Z := 20.
Definition MAX_RTO : Z := 600.
Definition MAX_RETRIES : Z := 8.
Definition DUPLICATE_ACK_THRESHOLD : Z := 3.
Definition SYN_RETRIES : Z := 5.
Definition TIME_WAIT_TICKS : Z := 1000.
Definition FIN_WAIT_2_TICKS : Z := 6000.
Definition REASSEMBLY_TICKS : Z := 3000.
Definition MAX_HELD_RUNS : Z := 16.
Definition REASSEMBLY_LIMIT : Z := 128 * 1024.

Inductive State :=
| Closed | Listen | SynSent | SynReceived | Established | FinWait1 | FinWait2 | CloseWait | Closing | LastAck | TimeWait.
#[global] Instance state_eq : EqDecision State.
Proof. solve_decision. Defined.

Definition is_synchronised (s : State) : bool :=
  match s with Established | FinWait1 | FinWait2 | CloseWait | Closing | LastAck | TimeWait => true | _ => false end.
Definition can_output (s : State) : bool :=
  match s with Established | CloseWait | FinWait1 | Closing | LastAck => true | _ => false end.

(** A run of bytes that arrived before the bytes in front of it. *)
Record Held := mkHeld { h_sequence : Z; h_data : list Z }.
Definition h_end (h : Held) : Z := wrapping_add (h_sequence h) (as_u32 (len (h_data h))).

(** The children of a listener are sockets, by their place in the store. *)
Record Tcb := mkTcb {
  tstate : State;
  local : Endpoint;
  remote : Endpoint;
  bound : bool;
  iss : Z;
  send_unacknowledged : Z;
  send_next : Z;
  send_high : Z;
  send_window : Z;
  window_sequence : Z;
  window_ack : Z;
  irs : Z;
  receive_next : Z;
  receive_high : Z;
  out_of_order : list Held;
  held : Z;
  held_fin : option Z;
  reassembly_expire_at : Z;
  pending : list Z;
  received : list Z;
  fin_queued : bool;
  fin_sequence : option Z;
  fin_acknowledged : bool;
  fin_received : bool;
  read_shutdown : bool;
  abandoned : bool;
  error : option Errno;
  peer_mss : Z;
  retransmit_at : Z;
  rto : Z;
  srtt : Z;
  rttvar : Z;
  timed : option Z;
  timed_at : Z;
  retries : Z;
  expire_at : Z;
  congestion_window : Z;
  slow_start_threshold : Z;
  duplicate_acks : Z;
  recover : option Z;
  fast_retransmits : Z;
  timeouts : Z;
  backlog : Z;
  children : list nat;
}.

Definition tcb_eta (t : Tcb) : Tcb :=
  mkTcb (tstate t) (local t) (remote t) (bound t) (iss t) (send_unacknowledged t) (send_next t) (send_high t) (send_window t)
    (window_sequence t) (window_ack t) (irs t) (receive_next t) (receive_high t) (out_of_order t) (held t) (held_fin t)
    (reassembly_expire_at t) (pending t) (received t) (fin_queued t) (fin_sequence t) (fin_acknowledged t) (fin_received t)
    (read_shutdown t) (abandoned t) (error t) (peer_mss t) (retransmit_at t) (rto t) (srtt t) (rttvar t) (timed t) (timed_at t)
    (retries t) (expire_at t) (congestion_window t) (slow_start_threshold t) (duplicate_acks t) (recover t) (fast_retransmits t)
    (timeouts t) (backlog t) (children t).

(** [t] with one field given a new value: [self.field = v]. *)
Ltac set_field t field v :=
  let e := eval cbv delta [tcb_eta] beta in (tcb_eta t) in
  match eval pattern (field t) in e with
  | ?f _ => let r := eval cbv beta in (f v) in exact r
  end.

Definition set_state (v : State) (t : Tcb) : Tcb := ltac:(set_field t tstate v).
Definition set_local (v : Endpoint) (t : Tcb) : Tcb := ltac:(set_field t local v).
Definition set_remote (v : Endpoint) (t : Tcb) : Tcb := ltac:(set_field t remote v).
Definition set_bound (v : bool) (t : Tcb) : Tcb := ltac:(set_field t bound v).
Definition set_iss (v : Z) (t : Tcb) : Tcb := ltac:(set_field t iss v).
Definition set_send_unacknowledged (v : Z) (t : Tcb) : Tcb := ltac:(set_field t send_unacknowledged v).
Definition set_send_next (v : Z) (t : Tcb) : Tcb := ltac:(set_field t send_next v).
Definition set_send_high (v : Z) (t : Tcb) : Tcb := ltac:(set_field t send_high v).
Definition set_send_window (v : Z) (t : Tcb) : Tcb := ltac:(set_field t send_window v).
Definition set_window_sequence (v : Z) (t : Tcb) : Tcb := ltac:(set_field t window_sequence v).
Definition set_window_ack (v : Z) (t : Tcb) : Tcb := ltac:(set_field t window_ack v).
Definition set_irs (v : Z) (t : Tcb) : Tcb := ltac:(set_field t irs v).
Definition set_receive_next (v : Z) (t : Tcb) : Tcb := ltac:(set_field t receive_next v).
Definition set_receive_high (v : Z) (t : Tcb) : Tcb := ltac:(set_field t receive_high v).
Definition set_out_of_order (v : list Held) (t : Tcb) : Tcb := ltac:(set_field t out_of_order v).
Definition set_held (v : Z) (t : Tcb) : Tcb := ltac:(set_field t held v).
Definition set_held_fin (v : option Z) (t : Tcb) : Tcb := ltac:(set_field t held_fin v).
Definition set_reassembly_expire_at (v : Z) (t : Tcb) : Tcb := ltac:(set_field t reassembly_expire_at v).
Definition set_pending (v : list Z) (t : Tcb) : Tcb := ltac:(set_field t pending v).
Definition set_received (v : list Z) (t : Tcb) : Tcb := ltac:(set_field t received v).
Definition set_fin_queued (v : bool) (t : Tcb) : Tcb := ltac:(set_field t fin_queued v).
Definition set_fin_sequence (v : option Z) (t : Tcb) : Tcb := ltac:(set_field t fin_sequence v).
Definition set_fin_acknowledged (v : bool) (t : Tcb) : Tcb := ltac:(set_field t fin_acknowledged v).
Definition set_fin_received (v : bool) (t : Tcb) : Tcb := ltac:(set_field t fin_received v).
Definition set_read_shutdown (v : bool) (t : Tcb) : Tcb := ltac:(set_field t read_shutdown v).
Definition set_abandoned (v : bool) (t : Tcb) : Tcb := ltac:(set_field t abandoned v).
Definition set_error (v : option Errno) (t : Tcb) : Tcb := ltac:(set_field t error v).
Definition set_peer_mss (v : Z) (t : Tcb) : Tcb := ltac:(set_field t peer_mss v).
Definition set_retransmit_at (v : Z) (t : Tcb) : Tcb := ltac:(set_field t retransmit_at v).
Definition set_rto (v : Z) (t : Tcb) : Tcb := ltac:(set_field t rto v).
Definition set_srtt (v : Z) (t : Tcb) : Tcb := ltac:(set_field t srtt v).
Definition set_rttvar (v : Z) (t : Tcb) : Tcb := ltac:(set_field t rttvar v).
Definition set_timed (v : option Z) (t : Tcb) : Tcb := ltac:(set_field t timed v).
Definition set_timed_at (v : Z) (t : Tcb) : Tcb := ltac:(set_field t timed_at v).
Definition set_retries (v : Z) (t : Tcb) : Tcb := ltac:(set_field t retries v).
Definition set_expire_at (v : Z) (t : Tcb) : Tcb := ltac:(set_field t expire_at v).
Definition set_congestion_window (v : Z) (t : Tcb) : Tcb := ltac:(set_field t congestion_window v).
Definition set_slow_start_threshold (v : Z) (t : Tcb) : Tcb := ltac:(set_field t slow_start_threshold v).
Definition set_duplicate_acks (v : Z) (t : Tcb) : Tcb := ltac:(set_field t duplicate_acks v).
Definition set_recover (v : option Z) (t : Tcb) : Tcb := ltac:(set_field t recover v).
Definition set_fast_retransmits (v : Z) (t : Tcb) : Tcb := ltac:(set_field t fast_retransmits v).
Definition set_timeouts (v : Z) (t : Tcb) : Tcb := ltac:(set_field t timeouts v).
Definition set_backlog (v : Z) (t : Tcb) : Tcb := ltac:(set_field t backlog v).
Definition set_children (v : list nat) (t : Tcb) : Tcb := ltac:(set_field t children v).

Definition tcb_new : Tcb :=
  mkTcb Closed unspecified_endpoint unspecified_endpoint false 0 0 0 0 MSS 0 0 0 0 0 [] 0 None 0 [] []
    false None false false false false None MSS 0 INITIAL_RTO 0 0 None 0 0 0 MSS (64 * 1024) 0 None 0 0 1 [].

(** ** The wire below

    [trap::ticks], [time::monotonic_ns], [source_for], [ip::send_from], the
    secret drawn once, and the count [HELD_BYTES] of every connection. *)
Class Wire (N : Type) := {
  ticks : N -> N * Z;
  monotonic_ns : N -> N * Z;
  isn_secret : N -> N * Z;
  source_for : Z -> M N Errno Z;
  send_from : Z -> Z -> Z -> list Z -> M N Errno unit;
  held_bytes : N -> Z;
  set_held_bytes : Z -> N -> N;
}.

(** [sort_unstable_by_key], which promises a sorted list and no order between
    equal keys. *)
Class Sorter := { sort_by_key : (Held -> Z) -> list Held -> list Held }.

(** Additions on atomics wrap. *)
Definition wrap64 (x : Z) : Z := x `mod` (u64_max + 1).

(** splitmix64's finalizer. *)
Definition mix (x : Z) : Z :=
  let x := Z.lxor x (Z.shiftr x 30) in
  let x := wrap64 (x * 0xBF58476D1CE4E5B9) in
  let x := Z.lxor x (Z.shiftr x 27) in
  let x := wrap64 (x * 0x94D049BB133111EB) in
  Z.lxor x (Z.shiftr x 31).

(** [time::ns_to_ticks], with a tick of ten milliseconds. *)
Definition TICK_HZ : Z := 100.
Definition ns_to_ticks {S E} (ns : Z) : M S E Z :=
  let per_tick := 1000000000 / TICK_HZ in
  let! up := u64 (ns + per_tick) in let! up := u64 (up - 1) in
  ret (up / per_tick).

Section tcp.
Context {N : Type} `{!Wire N} `{!Sorter}.

Definition TM : Type -> Type := M (Tcb * N) Errno.

Definition self : TM Tcb := gets fst.
Definition update (f : Tcb -> Tcb) : TM unit := modify (fun w => (f w.1, w.2)).
Definition below {A} (m : M N Errno A) : TM A := zoom snd (fun n w => (w.1, n)) m.

(** A reading of the world below, which may move it on. *)
Definition clock {A} (f : N -> N * A) : TM A := below (state f).

Definition initial_sequence (l r : Endpoint) : TM Z :=
  let! ns := clock monotonic_ns in
  let start := as_u32 (ns / 4000) in
  let addresses := Z.lor (Z.shiftl (address l) 32) (address r) in
  let ports := Z.lor (Z.shiftl (port l) 16) (port r) in
  let! secret := clock isn_secret in
  let hash := mix (Z.lxor (mix (Z.lxor secret addresses)) ports) in
  ret (wrapping_add start (as_u32 hash)).

Definition effective_mss (t : Tcb) : Z := Z.min (peer_mss t) MSS.

Definition source_address (t : Tcb) : TM Z :=
  if Ip.is_unspecified (address (local t)) then below (source_for (address (remote t))) else ret (address (local t)).

(** ** The window offered *)

Definition advertised_window (t : Tcb) : Z :=
  if seq_le (receive_high t) (receive_next t) then 0
  else Z.min (wrapping_sub (receive_high t) (receive_next t)) u16_max.

Definition open_window (advanced : bool) (t : Tcb) : Tcb :=
  let t := if seq_lt (receive_high t) (receive_next t) then set_receive_high (receive_next t) t else t in
  let free := as_u32 (saturating_sub RECEIVE_WINDOW (len (received t))) in
  let wanted := wrapping_add (receive_next t) free in
  let step := Z.min MSS (RECEIVE_WINDOW / 2) in
  if negb (seq_gt wanted (receive_high t)) || (wrapping_sub wanted (receive_high t) <? step) then t
  else if advanced || (advertised_window t <? as_u16 step) then set_receive_high wanted t
  else t.

(** ** Sending *)

Definition send_segment (flags sequence : Z) (payload : list Z) (with_mss : bool) : TM unit :=
  let! t := self in
  let! found := try_ (source_address t) in
  match found with
  | inr _ => ret tt
  | inl from =>
      let source := mkEndpoint from (port (local t)) in
      let! segment := Segment.build source (remote t) sequence (if has flags ACK then receive_next t else 0) flags
                        (advertised_window t) (if with_mss then Some MSS else None) payload in
      let! _ := try_ (below (send_from from (address (remote t)) Ip.PROTO_TCP segment)) in
      ret tt
  end.

Definition acknowledge : TM unit := let! t := self in send_segment ACK (send_next t) [] false.

Definition arm_retransmit : TM unit :=
  let! t := self in
  if retransmit_at t =? 0 then
    let! now := clock ticks in let! at_ := u64 (now + rto t) in update (set_retransmit_at at_)
  else ret tt.

Definition send_syn_ack : TM unit :=
  let! t := self in send_segment (Z.lor SYN ACK) (iss t) [] true ;;; arm_retransmit.

Definition sent_through (sequence : Z) (t : Tcb) : Tcb :=
  let t := set_send_next sequence t in
  if seq_lt (send_high t) sequence then set_send_high sequence t else t.

(** ** The round trip *)

Definition estimated_rto (t : Tcb) : TM Z :=
  let granularity := 1000000 / TICK_HZ in
  let slack := Z.max (Z.min (rttvar t * 4) u32_max) granularity in
  let microseconds := saturating_add32 (srtt t) slack in
  let! ns := u64 (microseconds * 1000) in
  let! n := ns_to_ticks ns in
  ret (Z.min (Z.max n MIN_RTO) MAX_RTO).

Definition measure (microseconds : Z) : TM unit :=
  let sample := Z.max microseconds 1 in
  let! t := self in
  (if srtt t =? 0 then update (fun t => set_rttvar (sample / 2) (set_srtt sample t))
   else
     let difference := Z.abs (srtt t - sample) in
     let! var := u64 (rttvar t * 3 + difference) in
     let! avg := u64 (srtt t * 7 + sample) in
     update (fun t => set_srtt (as_u32 (avg / 8)) (set_rttvar (as_u32 (var / 4)) t))) ;;;
  let! t := self in
  let! n := estimated_rto t in
  update (set_rto n).

Definition time_segment (sequence : Z) : TM unit :=
  let! t := self in
  match timed t with
  | None => let! now := clock monotonic_ns in update (fun t => set_timed_at now (set_timed (Some sequence) t))
  | Some _ => ret tt
  end.

(** ** What is held past a gap *)

Definition account : TM unit :=
  let! t := self in
  let total := foldr (fun run n => len (h_data run) + n) 0 (out_of_order t) in
  modify (fun w => (w.1, set_held_bytes (wrap64 (held_bytes w.2 + (total - held t))) w.2)) ;;;
  update (set_held total).

Definition drop_out_of_order : TM unit :=
  update (fun t => set_reassembly_expire_at 0 (set_held_fin None (set_out_of_order [] t))) ;;; account.

Definition arm_reassembly : TM unit :=
  let! now := clock ticks in let! at_ := u64 (now + REASSEMBLY_TICKS) in update (set_reassembly_expire_at at_).

(** Joining a run to the last of those before it. *)
Definition join_run (joined : list Held) (run : Held) : list Held :=
  match last joined with
  | Some l =>
      if seq_le (h_sequence run) (h_end l) then
        let overlap := wrapping_sub (h_end l) (h_sequence run) in
        if overlap <? len (h_data run)
        then removelast joined ++ [mkHeld (h_sequence l) (h_data l ++ drop (Z.to_nat overlap) (h_data run))]
        else joined
      else joined ++ [run]
  | None => joined ++ [run]
  end.

Definition coalesce (t : Tcb) : Tcb :=
  let runs := sort_by_key (fun run => wrapping_sub (h_sequence run) (receive_next t)) (out_of_order t) in
  set_out_of_order (foldl join_run [] runs) t.

Definition hold (sequence : Z) (payload : list Z) : TM unit :=
  let! t := self in
  let right := wrapping_add (receive_next t) (advertised_window t) in
  if negb (seq_lt sequence right) then ret tt
  else
    let room := wrapping_sub right sequence in
    let payload := take (Z.to_nat (Z.min (len payload) room)) payload in
    if bool_decide (payload = []) then ret tt
    else
      let! total := gets (fun w => held_bytes w.2) in
      let! total := usize (total + len payload) in
      if REASSEMBLY_LIMIT <? total then ret tt
      else
        update (fun t => coalesce (set_out_of_order (out_of_order t ++ [mkHeld sequence payload]) t)) ;;;
        update (fun t => if MAX_HELD_RUNS <? len (out_of_order t) then set_out_of_order (removelast (out_of_order t)) t else t) ;;;
        account ;;;
        arm_reassembly.

(** The loop of [deliver_held]: each turn takes a run away, or stops. *)
Fixpoint deliver_runs (runs : list Held) (t : Tcb) : Tcb :=
  match runs with
  | [] => set_out_of_order [] t
  | run :: rest =>
      if seq_gt (h_sequence run) (receive_next t) then set_out_of_order runs t
      else
        let skip := wrapping_sub (receive_next t) (h_sequence run) in
        if len (h_data run) <=? skip then deliver_runs rest t
        else
          let free := saturating_sub RECEIVE_WINDOW (len (received t)) in
          let n := Z.min (len (h_data run) - skip) free in
          let t := set_received (received t ++ take (Z.to_nat n) (drop (Z.to_nat skip) (h_data run))) t in
          let t := set_receive_next (wrapping_add (receive_next t) (as_u32 n)) t in
          if skip + n <? len (h_data run)
          then set_out_of_order (mkHeld (receive_next t) (drop (Z.to_nat (skip + n)) (h_data run)) :: rest) t
          else deliver_runs rest t
  end.

Definition deliver_held : TM unit :=
  update (fun t => deliver_runs (out_of_order t) t) ;;;
  account ;;;
  let! t := self in
  if bool_decide (out_of_order t = []) && bool_decide (held_fin t = None) then update (set_reassembly_expire_at 0)
  else arm_reassembly.

(** ** Closing *)

Definition enter_time_wait : TM unit :=
  update (set_state TimeWait) ;;;
  drop_out_of_order ;;;
  let! now := clock ticks in
  let! at_ := u64 (now + TIME_WAIT_TICKS) in
  update (fun t => set_read_shutdown true (set_pending [] (set_retransmit_at 0 (set_expire_at at_ t)))) ;;;
  update (fun t => if abandoned t then set_received [] t else t).

Definition enter_fin_wait_2 : TM unit :=
  update (set_state FinWait2) ;;;
  let! t := self in
  if abandoned t then let! now := clock ticks in let! at_ := u64 (now + FIN_WAIT_2_TICKS) in update (set_expire_at at_)
  else ret tt.

Definition abandon : TM unit :=
  update (set_abandoned true) ;;;
  drop_out_of_order ;;;
  let! t := self in
  if bool_decide (tstate t = FinWait2) && (expire_at t =? 0)
  then let! now := clock ticks in let! at_ := u64 (now + FIN_WAIT_2_TICKS) in update (set_expire_at at_)
  else ret tt.

Definition can_receive (t : Tcb) : bool :=
  negb (read_shutdown t) && negb (abandoned t)
  && match tstate t with Established | FinWait1 | FinWait2 => true | _ => false end.

Definition take_fin : TM bool :=
  update (set_held_fin None) ;;;
  update (fun t => if bool_decide (out_of_order t = []) then set_reassembly_expire_at 0 t else t) ;;;
  let! t := self in
  if fin_received t then ret false
  else
    update (fun t => set_receive_next (wrapping_add (receive_next t) 1) (set_fin_received true t)) ;;;
    match tstate t with
    | Established => update (set_state CloseWait)
    | FinWait1 => update (set_state Closing)
    | FinWait2 => enter_time_wait
    | _ => ret tt
    end ;;;
    ret true.

(** Tear the connection down now. *)
Definition abort : TM unit :=
  let! t := self in
  (if is_synchronised (tstate t) || bool_decide (tstate t = SynReceived)
   then send_segment (Z.lor RST ACK) (send_next t) [] false else ret tt) ;;;
  update (fun t => set_fin_queued false (set_pending [] (set_retransmit_at 0 (set_state Closed t)))) ;;;
  drop_out_of_order.

(** ** Output *)

(** A turn of the loop sends at least one byte of what is pending, or is the
    last. *)
Definition output_turn (limit : Z) (_ : unit) : TM (unit + unit) :=
  let! t := self in
  let offset := wrapping_sub (send_next t) (send_unacknowledged t) in
  let available := saturating_sub (len (pending t)) offset in
  if 0 <? available then
    if negb (seq_lt (send_next t) limit) then ret (inr tt)
    else
      let room := wrapping_sub limit (send_next t) in
      let n := Z.min (Z.min available (effective_mss t)) room in
      if n =? 0 then ret (inr tt)
      else
        let chunk := take (Z.to_nat n) (drop (Z.to_nat offset) (pending t)) in
        let sequence := send_next t in
        let last := offset + n =? len (pending t) in
        let flags := Z.lor ACK (if last then PSH else 0) in
        let end_ := wrapping_add sequence (as_u32 n) in
        let first_time := seq_lt (send_high t) end_ in
        send_segment flags sequence chunk false ;;;
        update (sent_through end_) ;;;
        (if first_time then time_segment end_ else ret tt) ;;;
        arm_retransmit ;;;
        ret (inl tt)
  else if fin_queued t && bool_decide (fin_sequence t = None) then
    let sequence := send_next t in
    send_segment (Z.lor FIN ACK) sequence [] false ;;;
    update (fun t => sent_through (wrapping_add sequence 1) (set_fin_sequence (Some sequence) t)) ;;;
    arm_retransmit ;;;
    ret (inr tt)
  else ret (inr tt).

Definition output : TM unit :=
  let! t := self in
  if negb (can_output (tstate t)) then ret tt
  else
    let usable := Z.min (send_window t) (congestion_window t) in
    let limit := wrapping_add (send_unacknowledged t) usable in
    loop (S (length (pending t))) (output_turn limit) tt.

Definition retransmit_head : TM unit :=
  let! t := self in
  let n := Z.min (len (pending t)) (effective_mss t) in
  let restart :=
    update (set_timed None) ;;;
    let! now := clock ticks in
    let! at_ := u64 (now + rto t) in
    update (set_retransmit_at at_) in
  if n =? 0 then
    match fin_sequence t with
    | Some sequence => if fin_acknowledged t then ret tt else send_segment (Z.lor FIN ACK) sequence [] false ;;; restart
    | None => ret tt
    end
  else
    let chunk := take (Z.to_nat n) (pending t) in
    let flags := Z.lor ACK (if n =? len (pending t) then PSH else 0) in
    send_segment flags (send_unacknowledged t) chunk false ;;;
    restart.

Definition count_fast_retransmit : TM unit :=
  let! t := self in let! n := u32 (fast_retransmits t + 1) in update (set_fast_retransmits n).

Definition enter_recovery : TM unit :=
  update (fun t =>
    let flight := wrapping_sub (send_high t) (send_unacknowledged t) in
    set_recover (Some (send_high t)) (set_slow_start_threshold (Z.max (flight / 2) (2 * MSS)) t)) ;;;
  count_fast_retransmit ;;;
  retransmit_head ;;;
  update (fun t => set_congestion_window (saturating_add32 (slow_start_threshold t) (DUPLICATE_ACK_THRESHOLD * MSS)) t).

(** ** Opening *)

Definition open : TM unit :=
  update (fun t => set_receive_high (wrapping_add (receive_next t) RECEIVE_WINDOW) t) ;;;
  let! t := self in
  let! i := initial_sequence (local t) (remote t) in
  update (fun t => set_retries 0 (set_rto INITIAL_RTO (set_congestion_window MSS (set_state SynSent
    (set_send_high i (set_send_next i (set_send_unacknowledged i (set_iss i t)))))))) ;;;
  send_segment SYN i [] true ;;;
  update (sent_through (wrapping_add i 1)) ;;;
  time_segment (wrapping_add i 1) ;;;
  arm_retransmit.

(** What a segment with SYN says of the other end. *)
Definition take_syn (g : Segment) (t : Tcb) : Tcb :=
  let t := set_receive_next (wrapping_add (sequence g) 1) (set_irs (sequence g) t) in
  let t := set_receive_high (wrapping_add (receive_next t) RECEIVE_WINDOW) t in
  let t := match mss g with Some m => set_peer_mss (Z.min (Z.max m MIN_MSS) MSS) t | None => t end in
  set_window_sequence (sequence g) (set_send_window (window g) t).

Definition accept_open (g : Segment) : TM unit :=
  update (take_syn g) ;;;
  let! t := self in
  let! i := initial_sequence (local t) (remote t) in
  update (fun t => sent_through (wrapping_add i 1) (set_send_high i (set_send_unacknowledged i (set_iss i t)))) ;;;
  time_segment (wrapping_add i 1) ;;;
  update (fun t => set_rto INITIAL_RTO (set_congestion_window MSS (set_state SynReceived (set_window_ack i t)))).

(** ** What a program does *)

Definition write (buf : list Z) : TM Z :=
  let! t := self in
  match tstate t with
  | Established | CloseWait =>
      if fin_queued t then throw EPIPE
      else
        let room := saturating_sub SEND_BUFFER (len (pending t)) in
        if room =? 0 then throw EAGAIN
        else
          let n := Z.min room (len buf) in
          update (fun t => set_pending (pending t ++ take (Z.to_nat n) buf) t) ;;;
          output ;;;
          ret n
  | SynSent | SynReceived => throw EAGAIN
  | Closed => update (set_error None) ;;; throw (default ENOTCONN (error t))
  | Listen => throw ENOTCONN
  | _ => throw EPIPE
  end.

(** The bytes copied into a buffer of [room] bytes. *)
Definition read (room : Z) (peek : bool) : TM (list Z) :=
  let! t := self in
  if negb (bool_decide (received t = [])) then
    let n := Z.min room (len (received t)) in
    let data := take (Z.to_nat n) (received t) in
    (if peek then ret tt
     else
       update (fun t => set_received (drop (Z.to_nat n) (received t)) t) ;;;
       let! t := self in
       let offered_before := advertised_window t in
       update (open_window false) ;;;
       let! t := self in
       if (offered_before <? advertised_window t) && is_synchronised (tstate t) then acknowledge else ret tt) ;;;
    ret data
  else if room =? 0 then ret []
  else if fin_received t || read_shutdown t then ret []
  else
    match tstate t with
    | Closed => update (set_error None) ;;; match error t with Some e => throw e | None => ret [] end
    | Listen => throw ENOTCONN
    | _ => throw EAGAIN
    end.

Definition shutdown_write : TM unit :=
  let! t := self in
  if fin_queued t then ret tt
  else
    match tstate t with
    | Established | SynReceived => update (fun t => set_state FinWait1 (set_fin_queued true t)) ;;; output
    | CloseWait => update (fun t => set_state LastAck (set_fin_queued true t)) ;;; output
    | SynSent | Listen | Closed => update (fun t => set_retransmit_at 0 (set_state Closed t))
    | _ => ret tt
    end.
End tcp.
