(* ===== verification/TcpInput.v ===== *)
(** * TCP: what arrives, and the clock

    [on_segment], [on_syn_sent] and [on_timer] of [kernel/src/net/tcp.rs], with
    the parts of [on_segment] in the order of the code. *)

From S2P Require Import Prelude Words Packets Tcp.
Import Segment.

Section input.
Context {N : Type} `{!Wire N} `{!Sorter}.

(** RFC 793's first test: does the segment fall in the window? *)
Definition acceptable (g : Segment) : TM (N := N) bool :=
  let! t := self in
  let window := advertised_window t in
  let! length := seq_length g in
  let first := sequence g in
  let next := receive_next t in
  let right := wrapping_add next window in
  if length =? 0 then
    if window =? 0 then ret (first =? next)
    else ret (seq_le next first && seq_lt first right)
  else if window =? 0 then ret false
  else
    let last := wrapping_add first (length - 1) in
    ret ((seq_le next first && seq_lt first right) || (seq_le next last && seq_lt last right)).

Definition on_unacceptable (g : Segment) : TM (N := N) bool :=
  let! t := self in
  if has (flags g) RST then ret false
  else if bool_decide (tstate t = SynReceived) && has (flags g) SYN && negb (has (flags g) ACK) && (sequence g =? irs t)
  then update (set_timed None) ;;; send_syn_ack ;;; ret false
  else acknowledge ;;; ret false.

Definition on_reset (g : Segment) : TM (N := N) bool :=
  let! t := self in
  if negb (sequence g =? receive_next t) then acknowledge ;;; ret false
  else
    update (fun t => set_pending [] (set_retransmit_at 0 (set_state Closed t))) ;;;
    drop_out_of_order ;;;
    update (fun t => match error t with None => set_error (Some ECONNRESET) t | Some _ => t end) ;;;
    ret true.

(** RFC 5681's duplicate acknowledgement. *)
Definition is_duplicate (g : Segment) (t : Tcb) : bool :=
  bool_decide (payload g = []) && (Z.land (flags g) (Z.lor SYN FIN) =? 0)
  && (acknowledgement g =? send_unacknowledged t) && seq_lt (send_unacknowledged t) (send_high t)
  && (window g =? send_window t).

(** The number of bytes acknowledged, and the finish if it is. *)
Definition acked_bytes (ack : Z) (t : Tcb) : Z * bool :=
  let acked := wrapping_sub ack (send_unacknowledged t) in
  match fin_sequence t with
  | Some fin => if seq_lt fin ack && negb (fin_acknowledged t) then (saturating_sub acked 1, true) else (acked, fin_acknowledged t)
  | None => (acked, fin_acknowledged t)
  end.

(** The congestion window after an acknowledgement of [acked] bytes. *)
Definition respond (ack acked : Z) : TM (N := N) unit :=
  let! t := self in
  match recover t with
  | Some recover =>
      if seq_lt ack recover then
        update (fun t => set_congestion_window
          (Z.max (saturating_add32 (saturating_sub (congestion_window t) (as_u32 acked)) MSS) MSS) t) ;;;
        count_fast_retransmit ;;;
        retransmit_head
      else update (fun t => set_congestion_window (slow_start_threshold t) (set_recover None t))
  | None =>
      if congestion_window t <? slow_start_threshold t
      then update (fun t => set_congestion_window (saturating_add32 (congestion_window t) MSS) t)
      else
        let increment := as_u32 (MSS * MSS) / Z.max (congestion_window t) 1 in
        update (fun t => set_congestion_window (saturating_add32 (congestion_window t) (Z.max increment 1)) t)
  end.

(** The sample of the segment being timed, if this acknowledges it. *)
Definition take_sample (ack : Z) : TM (N := N) unit :=
  let! t := self in
  match timed t with
  | Some end_ =>
      if seq_le end_ ack then
        let! now := clock monotonic_ns in
        let elapsed := saturating_sub now (timed_at t) in
        update (set_timed None) ;;;
        measure (Z.min (elapsed / 1000) u32_max)
      else ret tt
  | None => ret tt
  end.

(** An acknowledgement of something that was outstanding. *)
Definition on_ack (ack : Z) : TM (N := N) bool :=
  let! t := self in
  if negb (seq_gt ack (send_unacknowledged t) && seq_le ack (send_high t)) then ret false
  else
    let (acked, fin) := acked_bytes ack t in
    let drop_count := Z.min acked (len (pending t)) in
    update (fun t => set_send_unacknowledged ack (set_pending (drop (Z.to_nat drop_count) (pending t)) (set_fin_acknowledged fin t))) ;;;
    take_sample ack ;;;
    update (fun t => if seq_lt (send_next t) (send_unacknowledged t) then set_send_next (send_unacknowledged t) t else t) ;;;
    update (fun t => set_duplicate_acks 0 (set_retries 0 t)) ;;;
    let! t := self in
    (if send_unacknowledged t =? send_next t then update (set_retransmit_at 0)
     else let! now := clock ticks in let! at_ := u64 (now + rto t) in update (set_retransmit_at at_)) ;;;
    respond ack acked ;;;
    ret true.

Definition on_duplicate : TM (N := N) unit :=
  let! t := self in
  let! n := u32 (duplicate_acks t + 1) in
  update (set_duplicate_acks n) ;;;
  if (n =? DUPLICATE_ACK_THRESHOLD) && bool_decide (recover t = None) then enter_recovery
  else if DUPLICATE_ACK_THRESHOLD <? n then update (fun t => set_congestion_window (saturating_add32 (congestion_window t) MSS) t)
  else ret tt.

Definition take_window (g : Segment) (t : Tcb) : Tcb :=
  if seq_lt (window_sequence t) (sequence g)
     || ((window_sequence t =? sequence g) && seq_le (window_ack t) (acknowledgement g))
  then set_window_ack (acknowledgement g) (set_window_sequence (sequence g) (set_send_window (window g) t))
  else t.

(** Our own finish, acknowledged. *)
Definition move_close : TM (N := N) bool :=
  let! t := self in
  if fin_acknowledged t then
    match tstate t with
    | FinWait1 => enter_fin_wait_2 ;;; ret false
    | Closing => enter_time_wait ;;; ret true
    | LastAck => update (fun t => set_retransmit_at 0 (set_state Closed t)) ;;; ret true
    | _ => ret false
    end
  else ret false.

(** What is new in a segment: where it starts, and its bytes. *)
Definition trim (g : Segment) (t : Tcb) : Z * list Z :=
  if seq_lt (sequence g) (receive_next t) then
    let skip := wrapping_sub (receive_next t) (sequence g) in
    (receive_next t, if len (payload g) <=? skip then [] else drop (Z.to_nat skip) (payload g))
  else (sequence g, payload g).

Definition take_data (start : Z) (data : list Z) : TM (N := N) bool :=
  let! t := self in
  if bool_decide (data = []) then ret false
  else if negb (can_receive t) then
    update (fun t => if start =? receive_next t then set_receive_next (wrapping_add (receive_next t) (as_u32 (len data))) t else t) ;;;
    ret false
  else if start =? receive_next t then
    let free := saturating_sub RECEIVE_WINDOW (len (received t)) in
    let n := Z.min (len data) free in
    update (fun t => set_receive_next (wrapping_add (receive_next t) (as_u32 n)) (set_received (received t ++ take (Z.to_nat n) data) t)) ;;;
    deliver_held ;;;
    ret true
  else hold start data ;;; ret false.

(** The other end's finish, noted where it stands. *)
Definition note_fin (finish : Z) : TM (N := N) unit :=
  let! t := self in
  if finish =? receive_next t then update (set_held_fin (Some finish))
  else if seq_gt finish (receive_next t) && can_receive t then update (set_held_fin (Some finish)) ;;; arm_reassembly
  else ret tt.

(** The second half of [on_segment], once the acknowledgement has been dealt
    with. [before] is the byte that was wanted when the segment came. *)
Definition on_data (g : Segment) (before : Z) : TM (N := N) bool :=
  let! t := self in
  let (start, data) := trim g t in
  let full := negb (bool_decide (payload g = [])) in
  let! woke := (if full then take_data start data else ret false) in
  (if has (flags g) FIN then note_fin (wrapping_add start (as_u32 (len data))) else ret tt) ;;;
  let! t := self in
  let! finished := (if bool_decide (held_fin t = Some (receive_next t)) then take_fin else ret false) in
  let need_ack := full || has (flags g) FIN in
  let! t := self in
  (if need_ack && negb (bool_decide (tstate t = Closed)) then
     update (open_window (negb (receive_next t =? before))) ;;; acknowledge
   else ret tt) ;;;
  output ;;;
  ret (woke || finished).

Definition on_syn_sent (g : Segment) : TM (N := N) bool :=
  let! t := self in
  if has (flags g) ACK && negb (seq_lt (iss t) (acknowledgement g) && seq_le (acknowledgement g) (send_next t)) then
    (if has (flags g) RST then ret tt else send_segment RST (acknowledgement g) [] false) ;;; ret false
  else if has (flags g) RST then
    update (fun t => set_error (Some ECONNREFUSED) (set_retransmit_at 0 (set_state Closed t))) ;;; ret true
  else if negb (has (flags g) SYN) then ret false
  else
    update (take_syn g) ;;;
    if has (flags g) ACK then
      update (fun t => set_retries 0 (set_retransmit_at 0 (set_state Established
        (set_window_ack (acknowledgement g) (set_send_unacknowledged (acknowledgement g) t))))) ;;;
      acknowledge ;;;
      output ;;;
      ret true
    else update (set_state SynReceived) ;;; send_syn_ack ;;; ret false.

(** The handshake's last acknowledgement: whether to go on, and whether a
    waiter should look. *)
Definition on_handshake (g : Segment) : TM (N := N) (bool * bool) :=
  let! t := self in
  if bool_decide (tstate t = SynReceived) then
    if seq_lt (send_unacknowledged t) (acknowledgement g) && seq_le (acknowledgement g) (send_high t) then
      update (fun t => set_retries 0 (set_retransmit_at 0 (set_state Established t))) ;;; ret (true, true)
    else send_segment RST (acknowledgement g) [] false ;;; ret (false, false)
  else ret (true, false).

Definition on_open_segment (g : Segment) : TM (N := N) bool :=
  let! ok := acceptable g in
  if negb ok then on_unacceptable g
  else if has (flags g) RST then on_reset g
  else if has (flags g) SYN then acknowledge ;;; ret false
  else if negb (has (flags g) ACK) then ret false
  else
    let! t := self in
    let before := receive_next t in
    let duplicate := is_duplicate g t in
    let! '(go_on, opened) := on_handshake g in
    if negb go_on then ret false
    else
      let! acked := on_ack (acknowledgement g) in
      (if duplicate then on_duplicate else ret tt) ;;;
      update (take_window g) ;;;
      let! closed := move_close in
      let! taken := on_data g before in
      ret (opened || acked || closed || taken).

(** True when something a waiter cares about changed. *)
Definition on_segment (g : Segment) : TM (N := N) bool :=
  let! t := self in
  match tstate t with
  | SynSent => on_syn_sent g
  | Closed | Listen => ret false
  | _ => on_open_segment g
  end.

(** ** Timers *)

Definition next_deadline (t : Tcb) : Z :=
  let earliest := if expire_at t =? 0 then u64_max else expire_at t in
  let earliest := if retransmit_at t =? 0 then earliest else Z.min earliest (retransmit_at t) in
  if reassembly_expire_at t =? 0 then earliest else Z.min earliest (reassembly_expire_at t).

(** What goes out again when the clock has run out. *)
Definition send_again : TM (N := N) unit :=
  let! t := self in
  match tstate t with
  | SynSent => send_segment SYN (iss t) [] true
  | SynReceived => send_segment (Z.lor SYN ACK) (iss t) [] true
  | _ =>
      update (fun t => set_fin_sequence None (set_send_next (send_unacknowledged t) t)) ;;;
      let! t := self in
      match pending t with
      | byte :: _ =>
          if send_window t =? 0 then
            send_segment ACK (send_next t) [byte] false ;;;
            update (sent_through (wrapping_add (send_next t) 1))
          else output
      | [] => output
      end
  end.

Definition on_timeout (now : Z) : TM (N := N) bool :=
  let! t := self in
  let! n := u32 (retries t + 1) in
  update (set_retries n) ;;;
  let limit := match tstate t with SynSent | SynReceived => SYN_RETRIES | _ => MAX_RETRIES end in
  if limit <? n then
    abort ;;; update (set_error (Some ETIMEDOUT)) ;;; ret true
  else
    let! doubled := u64 (rto t * 2) in
    let wait := Z.min doubled MAX_RTO in
    let! at_ := u64 (now + wait) in
    let flight := wrapping_sub (send_high t) (send_unacknowledged t) in
    let! count := u32 (timeouts t + 1) in
    update (fun t => set_timeouts count (set_duplicate_acks 0 (set_recover None (set_congestion_window MSS
      (set_slow_start_threshold (Z.max (flight / 2) (2 * MSS)) (set_retransmit_at at_ (set_timed None (set_rto wait t)))))))) ;;;
    send_again ;;;
    ret false.

Definition on_timer (now : Z) : TM (N := N) bool :=
  let! t := self in
  (if negb (reassembly_expire_at t =? 0) && (reassembly_expire_at t <=? now) then drop_out_of_order else ret tt) ;;;
  let! t := self in
  if negb (expire_at t =? 0) then
    if expire_at t <=? now then
      update (fun t => set_pending [] (set_retransmit_at 0 (set_expire_at 0 (set_state Closed t)))) ;;; ret true
    else ret false
  else if (retransmit_at t =? 0) || (now <? retransmit_at t) then ret false
  else on_timeout now.
End input.
