(* ===== verification/TcpRuns.v ===== *)
(** * TCP: what sending does not touch

    The receiving half of a connection, as a view: what is read, held and
    expected. Nothing on the sending side changes it. *)

From S2P Require Import Prelude Safe Words Packets Tcp TcpInput.

Section pure.
Context {S E V : Type} (view : S -> V).

Lemma keeps_sum bytes : forall total, keeps (E := E) view (Ip.sum bytes total).
Proof. revert bytes. fix IH 1. intros [|a [|b rest]] total; [apply keeps_ret|apply keeps_checked|].
  apply keeps_bind; [apply keeps_checked|]. intros total'. apply IH.
Qed.

Lemma keeps_fold total : keeps (E := E) view (Ip.fold total).
Proof. unfold Ip.fold. keep_steps. Qed.

Lemma keeps_build source destination sequence acknowledgement flags window mss payload :
  keeps (E := E) view (Segment.build source destination sequence acknowledgement flags window mss payload).
Proof. unfold Segment.build, Ip.pseudo_sum. keep_steps; [apply keeps_sum|apply keeps_fold]. Qed.

Lemma keeps_seq_length g : keeps (E := E) view (Segment.seq_length g).
Proof. unfold Segment.seq_length. keep_steps. Qed.
End pure.
#[export] Hint Resolve keeps_build keeps_seq_length : keeps.

Lemma quiet_build {S E} source destination sequence acknowledgement flags window mss payload :
  quiet (S := S) (E := E) (Segment.build source destination sequence acknowledgement flags window mss payload).
Proof.
  assert (Hsum : forall bytes total, quiet (S := S) (E := E) (Ip.sum bytes total)).
  { fix IH 1. intros [|a [|b rest]] total; [apply quiet_ret|apply quiet_checked|]. apply quiet_bind; [apply quiet_checked|]. intros total'. apply IH. }
  unfold Segment.build, Ip.pseudo_sum, Ip.fold. quiet_steps. apply Hsum.
Qed.

Section keeps.
Context {N : Type} {HW : Wire N} {HS : Sorter}.
Implicit Types (w : Tcb * N) (t : Tcb).

Lemma keeps_update {V} (view : Tcb * N -> V) f : (forall t n, view (f t, n) = view (t, n)) -> keeps view (update f).
Proof. intros H. apply keeps_modify. intros [t n]. apply H. Qed.

(** ** The receiving half *)

Definition rx w :=
  let t := w.1 in
  (irs t, receive_next t, out_of_order t, held_fin t, received t, fin_received t, read_shutdown t, abandoned t, tstate t).

Lemma quiet_send_segment flags sequence payload with_mss : quiet (send_segment (N := N) flags sequence payload with_mss).
Proof.
  unfold send_segment, self. quiet_steps. apply quiet_build.
Qed.

Lemma quiet_acknowledge : quiet (acknowledge (N := N)).
Proof. apply quiet_bind; [apply quiet_gets|]. intros t. apply quiet_send_segment. Qed.

Ltac rx_step := first [keep_step | match goal with |- keeps _ (update _) => apply keeps_update; intros ? ?; try reflexivity end].
Ltac rx_steps := repeat rx_step.

Lemma keeps_send_segment flags sequence payload with_mss : keeps rx (send_segment flags sequence payload with_mss).
Proof. unfold send_segment, source_address, self, clock, below. rx_steps. Qed.
#[local] Hint Resolve keeps_send_segment : keeps.

Lemma keeps_acknowledge : keeps rx acknowledge.
Proof. unfold acknowledge, self. rx_steps. Qed.

Lemma keeps_arm_retransmit : keeps rx arm_retransmit.
Proof. unfold arm_retransmit, self, clock, below. rx_steps. Qed.

Lemma keeps_arm_reassembly : keeps rx arm_reassembly.
Proof. unfold arm_reassembly, clock, below. rx_steps. Qed.

Lemma keeps_time_segment sequence : keeps rx (time_segment sequence).
Proof. unfold time_segment, self, clock, below. rx_steps. Qed.

Lemma keeps_measure us : keeps rx (measure us).
Proof. unfold measure, estimated_rto, ns_to_ticks, self. rx_steps. Qed.

Lemma keeps_account : keeps rx account.
Proof. unfold account, self. rx_steps. Qed.
#[local] Hint Resolve keeps_acknowledge keeps_arm_retransmit keeps_arm_reassembly keeps_time_segment keeps_measure keeps_account : keeps.

Lemma keeps_send_syn_ack : keeps rx send_syn_ack.
Proof. unfold send_syn_ack, self. rx_steps. Qed.

Lemma rx_sent_through sequence t n : rx (sent_through sequence t, n) = rx (t, n).
Proof. unfold sent_through. by destruct (seq_lt _ _). Qed.

Lemma keeps_output : keeps rx output.
Proof. unfold output, output_turn, self. rx_steps. all: by rewrite rx_sent_through. Qed.

Lemma keeps_retransmit_head : keeps rx retransmit_head.
Proof. unfold retransmit_head, self, clock, below. rx_steps. Qed.
#[local] Hint Resolve keeps_send_syn_ack keeps_output keeps_retransmit_head : keeps.

Lemma keeps_enter_recovery : keeps rx enter_recovery.
Proof. unfold enter_recovery, count_fast_retransmit, self. rx_steps. Qed.
#[local] Hint Resolve keeps_enter_recovery : keeps.

Lemma keeps_on_ack ack : keeps rx (on_ack ack).
Proof.
  unfold on_ack, take_sample, respond, count_fast_retransmit, self, clock, below. rx_steps. by destruct (seq_lt _ _).
Qed.

Lemma keeps_on_duplicate : keeps rx on_duplicate.
Proof. unfold on_duplicate, self. rx_steps. Qed.

Lemma keeps_take_window g : keeps rx (update (take_window g)).
Proof. apply keeps_update. intros t n. unfold take_window. by destruct (_ || _). Qed.

Lemma keeps_open_window b : keeps rx (update (open_window b)).
Proof.
  apply keeps_update. intros t n. unfold open_window.
  destruct (seq_lt _ _); destruct (negb _ || _); try done; by destruct (b || _).
Qed.

Lemma keeps_acceptable g : keeps rx (acceptable g).
Proof. unfold acceptable, self. rx_steps. Qed.

Lemma keeps_on_unacceptable g : keeps rx (on_unacceptable g).
Proof. unfold on_unacceptable, self. rx_steps. Qed.

Lemma keeps_write buf : keeps rx (write buf).
Proof. unfold write, self. rx_steps. Qed.

Lemma keeps_send_again : keeps rx send_again.
Proof. unfold send_again, self. rx_steps. all: by rewrite rx_sent_through. Qed.
End keeps.
#[export] Hint Resolve keeps_write keeps_send_again keeps_send_segment keeps_acknowledge keeps_arm_retransmit keeps_arm_reassembly keeps_time_segment keeps_account
  keeps_send_syn_ack keeps_output keeps_on_ack keeps_on_duplicate keeps_take_window keeps_open_window keeps_acceptable keeps_on_unacceptable : keeps.

(** * TCP: putting the stream back in order

    The other end's stream is a list of bytes; the byte at position [p] has the
    sequence number [seqno p]. A run held past a gap stands at a position, and
    holds what the stream holds there. Joining runs and delivering them keeps to
    the stream, whatever order the runs came in. *)

(** What is relied on of [sort_unstable_by_key]. *)
Class SorterOk `{Sorter} : Prop := {
  sort_perm key l : sort_by_key key l ≡ₚ l;
  sort_sorted key l : StronglySorted (fun a b => key a <= key b) (sort_by_key key l);
}.

Section stream.
Context (stream : list Z) (o : Z).

(** [o] is the number of the first byte. *)
Definition seqno (p : Z) : Z := as_u32 (o + p).

(** [data] is what the stream holds from [p]; what lies before its start is not
    looked at. *)
Definition carried (p : Z) (data : list Z) : Prop :=
  forall i b, data !! i = Some b -> 0 <= p + Z.of_nat i -> stream !! Z.to_nat (p + Z.of_nat i) = Some b.

Definition held_at (p : Z) (h : Held) : Prop :=
  h_sequence h = seqno p /\ carried p (h_data h).

(** Runs one after the other, from [lo] on; the last ends at [e]. *)
Inductive runs_at (lo : Z) : list Held -> Z -> Prop :=
| runs_nil : runs_at lo [] lo
| runs_snoc l e h p :
    runs_at lo l e -> e <= p -> held_at p h -> runs_at lo (l ++ [h]) (p + len (h_data h)).

Lemma runs_le lo l e : runs_at lo l e -> lo <= e.
Proof. induction 1; lia. Qed.

Lemma runs_nil_inv lo e : runs_at lo [] e -> e = lo.
Proof. inversion 1 as [|l ? h p ? ? ? E]; [done|]. by destruct l. Qed.

Lemma runs_cons lo h p l e : lo <= p -> held_at p h -> runs_at (p + len (h_data h)) l e -> runs_at lo (h :: l) e.
Proof.
  intros Hlo Hh Hl. induction Hl as [|l e h' p' _ IH Hp Hh']; [apply (runs_snoc lo [] lo); [constructor|done|done]|].
  apply (runs_snoc lo (h :: l) e); done.
Qed.

Lemma runs_uncons lo h l e : runs_at lo (h :: l) e -> exists p, lo <= p /\ held_at p h /\ runs_at (p + len (h_data h)) l e.
Proof.
  intros H. remember (h :: l) as hl eqn:E. revert h l E. induction H as [|l' e h' p' Hl IH Hp Hh']; intros h l E; [done|].
  destruct l' as [|h0 l0].
  - apply runs_nil_inv in Hl as ->. injection E as -> <-. exists p'. split_and!; [done|done|constructor].
  - cbn [app] in E. injection E as -> <-. destruct (IH h l0 eq_refl) as (p & H1 & H2 & H3). exists p. split_and!; [done|done|by econstructor].
Qed.

Lemma runs_removelast lo l e : runs_at lo l e -> exists e', runs_at lo (removelast l) e' /\ e' <= e.
Proof. intros H. destruct H as [|l e h p]; [exists lo; split; [constructor|lia]|]. rewrite removelast_last. exists e. split; [done|lia]. Qed.

Lemma runs_weaken lo lo' l e : lo' <= lo -> runs_at lo l e -> exists e', runs_at lo' l e' /\ e' <= e.
Proof.
  intros H. destruct l as [|h l].
  - intros Hr%runs_le. exists lo'. split; [constructor|lia].
  - intros (p & H1 & H2 & H3)%runs_uncons. exists e. split; [|lia]. apply (runs_cons lo' h p); [lia|done|done].
Qed.

(** Every run stands somewhere from [lo] on. *)
Lemma runs_each lo l e : runs_at lo l e -> Forall (fun h => exists p, lo <= p /\ held_at p h /\ p + len (h_data h) <= e) l.
Proof.
  induction 1 as [|l e h p Hl IH Hp Hh]; [constructor|]. pose proof (runs_le _ _ _ Hl). apply Forall_app. split.
  - eapply Forall_impl; [exact IH|]. intros h' (p' & ? & ? & ?). exists p'. split_and!; [done|done|lia].
  - apply Forall_cons. split; [|constructor]. exists p. split_and!; [lia|done|lia].
Qed.

Lemma carried_nil p : carried p [].
Proof. intros i b. by rewrite lookup_nil. Qed.

Lemma carried_drop p n data : carried p data -> carried (p + Z.of_nat n) (drop n data).
Proof.
  intros H i b Hb H0. rewrite lookup_drop in Hb. specialize (H _ _ Hb). rewrite <- H by lia. f_equal. lia.
Qed.

Lemma carried_take p n data : carried p data -> carried p (take n data).
Proof. intros H i b [Hb _]%lookup_take_Some. by apply H. Qed.

Lemma carried_app p d1 d2 : carried p d1 -> carried (p + len d1) d2 -> carried p (d1 ++ d2).
Proof.
  intros H1 H2 i b Hb H0. apply lookup_app_Some in Hb as [Hb|[Hl Hb]]; [by apply H1|].
  specialize (H2 _ _ Hb). rewrite <- H2 by lia. f_equal. lia.
Qed.

(** What follows on from the first [n] bytes makes the first [n + k]. *)
Lemma carried_extend n data k :
  0 <= n -> carried n data -> (k <= length data)%nat -> n <= len stream ->
  take (Z.to_nat n) stream ++ take k data = take (Z.to_nat (n + Z.of_nat k)) stream /\ n + Z.of_nat k <= len stream.
Proof.
  intros Hn Hc Hk Hs.
  assert (Hin : forall i, (i < k)%nat -> stream !! (Z.to_nat n + i)%nat = data !! i).
  { intros i Hi. destruct (lookup_lt_is_Some_2 data i ltac:(lia)) as [b Hb]. rewrite Hb, <- (Hc i b Hb ltac:(lia)). f_equal. lia. }
  split.
  - rewrite Z2Nat.inj_add, Nat2Z.id by lia. rewrite <- take_take_drop. f_equal. apply list_eq. intros i.
    destruct (decide (i < k)%nat) as [Hi|Hi].
    + rewrite !lookup_take_lt by done. rewrite lookup_drop. by rewrite Hin.
    + by rewrite !lookup_take_ge by lia.
  - destruct (decide (k = 0%nat)); [lia|]. specialize (Hin (k - 1)%nat ltac:(lia)).
    destruct (lookup_lt_is_Some_2 data (k - 1) ltac:(lia)) as [b Hb]. rewrite Hb in Hin. apply lookup_lt_Some in Hin. lia.
Qed.

(** ** Numbers of positions *)

Lemma seqno_add p n : wrapping_add (seqno p) n = seqno (p + n).
Proof. unfold seqno. rewrite wrapping_add_pos. f_equal. lia. Qed.

Lemma seqno_sub p q : wrapping_sub (seqno p) (seqno q) = as_u32 (p - q).
Proof. unfold seqno. rewrite wrapping_sub_pos. f_equal. lia. Qed.

Lemma seqno_lt p q : near p q -> seq_lt (seqno p) (seqno q) = (p <? q).
Proof. intros H. unfold seqno. rewrite seq_lt_pos by (unfold near in *; lia). apply eq_true_iff_eq. rewrite !Z.ltb_lt. lia. Qed.

Lemma seqno_le p q : near p q -> seq_le (seqno p) (seqno q) = (p <=? q).
Proof. intros H. unfold seqno. rewrite seq_le_pos by (unfold near in *; lia). apply eq_true_iff_eq. rewrite !Z.leb_le. lia. Qed.

Lemma seqno_gt p q : near p q -> seq_gt (seqno p) (seqno q) = (q <? p).
Proof. intros H. unfold seqno. rewrite seq_gt_pos by (unfold near in *; lia). apply eq_true_iff_eq. rewrite !Z.ltb_lt. lia. Qed.

Lemma seqno_inj p q : - 4294967296 < p - q < 4294967296 -> seqno p = seqno q -> p = q.
Proof. unfold seqno. intros H E%as_u32_inj; lia. Qed.

(** ** Joining *)

Lemma h_end_at p h : held_at p h -> len (h_data h) <= u32_max -> h_end h = seqno (p + len (h_data h)).
Proof. intros [H _] Hl. unfold h_end. rewrite H, seqno_add, as_u32_small by lia. done. Qed.

Lemma join_run_at lo joined e run p hi :
  runs_at lo joined e -> held_at p run -> lo <= p -> e <= hi -> p + len (h_data run) <= hi -> hi <= lo + 1000000 ->
  exists e', runs_at lo (join_run joined run) e' /\ e' <= hi.
Proof.
  intros Hj Hr Hp He Hh Hb. unfold join_run. pose proof (runs_le _ _ _ Hj) as Hle. destruct Hj as [|l e l0 p0 Hj Hp0 Hl0].
  { cbn [last app]. exists (p + len (h_data run)). split; [|done]. apply (runs_snoc lo [] lo); [constructor|done|done]. }
  pose proof (runs_le _ _ _ Hj). rewrite last_snoc, removelast_last. rewrite (h_end_at p0) by (done || (unfold u32_max; lia)).
  rewrite (proj1 Hr), seqno_le, seqno_sub by (unfold near; lia). destruct (p <=? p0 + len (h_data l0)) eqn:Ec.
  - apply Z.leb_le in Ec. rewrite as_u32_small by (unfold u32_max; lia).
    destruct (_ <? len (h_data run)) eqn:Eo; [|eexists; split; [by econstructor|lia]]. apply Z.ltb_lt in Eo.
    eexists. split; [apply (runs_snoc lo l e); [done|done|]|].
    + split; [apply Hl0|]. cbn [h_data]. apply carried_app; [apply Hl0|].
      pose proof (carried_drop p (Z.to_nat (p0 + len (h_data l0) - p)) (h_data run) (proj2 Hr)) as Hd.
      by replace (p + Z.of_nat (Z.to_nat (p0 + len (h_data l0) - p))) with (p0 + len (h_data l0)) in Hd by lia.
    + cbn [h_data]. rewrite length_app, length_drop. lia.
  - apply Z.leb_gt in Ec. eexists. split; [apply (runs_snoc lo _ (p0 + len (h_data l0)) run p); [by econstructor|lia|done]|done].
Qed.

Lemma join_runs_at lo hi runs : forall joined e,
  runs_at lo joined e -> e <= hi -> hi <= lo + 1000000 ->
  Forall (fun h => exists p, lo <= p /\ held_at p h /\ p + len (h_data h) <= hi) runs ->
  exists e', runs_at lo (foldl join_run joined runs) e' /\ e' <= hi.
Proof.
  induction runs as [|run runs IH]; intros joined e Hj He Hb Hr; [by exists e|]. apply Forall_cons in Hr as [(p & Hp & Hh & Hl) Hr].
  cbn [foldl]. destruct (join_run_at lo joined e run p hi) as (e' & Hj' & He'); [done..|]. by apply (IH _ e').
Qed.

(** ** Delivering *)

(** Where the stream has got to: [n] bytes of it are in [read] or wait to be
    read, and what is held lies beyond. *)
Definition in_order (read : list Z) (n : Z) (t : Tcb) : Prop :=
  0 <= n <= len stream /\ receive_next t = seqno n /\ read ++ received t = take (Z.to_nat n) stream.

(** The fields [deliver_runs] leaves alone. *)
Definition delivered_from (t t' : Tcb) : Prop :=
  exists rcv next runs, t' = set_out_of_order runs (set_receive_next next (set_received rcv t)).

Lemma delivered_trans t1 t2 t3 : delivered_from t1 t2 -> delivered_from t2 t3 -> delivered_from t1 t3.
Proof. intros (? & ? & ? & ->) (r & n & l & ->). by exists r, n, l. Qed.

(** [data] follows on from position [n], or some of it does. *)
Lemma in_order_take read n t data skip k :
  in_order read n t -> carried (n - Z.of_nat skip) data -> (skip + k <= length data)%nat ->
  in_order read (n + Z.of_nat k)
    (set_receive_next (wrapping_add (receive_next t) (Z.of_nat k)) (set_received (received t ++ take k (drop skip data)) t)).
Proof.
  intros (Hn & Hq & Hr) Hc Hk. apply carried_drop with (n := skip) in Hc. replace (n - Z.of_nat skip + Z.of_nat skip) with n in Hc by lia.
  destruct (carried_extend n (drop skip data) k) as [E1 E2]; [lia|done|rewrite length_drop; lia|lia|].
  split_and!; [lia|lia|cbn; by rewrite Hq, seqno_add|]. cbn. rewrite app_assoc, Hr. exact E1.
Qed.

Lemma deliver_runs_at read runs : forall t n lo e,
  runs_at lo runs e -> in_order read n t -> lo - 1000000 <= n <= lo + 1000000 -> e <= lo + 1000000 ->
  exists n' e', n <= n' /\ in_order read n' (deliver_runs runs t) /\
    runs_at n' (out_of_order (deliver_runs runs t)) e' /\ e' <= Z.max e n' /\ delivered_from t (deliver_runs runs t).
Proof.
  induction runs as [|run rest IH]; intros t n lo e Hruns Hin Hn He; cbn [deliver_runs].
  { exists n, n. split_and!; [lia|exact Hin|constructor|lia|]. by exists (received t), (receive_next t), []. }
  pose proof Hruns as (p & Hp & Hh & Hrest)%runs_uncons. pose proof (runs_le _ _ _ Hrest) as Hle.
  pose proof Hin as (Hb & Hq & Hr). rewrite (proj1 Hh), Hq, seqno_gt, seqno_sub by (unfold near; lia).
  destruct (n <? p) eqn:Egt.
  { apply Z.ltb_lt in Egt. exists n, e. split_and!; [lia|exact Hin| |lia|by exists (received t), (receive_next t), (run :: rest)].
    apply (runs_cons n run p); [lia|done|done]. }
  apply Z.ltb_ge in Egt. rewrite as_u32_small by (unfold u32_max; lia).
  destruct (len (h_data run) <=? n - p) eqn:Eskip.
  { apply (IH t n (p + len (h_data run)) e); [done|done|lia|lia]. }
  apply Z.leb_gt in Eskip. set (m := Z.min _ _). assert (Hm : 0 <= m <= len (h_data run) - (n - p)) by (unfold m, saturating_sub; lia).
  rewrite (as_u32_small m) by (unfold u32_max; lia).
  assert (Hin' : in_order read (n + m) (set_receive_next (wrapping_add (receive_next t) m) (set_received (received t ++ take (Z.to_nat m) (drop (Z.to_nat (n - p)) (h_data run))) t))).
  { replace m with (Z.of_nat (Z.to_nat m)) at 1 2 by lia. apply in_order_take; [done| |lia].
    replace (n - Z.of_nat (Z.to_nat (n - p))) with p by lia. apply Hh. }
  set (t1 := set_receive_next _ _). change (in_order read (n + m) t1) in Hin'. assert (Hd : delivered_from t t1) by (by exists (received t1), (receive_next t1), (out_of_order t1)).
  destruct (n - p + m <? len (h_data run)) eqn:Epart.
  - apply Z.ltb_lt in Epart. exists (n + m), e. split_and!; [lia|exact Hin'| |lia|].
    + cbn [out_of_order set_out_of_order]. apply (runs_cons _ _ (n + m)); [lia| |].
      * split; [cbn [h_sequence]; apply Hin'|]. cbn [h_data]. pose proof (carried_drop p (Z.to_nat (n - p + m)) _ (proj2 Hh)) as Hc.
        by replace (p + Z.of_nat (Z.to_nat (n - p + m))) with (n + m) in Hc by lia.
      * cbn [h_data]. rewrite length_drop. by replace (n + m + Z.of_nat (length (h_data run) - Z.to_nat (n - p + m))) with (p + len (h_data run)) by lia.
    + eapply delivered_trans; [exact Hd|]. by exists (received t1), (receive_next t1), (mkHeld (receive_next t1) (drop (Z.to_nat (n - p + m)) (h_data run)) :: rest).
  - apply Z.ltb_ge in Epart. destruct (IH t1 (n + m) (p + len (h_data run)) e) as (n' & e' & H1 & H2 & H3 & H4 & H5); [done|done|lia|lia|].
    exists n', e'. split_and!; [lia|done|done|done|]. exact (delivered_trans _ _ _ Hd H5).
Qed.
End stream.
