(* ===== verification/TcpReceive.v ===== *)
(** * TCP: the receiving half

    The other end's stream is given; [rx_ok] says how far it has come, and every
    method that takes data, holds it, delivers it or takes the finish keeps to
    it. *)

From S2P Require Import Prelude Words Packets Safe Tcp TcpInput TcpRuns.

Section stream.
Context {N : Type} {HW : Wire N} {HS : Sorter} {HSok : SorterOk}.
Context (stream : list Z).
Implicit Types (t : Tcb) (w : Tcb * N).

(** The states in which the other end may still send, and those after its
    finish. *)
Definition still_sending (s : State) : bool :=
  match s with SynReceived | Established | FinWait1 | FinWait2 | Closed => true | _ => false end.
Definition finished (s : State) : bool :=
  match s with CloseWait | Closing | LastAck | TimeWait | Closed => true | _ => false end.
Definition opened (s : State) : bool := match s with SynSent | Listen => false | _ => true end.

(** The receiving half of [t], of whose stream [read] has been read; [shut] says
    that the program shut its reading side or closed. *)
Inductive rx_ok (read : list Z) (shut : bool) (t : Tcb) : Prop :=
| rx_open n e :
    shut = false -> fin_received t = false -> read_shutdown t = false -> abandoned t = false ->
    still_sending (tstate t) = true ->
    in_order stream (irs t + 1) read n t -> runs_at stream (irs t + 1) n (out_of_order t) e -> e <= n + 65535 ->
    (forall f, held_fin t = Some f -> f = seqno (irs t + 1) (len stream) /\ len stream - n < 4294967296) ->
    rx_ok read shut t
| rx_finished :
    shut = false -> fin_received t = true -> abandoned t = false -> finished (tstate t) = true ->
    read ++ received t = stream -> rx_ok read shut t
| rx_shut :
    shut = true -> read_shutdown t || abandoned t = true -> opened (tstate t) = true ->
    read ++ received t `prefix_of` stream -> rx_ok read shut t.

(** What an arriving segment says of the stream, when [n] bytes of it have been
    taken. *)
Definition speaks_of (t : Tcb) (n : Z) (g : Segment.Segment) : Prop :=
  exists p, Segment.sequence g = seqno (irs t + 1) p /\ - 2147483648 < p - n < 2147000000 /\
    carried stream p (Segment.payload g) /\ len (Segment.payload g) <= 65535 /\
    (Segment.has (Segment.flags g) Segment.FIN = true -> p + len (Segment.payload g) = len stream).

(** ** What each method does to it *)

(** The view [rx] is all the invariant looks at. *)
Lemma rx_same read shut t t' : rx (t', tt) = rx (t, tt) -> rx_ok read shut t -> rx_ok read shut t'.
Proof.
  unfold rx. cbn [fst]. intros E. injection E as E1 E2 E3 E4 E5 E6 E7 E8 E9.
  intros [n e ? ? ? ? ? (? & ? & ?) ? ? ?|? ? ? ? ?|? ? ? ?].
  - apply (rx_open _ _ _ n e); rewrite ?E1, ?E3, ?E4; try congruence; try done. split_and!; [tauto|tauto|congruence|by rewrite E5].
  - apply rx_finished; congruence.
  - apply rx_shut; congruence.
Qed.

Lemma rx_ok_view read shut w w' : rx w' = rx w -> rx_ok read shut w.1 -> rx_ok read shut w'.1.
Proof. intros E. by apply rx_same. Qed.

Definition preserves {A} (m : TM A) : Prop :=
  forall read shut w, rx_ok read shut w.1 -> wlp m (fun w' _ => rx_ok read shut w'.1) w.

Lemma preserves_keeps {A} (m : TM A) : keeps rx m -> preserves m.
Proof. intros Hk read shut w Hw. apply (wlp_keeps rx); [done|]. intros w' r E. by apply (rx_ok_view read shut w). Qed.

Lemma preserves_bind {A B} (m : TM A) (k : A -> TM B) : preserves m -> (forall a, preserves (k a)) -> preserves (bind m k).
Proof.
  intros Hm Hk read shut w Hw. apply wlp_bind. eapply wlp_mono; [by apply Hm|]. intros w' [a|e] Hw'; [|done]. by apply Hk.
Qed.

Lemma preserves_update f : (forall read shut t, rx_ok read shut t -> rx_ok read shut (f t)) -> preserves (update f).
Proof. intros H read shut w Hw. apply wlp_modify. by apply H. Qed.

(** The rules for the readings of the code. *)
Lemma wlp_self (Q : Tcb * N -> Tcb + Errno -> Prop) w : Q w (inl w.1) -> wlp self Q w.
Proof. done. Qed.
Lemma wlp_update f (Q : Tcb * N -> unit + Errno -> Prop) w : Q (f w.1, w.2) (inl tt) -> wlp (update f) Q w.
Proof. done. Qed.
Lemma wlp_clock {A} (f : N -> N * A) (Q : Tcb * N -> A + Errno -> Prop) w :
  (forall n a, Q (w.1, n) (inl a)) -> wlp (clock f) Q w.
Proof. intros H. unfold wlp, clock, below, zoom, state. destruct (f w.2) as [n a]. apply H. Qed.

(** Runs and the held finish gone. *)
Definition let_go (t : Tcb) : Tcb := set_held_fin None (set_out_of_order [] t).

Lemma rx_let_go read shut t : rx_ok read shut t -> rx_ok read shut (let_go t).
Proof.
  intros [n e ? ? ? ? ? ? Hr ? ?|? ? ? ? ?|? ? ? ?]; [|by apply rx_finished|by apply rx_shut].
  apply (rx_open _ _ _ n n); try done; [constructor|lia].
Qed.

Lemma wlp_account (Q : Tcb * N -> unit + Errno -> Prop) w :
  (forall w', rx w' = rx w -> Q w' (inl tt)) -> wlp account Q w.
Proof. intros H. unfold account. apply wlp_bind, wlp_self, wlp_bind, wlp_modify, wlp_update. by apply H. Qed.

Lemma wlp_drop (Q : Tcb * N -> unit + Errno -> Prop) w :
  (forall w', rx w' = rx (let_go w.1, w.2) -> Q w' (inl tt)) -> wlp drop_out_of_order Q w.
Proof. intros H. unfold drop_out_of_order. apply wlp_bind, wlp_update, wlp_account. intros w' E. apply H. by rewrite E. Qed.

Lemma preserves_drop : preserves drop_out_of_order.
Proof. intros read shut w Hw. apply wlp_drop. intros w' E. apply (rx_ok_view read shut _ w' E). by apply rx_let_go. Qed.

(** A state that goes with the finish, or with the lack of it. *)
Lemma rx_state read shut s t :
  rx_ok read shut t ->
  (fin_received t = false -> shut = false -> still_sending s = true) ->
  (fin_received t = true -> shut = false -> finished s = true) ->
  opened s = true -> rx_ok read shut (set_state s t).
Proof.
  intros Ht H1 H2 H3. destruct Ht as [n e ? ? ? ? ? ? Hr ? ?|? ? ? ? ?|? ? ? ?].
  - apply (rx_open _ _ _ n e); try done. by apply H1.
  - apply rx_finished; try done. by apply H2.
  - by apply rx_shut.
Qed.

Lemma rx_after_fin read shut t : rx_ok read shut t -> fin_received t = true -> shut = false -> finished (tstate t) = true.
Proof. intros [n e Hs Hf|Hs Hf|Hs] Hf' Hs'; [by rewrite Hf in Hf'|done|by rewrite Hs in Hs']. Qed.

Lemma rx_before_fin read shut t : rx_ok read shut t -> fin_received t = false -> shut = false -> still_sending (tstate t) = true.
Proof. intros [n e Hs Hf|Hs Hf|Hs] Hf' Hs'; [done|by rewrite Hf in Hf'|by rewrite Hs in Hs']. Qed.

Lemma rx_closed read shut t : rx_ok read shut t -> rx_ok read shut (set_state Closed t).
Proof. intros H. by apply rx_state. Qed.

Lemma rx_fields {A B} (w : Tcb * A) (w' : Tcb * B) : rx w = rx w' ->
  fin_received w.1 = fin_received w'.1 /\ tstate w.1 = tstate w'.1 /\ receive_next w.1 = receive_next w'.1 /\
  irs w.1 = irs w'.1 /\ received w.1 = received w'.1 /\ can_receive w.1 = can_receive w'.1.
Proof. unfold rx, can_receive. intros E. injection E as -> -> _ _ -> -> -> -> ->. done. Qed.

(** What the two waits at the end do. *)
Definition time_waited (t : Tcb) : Tcb :=
  let t := set_read_shutdown true (let_go (set_state TimeWait t)) in
  if abandoned t then set_received [] t else t.

Lemma time_waited_state t : time_waited (set_state TimeWait t) = time_waited t.
Proof. unfold time_waited. cbn. by destruct (abandoned t). Qed.

Lemma time_waited_fields t : irs (time_waited t) = irs t /\ fin_received (time_waited t) = fin_received t.
Proof. unfold time_waited. cbn. by destruct (abandoned t). Qed.

Lemma wlp_enter_time_wait (Q : Tcb * N -> unit + Errno -> Prop) w :
  (forall w', rx w' = rx (time_waited w.1, w.2) -> Q w' (inl tt)) -> wlp enter_time_wait Q w.
Proof.
  intros H. unfold enter_time_wait. apply wlp_bind, wlp_update, wlp_bind, wlp_drop. intros [t1 n1] E.
  apply wlp_bind, wlp_clock. intros n a. apply wlp_bind, wlp_checked, wlp_bind, wlp_update, wlp_update. apply H.
  unfold rx, time_waited, let_go in *. cbn in *. injection E as E1 E2 E3 E4 E5 E6 E7 E8 E9. clear H. rewrite E8. destruct (abandoned w.1) eqn:Ea; cbn; by rewrite ?E1, ?E2, ?E3, ?E4, ?E5, ?E6, ?E8, ?E9, ?Ea.
Qed.

Lemma rx_time_waited read shut t :
  rx_ok read shut t -> (shut = false -> fin_received t = true) -> rx_ok read shut (time_waited t).
Proof.
  intros Ht Hf. destruct Ht as [n e Hs Hfr|? ? Ha ? ?|? ? ? [k Hk]]; [rewrite Hf in Hfr by done; done| |].
  - unfold time_waited. cbn. rewrite Ha. by apply rx_finished.
  - unfold time_waited. cbn. destruct (abandoned t) eqn:Ea; apply rx_shut; cbn; try done; try by rewrite Ea.
    + rewrite app_nil_r. exists (received t ++ k). by rewrite app_assoc.
    + by exists k.
Qed.

Lemma wlp_enter_fin_wait_2 (Q : Tcb * N -> unit + Errno -> Prop) w :
  (forall w', rx w' = rx (set_state FinWait2 w.1, w.2) -> Q w' (inl tt)) -> wlp enter_fin_wait_2 Q w.
Proof.
  intros H. unfold enter_fin_wait_2. apply wlp_bind, wlp_update, wlp_bind, wlp_self. destruct (abandoned _); [|by apply wlp_ret, H].
  apply wlp_bind, wlp_clock. intros n a. by apply wlp_bind, wlp_checked, wlp_update, H.
Qed.

(** ** Data *)

Definition position (read : list Z) (t : Tcb) : Z := len (read ++ received t).

Lemma in_order_position o read n t : in_order stream o read n t -> position read t = n.
Proof. intros (Hn & _ & Hr). unfold position. rewrite Hr, length_take. lia. Qed.

(** [t'] may have taken data, and nothing else of the receiving half differs. *)
Definition took_data (read : list Z) (t t' : Tcb) : Prop :=
  irs t' = irs t /\ fin_received t' = fin_received t /\ read_shutdown t' = read_shutdown t /\ abandoned t' = abandoned t /\
  tstate t' = tstate t /\ position read t <= position read t'.

Lemma took_refl read t t' : rx (t', tt) = rx (t, tt) -> took_data read t t'.
Proof. unfold rx, took_data, position. cbn. intros E. injection E as -> _ _ _ -> -> -> -> ->. split_and!; done. Qed.

Lemma can_receive_same read t t' : took_data read t t' -> can_receive t' = can_receive t.
Proof. intros (_ & _ & H1 & H2 & H3 & _). unfold can_receive. by rewrite H1, H2, H3. Qed.

(** New data, starting no earlier than what is wanted. *)
Definition fresh (t : Tcb) (n start : Z) (data : list Z) : Prop :=
  exists q, start = seqno (irs t + 1) q /\ n <= q < n + 2147480000 /\ carried stream q data /\ len data <= 65535.

Lemma advertised_bounds t : 0 <= advertised_window t <= 65535.
Proof.
  unfold advertised_window, u16_max. destruct (seq_le _ _); [lia|]. pose proof (as_u32_bounds (receive_high t - receive_next t)) as H.
  unfold is_u32 in H. fold (wrapping_sub (receive_high t) (receive_next t)) in H. lia.
Qed.

(** The runs of [t] with one more, put in order. *)
Lemma coalesce_at n e t q data :
  runs_at stream (irs t + 1) n (out_of_order t) e -> e <= n + 65535 ->
  n <= q -> carried stream q data -> q + len data <= n + 65535 ->
  exists e', runs_at stream (irs t + 1) n (out_of_order (coalesce (set_out_of_order (out_of_order t ++ [mkHeld (seqno (irs t + 1) q) data]) t))) e' /\ e' <= n + 65535.
Proof.
  intros Hr He Hq Hc Hl. unfold coalesce. cbn [out_of_order set_out_of_order].
  apply (join_runs_at stream (irs t + 1) n (n + 65535) _ [] n); [constructor|lia|lia|].
  rewrite sort_perm. apply Forall_app. split.
  - eapply Forall_impl; [by apply (runs_each stream (irs t + 1) n _ e)|]. intros h (p & H1 & H2 & H3). exists p. split_and!; [done|done|lia].
  - apply Forall_cons. split; [|constructor]. exists q. split_and!; [done|by split|done].
Qed.

Lemma wlp_hold read w start data n e :
  rx_ok read false w.1 -> fin_received w.1 = false ->
  in_order stream (irs w.1 + 1) read n w.1 -> runs_at stream (irs w.1 + 1) n (out_of_order w.1) e -> e <= n + 65535 ->
  fresh w.1 n start data ->
  wlp (hold start data) (fun w' _ => rx_ok read false w'.1 /\ took_data read w.1 w'.1) w.
Proof.
  intros Hw Hfin Hin Hr He (q & -> & Hq & Hc & Hl). pose proof (advertised_bounds w.1) as Ha. unfold hold.
  assert (Hid : forall m : N, rx_ok read false (w.1, m).1 /\ took_data read w.1 (w.1, m).1) by (intros m; split; [done|by apply took_refl]).
  apply wlp_bind, wlp_self. rewrite (proj1 (proj2 Hin)), seqno_add, seqno_lt, seqno_sub by (unfold near; lia).
  destruct (q <? n + advertised_window w.1) eqn:Elt; cbn [negb]; [|apply wlp_ret, (Hid w.2)]. apply Z.ltb_lt in Elt.
  rewrite as_u32_small by (unfold u32_max; lia). set (kept := take _ data). case_bool_decide; [apply wlp_ret, (Hid w.2)|].
  apply wlp_bind, wlp_gets, wlp_bind, wlp_checked. destruct (_ <? _); [apply wlp_ret, (Hid w.2)|].
  assert (Hkl : len kept <= advertised_window w.1 - (q - n)) by (unfold kept; rewrite length_take; lia).
  destruct (coalesce_at n e w.1 q kept) as (e1 & Hr1 & He1); [done|done|lia|by apply carried_take|lia|].
  set (t1 := coalesce _) in Hr1. apply wlp_bind, wlp_update. change (coalesce _) with t1. apply wlp_bind, wlp_update. cbn [fst snd].
  assert (H2 : exists e2, runs_at stream (irs w.1 + 1) n (out_of_order (if MAX_HELD_RUNS <? len (out_of_order t1) then set_out_of_order (removelast (out_of_order t1)) t1 else t1)) e2 /\ e2 <= n + 65535).
  { destruct (_ <? _); [|by exists e1]. destruct (runs_removelast _ _ _ _ _ Hr1) as (e2 & Hr2 & He2). exists e2. split; [done|lia]. }
  set (t2 := if MAX_HELD_RUNS <? len (out_of_order t1) then _ else _) in *.
  assert (H12 : forall runs, t2 = set_out_of_order runs w.1 -> rx_ok read false t2 /\ took_data read w.1 t2).
  { intros runs Et. destruct H2 as (e2 & Hr2 & He2). destruct Hw as [n0 e0 ? ? ? ? ? Hin0 Hr0 ? Hf0|? Hf|?]; [|by rewrite Hf in Hfin|done].
    rewrite <- (in_order_position _ _ _ _ Hin), (in_order_position _ _ _ _ Hin0) in *.
    rewrite Et in *. split; [|by split_and!]. by apply (rx_open _ _ _ n0 e2). }
  assert (Ht2 : exists runs, t2 = set_out_of_order runs w.1) by (unfold t2; destruct (_ <? _); by eexists).
  destruct Ht2 as [runs Et]. destruct (H12 runs Et) as [Hok Htook].
  apply wlp_bind, wlp_account. intros w3 E3. apply (wlp_keeps rx); [auto with keeps|]. intros w4 r E4. rewrite E3 in E4.
  split; [by apply (rx_ok_view read false _ w4 E4)|].
  unfold rx, took_data, position in *. cbn [fst] in *. injection E4 as -> _ _ _ -> -> -> -> ->. exact Htook.
Qed.

(** What is seen through [rx] is what is known. *)
Lemma took_view read t w' t1 : rx w' = rx (t1, w'.2) -> took_data read t t1 -> took_data read t w'.1.
Proof. unfold rx, took_data, position. cbn [fst]. intros E. injection E as -> _ _ _ -> -> -> -> ->. done. Qed.

Lemma rx_snd t (n n' : N) : rx (t, n) = rx (t, n').
Proof. done. Qed.

Lemma wlp_deliver_held read w n0 n e :
  fin_received w.1 = false -> read_shutdown w.1 = false -> abandoned w.1 = false -> still_sending (tstate w.1) = true ->
  in_order stream (irs w.1 + 1) read n w.1 -> runs_at stream (irs w.1 + 1) n0 (out_of_order w.1) e ->
  n0 <= n <= n0 + 65535 -> e <= n0 + 65535 ->
  (forall f, held_fin w.1 = Some f -> f = seqno (irs w.1 + 1) (len stream) /\ len stream - n < 4294967296) ->
  wlp deliver_held (fun w' _ => rx_ok read false w'.1 /\ took_data read w.1 w'.1) w.
Proof.
  intros H1 H2 H3 H4 Hin Hr Hn He Hf. unfold deliver_held. apply wlp_bind, wlp_update.
  destruct (deliver_runs_at stream (irs w.1 + 1) read (out_of_order w.1) w.1 n n0 e) as (n' & e' & Hn' & Hin' & Hr' & He' & Hd); [done|done|lia|lia|].
  set (t1 := deliver_runs (out_of_order w.1) w.1) in *. destruct Hd as (rcv & next & runs & Ht1).
  assert (Hok : rx_ok read false t1).
  { rewrite Ht1 in *. apply (rx_open _ _ _ n' e'); try done; [lia|]. intros f Hff. destruct (Hf f Hff). split; [done|lia]. }
  assert (Htook : took_data read w.1 t1).
  { unfold took_data. rewrite (in_order_position _ _ _ _ Hin), (in_order_position _ _ _ _ Hin'). rewrite Ht1. by split_and!. }
  apply wlp_bind, wlp_account. intros w2 E2. apply wlp_bind, wlp_self.
  apply (wlp_keeps rx); [destruct (_ && _); [apply keeps_update; done|auto with keeps]|]. intros w3 r E3. rewrite E2 in E3.
  split; [by apply (rx_ok_view read false _ w3 E3)|]. by apply (took_view read w.1 w3 t1).
Qed.

Lemma not_receiving read shut t : rx_ok read shut t -> (shut = false -> fin_received t = true) -> can_receive t = false.
Proof.
  intros Ht Hm. unfold can_receive. destruct Ht as [n e Hs Hf|? ? ? Hfin ?|? Hfl ? ?].
  - rewrite Hm in Hf by done. done.
  - destruct (tstate t); try done; apply andb_false_r.
  - apply orb_true_iff in Hfl as [->| ->]; [done|]. by rewrite andb_false_r.
Qed.

(** Past a finish, or with nobody to read, only the number moves. *)
Lemma rx_skip read shut t v :
  rx_ok read shut t -> (shut = false -> fin_received t = true) ->
  rx_ok read shut (set_receive_next v t) /\ took_data read t (set_receive_next v t).
Proof.
  intros Ht Hm. split; [|by split_and!]. destruct Ht as [n e Hs Hf|? ? ? Hfin ?|? Hfl ? ?]; [|by apply rx_finished|by apply rx_shut].
  rewrite Hm in Hf by done. done.
Qed.

Lemma wlp_take_data read shut w start data :
  rx_ok read shut w.1 -> (shut = false -> fin_received w.1 = false -> can_receive w.1 = true) ->
  (shut = false -> fin_received w.1 = false -> fresh w.1 (position read w.1) start data) ->
  wlp (take_data start data) (fun w' _ => rx_ok read shut w'.1 /\ took_data read w.1 w'.1) w.
Proof.
  intros Hw Hcan Hfresh. unfold take_data. apply wlp_bind, wlp_self.
  assert (Hid : rx_ok read shut w.1 /\ took_data read w.1 w.1) by (split; [done|by apply took_refl]).
  case_bool_decide; [by apply wlp_ret|].
  destruct (decide (shut = false /\ fin_received w.1 = false)) as [[Hs Hf]|Hmode]; cycle 1.
  { assert (Hm : shut = false -> fin_received w.1 = true).
    { intros Hs. destruct (fin_received w.1); [done|]. by destruct Hmode. }
    rewrite (not_receiving read shut) by done. cbn [negb]. apply wlp_bind, wlp_update, wlp_ret.
    destruct (_ =? _); [by apply rx_skip|done]. }
  rewrite Hcan by done. cbn [negb]. destruct (Hfresh Hs Hf) as (q & -> & Hq & Hc & Hl).
  destruct Hw as [n e ? ? Hrs Hab Hst Hin Hr He Hff|? Hf'|Hs']; [|by rewrite Hf' in Hf|by rewrite Hs' in Hs].
  rewrite (in_order_position _ _ _ _ Hin) in *. pose proof Hin as (Hb & Hrn & _). rewrite Hrn.
  destruct (_ =? _) eqn:Eq; cycle 1.
  { apply wlp_bind. subst shut. eapply wlp_mono; [apply (wlp_hold read w _ data n e); try done; [by apply (rx_open _ _ _ n e)|by exists q]|].
    intros w' [[]|err] H'; [by apply wlp_ret|done]. }
  apply Z.eqb_eq, seqno_inj in Eq; [|lia]. subst q. set (m := Z.min _ _).
  assert (Hm : 0 <= m <= len data) by (unfold m, saturating_sub; lia). rewrite (as_u32_small m) by (unfold u32_max; lia).
  apply wlp_bind, wlp_update. set (t1 := set_receive_next _ _). apply wlp_bind.
  assert (Hin1 : in_order stream (irs t1 + 1) read (n + m) t1).
  { pose proof (in_order_take stream (irs w.1 + 1) read n w.1 data 0 (Z.to_nat m) Hin) as Ht. rewrite drop_0, Z2Nat.id in Ht by lia.
    apply Ht; [by rewrite Z.sub_0_r|lia]. }
  eapply wlp_mono; [apply (wlp_deliver_held read (t1, w.2) n (n + m) e); try done; [lia|]|].
  - intros f Hf1. destruct (Hff f Hf1). split; [done|lia].
  - intros w' [[]|err] [Hok Htook]; [apply wlp_ret|]; subst shut; (split; [done|]); unfold took_data in *; cbn [fst] in *;
      destruct Htook as (-> & -> & -> & -> & -> & Hp); rewrite (in_order_position _ _ _ _ Hin1) in Hp; rewrite (in_order_position _ _ _ _ Hin); split_and!; done || lia.
Qed.

(** ** The finish *)

Lemma rx_note read shut t f :
  rx_ok read shut t ->
  (shut = false -> fin_received t = false -> f = seqno (irs t + 1) (len stream) /\ len stream - position read t < 4294967296) ->
  rx_ok read shut (set_held_fin (Some f) t).
Proof.
  intros Ht Hf. destruct Ht as [n e Hs Hfin ? ? ? Hin|?|?]; [|by apply rx_finished|by apply rx_shut].
  apply (rx_open _ _ _ n e); try done. intros f' [= <-]. rewrite <- (in_order_position _ _ _ _ Hin). by apply Hf.
Qed.

Lemma wlp_note_fin read shut w finish :
  rx_ok read shut w.1 ->
  (shut = false -> fin_received w.1 = false -> finish = seqno (irs w.1 + 1) (len stream) /\ len stream - position read w.1 < 4294967296) ->
  wlp (note_fin finish) (fun w' _ => rx_ok read shut w'.1 /\ took_data read w.1 w'.1) w.
Proof.
  intros Hw Hf. pose proof (rx_note read shut w.1 finish Hw Hf) as Hn. unfold note_fin. apply wlp_bind, wlp_self.
  destruct (_ =? _); [apply wlp_update; split; [done|by split_and!]|].
  destruct (_ && _); [|apply wlp_ret; split; [done|by apply took_refl]]. apply wlp_bind, wlp_update.
  apply (wlp_keeps rx); [auto with keeps|]. intros w' r E. split; [by apply (rx_ok_view read shut _ w' E)|].
  apply (took_view read w.1 w' (set_held_fin (Some finish) w.1)); [done|by split_and!].
Qed.

(** All of the stream, then its end. *)
Lemma rx_take_fin read t s :
  rx_ok read false t -> fin_received t = false -> held_fin t = Some (receive_next t) -> finished s = true ->
  rx_ok read false (set_state s (set_receive_next (wrapping_add (receive_next t) 1) (set_fin_received true (set_held_fin None t)))).
Proof.
  intros Ht Hf Hh Hs. destruct Ht as [n e ? ? ? ? ? Hin Hr He Hff|? Hf'|?]; [|by rewrite Hf' in Hf|done].
  apply rx_finished; try done. cbn [received set_state set_receive_next set_fin_received set_held_fin].
  destruct (Hff _ Hh) as [E Hl]. destruct Hin as (Hn & Hrn & Hrd). rewrite Hrn in E. apply seqno_inj in E; [|lia].
  rewrite Hrd, E. apply take_ge. lia.
Qed.

Lemma wlp_take_fin read shut w :
  rx_ok read shut w.1 -> (shut = false -> fin_received w.1 = false -> can_receive w.1 = true) -> held_fin w.1 = Some (receive_next w.1) ->
  wlp take_fin (fun w' _ => rx_ok read shut w'.1) w.
Proof.
  intros Hw Hcan Hh. unfold take_fin. apply wlp_bind, wlp_update, wlp_bind, wlp_update. cbn [fst snd].
  set (t1 := if bool_decide _ then _ else _). assert (E1 : rx (t1, tt) = rx (set_held_fin None w.1, tt)) by (unfold t1; by case_bool_decide).
  apply wlp_bind, wlp_self. cbn [fst]. destruct (rx_fields _ _ E1) as (Ef & Es & Hr1 & _). cbn in Ef, Es, Hr1.
  assert (Hn : rx_ok read shut (set_held_fin None w.1)).
  { destruct Hw as [n e|?|?]; [by apply (rx_open _ _ _ n e)|by apply rx_finished|by apply rx_shut]. }
  rewrite Ef. destruct (fin_received w.1) eqn:Hf; [apply wlp_ret; by apply (rx_same read shut _ _ E1)|].
  apply wlp_bind, wlp_update. cbn [fst snd]. rewrite Es.
  set (t2 := set_receive_next _ _).
  (** In the open mode the state is one of three. *)
  assert (Hopen : shut = false -> forall s', finished s' = true -> rx_ok read shut (set_state s' t2)).
  { intros -> s' Hs'. eapply (rx_same read false); [|exact (rx_take_fin read w.1 s' Hw Hf Hh Hs')].
    unfold t2. rewrite Hr1. unfold rx in *. cbn in *. injection E1 as -> _ -> -> -> _ -> -> _. done. }
  assert (Hk : shut = true -> rx_ok read shut t2).
  { intros Hsh. assert (Hk : rx_ok read shut t1) by (by apply (rx_same read shut (set_held_fin None w.1))).
    destruct Hk; [congruence|congruence|]. by apply rx_shut. }
  assert (Hboth : forall s', finished s' = true -> rx_ok read shut (set_state s' t2)).
  { intros s' Hs'. destruct shut; [|by apply Hopen]. apply rx_state; [by apply Hk|done|done|by destruct s']. }
  (** A state that stays: nobody reads, or this cannot be. *)
  assert (Hstay : can_receive w.1 = false -> rx_ok read shut t2).
  { intros Hc. destruct shut; [by apply Hk|]. by rewrite Hcan in Hc. }
  unfold can_receive in Hstay.
  destruct (tstate w.1) eqn:Est; try (apply wlp_bind, wlp_update, wlp_ret; by apply Hboth);
    try (apply wlp_bind, wlp_ret, wlp_ret, Hstay, andb_false_r).
  apply wlp_bind, wlp_enter_time_wait. intros w' E'. apply wlp_ret. apply (rx_ok_view read shut (time_waited t2, w.2) w' E').
  cbn [fst]. rewrite <- time_waited_state. apply rx_time_waited; [by apply Hboth|done].
Qed.
End stream.
