(* ===== verification/TcpStream.v ===== *)
(** * TCP: the stream arrives whole and in order

    A run of a connection: segments arrive in any order, late, twice, cut and
    joined; the program reads, writes and closes; the clock goes on. Each
    segment carries what the other end's stream holds where its number says,
    within [2 ^ 31] bytes of where this end has got to, since sequence numbers
    wrap. What has been read, with what waits to be read, is then a first part of
    that stream, and the end of it is reported only after all of it. *)

From S2P Require Import Prelude Safe Words Packets Tcp TcpInput TcpRuns TcpReceive.

Section stream.
Context {N : Type} {HW : Wire N} {HS : Sorter} {HSok : SorterOk}.
Context (stream : list Z).
Implicit Types (t : Tcb) (w : Tcb * N) (g : Segment.Segment).
Abbreviation rx_ok := (rx_ok stream).

(** What is new in a segment that speaks of the stream. *)
Lemma trim_fresh read t n g start data :
  in_order stream (irs t + 1) read n t -> speaks_of stream t n g -> trim g t = (start, data) ->
  fresh stream t n start data /\
  (Segment.has (Segment.flags g) Segment.FIN = true ->
   wrapping_add start (as_u32 (len data)) = seqno (irs t + 1) (len stream) /\ len stream - n < 4294967296).
Proof.
  intros (Hn & Hrn & _) (p & Hseq & Hp & Hc & Hl & Hfin). unfold trim. rewrite Hseq, Hrn, seqno_lt by (unfold near; lia).
  destruct (p <? n) eqn:E.
  - apply Z.ltb_lt in E. rewrite seqno_sub, as_u32_small by (unfold u32_max; lia). set (rest := if _ <=? _ then _ else _). intros [= <- <-].
    assert (Hrest : carried stream n rest /\ len rest = Z.max 0 (len (Segment.payload g) - (n - p))).
    { unfold rest. destruct (_ <=? _) eqn:El; [apply Z.leb_le in El; split; [apply carried_nil|cbn; lia]|]. apply Z.leb_gt in El.
      split; [|rewrite length_drop; lia]. pose proof (carried_drop stream p (Z.to_nat (n - p)) _ Hc) as Hd. by replace (p + _) with n in Hd by lia. }
    destruct Hrest as [Hrc Hrl]. split; [exists n; split_and!; [done|lia|lia|done|lia]|]. intros Hf%Hfin.
    rewrite seqno_add, as_u32_small by (unfold u32_max; lia). split; [f_equal; lia|lia].
  - apply Z.ltb_ge in E. intros [= <- <-]. split; [exists p; split_and!; [done|lia|lia|done|done]|]. intros Hf%Hfin.
    rewrite seqno_add, as_u32_small by (unfold u32_max; lia). split; [f_equal; lia|lia].
Qed.

Lemma rx_in_order read shut t : rx_ok read shut t -> shut = false -> fin_received t = false -> in_order stream (irs t + 1) read (position read t) t.
Proof.
  intros [n e ? ? ? ? ? Hin|? Hf|Hs] Hs' Hf'; [by rewrite (in_order_position _ _ _ _ _ Hin)|by rewrite Hf in Hf'|by rewrite Hs in Hs'].
Qed.

Lemma wlp_on_data read shut w g before :
  rx_ok read shut w.1 -> (shut = false -> fin_received w.1 = false -> can_receive w.1 = true) ->
  (shut = false -> fin_received w.1 = false -> speaks_of stream w.1 (position read w.1) g) ->
  wlp (on_data g before) (fun w' _ => rx_ok read shut w'.1) w.
Proof.
  intros Hw Hcan Hsp. unfold on_data. apply wlp_bind, wlp_self. destruct (trim g w.1) as [start data] eqn:Etrim.
  assert (Hnew : shut = false -> fin_received w.1 = false -> _) by (intros Hs Hf; exact (trim_fresh read w.1 _ g start data (rx_in_order _ _ _ Hw Hs Hf) (Hsp Hs Hf) Etrim)).
  apply wlp_bind. apply (wlp_mono _ (fun w' _ => rx_ok read shut w'.1 /\ took_data read w.1 w'.1)).
  { destruct (negb _); [|apply wlp_ret; split; [done|by apply took_refl]]. apply wlp_take_data; [done..|]. intros Hs Hf. by apply Hnew. }
  intros w1 [woke|err] [Hw1 Htook]; [|done].
  pose proof (can_receive_same _ _ _ Htook) as Hc1. destruct Htook as (Ei & Ef & _ & _ & _ & Hpos).
  apply wlp_bind. apply (wlp_mono _ (fun w' _ => rx_ok read shut w'.1 /\ took_data read w1.1 w'.1)).
  { destruct (Segment.has _ Segment.FIN) eqn:Hfin; [|apply wlp_ret; split; [done|by apply took_refl]]. apply wlp_note_fin; [done|].
    rewrite Ef, Ei. intros Hs Hf. destruct (Hnew Hs Hf) as [_ H]. destruct (H eq_refl). split; [done|lia]. }
  intros w2 [[]|err] [Hw2 Htook2]; [|done]. pose proof (can_receive_same _ _ _ Htook2) as Hc2. destruct Htook2 as (_ & Ef2 & _ & _ & _ & _).
  apply wlp_bind, wlp_self, wlp_bind. apply (wlp_mono _ (fun w' _ => rx_ok read shut w'.1)).
  { case_bool_decide as Hh; [|by apply wlp_ret]. apply wlp_take_fin; [done| |done]. intros Hs Hf. rewrite Hc2, Hc1. apply Hcan; congruence. }
  intros w3 [done_|err] Hw3; [|done]. apply wlp_bind, wlp_self, wlp_bind.
  apply (wlp_mono _ (fun w' _ => rx_ok read shut w'.1)).
  { apply (preserves_keeps stream); [|done]. apply keeps_if; [apply keeps_bind; auto with keeps|auto with keeps]. }
  intros w4 [[]|err] Hw4; [|done]. apply wlp_bind. eapply wlp_mono; [apply (preserves_keeps stream); [auto with keeps|exact Hw4]|].
  intros w5 [[]|err] Hw5; [by apply wlp_ret|done].
Qed.

(** ** A segment from first test to last *)

(** What is known between the parts of [on_segment]: the stream has not moved
    since [t0]. *)
Definition midway (read : list Z) (shut : bool) (t0 t : Tcb) : Prop :=
  rx_ok read shut t /\ irs t = irs t0 /\ (shut = false -> fin_received t = false -> fin_received t0 = false /\ received t = received t0).

Lemma midway_refl read shut t : rx_ok read shut t -> midway read shut t t.
Proof. intros H. split; [done|]. by split. Qed.

Lemma midway_view read shut t0 w w' : rx w' = rx w -> midway read shut t0 w.1 -> midway read shut t0 w'.1.
Proof.
  intros E (H1 & H2 & H3). split; [by apply (rx_ok_view stream read shut w)|]. unfold rx in E. injection E as -> _ _ _ -> -> _ _ _. by split.
Qed.

Lemma wlp_midway {A} (m : TM A) read shut t0 w (P : State -> Prop) :
  keeps rx m -> midway read shut t0 w.1 -> P (tstate w.1) ->
  wlp m (fun w' _ => midway read shut t0 w'.1 /\ P (tstate w'.1)) w.
Proof.
  intros Hk Hm HP. apply (wlp_keeps rx); [done|]. intros w' r E. split; [by apply (midway_view read shut t0 w)|].
  unfold rx in E. by injection E as _ _ _ _ _ _ _ _ ->.
Qed.

Lemma wlp_on_handshake read shut w g :
  rx_ok read shut w.1 -> tstate w.1 <> Closed ->
  wlp (on_handshake g) (fun w' r => rx_ok read shut w'.1 /\
    match r with inl (true, _) => midway read shut w.1 w'.1 /\ (tstate w'.1 <> SynReceived /\ tstate w'.1 <> Closed) | _ => True end) w.
Proof.
  intros Hw Hc. unfold on_handshake. apply wlp_bind, wlp_self. case_bool_decide as Hs.
  - destruct (_ && _).
    + apply wlp_bind, wlp_update, wlp_ret.
      assert (H1 : rx_ok read shut (set_state Established w.1)).
      { apply rx_state; [done|done| |done]. intros Hf Hsh. pose proof (rx_after_fin _ _ _ _ Hw Hf Hsh) as Hfin. by rewrite Hs in Hfin. }
      split; [by apply (rx_same stream read shut (set_state Established w.1))|]. split; [|done].
      split; [by apply (rx_same stream read shut (set_state Established w.1))|done].
    + apply wlp_bind. eapply wlp_mono; [apply (preserves_keeps stream); [auto with keeps|exact Hw]|]. intros w1 [[]|e] Hw1; [by apply wlp_ret|done].
  - apply wlp_ret. split; [done|]. split; [by apply midway_refl|done].
Qed.

(** A state the other end has finished in, or nobody reads. *)
Lemma rx_not_open read shut t : rx_ok read shut t -> still_sending (tstate t) = false -> shut = false -> fin_received t = true.
Proof.
  intros Hw Hst Hs. destruct (fin_received t) eqn:Hf; [done|]. by rewrite (rx_before_fin _ _ _ _ Hw Hf Hs) in Hst.
Qed.

Lemma midway_closed read shut t0 t1 (n1 : N) w' :
  rx_ok read shut t1 -> irs t1 = irs t0 -> (shut = false -> fin_received t1 = true) -> rx w' = rx (t1, n1) ->
  midway read shut t0 w'.1 /\ (shut = false -> fin_received w'.1 = true).
Proof.
  intros Hok Hi Hf E. destruct (rx_fields _ _ E) as (Ef & _ & _ & Ei & _). cbn [fst] in Ef, Ei. rewrite Ef. split; [|done].
  split; [exact (rx_ok_view stream read shut (t1, n1) w' E Hok)|]. split; [congruence|]. intros Hs Hf'. rewrite Ef, Hf in Hf' by done. done.
Qed.

Lemma wlp_move_close read shut t0 w :
  midway read shut t0 w.1 -> tstate w.1 <> SynReceived /\ tstate w.1 <> Closed ->
  wlp move_close (fun w' _ => midway read shut t0 w'.1 /\ (shut = false -> fin_received w'.1 = false -> can_receive w'.1 = true)) w.
Proof.
  intros Hm [Hns Hnc]. pose proof Hm as (Hw & Hi & Hrcv).
  assert (Hcan : shut = false -> fin_received w.1 = false -> can_receive w.1 = true).
  { intros Hs Hf. destruct Hw as [n e ? ? Hr Ha Hst|? Hf'|Hs']; [|by rewrite Hf' in Hf|by rewrite Hs' in Hs].
    unfold can_receive. rewrite Hr, Ha. by destruct (tstate w.1). }
  unfold move_close. apply wlp_bind, wlp_self. destruct (fin_acknowledged w.1); [|by apply wlp_ret].
  destruct (tstate w.1) eqn:Est; try (by apply wlp_ret).
  - apply wlp_bind, wlp_enter_fin_wait_2. intros w' E. apply wlp_ret. destruct (rx_fields _ _ E) as (Ef & _ & _ & _ & _ & Ec). split.
    + apply (midway_view read shut t0 _ w' E). split; [|by split]. apply rx_state; [done|done| |done]. intros Hf Hsh.
      pose proof (rx_after_fin _ _ _ _ Hw Hf Hsh) as Hfin. by rewrite Est in Hfin.
    + rewrite Ec, Ef. intros Hs Hf. specialize (Hcan Hs Hf). unfold can_receive in *. rewrite Est in Hcan. exact Hcan.
  - apply wlp_bind, wlp_enter_time_wait. intros w' E. apply wlp_ret.
    pose proof (rx_not_open read shut w.1 Hw ltac:(by rewrite Est)) as Hnf. destruct (time_waited_fields w.1) as [Ei Ef].
    destruct (midway_closed read shut t0 (time_waited w.1) w.2 w') as [Hm' Hf']; [by apply rx_time_waited|by rewrite Ei|by rewrite Ef|done|]. split; [done|]. intros Hs Hf. by rewrite Hf' in Hf.
  - apply wlp_bind, wlp_update, wlp_ret. pose proof (rx_not_open read shut w.1 Hw ltac:(by rewrite Est)) as Hnf.
    split; [|intros Hs Hf; cbn in Hf; by rewrite Hnf in Hf]. split; [|done]. by apply (rx_same stream read shut (set_state Closed w.1)), rx_closed.
Qed.

Lemma wlp_on_reset read shut w g : rx_ok read shut w.1 -> wlp (on_reset g) (fun w' _ => rx_ok read shut w'.1) w.
Proof.
  intros Hw. unfold on_reset. apply wlp_bind, wlp_self. destruct (negb _).
  { apply (preserves_keeps stream); [apply keeps_bind; auto with keeps|done]. }
  apply wlp_bind, wlp_update, wlp_bind, wlp_drop. intros w1 E1. apply wlp_bind, wlp_update, wlp_ret.
  apply (rx_same stream read shut w1.1); [by destruct (error w1.1)|]. apply (rx_ok_view stream read shut _ w1 E1). cbn [fst].
  apply rx_let_go. by apply (rx_same stream read shut (set_state Closed w.1)), rx_closed.
Qed.

Lemma wlp_on_open_segment read shut w g :
  rx_ok read shut w.1 -> tstate w.1 <> Closed ->
  (shut = false -> fin_received w.1 = false -> speaks_of stream w.1 (position read w.1) g) ->
  wlp (on_open_segment g) (fun w' _ => rx_ok read shut w'.1) w.
Proof.
  intros Hw Hc Hsp. unfold on_open_segment. apply wlp_bind.
  eapply wlp_mono; [apply (wlp_midway _ read shut w.1 w (fun s => s <> Closed)); [auto with keeps|by apply midway_refl|done]|].
  intros w1 [ok|e] [Hm1 Hc1]; [|by apply Hm1]. pose proof Hm1 as (Hw1 & Hi1 & Hr1).
  destruct ok; cbn [negb]; [|by apply (preserves_keeps stream); [auto with keeps|]].
  destruct (Segment.has _ Segment.RST); [by apply wlp_on_reset|].
  destruct (Segment.has _ Segment.SYN); [by apply (preserves_keeps stream); [apply keeps_bind; auto with keeps|]|].
  destruct (Segment.has _ Segment.ACK); cbn [negb]; [|by apply wlp_ret].
  apply wlp_bind, wlp_self, wlp_bind. eapply wlp_mono; [by apply (wlp_on_handshake read shut w1 g)|].
  intros w2 [[go_on opened_]|e] [Hw2 H2]; [|done]. destruct go_on; cbn [negb]; [|by apply wlp_ret]. destruct H2 as [Hm2 Hs2].
  set (P := fun s => s <> SynReceived /\ s <> Closed).
  apply wlp_bind. eapply wlp_mono; [apply (wlp_midway _ read shut w1.1 w2 P); [auto with keeps|done|done]|].
  intros w3 [acked|e] [Hm3 Hs3]; [|by apply Hm3]. apply wlp_bind.
  eapply wlp_mono; [apply (wlp_midway _ read shut w1.1 w3 P); [apply keeps_if; auto with keeps|done|done]|].
  intros w4 [[]|e] [Hm4 Hs4]; [|by apply Hm4]. apply wlp_bind.
  eapply wlp_mono; [apply (wlp_midway _ read shut w1.1 w4 P); [auto with keeps|done|done]|].
  intros w5 [[]|e] [Hm5 Hs5]; [|by apply Hm5]. apply wlp_bind. eapply wlp_mono; [by apply (wlp_move_close read shut w1.1 w5)|].
  intros w6 [closed|e] [Hm6 Hcan]; [|by apply Hm6]. destruct Hm6 as (Hw6 & Hi6 & Hr6).
  apply wlp_bind. eapply wlp_mono; [apply (wlp_on_data read shut w6 g); [done|done|]|].
  - intros Hs Hf. destruct (Hr6 Hs Hf) as [Hf1 E6]. destruct (Hr1 Hs Hf1) as [Hf0 E1].
    specialize (Hsp Hs Hf0). unfold speaks_of, position in *. rewrite Hi6, Hi1, E6, E1. exact Hsp.
  - intros w7 [taken|e] Hw7; [by apply wlp_ret|done].
Qed.

Lemma rx_opened read shut t : rx_ok read shut t -> opened (tstate t) = true.
Proof. intros [n e ? ? ? ? Hs|? ? ? Hs|? ? Hs]; [by destruct (tstate t)|by destruct (tstate t)|done]. Qed.

Lemma wlp_on_segment read shut w g :
  rx_ok read shut w.1 -> (shut = false -> fin_received w.1 = false -> speaks_of stream w.1 (position read w.1) g) ->
  wlp (on_segment g) (fun w' _ => rx_ok read shut w'.1) w.
Proof.
  intros Hw Hsp. unfold on_segment. apply wlp_bind, wlp_self. pose proof (rx_opened _ _ _ Hw) as Ho.
  destruct (tstate w.1) eqn:Est; try done; try (by apply wlp_ret); apply wlp_on_open_segment; rewrite ?Est; done.
Qed.

(** ** What the program and the clock do *)

Lemma rx_read read shut t k :
  rx_ok read shut t -> rx_ok (read ++ take k (received t)) shut (set_received (drop k (received t)) t).
Proof.
  intros Hw. set (t1 := set_received _ _).
  assert (Hsplit : (read ++ take k (received t)) ++ received t1 = read ++ received t).
  { unfold t1. cbn. rewrite <- app_assoc. f_equal. apply take_drop. }
  destruct Hw as [n e ? ? ? ? ? (? & ? & Hin)|? ? ? ? Hin|? ? ? Hin]; rewrite <- Hsplit in Hin;
    [by apply (rx_open _ _ _ _ n e)|by apply rx_finished|by apply rx_shut].
Qed.

Lemma wlp_read_data read shut w room :
  rx_ok read shut w.1 ->
  wlp (Tcp.read room false) (fun w' r => rx_ok (read ++ match r with inl data => data | inr _ => [] end) shut w'.1) w.
Proof.
  intros Hw. unfold Tcp.read. apply wlp_bind, wlp_self. destruct (negb _).
  - set (k := Z.to_nat _). apply wlp_bind.
    apply (wlp_mono _ (fun w' r => rx_ok (read ++ take k (received w.1)) shut w'.1 /\ match r with inl _ => True | inr _ => False end)).
    + apply wlp_bind, wlp_update, wlp_bind, wlp_self, wlp_bind, wlp_update, wlp_bind, wlp_self. cbn [fst snd].
      pose proof (rx_read read shut w.1 k Hw) as H1. set (t1 := set_received _ _) in *.
      assert (H2 : rx_ok (read ++ take k (received w.1)) shut (open_window false t1)).
      { pose proof (keeps_open_window (N := unit) false (t1, tt)) as Hk. by apply (rx_same stream _ shut t1). }
      apply wlp_and; [apply (preserves_keeps stream); [apply keeps_if; auto with keeps|done]|apply quiet_if; [apply quiet_acknowledge|apply quiet_ret]].
    + intros w' [[]|err] [H1 H2]; [by apply wlp_ret|done].
  - assert (H0 : rx_ok (read ++ []) shut w.1) by (by rewrite app_nil_r).
    destruct (_ =? 0); [by apply wlp_ret|]. destruct (_ || _); [by apply wlp_ret|].
    destruct (tstate w.1) eqn:Est; try (by apply wlp_throw). apply wlp_bind, wlp_update. cbn [fst].
    assert (H1 : rx_ok (read ++ []) shut (set_error None w.1)) by (by apply (rx_same stream _ shut w.1)).
    destruct (error w.1); [by apply wlp_throw|by apply wlp_ret].
Qed.

Lemma preserves_peek room : preserves stream (Tcp.read (N := N) room true).
Proof.
  apply preserves_keeps. unfold Tcp.read, self. repeat first [keep_step | apply keeps_update; intros ? ?; reflexivity].
Qed.

Lemma preserves_abort : preserves stream (abort (N := N)).
Proof.
  unfold abort. apply preserves_bind; [apply preserves_keeps; apply keeps_gets|intros t].
  apply preserves_bind; [apply preserves_keeps, keeps_if; auto with keeps|intros _]. apply preserves_bind; [|intros _; apply preserves_drop].
  apply preserves_update. intros read shut t' Ht. by apply (rx_same stream read shut (set_state Closed t')), rx_closed.
Qed.

Lemma preserves_shutdown_write : preserves stream (shutdown_write (N := N)).
Proof.
  intros read shut w Hw. unfold shutdown_write. apply wlp_bind, wlp_self. destruct (fin_queued w.1); [by apply wlp_ret|].
  assert (Hgo : forall s', opened s' = true -> (fin_received w.1 = false -> shut = false -> still_sending s' = true) ->
    (fin_received w.1 = true -> shut = false -> finished s' = true) ->
    wlp (update (fun t => set_state s' (set_fin_queued true t)) ;;; output) (fun w' _ => rx_ok read shut w'.1) w).
  { intros s' H1 H2 H3. apply wlp_bind, wlp_update. apply (preserves_keeps stream); [auto with keeps|]. cbn [fst].
    by apply (rx_same stream read shut (set_state s' w.1)), rx_state. }
  pose proof (rx_after_fin stream read shut w.1 Hw) as Hfin. pose proof (rx_before_fin stream read shut w.1 Hw) as Hbef.
  destruct (tstate w.1) eqn:Est; try (by apply wlp_ret); try (apply Hgo; [done|done|]; intros Hf Hs; by specialize (Hfin Hf Hs)).
  all: try (apply wlp_update; cbn [fst]; by apply (rx_same stream read shut (set_state Closed w.1)), rx_closed).
Qed.

Lemma preserves_on_timer now : preserves stream (on_timer (N := N) now).
Proof.
  unfold on_timer. apply preserves_bind; [apply preserves_keeps, keeps_gets|intros t0].
  apply preserves_bind; [destruct (_ && _); [apply preserves_drop|apply preserves_keeps; auto with keeps]|intros _].
  apply preserves_bind; [apply preserves_keeps, keeps_gets|intros t]. destruct (negb _).
  { destruct (_ <=? _); [|apply preserves_keeps; auto with keeps]. apply preserves_bind; [|intros _; apply preserves_keeps; auto with keeps].
    apply preserves_update. intros read shut t' Ht. by apply (rx_same stream read shut (set_state Closed t')), rx_closed. }
  destruct (_ || _); [apply preserves_keeps; auto with keeps|]. unfold on_timeout.
  apply preserves_bind; [apply preserves_keeps, keeps_gets|intros t1]. apply preserves_bind; [apply preserves_keeps; auto with keeps|intros n].
  apply preserves_bind; [apply preserves_keeps, keeps_update; done|intros _]. destruct (_ <? n).
  { apply preserves_bind; [apply preserves_abort|intros _]. apply preserves_keeps. apply keeps_bind; [by apply keeps_update|auto with keeps]. }
  apply preserves_keeps. repeat first [keep_step | apply keeps_update; intros ? ?; reflexivity].
Qed.

(** The program stops reading. *)
Lemma rx_stop read shut t t' :
  rx_ok read shut t -> received t' = received t -> tstate t' = tstate t -> read_shutdown t' || abandoned t' = true -> rx_ok read true t'.
Proof.
  intros Hw Er Es Hfl. pose proof (rx_opened _ _ _ Hw) as Ho. apply rx_shut; [done|done|by rewrite Es|]. rewrite Er.
  destruct Hw as [n e ? ? ? ? ? (_ & _ & ->)|? ? ? ? ->|? ? ? ?]; [apply prefix_take|done|done].
Qed.

Lemma wlp_abandon read shut w : rx_ok read shut w.1 -> wlp abandon (fun w' _ => rx_ok read true w'.1) w.
Proof.
  intros Hw. unfold abandon. apply wlp_bind, wlp_update. cbn [fst snd].
  assert (H1 : rx_ok read true (set_abandoned true w.1)) by (apply (rx_stop read shut w.1); [done..|apply orb_true_r]).
  apply wlp_bind. eapply wlp_mono; [exact (preserves_drop stream read true (set_abandoned true w.1, w.2) H1)|]. intros w1 [[]|e] Hw1; [|done].
  apply wlp_bind, wlp_self. apply (preserves_keeps stream); [|done]. unfold clock, below. repeat first [keep_step | apply keeps_update; intros ? ?; reflexivity].
Qed.

(** ** A run of a connection *)

(** The connection, the world below, what the program has read, and whether it
    stopped reading. *)
Record Conn := mkConn { c_tcb : Tcb; c_net : N; c_read : list Z; c_shut : bool }.

Inductive cstep : Conn -> Conn -> Prop :=
| step_segment g t n t' n' r rd sh :
    (sh = false -> fin_received t = false -> speaks_of stream t (position rd t) g) ->
    on_segment g (t, n) = ((t', n'), Ok r) -> cstep (mkConn t n rd sh) (mkConn t' n' rd sh)
| step_read room t n t' n' data rd sh :
    Tcp.read room false (t, n) = ((t', n'), Ok data) -> cstep (mkConn t n rd sh) (mkConn t' n' (rd ++ data) sh)
| step_read_fails room peek t n t' n' e rd sh :
    Tcp.read room peek (t, n) = ((t', n'), Err e) -> cstep (mkConn t n rd sh) (mkConn t' n' rd sh)
| step_peek room t n t' n' data rd sh :
    Tcp.read room true (t, n) = ((t', n'), Ok data) -> cstep (mkConn t n rd sh) (mkConn t' n' rd sh)
| step_write buf t n t' n' k rd sh :
    write buf (t, n) = ((t', n'), Ok k) -> cstep (mkConn t n rd sh) (mkConn t' n' rd sh)
| step_write_fails buf t n t' n' e rd sh :
    write buf (t, n) = ((t', n'), Err e) -> cstep (mkConn t n rd sh) (mkConn t' n' rd sh)
| step_finish t n t' n' rd sh :
    shutdown_write (t, n) = ((t', n'), Ok tt) -> cstep (mkConn t n rd sh) (mkConn t' n' rd sh)
| step_stop_reading t n rd sh :
    cstep (mkConn t n rd sh) (mkConn (set_read_shutdown true t) n rd true)
| step_abort t n t' n' rd sh :
    abort (t, n) = ((t', n'), Ok tt) -> cstep (mkConn t n rd sh) (mkConn t' n' rd sh)
| step_abandon t n t' n' rd sh :
    abandon (t, n) = ((t', n'), Ok tt) -> cstep (mkConn t n rd sh) (mkConn t' n' rd true)
| step_timer now t n t' n' r rd sh :
    on_timer now (t, n) = ((t', n'), Ok r) -> cstep (mkConn t n rd sh) (mkConn t' n' rd sh)
| step_below t n n' rd sh :
    (** The clock moves, other connections send. *)
    cstep (mkConn t n rd sh) (mkConn t n' rd sh).

(** The handshake is done, or the last of it is awaited, and nothing has
    arrived. *)
Definition started (t : Tcb) : Prop :=
  (tstate t = SynReceived \/ tstate t = Established) /\ receive_next t = wrapping_add (irs t) 1 /\
  received t = [] /\ out_of_order t = [] /\ held_fin t = None /\ fin_received t = false /\ read_shutdown t = false /\ abandoned t = false.

Lemma started_ok t : started t -> rx_ok [] false t.
Proof.
  intros (Hs & Hn & Hr & Ho & Hf & H1 & H2 & H3). apply (rx_open _ _ _ _ 0 0); try done.
  - by destruct Hs as [-> | ->].
  - split_and!; [lia|lia|unfold seqno, wrapping_add in *; rewrite Hn; f_equal; lia|by rewrite Hr].
  - rewrite Ho. constructor.
  - intros f Hff. by rewrite Hf in Hff.
Qed.

Lemma cstep_ok c c' : cstep c c' -> rx_ok (c_read c) (c_shut c) (c_tcb c) -> rx_ok (c_read c') (c_shut c') (c_tcb c').
Proof.
  intros Hst Hc. destruct Hst as [g t n t' n' r rd sh Hsp E|room t n t' n' data rd sh E|room peek t n t' n' e rd sh E|room t n t' n' data rd sh E
    |buf t n t' n' k rd sh E|buf t n t' n' e rd sh E|t n t' n' rd sh E|t n rd sh|t n t' n' rd sh E|t n t' n' rd sh E|now t n t' n' r rd sh E|t n n' rd sh]; cbn in *.
  - exact (wlp_ended _ _ _ _ _ E (wlp_on_segment rd sh (t, n) g Hc Hsp)).
  - exact (wlp_ended _ _ _ _ _ E (wlp_read_data rd sh (t, n) room Hc)).
  - destruct peek; [exact (wlp_ended _ _ _ _ _ E (preserves_peek room rd sh (t, n) Hc))|].
    pose proof (wlp_ended _ _ _ _ _ E (wlp_read_data rd sh (t, n) room Hc)) as H. cbn in H. by rewrite app_nil_r in H.
  - exact (wlp_ended _ _ _ _ _ E (preserves_peek room rd sh (t, n) Hc)).
  - exact (wlp_ended _ _ _ _ _ E (preserves_keeps stream _ (keeps_write buf) rd sh (t, n) Hc)).
  - exact (wlp_ended _ _ _ _ _ E (preserves_keeps stream _ (keeps_write buf) rd sh (t, n) Hc)).
  - exact (wlp_ended _ _ _ _ _ E (preserves_shutdown_write rd sh (t, n) Hc)).
  - by apply (rx_stop rd sh t).
  - exact (wlp_ended _ _ _ _ _ E (preserves_abort rd sh (t, n) Hc)).
  - exact (wlp_ended _ _ _ _ _ E (wlp_abandon rd sh (t, n) Hc)).
  - exact (wlp_ended _ _ _ _ _ E (preserves_on_timer now rd sh (t, n) Hc)).
  - done.
Qed.

Lemma run_ok c c' : rtc cstep c c' -> rx_ok (c_read c) (c_shut c) (c_tcb c) -> rx_ok (c_read c') (c_shut c') (c_tcb c').
Proof. induction 1; [done|]. eauto using cstep_ok. Qed.

(** C6: Whatever order segments arrive in, however they overlap and repeat, and
    whatever the program and the clock do meanwhile: what the program has read,
    with what waits to be read, is a first part of the other end's stream; while
    it reads, the byte asked for next is the one after that part, so nothing is
    acknowledged that was not kept; and the end of the stream is reported only
    when all of it has been delivered. *)
Theorem stream_in_order t n t' n' rd sh :
  started t -> rtc cstep (mkConn t n [] false) (mkConn t' n' rd sh) ->
  rd ++ received t' `prefix_of` stream /\
  (sh = false -> fin_received t' = false -> receive_next t' = as_u32 (irs t' + 1 + len (rd ++ received t'))) /\
  (sh = false -> fin_received t' = true -> rd ++ received t' = stream).
Proof.
  intros Ht Hr. pose proof (run_ok _ _ Hr (started_ok t Ht)) as Hok. cbn in Hok.
  destruct Hok as [k e Hs Hf ? ? ? Hin|Hs Hf ? ? Hall|Hs ? ? Hp].
  - pose proof (in_order_position _ _ _ _ _ Hin) as Hp. destruct Hin as (Hk & Hn & Hrd). split_and!; [rewrite Hrd; apply prefix_take| |by rewrite Hf].
    intros _ _. rewrite Hn. unfold seqno, position in *. by rewrite Hp.
  - split_and!; [by rewrite Hall|by rewrite Hf|done].
  - split_and!; [done|by rewrite Hs|by rewrite Hs].
Qed.
End stream.

(** * TCP: a finish sent twice

    When the clock runs out, the number of a finish that has been sent is
    forgotten, and what is sent again is one segment. If more than that is
    outstanding the finish does not go out again at once, and an acknowledgement
    of everything, the finish included, that comes in late is not taken as one of
    the finish. Another finish goes out with the next number, which the other end,
    having seen the stream end, never acknowledges. *)

Section finish.
Context {N : Type} {HW : Wire N} {HS : Sorter}.
Implicit Types (t : Tcb) (w : Tcb * N) (g : Segment.Segment).

(** The sending half, and whether the other end's finish is about to be taken. *)
Definition fx w :=
  let t := w.1 in
  ((tstate t, send_unacknowledged t, send_next t, send_high t, pending t, fin_queued t, fin_sequence t),
   (fin_acknowledged t, expire_at t, retries t, error t, held_fin t, receive_next t, peer_mss t)).

Ltac fx_steps := repeat first [keep_step | apply keeps_update; intros ? ?; try reflexivity].

Lemma fx_send flags sequence payload with_mss : keeps fx (send_segment flags sequence payload with_mss).
Proof. unfold send_segment, source_address, self, below. fx_steps. Qed.
#[local] Hint Resolve fx_send : keeps.
Lemma fx_acknowledge : keeps fx acknowledge.
Proof. unfold acknowledge, self. fx_steps. Qed.
Lemma fx_time_segment sequence : keeps fx (time_segment sequence).
Proof. unfold time_segment, self, clock, below. fx_steps. Qed.
Lemma fx_arm : keeps fx arm_retransmit.
Proof. unfold arm_retransmit, self, clock, below. fx_steps. Qed.
Lemma fx_account : keeps fx account.
Proof. unfold account, self. fx_steps. Qed.
#[local] Hint Resolve fx_acknowledge fx_time_segment fx_arm fx_account : keeps.
Lemma fx_retransmit_head : keeps fx retransmit_head.
Proof. unfold retransmit_head, self, clock, below. fx_steps. Qed.
#[local] Hint Resolve fx_retransmit_head : keeps.
Lemma fx_on_duplicate : keeps fx on_duplicate.
Proof. unfold on_duplicate, enter_recovery, count_fast_retransmit, self. fx_steps. Qed.
Lemma fx_respond ack acked : keeps fx (respond ack acked).
Proof. unfold respond, count_fast_retransmit, self. fx_steps. Qed.
Lemma fx_take_sample ack : keeps fx (take_sample ack).
Proof. unfold take_sample, measure, estimated_rto, ns_to_ticks, self, clock, below. fx_steps. Qed.
Lemma fx_take_window g : keeps fx (update (take_window g)).
Proof. apply keeps_update. intros t n. unfold take_window. by destruct (_ || _). Qed.
Lemma fx_open_window b : keeps fx (update (open_window b)).
Proof. apply keeps_update. intros t n. unfold open_window. destruct (seq_lt _ _); destruct (negb _ || _); try done; by destruct (b || _). Qed.
Lemma fx_acceptable g : keeps fx (acceptable g).
Proof. unfold acceptable, self. fx_steps. Qed.
Lemma fx_on_unacceptable g : keeps fx (on_unacceptable g).
Proof. unfold on_unacceptable, send_syn_ack, self. fx_steps. Qed.
#[local] Hint Resolve fx_on_duplicate fx_respond fx_take_sample fx_take_window fx_open_window fx_acceptable fx_on_unacceptable : keeps.

(** The end of the stream has been said and not acknowledged: the states before
    FIN-WAIT-2, TIME-WAIT and CLOSED on the three ways to close. *)
Definition closing (s : State) : bool := match s with FinWait1 | Closing | LastAck => true | _ => false end.

(** Between the sender's variables and the finish: [u] is the first byte that is
    not acknowledged, [next] the number sent next, [high] the highest one sent, all
    counted from [u]; [fin] is the number of the finish, if it is known. *)
Record unfinished (u next high : Z) (data : list Z) (fin : option Z) (k : Z) t : Prop := {
  un_state : closing (tstate t) = true;
  un_queued : fin_queued t = true;
  un_ack : fin_acknowledged t = false;
  un_first : send_unacknowledged t = as_u32 u;
  un_next : send_next t = as_u32 (u + next);
  un_high : send_high t = as_u32 (u + high);
  un_data : pending t = data;
  un_fin : fin_sequence t = fin;
  un_expire : expire_at t = 0;
  un_retries : retries t = k;
  un_peer : held_fin t <> Some (receive_next t);
  un_mss : 0 < peer_mss t;
}.

Lemma unfinished_view u next high data fin k w w' : fx w' = fx w -> unfinished u next high data fin k w.1 -> unfinished u next high data fin k w'.1.
Proof. unfold fx. intros [= E1 E2 E3 E4 E5 E6 E7 E8 E9 E10 _ E12 E13 E14] []. constructor; congruence. Qed.

(** What a run that returns leaves of the block. *)
Definition leaves {A} (m : TM A) (P : Tcb -> Prop) w : Prop := wlp m (fun w' r => match r with inl _ => P w'.1 | inr _ => True end) w.

Lemma leaves_bind {A B} (m : TM A) (f : A -> TM B) P Q w : leaves m P w -> (forall w' a, P w'.1 -> leaves (f a) Q w') -> leaves (bind m f) Q w.
Proof. intros Hm Hf. apply wlp_bind. eapply wlp_mono; [exact Hm|]. intros w' [a|e] H; [by apply Hf|done]. Qed.

Lemma leaves_mono {A} (m : TM A) (P Q : Tcb -> Prop) w : leaves m P w -> (forall t, P t -> Q t) -> leaves m Q w.
Proof. intros Hm HQ. eapply wlp_mono; [exact Hm|]. intros w' [a|e] H; [by apply HQ|done]. Qed.

Lemma leaves_update f (P : Tcb -> Prop) w : P (f w.1) -> leaves (update f) P w.
Proof. intros H. by apply wlp_update. Qed.

Lemma leaves_unseen {A} (m : TM A) u next high data fin k w :
  keeps fx m -> unfinished u next high data fin k w.1 -> leaves m (unfinished u next high data fin k) w.
Proof. intros Hm Hw. apply (wlp_keeps fx); [done|]. intros w' [a|e] E; [by apply (unfinished_view _ _ _ _ _ _ w)|done]. Qed.

(** ** Output *)

Lemma sent_unfinished u next high data fin k t next' fin' :
  unfinished u next high data fin k t -> 0 <= next' <= high -> high <= 65538 ->
  unfinished u next' high data fin k (sent_through (as_u32 (u + next')) t) /\
  unfinished u next' high data fin' k (sent_through (as_u32 (u + next')) (set_fin_sequence fin' t)).
Proof.
  intros Ht Hn Hh. unfold sent_through. cbn [send_high set_send_next set_fin_sequence]. rewrite (un_high _ _ _ _ _ _ _ Ht), seq_lt_pos by (unfold near; lia).
  replace (u + high <? u + next') with false by lia. destruct Ht. split; constructor; done.
Qed.

(** A segment is on its way: what was sent is noted, and the clock set. *)
Lemma leaves_sent {A} u next high data fin k u' next' high' data' fin' k' f (m : TM A) flags sequence payload w :
  unfinished u next high data fin k w.1 -> (forall t, unfinished u next high data fin k t -> unfinished u' next' high' data' fin' k' (f t)) -> keeps fx m ->
  leaves (send_segment flags sequence payload false ;;; update f ;;; m) (unfinished u' next' high' data' fin' k') w.
Proof.
  intros Hw Hf Hm. eapply leaves_bind; [by apply leaves_unseen; [auto with keeps|]|]. intros w1 [] Hw1.
  eapply leaves_bind; [by apply leaves_update, Hf|]. intros w2 [] Hw2. by apply leaves_unseen.
Qed.

(** While more is waiting than may be sent, a turn sends data alone. *)
Definition sending u usable high data k t : Prop := exists off, 0 <= off <= usable /\ unfinished u off high data None k t.

Lemma leaves_turn_data u usable high data k w :
  sending u usable high data k w.1 -> usable < len data <= high -> high <= 65537 ->
  leaves (output_turn (as_u32 (u + usable)) tt) (sending u usable high data k) w.
Proof.
  intros (off & Hoff & Hw) Hlen Hh. unfold output_turn. apply wlp_bind, wlp_self.
  rewrite (un_first _ _ _ _ _ _ _ Hw), (un_next _ _ _ _ _ _ _ Hw), (un_data _ _ _ _ _ _ _ Hw), !wrapping_sub_pos, seq_lt_pos by (unfold near; lia).
  rewrite !as_u32_small by (unfold u32_max; lia). unfold saturating_sub. match goal with |- context [0 <? ?x] => replace (0 <? x) with true by lia end.
  destruct (negb _) eqn:E1; [apply wlp_ret; by exists off|]. destruct (_ =? 0) eqn:E2; [apply wlp_ret; by exists off|].
  pose proof (un_mss _ _ _ _ _ _ _ Hw) as Hm. set (n := Z.min _ _) in *.
  assert (Hn : 0 < n <= usable - off) by (unfold n, effective_mss, MSS in *; lia). rewrite wrapping_add_pos, <- Z.add_assoc.
  eapply leaves_mono; [eapply (leaves_sent u off high data None k u (off + as_u32 n) high data None k); [done| |]|].
  - intros t Ht. apply (sent_unfinished _ _ _ _ _ _ t _ None Ht); [rewrite as_u32_small by (unfold u32_max; lia); lia|lia].
  - apply keeps_bind; [apply keeps_if; auto with keeps|intros _]. apply keeps_bind; auto with keeps.
  - intros t H'. rewrite as_u32_small in H' by (unfold u32_max; lia). exists (off + n). split; [lia|done].
Qed.

Lemma leaves_output_data u high data k w :
  let usable := Z.min (send_window w.1) (congestion_window w.1) in
  unfinished u 0 high data None k w.1 -> 0 <= usable < len data -> len data <= high -> high <= 65537 -> leaves output (sending u usable high data k) w.
Proof.
  intros usable Hw Hlen Hdata Hh. unfold output. apply wlp_bind, wlp_self. fold usable. rewrite (un_first _ _ _ _ _ _ _ Hw), wrapping_add_pos.
  assert (Hs : sending u usable high data k w.1) by (exists 0; split; [lia|done]).
  destruct (negb _); [by apply wlp_ret|].
  apply (wlp_loop (fun w' => sending u usable high data k w'.1)); [|done]. intros [] w1 Hw1. apply (leaves_turn_data u usable high data k); [done|lia|lia].
Qed.

(** With nothing left to send, the finish goes out if its number is not known. *)
Definition waiting u k t : Prop := unfinished u 1 1 [] (Some (as_u32 u)) k t.
Definition at_end u k t : Prop := waiting u k t \/ exists high, 0 <= high <= 1 /\ unfinished u 0 high [] None k t.

Lemma finish_unfinished u high k t : 0 <= high <= 1 ->
  unfinished u 0 high [] None k t -> waiting u k (sent_through (as_u32 (u + 1)) (set_fin_sequence (Some (as_u32 u)) t)).
Proof.
  intros Hh Ht. unfold sent_through, waiting. cbn [send_high set_send_next set_fin_sequence]. rewrite (un_high _ _ _ _ _ _ _ Ht), seq_lt_pos by (unfold near; lia).
  destruct (u + high <? u + 1) eqn:E; [destruct Ht; constructor; done|]. replace high with 1 in Ht by lia. destruct Ht; constructor; done.
Qed.

Lemma at_end_view u k w w' : fx w' = fx w -> at_end u k w.1 -> at_end u k w'.1.
Proof. intros E [H|(high & Hh & H)]; [left|right; exists high; split; [done|]]; by apply (unfinished_view _ _ _ _ _ _ w). Qed.

Lemma leaves_at_end {A} (m : TM A) u k w : keeps fx m -> at_end u k w.1 -> leaves m (at_end u k) w.
Proof. intros Hm Hw. apply (wlp_keeps fx); [done|]. intros w' [a|e] E; [by apply (at_end_view _ _ w)|done]. Qed.

Lemma leaves_turn_finish u limit k w : at_end u k w.1 -> leaves (output_turn limit tt) (waiting u k) w.
Proof.
  intros Hend. unfold output_turn. apply wlp_bind, wlp_self.
  destruct Hend as [Hw|(high & Hh & Hw)]; rewrite (un_first _ _ _ _ _ _ _ Hw), (un_next _ _ _ _ _ _ _ Hw), (un_data _ _ _ _ _ _ _ Hw), (un_queued _ _ _ _ _ _ _ Hw), (un_fin _ _ _ _ _ _ _ Hw), wrapping_sub_pos.
  - rewrite (as_u32_small (u + 1 - u)) by (unfold u32_max; lia). unfold saturating_sub. rewrite (Z.max_l 0) by (cbn [length]; lia). by apply wlp_ret.
  - rewrite (as_u32_small (u + 0 - u)) by (unfold u32_max; lia). unfold saturating_sub. rewrite (Z.max_l 0) by (cbn [length]; lia).
    cbn [Z.ltb Z.compare andb]. rewrite bool_decide_eq_true_2, Z.add_0_r, wrapping_add_pos by done.
    eapply (leaves_sent u 0 high [] None k u 1 1 [] (Some (as_u32 u)) k); [done|intros t; by apply finish_unfinished|apply keeps_bind; auto with keeps].
Qed.

Lemma at_end_state u k t : at_end u k t -> closing (tstate t) = true /\ pending t = [] /\ fin_acknowledged t = false /\ held_fin t <> Some (receive_next t) /\
  send_unacknowledged t = as_u32 u /\ expire_at t = 0 /\ retries t = k.
Proof. by intros [[]|(high & _ & [])]. Qed.

Lemma leaves_output_finish u k w : at_end u k w.1 -> leaves output (waiting u k) w.
Proof.
  intros Hend. destruct (at_end_state _ _ _ Hend) as (Hs & Hp & _). unfold output. apply wlp_bind, wlp_self.
  replace (can_output (tstate w.1)) with true by (by destruct (tstate w.1)). cbn [negb]. rewrite Hp. cbn [length loop].
  eapply leaves_bind; [by apply leaves_turn_finish|]. intros w' [[]|[]] Hw'; [|by apply wlp_ret]. done.
Qed.

(** ** A segment that only acknowledges *)

Definition pure_ack (number : Z) g : Prop := Segment.flags g = Segment.ACK /\ Segment.payload g = [] /\ Segment.acknowledgement g = number.

Lemma next_acceptable g w number :
  pure_ack number g -> Segment.sequence g = receive_next w.1 -> wlp (acceptable g) (fun w' r => w' = w /\ r = inl true) w.
Proof.
  intros (Hf & Hp & _) Hseq. unfold acceptable. apply wlp_bind, wlp_self. unfold Segment.seq_length. rewrite Hf, Hp. apply wlp_bind, wlp_checked. cbn [length Z.of_nat].
  change (as_u32 _ + _ + _ =? 0) with true. cbv iota. rewrite Hseq. destruct (advertised_window w.1 =? 0) eqn:E; apply wlp_ret; [by rewrite Z.eqb_refl|].
  assert (Hwin : 0 < advertised_window w.1 <= 65535).
  { apply Z.eqb_neq in E. unfold advertised_window, u16_max in *. destruct (seq_le _ _); [done|]. pose proof (as_u32_bounds (receive_high w.1 - receive_next w.1)) as [H _]. unfold wrapping_sub in *. lia. }
  split; [done|]. do 2 f_equal. unfold seq_le, seq_lt, wrapping_sub, wrapping_add, as_u32, as_i32. repeat match goal with |- context [if ?b then _ else _] => destruct b eqn:? end; lia.
Qed.

(** What is left of [on_segment] once the acknowledgement has been dealt with. *)
Lemma leaves_rest g (b : bool) before number (f : bool -> bool -> bool) u k w :
  pure_ack number g -> at_end u k w.1 ->
  leaves ((if b then on_duplicate else ret tt) ;;; update (take_window g) ;;; let! closed := move_close in let! taken := on_data g before in ret (f closed taken))
    (waiting u k) w.
Proof.
  intros (Hf & Hp & _) Hw. eapply leaves_bind; [apply leaves_at_end; [apply keeps_if; auto with keeps|done]|]. intros w1 [] Hw1.
  eapply leaves_bind; [apply leaves_at_end; [auto with keeps|done]|]. intros w2 [] Hw2. destruct (at_end_state _ _ _ Hw2) as (_ & _ & Ha & Hh & _).
  apply wlp_bind. unfold move_close. apply wlp_bind, wlp_self. rewrite Ha.
  apply wlp_ret, wlp_bind. unfold on_data. apply wlp_bind, wlp_self. rewrite Hf, Hp. destruct (trim g w2.1) as [start data] eqn:Et.
  rewrite bool_decide_eq_true_2 by done. cbn [negb orb]. change (Segment.has Segment.ACK Segment.FIN) with false. cbv iota.
  apply wlp_bind, wlp_ret, wlp_bind, wlp_ret, wlp_bind, wlp_self, wlp_bind.
  rewrite bool_decide_eq_false_2 by done. apply wlp_ret, wlp_bind, wlp_self, wlp_bind. cbn [orb andb]. apply wlp_ret.
  eapply leaves_mono; [eapply leaves_bind; [by apply leaves_output_finish|]|by intros t H; exact H]. intros w3 [] H3. by apply wlp_ret.
Qed.
(** An acknowledgement of everything that was sent, the finish included, while the
    number of the finish is forgotten. *)
Lemma leaves_late_ack u off data k w :
  unfinished u off (len data + 1) data None k w.1 -> 0 <= off <= len data -> len data <= 65536 ->
  leaves (on_ack (as_u32 (u + (len data + 1)))) (at_end (u + (len data + 1)) 0) w.
Proof.
  intros Hw Hoff Hl. set (high := len data + 1). unfold on_ack. apply wlp_bind, wlp_self.
  rewrite (un_first _ _ _ _ _ _ _ Hw), (un_high _ _ _ _ _ _ _ Hw), seq_gt_pos, seq_le_pos by (unfold near; lia).
  fold high. replace (u <? u + high) with true by lia. rewrite Z.leb_refl. cbn [andb negb].
  unfold acked_bytes. rewrite (un_fin _ _ _ _ _ _ _ Hw), (un_first _ _ _ _ _ _ _ Hw), (un_ack _ _ _ _ _ _ _ Hw), (un_data _ _ _ _ _ _ _ Hw), wrapping_sub_pos.
  rewrite (as_u32_small (u + high - u)) by (unfold high, u32_max; lia).
  eapply (leaves_bind _ _ (unfinished (u + high) (off - high) 0 [] None k)).
  { apply leaves_update. destruct Hw. constructor; cbn; try done; [by rewrite un_next0; f_equal; lia|by rewrite un_high0, Z.add_0_r|].
    rewrite un_data0. apply drop_ge. unfold high. lia. }
  intros w1 [] Hw1. eapply leaves_bind; [by apply leaves_unseen; [auto with keeps|]|]. intros w2 [] Hw2.
  eapply (leaves_bind _ _ (unfinished (u + high) 0 0 [] None k)).
  { apply leaves_update. rewrite (un_next _ _ _ _ _ _ _ Hw2), (un_first _ _ _ _ _ _ _ Hw2), seq_lt_pos by (unfold near, high; lia).
    replace (_ <? _) with true by (unfold high; lia). destruct Hw2. constructor; cbn; try done. by rewrite Z.add_0_r. }
  intros w3 [] Hw3. eapply (leaves_bind _ _ (unfinished (u + high) 0 0 [] None 0)); [apply leaves_update; destruct Hw3; by constructor|]. intros w4 [] Hw4.
  apply wlp_bind, wlp_self. eapply leaves_bind; [apply leaves_unseen; [|exact Hw4]|].
  { unfold clock, below. fx_steps. }
  intros w5 [] Hw5. eapply leaves_bind; [by apply leaves_unseen; [auto with keeps|]|]. intros w6 [] Hw6. apply wlp_ret. right. exists 0. split; [lia|done].
Qed.

(** An acknowledgement of nothing new. *)
Lemma leaves_same_ack u k w : at_end u k w.1 -> leaves (on_ack (as_u32 u)) (at_end u k) w.
Proof.
  intros Hw. destruct (at_end_state _ _ _ Hw) as (_ & _ & _ & _ & Hu & _). unfold on_ack. apply wlp_bind, wlp_self.
  rewrite Hu, seq_gt_pos by (unfold near; lia). rewrite Z.ltb_irrefl. by apply wlp_ret.
Qed.

(** A segment that is taken: it ends with the finish outstanding. *)
Lemma leaves_accepted g number u k w :
  pure_ack number g -> closing (tstate w.1) = true -> leaves (on_ack number) (at_end u k) w ->
  leaves (let! t := self in
          let before := receive_next t in
          let duplicate := is_duplicate g t in
          let! '(go_on, opened) := on_handshake g in
          if negb go_on then ret false
          else
            let! acked := on_ack (Segment.acknowledgement g) in
            (if duplicate then on_duplicate else ret tt) ;;;
            update (take_window g) ;;;
            let! closed := move_close in
            let! taken := on_data g before in
            ret (opened || acked || closed || taken)) (waiting u k) w.
Proof.
  intros Hg Hs Hack. apply wlp_bind, wlp_self, wlp_bind. unfold on_handshake. apply wlp_bind, wlp_self.
  rewrite bool_decide_eq_false_2 by (intros E; by rewrite E in Hs). apply wlp_ret. cbn [negb]. pose proof Hg as (_ & _ & ->).
  eapply leaves_bind; [exact Hack|]. intros w1 acked Hw1. by apply (leaves_rest g _ _ number (fun closed taken => false || acked || closed || taken)).
Qed.

Lemma on_segment_closing g w (Q : Tcb * N -> bool + Errno -> Prop) : closing (tstate w.1) = true -> wlp (on_open_segment g) Q w -> wlp (on_segment g) Q w.
Proof. intros Hs H. unfold on_segment. apply wlp_bind, wlp_self. by destruct (tstate w.1). Qed.

Lemma leaves_late_segment u off data k g w :
  unfinished u off (len data + 1) data None k w.1 -> 0 <= off <= len data -> len data <= 65536 ->
  pure_ack (as_u32 (u + (len data + 1))) g -> Segment.sequence g = receive_next w.1 ->
  leaves (on_segment g) (waiting (u + (len data + 1)) 0) w.
Proof.
  intros Hw Hoff Hl Hg Hseq. apply on_segment_closing; [apply Hw|]. unfold on_open_segment. apply wlp_bind.
  eapply wlp_mono; [by eapply next_acceptable|]. intros w1 [ok|e] [-> [= ->]]. pose proof Hg as (-> & _ & _). cbn [negb].
  eapply leaves_accepted; [done|apply Hw|by apply (leaves_late_ack u off data k)].
Qed.

Lemma leaves_same_segment u k g w : waiting u k w.1 -> pure_ack (as_u32 u) g -> leaves (on_segment g) (waiting u k) w.
Proof.
  intros Hw Hg. apply on_segment_closing; [apply Hw|]. unfold on_open_segment.
  eapply leaves_bind; [by apply leaves_unseen; [auto with keeps|]|]. intros w1 ok Hw1. destruct ok; cbn [negb]; [|by apply leaves_unseen; [auto with keeps|]].
  pose proof Hg as (-> & _ & _). eapply leaves_accepted; [done|apply Hw1|]. apply leaves_same_ack. by left.
Qed.

(** ** The clock *)

(** Closed, and not in order. *)
Definition timed_out t : Prop := tstate t = Closed /\ error t = Some ETIMEDOUT /\ retransmit_at t = 0 /\ expire_at t = 0 /\ fin_acknowledged t = false.

(** Runs that are held are dropped: nothing else is seen. *)
Lemma wlp_drop_unfinished u next high data fin k w :
  unfinished u next high data fin k w.1 ->
  wlp drop_out_of_order (fun w' r => unfinished u next high data fin k w'.1 /\ retransmit_at w'.1 = retransmit_at w.1 /\ send_window w'.1 = send_window w.1) w.
Proof.
  intros Hw. unfold drop_out_of_order, account. apply wlp_bind, wlp_update, wlp_bind, wlp_self, wlp_bind, wlp_modify, wlp_update. cbn [fst snd].
  split; [|done]. destruct Hw. by constructor.
Qed.

Lemma leaves_abort_timed_out w : closing (tstate w.1) = true -> expire_at w.1 = 0 -> fin_acknowledged w.1 = false -> leaves (abort ;;; update (set_error (Some ETIMEDOUT)) ;;; ret true) timed_out w.
Proof.
  intros Hs He Ha. apply wlp_bind. unfold abort. apply wlp_bind, wlp_self, wlp_bind. replace (is_synchronised (tstate w.1)) with true by (by destruct (tstate w.1)). cbn [orb].
  eapply (wlp_mono _ (fun w' _ => fx w' = fx w)); [apply fx_send|]. intros w1 [[]|e] E; [|done]. apply wlp_bind, wlp_update, wlp_bind, wlp_update, wlp_bind, wlp_self, wlp_bind, wlp_modify, wlp_update.
  apply wlp_bind, wlp_update, wlp_ret. cbn. unfold fx in E. injection E as _ _ _ _ _ _ _ E1 E2 _ _ _ _ _. split_and!; [done..| |]; cbn; congruence.
Qed.

(** The last part of [send_again]. *)
Definition resend : TM (N := N) unit :=
  let! t := self in
  match pending t with
  | byte :: _ =>
      if send_window t =? 0 then send_segment Segment.ACK (send_next t) [byte] false ;;; update (sent_through (wrapping_add (send_next t) 1))
      else output
  | [] => output
  end.

Lemma leaves_send_again u next high data fin k (P : Tcb -> Prop) w :
  unfinished u next high data fin k w.1 ->
  (forall w', unfinished u 0 high data None k w'.1 -> send_window w'.1 = send_window w.1 -> congestion_window w'.1 = congestion_window w.1 -> leaves resend P w') ->
  leaves send_again P w.
Proof.
  intros Hw H. assert (Hgo : leaves (update (fun t => set_fin_sequence None (set_send_next (send_unacknowledged t) t)) ;;; resend) P w).
  { apply wlp_bind, wlp_update. apply H; [|done..]. destruct Hw. constructor; cbn; try done. by rewrite Z.add_0_r. }
  unfold send_again. apply wlp_bind, wlp_self. pose proof (un_state _ _ _ _ _ _ _ Hw) as Hs. by destruct (tstate w.1).
Qed.

(** What [on_timer] does when the clock has run out: it gives up after as many
    times as there are, or it forgets the number of the finish and sends again. *)
Lemma leaves_on_timer now u next high data fin k (P : Tcb -> Prop) w :
  unfinished u next high data fin k w.1 -> retransmit_at w.1 <> 0 -> retransmit_at w.1 <= now ->
  (MAX_RETRIES < k + 1 -> forall t, timed_out t -> P t) ->
  (k + 1 <= MAX_RETRIES -> forall w', unfinished u 0 high data None (k + 1) w'.1 -> send_window w'.1 = send_window w.1 -> congestion_window w'.1 = MSS -> leaves resend P w') ->
  leaves (on_timer now) P w.
Proof.
  intros Hw Hr Hnow Hlast Hagain. unfold on_timer. apply wlp_bind, wlp_self, wlp_bind.
  apply (wlp_mono _ (fun w' _ => unfinished u next high data fin k w'.1 /\ retransmit_at w'.1 = retransmit_at w.1 /\ send_window w'.1 = send_window w.1)).
  { destruct (_ && _); [by apply wlp_drop_unfinished|by apply wlp_ret]. }
  intros w1 [[]|e] (Hw1 & Er & Es); [|done]. apply wlp_bind, wlp_self. rewrite (un_expire _ _ _ _ _ _ _ Hw1), Er. cbn [Z.eqb negb].
  replace ((retransmit_at w.1 =? 0) || (now <? retransmit_at w.1)) with false by lia.
  unfold on_timeout. apply wlp_bind, wlp_self. rewrite (un_retries _ _ _ _ _ _ _ Hw1). apply wlp_bind, wlp_checked, wlp_bind, wlp_update.
  pose proof (un_state _ _ _ _ _ _ _ Hw1) as Hcl. replace (match tstate w1.1 with SynSent | SynReceived => SYN_RETRIES | _ => MAX_RETRIES end) with MAX_RETRIES by (by destruct (tstate w1.1)).
  destruct (MAX_RETRIES <? k + 1) eqn:El.
  { eapply leaves_mono; [apply leaves_abort_timed_out; [done|apply Hw1|apply Hw1]|]. apply Hlast. lia. }
  apply wlp_bind, wlp_checked, wlp_bind, wlp_checked, wlp_bind, wlp_checked, wlp_bind, wlp_update.
  cbn [fst snd]. match goal with |- wlp _ _ (?t, _) =>
    assert (Ht : unfinished u next high data fin (k + 1) t /\ send_window t = send_window w1.1 /\ congestion_window t = MSS) by (split; [destruct Hw1; by constructor|done]);
    generalize dependent t end.
  intros t2 (Ht2 & Es2 & Ec2). eapply leaves_bind; [|intros w2 [] Hw2; by apply wlp_ret]. apply (leaves_send_again u next high data fin (k + 1)); [done|].
  intros w' Hw' Es' Ec'. cbn [fst] in Es', Ec'. apply Hagain; [lia|done|congruence|congruence].
Qed.

(** More than one segment is outstanding: the finish stays where it was, unsaid. *)
Lemma leaves_timer_data now u next data fin k w :
  unfinished u next (len data + 1) data fin k w.1 -> MSS < len data <= 65536 -> 0 <= send_window w.1 ->
  retransmit_at w.1 <> 0 -> retransmit_at w.1 <= now -> k + 1 <= MAX_RETRIES ->
  leaves (on_timer now) (sending u (len data) (len data + 1) data (k + 1)) w.
Proof.
  intros Hw Hl Hwin Hr Hnow Hk. apply (leaves_on_timer now u next (len data + 1) data fin k); [done..|lia|]. intros _ w1 Hw1 Es Ec.
  unfold resend. apply wlp_bind, wlp_self. pose proof (un_data _ _ _ _ _ _ _ Hw1) as Hp. rewrite Hp.
  destruct data as [|byte rest] eqn:Ed; [cbn [length] in Hl; unfold MSS in Hl; lia|]. rewrite <- Ed in *. unfold MSS in Hl.
  destruct (send_window w1.1 =? 0) eqn:E0.
  - eapply leaves_bind; [by apply leaves_unseen; [auto with keeps|]|].
    intros w2 [] Hw2. apply leaves_update. exists 1. split; [lia|].
    rewrite (un_next _ _ _ _ _ _ _ Hw1), wrapping_add_pos, Z.add_0_r. apply (sent_unfinished u 0 (len data + 1) data None (k + 1) w2.1 1 None Hw2); lia.
  - eapply leaves_mono; [apply (leaves_output_data u (len data + 1) data (k + 1)); [done|..]|].
    + rewrite Ec, Es. unfold MSS. lia.
    + lia.
    + lia.
    + intros t (off & Hoff & Ht). rewrite Ec in Hoff. unfold MSS in Hoff. exists off. split; [lia|done].
Qed.

(** The second finish goes out again, with the same number, or the connection is
    given up. *)
Lemma leaves_timer_waiting now u k w :
  waiting u k w.1 -> retransmit_at w.1 <> 0 -> retransmit_at w.1 <= now ->
  leaves (on_timer now) (fun t => if MAX_RETRIES <=? k then timed_out t else waiting u (k + 1) t) w.
Proof.
  intros Hw Hr Hnow. eapply leaves_on_timer; [exact Hw|done|done|intros Hk t Ht; by replace (MAX_RETRIES <=? k) with true by lia|].
  intros Hk w1 Hw1 _ _. replace (MAX_RETRIES <=? k) with false by lia. unfold resend. apply wlp_bind, wlp_self. rewrite (un_data _ _ _ _ _ _ _ Hw1).
  apply leaves_output_finish. right. exists 1. split; [lia|done].
Qed.
Lemma leaves_timer_early now u k w :
  waiting u k w.1 -> (retransmit_at w.1 =? 0) || (now <? retransmit_at w.1) = true -> leaves (on_timer now) (waiting u k) w.
Proof.
  intros Hw Hr. unfold on_timer. apply wlp_bind, wlp_self, wlp_bind.
  apply (wlp_mono _ (fun w' _ => waiting u k w'.1 /\ retransmit_at w'.1 = retransmit_at w.1 /\ send_window w'.1 = send_window w.1)).
  { destruct (_ && _); [by apply wlp_drop_unfinished|by apply wlp_ret]. }
  intros w1 [[]|e] (Hw1 & Er & _); [|done]. apply wlp_bind, wlp_self. rewrite (un_expire _ _ _ _ _ _ _ Hw1), Er, Hr. by apply wlp_ret.
Qed.

Lemma leaves_timed_out_timer now w : timed_out w.1 -> leaves (on_timer now) timed_out w.
Proof.
  intros Hw. unfold on_timer. apply wlp_bind, wlp_self. apply (leaves_bind _ _ timed_out).
  - destruct (_ && _); [|by apply wlp_ret]. unfold drop_out_of_order, account. apply wlp_bind, wlp_update, wlp_bind, wlp_self, wlp_bind, wlp_modify, wlp_update. exact Hw.
  - intros w1 [] Hw1. apply wlp_bind, wlp_self. pose proof Hw1 as (_ & _ & -> & -> & _). by apply wlp_ret.
Qed.

Lemma leaves_timed_out_segment g w : timed_out w.1 -> leaves (on_segment g) timed_out w.
Proof. intros Hw. unfold on_segment. apply wlp_bind, wlp_self. pose proof Hw as (-> & _). by apply wlp_ret. Qed.

(** ** What follows *)

(** The other end, which has had all of the stream and its end, says again that it
    has; the clock goes on, and runs out [k] times; the world below does what it
    does. *)
Inductive afterwards (number : Z) w : Z -> Tcb * N -> Prop :=
  | after_nothing : afterwards number w 0 w
  | after_ack k w1 g r w2 : afterwards number w k w1 -> pure_ack number g -> on_segment g w1 = (w2, Ok r) -> afterwards number w k w2
  | after_clock k w1 now r w2 : afterwards number w k w1 -> on_timer now w1 = (w2, Ok r) ->
      afterwards number w (if (retransmit_at w1.1 =? 0) || (now <? retransmit_at w1.1) then k else k + 1) w2
  | after_below k t n n' : afterwards number w k (t, n) -> afterwards number w k (t, n').

Definition refused u k t : Prop := if MAX_RETRIES <? k then timed_out t else 0 <= k /\ waiting u k t.

Lemma leaves_ok {A} (m : TM A) P w w' a : leaves m P w -> m w = (w', Ok a) -> P w'.1.
Proof. intros H E. exact (wlp_ended _ _ _ _ _ E H). Qed.

Lemma afterwards_refused u w k w' : waiting u 0 w.1 -> afterwards (as_u32 u) w k w' -> refused u k w'.1.
Proof.
  intros Hw Ha. induction Ha as [|k w1 g r w2 _ IH Hg Hrun|k w1 now r w2 _ IH Hrun|k t n n' _ IH]; unfold refused in *.
  - by split.
  - destruct (MAX_RETRIES <? k); [by eapply leaves_ok; [apply leaves_timed_out_segment|]|]. split; [apply IH|]. by eapply leaves_ok; [eapply leaves_same_segment; [apply IH|]|].
  - destruct (MAX_RETRIES <? k) eqn:Ek.
    + pose proof IH as (_ & _ & -> & _). cbn [Z.eqb orb]. rewrite Ek. by eapply leaves_ok; [apply leaves_timed_out_timer|].
    + destruct IH as [Hk Hw1]. destruct (_ || _) eqn:Er.
      * rewrite Ek. split; [done|]. by eapply leaves_ok; [apply leaves_timer_early|].
      * eapply (leaves_ok _ _ _ _ _ (leaves_timer_waiting now u k w1 Hw1 ltac:(lia) ltac:(lia))) in Hrun.
        destruct (MAX_RETRIES <=? k) eqn:E1; [by replace (MAX_RETRIES <? k + 1) with true by lia|]. replace (MAX_RETRIES <? k + 1) with false by lia. split; [lia|done].
  - done.
Qed.

(** C38: A finish that has gone out behind more than one segment of data: when the
    clock runs out and everything, the finish included, is then acknowledged, the
    acknowledgement is not taken as one of the finish and a second one goes out
    with the next number. Whatever happens then, with the other end saying again
    what it has, the finish is never taken as acknowledged, and once the clock has
    run out nine times the connection is closed with a timeout. *)
Theorem finish_sent_twice u next data k t n now t1 n1 r1 g t2 n2 r2 :
  unfinished u next (len data + 1) data (Some (as_u32 (u + len data))) k t -> MSS < len data <= 65536 -> 0 <= send_window t -> k < MAX_RETRIES ->
  retransmit_at t <> 0 -> retransmit_at t <= now -> on_timer now (t, n) = ((t1, n1), Ok r1) ->
  let number := as_u32 (u + (len data + 1)) in
  pure_ack number g -> Segment.sequence g = receive_next t1 -> on_segment g (t1, n1) = ((t2, n2), Ok r2) ->
  pending t2 = [] /\ send_unacknowledged t2 = number /\ fin_sequence t2 = Some number /\ fin_acknowledged t2 = false /\
  forall tries t3 n3, afterwards number (t2, n2) tries (t3, n3) ->
    fin_acknowledged t3 = false /\
    if MAX_RETRIES <? tries then tstate t3 = Closed /\ error t3 = Some ETIMEDOUT else closing (tstate t3) = true /\ retries t3 = tries.
Proof.
  intros Ht Hl Hwin Hk Hr Hnow H1 number Hg Hseq H2.
  pose proof (leaves_ok _ _ _ _ _ (leaves_timer_data now u next data _ k (t, n) Ht Hl Hwin Hr Hnow ltac:(lia)) H1) as (off & Hoff & Ht1).
  pose proof (leaves_ok _ _ _ _ _ (leaves_late_segment u off data _ g (t1, n1) Ht1 Hoff ltac:(lia) Hg Hseq) H2) as Hw.
  split_and!; try apply Hw. intros tries t3 n3 H3. pose proof (afterwards_refused _ (t2, n2) _ _ Hw H3) as H. unfold refused in H. cbn [fst] in H.
  destruct (MAX_RETRIES <? tries); [by destruct H as (? & ? & _ & _ & ?)|]. destruct H as [_ H]. split_and!; apply H.
Qed.
End finish.

(** ** A run of it, on a wire that writes down what is sent *)

(** The clock, what was sent, and the bytes held. *)
Record Tape := mkTape { tape_ticks : Z; tape_sent : list (list Z); tape_held : Z }.

#[global] Instance tape_wire : Wire Tape := {|
  ticks := fun n => (n, tape_ticks n);
  monotonic_ns := fun n => (n, tape_ticks n * 10000000);
  isn_secret := fun n => (n, 1);
  source_for := fun _ => ret (Ip.addr 10 0 0 1);
  send_from := fun _ _ _ segment => modify (fun n => mkTape (tape_ticks n) (segment :: tape_sent n) (tape_held n));
  held_bytes := tape_held;
  set_held_bytes := fun h n => mkTape (tape_ticks n) (tape_sent n) h;
|}.

(** A sort that keeps equal keys in order. *)
#[global] Instance key_order_dec (key : Held -> Z) : forall a b, Decision (key a <= key b).
Proof. intros a b. apply _. Defined.
#[global] Instance merge_sorter : Sorter := {| sort_by_key := fun key => merge_sort (fun a b => key a <= key b) |}.

Definition run_of {A} (m : TM (N := Tape) A) (w : Tcb * Tape) : Tcb * Tape := (m w).1.

Definition at_tick (now : Z) (w : Tcb * Tape) : Tcb * Tape := (w.1, mkTape now (tape_sent w.2) (tape_held w.2)).

Definition client : Tcb :=
  set_remote (mkEndpoint (Ip.addr 10 0 0 2) 80) (set_local (mkEndpoint (Ip.addr 10 0 0 1) 49152) tcb_new).

(** A segment of the other end that only acknowledges. *)
Definition ack_of (number : Z) : Segment.Segment := Segment.mkSegment 80 49152 5001 number Segment.ACK 65535 None [].

Definition w_open : Tcb * Tape := run_of open (client, mkTape 1 [] 0).
Definition first_byte : Z := wrapping_add (iss w_open.1) 1.
Definition w_established : Tcb * Tape :=
  run_of (on_segment (Segment.mkSegment 80 49152 5000 first_byte (Z.lor Segment.SYN Segment.ACK) 65535 (Some 1460) [])) w_open.

(** One segment, to open the congestion window; then two more and the finish. *)
Definition w_first : Tcb * Tape := run_of (on_segment (ack_of (first_byte + 1460))) (run_of (write (replicate 1460 7)) w_established).
Definition w_closed : Tcb * Tape := run_of shutdown_write (run_of (write (replicate 2920 8)) w_first).
Definition finish : Z := first_byte + 4380.

(** The clock runs out again, and the other end says again what it has. *)
Definition once_more (w : Tcb * Tape) : Tcb * Tape :=
  let now := retransmit_at w.1 in
  run_of (on_segment (ack_of (finish + 1))) (run_of (on_timer now) (at_tick now w)).

Definition returns {A} (m : TM (N := Tape) A) (w : Tcb * Tape) : bool := match (m w).2 with Ok _ => true | _ => false end.

Lemma run_returns {A} (m : TM (N := Tape) A) w : returns m w = true -> exists r, m w = (run_of m w, Ok r).
Proof. unfold returns, run_of. destruct (m w) as [w' [r|e|s]]; [by exists r|done..]. Qed.

Lemma after_once_more w0 k w :
  afterwards (finish + 1) w0 k w -> retransmit_at w.1 <> 0 ->
  returns (on_timer (retransmit_at w.1)) (at_tick (retransmit_at w.1) w) && returns (on_segment (ack_of (finish + 1))) (run_of (on_timer (retransmit_at w.1)) (at_tick (retransmit_at w.1) w)) = true ->
  afterwards (finish + 1) w0 (k + 1) (once_more w).
Proof.
  intros Hw Hr [H1 H2]%andb_prop. apply run_returns in H1 as [r1 H1], H2 as [r2 H2]. eapply (after_ack _ _ _ _ (ack_of (finish + 1))); [|split; [reflexivity|split; reflexivity]|exact H2].
  destruct w as [t n]. replace (k + 1) with (if (retransmit_at t =? 0) || (retransmit_at t <? retransmit_at t) then k else k + 1); [|cbn [fst] in *; destruct (_ || _) eqn:E; [lia|done]].
  eapply (after_clock _ _ k (at_tick (retransmit_at t) (t, n))); [by eapply after_below|exact H1].
Qed.

Definition goes_on (w : Tcb * Tape) : bool :=
  negb (retransmit_at w.1 =? 0) && (returns (on_timer (retransmit_at w.1)) (at_tick (retransmit_at w.1) w) && returns (on_segment (ack_of (finish + 1))) (run_of (on_timer (retransmit_at w.1)) (at_tick (retransmit_at w.1) w))).

Lemma after_rounds w m : forallb (fun i => goes_on (Nat.iter i once_more w)) (seq 0 m) = true -> afterwards (finish + 1) w (Z.of_nat m) (Nat.iter m once_more w).
Proof.
  induction m as [|m IH]; [intros _; apply after_nothing|]. rewrite seq_S, forallb_app. intros [H1%IH H2]%andb_prop. cbn [Nat.add forallb] in H2.
  apply andb_prop in H2 as [[H2%negb_true_iff%Z.eqb_neq H3]%andb_prop _]. rewrite Nat2Z.inj_succ. by apply after_once_more.
Qed.

Definition last_bytes : list Z := replicate 2920 8.

Lemma closed_unfinished :
  unfinished (send_unacknowledged w_closed.1) 2921 (len last_bytes + 1) last_bytes (Some (as_u32 (send_unacknowledged w_closed.1 + len last_bytes))) 0 w_closed.1.
Proof. constructor; vm_compute; congruence. Qed.

(** The clock runs out, everything is acknowledged, and nine times more. *)
Lemma late_runs : exists w1 w2 w3 : Tcb * Tape,
  (exists r, on_timer (retransmit_at w_closed.1) (w_closed.1, (at_tick (retransmit_at w_closed.1) w_closed).2) = (w1, Ok r)) /\
  Segment.sequence (ack_of (finish + 1)) = receive_next w1.1 /\
  (exists r, on_segment (ack_of (finish + 1)) w1 = (w2, Ok r)) /\ afterwards (finish + 1) w2 9 w3.
Proof.
  assert (E1 : returns (on_timer (retransmit_at w_closed.1)) (w_closed.1, (at_tick (retransmit_at w_closed.1) w_closed).2) = true) by (vm_compute; reflexivity).
  eexists _, _, _. split; [exact (run_returns _ _ E1)|]. split; [vm_compute; reflexivity|].
  split; [refine (run_returns _ _ _); vm_compute; reflexivity|]. refine (after_rounds _ 9 _). vm_compute. reflexivity.
Qed.

Lemma closing_number : as_u32 (send_unacknowledged w_closed.1 + (len last_bytes + 1)) = finish + 1.
Proof. vm_compute. reflexivity. Qed.

Lemma finish_sent_twice_witness : exists w2 w3 : Tcb * Tape,
  fin_sequence w2.1 = Some (finish + 1) /\ afterwards (finish + 1) w2 9 w3 /\ tstate w3.1 = Closed /\ error w3.1 = Some ETIMEDOUT.
Proof.
  destruct late_runs as ([t1 n1] & [t2 n2] & [t3 n3] & [r1 H1] & Hs & [r2 H2] & Ha).
  destruct (finish_sent_twice (send_unacknowledged w_closed.1) 2921 last_bytes 0 w_closed.1 (at_tick (retransmit_at w_closed.1) w_closed).2
    (retransmit_at w_closed.1) t1 n1 r1 (ack_of (finish + 1)) t2 n2 r2) as (_ & _ & Hf & _ & Hafter).
  - exact closed_unfinished.
  - vm_compute. split; congruence.
  - vm_compute. congruence.
  - reflexivity.
  - vm_compute. congruence.
  - apply Z.le_refl.
  - exact H1.
  - rewrite closing_number. split; [reflexivity|split; reflexivity].
  - exact Hs.
  - exact H2.
  - rewrite closing_number in Hf, Hafter. exists (t2, n2), (t3, n3). split; [exact Hf|]. split; [exact Ha|]. exact (proj2 (Hafter _ _ _ Ha)).
Defined.
