(* ===== verification/TcpBounds.v ===== *)
(** * TCP: bounds, and no panic

    [tcp_ok]: the buffers, the runs held, the timeout and the share of the common
    count are within their bounds. Every method keeps it and ends without a
    panic, on any wire that keeps its own promises. The counters that only count
    up have room for [j] more. *)

From S2P Require Import Prelude Words Packets PacketSpec Safe Tcp TcpInput TcpRuns.

(** What TCP relies on of the wire below it. *)
Class WireOk (N : Type) `{Wire N} := {
  wire_inv : N -> Prop;
  ticks_ok n : wire_inv n -> 0 <= (ticks n).2 <= 2 ^ 62 /\ wire_inv (ticks n).1 /\ held_bytes (ticks n).1 = held_bytes n;
  monotonic_ok n : wire_inv n -> is_u64 (monotonic_ns n).2 /\ wire_inv (monotonic_ns n).1 /\ held_bytes (monotonic_ns n).1 = held_bytes n;
  secret_ok n : wire_inv n -> wire_inv (isn_secret n).1 /\ held_bytes (isn_secret n).1 = held_bytes n;
  source_ok a n : is_u32 a -> wire_inv n ->
    wp (source_for a) (fun n' r => (wire_inv n' /\ held_bytes n' = held_bytes n) /\ is_u32 r)
      (fun n' _ => wire_inv n' /\ held_bytes n' = held_bytes n) n;
  send_ok from to segment n : is_u32 from -> is_u32 to -> Forall is_u8 segment -> len segment <= 1484 -> wire_inv n ->
    wp (send_from from to Ip.PROTO_TCP segment) (fun n' _ => wire_inv n' /\ held_bytes n' = held_bytes n)
      (fun n' _ => wire_inv n' /\ held_bytes n' = held_bytes n) n;
  held_ok h n : 0 <= h <= REASSEMBLY_LIMIT -> wire_inv n -> wire_inv (set_held_bytes h n) /\ held_bytes (set_held_bytes h n) = h;
}.

Section bounds.
Context {N : Type} {HW : Wire N} {HWok : WireOk N} {HS : Sorter} {HSok : SorterOk}.
Implicit Types (t : Tcb) (w : Tcb * N).
(** What the other connections hold, and the children of a listener, which no
    method touches. *)
Context {others : Z} {kids : list nat}.

Definition run_bytes (l : list Held) : Z := foldr (fun run n => len (h_data run) + n) 0 l.

Record tcp_ok (j : Z) (w : Tcb * N) : Prop := {
  ok_local : endpoint_ok (local w.1);
  ok_remote : endpoint_ok (remote w.1);
  ok_pending : Forall is_u8 (pending w.1);
  ok_send_buffer : len (pending w.1) <= SEND_BUFFER;
  ok_mss : MIN_MSS <= peer_mss w.1 <= MSS;
  ok_rto : MIN_RTO <= rto w.1 <= MAX_RTO;
  ok_round_trip : is_u32 (srtt w.1) /\ is_u32 (rttvar w.1);
  ok_retries : 0 <= retries w.1 <= u32_max - j;
  ok_duplicates : 0 <= duplicate_acks w.1 <= u32_max - j;
  ok_counts : (0 <= fast_retransmits w.1 <= u32_max - j) /\ (0 <= timeouts w.1 <= u32_max - j);
  ok_runs : len (out_of_order w.1) <= MAX_HELD_RUNS;
  ok_held : held w.1 = run_bytes (out_of_order w.1);
  ok_share : 0 <= others /\ held_bytes w.2 = held w.1 + others /\ held_bytes w.2 <= REASSEMBLY_LIMIT;
  ok_received : len (received w.1) <= RECEIVE_WINDOW;
  ok_wire : wire_inv w.2;
  ok_children : children w.1 = kids;
}.

Lemma ok_less j j' w : 0 <= j' <= j -> tcp_ok j w -> tcp_ok j' w.
Proof. intros Hj []. constructor; try done; lia. Qed.

(** [m] needs room for [k] in each counter. *)
Definition serves {A} (k : Z) (m : TM A) : Prop :=
  forall j w, 0 <= j -> tcp_ok (j + k) w -> wp m (fun w' _ => tcp_ok j w') (fun w' _ => tcp_ok j w') w.

Lemma serves_bind {A B} k k' (m : TM A) (f : A -> TM B) :
  0 <= k -> 0 <= k' -> serves k m -> (forall a, serves k' (f a)) -> serves (k + k') (bind m f).
Proof.
  intros Hk Hk' Hm Hf j w Hj Hw. apply wp_bind. eapply wp_mono; [apply (Hm (j + k') w); [lia|]| |].
  - by replace (j + k' + k) with (j + (k + k')) by lia.
  - intros w' a Hw'. by apply Hf.
  - intros w' e Hw'. apply (ok_less (j + k')); [lia|done].
Qed.

Lemma serves_bind0 {A B} (m : TM A) (f : A -> TM B) : serves 0 m -> (forall a, serves 0 (f a)) -> serves 0 (bind m f).
Proof. intros Hm Hf. by apply (serves_bind 0 0). Qed.

Lemma serves0 {A} j (m : TM A) w : serves 0 m -> 0 <= j -> tcp_ok j w -> wp m (fun w' _ => tcp_ok j w') (fun w' _ => tcp_ok j w') w.
Proof. intros Hm Hj Hw. apply Hm; [done|]. by rewrite Z.add_0_r. Qed.

Lemma serves_more {A} k k' (m : TM A) : 0 <= k <= k' -> serves k m -> serves k' m.
Proof. intros Hk Hm j w Hj Hw. apply Hm; [done|]. apply (ok_less (j + k')); [lia|done]. Qed.

Lemma serves_ret {A} (a : A) : serves 0 (ret a).
Proof. intros j w Hj Hw. apply wp_ret. by rewrite Z.add_0_r in Hw. Qed.

Lemma serves_throw {A} e : serves 0 (@throw _ _ A e).
Proof. intros j w Hj Hw. apply wp_throw. by rewrite Z.add_0_r in Hw. Qed.

Lemma serves_gets {A} (f : Tcb * N -> A) : serves 0 (gets f).
Proof. intros j w Hj Hw. apply wp_gets. by rewrite Z.add_0_r in Hw. Qed.

Lemma serves_update f : (forall j t n, tcp_ok j (t, n) -> tcp_ok j (f t, n)) -> serves 0 (update f).
Proof. intros Hf j [t n] Hj Hw. apply wp_modify. rewrite Z.add_0_r in Hw. by apply Hf. Qed.

Lemma serves_if {A} k (b : bool) (m m' : TM A) : serves k m -> serves k m' -> serves k (if b then m else m').
Proof. by destruct b. Qed.

(** A change of fields that are not bounded, or to a value that is. *)
Ltac ok_field := intros; match goal with H : tcp_ok _ _ |- _ => destruct H end; constructor; cbn in *; try done; try lia.

(** The world below moved and kept its promises. *)
Lemma ok_below j t n n' : tcp_ok j (t, n) -> wire_inv n' /\ held_bytes n' = held_bytes n -> tcp_ok j (t, n').
Proof. intros [] [H1 H2]. constructor; cbn in *; try done. by rewrite H2. Qed.

Lemma wp_ticks j w (Q : Tcb * N -> Z -> Prop) X :
  tcp_ok j w -> (forall n v, 0 <= v <= 2 ^ 62 -> tcp_ok j (w.1, n) -> Q (w.1, n) v) -> wp (clock ticks) Q X w.
Proof.
  intros Hw HQ. destruct w as [t n]. unfold clock, below. apply wp_zoom, wp_state. cbn [fst snd].
  destruct (ticks_ok n (ok_wire _ _ Hw)) as (H1 & H2). apply HQ; [done|]. by apply (ok_below j t n).
Qed.

Lemma wp_nanos j w (Q : Tcb * N -> Z -> Prop) X :
  tcp_ok j w -> (forall n v, is_u64 v -> tcp_ok j (w.1, n) -> Q (w.1, n) v) -> wp (clock monotonic_ns) Q X w.
Proof.
  intros Hw HQ. destruct w as [t n]. unfold clock, below. apply wp_zoom, wp_state. cbn [fst snd].
  destruct (monotonic_ok n (ok_wire _ _ Hw)) as (H1 & H2). apply HQ; [done|]. by apply (ok_below j t n).
Qed.

(** A timer set from now on. *)
Lemma serves_timer (wait : Tcb -> Z) (f : Z -> Tcb -> Tcb) :
  (forall j w, tcp_ok j w -> 0 <= wait w.1 <= 10000) -> (forall v j t n, tcp_ok j (t, n) -> tcp_ok j (f v t, n)) ->
  forall j w, 0 <= j -> tcp_ok j w ->
    wp (let! now := clock ticks in let! at_ := u64 (now + wait w.1) in update (f at_)) (fun w' _ => tcp_ok j w') (fun w' _ => tcp_ok j w') w.
Proof.
  intros Hwait Hf j w Hj Hw. apply wp_bind, (wp_ticks j); [done|]. intros n v Hv Hn. pose proof (Hwait j w Hw).
  apply wp_bind, wp_checked; [unfold u64_max; lia|]. apply wp_modify. cbn [fst snd]. by apply Hf.
Qed.

(** ** Sending *)

Lemma serves_send flags sequence payload with_mss :
  is_u8 flags -> Forall is_u8 payload -> len payload <= MSS -> serves 0 (send_segment flags sequence payload with_mss).
Proof.
  intros Hf Hp Hl j w Hj Hw. rewrite Z.add_0_r in Hw. unfold MSS in Hl. destruct w as [t n]. unfold send_segment. apply wp_bind, wp_gets, wp_bind, wp_try. cbn [fst].
  pose proof (ok_local _ _ Hw) as Hlo. pose proof (ok_remote _ _ Hw) as Hre. cbn [fst] in Hlo, Hre.
  assert (Hsend : forall from n', is_u32 from -> tcp_ok j (t, n') ->
    wp (let! segment := Segment.build (mkEndpoint from (port (local t))) (remote t) sequence (if Segment.has flags Segment.ACK then receive_next t else 0) flags
          (advertised_window t) (if with_mss then Some MSS else None) payload in
        let! _ := try_ (below (send_from from (address (remote t)) Ip.PROTO_TCP segment)) in ret tt)
      (fun w' _ => tcp_ok j w') (fun w' _ => tcp_ok j w') (t, n')).
  { intros from n' Hfrom Hn'. apply wp_bind.
    destruct (@tcp_build_spec (Tcb * N) Errno (mkEndpoint from (port (local t))) (remote t) sequence (if Segment.has flags Segment.ACK then receive_next t else 0) flags
      (advertised_window t) (if with_mss then Some MSS else None) payload (t, n')) as (c & Hc & _ & Eb); [split; [done|apply Hlo]|done|done|done|lia|].
    cbn zeta in Eb. eapply wp_fun; [exact Eb|]. apply wp_bind, wp_try. unfold below. apply wp_zoom. cbn [fst snd].
    eapply wp_mono; [apply send_ok; [done|apply Hre| | |exact (ok_wire _ _ Hn')]| |].
    - apply field_bytes; [by apply tcp_front_bytes|by apply tcp_back_bytes].
    - rewrite field_length. pose proof (tcp_back_length (if with_mss then Some MSS else None) payload) as H1. change (length (tcp_front _ _ _ _ _ _ _)) with 16%nat.
      assert (tcp_offset (if with_mss then Some MSS else None) <= 24) by (destruct with_mss; cbn; lia). lia.
    - intros n'' [] Hn''. apply wp_ret. by apply (ok_below j t n').
    - intros n'' e Hn''. apply wp_ret. by apply (ok_below j t n'). }
  unfold source_address. destruct (Ip.is_unspecified _).
  - unfold below. apply wp_zoom. cbn [fst snd]. eapply wp_mono; [apply source_ok; [apply Hre|exact (ok_wire _ _ Hw)]| |].
    + intros n' from [Hn' Hfrom]. apply Hsend; [done|by apply (ok_below j t n)].
    + intros n' e Hn'. apply wp_ret. by apply (ok_below j t n).
  - apply wp_ret. apply Hsend; [apply Hlo|done].
Qed.

(** A segment without data. *)
Lemma serves_send_empty f sequence with_mss : is_u8 f -> serves 0 (send_segment f sequence [] with_mss).
Proof. intros Hf. apply serves_send; [done|constructor|cbn; unfold MSS; lia]. Qed.

Ltac flag := split; vm_compute; discriminate.

Lemma serves_acknowledge : serves 0 acknowledge.
Proof. apply serves_bind0; [apply serves_gets|]. intros t. apply serves_send_empty. flag. Qed.

Lemma serves_arm_retransmit : serves 0 arm_retransmit.
Proof.
  intros j w Hj Hw. rewrite Z.add_0_r in Hw. unfold arm_retransmit. apply wp_bind, wp_gets. destruct (_ =? 0); [|by apply wp_ret].
  apply (serves_timer rto set_retransmit_at); [|ok_field|done|done]. intros j' w' Hw'. pose proof (ok_rto _ _ Hw') as H. unfold MIN_RTO, MAX_RTO in H. lia.
Qed.

Lemma serves_send_syn_ack : serves 0 send_syn_ack.
Proof.
  apply serves_bind0; [apply serves_gets|intros t]. apply serves_bind0; [apply serves_send_empty; flag|intros _; apply serves_arm_retransmit].
Qed.

Lemma ok_sent_through j sequence t n : tcp_ok j (t, n) -> tcp_ok j (sent_through sequence t, n).
Proof. intros H. unfold sent_through. destruct (seq_lt _ _); destruct H; constructor; done. Qed.

Lemma serves_time_segment sequence : serves 0 (time_segment sequence).
Proof.
  intros j w Hj Hw. rewrite Z.add_0_r in Hw. unfold time_segment. apply wp_bind, wp_gets. destruct (timed w.1); [by apply wp_ret|].
  apply wp_bind, (wp_nanos j); [done|]. intros n v _ Hn. apply wp_modify. cbn [fst snd]. destruct Hn. constructor; done.
Qed.

(** ** The round trip *)

Lemma wp_estimated_rto t w (Q : Tcb * N -> Z -> Prop) X :
  is_u32 (srtt t) -> is_u32 (rttvar t) -> (forall v, MIN_RTO <= v <= MAX_RTO -> Q w v) -> wp (estimated_rto t) Q X w.
Proof.
  intros Hs Hv HQ. unfold estimated_rto, ns_to_ticks, saturating_add32, TICK_HZ, is_u32, u32_max in *.
  apply wp_bind, wp_checked; [unfold u64_max; lia|]. apply wp_bind, wp_bind, wp_checked; [unfold u64_max; lia|].
  apply wp_bind, wp_checked; [unfold u64_max; lia|]. apply wp_ret, wp_ret, HQ. unfold MIN_RTO, MAX_RTO. lia.
Qed.

Lemma serves_measure us : 0 <= us <= u32_max -> serves 0 (measure us).
Proof.
  intros Hus j w Hj Hw. rewrite Z.add_0_r in Hw. unfold measure. apply wp_bind, wp_gets, wp_bind.
  pose proof (ok_round_trip _ _ Hw) as [Hs Hv]. unfold is_u32, u32_max in *.
  assert (Hend : forall w1, tcp_ok j w1 -> wp (let! t := self in let! n := estimated_rto t in update (set_rto n)) (fun w' _ => tcp_ok j w') (fun w' _ => tcp_ok j w') w1).
  { intros w1 Hw1. apply wp_bind, wp_gets, wp_bind. pose proof (ok_round_trip _ _ Hw1) as [Hs1 Hv1].
    apply wp_estimated_rto; [done|done|]. intros v Hv'. apply wp_modify. destruct Hw1. constructor; done. }
  destruct (srtt w.1 =? 0).
  - apply wp_modify, Hend. destruct Hw. constructor; cbn; try done. unfold is_u32, u32_max. lia.
  - apply wp_bind, wp_checked; [unfold u64_max; lia|]. apply wp_bind, wp_checked; [unfold u64_max; lia|]. apply wp_modify, Hend.
    destruct Hw. constructor; cbn; try done. split; apply as_u32_bounds.
Qed.

Lemma serves_take_sample ack : serves 0 (take_sample ack).
Proof.
  intros j w Hj Hw. rewrite Z.add_0_r in Hw. unfold take_sample. apply wp_bind, wp_gets. destruct (timed w.1); [|by apply wp_ret].
  destruct (seq_le _ _); [|by apply wp_ret]. apply wp_bind, (wp_nanos j); [done|]. intros n v Hv Hn. apply wp_bind, wp_modify. cbn [fst snd].
  apply serves_measure; [unfold saturating_sub, is_u64, u64_max, u32_max in *; lia|done|]. rewrite Z.add_0_r. destruct Hn. constructor; done.
Qed.

(** ** Output *)

Lemma piece_bytes t j n k m : tcp_ok j (t, n) -> Forall is_u8 (take k (drop m (pending t))).
Proof. intros H. apply Forall_take, Forall_drop, (ok_pending _ _ H). Qed.

(** What is being sent, and how far it has got. *)
Definition tx w := (pending w.1, send_next w.1, send_unacknowledged w.1).

Ltac tx_steps := repeat first [keep_step | apply keeps_update; intros ? ?; try reflexivity].

Lemma tx_send flags sequence payload with_mss : keeps tx (send_segment flags sequence payload with_mss).
Proof. unfold send_segment, source_address, self, below. tx_steps. Qed.
Lemma tx_time_segment sequence : keeps tx (time_segment sequence).
Proof. unfold time_segment, self, clock, below. tx_steps. Qed.
Lemma tx_arm_retransmit : keeps tx arm_retransmit.
Proof. unfold arm_retransmit, self, clock, below. tx_steps. Qed.

Definition sent_so_far t : Z := wrapping_sub (send_next t) (send_unacknowledged t).

Lemma sent_through_next sequence t : send_next (sent_through sequence t) = sequence /\ pending (sent_through sequence t) = pending t /\
  send_unacknowledged (sent_through sequence t) = send_unacknowledged t.
Proof. unfold sent_through. by destruct (seq_lt _ _). Qed.

Lemma wp_serves_tx {A} j (m : TM A) w (Q : Tcb * N -> A -> Prop) :
  serves 0 m -> keeps tx m -> 0 <= j -> tcp_ok j w -> (forall w' a, tcp_ok j w' -> tx w' = tx w -> Q w' a) ->
  wp m Q (fun w' _ => tcp_ok j w') w.
Proof.
  intros Hm Hk Hj Hw HQ. eapply wp_mono; [apply (wp_keeps tx); [by apply (serves0 j)|done]| |].
  - intros w' a [H1 H2]. by apply HQ.
  - by intros w' e [H1 H2].
Qed.

Lemma wp_output_turn limit j w :
  0 <= j -> tcp_ok j w ->
  wp (output_turn limit tt) (fun w' r => tcp_ok j w' /\
    match r with inl _ => len (pending w'.1) - sent_so_far w'.1 < len (pending w.1) - sent_so_far w.1 /\ 0 < len (pending w.1) - sent_so_far w.1 | inr _ => True end)
    (fun w' _ => tcp_ok j w') w.
Proof.
  intros Hj Hw. unfold output_turn. apply wp_bind, wp_gets. set (off := wrapping_sub _ _). set (avail := saturating_sub _ _).
  pose proof (ok_send_buffer _ _ Hw) as Hsb. pose proof (ok_mss _ _ Hw) as Hms. unfold SEND_BUFFER, MIN_MSS, MSS in Hsb, Hms.
  assert (Hoff : 0 <= off) by (pose proof (as_u32_bounds (send_next w.1 - send_unacknowledged w.1)) as H; apply H).
  assert (Hfin : forall w1, tcp_ok j w1 -> wp (arm_retransmit ;;; ret (inr tt)) (fun w' r => tcp_ok j w' /\ match r : unit + unit with inl _ => len (pending w'.1) - sent_so_far w'.1 < len (pending w.1) - sent_so_far w.1 /\ 0 < len (pending w.1) - sent_so_far w.1 | inr _ => True end)
    (fun w' _ => tcp_ok j w') w1).
  { intros w1 Hw1. apply wp_bind. eapply wp_mono; [apply (serves0 j); [apply serves_arm_retransmit|done|done]| |done]. intros w2 [] Hw2. by apply wp_ret. }
  destruct (0 <? avail) eqn:Eav.
  - apply Z.ltb_lt in Eav. destruct (negb _); [by apply wp_ret|]. set (room := wrapping_sub limit _). set (n := Z.min _ room).
    assert (Hroom : 0 <= room) by (pose proof (as_u32_bounds (limit - send_next w.1)) as H; apply H).
    destruct (n =? 0) eqn:En; [by apply wp_ret|]. apply Z.eqb_neq in En.
    assert (Hn : 0 < n <= avail /\ n <= 1460) by (unfold n, effective_mss, MSS in *; lia).
    assert (Hav : avail = len (pending w.1) - off) by (unfold avail, saturating_sub in *; lia).
    apply wp_bind, (wp_serves_tx j); [|apply tx_send|done|done|].
    { apply serves_send; [destruct (_ =? _); flag|by apply Forall_take, Forall_drop, (ok_pending _ _ Hw)|rewrite length_take; unfold MSS; lia]. }
    intros [t1 n1] [] Hw1 E1. apply wp_bind, wp_modify. cbn [fst snd]. set (end_ := wrapping_add _ _).
    pose proof (ok_sent_through j end_ t1 n1 Hw1) as Hw2.
    apply wp_bind, (wp_serves_tx j); [destruct (seq_lt _ _); [apply serves_time_segment|apply serves_ret]|apply keeps_if; [apply tx_time_segment|apply keeps_ret]|done|done|].
    intros w3 [] Hw3 E3. apply wp_bind, (wp_serves_tx j); [apply serves_arm_retransmit|apply tx_arm_retransmit|done|done|].
    intros w4 [] Hw4 E4. apply wp_ret. split; [done|]. rewrite E3 in E4. unfold tx in E1, E4. cbn [fst] in E1, E4.
    destruct (sent_through_next end_ t1) as (S1 & S2 & S3). rewrite S1, S2, S3 in E4. injection E1 as E1 _ E1'. injection E4 as E4 E4' E4''.
    unfold sent_so_far. rewrite E4, E4', E4'', E1, E1'. fold off. unfold end_.
    assert (Hend : wrapping_sub (wrapping_add (send_next w.1) (as_u32 n)) (send_unacknowledged w.1) = off + n).
    { unfold off, wrapping_sub, wrapping_add, as_u32 in *. lia. }
    rewrite Hend. lia.
  - destruct (_ && _); [|by apply wp_ret]. apply wp_bind. eapply wp_mono; [apply (serves0 j); [apply serves_send_empty; flag|done|done]| |done].
    intros [t1 n1] [] Hw1. apply wp_bind, wp_modify. cbn [fst snd]. apply Hfin. apply ok_sent_through. destruct Hw1. constructor; done.
Qed.

Lemma serves_output : serves 0 output.
Proof.
  intros j w Hj Hw. rewrite Z.add_0_r in Hw. unfold output. apply wp_bind, wp_gets. destruct (negb _); [by apply wp_ret|].
  set (limit := wrapping_add _ _). clearbody limit.
  apply (wp_loop (fun _ w' => tcp_ok j w') (fun _ w' => Z.to_nat (len (pending w'.1) - sent_so_far w'.1))).
  - intros [] w' Hw'. eapply wp_mono; [by apply (wp_output_turn limit j)| |done]. intros w2 [[]|[]] [H1 H2]; [|done]. split; [done|lia].
  - done.
  - pose proof (as_u32_bounds (send_next w.1 - send_unacknowledged w.1)) as [H _]. unfold sent_so_far, wrapping_sub. lia.
Qed.

(** ** What is held past a gap *)

Lemma run_bytes_app l l' : run_bytes (l ++ l') = run_bytes l + run_bytes l'.
Proof. induction l as [|h l IH]; [done|]. cbn [app run_bytes foldr] in *. fold (run_bytes (l ++ l')) (run_bytes l). lia. Qed.

Lemma run_bytes_perm l l' : l ≡ₚ l' -> run_bytes l = run_bytes l'.
Proof. unfold run_bytes. induction 1; cbn [foldr] in *; lia. Qed.

Lemma run_bytes_nonneg l : 0 <= run_bytes l.
Proof. induction l as [|h l IH]; cbn [run_bytes foldr] in *; [lia|]. fold (run_bytes l) in *. lia. Qed.

Lemma removelast_bytes l : run_bytes (removelast l) <= run_bytes l /\ (length (removelast l) <= length l)%nat.
Proof.
  destruct l as [|h l] using rev_ind; [done|]. rewrite removelast_last, run_bytes_app, length_app. pose proof (run_bytes_nonneg [h]). split; lia.
Qed.

Lemma join_run_bytes l run : run_bytes (join_run l run) <= run_bytes l + len (h_data run) /\ (length (join_run l run) <= S (length l))%nat.
Proof.
  unfold join_run. destruct l as [|l0 l _] using rev_ind.
  { cbn. lia. }
  rewrite last_snoc, removelast_last. destruct (seq_le _ _); [|rewrite run_bytes_app, length_app; cbn; lia].
  destruct (_ <? _); [|split; lia]. rewrite !run_bytes_app, !length_app. cbn [run_bytes foldr h_data length]. rewrite length_app, length_drop. lia.
Qed.

Lemma join_runs_bytes runs : forall l,
  run_bytes (foldl join_run l runs) <= run_bytes l + run_bytes runs /\ (length (foldl join_run l runs) <= length l + length runs)%nat.
Proof.
  induction runs as [|run runs IH]; intros l; cbn [foldl length]; [unfold run_bytes at 3; cbn; lia|].
  destruct (IH (join_run l run)) as [H1 H2]. destruct (join_run_bytes l run) as [H3 H4].
  change (run_bytes (run :: runs)) with (len (h_data run) + run_bytes runs). lia.
Qed.

Lemma coalesce_bytes t :
  run_bytes (out_of_order (coalesce t)) <= run_bytes (out_of_order t) /\ (length (out_of_order (coalesce t)) <= length (out_of_order t))%nat.
Proof.
  unfold coalesce. set (runs := sort_by_key _ _). cbn [out_of_order set_out_of_order]. destruct (join_runs_bytes runs []) as [H1 H2].
  assert (Hp : runs ≡ₚ out_of_order t) by apply sort_perm. rewrite (run_bytes_perm _ _ Hp) in H1. rewrite (Permutation_length Hp) in H2. cbn in H1, H2. lia.
Qed.

Lemma deliver_runs_bytes runs : forall t, len (received t) <= RECEIVE_WINDOW ->
  run_bytes (out_of_order (deliver_runs runs t)) <= run_bytes runs /\ (length (out_of_order (deliver_runs runs t)) <= length runs)%nat /\
  len (received (deliver_runs runs t)) <= RECEIVE_WINDOW /\ delivered_from t (deliver_runs runs t).
Proof.
  induction runs as [|run rest IH]; intros t Ht; cbn [deliver_runs].
  { split_and!; [done|done|done|by exists (received t), (receive_next t), []]. }
  change (run_bytes (run :: rest)) with (len (h_data run) + run_bytes rest). cbn [length].
  destruct (seq_gt _ _); [split_and!; [done|done|done|by exists (received t), (receive_next t), (run :: rest)]|].
  destruct (len (h_data run) <=? _) eqn:Eskip; [destruct (IH t Ht) as (H1 & H2 & H3 & H4); split_and!; [lia|lia|done|done]|].
  set (skip := wrapping_sub _ _) in *. set (n := Z.min _ _). set (t1 := set_receive_next _ _).
  assert (Hs : 0 <= skip) by (pose proof (as_u32_bounds (receive_next t - h_sequence run)) as H; apply H).
  apply Z.leb_gt in Eskip.
  assert (Hn : 0 <= n <= RECEIVE_WINDOW - len (received t)) by (unfold n, saturating_sub; lia).
  assert (Ht1 : len (received t1) <= RECEIVE_WINDOW).
  { unfold t1. cbn [received set_receive_next set_received]. rewrite length_app, length_take, length_drop. lia. }
  assert (Hd : delivered_from t t1) by (by exists (received t1), (receive_next t1), (out_of_order t1)).
  destruct (_ <? len (h_data run)) eqn:Epart.
  - split_and!; [|done|done|].
    + cbn [out_of_order set_out_of_order run_bytes foldr h_data]. rewrite length_drop. fold (run_bytes rest). lia.
    + eapply delivered_trans; [exact Hd|]. by exists (received t1), (receive_next t1), (mkHeld (receive_next t1) (drop (Z.to_nat (skip + n)) (h_data run)) :: rest).
  - destruct (IH t1 Ht1) as (H1 & H2 & H3 & H4). split_and!; [lia|lia|done|exact (delivered_trans _ _ _ Hd H4)].
Qed.

(** The count brought up to date after the runs of [t] became others. *)
Lemma wp_account j t0 t n (Q : Tcb * N -> unit -> Prop) X :
  tcp_ok j (t0, n) -> held t = held t0 -> run_bytes (out_of_order t) + (held_bytes n - held t) <= REASSEMBLY_LIMIT ->
  (forall n', held_bytes n' = held_bytes n + (run_bytes (out_of_order t) - held t) -> wire_inv n' -> Q (set_held (run_bytes (out_of_order t)) t, n') tt) ->
  wp account Q X (t, n).
Proof.
  intros Hw Hh Hl HQ. unfold account. apply wp_bind, wp_gets, wp_bind, wp_modify, wp_modify. cbn [fst snd]. fold (run_bytes (out_of_order t)).
  pose proof (ok_share _ _ Hw) as Hs. pose proof (run_bytes_nonneg (out_of_order t)) as H0. cbn [fst snd] in Hs. unfold REASSEMBLY_LIMIT in *.
  replace (wrap64 _) with (held_bytes n + (run_bytes (out_of_order t) - held t)) by (unfold wrap64, u64_max; lia).
  destruct (held_ok (held_bytes n + (run_bytes (out_of_order t) - held t)) n) as [H1 H2]; [unfold REASSEMBLY_LIMIT; lia|exact (ok_wire _ _ Hw)|]. by apply HQ.
Qed.

Lemma serves_drop : serves 0 drop_out_of_order.
Proof.
  intros j [t n] Hj Hw. rewrite Z.add_0_r in Hw. unfold drop_out_of_order. apply wp_bind, wp_modify. cbn [fst snd].
  pose proof (ok_share _ _ Hw) as Hs. pose proof (ok_held _ _ Hw) as Hh. pose proof (run_bytes_nonneg (out_of_order t)). cbn [fst snd] in Hs, Hh.
  apply (wp_account j t); [done|done|cbn; unfold REASSEMBLY_LIMIT in *; lia|]. intros n' Hn' Hi. cbn in Hn'. destruct Hw. constructor; cbn in *; try done; unfold REASSEMBLY_LIMIT, MAX_HELD_RUNS in *; lia.
Qed.

Lemma serves_arm_reassembly : serves 0 arm_reassembly.
Proof.
  intros j w Hj Hw. rewrite Z.add_0_r in Hw. unfold arm_reassembly.
  apply (serves_timer (fun _ => REASSEMBLY_TICKS) set_reassembly_expire_at); [intros; unfold REASSEMBLY_TICKS; lia|ok_field|done|done].
Qed.

Lemma serves_hold start data : serves 0 (hold start data).
Proof.
  intros j [t n] Hj Hw. rewrite Z.add_0_r in Hw. unfold hold. apply wp_bind, wp_gets. cbn [fst snd]. destruct (negb _); [by apply wp_ret|].
  set (kept := take _ data). case_bool_decide; [by apply wp_ret|]. apply wp_bind, wp_gets. cbn [fst snd].
  pose proof (ok_share _ _ Hw) as Hs. pose proof (ok_held _ _ Hw) as Hh. pose proof (ok_runs _ _ Hw) as Hr. pose proof (run_bytes_nonneg (out_of_order t)) as H0.
  cbn [fst snd] in Hs, Hh, Hr. unfold REASSEMBLY_LIMIT, MAX_HELD_RUNS in *.
  assert (Hk : len kept <= 4294967295).
  { unfold kept. rewrite length_take. pose proof (as_u32_bounds (wrapping_add (receive_next t) (advertised_window t) - start)) as [_ H1]. unfold wrapping_sub, u32_max in *. lia. }
  apply wp_bind, wp_checked; [unfold u64_max; lia|]. destruct (_ <? _) eqn:El; [by apply wp_ret|]. apply Z.ltb_ge in El.
  apply wp_bind, wp_modify, wp_bind, wp_modify. cbn [fst snd]. set (t1 := coalesce _).
  destruct (coalesce_bytes (set_out_of_order (out_of_order t ++ [mkHeld start kept]) t)) as [B1 B2]. fold t1 in B1, B2.
  cbn [out_of_order set_out_of_order] in B1, B2. rewrite run_bytes_app in B1. cbn [run_bytes foldr h_data] in B1. fold (run_bytes (out_of_order t)) in B1. rewrite length_app in B2. cbn [length] in B2.
  assert (Ht1 : exists runs, t1 = set_out_of_order runs t) by (by eexists). destruct Ht1 as [runs Ht1].
  set (t2 := if _ <? _ then _ else t1).
  assert (Ht2 : exists runs2, t2 = set_out_of_order runs2 t /\ run_bytes runs2 <= run_bytes (out_of_order t) + len kept /\ len runs2 <= 16).
  { unfold t2. destruct (_ <? _) eqn:E16.
    - exists (removelast (out_of_order t1)). destruct (removelast_bytes (out_of_order t1)) as [R1 _]. split; [by rewrite Ht1|]. split; [lia|].
      destruct (out_of_order t1) as [|h l _] using rev_ind; [cbn; lia|]. rewrite removelast_last. rewrite length_app in *. cbn [length] in *. lia.
    - exists runs. apply Z.ltb_ge in E16. rewrite Ht1 in *. cbn [out_of_order set_out_of_order] in *. split_and!; [done|lia|lia]. }
  destruct Ht2 as (runs2 & Ht2 & R1 & R2). rewrite Ht2. clear t2 Ht2. apply wp_bind.
  apply (wp_account j t); [done|done|cbn [out_of_order set_out_of_order held]; unfold REASSEMBLY_LIMIT; lia|].
  intros n' Hn' Hi. cbn [out_of_order set_out_of_order held] in *. apply (serves0 j); [apply serves_arm_reassembly|done|].
  destruct Hw. constructor; cbn in *; try done; unfold REASSEMBLY_LIMIT, MAX_HELD_RUNS in *; lia.
Qed.

Lemma serves_deliver_held : serves 0 deliver_held.
Proof.
  intros j [t n] Hj Hw. rewrite Z.add_0_r in Hw. unfold deliver_held. apply wp_bind, wp_modify. cbn [fst snd].
  destruct (deliver_runs_bytes (out_of_order t) t (ok_received _ _ Hw)) as (B1 & B2 & B3 & (rcv & next & runs & Ht1)). rewrite Ht1 in *.
  pose proof (ok_share _ _ Hw) as Hs. pose proof (ok_held _ _ Hw) as Hh. pose proof (run_bytes_nonneg runs) as H0. cbn [fst snd] in Hs, Hh.
  cbn [out_of_order set_out_of_order received set_receive_next set_received] in B1, B2, B3. unfold REASSEMBLY_LIMIT in *.
  apply wp_bind, (wp_account j t); [done|done|cbn; unfold REASSEMBLY_LIMIT; fold (run_bytes runs); lia|]. intros n' Hn' Hi. cbn in Hn'. fold (run_bytes runs) in Hn'.
  assert (Hok : tcp_ok j (set_held (run_bytes runs) (set_out_of_order runs (set_receive_next next (set_received rcv t))), n')).
  { destruct Hw. constructor; cbn in *; try done; unfold REASSEMBLY_LIMIT, MAX_HELD_RUNS in *; lia. }
  apply wp_bind, wp_gets. destruct (_ && _).
  - apply (serves0 j); [apply serves_update; ok_field|done|exact Hok].
  - apply (serves0 j); [apply serves_arm_reassembly|done|exact Hok].
Qed.
End bounds.
