(* ===== verification/TcpServes.v ===== *)
(** * TCP: every method serves

    The rest of the methods keep [tcp_ok] and do not panic while its 32-bit counters
    have room: together, whatever arrives and whatever the program does, a
    connection stays within its bounds. *)

From S2P Require Import Prelude Words Packets PacketSpec Safe Tcp TcpInput TcpRuns TcpBounds.

Section serves.
Context {N : Type} {HW : Wire N} {HWok : WireOk N} {HS : Sorter} {HSok : SorterOk}.
Implicit Types (t : Tcb) (w : Tcb * N) (g : Segment.Segment).
Context {others : Z} {kids : list nat}.
Abbreviation serves := (serves (N := N) (others := others) (kids := kids)).
Abbreviation tcp_ok := (tcp_ok (others := others) (kids := kids)).

Ltac ok_field := intros; match goal with H : tcp_ok _ _ |- _ => destruct H end; constructor; cbn in *; try done; try lia.
Ltac flag := split; vm_compute; discriminate.
Ltac serve_step :=
  match goal with
  | |- serves 0 (bind _ _) => apply serves_bind0; [|intros ?]
  | |- serves 0 (ret _) => apply serves_ret
  | |- serves 0 (throw _) => apply serves_throw
  | |- serves 0 self => apply serves_gets
  | |- serves 0 (gets _) => apply serves_gets
  | |- serves 0 (if _ then _ else _) => apply serves_if
  | |- serves 0 (update _) => apply serves_update; ok_field
  | |- serves 0 (send_segment _ _ [] _) => apply serves_send_empty; flag
  | |- serves 0 acknowledge => apply serves_acknowledge
  | |- serves 0 arm_retransmit => apply serves_arm_retransmit
  | |- serves 0 arm_reassembly => apply serves_arm_reassembly
  | |- serves 0 send_syn_ack => apply serves_send_syn_ack
  | |- serves 0 output => apply serves_output
  | |- serves 0 drop_out_of_order => apply serves_drop
  | |- serves 0 (time_segment _) => apply serves_time_segment
  | |- serves 0 (hold _ _) => apply serves_hold
  | |- serves 0 deliver_held => apply serves_deliver_held
  | |- serves 0 (match ?x with _ => _ end) => destruct x
  end; cbv beta zeta.
Ltac serve := repeat serve_step.

(** A wait of at most [10000] ticks from now. *)
Lemma serves_wait (wait : Z) (f : Z -> Tcb -> Tcb) :
  0 <= wait <= 10000 -> (forall v j t n, tcp_ok j (t, n) -> tcp_ok j (f v t, n)) ->
  serves 0 (let! now := clock ticks in let! at_ := u64 (now + wait) in update (f at_)).
Proof.
  intros Hw Hf j w Hj Hok. rewrite Z.add_0_r in Hok. by apply (serves_timer (fun _ => wait) f).
Qed.

(** A state change on the way through the code. *)
Lemma wp_update_ok j f w (Q : Tcb * N -> unit -> Prop) X :
  (forall t n, tcp_ok j (t, n) -> tcp_ok j (f t, n)) -> tcp_ok j w -> (forall w', tcp_ok j w' -> w' = (f w.1, w.2) -> Q w' tt) -> wp (update f) Q X w.
Proof. intros Hf Hw HQ. apply wp_modify. destruct w as [t n]. apply HQ; [by apply Hf|done]. Qed.

(** What only reads the block first. *)
Lemma serves_self {A} k (f : Tcb -> TM (N := N) A) :
  (forall j w, 0 <= j -> tcp_ok (j + k) w -> wp (f w.1) (fun w' _ => tcp_ok j w') (fun w' _ => tcp_ok j w') w) -> serves k (let! t := self in f t).
Proof. intros H j w Hj Hw. apply wp_bind, wp_gets. by apply H. Qed.

Lemma serves_enter_time_wait : serves 0 enter_time_wait.
Proof.
  unfold enter_time_wait. serve_step; [serve|]. serve_step; [serve|]. intros j w Hj Hw. rewrite Z.add_0_r in Hw.
  apply wp_bind, (wp_ticks (others := others) (kids := kids) j); [done|]. intros n v Hv Hn. apply wp_bind, wp_checked; [unfold u64_max, TIME_WAIT_TICKS; lia|].
  apply (serves0 j); [|done|done]. serve_step; [apply serves_update; ok_field; constructor|]. apply serves_update. intros j' t' n' H.
  destruct (abandoned t'); [|done]. destruct H. constructor; cbn in *; done.
Qed.

Lemma serves_enter_fin_wait_2 : serves 0 enter_fin_wait_2.
Proof.
  unfold enter_fin_wait_2. serve_step; [serve|]. serve_step; [serve|]. serve_step; [|serve].
  apply serves_wait; [unfold FIN_WAIT_2_TICKS; lia|ok_field].
Qed.

Lemma serves_abandon : serves 0 abandon.
Proof.
  unfold abandon. serve_step; [serve|]. serve_step; [serve|]. serve_step; [serve|]. serve_step; [|serve].
  apply serves_wait; [unfold FIN_WAIT_2_TICKS; lia|ok_field].
Qed.

Lemma serves_take_fin : serves 0 take_fin.
Proof.
  unfold take_fin. serve_step; [serve|]. serve_step; [apply serves_update; intros j t n H; case_bool_decide; [destruct H; constructor; done|done]|].
  serve_step; [serve|]. serve_step; [serve|]. serve_step; [serve|]. serve_step; [|serve].
  destruct (tstate a1); serve. apply serves_enter_time_wait.
Qed.

Lemma serves_abort : serves 0 abort.
Proof. unfold abort. serve. Qed.

Lemma serves_retransmit_head : serves 0 retransmit_head.
Proof.
  unfold retransmit_head. apply serves_self. intros j w Hj Hw. rewrite Z.add_0_r in Hw.
  pose proof (ok_rto _ _ Hw) as Hr. pose proof (ok_mss _ _ Hw) as Hm. unfold MIN_RTO, MAX_RTO, MIN_MSS, MSS in Hr, Hm.
  assert (Hrestart : serves 0 (update (set_timed None) ;;; let! now := clock ticks in let! at_ := u64 (now + rto w.1) in update (set_retransmit_at at_))).
  { serve_step; [serve|]. apply serves_wait; [lia|ok_field]. }
  destruct (_ =? 0) eqn:E.
  - destruct (fin_sequence w.1); [|by apply wp_ret]. destruct (fin_acknowledged w.1); [by apply wp_ret|].
    apply (serves0 j); [|done|done]. serve_step; [serve|done].
  - apply (serves0 j); [|done|done]. serve_step; [|done].
    apply serves_send; [clear E; destruct (_ =? _); flag|by apply Forall_take, (ok_pending _ _ Hw)|]. rewrite length_take. unfold effective_mss, MSS in *. lia.
Qed.

Lemma serves_count : serves 1 count_fast_retransmit.
Proof.
  unfold count_fast_retransmit. apply serves_self. intros j w Hj Hw. pose proof (ok_counts _ _ Hw) as [Hc _].
  apply wp_bind, wp_checked; [lia|]. apply wp_modify. destruct Hw. constructor; cbn in *; try done; lia.
Qed.

Lemma serves_bind1 {A B} (m : TM (N := N) A) (f : A -> TM B) : serves 0 m -> (forall a, serves 1 (f a)) -> serves 1 (bind m f).
Proof. intros Hm Hf. by apply (serves_bind 0 1). Qed.

Lemma serves_enter_recovery : serves 1 enter_recovery.
Proof.
  unfold enter_recovery. apply serves_bind1; [serve|intros _]. apply (serves_bind 1 0); [lia|lia|apply serves_count|intros _].
  serve_step; [apply serves_retransmit_head|serve].
Qed.

Lemma serves_respond ack acked : serves 1 (respond ack acked).
Proof.
  unfold respond. apply serves_bind1; [serve|intros t]. destruct (recover t).
  - destruct (seq_lt _ _); [|apply (serves_more 0); [lia|serve]]. apply serves_bind1; [serve|intros _].
    apply (serves_bind 1 0); [lia|lia|apply serves_count|intros _; apply serves_retransmit_head].
  - apply (serves_more 0); [lia|]. serve.
Qed.

Lemma serves_on_ack ack : serves 1 (on_ack ack).
Proof.
  unfold on_ack. apply serves_bind1; [serve|intros t]. apply serves_if; [apply (serves_more 0); [lia|serve]|].
  destruct (acked_bytes ack t) as [acked fin]. apply serves_bind1.
  { apply serves_update. ok_field; [by apply Forall_drop|rewrite length_drop; lia]. }
  intros _. apply serves_bind1; [apply serves_take_sample|intros _].
  apply serves_bind1; [apply serves_update; intros j t' n H; destruct (seq_lt _ _); [destruct H; constructor; done|done]|intros _].
  apply (serves_bind 0 1); [lia|lia| |intros _].
  { intros j [t' n] Hj Hw. rewrite Z.add_0_r in Hw. apply wp_modify. destruct Hw. constructor; cbn in *; try done; lia. }
  apply serves_self. intros j w Hj Hw. apply wp_bind.
  assert (Hgo : forall w', tcp_ok (j + 1) w' -> wp (respond ack acked ;;; ret true) (fun w' _ => tcp_ok j w') (fun w' _ => tcp_ok j w') w').
  { intros w' Hw'. apply (serves_bind 1 0); [lia|lia|apply serves_respond|intros _; serve|done|]. by replace (j + (1 + 0)) with (j + 1) by lia. }
  eapply wp_mono; [apply (serves0 (others := others) (kids := kids) (j + 1)); [|lia|exact Hw]| |]; [|intros w' [] Hw'; by apply Hgo|intros w' e Hw'; apply (ok_less (j + 1)); [lia|done]].
  apply serves_if; [serve|]. pose proof (ok_rto _ _ Hw) as Hr. unfold MIN_RTO, MAX_RTO in Hr. apply serves_wait; [lia|ok_field].
Qed.

Lemma serves_on_duplicate : serves 2 on_duplicate.
Proof.
  unfold on_duplicate. apply serves_self. intros j w Hj Hw. pose proof (ok_duplicates _ _ Hw) as Hd. apply wp_bind, wp_checked; [lia|].
  apply wp_bind, wp_modify. assert (Hw1 : tcp_ok (j + 1) (set_duplicate_acks (duplicate_acks w.1 + 1) w.1, w.2)).
  { destruct Hw. constructor; cbn in *; try done; lia. }
  destruct (_ && _); [by apply serves_enter_recovery|]. apply (serves_more 0 1); [lia| |done|done]. serve.
Qed.

Lemma serves_move_close : serves 0 move_close.
Proof.
  unfold move_close. serve_step; [serve|]. serve_step; [|serve]. destruct (tstate a); serve.
  - apply serves_enter_fin_wait_2.
  - apply serves_enter_time_wait.
Qed.

Lemma serves_take_data start data : serves 0 (take_data start data).
Proof.
  unfold take_data. apply serves_self. intros j w Hj Hw. rewrite Z.add_0_r in Hw. case_bool_decide; [by apply wp_ret|]. destruct (negb _).
  { apply (serves0 j); [|done|done]. serve_step; [|serve]. apply serves_update. intros j' t n H'. destruct (_ =? _); [destruct H'; constructor; done|done]. }
  destruct (_ =? _); [|apply (serves0 j); [serve|done|done]]. apply wp_bind, wp_modify. apply (serves0 j); [serve|done|].
  pose proof (ok_received _ _ Hw) as Hr. destruct Hw. constructor; cbn in *; try done. rewrite length_app, length_take. unfold saturating_sub. lia.
Qed.

Lemma serves_note_fin finish : serves 0 (note_fin finish).
Proof. unfold note_fin. serve. Qed.

Lemma ok_open_window b j t n : tcp_ok j (t, n) -> tcp_ok j (open_window b t, n).
Proof.
  intros H. unfold open_window. set (t1 := if seq_lt _ _ then _ else t).
  assert (H1 : tcp_ok j (t1, n)) by (unfold t1; destruct (seq_lt _ _); [destruct H; constructor; done|done]).
  destruct (_ || _); [done|]. destruct (_ || _); [destruct H1; constructor; done|done].
Qed.

Lemma serves_on_data g before : serves 0 (on_data g before).
Proof.
  unfold on_data. serve_step; [serve|]. destruct (trim g a) as [start data]. serve_step; [serve; apply serves_take_data|].
  serve_step; [serve; apply serves_note_fin|]. serve_step; [serve|]. serve_step; [serve; apply serves_take_fin|]. serve_step; [serve|].
  serve_step; [|serve]. serve_step; [|serve]. serve_step; [|serve]. apply serves_update. intros j t n. apply ok_open_window.
Qed.

(** ** Segments, programs, the clock *)

Lemma wp_seq_length g w (Q : Tcb * N -> Z -> Prop) (X : Tcb * N -> Errno -> Prop) :
  len (Segment.payload g) <= 65535 -> (forall v, Q w v) -> wp (Segment.seq_length g) Q X w.
Proof.
  intros Hl HQ. unfold Segment.seq_length. apply wp_checked; [|apply HQ]. unfold as_u32, u32_max.
  destruct (Segment.has _ Segment.SYN), (Segment.has _ Segment.FIN); lia.
Qed.

Lemma serves_acceptable g : len (Segment.payload g) <= 65535 -> serves 0 (acceptable g).
Proof.
  intros Hl. unfold acceptable. apply serves_self. intros j w Hj Hw. rewrite Z.add_0_r in Hw. apply wp_bind, wp_seq_length; [done|]. intros v.
  apply (serves0 j); [serve|done|done].
Qed.

Lemma serves_on_unacceptable g : serves 0 (on_unacceptable g).
Proof. unfold on_unacceptable. serve. Qed.

Lemma serves_on_reset g : serves 0 (on_reset g).
Proof.
  unfold on_reset. serve_step; [serve|]. serve_step; [serve|]. serve_step; [serve; constructor|]. serve_step; [serve|]. serve_step; [|serve].
  apply serves_update. intros j t n H. destruct (error t); [done|]. destruct H. constructor; done.
Qed.

Lemma ok_take_syn g j t n : option_Forall is_u16 (Segment.mss g) -> tcp_ok j (t, n) -> tcp_ok j (take_syn g t, n).
Proof.
  intros Hm H. unfold take_syn. destruct (Segment.mss g); destruct H; constructor; cbn in *; try done. unfold MIN_MSS, MSS. lia.
Qed.

Lemma serves_on_syn_sent g : segment_ok g -> serves 0 (on_syn_sent g).
Proof.
  intros (_ & _ & _ & _ & _ & _ & Hm & _). unfold on_syn_sent. serve_step; [serve|]. serve_step; [serve|]. serve_step; [serve|]. serve_step; [serve|].
  serve_step; [apply serves_update; intros j t n; by apply ok_take_syn|]. serve_step; [|serve]. serve_step; [|serve].
  intros j [t n] Hj Hw. rewrite Z.add_0_r in Hw. apply wp_modify. destruct Hw. constructor; cbn in *; try done; lia.
Qed.

Lemma serves_on_handshake g : serves 0 (on_handshake g).
Proof.
  unfold on_handshake. serve_step; [serve|]. serve_step; [|serve]. serve_step; [|serve]. serve_step; [|serve].
  intros j [t n] Hj Hw. rewrite Z.add_0_r in Hw. apply wp_modify. destruct Hw. constructor; cbn in *; try done; lia.
Qed.

Lemma ok_take_window g j t n : tcp_ok j (t, n) -> tcp_ok j (take_window g t, n).
Proof. intros H. unfold take_window. destruct (_ || _); [destruct H; constructor; done|done]. Qed.

Lemma serves_bind3 {A B} k k' (m : TM (N := N) A) (f : A -> TM B) : 0 <= k -> 0 <= k' -> k + k' <= 3 -> serves k m -> (forall a, serves k' (f a)) -> serves 3 (bind m f).
Proof. intros H1 H2 H3 Hm Hf. apply (serves_more (k + k')); [lia|]. by apply serves_bind. Qed.

Lemma serves_on_segment g : segment_ok g -> len (Segment.payload g) <= 65535 -> serves 3 (on_segment g).
Proof.
  intros Hg Hl. unfold on_segment. apply (serves_bind3 0 3); [lia..|serve|intros t].
  assert (Hopen : serves 3 (on_open_segment g)); [|destruct (tstate t); try done; apply (serves_more 0); try lia; [serve|serve|by apply serves_on_syn_sent]].
  unfold on_open_segment. apply (serves_bind3 0 3); [lia..|by apply serves_acceptable|intros ok].
  apply serves_if; [apply (serves_more 0); [lia|apply serves_on_unacceptable]|]. apply serves_if; [apply (serves_more 0); [lia|apply serves_on_reset]|].
  apply serves_if; [apply (serves_more 0); [lia|serve]|]. apply serves_if; [apply (serves_more 0); [lia|serve]|].
  apply (serves_bind3 0 3); [lia..|serve|intros t1]. apply (serves_bind3 0 3); [lia..|apply serves_on_handshake|intros [go_on opened]].
  apply serves_if; [apply (serves_more 0); [lia|serve]|]. apply (serves_bind3 1 2); [lia..|apply serves_on_ack|intros acked].
  apply (serves_bind 2 0); [lia|lia|destruct (is_duplicate g t1); [apply serves_on_duplicate|apply (serves_more 0); [lia|serve]]|intros _].
  serve_step; [apply serves_update; intros j t' n; apply ok_take_window|]. serve_step; [apply serves_move_close|]. serve_step; [apply serves_on_data|serve].
Qed.

Lemma serves_write buf : Forall is_u8 buf -> serves 0 (write buf).
Proof.
  intros Hb. unfold write. apply serves_self. intros j w Hj Hw. rewrite Z.add_0_r in Hw.
  assert (Hput : wp (if fin_queued w.1 then throw EPIPE else
      let room := saturating_sub SEND_BUFFER (len (pending w.1)) in
      if room =? 0 then throw EAGAIN else
      let n := Z.min room (len buf) in
      update (fun t => set_pending (pending t ++ take (Z.to_nat n) buf) t) ;;; output ;;; ret n) (fun w' _ => tcp_ok j w') (fun w' _ => tcp_ok j w') w).
  { destruct (fin_queued w.1); [done|]. cbv zeta. destruct (_ =? 0); [done|]. apply wp_bind, wp_modify. apply (serves0 j); [serve|done|].
    pose proof (ok_send_buffer _ _ Hw). destruct Hw. constructor; cbn in *; try done.
    - apply Forall_app. split; [done|by apply Forall_take].
    - rewrite length_app, length_take. unfold saturating_sub. lia. }
  destruct (tstate w.1); try done. apply (serves0 j); [serve|done|done].
Qed.

Lemma serves_read room peek : serves 0 (read room peek).
Proof.
  unfold read. serve_step; [serve|]. serve_step.
  - serve_step; [|serve]. destruct peek; [serve|]. serve_step; [apply serves_update; ok_field; rewrite length_drop; lia|].
    serve_step; [serve|]. serve_step; [apply serves_update; intros j t n; apply ok_open_window|]. serve.
  - serve_step; [serve|]. serve_step; [serve|]. destruct (tstate a); serve.
Qed.

Lemma serves_shutdown_write : serves 0 shutdown_write.
Proof. unfold shutdown_write. serve_step; [serve|]. serve_step; [serve|]. destruct (tstate a); serve. Qed.

Lemma serves_send_again : serves 0 send_again.
Proof.
  unfold send_again. serve_step; [serve|]. assert (Hgo : serves 0 (update (fun t => set_fin_sequence None (set_send_next (send_unacknowledged t) t)) ;;;
      let! t := self in match pending t with
      | byte :: _ => if send_window t =? 0 then send_segment Segment.ACK (send_next t) [byte] false ;;; update (sent_through (wrapping_add (send_next t) 1)) else output
      | [] => output end)); [|destruct (tstate a); try done; serve].
  serve_step; [serve|]. apply serves_self. intros j w Hj Hw. rewrite Z.add_0_r in Hw. destruct (pending w.1) as [|byte rest] eqn:Ep.
  - apply (serves0 j); [serve|done|done].
  - apply (serves0 j); [|done|done]. serve_step; [|serve]. serve_step; [|apply serves_update; intros j' t n; apply ok_sent_through].
    apply serves_send; [flag| |cbn; unfold MSS; lia]. pose proof (ok_pending _ _ Hw) as H. rewrite Ep in H. apply Forall_cons in H as [H _]. by constructor.
Qed.

Lemma serves_on_timer now : 0 <= now <= 2 ^ 62 -> serves 1 (on_timer now).
Proof.
  intros Hnow. unfold on_timer. apply serves_bind1; [serve|intros t]. apply serves_bind1; [serve|intros _]. apply serves_bind1; [serve|intros t1].
  apply serves_if; [apply (serves_more 0); [lia|]; serve; constructor|]. apply serves_if; [apply (serves_more 0); [lia|serve]|].
  unfold on_timeout. apply serves_self. intros j w Hj Hw. pose proof (ok_retries _ _ Hw) as Hr. pose proof (ok_counts _ _ Hw) as [_ Hc]. pose proof (ok_rto _ _ Hw) as Ht.
  unfold MIN_RTO, MAX_RTO in Ht. apply wp_bind, wp_checked; [lia|]. apply wp_bind, wp_modify. set (t2 := set_retries _ _).
  assert (Hw2 : tcp_ok j (t2, w.2)) by (destruct Hw; constructor; cbn in *; try done; lia).
  destruct (_ <? retries w.1 + 1).
  { apply (serves0 j); [|done|done]. serve_step; [apply serves_abort|serve]. }
  apply wp_bind, wp_checked; [unfold u64_max; lia|]. apply wp_bind, wp_checked; [unfold u64_max, MAX_RTO; lia|].
  apply wp_bind, wp_checked; [lia|]. apply wp_bind, wp_modify. apply (serves0 j); [serve_step; [apply serves_send_again|serve]|done|].
  destruct Hw. constructor; cbn in *; try done; unfold MIN_RTO, MAX_RTO in *; lia.
Qed.

Lemma serves_initial_sequence l r : serves 0 (initial_sequence l r).
Proof.
  intros j [t n] Hj Hw. rewrite Z.add_0_r in Hw. unfold initial_sequence. apply wp_bind, (wp_nanos (others := others) (kids := kids) j); [done|]. intros n' v _ Hn.
  unfold clock, below. apply wp_bind, wp_zoom, wp_state. cbn [fst snd]. apply wp_ret. destruct (secret_ok n' (ok_wire _ _ Hn)) as [H1 H2]. by apply (ok_below (others := others) (kids := kids) j t n').
Qed.

Lemma serves_open : serves 0 open.
Proof.
  unfold open. serve_step; [serve|]. serve_step; [serve|]. serve_step; [apply serves_initial_sequence|]. serve_step.
  { intros j [t n] Hj Hw. rewrite Z.add_0_r in Hw. apply wp_modify. destruct Hw. constructor; cbn in *; try done; unfold INITIAL_RTO, MIN_RTO, MAX_RTO in *; lia. }
  serve_step; [serve|]. serve_step; [apply serves_update; intros j t n; apply ok_sent_through|]. serve.
Qed.

Lemma serves_accept_open g : segment_ok g -> serves 0 (accept_open g).
Proof.
  intros (_ & _ & _ & _ & _ & _ & Hm & _). unfold accept_open. serve_step; [apply serves_update; intros j t n; by apply ok_take_syn|].
  serve_step; [serve|]. serve_step; [apply serves_initial_sequence|].
  serve_step; [apply serves_update; intros j t n H; apply ok_sent_through; destruct H; constructor; done|]. serve_step; [serve|].
  apply serves_update. ok_field.
Qed.

(** ** A connection's whole life *)

(** What the socket layer, the network and the clock call. *)
Inductive Call :=
  | CallOpen | CallAccept (g : Segment.Segment) | CallSegment (g : Segment.Segment) | CallWrite (buf : list Z) | CallRead (room : Z) (peek : bool)
  | CallShutdown | CallTimer (now : Z) | CallAbandon | CallAbort.

Definition call (c : Call) : TM (N := N) unit :=
  match c with
  | CallOpen => open
  | CallAccept g => accept_open g
  | CallSegment g => let! _ := on_segment g in ret tt
  | CallWrite buf => let! _ := write buf in ret tt
  | CallRead room peek => let! _ := read room peek in ret tt
  | CallShutdown => shutdown_write
  | CallTimer now => let! _ := on_timer now in ret tt
  | CallAbandon => abandon
  | CallAbort => abort
  end.

(** Segments as the parser makes them, bytes, and a clock that has not run for
    ages. *)
Definition call_ok (c : Call) : Prop :=
  match c with
  | CallAccept g | CallSegment g => segment_ok g /\ len (Segment.payload g) <= 65535
  | CallWrite buf => Forall is_u8 buf
  | CallTimer now => 0 <= now <= 2 ^ 62
  | _ => True
  end.

(** One after the other; an error is the caller's. *)
Fixpoint run_calls (calls : list Call) : TM (N := N) unit :=
  match calls with
  | [] => ret tt
  | c :: rest => let! _ := try_ (call c) in run_calls rest
  end.

Lemma serves_call c : call_ok c -> serves 3 (call c).
Proof.
  intros Hc. destruct c as [|g|g|buf|room peek| |now| |]; cbn [call call_ok] in *.
  3: apply (serves_bind3 3 0); [lia..|apply serves_on_segment; apply Hc|intros ?; serve].
  6: apply (serves_bind3 1 0); [lia..|by apply serves_on_timer|intros ?; serve].
  all: apply (serves_more 0); [lia|].
  - apply serves_open.
  - apply serves_accept_open, Hc.
  - serve_step; [by apply serves_write|serve].
  - serve_step; [apply serves_read|serve].
  - apply serves_shutdown_write.
  - apply serves_abandon.
  - apply serves_abort.
Qed.

(** The room that is left in the fullest of a connection's 32-bit counters. *)
Definition spare (t : Tcb) : Z := u32_max - Z.max (Z.max (retries t) (duplicate_acks t)) (Z.max (fast_retransmits t) (timeouts t)).

Lemma ok_spare j k w : k <= spare w.1 -> tcp_ok j w -> tcp_ok k w.
Proof. unfold spare. intros Hk []. constructor; try done; lia. Qed.

Lemma spare_ok j w : tcp_ok j w -> j <= spare w.1.
Proof. unfold spare. intros []. lia. Qed.

(** There is no room in the code for a counter that is full. *)
Lemma full_counter_panics (t : Tcb) (n : N) : fast_retransmits t = u32_max -> count_fast_retransmit (t, n) = ((t, n), Stuck Panic).
Proof. intros H. unfold count_fast_retransmit, bind, self, gets. cbn [fst]. rewrite H. reflexivity. Qed.

(** Calls are served for as long as each counter has the room one call takes. *)
Lemma calls_served calls : forall k w, Forall call_ok calls -> tcp_ok 0 w -> 0 <= k -> u32_max - 3 * k <= spare w.1 ->
  exists served rest w', calls = served ++ rest /\ run_calls served w = (w', Ok tt) /\ tcp_ok 0 w' /\
    (rest = [] \/ spare w'.1 < 3 /\ u32_max < 3 * (k + len served + 1)).
Proof.
  induction calls as [|c calls IH]; intros k w Hc Hw Hk0 Hk; [exists [], [], w; split_and!; [done..|by left]|].
  destruct (Z.le_gt_cases 3 (spare w.1)) as [Hs|Hs]; [|exists [], (c :: calls), w; split_and!; [done..|right; cbn; lia]].
  apply Forall_cons in Hc as [Hc Hcs]. set (j := spare w.1 - 3) in *.
  assert (Hcall : wp (call c) (fun w' _ => tcp_ok j w') (fun w' _ => tcp_ok j w') w) by (apply (serves_call c Hc); [lia|]; apply (ok_spare 0); [lia|done]).
  unfold wp in Hcall. destruct (call c w) as [w1 [[]|e|why]] eqn:Ecall; [| |done].
  all: destruct (IH (k + 1) w1 Hcs (ok_less j 0 w1 ltac:(lia) Hcall) ltac:(lia) ltac:(pose proof (spare_ok j w1 Hcall); lia)) as (served & rest & w' & -> & Hs1 & Hok & Hend).
  all: exists (c :: served), rest, w'; split; [done|]; split; [cbn [run_calls]; unfold bind, try_; rewrite Ecall; exact Hs1|]; split; [done|].
  all: destruct Hend as [->|[H1 H2]]; [by left|right; split; [done|]]; cbn [length]; lia.
Qed.

(** A fresh block between two ends. *)
Definition fresh (l r : Endpoint) : Tcb := set_remote r (set_local l tcb_new).

Lemma fresh_block_ok l r n j :
  endpoint_ok l -> endpoint_ok r -> 0 <= j <= u32_max -> wire_inv n -> 0 <= others <= REASSEMBLY_LIMIT -> held_bytes n = others -> kids = [] -> tcp_ok j (fresh l r, n).
Proof.
  intros Hl Hr Hj Hn Hh Ho Hk. constructor; cbn [fst snd]; try done; cbn; unfold INITIAL_RTO, MIN_RTO, MAX_RTO, MIN_MSS, MSS, SEND_BUFFER, RECEIVE_WINDOW, MAX_HELD_RUNS; lia.
Qed.
End serves.

Section life.
Context {N : Type} {HW : Wire N} {HWok : WireOk N} {HS : Sorter} {HSok : SorterOk}.

(** C8: From a fresh block on, whatever segments arrive, in whatever state, and
    whatever the program asks for: either every call ends without a panic, or at
    least 1431655765 of them do and one of the connection's 32-bit counters is then
    within three of the number they cannot count past, where the code panics
    ([full_counter_panics]). After the calls that end, at
    most 64 KiB wait to be sent and 65535 bytes to be read, at most 16 runs are
    held past a gap, their bytes and no others have been added to the common
    count, which keeps its limit, and the retransmission timeout is between 200 ms
    and 6 s. *)
Theorem tcp_serves l r n calls :
  endpoint_ok l -> endpoint_ok r -> wire_inv n -> 0 <= held_bytes n <= REASSEMBLY_LIMIT -> Forall call_ok calls ->
  exists served rest t' n', calls = served ++ rest /\ run_calls served (fresh l r, n) = ((t', n'), Ok tt) /\
    (rest = [] \/ spare t' < 3 /\ 1431655765 <= len served) /\
    len (pending t') <= 65536 /\ len (received t') <= 65535 /\ len (out_of_order t') <= 16 /\
    held t' = run_bytes (out_of_order t') /\ held_bytes n' = held_bytes n + held t' /\ held_bytes n' <= REASSEMBLY_LIMIT /\ 20 <= rto t' <= 600.
Proof.
  intros Hl Hr Hn Hh Hc. pose proof (fresh_block_ok (others := held_bytes n) (kids := []) l r n 0 Hl Hr ltac:(unfold u32_max; lia) Hn Hh eq_refl eq_refl) as H0.
  destruct (calls_served calls 0 (fresh l r, n) Hc H0 ltac:(lia)) as (served & rest & [t' n'] & E & Hrun & H & Hend); [vm_compute; discriminate|].
  exists served, rest, t', n'. split; [done|]. split; [done|]. split; [|destruct H; cbn [fst snd] in *; unfold SEND_BUFFER, RECEIVE_WINDOW, MAX_HELD_RUNS, MIN_RTO, MAX_RTO in *; split_and!; try done; lia].
  destruct Hend as [->|[H1 H2]]; [by left|right; split; [done|]]. unfold u32_max in H2. lia.
Qed.
End life.
