(* ===== verification/Link.v ===== *)
(** * The link: configuration, address resolution, sending

    The lower half of [kernel/src/net]: the configuration and the loopback queue
    of [mod.rs], [arp.rs], and the sending half of [ip.rs]. The card, the clocks
    and the random numbers are the class [Machine]; everything else the code
    keeps in statics is a field of [Link]. An instance of [Wire] gives TCP its
    view of it. *)

From S2P Require Import Prelude Words Packets Config Tcp.

(** ** The machine *)

Class Machine (C : Type) := {
  read_ticks : C -> C * Z;
  read_ns : C -> C * Z;
  next_u64 : C -> C * Z;
  (** [INTERFACE]: a card is attached, its address, its link. *)
  attached : C -> bool;
  nic_mac : C -> list Z;
  nic_link_up : C -> bool;
  nic_transmit : list Z -> M C Errno unit;
}.

(** ** The state *)

(** [arp::Entry] *)
Record Entry := mkEntry {
  e_address : Z;
  e_mac : option (list Z);
  e_deadline : Z;
  e_requests : Z;
  e_queued : list (list Z);
}.

Record Link (C : Type) := mkLink {
  hw : C;
  config : option Config;
  cache : list Entry;
  loopback : list (list Z);
  next_id : Z;
  (** [LOSS], [SENT] and [ARRIVED]. *)
  loss : Z;
  sent : Z;
  arrived : Z;
  secret : Z;
  held_share : Z;
  (** The name servers last published, and what /etc/resolv.conf was replaced
      with. *)
  published : option (list Z);
  resolv_conf : option (list Z);
}.
Arguments mkLink {C}.
Arguments hw {C}.
Arguments config {C}.
Arguments cache {C}.
Arguments loopback {C}.
Arguments next_id {C}.
Arguments loss {C}.
Arguments sent {C}.
Arguments arrived {C}.
Arguments secret {C}.
Arguments held_share {C}.
Arguments published {C}.
Arguments resolv_conf {C}.

Definition ENTRY_LIFETIME : Z := 100 * 60.
Definition REQUEST_INTERVAL : Z := 100.
Definition MAX_REQUESTS : Z := 4.
Definition MAX_QUEUED : Z := 4.
Definition MAX_ENTRIES : Z := 64.
Definition LOOPBACK_LIMIT : Z := 256.

Section link.
Context {C : Type} `{!Machine C}.
Abbreviation LM := (M (Link C) Errno).

Definition with_hw (x : C) (l : Link C) : Link C :=
  mkLink x (config l) (cache l) (loopback l) (next_id l) (loss l) (sent l) (arrived l) (secret l) (held_share l) (published l) (resolv_conf l).
Definition with_config (x : option Config) (l : Link C) : Link C :=
  mkLink (hw l) x (cache l) (loopback l) (next_id l) (loss l) (sent l) (arrived l) (secret l) (held_share l) (published l) (resolv_conf l).
Definition with_cache (x : list Entry) (l : Link C) : Link C :=
  mkLink (hw l) (config l) x (loopback l) (next_id l) (loss l) (sent l) (arrived l) (secret l) (held_share l) (published l) (resolv_conf l).
Definition with_loopback (x : list (list Z)) (l : Link C) : Link C :=
  mkLink (hw l) (config l) (cache l) x (next_id l) (loss l) (sent l) (arrived l) (secret l) (held_share l) (published l) (resolv_conf l).
Definition with_next_id (x : Z) (l : Link C) : Link C :=
  mkLink (hw l) (config l) (cache l) (loopback l) x (loss l) (sent l) (arrived l) (secret l) (held_share l) (published l) (resolv_conf l).
Definition with_loss (x : Z) (l : Link C) : Link C :=
  mkLink (hw l) (config l) (cache l) (loopback l) (next_id l) x (sent l) (arrived l) (secret l) (held_share l) (published l) (resolv_conf l).
Definition with_sent (x : Z) (l : Link C) : Link C :=
  mkLink (hw l) (config l) (cache l) (loopback l) (next_id l) (loss l) x (arrived l) (secret l) (held_share l) (published l) (resolv_conf l).
Definition with_arrived (x : Z) (l : Link C) : Link C :=
  mkLink (hw l) (config l) (cache l) (loopback l) (next_id l) (loss l) (sent l) x (secret l) (held_share l) (published l) (resolv_conf l).
Definition with_secret (x : Z) (l : Link C) : Link C :=
  mkLink (hw l) (config l) (cache l) (loopback l) (next_id l) (loss l) (sent l) (arrived l) x (held_share l) (published l) (resolv_conf l).
Definition with_share (x : Z) (l : Link C) : Link C :=
  mkLink (hw l) (config l) (cache l) (loopback l) (next_id l) (loss l) (sent l) (arrived l) (secret l) x (published l) (resolv_conf l).
Definition with_published (x : option (list Z)) (text : option (list Z)) (l : Link C) : Link C :=
  mkLink (hw l) (config l) (cache l) (loopback l) (next_id l) (loss l) (sent l) (arrived l) (secret l) (held_share l) x text.

(** What is read of the machine may move it on. *)
Definition machine {A} (f : C -> C * A) (l : Link C) : Link C * A := let (c, a) := f (hw l) in (with_hw c l, a).
Definition now : LM Z := state (machine read_ticks).

(** ** The card *)

(** [SENT] and [ARRIVED] are atomics, and wrap. *)
Definition lost (counter : Link C -> Z) (set_counter : Z -> Link C -> Link C) : LM bool :=
  let! one_in := gets loss in
  if one_in =? 0 then ret false
  else
    let! n := gets counter in
    modify (set_counter (as_u32 (n + 1))) ;;;
    ret (n `mod` one_in =? one_in - 1).

Definition set_loss (one_in : Z) : LM unit := modify (with_loss one_in).

Definition transmit (frame : list Z) : LM unit :=
  let! gone := lost sent with_sent in
  if gone then ret tt
  else
    let! card := gets (fun l => attached (hw l)) in
    if card then zoom hw with_hw (nic_transmit frame) else throw ENODEV.

Definition mac : LM (list Z) := gets (fun l => if attached (hw l) then nic_mac (hw l) else replicate 6 0).

Definition link_up : LM bool := gets (fun l => attached (hw l) && nic_link_up (hw l)).

(** ** Configuration *)

Definition NEWLINE : Z := 10.
Definition resolv_text (servers : list Z) : list Z :=
  str "# Written by the kernel from its network configuration, and written" ++ [NEWLINE]
  ++ str "# again whenever that changes." ++ [NEWLINE]
  ++ concat ((fun server => str "nameserver " ++ Ip.display server ++ [NEWLINE]) <$> servers).

Definition publish_nameservers : LM unit :=
  let! c := gets config in
  match c with
  | None => ret tt
  | Some c =>
      let servers := nameservers c in
      let! before := gets published in
      if bool_decide (before = Some servers) then ret tt
      else modify (with_published (Some servers) (Some (resolv_text servers)))
  end.

Definition configure (c : option Config) : LM unit :=
  let! previous := gets config in
  modify (with_config c) ;;;
  if bool_decide (previous = c) then ret tt
  else modify (with_cache []) ;;; publish_nameservers.

(** ** The loopback queue *)

Definition loop_back (datagram : list Z) : LM unit :=
  modify (fun l => with_loopback ((if LOOPBACK_LIMIT <=? len (loopback l) then drop 1 (loopback l) else loopback l) ++ [datagram]) l).

(** ** Address resolution *)

Definition find_entry (a : Z) (entries : list Entry) : option (nat * Entry) := list_find (fun e => e_address e = a) entries.

Definition lookup (a : Z) (entries : list Entry) : option (list Z) :=
  match find_entry a entries with Some (_, e) => e_mac e | None => None end.

(** The entry that expires soonest, the first of equals: the loop with the best
    so far. *)
Fixpoint oldest_from (index : nat) (entries : list Entry) (best : option (nat * Z)) : option (nat * Z) :=
  match entries with
  | [] => best
  | e :: rest =>
      let better := match best with None => true | Some (_, deadline) => e_deadline e <? deadline end in
      oldest_from (S index) rest (if better then Some (index, e_deadline e) else best)
  end.
Definition oldest (entries : list Entry) : option nat := fst <$> oldest_from 0 entries None.

(** A full cache makes room for one more. *)
Definition make_room (entries : list Entry) : list Entry :=
  if MAX_ENTRIES <=? len entries then match oldest entries with Some i => delete i entries | None => entries end else entries.

Definition transmit_to (to : list Z) (ethertype : Z) (payload : list Z) : LM unit :=
  let! from := mac in
  transmit (Ether.build to from ethertype payload).

(** The pair is recorded, and what waited for it is handed back. *)
Definition record_pair (a : Z) (hardware : list Z) (deadline : Z) : LM (list (list Z)) :=
  let! entries := gets cache in
  match find_entry a entries with
  | Some (i, e) => modify (with_cache (<[i := mkEntry a (Some hardware) deadline 0 []]> entries)) ;;; ret (e_queued e)
  | None => modify (with_cache (make_room entries ++ [mkEntry a (Some hardware) deadline 0 []])) ;;; ret []
  end.

Definition learn (a : Z) (hardware : list Z) : LM unit :=
  if Ip.is_unspecified a then ret tt
  else
    let! group := Ether.is_group hardware in
    if group then ret tt
    else
      let! c := gets config in
      if bool_decide (config_address <$> c = Some a) then ret tt
      else
        let! t := now in
        let! deadline := u64 (t + ENTRY_LIFETIME) in
        let! released := record_pair a hardware deadline in
        mapM_ (fun datagram => let! _ := try_ (transmit_to hardware Ether.ETHERTYPE_IPV4 datagram) in ret tt) released.

Definition request (a : Z) : LM unit :=
  let! c := gets config in
  let sender := match c with Some c => config_address c | None => Ip.UNSPECIFIED end in
  let! from := mac in
  transmit_to Ether.BROADCAST Ether.ETHERTYPE_ARP (ArpPacket.build ArpPacket.OP_REQUEST from sender (replicate 6 0) a).

(** The datagram waits for the answer, if there is room for it. *)
Definition queue_datagram (next_hop : Z) (datagram : list Z) (t : Z) : LM unit :=
  let! entries := gets cache in
  match find_entry next_hop entries with
  | Some (i, e) =>
      if len (e_queued e) <? MAX_QUEUED
      then modify (with_cache (<[i := mkEntry (e_address e) (e_mac e) (e_deadline e) (e_requests e) (e_queued e ++ [datagram])]> entries))
      else ret tt
  | None =>
      let! deadline := u64 (t + REQUEST_INTERVAL) in
      modify (with_cache (make_room entries ++ [mkEntry next_hop None deadline 1 [datagram]]))
  end.

(** The group address of a multicast address. *)
Definition multicast_mac (a : Z) : LM (list Z) :=
  let bytes := be32 a in
  let! b1 := index_at bytes 1 in
  let! b2 := index_at bytes 2 in
  let! b3 := index_at bytes 3 in
  ret [0x01; 0x00; 0x5E; Z.land b1 0x7F; b2; b3].

Definition send_datagram (next_hop : Z) (datagram : list Z) : LM unit :=
  if Ip.is_broadcast next_hop then transmit_to Ether.BROADCAST Ether.ETHERTYPE_IPV4 datagram
  else if Ip.is_multicast next_hop then
    let! hardware := multicast_mac next_hop in
    transmit_to hardware Ether.ETHERTYPE_IPV4 datagram
  else
    let! entries := gets cache in
    match lookup next_hop entries with
    | Some hardware => transmit_to hardware Ether.ETHERTYPE_IPV4 datagram
    | None =>
        let! t := now in
        queue_datagram next_hop datagram t ;;;
        request next_hop
    end.

(** [arp::receive] *)
Definition arp_receive (bytes : list Z) : LM unit :=
  let! packet := ArpPacket.parse bytes in
  match packet with
  | None => ret tt
  | Some p =>
      learn (ArpPacket.sender_ip p) (ArpPacket.sender_mac p) ;;;
      let! c := gets config in
      match c with
      | None => ret tt
      | Some c =>
          if (ArpPacket.operation p =? ArpPacket.OP_REQUEST) && (ArpPacket.target_ip p =? config_address c) then
            let! from := mac in
            let reply := ArpPacket.build ArpPacket.OP_REPLY from (config_address c) (ArpPacket.sender_mac p) (ArpPacket.sender_ip p) in
            let! _ := try_ (transmit_to (ArpPacket.sender_mac p) Ether.ETHERTYPE_ARP reply) in
            ret tt
          else ret tt
      end
  end.

(** [arp::next_deadline] *)
Definition arp_next_deadline (l : Link C) : Z := foldr Z.min u64_max (e_deadline <$> cache l).

(** What [expire] keeps; what it asks about again, with the new deadline. *)
Definition still_wanted (t : Z) (e : Entry) : bool :=
  (t <? e_deadline e) || (bool_decide (e_mac e = None) && (e_requests e <? MAX_REQUESTS)).
Definition due (t : Z) (e : Entry) : bool := (e_deadline e <=? t) && bool_decide (e_mac e = None).

Fixpoint ask_again (t : Z) (entries : list Entry) : LM (list Entry * list Z) :=
  match entries with
  | [] => ret ([], [])
  | e :: rest =>
      if due t e then
        let! requests := u32 (e_requests e + 1) in
        let! deadline := u64 (t + REQUEST_INTERVAL) in
        let! '(rest', ask) := ask_again t rest in
        ret (mkEntry (e_address e) (e_mac e) deadline requests (e_queued e) :: rest', e_address e :: ask)
      else
        let! '(rest', ask) := ask_again t rest in
        ret (e :: rest', ask)
  end.

Definition expire : LM unit :=
  let! t := now in
  let! entries := gets cache in
  let! '(kept, ask) := ask_again t (filter (fun e => still_wanted t e = true) entries) in
  modify (with_cache kept) ;;;
  mapM_ (fun a => let! _ := try_ (request a) in ret tt) ask.

(** ** Sending *)

(** [ip::build], with the identification counted up. *)
Definition ip_build (source destination protocol : Z) (payload : list Z) : LM (list Z) :=
  let! id := gets next_id in
  modify (with_next_id (as_u16 (id + 1))) ;;;
  Ip.build id source destination protocol payload.

(** [net::source_for] and [ip::send_from] *)
Definition link_source_for (destination : Z) : LM Z :=
  let! c := gets config in Config.source_for c destination.

Definition link_send_from (source destination protocol : Z) (payload : list Z) : LM unit :=
  if Ether.MTU <? Ip.HEADER_LEN + len payload then throw EMSGSIZE
  else
    let! c := gets config in
    if Ip.is_loopback destination || bool_decide (config_address <$> c = Some destination) then
      let! datagram := ip_build source destination protocol payload in
      loop_back datagram
    else
      let! next_hop := match c with
        | Some c =>
            if negb (source =? config_address c) then throw EADDRNOTAVAIL
            else ok_or (next_hop c destination) ENETUNREACH
        | None =>
            if negb (Ip.is_unspecified source && Ip.is_broadcast destination) then throw ENETUNREACH
            else ret destination
        end in
      let! datagram := ip_build source destination protocol payload in
      send_datagram next_hop datagram.

(** [ip::send] *)
Definition link_send (destination protocol : Z) (payload : list Z) : LM unit :=
  let! source := link_source_for destination in
  link_send_from source destination protocol payload.

(** ** TCP's view *)

(** [isn_secret]: drawn once, and never zero. *)
Definition link_secret (l : Link C) : Link C * Z :=
  if negb (secret l =? 0) then (l, secret l)
  else
    let (l, n) := machine next_u64 l in
    let drawn := Z.lor n 1 in
    (with_secret drawn l, drawn).

#[global] Instance link_wire : Wire (Link C) := {|
  ticks := machine read_ticks;
  monotonic_ns := machine read_ns;
  isn_secret := link_secret;
  Tcp.source_for := link_source_for;
  send_from := link_send_from;
  held_bytes := held_share;
  set_held_bytes := with_share;
|}.
End link.
