(* ===== verification/LinkSpec.v ===== *)
(** * What leaves the card

    [link_ok]: the tables of the link are within their bounds. Every operation
    keeps it and ends without a panic, and every frame it hands to the card
    names as its sender the address this machine holds at that moment, or
    0.0.0.0 while it holds none. *)

From S2P Require Import Prelude Safe Words Packets PacketSpec Config Tcp TcpBounds Link.

(** What is relied on of the machine: clocks that have not run for ages, a card
    with a six-byte address that takes any frame or refuses it, and [frames], the
    frames it has taken. *)
Class MachineOk (C : Type) `{Machine C} := {
  machine_inv : C -> Prop;
  frames : C -> list (list Z);
  read_ticks_ok c : machine_inv c -> 0 <= (read_ticks c).2 <= 2 ^ 62 /\ machine_inv (read_ticks c).1 /\ frames (read_ticks c).1 = frames c;
  read_ns_ok c : machine_inv c -> is_u64 (read_ns c).2 /\ machine_inv (read_ns c).1 /\ frames (read_ns c).1 = frames c;
  next_u64_ok c : machine_inv c -> is_u64 (next_u64 c).2 /\ machine_inv (next_u64 c).1 /\ frames (next_u64 c).1 = frames c;
  nic_mac_ok c : machine_inv c -> length (nic_mac c) = 6%nat /\ Forall is_u8 (nic_mac c);
  nic_transmit_ok frame c : machine_inv c -> Forall is_u8 frame -> len frame <= 1514 ->
    wp (nic_transmit frame) (fun c' _ => machine_inv c' /\ frames c' = frames c ++ [frame]) (fun c' _ => machine_inv c' /\ frames c' = frames c) c;
}.

(** The address this machine may put on the wire. *)
Definition own (cfg : option Config) : Z := match cfg with Some c => config_address c | None => Ip.UNSPECIFIED end.

(** A datagram and a frame that name it: IPv4's source, ARP's sender. *)
Definition datagram_ok (d : list Z) : Prop := Forall is_u8 d /\ 20 <= len d <= 1500.
Definition own_datagram (cfg : option Config) (d : list Z) : Prop := datagram_ok d /\ take 4 (drop 12 d) = be32 (own cfg).
Definition own_frame (cfg : option Config) (f : list Z) : Prop :=
  (take 2 (drop 12 f) = be16 Ether.ETHERTYPE_IPV4 /\ take 4 (drop 26 f) = be32 (own cfg)) \/
  (take 2 (drop 12 f) = be16 Ether.ETHERTYPE_ARP /\ take 4 (drop 28 f) = be32 (own cfg)).

Definition mac_ok (m : list Z) : Prop := length m = 6%nat /\ Forall is_u8 m.

Record entry_ok (cfg : option Config) (e : Entry) : Prop := {
  en_mac : option_Forall mac_ok (e_mac e);
  en_deadline : 0 <= e_deadline e <= 2 ^ 62 + 6000;
  en_requests : 0 <= e_requests e <= MAX_REQUESTS;
  en_queued : len (e_queued e) <= MAX_QUEUED;
  en_resolved : e_mac e <> None -> e_queued e = [];
  en_own : Forall (own_datagram cfg) (e_queued e);
}.

(** The addresses a configuration holds are addresses of hosts. *)
Definition config_ok (c : Config) : Prop := is_u32 (config_address c) /\ is_host_address (config_address c) = true /\ option_Forall is_u32 (gateway c).

Section spec.
Context {C : Type} {HM : Machine C} {HMok : MachineOk C}.
Abbreviation LM := (M (Link C) Errno).
Implicit Types (l : Link C).

Record link_ok l : Prop := {
  lk_machine : machine_inv (hw l);
  lk_config : option_Forall config_ok (config l);
  lk_entries : len (cache l) <= MAX_ENTRIES;
  lk_unique : NoDup (e_address <$> cache l);
  lk_cache : Forall (entry_ok (config l)) (cache l);
  lk_loopback : len (loopback l) <= LOOPBACK_LIMIT;
  lk_datagrams : Forall datagram_ok (loopback l);
  lk_id : is_u16 (next_id l);
  lk_loss : is_u32 (loss l) /\ is_u32 (sent l) /\ is_u32 (arrived l);
  lk_secret : is_u64 (secret l);
  lk_share : 0 <= held_share l <= REASSEMBLY_LIMIT;
}.

(** ** The invariant of a call

    The configuration and the share are as they were, and the card has taken
    only frames of this machine since it had taken [base]. *)
Section call.
Context (cfg : option Config) (share : Z) (base : list (list Z)).

Definition in_call l : Prop :=
  link_ok l /\ config l = cfg /\ held_share l = share /\ exists new, frames (hw l) = base ++ new /\ Forall (own_frame cfg) new.
Abbreviation moves := (safe in_call (fun l (_ : Errno) => in_call l)).

Lemma moves_throw {A} e (P : A -> Prop) : moves (throw e) P.
Proof. apply safe_throw. by intros s. Qed.

Lemma moves_try {A} (m : LM A) P : moves m P -> moves (try_ m) (fun _ => True).
Proof.
  intros Hm l Hl. apply wp_try. eapply wp_mono; [by apply Hm| |]; [by intros l' a [H _]|by intros l' e H].
Qed.

(** What does not look at the state. *)
Lemma moves_pure {A} (m : LM A) (P : A -> Prop) :
  (forall l, wp m (fun l' a => l' = l /\ P a) (fun _ _ => False) l) -> moves m P.
Proof. intros Hm l Hl. eapply wp_mono; [apply Hm| |done]. by intros l' a [-> H]. Qed.

Lemma moves_machine {A} (f : C -> C * A) (P : A -> Prop) :
  (forall c, machine_inv c -> P (f c).2 /\ machine_inv (f c).1 /\ frames (f c).1 = frames c) -> moves (state (machine f)) P.
Proof.
  intros Hf. apply safe_state. intros l ([] & Hcfg & Hsh & new & Hn & Ho). unfold machine. destruct (Hf (hw l)) as (H1 & H2 & H3); [done|].
  destruct (f (hw l)) as [c a]. cbn in *. split; [|done]. split_and!; [constructor; done|done|done|exists new; split; [cbn; congruence|done]].
Qed.

Lemma moves_now : moves now (fun t => 0 <= t <= 2 ^ 62).
Proof. apply moves_machine. intros c Hc. exact (read_ticks_ok c Hc). Qed.

Lemma moves_mac : moves mac mac_ok.
Proof.
  apply safe_gets. intros l ([] & _). destruct (attached (hw l)); [by apply nic_mac_ok|]. split; [done|]. apply Forall_replicate. unfold is_u8, u8_max. lia.
Qed.

Lemma moves_config : moves (gets config) (fun c => c = cfg).
Proof. apply safe_gets. by intros l (_ & H & _). Qed.

(** The counters of the frames to lose. *)
Lemma moves_lost_of (get : Link C -> Z) (put : Z -> Link C -> Link C) :
  (forall x l, in_call l -> is_u32 x -> in_call (put x l)) -> moves (lost get put) (fun _ => True).
Proof.
  intros Hput. unfold lost. eapply safe_bind; [apply (safe_gets _ _ _ is_u32); intros l ([] & _); tauto|]. intros one Hone. cbn beta. destruct (one =? 0); [by apply safe_ret|].
  eapply safe_bind; [by apply (safe_gets _ _ _ (fun _ => True))|]. intros n _. eapply safe_bind; [|intros; by apply safe_ret].
  apply (safe_modify _ _ _ (fun _ => True)); [|done]. intros l Hl. apply Hput; [done|apply as_u32_bounds].
Qed.

Lemma moves_lost : moves (lost sent with_sent) (fun _ => True).
Proof. apply moves_lost_of. intros x l ([] & H1 & H2 & H3) Hx. split_and!; try done. constructor; cbn; try done. split_and!; tauto. Qed.

Lemma moves_lost_arrived : moves (lost arrived with_arrived) (fun _ => True).
Proof. apply moves_lost_of. intros x l ([] & H1 & H2 & H3) Hx. split_and!; try done. constructor; cbn; try done. split_and!; tauto. Qed.

Lemma moves_transmit frame : Forall is_u8 frame -> len frame <= 1514 -> own_frame cfg frame -> moves (transmit frame) (fun _ => True).
Proof.
  intros Hb Hl Ho. unfold transmit. eapply safe_bind; [apply moves_lost|]. intros [] _; [by apply safe_ret|].
  eapply safe_bind; [by apply (safe_gets _ _ _ (fun _ => True))|]. intros [] _; [|apply moves_throw].
  intros l (Hlk & H1 & H2 & new & Hn & Hnew). apply wp_zoom. pose proof (lk_machine _ Hlk) as Hm.
  assert (Hk : forall c', machine_inv c' -> link_ok (with_hw c' l)) by (intros c' Hc'; destruct Hlk; constructor; done).
  eapply wp_mono; [by apply nic_transmit_ok| |].
  - intros c' _ [Hc' Hf]. split; [|done]. split_and!; [by apply Hk|done|done|]. exists (new ++ [frame]). cbn. rewrite Hf, Hn, app_assoc. split; [done|].
    apply Forall_app. by split; [|constructor].
  - intros c' e [Hc' Hf]. split_and!; [by apply Hk|done|done|]. exists new. cbn. by rewrite Hf, Hn.
Qed.

(** ** Frames *)

Lemma ether_bytes to from t payload :
  mac_ok to -> mac_ok from -> Forall is_u8 payload -> len payload <= 1500 ->
  Forall is_u8 (Ether.build to from t payload) /\ len (Ether.build to from t payload) <= 1514.
Proof.
  intros [Hl1 Hb1] [Hl2 Hb2] Hp Hl. unfold Ether.build, Ether.MIN_FRAME_LEN. set (frame := to ++ from ++ be16 t ++ payload).
  assert (Hf : Forall is_u8 frame) by (unfold frame; rewrite !Forall_app; by split_and!; [..|apply be16_bytes|]).
  assert (Hn : len frame = 14 + len payload) by (unfold frame; rewrite !length_app, Hl1, Hl2; cbn [be16 length]; lia).
  split; [apply Forall_app; split; [done|]; apply Forall_replicate; unfold is_u8, u8_max; lia|]. rewrite length_app, length_replicate. lia.
Qed.

(** A field of the payload, seen in the frame. *)
Lemma ether_field to from t payload i n :
  mac_ok to -> mac_ok from -> (i + n <= length payload)%nat ->
  take n (drop (14 + i) (Ether.build to from t payload)) = take n (drop i payload).
Proof.
  intros [Hl1 _] [Hl2 _] Hn. unfold Ether.build. set (pad := replicate _ 0). rewrite <- !app_assoc, !app_assoc, <- app_assoc.
  replace ((to ++ from) ++ be16 t) with ((to ++ from) ++ be16 t) by done.
  rewrite drop_app_add' by (rewrite !length_app, Hl1, Hl2; done). rewrite drop_app_le, take_app_le by (rewrite ?length_drop; lia). done.
Qed.

Lemma ether_type to from t payload : mac_ok to -> mac_ok from -> take 2 (drop 12 (Ether.build to from t payload)) = be16 t.
Proof.
  intros [Hl1 _] [Hl2 _]. unfold Ether.build. rewrite <- !app_assoc. rewrite (app_assoc to from).
  rewrite drop_app_length' by (rewrite length_app, Hl1, Hl2; done). by rewrite take_app_length'.
Qed.

Lemma moves_transmit_ip to d : mac_ok to -> own_datagram cfg d -> moves (transmit_to to Ether.ETHERTYPE_IPV4 d) (fun _ => True).
Proof.
  intros Hto [[Hd Hl] Hown]. unfold transmit_to. eapply safe_bind; [apply moves_mac|]. intros from Hfrom.
  destruct (ether_bytes to from Ether.ETHERTYPE_IPV4 d Hto Hfrom Hd) as [H1 H2]; [lia|]. apply moves_transmit; [done|done|]. left.
  split; [by apply ether_type|]. change 26%nat with (14 + 12)%nat. rewrite ether_field by (done || lia). done.
Qed.

Lemma arp_build_ok op from target a :
  mac_ok from -> mac_ok target -> Forall is_u8 (ArpPacket.build op from (own cfg) target a) /\ length (ArpPacket.build op from (own cfg) target a) = 28%nat /\
  take 4 (drop 14 (ArpPacket.build op from (own cfg) target a)) = be32 (own cfg).
Proof.
  intros [Hl1 Hb1] [Hl2 Hb2]. unfold ArpPacket.build. split_and!.
  - rewrite !Forall_app. split_and!; try done; try apply be16_bytes; try apply be32_bytes. apply two_bytes; unfold is_u8, u8_max; lia.
  - rewrite !length_app, Hl1, Hl2. done.
  - do 7 (destruct from as [|? from]; try done). 
Qed.

Lemma moves_transmit_arp to op from target a :
  mac_ok to -> mac_ok from -> mac_ok target -> moves (transmit_to to Ether.ETHERTYPE_ARP (ArpPacket.build op from (own cfg) target a)) (fun _ => True).
Proof.
  intros Hto Hfrom Htarget. unfold transmit_to. eapply safe_bind; [apply moves_mac|]. intros from' Hfrom'.
  destruct (arp_build_ok op from target a Hfrom Htarget) as (Hb & Hl & Ho).
  destruct (ether_bytes to from' Ether.ETHERTYPE_ARP _ Hto Hfrom' Hb) as [H1 H2]; [lia|]. apply moves_transmit; [done|done|]. right.
  split; [by apply ether_type|]. change 28%nat with (14 + 14)%nat. rewrite ether_field by (done || lia). done.
Qed.

(** ** The cache *)

Definition cache_ok (entries : list Entry) : Prop :=
  len entries <= MAX_ENTRIES /\ NoDup (e_address <$> entries) /\ Forall (entry_ok cfg) entries.

Lemma moves_cache : moves (gets cache) cache_ok.
Proof. apply safe_gets. intros l ([] & H & _). unfold cache_ok. by rewrite <- H. Qed.

Lemma moves_set_cache entries : cache_ok entries -> moves (modify (with_cache entries)) (fun _ => True).
Proof.
  intros (H1 & H2 & H3). apply safe_modify; [|done]. intros l ([] & Hc & Hs & Hn). split_and!; try done. constructor; cbn; try done. by rewrite Hc.
Qed.

Lemma sublist_cache entries entries' : entries' `sublist_of` entries -> cache_ok entries -> cache_ok entries'.
Proof.
  intros Hs (H1 & H2 & H3). split_and!.
  - pose proof (sublist_length _ _ Hs). lia.
  - eapply sublist_NoDup; [exact H2|]. by apply fmap_sublist.
  - rewrite Forall_forall in *. intros e He. apply H3. eapply elem_of_submseteq; [done|by apply sublist_submseteq].
Qed.

Lemma oldest_from_bounds entries : forall n best, (forall i d, best = Some (i, d) -> (i < n)%nat) ->
  forall i d, oldest_from n entries best = Some (i, d) -> (i < n + length entries)%nat.
Proof.
  induction entries as [|e rest IH]; intros n best Hb i d; cbn [oldest_from length]; [intros H%Hb; lia|].
  intros H. apply IH in H; [lia|]. intros i' d'. destruct (match best with Some _ => _ | None => _ end); [intros [= <- _]; lia|intros H'%Hb; lia].
Qed.

Lemma oldest_from_some entries : forall n i d, exists i' d', oldest_from n entries (Some (i, d)) = Some (i', d').
Proof. induction entries as [|e rest IH]; intros n i d; cbn [oldest_from]; [eauto|]. destruct (_ <? _); apply IH. Qed.

Lemma oldest_spec entries : entries <> [] -> exists i, oldest entries = Some i /\ (i < length entries)%nat.
Proof.
  intros Hne. destruct entries as [|e rest]; [done|]. unfold oldest. cbn [oldest_from]. destruct (oldest_from_some rest 1 0 (e_deadline e)) as (i & d & E).
  rewrite E. exists i. split; [done|]. apply oldest_from_bounds in E; [cbn; lia|]. intros ? ? [= <- _]. lia.
Qed.

(** Room for one more, and no entry that was not there. *)
Lemma make_room_spec entries : cache_ok entries -> make_room entries `sublist_of` entries /\ len (make_room entries) < MAX_ENTRIES.
Proof.
  intros (Hl & _). unfold make_room. destruct (_ <=? _) eqn:E; [apply Z.leb_le in E|apply Z.leb_gt in E; done].
  destruct (oldest_spec entries) as (i & Hi & Hlt); [intros ->; unfold MAX_ENTRIES in E; cbn in E; lia|]. rewrite Hi.
  split; [apply sublist_delete|]. rewrite length_delete by (by apply lookup_lt_is_Some). lia.
Qed.

Lemma add_entry_ok entries e :
  cache_ok entries -> find_entry (e_address e) entries = None -> entry_ok cfg e -> cache_ok (make_room entries ++ [e]).
Proof.
  intros Hc Hf He. destruct (make_room_spec entries Hc) as [Hs Hl]. destruct (sublist_cache _ _ Hs Hc) as (H1 & H2 & H3). split_and!.
  - rewrite length_app. cbn. lia.
  - rewrite fmap_app. apply NoDup_app. split_and!; [done| |apply NoDup_singleton]. intros x Hx Hx'. cbn in Hx'. apply list_elem_of_singleton in Hx' as ->.
    apply list_elem_of_fmap in Hx as (e' & Ee & He'). apply list_find_None in Hf. rewrite Forall_forall in Hf. apply (Hf e'); [|by rewrite Ee].
    eapply elem_of_submseteq; [done|by apply sublist_submseteq].
  - apply Forall_app. by split; [|constructor].
Qed.

Lemma change_entry_ok entries i e e' :
  cache_ok entries -> entries !! i = Some e -> e_address e' = e_address e -> entry_ok cfg e' -> cache_ok (<[i := e']> entries).
Proof.
  intros (H1 & H2 & H3) Hi Ha He. split_and!; [by rewrite length_insert| |by apply Forall_insert].
  rewrite list_fmap_insert, Ha, list_insert_id; [done|]. by rewrite list_lookup_fmap, Hi.
Qed.

Lemma find_entry_spec a entries i e : find_entry a entries = Some (i, e) -> entries !! i = Some e /\ e_address e = a.
Proof. intros H. apply list_find_Some in H. tauto. Qed.

Lemma lookup_ok a entries m : cache_ok entries -> lookup a entries = Some m -> mac_ok m.
Proof.
  intros (_ & _ & H) Hl. unfold lookup in Hl. destruct (find_entry a entries) as [[i e]|] eqn:E; [|done]. apply find_entry_spec in E as [Hi _].
  pose proof (Forall_lookup_1 _ _ _ _ H Hi) as He. pose proof (en_mac _ _ He) as Hm. rewrite Hl in Hm. by inversion Hm.
Qed.

(** What has waited is handed back. *)
Lemma moves_record a m deadline :
  mac_ok m -> 0 <= deadline <= 2 ^ 62 + 6000 -> moves (record_pair a m deadline) (Forall (own_datagram cfg)).
Proof.
  intros Hm Hd. unfold record_pair. eapply safe_bind; [apply moves_cache|]. intros entries Hc.
  assert (Hnew : entry_ok cfg (mkEntry a (Some m) deadline 0 [])) by (by constructor; cbn; try done; constructor).
  destruct (find_entry a entries) as [[i e]|] eqn:E.
  - pose proof (find_entry_spec _ _ _ _ E) as [Hi Ha]. pose proof Hc as (_ & _ & H3). pose proof (Forall_lookup_1 _ _ _ _ H3 Hi) as He.
    eapply safe_bind; [apply moves_set_cache, (change_entry_ok entries i e); done|]. intros [] _. apply safe_ret, (en_own _ _ He).
  - eapply safe_bind; [apply moves_set_cache, add_entry_ok; done|]. intros [] _. by apply safe_ret.
Qed.

Lemma moves_learn a m : mac_ok m -> moves (learn a m) (fun _ => True).
Proof.
  intros Hm. unfold learn. destruct (Ip.is_unspecified a); [by apply safe_ret|]. eapply (safe_bind _ _ _ _ (fun _ => True)).
  { apply moves_pure. intros l. unfold Ether.is_group. apply wp_bind, wp_index; [destruct Hm as [-> _]; lia|]. intros x _. by apply wp_ret. }
  intros [] _; [by apply safe_ret|]. eapply safe_bind; [apply moves_config|]. intros c ->. case_bool_decide; [by apply safe_ret|].
  eapply safe_bind; [apply moves_now|]. intros t Ht. cbv beta in Ht. unfold ENTRY_LIFETIME. eapply safe_bind; [apply (safe_checked _ _ _ _ (fun d => d = t + 100 * 60)); [unfold u64_max; lia|done]|].
  intros d ->. eapply safe_bind; [apply moves_record; [done|lia]|]. intros released Hr. apply safe_mapM. intros d Hd.
  eapply safe_bind; [eapply moves_try, moves_transmit_ip; [done|]|intros; by apply safe_ret]. rewrite Forall_forall in Hr. by apply Hr.
Qed.

Lemma moves_request a : moves (request a) (fun _ => True).
Proof.
  unfold request. eapply safe_bind; [apply moves_config|]. intros c ->. eapply safe_bind; [apply moves_mac|]. intros from Hfrom.
  change (match cfg with Some c => config_address c | None => Ip.UNSPECIFIED end) with (own cfg).
  apply moves_transmit_arp; [|done|]; (split; [done|apply Forall_replicate; unfold is_u8, u8_max; lia]).
Qed.

Lemma wp_now l (Q : Link C -> Z -> Prop) X : in_call l -> (forall l' t, in_call l' -> cache l' = cache l -> 0 <= t <= 2 ^ 62 -> Q l' t) -> wp now Q X l.
Proof.
  intros Hl HQ. pose proof (moves_now l Hl) as H. unfold now, wp, state, machine in *. destruct (read_ticks (hw l)) as [c t]. destruct H as [H1 H2]. by apply HQ.
Qed.

(** A datagram waits only where no answer is known. *)
Lemma wp_queue a d t l :
  in_call l -> lookup a (cache l) = None -> own_datagram cfg d -> 0 <= t <= 2 ^ 62 ->
  wp (queue_datagram a d t) (fun l' _ => in_call l') (fun l' _ => in_call l') l.
Proof.
  intros Hl Hn Hd Ht. unfold queue_datagram. apply wp_bind, wp_gets. pose proof (moves_cache l Hl) as [_ Hc]. cbn in Hc.
  unfold lookup in Hn. destruct (find_entry a (cache l)) as [[i e]|] eqn:E.
  - pose proof (find_entry_spec _ _ _ _ E) as [Hi Ha]. pose proof Hc as (_ & _ & H3). destruct (Forall_lookup_1 _ _ _ _ H3 Hi) as [A1 A2 A3 A4 A5 A6].
    destruct (_ <? _) eqn:Eq; [apply Z.ltb_lt in Eq|by apply wp_ret]. eapply wp_mono; [apply moves_set_cache; [|done]|by intros l' ? [H _]|done].
    apply (change_entry_ok _ i e); [done|done|done|]. constructor; cbn; try done.
    + rewrite length_app. cbn. lia.
    + apply Forall_app. by split; [|constructor].
  - unfold REQUEST_INTERVAL. apply wp_bind, wp_checked; [unfold u64_max; lia|]. eapply wp_mono; [apply moves_set_cache; [|done]|by intros l' ? [H _]|done].
    apply add_entry_ok; [done|done|]. constructor; cbn; unfold MAX_REQUESTS, MAX_QUEUED; try done; try lia; [constructor|by constructor].
Qed.

Lemma is_group_bytes a : Forall is_u8 [1; 0; 94; Z.land (as_u8 (a / 65536)) 127; as_u8 (a / 256); as_u8 a].
Proof.
  assert (H : forall x, is_u8 (as_u8 x)) by (intros x; unfold is_u8, as_u8, u8_max; lia).
  repeat (apply Forall_cons; split; [|]); try apply Forall_nil; try done; try apply H; try (unfold is_u8, u8_max; lia).
  change 127 with (Z.ones 7). rewrite Z.land_ones by lia. unfold is_u8, u8_max. lia.
Qed.

Lemma moves_send_datagram hop d : own_datagram cfg d -> moves (send_datagram hop d) (fun _ => True).
Proof.
  intros Hd. unfold send_datagram. destruct (Ip.is_broadcast hop).
  { apply moves_transmit_ip; [split; [done|apply Forall_replicate; unfold is_u8, u8_max; lia]|done]. }
  destruct (Ip.is_multicast hop).
  { eapply (safe_bind _ _ _ _ mac_ok); [|intros m Hm; by apply moves_transmit_ip]. apply moves_pure. intros l. unfold multicast_mac.
    do 3 (apply wp_bind; eapply wp_byte; [reflexivity|]). apply wp_ret. split; [done|]. split; [done|]. apply is_group_bytes. }
  intros l Hl. apply wp_bind, wp_gets. pose proof (moves_cache l Hl) as [_ Hc]. cbn in Hc. destruct (lookup hop (cache l)) as [m|] eqn:E.
  { apply moves_transmit_ip; [by apply (lookup_ok hop (cache l))|done|done]. }
  apply wp_bind, wp_now; [done|]. intros l1 t Hl1 Hc1 Ht. apply wp_bind. eapply wp_mono; [apply wp_queue; [done|by rewrite Hc1|done|done]| |done].
  intros l2 [] Hl2. by apply moves_request.
Qed.

Lemma moves_arp_receive bytes : Forall is_u8 bytes -> moves (arp_receive bytes) (fun _ => True).
Proof.
  intros Hb. unfold arp_receive. eapply (safe_bind _ _ _ _ (option_Forall (fun p => mac_ok (ArpPacket.sender_mac p)))).
  { apply moves_pure. intros l. eapply wp_mono; [by apply arp_parse_safe| |done]. intros l' [p|] [-> H]; (split; [done|]); constructor. split; apply H. }
  intros [p|] Hp; [|by apply safe_ret]. assert (Hp' : mac_ok (ArpPacket.sender_mac p)) by (by inversion Hp). eapply safe_bind; [by apply moves_learn|]. intros [] _.
  eapply safe_bind; [apply moves_config|]. intros c Hc. cbv beta in Hc. pose proof (fun from a => moves_transmit_arp (ArpPacket.sender_mac p) ArpPacket.OP_REPLY from (ArpPacket.sender_mac p) a Hp') as Hreply.
  destruct c as [c|]; [|by apply safe_ret]. replace (config_address c) with (own cfg) by (by rewrite <- Hc). destruct (_ && _); [|by apply safe_ret]. eapply safe_bind; [apply moves_mac|]. intros from Hfrom.
  eapply safe_bind; [eapply moves_try, Hreply; [exact Hfrom|exact Hp']|intros; by apply safe_ret].
Qed.

(** ** The clock *)

Lemma ask_again_spec t entries :
  0 <= t <= 2 ^ 62 -> Forall (entry_ok cfg) entries -> Forall (fun e => due t e = true -> e_requests e < MAX_REQUESTS) entries ->
  moves (ask_again t entries) (fun r => Forall (entry_ok cfg) r.1 /\ e_address <$> r.1 = e_address <$> entries).
Proof.
  intros Ht. induction entries as [|e rest IH]; intros He Hr; cbn [ask_again]; [by apply safe_ret|].
  apply Forall_cons in He as [[A1 A2 A3 A4 A5 A6] He]. apply Forall_cons in Hr as [Hr1 Hr]. unfold MAX_REQUESTS in *. destruct (due t e) eqn:Ed.
  - specialize (Hr1 eq_refl). eapply safe_bind; [apply (safe_checked _ _ _ _ (fun x => x = e_requests e + 1)); [unfold u32_max; lia|done]|]. intros ? ->.
    unfold REQUEST_INTERVAL. eapply safe_bind; [apply (safe_checked _ _ _ _ (fun x => x = t + 100)); [unfold u64_max; lia|done]|]. intros ? ->.
    eapply safe_bind; [by apply IH|]. intros [rest' ask] [H1 H2]. apply safe_ret. cbn [fst] in *. split; [|by rewrite !fmap_cons, H2].
    apply Forall_cons. split; [|done]. constructor; cbn; unfold MAX_REQUESTS; try done; lia.
  - eapply safe_bind; [by apply IH|]. intros [rest' ask] [H1 H2]. apply safe_ret. cbn [fst] in *. split; [|by rewrite !fmap_cons, H2].
    apply Forall_cons. by split.
Qed.

Lemma still_wanted_due t e : still_wanted t e = true -> due t e = true -> e_requests e < MAX_REQUESTS.
Proof.
  unfold still_wanted, due. intros [H|H]%orb_true_iff [Hd _]%andb_true_iff; [apply Z.ltb_lt in H; apply Z.leb_le in Hd; lia|].
  apply andb_true_iff in H as [_ H]. by apply Z.ltb_lt.
Qed.

Lemma moves_expire : moves expire (fun _ => True).
Proof.
  unfold expire. eapply safe_bind; [apply moves_now|]. intros t Ht. eapply safe_bind; [apply moves_cache|]. intros entries Hc.
  destruct (sublist_cache _ _ (sublist_filter (fun e => still_wanted t e = true) entries) Hc) as (H1 & H2 & H3).
  eapply safe_bind; [apply ask_again_spec; [done|done|]|].
  { apply Forall_forall. intros e [He _]%list_elem_of_filter. by apply still_wanted_due. }
  intros [kept ask] [K1 K2]. cbn [fst] in *. eapply safe_bind.
  - apply moves_set_cache. split_and!; [|by rewrite K2|done]. rewrite <- (length_fmap e_address), K2, length_fmap. done.
  - intros [] _. apply safe_mapM. intros a _. eapply safe_bind; [eapply moves_try, moves_request|intros; by apply safe_ret].
Qed.

(** ** Sending *)

Lemma moves_ip_build source destination protocol payload :
  is_u8 protocol -> Forall is_u8 payload -> len payload <= 1480 ->
  moves (ip_build source destination protocol payload) (fun d => datagram_ok d /\ take 4 (drop 12 d) = be32 source).
Proof.
  intros Hp Hb Hl. unfold ip_build. eapply safe_bind; [by apply (safe_gets _ _ _ (fun _ => True))|]. intros id _.
  eapply (safe_bind _ _ _ _ (fun _ => True)).
  { apply safe_modify; [|done]. intros l ([] & H1 & H2 & H3). split_and!; try done. constructor; cbn; try done. unfold is_u16, as_u16, u16_max. lia. }
  intros [] _. apply moves_pure. intros l. destruct (@ip_build_spec (Link C) Errno id source destination protocol payload l Hp) as (c & Hc & _ & E); [lia|].
  eapply wp_fun; [exact E|]. split; [done|]. pose proof (field_bytes _ _ c (ip_front_bytes id (20 + len payload) protocol Hp) (ip_back_bytes source destination)) as Hh.
  split; [split; [by apply Forall_app|rewrite length_app; cbn; lia]|]. done.
Qed.

Lemma moves_loop_back d : datagram_ok d -> moves (loop_back d) (fun _ => True).
Proof.
  intros Hd. apply safe_modify; [|done]. intros l ([] & H1 & H2 & H3). split_and!; try done. constructor; cbn; try done.
  - rewrite length_app. cbn [length]. destruct (_ <=? _) eqn:E; [apply Z.leb_le in E; rewrite length_drop|apply Z.leb_gt in E]; unfold LOOPBACK_LIMIT in *; lia.
  - apply Forall_app. split; [|by constructor]. destruct (_ <=? _); [by apply Forall_drop|done].
Qed.

Lemma moves_source_for a : moves (link_source_for a) is_u32.
Proof.
  unfold link_source_for. eapply safe_bind; [apply (safe_gets _ _ _ (option_Forall config_ok)); by intros l ([] & _)|]. intros c Hc. unfold Config.source_for.
  destruct (Ip.is_loopback a); [apply safe_ret; vm_compute; split; discriminate|]. destruct c as [c|].
  - apply safe_ret. assert (H : config_ok c) by (by inversion Hc). apply H.
  - destruct (Ip.is_broadcast a); [apply safe_ret; vm_compute; split; discriminate|apply moves_throw].
Qed.

Lemma moves_send_from source destination protocol payload :
  is_u8 protocol -> Forall is_u8 payload -> moves (link_send_from source destination protocol payload) (fun _ => True).
Proof.
  intros Hp Hb. unfold link_send_from, Ether.MTU, Ip.HEADER_LEN. destruct (_ <? _) eqn:El; [apply moves_throw|]. apply Z.ltb_ge in El.
  eapply safe_bind; [apply moves_config|]. intros c Hc. cbv beta in Hc. destruct (_ || _).
  { eapply safe_bind; [apply moves_ip_build; [done|done|lia]|]. intros d [Hd _]. by apply moves_loop_back. }
  eapply (safe_bind _ _ _ _ (fun _ => source = own cfg)).
  { rewrite <- Hc. destruct c as [c|].
    - destruct (negb _) eqn:E; [apply moves_throw|]. apply negb_false_iff, Z.eqb_eq in E. apply safe_ok_or; [by intros s|]. done.
    - destruct (negb _) eqn:E; [apply moves_throw|]. apply negb_false_iff, andb_true_iff in E as [E _]. apply Z.eqb_eq in E. by apply safe_ret. }
  intros hop ->. eapply safe_bind; [apply moves_ip_build; [done|done|lia]|]. intros d Hd. by apply moves_send_datagram.
Qed.
End call.

(** ** Any sequence of operations *)

Inductive LinkOp :=
  | OpConfigure (c : option Config)
  | OpLoss (one_in : Z)
  | OpSend (source destination protocol : Z) (payload : list Z)
  | OpArp (bytes : list Z)
  | OpLearn (a : Z) (hardware : list Z)
  | OpExpire.

Definition link_op (op : LinkOp) : LM unit :=
  match op with
  | OpConfigure c => configure c
  | OpLoss one_in => set_loss one_in
  | OpSend source destination protocol payload => link_send_from source destination protocol payload
  | OpArp bytes => arp_receive bytes
  | OpLearn a hardware => learn a hardware
  | OpExpire => expire
  end.

Definition op_ok (op : LinkOp) : Prop :=
  match op with
  | OpConfigure c => option_Forall config_ok c
  | OpLoss one_in => is_u32 one_in
  | OpSend _ _ protocol payload => is_u8 protocol /\ Forall is_u8 payload
  | OpArp bytes => Forall is_u8 bytes
  | OpLearn _ hardware => mac_ok hardware
  | OpExpire => True
  end.

Fixpoint run_ops (ops : list LinkOp) : LM unit :=
  match ops with
  | [] => ret tt
  | op :: rest => let! _ := try_ (link_op op) in run_ops rest
  end.

(** The frames the card took, each with the configuration of its moment. *)
Fixpoint departures (ops : list LinkOp) l : list (option Config * list Z) :=
  match ops with
  | [] => []
  | op :: rest =>
      let l' := (link_op op l).1 in
      ((fun f => (config l, f)) <$> drop (length (frames (hw l))) (frames (hw l'))) ++ departures rest l'
  end.

(** What an operation leaves: the invariant, and frames of this machine. *)
Definition departed l l' : Prop :=
  link_ok l' /\ exists new, frames (hw l') = frames (hw l) ++ new /\ Forall (own_frame (config l)) new.

Lemma departed_call l l' : in_call (config l) (held_share l) (frames (hw l)) l' -> departed l l'.
Proof. intros (H1 & _ & _ & H2). by split. Qed.

Lemma in_call_start l : link_ok l -> in_call (config l) (held_share l) (frames (hw l)) l.
Proof. intros H. split_and!; try done. exists []. by rewrite app_nil_r. Qed.

Lemma configure_ok c l : link_ok l -> option_Forall config_ok c -> wp (configure c) (fun l' _ => link_ok l' /\ hw l' = hw l /\ config l' = c /\ held_share l' = held_share l) (fun _ _ => False) l.
Proof.
  intros Hl Hc. unfold configure. apply wp_bind, wp_gets, wp_bind, wp_modify. case_bool_decide as E.
  - apply wp_ret. split_and!; [|done|done|done]. destruct Hl. constructor; cbn; try done. by rewrite <- E.
  - apply wp_bind, wp_modify. unfold publish_nameservers. apply wp_bind, wp_gets. cbn [config with_cache with_config].
    assert (H : link_ok (with_cache [] (with_config c l))) by (destruct Hl; constructor; cbn; try done; constructor).
    destruct c as [c|]; [|by apply wp_ret]. apply wp_bind, wp_gets. case_bool_decide; [by apply wp_ret|]. apply wp_modify.
    split_and!; [|done|done|done]. destruct H. constructor; done.
Qed.

Lemma link_op_ok op l : link_ok l -> op_ok op -> wp (link_op op) (fun l' _ => departed l l') (fun l' _ => departed l l') l.
Proof.
  intros Hl Hop. pose proof (in_call_start l Hl) as Hc.
  assert (Hcall : forall m : LM unit, safe (in_call (config l) (held_share l) (frames (hw l))) (fun l' _ => in_call (config l) (held_share l) (frames (hw l)) l') m (fun _ => True) ->
    wp m (fun l' _ => departed l l') (fun l' _ => departed l l') l).
  { intros m Hm. eapply wp_mono; [by apply Hm| |]; [intros l' [] [H _]|intros l' e H]; by apply departed_call. }
  destruct op as [c|n|source destination protocol payload|bytes|a m|]; cbn [link_op op_ok] in *.
  - eapply wp_mono; [by apply configure_ok| |done]. intros l' [] (H1 & H2 & _). split; [done|]. exists []. by rewrite H2, app_nil_r.
  - apply wp_modify. split; [destruct Hl; constructor; cbn; try done; tauto|]. exists []. by rewrite app_nil_r.
  - destruct Hop. by apply Hcall, moves_send_from.
  - by apply Hcall, moves_arp_receive.
  - by apply Hcall, moves_learn.
  - apply Hcall, moves_expire.
Qed.

(** C9: Whatever this machine is configured to, sends, hears and asks, in any
    order: nothing panics, at most 64 addresses are remembered, each once, with at
    most four datagrams waiting for each and none for one that is known, at most
    256 datagrams wait for this machine itself; and every frame the card takes
    names as its sender the address held at that moment, or 0.0.0.0 when none
    is. *)
Theorem own_address_only ops l :
  link_ok l -> Forall op_ok ops ->
  exists l', run_ops ops l = (l', Ok tt) /\
    len (cache l') <= 64 /\ NoDup (e_address <$> cache l') /\
    Forall (fun e => len (e_queued e) <= 4 /\ (e_mac e <> None -> e_queued e = [])) (cache l') /\ len (loopback l') <= 256 /\
    Forall (fun p => own_frame p.1 p.2) (departures ops l).
Proof.
  revert l. induction ops as [|op ops IH]; intros l Hl Hops.
  { exists l. destruct Hl. split_and!; try done. eapply Forall_impl; [done|]. intros e []. done. }
  apply Forall_cons in Hops as [Hop Hops]. pose proof (link_op_ok op l Hl Hop) as H. cbn [run_ops departures]. unfold bind, try_ at 1. unfold wp in H.
  destruct (link_op op l) as [l1 [[]|e|w]]; [| |done]; destruct H as (Hl1 & new & En & Hnew); destruct (IH l1 Hl1 Hops) as (l' & E & H1 & H2 & H3 & H4 & H5);
    exists l'; cbn [fst]; (split; [exact E|]); split_and!; try done; apply Forall_app; (split; [|done]);
    rewrite En, drop_app_length; apply Forall_fmap; eapply Forall_impl; try exact Hnew; done.
Qed.

(** ** The wire TCP relies on *)

Lemma same_call l l' : in_call (config l) (held_share l) (frames (hw l)) l' -> link_ok l' /\ held_share l' = held_share l.
Proof. intros (H1 & _ & H2 & _). by split. Qed.

Lemma machine_ok {A} (f : C -> C * A) (P : A -> Prop) l :
  (forall c, machine_inv c -> P (f c).2 /\ machine_inv (f c).1 /\ frames (f c).1 = frames c) -> link_ok l ->
  P (machine f l).2 /\ link_ok (machine f l).1 /\ held_share (machine f l).1 = held_share l.
Proof.
  intros Hf Hl. pose proof (moves_machine (config l) (held_share l) (frames (hw l)) f P Hf l (in_call_start l Hl)) as H.
  unfold wp, state in H. destruct (machine f l) as [l' a]. destruct H as [H1 H2]. by split; [|apply same_call].
Qed.

Lemma link_secret_ok l : link_ok l -> link_ok (link_secret l).1 /\ held_share (link_secret l).1 = held_share l.
Proof.
  intros Hl. unfold link_secret. destruct (negb _); [done|]. destruct (machine_ok next_u64 is_u64 l next_u64_ok Hl) as (Hn & Hl1 & Hs).
  destruct (machine next_u64 l) as [l1 n]. cbn [fst snd] in *. split; [|done]. destruct Hl1. constructor; cbn; try done.
  exact (set_bit_u64 n 0 Hn ltac:(lia)).
Qed.

#[global] Instance link_wire_ok : WireOk (Link C).
Proof.
  refine {| wire_inv := link_ok |}.
  - intros l. exact (machine_ok read_ticks (fun t => 0 <= t <= 2 ^ 62) l read_ticks_ok).
  - intros l. exact (machine_ok read_ns is_u64 l read_ns_ok).
  - exact link_secret_ok.
  - intros a l _ Hl. eapply wp_mono; [apply (moves_source_for (config l) (held_share l) (frames (hw l)) a l), in_call_start, Hl| |].
    + intros l' r [H1 H2]. split; [by apply same_call|done].
    + intros l' e H. by apply same_call.
  - intros from to segment l _ _ Hb _ Hl. eapply wp_mono; [apply (moves_send_from (config l) (held_share l) (frames (hw l)) from to Ip.PROTO_TCP segment)| |].
    + vm_compute. split; discriminate.
    + done.
    + by apply in_call_start.
    + intros l' [] [H _]. by apply same_call.
    + intros l' e H. by apply same_call.
  - intros h l Hh Hl. split; [|done]. destruct Hl. constructor; done.
Defined.
End spec.
