(* ===== verification/Udp.v ===== *)
(** * UDP sockets

    [UdpState] of [kernel/src/net/udp.rs]: one queue of whole datagrams. *)

From S2P Require Import Prelude Safe Words Packets PacketSpec Config Tcp TcpBounds Link LinkSpec.

Definition QUEUE_LIMIT : Z := 64.
Definition QUEUE_BYTES : Z := 64 * 1024.

Record UdpState := mkUdp {
  u_local : Endpoint;
  u_remote : option Endpoint;
  u_bound : bool;
  write_shutdown : bool;
  u_read_shutdown : bool;
  u_error : option Errno;
  queue : list (Endpoint * list Z);
  queued_bytes : Z;
}.

Definition udp_new : UdpState := mkUdp unspecified_endpoint None false false false None [] 0.

Definition with_queue (q : list (Endpoint * list Z)) (bytes : Z) (u : UdpState) : UdpState :=
  mkUdp (u_local u) (u_remote u) (u_bound u) (write_shutdown u) (u_read_shutdown u) (u_error u) q bytes.

Definition shutdown_read (u : UdpState) : UdpState :=
  mkUdp (u_local u) (u_remote u) (u_bound u) (write_shutdown u) true (u_error u) [] 0.

(** [socket::Received]; [r_data] is what was copied into the buffer. *)
Record Received := mkReceived { r_data : list Z; r_length : Z; r_from : option Endpoint }.

(** The oldest go until there is room. *)
Fixpoint drop_oldest {S} (size : Z) (q : list (Endpoint * list Z)) (bytes : Z) : M S Errno (list (Endpoint * list Z) * Z) :=
  if QUEUE_LIMIT <=? len q then
    match q with
    | (_, dropped) :: rest => let! bytes := usize (bytes - len dropped) in drop_oldest size rest bytes
    | [] => ret ([], bytes)
    end
  else
    let! total := usize (bytes + size) in
    if QUEUE_BYTES <? total then
      match q with
      | (_, dropped) :: rest => let! bytes := usize (bytes - len dropped) in drop_oldest size rest bytes
      | [] => ret ([], bytes)
      end
    else ret (q, bytes).

Definition enqueue (from : Endpoint) (data : list Z) : M UdpState Errno unit :=
  let! u := gets id in
  let! '(q, bytes) := drop_oldest (len data) (queue u) (queued_bytes u) in
  let! bytes := usize (bytes + len data) in
  modify (with_queue (q ++ [(from, data)]) bytes).

(** One whole datagram, as far as [room] bytes hold it. *)
Definition udp_receive (room : Z) (peek : bool) : M UdpState Errno Received :=
  let! u := gets id in
  match queue u with
  | [] => if u_read_shutdown u then ret (mkReceived [] 0 None) else throw EAGAIN
  | (from, data) :: rest =>
      let n := Z.min room (len data) in
      (if peek then ret tt
       else let! bytes := usize (queued_bytes u - len data) in modify (with_queue rest bytes)) ;;;
      ret (mkReceived (take (Z.to_nat n) data) (len data) (Some from))
  end.

Section send.
Context {C : Type} `{!Machine C}.

(** Sending needs the state only to read it. *)
Definition udp_send (u : UdpState) (buf : list Z) (to : option Endpoint) : M (Link C) Errno Z :=
  if write_shutdown u then throw EPIPE
  else
    let! destination := ok_or (match to with Some e => Some e | None => u_remote u end) EDESTADDRREQ in
    if port destination =? 0 then throw EINVAL
    else
      let! total := usize (UdpPacket.HEADER_LEN + len buf + Ip.HEADER_LEN) in
      if Ether.MTU <? total then throw EMSGSIZE
      else if port (u_local u) =? 0 then throw EINVAL
      else
        let! source_address := (if Ip.is_unspecified (address (u_local u)) then link_source_for (address destination) else ret (address (u_local u))) in
        let source := mkEndpoint source_address (port (u_local u)) in
        let! datagram := UdpPacket.build source destination buf in
        link_send_from source_address (address destination) Ip.PROTO_UDP datagram ;;;
        ret (len buf).
End send.

(** * The queue of a UDP socket

    However many datagrams arrive, a socket holds at most 64 of them and at most
    64 KiB; what is dropped is the oldest, and what is kept comes out whole and
    in order. *)

Definition queue_bytes (q : list (Endpoint * list Z)) : Z := foldr (fun p n => len p.2 + n) 0 q.

Record udp_ok (u : UdpState) : Prop := {
  ud_local : endpoint_ok (u_local u);
  ud_remote : option_Forall endpoint_ok (u_remote u);
  ud_count : len (queue u) <= QUEUE_LIMIT;
  ud_sum : queued_bytes u = queue_bytes (queue u);
  ud_bytes : queued_bytes u <= QUEUE_BYTES;
  ud_queue : Forall (fun p => endpoint_ok p.1 /\ Forall is_u8 p.2) (queue u);
}.

Lemma queue_bytes_app q q' : queue_bytes (q ++ q') = queue_bytes q + queue_bytes q'.
Proof. unfold queue_bytes. induction q as [|p q IH]; cbn in *; lia. Qed.

Lemma queue_bytes_nonneg q : 0 <= queue_bytes q.
Proof. unfold queue_bytes. induction q as [|p q IH]; cbn in *; lia. Qed.

(** What is left is the newest that fit beside [length] bytes more: a proper
    ending of the queue is dropped down to only when the longer one did not fit. *)
Lemma drop_oldest_spec {S} size q : forall bytes (s : S),
  0 <= size <= QUEUE_BYTES -> bytes = queue_bytes q -> bytes <= QUEUE_BYTES -> len q <= QUEUE_LIMIT ->
  exists k, drop_oldest size q bytes s = (s, Ok (drop k q, queue_bytes (drop k q))) /\
    len (drop k q) < QUEUE_LIMIT /\ queue_bytes (drop k q) + size <= QUEUE_BYTES /\
    forall i, (i < k)%nat -> QUEUE_LIMIT <= len (drop i q) \/ QUEUE_BYTES < queue_bytes (drop i q) + size.
Proof.
  unfold QUEUE_BYTES, QUEUE_LIMIT. induction q as [|[from d] q IH]; intros bytes s Hl Hb Hm Hq.
  { exists 0%nat. subst bytes. cbn [drop_oldest queue_bytes foldr List.length drop]. unfold bind, checked, QUEUE_LIMIT, QUEUE_BYTES. change (64 <=? len []) with false.
    replace ((0 <=? 0 + size) && (0 + size <=? u64_max)) with true by (unfold u64_max; lia). cbn [ret].
    replace (64 * 1024 <? 0 + size) with false by lia. split_and!; [done|cbn; lia|lia|lia]. }
  pose proof (queue_bytes_nonneg q) as Hn. change (queue_bytes ((from, d) :: q)) with (len d + queue_bytes q) in *. cbn [List.length] in Hq.
  assert (Hpop : (64 <= len ((from, d) :: q) \/ 64 * 1024 < queue_bytes ((from, d) :: q) + size) ->
    exists k, bind (usize (bytes - len d)) (fun bytes => drop_oldest size q bytes) s = (s, Ok (drop k ((from, d) :: q), queue_bytes (drop k ((from, d) :: q)))) /\
    len (drop k ((from, d) :: q)) < 64 /\ queue_bytes (drop k ((from, d) :: q)) + size <= 64 * 1024 /\
    forall i, (i < k)%nat -> 64 <= len (drop i ((from, d) :: q)) \/ 64 * 1024 < queue_bytes (drop i ((from, d) :: q)) + size).
  { intros Hfull. destruct (IH (bytes - len d) s) as (k & E & H1 & H2 & H3); [lia|lia|lia|lia|]. exists (Datatypes.S k). cbn [drop]. split_and!; [|done|done|].
    - unfold bind, checked. replace ((0 <=? bytes - len d) && (bytes - len d <=? u64_max)) with true by (unfold u64_max; lia). exact E.
    - intros [|i] Hi; [exact Hfull|]. apply H3. lia. }
  cbn [drop_oldest]. unfold QUEUE_LIMIT, QUEUE_BYTES. destruct (64 <=? _) eqn:E1; [apply Z.leb_le in E1; apply Hpop; by left|]. apply Z.leb_gt in E1.
  unfold bind at 1, checked at 1. replace ((0 <=? bytes + size) && (bytes + size <=? u64_max)) with true by (unfold u64_max; lia). cbn [ret].
  destruct (64 * 1024 <? bytes + size) eqn:E2; [apply Z.ltb_lt in E2; apply Hpop; right; cbn [queue_bytes foldr snd]; fold (queue_bytes q); lia|]. apply Z.ltb_ge in E2.
  exists 0%nat. cbn [drop]. change (queue_bytes ((from, d) :: q)) with (len d + queue_bytes q). split_and!; [by rewrite Hb|done|lia|lia].
Qed.

(** What [enqueue] leaves: as many of the newest as fit, and the new one. *)
Lemma enqueue_spec from data u :
  udp_ok u -> endpoint_ok from -> Forall is_u8 data -> len data <= QUEUE_BYTES ->
  exists k, enqueue from data u = (with_queue (drop k (queue u) ++ [(from, data)]) (queue_bytes (drop k (queue u)) + len data) u, Ok tt) /\
    udp_ok (with_queue (drop k (queue u) ++ [(from, data)]) (queue_bytes (drop k (queue u)) + len data) u) /\
    forall i, (i < k)%nat -> QUEUE_LIMIT <= len (drop i (queue u)) \/ QUEUE_BYTES < queue_bytes (drop i (queue u)) + len data.
Proof.
  intros [] Hf Hd Hl. destruct (@drop_oldest_spec UdpState (len data) (queue u) (queued_bytes u) u) as (k & E & H1 & H2 & H3); [lia|done|done|done|].
  exists k. pose proof (queue_bytes_nonneg (drop k (queue u))) as Hn. unfold QUEUE_BYTES, QUEUE_LIMIT in *. split_and!; [| |done].
  - unfold enqueue, bind, gets. cbn [id]. rewrite E. unfold checked.
    replace ((0 <=? queue_bytes (drop k (queue u)) + len data) && (queue_bytes (drop k (queue u)) + len data <=? u64_max)) with true by (unfold u64_max; lia). done.
  - constructor; cbn; try done.
    + rewrite length_app. cbn. unfold QUEUE_LIMIT. lia.
    + rewrite queue_bytes_app. cbn. lia.
    + apply Forall_app. split; [by apply Forall_drop|]. by constructor.
Qed.

Lemma wp_enqueue from data u (Q : UdpState -> unit -> Prop) X :
  udp_ok u -> endpoint_ok from -> Forall is_u8 data -> len data <= QUEUE_BYTES ->
  (forall u', udp_ok u' -> u_local u' = u_local u -> u_bound u' = u_bound u -> Q u' tt) -> wp (enqueue from data) Q X u.
Proof. intros Hu Hf Hd Hl HQ. destruct (enqueue_spec from data u Hu Hf Hd Hl) as (k & E & H & _). unfold wp. rewrite E. by apply HQ. Qed.

(** A whole datagram, the oldest, comes out; a peek leaves it. *)
Lemma udp_receive_spec room peek u :
  udp_ok u ->
  udp_receive room peek u = match queue u with
    | [] => (u, if u_read_shutdown u then Ok (mkReceived [] 0 None) else Err EAGAIN)
    | (from, data) :: rest => (if peek then u else with_queue rest (queue_bytes rest) u, Ok (mkReceived (take (Z.to_nat (Z.min room (len data))) data) (len data) (Some from)))
    end /\ udp_ok (udp_receive room peek u).1.
Proof.
  intros [H1 H2 H3 H4 H5 H6]. unfold udp_receive, bind, gets, id. cbv beta iota. destruct (queue u) as [|[from data] rest] eqn:Eq.
  { destruct (u_read_shutdown u); (split; [done|]); constructor; cbn; rewrite ?Eq; done. }
  destruct peek; [split; [done|]; constructor; cbn; rewrite ?Eq; done|]. apply Forall_cons in H6 as [_ H6].
  change (queue_bytes ((from, data) :: rest)) with (len data + queue_bytes rest) in H4. pose proof (queue_bytes_nonneg rest). cbn [length] in H3.
  unfold checked. replace ((0 <=? queued_bytes u - len data) && (queued_bytes u - len data <=? u64_max)) with true by (unfold QUEUE_BYTES, u64_max in *; lia).
  replace (queued_bytes u - len data) with (queue_bytes rest) by lia. split; [done|]. cbn. constructor; cbn; try done; lia.
Qed.

Lemma wp_udp_receive room peek u :
  udp_ok u -> wp (udp_receive room peek) (fun u' r => udp_ok u' /\ (r_from r <> None -> Forall is_u8 (r_data r) /\ len (r_data r) <= 2 ^ 62)) (fun u' _ => udp_ok u') u.
Proof.
  intros Hu. destruct (udp_receive_spec room peek u Hu) as [E Hok]. unfold wp. rewrite E in *. pose proof (ud_queue _ Hu) as Hq. pose proof (ud_bytes _ Hu) as Hb. rewrite (ud_sum _ Hu) in Hb. destruct (queue u) as [|[from data] rest].
  - destruct (u_read_shutdown u); done.
  - split; [done|]. intros _. cbn. apply Forall_cons in Hq as [Hq _]. split; [by apply Forall_take, Hq|]. rewrite length_take. pose proof (queue_bytes_nonneg rest).
    change (queue_bytes ((from, data) :: rest)) with (len data + queue_bytes rest) in Hb. unfold QUEUE_BYTES in *. lia.
Qed.

Section send.
Context {C : Type} {HM : Machine C} {HMok : MachineOk C}.

Lemma udp_build_ok {S E} source destination payload (s : S) :
  endpoint_ok source -> endpoint_ok destination -> Forall is_u8 payload -> len payload <= 1472 ->
  wp (@UdpPacket.build S E source destination payload) (fun s' d => s' = s /\ Forall is_u8 d /\ len d = 8 + len payload) (fun _ _ => False) s.
Proof.
  intros [Hs Hsp] [Hd Hdp] Hb Hl. unfold UdpPacket.build, UdpPacket.HEADER_LEN. apply wp_bind, wp_checked; [unfold u64_max; lia|].
  set (datagram := be16 (port source) ++ _). 
  assert (Hdb : Forall is_u8 datagram) by (unfold datagram; rewrite !Forall_app; split_and!; try apply be16_bytes; try done; apply two_bytes; unfold is_u8, u8_max; lia).
  assert (Hdl : len datagram = 8 + len payload) by (unfold datagram; rewrite !length_app; cbn [be16 length]; lia).
  apply wp_bind. eapply wp_fun; [apply pseudo_spec; [done|done|vm_compute; split; discriminate|lia]|].
  pose proof (psum_bounds (address source) (address destination) Ip.PROTO_UDP (8 + len payload) Hs Hd ltac:(vm_compute; split; discriminate) ltac:(lia)) as Hps.
  pose proof (wsum_bounds datagram Hdb) as Hw. apply wp_bind. eapply wp_fun; [apply sum_spec; [done|lia|unfold u32_max; lia]|].
  apply wp_bind. eapply wp_fun; [apply fold_spec; unfold u32_max; lia|]. apply wp_ret. split; [done|]. split.
  - unfold splice. rewrite !Forall_app. split_and!; [by apply Forall_take|apply be16_bytes|by apply Forall_drop].
  - unfold splice. rewrite !length_app, length_take, length_drop. cbn [be16 length]. lia.
Qed.

Context (cfg : option Config) (share : Z) (base : list (list Z)).
Abbreviation moves := (safe (in_call (C := C) cfg share base) (fun l (_ : Errno) => in_call cfg share base l)).

Lemma moves_udp_send u buf to : udp_ok u -> Forall is_u8 buf -> len buf <= 2 ^ 62 -> option_Forall endpoint_ok to -> moves (udp_send u buf to) (fun _ => True).
Proof.
  intros Hu Hb Hl Hto. unfold udp_send, UdpPacket.HEADER_LEN, Ip.HEADER_LEN, Ether.MTU. destruct (write_shutdown u); [apply moves_throw|].
  eapply (safe_bind _ _ _ _ endpoint_ok).
  { apply safe_ok_or; [by intros s|]. intros e. pose proof (ud_remote _ Hu) as Hr. destruct to; [intros [= <-]; by inversion Hto|]. intros E. rewrite E in Hr. by inversion Hr. }
  intros d Hd. destruct (port d =? 0); [apply moves_throw|].
  eapply safe_bind; [apply (safe_checked _ _ _ _ (fun x => x = 8 + len buf + 20)); [unfold u64_max; lia|done]|]. intros ? ->.
  destruct (_ <? _) eqn:El; [apply moves_throw|]. apply Z.ltb_ge in El. destruct (port (u_local u) =? 0); [apply moves_throw|].
  eapply (safe_bind _ _ _ _ is_u32); [destruct (Ip.is_unspecified _); [apply moves_source_for|apply safe_ret, (ud_local _ Hu)]|]. intros a Ha.
  eapply (safe_bind _ _ _ _ (Forall is_u8)).
  { apply moves_pure. intros l. eapply wp_mono; [apply udp_build_ok; [split; [done|apply (ud_local _ Hu)]|done|done|lia]| |done]. intros l' x (H1 & H2 & _). done. }
  intros x Hx. eapply safe_bind; [apply moves_send_from; [vm_compute; split; discriminate|done]|]. intros [] _. by apply safe_ret.
Qed.
End send.
