(* ===== verification/Sockets.v ===== *)
(** * Sockets, and where what arrives goes

    [kernel/src/net/socket.rs] without the waits, the demultiplexing of
    [tcp.rs] and [udp.rs], [icmp.rs], the receiving half of [ip.rs] and the
    loopback delivery of [mod.rs].

    A socket is shared by the table, by the queue of a listener and by
    descriptors: it is an entry of [heap] under a handle, and a reference is the
    handle. A handle without an entry would be a dangling reference, and using
    one is a panic of the model. *)

From S2P Require Import Prelude Words Packets Config Tcp TcpInput Link Udp.

Inductive Protocol := ProtoTcp (t : Tcb) | ProtoUdp (u : UdpState).

Record InetSocket := mkSocket { stream : bool; inner : Protocol; detached : bool }.

Record Net (C : Type) := mkNet {
  link : Link C;
  heap : gmap nat InetSocket;
  next_handle : nat;
  (** [SOCKETS] *)
  table : list nat;
  next_ephemeral : Z;
  (** [RUNNING] of [deliver_loopback]. *)
  delivering : bool;
}.
Arguments mkNet {C}.
Arguments link {C}.
Arguments heap {C}.
Arguments next_handle {C}.
Arguments table {C}.
Arguments next_ephemeral {C}.
Arguments delivering {C}.

Definition EPHEMERAL_FIRST : Z := 49152.
Definition EPHEMERAL_LAST : Z := 65535.

Definition with_inner (p : Protocol) (s : InetSocket) : InetSocket := mkSocket (stream s) p (detached s).
Definition with_detached (b : bool) (s : InetSocket) : InetSocket := mkSocket (stream s) (inner s) b.
Definition socket_new (stream : bool) : InetSocket :=
  mkSocket stream (if stream then ProtoTcp tcb_new else ProtoUdp udp_new) false.

(** ** What a socket says of itself *)

Definition local_endpoint (s : InetSocket) : Endpoint :=
  match inner s with ProtoTcp t => local t | ProtoUdp u => u_local u end.
Definition is_bound (s : InetSocket) : bool :=
  match inner s with ProtoTcp t => bound t | ProtoUdp u => u_bound u end.
Definition tcp_of (s : InetSocket) : option Tcb := match inner s with ProtoTcp t => Some t | ProtoUdp _ => None end.

Definition peer_endpoint (s : InetSocket) : option Endpoint :=
  match inner s with
  | ProtoTcp t => if is_synchronised (tstate t) then Some (remote t) else None
  | ProtoUdp u => u_remote u
  end.

Definition handshake_done (s : InetSocket) : bool :=
  match inner s with ProtoTcp t => is_synchronised (tstate t) | ProtoUdp _ => false end.

Definition is_listening (s : InetSocket) : bool :=
  match inner s with ProtoTcp t => bool_decide (tstate t = Listen) | ProtoUdp _ => false end.

Definition writable (s : InetSocket) : bool :=
  match inner s with
  | ProtoTcp t => match tstate t with
                  | Established | CloseWait => len (pending t) <? SEND_BUFFER
                  | Closed => true
                  | _ => negb (bool_decide (error t = None))
                  end
  | ProtoUdp _ => true
  end.

Definition available (s : InetSocket) : Z :=
  match inner s with
  | ProtoTcp t => len (received t)
  | ProtoUdp u => match queue u with (_, data) :: _ => len data | [] => 0 end
  end.

Definition hung_up (s : InetSocket) : bool :=
  match inner s with
  | ProtoTcp t => negb (bool_decide (error t = None)) || match tstate t with Closed | TimeWait | LastAck => true | _ => false end
  | ProtoUdp _ => false
  end.

Definition connecting (s : InetSocket) : bool :=
  match inner s with
  | ProtoTcp t => match tstate t with SynSent | SynReceived => true | _ => false end
  | ProtoUdp _ => false
  end.

Definition matches_local (bound local : Endpoint) : bool :=
  (port bound =? port local) && (Ip.is_unspecified (address bound) || (address bound =? address local)).

Section net.
Context {C : Type} `{!Machine C} `{!Sorter}.
Abbreviation NM := (M (Net C) Errno).

Definition with_link (l : Link C) (n : Net C) : Net C := mkNet l (heap n) (next_handle n) (table n) (next_ephemeral n) (delivering n).
Definition with_heap (h : gmap nat InetSocket) (n : Net C) : Net C := mkNet (link n) h (next_handle n) (table n) (next_ephemeral n) (delivering n).
Definition with_table (t : list nat) (n : Net C) : Net C := mkNet (link n) (heap n) (next_handle n) t (next_ephemeral n) (delivering n).
Definition with_ephemeral (p : Z) (n : Net C) : Net C := mkNet (link n) (heap n) (next_handle n) (table n) p (delivering n).
Definition with_delivering (b : bool) (n : Net C) : Net C := mkNet (link n) (heap n) (next_handle n) (table n) (next_ephemeral n) b.

Definition on_link_state {A} (m : M (Link C) Errno A) : NM A := zoom link with_link m.

Definition the_socket (id : nat) : NM InetSocket :=
  fun n => match heap n !! id with Some s => (n, Ok s) | None => (n, Stuck Panic) end.
Definition put_socket (id : nat) (s : InetSocket) : NM unit := modify (fun n => with_heap (<[id := s]> (heap n)) n).

(** [InetSocket::new] *)
Definition new_socket (stream : bool) : NM nat :=
  state (fun n => (mkNet (link n) (<[next_handle n := socket_new stream]> (heap n)) (S (next_handle n)) (table n) (next_ephemeral n) (delivering n), next_handle n)).

(** [with_tcp]: a method of the control block, with the link below it. *)
Definition with_tcp {A} (id : nat) (m : TM (N := Link C) A) : NM A :=
  let! s := the_socket id in
  match inner s with
  | ProtoTcp t => fun n => match m (t, link n) with
                           | ((t', l'), r) => (with_heap (<[id := with_inner (ProtoTcp t') s]> (heap n)) (with_link l' n), r)
                           end
  | ProtoUdp _ => throw EOPNOTSUPP
  end.

Definition with_udp {A} (id : nat) (m : M UdpState Errno A) : NM A :=
  let! s := the_socket id in
  match inner s with
  | ProtoUdp u => fun n => match m u with (u', r) => (with_heap (<[id := with_inner (ProtoUdp u') s]> (heap n)) n, r) end
  | ProtoTcp _ => throw EOPNOTSUPP
  end.

(** ** The table *)

Definition register (id : nat) : NM unit :=
  modify (fun n => if bool_decide (id ∈ table n) then n else with_table (table n ++ [id]) n).
Definition unregister (id : nat) : NM unit := modify (fun n => with_table (filter (fun other => other <> id) (table n)) n).

(** The first of the table that [hit] takes. *)
Definition hits (hit : InetSocket -> bool) (n : Net C) (id : nat) : bool :=
  match heap n !! id with Some s => hit s | None => false end.
Definition find_socket (hit : InetSocket -> bool) (n : Net C) : option nat :=
  snd <$> list_find (fun id => hits hit n id = true) (table n).

Definition stream_hit (here there : Endpoint) (s : InetSocket) : bool :=
  match inner s with
  | ProtoTcp t => stream s && negb (bool_decide (tstate t = Listen)) && negb (bool_decide (tstate t = Closed))
                  && bool_decide (remote t = there) && matches_local (local t) here
  | ProtoUdp _ => false
  end.
Definition lookup_stream (here there : Endpoint) : Net C -> option nat := find_socket (stream_hit here there).

(** A loop that returns at the first of the best kind, and else has kept the
    first that would do. *)
Definition first_best (best_hit hit : InetSocket -> bool) (n : Net C) : option nat :=
  match find_socket best_hit n with Some id => Some id | None => find_socket hit n end.

Definition listener_hit (here : Endpoint) (s : InetSocket) : bool :=
  match inner s with ProtoTcp t => stream s && bool_decide (tstate t = Listen) && matches_local (local t) here | ProtoUdp _ => false end.
Definition listener_exact (here : Endpoint) (s : InetSocket) : bool :=
  listener_hit here s && (address (local_endpoint s) =? address here).
Definition lookup_listener (here : Endpoint) : Net C -> option nat := first_best (listener_exact here) (listener_hit here).

Definition datagram_hit (here there : Endpoint) (s : InetSocket) : bool :=
  match inner s with
  | ProtoUdp u => negb (stream s) && u_bound u && matches_local (u_local u) here
                  && match u_remote u with Some connected => bool_decide (connected = there) | None => true end
  | ProtoTcp _ => false
  end.
Definition datagram_connected (here there : Endpoint) (s : InetSocket) : bool :=
  datagram_hit here there s && match inner s with ProtoUdp u => negb (bool_decide (u_remote u = None)) | ProtoTcp _ => false end.
Definition lookup_datagram (here there : Endpoint) : Net C -> option nat := first_best (datagram_connected here there) (datagram_hit here there).

Definition holds_port (kind : bool) (number : Z) (s : InetSocket) : bool :=
  bool_decide (stream s = kind) && negb (detached s) && is_bound s && (port (local_endpoint s) =? number).
Definition port_taken (kind : bool) (number : Z) (except : option nat) (n : Net C) : bool :=
  existsb (fun id => negb (bool_decide (except = Some id)) && hits (holds_port kind number) n id) (table n).

(** The loop of [allocate_port], with the turns left. *)
Fixpoint try_ports (turns : nat) (kind : bool) : NM Z :=
  match turns with
  | O => throw EADDRINUSE
  | S turns =>
      let! drawn := gets next_ephemeral in
      modify (with_ephemeral (as_u16 (drawn + 1))) ;;;
      let! number := (if drawn <? EPHEMERAL_FIRST
                      then modify (with_ephemeral (EPHEMERAL_FIRST + 1)) ;;; ret EPHEMERAL_FIRST
                      else ret drawn) in
      let! taken := gets (port_taken kind number None) in
      if taken then try_ports turns kind else ret number
  end.
Definition allocate_port (kind : bool) : NM Z := try_ports (Z.to_nat (EPHEMERAL_LAST - EPHEMERAL_FIRST)) kind.

(** ** What arrives *)

(** [tcp::send_reset] *)
Definition send_reset (here there : Endpoint) (g : Segment.Segment) : M (Link C) Errno unit :=
  let! '(sequence, acknowledgement, flags) :=
    (if Segment.has (Segment.flags g) Segment.ACK then ret (Segment.acknowledgement g, 0, Segment.RST)
     else let! size := Segment.seq_length g in
          ret (0, wrapping_add (Segment.sequence g) size, Z.lor Segment.RST Segment.ACK)) in
  let! from := try_ (if Ip.is_unspecified (address here) then link_source_for (address there) else ret (address here)) in
  match from with
  | inr _ => ret tt
  | inl from =>
      let source := mkEndpoint from (port here) in
      let! reply := Segment.build source there sequence acknowledgement flags 0 None [] in
      let! _ := try_ (link_send_from (address source) (address there) Ip.PROTO_TCP reply) in
      ret tt
  end.

(** [tcp::accept_connection] *)
Definition accept_connection (listener : nat) (here there : Endpoint) (g : Segment.Segment) : NM unit :=
  let! s := the_socket listener in
  let room := match inner s with ProtoTcp t => len (children t) <? backlog t | ProtoUdp _ => false end in
  if negb room then ret tt
  else
    let! child := new_socket true in
    with_tcp child (update (fun t => set_bound true (set_remote there (set_local here t))) ;;; accept_open g) ;;;
    register child ;;;
    with_tcp listener (update (fun t => set_children (children t ++ [child]) t)) ;;;
    with_tcp child send_syn_ack.

Definition is_ours (c : option Config) (destination : Z) : bool :=
  Ip.is_loopback destination || bool_decide (config_address <$> c = Some destination).

(** [tcp::receive] *)
Definition tcp_receive (source destination : Z) (bytes : list Z) : NM unit :=
  let! parsed := Segment.parse bytes in
  match parsed with
  | None => ret tt
  | Some g =>
      let! pseudo := Ip.pseudo_sum source destination Ip.PROTO_TCP (len bytes) in
      let! total := Ip.sum bytes pseudo in
      let! sum := Ip.fold total in
      if negb (sum =? 0) then ret tt
      else
        let! c := gets (fun n => config (link n)) in
        if Ip.is_broadcast destination || Ip.is_multicast destination || bool_decide (broadcast <$> c = Some destination) then ret tt
        else
          let here := mkEndpoint destination (Segment.destination_port g) in
          let there := mkEndpoint source (Segment.source_port g) in
          let reset := (if Segment.has (Segment.flags g) Segment.RST then ret tt else on_link_state (send_reset here there g)) in
          let! found := gets (lookup_stream here there) in
          match found with
          | Some id => let! _ := with_tcp id (on_segment g) in ret tt
          | None =>
              if Segment.has (Segment.flags g) Segment.SYN && (Z.land (Segment.flags g) (Z.lor Segment.ACK Segment.RST) =? 0) then
                let! listening := gets (lookup_listener here) in
                match listening with
                | Some id => accept_connection id here there g
                | None => reset
                end
              else reset
          end
  end.

(** [udp::receive] *)
Definition udp_arrive (source destination : Z) (bytes : list Z) : NM unit :=
  let! parsed := UdpPacket.parse source destination bytes in
  match parsed with
  | None => ret tt
  | Some (from, to, data) =>
      let! found := gets (lookup_datagram to from) in
      match found with
      | None => ret tt
      | Some id => with_udp id (enqueue from data)
      end
  end.

(** [icmp::receive] *)
Definition icmp_receive (source destination : Z) (message : list Z) : M (Link C) Errno unit :=
  if len message <? Icmp.HEADER_LEN then ret tt
  else
    let! sum := Ip.checksum message in
    if negb (sum =? 0) then ret tt
    else
      let! kind := index_at message 0 in
      let! code := index_at message 1 in
      if negb (kind =? Icmp.TYPE_ECHO_REQUEST) || negb (code =? 0) then ret tt
      else
        let! c := gets config in
        if negb (is_ours c destination) then ret tt
        else
          let! rest := slice message 4 8 in
          let! body := slice message Icmp.HEADER_LEN (len message) in
          let! reply := Icmp.build Icmp.TYPE_ECHO_REPLY 0 rest body in
          let! _ := try_ (link_send_from destination source Ip.PROTO_ICMP reply) in
          ret tt.

Inductive Origin := FromCard | FromLoopback.

(** Whether a datagram that arrived is this machine's. *)
Definition is_for_us (c : option Config) (source destination : Z) (origin : Origin) : bool :=
  match origin with
  | FromCard =>
      if Ip.is_loopback source || Ip.is_loopback destination then false
      else match c with
           | Some c =>
               if source =? config_address c then false
               else (destination =? config_address c) || Ip.is_broadcast destination || (destination =? broadcast c)
           | None => Ip.is_broadcast destination
           end
  | FromLoopback => is_ours c destination
  end.

(** [ip::receive] *)
Definition ip_receive (bytes source_mac : list Z) (origin : Origin) : NM unit :=
  let! parsed := Ip.parse bytes in
  match parsed with
  | None => ret tt
  | Some (h, payload) =>
      let! c := gets (fun n => config (link n)) in
      if negb (is_for_us c (Ip.source h) (Ip.destination h) origin) then ret tt
      else
        (if match origin with FromCard => true | FromLoopback => false end && negb (Ip.is_unspecified (Ip.source h))
            && match c with Some c => on_link c (Ip.source h) | None => false end
         then on_link_state (learn (Ip.source h) source_mac) else ret tt) ;;;
        if Ip.is_fragment h then ret tt
        else if Ip.protocol h =? Ip.PROTO_ICMP then on_link_state (icmp_receive (Ip.source h) (Ip.destination h) payload)
        else if Ip.protocol h =? Ip.PROTO_UDP then udp_arrive (Ip.source h) (Ip.destination h) payload
        else if Ip.protocol h =? Ip.PROTO_TCP then tcp_receive (Ip.source h) (Ip.destination h) payload
        else ret tt
  end.

(** The loop of [deliver_loopback], with the turns left. *)
Fixpoint deliver_some (turns : nat) : NM unit :=
  match turns with
  | O => ret tt
  | S turns =>
      let! waiting := gets (fun n => loopback (link n)) in
      match waiting with
      | [] => ret tt
      | datagram :: rest =>
          on_link_state (modify (with_loopback rest)) ;;;
          let! hardware := on_link_state mac in
          ip_receive datagram hardware FromLoopback ;;;
          deliver_some turns
      end
  end.

Definition deliver_loopback : NM unit :=
  let! running := gets delivering in
  modify (with_delivering true) ;;;
  if running then ret tt
  else deliver_some (Z.to_nat LOOPBACK_LIMIT) ;;; modify (with_delivering false).

Definition poll : NM unit :=
  let! waiting := gets (fun n => loopback (link n)) in
  if bool_decide (waiting = []) then ret tt else deliver_loopback.

(** ** What programs ask for *)

Definition bind_ (id : nat) (requested : Endpoint) : NM unit :=
  let! c := gets (fun n => config (link n)) in
  let a := address requested in
  if negb (Ip.is_unspecified a || Ip.is_broadcast a || is_ours c a) then throw EADDRNOTAVAIL
  else
    let! s := the_socket id in
    let! number :=
      (if port requested =? 0 then allocate_port (stream s)
       else let! taken := gets (port_taken (stream s) (port requested) (Some id)) in
            if taken then throw EADDRINUSE else ret (port requested)) in
    let here := mkEndpoint a number in
    let! s := the_socket id in
    match inner s with
    | ProtoTcp t =>
        if negb (bool_decide (tstate t = Closed)) || bound t then throw EINVAL
        else put_socket id (with_inner (ProtoTcp (set_bound true (set_local here t))) s)
    | ProtoUdp u =>
        if u_bound u then throw EINVAL
        else put_socket id (with_inner (ProtoUdp (mkUdp here (u_remote u) true (write_shutdown u) (u_read_shutdown u) (u_error u) (queue u) (queued_bytes u))) s)
    end ;;;
    register id.

Definition bind_ephemeral (id : nat) : NM unit :=
  let! s := the_socket id in
  if negb (port (local_endpoint s) =? 0) then ret tt else bind_ id unspecified_endpoint.

Definition listen (id : nat) (backlog : Z) : NM unit :=
  let! s := the_socket id in
  if negb (stream s) then throw EOPNOTSUPP
  else
    bind_ephemeral id ;;;
    with_tcp id (
      let! t := self in
      match tstate t with
      | Closed | Listen => update (fun t => set_backlog (Z.max 1 (Z.min backlog 128)) (set_state Listen t))
      | _ => throw EINVAL
      end).

(** The children looked at in order: the ones that are closed, and the first
    that is open. *)
Fixpoint sort_children (kids : list nat) : NM (list nat * option nat) :=
  match kids with
  | [] => ret ([], None)
  | child :: rest =>
      let! t := with_tcp child self in
      let! '(dead, ready) := sort_children rest in
      if bool_decide (tstate t = Closed) then ret (child :: dead, ready)
      else if is_synchronised (tstate t) then ret (dead, Some child)
      else ret (dead, ready)
  end.

Definition accept_ready (id : nat) : NM (option nat) :=
  poll ;;;
  let! kids := with_tcp id (let! t := self in if bool_decide (tstate t = Listen) then ret (children t) else throw EINVAL) in
  let! '(dead, ready) := sort_children kids in
  (if negb (bool_decide (dead = [])) || negb (bool_decide (ready = None)) then
     with_tcp id (update (fun t => set_children (filter (fun child => (child ∉ dead) /\ ready <> Some child) (children t)) t))
   else ret tt) ;;;
  mapM_ unregister dead ;;;
  ret ready.

Definition connect (id : nat) (to : Endpoint) : NM unit :=
  if (port to =? 0) || Ip.is_unspecified (address to) then throw EINVAL
  else
    let! s := the_socket id in
    if negb (stream s) then
      bind_ephemeral id ;;;
      with_udp id (modify (fun u => mkUdp (u_local u) (Some to) (u_bound u) (write_shutdown u) (u_read_shutdown u) (u_error u) (queue u) (queued_bytes u)))
    else if Ip.is_broadcast (address to) || Ip.is_multicast (address to) then throw ENETUNREACH
    else
      let! source := on_link_state (link_source_for (address to)) in
      bind_ephemeral id ;;;
      let! s := the_socket id in
      let number := port (local_endpoint s) in
      with_tcp id (
        let! t := self in
        match tstate t with
        | Closed => update (fun t => set_remote to (set_local (mkEndpoint source number) t)) ;;; open
        | SynSent => throw EALREADY
        | Listen => throw EINVAL
        | _ => throw EISCONN
        end) ;;;
      poll.

Definition send (id : nat) (buf : list Z) (to : option Endpoint) : NM Z :=
  let! s := the_socket id in
  match inner s with
  | ProtoTcp _ => with_tcp id (write buf)
  | ProtoUdp u => on_link_state (udp_send u buf to)
  end.

Definition receive_into (id : nat) (room : Z) (peek : bool) : NM Received :=
  let! s := the_socket id in
  match inner s with
  | ProtoTcp _ => let! data := with_tcp id (read room peek) in ret (mkReceived data (len data) None)
  | ProtoUdp _ => with_udp id (udp_receive room peek)
  end.

Definition connection_progress (id : nat) : NM bool :=
  let! s := the_socket id in
  match inner s with
  | ProtoTcp t =>
      match tstate t with
      | SynSent | SynReceived => ret false
      | Closed =>
          put_socket id (with_inner (ProtoTcp (set_error None t)) s) ;;;
          throw (match error t with Some e => e | None => ECONNREFUSED end)
      | Listen => throw EINVAL
      | _ => ret true
      end
  | ProtoUdp u => ret (negb (bool_decide (u_remote u = None)))
  end.

Definition take_error (id : nat) : NM (option Errno) :=
  let! s := the_socket id in
  match inner s with
  | ProtoTcp t => put_socket id (with_inner (ProtoTcp (set_error None t)) s) ;;; ret (error t)
  | ProtoUdp u =>
      put_socket id (with_inner (ProtoUdp (mkUdp (u_local u) (u_remote u) (u_bound u) (write_shutdown u) (u_read_shutdown u) None (queue u) (queued_bytes u))) s) ;;;
      ret (u_error u)
  end.

Definition socket_abort (id : nat) : NM unit := let! _ := try_ (with_tcp id abort) in ret tt.

Definition shutdown (id : nat) (rd wr : bool) : NM unit :=
  let! s := the_socket id in
  match inner s with
  | ProtoTcp t =>
      if negb (is_synchronised (tstate t)) && negb (bool_decide (tstate t = SynSent)) then throw ENOTCONN
      else with_tcp id ((if rd then update (set_read_shutdown true) else ret tt) ;;; if wr then shutdown_write else ret tt)
  | ProtoUdp u =>
      let u1 := if rd then shutdown_read u else u in
      let u2 := if wr then mkUdp (u_local u1) (u_remote u1) (u_bound u1) true (u_read_shutdown u1) (u_error u1) (queue u1) (queued_bytes u1) else u1 in
      put_socket id (with_inner (ProtoUdp u2) s)
  end.

(** A poll of a listener looks at its children. *)
Definition readable (s : InetSocket) (n : Net C) : bool :=
  match inner s with
  | ProtoTcp t =>
      if bool_decide (tstate t = Listen) then existsb (hits handshake_done n) (children t)
      else negb (bool_decide (received t = [])) || fin_received t || negb (bool_decide (error t = None)) || bool_decide (tstate t = Closed)
  | ProtoUdp u => negb (bool_decide (queue u = [])) || u_read_shutdown u
  end.

(** What closing does to the block itself, its children taken out. *)
Definition close_block : TM (N := Link C) (list nat) :=
  let! t := self in
  update (set_children []) ;;;
  abandon ;;;
  let! t' := self in
  (if bool_decide (tstate t' = Listen) then update (set_state Closed)
   else if negb (bool_decide (received t' = [])) then abort
   else shutdown_write) ;;;
  ret (children t).

(** The last descriptor is gone. *)
Definition close (id : nat) : NM unit :=
  let! s := the_socket id in
  put_socket id (with_detached true s) ;;;
  if negb (stream s) then unregister id
  else
    let! kids := with_tcp id close_block in
    mapM_ (fun child =>
      let! s := the_socket child in
      put_socket child (with_detached true s) ;;;
      let! _ := try_ (with_tcp child abort) in
      unregister child) kids ;;;
    let! finished := with_tcp id (let! t := self in ret (bool_decide (tstate t = Closed))) in
    (if finished then unregister id else ret tt) ;;;
    poll.

(** ** The clock *)

(** [tcp::on_tick]: the sockets that leave the table. *)
Fixpoint tick_sockets (t : Z) (ids : list nat) : NM (list nat) :=
  match ids with
  | [] => ret []
  | id :: rest =>
      let! s := the_socket id in
      let! done :=
        (if negb (stream s) then ret false
         else let! _ := with_tcp id (on_timer t) in
              let! s := the_socket id in
              ret (match inner s with ProtoTcp t => bool_decide (tstate t = Closed) && detached s | ProtoUdp _ => false end)) in
      let! finished := tick_sockets t rest in
      ret (if done then id :: finished else finished)
  end.

Definition on_tick : NM unit :=
  let! ids := gets table in
  if bool_decide (ids = []) then ret tt
  else
    let! t := on_link_state now in
    let! finished := tick_sockets t ids in
    mapM_ unregister finished.

(** [tcp::next_deadline] *)
Definition tcp_next_deadline (n : Net C) : Z :=
  foldr (fun id earliest => match heap n !! id with
                            | Some s => match inner s with ProtoTcp t => if stream s then Z.min (next_deadline t) earliest else earliest | ProtoUdp _ => earliest end
                            | None => earliest end) u64_max (table n).

(** One received frame: whether the clock is looked at after it. *)
Definition net_receive (frame : list Z) : NM bool :=
  let! gone := on_link_state (lost arrived with_arrived) in
  if gone then ret true
  else
    let! parsed := Ether.parse frame in
    match parsed with
    | None => ret false
    | Some f =>
        let! hardware := on_link_state mac in
        let! group := Ether.is_group (Ether.destination f) in
        if negb (bool_decide (Ether.destination f = hardware)) && negb group then ret false
        else
          (if Ether.ethertype f =? Ether.ETHERTYPE_ARP then on_link_state (arp_receive (Ether.payload f))
           else if Ether.ethertype f =? Ether.ETHERTYPE_IPV4 then ip_receive (Ether.payload f) (Ether.source f) FromCard
           else ret tt) ;;;
          ret true
    end.
End net.
