(* ===== verification/SocketsSpec.v ===== *)
(** * The table of sockets: what holds between calls

    [net_ok J n]: the link is in order, every reference leads to a socket, every
    socket is within its bounds with room for [J id] in its counters, and what
    the link counts as held is what the sockets hold. *)

From S2P Require Import Prelude Safe Words Packets PacketSpec Config Tcp TcpInput TcpRuns TcpBounds TcpServes Link LinkSpec Udp Sockets.

(** ** What sockets hold *)

Definition socket_held (s : InetSocket) : Z := match inner s with ProtoTcp t => held t | ProtoUdp _ => 0 end.
Definition held_total (h : gmap nat InetSocket) : Z := map_fold (fun _ s n => socket_held s + n) 0 h.

Lemma held_insert h id s : h !! id = None -> held_total (<[id := s]> h) = socket_held s + held_total h.
Proof. intros H. apply (map_fold_insert_L (fun _ s n => socket_held s + n) 0 id s h); [|done]. intros. lia. Qed.

Lemma held_delete h id s : h !! id = Some s -> held_total h = socket_held s + held_total (delete id h).
Proof. intros H. apply (map_fold_delete_L (fun _ s n => socket_held s + n) 0 id s h); [|done]. intros. lia. Qed.

Lemma held_update h id s : held_total (<[id := s]> h) = socket_held s + held_total (delete id h).
Proof. rewrite <- insert_delete_eq. apply held_insert, lookup_delete_eq. Qed.

Section spec.
Context {C : Type} {HM : Machine C} {HMok : MachineOk C} {HS : Sorter} {HSok : SorterOk}.
Abbreviation NM := (M (Net C) Errno).
Implicit Types (n : Net C) (id : nat) (J : nat -> Z).

(** A block in order, beside whatever the others hold. *)
Definition block_ok (j : Z) (t : Tcb) : Prop :=
  forall l : Link C, link_ok l -> 0 <= held_share l - held t -> tcp_ok (others := held_share l - held t) (kids := children t) j (t, l).

Definition alive (h : gmap nat InetSocket) (id : nat) : Prop := is_Some (h !! id).

Definition socket_ok (j : Z) (h : gmap nat InetSocket) (s : InetSocket) : Prop :=
  match inner s with
  | ProtoTcp t => stream s = true /\ block_ok j t /\ 0 <= held t /\ Forall (alive h) (children t)
  | ProtoUdp u => stream s = false /\ udp_ok u
  end.

Record net_ok J n : Prop := {
  nk_link : link_ok (link n);
  nk_share : held_share (link n) = held_total (heap n);
  nk_handles : forall id, alive (heap n) id -> (id < next_handle n)%nat;
  nk_sockets : forall id s, heap n !! id = Some s -> socket_ok (J id) (heap n) s;
  nk_unique : NoDup (table n);
  nk_table : Forall (alive (heap n)) (table n);
  nk_port : is_u16 (next_ephemeral n);
  nk_room : forall id, J id <= u32_max;
}.

(** The handles of [D] are references held from outside. *)
Definition net_at (D : gset nat) J n : Prop := net_ok J n /\ forall id, id ∈ D -> alive (heap n) id.

Lemma block_of j t l others kids : tcp_ok (others := others) (kids := kids) j (t, l) -> block_ok j t /\ 0 <= held t.
Proof.
  intros H. split; [|pose proof (ok_held _ _ H) as E; cbn [fst] in E; rewrite E; apply run_bytes_nonneg]. intros l' Hl' Hh. destruct H. constructor; cbn [fst snd] in *; try done.
  pose proof (lk_share _ Hl') as Hs. change (held_bytes l') with (held_share l'). lia.
Qed.

Lemma block_less j j' t : 0 <= j' <= j -> block_ok j t -> block_ok j' t.
Proof. intros Hj H l Hl Hh. apply (ok_less j); [lia|by apply H]. Qed.

Lemma socket_less j j' h s : 0 <= j' <= j -> socket_ok j h s -> socket_ok j' h s.
Proof. intros Hj. unfold socket_ok. destruct (inner s); [|done]. intros (H1 & H2 & H3). split_and!; try done; [by apply (block_less j)|apply H3..]. Qed.

Lemma socket_alive j h h' s : (forall id, alive h id -> alive h' id) -> socket_ok j h s -> socket_ok j h' s.
Proof.
  intros Hh. unfold socket_ok. destruct (inner s); [|done]. intros (H1 & H2 & H3 & H4). split_and!; try done. eapply Forall_impl; [exact H4|]. done.
Qed.

Lemma net_less D J J' n : (forall id, 0 <= J' id <= J id) -> net_at D J n -> net_at D J' n.
Proof.
  intros HJ [[] HD]. split; [|done]. constructor; try done; [intros id s Hs; apply (socket_less (J id)); auto|].
  intros id. specialize (HJ id). specialize (nk_room0 id). lia.
Qed.

Lemma net_fewer D D' J n : D' ⊆ D -> net_at D J n -> net_at D' J n.
Proof. intros HD [H1 H2]. split; [done|]. intros id Hid. apply H2. set_solver. Qed.

Lemma net_more D J n id : net_at D J n -> alive (heap n) id -> net_at (D ∪ {[id]}) J n.
Proof. intros [H1 H2] Ha. split; [done|]. intros id' [H|H]%elem_of_union; [auto|]. apply elem_of_singleton in H as ->. done. Qed.

(** The heap gets another socket under [id], alive before. *)
Lemma net_change D J J' n l id s s' :
  net_at D J n -> heap n !! id = Some s -> link_ok l -> held_share l = socket_held s' + held_total (delete id (heap n)) ->
  (forall i, i <> id -> 0 <= J' i <= J i) -> J' id <= u32_max -> socket_ok (J' id) (heap n) s' ->
  net_at D J' (with_heap (<[id := s']> (heap n)) (with_link l n)).
Proof.
  intros [[H1 H2 H3 H4 H5 H6 H7 H8] HD] Hs Hl Hsh HJ Hju Hs'.
  assert (Hal : forall i, alive (heap n) i -> alive (<[id := s']> (heap n)) i).
  { intros i Hi. unfold alive. destruct (decide (i = id)) as [->|]; [rewrite lookup_insert_eq; eauto|by rewrite lookup_insert_ne]. }
  assert (Hback : forall i, alive (<[id := s']> (heap n)) i -> alive (heap n) i).
  { intros i. unfold alive. destruct (decide (i = id)) as [->|]; [rewrite Hs; eauto|by rewrite lookup_insert_ne]. }
  split; [|intros i Hi; cbn; by apply Hal, HD]. constructor; cbn; try done.
  - by rewrite held_update.
  - intros i Hi. by apply H3, Hback.
  - intros i x. destruct (decide (i = id)) as [->|].
    + rewrite lookup_insert_eq. intros [= <-]. by apply (socket_alive _ (heap n)).
    + rewrite lookup_insert_ne by done. intros Hx. apply (socket_less (J i)); [auto|]. apply (socket_alive _ (heap n)); [done|auto].
  - eapply Forall_impl; [exact H6|done].
  - intros i. destruct (decide (i = id)) as [->|]; [done|]. specialize (HJ i ltac:(done)). specialize (H8 i). lia.
Qed.

Lemma held_total_nonneg h : (forall i x, h !! i = Some x -> 0 <= socket_held x) -> 0 <= held_total h.
Proof.
  induction h as [|i x h Hx IH] using map_ind; intros Hh; [by unfold held_total; rewrite map_fold_empty|].
  rewrite held_insert by done. assert (0 <= socket_held x) by (apply (Hh i); by rewrite lookup_insert_eq).
  assert (0 <= held_total h); [|lia]. apply IH. intros i' x' Hx'. apply (Hh i'). rewrite lookup_insert_ne; [done|]. intros ->. congruence.
Qed.

Lemma others_nonneg J n id : net_ok J n -> 0 <= held_total (delete id (heap n)).
Proof.
  intros Hok. apply held_total_nonneg. intros i x Hx. apply lookup_delete_Some in Hx as [_ Hx].
  pose proof (nk_sockets _ _ Hok i x Hx) as H. unfold socket_ok, socket_held in *. destruct (inner x); [tauto|lia].
Qed.

(** ** One control block *)

(** The block of a socket, beside what the others hold. *)
Lemma block_here J n id s t :
  net_ok J n -> heap n !! id = Some s -> inner s = ProtoTcp t ->
  tcp_ok (others := held_total (delete id (heap n))) (kids := children t) (J id) (t, link n) /\ stream s = true /\ Forall (alive (heap n)) (children t).
Proof.
  intros Hok Hs Hi. pose proof (nk_sockets _ _ Hok id s Hs) as Hso. unfold socket_ok in Hso. rewrite Hi in Hso. destruct Hso as (Hst & Hb & Hh & Hk).
  pose proof (nk_share _ _ Hok) as Hsh. rewrite (held_delete _ _ _ Hs) in Hsh. unfold socket_held in Hsh. rewrite Hi in Hsh.
  pose proof (others_nonneg J n id Hok) as Hpos. split_and!; [|done|done].
  pose proof (Hb (link n) (nk_link _ _ Hok) ltac:(lia)) as H. by replace (held_share (link n) - held t) with (held_total (delete id (heap n))) in H by lia.
Qed.

(** [m] may change the children for others that live. *)
Lemma wp_with_tcp_any {A} D J J' id (m : TM (N := Link C) A) n s t (R : A -> Prop) (Q : Net C -> A -> Prop) (X : Net C -> Errno -> Prop) :
  net_at D J n -> heap n !! id = Some s -> inner s = ProtoTcp t -> (forall i, i <> id -> 0 <= J' i <= J i) -> J' id <= u32_max ->
  (forall others, tcp_ok (others := others) (kids := children t) (J id) (t, link n) ->
     wp m (fun w' a => (exists kids, tcp_ok (others := others) (kids := kids) (J' id) w' /\ Forall (alive (heap n)) kids) /\ R a)
          (fun w' _ => exists kids, tcp_ok (others := others) (kids := kids) (J' id) w' /\ Forall (alive (heap n)) kids) (t, link n)) ->
  (forall n' a, net_at D J' n' -> (forall i, alive (heap n) i -> alive (heap n') i) -> R a -> Q n' a) ->
  (forall n' e, net_at D J' n' -> (forall i, alive (heap n) i -> alive (heap n') i) -> X n' e) ->
  wp (with_tcp id m) Q X n.
Proof.
  intros Hn Hs Hi HJ Hju Hm HQ HX. pose proof Hn as [Hok _]. unfold with_tcp. apply wp_bind. unfold wp, the_socket. rewrite Hs. cbn. rewrite Hi.
  destruct (block_here J n id s t Hok Hs Hi) as (Ht & Hst & Hk). set (others := held_total (delete id (heap n))) in *.
  specialize (Hm others Ht). unfold wp in Hm.
  assert (Hend : forall t' l' kids, tcp_ok (others := others) (kids := kids) (J' id) (t', l') -> Forall (alive (heap n)) kids ->
    net_at D J' (with_heap (<[id := with_inner (ProtoTcp t') s]> (heap n)) (with_link l' n)) /\
    (forall i, alive (heap n) i -> alive (<[id := with_inner (ProtoTcp t') s]> (heap n)) i)).
  { intros t' l' kids Ht' Hkids. split.
    - destruct (block_of _ _ _ _ _ Ht') as [Hb' Hh']. apply (net_change D J J' n l' id s); [done|done|exact (ok_wire _ _ Ht')| |done|done|].
      + destruct (ok_share _ _ Ht') as (_ & H & _). exact H.
      + unfold socket_ok. cbn. split_and!; try done. by rewrite (ok_children _ _ Ht' : children t' = kids).
    - intros i Hi'. unfold alive. destruct (decide (i = id)) as [->|]; [rewrite lookup_insert_eq; eauto|by rewrite lookup_insert_ne]. }
  destruct (m (t, link n)) as [[t' l'] [a|e|w]]; [| |done].
  - destruct Hm as [(kids & Ht' & Hkids) HR]. destruct (Hend _ _ _ Ht' Hkids). by apply HQ.
  - destruct Hm as (kids & Ht' & Hkids). destruct (Hend _ _ _ Ht' Hkids). by apply HX.
Qed.

(** ** Calls

    [nserves D k m P]: with the handles of [D] alive and room for [k] in every
    counter, [m] ends, keeps both, and returns a value in [P]. *)

Definition nserves {A} (D : gset nat) (k : Z) (m : NM A) (P : A -> Prop) : Prop :=
  forall J n, (forall i, 0 <= J i) -> net_at D (fun i => J i + k) n -> wp m (fun n' a => net_at D J n' /\ P a) (fun n' _ => net_at D J n') n.

Lemma ns_mono {A} D k (m : NM A) (P P' : A -> Prop) : (forall a, P a -> P' a) -> nserves D k m P -> nserves D k m P'.
Proof. intros HP Hm J n HJ Hn. eapply wp_mono; [by apply Hm| |done]. intros n' a [H1 H2]. auto. Qed.

Lemma ns_true {A} D k (m : NM A) P : nserves D k m P -> nserves D k m (fun _ => True).
Proof. by apply ns_mono. Qed.

Lemma net_down D J k n : (forall i, 0 <= J i) -> 0 <= k -> net_at D (fun i => J i + k) n -> net_at D J n.
Proof. intros HJ Hk. apply net_less. intros i. specialize (HJ i). lia. Qed.

Lemma ns_more {A} D k k' (m : NM A) P : 0 <= k <= k' -> nserves D k m P -> nserves D k' m P.
Proof. intros Hk Hm J n HJ Hn. apply Hm; [done|]. eapply net_less; [|exact Hn]. intros i. cbn. specialize (HJ i). lia. Qed.

Lemma ns_bind {A B} D k k' (m : NM A) (f : A -> NM B) P Q :
  0 <= k -> 0 <= k' -> nserves D k m P -> (forall a, P a -> nserves D k' (f a) Q) -> nserves D (k + k') (bind m f) Q.
Proof.
  intros Hk Hk' Hm Hf J n HJ Hn. apply wp_bind. eapply wp_mono; [apply (Hm (fun i => J i + k'))| |].
  - intros i. specialize (HJ i). lia.
  - eapply net_less; [|exact Hn]. intros i. cbn. specialize (HJ i). lia.
  - intros n' a [H1 H2]. by apply Hf.
  - intros n' e H. by apply (net_down D J k').
Qed.

Lemma ns_bind0 {A B} D (m : NM A) (f : A -> NM B) P Q :
  nserves D 0 m P -> (forall a, P a -> nserves D 0 (f a) Q) -> nserves D 0 (bind m f) Q.
Proof. intros Hm Hf. by apply (ns_bind D 0 0 m f P Q). Qed.

(** The first part needs no room. *)
Lemma ns_then {A B} D k (m : NM A) (f : A -> NM B) P Q :
  0 <= k -> nserves D 0 m P -> (forall a, P a -> nserves D k (f a) Q) -> nserves D k (bind m f) Q.
Proof. intros Hk Hm Hf. by apply (ns_bind D 0 k m f P Q). Qed.

Lemma ns_ret {A} D (a : A) (P : A -> Prop) : P a -> nserves D 0 (ret a) P.
Proof. intros HP J n HJ Hn. apply wp_ret. split; [|done]. apply (net_down D J 0); [done|lia|done]. Qed.

Lemma ns_throw {A} D e (P : A -> Prop) : nserves D 0 (throw e) P.
Proof. intros J n HJ Hn. apply wp_throw. by apply (net_down D J 0). Qed.

Lemma ns_try {A} D k (m : NM A) P : nserves D k m P -> nserves D k (try_ m) (fun _ => True).
Proof. intros Hm J n HJ Hn. apply wp_try. eapply wp_mono; [by apply Hm| |]; [by intros n' a [H _]|by intros n' e H]. Qed.

Lemma ns_gets {A} D (f : Net C -> A) (P : A -> Prop) : (forall J n, net_at D J n -> P (f n)) -> nserves D 0 (gets f) P.
Proof. intros Hf J n HJ Hn. apply wp_gets. pose proof (net_down D J 0 n HJ ltac:(lia) Hn) as H. split; [done|eauto]. Qed.

Lemma ns_modify D f : (forall J n, net_at D J n -> net_at D J (f n)) -> nserves D 0 (modify f) (fun _ => True).
Proof. intros Hf J n HJ Hn. apply wp_modify. split; [|done]. apply Hf. by apply (net_down D J 0). Qed.

(** What does not look at the state. *)
Lemma ns_pure {A} D (m : NM A) (P : A -> Prop) : (forall n, wp m (fun n' a => n' = n /\ P a) (fun _ _ => False) n) -> nserves D 0 m P.
Proof. intros Hm J n HJ Hn. eapply wp_mono; [apply Hm| |done]. intros n' a [-> H]. split; [|done]. by apply (net_down D J 0). Qed.

(** The link below. *)
Lemma net_link D J n l : net_at D J n -> link_ok l -> held_share l = held_share (link n) -> net_at D J (with_link l n).
Proof. intros [[] HD] Hl Hs. split; [|done]. constructor; cbn; try done. congruence. Qed.

Lemma ns_link {A} D (m : M (Link C) Errno A) (P : A -> Prop) :
  (forall cfg share base, safe (in_call cfg share base) (fun l _ => in_call cfg share base l) m P) -> nserves D 0 (on_link_state m) P.
Proof.
  intros Hm J n HJ Hn. assert (Hn' : net_at D J n) by (by apply (net_down D J 0)). pose proof Hn' as [Hok _]. pose proof (nk_link _ _ Hok) as Hl. apply wp_zoom.
  eapply wp_mono; [apply (Hm (config (link n)) (held_share (link n)) (frames (hw (link n)))), in_call_start, Hl| |].
  - intros l a [H1 H2]. split; [|done]. destruct (same_call _ _ H1). by apply net_link.
  - intros l e H. destruct (same_call _ _ H). by apply net_link.
Qed.

(** A method of a control block. *)
Lemma ns_with_tcp {A} D k id (m : TM (N := Link C) A) :
  id ∈ D -> 0 <= k -> (forall others kids, serves (others := others) (kids := kids) k m) -> nserves D k (with_tcp id m) (fun _ => True).
Proof.
  intros Hid Hk Hm J n HJ Hn. pose proof Hn as [Hok HD]. destruct (HD id Hid) as [s Hs]. destruct (inner s) as [t|u] eqn:Ei.
  - assert (Hal : Forall (alive (heap n)) (children t)).
    { pose proof (nk_sockets _ _ Hok id s Hs) as H. unfold socket_ok in H. rewrite Ei in H. tauto. }
    eapply (wp_with_tcp_any D (fun i => J i + k) J id m n s t (fun _ => True)); [done|done|done| | | |done|done].
    + intros i _. cbn. specialize (HJ i). lia.
    + pose proof (nk_room _ _ Hok id) as H. cbn in H. lia.
    + intros others Ht. eapply wp_mono; [apply (Hm others (children t) (J id)); [done|exact Ht]| |]; [intros w' a H; split; [|done]|intros w' e H]; by exists (children t).
  - unfold with_tcp. apply wp_bind. unfold wp, the_socket. rewrite Hs. cbn. rewrite Ei. cbn. apply (net_down D J k); done.
Qed.

(** ** The heap and the table *)

Lemma wp_the_socket D J id n (Q : Net C -> InetSocket -> Prop) X :
  net_at D J n -> id ∈ D -> (forall s, heap n !! id = Some s -> socket_ok (J id) (heap n) s -> Q n s) -> wp (the_socket id) Q X n.
Proof. intros [Hok HD] Hid HQ. destruct (HD id Hid) as [s Hs]. unfold wp, the_socket. rewrite Hs. apply HQ; [done|]. by apply (nk_sockets _ _ Hok). Qed.

Lemma ns_the_socket {A} D k id (f : InetSocket -> NM A) P :
  id ∈ D -> 0 <= k -> (forall s, nserves D k (f s) P) -> nserves D k (let! s := the_socket id in f s) P.
Proof. intros Hid Hk Hf J n HJ Hn. apply wp_bind. eapply wp_the_socket; [exact Hn|done|]. intros s _ _. by apply Hf. Qed.

Lemma net_put D J n id s s' :
  net_at D J n -> heap n !! id = Some s -> socket_held s' = socket_held s -> (forall i, 0 <= J i) -> socket_ok (J id) (heap n) s' ->
  net_at D J (with_heap (<[id := s']> (heap n)) n).
Proof.
  intros Hn Hs Hh HJ Hs'. pose proof Hn as [Hok _].
  pose proof (net_change D J J n (link n) id s s' Hn Hs (nk_link _ _ Hok)) as H. rewrite Hh, <- (held_delete _ _ _ Hs) in H.
  specialize (H (nk_share _ _ Hok)). destruct n. apply H; [|apply (nk_room _ _ Hok)|done]. intros i _. specialize (HJ i). lia.
Qed.

Lemma wp_put_socket D J n id s s' (Q : Net C -> unit -> Prop) X :
  net_at D J n -> heap n !! id = Some s -> socket_held s' = socket_held s -> (forall i, 0 <= J i) -> socket_ok (J id) (heap n) s' ->
  (forall n', net_at D J n' -> Q n' tt) -> wp (put_socket id s') Q X n.
Proof. intros Hn Hs Hh HJ Hs' HQ. apply wp_modify, HQ. by apply (net_put D J n id s). Qed.

Lemma ns_with_udp {A} D id (m : M UdpState Errno A) (P : A -> Prop) :
  id ∈ D -> (forall u, udp_ok u -> wp m (fun u' a => udp_ok u' /\ P a) (fun u' _ => udp_ok u') u) -> nserves D 0 (with_udp id m) P.
Proof.
  intros Hid Hm J n HJ Hn0. assert (Hn : net_at D J n) by (by apply (net_down D J 0)). clear Hn0. unfold with_udp. apply wp_bind. eapply wp_the_socket; [exact Hn|done|].
  intros s Hs Hso. unfold socket_ok in Hso. destruct (inner s) as [t|u] eqn:Ei; [by apply wp_throw|]. destruct Hso as [Hst Hu]. specialize (Hm u Hu). unfold wp in *.
  assert (Hput : forall u', udp_ok u' -> net_at D J (with_heap (<[id := with_inner (ProtoUdp u') s]> (heap n)) n)).
  { intros u' Hu'. apply (net_put D J n id s); [done|done|unfold socket_held; by rewrite Ei|done|]. done. }
  destruct (m u) as [u' [a|e|w]]; [|by apply Hput|done]. destruct Hm as [Hu' Ha]. split; [|done]. by apply Hput.
Qed.

Lemma ns_register D id : id ∈ D -> nserves D 0 (register id) (fun _ => True).
Proof.
  intros Hid. apply ns_modify. intros J n Hn. case_bool_decide as Hin; [done|]. destruct Hn as [[] HD]. split; [|done]. constructor; cbn; try done.
  - apply NoDup_app. split_and!; [done| |apply NoDup_singleton]. intros x Hx ->%list_elem_of_singleton. done.
  - apply Forall_app. split; [done|]. constructor; [by apply HD|constructor].
Qed.

Lemma ns_unregister D id : nserves D 0 (unregister id) (fun _ => True).
Proof.
  apply ns_modify. intros J n [[] HD]. split; [|done]. constructor; cbn; try done.
  - by apply NoDup_filter.
  - apply Forall_forall. intros x [_ Hx]%list_elem_of_filter. by eapply Forall_forall.
Qed.

(** A new handle, fit for [b]. *)
Lemma block_new j : 0 <= j <= u32_max -> block_ok j tcb_new.
Proof.
  intros Hj l Hl Hh. pose proof (fresh_block_ok (others := held_share l - held tcb_new) (kids := children tcb_new) unspecified_endpoint unspecified_endpoint l j) as H.
  assert (He : endpoint_ok unspecified_endpoint) by (vm_compute; repeat split; discriminate).
  specialize (H He He Hj Hl). assert (Ht : fresh unspecified_endpoint unspecified_endpoint = tcb_new) by reflexivity. rewrite Ht in H. apply H.
  - pose proof (lk_share _ Hl). change (held tcb_new) with 0 in *. lia.
  - change (held tcb_new) with 0. change (held_bytes l) with (held_share l). lia.
  - reflexivity.
Qed.

Lemma udp_new_ok : udp_ok udp_new.
Proof. constructor; cbn; try done; try constructor; vm_compute; repeat split; discriminate. Qed.

Lemma net_new D J n b :
  net_at D J n -> (forall i, 0 <= J i) ->
  net_at (D ∪ {[next_handle n]}) J (mkNet (link n) (<[next_handle n := socket_new b]> (heap n)) (S (next_handle n)) (table n) (next_ephemeral n) (delivering n)).
Proof.
  intros [[H1 H2 H3 H4 H5 H6 H7 H8] HD] HJ. set (h := next_handle n) in *.
  assert (Hno : heap n !! h = None) by (destruct (heap n !! h) eqn:E; [|done]; specialize (H3 h ltac:(unfold alive; eauto)); lia).
  assert (Hal : forall i, alive (heap n) i -> alive (<[h := socket_new b]> (heap n)) i).
  { intros i Hi. unfold alive. destruct (decide (i = h)) as [->|]; [rewrite lookup_insert_eq; eauto|by rewrite lookup_insert_ne]. }
  split; cbn [heap].
  - constructor; cbn [link heap next_handle table next_ephemeral]; try done.
    + rewrite held_insert by done. rewrite H2. destruct b; cbn; lia.
    + intros i [x Hi]. destruct (decide (i = h)) as [->|]; [lia|]. rewrite lookup_insert_ne in Hi by done. specialize (H3 i ltac:(unfold alive; eauto)). lia.
    + intros i x. destruct (decide (i = h)) as [->|].
      * rewrite lookup_insert_eq. intros [= <-]. destruct b; unfold socket_ok; cbn [socket_new inner stream].
        -- split_and!; [done|apply block_new; split; [apply HJ|apply H8]|done|constructor].
        -- split; [done|apply udp_new_ok].
      * rewrite lookup_insert_ne by done. intros Hx. apply (socket_alive _ (heap n)); auto.
    + eapply Forall_impl; [exact H6|done].
  - intros i [Hi|Hi]%elem_of_union; [by apply Hal, HD|]. apply elem_of_singleton in Hi as ->. unfold alive. rewrite lookup_insert_eq. eauto.
Qed.
End spec.
