(* ===== verification/SocketsServe.v ===== *)
(** * Every call on the sockets serves

    What arrives, what programs ask for and what the clock makes due, each keeps
    [net_ok] and ends without a panic. *)

From S2P Require Import Prelude Safe Words Packets PacketSpec Config Tcp TcpInput TcpRuns TcpBounds TcpServes Link LinkSpec Udp Sockets SocketsSpec.

Section serve.
Context {C : Type} {HM : Machine C} {HMok : MachineOk C} {HS : Sorter} {HSok : SorterOk}.
Abbreviation NM := (M (Net C) Errno).
Abbreviation moves m P := (forall cfg share base, safe (in_call cfg share base) (fun (l : Link C) (_ : Errno) => in_call cfg share base l) m P).
Implicit Types (n : Net C) (id : nat) (D : gset nat) (J : nat -> Z).

(** A condition that is decided only by values. *)
Ltac fits := first [done | vm_compute; split; discriminate | lia].

(** ** Lookups *)

Lemma find_socket_alive hit n id : find_socket hit n = Some id -> alive (heap n) id /\ id ∈ table n.
Proof.
  unfold find_socket. intros H. destruct (list_find _ _) as [[i x]|] eqn:E; [|done]. injection H as <-. apply list_find_Some in E as (Hi & Hx & _).
  split; [|by eapply list_elem_of_lookup_2]. unfold hits in Hx. unfold alive. destruct (heap n !! x); [eauto|done].
Qed.

Lemma first_best_alive best hit n id : first_best best hit n = Some id -> alive (heap n) id.
Proof. unfold first_best. destruct (find_socket best n) eqn:E; [intros [= <-]|intros H]; by eapply find_socket_alive. Qed.

(** A handle the state leads to is alive from there on. *)
Lemma ns_found {A} D k (f : Net C -> option nat) (g : option nat -> NM A) P :
  0 <= k -> (forall n id, f n = Some id -> alive (heap n) id) ->
  nserves D k (g None) P -> (forall id, nserves (D ∪ {[id]}) k (g (Some id)) P) ->
  nserves D k (let! found := gets f in g found) P.
Proof.
  intros Hk Hf Hnone Hsome J n HJ Hn. apply wp_bind, wp_gets. destruct (f n) as [id|] eqn:E; [|by apply Hnone].
  eapply wp_mono; [apply (Hsome id J n HJ), net_more; [done|by apply Hf]| |].
  - intros n' a [H1 H2]. split; [|done]. eapply net_fewer; [|exact H1]. set_solver.
  - intros n' e H. eapply net_fewer; [|exact H]. set_solver.
Qed.

(** ** Segments for no socket *)

Lemma moves_send_reset here there g :
  endpoint_ok here -> endpoint_ok there -> segment_ok g -> len (Segment.payload g) <= 65535 -> moves (send_reset here there g) (fun _ => True).
Proof.
  intros Hh Ht Hg Hl cfg share base. unfold send_reset. eapply (safe_bind _ _ _ _ (fun r => is_u8 r.2)).
  { destruct (Segment.has _ Segment.ACK); [apply safe_ret; fits|]. eapply (safe_bind _ _ _ _ (fun _ => True)); [|intros; apply safe_ret; fits].
    apply moves_pure. intros l. unfold Segment.seq_length. apply wp_checked; [|done]. unfold as_u32, u32_max.
    destruct (Segment.has _ Segment.SYN), (Segment.has _ Segment.FIN); lia. }
  intros [[sequence acknowledgement] flags] Hf. cbn [snd] in Hf.
  eapply (safe_bind _ _ _ _ (fun r => match r with inl a => is_u32 a | inr _ => True end)).
  { intros l Hl'. apply wp_try. destruct (Ip.is_unspecified _).
    - eapply wp_mono; [by apply moves_source_for| |]; done.
    - apply wp_ret. split; [done|apply Hh]. }
  intros [from|e] Hfrom; [|by apply safe_ret]. eapply (safe_bind _ _ _ _ (Forall is_u8)).
  - apply moves_pure. intros l.
    destruct (@tcp_build_spec (Link C) Errno (mkEndpoint from (port here)) there sequence acknowledgement flags 0 None [] l) as (c & Hc & _ & E);
      [split; [done|apply Hh]|done|done|constructor|cbn; lia|].
    eapply wp_fun; [exact E|]. split; [done|]. apply field_bytes; [by apply tcp_front_bytes|by apply tcp_back_bytes].
  - intros reply Hr. eapply safe_bind; [eapply moves_try, moves_send_from; [fits|done]|intros; by apply safe_ret].
Qed.

(** ** New connections *)

(** A change of a block that leaves what is bounded alone. *)
Lemma ns_update D id (f : Tcb -> Tcb) :
  id ∈ D -> (forall others kids, serves (N := Link C) (others := others) (kids := kids) 0 (update f)) -> nserves D 0 (with_tcp id (update f)) (fun _ => True).
Proof. intros Hid Hf. by apply ns_with_tcp. Qed.

Lemma ns_children D id (f : list nat -> list nat) :
  id ∈ D -> (forall J n kids, net_at D J n -> Forall (alive (heap n)) kids -> Forall (alive (heap n)) (f kids)) ->
  nserves (C := C) D 0 (with_tcp id (update (fun t => set_children (f (children t)) t))) (fun _ => True).
Proof.
  intros Hid Hf J n HJ Hn0. assert (Hn : net_at D J n) by (by apply (net_down D J 0)). clear Hn0. pose proof Hn as [Hok HD]. destruct (HD id Hid) as [s Hs].
  destruct (inner s) as [t|u] eqn:Ei.
  - destruct (block_here _ _ _ _ _ Hok Hs Ei) as (_ & _ & Hal).
    eapply (wp_with_tcp_any D J J id _ n s t (fun _ => True)); [done|done|done| | | |done|done].
    + intros i _. specialize (HJ i). lia.
    + apply (nk_room _ _ Hok).
    + intros others Ht. apply wp_modify. split; [|done]. exists (f (children t)). split; [|by eapply Hf]. destruct Ht. constructor; done.
  - unfold with_tcp. apply wp_bind. unfold wp, the_socket. rewrite Hs. cbn. rewrite Ei. done.
Qed.

Lemma ns_fewer {A} D D' k (m : NM A) P J n :
  nserves D' k m P -> D ⊆ D' -> (forall i, 0 <= J i) -> net_at D' (fun i => J i + k) n ->
  wp m (fun n' a => net_at D J n' /\ P a) (fun n' _ => net_at D J n') n.
Proof.
  intros Hm HD HJ Hn. eapply wp_mono; [by apply Hm| |].
  - intros n' a [H1 H2]. split; [|done]. by eapply net_fewer.
  - intros n' e H. by eapply net_fewer.
Qed.

Lemma serves_set_ends others kids here there :
  endpoint_ok here -> endpoint_ok there -> serves (N := Link C) (others := others) (kids := kids) 0 (update (fun t => set_bound true (set_remote there (set_local here t)))).
Proof. intros Hh Ht. apply serves_update. intros j t l []. constructor; done. Qed.

Lemma ns_accept_connection D id here there g :
  id ∈ D -> endpoint_ok here -> endpoint_ok there -> segment_ok g -> nserves D 0 (accept_connection id here there g) (fun _ => True).
Proof.
  intros Hid Hh Ht Hg. unfold accept_connection. apply ns_the_socket; [done|lia|]. intros s. destruct (negb _); [by apply ns_ret|].
  intros J n HJ Hn0. assert (Hn : net_at D J n) by (by apply (net_down D J 0)). clear Hn0. apply wp_bind, wp_state. cbn [fst snd]. set (child := next_handle n).
  apply (ns_fewer D (D ∪ {[child]}) 0); [|set_solver|done|].
  2:{ pose proof (net_new D J n true Hn HJ) as H. eapply net_less; [|exact H]. intros i. specialize (HJ i). lia. }
  assert (Hc : child ∈ D ∪ {[child]}) by set_solver. assert (Hi : id ∈ D ∪ {[child]}) by set_solver.
  eapply ns_bind0; [apply ns_with_tcp; [done|lia|]|intros [] _].
  { intros others kids. apply serves_bind0; [by apply serves_set_ends|intros _]. by apply serves_accept_open. }
  eapply ns_bind0; [by apply ns_register|intros [] _]. eapply ns_bind0; [apply (ns_children _ _ (fun kids => kids ++ [child])); [done|]|intros [] _].
  { intros J' n' kids [_ HD'] Hk. apply Forall_app. split; [done|]. constructor; [by apply HD'|constructor]. }
  apply ns_with_tcp; [done|lia|]. intros. apply serves_send_syn_ack.
Qed.

(** ** What arrives *)

Lemma ns_parse_segment D bytes :
  Forall is_u8 bytes -> nserves (C := C) D 0 (Segment.parse bytes) (fun r => match r with Some g => segment_ok g /\ len (Segment.payload g) <= len bytes - 20 | None => True end).
Proof. intros Hb. apply ns_pure. intros n. by apply segment_parse_safe. Qed.

Lemma ns_checksum {A} D k source destination bytes (f : Z -> NM A) P :
  0 <= k -> is_u32 source -> is_u32 destination -> Forall is_u8 bytes -> len bytes <= 65535 -> (forall sum, nserves D k (f sum) P) ->
  nserves D k (let! pseudo := Ip.pseudo_sum source destination Ip.PROTO_TCP (len bytes) in let! total := Ip.sum bytes pseudo in let! sum := Ip.fold total in f sum) P.
Proof.
  intros Hk Hs Hd Hb Hl Hf J n HJ Hn. assert (Hp : is_u8 Ip.PROTO_TCP) by fits. pose proof (psum_bounds source destination Ip.PROTO_TCP (len bytes) Hs Hd Hp ltac:(lia)).
  pose proof (wsum_bounds bytes Hb). apply wp_bind. eapply wp_fun; [apply pseudo_spec; [done..|lia]|]. apply wp_bind. eapply wp_fun; [apply sum_spec; [done|lia|unfold u32_max; lia]|].
  apply wp_bind. eapply wp_fun; [apply fold_spec; unfold u32_max; lia|]. by apply Hf.
Qed.

Lemma ns_tcp_receive D source destination bytes :
  is_u32 source -> is_u32 destination -> Forall is_u8 bytes -> len bytes <= 65535 -> nserves D 3 (tcp_receive source destination bytes) (fun _ => True).
Proof.
  intros Hs Hd Hb Hl. assert (Hr : nserves (C := C) D 3 (ret tt) (fun _ => True)) by (apply (ns_more D 0); [lia|by apply ns_ret]).
  unfold tcp_receive. eapply ns_then; [lia|by apply ns_parse_segment|]. intros [g|] Hg; [|done]. destruct Hg as [Hg Hgl].
  apply ns_checksum; [lia|done|done|done|done|]. intros sum. destruct (negb _); [done|].
  eapply ns_then; [lia|by apply (ns_gets _ _ (fun _ => True))|]. intros c _. destruct (_ || _); [done|].
  set (here := mkEndpoint destination _). set (there := mkEndpoint source _).
  assert (Hh : endpoint_ok here) by (split; [done|apply Hg]). assert (Ht : endpoint_ok there) by (split; [done|apply Hg]).
  assert (Hreset : nserves (C := C) D 3 (if Segment.has (Segment.flags g) Segment.RST then ret tt else on_link_state (send_reset here there g)) (fun _ => True)).
  { apply (ns_more D 0); [lia|]. destruct (Segment.has _ _); [by apply ns_ret|]. apply ns_link, moves_send_reset; [done|done|done|lia]. }
  apply ns_found; [lia|intros n id H; by eapply find_socket_alive| |].
  - destruct (_ && _); [|done]. apply ns_found; [lia|intros n id H; by eapply first_best_alive|done|].
    intros id. apply (ns_more _ 0); [lia|]. apply ns_accept_connection; [set_solver|done|done|done].
  - intros id. apply (ns_bind _ 3 0 _ _ (fun _ => True)); [lia|lia| |intros; by apply ns_ret].
    apply ns_with_tcp; [set_solver|lia|]. intros. apply serves_on_segment; [done|lia].
Qed.

Lemma ns_udp_arrive D source destination bytes :
  is_u32 source -> is_u32 destination -> Forall is_u8 bytes -> len bytes <= 65535 -> nserves (C := C) D 0 (udp_arrive source destination bytes) (fun _ => True).
Proof.
  intros Hs Hd Hb Hl. unfold udp_arrive. eapply ns_bind0; [apply ns_pure; intros n; by apply udp_parse_safe|].
  intros [[[from to] data]|] Hp; [|by apply ns_ret]. cbv beta in Hp. apply ns_found; [lia|intros n id H; by eapply first_best_alive|by apply ns_ret|].
  intros id. apply ns_with_udp; [set_solver|]. intros u Hu. destruct Hp as (<- & _ & H1 & _ & H2 & H3).
  apply wp_enqueue; [done|done|done|unfold QUEUE_BYTES; lia|]. done.
Qed.

Lemma moves_icmp_receive source destination message :
  Forall is_u8 message -> len message <= 65535 -> moves (icmp_receive source destination message) (fun _ => True).
Proof.
  intros Hb Hl cfg share base. unfold icmp_receive, Icmp.HEADER_LEN. destruct (_ <? 8) eqn:E8; [by apply safe_ret|]. apply Z.ltb_ge in E8.
  eapply (safe_bind _ _ _ _ (fun _ => True)).
  { apply moves_pure. intros l. eapply wp_fun; [apply checksum_spec; [done|lia]|]. done. }
  intros sum _. destruct (negb _); [by apply safe_ret|]. do 2 (eapply (safe_bind _ _ _ _ (fun _ => True)); [apply moves_pure; intros l; apply wp_index; [lia|done]|intros ? _]).
  destruct (_ || _); [by apply safe_ret|]. eapply safe_bind; [apply moves_config|]. intros c _. destruct (negb _); [by apply safe_ret|].
  eapply (safe_bind _ _ _ _ (fun rest => Forall is_u8 rest /\ length rest = 4%nat)).
  { apply moves_pure. intros l. apply wp_slice; [lia|lia|]. split; [done|]. split; [by apply Forall_take, Forall_drop|]. rewrite length_take, length_drop. lia. }
  intros rest [Hr Hrl]. eapply (safe_bind _ _ _ _ (fun body => Forall is_u8 body /\ len body <= 65527)).
  { apply moves_pure. intros l. apply wp_slice; [lia|lia|]. split; [done|]. split; [by apply Forall_take, Forall_drop|]. rewrite length_take, length_drop. lia. }
  intros body [Hbo Hbl]. eapply (safe_bind _ _ _ _ (Forall is_u8)).
  { apply moves_pure. intros l. unfold Icmp.build. 
    assert (Hm : Forall is_u8 ([Icmp.TYPE_ECHO_REPLY; 0] ++ [0; 0] ++ rest ++ body)).
    { rewrite !Forall_app. split_and!; [apply two_bytes; fits|apply two_bytes; fits|done|done]. }
    apply wp_bind. eapply wp_fun; [apply checksum_spec; [exact Hm|rewrite !length_app; cbn; lia]|]. apply wp_ret. split; [done|].
    unfold splice. rewrite !Forall_app. split_and!; [by apply Forall_take|apply be16_bytes|by apply Forall_drop]. }
  intros reply Hrep. eapply safe_bind; [eapply moves_try, moves_send_from; [fits|done]|intros; by apply safe_ret].
Qed.

Lemma ns_ip_receive D bytes source_mac origin : Forall is_u8 bytes -> mac_ok source_mac -> nserves D 3 (ip_receive bytes source_mac origin) (fun _ => True).
Proof.
  intros Hb Hm. assert (Hr : nserves (C := C) D 3 (ret tt) (fun _ => True)) by (apply (ns_more D 0); [lia|by apply ns_ret]).
  unfold ip_receive. eapply ns_then; [lia|apply ns_pure; intros n; by apply ip_parse_safe|]. intros [[h payload]|] Hp; [|done]. cbv beta in Hp.
  destruct Hp as (Hs & Hd & Hpr & Hpay & H1 & H2 & H3). eapply ns_then; [lia|by apply (ns_gets _ _ (fun _ => True))|]. intros c _. destruct (negb _); [done|].
  eapply ns_then; [lia| |intros _ _].
  { destruct (_ && _); [|by apply (ns_ret _ _ (fun _ => True))]. apply ns_link. intros. by apply moves_learn. }
  destruct (Ip.is_fragment h); [done|].
  destruct (_ =? _); [apply (ns_more D 0); [lia|]; apply ns_link, moves_icmp_receive; [done|lia]|].
  destruct (_ =? _); [apply (ns_more D 0); [lia|]; apply ns_udp_arrive; [done|done|done|lia]|].
  destruct (_ =? _); [|done]. apply ns_tcp_receive; [done|done|done|lia].
Qed.

(** ** Talking to ourselves *)

Lemma moves_set_loopback q : len q <= LOOPBACK_LIMIT -> Forall datagram_ok q -> moves (modify (with_loopback q)) (fun _ => True).
Proof. intros Hl Hq cfg share base. apply safe_modify; [|done]. intros l ([] & H1 & H2 & H3). split_and!; try done. Qed.

Lemma ns_deliver_some D turns : nserves D (3 * Z.of_nat turns) (deliver_some turns) (fun _ => True).
Proof.
  induction turns as [|turns IH]; cbn [deliver_some]; [by apply ns_ret|].
  eapply (ns_then _ _ _ _ (fun q => len q <= LOOPBACK_LIMIT /\ Forall datagram_ok q)); [lia|apply ns_gets; intros J n [H _]; by destruct (nk_link _ _ H)|].
  intros [|d rest] [Hl Hq]; [apply (ns_more D 0); [lia|by apply ns_ret]|]. apply Forall_cons in Hq as [[Hd _] Hq]. cbn [length] in Hl.
  eapply ns_then; [lia|apply ns_link, moves_set_loopback; [lia|done]|intros [] _]. eapply ns_then; [lia|apply ns_link; intros; apply moves_mac|intros m Hm].
  replace (3 * Z.of_nat (S turns)) with (3 + 3 * Z.of_nat turns) by lia. apply (ns_bind _ 3 _ _ _ (fun _ => True)); [lia|lia|by apply ns_ip_receive|done].
Qed.

(** Room for a whole delivery. *)
Definition DELIVERY : Z := 3 * LOOPBACK_LIMIT.

Lemma ns_delivering D b : nserves (C := C) D 0 (modify (with_delivering b)) (fun _ => True).
Proof. apply ns_modify. intros J n [[] HD]. split; [|done]. constructor; done. Qed.

Lemma ns_deliver_loopback D : nserves D DELIVERY deliver_loopback (fun _ => True).
Proof.
  unfold deliver_loopback, DELIVERY. eapply ns_then; [unfold LOOPBACK_LIMIT; lia|by apply (ns_gets _ _ (fun _ => True))|]. intros running _.
  eapply ns_then; [unfold LOOPBACK_LIMIT; lia|apply ns_delivering|intros [] _]. destruct running; [apply (ns_more D 0); [unfold LOOPBACK_LIMIT; lia|by apply ns_ret]|].
  replace (3 * LOOPBACK_LIMIT) with (3 * Z.of_nat (Z.to_nat LOOPBACK_LIMIT) + 0) by (unfold LOOPBACK_LIMIT; lia).
  apply (ns_bind _ _ 0 _ _ (fun _ => True)); [lia|lia|apply ns_deliver_some|]. intros [] _. apply ns_delivering.
Qed.

Lemma ns_poll D : nserves D DELIVERY poll (fun _ => True).
Proof.
  unfold poll. eapply ns_then; [unfold DELIVERY, LOOPBACK_LIMIT; lia|by apply (ns_gets _ _ (fun _ => True))|]. intros q _.
  case_bool_decide; [|apply ns_deliver_loopback]. apply (ns_more D 0); [unfold DELIVERY, LOOPBACK_LIMIT; lia|by apply ns_ret].
Qed.

(** ** Ports *)

Lemma ns_ephemeral D p : is_u16 p -> nserves (C := C) D 0 (modify (with_ephemeral p)) (fun _ => True).
Proof. intros Hp. apply ns_modify. intros J n [[] HD]. split; [|done]. constructor; done. Qed.

Lemma ns_try_ports D turns kind : nserves (C := C) D 0 (try_ports turns kind) (fun p => EPHEMERAL_FIRST <= p <= EPHEMERAL_LAST).
Proof.
  induction turns as [|turns IH]; cbn [try_ports]; [apply ns_throw|]. eapply ns_bind0; [apply (ns_gets _ _ is_u16); intros J n [[] _]; done|]. intros drawn Hd.
  eapply ns_bind0; [apply ns_ephemeral; unfold is_u16, as_u16, u16_max; lia|intros [] _].
  eapply (ns_bind0 _ _ _ (fun p => EPHEMERAL_FIRST <= p <= EPHEMERAL_LAST)).
  { destruct (_ <? _) eqn:E; [|apply ns_ret; unfold EPHEMERAL_FIRST, EPHEMERAL_LAST, is_u16, u16_max in *; lia].
    eapply ns_bind0; [apply ns_ephemeral; unfold EPHEMERAL_FIRST; fits|intros [] _]. apply ns_ret. unfold EPHEMERAL_FIRST, EPHEMERAL_LAST. lia. }
  intros p Hp. eapply ns_bind0; [by apply (ns_gets _ _ (fun _ => True))|]. intros [] _; [done|by apply ns_ret].
Qed.

(** ** What programs ask for *)

(** A block or a queue changed in place. *)
Lemma block_change j t f :
  (forall others kids l, tcp_ok (N := Link C) (others := others) (kids := kids) j (t, l) -> tcp_ok (others := others) (kids := kids) j (f t, l)) ->
  held (f t) = held t -> children (f t) = children t -> block_ok (C := C) j t -> block_ok (C := C) j (f t).
Proof. intros Hf Hh Hc Hb l Hl Hs. rewrite Hh, Hc in *. by apply Hf, Hb. Qed.

Lemma ns_bind_socket D id requested : id ∈ D -> endpoint_ok requested -> nserves D 0 (bind_ id requested) (fun _ => True).
Proof.
  intros Hid Hr. unfold bind_. eapply ns_bind0; [by apply (ns_gets _ _ (fun _ => True))|]. intros c _. destruct (negb _); [apply ns_throw|].
  apply ns_the_socket; [done|lia|]. intros s0. eapply (ns_bind0 _ _ _ is_u16).
  { destruct (_ =? 0).
    - eapply ns_mono; [|apply ns_try_ports]. unfold EPHEMERAL_FIRST, EPHEMERAL_LAST, is_u16, u16_max. lia.
    - eapply ns_bind0; [by apply (ns_gets _ _ (fun _ => True))|]. intros [] _; [apply ns_throw|apply ns_ret, Hr]. }
  intros number Hn. set (here := mkEndpoint _ number). assert (Hh : endpoint_ok here) by (split; [apply Hr|done]).
  intros J n HJ Hn0. assert (Hnet : net_at D J n) by (by apply (net_down D J 0)). clear Hn0. apply wp_bind. eapply wp_the_socket; [exact Hnet|done|].
  intros s Hs Hso. unfold socket_ok in Hso. apply wp_bind.
  assert (Hend : forall n', net_at D J n' -> wp (register id) (fun n' a => net_at D J n' /\ True) (fun n' _ => net_at D J n') n').
  { intros n' Hn'. apply ns_register; [done|done|]. eapply net_less; [|exact Hn']. intros i. specialize (HJ i). lia. }
  destruct (inner s) as [t|u] eqn:Ei.
  - destruct Hso as (Hst & Hb & Hhe & Hk). destruct (_ || _); [by apply wp_throw|].
    eapply wp_put_socket; [exact Hnet|exact Hs|unfold socket_held; by rewrite Ei|done| |exact Hend]. unfold socket_ok. cbn. split_and!; [done| |done|done].
    apply (block_change _ t (fun t => set_bound true (set_local here t))); [|done|done|done]. intros others kids l []. constructor; done.
  - destruct Hso as [Hst Hu]. destruct (u_bound u); [by apply wp_throw|].
    eapply wp_put_socket; [exact Hnet|exact Hs|unfold socket_held; by rewrite Ei|done| |exact Hend]. unfold socket_ok. cbn. split; [done|]. destruct Hu. constructor; done.
Qed.

Lemma ns_bind_ephemeral D id : id ∈ D -> nserves D 0 (bind_ephemeral id) (fun _ => True).
Proof.
  intros Hid. unfold bind_ephemeral. apply ns_the_socket; [done|lia|]. intros s. destruct (negb _); [by apply ns_ret|].
  apply ns_bind_socket; [done|]. vm_compute. repeat split; discriminate.
Qed.

Ltac block := apply serves_update; intros ? ? ? []; constructor; done.

Lemma ns_listen D id b : id ∈ D -> nserves D 0 (listen id b) (fun _ => True).
Proof.
  intros Hid. unfold listen. apply ns_the_socket; [done|lia|]. intros s. destruct (negb _); [apply ns_throw|].
  eapply ns_bind0; [by apply ns_bind_ephemeral|intros [] _]. apply ns_with_tcp; [done|lia|]. intros others kids.
  apply serves_bind0; [apply serves_gets|]. intros t. destruct (tstate t); first [apply serves_throw | block].
Qed.

Lemma ns_sort_children D kids : Forall (fun id => id ∈ D) kids ->
  nserves (C := C) D 0 (sort_children kids) (fun r => Forall (fun id => id ∈ D) r.1 /\ (forall id, r.2 = Some id -> id ∈ kids)).
Proof.
  induction kids as [|child rest IH]; intros Hk; cbn [sort_children]; [apply ns_ret; split; [constructor|done]|]. apply Forall_cons in Hk as [Hc Hk].
  eapply ns_bind0; [apply (ns_with_tcp D 0 child self); [done|lia|]; intros; apply serves_gets|]. intros t _.
  eapply ns_bind0; [by apply IH|]. intros [dead ready] [H1 H2]. cbn [fst snd] in *. case_bool_decide; [apply ns_ret; cbn; split; [by constructor|]; intros id Hid%H2; set_solver|].
  destruct (is_synchronised _); apply ns_ret; cbn; (split; [done|]).
  - intros id [= <-]. set_solver.
  - intros id Hid%H2. set_solver.
Qed.

(** The children of a listener, alive when they are read. *)
Lemma wp_read_children D J id n (m : TM (N := Link C) (list nat)) (Q : Net C -> list nat -> Prop) :
  net_at D J n -> id ∈ D -> (forall i, 0 <= J i) ->
  (forall others t l kids, tcp_ok (others := others) (kids := kids) (J id) (t, l) ->
     wp m (fun w' r => tcp_ok (others := others) (kids := kids) (J id) w' /\ r = kids) (fun w' _ => tcp_ok (others := others) (kids := kids) (J id) w') (t, l)) ->
  (forall n' kids, net_at (D ∪ list_to_set kids) J n' -> Q n' kids) -> wp (with_tcp id m) Q (fun n' _ => net_at D J n') n.
Proof.
  intros Hn Hid HJ Hm HQ. pose proof Hn as [Hok HD]. destruct (HD id Hid) as [s Hs]. destruct (inner s) as [t|u] eqn:Ei.
  2:{ unfold with_tcp. apply wp_bind. unfold wp, the_socket. rewrite Hs. cbn. rewrite Ei. done. }
  destruct (block_here _ _ _ _ _ Hok Hs Ei) as (_ & _ & Hal).
  eapply (wp_with_tcp_any D J J id m n s t (fun r => r = children t)); [done|done|done|intros i _; specialize (HJ i); lia|apply (nk_room _ _ Hok)| | |done].
  - intros others Ht. eapply wp_mono; [by apply Hm| |].
    + intros w' r [H1 H2]. split; [|done]. by exists (children t).
    + intros w' e H. by exists (children t).
  - intros n' r Hn' Hgrow ->. apply HQ. split; [apply Hn'|]. intros i [Hi|Hi]%elem_of_union; [by apply Hn'|].
    apply Hgrow. rewrite Forall_forall in Hal. apply Hal. by apply elem_of_list_to_set in Hi.
Qed.
End serve.

(** * The rest of the calls on sockets, and the clock *)

Section calls.
Context {C : Type} {HM : Machine C} {HMok : MachineOk C} {HS : Sorter} {HSok : SorterOk}.
Abbreviation NM := (M (Net C) Errno).
Implicit Types (n : Net C) (id : nat) (D : gset nat) (J : nat -> Z).

Ltac room := unfold DELIVERY, LOOPBACK_LIMIT; lia.

Lemma net_same D J n : net_at D J n -> (forall i, 0 <= J i) -> net_at (C := C) D (fun i => J i + 0) n.
Proof. intros Hn HJ. eapply net_less; [|exact Hn]. intros i. cbn. specialize (HJ i). lia. Qed.

(** The handle a call hands out. *)
Definition handed (r : option nat) : gset nat := match r with Some id => {[id]} | None => ∅ end.

Lemma ns_unregister_all D ids : nserves (C := C) D 0 (mapM_ unregister ids) (fun _ => True).
Proof. induction ids as [|id ids IH]; cbn [mapM_]; [by apply ns_ret|]. eapply ns_bind0; [apply ns_unregister|done]. Qed.

(** [nserves] for a call that hands out a handle. *)
Definition hands D k (m : NM (option nat)) : Prop :=
  forall J n, (forall i, 0 <= J i) -> net_at D (fun i => J i + k) n -> wp m (fun n' r => net_at (D ∪ handed r) J n') (fun n' _ => net_at D J n') n.

Lemma hands_accept_ready D id : id ∈ D -> hands D DELIVERY (accept_ready id).
Proof.
  intros Hid J n HJ Hn. unfold accept_ready. apply wp_bind. eapply wp_mono; [by apply (ns_poll D J)| |done]. intros n1 [] [Hn1 _].
  apply wp_bind. eapply wp_read_children; [exact Hn1|done|done| |].
  { intros others t l kids Ht. apply wp_bind, wp_gets. cbn [fst]. case_bool_decide; [apply wp_ret|by apply wp_throw]. split; [done|]. exact (ok_children _ _ Ht). }
  intros n2 kids Hn2. set (D' := D ∪ list_to_set kids) in *. assert (Hkids : Forall (fun i => i ∈ D') kids) by (apply Forall_forall; intros i Hi; unfold D'; rewrite elem_of_union, elem_of_list_to_set; by right).
  assert (HD : forall n' r, net_at D' J n' -> (forall i, r = Some i -> i ∈ kids) -> net_at (D ∪ handed r) J n').
  { intros n' r Hn' Hr. eapply net_fewer; [|exact Hn']. unfold D'. destruct r as [i|]; cbn; [|set_solver]. specialize (Hr i eq_refl). intros x [Hx|Hx]%elem_of_union; [set_solver|].
    apply elem_of_singleton in Hx as ->. rewrite elem_of_union, elem_of_list_to_set. by right. }
  apply wp_bind. eapply wp_mono; [apply (ns_sort_children D' kids Hkids J n2 HJ); by apply net_same| |intros n' e H; eapply net_fewer; [|exact H]; set_solver].
  intros n3 [dead ready] [Hn3 [Hdead Hready]]. cbn [fst snd] in *.
  assert (Hrest : nserves D' 0 ((if negb (bool_decide (dead = [])) || negb (bool_decide (ready = None)) then
     with_tcp id (update (fun t => set_children (filter (fun child => (child ∉ dead) /\ ready <> Some child) (children t)) t))
     else ret tt) ;;; mapM_ unregister dead ;;; ret ready) (fun r => r = ready)).
  { eapply ns_bind0; [|intros [] _; eapply ns_bind0; [apply ns_unregister_all|intros [] _; by apply ns_ret]].
    destruct (_ || _); [|by apply (ns_ret _ _ (fun _ => True))].
    apply (ns_children _ _ (fun kids => filter (fun child => (child ∉ dead) /\ ready <> Some child) kids)); [set_solver|]. intros J' n' ks _ Hk. apply Forall_forall. intros x [_ Hx]%list_elem_of_filter. rewrite Forall_forall in Hk. auto. }
  eapply wp_mono; [apply (Hrest J n3 HJ); by apply net_same| |intros n' e H; eapply net_fewer; [|exact H]; set_solver]. intros n4 r [Hn4 ->]. by apply HD.
Qed.

Lemma ns_connect D id to : id ∈ D -> endpoint_ok to -> nserves D DELIVERY (connect id to) (fun _ => True).
Proof.
  intros Hid Hto. unfold connect. assert (Hd : 0 <= 0 <= DELIVERY) by room. destruct (_ || _); [apply (ns_more D 0); [done|apply ns_throw]|].
  apply ns_the_socket; [done|room|]. intros s. destruct (negb _).
  { apply (ns_more D 0); [done|]. eapply ns_bind0; [by apply ns_bind_ephemeral|intros [] _]. apply ns_with_udp; [done|]. intros u Hu. apply wp_modify. split; [|done].
    destruct Hu. constructor; cbn; try done. by constructor. }
  destruct (_ || _); [apply (ns_more D 0); [done|apply ns_throw]|]. eapply ns_then; [room|apply ns_link; intros; apply moves_source_for|]. intros source Hs.
  eapply ns_then; [room|by apply ns_bind_ephemeral|intros [] _]. intros J n HJ Hn. apply wp_bind. eapply wp_the_socket; [exact Hn|done|]. intros s' Hs' Hso.
  assert (Hport : is_u16 (port (local_endpoint s'))).
  { unfold local_endpoint. pose proof Hn as [Hok _]. destruct (inner s') as [t|u] eqn:Ei.
    - destruct (block_here _ _ _ _ _ Hok Hs' Ei) as (Ht & _). apply (ok_local _ _ Ht).
    - unfold socket_ok in Hso. rewrite Ei in Hso. apply (ud_local _ (proj2 Hso)). }
  revert J n HJ Hn Hs' Hso. assert (Hrest : nserves D DELIVERY (with_tcp id (
        let! t := self in
        match tstate t with
        | Closed => update (fun t => set_remote to (set_local (mkEndpoint source (port (local_endpoint s'))) t)) ;;; open
        | SynSent => throw EALREADY
        | Listen => throw EINVAL
        | _ => throw EISCONN
        end) ;;; poll) (fun _ => True)); [|intros J n HJ Hn _ _; by apply Hrest].
  eapply ns_then; [room| |intros [] _; apply ns_poll]. apply ns_with_tcp; [done|lia|]. intros others kids. apply serves_bind0; [apply serves_gets|].
  intros t. destruct (tstate t); try apply serves_throw. apply serves_bind0; [|intros _; apply serves_open].
  apply serves_update. intros j t' l []. constructor; done.
Qed.

Lemma ns_send D id buf to : id ∈ D -> Forall is_u8 buf -> len buf <= 2 ^ 62 -> option_Forall endpoint_ok to -> nserves D 0 (send id buf to) (fun _ => True).
Proof.
  intros Hid Hb Hl Hto J n HJ Hn. unfold send. apply wp_bind. eapply wp_the_socket; [exact Hn|done|]. intros s Hs Hso. unfold socket_ok in Hso. destruct (inner s) as [t|u].
  - apply (ns_with_tcp D 0 id (write buf)); [done|lia| |done|done]. intros. by apply serves_write.
  - apply (ns_link D (udp_send u buf to) (fun _ => True)); [|done|done]. intros. apply moves_udp_send; try done. apply Hso.
Qed.

(** What comes with a sender is a datagram. *)
Lemma ns_receive_into D id room peek : id ∈ D -> nserves D 0 (receive_into id room peek) (fun r => r_from r <> None -> Forall is_u8 (r_data r) /\ len (r_data r) <= 2 ^ 62).
Proof.
  intros Hid. unfold receive_into. apply ns_the_socket; [done|lia|]. intros s. destruct (inner s).
  - eapply ns_bind0; [apply ns_with_tcp; [done|lia|]; intros; apply serves_read|]. intros. by apply ns_ret.
  - apply ns_with_udp; [done|]. intros u0 Hu. by apply wp_udp_receive.
Qed.

(** A call that looks at the socket and may put another block in its place. *)
Lemma ns_put_block {A} D id (f : Tcb -> Tcb) (m : InetSocket -> NM A) (P : A -> Prop) :
  id ∈ D -> (forall others kids j t l, tcp_ok (N := Link C) (others := others) (kids := kids) j (t, l) -> tcp_ok (others := others) (kids := kids) j (f t, l)) ->
  (forall t, held (f t) = held t) -> (forall t, children (f t) = children t) ->
  (forall s, nserves D 0 (m s) P) ->
  forall J n s t, (forall i, 0 <= J i) -> net_at D J n -> heap n !! id = Some s -> inner s = ProtoTcp t ->
  wp (put_socket id (with_inner (ProtoTcp (f t)) s) ;;; m s) (fun n' a => net_at D J n' /\ P a) (fun n' _ => net_at D J n') n.
Proof.
  intros Hid Hf Hh Hc Hm J n s t HJ Hn Hs Ei. pose proof Hn as [Hok _]. pose proof (nk_sockets _ _ Hok _ _ Hs) as Hso. unfold socket_ok in Hso. rewrite Ei in Hso.
  destruct Hso as (H1 & H2 & H3 & H4). apply wp_bind. eapply wp_put_socket; [exact Hn|exact Hs|unfold socket_held; rewrite Ei; apply Hh|done| |].
  - unfold socket_ok. cbn. rewrite Hh, Hc. split_and!; [done| |done|done]. apply block_change; [|apply Hh|apply Hc|done]. intros. by apply Hf.
  - intros n' Hn'. apply Hm; [done|]. by apply net_same.
Qed.

Lemma ok_no_error others kids j t l : tcp_ok (N := Link C) (others := others) (kids := kids) j (t, l) -> tcp_ok (others := others) (kids := kids) j (set_error None t, l).
Proof. intros []. constructor; done. Qed.

Lemma ns_connection_progress D id : id ∈ D -> nserves D 0 (connection_progress id) (fun _ => True).
Proof.
  intros Hid J n HJ Hn. unfold connection_progress. apply wp_bind. assert (Hn' : net_at D J n) by (by apply (net_down D J 0)). eapply wp_the_socket; [exact Hn'|done|].
  intros s Hs _. destruct (inner s) as [t|u] eqn:Ei; [|by apply wp_ret].
  destruct (tstate t); first [by apply wp_ret | by apply wp_throw | idtac].
  apply (ns_put_block D id (set_error None) (fun _ => throw (match error t with Some e => e | None => ECONNREFUSED end))); try done; [apply ok_no_error|]. intros. apply ns_throw.
Qed.

Lemma ns_take_error D id : id ∈ D -> nserves D 0 (take_error id) (fun _ => True).
Proof.
  intros Hid J n HJ Hn. unfold take_error. apply wp_bind. assert (Hn' : net_at D J n) by (by apply (net_down D J 0)). eapply wp_the_socket; [exact Hn'|done|].
  intros s Hs Hso. unfold socket_ok in Hso. destruct (inner s) as [t|u] eqn:Ei.
  - apply (ns_put_block D id (set_error None) (fun _ => ret (error t))); try done; [apply ok_no_error|]. intros. by apply ns_ret.
  - apply wp_bind. eapply wp_put_socket; [exact Hn'|exact Hs|unfold socket_held; by rewrite Ei|done| |].
    + unfold socket_ok. cbn. split; [apply Hso|]. destruct Hso as [_ []]. constructor; done.
    + intros n' Hn''. by apply wp_ret.
Qed.

Lemma ns_socket_abort D id : id ∈ D -> nserves D 0 (socket_abort id) (fun _ => True).
Proof.
  intros Hid. unfold socket_abort. eapply ns_bind0; [eapply ns_try, ns_with_tcp; [done|lia|]; intros; apply serves_abort|]. intros. by apply ns_ret.
Qed.

Lemma udp_shutdown_ok u (rd wr : bool) : udp_ok u ->
  let u1 := if rd then shutdown_read u else u in
  udp_ok (if wr then mkUdp (u_local u1) (u_remote u1) (u_bound u1) true (u_read_shutdown u1) (u_error u1) (queue u1) (queued_bytes u1) else u1).
Proof. intros []. destruct rd, wr; constructor; cbn; try done; unfold QUEUE_LIMIT, QUEUE_BYTES in *; lia. Qed.

Lemma ns_shutdown D id rd wr : id ∈ D -> nserves D 0 (shutdown id rd wr) (fun _ => True).
Proof.
  intros Hid J n HJ Hn0. assert (Hn : net_at D J n) by (by apply (net_down D J 0)). unfold shutdown. apply wp_bind. eapply wp_the_socket; [exact Hn|done|].
  intros s Hs Hso. unfold socket_ok in Hso. destruct (inner s) as [t|u] eqn:Ei.
  - destruct (_ && _); [by apply wp_throw|]. apply (ns_with_tcp D 0 id); [done|lia| |done|done]. intros others kids. apply serves_bind0.
    + destruct rd; [|apply serves_ret]. apply serves_update. intros j t' l []. constructor; done.
    + intros _. destruct wr; [apply serves_shutdown_write|apply serves_ret].
  - eapply wp_put_socket; [exact Hn|exact Hs|unfold socket_held; by rewrite Ei|done| |intros n' H; split; [exact H|done]]. unfold socket_ok. cbn. split; [apply Hso|]. exact (udp_shutdown_ok u rd wr (proj2 Hso)).
Qed.

(** ** The last descriptor *)

Lemma ns_detach D id {A} k (m : InetSocket -> NM A) P :
  id ∈ D -> 0 <= k -> (forall s, nserves D k (m s) P) -> nserves D k (let! s := the_socket id in put_socket id (with_detached true s) ;;; m s) P.
Proof.
  intros Hid Hk Hm J n HJ Hn. apply wp_bind. eapply wp_the_socket; [exact Hn|done|]. intros s Hs Hso. apply wp_bind.
  eapply wp_put_socket; [exact Hn|exact Hs|done|intros i; cbn; specialize (HJ i); lia|exact Hso|]. intros n' Hn'. by apply Hm.
Qed.

Lemma wp_unbind {W E A B} (m : M W E A) (k : A -> M W E B) Q X s : wp (bind m k) Q X s -> wp m (fun s' a => wp (k a) Q X s') X s.
Proof. unfold wp, bind. destruct (m s) as [s' [a|e|w]]; done. Qed.

Lemma close_block_ok others kids j t l :
  0 <= j -> tcp_ok (others := others) (kids := kids) j (t, l) ->
  wp close_block (fun w' r => tcp_ok (others := others) (kids := []) j w' /\ r = children t) (fun w' _ => tcp_ok (others := others) (kids := []) j w') (t, l).
Proof.
  intros Hj Ht. unfold close_block. apply wp_bind, wp_gets. cbn [fst]. apply wp_bind, wp_modify. cbn [fst snd].
  assert (Ht1 : tcp_ok (others := others) (kids := []) j (set_children [] t, l)) by (destruct Ht; constructor; done).
  assert (Hrest : serves (N := Link C) (others := others) (kids := []) 0 (abandon ;;; let! t' := self in
    if bool_decide (tstate t' = Listen) then update (set_state Closed) else if negb (bool_decide (received t' = [])) then abort else shutdown_write)).
  { apply serves_bind0; [apply serves_abandon|intros _]. apply serves_bind0; [apply serves_gets|intros t'].
    case_bool_decide; [apply serves_update; intros ? ? ? []; constructor; done|]. destruct (negb _); [apply serves_abort|apply serves_shutdown_write]. }
  pose proof (serves0 _ _ _ Hrest Hj Ht1) as H. apply wp_unbind in H. apply wp_bind. eapply wp_mono; [exact H| |done].
  intros w1 [] H1. apply wp_unbind in H1. apply wp_bind. eapply wp_mono; [exact H1| |done]. intros w2 t' H2. apply wp_bind.
  eapply wp_mono; [exact H2| |done]. intros w3 [] H3. by apply wp_ret.
Qed.

(** A child nobody accepted. *)
Lemma ns_close_children D kids : Forall (fun id => id ∈ D) kids ->
  nserves (C := C) D 0 (mapM_ (fun child =>
      let! s := the_socket child in
      put_socket child (with_detached true s) ;;;
      let! _ := try_ (with_tcp child abort) in
      unregister child) kids) (fun _ => True).
Proof.
  induction kids as [|child kids IH]; intros Hk; cbn [mapM_]; [by apply ns_ret|]. apply Forall_cons in Hk as [Hc Hk]. eapply ns_bind0; [|intros [] _; by apply IH].
  apply ns_detach; [done|lia|]. intros _. eapply ns_bind0; [eapply ns_try, ns_with_tcp; [done|lia|]; intros; apply serves_abort|]. intros _ _. apply ns_unregister.
Qed.

Lemma ns_close D id : id ∈ D -> nserves D DELIVERY (close id) (fun _ => True).
Proof.
  intros Hid. unfold close. apply ns_detach; [done|room|]. intros s. destruct (negb _); [apply (ns_more D 0); [room|apply ns_unregister]|].
  intros J n HJ Hn. apply wp_bind. pose proof Hn as [Hok HD]. destruct (HD id Hid) as [s' Hs']. destruct (inner s') as [t|u] eqn:Ei.
  2:{ unfold with_tcp. apply wp_bind. unfold wp, the_socket. rewrite Hs'. cbn. rewrite Ei. cbn. apply (net_down D J DELIVERY); [done|room|done]. }
  destruct (block_here _ _ _ _ _ Hok Hs' Ei) as (_ & _ & Hal).
  assert (HJid : 0 <= J id + DELIVERY) by (assert (H : 0 <= DELIVERY) by room; specialize (HJ id); lia).
  eapply (wp_with_tcp_any D (fun i => J i + DELIVERY) (fun i => J i + DELIVERY) id close_block n s' t (fun r => r = children t)); [done|done|done| |apply (nk_room _ _ Hok)| | |].
  - intros i _. assert (H : 0 <= DELIVERY) by room. specialize (HJ i). cbv beta. lia.
  - intros others Ht. eapply wp_mono; [exact (close_block_ok others (children t) (J id + DELIVERY) t (link n) HJid Ht)| |].
    + intros w' r [H1 ->]. split; [|done]. by exists [].
    + intros w' e H. by exists [].
  - intros n' r Hn' Hgrow ->. apply (ns_fewer D (D ∪ list_to_set (children t)) DELIVERY); [|set_solver|done|].
    + eapply ns_then; [room|apply ns_close_children; apply Forall_forall; intros i Hi; rewrite elem_of_union, elem_of_list_to_set; by right|intros [] _].
      eapply ns_then; [room|apply ns_with_tcp; [set_solver|lia|]|].
      { intros. apply serves_bind0; [apply serves_gets|]. intros. apply serves_ret. }
      intros finished _. eapply ns_then; [room| |intros [] _; apply ns_poll]. destruct finished; [apply ns_unregister|by apply (ns_ret _ _ (fun _ => True))].
    + split; [apply Hn'|]. intros i [Hi|Hi]%elem_of_union; [by apply Hn'|]. apply Hgrow. rewrite Forall_forall in Hal. apply Hal. by apply elem_of_list_to_set in Hi.
  - intros n' e Hn' _. apply (net_down D J DELIVERY); [done|room|done].
Qed.

(** ** The clock *)

(** Each socket of [ids] is ticked once. *)
Definition one_each (ids : list nat) (i : nat) : Z := if bool_decide (i ∈ ids) then 1 else 0.

Lemma tick_sockets_ok D t ids : 0 <= t <= 2 ^ 62 -> NoDup ids -> Forall (fun id => id ∈ D) ids ->
  forall J n, (forall i, 0 <= J i) -> net_at D (fun i => J i + one_each ids i) n ->
  wp (tick_sockets t ids) (fun n' r => net_at D J n') (fun n' _ => net_at D J n') n.
Proof.
  intros Ht. induction ids as [|id rest IH]; intros Hnd HD J n HJ Hn; cbn [tick_sockets].
  { apply wp_ret. eapply net_less; [|exact Hn]. intros i. specialize (HJ i). unfold one_each. case_bool_decide; lia. }
  apply NoDup_cons in Hnd as [Hno Hnd]. apply Forall_cons in HD as [Hid HD].
  assert (Hself : one_each rest id = 0) by (unfold one_each; by rewrite bool_decide_false).
  assert (Hone : one_each (id :: rest) id = 1) by (unfold one_each; rewrite bool_decide_true; [done|set_solver]).
  assert (Hother : forall i, i <> id -> one_each (id :: rest) i = one_each rest i).
  { intros i Hi. unfold one_each. erewrite bool_decide_ext; [done|]. rewrite elem_of_cons. tauto. }
  assert (Hle : forall i, 0 <= one_each rest i <= one_each (id :: rest) i).
  { intros i. destruct (decide (i = id)) as [->|Hi]; [lia|]. rewrite (Hother i Hi). unfold one_each. case_bool_decide; lia. }
  assert (Hdown : net_at D (fun i => J i + one_each rest i) n).
  { eapply net_less; [|exact Hn]. intros i. cbn. specialize (HJ i). specialize (Hle i). lia. }
  assert (Hend : forall n' b, net_at D (fun i => J i + one_each rest i) n' ->
    wp (let! finished := tick_sockets t rest in ret (if b : bool then id :: finished else finished)) (fun n' r => net_at D J n') (fun n' _ => net_at D J n') n').
  { intros n' b Hn'. apply wp_bind. eapply wp_mono; [by apply IH| |done]. intros n'' r Hn''. by apply wp_ret. }
  apply wp_bind. eapply wp_the_socket; [exact Hn|done|]. intros s Hs Hso. apply wp_bind. destruct (negb _); [by apply wp_ret, (Hend n false)|].
  assert (Hlast : forall n', net_at D (fun i => J i + one_each rest i) n' -> net_at D J n').
  { intros n'. apply net_less. intros i. specialize (HJ i). unfold one_each. case_bool_decide; lia. }
  pose proof Hn as [Hok _]. apply wp_bind. destruct (inner s) as [b|u] eqn:Ei.
  2:{ unfold with_tcp. apply wp_bind. unfold wp, the_socket. rewrite Hs. cbn. rewrite Ei. cbn. by apply Hlast. }
  destruct (block_here _ _ _ _ _ Hok Hs Ei) as (_ & _ & Hal).
  eapply (wp_with_tcp_any D (fun i => J i + one_each (id :: rest) i) (fun i => J i + one_each rest i) id (on_timer t) n s b (fun _ => True)); [done|done|done| | | | |].
  - intros i Hi. specialize (HJ i). specialize (Hle i). cbv beta. lia.
  - pose proof (nk_room _ _ Hok id) as H. cbv beta in H. lia.
  - cbv beta. rewrite Hself, Hone, Z.add_0_r. intros others Hb. eapply wp_mono; [exact (serves_on_timer (others := others) (kids := children b) t Ht (J id) _ (HJ id) Hb)| |];
      [intros w' a H; split; [|done]|intros w' e H]; by exists (children b).
  - intros n' a Hn' _ _. apply wp_bind. eapply wp_the_socket; [exact Hn'|done|]. intros s' _ _. by apply wp_ret, Hend.
  - intros n' e Hn' _. by apply Hlast.
Qed.

Lemma ns_on_tick D : nserves D 1 on_tick (fun _ => True).
Proof.
  intros J n HJ Hn. unfold on_tick. apply wp_bind, wp_gets. pose proof Hn as [Hok HD]. case_bool_decide; [apply wp_ret; split; [by apply (net_down D J 1)|done]|].
  set (D' := D ∪ list_to_set (table n)). assert (Hn' : net_at D' (fun i => J i + 1) n).
  { split; [done|]. intros i [Hi|Hi]%elem_of_union; [by apply HD|]. apply elem_of_list_to_set in Hi. pose proof (nk_table _ _ Hok) as Ht. rewrite Forall_forall in Ht. by apply Ht. }
  assert (Hids : Forall (fun i => i ∈ D') (table n)) by (apply Forall_forall; intros i Hi; unfold D'; rewrite elem_of_union, elem_of_list_to_set; by right).
  pose proof (nk_unique _ _ Hok) as Hnd. set (ids := table n) in *. clearbody ids.
  apply (ns_fewer D D' 1); [|set_solver|done|done]. clear n Hn Hok HD Hn' J HJ.
  apply (ns_then _ _ _ _ (fun t => 0 <= t <= 2 ^ 62)); [lia|apply ns_link; intros; apply moves_now|]. intros t Ht.
  apply (ns_bind _ 1 0 _ _ (fun _ => True)); [lia|lia| |intros; apply ns_unregister_all]. intros J n HJ Hn.
  eapply wp_mono; [apply (tick_sockets_ok D' t ids Ht Hnd Hids J n HJ)|intros n' r Hr; by split|done]. eapply net_less; [|exact Hn].
  intros i. cbv beta. specialize (HJ i). unfold one_each. case_bool_decide; lia.
Qed.

(** ** A frame *)

Lemma ns_net_receive D frame : Forall is_u8 frame -> nserves D 3 (net_receive frame) (fun _ => True).
Proof.
  intros Hb. assert (Hr : forall b : bool, nserves (C := C) D 3 (ret b) (fun _ => True)) by (intros b; apply (ns_more D 0); [lia|by apply ns_ret]).
  unfold net_receive. eapply ns_then; [lia|apply ns_link; intros; apply moves_lost_arrived|]. intros [] _; [apply (Hr true)|].
  eapply ns_then; [lia|apply ns_pure; intros n; by apply ether_parse_safe|]. intros [f|] Hf; [|apply (Hr false)]. cbv beta in Hf.
  destruct Hf as (Hdl & Hsl & Hd & Hs & Hp & _). eapply ns_then; [lia|apply ns_link; intros; apply moves_mac|]. intros hardware _.
  eapply (ns_then _ _ _ _ (fun _ => True)); [lia| |]; [|intros group _].
  { apply ns_pure. intros n. unfold Ether.is_group. apply wp_bind, wp_index; [rewrite Hdl; lia|]. intros x _. by apply wp_ret. }
  destruct (_ && _); [apply (Hr false)|]. apply (ns_bind _ 3 0 _ _ (fun _ => True)); [lia|lia| |intros; by apply ns_ret].
  destruct (_ =? _); [apply (ns_more D 0); [lia|]; apply ns_link; intros; by apply moves_arp_receive|].
  destruct (_ =? _); [by apply ns_ip_receive|]. apply (ns_more D 0); [lia|by apply ns_ret].
Qed.
End calls.
