(* ===== verification/Dhcp.v ===== *)
(** * DHCP

    [kernel/src/net/dhcp.rs]: what a server sends, what the client sends, and
    the client, over the sockets. The client decides and its caller acts: [poll]
    returns the effects in their order. What is printed is left out. *)

From S2P Require Import Prelude Words Packets PacketSpec Config Tcp TcpInput Link Udp Sockets.

Module Dhcp.

Definition SERVER_PORT : Z := 67.
Definition CLIENT_PORT : Z := 68.
Definition OP_REQUEST : Z := 1.
Definition OP_REPLY : Z := 2.
Definition HARDWARE_ETHERNET : Z := 1.
Definition HARDWARE_LEN : Z := 6.
Definition FLAG_BROADCAST : Z := 0x8000.
Definition COOKIE_AT : Z := 236.
Definition OPTIONS_AT : Z := 240.
Definition MAGIC_COOKIE : list Z := [99; 130; 83; 99].
Definition MIN_MESSAGE_LEN : Z := 300.
Definition DISCOVER : Z := 1.
Definition OFFER : Z := 2.
Definition REQUEST : Z := 3.
Definition ACK : Z := 5.
Definition NAK : Z := 6.
Definition OPTION_PAD : Z := 0.
Definition OPTION_NETMASK : Z := 1.
Definition OPTION_ROUTERS : Z := 3.
Definition OPTION_NAMESERVERS : Z := 6.
Definition OPTION_REQUESTED_ADDRESS : Z := 50.
Definition OPTION_LEASE_TIME : Z := 51.
Definition OPTION_OVERLOAD : Z := 52.
Definition OPTION_MESSAGE_TYPE : Z := 53.
Definition OPTION_SERVER : Z := 54.
Definition OPTION_PARAMETERS : Z := 55.
Definition OPTION_RENEWAL_TIME : Z := 58.
Definition OPTION_REBINDING_TIME : Z := 59.
Definition OPTION_CLIENT_ID : Z := 61.
Definition OPTION_END : Z := 255.
Definition PARAMETERS : list Z :=
  [OPTION_NETMASK; OPTION_ROUTERS; OPTION_NAMESERVERS; OPTION_LEASE_TIME; OPTION_RENEWAL_TIME; OPTION_REBINDING_TIME].

Definition HZ : Z := 100.
Definition FIRST_RETRANSMIT : Z := 4 * HZ.
Definition MAX_RETRANSMIT : Z := 64 * HZ.
Definition JITTER : Z := HZ.
Definition REQUEST_ATTEMPTS : Z := 4.
Definition MIN_RENEW_RETRANSMIT : Z := 60 * HZ.
Definition DEFAULT_LEASE_SECONDS : Z := 3600.
Definition MIN_LEASE_SECONDS : Z := 20.
Definition INFINITE : Z := 0xFFFFFFFF.

(** ** What a server sends *)

Record Reply := mkReply {
  kind : Z;
  xid : Z;
  chaddr : list Z;
  yiaddr : Z;
  server : option Z;
  netmask : option Z;
  routers : list Z;
  nameservers : list Z;
  lease_seconds : option Z;
  renewal_seconds : option Z;
  rebinding_seconds : option Z;
}.

(** [Result<Option<T>, Malformed>] is [option (option T)]. *)
Definition optional {T} (value : option (list Z)) (decode : list Z -> option T) : option (option T) :=
  match value with
  | None => Some None
  | Some bytes => match decode bytes with Some x => Some (Some x) | None => None end
  end.

Definition one_byte (value : list Z) : option Z := match value with [byte] => Some byte | _ => None end.
Definition address (value : list Z) : option Z := match value with [a; b; c; d] => Some (Ip.addr a b c d) | _ => None end.
Definition addresses (value : list Z) : option (list Z) :=
  if bool_decide (value = []) || negb (len value `mod` 4 =? 0) then None
  else Some ((fun a => default 0 (address a)) <$> chunks_exact 4 value).
Definition seconds (value : list Z) : option Z :=
  match value with [a; b; c; d] => Some (Ip.of_octets [a; b; c; d]) | _ => None end.

Abbreviation Options := (list (Z * list Z)).

(** The pieces of an option, joined in the order they came. *)
Fixpoint join (entries : Options) (code : Z) (value : list Z) : Options :=
  match entries with
  | [] => [(code, value)]
  | (existing, joined) :: rest => if existing =? code then (existing, joined ++ value) :: rest else (existing, joined) :: join rest code value
  end.

Definition get_option (entries : Options) (code : Z) : option (list Z) :=
  snd <$> (snd <$> list_find (fun e => fst e = code) entries).

(** One turn of the loop over an area of options; [None] when a length runs past
    the area. *)
Definition read_turn {S E} (area : list Z) (w : Options * Z) : M S E ((Options * Z) + option Options) :=
  let (entries, at_) := w in
  if negb (at_ <? len area) then ret (inr (Some entries))
  else
    let! code := index_at area at_ in
    if code =? OPTION_END then ret (inr (Some entries))
    else if code =? OPTION_PAD then let! next := usize (at_ + 1) in ret (inl (entries, next))
    else match get area (at_ + 1) with
         | None => ret (inr None)
         | Some size =>
             match get_range area (at_ + 2) (at_ + 2 + size) with
             | None => ret (inr None)
             | Some value => let! next := usize (at_ + (2 + size)) in ret (inl (join entries code value, next))
             end
         end.

Definition read {S E} (entries : Options) (area : list Z) : M S E (option Options) :=
  loop (Datatypes.S (length area)) (read_turn area) (entries, 0).

(** [?] on an option. *)
Definition or_none {S E A B} (o : option A) (k : A -> M S E (option B)) : M S E (option B) :=
  match o with Some a => k a | None => ret None end.

Definition parse {S E} (bytes : list Z) : M S E (option Reply) :=
  if len bytes <? OPTIONS_AT then ret None
  else
    let! op := index_at bytes 0 in
    let! hardware := index_at bytes 1 in
    let! hardware_len := index_at bytes 2 in
    if negb (op =? OP_REPLY) || negb (hardware =? HARDWARE_ETHERNET) || negb (hardware_len =? HARDWARE_LEN) then ret None
    else
      let! cookie := slice bytes COOKIE_AT OPTIONS_AT in
      if negb (bool_decide (cookie = MAGIC_COOKIE)) then ret None
      else
        let! area := slice bytes OPTIONS_AT (len bytes) in
        let! options := read [] area in
        or_none options (fun options =>
        or_none (optional (get_option options OPTION_OVERLOAD) one_byte) (fun overload =>
        let! options :=
          match overload with
          | None => ret (Some options)
          | Some overload =>
              if negb ((1 <=? overload) && (overload <=? 3)) then ret None
              else
                let! options :=
                  (if negb (Z.land overload 1 =? 0) then let! file := slice bytes 108 236 in read options file else ret (Some options)) in
                or_none options (fun options =>
                if negb (Z.land overload 2 =? 0) then let! sname := slice bytes 44 108 in read options sname else ret (Some options))
          end in
        or_none options (fun options =>
        let! chaddr := slice bytes 28 34 in
        let! xid := be32_at bytes 4 in
        let! yiaddr := be32_at bytes 16 in
        or_none (optional (get_option options OPTION_MESSAGE_TYPE) one_byte) (fun kind => or_none kind (fun kind =>
        or_none (optional (get_option options OPTION_SERVER) address) (fun server =>
        or_none (optional (get_option options OPTION_NETMASK) address) (fun netmask =>
        or_none (optional (get_option options OPTION_ROUTERS) addresses) (fun routers =>
        or_none (optional (get_option options OPTION_NAMESERVERS) addresses) (fun nameservers =>
        or_none (optional (get_option options OPTION_LEASE_TIME) seconds) (fun lease_seconds =>
        or_none (optional (get_option options OPTION_RENEWAL_TIME) seconds) (fun renewal_seconds =>
        or_none (optional (get_option options OPTION_REBINDING_TIME) seconds) (fun rebinding_seconds =>
        ret (Some (mkReply kind xid chaddr yiaddr server netmask (default [] routers) (default [] nameservers) lease_seconds renewal_seconds rebinding_seconds)))))))))))))).

(** ** What the client sends *)

Record Outgoing := mkOutgoing {
  o_kind : Z;
  o_xid : Z;
  o_secs : Z;
  o_broadcast : bool;
  o_ciaddr : Z;
  o_requested : option Z;
  o_server : option Z;
}.

(** [resize]: padded at the end. *)
Definition padded_to (n : Z) (out : list Z) : list Z := out ++ replicate (Z.to_nat (Z.max (len out) n - len out)) OPTION_PAD.

Definition build (m : Outgoing) (mac : list Z) : list Z :=
  padded_to MIN_MESSAGE_LEN
    ([OP_REQUEST; HARDWARE_ETHERNET; HARDWARE_LEN; 0]
     ++ be32 (o_xid m) ++ be16 (o_secs m) ++ be16 (if o_broadcast m then FLAG_BROADCAST else 0) ++ be32 (o_ciaddr m)
     ++ replicate 12 0 ++ mac ++ replicate 10 0 ++ replicate (64 + 128) 0
     ++ MAGIC_COOKIE
     ++ [OPTION_MESSAGE_TYPE; 1; o_kind m]
     ++ [OPTION_CLIENT_ID; 7; HARDWARE_ETHERNET] ++ mac
     ++ (match o_requested m with Some a => [OPTION_REQUESTED_ADDRESS; 4] ++ be32 a | None => [] end)
     ++ (match o_server m with Some a => [OPTION_SERVER; 4] ++ be32 a | None => [] end)
     ++ [OPTION_PARAMETERS; as_u8 (len PARAMETERS)] ++ PARAMETERS ++ [OPTION_END]).

(** ** The client *)

Record Exchange := mkExchange { ex_xid : Z; began : Z; first_sent : Z; ex_sent : Z; deadline : Z }.

Definition secs (e : Exchange) (now : Z) : Z := as_u16 (Z.min (saturating_sub now (began e) / HZ) u16_max).

Record Offer := mkOffer { offer_address : Z; offer_server : Z }.

Record Lease := mkLease {
  lease_config : Config;
  lease_server : Z;
  lease_length : Z;
  renew_at : Z;
  rebind_at : Z;
  expires_at : Z;
}.

(** [Option::filter]. *)
Definition keep_if (p : Z -> bool) (o : option Z) : option Z := match o with Some x => if p x then Some x else None | None => None end.

Definition lease_new {S E} (config : Config) (server : Z) (reply : Reply) (start : Z) : M S E Lease :=
  let length := Z.max (default DEFAULT_LEASE_SECONDS (lease_seconds reply)) MIN_LEASE_SECONDS in
  if length =? INFINITE then ret (mkLease config server length u64_max u64_max u64_max)
  else
    let! sevenfold := u64 (length * 7) in
    let t2 := default (sevenfold / 8) (keep_if (fun t2 => t2 <=? length) (rebinding_seconds reply)) in
    let t1 := default (Z.min (length / 2) t2) (keep_if (fun t1 => t1 <=? t2) (renewal_seconds reply)) in
    let! t1 := u64 (t1 * HZ) in
    let! renew := u64 (start + t1) in
    let! t2 := u64 (t2 * HZ) in
    let! rebind := u64 (start + t2) in
    let! t3 := u64 (length * HZ) in
    let! expires := u64 (start + t3) in
    ret (mkLease config server length renew rebind expires).

Inductive State :=
| Init (at_ : Z)
| Selecting (e : Exchange)
| Requesting (e : Exchange) (o : Offer)
| Bound (l : Lease)
| Renewing (e : Exchange) (l : Lease)
| Rebinding (e : Exchange) (l : Lease).

Inductive Effect :=
| Send (to : Z) (message : list Z)
| Configure (config : option Config).

Definition retransmit_before (now end_ : Z) : Z :=
  let half := saturating_sub end_ now / 2 in
  Z.min (Z.min (now + Z.max half MIN_RENEW_RETRANSMIT) u64_max) end_.

Record Client := mkClient {
  c_socket : nat;
  c_mac : list Z;
  c_nameserver : option Z;
  c_state : State;
  c_link_up : bool;
}.

Definition set_state (s : State) (c : Client) : Client := mkClient (c_socket c) (c_mac c) (c_nameserver c) s (c_link_up c).
Definition set_link_up (b : bool) (c : Client) : Client := mkClient (c_socket c) (c_mac c) (c_nameserver c) (c_state c) b.

Definition lease_of (s : State) : option Lease :=
  match s with
  | Bound lease | Renewing _ lease | Rebinding _ lease => Some lease
  | Init _ | Selecting _ | Requesting _ _ => None
  end.
Definition lease (c : Client) : option Lease := lease_of (c_state c).

Definition deadline_of (s : State) : Z :=
  match s with
  | Init at_ => at_
  | Selecting e | Requesting e _ => deadline e
  | Bound lease => renew_at lease
  | Renewing e lease => Z.min (deadline e) (rebind_at lease)
  | Rebinding e lease => Z.min (deadline e) (expires_at lease)
  end.
Definition next_deadline (c : Client) : Z := deadline_of (c_state c).

(** What a link that has come up changes. *)
Definition link_came_up (now : Z) (s : State) : State :=
  match s with
  | Init _ | Selecting _ | Requesting _ _ => Init now
  | Renewing e lease => Renewing (mkExchange (ex_xid e) (began e) (first_sent e) (ex_sent e) now) lease
  | Rebinding e lease => Rebinding (mkExchange (ex_xid e) (began e) (first_sent e) (ex_sent e) now) lease
  | Bound lease => Bound lease
  end.

Definition to_server (c : Client) (to : Z) (m : Outgoing) : Effect := Send to (build m (c_mac c)).

(** Errors of one type met as values by code with another. *)
Definition caught {S E E' A} (m : M S E A) : M S E' (A + E) :=
  fun s => match m s with
           | (s', Ok a) => (s', Ok (inl a))
           | (s', Err e) => (s', Ok (inr e))
           | (s', Stuck w) => (s', Stuck w)
           end.

(** The first router a configuration can have as its gateway. *)
Fixpoint find_gateway {S E} (yiaddr netmask : Z) (routers : list Z) : M S E (option Z) :=
  match routers with
  | [] => ret None
  | router :: rest =>
      let! made := caught (config_new yiaddr netmask (Some router) []) in
      match made with inl _ => ret (Some router) | inr _ => find_gateway yiaddr netmask rest end
  end.

Definition config_from {S E} (c : Client) (reply : Reply) : M S E (Config + ConfigError) :=
  let mask := default (class_netmask (yiaddr reply)) (netmask reply) in
  let! gateway := find_gateway (yiaddr reply) mask (routers reply) in
  let servers := match c_nameserver c with Some server => [server] | None => nameservers reply end in
  caught (config_new (yiaddr reply) mask gateway servers).

Section client.
Context {C : Type} `{!Machine C} `{!Sorter}.
Abbreviation DM := (M (Client * Net C) Errno).

Definition on_net {A} (m : M (Net C) Errno A) : DM A := zoom snd (fun n w => (fst w, n)) m.
Definition self : DM Client := gets fst.
Definition become (s : State) : DM unit := modify (fun w => (set_state s (fst w), snd w)).
Definition random : DM Z := on_net (on_link_state (Prelude.state (machine next_u64))).

Definition exchange_new (now : Z) : DM Exchange :=
  let! r := random in ret (mkExchange (as_u32 r) now now 0 now).

Definition randomized (delay : Z) : DM Z :=
  let! r := random in
  let offset := r `mod` (2 * JITTER + 1) in
  let! less := u64 (delay - JITTER) in
  u64 (less + offset).

Definition backoff (sent : Z) : DM Z :=
  let doublings := Z.min (saturating_sub sent 1) 4 in
  randomized (Z.min (Z.shiftl FIRST_RETRANSMIT doublings) MAX_RETRANSMIT).

(** [State::Init { at: now + randomized(FIRST_RETRANSMIT) }] *)
Definition start_over (now : Z) : DM unit :=
  let! wait := randomized FIRST_RETRANSMIT in
  let! at_ := u64 (now + wait) in
  become (Init at_).

Definition take_lease (reply : Reply) (server start now : Z) : DM (list Effect) :=
  let! c := self in
  let held := lease c in
  let! made := config_from c reply in
  match made with
  | inr _ =>
      start_over now ;;;
      ret (if negb (bool_decide (held = None)) then [Configure None] else [])
  | inl config =>
      let! lease := lease_new config server reply start in
      become (Bound lease) ;;;
      ret (if match held with Some previous => bool_decide (lease_config previous = config) | None => false end then []
           else [Configure (Some config)])
  end.

(** [is_some_and] of an answer that names its server. *)
Definition from_another (named : option Z) (expected : Z) : bool := match named with Some s => negb (s =? expected) | None => false end.

Definition on_reply (reply : Reply) (now : Z) : DM (list Effect) :=
  let! c := self in
  if negb (bool_decide (chaddr reply = c_mac c)) then ret []
  else
    match c_state c with
    | Selecting e =>
        if negb (xid reply =? ex_xid e) || negb (kind reply =? OFFER) then ret []
        else match server reply with
             | None => ret []
             | Some server =>
                 let! made := config_from c reply in
                 match made with
                 | inr _ => ret []
                 | inl _ => become (Requesting (mkExchange (ex_xid e) (began e) now 0 now) (mkOffer (yiaddr reply) server)) ;;; ret []
                 end
             end
    | Requesting e offer =>
        if negb (xid reply =? ex_xid e) then ret []
        else if from_another (server reply) (offer_server offer) then ret []
        else if kind reply =? ACK then take_lease reply (offer_server offer) (first_sent e) now
        else if kind reply =? NAK then start_over now ;;; ret []
        else ret []
    | Renewing e lease | Rebinding e lease =>
        if negb (xid reply =? ex_xid e) then ret []
        else
          let renewing := match c_state c with Renewing _ _ => true | _ => false end in
          if renewing && from_another (server reply) (lease_server lease) then ret []
          else
            let server := default (lease_server lease) (server reply) in
            if kind reply =? ACK then take_lease reply server (first_sent e) now
            else if kind reply =? NAK then start_over now ;;; ret [Configure None]
            else ret []
    | Init _ | Bound _ => ret []
    end.

(** An exchange after one more message, its next deadline drawn by [wait]. *)
Definition sent_again (e : Exchange) (wait : Z -> DM Z) : DM Exchange :=
  let! sent := u32 (ex_sent e + 1) in
  let! deadline := wait sent in
  ret (mkExchange (ex_xid e) (began e) (first_sent e) sent deadline).

Definition after_backoff (now sent : Z) : DM Z := let! wait := backoff sent in u64 (now + wait).

(** One pass of [on_timer]: [true] when it is done. *)
Definition timer_pass (now : Z) : DM (bool * list Effect) :=
  let! c := self in
  match c_state c with
  | Init at_ =>
      if now <? at_ then ret (true, [])
      else let! e := exchange_new now in become (Selecting e) ;;; ret (false, [])
  | Selecting e =>
      if now <? deadline e then ret (true, [])
      else
        let message := mkOutgoing DISCOVER (ex_xid e) (secs e now) true Ip.UNSPECIFIED None None in
        let! e := sent_again e (after_backoff now) in
        become (Selecting e) ;;; ret (true, [to_server c Ip.BROADCAST message])
  | Requesting e offer =>
      if now <? deadline e then ret (true, [])
      else if REQUEST_ATTEMPTS <=? ex_sent e then become (Init now) ;;; ret (false, [])
      else
        let message := mkOutgoing REQUEST (ex_xid e) (secs e now) true Ip.UNSPECIFIED (Some (offer_address offer)) (Some (offer_server offer)) in
        let! e := sent_again e (after_backoff now) in
        become (Requesting e offer) ;;; ret (true, [to_server c Ip.BROADCAST message])
  | Bound lease =>
      if now <? renew_at lease then ret (true, [])
      else let! e := exchange_new now in become (Renewing e lease) ;;; ret (false, [])
  | Renewing e lease =>
      if rebind_at lease <=? now then let! e := exchange_new now in become (Rebinding e lease) ;;; ret (false, [])
      else if now <? deadline e then ret (true, [])
      else
        let message := mkOutgoing REQUEST (ex_xid e) (secs e now) false (config_address (lease_config lease)) None None in
        let! e := sent_again e (fun _ => ret (retransmit_before now (rebind_at lease))) in
        become (Renewing e lease) ;;; ret (true, [to_server c (lease_server lease) message])
  | Rebinding e lease =>
      if expires_at lease <=? now then become (Init now) ;;; ret (false, [Configure None])
      else if now <? deadline e then ret (true, [])
      else
        let message := mkOutgoing REQUEST (ex_xid e) (secs e now) false (config_address (lease_config lease)) None None in
        let! e := sent_again e (fun _ => ret (retransmit_before now (expires_at lease))) in
        become (Rebinding e lease) ;;; ret (true, [to_server c Ip.BROADCAST message])
  end.

(** [for _ in 0..passes]. *)
Fixpoint timer_passes (passes : nat) (now : Z) : DM (list Effect) :=
  match passes with
  | O => ret []
  | S passes =>
      let! '(finished, effects) := timer_pass now in
      if finished then ret effects
      else let! more := timer_passes passes now in ret (effects ++ more)
  end.

Definition on_timer (now : Z) : DM (list Effect) := timer_passes 8 now.

(** The datagrams waiting, at most [turns] of them. *)
Fixpoint read_replies (turns : nat) (now : Z) : DM (list Effect) :=
  match turns with
  | O => ret []
  | S turns =>
      let! c := self in
      let! received := try_ (on_net (receive_into (c_socket c) Ether.MTU false)) in
      match received with
      | inr _ => ret []
      | inl r =>
          let! effects :=
            (if bool_decide (Packets.port <$> r_from r = Some SERVER_PORT) then
               let! parsed := parse (r_data r) in
               match parsed with Some reply => on_reply reply now | None => ret [] end
             else ret []) in
          let! more := read_replies turns now in
          ret (effects ++ more)
      end
  end.

Definition poll (now : Z) : DM (list Effect) :=
  let! up := on_net (on_link_state link_up) in
  let! c := self in
  (if up && negb (c_link_up c) then become (link_came_up now (c_state c)) else ret tt) ;;;
  modify (fun w => (set_link_up up (fst w), snd w)) ;;;
  let! effects := read_replies 64 now in
  let! more := on_timer now in
  ret (effects ++ more).

(** ** What the caller does *)

Definition apply_one (socket : nat) (e : Effect) : M (Net C) Errno unit :=
  match e with
  | Configure config => on_link_state (configure config)
  | Send to message => let! _ := try_ (send socket message (Some (mkEndpoint to SERVER_PORT))) in ret tt
  end.
Definition apply (socket : nat) (effects : list Effect) : M (Net C) Errno unit := mapM_ (apply_one socket) effects.

(** [Client::new] *)
Definition client_new (mac : list Z) (nameserver : option Z) (now : Z) : M (Net C) Errno Client :=
  let! socket := new_socket false in
  bind_ socket (mkEndpoint Ip.UNSPECIFIED CLIENT_PORT) ;;;
  ret (mkClient socket mac nameserver (Init now) false).
End client.
End Dhcp.

(** * What a DHCP server says

    The options of a message are read as RFC 2132 and RFC 3396 lay them out, and
    no message makes the parser panic or run on. *)

Import Dhcp.

(** ** Options as they are laid out *)

(** A piece is a pad byte, or a code with a value. *)
Definition lay_piece (p : option (Z * list Z)) : list Z :=
  match p with
  | None => [OPTION_PAD]
  | Some (code, value) => code :: len value :: value
  end.
Definition lay_out (pieces : list (option (Z * list Z))) : list Z := concat (lay_piece <$> pieces).

Definition piece_ok (p : option (Z * list Z)) : Prop :=
  match p with None => True | Some (code, _) => code <> OPTION_PAD /\ code <> OPTION_END end.

(** What the pieces of [code] say together. *)
Definition said (code : Z) (pieces : list (option (Z * list Z))) : list (list Z) :=
  omap (fun p => match p with Some (c, value) => if c =? code then Some value else None | None => None end) pieces.

Definition joined_pieces (entries : list (Z * list Z)) (pieces : list (option (Z * list Z))) : list (Z * list Z) :=
  foldl (fun entries p => match p with Some (code, value) => join entries code value | None => entries end) entries pieces.

Lemma get_cons c v entries code : get_option ((c, v) :: entries) code = if c =? code then Some v else get_option entries code.
Proof.
  unfold get_option. cbn [list_find fst]. destruct (c =? code) eqn:E; [apply Z.eqb_eq in E; by rewrite decide_True|].
  apply Z.eqb_neq in E. rewrite decide_False by done. by destruct (list_find _ entries) as [[]|].
Qed.

Lemma get_join entries code value c :
  get_option (join entries code value) c = if code =? c then Some (default [] (get_option entries c) ++ value) else get_option entries c.
Proof.
  induction entries as [|[x v] entries IH]; cbn [join].
  { rewrite get_cons. cbn. by destruct (code =? c). }
  destruct (x =? code) eqn:E; rewrite !get_cons.
  - apply Z.eqb_eq in E as ->. by destruct (code =? c).
  - destruct (x =? c) eqn:E'; [|done]. apply Z.eqb_eq in E' as ->. apply Z.eqb_neq in E. replace (code =? c) with false by lia. done.
Qed.

(** An option is there when a piece names it, as all its pieces in order. *)
Lemma get_joined pieces : forall entries code,
  get_option (joined_pieces entries pieces) code =
  match said code pieces with [] => get_option entries code | values => Some (default [] (get_option entries code) ++ concat values) end.
Proof.
  induction pieces as [|[[c v]|] pieces IH]; intros entries code; cbn [joined_pieces foldl]; [done| |]; fold (joined_pieces); [|rewrite IH; done].
  change (foldl _ (join entries c v) pieces) with (joined_pieces (join entries c v) pieces). rewrite IH, get_join. unfold said at 2. cbn [omap list_omap]. fold (said code pieces).
  destruct (c =? code) eqn:E; [|done]. cbn [default]. destruct (said code pieces) eqn:Es; cbn [concat]; [by rewrite app_nil_r|]. unfold id. by rewrite <- app_assoc.
Qed.

(** ** Reading them *)

Lemma read_piece {S E} area done_ p rest entries (s : S) :
  area = done_ ++ lay_piece p ++ rest -> piece_ok p -> len area <= u64_max ->
  @read_turn S E area (entries, len done_) s =
  (s, Ok (inl (match p with Some (code, value) => join entries code value | None => entries end, len (done_ ++ lay_piece p)))).
Proof.
  intros -> Hp Hl. unfold read_turn.
  assert (Hlen : len (done_ ++ lay_piece p ++ rest) = len done_ + len (lay_piece p) + len rest) by (rewrite !length_app; lia).
  assert (Hpos : 1 <= len (lay_piece p)) by (destruct p as [[]|]; cbn [lay_piece length]; lia).
  replace (len done_ <? len (done_ ++ lay_piece p ++ rest)) with true by lia. cbn [negb]. unfold bind at 1, index_at.
  assert (Hget : forall k, (k < length (lay_piece p))%nat -> get (done_ ++ lay_piece p ++ rest) (len done_ + Z.of_nat k) = lay_piece p !! k).
  { intros k Hk. unfold get. rewrite (proj2 (Z.leb_le _ _)) by lia. replace (Z.to_nat (len done_ + Z.of_nat k)) with (length done_ + k)%nat by lia.
    rewrite lookup_app_r by lia. rewrite lookup_app_l by lia. f_equal. lia. }
  pose proof (Hget 0%nat ltac:(lia)) as H0. replace (len done_ + Z.of_nat 0) with (len done_) in H0 by lia. rewrite H0. destruct p as [[code value]|]; cbn [lay_piece] in *; cbn [base.lookup list_lookup ret].
  - destruct Hp as [Hp1 Hp2]. rewrite (proj2 (Z.eqb_neq _ _) Hp2), (proj2 (Z.eqb_neq _ _) Hp1).
    pose proof (Hget 1%nat ltac:(cbn [length]; lia)) as H1. replace (len done_ + Z.of_nat 1) with (len done_ + 1) in H1 by lia. rewrite H1. cbn [base.lookup list_lookup].
    cbn [length] in Hlen. rewrite get_range_prefix by lia. replace (Z.to_nat (len done_ + 2 + len value - (len done_ + 2))) with (length value) by lia.
    replace (Z.to_nat (len done_ + 2)) with (length done_ + 2)%nat by lia. rewrite <- drop_drop, drop_app_length. change (drop 2 ((code :: len value :: value) ++ rest)) with (value ++ rest). rewrite take_app_length.
    unfold bind, checked. replace ((0 <=? len done_ + (2 + len value)) && (len done_ + (2 + len value) <=? u64_max)) with true by lia. cbn [ret].
    by replace (len done_ + (2 + len value)) with (len (done_ ++ code :: len value :: value)) by (rewrite length_app; cbn [length]; lia).
  - cbn [Z.eqb OPTION_END OPTION_PAD]. change (OPTION_PAD =? OPTION_END) with false. change (OPTION_PAD =? OPTION_PAD) with true. cbv iota.
    cbn [length] in Hlen. unfold bind, checked. replace ((0 <=? len done_ + 1) && (len done_ + 1 <=? u64_max)) with true by lia. cbn [ret].
    by replace (len done_ + 1) with (len (done_ ++ [OPTION_PAD])) by (rewrite length_app; cbn [length]; lia).
Qed.

(** The whole of an area, as far as its end. *)
Lemma read_pieces {S E} pieces area : forall done_ rest entries fuel (s : S),
  area = done_ ++ lay_out pieces ++ rest -> Forall piece_ok pieces -> len area <= u64_max -> (length pieces < fuel)%nat ->
  (rest = [] \/ head rest = Some OPTION_END) ->
  @loop S E _ _ fuel (read_turn area) (entries, len done_) s = (s, Ok (Some (joined_pieces entries pieces))).
Proof.
  induction pieces as [|p pieces IH]; intros done_ rest entries [|fuel] s Ea Hp Hl Hf Hrest; try (cbn [length] in Hf; lia); cbn [loop]; unfold bind at 1.
  - cbn in Ea. unfold read_turn. destruct Hrest as [->|Hrest].
    + rewrite app_nil_r in Ea. subst area. replace (len done_ <? len done_) with false by lia. done.
    + destruct rest as [|x rest]; [done|]. injection Hrest as ->. assert (Hlen : len area = len done_ + 1 + len rest) by (rewrite Ea, length_app; cbn [length]; lia).
      replace (len done_ <? len area) with true by lia. cbn [negb]. unfold bind, index_at, get. rewrite (proj2 (Z.leb_le _ _)) by lia.
      rewrite Ea, lookup_app_r by lia. replace (Z.to_nat (len done_) - length done_)%nat with 0%nat by lia. done.
  - apply Forall_cons in Hp as [Hp Hps]. assert (Ea' : area = (done_ ++ lay_piece p) ++ lay_out pieces ++ rest) by (rewrite Ea; unfold lay_out; cbn; by rewrite <- !app_assoc).
    rewrite (read_piece area done_ p (lay_out pieces ++ rest) entries s); [|by rewrite Ea', <- app_assoc|done|done].
    rewrite (IH (done_ ++ lay_piece p) rest); [|done|done|done|cbn [length] in Hf; lia|done]. by destruct p as [[]|].
Qed.

Lemma lay_out_length pieces : (length pieces <= length (lay_out pieces))%nat.
Proof. induction pieces as [|p pieces IH]; [done|]. unfold lay_out in *. cbn. rewrite length_app. destruct p as [[]|]; cbn [lay_piece length]; lia. Qed.

(** The options of an area, cut by its end option or by its last byte, are
    read as they were laid out: pads are skipped, and an option whose value came
    in several pieces is their concatenation in the order they came (RFC 3396);
    one that no piece names is absent. *)
Theorem options_read_back {S E} pieces rest (s : S) code :
  Forall piece_ok pieces -> (rest = [] \/ head rest = Some OPTION_END) -> len (lay_out pieces ++ rest) <= u64_max ->
  exists entries, @read S E [] (lay_out pieces ++ rest) s = (s, Ok (Some entries)) /\
    get_option entries code = match said code pieces with [] => None | values => Some (concat values) end.
Proof.
  intros Hp Hrest Hl. exists (joined_pieces [] pieces). split.
  - unfold read. pose proof (lay_out_length pieces). apply (read_pieces pieces _ [] rest); try done. rewrite length_app. lia.
  - rewrite get_joined. by destruct (said code pieces).
Qed.

(** ** Whatever is in the message *)

Lemma join_bytes entries code value : Forall (fun e => Forall is_u8 e.2) entries -> Forall is_u8 value -> Forall (fun e => Forall is_u8 e.2) (join entries code value).
Proof.
  intros He Hv. induction He as [|[c v] entries Hc He IH]; cbn [join]; [by repeat constructor|]. destruct (c =? code); constructor; try done. cbn in *. by apply Forall_app.
Qed.

Lemma read_safe {S E} entries area (s : S) :
  Forall is_u8 area -> len area <= 2 ^ 62 -> Forall (fun e => Forall is_u8 e.2) entries ->
  wp (@read S E entries area) (fun s' r => s' = s /\ option_Forall (Forall (fun e => Forall is_u8 e.2)) r) (fun _ _ => False) s.
Proof.
  intros Ha Hl He. unfold read.
  eapply (wp_loop (fun w s' => s' = s /\ 0 <= w.2 /\ Forall (fun e => Forall is_u8 e.2) w.1) (fun w _ => Z.to_nat (len area - w.2))); [|done|cbn; lia].
  intros [es at_] s' (-> & Hat & Hes). cbn [fst snd] in *. unfold read_turn. destruct (at_ <? len area) eqn:E1; cbn [negb]; [|apply wp_ret; split; [done|by constructor]].
  apply wp_bind, wp_byte_in; [done|lia|]. intros code Hc. destruct (_ =? OPTION_END); [apply wp_ret; split; [done|by constructor]|].
  destruct (_ =? OPTION_PAD).
  { apply wp_bind, wp_checked; [unfold u64_max; lia|]. apply wp_ret. cbn. split_and!; try done; lia. }
  destruct (get area (at_ + 1)) as [size|] eqn:Es; [|apply wp_ret; split; [done|constructor]].
  assert (Hsize : is_u8 size).
  { unfold get in Es. destruct (0 <=? at_ + 1); [|done]. rewrite Forall_forall in Ha. by eapply Ha, list_elem_of_lookup_2. }
  destruct (get_range area _ _) as [value|] eqn:Ev; [|apply wp_ret; split; [done|constructor]].
  unfold get_range in Ev. destruct (_ && _ && _) eqn:Er; [|done]. injection Ev as <-. unfold is_u8, u8_max in *.
  apply wp_bind, wp_checked; [unfold u64_max; lia|]. apply wp_ret. cbn. split; [|lia]. split_and!; [done|lia|]. apply join_bytes; [done|]. by apply Forall_take, Forall_drop.
Qed.

Lemma get_option_bytes entries code value : Forall (fun e => Forall is_u8 e.2) entries -> get_option entries code = Some value -> Forall is_u8 value.
Proof.
  intros He. unfold get_option. destruct (list_find _ entries) as [[i [c v]]|] eqn:E; [|done]. cbn. intros [= <-]. apply list_find_Some in E as (E & _).
  rewrite Forall_forall in He. by apply (He (c, v)), (list_elem_of_lookup_2 _ i).
Qed.

Lemma addr_u32 a b c d : is_u8 a -> is_u8 b -> is_u8 c -> is_u8 d -> is_u32 (Ip.addr a b c d).
Proof. intros Ha Hb Hc Hd. unfold Ip.addr. rewrite !Z.shiftl_mul_pow2 by lia. unfold is_u8, u8_max in *. repeat apply u32_lor; unfold is_u32, u32_max; lia. Qed.

Lemma address_u32 value a : Forall is_u8 value -> address value = Some a -> is_u32 a.
Proof.
  intros Hv. destruct value as [|x [|y [|z [|w []]]]]; try done. cbn. intros [= <-]. rewrite !Forall_cons in Hv. destruct Hv as (? & ? & ? & ? & _). by apply addr_u32.
Qed.

Lemma chunks_bytes fuel : forall (l : list Z), Forall is_u8 l -> Forall (fun c => Forall is_u8 c) (chunks_exact_fuel fuel 4 l).
Proof.
  induction fuel as [|fuel IH]; intros l Hl; cbn [chunks_exact_fuel]; [constructor|]. destruct (_ <? _)%nat; [constructor|].
  constructor; [by apply Forall_take|by apply IH, Forall_drop].
Qed.

Lemma addresses_u32 value l : Forall is_u8 value -> addresses value = Some l -> Forall is_u32 l.
Proof.
  intros Hv. unfold addresses. destruct (_ || _); [done|]. intros [= <-]. apply Forall_fmap. eapply Forall_impl; [by apply chunks_bytes|].
  intros c Hc. cbn. destruct (address c) as [a|] eqn:E; cbn; [by eapply address_u32|]. unfold is_u32, u32_max. lia.
Qed.

Lemma seconds_u32 value a : Forall is_u8 value -> seconds value = Some a -> is_u32 a.
Proof.
  intros Hv. destruct value as [|x [|y [|z [|w []]]]]; try done. cbn. intros [= <-]. rewrite !Forall_cons in Hv. destruct Hv as (? & ? & ? & ? & _).
  unfold is_u8, u8_max, is_u32, u32_max in *. lia.
Qed.

Record reply_ok (r : Reply) : Prop := {
  rp_yiaddr : is_u32 (yiaddr r);
  rp_server : option_Forall is_u32 (server r);
  rp_netmask : option_Forall is_u32 (netmask r);
  rp_routers : Forall is_u32 (routers r);
  rp_nameservers : Forall is_u32 (nameservers r);
  rp_lease : option_Forall is_u32 (lease_seconds r);
  rp_renewal : option_Forall is_u32 (renewal_seconds r);
  rp_rebinding : option_Forall is_u32 (rebinding_seconds r);
}.

(** An option that decodes to something in [P]. *)
Lemma wp_optional {S E T B} (P : T -> Prop) entries code decode (k : option T -> M S E (option B)) (Q : S -> option B -> Prop) X s :
  Forall (fun e => Forall is_u8 e.2) entries -> (forall v x, Forall is_u8 v -> decode v = Some x -> P x) -> Q s None ->
  (forall o, option_Forall P o -> wp (k o) Q X s) -> wp (or_none (optional (get_option entries code) decode) k) Q X s.
Proof.
  intros He Hd Hn Hk. unfold optional. destruct (get_option entries code) as [v|] eqn:Eg; cbn [or_none]; [|apply Hk; constructor].
  destruct (decode v) as [x|] eqn:Ed; cbn [or_none]; [|by apply wp_ret]. apply Hk. constructor. eapply Hd; [|exact Ed]. by eapply get_option_bytes.
Qed.

(** No message makes the parser panic or run on, and what it returns has the
    widths it should have. *)
Lemma dhcp_parse_safe {S E} bytes (s : S) :
  Forall is_u8 bytes -> len bytes <= 2 ^ 62 -> wp (@parse S E bytes) (fun s' r => s' = s /\ option_Forall reply_ok r) (fun _ _ => False) s.
Proof.
  intros Hb Hl. unfold parse, OPTIONS_AT, COOKIE_AT. assert (Hnone : s = s /\ option_Forall reply_ok None) by (split; constructor). destruct (_ <? 240) eqn:E240; [by apply wp_ret|]. apply Z.ltb_ge in E240.
  do 3 (apply wp_bind, wp_byte_in; [done|lia|]; intros ? ?). destruct (_ || _ || _); [by apply wp_ret|].
  apply wp_bind, wp_slice_in; [done|lia|lia|]. intros cookie _ _. destruct (negb _); [by apply wp_ret|].
  apply wp_bind, wp_slice_in; [done|lia|lia|]. intros area Ha Hal. apply wp_bind. eapply wp_mono; [apply read_safe; [done|lia|constructor]| |done].
  intros s1 [options|] [-> Ho]; [|by apply wp_ret]. assert (Ho' : Forall (fun e => Forall is_u8 e.2) options) by (by inversion Ho). clear Ho. cbn [or_none].
  apply (wp_optional (fun _ => True)); [done|done|done|]. intros overload _.
  apply wp_bind. eapply (wp_mono _ (fun s' r => s' = s /\ option_Forall (Forall (fun e => Forall is_u8 e.2)) r) _ (fun _ _ => False)); [| |done].
  { destruct overload as [overload|]; [|apply wp_ret; split; [done|by constructor]]. destruct (negb _); [apply wp_ret; split; [done|constructor]|].
    apply wp_bind. eapply (wp_mono _ (fun s' r => s' = s /\ option_Forall (Forall (fun e => Forall is_u8 e.2)) r) _ (fun _ _ => False)); [| |done].
    - destruct (negb _); [|apply wp_ret; split; [done|by constructor]]. apply wp_bind, wp_slice_in; [done|lia|lia|]. intros file Hf Hfl. apply read_safe; [done|lia|done].
    - intros s1 [o|] [-> Hopt]; [|by apply wp_ret]. assert (Hopt' : Forall (fun e => Forall is_u8 e.2) o) by (by inversion Hopt). cbn [or_none].
      destruct (negb _); [|apply wp_ret; split; [done|by constructor]]. apply wp_bind, wp_slice_in; [done|lia|lia|]. intros file Hf Hfl. apply read_safe; [done|lia|done]. }
  intros s1 [o|] [-> Hopt]; [|by apply wp_ret]. assert (Hopt' : Forall (fun e => Forall is_u8 e.2) o) by (by inversion Hopt). clear Hopt. cbn [or_none].
  apply wp_bind, wp_slice_in; [done|lia|lia|]. intros chaddr _ _. do 2 (apply wp_bind, wp_be32_in; [done|lia|lia|]; intros ? ?).
  apply (wp_optional (fun _ => True)); [done|done|done|]. intros [kind|] _; [|by apply wp_ret]. cbn [or_none].
  apply (wp_optional is_u32); [done|apply address_u32|done|]. intros sv Hsv. apply (wp_optional is_u32); [done|apply address_u32|done|]. intros nm Hnm.
  apply (wp_optional (Forall is_u32)); [done|apply addresses_u32|done|]. intros rt Hrt. apply (wp_optional (Forall is_u32)); [done|apply addresses_u32|done|]. intros ns Hns.
  do 3 (apply (wp_optional is_u32); [done|apply seconds_u32|done|]; intros ? ?). apply wp_ret. split; [done|]. constructor. constructor; cbn; try done.
  - destruct rt; cbn; [by inversion Hrt|constructor].
  - destruct ns; cbn; [by inversion Hns|constructor].
Qed.
