(* ===== verification/DhcpSpec.v ===== *)
(** * The DHCP client

    [poll] leaves nothing due behind it and holds no lease past its end; what it
    tells its caller to configure is the configuration of the lease it holds, and
    every message it asks to be sent names the address held at that moment. *)

From S2P Require Import Prelude Safe Words Packets PacketSpec Config Tcp TcpInput TcpBounds Link LinkSpec Udp Sockets SocketsSpec Dhcp.

Import Dhcp.

(** ** Effects *)

(** The configuration after the effects. *)
Fixpoint published (cfg : option Config) (effects : list Effect) : option Config :=
  match effects with
  | [] => cfg
  | Configure c :: rest => published c rest
  | Send _ _ :: rest => published cfg rest
  end.

(** A message built while [cfg] is the configuration: it gives that address as
    the client's, and asks for a broadcast answer when there is none. *)
Definition message_of (mac : list Z) (cfg : option Config) (message : list Z) : Prop :=
  exists m, message = build m mac /\ o_ciaddr m = default Ip.UNSPECIFIED (config_address <$> cfg) /\ o_broadcast m = bool_decide (cfg = None).

Fixpoint messages_ok (mac : list Z) (cfg : option Config) (effects : list Effect) : Prop :=
  match effects with
  | [] => True
  | Configure c :: rest => messages_ok mac c rest
  | Send _ message :: rest => message_of mac cfg message /\ messages_ok mac cfg rest
  end.

Definition is_send (e : Effect) : bool := match e with Send _ _ => true | Configure _ => false end.
Definition messages (effects : list Effect) : nat := length (filter (fun e => is_send e = true) effects).

Lemma published_app effects more : forall cfg, published cfg (effects ++ more) = published (published cfg effects) more.
Proof. induction effects as [|[] effects IH]; intros cfg; cbn; done. Qed.

Lemma messages_ok_app mac effects more : forall cfg, messages_ok mac cfg effects -> messages_ok mac (published cfg effects) more -> messages_ok mac cfg (effects ++ more).
Proof. induction effects as [|[] effects IH]; intros cfg; cbn; [done| |auto]. intros [H1 H2] H3. auto. Qed.

Lemma messages_app effects more : messages (effects ++ more) = (messages effects + messages more)%nat.
Proof. unfold messages. by rewrite filter_app, length_app. Qed.

Lemma no_messages mac cfg effects : messages effects = 0%nat -> messages_ok mac cfg effects.
Proof. revert cfg. induction effects as [|[to m|c] effects IH]; intros cfg H; [done|done|]. apply IH, H. Qed.

(** What the caller can do. *)
Definition effect_ok (e : Effect) : Prop :=
  match e with
  | Send to message => is_u32 to /\ Forall is_u8 message /\ len message <= 2 ^ 62
  | Configure c => option_Forall config_ok c
  end.

Lemma few_bytes l : forallb (fun x => (0 <=? x) && (x <=? 255)) l = true -> Forall is_u8 l.
Proof. intros H. apply Forall_forall. intros x Hx. rewrite forallb_forall in H. specialize (H x ltac:(by apply list_elem_of_In)). unfold is_u8, u8_max. lia. Qed.

Lemma build_bytes m mac : is_u8 (o_kind m) -> mac_ok mac -> Forall is_u8 (build m mac) /\ len (build m mac) <= 2 ^ 62.
Proof.
  intros Hk [Hl Hm]. unfold build, padded_to. set (out := _ ++ be32 (o_xid m) ++ _).
  assert (Hz : forall k, Forall is_u8 (replicate k 0)) by (intros k; apply Forall_replicate; unfold is_u8, u8_max; lia).
  assert (Hout : Forall is_u8 out /\ len out <= 300).
  { unfold out. split.
    - assert (Ha : forall (x : option Z) k, is_u8 k -> Forall is_u8 (match x with Some a => [k; 4] ++ be32 a | None => [] end)).
      { intros [x|] k Hk'; [|constructor]. apply Forall_app. split; [|apply be32_bytes]. apply two_bytes; [done|vm_compute; split; discriminate]. }
      repeat (apply Forall_app; split);
        first [apply Hz | apply be32_bytes | apply be16_bytes | exact Hm | apply Ha; vm_compute; split; discriminate
              | apply few_bytes; reflexivity | constructor; [vm_compute; split; discriminate|]; constructor; [vm_compute; split; discriminate|]; by constructor].
    - rewrite !length_app, !length_replicate, Hl. destruct (o_requested m), (o_server m); cbn; lia. }
  destruct Hout as [H1 H2]. split; [apply Forall_app; split; [done|apply Forall_replicate; vm_compute; split; discriminate]|].
  rewrite length_app, length_replicate. unfold MIN_MESSAGE_LEN. lia.
Qed.

(** ** What holds of the client *)

Definition held (s : State) : option Config := lease_config <$> lease_of s.

Record exchange_ok (j : Z) (e : Exchange) : Prop := {
  xk_first : 0 <= first_sent e <= 2 ^ 62;
  xk_sent : 0 <= ex_sent e <= u32_max - j;
}.

Record lease_ok (l : Lease) : Prop := {
  ll_config : config_ok (lease_config l);
  ll_server : is_u32 (lease_server l);
  ll_order : 0 <= renew_at l <= rebind_at l /\ rebind_at l <= expires_at l <= u64_max;
}.

Definition state_ok (j : Z) (s : State) : Prop :=
  match s with
  | Init _ => True
  | Selecting e => exchange_ok j e
  | Requesting e o => exchange_ok j e /\ is_u32 (offer_address o) /\ is_u32 (offer_server o)
  | Bound l => lease_ok l
  | Renewing e l | Rebinding e l => exchange_ok j e /\ lease_ok l
  end.

Record client_ok (j : Z) (c : Client) : Prop := {
  cl_mac : mac_ok (c_mac c);
  cl_nameserver : option_Forall is_u32 (c_nameserver c);
  cl_state : state_ok j (c_state c);
}.

Lemma exchange_less j j' e : j' <= j -> exchange_ok j e -> exchange_ok j' e.
Proof. intros Hj []. constructor; [done|lia]. Qed.

Lemma state_less j j' s : j' <= j -> state_ok j s -> state_ok j' s.
Proof. intros Hj. destruct s; cbn; try done; [by apply exchange_less|..]; (intros [H1 H2]; split; [by apply (exchange_less j)|done]). Qed.

(** ** Configurations and leases *)

Lemma config_new_ok {W} a m g servers (s : W) :
  is_u32 a -> option_Forall is_u32 g -> wp (config_new a m g servers) (fun s' c => s' = s /\ config_ok c) (fun s' _ => s' = s) s.
Proof.
  intros Ha Hg. unfold config_new. destruct (is_host_address a) eqn:Eh; [cbn [negb]|by apply wp_throw]. destruct (_ || _); [by apply wp_throw|]. destruct (_ && _); [by apply wp_throw|].
  assert (Hadd : forall g', option_Forall is_u32 g' -> wp (add_nameservers servers (mkConfig a m g' (replicate 3 Ip.UNSPECIFIED) 0)) (fun s' c => s' = s /\ config_ok c) (fun s' _ => s' = s) s).
  { intros g' Hg'. destruct (add_nameservers_spec servers (mkConfig a m g' (replicate 3 Ip.UNSPECIFIED) 0) s) as (c & E & H1 & _ & H3 & _); [cbn; lia|done|done|].
    unfold wp. rewrite E. split; [done|]. unfold config_ok. cbn in H1, H3. by rewrite H1, H3. }
  destruct g as [g|]; [|by apply Hadd]. destruct (_ || _ || _); [by apply wp_throw|]. by apply Hadd.
Qed.

Lemma wp_caught {W E E' A} (m : M W E A) (Q : W -> A + E -> Prop) (X : W -> E' -> Prop) s :
  wp m (fun s' a => Q s' (inl a)) (fun s' e => Q s' (inr e)) s -> wp (caught m) Q X s.
Proof. unfold wp, caught. destruct (m s) as [s' [a|e|w]]; done. Qed.

Lemma find_gateway_ok {W E} yiaddr netmask routers (s : W) :
  is_u32 yiaddr -> Forall is_u32 routers -> wp (@find_gateway W E yiaddr netmask routers) (fun s' g => s' = s /\ option_Forall is_u32 g) (fun _ _ => False) s.
Proof.
  intros Hy Hr. induction Hr as [|r routers Hr Hrs IH]; cbn [find_gateway]; [apply wp_ret; split; [done|constructor]|].
  apply wp_bind, wp_caught. eapply wp_mono; [apply config_new_ok; [done|by constructor]| |].
  - intros s' c [-> _]. apply wp_ret. split; [done|by constructor].
  - intros s' e ->. done.
Qed.

Lemma config_from_ok {W E} j c reply (s : W) :
  client_ok j c -> reply_ok reply -> wp (@config_from W E c reply) (fun s' r => s' = s /\ match r with inl cfg => config_ok cfg | inr _ => True end) (fun _ _ => False) s.
Proof.
  intros Hc Hr. unfold config_from. apply wp_bind. eapply wp_mono; [apply find_gateway_ok; apply Hr| |done]. intros s1 g [-> Hg].
  apply wp_caught. eapply wp_mono; [apply config_new_ok; [apply Hr|done]| |]; [by intros s' cfg H|by intros s' e ->].
Qed.

Lemma keep_if_some p o d : option_Forall is_u32 o -> (exists x, keep_if p o = Some x /\ is_u32 x /\ p x = true) \/ default d (keep_if p o) = d.
Proof. intros Ho. destruct o as [x|]; [|by right]. assert (is_u32 x) by (by inversion Ho). cbn. destruct (p x) eqn:E; [left; by exists x|by right]. Qed.

(** A lease runs from the first request for at least 20 seconds; renewal,
    rebinding and end come in that order. *)
Lemma lease_new_ok {W E} cfg server reply start (s : W) :
  config_ok cfg -> is_u32 server -> reply_ok reply -> 0 <= start <= 2 ^ 62 ->
  wp (@lease_new W E cfg server reply start) (fun s' l => s' = s /\ lease_ok l /\ lease_config l = cfg) (fun _ _ => False) s.
Proof.
  intros Hc Hs [_ _ _ _ _ Hl H1 H2] Hst. unfold lease_new. set (length := Z.max _ _).
  assert (Hlen : 20 <= length <= u32_max).
  { unfold length, MIN_LEASE_SECONDS, DEFAULT_LEASE_SECONDS, u32_max in *. destruct (lease_seconds reply) as [x|]; cbn [default]; [|lia].
    assert (Hx : is_u32 x) by (by inversion Hl). unfold is_u32, u32_max, id in *. lia. }
  clearbody length. destruct (_ =? _); [apply wp_ret; split_and!; [done| |done]; constructor; cbn; [done|done|unfold u64_max; lia]|].
  unfold u32_max in Hlen. apply wp_bind, wp_checked; [unfold u64_max; lia|].
  set (t2 := default (length * 7 / 8) _). assert (Ht2 : 0 <= t2 <= length).
  { unfold t2. destruct (keep_if_some (fun t2 => t2 <=? length) (rebinding_seconds reply) (length * 7 / 8) H2) as [(x & -> & Hx & Ex)| ->]; [|lia]. cbn. unfold is_u32, id in *. lia. }
  clearbody t2. set (t1 := default _ _). assert (Ht1 : 0 <= t1 <= t2).
  { unfold t1. destruct (keep_if_some (fun t1 => t1 <=? t2) (renewal_seconds reply) (Z.min (length / 2) t2) H1) as [(x & -> & Hx & Ex)| ->]; [|lia]. cbn. unfold is_u32, id in *. lia. }
  clearbody t1. unfold HZ. do 6 (apply wp_bind, wp_checked; [unfold u64_max; lia|]). apply wp_ret. split_and!; [done| |done]. constructor; cbn; [done|done|unfold u64_max; lia].
Qed.

(** Drawing a number moves only the machine. *)
Lemma machine_random {C} {HM : Machine C} {HMok : MachineOk C} (n : Net C) :
  machine_inv (hw (link n)) ->
  wp (on_link_state (Prelude.state (machine next_u64))) (fun n' r => machine_inv (hw (link n')) /\ is_u64 r) (fun _ (_ : Errno) => False) n.
Proof.
  intros Hn. unfold on_link_state. apply wp_zoom, wp_state. unfold machine. pose proof (next_u64_ok _ Hn) as (H1 & H2 & _). destruct (next_u64 (hw (link n))) as [m r]. done.
Qed.

(** ** The client over any network it can draw numbers from and read *)

Section client.
Context {C : Type} {HM : Machine C} {HS : Sorter}.
Abbreviation DM := (M (Client * Net C) Errno).
Context (I : Net C -> Prop) (socket : nat) (now : Z) (Hnow : 0 <= now <= 2 ^ 62).
Context (I_random : forall n, I n -> wp (on_link_state (Prelude.state (machine next_u64))) (fun n' r => I n' /\ is_u64 r) (fun _ _ => False) n).
Context (I_receive : forall n, I n -> wp (receive_into socket Ether.MTU false)
  (fun n' r => I n' /\ (r_from r <> None -> Forall is_u8 (r_data r) /\ len (r_data r) <= 2 ^ 62)) (fun n' _ => I n') n).
Implicit Types (c : Client) (n : Net C).

Lemma wp_random c n (Q : Client * Net C -> Z -> Prop) X : I n -> (forall n' r, I n' -> is_u64 r -> Q (c, n') r) -> wp random Q X (c, n).
Proof. intros Hn HQ. unfold random, on_net. apply wp_zoom. eapply wp_mono; [by apply I_random| |done]. intros n' r [H1 H2]. by apply HQ. Qed.

Lemma wp_randomized c n delay (Q : Client * Net C -> Z -> Prop) X :
  100 <= delay <= 2 ^ 32 -> I n -> (forall n' w, I n' -> delay - 100 <= w <= delay + 100 -> Q (c, n') w) -> wp (randomized delay) Q X (c, n).
Proof.
  intros Hd Hn HQ. unfold randomized, JITTER, HZ. apply wp_bind, wp_random; [done|]. intros n' r Hn' Hr. unfold is_u64 in Hr.
  apply wp_bind, wp_checked; [unfold u64_max; lia|]. apply wp_checked; [unfold u64_max; lia|]. apply HQ; [done|lia].
Qed.

Lemma wp_backoff c n sent (Q : Client * Net C -> Z -> Prop) X :
  I n -> (forall n' w, I n' -> 300 <= w <= 6500 -> Q (c, n') w) -> wp (backoff sent) Q X (c, n).
Proof.
  intros Hn HQ. unfold backoff, FIRST_RETRANSMIT, MAX_RETRANSMIT, HZ. set (k := Z.min (saturating_sub sent 1) 4). assert (Hk : 0 <= k <= 4) by (unfold k, saturating_sub; lia).
  clearbody k. rewrite Z.shiftl_mul_pow2 by lia. assert (Hp : 1 <= 2 ^ k) by (apply (Z.pow_le_mono_r 2 0 k); lia). generalize dependent (2 ^ k). intros p Hp.
  apply wp_randomized; [lia|done|]. intros n' w Hn' Hw. apply HQ; [done|lia].
Qed.

Lemma wp_exchange_new c n j (Q : Client * Net C -> Exchange -> Prop) X :
  0 <= j <= u32_max -> I n -> (forall n' e, I n' -> exchange_ok j e -> deadline e = now -> Q (c, n') e) -> wp (exchange_new now) Q X (c, n).
Proof.
  intros Hj Hn HQ. unfold exchange_new. apply wp_bind, wp_random; [done|]. intros n' r Hn' Hr. apply wp_ret, HQ; [done| |done].
  constructor; cbn; lia.
Qed.

Lemma wp_start_over c n (Q : Client * Net C -> unit -> Prop) X :
  I n -> (forall n' at_, I n' -> now < at_ -> Q (set_state (Init at_) c, n') tt) -> wp (start_over now) Q X (c, n).
Proof.
  intros Hn HQ. unfold start_over, FIRST_RETRANSMIT, HZ. apply wp_bind, wp_randomized; [lia|done|]. intros n' w Hn' Hw.
  apply wp_bind, wp_checked; [unfold u64_max; lia|]. unfold become. apply wp_modify. apply HQ; [done|lia].
Qed.

(** A step of the client [c] that publishes what it comes to hold and sends
    nothing. *)
Definition tells j c (w : Client * Net C) (effects : list Effect) : Prop :=
  exists s, w.1 = set_state s c /\ I w.2 /\ state_ok j s /\ published (held (c_state c)) effects = held s /\ messages effects = 0%nat /\ Forall effect_ok effects.

Lemma tells_nothing j c n : client_ok j c -> I n -> tells j c (c, n) [].
Proof. intros Hc Hn. exists (c_state c). split_and!; try done; [by destruct c|apply Hc]. Qed.

Lemma take_lease_ok j c n reply server start :
  client_ok j c -> I n -> reply_ok reply -> is_u32 server -> 0 <= start <= 2 ^ 62 -> wp (take_lease reply server start now) (tells j c) (fun _ _ => False) (c, n).
Proof.
  intros Hc Hn Hr Hs Hst. unfold take_lease. apply wp_bind, wp_gets. cbn [fst]. apply wp_bind. eapply wp_mono; [by apply (config_from_ok j)| |done].
  intros w [cfg|e] [-> Hcfg].
  - apply wp_bind. eapply wp_mono; [by apply lease_new_ok| |done]. intros w l (-> & Hl & El). apply wp_bind, wp_modify, wp_ret. cbn [fst snd].
    exists (Bound l). split_and!; try done.
    + change (held (Bound l)) with (Some (lease_config l)). rewrite El. unfold lease, held. destruct (lease_of (c_state c)) as [p|]; [|done]. case_bool_decide as Hb; [|done]. cbn. by f_equal.
    + destruct (if lease c is Some p then _ else _); done.
    + destruct (if lease c is Some p then _ else _); [constructor|]. constructor; [|constructor]. constructor. congruence.
  - apply wp_bind, wp_start_over; [done|]. intros n' at_ Hn' _. apply wp_ret. exists (Init at_). unfold lease, held.
    destruct (lease_of (c_state c)) as [p|]; cbn; split_and!; try done; repeat constructor.
Qed.

(** An answer to a renewal or a rebinding. *)
Lemma on_extension j c n reply (renewing : bool) e l :
  client_ok j c -> I n -> reply_ok reply -> exchange_ok j e -> lease_ok l -> held (c_state c) = Some (lease_config l) ->
  wp (if negb (xid reply =? ex_xid e) then ret []
      else if renewing && from_another (server reply) (lease_server l) then ret []
      else let server := default (lease_server l) (server reply) in
           if kind reply =? ACK then take_lease reply server (first_sent e) now
           else if kind reply =? NAK then start_over now ;;; ret [Configure None]
           else ret []) (tells j c) (fun _ _ => False) (c, n).
Proof.
  intros Hc Hn Hr He Hl Hh. pose proof (tells_nothing j c n Hc Hn) as Hsame. destruct (negb _); [by apply wp_ret|]. destruct (_ && _); [by apply wp_ret|]. cbv zeta.
  destruct (_ =? ACK).
  { apply take_lease_ok; try done; [|apply He]. pose proof (rp_server _ Hr) as Hs. destruct (server reply); cbn; [by inversion Hs|apply Hl]. }
  destruct (_ =? NAK); [|by apply wp_ret]. apply wp_bind, wp_start_over; [done|]. intros n' at_ Hn' _. apply wp_ret. exists (Init at_). split_and!; try done. by repeat constructor.
Qed.

Lemma on_reply_ok j c n reply : 0 <= j <= u32_max -> client_ok j c -> I n -> reply_ok reply -> wp (on_reply reply now) (tells j c) (fun _ _ => False) (c, n).
Proof.
  intros Hj Hc Hn Hr. pose proof (tells_nothing j c n Hc Hn) as Hsame. pose proof (cl_state _ _ Hc) as Hst. unfold on_reply. apply wp_bind, wp_gets. cbn [fst].
  destruct (negb _); [by apply wp_ret|]. destruct (c_state c) as [at_|e|e o|l|e l|e l] eqn:Es; cbn [state_ok] in Hst; try (by apply wp_ret).
  - destruct (_ || _); [by apply wp_ret|]. destruct (server reply) as [sv|] eqn:Esv; [|by apply wp_ret]. apply wp_bind. eapply wp_mono; [by apply (config_from_ok j)| |done].
    intros w [cfg|x] [-> _]; [|by apply wp_ret]. apply wp_bind, wp_modify, wp_ret. cbn [fst snd]. eexists. split; [reflexivity|]. rewrite Es. split_and!; try done.
    cbn. pose proof (rp_server _ Hr) as Hsv. rewrite Esv in Hsv. split_and!; [constructor; cbn; lia|apply Hr|by inversion Hsv].
  - destruct (negb _); [by apply wp_ret|]. destruct (from_another _ _); [by apply wp_ret|]. destruct (_ =? ACK).
    { apply take_lease_ok; try done; [apply Hst|apply (xk_first _ _ (proj1 Hst))]. }
    destruct (_ =? NAK); [|by apply wp_ret]. apply wp_bind, wp_start_over; [done|]. intros n' at_ Hn' _. apply wp_ret. exists (Init at_). rewrite Es. split_and!; try done.
  - apply (on_extension j c n reply true e l); [done|done|done|apply Hst|apply Hst|by rewrite Es].
  - apply (on_extension j c n reply false e l); [done|done|done|apply Hst|apply Hst|by rewrite Es].
Qed.

(** ** The clock *)

(** How many passes a state is from its next message. *)
Definition rank (s : State) : nat :=
  match s with
  | Selecting _ => 1
  | Init _ => 2
  | Requesting _ _ | Rebinding _ _ => 3
  | Renewing _ _ => 4
  | Bound _ => 5
  end.

(** From [s] on, [effects] come and [s'] is where it ends: nothing is due any
    more; a message goes out just when something was due. *)
Definition asks j c s (w : Client * Net C) (effects : list Effect) : Prop :=
  exists s', w.1 = set_state s' c /\ I w.2 /\ state_ok j s' /\ now < deadline_of s' /\
    published (held s) effects = held s' /\ messages_ok (c_mac c) (held s) effects /\ Forall effect_ok effects /\
    (if deadline_of s <=? now then messages effects = 1%nat else effects = [] /\ s' = s).

Lemma wp_sent_again j c n e wait (Q : Client * Net C -> Exchange -> Prop) X :
  0 <= j <= u32_max -> exchange_ok (j + 1) e -> I n ->
  (forall Q' : Client * Net C -> Z -> Prop, (forall n' d, I n' -> now < d -> Q' (c, n') d) -> wp (wait (ex_sent e + 1)) Q' X (c, n)) ->
  (forall n' e', I n' -> exchange_ok j e' -> now < deadline e' -> Q (c, n') e') -> wp (sent_again e wait) Q X (c, n).
Proof.
  intros Hj [H1 H2] Hn Hw HQ. unfold sent_again. apply wp_bind, wp_checked; [lia|]. apply wp_bind, Hw. intros n' d Hn' Hd. apply wp_ret, HQ; [done| |done].
  constructor; cbn; lia.
Qed.

Lemma wp_after_backoff c n sent (Q : Client * Net C -> Z -> Prop) X :
  I n -> (forall n' d, I n' -> now < d -> Q (c, n') d) -> wp (after_backoff now sent) Q X (c, n).
Proof. intros Hn HQ. unfold after_backoff. apply wp_bind, wp_backoff; [done|]. intros n' w Hn' Hw. apply wp_checked; [unfold u64_max; lia|]. apply HQ; [done|lia]. Qed.

Lemma retransmit_later end_ : now < end_ <= u64_max -> now < retransmit_before now end_.
Proof. intros He. unfold retransmit_before, saturating_sub, MIN_RENEW_RETRANSMIT, HZ, u64_max in *. lia. Qed.

Lemma asks_sent j c s s' n to m :
  I n -> state_ok j s' -> deadline_of s <= now -> now < deadline_of s' -> held s' = held s ->
  o_ciaddr m = default Ip.UNSPECIFIED (config_address <$> held s) -> o_broadcast m = bool_decide (held s = None) -> mac_ok (c_mac c) -> is_u32 to -> is_u8 (o_kind m) ->
  asks j c s (set_state s' c, n) [to_server c to m].
Proof.
  intros Hn Hs Hd Hd' Hh H1 H2 Hm Hto Hk. exists s'. split_and!; try done.
  - split; [|done]. by exists m.
  - constructor; [|constructor]. split; [done|]. by apply build_bytes.
  - by rewrite (proj2 (Z.leb_le _ _) Hd).
Qed.

(** One pass: it is done, or another state with a lower rank goes on. *)
Lemma timer_pass_ok j c n :
  0 <= j < u32_max -> client_ok (j + 1) c -> I n ->
  wp (timer_pass now) (fun w r => if r.1 : bool then asks j c (c_state c) w r.2
      else exists s', w.1 = set_state s' c /\ I w.2 /\ state_ok (j + 1) s' /\ (rank s' < rank (c_state c))%nat /\ deadline_of (c_state c) <= now /\ deadline_of s' <= now /\
           published (held (c_state c)) r.2 = held s' /\ messages r.2 = 0%nat /\ Forall effect_ok r.2) (fun _ _ => False) (c, n).
Proof.
  intros Hj Hc Hn. pose proof (cl_state _ _ Hc) as Hst. unfold timer_pass. apply wp_bind, wp_gets. cbn [fst].
  assert (Hidle : now < deadline_of (c_state c) -> asks j c (c_state c) (c, n) []).
  { intros Hd. exists (c_state c). split_and!; try done; [by destruct c|apply (state_less (j + 1)); [lia|done]|]. replace (_ <=? now) with false by lia. done. }
  destruct (c_state c) as [at_|e|e o|l|e l|e l] eqn:Es; cbn [state_ok rank deadline_of] in *.
  - destruct (now <? at_) eqn:Ed; [apply wp_ret; cbn; apply Hidle; lia|]. apply Z.ltb_ge in Ed. apply wp_bind, (wp_exchange_new c n (j + 1)); [lia|done|]. intros n' e Hn' He Hde.
    apply wp_bind, wp_modify, wp_ret. cbn. exists (Selecting e). split_and!; try done; cbn; lia.
  - destruct (now <? deadline e) eqn:Ed; [apply wp_ret; cbn; apply Hidle; lia|]. apply Z.ltb_ge in Ed. apply wp_bind, (wp_sent_again j); [lia|done|done|intros; by apply wp_after_backoff|].
    intros n' e' Hn' He' Hde. apply wp_bind, wp_modify, wp_ret. apply asks_sent; try done; first [apply Hc | vm_compute; split; discriminate].
  - destruct (now <? deadline e) eqn:Ed; [apply wp_ret; cbn; apply Hidle; lia|]. apply Z.ltb_ge in Ed. destruct (_ <=? ex_sent e).
    { apply wp_bind, wp_modify, wp_ret. cbn. exists (Init now). split_and!; try done; first [cbn; lia | by repeat constructor]. }
    destruct Hst as [He Ho]. apply wp_bind, (wp_sent_again j); [lia|done|done|intros; by apply wp_after_backoff|].
    intros n' e' Hn' He' Hde. apply wp_bind, wp_modify, wp_ret. apply asks_sent; try done; first [apply Hc | vm_compute; split; discriminate].
  - destruct (now <? renew_at l) eqn:Ed; [apply wp_ret; cbn; apply Hidle; lia|]. apply Z.ltb_ge in Ed. apply wp_bind, (wp_exchange_new c n (j + 1)); [lia|done|]. intros n' e Hn' He Hde.
    apply wp_bind, wp_modify, wp_ret. cbn. exists (Renewing e l). split_and!; try done; cbn; lia.
  - destruct Hst as [He Hl]. pose proof (ll_order _ Hl) as Ho. destruct (rebind_at l <=? now) eqn:Er.
    { apply wp_bind, (wp_exchange_new c n (j + 1)); [lia|done|]. intros n' e' Hn' He' Hde. apply wp_bind, wp_modify, wp_ret. cbn. exists (Rebinding e' l). split_and!; try done; cbn; lia. }
    apply Z.leb_gt in Er. destruct (now <? deadline e) eqn:Ed; [apply wp_ret; cbn; apply Hidle; lia|]. apply Z.ltb_ge in Ed.
    pose proof (retransmit_later (rebind_at l) ltac:(lia)) as Hlater. apply wp_bind, (wp_sent_again j); [lia|done|done|intros Q' HQ'; apply wp_ret; by apply HQ'|].
    intros n' e' Hn' He' Hde. apply wp_bind, wp_modify, wp_ret. apply asks_sent; try done; first [apply Hc | apply Hl | vm_compute; split; discriminate | cbn; lia].
  - destruct Hst as [He Hl]. pose proof (ll_order _ Hl) as Ho. destruct (expires_at l <=? now) eqn:Er.
    { apply wp_bind, wp_modify, wp_ret. cbn. exists (Init now). split_and!; try done; first [cbn; lia | by repeat constructor]. }
    apply Z.leb_gt in Er. destruct (now <? deadline e) eqn:Ed; [apply wp_ret; cbn; apply Hidle; lia|]. apply Z.ltb_ge in Ed.
    pose proof (retransmit_later (expires_at l) ltac:(lia)) as Hlater. apply wp_bind, (wp_sent_again j); [lia|done|done|intros Q' HQ'; apply wp_ret; by apply HQ'|].
    intros n' e' Hn' He' Hde. apply wp_bind, wp_modify, wp_ret. apply asks_sent; try done; first [apply Hc | apply Hl | vm_compute; split; discriminate | cbn; lia].
Qed.

Lemma client_less j j' c : j' <= j -> client_ok j c -> client_ok j' c.
Proof. intros Hj []. constructor; try done. by apply (state_less j). Qed.

Lemma client_state j c s : client_ok j c -> state_ok j s -> client_ok j (set_state s c).
Proof. intros [] Hs. by constructor. Qed.

(** Enough passes for the rank leave nothing due. *)
Lemma timer_passes_ok j passes : forall c n,
  0 <= j < u32_max -> client_ok (j + 1) c -> I n -> (rank (c_state c) <= passes)%nat -> wp (timer_passes passes now) (asks j c (c_state c)) (fun _ _ => False) (c, n).
Proof.
  induction passes as [|passes IH]; intros c n Hj Hc Hn Hr; [destruct (c_state c); cbn in Hr; lia|]. cbn [timer_passes]. apply wp_bind. eapply wp_mono; [by apply (timer_pass_ok j)| |done].
  intros w [[] effects] H; cbn [fst snd] in H; [by apply wp_ret|]. destruct w as [c1 n1]. cbn [fst snd] in H. destruct H as (s1 & -> & Hn1 & Hs1 & Hr1 & Hd & Hd1 & Hp & Hm & Hf). cbn [fst snd] in *.
  apply wp_bind. eapply wp_mono; [apply IH; [done|by apply client_state|done|cbn; lia]| |done]. intros w more (s2 & E & Hn2 & Hs2 & Hd2 & Hp2 & Hm2 & Hf2 & Hone). cbn in Hp2, Hm2, Hone. apply wp_ret.
  rewrite (proj2 (Z.leb_le _ _) Hd1) in Hone. exists s2. split_and!; try done.
  - by rewrite published_app, Hp.
  - apply messages_ok_app; [by apply no_messages|]. by rewrite Hp.
  - by apply Forall_app.
  - rewrite (proj2 (Z.leb_le _ _) Hd), messages_app, Hm, Hone. done.
Qed.

Lemma on_timer_ok j c n : 0 <= j < u32_max -> client_ok (j + 1) c -> I n -> wp (on_timer now) (asks j c (c_state c)) (fun _ _ => False) (c, n).
Proof. intros Hj Hc Hn. apply timer_passes_ok; try done. destruct (c_state c); cbn; lia. Qed.

(** ** What has arrived *)

Lemma tells_more j c s w effects n more :
  tells j (set_state s c) w more -> published (held (c_state c)) effects = held s -> messages effects = 0%nat -> Forall effect_ok effects -> I n -> tells j c w (effects ++ more).
Proof.
  intros (s2 & E & Hn2 & Hs2 & Hp2 & Hm2 & Hf2) Hp Hm Hf Hn. exists s2. split_and!; try done; [by rewrite published_app, Hp|by rewrite messages_app, Hm, Hm2|by apply Forall_app].
Qed.

Lemma read_replies_ok j turns : forall c n,
  0 <= j <= u32_max -> client_ok j c -> c_socket c = socket -> I n -> wp (read_replies turns now) (tells j c) (fun _ _ => False) (c, n).
Proof.
  induction turns as [|turns IH]; intros c n Hj Hc Hs Hn; cbn [read_replies]; [apply wp_ret; by apply tells_nothing|]. apply wp_bind, wp_gets. cbn [fst]. apply wp_bind, wp_try. unfold on_net. apply wp_zoom. cbn [snd].
  rewrite Hs. eapply wp_mono; [by apply I_receive| |intros n1 e Hn1; apply wp_ret; by apply tells_nothing]. intros n1 r [Hn1 Hd]. apply wp_bind.
  eapply (wp_mono _ (tells j c) _ (fun _ _ => False)); [| |done].
  - case_bool_decide as Hf; [|apply wp_ret; by apply tells_nothing]. destruct Hd as [Hb Hl]; [by destruct (r_from r)|]. apply wp_bind.
    eapply wp_mono; [by apply dhcp_parse_safe| |done]. intros w [reply|] [-> Hr]; [|apply wp_ret; by apply tells_nothing]. apply on_reply_ok; try done. by inversion Hr.
  - intros [c2 n2] effects H. unfold tells in H. cbn [fst snd] in H. destruct H as (s2 & -> & Hn2 & Hs2 & Hp & Hm & Hf). apply wp_bind. eapply wp_mono; [apply (IH (set_state s2 c)); try done; by apply client_state| |done].
    intros w more H. apply wp_ret. by apply (tells_more j c s2 w effects n2).
Qed.

(** ** A poll *)

(** Where a poll ends: nothing due, what is held published, every message from
    the address held when it is sent. *)
Definition settled j c (w : Client * Net C) (effects : list Effect) : Prop :=
  exists s' up, w.1 = set_link_up up (set_state s' c) /\ I w.2 /\ state_ok j s' /\ now < deadline_of s' /\
    published (held (c_state c)) effects = held s' /\ messages_ok (c_mac c) (held (c_state c)) effects /\ Forall effect_ok effects.

Lemma link_came_up_ok j s : 0 <= j <= u32_max -> state_ok j s -> state_ok j (link_came_up now s) /\ held (link_came_up now s) = held s.
Proof. intros Hj. destruct s; cbn; try done; (intros [[H1 H2] H3]; split; [|done]; split; [by constructor|done]). Qed.

Lemma poll_ok j c n : 0 <= j < u32_max -> client_ok (j + 1) c -> c_socket c = socket -> I n -> wp (poll now) (settled j c) (fun _ _ => False) (c, n).
Proof.
  intros Hj Hc Hs Hn. unfold poll, on_net, on_link_state, link_up. apply wp_bind, wp_zoom, wp_zoom, wp_gets. cbn [fst snd].
  assert (En : with_link (link n) n = n) by (by destruct n). rewrite En. clear En. set (up := attached _ && _). clearbody up. apply wp_bind, wp_gets. cbn [fst]. apply wp_bind.
  set (s1 := if up && negb (c_link_up c) then link_came_up now (c_state c) else c_state c).
  assert (Hs1 : state_ok (j + 1) s1 /\ held s1 = held (c_state c)) by (unfold s1; destruct (_ && _); [apply link_came_up_ok; [lia|]|split; [|done]]; apply Hc).
  apply (wp_mono _ (fun w _ => w = (set_state s1 c, n)) _ (fun _ _ => False)); [|intros w [] ->|done].
  { unfold s1. destruct (_ && _); [by apply wp_modify|apply wp_ret]. by destruct c. }
  apply wp_bind, wp_modify. cbn [fst snd]. destruct Hs1 as [Hs1 Hh1]. clearbody s1. set (c1 := set_link_up up (set_state s1 c)).
  assert (Hc1 : client_ok (j + 1) c1) by (destruct Hc; by constructor).
  apply wp_bind. eapply wp_mono; [apply (read_replies_ok (j + 1) 64 c1); [lia|done|done|done]| |done]. intros [c2 n2] effects H. unfold tells in H. cbn [fst snd] in H.
  destruct H as (s2 & -> & Hn2 & Hs2 & Hp2 & Hm2 & Hf2). apply wp_bind. eapply wp_mono; [apply (on_timer_ok j); [done|by apply client_state|done]| |done].
  intros w more (s3 & E3 & Hn3 & Hs3 & Hd3 & Hp3 & Hm3 & Hf3 & _). apply wp_ret. exists s3, up. cbn in Hp2, Hp3, Hm3. split_and!; try done.
  - by rewrite published_app, <- Hh1, Hp2.
  - apply messages_ok_app; [by apply no_messages|]. by rewrite <- Hh1, Hp2.
  - by apply Forall_app.
Qed.
End client.

(** C11: The timer is never left unanswered: when something is due, at any tick, the
    client asks for exactly one message to be sent, and otherwise it does nothing; in either case nothing is due when it is done,
    so the eight passes are always enough. *)
Theorem due_is_asked {C} {HM : Machine C} {HMok : MachineOk C} c (n : Net C) now :
  0 <= now <= 2 ^ 62 -> client_ok 1 c -> machine_inv (hw (link n)) ->
  exists c' n' effects, on_timer now (c, n) = ((c', n'), Ok effects) /\ now < next_deadline c' /\
    (if next_deadline c <=? now then messages effects = 1%nat else effects = [] /\ c' = c).
Proof.
  intros Hnow Hc Hn.
  pose proof (on_timer_ok (fun n => machine_inv (hw (link n))) now Hnow) as H. specialize (H ltac:(apply machine_random) 0 c n ltac:(unfold u32_max; lia) Hc Hn). unfold wp in H.
  destruct (on_timer now (c, n)) as [[c' n'] [effects|e|w]]; [|done|done]. destruct H as (s' & Ec & _ & _ & Hd & _ & _ & _ & Hdue). cbn in Ec. exists c', n', effects. subst c'.
  split_and!; [done|done|]. unfold next_deadline. destruct (_ <=? _); [done|]. destruct Hdue as [H1 ->]. split; [done|]. by destruct c.
Qed.
