(* ===== verification/Host.v ===== *)
(** * The machine's network

    The sockets with the machine's own DHCP client: [tick] and [receive] of
    [kernel/src/net/mod.rs], [start] and [on_tick] of [dhcp.rs], and the calls
    programs make, one after the other. The telnet console that [tick] also runs
    is a program like the others here: it makes the same calls. *)

From S2P Require Import Prelude Safe Words Packets PacketSpec Config Tcp TcpInput TcpRuns TcpBounds TcpServes Link LinkSpec Udp Sockets SocketsSpec SocketsServe Dhcp DhcpSpec.

Record Host (C : Type) := mkHost {
  net : Net C;
  (** [CLIENT] *)
  client : option Dhcp.Client;
  (** [RUNNING] of [tick]. *)
  ticking : bool;
}.
Arguments mkHost {C}.
Arguments net {C}.
Arguments client {C}.
Arguments ticking {C}.

Section host.
Context {C : Type} `{!Machine C} `{!Sorter}.
Abbreviation HM := (M (Host C) Errno).

Definition with_net (n : Net C) (h : Host C) : Host C := mkHost n (client h) (ticking h).
Definition with_client (c : option Dhcp.Client) (h : Host C) : Host C := mkHost (net h) c (ticking h).
Definition with_ticking (b : bool) (h : Host C) : Host C := mkHost (net h) (client h) b.

Definition on_host_net {A} (m : M (Net C) Errno A) : HM A := zoom net with_net m.

(** The client's own methods, under its lock. *)
Definition on_client {A} (c : Dhcp.Client) (m : M (Dhcp.Client * Net C) Errno A) : HM A :=
  fun h => match m (c, net h) with ((c', n'), r) => (mkHost n' (Some c') (ticking h), r) end.

(** [dhcp::start]; a port that is taken is only reported, and a client that is
    replaced closes its socket. *)
Definition dhcp_start (nameserver : option Z) : HM unit :=
  let! hardware := on_host_net (on_link_state mac) in
  let! t := on_host_net (on_link_state now) in
  let! made := try_ (on_host_net (Dhcp.client_new hardware nameserver t)) in
  match made with
  | inl c =>
      let! old := gets client in
      modify (with_client (Some c)) ;;;
      match old with Some old => on_host_net (close (Dhcp.c_socket old)) | None => ret tt end
  | inr _ => ret tt
  end.

(** [dhcp::on_tick] *)
Definition dhcp_on_tick : HM unit :=
  let! t := on_host_net (on_link_state now) in
  let! c := gets client in
  match c with
  | None => ret tt
  | Some c =>
      let! effects := on_client c (Dhcp.poll t) in
      on_host_net (Dhcp.apply (Dhcp.c_socket c) effects)
  end.

(** [net::tick] *)
Definition tick : HM unit :=
  let! running := gets ticking in
  modify (with_ticking true) ;;;
  if running then ret tt
  else
    on_host_net deliver_loopback ;;;
    on_host_net (on_link_state expire) ;;;
    on_host_net on_tick ;;;
    dhcp_on_tick ;;;
    modify (with_ticking false).

(** [net::receive] *)
Definition host_receive (frame : list Z) : HM unit :=
  let! due := on_host_net (net_receive frame) in
  if due then tick else ret tt.

(** [net::next_deadline] *)
Definition host_deadline : HM Z :=
  let! waiting := gets (fun h => loopback (link (net h))) in
  if negb (bool_decide (waiting = [])) then on_host_net (on_link_state now)
  else gets (fun h =>
    Z.min (Z.min (arp_next_deadline (link (net h))) (tcp_next_deadline (net h)))
      (match client h with Some c => Dhcp.next_deadline c | None => u64_max end)).

(** ** Sockets that nothing refers to *)

Definition children_of (s : InetSocket) : list nat := match inner s with ProtoTcp t => children t | ProtoUdp _ => [] end.

Definition referred (n : Net C) (id : nat) : bool :=
  bool_decide (id ∈ table n) || existsb (fun e => bool_decide (id ∈ children_of (snd e))) (map_to_list (heap n)).

(** [Drop for Tcb]: its share of the common count goes back. *)
Definition drop_socket (id : nat) : M (Net C) Errno unit :=
  let! s := the_socket id in
  on_link_state (modify (fun l => match inner s with ProtoTcp t => with_share (wrap64 (held_share l - Tcp.held t)) l | ProtoUdp _ => l end)) ;;;
  modify (fun n => with_heap (delete id (heap n)) n).

(** ** What happens to the machine *)

Inductive HostCall :=
| OnFrame (frame : list Z)
| OnTick
| OnStart (nameserver : option Z)
| OnSocket (stream : bool)
| OnBind (id : nat) (e : Endpoint)
| OnListen (id : nat) (backlog : Z)
| OnAccept (id : nat)
| OnConnect (id : nat) (e : Endpoint)
| OnSend (id : nat) (buf : list Z) (to : option Endpoint)
| OnReceive (id : nat) (room : Z) (peek : bool)
| OnProgress (id : nat)
| OnTakeError (id : nat)
| OnShutdown (id : nat) (rd wr : bool)
| OnAbort (id : nat)
| OnClose (id : nat)
| OnDrop (id : nat).

(** Programs hold the sockets of [fds], and ask only about those. *)
Definition held_call {A} (id : nat) (m : M (Net C) Errno A) : M (Host C * gset nat) Errno unit :=
  let! fds := gets snd in
  if bool_decide (id ∈ fds) then let! _ := try_ (zoom fst (fun h w => (h, snd w)) (on_host_net m)) in ret tt else ret tt.

Definition on_machine {A} (m : HM A) : M (Host C * gset nat) Errno A := zoom fst (fun h w => (h, snd w)) m.

Definition host_call (c : HostCall) : M (Host C * gset nat) Errno unit :=
  match c with
  | OnFrame frame => let! _ := try_ (on_machine (host_receive frame)) in ret tt
  | OnTick => let! _ := try_ (on_machine tick) in ret tt
  | OnStart nameserver => let! _ := try_ (on_machine (dhcp_start nameserver)) in ret tt
  | OnSocket stream =>
      let! id := on_machine (on_host_net (new_socket stream)) in
      modify (fun w => (fst w, snd w ∪ {[id]}))
  | OnBind id e => held_call id (bind_ id e)
  | OnListen id backlog => held_call id (listen id backlog)
  | OnAccept id =>
      let! fds := gets snd in
      if bool_decide (id ∈ fds) then
        let! r := try_ (on_machine (on_host_net (accept_ready id))) in
        match r with
        | inl (Some child) => modify (fun w => (fst w, snd w ∪ {[child]}))
        | _ => ret tt
        end
      else ret tt
  | OnConnect id e => held_call id (connect id e)
  | OnSend id buf to => held_call id (send id buf to)
  | OnReceive id room peek => held_call id (receive_into id room peek)
  | OnProgress id => held_call id (connection_progress id)
  | OnTakeError id => held_call id (take_error id)
  | OnShutdown id rd wr => held_call id (shutdown id rd wr)
  | OnAbort id => held_call id (socket_abort id)
  | OnClose id => held_call id (close id) ;;; modify (fun w => (fst w, snd w ∖ {[id]}))
  | OnDrop id =>
      let! free := gets (fun w => negb (bool_decide (id ∈ snd w)) && negb (bool_decide (Dhcp.c_socket <$> client (fst w) = Some id))
                                  && negb (referred (net (fst w)) id) && bool_decide (is_Some (heap (net (fst w)) !! id))) in
      if free then on_machine (on_host_net (drop_socket id)) else ret tt
  end.

Fixpoint host_run (calls : list HostCall) : M (Host C * gset nat) Errno unit :=
  match calls with
  | [] => ret tt
  | c :: rest => host_call c ;;; host_run rest
  end.

(** The machine when the kernel has started. *)
Definition link_boot (c : C) : Link C := mkLink c None [] [] 1 0 0 0 0 0 None None.
Definition host_boot (c : C) : Host C := mkHost (mkNet (link_boot c) ∅ 0 [] EPHEMERAL_FIRST false) None false.
End host.

(** * Whatever happens to the machine's network

    [host_at fds j h]: the sockets, the link and the client are in order, the
    sockets programs and the client hold are alive, and every counter has room
    for [j]. *)

Section host.
Context {C : Type} {HM : Machine C} {HMok : MachineOk C} {HS : Sorter} {HSok : SorterOk}.
Abbreviation NM := (M (Net C) Errno).
Abbreviation XM := (M (Host C) Errno).
Implicit Types (h : Host C) (n : Net C) (fds D : gset nat).

Definition client_refs (c : option Dhcp.Client) : gset nat := match c with Some c => {[Dhcp.c_socket c]} | None => ∅ end.

Definition host_at fds (j : Z) h : Prop :=
  net_at (fds ∪ client_refs (client h)) (fun _ => j) (net h) /\ option_Forall (client_ok j) (client h).

Definition hserves {A} fds (k : Z) (m : XM A) (P : A -> Prop) : Prop :=
  forall j h, 0 <= j -> host_at fds (j + k) h -> wp m (fun h' a => host_at fds j h' /\ P a) (fun h' _ => host_at fds j h') h.

Lemma host_down fds j j' h : 0 <= j' <= j -> host_at fds j h -> host_at fds j' h.
Proof.
  intros Hj [H1 H2]. split; [eapply net_less; [|exact H1]; intros; cbn; lia|]. destruct H2; constructor. apply (client_less j); [lia|done].
Qed.

Lemma hs_bind {A B} fds k k' (m : XM A) (f : A -> XM B) P Q :
  0 <= k -> 0 <= k' -> hserves fds k m P -> (forall a, P a -> hserves fds k' (f a) Q) -> hserves fds (k + k') (bind m f) Q.
Proof.
  intros Hk Hk' Hm Hf j h Hj Hh. apply wp_bind. eapply wp_mono; [apply (Hm (j + k')); [lia|]| |].
  - by replace (j + k' + k) with (j + (k + k')) by lia.
  - intros h' a [H1 H2]. by apply Hf.
  - intros h' e H. apply (host_down fds (j + k')); [lia|done].
Qed.

Lemma hs_then {A B} fds k (m : XM A) (f : A -> XM B) P Q :
  0 <= k -> hserves fds 0 m P -> (forall a, P a -> hserves fds k (f a) Q) -> hserves fds k (bind m f) Q.
Proof. intros Hk Hm Hf. by apply (hs_bind fds 0 k m f P Q). Qed.

Lemma hs_more {A} fds k k' (m : XM A) P : 0 <= k <= k' -> hserves fds k m P -> hserves fds k' m P.
Proof. intros Hk Hm j h Hj Hh. apply Hm; [done|]. apply (host_down fds (j + k')); [lia|done]. Qed.

Lemma hs_ret {A} fds (a : A) (P : A -> Prop) : P a -> hserves fds 0 (ret a) P.
Proof. intros HP j h Hj Hh. apply wp_ret. split; [|done]. by rewrite Z.add_0_r in Hh. Qed.

Lemma hs_net {A} fds k (m : NM A) P : 0 <= k -> (forall D, fds ⊆ D -> nserves D k m P) -> hserves fds k (on_host_net m) P.
Proof.
  intros Hk Hm j h Hj [Hn Hc]. assert (Hc' : option_Forall (client_ok j) (client h)) by (destruct Hc; constructor; apply (client_less (j + k)); [lia|done]).
  unfold on_host_net. apply wp_zoom. eapply wp_mono; [apply (Hm (fds ∪ client_refs (client h)) ltac:(set_solver) (fun _ => j)); [done|exact Hn]| |]; [intros n' a [H1 H2]; split; [|done]|intros n' e H1]; by split.
Qed.

Lemma hs_ticking fds b : hserves fds 0 (modify (with_ticking b)) (fun _ => True).
Proof. intros j h Hj Hh. apply wp_modify. split; [|done]. by rewrite Z.add_0_r in Hh. Qed.

(** ** The client *)

Lemma ns_configure D c : option_Forall config_ok c -> nserves (C := C) D 0 (on_link_state (configure c)) (fun _ => True).
Proof.
  intros Hc J n HJ Hn0. assert (Hn : net_at D J n) by (by apply (net_down D J 0)). pose proof Hn as [Hok _]. unfold on_link_state. apply wp_zoom.
  eapply wp_mono; [apply configure_ok; [apply (nk_link _ _ Hok)|done]| |done]. intros l [] (H1 & _ & _ & H2). split; [|done]. by apply net_link.
Qed.

Lemma ns_apply D socket effects : socket ∈ D -> Forall effect_ok effects -> nserves (C := C) D 0 (Dhcp.apply socket effects) (fun _ => True).
Proof.
  intros Hs He. unfold Dhcp.apply. induction He as [|e effects He Hes IH]; cbn [mapM_]; [by apply ns_ret|]. eapply ns_bind0; [|intros [] _; exact IH].
  destruct e as [to message|c]; cbn [Dhcp.apply_one effect_ok] in *; [|by apply ns_configure]. destruct He as (H1 & H2 & H3).
  eapply ns_bind0; [eapply ns_try, ns_send; try done|intros; by apply ns_ret]. constructor. split; [done|]. vm_compute; split; discriminate.
Qed.

Lemma net_random D J n : (forall i, 0 <= J i) -> net_at D J n ->
  wp (on_link_state (Prelude.state (machine next_u64))) (fun n' r => net_at D J n' /\ is_u64 r) (fun _ (_ : Errno) => False) n.
Proof.
  intros HJ Hn. pose proof (ns_link D (Prelude.state (machine next_u64)) is_u64 ltac:(intros; apply moves_machine, next_u64_ok) J n HJ (net_same D J n Hn HJ)) as H.
  unfold wp, on_link_state, zoom, Prelude.state in *. by destruct (machine next_u64 (link n)).
Qed.

Lemma hs_dhcp_on_tick fds : hserves fds 1 dhcp_on_tick (fun _ => True).
Proof.
  unfold dhcp_on_tick. eapply (hs_then _ _ _ _ (fun t => 0 <= t <= 2 ^ 62)); [lia|apply hs_net; [lia|]; intros; apply ns_link; intros; apply moves_now|]. intros t Ht.
  intros j h Hj Hh. apply wp_bind, wp_gets. destruct (client h) as [c|] eqn:Ec; [|apply wp_ret; split; [|done]; apply (host_down fds (j + 1)); [lia|done]].
  destruct Hh as [Hn Hc]. rewrite Ec in Hn, Hc. assert (Hc' : client_ok (j + 1) c) by (by inversion Hc). cbn [client_refs] in Hn. set (D := fds ∪ {[Dhcp.c_socket c]}) in *.
  assert (Hin : Dhcp.c_socket c ∈ D) by set_solver. assert (Hroom : j < u32_max) by (pose proof (nk_room _ _ (proj1 Hn) 0%nat) as H; cbn in H; lia).
  assert (Hn0 : net_at D (fun _ => j) (net h)) by (eapply net_less; [|exact Hn]; intros; cbn; lia).
  pose proof (poll_ok (net_at D (fun _ => j)) (Dhcp.c_socket c) t Ht) as Hpoll. apply wp_bind. unfold on_client, wp.
  specialize (Hpoll ltac:(intros n H; by apply net_random)).
  specialize (Hpoll ltac:(intros n H; by apply (ns_receive_into D (Dhcp.c_socket c) Ether.MTU false Hin (fun _ => j) n ltac:(done) (net_same _ _ _ H ltac:(done))))).
  specialize (Hpoll j c (net h) ltac:(lia) Hc' eq_refl Hn0). unfold wp in Hpoll. destruct (Dhcp.poll t (c, net h)) as [[c1 n1] [effects|e|w]]; [|done|done].
  destruct Hpoll as (s' & up & E & Hn1 & Hs1 & _ & _ & _ & Hf). cbn [fst snd] in E, Hn1.
  assert (Hrefs : fds ∪ client_refs (Some c1) = D) by (rewrite E; done).
  assert (Hc1 : client_ok j c1) by (rewrite E; destruct Hc'; by constructor).
  change (wp (on_host_net (Dhcp.apply (Dhcp.c_socket c) effects)) (fun h' _ => host_at fds j h' /\ True) (fun h' _ => host_at fds j h') (mkHost n1 (Some c1) (ticking h))).
  unfold on_host_net. apply wp_zoom. cbn [net]. eapply wp_mono; [apply (ns_apply D (Dhcp.c_socket c) effects Hin Hf (fun _ => j) n1); [done|by apply net_same]| |].
  - intros n2 [] [Hn2 _]. split; [|done]. split; cbn [client with_net net]; [by rewrite Hrefs|by constructor].
  - intros n2 e Hn2. split; cbn [client with_net net]; [by rewrite Hrefs|by constructor].
Qed.

(** ** The clock, frames, starting the client *)

Lemma hs_tick fds : hserves fds (DELIVERY + 2) tick (fun _ => True).
Proof.
  unfold tick. assert (Hd : 0 <= DELIVERY) by (unfold DELIVERY, LOOPBACK_LIMIT; lia). eapply (hs_then _ _ _ _ (fun _ => True)); [lia|intros j h Hj Hh; apply wp_gets; split; [by rewrite Z.add_0_r in Hh|done]|].
  intros running _. eapply hs_then; [lia|apply hs_ticking|intros [] _]. destruct running; [apply (hs_more fds 0); [lia|by apply hs_ret]|].
  apply (hs_bind _ _ 2 _ _ (fun _ => True)); [lia|lia|apply hs_net; [lia|intros; apply ns_deliver_loopback]|intros [] _].
  eapply hs_then; [lia|apply hs_net; [lia|]; intros; apply ns_link; intros; apply moves_expire|intros [] _].
  apply (hs_bind _ 1 1 _ _ (fun _ => True)); [lia|lia|apply hs_net; [lia|intros; apply ns_on_tick]|intros [] _].
  apply (hs_bind _ 1 0 _ _ (fun _ => True)); [lia|lia|apply hs_dhcp_on_tick|intros [] _]. apply hs_ticking.
Qed.

Lemma hs_receive fds frame : Forall is_u8 frame -> hserves fds (DELIVERY + 5) (host_receive frame) (fun _ => True).
Proof.
  intros Hf. unfold host_receive. assert (Hd : 0 <= DELIVERY) by (unfold DELIVERY, LOOPBACK_LIMIT; lia). replace (DELIVERY + 5) with (3 + (DELIVERY + 2)) by lia.
  apply (hs_bind _ _ _ _ _ (fun _ => True)); [lia|lia|apply hs_net; [lia|intros; by apply ns_net_receive]|]. intros [] _; [apply hs_tick|]. apply (hs_more fds 0); [lia|by apply hs_ret].
Qed.

Lemma wp_client_new D J j hardware ns t n :
  net_at D J n -> (forall i, 0 <= J i) -> mac_ok hardware -> option_Forall is_u32 ns ->
  wp (Dhcp.client_new hardware ns t) (fun n' c => net_at (D ∪ {[Dhcp.c_socket c]}) J n' /\ client_ok j c) (fun n' _ => net_at D J n') n.
Proof.
  intros Hn HJ Hm Hns. unfold Dhcp.client_new. apply wp_bind, wp_state. cbn [fst snd]. pose proof (net_new D J n false Hn HJ) as Hn1. set (D' := D ∪ {[next_handle n]}) in *.
  apply wp_bind. eapply wp_mono; [apply (ns_bind_socket D' (next_handle n)); [set_solver|vm_compute; repeat split; discriminate|exact HJ|by apply net_same]| |].
  - intros n2 [] [Hn2 _]. apply wp_ret. split; [done|]. by constructor.
  - intros n2 e Hn2. eapply net_fewer; [|exact Hn2]. set_solver.
Qed.

Lemma hs_dhcp_start fds ns : option_Forall is_u32 ns -> hserves fds DELIVERY (dhcp_start ns) (fun _ => True).
Proof.
  intros Hns. unfold dhcp_start. assert (Hd : 0 <= DELIVERY) by (unfold DELIVERY, LOOPBACK_LIMIT; lia).
  eapply hs_then; [lia|apply hs_net; [lia|]; intros; apply ns_link; intros; apply moves_mac|]. intros hardware Hm.
  eapply hs_then; [lia|apply hs_net; [lia|]; intros; apply ns_link; intros; apply moves_now|]. intros t Ht.
  intros j h Hj Hh. assert (Hdown : forall h', host_at fds (j + DELIVERY) h' -> host_at fds j h') by (intros h'; apply host_down; lia).
  pose proof Hh as [Hn Hc]. apply wp_bind, wp_try. unfold on_host_net. apply wp_zoom. eapply wp_mono; [apply (wp_client_new _ _ (j + DELIVERY) hardware ns t _ Hn); [intros; lia|done|done]| |].
  - intros n1 c [Hn1 Hc1]. apply wp_bind, wp_gets, wp_bind, wp_modify. cbn [client with_client with_net ticking net].
    assert (Hnew : net_at (fds ∪ client_refs (Some c)) (fun _ => j + DELIVERY) n1) by (eapply net_fewer; [|exact Hn1]; set_solver).
    assert (Hc1' : client_ok j c) by (apply (client_less (j + DELIVERY)); [lia|done]).
    destruct (client h) as [old|]; [|apply wp_ret; split; [|done]; apply Hdown; split; [exact Hnew|by constructor]].
    unfold on_host_net. apply wp_zoom. cbn [net with_client with_net]. set (D := _ ∪ _) in Hn1.
    eapply wp_mono; [apply (ns_close D (Dhcp.c_socket old) ltac:(unfold D; cbn; set_solver) (fun _ => j) n1); [done|exact Hn1]| |];
      [intros n2 [] [Hn2 _]; split; [|done]|intros n2 e Hn2]; (split; [eapply net_fewer; [|exact Hn2]; cbn; set_solver|by constructor]).
  - intros n1 e Hn1. apply wp_ret. split; [|done]. apply Hdown. by split.
Qed.

(** ** A socket nothing refers to *)

Lemma not_referred J n id : net_ok J n -> referred n id = false -> (id ∉ table n) /\ forall i s t, heap n !! i = Some s -> inner s = ProtoTcp t -> id ∉ children t.
Proof.
  intros Hok Hr. unfold referred in Hr. apply orb_false_iff in Hr as [H1 H2]. apply bool_decide_eq_false in H1. split; [done|]. intros i s t Hs Hi Hin.
  assert (Ht : existsb (fun e => bool_decide (id ∈ children_of (snd e))) (map_to_list (heap n)) = true); [|congruence].
  apply existsb_exists. exists (i, s). split; [apply list_elem_of_In; by apply elem_of_map_to_list|]. apply bool_decide_eq_true. unfold children_of. cbn. by rewrite Hi.
Qed.

Lemma net_drop D J n id s l :
  net_at D J n -> heap n !! id = Some s -> id ∉ D -> referred n id = false -> link_ok l -> held_share l = held_share (link n) - socket_held s ->
  net_at D J (with_heap (delete id (heap n)) (with_link l n)).
Proof.
  intros [Hok HD] Hs Hid Hr Hl Hsh. destruct (not_referred J n id Hok Hr) as [Ht Hk]. destruct Hok as [H1 H2 H3 H4 H5 H6 H7 H8].
  assert (Hal : forall i, i <> id -> alive (heap n) i -> alive (delete id (heap n)) i) by (intros i Hi; unfold alive; by rewrite lookup_delete_ne).
  assert (Hback : forall i x, delete id (heap n) !! i = Some x -> heap n !! i = Some x) by (intros i x [_ H]%lookup_delete_Some; done).
  split; [|intros i Hi; cbn; apply Hal; [congruence|by apply HD]]. constructor; cbn; try done.
  - rewrite Hsh, H2, (held_delete _ _ _ Hs). lia.
  - intros i [x Hx]. apply H3. exists x. by apply Hback.
  - intros i x Hx. specialize (H4 i x (Hback i x Hx)). unfold socket_ok in *. destruct (inner x) as [t|] eqn:Ei; [|done]. destruct H4 as (P1 & P2 & P3 & P4). split_and!; try done.
    apply Forall_forall. intros k Hin. rewrite Forall_forall in P4. apply Hal; [|by apply P4]. intros ->. by apply (Hk i x t (Hback i x Hx) Ei).
  - apply Forall_forall. intros k Hin. rewrite Forall_forall in H6. apply Hal; [|by apply H6]. congruence.
Qed.

Lemma wp_drop_socket D J n id (Q : Net C -> unit -> Prop) X :
  net_at D J n -> (forall i, 0 <= J i) -> alive (heap n) id -> id ∉ D -> referred n id = false -> (forall n', net_at D J n' -> Q n' tt) -> wp (drop_socket id) Q X n.
Proof.
  intros Hn HJ [s Hs] Hid Hr HQ. unfold drop_socket. apply wp_bind. unfold wp at 1, the_socket. rewrite Hs. unfold on_link_state. apply wp_bind, wp_zoom, wp_modify, wp_modify. apply HQ.
  pose proof Hn as [Hok _]. pose proof (nk_link _ _ Hok) as Hl. pose proof (nk_share _ _ Hok) as Hsh. rewrite (held_delete _ _ _ Hs) in Hsh. pose proof (others_nonneg J n id Hok) as Hp.
  pose proof (nk_sockets _ _ Hok id s Hs) as Hso. unfold socket_ok in Hso. unfold socket_held in Hsh. pose proof (lk_share _ Hl) as Hlim. unfold REASSEMBLY_LIMIT in Hlim.
  destruct (inner s) as [t|u] eqn:Ei.
  - destruct Hso as (_ & _ & Hh & _). assert (Hw : wrap64 (held_share (link n) - Tcp.held t) = held_share (link n) - Tcp.held t) by (unfold wrap64, u64_max; apply Z.mod_small; lia). rewrite Hw.
    apply (net_drop D J n id s); try done; [|unfold socket_held; by rewrite Ei]. destruct Hl. constructor; cbn; try done. unfold REASSEMBLY_LIMIT. lia.
  - apply (net_drop D J n id s); try done. unfold socket_held. rewrite Ei. lia.
Qed.

(** ** Any sequence of events *)

Definition host_call_ok (c : HostCall) : Prop :=
  match c with
  | OnFrame frame => Forall is_u8 frame
  | OnStart nameserver => option_Forall is_u32 nameserver
  | OnBind _ e | OnConnect _ e => endpoint_ok e
  | OnSend _ buf to => Forall is_u8 buf /\ len buf <= 2 ^ 62 /\ option_Forall endpoint_ok to
  | _ => True
  end.

(** The room one event takes. *)
Definition CALL_ROOM : Z := DELIVERY + 5.

Abbreviation at_ j w := (host_at (snd w) j (fst w)).
Abbreviation keeps_host m j w := (wp m (fun (w' : Host C * gset nat) (_ : unit) => at_ j w') (fun _ (_ : Errno) => False) w).

Lemma on_machine_ok {A} k (m : XM A) P j h fds :
  0 <= j -> 0 <= k <= CALL_ROOM -> hserves fds k m P -> host_at fds (j + CALL_ROOM) h -> keeps_host (let! _ := try_ (on_machine m) in ret tt) j (h, fds).
Proof.
  intros Hj Hk Hm Hh. apply wp_bind, wp_try. unfold on_machine. apply wp_zoom. cbn [fst snd]. eapply wp_mono; [apply (Hm j); [done|apply (host_down fds (j + CALL_ROOM)); [lia|done]]| |].
  - intros h' a [H _]. by apply wp_ret.
  - intros h' e H. by apply wp_ret.
Qed.

Lemma held_call_ok {A} k id (m : NM A) P j h fds :
  0 <= j -> 0 <= k <= CALL_ROOM -> (forall D, id ∈ D -> nserves D k m P) -> host_at fds (j + CALL_ROOM) h -> keeps_host (held_call id m) j (h, fds).
Proof.
  intros Hj Hk Hm Hh. unfold held_call. apply wp_bind, wp_gets. cbn [snd]. case_bool_decide as Hin; [|apply wp_ret; cbn; apply (host_down fds (j + CALL_ROOM)); [lia|done]].
  apply (on_machine_ok k (on_host_net m) P); try done. apply hs_net; [lia|]. intros D HD. apply Hm. set_solver.
Qed.

Lemma call_serves j c w : 0 <= j -> host_call_ok c -> at_ (j + CALL_ROOM) w -> keeps_host (host_call c) j w.
Proof.
  destruct w as [h fds]. cbn [fst snd]. intros Hj Hc Hh. assert (Hd : 0 <= DELIVERY) by (unfold DELIVERY, LOOPBACK_LIMIT; lia). assert (Hroom : CALL_ROOM = DELIVERY + 5) by done.
  assert (Hsame : forall j', 0 <= j' <= j + CALL_ROOM -> host_at fds j' h) by (intros j' Hj'; by apply (host_down fds (j + CALL_ROOM))).
  destruct c; cbn [host_call host_call_ok] in *.
  - apply (on_machine_ok (DELIVERY + 5) _ (fun _ => True)); [done|lia|by apply hs_receive|done].
  - apply (on_machine_ok (DELIVERY + 2) _ (fun _ => True)); [done|lia|by apply hs_tick|done].
  - apply (on_machine_ok DELIVERY _ (fun _ => True)); [done|lia|by apply hs_dhcp_start|done].
  - apply wp_bind. unfold on_machine, on_host_net. apply wp_zoom, wp_zoom, wp_state. cbn [fst snd]. apply wp_modify. cbn [fst snd].
    destruct (Hsame j ltac:(lia)) as [Hn Hcl]. split; [|done]. cbn [client with_net net]. eapply net_fewer; [|apply (net_new _ _ _ stream Hn); done]. set_solver.
  - apply (held_call_ok 0 _ _ (fun _ => True)); [done|lia| |done]. intros D HD. by apply ns_bind_socket.
  - apply (held_call_ok 0 _ _ (fun _ => True)); [done|lia| |done]. intros D HD. by apply ns_listen.
  - apply wp_bind, wp_gets. cbn [snd]. case_bool_decide as Hin; [|apply wp_ret; apply Hsame; lia]. apply wp_bind, wp_try. unfold on_machine, on_host_net. apply wp_zoom, wp_zoom. cbn [fst snd].
    destruct (Hsame (j + DELIVERY) ltac:(lia)) as [Hn Hcl]. assert (Hcl' : option_Forall (client_ok j) (client h)) by (apply (Hsame j); lia).
    eapply wp_mono; [apply (hands_accept_ready (fds ∪ client_refs (client h)) id ltac:(set_solver) (fun _ => j)); [done|exact Hn]| |].
    + intros n' [child|] Hn'; [apply wp_modify|apply wp_ret]; (split; [|done]); cbn [fst snd client with_net net]; (eapply net_fewer; [|exact Hn']); cbn; set_solver.
    + intros n' e Hn'. apply wp_ret. by split.
  - apply (held_call_ok DELIVERY _ _ (fun _ => True)); [done|lia| |done]. intros D HD. by apply ns_connect.
  - destruct Hc as (H1 & H2 & H3). apply (held_call_ok 0 _ _ (fun _ => True)); [done|lia| |done]. intros D HD. by apply ns_send.
  - eapply (held_call_ok 0); [done|lia| |done]. intros D HD. by apply ns_receive_into.
  - apply (held_call_ok 0 _ _ (fun _ => True)); [done|lia| |done]. intros D HD. by apply ns_connection_progress.
  - apply (held_call_ok 0 _ _ (fun _ => True)); [done|lia| |done]. intros D HD. by apply ns_take_error.
  - apply (held_call_ok 0 _ _ (fun _ => True)); [done|lia| |done]. intros D HD. by apply ns_shutdown.
  - apply (held_call_ok 0 _ _ (fun _ => True)); [done|lia| |done]. intros D HD. by apply ns_socket_abort.
  - apply wp_bind. eapply wp_mono; [apply (held_call_ok DELIVERY _ _ (fun _ => True)); [exact Hj|lia| |exact Hh]; intros D HD; by apply ns_close| |done].
    intros [h' fds'] [] [Hn Hcl]. apply wp_modify. split; [|done]. cbn [fst snd] in *. eapply net_fewer; [|exact Hn]. set_solver.
  - apply wp_bind, wp_gets. cbn [fst snd]. destruct (Hsame j ltac:(lia)) as [Hn Hcl]. destruct (_ && _) eqn:Ef; [|by apply wp_ret].
    rewrite !andb_true_iff, !negb_true_iff, !bool_decide_eq_false, bool_decide_eq_true in Ef. destruct Ef as (((Hf & Hcs) & Hr) & Hal).
    unfold on_machine, on_host_net. apply wp_zoom, wp_zoom. cbn [fst snd]. eapply wp_drop_socket; [exact Hn|done|exact Hal| |exact Hr|].
    + destruct (client h) as [c|]; cbn in *; [|set_solver]. assert (Dhcp.c_socket c <> id) by congruence. set_solver.
    + intros n' Hn'. by split.
Qed.

(** The exchange the DHCP client is in the middle of. *)
Definition exchange_of (s : Dhcp.State) : option Dhcp.Exchange :=
  match s with
  | Dhcp.Selecting e | Dhcp.Requesting e _ | Dhcp.Renewing e _ | Dhcp.Rebinding e _ => Some e
  | Dhcp.Init _ | Dhcp.Bound _ => None
  end.

(** The room in the 32-bit counters of a socket, and of the client. *)
Definition socket_spare (s : InetSocket) : Z := match inner s with ProtoTcp t => spare t | ProtoUdp _ => u32_max end.
Definition client_spare (c : Dhcp.Client) : Z := from_option (fun e => u32_max - Dhcp.ex_sent e) u32_max (exchange_of (Dhcp.c_state c)).

(** A counter of a socket or of the client has less room than [k]. *)
Definition worn (k : Z) (h : Host C) : Prop :=
  (exists id s, heap (net h) !! id = Some s /\ socket_spare s < k) \/ exists c, client h = Some c /\ client_spare c < k.

Definition roomy (k : Z) (h : Host C) : Prop :=
  map_Forall (fun _ s => k <= socket_spare s) (heap (net h)) /\ option_Forall (fun c => k <= client_spare c) (client h).

Lemma worn_or_roomy k h : worn k h \/ roomy k h.
Proof.
  unfold roomy. destruct (decide (map_Forall (fun _ s => k <= socket_spare s) (heap (net h)))) as [Hs|Hs].
  - destruct (client h) as [c|] eqn:Ec; [|right; split; [done|constructor]]. destruct (Z.le_gt_cases k (client_spare c)) as [H|H]; [right; split; [done|by constructor]|].
    left. right. by exists c.
  - left. left. apply map_not_Forall in Hs; [|apply _]. destruct Hs as (id & s & Hs & H). exists id, s. split; [done|lia].
Qed.

Lemma roomy_ok fds j k h : 0 <= k <= u32_max -> roomy k h -> host_at fds j h -> host_at fds k h.
Proof.
  intros Hk [Hs Hcl] [[Hn HD] Hc]. split.
  - split; [|done]. destruct Hn. constructor; try done; [|intros _; lia]. intros id s Hid. specialize (nk_sockets id s Hid). specialize (Hs id s Hid).
    unfold socket_ok, socket_spare in *. destruct (inner s) as [t|u]; [|done]. destruct nk_sockets as (H1 & H2 & H3). split; [done|]. split; [|done].
    intros l Hl Hh. by apply (ok_spare j); [|apply H2].
  - clear HD. revert Hcl. destruct Hc as [|c [H1 H2 H3]]; intros Hcl; constructor. inversion Hcl as [|c' Hsp E]; subst c'. constructor; [done..|].
    unfold client_spare in Hsp. destruct (Dhcp.c_state c); cbn in *; try done; [destruct H3; constructor; [done|lia]|..].
    all: destruct H3 as [[] ?]; split; [constructor; [done|lia]|done].
Qed.

(** Events are served for as long as each counter has the room one event takes. *)
Lemma run_serves calls : forall j k w, 0 <= j -> 0 <= k -> u32_max - CALL_ROOM * k <= j -> Forall host_call_ok calls -> at_ j w ->
  exists served rest w', calls = served ++ rest /\ host_run served w = (w', Ok tt) /\ at_ 0 w' /\
    (rest = [] \/ worn CALL_ROOM w'.1 /\ u32_max < CALL_ROOM * (k + len served + 1)).
Proof.
  assert (Hroom : CALL_ROOM = 773) by done.
  induction calls as [|c calls IH]; intros j k w Hj Hk Hjk Hc Hw; [exists [], [], w; split_and!; [done..|by apply (host_down w.2 j)|by left]|].
  assert (Hnext : (exists i, 0 <= i /\ u32_max - CALL_ROOM * (k + 1) <= i /\ at_ (i + CALL_ROOM) w) \/ worn CALL_ROOM w.1 /\ u32_max < CALL_ROOM * (k + 1)).
  { destruct (Z.le_gt_cases CALL_ROOM j); [left; exists (j - CALL_ROOM); split_and!; [lia..|by replace (j - CALL_ROOM + CALL_ROOM) with j by lia]|].
    destruct (worn_or_roomy CALL_ROOM w.1) as [?|Hr]; [right; split; [done|lia]|]. left. exists 0. split; [done|]. split; [lia|].
    apply (roomy_ok w.2 j); [unfold u32_max; lia|done|done]. }
  destruct Hnext as [(i & Hi & Hik & Hw')|[H1 H2]].
  2:{ exists [], (c :: calls), w. split_and!; [done..|by apply (host_down w.2 j)|right; split; [done|cbn; lia]]. }
  apply Forall_cons in Hc as [Hc Hcs]. pose proof (call_serves i c w Hi Hc Hw') as Hcall. unfold wp in Hcall.
  destruct (host_call c w) as [w1 [[]|e|why]] eqn:Ecall; [|done..].
  destruct (IH i (k + 1) w1 Hi ltac:(lia) Hik Hcs Hcall) as (served & rest & w' & -> & Hrun & Hok & Hend).
  exists (c :: served), rest, w'. split; [done|]. split; [cbn [host_run]; unfold bind; rewrite Ecall; exact Hrun|]. split; [done|].
  destruct Hend as [->|[H1 H2]]; [by left|right; split; [done|]]. cbn [length]. lia.
Qed.

Lemma boot_ok c j : machine_inv c -> 0 <= j <= u32_max -> host_at ∅ j (host_boot c).
Proof.
  intros Hc Hj. split; [|constructor]. split; [|set_solver]. constructor; cbn; try done; try lia.
  - constructor; cbn; try done; try constructor; vm_compute; repeat split; discriminate.
  - intros id [s Hs]. by rewrite lookup_empty in Hs.
  - constructor.
Qed.

(** What is bounded of a socket. *)
Definition socket_within (s : InetSocket) : Prop :=
  match inner s with
  | ProtoTcp t => len (pending t) <= 65536 /\ len (received t) <= 65535 /\ len (out_of_order t) <= 16
  | ProtoUdp u => len (queue u) <= 64 /\ queued_bytes u <= 65536
  end.

(** C7: Whatever frames arrive from the card, whenever the clock ticks and whatever
    programs ask of their sockets, in any order, from the start of the machine:
    either every one of these events ends without a panic or a loop, or at least
    5556231 of them do and a 32-bit counter of a connection or of the DHCP client
    is then within 773 of the number it cannot count past, where the code panics.
    After the events that end, every socket a program, the
    table, a listener or the DHCP client refers to is there; the common count of
    bytes held past a gap is exactly what the connections hold and at most 128
    KiB; and every queue keeps its limit. *)
Theorem network_serves c calls :
  machine_inv c -> Forall host_call_ok calls ->
  exists served rest h fds, calls = served ++ rest /\ host_run served (host_boot c, ∅) = ((h, fds), Ok tt) /\
    (rest = [] \/ worn 773 h /\ 5556231 <= len served) /\
    (forall id, id ∈ fds \/ id ∈ table (net h) \/ Dhcp.c_socket <$> client h = Some id -> is_Some (heap (net h) !! id)) /\
    (forall id s, heap (net h) !! id = Some s -> socket_within s /\ Forall (fun child => is_Some (heap (net h) !! child)) (children_of s)) /\
    held_share (link (net h)) = held_total (heap (net h)) /\ held_total (heap (net h)) <= 131072 /\
    len (loopback (link (net h))) <= 256 /\ len (cache (link (net h))) <= 64.
Proof.
  intros Hm Hc. destruct (run_serves calls u32_max 0 (host_boot c, ∅) ltac:(unfold u32_max; lia) ltac:(lia) ltac:(lia) Hc) as (served & rest & [h fds] & E & Hrun & H & Hend).
  { apply boot_ok; [done|unfold u32_max; lia]. }
  exists served, rest, h, fds. split; [done|]. split; [done|]. change CALL_ROOM with 773 in Hend. split; [destruct Hend as [->|[H1 H2]]; [by left|right; split; [done|unfold u32_max in H2; lia]]|]. clear Hend E Hrun. cbn [fst snd] in H.
  destruct H as [[Hok HD] Hcl]. pose proof (nk_link _ _ Hok) as Hlink. split_and!.
  - intros id [Hid|[Hid|Hid]]; [apply HD; set_solver| |].
    + pose proof (nk_table _ _ Hok) as Ht. rewrite Forall_forall in Ht. by apply Ht.
    + apply HD. destruct (client h); cbn in *; [|done]. injection Hid as ->. set_solver.
  - intros id s Hs. pose proof (nk_sockets _ _ Hok id s Hs) as Hso. unfold socket_ok, socket_within, children_of in *. destruct (inner s) as [t|u] eqn:Ei.
    + destruct (block_here _ _ _ _ _ Hok Hs Ei) as (Ht & _ & Hk). split; [|done]. destruct Ht. cbn [fst] in *. by unfold SEND_BUFFER, RECEIVE_WINDOW, MAX_HELD_RUNS in *.
    + destruct Hso as [_ []]. unfold QUEUE_LIMIT, QUEUE_BYTES in *. split; [split; [done|lia]|constructor].
  - exact (nk_share _ _ Hok).
  - rewrite <- (nk_share _ _ Hok). pose proof (lk_share _ Hlink) as Hs. unfold REASSEMBLY_LIMIT in Hs. lia.
  - exact (lk_loopback _ Hlink).
  - exact (lk_entries _ Hlink).
Qed.
End host.

(** * The address this machine uses is the one it has a lease on *)

Section lease.
Context {C : Type} {HM : Machine C} {HMok : MachineOk C} {HS : Sorter} {HSok : SorterOk}.
Implicit Types (h : Host C) (n : Net C) (D : gset nat).

(** The configuration is [cfg], and the client's socket is one for datagrams. *)
Definition datagrams n (id : nat) : Prop := exists s u, heap n !! id = Some s /\ inner s = ProtoUdp u.
Definition quiet D j id cfg n : Prop := net_at D (fun _ => j) n /\ config (link n) = cfg /\ datagrams n id.

Lemma quiet_link {A} D j id cfg (m : M (Link C) Errno A) (P : A -> Prop) n :
  (forall cfg share base, safe (in_call cfg share base) (fun l _ => in_call cfg share base l) m P) -> 0 <= j -> quiet D j id cfg n ->
  wp (on_link_state m) (fun n' a => quiet D j id cfg n' /\ P a) (fun n' _ => quiet D j id cfg n') n.
Proof.
  intros Hm Hj (Hn & Hcfg & Hs). pose proof Hn as [Hok _]. unfold on_link_state. apply wp_zoom.
  eapply wp_mono; [apply (Hm (config (link n)) (held_share (link n)) (frames (hw (link n)))), in_call_start, (nk_link _ _ Hok)| |].
  - intros l a [(H1 & H2 & H3 & _) HP]. split; [|done]. split; [by apply net_link|]. split; [cbn; congruence|done].
  - intros l e (H1 & H2 & H3 & _). split; [by apply net_link|]. split; [cbn; congruence|done].
Qed.

Lemma quiet_random D j id cfg n : 0 <= j -> quiet D j id cfg n ->
  wp (on_link_state (Prelude.state (machine next_u64))) (fun n' r => quiet D j id cfg n' /\ is_u64 r) (fun _ (_ : Errno) => False) n.
Proof.
  intros Hj Hn. pose proof (quiet_link D j id cfg (Prelude.state (machine next_u64)) is_u64 n ltac:(intros; apply moves_machine, next_u64_ok) Hj Hn) as H.
  unfold wp, on_link_state, zoom, Prelude.state in *. by destruct (machine next_u64 (link n)).
Qed.

Lemma quiet_now D j id cfg n : 0 <= j -> quiet D j id cfg n ->
  wp (on_link_state now) (fun n' t => quiet D j id cfg n' /\ 0 <= t <= 2 ^ 62 /\ t = (read_ticks (hw (link n))).2) (fun _ (_ : Errno) => False) n.
Proof.
  intros Hj Hn. pose proof (quiet_link D j id cfg now _ n ltac:(intros; apply moves_now) Hj Hn) as H. unfold now, wp, on_link_state, zoom, Prelude.state, machine in *.
  destruct (read_ticks (hw (link n))). destruct H as [H1 H2]. split; [exact H1|]. split; [exact H2|reflexivity].
Qed.

Lemma quiet_receive D j id cfg n : 0 <= j -> id ∈ D -> quiet D j id cfg n ->
  wp (receive_into id Ether.MTU false) (fun n' r => quiet D j id cfg n' /\ (r_from r <> None -> Forall is_u8 (r_data r) /\ len (r_data r) <= 2 ^ 62)) (fun n' _ => quiet D j id cfg n') n.
Proof.
  intros Hj Hid (Hn & Hcfg & s & u & Hs & Hi).
  pose proof (ns_receive_into D id Ether.MTU false Hid (fun _ => j) n ltac:(done) (net_same _ _ _ Hn ltac:(done))) as H.
  assert (Hkeep : forall n', (receive_into id Ether.MTU false n).1 = n' -> config (link n') = cfg /\ datagrams n' id).
  { intros n' <-. unfold receive_into, with_udp, bind, the_socket. rewrite Hs. rewrite Hi. rewrite Hs, Hi. destruct (udp_receive Ether.MTU false u) as [u' r]. cbn. split; [done|].
    eexists _, u'. split; [cbn; apply lookup_insert_eq|done]. }
  unfold wp in *. destruct (receive_into id Ether.MTU false n) as [n' [r|e|w]]; [| |done]; destruct (Hkeep n' eq_refl) as [K1 K2]; [destruct H as [H1 H2]; split; [|done]|]; (split; [done|by split]).
Qed.

Lemma quiet_send D j id cfg n to message : 0 <= j -> id ∈ D -> effect_ok (Dhcp.Send to message) -> quiet D j id cfg n ->
  wp (Dhcp.apply_one id (Dhcp.Send to message)) (fun n' _ => quiet D j id cfg n') (fun _ _ => False) n.
Proof.
  intros Hj Hid (H1 & H2 & H3) Hn. cbn [Dhcp.apply_one]. apply wp_bind, wp_try. pose proof Hn as (Hnet & Hcfg & s & u & Hs & Hi). unfold send. apply wp_bind.
  eapply wp_the_socket; [exact Hnet|done|]. intros s' Hs' Hso. rewrite Hs in Hs'. injection Hs' as <-. unfold socket_ok in Hso. rewrite Hi in Hso |- *.
  eapply wp_mono; [apply (quiet_link D j id cfg _ (fun _ => True)); [|exact Hj|exact Hn]|intros n' a [H _]; by apply wp_ret|intros n' e H; by apply wp_ret].
  intros. apply moves_udp_send; try done; [apply Hso|]. constructor. split; [done|]. vm_compute; split; discriminate.
Qed.

Lemma quiet_configure D j id cfg c n : 0 <= j -> option_Forall config_ok c -> quiet D j id cfg n ->
  wp (on_link_state (configure c)) (fun n' _ => quiet D j id c n') (fun _ _ => False) n.
Proof.
  intros Hj Hc (Hn & _ & Hs). pose proof Hn as [Hok _]. unfold on_link_state. apply wp_zoom. eapply wp_mono; [apply configure_ok; [apply (nk_link _ _ Hok)|done]| |done].
  intros l [] (K1 & _ & K2 & K3). split; [by apply net_link|]. by split.
Qed.

Lemma quiet_apply D j id effects : forall cfg n, 0 <= j -> id ∈ D -> Forall effect_ok effects -> quiet D j id cfg n ->
  wp (Dhcp.apply id effects) (fun n' _ => quiet D j id (DhcpSpec.published cfg effects) n') (fun _ _ => False) n.
Proof.
  unfold Dhcp.apply. induction effects as [|e effects IH]; intros cfg n Hj Hid He Hn; cbn [mapM_]; [by apply wp_ret|]. apply Forall_cons in He as [He Hes]. apply wp_bind.
  destruct e as [to message|c].
  - eapply wp_mono; [by apply (quiet_send D j id cfg)| |done]. intros n' [] Hn'. by apply IH.
  - eapply wp_mono; [by apply (quiet_configure D j id cfg)| |done]. intros n' [] Hn'. by apply IH.
Qed.

(** C10: Between ticks the machine uses the address of the lease it holds, and none
    when it holds none; and after the client's turn at tick [t] no lease it holds
    has run out by [t], nor has anything else of the client come due. *)
Theorem lease_is_configuration h c :
  host_at ∅ 1 h -> client h = Some c -> datagrams (net h) (Dhcp.c_socket c) -> config (link (net h)) = DhcpSpec.held (Dhcp.c_state c) ->
  exists h' c', dhcp_on_tick h = (h', Ok tt) /\ client h' = Some c' /\ datagrams (net h') (Dhcp.c_socket c') /\
    config (link (net h')) = DhcpSpec.held (Dhcp.c_state c') /\
    (forall l, Dhcp.lease c' = Some l -> (read_ticks (hw (link (net h)))).2 < Dhcp.expires_at l) /\
    (read_ticks (hw (link (net h)))).2 < Dhcp.next_deadline c'.
Proof.
  intros [Hn Hc] Ec Hd Hcfg. rewrite Ec in Hn, Hc. assert (Hc' : client_ok 1 c) by (by inversion Hc). cbn [client_refs] in Hn. set (D := ∅ ∪ {[Dhcp.c_socket c]}) in *.
  assert (Hin : Dhcp.c_socket c ∈ D) by set_solver. set (cfg := DhcpSpec.held (Dhcp.c_state c)) in *. set (Q := quiet D 0 (Dhcp.c_socket c)).
  assert (Hq : Q cfg (net h)) by (split; [eapply net_less; [|exact Hn]; intros; cbn; lia|by split]).
  set (t := (read_ticks (hw (link (net h)))).2) in *.
  assert (Hwp : wp dhcp_on_tick (fun h' _ => exists c', client h' = Some c' /\ Dhcp.c_socket c' = Dhcp.c_socket c /\ Q (DhcpSpec.held (Dhcp.c_state c')) (net h') /\
     state_ok 0 (Dhcp.c_state c') /\ t < Dhcp.next_deadline c') (fun _ _ => False) h).
  { unfold dhcp_on_tick. apply wp_bind. unfold on_host_net at 1. apply wp_zoom. eapply wp_mono; [by apply (quiet_now D 0 (Dhcp.c_socket c) cfg)| |done]. fold t.
    intros n1 t' (Hq1 & Ht & ->). apply wp_bind, wp_gets. cbn [client with_net]. rewrite Ec. apply wp_bind. unfold on_client, wp at 1. cbn [net with_net].
    pose proof (poll_ok (Q cfg) (Dhcp.c_socket c) t Ht ltac:(intros n; by apply quiet_random) ltac:(intros n; by apply quiet_receive) 0 c n1 ltac:(unfold u32_max; lia) Hc' eq_refl Hq1) as Hp.
    unfold wp in Hp at 1. destruct (Dhcp.poll t (c, n1)) as [[c1 n2] [effects|e|w]]; [|done|done]. destruct Hp as (s' & up & E & Hq2 & Hs' & Hdl & Hpub & _ & Hf). cbn [fst snd] in E, Hq2.
    unfold on_host_net. apply wp_zoom. cbn [net]. eapply wp_mono; [by apply (quiet_apply D 0 (Dhcp.c_socket c) effects cfg)| |done]. intros n3 [] Hq3. exists c1. subst c1.
    unfold cfg in Hq3. rewrite Hpub in Hq3. by split_and!. }
  unfold wp in Hwp. destruct (dhcp_on_tick h) as [h' [[]|e|w]]; [|done|done]. destruct Hwp as (c' & E1 & E2 & (_ & Hcfg' & Hd') & Hst & Hdl).
  exists h', c'. split_and!; try done; [by rewrite E2|]. intros l Hl. unfold Dhcp.lease, Dhcp.next_deadline, Dhcp.deadline_of in *.
  destruct (Dhcp.c_state c') as [| | |l'|e l'|e l']; cbn [Dhcp.lease_of] in Hl; try done; injection Hl as ->; cbn [state_ok] in Hst.
  - pose proof (ll_order _ Hst). lia.
  - pose proof (ll_order _ (proj2 Hst)). lia.
  - lia.
Qed.
End lease.
