(* ===== verification/Fs.v ===== *)
(** * The filesystem in memory

    [kernel/src/fs/mod.rs], with the directories of /proc that are kept in it
    ([procfs.rs]) and the devices ([dev.rs]). A node is shared by the directory
    entries that name it and by open files: it is an entry of [nodes] under its
    inode number, and a reference is that number. Names and paths are the bytes of
    their strings.

    [data.rs] is modelled as on a machine without a card: nodes of the data volume
    are told apart, and what is asked of the volume answers ENOENT. *)

From stdpp Require Import sorting.
From S2P Require Import Prelude Words.

Abbreviation Str := (list Z).

(** ** Nodes *)

Inductive DeviceKind := Null | Zero | Full | Random | Urandom | Console | Tty.

Inductive Generated :=
| MemInfo | Uptime | Version | CpuInfo | Mounts | Filesystems | Loadavg | Tasks | Integrity
| PidStat (pid : Z) | PidStatus (pid : Z) | PidCmdline (pid : Z) | PidMaps (pid : Z) | PidAuxv (pid : Z).

Inductive NodeKind :=
| File | Dir | Symlink | Device (d : DeviceKind) | GeneratedFile (g : Generated) | Fifo | FdLink (pid fd : Z)
| DataFile | DataDir.

#[global] Instance device_eq : EqDecision DeviceKind.
Proof. solve_decision. Defined.
#[global] Instance generated_eq : EqDecision Generated.
Proof. solve_decision. Defined.
#[global] Instance kind_eq : EqDecision NodeKind.
Proof. solve_decision. Defined.

(** [Node] with its [NodeInner]. [room] is the capacity of the contents; [stored]
    the length of a file of the data volume. *)
Record Node := mkNode {
  kind : NodeKind;
  mode : Z;
  uid : Z;
  gid : Z;
  data : list Z;
  room : Z;
  children : gmap Str nat;
  mtime : Z;
  nlink : Z;
  changing : bool;
  stored : option Z;
}.

Definition set_data (d : list Z) (r : Z) (n : Node) : Node := mkNode (kind n) (mode n) (uid n) (gid n) d r (children n) (mtime n) (nlink n) (changing n) (stored n).
Definition set_children (c : gmap Str nat) (n : Node) : Node := mkNode (kind n) (mode n) (uid n) (gid n) (data n) (room n) c (mtime n) (nlink n) (changing n) (stored n).
Definition set_mtime (t : Z) (n : Node) : Node := mkNode (kind n) (mode n) (uid n) (gid n) (data n) (room n) (children n) t (nlink n) (changing n) (stored n).
Definition set_nlink (k : Z) (n : Node) : Node := mkNode (kind n) (mode n) (uid n) (gid n) (data n) (room n) (children n) (mtime n) k (changing n) (stored n).
Definition set_changing (b : bool) (n : Node) : Node := mkNode (kind n) (mode n) (uid n) (gid n) (data n) (room n) (children n) (mtime n) (nlink n) b (stored n).

Definition is_dir (n : Node) : bool := match kind n with Dir | DataDir => true | _ => false end.
Definition is_stored (n : Node) : bool := match kind n with DataFile | DataDir => true | _ => false end.

Definition S_IFMT : Z := 0xF000.
Definition S_IFLNK : Z := 0xA000.
Definition S_IFREG : Z := 0x8000.
Definition S_IFDIR : Z := 0x4000.
Definition S_IFCHR : Z := 0x2000.
Definition S_IFIFO : Z := 0x1000.
Definition PERMISSIONS : Z := 0xFFF.
Definition DT_FIFO : Z := 1.
Definition DT_CHR : Z := 2.
Definition DT_DIR : Z := 4.
Definition DT_REG : Z := 8.
Definition DT_LNK : Z := 10.
Definition SYMLINK_DEPTH : nat := 16.
Definition PIECE : Z := 1024 * 1024.
Definition isize_max : Z := 2 ^ 63 - 1.

Definition dirent_type (n : Node) : Z :=
  match kind n with
  | Dir | DataDir => DT_DIR
  | File | GeneratedFile _ | DataFile => DT_REG
  | Symlink | FdLink _ _ => DT_LNK
  | Device _ => DT_CHR
  | Fifo => DT_FIFO
  end.

(** [DeviceKind::rdev] *)
Definition rdev (d : DeviceKind) : Z :=
  let (major, minor) := match d with
    | Null => (1, 3) | Zero => (1, 5) | Full => (1, 7) | Random => (1, 8) | Urandom => (1, 9) | Console => (5, 1) | Tty => (5, 0) end in
  Z.lor (Z.shiftl major 8) minor.
Definition is_tty (d : DeviceKind) : bool := match d with Console | Tty => true | _ => false end.

(** ** What the tree is given

    The clock, the memory left for files, the task that calls and the descriptors
    of a task, what a file of /proc says, random bytes and the console. *)
Class FsEnv (V : Type) := {
  unix_time : V -> V * Z;
  file_available : V -> V * Z;
  current_pid : V -> Z;
  open_files : V -> Z -> option (list (Z * Str));
  contents_of : V -> Generated -> list Z;
  random_fill : Z -> V -> V * list Z;
  console_read : Z -> M V Errno (list Z);
  console_write : list Z -> V -> V;
}.

Record Fs (V : Type) := mkFs {
  env : V;
  nodes : gmap nat Node;
  next_ino : nat;
  root_node : option nat;
  (** [PROC_ROOT], 0 when there is none, and [FD_DIRS]. *)
  proc_root : nat;
  fd_dirs : gmap nat Z;
}.
Arguments mkFs {V}.
Arguments env {V}.
Arguments nodes {V}.
Arguments next_ino {V}.
Arguments root_node {V}.
Arguments proc_root {V}.
Arguments fd_dirs {V}.

(** ** Paths *)

Definition SLASH : Z := 47.
Definition DOT_NAME : Str := [46].
Definition DOTDOT_NAME : Str := [46; 46].

Definition starts_with_slash (path : Str) : bool := match path with c :: _ => c =? SLASH | [] => false end.

(** One component after the ones before it, the last one first. *)
Definition push_part (parts : list Str) (part : Str) : list Str :=
  if bool_decide (part = []) || bool_decide (part = DOT_NAME) then parts
  else if bool_decide (part = DOTDOT_NAME) then drop 1 parts
  else part :: parts.

Definition join_components (parts : list Str) : Str :=
  match concat ((fun part => SLASH :: part) <$> parts) with
  | [] => [SLASH]
  | out => out
  end.

Definition normalize (cwd path : Str) : Str :=
  let source := if starts_with_slash path then path else cwd ++ [SLASH] ++ path in
  join_components (reverse (foldl push_part [] (split_on SLASH source))).

(** The components of a path, the empty ones left out. *)
Definition components (path : Str) : list Str := filter (fun c => c <> []) (split_on SLASH path).

(** [trim_end_matches('/')]. *)
Definition trim_end (path : Str) : Str :=
  reverse (match list_find (fun c => c <> SLASH) (reverse path) with Some (i, _) => drop i (reverse path) | None => [] end).

(** The directory part of a path and the last name in it. *)
Definition split_path (path : Str) : Str * Str :=
  let trimmed := trim_end path in
  match rsplit_once SLASH trimmed with
  | Some ([], name) => ([SLASH], name)
  | Some (dir, name) => (dir, name)
  | None => ([SLASH], trimmed)
  end.

(** [format!("{}", n)] of a number that is not negative. *)
Fixpoint decimal_digits (fuel : nat) (n : Z) : Str :=
  match fuel with
  | O => []
  | Datatypes.S fuel => if n <? 10 then [48 + n] else decimal_digits fuel (n / 10) ++ [48 + n `mod` 10]
  end.
Definition decimal (n : Z) : Str := decimal_digits 20 n.

(** ** UTF-8 *)

Definition continues (lo hi : Z) (b : Z) : bool := (lo <=? b) && (b <=? hi).

(** [from_utf8] accepts the bytes. *)
Fixpoint utf8_valid (fuel : nat) (s : list Z) : bool :=
  match fuel with
  | O => match s with [] => true | _ => false end
  | Datatypes.S fuel =>
      match s with
      | [] => true
      | a :: s1 =>
          if a <? 0x80 then utf8_valid fuel s1
          else match s1 with
          | b :: s2 =>
              if (0xC2 <=? a) && (a <=? 0xDF) then continues 0x80 0xBF b && utf8_valid fuel s2
              else match s2 with
              | c :: s3 =>
                  if (0xE0 <=? a) && (a <=? 0xEF) then
                    continues (if a =? 0xE0 then 0xA0 else 0x80) (if a =? 0xED then 0x9F else 0xBF) b && continues 0x80 0xBF c && utf8_valid fuel s3
                  else match s3 with
                  | d :: s4 =>
                      (0xF0 <=? a) && (a <=? 0xF4) && continues (if a =? 0xF0 then 0x90 else 0x80) (if a =? 0xF4 then 0x8F else 0xBF) b
                      && continues 0x80 0xBF c && continues 0x80 0xBF d && utf8_valid fuel s4
                  | [] => false
                  end
              | [] => false
              end
          | [] => false
          end
      end
  end.
Definition from_utf8 (s : list Z) : option Str := if utf8_valid (length s) s then Some s else None.

(** Names in the order of their bytes, which a [BTreeMap] keeps them in. *)
Fixpoint str_le (a b : Str) : bool :=
  match a, b with
  | [], _ => true
  | _ :: _, [] => false
  | x :: a, y :: b => if x =? y then str_le a b else x <? y
  end.
Definition name_order (a b : Str * nat) : Prop := str_le a.1 b.1 = true.
#[global] Instance name_order_dec : RelDecision name_order.
Proof. intros a b. unfold name_order. apply _. Defined.

Section fs.
Context {V : Type} `{!FsEnv V}.
Abbreviation FM := (M (Fs V) Errno).

Definition with_env (v : V) (f : Fs V) : Fs V := mkFs v (nodes f) (next_ino f) (root_node f) (proc_root f) (fd_dirs f).
Definition with_nodes (n : gmap nat Node) (f : Fs V) : Fs V := mkFs (env f) n (next_ino f) (root_node f) (proc_root f) (fd_dirs f).
Definition with_proc (p : nat) (d : gmap nat Z) (f : Fs V) : Fs V := mkFs (env f) (nodes f) (next_ino f) (root_node f) p d.

Definition world {A} (g : V -> V * A) : FM A := state (fun f => let (v, a) := g (env f) in (with_env v f, a)).
Definition time_now : FM Z := world unix_time.

(** [Arc<Node>]: a reference leads to its node. *)
Definition the_node (id : nat) : FM Node := fun f => match nodes f !! id with Some n => (f, Ok n) | None => (f, Stuck Panic) end.
Definition put_node (id : nat) (n : Node) : FM unit := modify (fun f => with_nodes (<[id := n]> (nodes f)) f).
Definition change_node (id : nat) (g : Node -> Node) : FM unit := let! n := the_node id in put_node id (g n).

(** [Node::new] *)
Definition node_new (k : NodeKind) (m : Z) : FM nat :=
  let! t := time_now in
  state (fun f => (mkFs (env f) (<[next_ino f := mkNode k m 0 0 [] 0 ∅ t 1 false None]> (nodes f)) (S (next_ino f)) (root_node f) (proc_root f) (fd_dirs f), next_ino f)).
Definition new_dir : FM nat := node_new Dir (Z.lor S_IFDIR 0x1ED).
Definition new_file (m : Z) : FM nat := node_new File (Z.lor S_IFREG (Z.land m PERMISSIONS)).
Definition new_symlink (target : Str) : FM nat :=
  let! id := node_new Symlink (Z.lor S_IFLNK 0x1FF) in
  change_node id (set_data target (len target)) ;;; ret id.

Definition root : FM nat := let! r := gets root_node in match r with Some id => ret id | None => fail_with Panic end.

(** ** Contents *)

(** [Offset::range] *)
Definition range (offset size : Z) : FM (Z * Z) :=
  match checked_add64 offset size with
  | Some end_ => ret (offset, end_)
  | None => throw EINVAL
  end.
(** [Offset::advanced] *)
Definition advanced (offset delta : Z) : FM Z := ok_or (checked_add64 offset delta) EINVAL.

Definition room_for (current target : Z) : FM Z :=
  let! available := world file_available in
  let! half := usize (current + current / 2) in
  let roomy := Z.max target half in
  if Z.min (current + roomy) u64_max <=? available then ret roomy
  else if Z.min (current + target) u64_max <=? available then ret target
  else throw ENOSPC.

(** [resize(target, 0)] *)
Definition resized (target : Z) (d : list Z) : list Z := take (Z.to_nat target) d ++ replicate (Z.to_nat target - length d) 0.

(** The copy of a file that grows, a piece at a time. *)
Definition copy_piece (id : nat) (held : Z) (w : list Z * Z) : FM ((list Z * Z) + list Z) :=
  let (grown, copied) := w in
  if copied <? held then
    let! end_ := usize (copied + PIECE) in
    let end_ := Z.min end_ held in
    let! n := the_node id in
    let! piece := slice (data n) copied end_ in
    ret (inl (grown ++ piece, end_))
  else ret (inr grown).

Definition make_room (id : nat) (target : Z) : FM unit :=
  let! n := the_node id in
  if target <=? room n then
    if len (data n) <? target then put_node id (set_data (resized target (data n)) (room n) n) else ret tt
  else
    let current := room n in
    let held := len (data n) in
    let! size := room_for current target in
    (* [reserve_exact] takes no more than [isize::MAX]. *)
    let! size := checked isize_max size in
    let! grown := loop (Datatypes.S (length (data n))) (copy_piece id held) ([], 0) in
    change_node id (set_data (resized target grown) size).

(** [change]: the claim, which in a machine with one task is free or waited for
    in vain; it is given up at the end of [m], whether [m] fails or not. *)
Definition with_claim {A} (id : nat) (m : FM A) : FM A :=
  let! n := the_node id in
  if changing n then fail_with OutOfFuel
  else
    put_node id (set_changing true n) ;;;
    let! r := try_ m in
    change_node id (set_changing false) ;;;
    match r with inl a => ret a | inr e => throw e end.

(** [dev::read] and [dev::write]. *)
Definition device_read (d : DeviceKind) (size : Z) : FM (list Z) :=
  match d with
  | Null => ret []
  | Zero | Full => ret (replicate (Z.to_nat size) 0)
  | Random | Urandom => world (random_fill size)
  | Console | Tty => zoom env with_env (console_read size)
  end.
Definition device_write (d : DeviceKind) (buf : list Z) : FM Z :=
  match d with
  | Null | Zero | Random | Urandom => ret (len buf)
  | Full => throw ENOSPC
  | Console | Tty => modify (fun f => with_env (console_write buf (env f)) f) ;;; ret (len buf)
  end.

(** The part of [bytes] a read of [size] at [offset] finds. *)
Definition part_at (bytes : list Z) (offset size : Z) : FM (list Z) :=
  let! '(start, end_) := range offset size in
  if len bytes <=? start then ret []
  else slice bytes start (Z.min end_ (len bytes)).

Definition read_at (id : nat) (offset size : Z) : FM (list Z) :=
  let! n := the_node id in
  match kind n with
  | Device d => device_read d size
  | GeneratedFile g => let! v := gets env in part_at (contents_of v g) offset size
  | Dir | DataDir => throw EISDIR
  | DataFile => throw ENOENT
  | _ => part_at (data n) offset size
  end.

Definition write_at (id : nat) (offset : Z) (buf : list Z) : FM Z :=
  let! n := the_node id in
  match kind n with
  | Device d => device_write d buf
  | GeneratedFile _ => throw EACCES
  | Dir | DataDir => throw EISDIR
  | DataFile => throw ENOENT
  | _ =>
      let! '(start, end_) := range offset (len buf) in
      with_claim id (
        make_room id end_ ;;;
        let! n := the_node id in
        let! _ := slice (data n) start end_ in
        put_node id (set_data (splice (data n) (Z.to_nat start) buf) (room n) n) ;;;
        let! t := time_now in
        change_node id (set_mtime t) ;;;
        ret (len buf))
  end.

Definition truncate (id : nat) (size : Z) : FM unit :=
  let! n := the_node id in
  if is_dir n then throw EISDIR
  else if bool_decide (kind n = DataFile) then throw ENOENT
  else
    let! '(_, target) := range size 0 in
    with_claim id (
      make_room id target ;;;
      let! n := the_node id in
      put_node id (set_data (resized target (data n)) (room n) n) ;;;
      let! t := time_now in
      change_node id (set_mtime t) ;;;
      ret tt).

Definition symlink_target (n : Node) : option Str :=
  match kind n with Symlink | FdLink _ _ => from_utf8 (data n) | _ => None end.

Definition size_of (n : Node) (v : V) : Z :=
  match kind n with
  | Dir | DataDir => 4096
  | DataFile => default 0 (stored n)
  | Device _ => 0
  | GeneratedFile g => len (contents_of v g)
  | _ => len (data n)
  end.

(** ** /proc *)

Definition is_proc_root (id : nat) (f : Fs V) : bool := negb (id =? 0)%nat && (proc_root f =? id)%nat.

(** A node for each descriptor. *)
Fixpoint fd_entries (pid : Z) (open : list (Z * Str)) (entries : gmap Str nat) : FM (gmap Str nat) :=
  match open with
  | [] => ret entries
  | (fd, path) :: rest =>
      let! entry := node_new (FdLink pid fd) (Z.lor S_IFLNK 0x1FF) in
      let target := if bool_decide (path = []) then str "anon_inode:[" ++ decimal fd ++ str "]" else path in
      change_node entry (set_data target (len target)) ;;;
      fd_entries pid rest (<[decimal fd := entry]> entries)
  end.

(** [/proc/<pid>/fd] is made anew when something looks inside. *)
Definition refresh_dir (id : nat) : FM unit :=
  let! found := gets (fun f => fd_dirs f !! id) in
  match found with
  | None => ret tt
  | Some pid =>
      let! open := gets (fun f => open_files (env f) pid) in
      match open with
      | None => ret tt
      | Some open =>
          let! entries := fd_entries pid open ∅ in
          change_node id (set_children entries)
      end
  end.

(** ** Looking up *)

(** What [lookup_inner] does with the components that are left, after [before];
    [follow] looks up the target of a link. *)
Fixpoint walk (follow : Str -> FM nat) (follow_final : bool) (before rest : list Str) (node : nat) : FM nat :=
  match rest with
  | [] => ret node
  | name :: rest =>
      let! n := the_node node in
      if negb (is_dir n) then throw ENOTDIR
      else
        refresh_dir node ;;;
        let! own := gets (fun f => if bool_decide (name = str "self") && is_proc_root node f then decimal (current_pid (env f)) else name) in
        let! child :=
          (if bool_decide (kind n = DataDir) then throw ENOENT
           else let! n := the_node node in ok_or (children n !! own) ENOENT) in
        let! c := the_node child in
        let! next :=
          (if bool_decide (kind c = Symlink) && (negb (bool_decide (rest = [])) || follow_final) then
             let! target := ok_or (symlink_target c) EIO in
             follow (normalize (join_components before) target)
           else ret child) in
        walk follow follow_final (before ++ [name]) rest next
  end.

(** [links] is how many more links may be followed, one more than the depth
    allows. *)
Fixpoint lookup_inner (links : nat) (path : Str) (follow_final : bool) : FM nat :=
  match links with
  | O => throw ELOOP
  | S links =>
      let! start := root in
      walk (fun target => lookup_inner links target true) follow_final [] (components path) start
  end.
Definition lookup_path (path : Str) : FM nat := lookup_inner (S SYMLINK_DEPTH) path true.
Definition lookup_nofollow (path : Str) : FM nat := lookup_inner (S SYMLINK_DEPTH) path false.

Definition split_parent (path : Str) : FM (nat * Str) :=
  let (dir, name) := split_path path in
  if bool_decide (name = []) then throw EINVAL
  else
    let! parent := lookup_path dir in
    let! n := the_node parent in
    if negb (is_dir n) then throw ENOTDIR else ret (parent, name).

(** ** Names *)

Definition insert_child (parent : nat) (name : Str) (child : nat) : FM unit :=
  change_node parent (fun n => set_children (<[name := child]> (children n)) n).
Definition remove_child (parent : nat) (name : Str) : FM unit :=
  change_node parent (fun n => set_children (delete name (children n)) n).
(** One name fewer, for what may have lost one. *)
Definition lose_name (id : nat) : FM unit := change_node id (fun n => set_nlink (saturating_sub (nlink n) 1) n).

Definition create (path : Str) (m : Z) : FM nat :=
  if bool_decide (path = [SLASH]) then throw EISDIR
  else
    let! '(parent, name) := split_parent path in
    let! p := the_node parent in
    if bool_decide (kind p = DataDir) then throw ENOENT
    else match children p !! name with
         | Some existing => ret existing
         | None => let! node := new_file m in insert_child parent name node ;;; ret node
         end.

(** A new node under a name that is free, for [mkdir], [symlink] and [mkfifo]. *)
Definition add_new (path : Str) (on_volume : Errno) (make : FM nat) : FM nat :=
  let! '(parent, name) := split_parent path in
  let! p := the_node parent in
  if bool_decide (kind p = DataDir) then throw on_volume
  else if bool_decide (is_Some (children p !! name)) then throw EEXIST
  else let! node := make in insert_child parent name node ;;; ret node.

Definition mkdir (path : Str) (m : Z) : FM nat :=
  if bool_decide (path = [SLASH]) then throw EEXIST
  else add_new path ENOENT (node_new Dir (Z.lor S_IFDIR (Z.land m PERMISSIONS))).
Definition symlink (path target : Str) : FM unit := let! _ := add_new path EPERM (new_symlink target) in ret tt.
Definition mkfifo (path : Str) (m : Z) : FM nat := add_new path EPERM (node_new Fifo (Z.lor S_IFIFO (Z.land m PERMISSIONS))).

(** Every directory along the path. *)
Fixpoint mkdir_along (current : Str) (parts : list Str) (node : nat) : FM nat :=
  match parts with
  | [] => ret node
  | part :: parts =>
      let current := current ++ SLASH :: part in
      let! made := try_ (mkdir current 0x1ED) in
      let! node := match made with
                   | inl node => ret node
                   | inr EEXIST => lookup_path current
                   | inr e => throw e
                   end in
      mkdir_along current parts node
  end.
Definition mkdir_p (path : Str) : FM nat := let! start := root in mkdir_along [] (components path) start.

Definition link_node (path : Str) (node : nat) : FM unit :=
  let! '(parent, name) := split_parent path in
  let! p := the_node parent in
  if bool_decide (kind p = DataDir) then throw EPERM else insert_child parent name node.

Definition replace_file (path : Str) (contents : list Z) (m : Z) : FM unit :=
  let! node := new_file m in
  let! _ := write_at node 0 contents in
  let! '(parent, name) := split_parent path in
  let! p := the_node parent in
  if bool_decide (kind p = DataDir) then throw EPERM
  else
    let replaced := children p !! name in
    let! is_directory := match replaced with Some id => let! n := the_node id in ret (is_dir n) | None => ret false end in
    if is_directory then throw EISDIR
    else
      insert_child parent name node ;;;
      match replaced with Some id => lose_name id | None => ret tt end.

Definition hard_link (path : Str) (node : nat) : FM unit :=
  let! '(parent, name) := split_parent path in
  let! p := the_node parent in
  let! n := the_node node in
  match bool_decide (kind p = DataDir), is_stored n with
  | true, true => throw EPERM
  | true, false | false, true => throw EXDEV
  | false, false =>
      if bool_decide (is_Some (children p !! name)) then throw EEXIST
      (* The lock on the parent is held when the node's is taken. *)
      else if bool_decide (node = parent) then fail_with OutOfFuel
      else
        let! names := u32 (nlink n + 1) in
        put_node node (set_nlink names n) ;;;
        insert_child parent name node
  end.

Definition unlink (path : Str) (want_dir : bool) : FM unit :=
  if bool_decide (path = [SLASH]) then throw EBUSY
  else
    let! '(parent, name) := split_parent path in
    let! p := the_node parent in
    if bool_decide (kind p = DataDir) then throw ENOENT
    else
      let! node := ok_or (children p !! name) ENOENT in
      let! n := the_node node in
      if bool_decide (kind n = DataDir) then throw EBUSY
      else if negb (Bool.eqb (is_dir n) want_dir) then throw (if want_dir then ENOTDIR else EISDIR)
      (* The lock on the parent is held when the node's is taken. *)
      else if want_dir && bool_decide (node = parent) then fail_with OutOfFuel
      else if want_dir && negb (bool_decide (children n = ∅)) then throw ENOTEMPTY
      else remove_child parent name ;;; lose_name node.

(** ** Moving *)

(** The entries of a directory, in the order of their names. *)
Definition sorted_children (n : Node) : list (Str * nat) := merge_sort name_order (map_to_list (children n)).

(** One turn of [is_within]: the stack of what is still to be looked at. *)
Definition within_turn (target : nat) (pending : list nat) : FM (list nat + bool) :=
  match pending with
  | [] => ret (inr false)
  | current :: pending =>
      if bool_decide (current = target) then ret (inr true)
      else
        let! n := the_node current in
        if negb (is_dir n) then ret (inl pending)
        else ret (inl (reverse (sorted_children n).*2 ++ pending))
  end.

(** The turns a walk down from a node takes when nothing beneath it is found, of
    a tree at most [depth] deep. *)
Fixpoint walk_turns (depth : nat) (t : gmap nat Node) (id : nat) : nat :=
  match depth with
  | O => 1
  | S depth =>
      match t !! id with
      | Some n => if is_dir n then S (sum_list (walk_turns depth t <$> (sorted_children n).*2)) else 1
      | None => 1
      end
  end.
Definition is_within (ancestor node : nat) : FM bool :=
  let! t := gets nodes in
  loop (walk_turns (size t) t ancestor + 1) (within_turn node) [ancestor].

Definition same_node (existing : option nat) (node : nat) : bool := bool_decide (existing = Some node).

Definition rename (from to : Str) : FM unit :=
  if bool_decide (from = [SLASH]) || bool_decide (to = [SLASH]) then throw EBUSY
  else
    let! node := lookup_nofollow from in
    let! '(from_parent, from_name) := split_parent from in
    let! '(to_parent, to_name) := split_parent to in
    let! fp := the_node from_parent in
    let! tp := the_node to_parent in
    let from_stored := bool_decide (kind fp = DataDir) in
    let to_stored := bool_decide (kind tp = DataDir) in
    if from_stored || to_stored then throw (if negb (Bool.eqb from_stored to_stored) then EXDEV else ENOENT)
    else
      let existing := children tp !! to_name in
      let! n := the_node node in
      let! e := match existing with Some id => let! x := the_node id in ret (Some x) | None => ret None end in
      if bool_decide (kind n = DataDir) || match e with Some x => bool_decide (kind x = DataDir) | None => false end then throw EBUSY
      else if same_node existing node then ret tt
      else
        let! inside := (if is_dir n then is_within node to_parent else ret false) in
        if inside then throw EINVAL
        else
          match e with
          | Some x =>
              if negb (Bool.eqb (is_dir x) (is_dir n)) then throw (if is_dir x then EISDIR else ENOTDIR)
              else if is_dir x && negb (bool_decide (children x = ∅)) then throw ENOTEMPTY
              else ret tt
          | None => ret tt
          end ;;;
          insert_child to_parent to_name node ;;;
          remove_child from_parent from_name ;;;
          match existing with Some id => lose_name id | None => ret tt end.

(** ** The calls that name two files or choose what to make *)

(** [linkat] and [mknodat] of [syscall/file.rs], of paths that are resolved. *)
Definition linkat (old new : Str) (follow : bool) : FM unit :=
  let! node := (if follow then lookup_path old else lookup_nofollow old) in
  let! n := the_node node in
  if is_dir n then throw EPERM
  else
    let! there := try_ (lookup_nofollow new) in
    match there with
    | inl _ => throw EEXIST
    | inr _ => hard_link new node
    end.

Definition mknodat (path : Str) (m : Z) : FM unit :=
  let type := Z.land m S_IFMT in
  if type =? S_IFIFO then let! _ := mkfifo path m in ret tt
  else if (type =? 0) || (type =? S_IFREG) then
    let! there := try_ (lookup_nofollow path) in
    match there with
    | inl _ => throw EEXIST
    | inr _ => let! _ := create path m in ret tt
    end
  else throw EPERM.

(** ** Listing *)

Record DirEntry := mkDirEntry { d_ino : nat; d_kind : Z; d_name : Str }.

Fixpoint child_entries (entries : list (Str * nat)) : FM (list DirEntry) :=
  match entries with
  | [] => ret []
  | (name, id) :: rest =>
      let! n := the_node id in
      let! more := child_entries rest in
      ret (mkDirEntry id (dirent_type n) name :: more)
  end.

Definition readdir (id : nat) : FM (list DirEntry) :=
  let! n := the_node id in
  if bool_decide (kind n = DataDir) then throw ENOENT
  else
    refresh_dir id ;;;
    let! n := the_node id in
    let! rest := child_entries (sorted_children n) in
    ret (mkDirEntry id DT_DIR DOT_NAME :: mkDirEntry id DT_DIR DOTDOT_NAME :: rest).

(** ** /proc, as tasks come and go *)

(** The files of [/proc/<pid>]. *)
Definition process_files (pid : Z) : list (Str * Generated) :=
  [(str "stat", PidStat pid); (str "status", PidStatus pid); (str "cmdline", PidCmdline pid); (str "maps", PidMaps pid); (str "auxv", PidAuxv pid)].

Definition build_process (pid : Z) : FM (option nat * Str * nat) :=
  let! dir := node_new Dir (Z.lor S_IFDIR 0x1ED) in
  mapM_ (fun '(name, g) => let! node := node_new (GeneratedFile g) (Z.lor S_IFREG 0x124) in insert_child dir name node) (process_files pid) ;;;
  let! fd_dir := node_new Dir (Z.lor S_IFDIR 0x1ED) in
  modify (fun f => with_proc (proc_root f) (<[fd_dir := pid]> (fd_dirs f)) f) ;;;
  insert_child dir (str "fd") fd_dir ;;;
  let! proc := try_ (lookup_path (str "/proc")) in
  ret (match proc with inl id => Some id | inr _ => None end, decimal pid, dir).

Definition publish_process (entry : option nat * Str * nat) : FM unit :=
  match entry with
  | (Some proc, name, dir) => insert_child proc name dir
  | (None, _, _) => ret tt
  end.

Definition remove_process (pid : Z) : FM unit :=
  let dir := str "/proc/" ++ decimal pid in
  mapM_ (fun name => let! _ := try_ (unlink (dir ++ SLASH :: name) false) in ret tt) ((process_files pid).*1) ;;;
  let! found := try_ (lookup_nofollow (dir ++ str "/fd")) in
  match found with
  | inl fd_dir =>
      modify (fun f => with_proc (proc_root f) (delete fd_dir (fd_dirs f)) f) ;;;
      change_node fd_dir (set_children ∅)
  | inr _ => ret tt
  end ;;;
  let! _ := try_ (unlink (dir ++ str "/fd") true) in
  let! _ := try_ (unlink dir true) in
  ret tt.

(** ** Start *)

Definition proc_files : list (Str * Generated) :=
  [(str "/proc/meminfo", MemInfo); (str "/proc/uptime", Uptime); (str "/proc/version", Version); (str "/proc/cpuinfo", CpuInfo); (str "/proc/mounts", Mounts);
   (str "/proc/filesystems", Filesystems); (str "/proc/loadavg", Loadavg); (str "/proc/tasks", Tasks); (str "/proc/claudeos/integrity", Integrity)].

Definition proc_populate : FM unit :=
  let! proc := try_ (mkdir_p (str "/proc")) in
  match proc with inl id => modify (fun f => with_proc id (fd_dirs f) f) | inr _ => ret tt end ;;;
  let! _ := try_ (mkdir_p (str "/proc")) in
  let! _ := try_ (mkdir_p (str "/proc/claudeos")) in
  mapM_ (fun '(path, g) => let! node := node_new (GeneratedFile g) (Z.lor S_IFREG 0x124) in let! _ := try_ (link_node path node) in ret tt) proc_files.

Definition devices : list (Str * DeviceKind) :=
  [(str "/dev/null", Null); (str "/dev/zero", Zero); (str "/dev/full", Full); (str "/dev/random", Random); (str "/dev/urandom", Urandom);
   (str "/dev/console", Console); (str "/dev/tty", Tty)].

Definition dev_populate : FM unit :=
  mapM_ (fun '(path, d) => let! node := node_new (Device d) (Z.lor S_IFCHR 0x1B6) in let! _ := try_ (link_node path node) in ret tt) devices ;;;
  mapM_ (fun '(path, target) => let! _ := try_ (symlink path target) in ret tt)
    [(str "/dev/stdin", str "/proc/self/fd/0"); (str "/dev/stdout", str "/proc/self/fd/1"); (str "/dev/stderr", str "/proc/self/fd/2")].

Definition skeleton : list Str := [str "dev"; str "proc"; str "tmp"; str "bin"; str "etc"; str "sys"; str "root"; str "usr"].

Definition fs_init : FM unit :=
  let! r := new_dir in
  modify (fun f => mkFs (env f) (nodes f) (next_ino f) (Some r) (proc_root f) (fd_dirs f)) ;;;
  mapM_ (fun dir => let! _ := try_ (mkdir (SLASH :: dir) 0x1ED) in ret tt) skeleton ;;;
  dev_populate ;;;
  proc_populate.

Definition fs_boot (v : V) : Fs V := mkFs v ∅ 1 None 0 ∅.
End fs.
