(* ===== verification/FsSpec.v ===== *)
(** * The filesystem in memory: paths and contents

    A normalised path is the one path to its components. The contents of a file
    are an array of bytes: a read takes a part of it, a write puts bytes into it
    with zeros before them where the file was shorter, and a change there is no
    room for leaves it as it was. *)

From S2P Require Import Prelude Words Fs.

(** ** Paths *)

(** What a component of a normalised path is. *)
Definition plain (part : Str) : Prop := part <> [] /\ part <> DOT_NAME /\ part <> DOTDOT_NAME /\ SLASH ∉ part.

Lemma split_on_app c a b : c ∉ a -> split_on c (a ++ c :: b) = a :: split_on c b.
Proof.
  induction a as [|x a IH]; intros Ha; cbn.
  - by rewrite Z.eqb_refl.
  - apply not_elem_of_cons in Ha as [Hx Ha]. rewrite (proj2 (Z.eqb_neq x c)) by congruence. by rewrite IH.
Qed.

Lemma split_on_whole c a : c ∉ a -> split_on c a = [a].
Proof.
  induction a as [|x a IH]; intros Ha; cbn; [done|].
  apply not_elem_of_cons in Ha as [Hx Ha]. rewrite (proj2 (Z.eqb_neq x c)) by congruence. by rewrite IH.
Qed.

Lemma split_on_parts c s : Forall (fun part => c ∉ part) (split_on c s).
Proof.
  induction s as [|x s IH]; cbn; [repeat constructor; set_solver|].
  destruct (x =? c) eqn:E; [constructor; [set_solver|done]|].
  destruct (split_on c s) as [|part parts]; [repeat constructor; apply Z.eqb_neq in E; set_solver|].
  inversion IH; subst. constructor; [|done]. apply Z.eqb_neq in E. rewrite not_elem_of_cons. split; congruence.
Qed.

Lemma split_on_more c a b : split_on c (a ++ c :: b) = split_on c a ++ split_on c b.
Proof.
  induction a as [|x a IH]; cbn; [by rewrite Z.eqb_refl|].
  destruct (x =? c); cbn; [by rewrite IH|]. rewrite IH.
  destruct (split_on c a) as [|part parts] eqn:E; [|done]. exfalso. destruct a as [|y a]; cbn in E; [done|].
  destruct (y =? c); [done|]. by destruct (split_on c a).
Qed.

Lemma split_joined parts :
  Forall plain parts -> split_on SLASH (concat ((fun part => SLASH :: part) <$> parts)) = [] :: match parts with [] => [] | _ => parts end.
Proof.
  intros H. induction H as [|part parts Hp H IH]; cbn [fmap list_fmap concat]; [done|].
  cbn [app split_on]. rewrite Z.eqb_refl. f_equal. destruct Hp as (_ & _ & _ & Hp). destruct parts as [|q parts]; cbn [fmap list_fmap concat].
  - rewrite app_nil_r. by apply split_on_whole.
  - cbn [app]. rewrite split_on_app by done. f_equal. revert IH. cbn [fmap list_fmap concat app split_on]. rewrite Z.eqb_refl. congruence.
Qed.

Lemma joined_is parts : parts <> [] -> join_components parts = concat ((fun part => SLASH :: part) <$> parts).
Proof. by destruct parts. Qed.

Lemma join_split parts : Forall plain parts -> exists blank, blank <> [] /\ Forall (eq []) blank /\ split_on SLASH (join_components parts) = blank ++ parts.
Proof.
  intros H. destruct parts as [|part parts].
  - exists [[]; []]. repeat split; [done|by repeat constructor].
  - rewrite joined_is, split_joined by done. exists [[]]. repeat split; [done|by repeat constructor].
Qed.

Lemma components_joined parts : Forall plain parts -> components (join_components parts) = parts.
Proof.
  intros H. unfold components. destruct (join_split parts H) as (blank & _ & Hb & ->). rewrite filter_app.
  assert (filter (fun c : Str => c <> []) blank = []) as ->.
  { clear H. induction Hb as [|b blank <- Hb IH]; [done|]. by rewrite filter_cons_False by auto. }
  cbn. induction H as [|p parts Hp H IH]; [done|]. rewrite filter_cons_True by apply Hp. by rewrite IH.
Qed.

Lemma starts_joined parts : starts_with_slash (join_components parts) = true.
Proof. by destruct parts. Qed.

Lemma push_parts acc parts : Forall plain acc -> Forall (fun p => SLASH ∉ p) parts -> Forall plain (foldl push_part acc parts).
Proof.
  intros Ha Hp. revert acc Ha. induction Hp as [|p parts Hp _ IH]; intros acc Ha; [done|]. apply IH. unfold push_part.
  case_bool_decide as E1; [done|]. cbn [orb]. case_bool_decide as E2; [done|]. case_bool_decide as E3; [by apply Forall_drop|].
  constructor; [|done]. by repeat split.
Qed.

Lemma push_blank acc blank : Forall (eq []) blank -> foldl push_part acc blank = acc.
Proof. intros H. revert acc. induction H as [|b blank <- H IH]; intros acc; [done|]. apply IH. Qed.

Lemma push_plain acc parts : Forall plain parts -> foldl push_part acc parts = reverse parts ++ acc.
Proof.
  intros H. revert acc. induction H as [|p parts (H1 & H2 & H3 & _) H IH]; intros acc; [done|].
  cbn [foldl]. rewrite IH. unfold push_part. rewrite !bool_decide_false by done. cbn [orb]. by rewrite reverse_cons, <- app_assoc.
Qed.

(** The components a path has, with what it is relative to before them. *)
Definition parts_of (cwd path : Str) : list Str :=
  reverse (foldl push_part [] (split_on SLASH (if starts_with_slash path then path else cwd ++ [SLASH] ++ path))).

Lemma parts_of_plain cwd path : Forall plain (parts_of cwd path).
Proof. apply Forall_reverse, push_parts; [constructor|]. apply split_on_parts. Qed.

Lemma normalize_is cwd path : normalize cwd path = join_components (parts_of cwd path).
Proof. done. Qed.

Lemma parts_of_joined cwd parts : Forall plain parts -> parts_of cwd (join_components parts) = parts.
Proof.
  intros H. unfold parts_of. rewrite starts_joined. destruct (join_split parts H) as (blank & _ & Hb & ->).
  rewrite foldl_app, (push_blank _ blank), push_plain by done. by rewrite app_nil_r, reverse_involutive.
Qed.

Lemma parts_of_more cwd path name :
  path <> [] -> SLASH ∉ name -> parts_of cwd (path ++ SLASH :: name) = reverse (push_part (reverse (parts_of cwd path)) name).
Proof.
  intros Hp Hn. unfold parts_of. rewrite reverse_involutive.
  assert (forall a, foldl push_part [] (split_on SLASH (a ++ SLASH :: name)) = push_part (foldl push_part [] (split_on SLASH a)) name) as Hmore.
  { intros a. by rewrite split_on_more, (split_on_whole SLASH name), foldl_app by done. }
  destruct path as [|c path]; [done|]. cbn [starts_with_slash app]. destruct (c =? SLASH); [apply (f_equal reverse), (Hmore (c :: path))|].
  rewrite <- Hmore. by rewrite <- app_assoc.
Qed.

(** A normalised path is the one path to its components: it starts with a
    slash, no component is empty, [.] or [..], it splits into the components it was
    joined from, and normalising it again, from anywhere, leaves it as it is. *)
Theorem normalize_canonical cwd path :
  let out := normalize cwd path in
  starts_with_slash out = true /\ Forall plain (components out) /\ join_components (components out) = out /\
  forall elsewhere, normalize elsewhere out = out.
Proof.
  cbn zeta. rewrite normalize_is. pose proof (parts_of_plain cwd path) as H. rewrite components_joined by done.
  split; [apply starts_joined|]. split; [done|]. split; [done|]. intros elsewhere. by rewrite normalize_is, parts_of_joined.
Qed.

(** One component more at the end of a path goes down one level, and [..] goes up
    one, or stays at the root; [.] and an empty component stay. *)
Theorem normalize_step cwd path name :
  path <> [] -> SLASH ∉ name ->
  components (normalize cwd (path ++ SLASH :: name)) =
    (let before := components (normalize cwd path) in
     if bool_decide (name = [] \/ name = DOT_NAME) then before
     else if bool_decide (name = DOTDOT_NAME) then take (length before - 1) before
     else before ++ [name]).
Proof.
  intros Hp Hn. rewrite !normalize_is, !components_joined by apply parts_of_plain. rewrite parts_of_more by done. cbn zeta. unfold push_part.
  destruct (decide (name = [] \/ name = DOT_NAME)) as [E|E].
  - rewrite (bool_decide_true _ E).
    replace (bool_decide (name = []) || bool_decide (name = DOT_NAME)) with true by (symmetry; rewrite orb_true_iff, !bool_decide_eq_true; done).
    by rewrite reverse_involutive.
  - rewrite (bool_decide_false _ E), !(bool_decide_false (name = [])), (bool_decide_false (name = DOT_NAME)) by naive_solver. cbn [orb].
    case_bool_decide as E3; cbn iota; [by rewrite drop_reverse, reverse_involutive|]. by rewrite reverse_cons, reverse_involutive.
Qed.

(** ** Contents *)

Section contents.
Context {V : Type} {FE : FsEnv V}.
Abbreviation FS := (Fs V).

(** The array a write leaves: as much longer as it must be, with zeros, and the
    bytes in it. *)
Definition grown_to (target : Z) (d : list Z) : list Z := d ++ replicate (Z.to_nat target - length d) 0.
Definition bytes_written (d : list Z) (offset : Z) (buf : list Z) : list Z :=
  splice (grown_to (offset + len buf) d) (Z.to_nat offset) buf.

(** A node with contents of its own. *)
Definition in_memory (n : Node) : bool := match kind n with File | Symlink | Fifo | FdLink _ _ => true | _ => false end.
Definition contents_ok (n : Node) : Prop := len (data n) <= room n <= isize_max.

(** The memory there is for files is some of the machine's, and the name an open
    file carries is a string in it. *)
Class FsLaws := {
  available_bound : forall v, 0 <= snd (file_available v) <= isize_max;
  open_names_bound : forall v pid open fd path, open_files v pid = Some open -> (fd, path) ∈ open -> len path <= isize_max;
}.
Context {FL : FsLaws}.

(** Only this node is different, and the world outside. *)
Definition only_node (id : nat) (n : Node) (f f' : FS) : Prop :=
  exists v, f' = with_nodes (<[id := n]> (nodes f)) (with_env v f).

Lemma only_node_at id n (f f' : FS) : only_node id n f f' -> nodes f' !! id = Some n.
Proof. intros [v ->]. apply lookup_insert_eq. Qed.
Lemma only_node_trans id n n' (f f' f'' : FS) : only_node id n f f' -> only_node id n' f' f'' -> only_node id n' f f''.
Proof. intros [v ->] [v' ->]. exists v'. cbn. unfold with_nodes. cbn. by rewrite insert_insert_eq. Qed.

Lemma wp_the_node id n (Q : FS -> Node -> Prop) X f : nodes f !! id = Some n -> Q f n -> wp (the_node id) Q X f.
Proof. intros H HQ. unfold wp, the_node. by rewrite H. Qed.
Lemma wp_put_node id n (Q : FS -> unit -> Prop) X f : (forall f', only_node id n f f' -> env f' = env f -> Q f' tt) -> wp (put_node id n) Q X f.
Proof. intros H. apply wp_modify, H; [|done]. exists (env f). by destruct f. Qed.
Lemma wp_change_node id g n (Q : FS -> unit -> Prop) X f :
  nodes f !! id = Some n -> (forall f', only_node id (g n) f f' -> Q f' tt) -> wp (change_node id g) Q X f.
Proof. intros H HQ. apply wp_bind. eapply wp_the_node; [done|]. apply wp_put_node. auto. Qed.

Lemma wp_range offset size (Q : FS -> Z * Z -> Prop) (X : FS -> Errno -> Prop) f :
  (offset + size <= u64_max -> Q f (offset, offset + size)) -> (u64_max < offset + size -> X f EINVAL) -> wp (range offset size) Q X f.
Proof.
  intros HQ HX. unfold range, checked_add64. destruct (offset + size <=? u64_max) eqn:E; [apply wp_ret, HQ; lia|apply wp_throw, HX; lia].
Qed.

Lemma wp_node_room current target (Q : FS -> Z -> Prop) (X : FS -> Errno -> Prop) f :
  0 <= current <= isize_max -> 0 <= target <= u64_max ->
  (forall v size, target <= size -> current <= size <= isize_max -> Q (with_env v f) size) ->
  (forall v, snd (file_available (env f)) < current + target -> X (with_env v f) ENOSPC) ->
  current < target -> wp (room_for current target) Q X f.
Proof.
  intros Hc Ht HQ HX Hlt. unfold room_for. pose proof (available_bound (env f)) as Ha. unfold isize_max in *. change u64_max with (2 ^ 64 - 1) in *.
  apply wp_bind. unfold world. apply wp_state. destruct (file_available (env f)) as [v a] eqn:Ea. cbn [fst snd] in *.
  apply wp_bind, wp_checked; [lia|].
  destruct (Z.leb_spec (Z.min (current + Z.max target (current + current / 2)) (2 ^ 64 - 1)) a); [apply wp_ret, HQ; lia|].
  destruct (Z.leb_spec (Z.min (current + target) (2 ^ 64 - 1)) a); [apply wp_ret, HQ; lia|]. apply wp_throw, HX. lia.
Qed.

Lemma copy_loop id n (Q : FS -> list Z -> Prop) (X : FS -> Errno -> Prop) f :
  nodes f !! id = Some n -> len (data n) <= isize_max -> Q f (data n) ->
  wp (loop (Datatypes.S (length (data n))) (copy_piece id (len (data n))) ([], 0)) Q X f.
Proof.
  intros Hn Hroom HQ. unfold isize_max in *.
  apply (wp_loop (fun '(grown, copied) f' => f' = f /\ 0 <= copied <= len (data n) /\ grown = take (Z.to_nat copied) (data n))
                 (fun '(_, copied) _ => Z.to_nat (len (data n) - copied))); [|split; [done|split; [lia|done]]|lia].
  intros [grown copied] f' (-> & Hc & ->). unfold copy_piece. destruct (Z.ltb_spec copied (len (data n))).
  - assert (PIECE = 1048576) as HP by reflexivity. apply wp_bind, wp_checked; [unfold u64_max; lia|]. apply wp_bind. eapply wp_the_node; [done|].
    apply wp_bind, wp_slice; [lia|lia|]. apply wp_ret. split; [|lia]. split; [done|]. split; [lia|].
    set (e := Z.min (copied + PIECE) (len (data n))). replace (Z.to_nat e) with (Z.to_nat copied + Z.to_nat (e - copied))%nat by lia.
    by rewrite take_take_drop.
  - apply wp_ret. rewrite take_ge by lia. done.
Qed.

Lemma resized_grown target d : len d <= target -> resized target d = grown_to target d.
Proof. intros H. unfold resized, grown_to. by rewrite take_ge by lia. Qed.
Lemma grown_enough target d : target <= len d -> grown_to target d = d.
Proof. intros H. unfold grown_to. replace (Z.to_nat target - length d)%nat with 0%nat by lia. apply app_nil_r. Qed.
Lemma length_grown target d : 0 <= target -> len (grown_to target d) = Z.max target (len d).
Proof. intros H. unfold grown_to. rewrite length_app, length_replicate. lia. Qed.

(** The world may have been asked, and nothing else. *)
Definition same_files (f f' : FS) : Prop := exists v, f' = with_env v f.

Lemma wp_make_room id n target (Q : FS -> unit -> Prop) (X : FS -> Errno -> Prop) f :
  nodes f !! id = Some n -> contents_ok n -> 0 <= target <= u64_max ->
  (forall f' r, Z.max target (len (data n)) <= r <= isize_max -> room n <= r ->
     only_node id (set_data (grown_to target (data n)) r n) f f' -> Q f' tt) ->
  (forall f', same_files f f' -> room n < target -> snd (file_available (env f)) < room n + target -> X f' ENOSPC) ->
  wp (make_room id target) Q X f.
Proof.
  intros Hn [Hlen Hroom] Ht HQ HX. unfold make_room. apply wp_bind. eapply wp_the_node; [done|].
  destruct (Z.leb_spec target (room n)).
  - destruct (Z.ltb_spec (len (data n)) target).
    + apply wp_put_node. intros f' Hf _. apply (HQ f' (room n)); [lia|lia|]. by rewrite <- resized_grown by lia.
    + apply wp_ret. apply (HQ f (room n)); [lia|lia|]. rewrite grown_enough by lia. exists (env f).
      replace (set_data (data n) (room n) n) with n by by destruct n. rewrite insert_id by done. by destruct f.
  - apply wp_bind, wp_node_room; [lia|done| | |lia].
    + intros v size Hs1 Hs2. apply wp_bind, wp_checked; [lia|]. apply wp_bind. apply copy_loop; [done|lia|].
      apply (wp_change_node id _ n); [done|]. intros f' Hf. apply (HQ f' size); [lia|lia|]. rewrite <- resized_grown by lia.
      destruct Hf as [v' ->]. exists v'. done.
    + intros v Hv. apply HX; [by exists v|lia|done].
Qed.

(** [with_claim] runs what it is given on a node that says so, and takes the mark
    off it again. *)
Lemma wp_with_claim {A} id n (m : M FS Errno A) (Q : FS -> A -> Prop) (X : FS -> Errno -> Prop) f :
  nodes f !! id = Some n -> changing n = false ->
  (forall f1, only_node id (set_changing true n) f f1 -> env f1 = env f ->
     wp m (fun f2 a => exists n2, nodes f2 !! id = Some n2 /\ forall f3, only_node id (set_changing false n2) f2 f3 -> Q f3 a)
          (fun f2 e => exists n2, nodes f2 !! id = Some n2 /\ forall f3, only_node id (set_changing false n2) f2 f3 -> X f3 e) f1) ->
  wp (with_claim id m) Q X f.
Proof.
  intros Hn Hc Hm. unfold with_claim. apply wp_bind. eapply wp_the_node; [done|]. rewrite Hc. apply wp_bind, wp_put_node. intros f1 Hf1 He1.
  apply wp_bind, wp_try. eapply wp_mono; [by apply Hm| |].
  - intros f2 a (n2 & Hn2 & HQ). apply wp_bind. eapply wp_change_node; [done|]. intros f3 Hf3. by apply wp_ret, HQ.
  - intros f2 e (n2 & Hn2 & HX). apply wp_bind. eapply wp_change_node; [done|]. intros f3 Hf3. by apply wp_throw, HX.
Qed.

(** A change of the contents: a node with other bytes, as much room as they need
    and a new time. *)
Definition has_bytes (id : nat) (n : Node) (d : list Z) (f f' : FS) : Prop :=
  exists r t, len d <= r <= isize_max /\ only_node id (set_mtime t (set_data d r n)) f f'.
Definition refused (id : nat) (n : Node) (target : Z) (f f' : FS) (e : Errno) : Prop :=
  only_node id n f f' /\ (e = EINVAL /\ u64_max < target \/ e = ENOSPC /\ room n < target /\ snd (file_available (env f)) < room n + target).

Lemma set_claim n : changing n = false -> set_changing false (set_changing true n) = n.
Proof. by destruct n; cbn; intros ->. Qed.

(** [make_room], and then what puts other bytes in place, under the claim. *)
Lemma wp_under_claim {A} id n target d (m : M FS Errno A) (a : A) f :
  nodes f !! id = Some n -> contents_ok n -> changing n = false -> 0 <= target <= u64_max -> len d <= Z.max target (len (data n)) ->
  (forall f2 n2 Q X, nodes f2 !! id = Some n2 -> data n2 = grown_to target (data n) ->
     (forall t f3, only_node id (set_mtime t (set_data d (room n2) n2)) f2 f3 -> Q f3 a) -> wp m Q X f2) ->
  wp (with_claim id (make_room id target ;;; m)) (fun f' r => r = a /\ has_bytes id n d f f') (refused id n target f) f.
Proof.
  intros Hn Hok Hc Ht Hd Hm. eapply wp_with_claim; [done..|]. intros f1 Hf1 He1. apply wp_bind.
  apply (wp_make_room id (set_changing true n)); [by eapply only_node_at|done|done| |].
  - intros f2 r Hr Hroom Hf2. cbn [data set_changing] in *. eapply Hm; [by eapply only_node_at|done|]. intros t f3 Hf3.
    eexists. split; [by eapply only_node_at|]. intros f4 Hf4. split; [done|].
    exists r, t. split; [lia|]. pose proof (only_node_trans _ _ _ _ _ _ Hf1 (only_node_trans _ _ _ _ _ _ Hf2 Hf3)) as H13.
    eapply only_node_trans; [exact H13|]. revert Hf4. by destruct n; cbn in *; subst.
  - intros f2 [v2 ->] Hroom Hav. exists (set_changing true n). split; [apply (only_node_at _ _ _ _ Hf1)|]. intros f3 Hf3. rewrite set_claim in Hf3 by done.
    rewrite He1 in Hav. split; [|right; done]. eapply only_node_trans; [exact Hf1|]. destruct Hf3 as [v3 ->]. by exists v3.
Qed.

(** The time goes in last. *)
Lemma wp_stamp {A} id n (a : A) (m : M FS Errno unit) (Q : FS -> A -> Prop) X f :
  (forall Q' : FS -> unit -> Prop, (forall f', only_node id n f f' -> Q' f' tt) -> wp m Q' X f) ->
  (forall t f', only_node id (set_mtime t n) f f' -> Q f' a) ->
  wp (m ;;; let! t := time_now in change_node id (set_mtime t) ;;; ret a) Q X f.
Proof.
  intros Hm HQ. apply wp_bind, Hm. intros f1 Hf1. apply wp_bind. unfold time_now, world. apply wp_state.
  destruct (unix_time (env f1)) as [v t]. cbn [fst snd]. apply wp_bind. eapply wp_change_node; [apply (only_node_at _ _ _ _ Hf1)|].
  intros f2 [v2 ->]. apply wp_ret, (HQ t). eapply only_node_trans; [exact Hf1|]. by exists v2.
Qed.

(** Where a read begins and ends. *)
Definition bytes_read (d : list Z) (offset size : Z) : list Z := take (Z.to_nat size) (drop (Z.to_nat offset) d).

Lemma wp_part_at d offset size (Q : FS -> list Z -> Prop) (X : FS -> Errno -> Prop) f :
  0 <= offset -> 0 <= size -> (offset + size <= u64_max -> Q f (bytes_read d offset size)) -> (u64_max < offset + size -> X f EINVAL) ->
  wp (part_at d offset size) Q X f.
Proof.
  intros Ho Hs HQ HX. unfold part_at. apply wp_bind, wp_range; [|exact HX]. intros Hle. specialize (HQ Hle). unfold bytes_read in HQ.
  destruct (Z.leb_spec (len d) offset).
  - apply wp_ret. by rewrite drop_ge, take_nil in HQ by lia.
  - apply wp_slice; [lia|lia|]. destruct (decide (offset + size <= len d)).
    + by replace (Z.min (offset + size) (len d) - offset) with size by lia.
    + rewrite take_ge in HQ by (rewrite length_drop; lia). rewrite take_ge by (rewrite length_drop; lia). done.
Qed.

Lemma wp_node_read id n offset size (Q : FS -> list Z -> Prop) (X : FS -> Errno -> Prop) f :
  nodes f !! id = Some n -> in_memory n = true -> 0 <= offset -> 0 <= size ->
  (offset + size <= u64_max -> Q f (bytes_read (data n) offset size)) -> (u64_max < offset + size -> X f EINVAL) ->
  wp (read_at id offset size) Q X f.
Proof.
  intros Hn Hk Ho Hs HQ HX. unfold read_at. apply wp_bind. eapply wp_the_node; [done|]. revert Hk. unfold in_memory.
  destruct (kind n); intros Hk; try done; by apply wp_part_at.
Qed.

Lemma wp_node_write id n offset buf f :
  nodes f !! id = Some n -> in_memory n = true -> contents_ok n -> changing n = false -> 0 <= offset ->
  wp (write_at id offset buf)
     (fun f' k => k = len buf /\ offset + len buf <= u64_max /\ has_bytes id n (bytes_written (data n) offset buf) f f')
     (refused id n (offset + len buf) f) f.
Proof.
  intros Hn Hk Hok Hc Ho. unfold write_at. apply wp_bind. eapply wp_the_node; [done|].
  set (body := bind (range offset (len buf)) _). assert (wp body
     (fun f' k => k = len buf /\ offset + len buf <= u64_max /\ has_bytes id n (bytes_written (data n) offset buf) f f')
     (refused id n (offset + len buf) f) f) as Hbody; [|revert Hk; unfold in_memory; by destruct (kind n)].
  unfold body. apply wp_bind, wp_range.
  - intros Hle. eapply wp_mono; [apply (wp_under_claim id n (offset + len buf) (bytes_written (data n) offset buf) _ (len buf)); try done; [lia| |] | |done].
    + unfold bytes_written, splice. pose proof (length_grown (offset + len buf) (data n)). rewrite !length_app, length_take, length_drop. lia.
    + intros f2 n2 Q X Hn2 Hd HQ. apply wp_bind. eapply wp_the_node; [done|]. rewrite Hd.
      pose proof (length_grown (offset + len buf) (data n)). apply wp_bind, wp_slice; [lia|lia|].
      eapply wp_stamp; [|exact HQ]. intros Q' HQ'. apply wp_put_node. auto.
    + cbn. tauto.
  - intros Hlt. split; [|by left]. exists (env f). rewrite insert_id by done. by destruct f.
Qed.

Lemma wp_truncate id n size f :
  nodes f !! id = Some n -> is_dir n = false -> kind n <> DataFile -> contents_ok n -> changing n = false -> 0 <= size <= u64_max ->
  wp (truncate id size) (fun f' _ => has_bytes id n (resized size (data n)) f f') (refused id n size f) f.
Proof.
  intros Hn Hk Hk2 Hok Hc Hs. unfold truncate. apply wp_bind. eapply wp_the_node; [done|]. rewrite Hk.
  rewrite bool_decide_false by done. apply wp_bind, wp_range; [|unfold u64_max in *; lia]. intros _. rewrite Z.add_0_r.
  assert (resized size (grown_to size (data n)) = resized size (data n)) as Hd.
  { unfold resized, grown_to. destruct (decide (size <= len (data n))).
    - rewrite (grown_enough size (data n) ltac:(lia) : data n ++ _ = data n). done.
    - rewrite take_ge, (take_ge (data n)), length_app, length_replicate by (try rewrite length_app, length_replicate; lia).
      replace (Z.to_nat size - (length (data n) + (Z.to_nat size - length (data n))))%nat with 0%nat by lia. by rewrite app_nil_r. }
  eapply wp_mono; [apply (wp_under_claim id n size (resized size (data n)) _ tt); try done| |done].
  - unfold resized. rewrite length_app, length_take, length_replicate. lia.
  - intros f2 n2 Q X Hn2 Hd2 HQ. apply wp_bind. eapply wp_the_node; [done|]. rewrite Hd2, Hd.
    eapply wp_stamp; [|exact HQ]. intros Q' HQ'. apply wp_put_node. auto.
  - cbn. tauto.
Qed.

Lemma bytes_written_at d offset buf (i : nat) :
  0 <= offset ->
  bytes_written d offset buf !! i =
    if decide (offset <= Z.of_nat i < offset + len buf) then buf !! (i - Z.to_nat offset)%nat
    else if decide (Z.of_nat i < len d) then d !! i
    else if decide (Z.of_nat i < offset) then Some 0 else None.
Proof.
  intros Ho. unfold bytes_written, splice. pose proof (length_grown (offset + len buf) d ltac:(lia)) as Hg.
  assert (forall j, grown_to (offset + len buf) d !! j =
            if decide (Z.of_nat j < len d) then d !! j else if decide (Z.of_nat j < offset + len buf) then Some 0 else None) as Hat.
  { intros j. unfold grown_to. destruct (decide _); [by rewrite lookup_app_l by lia|]. rewrite lookup_app_r by lia.
    destruct (decide _); [apply lookup_replicate_2; lia|]. apply lookup_ge_None_2. rewrite length_replicate. lia. }
  assert (length (take (Z.to_nat offset) (grown_to (offset + len buf) d)) = Z.to_nat offset) as Ht by (rewrite length_take; lia).
  destruct (decide (Z.of_nat i < offset)).
  - rewrite (decide_False (P := _ <= _ < _)) by lia. rewrite lookup_app_l, lookup_take_lt, Hat by lia.
    destruct (decide _); [done|]. by rewrite decide_True by lia.
  - rewrite lookup_app_r, Ht by lia. destruct (decide (offset <= Z.of_nat i < offset + len buf)); [by rewrite lookup_app_l by lia|].
    rewrite lookup_app_r, lookup_drop, Hat by lia. replace (Z.to_nat offset + length buf + (i - Z.to_nat offset - length buf))%nat with i by lia.
    destruct (decide _); [done|]. by rewrite decide_False by lia.
Qed.

Lemma in_memory_bytes id n d (f f' : FS) : has_bytes id n d f f' ->
  exists n', only_node id n' f f' /\ data n' = d /\ in_memory n' = in_memory n /\ contents_ok n' /\ changing n' = changing n.
Proof. intros (r & t & Hr & Hf). eexists. split; [exact Hf|]. repeat split; cbn; lia. Qed.

(** C18: The contents of a file are an array of bytes. A write of [buf] at [offset] is
    refused with EINVAL exactly when the range passes the width of a position; with
    ENOSPC only when the file outgrows its room and the machine has not the memory
    for the old and the new contents at once; refused, it leaves every node as it
    was. Done, it answers the length of [buf] and leaves in this node, and nowhere
    else, [buf] at [offset], zeros between the old end and [offset], and every other
    byte as it was. *)
Theorem write_at_array id n offset buf (f : FS) :
  nodes f !! id = Some n -> in_memory n = true -> contents_ok n -> changing n = false -> 0 <= offset ->
  match write_at id offset buf f with
  | (f', Ok k) =>
      k = len buf /\ offset + len buf <= u64_max /\
      exists n', only_node id n' f f' /\ contents_ok n' /\ changing n' = false /\
      forall i : nat, data n' !! i =
        if decide (offset <= Z.of_nat i < offset + len buf) then buf !! (i - Z.to_nat offset)%nat
        else if decide (Z.of_nat i < len (data n)) then data n !! i
        else if decide (Z.of_nat i < offset) then Some 0 else None
  | (f', Err e) => refused id n (offset + len buf) f f' e
  | (_, Stuck _) => False
  end.
Proof.
  intros Hn Hk Hok Hc Ho. pose proof (wp_node_write id n offset buf f Hn Hk Hok Hc Ho) as H. unfold wp in H.
  destruct (write_at id offset buf f) as [f' [k|e|w]]; [|done..]. destruct H as (-> & Hle & H). split; [done|]. split; [done|].
  destruct (in_memory_bytes _ _ _ _ _ H) as (n' & Hf & Hd & _ & Hok' & Hc'). exists n'. split; [done|]. split; [done|]. split; [by rewrite Hc'|].
  intros i. rewrite Hd. by apply bytes_written_at.
Qed.

(** What was written is read back: after a write that succeeds, a read of the same
    range gives the bytes written, and a read of a range that the write did not touch
    gives what it gave before. *)
Theorem write_read_back id n offset buf k (f f' : FS) :
  nodes f !! id = Some n -> in_memory n = true -> contents_ok n -> changing n = false -> 0 <= offset ->
  write_at id offset buf f = (f', Ok k) ->
  read_at id offset (len buf) f' = (f', Ok buf) /\
  forall at_ size, 0 <= at_ -> 0 <= size -> at_ + size <= offset \/ offset + len buf <= at_ -> at_ + size <= len (data n) ->
    exists part, read_at id at_ size f = (f, Ok part) /\ read_at id at_ size f' = (f', Ok part).
Proof.
  intros Hn Hk Hok Hc Ho Hw. pose proof (wp_node_write id n offset buf f Hn Hk Hok Hc Ho) as H. unfold wp in H. rewrite Hw in H.
  destruct H as (_ & Hle & H). destruct (in_memory_bytes _ _ _ _ _ H) as (n' & Hf & Hd & Hk' & Hok' & _). apply only_node_at in Hf.
  assert (forall g m at_ size, nodes g !! id = Some m -> in_memory m = true -> 0 <= at_ -> 0 <= size -> at_ + size <= u64_max ->
            read_at id at_ size g = (g, Ok (bytes_read (data m) at_ size))) as Hread.
  { intros g m at_ size Hg Hm H1 H2 H3.
    assert (wp (read_at id at_ size) (fun g' r => g' = g /\ r = bytes_read (data m) at_ size) (fun _ _ => False) g) as Hr by (eapply wp_node_read; eauto; lia).
    unfold wp in Hr. destruct (read_at id at_ size g) as [g' [r|e|w]]; [|done..]. by destruct Hr as [-> ->]. }
  split.
  - rewrite (Hread f' n') by (try done; try lia; by rewrite Hk'). do 2 f_equal. rewrite Hd. apply list_eq. intros i. unfold bytes_read.
    destruct (decide (i < length buf)%nat).
    + rewrite lookup_take_lt, lookup_drop, bytes_written_at by lia. rewrite decide_True by lia. f_equal. lia.
    + rewrite lookup_ge_None_2 by (rewrite length_take; lia). symmetry. apply lookup_ge_None_2. lia.
  - intros at_ size Ha Hs Hout Hin. exists (bytes_read (data n) at_ size). destruct Hok as [Hlen Hroom]. unfold isize_max, u64_max in *.
    split; [apply Hread; try done; lia|]. rewrite (Hread f' n') by (try done; try lia; by rewrite Hk'). do 2 f_equal. rewrite Hd. apply list_eq.
    intros i. unfold bytes_read. destruct (decide (i < Z.to_nat size)%nat).
    + rewrite !lookup_take_lt, !lookup_drop, bytes_written_at by lia. rewrite decide_False by lia. by rewrite decide_True by lia.
    + rewrite !lookup_ge_None_2 by (rewrite length_take; lia). done.
Qed.

(** A file takes the length it is given: what is cut off is gone, what is new is
    zeros, and every byte before both ends stays. *)
Theorem truncate_array id n size (f : FS) :
  nodes f !! id = Some n -> is_dir n = false -> kind n <> DataFile -> contents_ok n -> changing n = false -> 0 <= size <= u64_max ->
  match truncate id size f with
  | (f', Ok _) =>
      exists n', only_node id n' f f' /\ contents_ok n' /\ changing n' = false /\ len (data n') = size /\
      forall i : nat, Z.of_nat i < size -> data n' !! i = if decide (Z.of_nat i < len (data n)) then data n !! i else Some 0
  | (f', Err e) => refused id n size f f' e
  | (_, Stuck _) => False
  end.
Proof.
  intros Hn Hk Hk2 Hok Hc Hs. pose proof (wp_truncate id n size f Hn Hk Hk2 Hok Hc Hs) as H. unfold wp in H.
  destruct (truncate id size f) as [f' [k|e|w]]; [|done..]. destruct (in_memory_bytes _ _ _ _ _ H) as (n' & Hf & Hd & _ & Hok' & Hc').
  exists n'. split; [done|]. split; [done|]. split; [by rewrite Hc'|]. rewrite Hd. unfold resized. split; [rewrite length_app, length_take, length_replicate; lia|].
  intros i Hi. destruct (decide _).
  - by rewrite lookup_app_l, lookup_take_lt by (try rewrite length_take; lia).
  - rewrite lookup_app_r by (rewrite length_take; lia). apply lookup_replicate_2. rewrite length_take. lia.
Qed.
End contents.

(** * The filesystem in memory: the tree

    What every call keeps of the tree: a reference leads to a node, only
    directories have entries, and no directory is beneath itself. Looking
    something up changes the entries of [/proc/<pid>/fd] and nothing else. *)

(** ** Entries *)

Definition child_of (t : gmap nat Node) (p c : nat) : Prop := exists n name, t !! p = Some n /\ children n !! name = Some c.
(** [c] is [p] or somewhere beneath it. *)
Definition beneath (t : gmap nat Node) : nat -> nat -> Prop := rtc (child_of t).
Definition acyclic (t : gmap nat Node) : Prop := forall x, ~ tc (child_of t) x x.

Lemma tc_step {A} (R : relation A) x y : tc R x y -> exists z, R x z /\ rtc R z y.
Proof. intros H. destruct H as [x y H|x y z Hxy Hyz]; exists y; (split; [done|]); [apply rtc_refl|by apply tc_rtc]. Qed.

Lemma acyclic_beneath t x c : acyclic t -> child_of t x c -> ~ beneath t c x.
Proof. intros Ha Hx Hc. apply (Ha x). eapply tc_rtc_r; [by apply tc_once|done]. Qed.

Lemma child_of_put t id n p c : child_of (<[id := n]> t) p c -> (p = id /\ exists name, children n !! name = Some c) \/ (p <> id /\ child_of t p c).
Proof.
  intros (m & name & Hm & Hc). destruct (decide (p = id)) as [->|Hne].
  - rewrite lookup_insert_eq in Hm. injection Hm as <-. left. eauto.
  - rewrite lookup_insert_ne in Hm by done. right. split; [done|]. by exists m, name.
Qed.

Lemma child_of_other t id n p c : p <> id -> child_of t p c -> child_of (<[id := n]> t) p c.
Proof. intros Hne (m & name & Hm & Hc). exists m, name. by rewrite lookup_insert_ne. Qed.

(** A way down in the tree with another node at [id] is a way down in the tree
    there was, or comes by [id]. *)
Lemma beneath_put t id n x y :
  beneath (<[id := n]> t) x y -> beneath t x y \/ (beneath t x id /\ beneath (<[id := n]> t) x id /\ beneath (<[id := n]> t) id y).
Proof.
  intros H. induction H as [x|x z y Hxz Hzy IH]; [left; apply rtc_refl|]. destruct (decide (x = id)) as [->|Hne].
  - right. split; [apply rtc_refl|]. split; [apply rtc_refl|]. by eapply rtc_l.
  - destruct (child_of_put _ _ _ _ _ Hxz) as [[? _]|[_ Hold]]; [done|]. destruct IH as [IH|(IH1 & IH2 & IH3)].
    + left. by eapply rtc_l.
    + right. split; [by eapply rtc_l|]. split; [by eapply rtc_l|done].
Qed.

(** Other entries in one directory make no loop when it is not beneath any of
    them. *)
Lemma acyclic_put t id n :
  acyclic t -> (forall name c, children n !! name = Some c -> ~ beneath t c id) -> acyclic (<[id := n]> t).
Proof.
  intros Ha Hnew. assert (forall z, child_of (<[id := n]> t) id z -> ~ beneath (<[id := n]> t) z id) as Hid.
  { intros z Hz Hback. destruct (child_of_put _ _ _ _ _ Hz) as [[_ [name Hc]]|[? _]]; [|done].
    apply beneath_put in Hback as [H|(H & _ & _)]; by eapply Hnew. }
  intros x Hx. apply tc_step in Hx as (z & Hxz & Hzx). destruct (decide (x = id)) as [->|Hne]; [by eapply Hid|].
  destruct (child_of_put _ _ _ _ _ Hxz) as [[? _]|[_ Hold]]; [done|]. destruct (beneath_put _ _ _ _ _ Hzx) as [H|(_ & H2 & H3)].
  - apply (Ha x). eapply tc_rtc_r; [by apply tc_once|done].
  - assert (tc (child_of (<[id := n]> t)) id id) as Hloop by (eapply tc_rtc_l; [exact H3|]; eapply tc_rtc_r; [by apply tc_once|done]).
    apply tc_step in Hloop as (w & Hw & Hback). by eapply Hid.
Qed.

Lemma no_child n name c : children n = ∅ -> children n !! name = Some c -> False.
Proof. intros ->. by rewrite lookup_empty. Qed.

Lemma beneath_leaf t c y n : t !! c = Some n -> children n = ∅ -> beneath t c y -> c = y.
Proof.
  intros Hn He H. destruct H as [|c z y (m & name & Hm & Hc) _]; [done|]. rewrite Hn in Hm. injection Hm as <-. by rewrite He, lookup_empty in Hc.
Qed.

(** ** The invariant *)

(** [k]: no node has more names than that to lose. *)
Record node_ok (k : Z) (n : Node) : Prop := {
  no_contents : contents_ok n;
  no_still : changing n = false;
  no_links : 0 <= nlink n <= k;
  no_kids : is_dir n = false -> children n = ∅;
}.

Section tree.
Context {V : Type} {FE : FsEnv V} {FL : FsLaws}.
Abbreviation FS := (Fs V).

Record tree_ok (k : Z) (f : FS) : Prop := {
  tr_node : forall id n, nodes f !! id = Some n -> node_ok k n;
  tr_below : forall id n, nodes f !! id = Some n -> (0 < id < next_ino f)%nat;
  tr_kids : forall p c, child_of (nodes f) p c -> is_Some (nodes f !! c);
  tr_acyclic : acyclic (nodes f);
  tr_root : exists r n, root_node f = Some r /\ nodes f !! r = Some n /\ kind n = Dir;
  tr_fds : forall id pid, fd_dirs f !! id = Some pid -> exists n, nodes f !! id = Some n /\ kind n = Dir;
}.

(** What looking up may change: nodes are made, and the entries of a directory of
    descriptors are made anew, of new nodes. *)
Record looked (f f' : FS) : Prop := {
  lk_node : forall id n, nodes f !! id = Some n ->
    exists c, nodes f' !! id = Some (set_children c n) /\ (fd_dirs f !! id = None -> c = children n);
  lk_next : (next_ino f <= next_ino f')%nat;
  lk_root : root_node f' = root_node f;
  lk_fds : fd_dirs f' = fd_dirs f;
  lk_proc : proc_root f' = proc_root f;
  lk_new : forall p c, child_of (nodes f') p c -> child_of (nodes f) p c \/ nodes f !! c = None;
}.

Lemma same_children n : set_children (children n) n = n.
Proof. by destruct n. Qed.

Lemma looked_refl f : looked f f.
Proof. split; try done; [|by left]. intros id n Hn. exists (children n). by rewrite same_children. Qed.

Lemma looked_node f f' id n : looked f f' -> nodes f !! id = Some n -> exists n', nodes f' !! id = Some n' /\ kind n' = kind n.
Proof. intros Hl Hn. destruct (lk_node _ _ Hl _ _ Hn) as (c & Hc & _). eauto. Qed.

Lemma looked_trans f f1 f2 : looked f f1 -> looked f1 f2 -> looked f f2.
Proof.
  intros [a1 a2 a3 a4 a5 a6] [b1 b2 b3 b4 b5 b6]. split; [|lia|congruence|congruence|congruence|].
  - intros id n Hn. destruct (a1 _ _ Hn) as (c & Hc & Hsame). destruct (b1 _ _ Hc) as (c' & Hc' & Hsame').
    exists c'. split; [exact Hc'|]. intros Hfd. rewrite Hsame' by (rewrite a4; done). cbn. by apply Hsame.
  - intros p c Hc. destruct (b6 _ _ Hc) as [H|H]; [by apply a6|]. right. destruct (nodes f !! c) as [n|] eqn:E; [|done].
    destruct (a1 _ _ E) as (c' & Hc' & _). congruence.
Qed.

(** A computation that only looks. *)
Definition looks {A} (k : Z) (f : FS) (m : M FS Errno A) (P : FS -> A -> Prop) (X : Prop) : Prop :=
  wp m (fun f' a => looked f f' /\ tree_ok k f' /\ P f' a) (fun f' e => looked f f' /\ tree_ok k f' /\ X) f.

Lemma looks_bind {A B} k f (m : M FS Errno A) (g : A -> M FS Errno B) P Q X :
  looks k f m P X -> (forall f' a, looked f f' -> tree_ok k f' -> P f' a -> looks k f' (g a) Q X) -> looks k f (bind m g) Q X.
Proof.
  intros Hm Hg. apply wp_bind. eapply wp_mono; [exact Hm| |done]. cbv beta. intros f1 a (H1 & H2 & H3).
  eapply wp_mono; [by apply (Hg f1 a)| |]; cbv beta; [|]; intros f2 b (G1 & G2 & G3); (split; [by eapply looked_trans|done]).
Qed.
Lemma looks_mono {A} k f (m : M FS Errno A) (P P' : FS -> A -> Prop) (X X' : Prop) :
  looks k f m P X -> (forall f' a, looked f f' -> tree_ok k f' -> P f' a -> P' f' a) -> (X -> X') -> looks k f m P' X'.
Proof. intros Hm HP HX. eapply wp_mono; [exact Hm| |]; cbv beta; naive_solver. Qed.
Lemma looks_ret {A} k f (a : A) (P : FS -> A -> Prop) X : tree_ok k f -> P f a -> looks k f (ret a) P X.
Proof. intros Hf HP. apply wp_ret. split; [apply looked_refl|done]. Qed.
Lemma looks_throw {A} k f e (P : FS -> A -> Prop) (X : Prop) : tree_ok k f -> X -> looks k f (throw e) P X.
Proof. intros Hf HX. apply wp_throw. split; [apply looked_refl|done]. Qed.
Lemma looks_gets {A} k f (g : FS -> A) (P : FS -> A -> Prop) X : tree_ok k f -> P f (g f) -> looks k f (gets g) P X.
Proof. intros Hf HP. apply wp_gets. split; [apply looked_refl|done]. Qed.
Lemma looks_ok_or {A} k f (o : option A) e (P : FS -> A -> Prop) (X : Prop) :
  tree_ok k f -> X -> (forall a, o = Some a -> P f a) -> looks k f (ok_or o e) P X.
Proof. intros Hf HX HP. destruct o; [by apply looks_ret; auto|by apply looks_throw]. Qed.
Lemma looks_the_node k f id n (P : FS -> Node -> Prop) X : tree_ok k f -> nodes f !! id = Some n -> P f n -> looks k f (the_node id) P X.
Proof. intros Hf Hn HP. eapply wp_the_node; [done|]. split; [apply looked_refl|done]. Qed.

(** ** New nodes *)

(** No entry leads to the node. *)
Definition unnamed (f : FS) (id : nat) : Prop := forall p, ~ child_of (nodes f) p id.

(** A node nothing leads to and that leads nowhere. *)
Definition fresh_leaf (nk : NodeKind) (f0 f : FS) (id : nat) : Prop :=
  nodes f0 !! id = None /\ exists n, nodes f !! id = Some n /\ kind n = nk /\ children n = ∅ /\ (data n = [] /\ unnamed f id) /\ fd_dirs f !! id = None.

Lemma free_ino k f : tree_ok k f -> nodes f !! next_ino f = None.
Proof. intros Hf. destruct (nodes f !! next_ino f) eqn:E; [|done]. apply (tr_below _ _ Hf) in E. lia. Qed.

(** Nothing is said of the world outside. *)
Lemma tree_ok_env k (v : V) f : tree_ok k f <-> tree_ok k (with_env v f).
Proof. split; intros [a b c d e g]; by split. Qed.

Lemma tree_ok_new k nk m t (f : FS) :
  1 <= k -> tree_ok k f ->
  let n := mkNode nk m 0 0 [] 0 ∅ t 1 false None in
  let f' := mkFs (env f) (<[next_ino f := n]> (nodes f)) (S (next_ino f)) (root_node f) (proc_root f) (fd_dirs f) in
  tree_ok k f' /\ looked f f'.
Proof.
  intros Hk Hf n f'. pose proof (free_ino k f Hf) as Hfree.
  assert (forall p c, child_of (nodes f') p c -> child_of (nodes f) p c) as Hsub.
  { intros p c Hc. apply child_of_put in Hc as [[-> [name Hc]]|[_ Hc]]; [by destruct (no_child n name c)|done]. }
  assert (forall id m, nodes f !! id = Some m -> nodes f' !! id = Some m) as Hkeep.
  { intros id m0 Hm. cbn. rewrite lookup_insert_ne; [done|]. intros <-. congruence. }
  destruct Hf as [a b c d e g]. split; [split|split]; cbn [next_ino root_node fd_dirs proc_root f']; try done.
  - intros id m0 Hm. cbn in Hm. destruct (decide (id = next_ino f)) as [->|Hne].
    + rewrite lookup_insert_eq in Hm. injection Hm as <-. split; cbn; try done; unfold contents_ok, isize_max; cbn; lia.
    + rewrite lookup_insert_ne in Hm by done. by eapply a.
  - intros id m0 Hm. cbn in Hm. destruct e as (r & nr & _ & Hr & _). apply b in Hr. destruct (decide (id = next_ino f)) as [->|Hne]; [lia|].
    rewrite lookup_insert_ne in Hm by done. apply b in Hm. lia.
  - intros p c0 Hc. destruct (c p c0 (Hsub _ _ Hc)) as [m0 Hm]. exists m0. by apply Hkeep.
  - apply acyclic_put; [done|]. intros name c0 Hc. by destruct (no_child n name c0).
  - destruct e as (r & nr & Hr & Hnr & Hkr). exists r, nr. auto.
  - intros id pid Hid. destruct (g id pid Hid) as (m0 & Hm & Hkm). exists m0. auto.
  - intros id m0 Hm. exists (children m0). rewrite same_children. auto.
  - lia.
  - intros p c0 Hc. left. by apply Hsub.
Qed.

Lemma looks_node_new k f nk m X : 1 <= k -> tree_ok k f -> looks k f (node_new nk m) (fun f' id => fresh_leaf nk f f' id) X.
Proof.
  intros Hk Hf. apply wp_bind. unfold time_now, world. apply wp_state. destruct (unix_time (env f)) as [v t]. cbn [fst snd]. apply wp_state.
  destruct (tree_ok_new k nk m t (with_env v f) Hk) as [H1 H2]; [by apply tree_ok_env|]. cbn [fst snd] in *.
  split; [|split; [exact H1|]].
  - destruct H2 as [a1 a2 a3 a4 a5 a6]. by split.
  - split; [exact (free_ino k f Hf)|]. eexists. split; [cbn; apply lookup_insert_eq|]. split; [done|]. split; [done|]. split; [split; [done|]|cbn].
    { intros p Hp. apply child_of_put in Hp as [[-> [name Hp]]|[_ Hp]]; [by apply no_child in Hp|]. destruct (tr_kids _ _ Hf _ _ Hp) as [x Hx].
      change (nodes f !! next_ino f = Some x) in Hx. by rewrite (free_ino k f Hf) in Hx. }
    destruct (fd_dirs f !! next_ino f) as [pid|] eqn:E; [|done]. destruct (tr_fds _ _ Hf _ _ E) as (n & Hn & _). by rewrite (free_ino k f Hf) in Hn.
Qed.

(** ** One node changed *)

Lemma tree_ok_put k id n n' f f' :
  tree_ok k f -> nodes f !! id = Some n -> kind n' = kind n -> node_ok k n' -> only_node id n' f f' ->
  (forall name c, children n' !! name = Some c -> is_Some (nodes f !! c) /\ ~ beneath (nodes f) c id) -> tree_ok k f'.
Proof.
  intros [a b c d e g] Hn Hkind Hok [v ->] Hkids.
  assert (forall x m, nodes f !! x = Some m -> exists m', <[id := n']> (nodes f) !! x = Some m' /\ kind m' = kind m) as Hkeep.
  { intros x m Hm. destruct (decide (x = id)) as [->|Hne]; [exists n'; rewrite lookup_insert_eq|exists m; by rewrite lookup_insert_ne].
    rewrite Hn in Hm. by injection Hm as <-. }
  split; cbn [nodes with_nodes with_env next_ino root_node fd_dirs].
  - intros x m Hm. destruct (decide (x = id)) as [->|Hne]; [rewrite lookup_insert_eq in Hm; by injection Hm as <-|].
    rewrite lookup_insert_ne in Hm by done. by eapply a.
  - intros x m Hm. destruct (decide (x = id)) as [->|Hne]; [by eapply b|]. rewrite lookup_insert_ne in Hm by done. by eapply b.
  - intros p x Hx. assert (is_Some (nodes f !! x)) as [m Hm]; [|destruct (Hkeep _ _ Hm) as (m' & Hm' & _); eauto].
    apply child_of_put in Hx as [[-> [name Hx]]|[_ Hx]]; [by apply (Hkids name)|by eapply c].
  - apply acyclic_put; [done|]. intros name x Hx. by apply (Hkids name).
  - destruct e as (r & nr & Hr & Hnr & Hkr). destruct (Hkeep _ _ Hnr) as (m' & Hm' & Hkm). exists r, m'. split; [done|]. split; [done|congruence].
  - intros x pid Hx. destruct (g x pid Hx) as (m & Hm & Hkm). destruct (Hkeep _ _ Hm) as (m' & Hm' & Hkm'). exists m'. split; [done|congruence].
Qed.

(** The entries stay, or fewer of them. *)
Lemma tree_ok_less k id n n' f f' :
  tree_ok k f -> nodes f !! id = Some n -> kind n' = kind n -> node_ok k n' -> only_node id n' f f' -> children n' ⊆ children n -> tree_ok k f'.
Proof.
  intros Hf Hn Hkind Hok Hone Hless. eapply tree_ok_put; [done..|]. intros name c Hc. assert (child_of (nodes f) id c) as Hch.
  { exists n, name. split; [done|]. by eapply lookup_weaken. }
  split; [by eapply tr_kids|]. apply acyclic_beneath; [by apply (tr_acyclic _ _ Hf)|done].
Qed.

(** A directory with one entry more. *)
Lemma tree_ok_enter k p name c n f f' :
  tree_ok k f -> nodes f !! p = Some n -> is_dir n = true -> is_Some (nodes f !! c) -> ~ beneath (nodes f) c p ->
  only_node p (set_children (<[name := c]> (children n)) n) f f' -> tree_ok k f'.
Proof.
  intros Hf Hn Hdir Hc Hnb Hone. destruct (tr_node _ _ Hf _ _ Hn) as [h1 h2 h3 h4].
  eapply tree_ok_put; [done|done| | |done|]; [done|by split; try done; cbn; unfold is_dir in *; cbn; rewrite Hdir|].
  cbn. intros name' c' Hc'. destruct (decide (name' = name)) as [->|Hne]; [rewrite lookup_insert_eq in Hc'; by injection Hc' as <-|].
  rewrite lookup_insert_ne in Hc' by done. assert (child_of (nodes f) p c') as Hch by (by exists n, name').
  split; [by eapply tr_kids|]. apply acyclic_beneath; [by apply (tr_acyclic _ _ Hf)|done].
Qed.

(** The node is new since [f0]. *)
Lemma looked_new f0 f f' id n n' :
  looked f0 f -> nodes f0 !! id = None -> nodes f !! id = Some n -> only_node id n' f f' ->
  (forall name c, children n' !! name = Some c -> nodes f0 !! c = None) -> looked f0 f'.
Proof.
  intros [a1 a2 a3 a4 a5 a6] Hnew Hn [v ->] Hc. split; try done.
  - intros x m Hm. destruct (a1 _ _ Hm) as (c & Hx & Hs). exists c. cbn. rewrite lookup_insert_ne; [done|]. congruence.
  - intros p c Hp. cbn in Hp. apply child_of_put in Hp as [[-> [name Hx]]|[_ Hp]]; [right; by eapply Hc|]. by apply a6.
Qed.

(** The node is one of the directories of descriptors. *)
Lemma looked_fds f0 f f' id n cs :
  looked f0 f -> is_Some (fd_dirs f0 !! id) -> nodes f !! id = Some n -> only_node id (set_children cs n) f f' ->
  (forall name c, cs !! name = Some c -> nodes f0 !! c = None) -> looked f0 f'.
Proof.
  intros [a1 a2 a3 a4 a5 a6] [pid Hfd] Hn [v ->] Hc. split; try done.
  - intros x m Hm. destruct (a1 _ _ Hm) as (c & Hx & Hs). cbn. destruct (decide (x = id)) as [->|Hne].
    + rewrite lookup_insert_eq. exists cs. split; [|congruence]. rewrite Hn in Hx. injection Hx as ->. by destruct m.
    + rewrite lookup_insert_ne by done. by exists c.
  - intros p c Hp. cbn in Hp. apply child_of_put in Hp as [[-> [name Hx]]|[_ Hp]]; [right; by eapply Hc|]. by apply a6.
Qed.

(** ** Looking *)

Definition leaf_since (f0 f : FS) (x : nat) : Prop :=
  nodes f0 !! x = None /\ exists n, nodes f !! x = Some n /\ children n = ∅ /\ fd_dirs f !! x = None.

Lemma leaf_kept f0 f f' x : looked f f' -> leaf_since f0 f x -> leaf_since f0 f' x.
Proof.
  intros Hl (H1 & n & H2 & H3 & H4). split; [done|]. destruct (lk_node _ _ Hl _ _ H2) as (c & Hc & Hs). rewrite (Hs H4), same_children in Hc.
  exists n. rewrite (lk_fds _ _ Hl). done.
Qed.
Lemma unnamed_kept f f' x : looked f f' -> is_Some (nodes f !! x) -> unnamed f x -> unnamed f' x.
Proof. intros Hl [n Hn] Hu p Hp. destruct (lk_new _ _ Hl _ _ Hp) as [H|H]; [by apply (Hu p)|congruence]. Qed.
Lemma leaf_new nk f0 f f' x : looked f0 f -> fresh_leaf nk f f' x -> leaf_since f0 f' x.
Proof.
  intros Hl (H1 & n & H2 & H3 & H4 & H5 & H6). split; [|by exists n]. destruct (nodes f0 !! x) eqn:E; [|done].
  destruct (looked_node _ _ _ _ Hl E) as (m & Hm & _). congruence.
Qed.

Lemma decimal_length n : (length (decimal n) <= 21)%nat.
Proof.
  unfold decimal. assert (forall fuel m, (length (decimal_digits fuel m) <= S fuel)%nat) as H; [|apply H].
  induction fuel as [|fuel IH]; intros m; cbn; [lia|]. destruct (m <? 10); cbn; [lia|]. rewrite length_app. cbn. specialize (IH (m / 10)). lia.
Qed.

Lemma fd_entries_fresh k f0 pid open entries f :
  1 <= k -> tree_ok k f -> looked f0 f -> (forall fd path, (fd, path) ∈ open -> len path <= isize_max) ->
  (forall name x, entries !! name = Some x -> leaf_since f0 f x) ->
  wp (fd_entries pid open entries)
    (fun f' out => looked f0 f' /\ tree_ok k f' /\ forall name x, out !! name = Some x -> leaf_since f0 f' x) (fun _ _ => False) f.
Proof.
  intros Hk. revert entries f. induction open as [|[fd path] open IH]; intros entries f Hf Hl Hopen Hent; [by apply wp_ret|].
  cbn [fd_entries]. apply wp_bind. eapply wp_mono; [exact (looks_node_new k f _ _ False Hk Hf)| |cbv beta; tauto].
  cbv beta. intros f1 x (Hl1 & Hf1 & Hx). apply wp_bind. pose proof (leaf_new _ _ _ _ _ Hl Hx) as Hleaf.
  destruct Hx as (Hx0 & n & Hn & Hkind & Hkids & Hempty & Hfd). eapply wp_change_node; [done|]. intros f2 Hf2.
  set (target := if bool_decide (path = []) then _ else _) in *.
  assert (len target <= isize_max) as Htarget.
  { unfold target. case_bool_decide; [|eapply Hopen; by left]. pose proof (decimal_length fd). rewrite !length_app.
    change (length (str "anon_inode:[")) with 12%nat. change (length (str "]")) with 1%nat. change isize_max with 9223372036854775807. lia. }
  assert (looked f0 f2) as Hl2.
  { eapply looked_new; [by eapply looked_trans|apply Hleaf|exact Hn|exact Hf2|]. cbn. rewrite Hkids. intros name c. by rewrite lookup_empty. }
  apply IH.
  - destruct (tr_node _ _ Hf1 _ _ Hn) as [h1 h2 h3 h4]. eapply tree_ok_less; [exact Hf1|exact Hn|..|exact Hf2|]; [done| |done].
    by split.
  - done.
  - intros fd' path' Hin. eapply Hopen. by right.
  - intros name y Hy. assert (leaf_since f0 f1 y) as (Hy0 & m & Hm & Hmk & Hmf).
    { destruct (decide (name = decimal fd)) as [->|Hne]; [rewrite lookup_insert_eq in Hy; by injection Hy as <-|].
      rewrite lookup_insert_ne in Hy by done. eapply leaf_kept; [exact Hl1|by eapply Hent]. }
    destruct Hf2 as [v ->]. split; [done|]. destruct (decide (y = x)) as [->|Hne].
    + eexists. cbn. rewrite lookup_insert_eq. done.
    + exists m. cbn. by rewrite lookup_insert_ne.
Qed.

Lemma looks_refresh k f id : 1 <= k -> tree_ok k f -> looks k f (refresh_dir id) (fun _ _ => True) False.
Proof.
  intros Hk Hf. unfold refresh_dir, looks. apply wp_bind, wp_gets. destruct (fd_dirs f !! id) as [pid|] eqn:Efd; [|by apply looks_ret].
  apply wp_bind, wp_gets. destruct (open_files (env f) pid) as [open|] eqn:Eopen; [|by apply looks_ret]. apply wp_bind.
  eapply wp_mono; [apply (fd_entries_fresh k f); [done|done|apply looked_refl|intros fd path; by eapply open_names_bound|]| |cbv beta; tauto].
  { intros name x Hx. by rewrite lookup_empty in Hx. }
  cbv beta. intros f1 out (Hl & Hf1 & Hout). destruct (tr_fds _ _ Hf _ _ Efd) as (n & Hn & Hkind). destruct (looked_node _ _ _ _ Hl Hn) as (n1 & Hn1 & Hk1).
  eapply wp_change_node; [done|]. intros f2 Hf2. split; [|split; [|done]].
  - eapply looked_fds; [exact Hl|by exists pid|exact Hn1|exact Hf2|]. intros name c Hc. by eapply Hout.
  - destruct (tr_node _ _ Hf1 _ _ Hn1) as [h1 h2 h3 h4]. eapply tree_ok_put; [exact Hf1|exact Hn1|..|exact Hf2|]; [done| |].
    + split; try done. unfold is_dir in *. cbn. by rewrite Hk1, Hkind.
    + cbn. intros name c Hc. destruct (Hout name c Hc) as (Hc0 & m & Hm & Hmk & _). split; [by exists m|]. intros Hb.
      apply (beneath_leaf _ _ _ _ Hm Hmk) in Hb as ->. congruence.
Qed.

Definition is_there (f : FS) (id : nat) : Prop := exists n, nodes f !! id = Some n.

Lemma there_kept f f' id : looked f f' -> is_there f id -> is_there f' id.
Proof. intros Hl [n Hn]. destruct (looked_node _ _ _ _ Hl Hn) as (m & Hm & _). by exists m. Qed.

Lemma looks_there {A} k f id (g : Node -> M FS Errno A) P X :
  tree_ok k f -> is_there f id -> (forall n, nodes f !! id = Some n -> looks k f (g n) P X) -> looks k f (bind (the_node id) g) P X.
Proof. intros Hf [n Hn] Hg. apply wp_bind. eapply wp_the_node; [done|]. by apply Hg. Qed.

Lemma looks_walk k follow follow_final before rest node f :
  1 <= k -> (forall target f', tree_ok k f' -> looks k f' (follow target) is_there True) -> tree_ok k f -> is_there f node ->
  looks k f (walk follow follow_final before rest node) is_there True.
Proof.
  intros Hk Hfollow. revert before node f. induction rest as [|name rest IH]; intros before node f Hf Hn; [by apply looks_ret|].
  cbn [walk]. apply looks_there; [done..|]. intros n Hn'. destruct (is_dir n); cbn [negb]; [|by apply looks_throw].
  eapply looks_bind; [eapply looks_mono; [by apply looks_refresh|done|done]|]. intros f1 _ Hl1 Hf1 _.
  eapply looks_bind; [by apply (looks_gets k f1 _ (fun _ _ => True))|]. intros f2 own Hl2 Hf2 _.
  assert (is_there f2 node) as Hn2 by (eapply there_kept; [exact Hl2|]; by eapply there_kept).
  apply (looks_bind k f2 _ _ is_there).
  { case_bool_decide; [by apply looks_throw|]. apply looks_there; [done..|]. intros n2 Hn2'. apply looks_ok_or; [done..|].
    intros c Hc. apply (tr_kids _ _ Hf2 node). by exists n2, own. }
  intros f3 child Hl3 Hf3 Hchild. apply looks_there; [done..|]. intros c Hc.
  apply (looks_bind k f3 _ _ is_there).
  { destruct (bool_decide (kind c = Symlink) && (negb (bool_decide (rest = [])) || follow_final)); [|by apply looks_ret].
    eapply looks_bind; [by apply (looks_ok_or k f3 _ _ (fun _ _ => True))|]. intros f4 target _ Hf4 _. by apply Hfollow. }
  intros f4 next _ Hf4 Hnext. by apply IH.
Qed.

Lemma looks_root k f X : tree_ok k f -> looks k f root is_there X.
Proof.
  intros Hf. unfold root. destruct (tr_root _ _ Hf) as (r & n & Hr & Hn & _). apply wp_bind, wp_gets. rewrite Hr. apply looks_ret; [done|by exists n].
Qed.

Lemma looks_lookup k links path follow_final f : 1 <= k -> tree_ok k f -> looks k f (lookup_inner links path follow_final) is_there True.
Proof.
  intros Hk. revert path follow_final f. induction links as [|links IH]; intros path follow_final f Hf; [by apply looks_throw|].
  cbn [lookup_inner]. eapply looks_bind; [by apply looks_root|]. intros f1 start _ Hf1 Hstart. apply looks_walk; auto.
Qed.

Definition is_directory (f : FS) (id : nat) : Prop := exists n, nodes f !! id = Some n /\ is_dir n = true.

(** What [split_parent] finds: the directory the first part of the path leads to,
    and the last name of it. *)
Definition parent_found (path : Str) (f f' : FS) (r : nat * Str) : Prop :=
  is_directory f' r.1 /\ r.2 = (split_path path).2 /\ lookup_path (split_path path).1 f = (f', Ok r.1).

Lemma looks_split_parent k path f :
  1 <= k -> tree_ok k f -> looks k f (split_parent path) (parent_found path f) True.
Proof.
  intros Hk Hf. unfold split_parent. destruct (split_path path) as [dir name] eqn:Es.
  case_bool_decide; [by apply looks_throw|]. pose proof (looks_lookup k (S SYMLINK_DEPTH) dir true f Hk Hf) as Hlook. fold (lookup_path dir) in Hlook.
  unfold looks, wp, bind in *. destruct (lookup_path dir f) as [f1 [parent|e|w]] eqn:El; [|done..]. destruct Hlook as (Hl & Hf1 & [n Hn]).
  unfold the_node. rewrite Hn. destruct (is_dir n) eqn:Ed; cbn [negb]; [|done]. cbn. split; [done|]. split; [done|].
  split; [by exists n|]. by rewrite Es.
Qed.

(** ** Beneath, or not *)

(** Along a way down there are different nodes. *)
Lemma way_down t m x y :
  acyclic t -> (forall p c, child_of t p c -> is_Some (t !! c)) -> is_Some (t !! x) -> nsteps (child_of t) m x y ->
  exists l, length l = S m /\ NoDup l /\ forall z, z ∈ l -> beneath t x z /\ is_Some (t !! z).
Proof.
  intros Ha Hkids Hx H. induction H as [x|m x z y Hxz Hzy IH].
  - exists [x]. split; [done|]. split; [apply NoDup_singleton|]. intros z ->%list_elem_of_singleton. split; [apply rtc_refl|done].
  - destruct (IH (Hkids _ _ Hxz)) as (l & Hlen & Hnd & Hl). exists (x :: l). split; [cbn; lia|]. split.
    + constructor; [|done]. intros Hin. apply Hl in Hin as [Hin _]. by eapply acyclic_beneath.
    + intros w [->|Hw]%elem_of_cons; [split; [apply rtc_refl|done]|]. apply Hl in Hw as [Hw1 Hw2]. split; [by eapply rtc_l|done].
Qed.

Lemma no_long_way t m x y :
  acyclic t -> (forall p c, child_of t p c -> is_Some (t !! c)) -> is_Some (t !! x) -> (size t <= m)%nat -> ~ nsteps (child_of t) m x y.
Proof.
  intros Ha Hkids Hx Hm H. destruct (way_down t m x y Ha Hkids Hx H) as (l & Hlen & Hnd & Hl).
  assert (list_to_set l ⊆ dom t) as Hsub.
  { intros z Hz. apply elem_of_list_to_set in Hz. apply elem_of_dom. by apply Hl. }
  apply subseteq_size in Hsub. rewrite size_list_to_set, size_dom in Hsub by done. lia.
Qed.

Lemma sorted_child t n x c : t !! x = Some n -> c ∈ (sorted_children n).*2 <-> child_of t x c.
Proof.
  intros Hn. unfold sorted_children. rewrite list_elem_of_fmap. split.
  - intros ([name d] & -> & Hin). rewrite merge_sort_Permutation in Hin. apply elem_of_map_to_list in Hin. by exists n, name.
  - intros (m & name & Hm & Hc). rewrite Hn in Hm. injection Hm as <-. exists (name, c). split; [done|]. rewrite merge_sort_Permutation. by apply elem_of_map_to_list.
Qed.

Lemma turns_settle t d x :
  (forall y, ~ nsteps (child_of t) (S d) x y) -> walk_turns (S d) t x = walk_turns d t x.
Proof.
  revert x. induction d as [|d IH]; intros x Hno.
  - cbn [walk_turns]. destruct (t !! x) as [n|] eqn:Hn; [|done]. destruct (is_dir n); [|done].
    destruct (sorted_children n).*2 as [|c l] eqn:E; [done|]. exfalso. apply (Hno c). eapply nsteps_l; [|apply nsteps_O].
    apply (sorted_child t n); [done|]. rewrite E. by left.
  - cbn [walk_turns]. destruct (t !! x) as [n|] eqn:Hn; [|done]. destruct (is_dir n); [|done]. do 2 f_equal. apply list_fmap_ext.
    intros i c Hc. cbn [walk_turns] in IH. apply IH. intros y Hy. apply (Hno y). eapply nsteps_l; [|exact Hy].
    apply (sorted_child t n); [done|]. by eapply list_elem_of_lookup_2.
Qed.

Lemma sum_list_app (l1 l2 : list nat) : sum_list (l1 ++ l2) = (sum_list l1 + sum_list l2)%nat.
Proof. induction l1 as [|x l1 IH]; cbn; [done|]. lia. Qed.
Lemma sum_list_reverse (l : list nat) : sum_list (reverse l) = sum_list l.
Proof. induction l as [|x l IH]; [done|]. rewrite reverse_cons, sum_list_app. cbn. lia. Qed.

Lemma turns_of_dir k f x n :
  tree_ok k f -> nodes f !! x = Some n -> is_dir n = true ->
  walk_turns (size (nodes f)) (nodes f) x = S (sum_list (walk_turns (size (nodes f)) (nodes f) <$> (sorted_children n).*2)).
Proof.
  intros Hf Hn Hd. rewrite <- turns_settle.
  - cbn [walk_turns]. by rewrite Hn, Hd.
  - intros y. apply no_long_way; [apply Hf|apply Hf|by exists n|lia].
Qed.

Lemma turns_positive d t x : (0 < walk_turns d t x)%nat.
Proof. destruct d; cbn; [lia|]. destruct (t !! x) as [n|]; [|lia]. destruct (is_dir n); lia. Qed.

(** [is_within] ends, and says whether the one is beneath the other. *)
Lemma wp_is_within k a node f (Q : FS -> bool -> Prop) X :
  tree_ok k f -> is_there f a -> (forall b, (b = true <-> beneath (nodes f) a node) -> Q f b) -> wp (is_within a node) Q X f.
Proof.
  intros Hf Ha HQ. unfold is_within. apply wp_bind, wp_gets. set (weight := walk_turns (size (nodes f)) (nodes f)).
  apply (wp_loop (fun pending f' => f' = f /\ Forall (is_there f) pending /\ ((exists p, p ∈ pending /\ beneath (nodes f) p node) <-> beneath (nodes f) a node))
                 (fun pending _ => sum_list (weight <$> pending))).
  2:{ split; [done|]. split; [by repeat constructor|]. split; [intros (p & ->%list_elem_of_singleton & Hp); done|]. intros Hp. exists a. split; [by left|done]. }
  2:{ cbn. lia. }
  intros pending f' (-> & Hthere & Hiff). destruct pending as [|x pending]; cbn [within_turn].
  - apply wp_ret, HQ. rewrite <- Hiff. split; [done|]. intros (p & Hp & _). by apply not_elem_of_nil in Hp.
  - inversion Hthere as [|? ? [n Hn] Hrest]; subst. case_bool_decide as Ex.
    + subst x. apply wp_ret, HQ. split; [|done]. intros _. apply Hiff. exists node. split; [by left|apply rtc_refl].
    + apply wp_bind. eapply wp_the_node; [done|]. cbn [fmap list_fmap sum_list]. pose proof (turns_positive (size (nodes f)) (nodes f) x) as Hpos. fold weight in Hpos.
      assert (beneath (nodes f) x node <-> exists c, child_of (nodes f) x c /\ beneath (nodes f) c node) as Hx.
      { split; [|intros (c & Hc & Hb); by eapply rtc_l]. intros Hb. destruct Hb as [|? c ? Hc Hb]; [done|]. eauto. }
      destruct (is_dir n) eqn:Ed; cbn [negb]; apply wp_ret.
      * split; [|rewrite fmap_app, sum_list_app, fmap_reverse, sum_list_reverse; pose proof (turns_of_dir k f x n Hf Hn Ed) as Ht; fold weight in Ht; change (id (weight x)) with (weight x); rewrite Ht; lia].
        split; [done|]. split.
        { apply Forall_app. split; [|done]. apply Forall_forall. intros c Hc. rewrite elem_of_reverse in Hc. apply (sorted_child _ _ _ _ Hn) in Hc.
          destruct (tr_kids _ _ Hf _ _ Hc) as [m Hm]. by exists m. }
        rewrite <- Hiff. setoid_rewrite elem_of_app. setoid_rewrite elem_of_reverse. setoid_rewrite (sorted_child _ _ _ _ Hn). setoid_rewrite elem_of_cons.
        split; intros (p & Hp & Hb); [destruct Hp as [Hp|Hp]|destruct Hp as [->|Hp]].
        -- exists x. split; [by left|]. apply Hx. eauto.
        -- eauto.
        -- apply Hx in Hb as (c & Hc & Hb). eauto.
        -- eauto.
      * split; [|unfold id; lia]. split; [done|]. split; [done|]. rewrite <- Hiff. setoid_rewrite elem_of_cons. split; intros (p & Hp & Hb); [eauto|].
        destruct Hp as [->|Hp]; [|eauto]. apply Hx in Hb as (c & (m & name & Hm & Hc) & _). rewrite Hn in Hm. injection Hm as <-.
        by rewrite (no_kids _ _ (tr_node _ _ Hf _ _ Hn) Ed), lookup_empty in Hc.
Qed.
End tree.
