(* ===== verification/FsCalls.v ===== *)
(** * The filesystem in memory: what the calls do

    A call that names files looks things up and then changes entries; one that is
    refused has only looked. Every call keeps the tree. *)

From S2P Require Import Prelude Words Fs FsSpec.

(** ** Entries, changed *)

Definition enter_in (p : nat) (name : Str) (c : nat) (t : gmap nat Node) : gmap nat Node :=
  alter (fun n => set_children (<[name := c]> (children n)) n) p t.
Definition leave_in (p : nat) (name : Str) (t : gmap nat Node) : gmap nat Node :=
  alter (fun n => set_children (delete name (children n)) n) p t.
Definition one_name_less (id : nat) (t : gmap nat Node) : gmap nat Node :=
  alter (fun n => set_nlink (saturating_sub (nlink n) 1) n) id t.
Definition one_name_more (id : nat) (t : gmap nat Node) : gmap nat Node :=
  alter (fun n => set_nlink (nlink n + 1) n) id t.

Lemma alter_there (g : Node -> Node) (x y : nat) (t : gmap nat Node) : is_Some (t !! x) -> is_Some (alter g y t !! x).
Proof.
  intros [n Hn]. destruct (decide (x = y)) as [->|Hne]; [rewrite lookup_alter_eq, Hn; eauto|rewrite lookup_alter_ne by done; eauto].
Qed.

Section calls.
Context {V : Type} {FE : FsEnv V} {FL : FsLaws}.
Abbreviation FS := (Fs V).
Implicit Types f : FS.

Lemma wp_change_alter id g n (Q : FS -> unit -> Prop) X f :
  nodes f !! id = Some n -> Q (with_nodes (alter g id (nodes f)) f) tt -> wp (change_node id g) Q X f.
Proof.
  intros Hn HQ. apply wp_bind. eapply wp_the_node; [done|]. apply wp_modify. assert (alter g id (nodes f) = <[id := g n]> (nodes f)) as <-; [|done].
  apply map_eq. intros x. destruct (decide (x = id)) as [->|Hne]; [by rewrite lookup_alter_eq, lookup_insert_eq, Hn|by rewrite lookup_alter_ne, lookup_insert_ne].
Qed.

Lemma only_alter id g n (f : FS) : nodes f !! id = Some n -> only_node id (g n) f (with_nodes (alter g id (nodes f)) f).
Proof.
  intros Hn. exists (env f). unfold with_nodes. cbn. f_equal.
  apply map_eq. intros x. destruct (decide (x = id)) as [->|Hne]; [by rewrite lookup_alter_eq, lookup_insert_eq, Hn|by rewrite lookup_alter_ne, lookup_insert_ne].
Qed.

Lemma tree_ok_entered k p name c f :
  tree_ok k f -> is_directory f p -> is_there f c -> ~ beneath (nodes f) c p -> tree_ok k (with_nodes (enter_in p name c (nodes f)) f).
Proof. intros Hf (n & Hn & Hd) Hc Hnb. eapply (tree_ok_enter k p name c n); [done..|]. by apply (only_alter p (fun n => set_children (<[name := c]> (children n)) n)). Qed.

Lemma tree_ok_left k p name f : tree_ok k f -> is_there f p -> tree_ok k (with_nodes (leave_in p name (nodes f)) f).
Proof.
  intros Hf [n Hn]. destruct (tr_node _ _ Hf _ _ Hn) as [h1 h2 h3 h4].
  eapply tree_ok_less; [exact Hf|exact Hn| | |by apply (only_alter p (fun n => set_children (delete name (children n)) n))|]; [done| |apply delete_subseteq].
  split; try done. cbn. intros Hd. by rewrite (h4 Hd), delete_empty.
Qed.

Lemma tree_ok_fewer k id f : tree_ok k f -> is_there f id -> tree_ok k (with_nodes (one_name_less id (nodes f)) f).
Proof.
  intros Hf [n Hn]. destruct (tr_node _ _ Hf _ _ Hn) as [h1 h2 h3 h4].
  eapply tree_ok_less; [exact Hf|exact Hn| | |by apply (only_alter id (fun n => set_nlink (saturating_sub (nlink n) 1) n))|]; [done| |done].
  split; try done. cbn. unfold saturating_sub. lia.
Qed.

Lemma tree_ok_weaken k k' f : k <= k' -> tree_ok k f -> tree_ok k' f.
Proof. intros Hk [a b c d e g]. split; try done. intros id n Hn. destruct (a id n Hn) as [h1 h2 h3 h4]. split; try done. lia. Qed.

Lemma tree_ok_more k id f : tree_ok k f -> is_there f id -> tree_ok (k + 1) (with_nodes (one_name_more id (nodes f)) f).
Proof.
  intros Hf [n Hn]. destruct (tr_node _ _ Hf _ _ Hn) as [h1 h2 h3 h4]. apply (tree_ok_weaken k (k + 1)) in Hf; [|lia].
  eapply tree_ok_less; [exact Hf|exact Hn| | |by apply (only_alter id (fun n => set_nlink (nlink n + 1) n))|]; [done| |done].
  split; try done. cbn. lia.
Qed.

(** ** Calls *)

(** What a call does to the tree it finds once it has looked; when it is refused it
    has only looked. *)
Definition edits {A} (k k' : Z) (f : FS) (m : M FS Errno A) (Eff : FS -> FS -> A -> Prop) : Prop :=
  wp m (fun f' a => exists f1, looked f f1 /\ tree_ok k f1 /\ tree_ok k' f' /\ Eff f1 f' a) (fun f' _ => looked f f' /\ tree_ok k f') f.

Lemma edits_bind {A B} k k' f (m : M FS Errno A) (g : A -> M FS Errno B) P Eff X :
  looks k f m P X -> (forall f' a, looked f f' -> tree_ok k f' -> P f' a -> edits k k' f' (g a) Eff) -> edits k k' f (bind m g) Eff.
Proof.
  intros Hm Hg. apply wp_bind. eapply wp_mono; [exact Hm| |cbv beta; tauto]. cbv beta. intros f1 a (H1 & H2 & H3).
  eapply wp_mono; [by apply (Hg f1 a)| |]; cbv beta.
  - intros f2 b (f3 & G1 & G2). exists f3. split; [by eapply looked_trans|done].
  - intros f2 e (G1 & G2). split; [by eapply looked_trans|done].
Qed.
Lemma edits_throw {A} k k' f e (Eff : FS -> FS -> A -> Prop) : tree_ok k f -> edits k k' f (throw e) Eff.
Proof. intros Hf. apply wp_throw. split; [apply looked_refl|done]. Qed.
Lemma edits_there {A} k k' f id (g : Node -> M FS Errno A) Eff :
  is_there f id -> (forall n, nodes f !! id = Some n -> edits k k' f (g n) Eff) -> edits k k' f (bind (the_node id) g) Eff.
Proof. intros [n Hn] Hg. apply wp_bind. eapply wp_the_node; [done|]. by apply Hg. Qed.
Lemma edits_ret {A} k k' f (a : A) (Eff : FS -> FS -> A -> Prop) : k <= k' -> tree_ok k f -> Eff f f a -> edits k k' f (ret a) Eff.
Proof. intros Hk Hf HE. apply wp_ret. exists f. split; [apply looked_refl|]. split; [done|]. split; [by eapply tree_ok_weaken|done]. Qed.
Lemma edits_mono {A} k k' f (m : M FS Errno A) (Eff Eff' : FS -> FS -> A -> Prop) :
  edits k k' f m Eff -> (forall f1 f' a, looked f f1 -> Eff f1 f' a -> Eff' f1 f' a) -> edits k k' f m Eff'.
Proof. intros Hm HE. eapply wp_mono; [exact Hm| |done]. cbv beta. intros f' a (f1 & H1 & H2 & H3 & H4). exists f1. auto. Qed.
Lemma edits_unit {A} k k' f (m : M FS Errno A) (Eff : FS -> FS -> unit -> Prop) :
  edits k k' f m (fun f1 f' _ => Eff f1 f' tt) -> edits k k' f (let! _ := m in ret tt) Eff.
Proof. intros Hm. apply wp_bind. eapply wp_mono; [exact Hm| |done]. cbv beta. intros f' a H. by apply wp_ret. Qed.

Lemma directory_there f id : is_directory f id -> is_there f id.
Proof. intros (n & Hn & _). by exists n. Qed.
Lemma directory_kept f f' id : looked f f' -> is_directory f id -> is_directory f' id.
Proof. intros Hl (n & Hn & Hd). destruct (looked_node _ _ _ _ Hl Hn) as (m & Hm & Hk). exists m. split; [done|]. unfold is_dir in *. by rewrite Hk. Qed.

Lemma edits_insert {A} k p name c (a : A) f (Eff : FS -> FS -> A -> Prop) :
  tree_ok k f -> is_directory f p -> is_there f c -> ~ beneath (nodes f) c p -> Eff f (with_nodes (enter_in p name c (nodes f)) f) a ->
  edits k k f (insert_child p name c ;;; ret a) Eff.
Proof.
  intros Hf Hp Hc Hnb HE. apply wp_bind. destruct (directory_there _ _ Hp) as [n Hn]. eapply wp_change_alter; [done|]. apply wp_ret.
  exists f. split; [apply looked_refl|]. split; [done|]. split; [by apply tree_ok_entered|done].
Qed.

(** A node made just now has nothing beneath it. *)
Lemma leaf_apart f0 f x p : leaf_since f0 f x -> is_there f0 p -> ~ beneath (nodes f) x p.
Proof. intros (H1 & n & H2 & H3 & _) [m Hm] Hb. apply (beneath_leaf _ _ _ _ H2 H3) in Hb as ->. congruence. Qed.

(** What naming a new node is: the name was free, and the node is made after
    everything that was looked up. *)
Definition added (path : Str) (nk : NodeKind) (f f1 f' : FS) (id : nat) : Prop :=
  exists f0 p n, looked f f0 /\ lookup_path (split_path path).1 f = (f0, Ok p) /\ nodes f0 !! p = Some n /\ is_dir n = true /\
    children n !! (split_path path).2 = None /\ leaf_since f0 f1 id /\ (exists m, nodes f1 !! id = Some m /\ kind m = nk) /\
    nodes f' = enter_in p (split_path path).2 id (nodes f1).

(** [make] makes a node of kind [nk] and names it nowhere. *)
Definition makes (k : Z) (nk : NodeKind) (make : M FS Errno nat) : Prop :=
  forall f, tree_ok k f -> looks k f make (fun f' id => leaf_since f f' id /\ exists m, nodes f' !! id = Some m /\ kind m = nk) False.

Lemma makes_node_new k nk m : 1 <= k -> makes k nk (node_new nk m).
Proof.
  intros Hk f Hf. eapply looks_mono; [by apply looks_node_new| |done]. intros f' id Hl _ Hx. split; [eapply leaf_new; [apply looked_refl|done]|].
  destruct Hx as (_ & n & Hn & Hkind & _). eauto.
Qed.

Lemma makes_symlink k target : 1 <= k -> len target <= isize_max -> makes k Symlink (new_symlink target).
Proof.
  intros Hk Ht f Hf. unfold new_symlink. apply wp_bind. eapply wp_mono; [exact (looks_node_new k f _ _ False Hk Hf)| |cbv beta; tauto].
  cbv beta. intros f1 x (Hl1 & Hf1 & Hx0 & n & Hn & Hkind & Hkids & Hempty & Hfd). apply wp_bind. eapply wp_change_node; [done|]. intros f2 Hf2. apply wp_ret.
  split; [eapply looked_new; [exact Hl1|exact Hx0|exact Hn|exact Hf2|]; cbn; intros name c Hc; by destruct (no_child n name c)|].
  pose proof (only_node_at _ _ _ _ Hf2) as Hn2. split.
  - destruct (tr_node _ _ Hf1 _ _ Hn) as [h1 h2 h3 h4]. eapply tree_ok_less; [exact Hf1|exact Hn| | |exact Hf2|done]; [done|by split].
  - split; [|by eexists]. split; [done|]. eexists. split; [exact Hn2|]. split; [done|]. destruct Hf2 as [v ->]. exact Hfd.
Qed.

(** The parent is found, and then the entries of it are looked at. *)
Lemma edits_in_parent {A} k k' path f (g : nat -> Str -> Node -> M FS Errno A) Eff :
  1 <= k -> tree_ok k f ->
  (forall f0 p n, looked f f0 -> tree_ok k f0 -> lookup_path (split_path path).1 f = (f0, Ok p) -> nodes f0 !! p = Some n -> is_dir n = true ->
     edits k k' f0 (g p (split_path path).2 n) Eff) ->
  edits k k' f (let! '(p, name) := split_parent path in let! n := the_node p in g p name n) Eff.
Proof.
  intros Hk Hf Hg. eapply edits_bind; [by apply looks_split_parent|]. intros f0 [p name] Hl Hf0 ((n & Hn & Hd) & Hname & Hlook). cbn [fst snd] in *. subst name.
  apply edits_there; [by exists n|]. intros n' Hn'. rewrite Hn in Hn'. injection Hn' as <-. by apply (Hg f0 p n).
Qed.

Lemma edits_add_new k path e nk make f :
  1 <= k -> tree_ok k f -> makes k nk make -> edits k k f (add_new path e make) (added path nk f).
Proof.
  intros Hk Hf Hmake. unfold add_new. apply edits_in_parent; [done..|]. intros f0 p n Hl Hf0 Hlook Hn Hd.
  case_bool_decide; [by apply edits_throw|]. case_bool_decide as Hfree; [by apply edits_throw|].
  eapply edits_bind; [by apply Hmake|]. cbv beta. intros f1 id Hl1 Hf1 [Hleaf Hkind].
  assert (is_directory f0 p) as Hp by (by exists n). apply edits_insert; [done|by eapply directory_kept|..].
  - destruct Hleaf as (_ & m & Hm & _). by exists m.
  - eapply leaf_apart; [done|]. by apply directory_there.
  - exists f0, p, n. repeat (split; [done|]). split; [by apply eq_None_not_Some|]. repeat (split; [done|]). done.
Qed.

(** The name led somewhere already. *)
Definition found (path : Str) (f f1 : FS) (id : nat) : Prop :=
  exists p n, lookup_path (split_path path).1 f = (f1, Ok p) /\ nodes f1 !! p = Some n /\ is_dir n = true /\ children n !! (split_path path).2 = Some id.

Lemma edits_create k path m f :
  1 <= k -> tree_ok k f -> edits k k f (create path m) (fun f1 f' id => added path File f f1 f' id \/ (f' = f1 /\ found path f f1 id)).
Proof.
  intros Hk Hf. unfold create. case_bool_decide; [by apply edits_throw|]. apply edits_in_parent; [done..|]. intros f0 p n Hl Hf0 Hlook Hn Hd.
  case_bool_decide; [by apply edits_throw|]. destruct (children n !! (split_path path).2) as [x|] eqn:Ex.
  - apply edits_ret; [lia|done|]. right. split; [done|]. by exists p, n.
  - eapply edits_bind; [by apply (makes_node_new k File)|]. cbv beta. intros f1 id Hl1 Hf1 [Hleaf Hkind].
    assert (is_directory f0 p) as Hp by (by exists n). apply edits_insert; [done|by eapply directory_kept|..].
    + destruct Hleaf as (_ & x & Hx & _). by exists x.
    + eapply leaf_apart; [done|]. by apply directory_there.
    + left. exists f0, p, n. by repeat (split; [done|]).
Qed.

Lemma edits_mkdir k path m f : 1 <= k -> tree_ok k f -> edits k k f (mkdir path m) (added path Dir f).
Proof. intros Hk Hf. unfold mkdir. case_bool_decide; [by apply edits_throw|]. apply edits_add_new; [done..|]. by apply makes_node_new. Qed.
Lemma edits_mkfifo k path m f : 1 <= k -> tree_ok k f -> edits k k f (mkfifo path m) (added path Fifo f).
Proof. intros Hk Hf. apply edits_add_new; [done..|]. by apply makes_node_new. Qed.
Lemma edits_symlink k path target f :
  1 <= k -> len target <= isize_max -> tree_ok k f -> edits k k f (symlink path target) (fun f1 f' _ => exists id, added path Symlink f f1 f' id).
Proof.
  intros Hk Ht Hf. apply edits_unit. eapply edits_mono; [apply (edits_add_new k path EPERM Symlink); [done..|by apply makes_symlink]|]. eauto.
Qed.

(** A name that is gone, with what it led to one name poorer. *)
Definition removed (path : Str) (want_dir : bool) (f f1 f' : FS) : Prop :=
  exists p id m, found path f f1 id /\ lookup_path (split_path path).1 f = (f1, Ok p) /\ nodes f1 !! id = Some m /\
    is_dir m = want_dir /\ (want_dir = true -> children m = ∅) /\
    nodes f' = one_name_less id (leave_in p (split_path path).2 (nodes f1)).

Lemma looked_up_alike path f f1 f2 p q : lookup_path path f = (f1, Ok p) -> lookup_path path f = (f2, Ok q) -> p = q.
Proof. congruence. Qed.

Lemma edits_unlink k path want_dir f : 1 <= k -> tree_ok k f -> edits k k f (unlink path want_dir) (fun f1 f' _ => removed path want_dir f f1 f').
Proof.
  intros Hk Hf. unfold unlink. case_bool_decide; [by apply edits_throw|]. apply edits_in_parent; [done..|]. intros f0 p n Hl Hf0 Hlook Hn Hd.
  case_bool_decide; [by apply edits_throw|]. destruct (children n !! (split_path path).2) as [id|] eqn:Ex; cbn [ok_or]; [|by apply edits_throw].
  change (edits k k f0 (bind (ret id) ?g) ?E) with (edits k k f0 (g id) E). cbv beta.
  assert (child_of (nodes f0) p id) as Hch by (by exists n, (split_path path).2). destruct (tr_kids _ _ Hf0 _ _ Hch) as [m Hm].
  apply edits_there; [by exists m|]. intros m' Hm'. rewrite Hm in Hm'. injection Hm' as <-. case_bool_decide; [by apply edits_throw|].
  destruct (Bool.eqb (is_dir m) want_dir) eqn:Ed; cbn [negb]; [|by apply edits_throw]. apply eqb_prop in Ed.
  assert (id <> p) as Hne. { intros ->. apply (tr_acyclic _ _ Hf0 p). by apply tc_once. }
  rewrite (bool_decide_false (id = p)), andb_false_r by done.
  destruct (want_dir && negb (bool_decide (children m = ∅))) eqn:Ee; [by apply edits_throw|].
  apply wp_bind. eapply wp_change_alter; [exact Hn|]. eapply wp_change_alter.
  { cbn. rewrite lookup_alter_ne by done. exact Hm. }
  exists f0. split; [apply looked_refl|]. split; [done|]. split.
  - apply (tree_ok_fewer k id (with_nodes (leave_in p (split_path path).2 (nodes f0)) f0)); [apply tree_ok_left; [done|by exists n]|].
    exists m. cbn. unfold leave_in. by rewrite lookup_alter_ne.
  - exists p, id, m. split; [by exists p, n|]. repeat (split; [done|]). split; [|done]. intros ->. by apply negb_false_iff, bool_decide_eq_true in Ee.
Qed.

Definition is_file (f : FS) (id : nat) : Prop := exists n, nodes f !! id = Some n /\ is_dir n = false.

Lemma file_kept f f' id : looked f f' -> is_file f id -> is_file f' id.
Proof. intros Hl (n & Hn & Hd). destruct (looked_node _ _ _ _ Hl Hn) as (m & Hm & Hk). exists m. split; [done|]. unfold is_dir in *. by rewrite Hk. Qed.

(** A second name. *)
Definition linked (path : Str) (node : nat) (f f1 f' : FS) : Prop :=
  exists p n, lookup_path (split_path path).1 f = (f1, Ok p) /\ nodes f1 !! p = Some n /\ is_dir n = true /\
    children n !! (split_path path).2 = None /\ nodes f' = enter_in p (split_path path).2 node (one_name_more node (nodes f1)).

Lemma file_beneath k f c p : tree_ok k f -> is_file f c -> is_directory f p -> ~ beneath (nodes f) c p.
Proof.
  intros Hf (n & Hn & Hd) (m & Hm & Hd') Hb. apply (beneath_leaf _ _ _ _ Hn) in Hb as ->; [congruence|]. by apply (no_kids _ _ (tr_node _ _ Hf _ _ Hn)).
Qed.

Lemma edits_hard_link k path node f :
  1 <= k < u32_max -> tree_ok k f -> is_file f node -> edits k (k + 1) f (hard_link path node) (fun f1 f' _ => linked path node f f1 f').
Proof.
  intros Hk Hf Hnode. unfold hard_link. apply edits_in_parent; [lia|done|]. intros f0 p n Hl Hf0 Hlook Hn Hd.
  pose proof (file_kept _ _ _ Hl Hnode) as Hnode0. destruct Hnode0 as (m & Hm & Hdm).
  apply edits_there; [by exists m|]. intros m' Hm'. rewrite Hm in Hm'. injection Hm' as <-.
  case_bool_decide; [by destruct (is_stored m); apply edits_throw|]. destruct (is_stored m); [by apply edits_throw|].
  case_bool_decide as Hfree; [by apply edits_throw|]. assert (node <> p) as Hne by congruence. rewrite bool_decide_false by done.
  pose proof (tr_node _ _ Hf0 _ _ Hm) as Hok. destruct (no_links _ _ Hok) as [Hl1 Hl2].
  apply wp_bind, wp_checked; [lia|]. apply wp_bind, wp_put_node. intros f1 [v Hf1] He1.
  assert (nodes f1 = one_name_more node (nodes f0)) as Hn1.
  { subst f1. cbn. unfold one_name_more. apply map_eq. intros x.
    destruct (decide (x = node)) as [->|Hx]; [by rewrite lookup_alter_eq, lookup_insert_eq, Hm|by rewrite lookup_alter_ne, lookup_insert_ne]. }
  assert (f1 = with_nodes (one_name_more node (nodes f0)) f0) as ->.
  { rewrite Hf1 in He1, Hn1 |- *. cbn in *. unfold with_nodes, with_env. cbn. by rewrite He1, Hn1. }
  assert (nodes (with_nodes (one_name_more node (nodes f0)) f0) !! p = Some n) as Hp1 by (cbn; unfold one_name_more; by rewrite lookup_alter_ne).
  eapply wp_change_alter; [exact Hp1|]. pose proof (tree_ok_more k node f0 Hf0 ltac:(by exists m)) as Hf1'.
  exists f0. split; [apply looked_refl|]. split; [done|]. split.
  - assert (is_file (with_nodes (one_name_more node (nodes f0)) f0) node) as Hfile.
    { eexists. split; [cbn; unfold one_name_more; by rewrite lookup_alter_eq, Hm|done]. }
    apply (tree_ok_entered (k + 1) p (split_path path).2 node (with_nodes (one_name_more node (nodes f0)) f0)); [done|by exists n|..].
    + destruct Hfile as (x & Hx & _). by exists x.
    + eapply file_beneath; [done..|by exists n].
  - exists p, n. repeat (split; [done|]). split; [by apply eq_None_not_Some|]. done.
Qed.

(** An attempt to look. *)
Lemma looks_try {A} k f (m : M FS Errno A) P : looks k f m P True -> looks k f (try_ m) (fun f' r => match r with inl a => P f' a | inr _ => True end) False.
Proof. intros Hm. apply wp_try. eapply wp_mono; [exact Hm| |]; cbv beta; tauto. Qed.

Lemma edits_linkat k old new follow f :
  1 <= k < u32_max -> tree_ok k f ->
  edits k (k + 1) f (linkat old new follow) (fun f1 f' _ => exists f0 node, looked f f0 /\ is_file f0 node /\ linked new node f0 f1 f').
Proof.
  intros Hk Hf. unfold linkat. eapply edits_bind; [by destruct follow; (apply looks_lookup; [lia|])|]. intros f0 node Hl Hf0 Hnode.
  apply edits_there; [done|]. intros n Hn. destruct (is_dir n) eqn:Ed; [by apply edits_throw|].
  eapply edits_bind; [apply looks_try, looks_lookup; [lia|done]|]. intros f1 there Hl1 Hf1 _. destruct there; [by apply edits_throw|].
  assert (is_file f1 node) as Hfile by (eapply file_kept; [exact Hl1|by exists n]).
  eapply edits_mono; [by apply edits_hard_link|]. cbv beta. intros f2 f' _ Hl2 Hlink. exists f1, node. split; [by eapply looked_trans|done].
Qed.

(** ** Moving *)

(** What [rename] does to the entries: the new one in, the old one out, and what was
    there one name poorer. *)
Definition moved (fp : nat) (fname : Str) (tp : nat) (tname : Str) (node : nat) (existing : option nat) (t : gmap nat Node) : gmap nat Node :=
  let t := leave_in fp fname (enter_in tp tname node t) in
  match existing with Some id => one_name_less id t | None => t end.

(** May [node] take the place of what is there? *)
Definition replaces (f : FS) (node : nat) (existing : option nat) : Prop :=
  match existing with
  | None => True
  | Some id => id <> node /\ exists n m, nodes f !! node = Some n /\ nodes f !! id = Some m /\ is_dir m = is_dir n /\ (is_dir m = true -> children m = ∅)
  end.

Lemma tree_ok_moved k fp fname tp tname node existing f :
  tree_ok k f -> is_directory f tp -> is_directory f fp -> is_there f node -> ~ beneath (nodes f) node tp ->
  match existing with Some id => is_there f id | None => True end ->
  tree_ok k (with_nodes (moved fp fname tp tname node existing (nodes f)) f).
Proof.
  intros Hf Htp Hfp Hnode Hnb Hex. set (f1 := with_nodes (enter_in tp tname node (nodes f)) f).
  assert (tree_ok k f1) as Hf1 by (by apply tree_ok_entered).
  set (f2 := with_nodes (leave_in fp fname (nodes f1)) f1). assert (tree_ok k f2) as Hf2.
  { apply tree_ok_left; [done|]. apply alter_there. destruct Hfp as (n & Hn & _). by exists n. }
  unfold moved. destruct existing as [id|]; [|exact Hf2]. apply (tree_ok_fewer k id f2); [done|]. by apply alter_there, alter_there.
Qed.

(** [rename] of what [from] leads to, from the entry [from] names to the one [to]
    names. *)
Definition renamed (from to : Str) (f f1 f' : FS) : Prop :=
  exists g0 g1 node fp tp n,
    lookup_nofollow from f = (g0, Ok node) /\ lookup_path (split_path from).1 g0 = (g1, Ok fp) /\ lookup_path (split_path to).1 g1 = (f1, Ok tp) /\
    nodes f1 !! tp = Some n /\
    let existing := children n !! (split_path to).2 in
    (existing = Some node /\ f' = f1) \/
    (replaces f1 node existing /\ ~ beneath (nodes f1) node tp /\
     nodes f' = moved fp (split_path from).2 tp (split_path to).2 node existing (nodes f1)).

(** The edits at the end of [rename]. *)
Lemma wp_move k fp fname tp tname node existing f (Q : FS -> unit -> Prop) X :
  tree_ok k f -> is_directory f tp -> is_directory f fp -> is_there f node -> match existing with Some id => is_there f id | None => True end ->
  Q (with_nodes (moved fp fname tp tname node existing (nodes f)) f) tt ->
  wp (insert_child tp tname node ;;; remove_child fp fname ;;; match existing with Some id => lose_name id | None => ret tt end) Q X f.
Proof.
  intros Hf Htp Hfp Hnode Hex HQ.
  destruct Htp as (n & Hn & _). apply wp_bind. eapply wp_change_alter; [exact Hn|].
  destruct Hfp as (n1 & Hn1 & _). destruct (alter_there (fun n => set_children (<[tname := node]> (children n)) n) fp tp (nodes f)) as [m1 Hm1]; [by exists n1|].
  apply wp_bind. eapply wp_change_alter; [exact Hm1|]. destruct existing as [id|]; [|exact HQ].
  destruct (alter_there (fun n => set_children (delete fname (children n)) n) id fp (enter_in tp tname node (nodes f))) as [m2 Hm2]; [by apply alter_there|].
  eapply wp_change_alter; [exact Hm2|]. exact HQ.
Qed.

Lemma edits_bind_is_within {A} k k' f a node (g : bool -> M FS Errno A) Eff :
  tree_ok k f -> is_there f a -> (forall b, (b = true <-> beneath (nodes f) a node) -> edits k k' f (g b) Eff) ->
  edits k k' f (bind (is_within a node) g) Eff.
Proof. intros Hf Ha Hg. apply wp_bind. by eapply wp_is_within. Qed.

(** What [rename] does once it knows whether [tp] is beneath [node]. *)
Lemma edits_put k (b : bool) fp fname tp tname node existing m f (Eff : FS -> FS -> unit -> Prop) :
  tree_ok k f -> is_directory f tp -> is_directory f fp -> nodes f !! node = Some m ->
  match existing with Some id => is_there f id | None => True end -> existing <> Some node ->
  (b = true <-> is_dir m = true /\ beneath (nodes f) node tp) ->
  (replaces f node existing -> ~ beneath (nodes f) node tp ->
   Eff f (with_nodes (moved fp fname tp tname node existing (nodes f)) f) tt) ->
  edits k k f
    (if b then throw EINVAL else
       match match existing with Some id => nodes f !! id | None => None end with
       | Some x =>
           if negb (Bool.eqb (is_dir x) (is_dir m)) then throw (if is_dir x then EISDIR else ENOTDIR)
           else if is_dir x && negb (bool_decide (children x = ∅)) then throw ENOTEMPTY
           else ret tt
       | None => ret tt
       end ;;;
       insert_child tp tname node ;;;
       remove_child fp fname ;;;
       match existing with Some id => lose_name id | None => ret tt end) Eff.
Proof.
  intros Hf Htp Hfp Hm Hthere Hother E HEff. destruct b; [by apply edits_throw|]. pose proof Htp as (n & Hn & Hd).
  assert (~ beneath (nodes f) node tp) as Hnb.
  { destruct (is_dir m) eqn:Em; [intros Hb; by assert (false = true) by (by apply E)|]. eapply file_beneath; [done|by exists m|by exists n]. }
  eapply (edits_bind k k f _ _ (fun f' _ => f' = f /\ replaces f node existing) _ True).
  - destruct existing as [id|] eqn:Eex; [|by apply looks_ret]. destruct Hthere as [x Hx]. rewrite Hx.
    destruct (Bool.eqb (is_dir x) (is_dir m)) eqn:Ed; cbn [negb]; [|by apply looks_throw]. apply eqb_prop in Ed.
    destruct (is_dir x && negb (bool_decide (children x = ∅))) eqn:Ee; [by apply looks_throw|]. apply looks_ret; [done|]. split; [done|].
    split; [congruence|]. exists m, x. repeat (split; [done|]). intros Hdx. rewrite Hdx in Ee. by apply negb_false_iff, bool_decide_eq_true in Ee.
  - intros f2 [] _ _ [-> Hrep]. eapply wp_move; [done..|by exists m|done|].
    exists f. split; [apply looked_refl|]. split; [done|]. split; [apply tree_ok_moved; try done; by exists m|by apply HEff].
Qed.

Lemma edits_rename k from to f : 1 <= k -> tree_ok k f -> edits k k f (rename from to) (fun f1 f' _ => renamed from to f f1 f').
Proof.
  intros Hk Hf. unfold rename. destruct (bool_decide (from = [SLASH]) || bool_decide (to = [SLASH])); [by apply edits_throw|].
  apply (edits_bind k k f _ _ (fun g0 node => is_there g0 node /\ lookup_nofollow from f = (g0, Ok node)) _ True).
  { pose proof (looks_lookup k (S SYMLINK_DEPTH) from false f Hk Hf) as H. fold (lookup_nofollow from) in H. unfold looks, wp in *.
    destruct (lookup_nofollow from f) as [g0 [node|e|w]]; naive_solver. }
  intros g0 node Hl0 Hg0 [Hnode Hlook0].
  eapply edits_bind; [by apply looks_split_parent|]. intros g1 [fp fname] Hl1 Hg1 (Hfp & Hfname & Hlook1). cbn [fst snd] in *. subst fname.
  eapply edits_bind; [by apply looks_split_parent|]. intros f1 [tp tname] Hl2 Hf1 (Htp & Htname & Hlook2). cbn [fst snd] in *. subst tname.
  pose proof (directory_kept _ _ _ Hl2 Hfp) as Hfp1.
  assert (is_there f1 node) as Hnode1 by (eapply there_kept; [exact Hl2|]; by eapply there_kept).
  clear Hl0 Hg0 Hnode Hl1 Hg1 Hfp Hl2. destruct Hnode1 as [m Hm]. destruct Htp as (n & Hn & Hd).
  apply edits_there; [by apply directory_there|]. intros nf Hnf. apply edits_there; [by exists n|]. intros n' Hn'. rewrite Hn in Hn'. injection Hn' as <-.
  destruct (bool_decide (kind nf = DataDir) || bool_decide (kind n = DataDir)); [by apply edits_throw|].
  apply edits_there; [by exists m|]. intros m' Hm'. rewrite Hm in Hm'. injection Hm' as <-.
  set (existing := children n !! (split_path to).2).
  assert (match existing with Some id => is_there f1 id | None => True end) as Hthere.
  { unfold existing. destruct (children n !! (split_path to).2) as [id|] eqn:E; [|done]. destruct (tr_kids _ _ Hf1 tp id) as [x Hx]; [by exists n, (split_path to).2|by exists x]. }
  apply (edits_bind k k f1 _ _ (fun f' e => f' = f1 /\ e = match existing with Some id => nodes f1 !! id | None => None end) _ True).
  { destruct existing as [id|]; [|by apply looks_ret]. destruct Hthere as [x Hx]. eapply looks_there; [done|by exists x|]. intros x' Hx'. by apply looks_ret. }
  intros f' e _ _ [-> ->].
  match goal with |- context [if ?b then throw EBUSY else _] => destruct b; [by apply edits_throw|] end.
  unfold same_node. case_bool_decide as Esame.
  { apply edits_ret; [lia|done|]. exists g0, g1, node, fp, tp, n. repeat (split; [done|]). by left. }
  assert (forall f', replaces f1 node existing -> ~ beneath (nodes f1) node tp ->
    nodes f' = moved fp (split_path from).2 tp (split_path to).2 node existing (nodes f1) -> renamed from to f f1 f') as Hren.
  { intros f' Hrep Hnb Hf'. exists g0, g1, node, fp, tp, n. repeat (split; [done|]). by right. }
  assert (is_directory f1 tp) as Htp by (by exists n). destruct (is_dir m) eqn:Em.
  - eapply edits_bind_is_within; [done|by exists m|]. intros b Hb. rewrite <- Em. apply edits_put; try done; [rewrite Hb; tauto|by auto].
  - apply (edits_bind k k f1 _ _ (fun f' b => f' = f1 /\ b = false) _ True); [by apply looks_ret|]. intros f2 b _ _ [-> ->].
    rewrite <- Em. apply (edits_put k false); try done; [|by auto]. split; [done|]. intros [? _]. congruence.
Qed.

(** ** A file put in place of what was there *)

Lemma written_new buf : bytes_written [] 0 buf = buf.
Proof. unfold bytes_written, splice. cbn. rewrite drop_ge; [by rewrite app_nil_r|]. unfold grown_to. cbn. rewrite length_replicate. lia. Qed.

Lemma only_same_kids k id n n' f f' :
  tree_ok k f -> nodes f !! id = Some n -> kind n' = kind n -> children n' = children n -> nlink n' = nlink n -> contents_ok n' -> changing n' = false ->
  only_node id n' f f' -> tree_ok k f'.
Proof.
  intros Hf Hn H1 H2 H3 H4 H5 Hone. destruct (tr_node _ _ Hf _ _ Hn) as [h1 h2 h3 h4]. eapply tree_ok_less; [done|exact Hn|done| |exact Hone|by rewrite H2].
  split; try done; [lia|]. unfold is_dir in *. rewrite H1, H2. done.
Qed.

Lemma tree_ok_has_bytes k id n d f f' : tree_ok k f -> nodes f !! id = Some n -> has_bytes id n d f f' -> tree_ok k f'.
Proof.
  intros Hf Hn (r & t & Hr & Hone). destruct (tr_node _ _ Hf _ _ Hn) as [h1 h2 h3 h4]. eapply only_same_kids; [done|done|..|exact Hone]; done.
Qed.
Lemma tree_ok_refused k id n target f f' e : tree_ok k f -> nodes f !! id = Some n -> refused id n target f f' e -> tree_ok k f'.
Proof. intros Hf Hn [Hone _]. destruct (tr_node _ _ Hf _ _ Hn). by eapply only_same_kids. Qed.

(** A new file with these bytes, named nowhere. *)
Definition new_contents (f f' : FS) (buf : list Z) (id : nat) : Prop :=
  leaf_since f f' id /\ unnamed f' id /\ exists n, nodes f' !! id = Some n /\ kind n = File /\ data n = buf.

Lemma looks_written k m buf f :
  1 <= k -> tree_ok k f ->
  looks k f (let! node := new_file m in let! _ := write_at node 0 buf in ret node) (fun f' id => new_contents f f' buf id) True.
Proof.
  intros Hk Hf. apply wp_bind. eapply wp_mono; [exact (looks_node_new k f _ _ False Hk Hf)| |cbv beta; tauto].
  cbv beta. intros f1 id (Hl & Hf1 & Hx0 & n & Hn & Hkind & Hkids & [Hempty Hun] & Hfd). destruct (tr_node _ _ Hf1 _ _ Hn) as [h1 h2 h3 h4].
  assert (forall n' f2, children n' = ∅ -> only_node id n' f1 f2 -> looked f f2) as Hlook.
  { intros n' f2 Hn' H2. eapply looked_new; [exact Hl|exact Hx0|exact Hn|exact H2|]. intros name c Hc. by destruct (no_child n' name c). }
  apply wp_bind. pose proof (wp_node_write id n 0 buf f1 Hn ltac:(unfold in_memory; by rewrite Hkind) h1 h2 ltac:(lia)) as Hw.
  eapply wp_mono; [exact Hw| |]; cbv beta.
  - intros f2 k' (_ & _ & Hb). pose proof (tree_ok_has_bytes k id n _ f1 f2 Hf1 Hn Hb) as Hf2. destruct Hb as (r & t & Hr & Hone). apply wp_ret.
    split; [eapply Hlook; [|exact Hone]; exact Hkids|]. split; [done|]. pose proof (only_node_at _ _ _ _ Hone) as Hn2. split.
    + split; [done|]. eexists. split; [exact Hn2|]. split; [done|]. destruct Hone as [v ->]. exact Hfd.
    + split; [|eexists; split; [exact Hn2|]; split; [done|]; cbn; rewrite Hempty; apply written_new].
      intros p Hp. apply (Hun p). destruct Hone as [v ->]. apply child_of_put in Hp as [[-> [name Hc]]|[_ Hp]]; [by apply no_child in Hc|done].
  - intros f2 e Hr. pose proof (tree_ok_refused k id n _ f1 f2 e Hf1 Hn Hr) as Hf2. destruct Hr as [Hone _]. split; [eapply Hlook; [|exact Hone]; exact Hkids|done].
Qed.

(** [contents] under the name, in a file of their own, and what was there one name
    poorer. *)
Definition replaced (path : Str) (contents : list Z) (f1 f' : FS) : Prop :=
  exists p n id m, nodes f1 !! p = Some n /\ is_dir n = true /\ nodes f1 !! id = Some m /\ kind m = File /\ data m = contents /\
    let existing := children n !! (split_path path).2 in
    existing <> Some id /\ (forall x, existing = Some x -> is_file f1 x) /\
    nodes f' = match existing with Some x => one_name_less x | None => fun t => t end (enter_in p (split_path path).2 id (nodes f1)).

Lemma edits_replace_file k path contents m f :
  1 <= k -> tree_ok k f -> edits k k f (replace_file path contents m) (fun f1 f' _ => replaced path contents f1 f').
Proof.
  intros Hk Hf. unfold replace_file.
  assert (forall {A B C} (a : M FS Errno A) (b : A -> M FS Errno B) (c : A -> M FS Errno C) Eff,
            edits k k f (bind (bind a (fun x => bind (b x) (fun _ => ret x))) c) Eff -> edits k k f (bind a (fun x => bind (b x) (fun _ => c x))) Eff) as Hassoc.
  { intros A B C a b c Eff. unfold edits, wp, bind. destruct (a f) as [s [x|e|w]]; [|done..]. by destruct (b x s) as [s' [y|e|w]]. }
  apply Hassoc. clear Hassoc. eapply edits_bind; [by apply looks_written|]. cbv beta. intros f1 id Hl1 Hf1 [Hleaf [Hun (m1 & Hm1 & Hkind & Hdata)]].
  apply edits_in_parent; [done..|]. intros f2 p n Hl2 Hf2 Hlook Hn Hd. case_bool_decide; [by apply edits_throw|].
  pose proof (leaf_kept _ _ _ _ Hl2 Hleaf) as Hleaf2. assert (nodes f2 !! id = Some m1) as Hm2.
  { destruct Hleaf as (_ & x & Hx & _ & Hfd). destruct (lk_node _ _ Hl2 _ _ Hm1) as (c & Hc & Hs). by rewrite (Hs Hfd), same_children in Hc. }
  set (existing := children n !! (split_path path).2).
  assert (existing <> Some id) as Hne.
  { unfold existing. intros E. apply (unnamed_kept _ _ _ Hl2 ltac:(by exists m1) Hun p). by exists n, (split_path path).2. }
  assert (is_there f2 id) as Hid by (by exists m1).
  assert (~ beneath (nodes f2) id p) as Hnb.
  { destruct Hleaf2 as (_ & x & Hx & Hxk & _). intros Hb. apply (beneath_leaf _ _ _ _ Hx Hxk) in Hb as ->.
    rewrite Hn in Hm2. injection Hm2 as ->. unfold is_dir in Hd. by rewrite Hkind in Hd. }
  apply (edits_bind k k f2 _ _ (fun f' b => f' = f2 /\ match existing with Some x => exists y, nodes f2 !! x = Some y /\ b = is_dir y | None => b = false end) _ True).
  { unfold existing. destruct (children n !! (split_path path).2) as [x|] eqn:E; [|by apply looks_ret].
    destruct (tr_kids _ _ Hf2 p x) as [y Hy]; [by exists n, (split_path path).2|]. apply looks_there; [done|by exists y|]. intros y' Hy'. apply looks_ret; [done|]. eauto. }
  intros f3 b _ _ [-> Hb]. destruct b; [by apply edits_throw|].
  assert (forall x, existing = Some x -> is_file f2 x) as Hfiles. { intros x E. rewrite E in Hb. destruct Hb as (y & Hy & Hdy). by exists y. }
  apply wp_bind. eapply wp_change_alter; [exact Hn|]. set (f4 := with_nodes (enter_in p (split_path path).2 id (nodes f2)) f2).
  assert (tree_ok k f4) as Hf4. { apply tree_ok_entered; try done. by exists n. }
  assert (forall f', nodes f' = match existing with Some x => one_name_less x | None => fun t => t end (nodes f4) -> tree_ok k f' ->
    exists f1, looked f2 f1 /\ tree_ok k f1 /\ tree_ok k f' /\ replaced path contents f1 f') as Hdone.
  { intros f' Hf' Hok. exists f2. split; [apply looked_refl|]. split; [done|]. split; [done|]. exists p, n, id, m1. by repeat (split; [done|]). }
  destruct existing as [x|]; [|by apply wp_ret, Hdone]. destruct (Hfiles x eq_refl) as (y & Hy & _).
  destruct (alter_there (fun n => set_children (<[(split_path path).2 := id]> (children n)) n) x p (nodes f2)) as [z Hz]; [by exists y|].
  eapply wp_change_alter; [exact Hz|]. apply Hdone; [done|]. apply (tree_ok_fewer k x f4); [done|by exists z].
Qed.

(** ** Calls made of several *)

(** Every node stays, and is what it was. *)
Definition grows (f f' : FS) : Prop := forall id n, nodes f !! id = Some n -> exists n', nodes f' !! id = Some n' /\ kind n' = kind n.
Definition stays {A} (k : Z) (f : FS) (m : M FS Errno A) (P : FS -> A -> Prop) : Prop :=
  wp m (fun f' a => tree_ok k f' /\ grows f f' /\ P f' a) (fun f' _ => tree_ok k f' /\ grows f f') f.

Lemma grows_refl f : grows f f.
Proof. intros id n Hn. eauto. Qed.
Lemma grows_trans f f1 f2 : grows f f1 -> grows f1 f2 -> grows f f2.
Proof. intros H1 H2 id n Hn. destruct (H1 _ _ Hn) as (n1 & Hn1 & Hk1). destruct (H2 _ _ Hn1) as (n2 & Hn2 & Hk2). exists n2. split; [done|congruence]. Qed.
Lemma looked_grows f f' : looked f f' -> grows f f'.
Proof. intros Hl id n Hn. by apply (looked_node f). Qed.
Lemma grows_there f f' id : grows f f' -> is_there f id -> is_there f' id.
Proof. intros Hg [n Hn]. destruct (Hg _ _ Hn) as (m & Hm & _). by exists m. Qed.
Lemma only_grows id n n' f f' : nodes f !! id = Some n -> kind n' = kind n -> only_node id n' f f' -> grows f f'.
Proof.
  intros Hn Hk [v ->] x m Hm. cbn. destruct (decide (x = id)) as [->|Hne]; [exists n'; rewrite lookup_insert_eq|exists m; by rewrite lookup_insert_ne].
  rewrite Hn in Hm. by injection Hm as <-.
Qed.
(** Entries and link counts change, kinds do not. *)
Lemma alter_grows (g : Node -> Node) id f f' t :
  (forall n, kind (g n) = kind n) -> (forall x n, nodes f !! x = Some n -> exists n', t !! x = Some n' /\ kind n' = kind n) ->
  nodes f' = alter g id t -> grows f f'.
Proof.
  intros Hg Ht He x n Hn. rewrite He. destruct (Ht _ _ Hn) as (n' & Hn' & Hk). destruct (decide (x = id)) as [->|Hne].
  - exists (g n'). rewrite lookup_alter_eq, Hn'. split; [done|]. by rewrite Hg.
  - exists n'. by rewrite lookup_alter_ne.
Qed.

Lemma stays_bind {A B} k f (m : M FS Errno A) (g : A -> M FS Errno B) P Q :
  stays k f m P -> (forall f' a, grows f f' -> tree_ok k f' -> P f' a -> stays k f' (g a) Q) -> stays k f (bind m g) Q.
Proof.
  intros Hm Hg. apply wp_bind. eapply wp_mono; [exact Hm| |done]. cbv beta. intros f1 a (H1 & H2 & H3).
  eapply wp_mono; [by apply (Hg f1 a)| |]; cbv beta; [intros f2 b (G1 & G2 & G3)|intros f2 b (G1 & G2)]; (split; [done|]); [split; [by eapply grows_trans|done]|by eapply grows_trans].
Qed.
Lemma stays_ret {A} k f (a : A) (P : FS -> A -> Prop) : tree_ok k f -> P f a -> stays k f (ret a) P.
Proof. intros Hf HP. apply wp_ret. split; [done|]. split; [apply grows_refl|done]. Qed.
Lemma stays_throw {A} k f e (P : FS -> A -> Prop) : tree_ok k f -> stays k f (throw e) P.
Proof. intros Hf. apply wp_throw. split; [done|apply grows_refl]. Qed.
Lemma stays_try {A} k f (m : M FS Errno A) P : stays k f m P -> stays k f (try_ m) (fun f' r => match r with inl a => P f' a | inr _ => True end).
Proof. intros Hm. apply wp_try. eapply wp_mono; [exact Hm| |]; cbv beta; tauto. Qed.
Lemma stays_mono {A} k f (m : M FS Errno A) (P P' : FS -> A -> Prop) : stays k f m P -> (forall f' a, P f' a -> P' f' a) -> stays k f m P'.
Proof. intros Hm HP. eapply wp_mono; [exact Hm| |done]. cbv beta. naive_solver. Qed.
Lemma stays_looks {A} k f (m : M FS Errno A) P X : looks k f m P X -> stays k f m P.
Proof. intros Hm. eapply wp_mono; [exact Hm| |]; cbv beta; intros f' a (H1 & H2 & H3); pose proof (looked_grows _ _ H1); done. Qed.
Lemma stays_edits {A} k f (m : M FS Errno A) Eff (P : FS -> A -> Prop) :
  edits k k f m Eff -> (forall f1 f' a, Eff f1 f' a -> grows f1 f' /\ P f' a) -> stays k f m P.
Proof.
  intros Hm HE. eapply wp_mono; [exact Hm| |]; cbv beta.
  - intros f' a (f1 & H1 & H2 & H3 & H4). destruct (HE _ _ _ H4) as [Hg HP]. split; [done|]. split; [|done]. eapply grows_trans; [by apply looked_grows|done].
  - intros f' e (H1 & H2). split; [done|]. by apply looked_grows.
Qed.
Lemma stays_mapM {A} k f (g : A -> M FS Errno unit) l :
  tree_ok k f -> (forall x f', x ∈ l -> tree_ok k f' -> grows f f' -> stays k f' (g x) (fun _ _ => True)) -> stays k f (mapM_ g l) (fun _ _ => True).
Proof.
  revert f. induction l as [|x l IH]; intros f Hf Hg; cbn [mapM_]; [by apply stays_ret|].
  eapply stays_bind; [apply Hg; [by left|done|apply grows_refl]|]. intros f1 _ Hg1 Hf1 _. apply IH; [done|]. intros y f2 Hy Hf2 Hg2. apply Hg; [by right|done|by eapply grows_trans].
Qed.

Lemma added_grows path nk f f1 f' id : added path nk f f1 f' id -> grows f1 f' /\ is_there f' id.
Proof.
  intros (f0 & p & n & H1 & H2 & H3 & H4 & H5 & (H6 & m & Hm & _) & H7 & H8). assert (grows f1 f') as Hg.
  { eapply alter_grows; [|apply grows_refl|exact H8]. done. }
  split; [done|]. eapply grows_there; [exact Hg|by exists m].
Qed.

Lemma stays_mkdir k path m f : 1 <= k -> tree_ok k f -> stays k f (mkdir path m) is_there.
Proof. intros Hk Hf. eapply stays_edits; [by apply edits_mkdir|]. intros f1 f' id. apply added_grows. Qed.

Lemma stays_mkdir_p k path f : 1 <= k -> tree_ok k f -> stays k f (mkdir_p path) is_there.
Proof.
  intros Hk Hf. unfold mkdir_p. eapply stays_bind; [by eapply stays_looks, (looks_root k f True)|]. intros f0 start _ Hf0 Hstart.
  assert (forall parts current node f, tree_ok k f -> is_there f node -> stays k f (mkdir_along current parts node) is_there) as H; [|by apply H].
  clear dependent f0 f. intros parts. induction parts as [|part parts IH]; intros current node f Hf Hnode; cbn [mkdir_along]; [by apply stays_ret|].
  eapply stays_bind; [by apply stays_try, stays_mkdir|]. intros f1 made _ Hf1 Hmade.
  apply (stays_bind k f1 _ _ is_there); [|intros f2 id _ Hf2 Hid; by apply IH].
  destruct made as [id|e]; [by apply stays_ret|]. destruct e; try by apply stays_throw. by eapply stays_looks, looks_lookup.
Qed.

Lemma stays_unlink k path want_dir f : 1 <= k -> tree_ok k f -> stays k f (unlink path want_dir) (fun _ _ => True).
Proof.
  intros Hk Hf. eapply stays_edits; [by apply edits_unlink|]. intros f1 f' _ (p & id & m & _ & _ & _ & _ & _ & He). split; [|done].
  eapply alter_grows; [|intros x n Hn|exact He]; [done|]. destruct (decide (x = p)) as [->|Hne].
  - eexists. unfold leave_in. rewrite lookup_alter_eq, Hn. done.
  - exists n. unfold leave_in. by rewrite lookup_alter_ne.
Qed.

Lemma looks_child_entries k entries f :
  tree_ok k f -> (forall name id, (name, id) ∈ entries -> is_there f id) ->
  looks k f (child_entries entries) (fun f' out => f' = f /\ (fun e => (d_name e, d_ino e)) <$> out = entries) False.
Proof.
  intros Hf. induction entries as [|[name id] entries IH]; intros Hin; cbn [child_entries]; [by apply looks_ret|].
  apply looks_there; [done|apply (Hin name); by left|]. intros n Hn. eapply looks_bind; [apply IH; intros; eapply Hin; by right|]. cbv beta.
  intros f1 more _ _ [-> Hmore]. apply looks_ret; [done|]. split; [done|]. cbn. by rewrite Hmore.
Qed.

(** [readdir] lists [.] and [..] and then the entries the directory has, in order. *)
Lemma looks_readdir k id f :
  1 <= k -> tree_ok k f -> is_there f id ->
  looks k f (readdir id) (fun f' out => exists n, nodes f' !! id = Some n /\
    (fun e => (d_name e, d_ino e)) <$> out = (DOT_NAME, id) :: (DOTDOT_NAME, id) :: sorted_children n) True.
Proof.
  intros Hk Hf Hid. unfold readdir. apply looks_there; [done..|]. intros n Hn. case_bool_decide; [by apply looks_throw|].
  eapply looks_bind; [eapply looks_mono; [by apply looks_refresh|done|done]|]. intros f1 _ Hl1 Hf1 _. pose proof (there_kept _ _ _ Hl1 Hid) as Hid1.
  apply looks_there; [done..|]. intros n1 Hn1. eapply looks_bind.
  { eapply looks_mono; [apply (looks_child_entries k (sorted_children n1) f1 Hf1)|intros f' a _ _ Ha; exact Ha|done].
    intros name c Hc. destruct (tr_kids _ _ Hf1 id c) as [x Hx]; [|by exists x]. apply (sorted_child _ _ _ _ Hn1), list_elem_of_fmap. by exists (name, c). }
  cbv beta. intros f2 out _ _ [-> Hout]. apply looks_ret; [done|]. exists n1. split; [done|]. cbn. by rewrite Hout.
Qed.

(** ** Processes *)

Lemma tree_ok_fds k p d f :
  tree_ok k f -> (forall id pid, d !! id = Some pid -> exists n, nodes f !! id = Some n /\ kind n = Dir) -> tree_ok k (with_proc p d f).
Proof. intros [a b c e r g] Hd. by split. Qed.

(** Every entry there was not leads to a node there was not. *)
Definition newer (f0 f : FS) : Prop := grows f0 f /\ forall p c, child_of (nodes f) p c -> child_of (nodes f0) p c \/ nodes f0 !! c = None.

Lemma new_before f0 f x : grows f0 f -> nodes f !! x = None -> nodes f0 !! x = None.
Proof. intros Hg Hx. destruct (nodes f0 !! x) as [n|] eqn:E; [|done]. destruct (Hg _ _ E) as (m & Hm & _). congruence. Qed.
Lemma newer_looked f0 f f' : newer f0 f -> looked f f' -> newer f0 f'.
Proof.
  intros [Hg Hn] Hl. split; [eapply grows_trans; [exact Hg|by apply looked_grows]|]. intros p c Hc.
  destruct (lk_new _ _ Hl _ _ Hc) as [H|H]; [by apply Hn|]. right. by eapply new_before.
Qed.
Lemma newer_enter f0 f p name c : newer f0 f -> nodes f0 !! c = None -> newer f0 (with_nodes (enter_in p name c (nodes f)) f).
Proof.
  intros [Hg Hn] Hc. split; [eapply grows_trans; [exact Hg|]; eapply alter_grows; [|apply grows_refl|reflexivity]; done|].
  intros q x (n & nm & Hq & Hx). cbn in Hq. unfold enter_in in Hq. destruct (decide (q = p)) as [->|Hne].
  - rewrite lookup_alter_eq in Hq. destruct (nodes f !! p) as [m|] eqn:Em; [|done]. injection Hq as <-. cbn in Hx.
    destruct (decide (nm = name)) as [->|Hne]; [rewrite lookup_insert_eq in Hx; injection Hx as <-; by right|]. rewrite lookup_insert_ne in Hx by done.
    apply Hn. by exists m, nm.
  - rewrite lookup_alter_ne in Hq by done. apply Hn. by exists n, nm.
Qed.
(** What is beneath a new node is new. *)
Lemma newer_beneath f0 f x y : newer f0 f -> nodes f0 !! x = None -> beneath (nodes f) x y -> nodes f0 !! y = None.
Proof.
  intros [_ Hn] Hx Hb. induction Hb as [x|x z y Hxz _ IH]; [done|]. apply IH. destruct (Hn _ _ Hxz) as [(m & name & Hm & _)|H]; [congruence|done].
Qed.

(** The state of a directory that is being filled. *)
Definition filling (k : Z) (f0 : FS) (dir : nat) (f : FS) : Prop := tree_ok k f /\ newer f0 f /\ is_directory f dir /\ nodes f0 !! dir = None.

Lemma wp_fill {A} k f0 dir nk m f (h : nat -> M FS Errno A) (Q : FS -> A -> Prop) X :
  1 <= k -> filling k f0 dir f ->
  (forall f1 id, looked f f1 -> filling k f0 dir f1 -> leaf_since f f1 id -> (exists n, nodes f1 !! id = Some n /\ kind n = nk) -> wp (h id) Q X f1) ->
  wp (bind (node_new nk m) h) Q X f.
Proof.
  intros Hk (Hf & Hn & Hd & Hd0) Hh. apply wp_bind. eapply wp_mono; [apply (makes_node_new k nk m Hk f Hf)| |cbv beta; tauto]. cbv beta.
  intros f1 id (Hl & Hf1 & Hleaf & Hkind). apply Hh; try done. split; [done|]. split; [by eapply newer_looked|]. split; [by eapply directory_kept|done].
Qed.

Lemma wp_fill_insert k f0 dir name f f1 d id (Q : FS -> unit -> Prop) X :
  filling k f0 dir f -> filling k f0 dir f1 -> leaf_since f f1 id -> tree_ok k (with_proc (proc_root f1) d f1) -> (forall f', filling k f0 dir f' -> Q f' tt) ->
  wp (insert_child dir name id) Q X (with_proc (proc_root f1) d f1).
Proof.
  intros (Hf & Hn & Hd & Hd0) (_ & Hn1 & Hd1 & _) Hleaf Hf2 HQ. destruct (directory_there _ _ Hd1) as [n Hdn]. eapply wp_change_alter; [exact Hdn|].
  apply HQ. set (f2 := with_proc (proc_root f1) d f1). assert (nodes f0 !! id = None) as Hid0. { eapply new_before; [apply Hn|]. by apply Hleaf. }
  split; [|split; [by apply (newer_enter f0 f2)|split; [|done]]].
  - apply (tree_ok_entered k dir name id f2); [done|exact Hd1| |].
    + destruct Hleaf as (_ & x & Hx & _). by exists x.
    + apply (leaf_apart f f1); [done|]. by apply directory_there.
  - destruct Hd1 as (x & Hx & Hdx). eexists. split; [cbn; by rewrite lookup_alter_eq, Hx|]. done.
Qed.

Lemma with_proc_same f : with_proc (proc_root f) (fd_dirs f) f = f.
Proof. by destruct f. Qed.

(** The directory of a new process is apart from everything there was. *)
Lemma wp_build_process k pid f :
  1 <= k -> tree_ok k f ->
  wp (build_process pid) (fun f' '(proc, name, dir) => tree_ok k f' /\ grows f f' /\ name = decimal pid /\ is_directory f' dir /\ nodes f !! dir = None /\
      (forall x, beneath (nodes f') dir x -> nodes f !! x = None)) (fun _ _ => False) f.
Proof.
  intros Hk Hf. unfold build_process. apply wp_bind. eapply wp_mono; [apply (makes_node_new k Dir _ Hk f Hf)| |cbv beta; tauto]. cbv beta.
  intros f1 dir (Hl & Hf1 & Hleaf & (nd & Hnd & Hkd)). assert (filling k f dir f1) as Hfill.
  { split; [done|]. split; [split; [by apply looked_grows|apply Hl]|]. split; [exists nd; by unfold is_dir; rewrite Hkd|apply Hleaf]. }
  apply wp_bind. eapply wp_mono; [apply (wp_mapM _ (fun _ => filling k f dir) (fun _ _ => False)); [|exact Hfill]| |done].
  { intros [name g] l s Hs. eapply wp_fill; [done|exact Hs|]. intros g1 id _ Hg1 Hid _. rewrite <- (with_proc_same g1).
    eapply wp_fill_insert; [exact Hs|exact Hg1|exact Hid|rewrite with_proc_same; apply Hg1|done]. }
  cbv beta. intros f2 _ Hf2. eapply wp_fill; [done|exact Hf2|]. intros g1 id _ Hg1 Hid (n & Hn & Hkn). apply wp_bind, wp_modify. apply wp_bind.
  eapply wp_fill_insert; [exact Hf2|exact Hg1|exact Hid| |].
  { apply tree_ok_fds; [apply Hg1|]. intros x p Hx. destruct (decide (x = id)) as [->|Hne]; [by exists n|]. rewrite lookup_insert_ne in Hx by done.
    by eapply (tr_fds k g1), Hx; apply Hg1. }
  intros f3 (Hf3 & Hn3 & Hd3 & Hd0). apply wp_bind. eapply wp_mono; [apply looks_try, (looks_lookup k _ _ _ _ Hk Hf3)| |cbv beta; tauto]. cbv beta.
  intros f4 proc (Hl4 & Hf4 & _). apply wp_ret. pose proof (newer_looked _ _ _ Hn3 Hl4) as Hn4. split; [done|]. split; [apply Hn4|]. split; [done|].
  split; [by eapply directory_kept|]. split; [done|]. intros x Hx. by eapply newer_beneath.
Qed.

Lemma publish_is proc name dir f :
  is_there f proc -> publish_process (Some proc, name, dir) f = (with_nodes (enter_in proc name dir (nodes f)) f, Ok tt).
Proof.
  intros [n Hn]. assert (wp (publish_process (Some proc, name, dir)) (fun f' _ => f' = with_nodes (enter_in proc name dir (nodes f)) f) (fun _ _ => False) f) as H.
  { by eapply wp_change_alter. }
  unfold wp in H. destruct (publish_process (Some proc, name, dir) f) as [f' [[]|e|w]]; [by subst|done..].
Qed.

Lemma stays_remove_process k pid f : 1 <= k -> tree_ok k f -> stays k f (remove_process pid) (fun _ _ => True).
Proof.
  intros Hk Hf. unfold remove_process.
  assert (forall path want f, tree_ok k f -> stays k f (try_ (unlink path want)) (fun _ _ => True)) as Hun.
  { intros path want g Hg. eapply stays_mono; [by apply stays_try, stays_unlink|done]. }
  eapply stays_bind; [apply stays_mapM; [done|]|].
  { intros name f' _ Hf' _. eapply stays_bind; [by apply Hun|]. intros f2 _ _ Hf2 _. by apply stays_ret. }
  intros f1 _ _ Hf1 _. eapply stays_bind; [by apply stays_try; eapply stays_looks, looks_lookup|]. intros f2 found _ Hf2 Hfound.
  apply (stays_bind k f2 _ _ (fun _ _ => True)).
  { destruct found as [fd|e]; [|by apply stays_ret]. destruct Hfound as [n Hn].
    set (f3 := with_proc (proc_root f2) (delete fd (fd_dirs f2)) f2). assert (tree_ok k f3) as Hf3.
    { apply tree_ok_fds; [done|]. intros x p Hx. apply lookup_delete_Some in Hx as [_ Hx]. by eapply tr_fds. }
    apply wp_bind, wp_modify. eapply (wp_change_node fd _ n); [exact Hn|]. intros f4 Hf4. destruct (tr_node _ _ Hf3 fd n Hn) as [h1 h2 h3 h4]. split; [|split; [|done]].
    - eapply tree_ok_less; [exact Hf3|exact Hn| | |exact Hf4|]; [done| |apply map_empty_subseteq]. by split.
    - change (grows f3 f4). by eapply only_grows; [exact Hn| |exact Hf4]. }
  intros f3 _ _ Hf3 _. eapply stays_bind; [by apply Hun|]. intros f4 _ _ Hf4 _. eapply stays_bind; [by apply Hun|]. intros f5 _ _ Hf5 _. by apply stays_ret.
Qed.

(** ** Runs *)

(** What a program, or the kernel for it, asks of the tree; the paths are resolved. *)
Inductive FsCall :=
| Create (path : Str) (m : Z)
| Mkdir (path : Str) (m : Z)
| MkdirAll (path : Str)
| MakeSymlink (path target : Str)
| Mknod (path : Str) (m : Z)
| Link (old new : Str) (follow : bool)
| Unlink (path : Str) (want_dir : bool)
| Rename (from to : Str)
| ReplaceFile (path : Str) (contents : list Z) (m : Z)
| ListDir (path : Str)
| WriteFile (path : Str) (offset : Z) (buf : list Z)
| TruncateFile (path : Str) (size : Z)
| ProcessGone (pid : Z).

Definition exec (c : FsCall) : M FS Errno unit :=
  match c with
  | Create path m => let! _ := create path m in ret tt
  | Mkdir path m => let! _ := mkdir path m in ret tt
  | MkdirAll path => let! _ := mkdir_p path in ret tt
  | MakeSymlink path target => symlink path target
  | Mknod path m => mknodat path m
  | Link old new follow => linkat old new follow
  | Unlink path want_dir => unlink path want_dir
  | Rename from to => rename from to
  | ReplaceFile path contents m => replace_file path contents m
  | ListDir path => let! id := lookup_path path in let! _ := readdir id in ret tt
  | WriteFile path offset buf => let! id := lookup_path path in let! _ := write_at id offset buf in ret tt
  | TruncateFile path size => let! id := lookup_path path in truncate id size
  | ProcessGone pid => remove_process pid
  end.

Fixpoint run (calls : list FsCall) : M FS Errno unit :=
  match calls with
  | [] => ret tt
  | c :: calls => let! _ := try_ (exec c) in run calls
  end.

(** What the types of the arguments say. *)
Definition call_ok (c : FsCall) : Prop :=
  match c with
  | MakeSymlink _ target => len target <= isize_max
  | WriteFile _ offset _ => 0 <= offset
  | TruncateFile _ size => 0 <= size <= u64_max
  | _ => True
  end.

Lemma looked_same id n f f' : nodes f !! id = Some n -> only_node id n f f' -> looked f f'.
Proof.
  intros Hn [v ->]. rewrite insert_id by done. split; try done; [|by left]. intros x m Hm. exists (children m). by rewrite same_children.
Qed.

Lemma looked_env v f : looked f (with_env v f).
Proof. split; try done; [|by left]. intros x m Hm. exists (children m). by rewrite same_children. Qed.

(** A write changes the contents of one node, or the world. *)
Lemma edits_write_at k id offset buf f :
  tree_ok k f -> is_there f id -> 0 <= offset -> edits k k f (write_at id offset buf) (fun f1 f' _ => grows f1 f').
Proof.
  intros Hf [n Hn] Ho. destruct (in_memory n) eqn:Em.
  - destruct (tr_node _ _ Hf _ _ Hn) as [h1 h2 h3 h4]. eapply wp_mono; [by apply (wp_node_write id n)| |]; cbv beta.
    + intros f' a (_ & _ & Hb). exists f. split; [apply looked_refl|]. split; [done|]. split; [by eapply tree_ok_has_bytes|].
      destruct Hb as (r & t & _ & Hone). by eapply only_grows; [exact Hn| |exact Hone].
    + intros f' e Hr. split; [|by eapply tree_ok_refused]. destruct Hr as [Hone _]. by eapply looked_same.
  - unfold write_at. apply edits_there; [by exists n|]. intros n' Hn'. rewrite Hn in Hn'. injection Hn' as <-. unfold in_memory in Em.
    destruct (kind n) as [| | |d|g| | | |] eqn:Ek; try done; try by apply edits_throw.
    destruct d; cbn [device_write]; try (by apply edits_throw); try (apply edits_ret; [lia|done|apply grows_refl]).
    all: apply wp_bind, wp_modify, wp_ret; eexists; split; [apply looked_env|]; split; [by apply tree_ok_env|]; split; [by apply tree_ok_env|apply grows_refl].
Qed.

Lemma edits_truncate k id size f :
  tree_ok k f -> is_there f id -> 0 <= size <= u64_max -> edits k k f (truncate id size) (fun f1 f' _ => grows f1 f').
Proof.
  intros Hf [n Hn] Hs. destruct (decide (is_dir n = false /\ kind n <> DataFile)) as [[Hd Hk]|Hno].
  - destruct (tr_node _ _ Hf _ _ Hn) as [h1 h2 h3 h4]. eapply wp_mono; [by apply (wp_truncate id n)| |]; cbv beta.
    + intros f' a Hb. exists f. split; [apply looked_refl|]. split; [done|]. split; [by eapply tree_ok_has_bytes|].
      destruct Hb as (r & t & _ & Hone). by eapply only_grows; [exact Hn| |exact Hone].
    + intros f' e Hr. split; [|by eapply tree_ok_refused]. destruct Hr as [Hone _]. by eapply looked_same.
  - unfold truncate. apply edits_there; [by exists n|]. intros n' Hn'. rewrite Hn in Hn'. injection Hn' as <-.
    destruct (is_dir n) eqn:Ed; [by apply edits_throw|]. rewrite bool_decide_true; [by apply edits_throw|].
    destruct (decide (kind n = DataFile)); [done|]. exfalso. by apply Hno.
Qed.

Lemma edits_looks {A} k k' f (m : M FS Errno A) P X : k <= k' -> looks k f m P X -> edits k k' f m (fun f1 f' a => f' = f1 /\ P f1 a).
Proof.
  intros Hk Hm. eapply wp_mono; [exact Hm| |]; cbv beta; [|tauto]. intros f' a (H1 & H2 & H3). exists f'. split; [done|]. split; [done|]. split; [by eapply tree_ok_weaken|done].
Qed.
Lemma edits_weaken {A} k k' f (m : M FS Errno A) Eff Eff' :
  k <= k' -> edits k k f m Eff -> (forall f1 f' a, Eff f1 f' a -> Eff' f1 f' a) -> edits k k' f m Eff'.
Proof.
  intros Hk Hm HE. eapply wp_mono; [exact Hm| |done]. cbv beta. intros f' a (f1 & H1 & H2 & H3 & H4). exists f1. split; [done|]. split; [done|].
  split; [by eapply tree_ok_weaken|]. auto.
Qed.

(** A call that is one change or none. *)
Definition one_change (c : FsCall) : bool := match c with MkdirAll _ | ProcessGone _ => false | _ => true end.

Lemma edits_exec k c f : 1 <= k < u32_max -> tree_ok k f -> call_ok c -> one_change c = true -> edits k (k + 1) f (exec c) (fun _ _ _ => True).
Proof.
  intros Hk Hf Hc H1. assert (1 <= k) as Hk1 by lia. assert (k <= k + 1) as Hk2 by lia.
  destruct c as [path m|path m|path|path target|path m|old new follow|path want|from to|path contents m|path|path offset buf|path size|pid]; try done; cbn [exec call_ok] in *.
  - apply edits_unit. eapply edits_weaken; [done|by apply edits_create|done].
  - apply edits_unit. eapply edits_weaken; [done|by apply edits_mkdir|done].
  - eapply edits_weaken; [done|by apply edits_symlink|done].
  - unfold mknodat. destruct (Z.land m S_IFMT =? S_IFIFO); [apply edits_unit; eapply edits_weaken; [done|by apply edits_mkfifo|done]|].
    destruct ((Z.land m S_IFMT =? 0) || (Z.land m S_IFMT =? S_IFREG)); [|by apply edits_throw].
    eapply edits_bind; [by apply looks_try, looks_lookup|]. intros f1 there _ Hf1 _. destruct there; [by apply edits_throw|].
    apply edits_unit. eapply edits_weaken; [done|by apply edits_create|done].
  - eapply edits_mono; [by apply edits_linkat|done].
  - eapply edits_weaken; [done|by apply edits_unlink|done].
  - eapply edits_weaken; [done|by apply edits_rename|done].
  - eapply edits_weaken; [done|by apply edits_replace_file|done].
  - eapply edits_bind; [by apply looks_lookup|]. intros f1 id _ Hf1 Hid. apply edits_unit. eapply edits_mono; [by eapply edits_looks, looks_readdir|done].
  - eapply edits_bind; [by apply looks_lookup|]. intros f1 id _ Hf1 Hid. apply edits_unit. eapply edits_weaken; [done|by apply edits_write_at|done].
  - eapply edits_bind; [by apply looks_lookup|]. intros f1 id _ Hf1 Hid. eapply edits_weaken; [done|by apply edits_truncate|done].
Qed.

Lemma wp_exec k c f : 1 <= k < u32_max -> tree_ok k f -> call_ok c -> wp (exec c) (fun f' _ => tree_ok (k + 1) f') (fun f' _ => tree_ok (k + 1) f') f.
Proof.
  intros Hk Hf Hc. assert (1 <= k) as Hk1 by lia. assert (forall f', tree_ok k f' -> tree_ok (k + 1) f') as Hw by (intros f'; apply tree_ok_weaken; lia).
  destruct (one_change c) eqn:H1.
  - eapply wp_mono; [by apply (edits_exec k)| |]; cbv beta; [intros f' _ (f1 & _ & _ & H & _); done|intros f' e [_ H]; auto].
  - destruct c; try done; cbn [exec].
    + apply wp_bind. eapply wp_mono; [by apply (stays_mkdir_p k)| |]; cbv beta; [intros f' id [H _]; apply wp_ret; auto|intros f' e [H _]; auto].
    + eapply wp_mono; [by apply (stays_remove_process k)| |]; cbv beta; [intros f' id [H _]; auto|intros f' e [H _]; auto].
Qed.

Lemma wp_calls k calls f :
  1 <= k -> k + len calls <= u32_max -> tree_ok k f -> Forall call_ok calls -> wp (run calls) (fun f' _ => tree_ok (k + len calls) f') (fun _ _ => False) f.
Proof.
  intros Hk Hle Hf Hc. revert k f Hk Hle Hf. induction Hc as [|c calls Hc _ IH]; intros k f Hk Hle Hf; cbn [run length] in *.
  - apply wp_ret. by replace (k + Z.of_nat 0) with k by lia.
  - apply wp_bind, wp_try. replace (k + Z.of_nat (S (length calls))) with (k + 1 + len calls) by lia.
    eapply wp_mono; [by apply (wp_exec k); [lia|..]| |]; cbv beta; intros f' _ Hf'; (apply IH; [lia|lia|done]).
Qed.

(** ** Start *)

Lemma stays_link_node k path node f : 1 <= k -> tree_ok k f -> is_file f node -> stays k f (link_node path node) (fun _ _ => True).
Proof.
  intros Hk Hf Hnode. apply (stays_edits k f _ (fun f1 f' _ => grows f1 f')); [|auto].
  apply edits_in_parent; [done..|]. intros f0 p n Hl Hf0 Hlook Hn Hd. case_bool_decide; [by apply edits_throw|].
  pose proof (file_kept _ _ _ Hl Hnode) as Hfile. eapply wp_change_alter; [exact Hn|]. exists f0. split; [apply looked_refl|]. split; [done|].
  split; [|eapply alter_grows; [|apply grows_refl|reflexivity]; done]. apply tree_ok_entered; [done|by exists n|..].
  - destruct Hfile as (x & Hx & _). by exists x.
  - eapply file_beneath; [done..|by exists n].
Qed.

(** A node of the kernel's own, linked where it can be. *)
Lemma stays_new_link k path nk m f :
  1 <= k -> tree_ok k f -> nk <> Dir -> nk <> DataDir ->
  stays k f (let! node := node_new nk m in let! _ := try_ (link_node path node) in ret tt) (fun _ _ => True).
Proof.
  intros Hk Hf Hd1 Hd2. eapply stays_bind; [by eapply stays_looks, (makes_node_new k nk)|]. cbv beta. intros f1 node _ Hf1 [_ (n & Hn & Hkn)].
  eapply stays_bind; [eapply stays_mono; [apply stays_try, stays_link_node; [done|done|]|done]|].
  - exists n. split; [done|]. unfold is_dir. rewrite Hkn. by destruct nk.
  - intros f2 _ _ Hf2 _. by apply stays_ret.
Qed.

Lemma tree_ok_first (v : V) m t :
  tree_ok 1 (mkFs v (<[1%nat := mkNode Dir m 0 0 [] 0 ∅ t 1 false None]> ∅) 2 (Some 1%nat) 0 ∅).
Proof.
  assert (forall x n, (<[1%nat := mkNode Dir m 0 0 [] 0 ∅ t 1 false None]> ∅ : gmap nat Node) !! x = Some n -> x = 1%nat /\ n = mkNode Dir m 0 0 [] 0 ∅ t 1 false None) as Hone.
  { intros x n Hn. destruct (decide (x = 1%nat)) as [->|Hne]; [rewrite lookup_insert_eq in Hn; by injection Hn as <-|].
    by rewrite lookup_insert_ne, lookup_empty in Hn. }
  assert (forall p c, ~ child_of (<[1%nat := mkNode Dir m 0 0 [] 0 ∅ t 1 false None]> ∅) p c) as Hno.
  { intros p c (n & name & Hn & Hc). apply Hone in Hn as [_ ->]. by apply (no_child (mkNode Dir m 0 0 [] 0 ∅ t 1 false None) name c). }
  split; cbn [nodes next_ino root_node fd_dirs].
  - intros x n Hn. apply Hone in Hn as [_ ->]. by split.
  - intros x n Hn. apply Hone in Hn as [-> _]. lia.
  - intros p c Hc. by apply Hno in Hc.
  - intros x Hx. apply tc_step in Hx as (z & Hz & _). by apply Hno in Hz.
  - eexists 1%nat, _. split; [done|]. split; [apply lookup_insert_eq|done].
  - intros x pid Hx. by rewrite lookup_empty in Hx.
Qed.

Lemma stays_try_done {A} k f (m : M FS Errno A) P : stays k f m P -> stays k f (let! _ := try_ m in ret tt) (fun _ _ => True).
Proof. intros Hm. eapply stays_bind; [by apply stays_try|]. intros f1 _ _ Hf1 _. by apply stays_ret. Qed.

Lemma stays_proc k p f : tree_ok k f -> stays k f (modify (fun f => with_proc p (fd_dirs f) f)) (fun _ _ => True).
Proof. intros Hf. apply wp_modify. split; [|split; [exact (grows_refl f)|done]]. apply tree_ok_fds; [done|]. apply Hf. Qed.

Lemma stays_populate k f : 1 <= k -> tree_ok k f -> stays k f (dev_populate ;;; proc_populate) (fun _ _ => True).
Proof.
  intros Hk Hf. assert (forall path f, tree_ok k f -> stays k f (try_ (mkdir_p path)) (fun _ _ => True)) as Hmk.
  { intros path g Hg. eapply stays_mono; [by apply stays_try, stays_mkdir_p|done]. }
  eapply stays_bind; [eapply stays_bind|].
  - apply stays_mapM; [done|]. intros [path d] f1 _ Hf1 _. by apply stays_new_link.
  - intros f1 _ _ Hf1 _. apply stays_mapM; [done|]. intros [path target] f2 Hin Hf2 _. apply (stays_try_done k f2 _ (fun _ _ => True)).
    eapply stays_edits; [apply edits_symlink; [done| |done]|].
    + rewrite !elem_of_cons, elem_of_nil in Hin. destruct Hin as [E|[E|[E|E]]]; [injection E as -> ->..|done]; done.
    + intros f3 f' _ [id Had]. split; [|done]. by eapply added_grows.
  - intros f1 _ _ Hf1 _. unfold proc_populate. eapply stays_bind; [by apply stays_try, stays_mkdir_p|]. intros f2 proc _ Hf2 _.
    eapply (stays_bind k f2 _ _ (fun _ _ => True)); [by destruct proc; [apply stays_proc|apply stays_ret]|]. intros f3 _ _ Hf3 _.
    eapply stays_bind; [by apply Hmk|]. intros f4 _ _ Hf4 _. eapply stays_bind; [by apply Hmk|]. intros f5 _ _ Hf5 _.
    apply stays_mapM; [done|]. intros [path g] f6 _ Hf6 _. by apply stays_new_link.
Qed.

Lemma wp_fs_init (v : V) : wp fs_init (fun f' _ => tree_ok 1 f') (fun f' _ => tree_ok 1 f') (fs_boot v).
Proof.
  unfold fs_init. apply wp_bind. unfold new_dir, node_new. apply wp_bind. unfold time_now, world. apply wp_state. cbn [env fs_boot].
  destruct (unix_time v) as [v' t]. cbn [fst snd]. apply wp_state. cbn [fst snd]. apply wp_bind, wp_modify.
  match goal with |- wp _ _ _ ?f => assert (tree_ok 1 f) as Hf by (apply (tree_ok_first v')); generalize dependent f end. intros f Hf.
  assert (forall m, stays 1 f m (fun _ _ => True) -> wp m (fun f' (_ : unit) => tree_ok 1 f') (fun f' _ => tree_ok 1 f') f) as Hs.
  { intros m Hm. eapply wp_mono; [exact Hm| |]; cbv beta; tauto. }
  apply Hs. eapply stays_bind; [|intros f1 _ _ Hf1 _; by apply stays_populate].
  apply stays_mapM; [done|]. intros dir f1 _ Hf1 _. by eapply stays_try_done, stays_mkdir.
Qed.

(** ** The theorems *)

(** C16: From the start and whatever calls follow, refused or not, the tree is one:
    every entry leads to a node, only directories have entries, no directory is
    beneath itself, no file is left claimed, and no call ends in a panic, as long as
    the calls are fewer than a link count holds. *)
Theorem tree_from_boot (v : V) calls :
  Forall call_ok calls -> 1 + len calls <= u32_max ->
  wp (fs_init ;;; run calls) (fun f' _ => tree_ok (1 + len calls) f') (fun f' _ => tree_ok 1 f') (fs_boot v).
Proof.
  intros Hc Hle. apply wp_bind. eapply wp_mono; [apply wp_fs_init| |done]. cbv beta. intros f _ Hf.
  eapply wp_mono; [by apply (wp_calls 1)| |]; cbv beta; done.
Qed.

(** C17: A call that is refused has changed nothing: every node there was is as it was,
    entries, contents and link count, but for the entries of [/proc/<pid>/fd], which
    are made anew when they are looked at. *)
Theorem refused_changes_nothing k c e (f f' : FS) :
  1 <= k < u32_max -> tree_ok k f -> call_ok c -> one_change c = true -> exec c f = (f', Err e) ->
  forall id n, nodes f !! id = Some n -> fd_dirs f !! id = None -> nodes f' !! id = Some n.
Proof.
  intros Hk Hf Hc H1 He id n Hn Hfd. pose proof (edits_exec k c f Hk Hf Hc H1) as H. unfold edits, wp in H. rewrite He in H. destruct H as [Hl _].
  destruct (lk_node _ _ Hl _ _ Hn) as (cs & Hcs & Hs). by rewrite (Hs Hfd), same_children in Hcs.
Qed.

(** C22: [is_within] comes to an end in every tree the calls make, and answers whether
    the one node is the other or somewhere beneath it. *)
Theorem within_decides k a node (f : FS) :
  tree_ok k f -> is_there f a -> exists b, is_within a node f = (f, Ok b) /\ (b = true <-> beneath (nodes f) a node).
Proof.
  intros Hf Ha. assert (wp (is_within a node) (fun f' b => f' = f /\ (b = true <-> beneath (nodes f) a node)) (fun _ _ => False) f) as H.
  { eapply wp_is_within; [done..|]. auto. }
  unfold wp in H. destruct (is_within a node f) as [f' [b|e|w]]; [|done..]. destruct H as [-> H]. by exists b.
Qed.

(** C20: A rename that succeeds does one of two things once it has looked: nothing, when
    both names lead to the same node; or the node is entered under the new name and
    the old entry taken out, what was there has one name fewer, and every other entry
    of every directory is as it was. What it replaces is a directory exactly when the
    node is, and then empty, and the node is not put beneath itself. *)
Theorem rename_moves k from to (f f' : FS) :
  1 <= k -> tree_ok k f -> rename from to f = (f', Ok tt) ->
  tree_ok k f' /\ exists f1, looked f f1 /\ renamed from to f f1 f'.
Proof.
  intros Hk Hf He. pose proof (edits_rename k from to f Hk Hf) as H. unfold edits, wp in H. rewrite He in H.
  destruct H as (f1 & H1 & H2 & H3 & H4). eauto.
Qed.

(** [unlink] takes out the one entry it names: a directory only when one is wanted
    and it is empty, anything else only when none is. *)
Theorem unlink_removes k path want_dir (f f' : FS) :
  1 <= k -> tree_ok k f -> unlink path want_dir f = (f', Ok tt) ->
  tree_ok k f' /\ exists f1, looked f f1 /\ removed path want_dir f f1 f'.
Proof.
  intros Hk Hf He. pose proof (edits_unlink k path want_dir f Hk Hf) as H. unfold edits, wp in H. rewrite He in H.
  destruct H as (f1 & H1 & H2 & H3 & H4). eauto.
Qed.

(** What replaces a file is whole when it gets its name: [replace_file] enters a
    node that holds all of the contents, and the node that was there keeps its own
    for whoever has it open, one name poorer; a directory is not replaced. *)
Theorem replace_is_whole k path contents m (f f' : FS) :
  1 <= k -> tree_ok k f -> replace_file path contents m f = (f', Ok tt) ->
  tree_ok k f' /\ exists f1, looked f f1 /\ replaced path contents f1 f'.
Proof.
  intros Hk Hf He. pose proof (edits_replace_file k path contents m f Hk Hf) as H. unfold edits, wp in H. rewrite He in H.
  destruct H as (f1 & H1 & H2 & H3 & H4). eauto.
Qed.

(** The directory of a new process is made apart from the tree, whole, and is in
    it at one stroke when it is published, in the directory that [/proc] was. *)
Theorem process_published k pid (f f1 : FS) proc name dir :
  1 <= k -> tree_ok k f -> build_process pid f = (f1, Ok (Some proc, name, dir)) -> is_directory f proc ->
  ~ beneath (nodes f1) dir proc /\ nodes f !! dir = None /\
  exists f2, publish_process (Some proc, name, dir) f1 = (f2, Ok tt) /\ tree_ok k f2 /\ nodes f2 = enter_in proc (decimal pid) dir (nodes f1).
Proof.
  intros Hk Hf Hb (n & Hn & Hd). pose proof (wp_build_process k pid f Hk Hf) as H. unfold wp in H. rewrite Hb in H.
  destruct H as (Hf1 & Hg & -> & Hdir & Hnew & Hap). destruct (Hg _ _ Hn) as (n1 & Hn1 & Hk1).
  assert (~ beneath (nodes f1) dir proc) as Hnb by (intros Hx; apply Hap in Hx; congruence).
  split; [done|]. split; [done|]. assert (is_directory f1 proc) as Hp1 by (exists n1; unfold is_dir in *; by rewrite Hk1).
  eexists. split; [by apply publish_is, directory_there|]. split; [|done]. apply tree_ok_entered; try done. by apply directory_there.
Qed.
End calls.
