(* ===== verification/Fd.v ===== *)
(** * Open files and descriptors

    The open files and descriptor tables of [kernel/src/fs/mod.rs], and the calls
    of [syscall/file.rs] that go through them. An open file is shared by the
    descriptors that lead to it: it is an entry of [files] under a handle, and a
    table holds handles. What the user hands over to be written is [None] when it
    cannot be read; [writable] says whether the memory an answer goes to can be
    written. Pipes, event counters, sockets and epoll sets are behind the class
    [Channels]. *)

From S2P Require Import Prelude Words Fs FsSpec FsCalls.

(** ** Open files *)

Inductive FileBacking :=
| NodeFile (node : nat)
| PipeFile (pipe : nat) (reads writes : bool)
| EventFdFile (event : nat)
| SocketFile (socket : nat)
| InetFile (socket : nat)
| EpollFile (epoll : nat).

Record OpenFile := mkOpenFile {
  backing : FileBacking;
  offset : Z;
  flags : Z;
  opened_as : Str;
  listing : option (list DirEntry);
}.
Definition with_offset (o : Z) (f : OpenFile) : OpenFile := mkOpenFile (backing f) o (flags f) (opened_as f) (listing f).
Definition with_flags (w : Z) (f : OpenFile) : OpenFile := mkOpenFile (backing f) (offset f) w (opened_as f) (listing f).
Definition with_listing (l : option (list DirEntry)) (f : OpenFile) : OpenFile := mkOpenFile (backing f) (offset f) (flags f) (opened_as f) l.

Definition from_node_at (node : nat) (w : Z) (path : Str) : OpenFile := mkOpenFile (NodeFile node) 0 w path None.
Definition node_of (f : OpenFile) : option nat := match backing f with NodeFile node => Some node | _ => None end.

Definition O_RDONLY : Z := 0.
Definition O_WRONLY : Z := 1.
Definition O_RDWR : Z := 2.
Definition O_ACCMODE : Z := 3.
Definition O_CREAT : Z := 0x40.
Definition O_EXCL : Z := 0x80.
Definition O_TRUNC : Z := 0x200.
Definition O_APPEND : Z := 0x400.
Definition O_NONBLOCK : Z := 0x800.
Definition O_DIRECTORY : Z := 0x10000.
Definition O_CLOEXEC : Z := 0x80000.
Definition SEEK_SET : Z := 0.
Definition SEEK_CUR : Z := 1.
Definition SEEK_END : Z := 2.
Definition F_DUPFD : Z := 0.
Definition F_GETFD : Z := 1.
Definition F_SETFD : Z := 2.
Definition F_GETFL : Z := 3.
Definition F_SETFL : Z := 4.
Definition F_DUPFD_CLOEXEC : Z := 1030.
Definition FD_CLOEXEC : Z := 1.
Definition MAX_FDS : nat := 256.
Definition MAX_IO : Z := 16 * 1024 * 1024.

(** [w & bits != 0]. *)
Definition has_flag (w bits : Z) : bool := negb (Z.land w bits =? 0).

Definition readable (f : OpenFile) : bool :=
  match backing f with
  | PipeFile _ reads _ => reads
  | EventFdFile _ | SocketFile _ | InetFile _ => true
  | EpollFile _ => false
  | NodeFile _ => let access := Z.land (flags f) O_ACCMODE in (access =? O_RDONLY) || (access =? O_RDWR)
  end.
Definition writable (f : OpenFile) : bool :=
  match backing f with
  | PipeFile _ _ writes => writes
  | EventFdFile _ | SocketFile _ | InetFile _ => true
  | EpollFile _ => false
  | NodeFile _ => let access := Z.land (flags f) O_ACCMODE in (access =? O_WRONLY) || (access =? O_RDWR)
  end.

(** [u64 as i64]. *)
Definition as_i64 (x : Z) : Z := if x <? 2 ^ 63 then x else x - 2 ^ 64.

(** ** Descriptor tables *)

(** [FdInner] *)
Record FdInner := mkFdInner {
  entries : list (option nat);
  cloexec : list bool;
}.
Definition new_table : FdInner := mkFdInner [] [].

Definition ensure (index : nat) (t : FdInner) : FdInner :=
  let more := (index + 1 - length (entries t))%nat in
  mkFdInner (entries t ++ replicate more None) (cloexec t ++ replicate more false).

Abbreviation TM := (M FdInner Errno).

(** [slot[index] = value]: out of range is a panic. *)
Definition store {A} (l : list A) (index : nat) (x : A) : TM (list A) :=
  if (index <? length l)%nat then ret (<[index := x]> l) else fail_with Panic.
Definition set_slot (fd : nat) (file : option nat) (c : bool) : TM unit :=
  let! t := gets id in
  let! e := store (entries t) fd file in
  let! cs := store (cloexec t) fd c in
  modify (fun _ => mkFdInner e cs).

Definition fd_get (fd : Z) : TM nat :=
  if fd <? 0 then throw EBADF
  else let! t := gets id in ok_or (mjoin (entries t !! Z.to_nat fd)) EBADF.

Definition insert_at (fd : nat) (file : nat) (c : bool) : TM unit :=
  modify (ensure fd) ;;; set_slot fd (Some file) c.

(** A turn of the loop of [alloc_at_least]. *)
Definition alloc_turn (file : nat) (c : bool) (fd : nat) : TM (nat + Z) :=
  if (MAX_FDS <=? fd)%nat then throw EMFILE
  else
    let! t := gets id in
    (if (length (entries t) <=? fd)%nat then modify (ensure fd) else ret tt) ;;;
    let! t := gets id in
    let! slot := index_at (entries t) (Z.of_nat fd) in
    match slot with
    | None => set_slot fd (Some file) c ;;; ret (inr (Z.of_nat fd))
    | Some _ => ret (inl (fd + 1)%nat)
    end.
Definition alloc_at_least (min : nat) (file : nat) (c : bool) : TM Z := loop (S MAX_FDS) (alloc_turn file c) min.
Definition alloc (file : nat) (c : bool) : TM Z := alloc_at_least 0 file c.

Definition fd_close (fd : Z) : TM unit :=
  let! t := gets id in
  if (fd <? 0) || (len (entries t) <=? fd) then throw EBADF
  else
    let closed := mjoin (entries t !! Z.to_nat fd) in
    modify (fun t => mkFdInner (<[Z.to_nat fd := None]> (entries t)) (cloexec t)) ;;;
    match closed with Some _ => ret tt | None => throw EBADF end.

Definition is_cloexec (fd : Z) (t : FdInner) : bool := if fd <? 0 then false else default false (cloexec t !! Z.to_nat fd).
Definition set_cloexec (fd : Z) (value : bool) (t : FdInner) : FdInner :=
  if (0 <=? fd) && (fd <? len (cloexec t)) then mkFdInner (entries t) (<[Z.to_nat fd := value]> (cloexec t)) else t.

Definition snapshot (t : FdInner) : list (Z * nat) := omap (fun '(fd, slot) => (fun file => (Z.of_nat fd, file)) <$> slot) (imap pair (entries t)).
Definition clone_table (t : FdInner) : FdInner := t.

(** A turn of [take_matching]. *)
Definition take_turn (wanted : FdInner -> nat -> bool) (out : list nat) (fd : nat) (t : FdInner) : list nat * FdInner :=
  if wanted t fd then
    (match mjoin (entries t !! fd) with Some file => out ++ [file] | None => out end, mkFdInner (<[fd := None]> (entries t)) (<[fd := false]> (cloexec t)))
  else (out, t).
Definition take_matching (wanted : FdInner -> nat -> bool) (t : FdInner) : list nat * FdInner :=
  foldl (fun '(out, t) fd => take_turn wanted out fd t) ([], t) (seq 0 (length (entries t))).
Definition close_on_exec (t : FdInner) : FdInner := (take_matching (fun t fd => default false (cloexec t !! fd)) t).2.
Definition clear (t : FdInner) : FdInner := (take_matching (fun _ _ => true) t).2.

(** ** A process and its files *)

Class Channels (V : Type) := {
  channel_read : FileBacking -> bool -> Z -> M V Errno (list Z);
  channel_write : FileBacking -> bool -> list Z -> M V Errno Z;
  (** [open_fifo], which answers the end that was opened. *)
  fifo_open : nat -> Z -> M V Errno FileBacking;
  (** [exe_path] of the calling task, and of a task by its number. *)
  exe_path : V -> Str;
  exe_of : V -> Z -> option Str;
}.

Record Proc (V : Type) := mkProc {
  fs : Fs V;
  files : gmap nat OpenFile;
  next_file : nat;
  fds : FdInner;
  cwd : Str;
  umask : Z;
}.
Arguments mkProc {V}.
Arguments fs {V}.
Arguments files {V}.
Arguments next_file {V}.
Arguments fds {V}.
Arguments cwd {V}.
Arguments umask {V}.

Section proc.
Context {V : Type} {FE : FsEnv V} {CH : Channels V}.
Abbreviation PM := (M (Proc V) Errno).

Definition with_fs (f : Fs V) (p : Proc V) : Proc V := mkProc f (files p) (next_file p) (fds p) (cwd p) (umask p).
Definition with_files (l : gmap nat OpenFile) (p : Proc V) : Proc V := mkProc (fs p) l (next_file p) (fds p) (cwd p) (umask p).
Definition with_fds (t : FdInner) (p : Proc V) : Proc V := mkProc (fs p) (files p) (next_file p) t (cwd p) (umask p).
Definition with_cwd (s : Str) (p : Proc V) : Proc V := mkProc (fs p) (files p) (next_file p) (fds p) s (umask p).

Definition tree {A} (m : M (Fs V) Errno A) : PM A := zoom fs with_fs m.
Definition table {A} (m : TM A) : PM A := zoom fds with_fds m.
Definition outside {A} (m : M V Errno A) : PM A := tree (zoom env with_env m).

Definition the_file (h : nat) : PM OpenFile := fun p => match files p !! h with Some f => (p, Ok f) | None => (p, Stuck Panic) end.
Definition change_file (h : nat) (g : OpenFile -> OpenFile) : PM unit := modify (fun p => with_files (alter g h (files p)) p).
Definition open_file (f : OpenFile) : PM nat :=
  state (fun p => (mkProc (fs p) (<[next_file p := f]> (files p)) (S (next_file p)) (fds p) (cwd p) (umask p), next_file p)).

(** [offset.advanced(n)], stored. *)
Definition move_to (h : nat) (o n : Z) : PM unit :=
  let! next := ok_or (checked_add64 o n) EINVAL in
  change_file h (with_offset next).

Definition is_device (n : Node) : bool := match kind n with Device _ => true | _ => false end.

(** [OpenFile::read] *)
Definition file_read (h : nat) (size : Z) : PM (list Z) :=
  let! f := the_file h in
  if negb (readable f) then throw EBADF
  else match backing f with
  | NodeFile node =>
      let! n := tree (the_node node) in
      if is_device n then tree (read_at node 0 size)
      else
        let! part := tree (read_at node (offset f) size) in
        move_to h (offset f) (len part) ;;;
        ret part
  | EpollFile _ => throw EINVAL
  | channel => outside (channel_read channel (has_flag (flags f) O_NONBLOCK) size)
  end.

(** [OpenFile::write]: where it goes, and then the write. *)
Definition write_position (f : OpenFile) (n : Node) (v : V) : Z :=
  if has_flag (flags f) O_APPEND then size_of n v else offset f.
Definition write_there (h node : nat) (o : Z) (buf : list Z) : PM Z :=
  let! n := tree (write_at node o buf) in
  move_to h o n ;;;
  ret n.
Definition file_write (h : nat) (buf : list Z) : PM Z :=
  let! f := the_file h in
  if negb (writable f) then throw EBADF
  else match backing f with
  | NodeFile node =>
      let! n := tree (the_node node) in
      if is_device n then tree (write_at node 0 buf)
      else
        let! v := gets (fun p => env (fs p)) in
        write_there h node (write_position f n v) buf
  | EpollFile _ => throw EINVAL
  | channel => outside (channel_write channel (has_flag (flags f) O_NONBLOCK) buf)
  end.

(** [OpenFile::seek] *)
Definition file_seek (h : nat) (pos whence : Z) : PM Z :=
  let! f := the_file h in
  match backing f with
  | NodeFile node =>
      let! n := tree (the_node node) in
      if is_device n then ret 0
      else
        let! v := gets (fun p => env (fs p)) in
        let! base := (if whence =? SEEK_SET then ret 0
                      else if whence =? SEEK_CUR then ret (as_i64 (offset f))
                      else if whence =? SEEK_END then ret (as_i64 (size_of n v))
                      else throw EINVAL) in
        let new := base + pos in
        if (new <? - 2 ^ 63) || (2 ^ 63 <=? new) then throw EINVAL
        else if new <? 0 then throw EINVAL
        else change_file h (with_offset new) ;;; ret new
  | _ => throw ESPIPE
  end.

(** ** System calls *)

Definition user_bytes (user : option (list Z)) : PM (list Z) := ok_or user EFAULT.
Definition user_can (w : bool) : PM unit := if w then ret tt else throw EFAULT.

Definition sys_read (fd size : Z) (w : bool) : PM (list Z) :=
  let size := Z.min size MAX_IO in
  if size =? 0 then ret []
  else
    let! h := table (fd_get fd) in
    user_can w ;;;
    file_read h size.

(** The bytes of [buf] that a call takes. *)
Definition sys_write (fd : Z) (size : Z) (user : option (list Z)) : PM Z :=
  let size := Z.min size MAX_IO in
  if size =? 0 then ret 0
  else
    let! h := table (fd_get fd) in
    let! buf := user_bytes (take (Z.to_nat size) <$> user) in
    file_write h buf.

Definition pread (fd size o : Z) (w : bool) : PM (list Z) :=
  let! h := table (fd_get fd) in
  let! f := the_file h in
  let! node := ok_or (node_of f) ESPIPE in
  let! part := tree (read_at node o (Z.min size MAX_IO)) in
  user_can w ;;;
  ret part.

Definition pwrite (fd size : Z) (user : option (list Z)) (o : Z) : PM Z :=
  let! h := table (fd_get fd) in
  let! f := the_file h in
  let! node := ok_or (node_of f) ESPIPE in
  let! buf := user_bytes (take (Z.to_nat (Z.min size MAX_IO)) <$> user) in
  tree (write_at node o buf).

Definition lseek (fd o whence : Z) : PM Z := let! h := table (fd_get fd) in file_seek h o whence.
Definition ftruncate (fd size : Z) : PM unit :=
  let! h := table (fd_get fd) in
  let! f := the_file h in
  let! node := ok_or (node_of f) EINVAL in
  tree (truncate node size).

Definition dup (fd : Z) : PM Z := let! h := table (fd_get fd) in table (alloc h false).
Definition dup2 (old new w : Z) : PM Z :=
  let! h := table (fd_get old) in
  if old =? new then ret new
  else if (new <? 0) || (Z.of_nat MAX_FDS <=? new) then throw EBADF
  else
    let! _ := try_ (table (fd_close new)) in
    table (insert_at (Z.to_nat new) h (has_flag w O_CLOEXEC)) ;;;
    ret new.

Definition fcntl (fd cmd arg : Z) : PM Z :=
  let! h := table (fd_get fd) in
  if (cmd =? F_DUPFD) || (cmd =? F_DUPFD_CLOEXEC) then
    (* A number past the last descriptor stands for all of them. *)
    table (alloc_at_least (Z.to_nat (Z.min arg (Z.of_nat MAX_FDS))) h (cmd =? F_DUPFD_CLOEXEC))
  else if cmd =? F_GETFD then let! t := gets fds in ret (if is_cloexec fd t then FD_CLOEXEC else 0)
  else if cmd =? F_SETFD then table (modify (set_cloexec fd (has_flag (as_u32 arg) FD_CLOEXEC))) ;;; ret 0
  else if cmd =? F_GETFL then let! f := the_file h in ret (flags f)
  else if cmd =? F_SETFL then
    let! f := the_file h in
    let keep := Z.land (flags f) (Z.lor (Z.lor O_ACCMODE O_CREAT) (Z.lor O_EXCL O_TRUNC)) in
    change_file h (with_flags (Z.lor keep (Z.land (as_u32 arg) (Z.lor O_APPEND O_NONBLOCK)))) ;;; ret 0
  else ret 0.

Definition sys_close (fd : Z) : PM unit := table (fd_close fd).
Definition close_range (first last : Z) : PM unit :=
  mapM_ (fun fd => let! _ := try_ (table (fd_close fd)) in ret tt)
    (seqZ first (Z.min last (Z.of_nat MAX_FDS - 1) + 1 - first)).

(** ** Listing a directory *)

Definition le_bytes64 (x : Z) : list Z := (fun i => (x / 2 ^ (8 * Z.of_nat i)) `mod` 256) <$> seq 0 8.

(** One record of [getdents64]: inode, where the next one is, length, type and the
    name, ended and padded with zeros. *)
Definition record_length (e : DirEntry) : Z := Z.land (19 + len (d_name e) + 1 + 7) (Z.lnot 7).
Definition dirent (index : Z) (e : DirEntry) : list Z :=
  let reclen := record_length e in
  let body := le_bytes64 (Z.of_nat (d_ino e)) ++ le_bytes64 (index + 1) ++ [reclen `mod` 256; (reclen / 256) `mod` 256] ++ [d_kind e] ++ d_name e in
  body ++ replicate (Z.to_nat reclen - length body) 0.

(** A turn of the loop that fills the buffer. *)
Definition dirent_turn (list_ : list DirEntry) (size : Z) (w : Z * list Z) : PM ((Z * list Z) + (Z * list Z)) :=
  let (index, buf) := w in
  match get list_ index with
  | None => ret (inr w)
  | Some e =>
      let! total := usize (len buf + record_length e) in
      if size <? total then ret (inr w)
      else ret (inl (index + 1, buf ++ dirent index e))
  end.

Definition getdents64 (fd size : Z) (w : bool) : PM (list Z) :=
  let! h := table (fd_get fd) in
  let! f := the_file h in
  let! node := ok_or (node_of f) ENOTDIR in
  let! n := tree (the_node node) in
  if negb (is_dir n) then throw ENOTDIR
  else
    let kept := if offset f =? 0 then None else listing f in
    let! list_ := match kept with
                  | Some l => ret l
                  | None =>
                      let! fresh := tree (readdir node) in
                      change_file h (with_listing (Some fresh)) ;;; ret fresh
                  end in
    let! '(index, buf) := loop (S (length list_)) (dirent_turn list_ size) (offset f, []) in
    if bool_decide (buf = []) && (index <? len list_) then throw EINVAL
    else
      change_file h (with_offset index) ;;;
      (if bool_decide (buf = []) then change_file h (with_listing None) else ret tt) ;;;
      user_can w ;;;
      ret buf.

(** ** Opening *)

(** [str::parse] of a [u32] and of an [i32]. *)
Fixpoint digits (acc : Z) (hi : Z) (s : Str) : option Z :=
  match s with
  | [] => Some acc
  | c :: s => if (48 <=? c) && (c <=? 57) then let n := acc * 10 + (c - 48) in if n <=? hi then digits n hi s else None else None
  end.
Definition parse_u32 (s : Str) : option Z :=
  match s with
  | [] => None
  | c :: rest => if c =? 43 then match rest with [] => None | _ => digits 0 u32_max rest end else digits 0 u32_max s
  end.
Definition parse_i32 (s : Str) : option Z :=
  match s with
  | [] => None
  | c :: rest =>
      if c =? 43 then match rest with [] => None | _ => digits 0 (2 ^ 31 - 1) rest end
      else if c =? 45 then match rest with [] => None | _ => Z.opp <$> digits 0 (2 ^ 31) rest end
      else digits 0 (2 ^ 31 - 1) s
  end.
Definition strip_prefix (p s : Str) : option Str := if starts_with s p then Some (drop (length p) s) else None.
Definition split_once (c : Z) (s : Str) : option (Str * Str) :=
  match position (Z.eqb c) s with Some i => Some (take i s, drop (S i) s) | None => None end.

(** [procfs_override_for]: the path that is meant by one of the calling process's own.
    [for_link] is set by [readlinkat]. *)
Definition procfs_override_for (path : Str) (for_link : bool) (p : Proc V) : option Str :=
  if negb (starts_with path (str "/proc/")) && negb (bool_decide (path = str "/proc/self")) then None
  else
    let v := env (fs p) in
    let pid := current_pid v in
    let rewritten := if bool_decide (path = str "/proc/self") then Some (str "/proc/" ++ decimal pid)
                     else (fun rest => str "/proc/" ++ decimal pid ++ SLASH :: rest) <$> strip_prefix (str "/proc/self/") path in
    let effective := default path rewritten in
    match strip_prefix (str "/proc/" ++ decimal pid ++ [SLASH]) effective with
    | Some entry =>
        if bool_decide (entry = str "exe") then Some (exe_path v)
        else if bool_decide (entry = str "cwd") then Some (cwd p)
        else if negb for_link then rewritten
        else match (number ← strip_prefix (str "fd/") entry;
                    fd ← parse_i32 number;
                    h ← (if fd <? 0 then None else mjoin (entries (fds p) !! Z.to_nat fd));
                    files p !! h) with
             | Some f => Some (opened_as f)
             | None => rewritten
             end
    | None =>
        match (rest ← strip_prefix (str "/proc/") effective;
               '(number, last) ← split_once SLASH rest;
               if bool_decide (last = str "exe") then parse_u32 number ≫= exe_of v else None) with
        | Some path => Some path
        | None => rewritten
        end
    end.
Definition procfs_override (path : Str) (p : Proc V) : option Str := procfs_override_for path false p.

Definition own_descriptor (path : Str) (p : Proc V) : option Z :=
  rest ← strip_prefix (str "/proc/") path;
  '(owner, rest) ← split_once SLASH rest;
  pid ← parse_u32 owner;
  if pid =? current_pid (env (fs p)) then strip_prefix (str "fd/") rest ≫= parse_i32 else None.

Definition open_descriptor (fd w : Z) : PM Z :=
  let! found := try_ (table (fd_get fd)) in
  match found with
  | inl h => table (alloc h (has_flag w O_CLOEXEC))
  | inr _ => throw ENOENT
  end.

Definition final_link_target (path : Str) : PM (option Str) :=
  let! found := try_ (tree (lookup_nofollow path)) in
  match found with
  | inr _ => ret None
  | inl id =>
      let! n := tree (the_node id) in
      if negb (bool_decide (kind n = Symlink)) then ret None
      else ret (target ← symlink_target n;
                '(dir, _) ← rsplit_once SLASH path;
                Some (normalize (if bool_decide (dir = []) then [SLASH] else dir) target))
  end.

(** What the loop of [openat] comes to: a descriptor of the process itself, a node,
    or the path there is nothing at. *)
Inductive Opened := Own (fd : Z) | Found (id : nat) (path : Str) | Missing (path : Str).

Fixpoint open_path (links : nat) (path : Str) : PM Opened :=
  match links with
  | O => ret (Missing path)
  | S links =>
      let! path := gets (fun p => default path (procfs_override path p)) in
      let! own := gets (own_descriptor path) in
      match own with
      | Some fd => ret (Own fd)
      | None =>
          let! found := try_ (tree (lookup_path path)) in
          match found with
          | inl id => ret (Found id path)
          | inr ENOENT =>
              let! target := final_link_target path in
              match target with
              | Some target => open_path links target
              | None => ret (Missing path)
              end
          | inr e => throw e
          end
      end
  end.

(** The node there is, opened. *)
Definition open_node (node : nat) (path : Str) (w : Z) : PM Z :=
  let! n := tree (the_node node) in
  match kind n with
  | FdLink owner fd =>
      let! pid := gets (fun p => current_pid (env (fs p))) in
      if owner =? pid then open_descriptor fd w else throw EACCES
  | k =>
      if has_flag w O_DIRECTORY && negb (is_dir n) then throw ENOTDIR
      else if is_dir n && negb (Z.land w O_ACCMODE =? O_RDONLY) then throw EISDIR
      else
        (if has_flag w O_TRUNC && negb (is_dir n) then tree (truncate node 0) else ret tt) ;;;
        let! f := (if bool_decide (k = Fifo) then let! b := outside (fifo_open node w) in ret (mkOpenFile b 0 w path None)
                   else ret (from_node_at node w path)) in
        let! h := open_file f in
        table (alloc h (has_flag w O_CLOEXEC))
  end.

(** [openat], of a path that is resolved. *)
Definition openat (path : Str) (w mode : Z) : PM Z :=
  let! opened := open_path SYMLINK_DEPTH path in
  match opened with
  | Own fd => open_descriptor fd w
  | Found id path => if has_flag w O_EXCL && has_flag w O_CREAT then throw EEXIST else open_node id path w
  | Missing path =>
      if has_flag w O_CREAT then
        let! mask := gets umask in
        let! id := tree (create path (Z.land mode (Z.lxor mask u32_max))) in
        open_node id path w
      else throw ENOENT
  end.

(** ** Several buffers, and from one file to another *)

(** Each buffer: its length and whether it can be written. *)
Fixpoint readv_into (h : nat) (iovs : list (Z * bool)) : PM (list (list Z)) :=
  match iovs with
  | [] => ret []
  | (size, w) :: rest =>
      if size =? 0 then readv_into h rest
      else
        let size := Z.min size MAX_IO in
        let! part := file_read h size in
        user_can w ;;;
        if len part <? size then ret [part]
        else let! more := readv_into h rest in ret (part :: more)
  end.
Definition readv (fd : Z) (iovs : list (Z * bool)) : PM (list (list Z)) := let! h := table (fd_get fd) in readv_into h iovs.

Fixpoint writev_from (h : nat) (iovs : list (Z * option (list Z))) (total : Z) : PM Z :=
  match iovs with
  | [] => ret total
  | (size, user) :: rest =>
      if size =? 0 then writev_from h rest total
      else
        let size := Z.min size MAX_IO in
        let! buf := user_bytes (take (Z.to_nat size) <$> user) in
        let! n := file_write h buf in
        let! total := u64 (total + n) in
        if n <? size then ret total else writev_from h rest total
  end.
Definition writev (fd : Z) (iovs : list (Z * option (list Z))) : PM Z := let! h := table (fd_get fd) in writev_from h iovs 0.

(** [from] is where the user keeps the position, if anywhere, and what it holds when it
    can be read; the answer has what is put there. *)
Definition sendfile (out_fd in_fd : Z) (from : option (option Z)) (w : bool) (count : Z) : PM (Z * option Z) :=
  let! input := table (fd_get in_fd) in
  let! output := table (fd_get out_fd) in
  let count := Z.min count MAX_IO in
  let! '(part, put) := match from with
    | Some user =>
        let! o := ok_or user EFAULT in
        let! f := the_file input in
        let! node := ok_or (node_of f) EINVAL in
        let! part := tree (read_at node o count) in
        let! next := ok_or (checked_add64 o (len part)) EINVAL in
        user_can w ;;;
        ret (part, Some next)
    | None => let! part := file_read input count in ret (part, None)
    end in
  let! written := file_write output part in
  ret (written, put).

(** ** Paths, names and modes *)

Definition AT_FDCWD : Z := -100.

(** [resolve_str] *)
Definition resolve_str (dirfd : Z) (path : Str) : PM Str :=
  if starts_with_slash path then ret (normalize [SLASH] path)
  else if dirfd =? AT_FDCWD then gets (fun p => normalize (cwd p) path)
  else
    (* [dirfd as i32] *)
    let fd := let x := as_u32 dirfd in if x <? 2 ^ 31 then x else x - 2 ^ 32 in
    let! h := table (fd_get fd) in
    let! f := the_file h in
    if bool_decide (opened_as f = []) then throw EBADF else ret (normalize (opened_as f) path).

Definition chdir (path : Str) : PM unit :=
  let! path := resolve_str AT_FDCWD path in
  let! id := tree (lookup_path path) in
  let! n := tree (the_node id) in
  if negb (is_dir n) then throw ENOTDIR else modify (with_cwd path).
Definition fchdir (fd : Z) : PM unit :=
  let! h := table (fd_get fd) in
  let! f := the_file h in
  let! id := ok_or (node_of f) ENOTDIR in
  let! n := tree (the_node id) in
  if negb (is_dir n) then throw ENOTDIR else modify (with_cwd (opened_as f)).
Definition getcwd (size : Z) (w : bool) : PM (list Z) :=
  let! c := gets cwd in
  if size <? len c + 1 then throw ERANGE else user_can w ;;; ret (c ++ [0]).

Definition readlinkat (dirfd : Z) (path : Str) (size : Z) (w : bool) : PM (list Z) :=
  let! path := resolve_str dirfd path in
  let! own := gets (procfs_override_for path true) in
  let! target := match own with
    | Some target => ret target
    | None =>
        let! id := tree (lookup_nofollow path) in
        let! n := tree (the_node id) in
        ok_or (symlink_target n) EINVAL
    end in
  user_can w ;;;
  ret (take (Z.to_nat (Z.min (len target) size)) target).

Definition S_ISUID : Z := 0x800.
Definition S_ISGID : Z := 0x400.
Definition S_ISVTX : Z := 0x200.
Definition set_node_mode (m : Z) (n : Node) : Node := mkNode (kind n) m (uid n) (gid n) (data n) (room n) (children n) (mtime n) (nlink n) (changing n) (stored n).

Definition set_mode (id : nat) (m : Z) : PM unit :=
  let! n := tree (the_node id) in
  if is_stored n then if has_flag m (Z.lor S_ISUID (Z.lor S_ISGID S_ISVTX)) then throw EPERM else ret tt
  else tree (put_node id (set_node_mode (Z.lor (Z.land (mode n) S_IFMT) (Z.land m PERMISSIONS)) n)).
Definition chmod (dirfd : Z) (path : Str) (m : Z) : PM unit :=
  let! path := resolve_str dirfd path in
  let! id := tree (lookup_path path) in
  set_mode id m.
Definition fchmod (fd m : Z) : PM unit :=
  let! h := table (fd_get fd) in
  let! f := the_file h in
  let! id := ok_or (node_of f) EBADF in
  set_mode id m.
(** Of a node of the volume only its own owner may be asked for; any other keeps root. *)
Definition set_owner (id : nat) (u g : Z) : PM unit :=
  let! n := tree (the_node id) in
  if is_stored n && ((negb (u =? u32_max) && negb (u =? uid n)) || (negb (g =? u32_max) && negb (g =? gid n))) then throw EPERM else ret tt.

Definition memfd_create (name : Str) : PM Z :=
  let! id := tree (new_file 0x180) in
  let! h := open_file (from_node_at id O_RDWR (str "memfd:" ++ name)) in
  table (alloc h false).

(** ** What a file is *)

Record Stat := mkStat {
  st_dev : Z; st_ino : Z; st_nlink : Z; st_mode : Z; st_uid : Z; st_gid : Z; st_rdev : Z; st_size : Z; st_blksize : Z; st_blocks : Z; st_time : Z;
}.
Definition S_IFSOCK : Z := 0xC000.

(** [Node::stat]; the three times are one. *)
Definition node_stat (id : nat) (n : Node) (v : V) : Stat :=
  let size := as_i64 (size_of n v) in
  mkStat (if is_stored n then 2 else 1) (Z.of_nat id) (nlink n) (mode n) (uid n) (gid n)
    (match kind n with Device d => rdev d | _ => 0 end) size 4096 (Z.quot (size + 511) 512) (mtime n).
(** [OpenFile::stat] *)
Definition fstat (fd : Z) : PM Stat :=
  let! h := table (fd_get fd) in
  let! f := the_file h in
  match backing f with
  | NodeFile id => let! n := tree (the_node id) in gets (fun p => node_stat id n (env (fs p)))
  | PipeFile _ _ _ => ret (mkStat 0 0 1 (Z.lor S_IFIFO 0x180) 0 0 0 0 4096 0 0)
  | _ => ret (mkStat 0 0 1 (Z.lor S_IFSOCK 0x180) 0 0 0 0 4096 0 0)
  end.
End proc.

(** * Open files and descriptors: what they promise

    A table hands out the lowest number that is free and keeps its two lists of one
    length; a file read to the end is read whole; a directory that is listed to the
    end is listed as it was when the listing began, whatever becomes of it
    meanwhile. *)

(** ** Tables *)

(** What a descriptor leads to. *)
Definition slot (t : FdInner) (x : nat) : option nat := mjoin (entries t !! x).
Definition marked (t : FdInner) (x : nat) : bool := default false (cloexec t !! x).
Definition table_ok (t : FdInner) : Prop := length (entries t) = length (cloexec t) /\ (length (entries t) <= MAX_FDS)%nat.

Lemma slot_beyond t x : (length (entries t) <= x)%nat -> slot t x = None.
Proof. intros Hx. unfold slot. by rewrite lookup_ge_None_2. Qed.

Lemma slot_padded t x k : slot (mkFdInner (entries t ++ replicate k None) (cloexec t ++ replicate k false)) x = slot t x.
Proof.
  unfold slot. cbn. destruct (decide (x < length (entries t))%nat); [by rewrite lookup_app_l|].
  rewrite lookup_app_r, (lookup_ge_None_2 (entries t)) by lia. destruct (replicate k None !! _) as [o|] eqn:E; [|done]. by apply lookup_replicate in E as [-> _].
Qed.
Lemma marked_padded t x k : length (entries t) = length (cloexec t) -> marked (mkFdInner (entries t ++ replicate k None) (cloexec t ++ replicate k false)) x = marked t x.
Proof.
  intros Hl. unfold marked. cbn. destruct (decide (x < length (cloexec t))%nat); [by rewrite lookup_app_l|].
  rewrite lookup_app_r, (lookup_ge_None_2 (cloexec t)) by lia. destruct (replicate k false !! _) as [o|] eqn:E; [|done]. by apply lookup_replicate in E as [-> _].
Qed.

Lemma ensure_ok t x : table_ok t -> (x < MAX_FDS)%nat -> table_ok (ensure x t) /\ (x < length (entries (ensure x t)))%nat.
Proof. intros [H1 H2] Hx. unfold table_ok, ensure. cbn. rewrite !length_app, !length_replicate. lia. Qed.
Lemma ensure_slot t x y : slot (ensure x t) y = slot t y.
Proof. apply slot_padded. Qed.
Lemma ensure_marked t x y : table_ok t -> marked (ensure x t) y = marked t y.
Proof. intros [H _]. by apply marked_padded. Qed.

(** One slot is another. *)
Definition put_at (t : FdInner) (fd : nat) (file : option nat) (c : bool) (t' : FdInner) : Prop :=
  table_ok t' /\ (forall x, slot t' x = if decide (x = fd) then file else slot t x) /\ (forall x, marked t' x = if decide (x = fd) then c else marked t x).

Lemma wp_set_slot fd file c t (Q : FdInner -> unit -> Prop) X :
  table_ok t -> (fd < length (entries t))%nat -> (forall t', put_at t fd file c t' -> Q t' tt) -> wp (set_slot fd file c) Q X t.
Proof.
  intros [Hl Hm] Hfd HQ. unfold set_slot. apply wp_bind, wp_gets. unfold store. apply wp_bind. rewrite (proj2 (Nat.ltb_lt _ _)) by done. apply wp_ret.
  apply wp_bind. rewrite (proj2 (Nat.ltb_lt fd (length (cloexec (id t))))) by (unfold id; lia). apply wp_ret, wp_modify, HQ. unfold id. repeat split.
  - cbn. by rewrite !length_insert.
  - cbn. by rewrite length_insert.
  - intros x. unfold slot. cbn. destruct (decide (x = fd)) as [->|Hne]; [by rewrite list_lookup_insert_eq|by rewrite list_lookup_insert_ne].
  - intros x. unfold marked. cbn. destruct (decide (x = fd)) as [->|Hne]; [by rewrite list_lookup_insert_eq by lia|by rewrite list_lookup_insert_ne].
Qed.

(** The lowest number from [min] on that is free, or every number taken. *)
Definition lowest_free (t : FdInner) (min fd : nat) : Prop :=
  (min <= fd < MAX_FDS)%nat /\ slot t fd = None /\ forall x, (min <= x < fd)%nat -> is_Some (slot t x).

Lemma wp_alloc min file c t :
  table_ok t ->
  wp (alloc_at_least min file c)
     (fun t' fd => exists x, fd = Z.of_nat x /\ lowest_free t min x /\ put_at t x (Some file) c t')
     (fun t' e => e = EMFILE /\ table_ok t' /\ (forall x, slot t' x = slot t x) /\ (forall x, marked t' x = marked t x) /\ forall x, (min <= x < MAX_FDS)%nat -> is_Some (slot t x)) t.
Proof.
  intros Hok. unfold alloc_at_least.
  apply (wp_loop (fun fd t' => table_ok t' /\ (forall x, slot t' x = slot t x) /\ (forall x, marked t' x = marked t x) /\ (min <= fd)%nat /\ forall x, (min <= x < fd)%nat -> is_Some (slot t x))
                 (fun fd _ => (MAX_FDS - fd)%nat)); [|split; [done|]; repeat split; try done; lia|lia].
  intros fd t1 (H1 & H2 & H3 & H4 & H5). unfold alloc_turn. destruct (Nat.leb_spec MAX_FDS fd).
  - apply wp_throw. repeat split; try done; try apply H1. intros x Hx. apply H5. lia.
  - apply wp_bind, wp_gets. unfold id. apply wp_bind.
    assert (forall t2 (Q : FdInner -> nat + Z -> Prop) X, table_ok t2 -> (forall x, slot t2 x = slot t x) -> (forall x, marked t2 x = marked t x) -> (fd < length (entries t2))%nat ->
      wp (let! t := gets (fun x => x) in let! slot := index_at (entries t) (Z.of_nat fd) in
          match slot with None => set_slot fd (Some file) c ;;; ret (inr (Z.of_nat fd)) | Some _ => ret (inl (fd + 1)%nat) end)
        (fun t' r => match r with
          | inl a' => (table_ok t' /\ (forall x, slot t' x = slot t x) /\ (forall x, marked t' x = marked t x) /\ (min <= a')%nat /\ forall x, (min <= x < a')%nat -> is_Some (slot t x)) /\ (MAX_FDS - a' < MAX_FDS - fd)%nat
          | inr r => exists x, r = Z.of_nat x /\ lowest_free t min x /\ put_at t x (Some file) c t' end) X t2) as Hgo.
    { intros t2 Q X Ht2 Hs2 Hm2 Hlen. apply wp_bind, wp_gets. apply wp_bind. unfold index_at, get. rewrite (proj2 (Z.leb_le _ _)) by lia. rewrite Nat2Z.id.
      destruct (lookup_lt_is_Some_2 (entries t2) fd Hlen) as [s Hs]. rewrite Hs. apply wp_ret.
      assert (slot t fd = s) as Hsl by (rewrite <- Hs2; unfold slot; by rewrite Hs). destruct s as [h|].
      - apply wp_ret. split; [|lia]. repeat split; try done; try apply Ht2; [lia|]. intros x Hx. destruct (decide (x = fd)) as [->|Hne]; [by rewrite Hsl; eauto|]. apply H5. lia.
      - apply wp_bind, wp_set_slot; [done|done|]. intros t3 (P1 & P2 & P3). apply wp_ret. exists fd. split; [done|]. split; [by repeat split|]. split; [done|].
        split; intros x; [rewrite P2|rewrite P3]; by destruct (decide (x = fd)). }
    destruct (Nat.leb_spec (length (entries t1)) fd).
    + apply wp_modify. destruct (ensure_ok t1 fd H1) as [E1 E2]; [done|]. apply (Hgo (ensure fd t1) (fun _ _ => True)); [done| | |done].
      * intros x. by rewrite ensure_slot.
      * intros x. by rewrite ensure_marked.
    + apply wp_ret. by apply (Hgo t1 (fun _ _ => True)).
Qed.

Lemma wp_insert_at fd file c t (Q : FdInner -> unit -> Prop) X :
  table_ok t -> (fd < MAX_FDS)%nat -> (forall t', put_at t fd (Some file) c t' -> Q t' tt) -> wp (insert_at fd file c) Q X t.
Proof.
  intros Ht Hfd HQ. unfold insert_at. apply wp_bind, wp_modify. destruct (ensure_ok t fd Ht Hfd) as [E1 E2]. apply wp_set_slot; [done..|].
  intros t' (P1 & P2 & P3). apply HQ. split; [done|]. split; intros x; [rewrite P2, ensure_slot|rewrite P3, ensure_marked]; done.
Qed.

(** A new descriptor is the lowest number from [min] on that is free, below 256; it
    leads to the file with the mark asked for, and every other descriptor is as it
    was. When there is none the answer is EMFILE and no descriptor changes. *)
Theorem alloc_lowest min file c (t : FdInner) :
  table_ok t ->
  match alloc_at_least min file c t with
  | (t', Ok fd) => exists x, fd = Z.of_nat x /\ lowest_free t min x /\ put_at t x (Some file) c t'
  | (t', Err e) => e = EMFILE /\ table_ok t' /\ (forall x, slot t' x = slot t x) /\ (forall x, marked t' x = marked t x) /\ forall x, (min <= x < MAX_FDS)%nat -> is_Some (slot t x)
  | (_, Stuck _) => False
  end.
Proof. intros Ht. pose proof (wp_alloc min file c t Ht) as H. unfold wp in H. by destruct (alloc_at_least min file c t) as [t' [fd|e|w]]. Qed.

(** ** What an exec closes *)

Lemma take_turns wanted (t0 : FdInner) out k :
  table_ok t0 -> (k <= length (entries t0))%nat -> (forall t t' x, marked t x = marked t' x -> wanted t x = wanted t' x) ->
  let r := foldl (fun '(out, t) fd => take_turn wanted out fd t) (out, t0) (seq 0 k) in
  table_ok r.2 /\ length (entries r.2) = length (entries t0) /\
  forall x, slot r.2 x = (if decide (x < k)%nat then if wanted t0 x then None else slot t0 x else slot t0 x) /\
            marked r.2 x = (if decide (x < k)%nat then if wanted t0 x then false else marked t0 x else marked t0 x).
Proof.
  intros Hok Hk Hw. induction k as [|k IH]; [split; [done|]; split; [done|]; intros x; by rewrite !decide_False by lia|].
  cbn zeta in *. rewrite seq_S, foldl_app. destruct IH as (I1 & I2 & I3); [lia|].
  set (r := foldl _ _ (seq 0 k)) in *. destruct r as [o t]. cbn [fst snd] in *. cbn [foldl Nat.add]. unfold take_turn.
  assert (wanted t k = wanted t0 k) as Hwk. { apply Hw. rewrite (proj2 (I3 k)). by rewrite decide_False by lia. }
  rewrite Hwk. destruct (wanted t0 k) eqn:Ek; cbn [snd].
  - split; [|split].
    + destruct I1 as [h1 h2]. split; cbn; by rewrite ?length_insert.
    + cbn. by rewrite length_insert.
    + intros x. destruct (I3 x) as [J1 J2]. unfold slot, marked in *. cbn. destruct I1 as [h1 h2]. destruct (decide (x = k)) as [->|Hne].
      * rewrite !list_lookup_insert_eq by lia. rewrite !decide_True by lia. by rewrite Ek.
      * rewrite !list_lookup_insert_ne by done. rewrite J1, J2. destruct (decide (x < k)%nat), (decide (x < S k)%nat); try lia; done.
  - split; [done|]. split; [done|]. intros x. destruct (I3 x) as [J1 J2]. rewrite J1, J2. destruct (decide (x = k)) as [->|Hne].
    + destruct (decide (k < k)%nat); [lia|]. rewrite !decide_True by lia. by rewrite Ek.
    + destruct (decide (x < k)%nat), (decide (x < S k)%nat); try lia; done.
Qed.

(** An exec closes the descriptors that are marked for it and no other, and leaves
    no mark. *)
Theorem exec_closes_marked (t : FdInner) :
  table_ok t -> table_ok (close_on_exec t) /\
  forall x, slot (close_on_exec t) x = (if marked t x then None else slot t x) /\ marked (close_on_exec t) x = false.
Proof.
  intros Ht. destruct (take_turns (fun t fd => default false (cloexec t !! fd)) t [] (length (entries t)) Ht) as (H1 & H2 & H3); [lia|by unfold marked|].
  split; [exact H1|]. intros x. destruct (H3 x) as [J1 J2]. unfold close_on_exec, take_matching. rewrite J1, J2.
  change (default false (cloexec t !! x)) with (marked t x). destruct (decide (x < length (entries t))%nat); [by destruct (marked t x)|].
  rewrite slot_beyond by lia. destruct Ht as [Hl _]. unfold marked. rewrite lookup_ge_None_2 by lia. done.
Qed.

(** ** Reading *)

Section reading.
Context {V : Type} {FE : FsEnv V} {CH : Channels V} {FL : FsLaws}.
Abbreviation PM := (M (Proc V) Errno).
Implicit Types p : Proc V.

Lemma wp_tree {A} (m : M (Fs V) Errno A) (Q : Proc V -> A -> Prop) X p :
  wp m (fun f a => Q (with_fs f p) a) (fun f e => X (with_fs f p) e) (fs p) -> wp (tree m) Q X p.
Proof. apply wp_zoom. Qed.
Lemma with_fs_same p : with_fs (fs p) p = p.
Proof. by destruct p. Qed.
Lemma with_fds_same p : with_fds (fds p) p = p.
Proof. by destruct p. Qed.

Lemma wp_fd_get (x h : nat) (Q : Proc V -> nat -> Prop) X p :
  slot (fds p) x = Some h -> Q p h -> wp (table (fd_get (Z.of_nat x))) Q X p.
Proof.
  intros Hs HQ. unfold table. apply wp_zoom. unfold fd_get. rewrite (proj2 (Z.ltb_ge _ _)) by lia. apply wp_bind, wp_gets. unfold id.
  rewrite Nat2Z.id. change (mjoin (entries (fds p) !! x)) with (slot (fds p) x). rewrite Hs. apply wp_ret. by rewrite with_fds_same.
Qed.
Lemma wp_the_file h f (Q : Proc V -> OpenFile -> Prop) X p : files p !! h = Some f -> Q p f -> wp (the_file h) Q X p.
Proof. intros Hf HQ. unfold wp, the_file. by rewrite Hf. Qed.
Lemma wp_tree_node id n (Q : Proc V -> Node -> Prop) X p : nodes (fs p) !! id = Some n -> Q p n -> wp (tree (the_node id)) Q X p.
Proof. intros Hn HQ. apply wp_tree. eapply wp_the_node; [done|]. by rewrite with_fs_same. Qed.

(** [fd] leads to [h], an open file on the node [id]. *)
Definition opens (p : Proc V) (fd h id : nat) (f : OpenFile) (n : Node) : Prop :=
  slot (fds p) fd = Some h /\ files p !! h = Some f /\ backing f = NodeFile id /\ nodes (fs p) !! id = Some n.

Definition moved_to (h : nat) (o : Z) (p : Proc V) : Proc V := with_files (alter (with_offset o) h (files p)) p.

Lemma wp_sys_read fd h id f n size (Q : Proc V -> list Z -> Prop) X p :
  opens p fd h id f n -> readable f = true -> in_memory n = true -> 0 < size <= MAX_IO -> 0 <= offset f -> offset f + size <= u64_max ->
  (let part := bytes_read (data n) (offset f) size in Q (moved_to h (offset f + len part) p) part) -> wp (sys_read (Z.of_nat fd) size true) Q X p.
Proof.
  intros (Hs & Hf & Hb & Hn) Hr Hm Hsize Ho Hle HQ. unfold sys_read. rewrite Z.min_l by lia. rewrite (proj2 (Z.eqb_neq size 0)) by lia.
  apply wp_bind. eapply wp_fd_get; [done|]. apply wp_bind, wp_ret. unfold file_read. apply wp_bind. eapply wp_the_file; [done|]. rewrite Hr, Hb. cbn [negb].
  apply wp_bind. eapply wp_tree_node; [done|].
  assert (is_device n = false) as -> by (unfold in_memory, is_device in *; by destruct (kind n)).
  apply wp_bind, wp_tree. eapply wp_node_read; [done|done|done|lia| |lia]. intros _. rewrite with_fs_same. set (part := bytes_read _ _ _) in *.
  assert (len part <= size) as Hlen by (unfold part, bytes_read; rewrite length_take; lia).
  apply wp_bind. unfold move_to, checked_add64. rewrite (proj2 (Z.leb_le _ _)) by lia. apply wp_bind, wp_ret, wp_modify, wp_ret. exact HQ.
Qed.

Lemma take_self {A} k (l : list A) : take k l = take (length (take k l)) l.
Proof.
  rewrite length_take. destruct (decide (k <= length l)%nat); [by rewrite Nat.min_l by lia|]. rewrite Nat.min_r by lia. by rewrite !take_ge by lia.
Qed.

(** A program that reads until nothing comes. *)
Definition read_turn (fd : nat) (size : Z) (acc : list Z) : PM (list Z + list Z) :=
  let! part := sys_read (Z.of_nat fd) size true in
  ret (if bool_decide (part = []) then inr acc else inl (acc ++ part)).

Lemma opens_moved p fd h id f n o : opens p fd h id f n -> opens (moved_to h o p) fd h id (with_offset o f) n.
Proof. intros (Hs & Hf & Hb & Hn). repeat split; try done. cbn. by rewrite lookup_alter_eq, Hf. Qed.

(** A program that reads a file a piece at a time until nothing comes has read it
    whole: everything from where it began to the end, in order, each byte once,
    whatever the size of the pieces. *)
Theorem read_to_end fd h id f n size p :
  opens p fd h id f n -> readable f = true -> in_memory n = true -> contents_ok n -> 0 < size <= MAX_IO -> 0 <= offset f <= isize_max ->
  exists p', loop (length (data n) + 1) (read_turn fd size) [] p = (p', Ok (drop (Z.to_nat (offset f)) (data n))).
Proof.
  intros Hop Hr Hm [Hlen Hroom] Hsize Ho. set (start := Z.to_nat (offset f)). change isize_max with (2 ^ 63 - 1) in *. change MAX_IO with 16777216 in *.
  assert (wp (loop (length (data n) + 1) (read_turn fd size) []) (fun _ out => out = drop start (data n)) (fun _ _ => False) p) as H.
  - apply (wp_loop (fun acc p' => exists o, opens p' fd h id (with_offset o f) n /\ offset f <= o <= Z.max (offset f) (len (data n)) /\
                       acc = take (Z.to_nat o - start) (drop start (data n)))
                   (fun acc _ => (length (data n) - length acc)%nat)); [| |cbn; lia].
    2:{ exists (offset f). split; [by destruct f|]. split; [lia|]. by rewrite Nat.sub_diag. }
    intros acc p' (o & Hop' & Ho' & ->). unfold read_turn. apply wp_bind. eapply wp_sys_read; [exact Hop'|done|done|change MAX_IO with 16777216; lia|cbn; lia|cbn; unfold u64_max; lia|].
    cbn [offset with_offset]. cbn zeta. apply wp_ret. unfold bytes_read.
    set (part := take (Z.to_nat size) (drop (Z.to_nat o) (data n))).
    assert (length part = Nat.min (Z.to_nat size) (length (data n) - Z.to_nat o)) as Hp by (unfold part; rewrite length_take, length_drop; done).
    assert (drop (Z.to_nat o - start) (drop start (data n)) = drop (Z.to_nat o) (data n)) as Hd by (rewrite drop_drop; f_equal; lia).
    case_bool_decide as E.
    + assert (length part = 0)%nat as E0 by (by rewrite E). rewrite take_ge; [done|]. rewrite length_drop. lia.
    + assert (length part <> 0)%nat as E0 by (by destruct part). split.
      * exists (o + len part). split; [exact (opens_moved _ _ _ _ _ _ _ Hop')|]. split; [lia|].
        replace (Z.to_nat (o + len part) - start)%nat with ((Z.to_nat o - start) + length part)%nat by lia.
        rewrite <- take_take_drop, Hd. f_equal. exact (take_self _ _).
      * rewrite length_app, length_take, length_drop. lia.
  - unfold wp in H. destruct (loop _ _ _ p) as [p' [out|e|w]]; [|done..]. subst out. by exists p'.
Qed.

(** ** Listing a directory *)

(** The records of the entries from number [i] on. *)
Fixpoint records (i : Z) (l : list DirEntry) : list Z :=
  match l with
  | [] => []
  | e :: l => dirent i e ++ records (i + 1) l
  end.

Lemma records_app i l l' : records i (l ++ l') = records i l ++ records (i + len l) l'.
Proof.
  revert i. induction l as [|e l IH]; intros i; cbn [records app length]; [by rewrite Z.add_0_r|]. rewrite IH, <- app_assoc. do 3 f_equal. lia.
Qed.

Lemma record_size e : 20 <= record_length e /\ 19 + len (d_name e) + 1 <= record_length e.
Proof.
  unfold record_length. set (x := 19 + len (d_name e) + 1). assert (20 <= x) as Hx by lia.
  replace (Z.land (x + 7) (Z.lnot 7)) with ((x + 7) / 8 * 8); [lia|].
  change (Z.lnot 7) with (Z.lnot (Z.ones 3)). rewrite <- Z.ldiff_land, Z.ldiff_ones_r by lia. rewrite Z.shiftl_mul_pow2, Z.shiftr_div_pow2 by lia. done.
Qed.

Lemma dirent_length i e : len (dirent i e) = record_length e.
Proof.
  pose proof (record_size e). assert (forall x, length (le_bytes64 x) = 8%nat) as H8 by done. unfold dirent.
  rewrite length_app, length_replicate, !length_app, !H8. cbn [length]. lia.
Qed.

(** What one call puts in the buffer. *)
Lemma wp_fill_page (l : list DirEntry) size i (Q : Proc V -> Z * list Z -> Prop) X p :
  0 <= size <= isize_max -> Forall (fun e => record_length e <= size) l -> 0 <= i <= len l ->
  (forall j, i <= j <= len l -> (i < len l -> i < j) -> Q p (j, records i (take (Z.to_nat (j - i)) (drop (Z.to_nat i) l)))) ->
  wp (loop (S (length l)) (dirent_turn l size) (i, [])) Q X p.
Proof.
  intros Hsize Hfit Hi HQ. change isize_max with (2 ^ 63 - 1) in *.
  apply (wp_loop (fun '(j, buf) p' => p' = p /\ i <= j <= len l /\ buf = records i (take (Z.to_nat (j - i)) (drop (Z.to_nat i) l)) /\ len buf <= size /\ (j = i -> buf = []))
                 (fun '(j, _) _ => Z.to_nat (len l - j))); [| |lia].
  2:{ split; [done|]. split; [lia|]. rewrite Z.sub_diag. cbn. repeat split; lia. }
  intros [j buf] p' (-> & Hj & Hbuf & Hlen & Hstart). cbn [dirent_turn]. unfold get. rewrite (proj2 (Z.leb_le 0 j)) by lia.
  destruct (l !! Z.to_nat j) as [e|] eqn:Ee.
  - assert (record_length e <= size) as He by (by eapply (Forall_lookup_1 _ _ _ _ Hfit)). pose proof (record_size e) as [Hr _].
    assert (Z.to_nat j < length l)%nat as Hjl by (by eapply lookup_lt_Some).
    apply wp_bind, wp_checked; [unfold u64_max; lia|]. destruct (Z.ltb_spec size (len buf + record_length e)).
    + apply wp_ret. rewrite Hbuf. apply HQ; [lia|]. intros _. destruct (decide (j = i)) as [E|]; [|lia]. rewrite (Hstart E) in *. cbn in *. lia.
    + apply wp_ret. split; [|lia]. split; [done|]. split; [lia|]. split; [|split; [rewrite length_app, Nat2Z.inj_add, dirent_length; lia|lia]].
      replace (Z.to_nat (j + 1 - i)) with (S (Z.to_nat (j - i))) by lia.
      rewrite (take_S_r _ _ e) by (rewrite lookup_drop; rewrite <- Ee; f_equal; lia). rewrite records_app. cbn [records]. rewrite app_nil_r, <- Hbuf. f_equal. f_equal.
      rewrite length_take, length_drop. lia.
  - apply lookup_ge_None_1 in Ee. apply wp_ret. rewrite Hbuf. apply HQ; lia.
Qed.

(** A program that lists a directory until nothing comes, and what others do to the
    tree between its calls. *)
Definition list_turn (fd : nat) (size : Z) (meanwhile : nat -> Fs V -> Fs V) (w : nat * list Z) : PM ((nat * list Z) + list Z) :=
  let (k, acc) := w in
  let! page := getdents64 (Z.of_nat fd) size true in
  if bool_decide (page = []) then ret (inr acc)
  else tree (modify (meanwhile k)) ;;; ret (inl (S k, acc ++ page)).

(** The call, once the listing is [l] and it begins at [i]. *)
Lemma wp_getdents fd h id f n l size i (Q : Proc V -> list Z -> Prop) (X : Proc V -> Errno -> Prop) p :
  slot (fds p) fd = Some h -> backing f = NodeFile id -> nodes (fs p) !! id = Some n -> is_dir n = true ->
  0 <= size <= isize_max -> Forall (fun e => record_length e <= size) l -> 0 <= i <= len l -> files p !! h = Some f -> offset f = i ->
  (i = 0 \/ listing f = None -> exists g, readdir id (fs p) = (g, Ok l)) -> (i <> 0 -> listing f <> None -> listing f = Some l) ->
  (forall p' j, i <= j <= len l -> (i < len l -> i < j) -> fds p' = fds p -> (fs p' = fs p \/ (i = 0 \/ listing f = None) /\ exists g, readdir id (fs p) = (g, Ok l) /\ fs p' = g) ->
     (i < j -> files p' !! h = Some (with_listing (Some l) (with_offset j f))) -> Q p' (records i (take (Z.to_nat (j - i)) (drop (Z.to_nat i) l)))) ->
  wp (getdents64 (Z.of_nat fd) size true) Q X p.
Proof.
  intros Hs Hb Hn Hd Hsize Hfit Hi Hf Ho Hread Hkept HQ. unfold getdents64. apply wp_bind. eapply wp_fd_get; [done|]. apply wp_bind. eapply wp_the_file; [done|].
  unfold node_of. rewrite Hb. apply wp_bind, wp_ret. apply wp_bind. eapply wp_tree_node; [done|]. rewrite Hd. cbn [negb]. rewrite Ho.
  assert (forall p1, fds p1 = fds p -> (fs p1 = fs p \/ (i = 0 \/ listing f = None) /\ exists g, readdir id (fs p) = (g, Ok l) /\ fs p1 = g) -> files p1 !! h = Some (with_listing (Some l) f) ->
    wp (let! '(index, buf) := loop (S (length l)) (dirent_turn l size) (i, []) in
        if bool_decide (buf = []) && (index <? len l) then throw EINVAL
        else change_file h (with_offset index) ;;; (if bool_decide (buf = []) then change_file h (with_listing None) else ret tt) ;;; user_can true ;;; ret buf) Q X p1) as Hgo.
  { intros p1 Hfd1 Hfs1 Hf1. apply wp_bind, wp_fill_page; [done..|]. intros j Hj Hprog. set (buf := records i _).
    assert (buf = [] -> j = i) as Hempty.
    { intros E. destruct (decide (j = i)) as [|Hne]; [done|]. destruct (lookup_lt_is_Some_2 l (Z.to_nat i)) as [e He]; [lia|].
      unfold buf in E. rewrite (drop_S _ e) in E by done. replace (Z.to_nat (j - i)) with (S (Z.to_nat (j - i - 1))) in E by lia. cbn [take records] in E.
      apply app_eq_nil in E as [E _]. pose proof (dirent_length i e) as Hl. rewrite E in Hl. cbn in Hl. pose proof (record_size e). lia. }
    case_bool_decide as E; cbn [andb].
    - rewrite (proj2 (Z.ltb_ge j (len l))) by (specialize (Hempty E); lia). apply wp_bind, wp_modify, wp_bind, wp_modify, wp_bind, wp_ret, wp_ret.
      apply HQ; [lia|done|done|done|]. specialize (Hempty E). lia.
    - apply wp_bind, wp_modify, wp_bind, wp_ret, wp_bind, wp_ret, wp_ret. apply HQ; [lia|done|done|done|]. intros _. cbn. by rewrite lookup_alter_eq, Hf1. }
  destruct (decide (i = 0 \/ listing f = None)) as [Hfresh|Hold].
  - assert ((if i =? 0 then None else listing f) = None) as -> by (destruct (Z.eqb_spec i 0); [done|]; by destruct Hfresh).
    destruct (Hread Hfresh) as [g Hg]. apply wp_bind, wp_bind, wp_tree. unfold wp at 1. rewrite Hg. apply wp_bind, wp_modify, wp_ret.
    apply Hgo; [done|right; split; [done|by exists g]|]. cbn. by rewrite lookup_alter_eq, Hf.
  - assert (i <> 0 /\ listing f <> None) as [H0 H1] by tauto. rewrite (proj2 (Z.eqb_neq i 0)) by done. rewrite (Hkept H0 H1). apply wp_bind, wp_ret.
    apply Hgo; [done|by left|]. rewrite Hf. rewrite <- (Hkept H0 H1). by destruct f.
Qed.

(** Where the listing stands: not begun, or after [j] entries of [l]. *)
Definition listed (p0 : Proc V) (fd h id : nat) (f : OpenFile) (l : list DirEntry) (acc : list Z) (p : Proc V) (j : Z) : Prop :=
  slot (fds p) fd = Some h /\ is_directory (fs p) id /\ acc = records 0 (take (Z.to_nat j) l) /\
  ((j = 0 /\ p = p0) \/ (0 < j <= len l /\ files p !! h = Some (with_listing (Some l) (with_offset j f)))).

(** C19: A program that lists a directory with [getdents64] until nothing comes is given
    every entry the directory had when it began, in the order of their names, each
    once and in whole records, whatever is made, removed or renamed meanwhile,
    itself included, as long as its buffer holds the longest record. *)
Theorem listing_whole k fd h id f l size meanwhile g p :
  1 <= k -> tree_ok k (fs p) -> slot (fds p) fd = Some h -> files p !! h = Some f -> backing f = NodeFile id -> offset f = 0 ->
  is_directory (fs p) id -> readdir id (fs p) = (g, Ok l) -> (forall i f, is_directory f id -> is_directory (meanwhile i f) id) ->
  0 <= size <= isize_max -> Forall (fun e => record_length e <= size) l ->
  exists p', loop (S (S (length l))) (list_turn fd size meanwhile) (0%nat, []) p = (p', Ok (records 0 l)).
Proof.
  intros Hk Hok Hs Hf Hb Ho Hdir Hread Hmean Hsize Hfit.
  assert (is_directory g id) as Hg.
  { pose proof (looks_readdir k id (fs p) Hk Hok (directory_there _ _ Hdir)) as H. unfold looks, wp in H. rewrite Hread in H. destruct H as [H _]. by eapply directory_kept. }
  assert (wp (loop (S (S (length l))) (list_turn fd size meanwhile) (0%nat, [])) (fun _ out => out = records 0 l) (fun _ _ => False) p) as H;
    [|unfold wp in H; destruct (loop _ _ _ p) as [p' [out|e|w]]; [|done..]; subst out; by exists p'].
  apply (wp_loop (fun '(_, acc) p' => exists j, listed p fd h id f l acc p' j)
                 (fun _ p' => match files p' !! h with Some f => Z.to_nat (len l - offset f) | None => 0%nat end)).
  2:{ exists 0. split; [done|]. split; [done|]. split; [done|]. by left. }
  2:{ rewrite Hf. lia. }
  intros [turn acc] p1 (j & Hs1 & Hd1 & -> & Hj). cbn [list_turn]. apply wp_bind. destruct Hd1 as (n & Hn & Hdn).
  assert (exists f1, files p1 !! h = Some f1 /\ backing f1 = NodeFile id /\ offset f1 = j /\ 0 <= j <= len l /\ (forall o, with_listing (Some l) (with_offset o f1) = with_listing (Some l) (with_offset o f)) /\
    (j = 0 \/ listing f1 = None -> exists g, readdir id (fs p1) = (g, Ok l)) /\ (j <> 0 -> listing f1 <> None -> listing f1 = Some l)) as (f1 & Hf1 & Hb1 & Ho1 & Hjl & Hsame & Hr1 & Hl1).
  { destruct Hj as [[-> ->]|[Hj1 Hj2]].
    - exists f. split; [done|]. split; [done|]. split; [done|]. split; [lia|]. split; [done|]. split; [|done]. intros _. by exists g.
    - eexists. split; [exact Hj2|]. split; [done|]. split; [done|]. split; [lia|]. split; [done|]. split; [|done]. intros [->|E]; [lia|done]. }
  eapply (wp_getdents fd h id f1 n l size j); try done. intros p2 m Hm Hprog Hfds Hfs Hfiles. rewrite Hsame in Hfiles.
  assert (is_directory (fs p2) id) as Hd2.
  { destruct Hfs as [->|(Hor & g2 & Hg2 & ->)]; [by exists n|]. destruct Hj as [[_ ->]|[Hj1 Hj2]]; [congruence|].
    rewrite Hf1 in Hj2. injection Hj2 as ->. destruct Hor as [->|?]; [lia|done]. }
  assert (records 0 (take (Z.to_nat j) l) ++ records j (take (Z.to_nat (m - j)) (drop (Z.to_nat j) l)) = records 0 (take (Z.to_nat m) l)) as Happ.
  { replace (Z.to_nat m) with (Z.to_nat j + Z.to_nat (m - j))%nat by lia. rewrite <- take_take_drop, records_app. f_equal. f_equal. rewrite length_take. lia. }
  case_bool_decide as E.
  - apply wp_ret. rewrite E, app_nil_r in Happ. rewrite Happ. assert (m = len l) as ->; [|by rewrite take_ge by lia].
    destruct (decide (j < len l)); [|lia]. exfalso. specialize (Hprog ltac:(done)). destruct (lookup_lt_is_Some_2 l (Z.to_nat j)) as [e He]; [lia|].
    rewrite (drop_S _ e) in E by done. replace (Z.to_nat (m - j)) with (S (Z.to_nat (m - j - 1))) in E by lia. cbn [take records] in E.
    apply app_eq_nil in E as [E _]. pose proof (dirent_length j e) as Hl. rewrite E in Hl. cbn in Hl. pose proof (record_size e). lia.
  - assert (j < m) as Hlt. { destruct (decide (j < m)); [done|]. exfalso. apply E. replace (m - j) with 0 by lia. done. }
    apply wp_bind, wp_tree, wp_modify, wp_ret. specialize (Hfiles Hlt). split.
    + exists m. split; [cbn; by rewrite Hfds|]. split; [by apply Hmean|]. split; [by rewrite Happ|]. right. split; [lia|done].
    + cbn. rewrite Hfiles, Hf1. cbn. lia.
Qed.
End reading.
