(* ===== verification/Bytes.v ===== *)
(** * Errors, paths and little-endian fields

    [kernel/src/storage/fat/mod.rs]: the error type every FAT operation
    returns, [join] for paths inside the volume, and the helpers that read and
    write the little-endian fields of on-card structures. *)

From S2P Require Import Prelude.

Inductive FsError :=
| NotFound | Exists | NotDir | IsDir | NotEmpty | NoSpace | NameTooLong
| BadName | TooBig | Invalid | Io | Corrupt | ReadOnly.

#[global] Instance FsError_eq_dec : EqDecision FsError.
Proof. solve_decision. Defined.

(** Why a read, write or flush of the cache failed ([cache::CacheError]). *)
Inductive CacheError := CeDevice | CeOutOfRange | CeReadOnly.

#[global] Instance CacheError_eq_dec : EqDecision CacheError.
Proof. solve_decision. Defined.

(** [impl From<CacheError> for FsError]. *)
Definition fs_error_from (error : CacheError) : FsError :=
  match error with
  | CeDevice => Io
  | CeOutOfRange => Corrupt
  | CeReadOnly => ReadOnly
  end.

Definition SLASH : Z := 47.

Definition join (path name : list Z) : list Z :=
  match path with
  | [] => name
  | _ => path ++ [SLASH] ++ name
  end.

(** A range past the end of the slice reads as zero, one whose end does not
    fit in a [usize] with it: no slice is that long. *)
Definition le16 (bytes : list Z) (at_ : Z) : Z :=
  match get_range bytes at_ (at_ + 2) with
  | Some [a; b] => a + 256 * b
  | _ => 0
  end.

Definition le32 (bytes : list Z) (at_ : Z) : Z :=
  match get_range bytes at_ (at_ + 4) with
  | Some [a; b; c; d] => a + 256 * (b + 256 * (c + 256 * d))
  | _ => 0
  end.

(** [to_le_bytes] of a [u16] and of a [u32]. *)
Definition le_bytes16 (value : Z) : list Z := [value `mod` 256; (value / 256) `mod` 256].
Definition le_bytes32 (value : Z) : list Z :=
  [value `mod` 256; (value / 256) `mod` 256; (value / 65536) `mod` 256; (value / 16777216) `mod` 256].

Definition put8 (bytes : list Z) (at_ : Z) (value : Z) : list Z :=
  <[Z.to_nat at_ := value]> bytes.

(** The loop of [put16] and [put32]: one byte after another from [at_]. *)
Fixpoint put_bytes (bytes : list Z) (at_ : Z) (value : list Z) : list Z :=
  match value with
  | [] => bytes
  | byte :: value => put_bytes (put8 bytes at_ byte) (at_ + 1) value
  end.

Definition put16 (bytes : list Z) (at_ : Z) (value : Z) : list Z :=
  put_bytes bytes at_ (le_bytes16 value).

Definition put32 (bytes : list Z) (at_ : Z) (value : Z) : list Z :=
  put_bytes bytes at_ (le_bytes32 value).

(** * Block devices

    The [Blocks] trait of [kernel/src/storage/fat/cache.rs]; what the code on
    top of it relies on, as the class [BlocksOk]; and the two devices in memory
    of [tools/fatdisk/src/image.rs] that the FAT code is tested on: [Memory],
    and [Recorder], which keeps every block written in order and fails writes
    after a given number of them. *)

(** Bytes in a block. *)
Definition BLOCK : Z := 512.

(** The trait: [read] fills a buffer of [len] bytes, a whole number of blocks,
    and [write] puts a whole number of blocks, from block [block]. [None] is
    [Err(DeviceError)]. *)
Class Blocks (B : Type) := {
  blk_count : B -> Z;
  blk_read : B -> Z -> Z -> B * option (list Z);
  blk_write : B -> Z -> list Z -> B * option unit;
}.

(** ** A volume held in memory *)

Definition SECTOR : Z := 512.

(** [range]: the bytes of [len] bytes from block [block]. *)
Definition byte_range (block n : Z) : option (Z * Z) :=
  if block * SECTOR <=? u64_max then
    if block * SECTOR + n <=? u64_max then Some (block * SECTOR, block * SECTOR + n) else None
  else None.

Definition data_read (data : list Z) (block n : Z) : option (list Z) :=
  match byte_range block n with
  | Some (from, to) => get_range data from to
  | None => None
  end.

Definition data_write (data : list Z) (block : Z) (new : list Z) : option (list Z) :=
  match byte_range block (len new) with
  | Some (from, to) =>
      match get_range data from to with
      | Some _ => Some (splice data (Z.to_nat from) new)
      | None => None
      end
  | None => None
  end.

Record Memory := mkMemory { mem_data : list Z }.

#[global] Instance Memory_Blocks : Blocks Memory := {
  blk_count m := len (mem_data m) / SECTOR;
  blk_read m block n := (m, data_read (mem_data m) block n);
  blk_write m block new :=
    match data_write (mem_data m) block new with
    | Some data => (mkMemory data, Some tt)
    | None => (m, None)
    end;
}.

(** ** A volume that records its writes *)

Record Recorder := mkRecorder {
  rec_data : list Z;
  rec_writes : list (Z * list Z);
  fail_after : option nat;
  fail_reads : bool;
}.

(** The blocks of one write, one entry per block, in order. *)
Definition block_writes (block : Z) (new : list Z) : list (Z * list Z) :=
  imap (fun i chunk => (block + Z.of_nat i, chunk)) (chunks (Z.to_nat SECTOR) new).

Definition writes_exhausted (r : Recorder) : bool :=
  match fail_after r with Some limit => (limit <=? length (rec_writes r))%nat | None => false end.

#[global] Instance Recorder_Blocks : Blocks Recorder := {
  blk_count r := len (rec_data r) / SECTOR;
  blk_read r block n := (r, if fail_reads r then None else data_read (rec_data r) block n);
  blk_write r block new :=
    if writes_exhausted r then (r, None)
    else
      match data_write (rec_data r) block new with
      | Some data =>
          (mkRecorder data (rec_writes r ++ block_writes block new) (fail_after r) (fail_reads r), Some tt)
      | None => (r, None)
      end;
}.

(** ** What the code above a device relies on

    [content d b] is what block [b] holds. A read that succeeds returns it and
    a write that succeeds replaces it; one that fails may leave anything in the
    blocks it was asked to write, and nothing else ever changes. *)

Class BlocksOk (B : Type) `{!Blocks B} := {
  dev_wf : B -> Prop;
  content : B -> Z -> list Z;
  count_u64 d : dev_wf d -> 0 <= blk_count d <= u64_max;
  content_length d b : dev_wf d -> length (content d b) = Z.to_nat BLOCK;
  content_bytes d b : dev_wf d -> Forall is_u8 (content d b);
  read_frame d b n d' r : dev_wf d -> 0 <= b -> 0 <= n -> blk_read d b n = (d', r) ->
    dev_wf d' /\ blk_count d' = blk_count d /\ forall x, content d' x = content d x;
  read_bytes d b n d' data : dev_wf d -> 0 <= b -> 0 <= n -> blk_read d b n = (d', Some data) -> Forall is_u8 data;
  read_data d b k d' data : dev_wf d -> 0 <= b -> 0 <= k -> b + k <= blk_count d ->
    blk_read d b (k * BLOCK) = (d', Some data) -> data = seqZ b k ≫= content d;
  write_frame d b k data d' r : dev_wf d -> 0 <= b -> 0 <= k -> b + k <= blk_count d ->
    len data = k * BLOCK -> Forall is_u8 data -> blk_write d b data = (d', r) ->
    dev_wf d' /\ blk_count d' = blk_count d /\ forall x, ~ b <= x < b + k -> content d' x = content d x;
  write_data d b k data d' : dev_wf d -> 0 <= b -> 0 <= k -> b + k <= blk_count d ->
    len data = k * BLOCK -> Forall is_u8 data -> blk_write d b data = (d', Some tt) ->
    data = seqZ b k ≫= content d';
}.
