(* ===== verification/Time.v ===== *)
(** * FAT timestamps

    [kernel/src/storage/fat/time.rs]: the date and time fields of a directory
    entry, encoded from and decoded to seconds since 1970. *)

From S2P Require Import Prelude.

Definition FAT_EPOCH : Z := 315532800.
Definition FAT_END : Z := 4354819198.

Record Stamp := mkStamp { date : Z; time : Z; hundredths : Z }.

(** Rust's [/] on [i64] truncates; on the [u64] values it is [Z.div]. *)
Definition civil_from_days (days : Z) : Z * Z * Z :=
  let z := days + 719468 in
  let era := Z.quot (if 0 <=? z then z else z - 146096) 146097 in
  let doe := z - era * 146097 in
  let yoe := (doe - doe / 1460 + doe / 36524 - doe / 146096) / 365 in
  let doy := doe - (365 * yoe + yoe / 4 - yoe / 100) in
  let mp := (5 * doy + 2) / 153 in
  let day := as_u32 (doy - (153 * mp + 2) / 5 + 1) in
  let month := as_u32 (if mp <? 10 then mp + 3 else mp - 9) in
  let year := yoe + era * 400 + (if month <=? 2 then 1 else 0) in
  (year, month, day).

Definition days_from_civil (year month day : Z) : Z :=
  let year := if month <=? 2 then year - 1 else year in
  let era := Z.quot (if 0 <=? year then year else year - 399) 400 in
  let yoe := year - era * 400 in
  let mp := if 2 <? month then month - 3 else month + 9 in
  let doy := (153 * mp + 2) / 5 + day - 1 in
  let doe := yoe * 365 + yoe / 4 - yoe / 100 + doy in
  era * 146097 + doe - 719468.

(** [i64::clamp], [div_euclid] and [rem_euclid] by a positive constant. *)
Definition clamp (x lo hi : Z) : Z := Z.min (Z.max x lo) hi.

Definition encode (unix : Z) : Stamp :=
  let unix := clamp unix FAT_EPOCH FAT_END in
  let '(year, month, day) := civil_from_days (unix / 86400) in
  let seconds := unix `mod` 86400 in
  let date := Z.lor (Z.lor (as_u16 (Z.shiftl (as_u16 (year - 1980)) 9))
                           (as_u16 (Z.shiftl (as_u16 month) 5))) (as_u16 day) in
  let time := Z.lor (Z.lor (as_u16 (Z.shiftl (as_u16 (seconds / 3600)) 11))
                           (as_u16 (Z.shiftl (as_u16 ((seconds / 60) `mod` 60)) 5)))
                    (as_u16 ((seconds `mod` 60) / 2)) in
  let hundredths := if seconds `mod` 2 =? 1 then 100 else 0 in
  mkStamp date time hundredths.

Definition decode (date time : Z) : Z :=
  let year := 1980 + Z.shiftr date 9 in
  let month := Z.land (Z.shiftr date 5) 0x0F in
  let day := Z.land date 0x1F in
  let hour := Z.shiftr time 11 in
  let minute := Z.land (Z.shiftr time 5) 0x3F in
  let second := Z.land time 0x1F * 2 in
  if negb ((1 <=? month) && (month <=? 12)) || (day =? 0) || (23 <? hour) || (59 <? minute)
     || (59 <? second)
  then FAT_EPOCH
  else days_from_civil year month day * 86400 + hour * 3600 + minute * 60 + second.

Example encode_epoch : encode 0 = mkStamp 0x21 0 0.
Proof. reflexivity. Qed.
Example decode_2026 : let s := encode 1790000000 in decode (date s) (time s) = 1790000000.
Proof. reflexivity. Qed.

(** ** Days

    A reference for the arithmetic: whole years since 1970 with a day more for
    each leap year among them, whole months, and the day. *)

Definition is_leap (year : Z) : bool :=
  (year `mod` 4 =? 0) && (negb (year `mod` 100 =? 0) || (year `mod` 400 =? 0)).

Definition days_before_month (month : Z) : Z :=
  if month <=? 1 then 0 else if month <=? 2 then 31 else if month <=? 3 then 59 else if month <=? 4 then 90
  else if month <=? 5 then 120 else if month <=? 6 then 151 else if month <=? 7 then 181
  else if month <=? 8 then 212 else if month <=? 9 then 243 else if month <=? 10 then 273
  else if month <=? 11 then 304 else 334.

(** Leap years from 1970 up to, not including, [year]. *)
Definition leap_years (year : Z) : Z := (year - 1) / 4 - (year - 1) / 100 + (year - 1) / 400 - 477.

Definition calendar_days (year month day : Z) : Z :=
  365 * (year - 1970) + leap_years year + days_before_month month
  + (if is_leap year && (2 <? month) then 1 else 0) + day - 1.

Lemma leap_years_step year :
  leap_years 1970 = 0 /\ leap_years (year + 1) = leap_years year + (if is_leap year then 1 else 0).
Proof. unfold leap_years, is_leap. split; [done|]. destruct (_ && _) eqn:E; lia. Qed.

Lemma month_cases month :
  1 <= month <= 12 ->
  month = 1 \/ month = 2 \/ month = 3 \/ month = 4 \/ month = 5 \/ month = 6 \/
  month = 7 \/ month = 8 \/ month = 9 \/ month = 10 \/ month = 11 \/ month = 12.
Proof. lia. Qed.

Lemma days_from_civil_eq year month day :
  0 < year -> 1 <= month <= 12 ->
  days_from_civil year month day = calendar_days year month day.
Proof.
  intros Hy Hm. unfold days_from_civil, calendar_days, leap_years, is_leap.
  destruct (month_cases month Hm) as [H|[H|[H|[H|[H|[H|[H|[H|[H|[H|[H|H]]]]]]]]]]]; subst month;
    cbn -[Z.mul Z.div Z.add Z.sub Z.quot Z.modulo];
    rewrite (proj2 (Z.leb_le 0 _)) by lia; rewrite Z.quot_div_nonneg by lia;
    rewrite ?andb_false_r, ?andb_true_r;
    try (destruct (_ && _) eqn:E); lia.
Qed.

(** The year of the era and the day of its year. *)
Lemma year_of_era_spec doe :
  0 <= doe <= 146096 ->
  let yoe := (doe - doe / 1460 + doe / 36524 - doe / 146096) / 365 in
  0 <= yoe <= 399 /\ 0 <= doe - (365 * yoe + yoe / 4 - yoe / 100) <= 365.
Proof.
  intros Hdoe yoe. assert (Hy : 0 <= yoe <= 399) by (unfold yoe; lia).
  split; [done|]. unfold yoe in *. lia.
Qed.

Lemma civil_from_days_spec d :
  0 <= d -> d < 1000000 ->
  exists year month day, civil_from_days d = (year, month, day) /\
    1 <= month <= 12 /\ 1 <= day <= 31 /\ 0 < year /\ days_from_civil year month day = d.
Proof.
  intros Hd Hd'. unfold civil_from_days.
  set (z := d + 719468). rewrite (proj2 (Z.leb_le 0 z)) by (unfold z; lia).
  rewrite Z.quot_div_nonneg by (unfold z; lia).
  set (era := z / 146097). set (doe := z - era * 146097).
  assert (Hdoe : 0 <= doe <= 146096) by (unfold doe, era; lia).
  destruct (year_of_era_spec doe Hdoe) as [Hyoe Hdoy]. cbv zeta in Hdoy.
  set (yoe := (doe - doe / 1460 + doe / 36524 - doe / 146096) / 365) in *.
  set (doy := doe - (365 * yoe + yoe / 4 - yoe / 100)) in *.
  set (mp := (5 * doy + 2) / 153).
  assert (Hmp : 0 <= mp <= 11) by (unfold mp; lia).
  assert (Hday : 1 <= doy - (153 * mp + 2) / 5 + 1 <= 31) by (unfold mp; lia).
  unfold as_u32. rewrite !(Z.mod_small _ 4294967296) by (destruct (mp <? 10) eqn:E; lia).
  eexists _, _, _. split; [reflexivity|].
  assert (Hera : 4 <= era) by (unfold era, z; lia).
  assert (Hz : z = era * 146097 + (365 * yoe + yoe / 4 - yoe / 100 + doy)) by (unfold doy, doe; lia).
  clearbody mp doy doe. unfold days_from_civil.
  destruct (mp <? 10) eqn:E.
  - rewrite !(proj2 (Z.leb_gt (mp + 3) 2)) by lia. rewrite (proj2 (Z.ltb_lt 2 (mp + 3))) by lia.
    rewrite (proj2 (Z.leb_le 0 _)) by lia. rewrite Z.quot_div_nonneg by lia.
    replace ((yoe + era * 400 + 0) / 400) with era by lia.
    replace (mp + 3 - 3) with mp by lia. replace (yoe + era * 400 + 0 - era * 400) with yoe by lia.
    unfold z in Hz. lia.
  - rewrite !(proj2 (Z.leb_le (mp - 9) 2)) by lia. rewrite (proj2 (Z.ltb_ge 2 (mp - 9))) by lia.
    rewrite (proj2 (Z.leb_le 0 _)) by lia. rewrite Z.quot_div_nonneg by lia.
    replace ((yoe + era * 400 + 1 - 1) / 400) with era by lia.
    replace (mp - 9 + 9) with mp by lia. replace (yoe + era * 400 + 1 - 1 - era * 400) with yoe by lia.
    unfold z in Hz. lia.
Qed.

Definition FIRST_DAY : Z := 3652.
Definition LAST_DAY : Z := 50402.

Lemma days_from_civil_range year month day :
  0 < year -> 1 <= month <= 12 -> 1 <= day <= 31 ->
  (1980 <= year -> FIRST_DAY <= days_from_civil year month day) /\
  (year <= 2107 -> days_from_civil year month day <= LAST_DAY) /\
  (days_from_civil year month day <= LAST_DAY -> year <= 2107) /\
  (FIRST_DAY <= days_from_civil year month day -> 1980 <= year).
Proof.
  intros Hy Hm Hd. rewrite days_from_civil_eq by lia. unfold calendar_days, leap_years, FIRST_DAY, LAST_DAY.
  assert (Hlo : 0 <= days_before_month month <= 334) by (unfold days_before_month; repeat destruct (_ <=? _); lia).
  assert (Hx : let x := if is_leap year && (2 <? month) then 1 else 0 in
               x = 0 \/ x = 1 /\ year `mod` 4 = 0).
  { unfold is_leap. destruct (_ && (2 <? month)) eqn:E; cbn; lia. }
  revert Hx. generalize (if is_leap year && (2 <? month) then 1 else 0). cbv zeta. intros x Hx.
  repeat split; intros; lia.
Qed.

(** ** Bit fields *)

Lemma lor_shift_add a b k : 0 <= k -> 0 <= b < 2 ^ k -> Z.lor (Z.shiftl a k) b = a * 2 ^ k + b.
Proof.
  intros Hk Hb. rewrite Z.shiftl_mul_pow2 by lia.
  assert (Hdisj : Z.land (a * 2 ^ k) b = 0).
  { apply Z.bits_inj'. intros n Hn. rewrite Z.land_spec, Z.bits_0.
    destruct (Z.ltb_spec n k).
    - by rewrite Z.mul_pow2_bits_low.
    - replace (Z.testbit b n) with false; [by rewrite andb_false_r|].
      symmetry. destruct (Z.eq_dec b 0) as [->|Hb0]; [apply Z.bits_0|].
      apply Z.bits_above_log2; [lia|]. enough (Z.log2 b < k) by lia. apply Z.log2_lt_pow2; lia. }
  rewrite <- Z.lxor_lor by done. by rewrite Z.add_nocarry_lxor.
Qed.

Lemma shiftr_field a b k : 0 <= k -> 0 <= b < 2 ^ k -> Z.shiftr (a * 2 ^ k + b) k = a.
Proof.
  intros Hk Hb. rewrite Z.shiftr_div_pow2 by lia.
  rewrite Z.div_add_l by lia. rewrite Z.div_small by lia. lia.
Qed.

Lemma land_field a b k : 0 <= k -> 0 <= b < 2 ^ k -> Z.land (a * 2 ^ k + b) (2 ^ k - 1) = b.
Proof.
  intros Hk Hb. rewrite <- (Z.ones_equiv k) at 1 || idtac.
  replace (2 ^ k - 1) with (Z.ones k) by (rewrite Z.ones_equiv; lia).
  rewrite Z.land_ones by lia. rewrite Z.add_comm, Z.mod_add by lia. apply Z.mod_small. lia.
Qed.

(** Three fields side by side, the way both halves of a stamp are packed. *)
Lemma pack_fields a b c i j n :
  0 <= i -> 0 <= j -> 0 <= a < n -> 0 <= b < 2 ^ (i - j) -> 0 <= c < 2 ^ j -> j <= i -> n * 2 ^ i <= 65536 ->
  Z.lor (Z.lor (as_u16 (Z.shiftl (as_u16 a) i)) (as_u16 (Z.shiftl (as_u16 b) j))) (as_u16 c)
  = (a * 2 ^ (i - j) + b) * 2 ^ j + c.
Proof.
  intros Hi Hj Ha Hb Hc Hij Hn. unfold as_u16.
  assert (Hsplit : 2 ^ i = 2 ^ (i - j) * 2 ^ j) by (rewrite <- Z.pow_add_r by lia; f_equal; lia).
  assert (0 < 2 ^ (i - j)) by (apply Z.pow_pos_nonneg; lia).
  assert (0 < 2 ^ j) by (apply Z.pow_pos_nonneg; lia).
  rewrite (Z.mod_small a), (Z.mod_small b), (Z.mod_small c) by nia.
  rewrite (Z.mod_small (Z.shiftl a i)), (Z.mod_small (Z.shiftl b j)) by (rewrite Z.shiftl_mul_pow2 by lia; nia).
  replace (Z.shiftl a i) with (Z.shiftl (Z.shiftl a (i - j)) j) by (rewrite Z.shiftl_shiftl by lia; f_equal; lia).
  rewrite <- Z.shiftl_lor, lor_shift_add, lor_shift_add by lia. reflexivity.
Qed.

Definition stamp_date (year month day : Z) : Z := ((year - 1980) * 2 ^ 4 + month) * 2 ^ 5 + day.
Definition stamp_time (hour minute second : Z) : Z := (hour * 2 ^ 6 + minute) * 2 ^ 5 + second / 2.

Lemma encode_fields unix :
  exists year month day hour minute second,
    encode unix = mkStamp (stamp_date year month day) (stamp_time hour minute second)
                    (if (hour * 3600 + minute * 60 + second) `mod` 2 =? 1 then 100 else 0) /\
    1980 <= year <= 2107 /\ 1 <= month <= 12 /\ 1 <= day <= 31 /\
    0 <= hour <= 23 /\ 0 <= minute <= 59 /\ 0 <= second <= 59 /\
    days_from_civil year month day * 86400 + hour * 3600 + minute * 60 + second = clamp unix FAT_EPOCH FAT_END.
Proof.
  set (t := clamp unix FAT_EPOCH FAT_END).
  assert (Ht : FAT_EPOCH <= t <= FAT_END) by (unfold t, clamp, FAT_EPOCH, FAT_END; lia).
  unfold FAT_EPOCH, FAT_END in Ht.
  destruct (civil_from_days_spec (t / 86400)) as (year & month & day & Hcivil & Hm & Hd & Hpos & Hdays);
    [lia|lia|].
  pose proof (days_from_civil_range year month day Hpos Hm Hd) as Hrange.
  unfold FIRST_DAY, LAST_DAY in Hrange. rewrite Hdays in Hrange.
  set (s := t `mod` 86400). assert (Hs : 0 <= s < 86400) by (unfold s; lia).
  exists year, month, day, (s / 3600), ((s / 60) `mod` 60), (s `mod` 60).
  repeat split; try lia.
  unfold encode. fold t. rewrite Hcivil. fold s. f_equal.
  - unfold stamp_date. rewrite (pack_fields _ _ _ 9 5 128) by lia. f_equal.
  - unfold stamp_time. rewrite (pack_fields _ _ _ 11 5 32) by lia. f_equal.
  - replace (s / 3600 * 3600 + (s / 60) `mod` 60 * 60 + s `mod` 60) with s by lia. done.
Qed.

Lemma decode_fields year month day hour minute second :
  1980 <= year <= 2107 -> 1 <= month <= 12 -> 1 <= day <= 31 ->
  0 <= hour <= 23 -> 0 <= minute <= 59 -> 0 <= second <= 59 ->
  decode (stamp_date year month day) (stamp_time hour minute second)
  = days_from_civil year month day * 86400 + hour * 3600 + minute * 60 + second / 2 * 2.
Proof.
  intros Hy Hm Hd Hh Hmi Hs. unfold decode, stamp_date, stamp_time.
  assert (Hsh : forall a b c, 0 <= b < 16 -> 0 <= c < 32 -> Z.shiftr ((a * 2 ^ 4 + b) * 2 ^ 5 + c) 9 = a).
  { intros a b c Hb Hc. rewrite Z.shiftr_div_pow2 by lia. change (2 ^ 4) with 16. change (2 ^ 5) with 32.
    change (2 ^ 9) with 512. lia. }
  assert (Hsh' : forall a b c, 0 <= b < 64 -> 0 <= c < 32 -> Z.shiftr ((a * 2 ^ 6 + b) * 2 ^ 5 + c) 11 = a).
  { intros a b c Hb Hc. rewrite Z.shiftr_div_pow2 by lia. change (2 ^ 6) with 64. change (2 ^ 5) with 32.
    change (2 ^ 11) with 2048. lia. }
  rewrite Hsh, Hsh' by lia. rewrite !shiftr_field by lia.
  change 0x0F with (2 ^ 4 - 1). change 0x3F with (2 ^ 6 - 1). change 0x1F with (2 ^ 5 - 1).
  rewrite !land_field by lia.
  replace (negb _ || _ || _ || _ || _) with false by lia.
  replace (1980 + (year - 1980)) with year by lia. lia.
Qed.

(** ** The theorems *)

(** reading back a stamp written for any time gives that time, held to the
    range FAT has and rounded down to the even second; the hundredths carry the
    odd second. *)
Theorem decode_encode unix :
  let t := clamp unix FAT_EPOCH FAT_END in
  decode (date (encode unix)) (time (encode unix)) = t - t `mod` 2 /\
  hundredths (encode unix) = 100 * (t `mod` 2).
Proof.
  intros t. destruct (encode_fields unix) as (y & mo & d & h & mi & s & -> & Hy & Hm & Hd & Hh & Hmi & Hs & Heq).
  fold t in Heq. cbn [date time hundredths]. rewrite decode_fields by lia. split; [lia|].
  destruct (_ =? 1) eqn:E; lia.
Qed.

(** whatever an entry's date and time fields hold, a month of 13 or a day of
    0 with them, the time read off it is inside the range of FAT stamps, and
    is one that writing back keeps. *)
Theorem decode_in_range d t :
  is_u16 d -> is_u16 t ->
  FAT_EPOCH <= decode d t <= FAT_END /\
  decode (date (encode (decode d t))) (time (encode (decode d t))) = decode d t.
Proof.
  intros Hd Ht. unfold is_u16, u16_max in *.
  enough (H : FAT_EPOCH <= decode d t <= FAT_END /\ decode d t `mod` 2 = 0).
  { destruct H as [H Heven]. split; [done|]. destruct (decode_encode (decode d t)) as [-> _].
    unfold clamp, FAT_EPOCH, FAT_END in *. lia. }
  unfold decode.
  assert (Hland : forall x k, 0 <= k -> Z.land x (2 ^ k - 1) = x `mod` 2 ^ k).
  { intros x k Hk. rewrite <- Z.land_ones by lia. f_equal. rewrite Z.ones_equiv. lia. }
  change 0x0F with (2 ^ 4 - 1). change 0x3F with (2 ^ 6 - 1). change 0x1F with (2 ^ 5 - 1).
  rewrite !Hland by lia. rewrite !Z.shiftr_div_pow2 by lia.
  change (2 ^ 4) with 16. change (2 ^ 5) with 32. change (2 ^ 6) with 64. change (2 ^ 9) with 512.
  change (2 ^ 11) with 2048.
  destruct (_ || _ || _ || _ || _) eqn:E; [unfold FAT_EPOCH, FAT_END; lia|].
  assert (Hdays : FIRST_DAY <= days_from_civil (1980 + d / 512) ((d / 32) `mod` 16) (d `mod` 32) <= LAST_DAY)
    by (split; apply days_from_civil_range; lia).
  generalize dependent (days_from_civil (1980 + d / 512) ((d / 32) `mod` 16) (d `mod` 32)).
  intros days Hdays. unfold FAT_EPOCH, FAT_END, FIRST_DAY, LAST_DAY in *. lia.
Qed.
