(* ===== verification/Cpio.v ===== *)
(** * The archive the kernel starts from

    [kernel/src/fs/cpio.rs]: the reader of the cpio "newc" format that unpacks the
    initramfs into the tree, and an archive written entry by entry, which it reads
    back. *)

From S2P Require Import Prelude Words Time Fs FsSpec.

(** The messages of [extract]. *)
Inductive CpioError :=
| BadMagic | BadMode | BadFilesize | BadNamesize | TruncatedName | NonUtf8Name | TruncatedData | MkdirFailed | LinkFailed | BadSymlinkTarget.

Definition HEADER_SIZE : Z := 110.
Definition MAGIC : list Z := str "070701".

Definition hex_digit (b : Z) : option Z :=
  if (48 <=? b) && (b <=? 57) then Some (b - 48)
  else if (97 <=? b) && (b <=? 102) then Some (b - 97 + 10)
  else if (65 <=? b) && (b <=? 70) then Some (b - 65 + 10)
  else None.
(** One digit more: [(value << 4) | digit] on a [u64]. *)
Definition hex_step (value digit : Z) : Z := Z.lor (Z.shiftl value 4 `mod` 2 ^ 64) digit.
Fixpoint hex_from (value : Z) (bytes : list Z) : option Z :=
  match bytes with
  | [] => Some value
  | b :: bytes => match hex_digit b with Some digit => hex_from (hex_step value digit) bytes | None => None end
  end.
Definition hex_field (bytes : list Z) : option Z := hex_from 0 bytes.

Record Stats := mkStats { st_files : Z; st_dirs : Z; st_symlinks : Z; st_bytes : Z; newest : Z }.
Definition no_stats : Stats := mkStats 0 0 0 0 0.

Definition parent_of (path : Str) : option Str :=
  match rsplit_once SLASH path with
  | Some ([], _) => None
  | Some (dir, _) => Some dir
  | None => None
  end.

(** Archives name entries relative to the root. *)
Definition entry_path (name : Str) : Str :=
  if bool_decide (name = DOT_NAME) then [SLASH]
  else if starts_with name (str "./") then SLASH :: drop 2 name
  else if starts_with_slash name then name
  else SLASH :: name.

Section cpio.
Context {V : Type} {FE : FsEnv V}.
Abbreviation FS := (Fs V).
Abbreviation CM := (M FS CpioError).

Definition align4 (value : Z) : CM Z := let! v := usize (value + 3) in ret (Z.land v (Z.lnot 3)).

(** A result that is looked at but not returned. *)
Definition ignore {A} (m : M FS Errno A) : CM unit :=
  fun f => match m f with (f', Stuck w) => (f', Stuck w) | (f', _) => (f', Ok tt) end.

(** A vector of bytes that was empty, with [n] bytes pushed into it. *)
Definition extended_room (n : Z) : Z := if n =? 0 then 0 else Z.max 8 n.

(** What an entry of the archive puts into the tree, and what it counts. *)
Definition place (name : Str) (mode mtime : Z) (contents : list Z) (stats : Stats) : CM Stats :=
  let stats := mkStats (st_files stats) (st_dirs stats) (st_symlinks stats) (st_bytes stats) (Z.max (newest stats) mtime) in
  let path := entry_path name in
  let type := Z.land mode S_IFMT in
  let make_parent := match parent_of path with Some parent => ignore (mkdir_p parent) | None => ret tt end in
  if type =? S_IFDIR then
    if bool_decide (path = [SLASH]) then ret stats
    else
      let! _ := map_err (fun _ => MkdirFailed) (mkdir_p path) in
      let! dirs := usize (st_dirs stats + 1) in
      ret (mkStats (st_files stats) dirs (st_symlinks stats) (st_bytes stats) (newest stats))
  else if type =? S_IFREG then
    make_parent ;;;
    let! node := map_err (fun _ => LinkFailed) (new_file (Z.land mode PERMISSIONS)) in
    map_err (fun _ => LinkFailed) (change_node node (set_data contents (len contents))) ;;;
    map_err (fun _ => LinkFailed) (link_node path node) ;;;
    let! files := usize (st_files stats + 1) in
    let! bytes := usize (st_bytes stats + len contents) in
    ret (mkStats files (st_dirs stats) (st_symlinks stats) bytes (newest stats))
  else if type =? S_IFLNK then
    make_parent ;;;
    let! target := ok_or (from_utf8 contents) BadSymlinkTarget in
    let! node := map_err (fun _ => LinkFailed) (node_new Symlink (Z.lor S_IFLNK 0x1FF)) in
    map_err (fun _ => LinkFailed) (change_node node (set_data target (extended_room (len target)))) ;;;
    map_err (fun _ => LinkFailed) (link_node path node) ;;;
    let! symlinks := usize (st_symlinks stats + 1) in
    ret (mkStats (st_files stats) (st_dirs stats) symlinks (st_bytes stats) (newest stats))
  else ret stats.

Definition field {A} (r : option A) (e : CpioError) : CM A := ok_or r e.

(** One turn: the entry at [pos]. *)
Definition cpio_turn (archive : list Z) (w : Stats * Z) : CM ((Stats * Z) + Stats) :=
  let (stats, pos) := w in
  let! header_end := usize (pos + HEADER_SIZE) in
  if len archive <? header_end then ret (inr stats)
  else
    let! header := slice archive pos header_end in
    let! magic := slice header 0 6 in
    if negb (bool_decide (magic = MAGIC)) then throw BadMagic
    else
      let! bytes := slice header 14 22 in
      let! mode := field (hex_field bytes) BadMode in
      let mode := as_u32 mode in
      let! bytes := slice header 46 54 in
      let mtime := default 0 (hex_field bytes) in
      let! bytes := slice header 54 62 in
      let! filesize := field (hex_field bytes) BadFilesize in
      let! bytes := slice header 94 102 in
      let! namesize := field (hex_field bytes) BadNamesize in
      let name_start := header_end in
      let! name_end := usize (name_start + namesize) in
      if len archive <? name_end then throw TruncatedName
      else
        let! last := usize (name_end - 1) in
        let! bytes := slice archive name_start last in
        let! name := field (from_utf8 bytes) NonUtf8Name in
        if bool_decide (name = str "TRAILER!!!") then ret (inr stats)
        else
          let! header_and_name := usize (HEADER_SIZE + namesize) in
          let! skip := align4 header_and_name in
          let! data_start := usize (pos + skip) in
          let! data_end := usize (data_start + filesize) in
          if len archive <? data_end then throw TruncatedData
          else
            let! contents := slice archive data_start data_end in
            let! stats := place name mode mtime contents stats in
            let! next := align4 data_end in
            ret (inl (stats, next)).

Definition standard_dirs : list Str := [str "/dev"; str "/proc"; str "/tmp"; str "/bin"; str "/etc"].

Definition extract (archive : list Z) : CM Stats :=
  let! stats := loop (S (length archive)) (cpio_turn archive) (no_stats, 0) in
  mapM_ (fun dir =>
    let! found := map_err (fun _ => MkdirFailed) (try_ (lookup_path dir)) in
    match found with inl _ => ret tt | inr _ => ignore (mkdir_p dir) end) standard_dirs ;;;
  ret stats.
End cpio.

(** ** An archive *)

Definition hex_char (d : Z) : Z := if d <? 10 then 48 + d else 87 + d.
(** [n] hexadecimal digits, the highest first. *)
Fixpoint hex_digits (n : nat) (x : Z) : list Z :=
  match n with
  | O => []
  | S n => hex_digits n (x / 16) ++ [hex_char (x `mod` 16)]
  end.
Definition hex8 (x : Z) : list Z := hex_digits 8 x.

Record CpioEntry := mkCpioEntry { ce_name : Str; ce_mode : Z; ce_mtime : Z; ce_data : list Z }.

(** A header of the format: thirteen numbers after the magic one. *)
Definition header (e : CpioEntry) : list Z :=
  MAGIC ++ hex8 0 ++ hex8 (ce_mode e) ++ hex8 0 ++ hex8 0 ++ hex8 1 ++ hex8 (ce_mtime e) ++ hex8 (len (ce_data e)) ++
  hex8 0 ++ hex8 0 ++ hex8 0 ++ hex8 0 ++ hex8 (len (ce_name e) + 1) ++ hex8 0.
(** Zeros up to a multiple of four. *)
Definition pad4 (n : Z) : list Z := replicate (Z.to_nat ((- n) `mod` 4)) 0.
Definition encode (e : CpioEntry) : list Z :=
  header e ++ ce_name e ++ [0] ++ pad4 (HEADER_SIZE + len (ce_name e) + 1) ++ ce_data e ++ pad4 (len (ce_data e)).
Definition trailer : list Z := encode (mkCpioEntry (str "TRAILER!!!") 0 0 []).
Definition archive_of (es : list CpioEntry) : list Z := concat (encode <$> es) ++ trailer.

Record entry_ok (e : CpioEntry) : Prop := {
  eo_name : from_utf8 (ce_name e) = Some (ce_name e) /\ ce_name e <> str "TRAILER!!!";
  eo_mode : 0 <= ce_mode e < 2 ^ 32;
  eo_mtime : 0 <= ce_mtime e < 2 ^ 32;
  eo_sizes : len (ce_name e) + 1 < 2 ^ 32 /\ len (ce_data e) < 2 ^ 32;
}.

Lemma hex_char_digit d : 0 <= d < 16 -> hex_digit (hex_char d) = Some d.
Proof.
  intros Hd. unfold hex_digit, hex_char. destruct (Z.ltb_spec d 10).
  - replace ((48 <=? 48 + d) && (48 + d <=? 57)) with true by lia. f_equal. lia.
  - replace ((48 <=? 87 + d) && (87 + d <=? 57)) with false by lia. replace ((97 <=? 87 + d) && (87 + d <=? 102)) with true by lia. f_equal. lia.
Qed.

Lemma hex_step_add v d : 0 <= v < 2 ^ 60 -> 0 <= d < 16 -> hex_step v d = v * 16 + d.
Proof.
  intros Hv Hd. unfold hex_step. rewrite Z.mod_small by (rewrite Z.shiftl_mul_pow2; lia). by rewrite lor_shift_add by lia.
Qed.

Lemma hex_from_app v l l' : hex_from v (l ++ l') = match hex_from v l with Some w => hex_from w l' | None => None end.
Proof. revert v. induction l as [|b l IH]; intros v; [done|]. cbn. destruct (hex_digit b); [apply IH|done]. Qed.

Lemma hex_from_digits n x v :
  0 <= v -> v * 16 ^ Z.of_nat n + x < 2 ^ 64 -> 0 <= x < 16 ^ Z.of_nat n -> hex_from v (hex_digits n x) = Some (v * 16 ^ Z.of_nat n + x).
Proof.
  revert x v. induction n as [|n IH]; intros x v Hv Hle Hx; [cbn in *; f_equal; lia|]. cbn [hex_digits]. rewrite hex_from_app.
  assert (16 ^ Z.of_nat (S n) = 16 * 16 ^ Z.of_nat n) as Hp by (rewrite Nat2Z.inj_succ, Z.pow_succ_r by lia; done). rewrite Hp in *.
  pose proof (Z.div_mod x 16 ltac:(lia)) as Hdm. pose proof (Z.mod_pos_bound x 16 ltac:(lia)) as Hm. set (q := x / 16) in *. set (r := x `mod` 16) in *.
  set (b := 16 ^ Z.of_nat n) in *. assert (0 < b) by (unfold b; apply Z.pow_pos_nonneg; lia).
  rewrite IH by nia. cbn [hex_from]. rewrite hex_char_digit by lia. rewrite hex_step_add; [f_equal; nia|split; [nia|]|lia].
  change (2 ^ 64) with (2 ^ 60 * 16) in Hle. nia.
Qed.

Lemma hex_field_hex8 x : 0 <= x < 2 ^ 32 -> hex_field (hex8 x) = Some x.
Proof. intros Hx. unfold hex_field, hex8. rewrite hex_from_digits; [f_equal; lia|lia|lia|]. change (16 ^ Z.of_nat 8) with (2 ^ 32). lia. Qed.

(** ** Reading it back *)

Section reads_back.
Context {V : Type} {FE : FsEnv V}.
Abbreviation FS := (Fs V).
Abbreviation CM := (M FS CpioError).
Implicit Types f : FS.

(** What an archive means: its entries placed one after another. *)
Fixpoint place_all (es : list CpioEntry) (stats : Stats) : CM Stats :=
  match es with
  | [] => ret stats
  | e :: es => let! stats := place (ce_name e) (ce_mode e) (ce_mtime e) (ce_data e) stats in place_all es stats
  end.

Lemma bind_done {A B} (m : CM A) (k : A -> CM B) a f : m f = (f, Ok a) -> bind m k f = k a f.
Proof. unfold bind. by intros ->. Qed.
Lemma checked_done hi x f : 0 <= x <= hi -> (checked hi x : CM Z) f = (f, Ok x).
Proof. intros Hx. unfold checked. by replace ((0 <=? x) && (x <=? hi)) with true by lia. Qed.
Lemma slice_done {A} (a b c : list A) i j f : i = len a -> j = len a + len b -> (slice (a ++ b ++ c) i j : CM (list A)) f = (f, Ok b).
Proof.
  intros -> ->. unfold slice. rewrite get_range_prefix by (rewrite ?length_app; lia). replace (len a + len b - len a) with (len b) by lia.
  rewrite !Nat2Z.id, drop_app_length, take_app_length. done.
Qed.
Lemma align4_done x f : 0 <= x <= isize_max -> (align4 x : CM Z) f = (f, Ok (x + (- x) `mod` 4)).
Proof.
  intros Hx. change isize_max with (2 ^ 63 - 1) in Hx. unfold align4. rewrite (bind_done _ _ (x + 3)) by (apply checked_done; unfold u64_max; lia). unfold ret. do 2 f_equal.
  change (Z.lnot 3) with (Z.lnot (Z.ones 2)). rewrite <- Z.ldiff_land, Z.ldiff_ones_r by lia. rewrite Z.shiftl_mul_pow2, Z.shiftr_div_pow2 by lia. change (2 ^ 2) with 4.
  pose proof (Z.div_mod (x + 3) 4 ltac:(lia)). pose proof (Z.mod_pos_bound (x + 3) 4 ltac:(lia)). pose proof (Z.div_mod (- x) 4 ltac:(lia)). pose proof (Z.mod_pos_bound (- x) 4 ltac:(lia)). lia.
Qed.

Lemma header_length e : len (header e) = HEADER_SIZE.
Proof. unfold header. rewrite !length_app. done. Qed.
Lemma pad4_length n : len (pad4 n) = (- n) `mod` 4.
Proof. unfold pad4. rewrite length_replicate. pose proof (Z.mod_pos_bound (- n) 4 ltac:(lia)). lia. Qed.
Lemma encode_length e :
  len (encode e) = (HEADER_SIZE + len (ce_name e) + 1) + (- (HEADER_SIZE + len (ce_name e) + 1)) `mod` 4 + len (ce_data e) + (- len (ce_data e)) `mod` 4.
Proof.
  unfold encode. rewrite !length_app, !Nat2Z.inj_add, header_length, !pad4_length. cbn [length]. lia.
Qed.
Lemma encode_aligned e : len (encode e) `mod` 4 = 0.
Proof. rewrite encode_length. pose proof (Z.div_mod (- (HEADER_SIZE + len (ce_name e) + 1)) 4). pose proof (Z.div_mod (- len (ce_data e)) 4). lia. Qed.

(** The fields of a header. *)
Lemma header_fields e f :
  (slice (header e) 0 6 : CM _) f = (f, Ok MAGIC) /\ (slice (header e) 14 22 : CM _) f = (f, Ok (hex8 (ce_mode e))) /\
  (slice (header e) 46 54 : CM _) f = (f, Ok (hex8 (ce_mtime e))) /\ (slice (header e) 54 62 : CM _) f = (f, Ok (hex8 (len (ce_data e)))) /\
  (slice (header e) 94 102 : CM _) f = (f, Ok (hex8 (len (ce_name e) + 1))).
Proof. repeat split. Qed.

(** The header of the entry at [pos], read. *)
Lemma turn_header {A} (k : list Z -> CM A) pre e rest f :
  len (pre ++ encode e ++ rest) <= isize_max ->
  bind (slice (pre ++ encode e ++ rest) (len pre) (len pre + HEADER_SIZE)) k f = k (header e) f.
Proof.
  intros Hlen. apply bind_done. unfold encode. rewrite <- !app_assoc. apply slice_done; [done|]. by rewrite header_length.
Qed.

Lemma turn_name pre e rest f :
  (slice (pre ++ encode e ++ rest) (len pre + HEADER_SIZE) (len pre + HEADER_SIZE + len (ce_name e)) : CM _) f = (f, Ok (ce_name e)).
Proof.
  unfold encode. rewrite <- !app_assoc. rewrite (app_assoc pre). apply slice_done; rewrite length_app, Nat2Z.inj_add, header_length; lia.
Qed.

Lemma turn_data pre e rest f :
  let start := len pre + (HEADER_SIZE + len (ce_name e) + 1) + (- (HEADER_SIZE + len (ce_name e) + 1)) `mod` 4 in
  (slice (pre ++ encode e ++ rest) start (start + len (ce_data e)) : CM _) f = (f, Ok (ce_data e)).
Proof.
  cbn zeta. unfold encode. rewrite <- !app_assoc. rewrite (app_assoc pre), (app_assoc (pre ++ header e)), (app_assoc ((pre ++ header e) ++ ce_name e)),
    (app_assoc (((pre ++ header e) ++ ce_name e) ++ [0])).
  apply slice_done; rewrite !length_app, !Nat2Z.inj_add, header_length, pad4_length; cbn [length]; lia.
Qed.

(** One entry is one turn. *)
Lemma turn_is_place stats pre e rest f :
  entry_ok e -> len pre `mod` 4 = 0 -> len (pre ++ encode e ++ rest) <= isize_max ->
  cpio_turn (pre ++ encode e ++ rest) (stats, len pre) f =
  bind (place (ce_name e) (ce_mode e) (ce_mtime e) (ce_data e) stats) (fun stats => ret (inl (stats, len (pre ++ encode e)))) f.
Proof.
  intros [[Hutf Hname] Hmode Hmtime [Hns Hds]] Halign Hlen. pose proof (encode_length e) as Henc. pose proof Hlen as Hbound.
  rewrite !length_app, !Nat2Z.inj_add in Hbound. change HEADER_SIZE with 110 in *. change isize_max with (2 ^ 63 - 1) in *.
  pose proof (Z.mod_pos_bound (- (110 + len (ce_name e) + 1)) 4 ltac:(lia)) as Hm1. pose proof (Z.mod_pos_bound (- len (ce_data e)) 4 ltac:(lia)) as Hm2.
  set (archive := pre ++ encode e ++ rest) in *. assert (len archive = len pre + (len (encode e) + len rest)) as Hal by (unfold archive; rewrite !length_app; lia).
  unfold cpio_turn. change HEADER_SIZE with 110. rewrite (bind_done _ _ (len pre + 110)) by (apply checked_done; unfold u64_max; lia).
  rewrite (proj2 (Z.ltb_ge (len archive) (len pre + 110))) by lia. unfold archive at 1. rewrite turn_header by done. fold archive.
  destruct (header_fields e f) as (F1 & F2 & F3 & F4 & F5). rewrite (bind_done _ _ _ _ F1). rewrite bool_decide_true by done. cbn [negb].
  rewrite (bind_done _ _ _ _ F2), hex_field_hex8 by done. rewrite (bind_done _ _ (ce_mode e)) by done. unfold as_u32. rewrite Z.mod_small by lia.
  rewrite (bind_done _ _ _ _ F3), hex_field_hex8 by done. cbn [default]. rewrite (bind_done _ _ _ _ F4), hex_field_hex8 by lia. rewrite (bind_done _ _ (len (ce_data e))) by done.
  rewrite (bind_done _ _ _ _ F5), hex_field_hex8 by lia. rewrite (bind_done _ _ (len (ce_name e) + 1)) by done.
  rewrite (bind_done _ _ (len pre + 110 + (len (ce_name e) + 1))) by (apply checked_done; unfold u64_max; lia).
  rewrite (proj2 (Z.ltb_ge (len archive) _)) by lia.
  rewrite (bind_done _ _ (len pre + 110 + len (ce_name e))) by (replace (len pre + 110 + (len (ce_name e) + 1) - 1) with (len pre + 110 + len (ce_name e)) by lia; apply checked_done; unfold u64_max; lia).
  rewrite (bind_done _ _ _ _ (turn_name pre e rest f)). rewrite Hutf. rewrite (bind_done _ _ (ce_name e)) by done. rewrite bool_decide_false by done.
  rewrite (bind_done _ _ (110 + len (ce_name e) + 1)) by (replace (110 + (len (ce_name e) + 1)) with (110 + len (ce_name e) + 1) by lia; apply checked_done; unfold u64_max; lia).
  rewrite (bind_done _ _ _ _ (align4_done (110 + len (ce_name e) + 1) f ltac:(change isize_max with (2 ^ 63 - 1); lia))).
  set (skip := 110 + len (ce_name e) + 1 + (- (110 + len (ce_name e) + 1)) `mod` 4) in *.
  rewrite (bind_done _ _ (len pre + skip)) by (apply checked_done; unfold u64_max; lia).
  rewrite (bind_done _ _ (len pre + skip + len (ce_data e))) by (apply checked_done; unfold u64_max; lia).
  rewrite (proj2 (Z.ltb_ge (len archive) _)) by lia.
  pose proof (turn_data pre e rest f) as Hdata. cbn zeta in Hdata. change HEADER_SIZE with 110 in Hdata.
  replace (len pre + (110 + len (ce_name e) + 1) + (- (110 + len (ce_name e) + 1)) `mod` 4) with (len pre + skip) in Hdata by lia.
  rewrite (bind_done _ _ _ _ Hdata). unfold bind at 1 3. destruct (place _ _ _ _ stats f) as [f' [s|er|w]]; [|done..].
  rewrite (bind_done _ _ (len (pre ++ encode e))); [done|]. rewrite align4_done by (change isize_max with (2 ^ 63 - 1); lia). do 2 f_equal.
  rewrite length_app, Nat2Z.inj_add. pose proof (encode_aligned e) as Hea. 
  assert ((- (len pre + skip + len (ce_data e))) `mod` 4 = (- len (ce_data e)) `mod` 4); [|lia].
  assert ((len pre + skip) `mod` 4 = 0) as H0. { rewrite <- Z.add_mod_idemp_l, Halign by lia. unfold skip. pose proof (Z.div_mod (- (110 + len (ce_name e) + 1)) 4). lia. }
  replace (- (len pre + skip + len (ce_data e))) with (- len (ce_data e) + (- ((len pre + skip) / 4)) * 4); [apply Z.mod_add; lia|].
  pose proof (Z.div_mod (len pre + skip) 4). lia.
Qed.

(** The entry that ends an archive. *)
Lemma turn_trailer stats pre f : len (pre ++ trailer) <= isize_max -> cpio_turn (pre ++ trailer) (stats, len pre) f = (f, Ok (inr stats)).
Proof.
  intros Hlen. set (e := mkCpioEntry (str "TRAILER!!!") 0 0 []). change trailer with (encode e) in *. rewrite <- (app_nil_r (encode e)) in Hlen |- *.
  pose proof (encode_length e) as Henc. assert (len (encode e) = 124) as H124 by reflexivity. pose proof Hlen as Hbound.
  rewrite !length_app, !Nat2Z.inj_add in Hbound. change isize_max with (2 ^ 63 - 1) in *. cbn [length] in Hbound.
  set (archive := pre ++ encode e ++ []) in *. assert (len archive = len pre + 124) as Hal by (unfold archive; rewrite !length_app; cbn [length]; lia).
  unfold cpio_turn. rewrite (bind_done _ _ (len pre + HEADER_SIZE)) by (apply checked_done; unfold HEADER_SIZE, u64_max; lia).
  rewrite (proj2 (Z.ltb_ge (len archive) (len pre + HEADER_SIZE))) by (unfold HEADER_SIZE; lia). unfold archive at 1. rewrite turn_header by done. fold archive.
  destruct (header_fields e f) as (F1 & F2 & F3 & F4 & F5). rewrite (bind_done _ _ _ _ F1). rewrite bool_decide_true by done. cbn [negb].
  rewrite (bind_done _ _ _ _ F2), (bind_done _ _ 0) by done. rewrite (bind_done _ _ _ _ F3), (bind_done _ _ _ _ F4), (bind_done _ _ 0) by done.
  rewrite (bind_done _ _ _ _ F5), (bind_done _ _ 11) by done. rewrite (bind_done _ _ (len pre + HEADER_SIZE + 11)) by (apply checked_done; unfold HEADER_SIZE, u64_max; lia).
  rewrite (proj2 (Z.ltb_ge (len archive) _)) by (unfold HEADER_SIZE; lia).
  rewrite (bind_done _ _ (len pre + HEADER_SIZE + 10)) by (replace (len pre + HEADER_SIZE + 11 - 1) with (len pre + HEADER_SIZE + 10) by lia; apply checked_done; unfold HEADER_SIZE, u64_max; lia).
  rewrite (bind_done _ _ _ _ (turn_name pre e [] f)). by rewrite (bind_done _ _ (str "TRAILER!!!")).
Qed.

Lemma loop_reads_back es stats pre f fuel :
  Forall entry_ok es -> len pre `mod` 4 = 0 -> len (pre ++ archive_of es) <= isize_max -> (length es < fuel)%nat ->
  loop fuel (cpio_turn (pre ++ archive_of es)) (stats, len pre) f = place_all es stats f.
Proof.
  intros Hes. revert stats pre f fuel. induction Hes as [|e es He Hes IH]; intros stats pre f fuel Ha Hlen Hfuel; (destruct fuel as [|fuel]; [cbn in Hfuel; lia|]).
  - change (archive_of []) with trailer in *. cbn [loop]. by rewrite (bind_done _ _ _ _ (turn_trailer stats pre f Hlen)).
  - assert (archive_of (e :: es) = encode e ++ archive_of es) as Harc by (unfold archive_of; cbn; by rewrite <- app_assoc). rewrite Harc in *. cbn [loop place_all].
    unfold bind at 1. rewrite turn_is_place by done. unfold bind. destruct (place _ _ _ _ stats f) as [f' [s|er|w]]; [|done..]. cbn [ret].
    rewrite app_assoc. apply IH; [|by rewrite <- app_assoc|cbn in Hfuel; lia].
    rewrite length_app, Nat2Z.inj_add, <- Z.add_mod_idemp_l, Ha, Z.add_0_l by lia. apply encode_aligned.
Qed.

(** C21: An archive is read back as it was written: unpacking the entries a newc archive
    was made of, then its trailer, places exactly those entries, in order, with
    their names, modes, times and contents, and then makes the standard directories
    there are not. *)
Theorem extract_reads_back es f :
  Forall entry_ok es -> len (archive_of es) <= isize_max ->
  extract (archive_of es) f =
  (let! stats := place_all es no_stats in
   mapM_ (fun dir =>
     let! found := map_err (fun _ => MkdirFailed) (try_ (lookup_path dir)) in
     match found with inl _ => ret tt | inr _ => ignore (mkdir_p dir) end) standard_dirs ;;;
   ret stats) f.
Proof.
  intros Hes Hlen. unfold extract. unfold bind at 1. unfold bind at 4.
  assert (length es <= length (archive_of es))%nat as Hfuel.
  { unfold archive_of. rewrite length_app. clear -Hes. induction Hes as [|e es _ _ IH]; cbn [fmap list_fmap concat length]; [lia|].
    rewrite length_app. pose proof (header_length e) as Hh. unfold encode at 1. rewrite length_app. unfold HEADER_SIZE in Hh. lia. }
  pose proof (loop_reads_back es no_stats [] f (S (length (archive_of es))) Hes) as H. cbn [app length] in H. change (Z.of_nat 0) with 0 in H. rewrite H by (done || lia). done.
Qed.

(** An archive whose first header says that its name has no bytes, not even the zero
    at its end. *)
Definition no_name : list Z := MAGIC ++ concat (replicate 13 (hex8 0)).

(** A header that counts no byte for the name, where there should be one for the
    zero that ends it, is not refused: the range of the name is taken from its start
    to before its start, which is a panic. *)
Theorem empty_name_panics f : snd (extract no_name f) = Stuck Panic.
Proof. reflexivity. Qed.
End reads_back.
