(* ===== verification/Boot.v ===== *)
(** * The boot sector, its BIOS parameter block, and FSInfo

    [kernel/src/storage/fat/boot.rs]: where things are in a FAT32 volume, read
    off its boot sector and checked, and the two hints FSInfo carries. *)

From S2P Require Import Prelude Bytes.

Definition MIN_CLUSTERS : Z := 65525.
Definition MAX_CLUSTERS : Z := 0x0FFFFFF5.
Definition EXTENDED_BOOT_SIGNATURE : Z := 0x29.
Definition LINUX_STATE : Z := 65.
Definition LINUX_STATE_DIRTY : Z := 0x01.
Definition FSI_LEAD_SIG : Z := 0x41615252.
Definition FSI_STRUC_SIG : Z := 0x61417272.
Definition FSI_TRAIL_SIG : Z := 0xAA550000.
Definition FSI_FREE_COUNT : Z := 488.
Definition FSI_NXT_FREE : Z := 492.
Definition FSI_UNKNOWN : Z := 0xFFFFFFFF.

Record Layout := mkLayout {
  sectors : Z;
  cluster_blocks : Z;
  cluster_bytes : Z;
  fat_start : Z;
  fat_blocks : Z;
  fats : Z;
  data_start : Z;
  clusters : Z;
  root_cluster : Z;
  fsinfo : option Z;
  active_fat : option Z;
}.

Definition is_cluster (l : Layout) (cluster : Z) : bool :=
  (2 <=? cluster) && (cluster - 2 <? clusters l).

Section layout.
Context {S E : Type}.

Definition cluster_offset (l : Layout) (cluster : Z) : M S E (option Z) :=
  if negb (is_cluster l cluster) then ret None
  else
    let! block := u64 (data_start l + (cluster - 2) * cluster_blocks l) in
    let! offset := u64 (block * BLOCK) in
    ret (Some offset).

Definition fat_offset (l : Layout) (copy entry : Z) : M S E Z :=
  u64 ((fat_start l + copy * fat_blocks l) * BLOCK + entry * 4).

(** The range of copies, as the list of its members. *)
Definition written_copies (l : Layout) : M S E (list Z) :=
  match active_fat l with
  | Some copy => let! stop := u32 (copy + 1) in ret (seqZ copy (stop - copy))
  | None => ret (seqZ 0 (fats l))
  end.
End layout.

Definition read_copy (l : Layout) : Z := default 0 (active_fat l).

Definition QUESTION : Z := 63.

Definition label_text (raw : list Z) : option (list Z) :=
  match rposition (fun b => negb (b =? 32) && negb (b =? 0)) raw with
  | None => None
  | Some stop =>
      Some ((fun b => if (0x20 <=? b) && (b <? 0x7F) then b else QUESTION) <$> take (Datatypes.S stop) raw)
  end.

Definition bytes_at (n : Z) (sector : list Z) (at_ : Z) : option (list Z) :=
  get_range sector at_ (at_ + n).

Definition SIGNATURE : list Z := [0x55; 0xAA].

Definition looks_like_boot_sector (sector : list Z) : bool :=
  let signature := bool_decide (bytes_at 2 sector 510 = Some SIGNATURE) in
  let jump := match head sector with Some b => (b =? 0xEB) || (b =? 0xE9) | None => false end in
  let fat32 := bool_decide (bytes_at 8 sector 82 = Some (str "FAT32   ")) in
  let fat16 := match bytes_at 8 sector 54 with
               | Some t => starts_with t (str "FAT12") || starts_with t (str "FAT16")
                           || starts_with t (str "FAT  ")
               | None => false
               end in
  let exfat := bool_decide (bytes_at 8 sector 3 = Some (str "EXFAT   ")) in
  signature && jump && (fat32 || fat16 || exfat).

(** Why a volume is not mounted: one constructor per message of [parse] and
    [probe], with the numbers the message shows. *)
Inductive Kind := FAT12 | FAT16 | FatFields.
Inductive BootError :=
| NoSignature
| ExFat
| SectorSize (size : Z)
| SectorsPerCluster (per_cluster : Z)
| NoReserved
| FatCount (fats : Z)
| NotFat32 (kind : Kind) (clusters : Z)
| BadMedia (media : Z)
| BadVersion (version : Z)
| EmptyFat
| TooManySectors (total blocks : Z)
| FatsDoNotFit
| TooManyClusters (clusters : Z)
| FatTooSmall (fat_32 clusters : Z)
| BadRootCluster (root_cluster : Z)
| BadActiveFat (copy fats : Z)
| BootReadFailed
| RootReadFailed.

Definition is_power_of_two (x : Z) : bool := (0 <? x) && (x =? 2 ^ Z.log2 x).

(** [bytes_at::<1>(sector, at).map_or(0, |[b]| b)]. *)
Definition byte_at (sector : list Z) (at_ : Z) : Z :=
  match bytes_at 1 sector at_ with Some [b] => b | _ => 0 end.

(** [if cond { return Err(e) }]. *)
Definition refuse {S E} (cond : bool) (e : E) : M S E unit := if cond then throw e else ret tt.

Definition parse {S} (sector : list Z) (blocks : Z) : M S BootError Layout :=
  refuse (negb (bool_decide (bytes_at 2 sector 510 = Some SIGNATURE))) NoSignature ;;;
  refuse (bool_decide (bytes_at 8 sector 3 = Some (str "EXFAT   "))) ExFat ;;;
  let sector_size := le16 sector 11 in
  let per_cluster := byte_at sector 13 in
  let reserved := le16 sector 14 in
  let fats := byte_at sector 16 in
  let root_entries := le16 sector 17 in
  let sectors_16 := le16 sector 19 in
  let media := byte_at sector 21 in
  let fat_16 := le16 sector 22 in
  let sectors_32 := le32 sector 32 in
  let fat_32 := le32 sector 36 in
  let ext_flags := le16 sector 40 in
  let version := le16 sector 42 in
  let root_cluster := le32 sector 44 in
  let fsinfo := le16 sector 48 in
  refuse (negb (sector_size =? BLOCK)) (SectorSize sector_size) ;;;
  refuse ((per_cluster =? 0) || negb (is_power_of_two per_cluster)) (SectorsPerCluster per_cluster) ;;;
  refuse (reserved =? 0) NoReserved ;;;
  refuse (negb ((1 <=? fats) && (fats <=? 2))) (FatCount fats) ;;;
  let fat_size := if negb (fat_16 =? 0) then fat_16 else fat_32 in
  let total := if negb (sectors_16 =? 0) then sectors_16 else sectors_32 in
  let! root_bytes := u64 (root_entries * 32) in
  let root_sectors := div_ceil root_bytes BLOCK in
  let! data_start := u64 (reserved + fats * fat_size + root_sectors) in
  let clusters := saturating_sub total data_start / per_cluster in
  refuse (negb (root_entries =? 0) || negb (fat_16 =? 0) || negb (sectors_16 =? 0)
          || (clusters <? MIN_CLUSTERS))
    (NotFat32 (if clusters <? 4085 then FAT12 else if clusters <? MIN_CLUSTERS then FAT16 else FatFields)
       clusters) ;;;
  refuse (negb (media =? 0xF0) && (media <? 0xF8)) (BadMedia media) ;;;
  refuse (negb (version =? 0)) (BadVersion version) ;;;
  refuse (fat_32 =? 0) EmptyFat ;;;
  refuse (blocks <? total) (TooManySectors total blocks) ;;;
  refuse (total <=? data_start) FatsDoNotFit ;;;
  refuse (MAX_CLUSTERS <? clusters) (TooManyClusters clusters) ;;;
  let! entries := u64 (fat_32 * (BLOCK / 4)) in
  let! needed := u64 (clusters + 2) in
  refuse (entries <? needed) (FatTooSmall fat_32 clusters) ;;;
  refuse ((root_cluster <? 2) || (needed <=? root_cluster)) (BadRootCluster root_cluster) ;;;
  let active_fat := if negb (Z.land ext_flags 0x80 =? 0) then Some (Z.land ext_flags 0x0F) else None in
  match active_fat with
  | Some copy => refuse (fats <=? copy) (BadActiveFat copy fats)
  | None => ret tt
  end ;;;
  let fsinfo := if (1 <=? fsinfo) && (fsinfo <? reserved) then Some (as_u32 fsinfo) else None in
  let! bytes := u64 (per_cluster * BLOCK) in
  ret (mkLayout (as_u32 total) (as_u32 per_cluster) (as_u32 bytes) (as_u32 reserved) (as_u32 fat_32)
         (as_u32 fats) (as_u32 data_start) (as_u32 clusters) root_cluster fsinfo (as_u32 <$> active_fat)).

Record Probe := mkProbe {
  layout_of : Layout;
  boot_label : option (list Z);
  root_label : option (list Z);
}.

Definition labelled (p : Probe) (label : list Z) : bool :=
  existsb (fun found => match found with Some found => eq_ignore_ascii_case found label | None => false end)
    [boot_label p; root_label p].

Definition label (p : Probe) : list Z :=
  match root_label p with
  | Some l => l
  | None => match boot_label p with Some l => l | None => str "(no label)" end
  end.

(** The search of [probe] through the 32-byte entries of the root directory's
    first cluster. *)
Fixpoint find_root_label (entries : list (list Z)) : option (list Z) :=
  match entries with
  | [] => None
  | raw :: entries =>
      let name := default 0 (head raw) in
      let attributes := default 0 (get raw 11) in
      if name =? 0 then None
      else if negb (name =? 0xE5) && negb (Z.land attributes 0x3F =? 0x0F) && negb (Z.land attributes 0x08 =? 0)
      then match get_range raw 0 11 with Some name => label_text name | None => None end
      else find_root_label entries
  end.

Section probe.
Context {B : Type} `{!Blocks B}.

Definition device_read_or (block len : Z) (e : BootError) : M B BootError (list Z) :=
  let! data := state (fun b => blk_read b block len) in ok_or data e.

Definition probe : M B BootError Probe :=
  let! sector := device_read_or 0 BLOCK BootReadFailed in
  let! count := gets blk_count in
  let! layout := parse sector count in
  let boot_label :=
    if bool_decide (bytes_at 1 sector 66 = Some [EXTENDED_BOOT_SIGNATURE])
    then match get_range sector 71 82 with Some raw => label_text raw | None => None end
    else None in
  let! offset := cluster_offset layout (root_cluster layout) in
  let first := default 0 offset / BLOCK in
  let! root := device_read_or first (cluster_bytes layout) RootReadFailed in
  ret (mkProbe layout boot_label (find_root_label (chunks_exact 32 root))).
End probe.

Definition fsinfo_hints (sector : list Z) : option (Z * Z) :=
  if negb (le32 sector 0 =? FSI_LEAD_SIG) || negb (le32 sector 484 =? FSI_STRUC_SIG)
     || negb (le32 sector 508 =? FSI_TRAIL_SIG)
  then None
  else Some (le32 sector FSI_FREE_COUNT, le32 sector FSI_NXT_FREE).

Definition set_fsinfo_hints (sector : list Z) (free next : Z) : list Z :=
  put32 (put32 sector FSI_FREE_COUNT free) FSI_NXT_FREE next.
