(* ===== verification/BootSpec.v ===== *)
(** * What a parsed boot sector promises

    The invariant of a [Layout] ([layout_wf]), that [parse] establishes it,
    never panicking, and what it makes safe: the position of every cluster and
    of every FAT entry. *)

From S2P Require Import Prelude Bytes Boot.

(** ** Little-endian fields *)

Definition is_bytes (l : list Z) : Prop := Forall is_u8 l.

Lemma get_range_Some {A} (l : list A) from to part :
  get_range l from to = Some part <->
  0 <= from <= to /\ to <= len l /\ part = take (Z.to_nat (to - from)) (drop (Z.to_nat from) l).
Proof.
  unfold get_range. destruct (_ && _ && _) eqn:E; split; intros H.
  - injection H as <-. repeat split; lia.
  - destruct H as (_ & _ & ->). done.
  - done.
  - lia.
Qed.

Lemma get_range_None {A} (l : list A) from to :
  get_range l from to = None <-> ~ (0 <= from <= to /\ to <= len l).
Proof. unfold get_range. destruct (_ && _ && _) eqn:E; split; intros H; (done || lia). Qed.

Lemma get_range_length {A} (l : list A) from to part :
  get_range l from to = Some part -> len part = to - from.
Proof. rewrite get_range_Some. intros (? & ? & ->). rewrite length_take, length_drop. lia. Qed.

Lemma get_range_Forall {A} (P : A -> Prop) l from to part :
  Forall P l -> get_range l from to = Some part -> Forall P part.
Proof. intros HP (_ & _ & ->)%get_range_Some. by apply Forall_take, Forall_drop. Qed.

Lemma le16_range l at_ : is_bytes l -> 0 <= le16 l at_ <= u16_max.
Proof.
  intros Hl. unfold le16, u16_max. destruct (get_range l at_ (at_ + 2)) as [part|] eqn:E; [|lia].
  pose proof (get_range_Forall _ _ _ _ _ Hl E) as Hp.
  destruct part as [|a [|b [|c part]]]; try lia.
  rewrite !Forall_cons in Hp. unfold is_u8, u8_max in Hp. lia.
Qed.

Lemma le32_range l at_ : is_bytes l -> 0 <= le32 l at_ <= u32_max.
Proof.
  intros Hl. unfold le32, u32_max. destruct (get_range l at_ (at_ + 4)) as [part|] eqn:E; [|lia].
  pose proof (get_range_Forall _ _ _ _ _ Hl E) as Hp.
  destruct part as [|a [|b [|c [|d [|e part]]]]]; try lia.
  rewrite !Forall_cons in Hp. unfold is_u8, u8_max in Hp. lia.
Qed.

Lemma byte_at_range l at_ : is_bytes l -> 0 <= byte_at l at_ <= u8_max.
Proof.
  intros Hl. unfold byte_at, bytes_at, u8_max. destruct (get_range l at_ (at_ + 1)) as [part|] eqn:E; [|lia].
  pose proof (get_range_Forall _ _ _ _ _ Hl E) as Hp.
  destruct part as [|a [|b part]]; try lia.
  rewrite !Forall_cons in Hp. unfold is_u8, u8_max in Hp. lia.
Qed.

(** ** The invariant *)

(** [blocks] is the length of the device the volume is on. *)
Record layout_wf (blocks : Z) (l : Layout) : Prop := {
  wf_sectors : 0 < sectors l <= u32_max /\ sectors l <= blocks;
  wf_cluster_blocks : exists k, 0 <= k <= 7 /\ cluster_blocks l = 2 ^ k;
  wf_cluster_bytes : cluster_bytes l = cluster_blocks l * BLOCK;
  wf_fat_start : 1 <= fat_start l <= u16_max;
  wf_fat_blocks : 1 <= fat_blocks l <= u32_max;
  wf_fats : 1 <= fats l <= 2;
  wf_data_start : data_start l = fat_start l + fats l * fat_blocks l;
  wf_data_end : data_start l + clusters l * cluster_blocks l <= sectors l;
  wf_clusters : 1 <= clusters l <= MAX_CLUSTERS;
  wf_entries : clusters l + 2 <= fat_blocks l * 128;
  wf_root : 2 <= root_cluster l < clusters l + 2;
  wf_fsinfo : forall s, fsinfo l = Some s -> 1 <= s < fat_start l;
  wf_active : forall c, active_fat l = Some c -> 0 <= c < fats l;
}.

Lemma is_cluster_iff l c : is_cluster l c = true <-> 2 <= c < clusters l + 2.
Proof. unfold is_cluster. lia. Qed.

Lemma cluster_blocks_cases blocks l :
  layout_wf blocks l -> 1 <= cluster_blocks l <= 128 /\ 512 <= cluster_bytes l <= 65536 /\ cluster_bytes l `mod` 512 = 0.
Proof.
  intros H. destruct (wf_cluster_blocks _ _ H) as (k & Hk & ->). rewrite (wf_cluster_bytes _ _ H).
  destruct (wf_cluster_blocks _ _ H) as (k' & Hk' & ->). unfold BLOCK.
  assert (1 <= 2 ^ k <= 128). { split; [apply (Z.pow_le_mono_r 2 0 k); lia|apply (Z.pow_le_mono_r 2 k 7); lia]. }
  assert (1 <= 2 ^ k' <= 128). { split; [apply (Z.pow_le_mono_r 2 0 k'); lia|apply (Z.pow_le_mono_r 2 k' 7); lia]. }
  lia.
Qed.

(** ** [parse] *)

Lemma wp_refuse {S E} cond (e : E) (Q : S -> unit -> Prop) X s :
  (cond = true -> X s e) -> (cond = false -> Q s tt) -> wp (refuse cond e) Q X s.
Proof. unfold refuse. destruct cond; intros H1 H2; [by apply wp_throw, H1|by apply wp_ret, H2]. Qed.

Lemma is_power_of_two_spec x : is_power_of_two x = true -> 0 < x <= 255 -> exists k, 0 <= k <= 7 /\ x = 2 ^ k.
Proof.
  unfold is_power_of_two. intros H Hx. exists (Z.log2 x). split; [|lia].
  split; [apply Z.log2_nonneg|]. enough (Z.log2 x < 8) by lia. apply Z.log2_lt_pow2; lia.
Qed.

(** The copy of the FAT that is in use is one of those there are. *)
Lemma wp_active_copy {S} (fl fats : Z) (s : S) :
  let active := if negb (Z.land fl 128 =? 0) then Some (Z.land fl 15) else None in 0 <= fl ->
  wp match active with Some copy => refuse (fats <=? copy) (BadActiveFat copy fats) | None => ret tt end
    (fun s' _ => s' = s /\ forall c, active = Some c -> 0 <= c < fats) (fun s' (_ : BootError) => s' = s) s.
Proof.
  cbv zeta. intros Hfl. destruct (negb (Z.land fl 128 =? 0)); [|by apply wp_ret].
  apply wp_refuse; [done|]. intros Hc. split; [done|]. intros c [= <-]. pose proof (Z.land_nonneg fl 15). lia.
Qed.

Lemma parse_spec {S} (sector : list Z) (blocks : Z) (s : S) :
  is_bytes sector ->
  wp (parse sector blocks)
    (fun s' l => s' = s /\ layout_wf blocks l /\ MIN_CLUSTERS <= clusters l) (fun s' _ => s' = s) s.
Proof.
  intros Hb. unfold parse.
  pose proof (byte_at_range sector 13 Hb). pose proof (byte_at_range sector 16 Hb).
  pose proof (le16_range sector 14 Hb). pose proof (le16_range sector 17 Hb).
  pose proof (le16_range sector 22 Hb). pose proof (le32_range sector 32 Hb).
  pose proof (le32_range sector 36 Hb). pose proof (le16_range sector 48 Hb).
  pose proof (le32_range sector 44 Hb). pose proof (le16_range sector 19 Hb).
  pose proof (le16_range sector 40 Hb).
  unfold u8_max, u16_max, u32_max in *.
  repeat (apply wp_bind, wp_refuse; [done|]; intros ?).
  apply wp_bind, wp_checked; [unfold u64_max; lia|].
  apply wp_bind, wp_checked.
  { assert (Hf : forall x, 0 <= x -> 0 <= byte_at sector 16 * x <= 2 * x) by (intros x Hx; nia).
    pose proof (Hf (le16 sector 22)). pose proof (Hf (le32 sector 36)).
    pose proof (div_ceil_spec (le16 sector 17 * 32) BLOCK).
    unfold u64_max, BLOCK in *. destruct (negb (le16 sector 22 =? 0)); lia. }
  repeat (apply wp_bind, wp_refuse; [done|]; intros ?).
  assert (Hz16 : le16 sector 22 = 0) by lia. rewrite Hz16 in *. cbn [Z.eqb negb] in *.
  assert (Hz19 : le16 sector 19 = 0) by lia. rewrite Hz19 in *. cbn [Z.eqb negb] in *.
  assert (Hz17 : le16 sector 17 = 0) by lia. rewrite Hz17 in *. cbn [Z.eqb negb] in *.
  replace (div_ceil (0 * 32) BLOCK) with 0 in * by reflexivity.
  set (data := le16 sector 14 + byte_at sector 16 * le32 sector 36 + 0) in *.
  set (n := saturating_sub (le32 sector 32) data / byte_at sector 13) in *.
  unfold MIN_CLUSTERS, MAX_CLUSTERS in *.
  assert (Hpc : 1 <= byte_at sector 13) by lia.
  assert (Hdata : data = le16 sector 14 + byte_at sector 16 * le32 sector 36) by (unfold data; lia).
  assert (Hn : byte_at sector 13 * n <= le32 sector 32 - data).
  { unfold n, saturating_sub. rewrite Z.max_r by lia. apply Z.mul_div_le. lia. }
  clearbody n data. change (BLOCK / 4) with 128.
  apply wp_bind, wp_checked; [unfold u64_max, BLOCK; lia|].
  apply wp_bind, wp_checked; [unfold u64_max; lia|].
  repeat (apply wp_bind, wp_refuse; [done|]; intros ?).
  apply wp_bind.
  eapply wp_mono; [apply (wp_active_copy (le16 sector 40) (byte_at sector 16) s); lia| |done]. intros s' [] [-> Hact].
  apply wp_bind, wp_checked; [unfold u64_max, BLOCK; lia|].
  apply wp_ret. split; [done|].
  assert (data + n <= le32 sector 32) by nia.
  unfold as_u32. unfold BLOCK in *.
  rewrite !(Z.mod_small _ 4294967296) by lia.
  split; [|cbn; lia]. constructor; cbn; unfold u32_max, u16_max, BLOCK, MAX_CLUSTERS in *; try lia.
  - apply is_power_of_two_spec; [|lia]. destruct (is_power_of_two (byte_at sector 13)); [done|]. cbn [negb] in *. lia.
  - intros x Hx. destruct ((1 <=? le16 sector 48) && (le16 sector 48 <? le16 sector 14)) eqn:Efs; [|done]. injection Hx as <-. lia.
  - intros c Hc. apply fmap_Some in Hc as (c' & Hc' & ->). pose proof (Hact c' Hc'). rewrite Z.mod_small; lia.
Qed.

(** ** Positions *)

Section positions.
Context (blocks : Z) (l : Layout) (Hwf : layout_wf blocks l).

(** The byte offset of a cluster, as a number. *)
Definition cluster_pos (c : Z) : Z := (data_start l + (c - 2) * cluster_blocks l) * BLOCK.
Definition fat_pos (copy entry : Z) : Z := (fat_start l + copy * fat_blocks l) * BLOCK + entry * 4.

Lemma cluster_pos_range c :
  is_cluster l c = true ->
  data_start l * BLOCK <= cluster_pos c /\ cluster_pos c + cluster_bytes l <= sectors l * BLOCK.
Proof.
  intros Hc%is_cluster_iff. unfold cluster_pos. rewrite (wf_cluster_bytes _ _ Hwf).
  pose proof (wf_data_end _ _ Hwf). pose proof (cluster_blocks_cases _ _ Hwf). unfold BLOCK. nia.
Qed.

Lemma fat_pos_range copy entry :
  0 <= copy < fats l -> 0 <= entry < clusters l + 2 ->
  (fat_start l + copy * fat_blocks l) * BLOCK <= fat_pos copy entry /\
  fat_pos copy entry + 4 <= (fat_start l + (copy + 1) * fat_blocks l) * BLOCK.
Proof.
  intros Hcopy He. unfold fat_pos. pose proof (wf_entries _ _ Hwf). unfold BLOCK. nia.
Qed.

Lemma fat_pos_data copy entry :
  0 <= copy < fats l -> 0 <= entry < clusters l + 2 ->
  BLOCK <= fat_pos copy entry /\ fat_pos copy entry + 4 <= data_start l * BLOCK.
Proof.
  intros Hcopy He. pose proof (fat_pos_range copy entry Hcopy He) as [H1 H2].
  pose proof (wf_data_start _ _ Hwf). pose proof (wf_fat_start _ _ Hwf).
  pose proof (wf_fat_blocks _ _ Hwf). unfold BLOCK in *. nia.
Qed.

Lemma fat_pos_disjoint k1 e1 k2 e2 :
  0 <= k1 < fats l -> 0 <= k2 < fats l -> 0 <= e1 < clusters l + 2 -> 0 <= e2 < clusters l + 2 ->
  (k1, e1) <> (k2, e2) -> fat_pos k1 e1 + 4 <= fat_pos k2 e2 \/ fat_pos k2 e2 + 4 <= fat_pos k1 e1.
Proof.
  intros Hk1 Hk2 He1 He2 Hne. pose proof (fat_pos_range k1 e1 Hk1 He1). pose proof (fat_pos_range k2 e2 Hk2 He2).
  pose proof (wf_fat_blocks _ _ Hwf). destruct (Z.lt_total k1 k2) as [Hlt|[Heq|Hlt]].
  - left. unfold BLOCK in *. nia.
  - subst k2. assert (e1 <> e2) by congruence. unfold fat_pos. lia.
  - right. unfold BLOCK in *. nia.
Qed.

Lemma data_start_range : 0 < data_start l < sectors l.
Proof.
  pose proof (wf_data_end _ _ Hwf). pose proof (cluster_blocks_cases _ _ Hwf).
  pose proof (wf_clusters _ _ Hwf). pose proof (wf_data_start _ _ Hwf).
  pose proof (wf_fat_start _ _ Hwf). pose proof (wf_fat_blocks _ _ Hwf). pose proof (wf_fats _ _ Hwf). nia.
Qed.

Lemma read_copy_range : 0 <= read_copy l < fats l.
Proof.
  unfold read_copy. pose proof (wf_fats _ _ Hwf).
  destruct (active_fat l) as [c|] eqn:E; cbn; [by apply (wf_active _ _ Hwf)|lia].
Qed.

Context {S E : Type}.

Lemma wp_cluster_offset c (Q : S -> option Z -> Prop) (X : S -> E -> Prop) s :
  Q s (if is_cluster l c then Some (cluster_pos c) else None) ->
  wp (cluster_offset l c) Q X s.
Proof.
  intros HQ. unfold cluster_offset. destruct (is_cluster l c) eqn:Hc; [|by apply wp_ret].
  pose proof (cluster_pos_range c Hc) as [H1 H2]. apply is_cluster_iff in Hc.
  pose proof (wf_sectors _ _ Hwf). pose proof data_start_range. pose proof (cluster_blocks_cases _ _ Hwf).
  unfold cluster_pos, BLOCK, u32_max in *. cbn [negb].
  apply wp_bind, wp_checked; [unfold u64_max; nia|].
  apply wp_bind, wp_checked; [unfold u64_max; nia|]. by apply wp_ret.
Qed.

Lemma wp_fat_offset copy entry (Q : S -> Z -> Prop) (X : S -> E -> Prop) s :
  0 <= copy < fats l -> 0 <= entry < clusters l + 2 ->
  Q s (fat_pos copy entry) -> wp (fat_offset l copy entry) Q X s.
Proof.
  intros Hcopy He HQ. apply wp_checked; [|done]. fold (fat_pos copy entry).
  pose proof (fat_pos_data copy entry Hcopy He). pose proof data_start_range. pose proof (wf_sectors _ _ Hwf).
  unfold BLOCK, u64_max, u32_max in *. lia.
Qed.

Definition copies : list Z := match active_fat l with Some c => [c] | None => seqZ 0 (fats l) end.

Lemma copies_range : Forall (fun c => 0 <= c < fats l) copies.
Proof.
  unfold copies. destruct (active_fat l) as [c|] eqn:Ea.
  - apply Forall_singleton, (wf_active _ _ Hwf _ Ea).
  - apply Forall_forall. intros c Hc%elem_of_seqZ. lia.
Qed.

Lemma copies_read : read_copy l ∈ copies.
Proof.
  unfold copies, read_copy. pose proof (wf_fats _ _ Hwf). destruct (active_fat l); cbn; [by apply list_elem_of_singleton|].
  apply elem_of_seqZ. lia.
Qed.

Lemma copies_NoDup : NoDup copies.
Proof. unfold copies. destruct (active_fat l); [apply NoDup_singleton|apply NoDup_seqZ]. Qed.

Lemma wp_written_copies (Q : S -> list Z -> Prop) (X : S -> E -> Prop) s :
  Q s copies -> wp (written_copies l) Q X s.
Proof.
  intros HQ. unfold written_copies, copies in *. destruct (active_fat l) as [c|] eqn:Ea; [|by apply wp_ret].
  pose proof (wf_active _ _ Hwf c Ea). pose proof (wf_fats _ _ Hwf).
  apply wp_bind, wp_checked; [unfold u32_max; lia|]. apply wp_ret.
  replace (c + 1 - c) with 1 by lia. rewrite seqZ_cons by lia. rewrite seqZ_nil by lia. done.
Qed.
End positions.

(** ** Probing a device *)

Section probing.
Context {B : Type} `{!Blocks B} `{!BlocksOk B}.

(** [d] is [b] as far as reads tell. *)
Definition same_device (b d : B) : Prop :=
  dev_wf d /\ blk_count d = blk_count b /\ forall x, content d x = content b x.

Lemma wp_device_read_or b d block n e :
  same_device b d -> 0 <= block -> 0 <= n ->
  wp (device_read_or block n e) (fun d' data => same_device b d' /\ is_bytes data) (fun d' _ => same_device b d') d.
Proof.
  intros (Hd & Hc & Hx) Hb Hn. unfold device_read_or. apply wp_bind, wp_state.
  destruct (blk_read d block n) as [d' r] eqn:E. cbn [fst snd].
  destruct (read_frame _ _ _ _ _ Hd Hb Hn E) as (Hd' & Hc' & Hx').
  assert (same_device b d') by (split_and!; [done|congruence|intros x; by rewrite Hx']).
  destruct r as [data|]; [|by apply wp_throw]. apply wp_ret. split; [done|exact (read_bytes _ _ _ _ _ Hd Hb Hn E)].
Qed.

(** [probe] always returns and only reads; what it accepts fits the device. *)
Lemma wp_probe b :
  dev_wf b ->
  wp probe (fun d p => same_device b d /\ layout_wf (blk_count b) (layout_of p)) (fun d _ => same_device b d) b.
Proof.
  intros Hb. unfold probe. apply wp_bind.
  eapply wp_mono; [apply (wp_device_read_or b); [done|unfold BLOCK; lia..]| |done]. intros d1 sector [Hd1 Hs].
  apply wp_bind, wp_gets, wp_bind.
  eapply wp_mono; [apply (parse_spec sector (blk_count d1) d1 Hs)| |by intros d2 e ->]. intros d2 l (-> & Hl & _). cbn zeta.
  apply wp_bind, (wp_cluster_offset _ _ Hl), wp_bind.
  destruct (cluster_blocks_cases _ _ Hl) as (Hcb & _ & _).
  eapply wp_mono; [apply (wp_device_read_or b); [done| |rewrite (wf_cluster_bytes _ _ Hl); unfold BLOCK; lia]| |done].
  - destruct (is_cluster l (root_cluster l)) eqn:Er; cbn; [|done].
    pose proof (cluster_pos_range _ _ Hl _ Er). pose proof (data_start_range _ _ Hl). unfold BLOCK in *. lia.
  - intros d2 root [Hd2 _]. apply wp_ret. split; [done|]. cbn. by destruct Hd1 as (_ & <- & _).
Qed.
End probing.

(** ** The theorems *)

(** C33: [parse] on any sector returns, without a panic, and a layout it returns
    is well formed for the partition it was given and has at least the 65525
    clusters of a FAT32 volume. *)
Theorem parse_wf (sector : list Z) (blocks : Z) :
  is_bytes sector ->
  match parse sector blocks tt with
  | (_, Ok l) => layout_wf blocks l /\ MIN_CLUSTERS <= clusters l
  | (_, Err _) => True
  | (_, Stuck _) => False
  end.
Proof.
  intros Hb. pose proof (parse_spec sector blocks tt Hb) as H. unfold wp in H.
  destruct (parse sector blocks tt) as [s' [l|e|w]]; [apply H|done|done].
Qed.

(** in a well-formed layout every cluster number from 2 to [clusters + 1]
    has a position, every other number has none, and the clusters lie after the
    FATs, inside the partition, and apart from each other. *)
Theorem clusters_disjoint blocks l c1 c2 :
  layout_wf blocks l -> 2 <= c1 < clusters l + 2 -> 2 <= c2 < clusters l + 2 -> c1 <> c2 ->
  (forall c, ~ 2 <= c < clusters l + 2 -> cluster_offset (S:=unit) (E:=FsError) l c tt = (tt, Ok None)) /\
  exists o1 o2,
    cluster_offset (S:=unit) (E:=FsError) l c1 tt = (tt, Ok (Some o1)) /\
    cluster_offset (S:=unit) (E:=FsError) l c2 tt = (tt, Ok (Some o2)) /\
    data_start l * BLOCK <= o1 /\ o1 + cluster_bytes l <= blocks * BLOCK /\
    (o1 + cluster_bytes l <= o2 \/ o2 + cluster_bytes l <= o1).
Proof.
  intros Hwf H1 H2 Hne.
  assert (Hoff : forall c, is_cluster l c = true ->
            cluster_offset (S:=unit) (E:=FsError) l c tt = (tt, Ok (Some (cluster_pos l c)))).
  { intros c Hc.
    pose proof (wp_cluster_offset blocks l Hwf (S:=unit) (E:=FsError) c
                  (fun s r => s = tt /\ r = if is_cluster l c then Some (cluster_pos l c) else None)
                  (fun _ _ => False) tt ltac:(done)) as H. unfold wp in H.
    destruct (cluster_offset l c tt) as [s' [r|e|w]]; [|done|done]. destruct H as [-> ->]. by rewrite Hc. }
  split.
  { intros c Hc. unfold cluster_offset. destruct (is_cluster l c) eqn:E; [|done].
    apply is_cluster_iff in E. lia. }
  exists (cluster_pos l c1), (cluster_pos l c2).
  rewrite !Hoff by (apply is_cluster_iff; lia).
  pose proof (cluster_pos_range _ _ Hwf c1 ltac:(apply is_cluster_iff; lia)) as Hr.
  pose proof (wf_sectors _ _ Hwf). pose proof (cluster_blocks_cases _ _ Hwf) as (Hcb & _ & _).
  repeat split; try (unfold BLOCK in *; lia).
  unfold cluster_pos in *. rewrite (wf_cluster_bytes _ _ Hwf). unfold BLOCK.
  destruct (Z.lt_total c1 c2) as [Hlt|[?|Hlt]]; [left|lia|right]; nia.
Qed.

(** in a well-formed layout the entry of every cluster, and the two reserved
    ones, has a place in every FAT copy: after the boot sector, before the
    first cluster, inside one sector, and apart from every other entry's. *)
Theorem fat_entries_disjoint blocks l k1 e1 k2 e2 :
  layout_wf blocks l -> 0 <= k1 < fats l -> 0 <= k2 < fats l ->
  0 <= e1 < clusters l + 2 -> 0 <= e2 < clusters l + 2 -> (k1, e1) <> (k2, e2) ->
  exists o1 o2,
    fat_offset (S:=unit) (E:=FsError) l k1 e1 tt = (tt, Ok o1) /\
    fat_offset (S:=unit) (E:=FsError) l k2 e2 tt = (tt, Ok o2) /\
    BLOCK <= o1 /\ o1 + 4 <= data_start l * BLOCK /\ o1 / BLOCK = (o1 + 3) / BLOCK /\
    (o1 + 4 <= o2 \/ o2 + 4 <= o1).
Proof.
  intros Hwf Hk1 Hk2 He1 He2 Hne.
  assert (Hoff : forall k e, 0 <= k < fats l -> 0 <= e < clusters l + 2 ->
            fat_offset (S:=unit) (E:=FsError) l k e tt = (tt, Ok (fat_pos l k e))).
  { intros k e Hk He.
    pose proof (wp_fat_offset blocks l Hwf (S:=unit) (E:=FsError) k e
                  (fun s r => s = tt /\ r = fat_pos l k e) (fun _ _ => False) tt Hk He ltac:(done)) as H.
    unfold wp in H. destruct (fat_offset l k e tt) as [s' [r|e'|w]]; [|done|done]. by destruct H as [-> ->]. }
  exists (fat_pos l k1 e1), (fat_pos l k2 e2). rewrite !Hoff by done.
  pose proof (fat_pos_data _ _ Hwf k1 e1 Hk1 He1).
  repeat split; try lia.
  - unfold fat_pos, BLOCK. lia.
  - by apply (fat_pos_disjoint _ _ Hwf).
Qed.
