(* ===== verification/Name.v ===== *)
(** * File names

    [kernel/src/storage/fat/name.rs]: which names FAT can hold, how two names
    are compared, and how a name is stored as a short name and long-name
    entries. *)

From S2P Require Import Prelude Bytes.

Definition MAX_UNITS : Z := 255.
Definition UNITS_PER_ENTRY : Z := 13.
Definition MAX_LONG_ENTRIES : Z := 20.
Definition UNIT_AT : list Z := [1; 3; 5; 7; 9; 14; 16; 18; 20; 22; 24; 28; 30].
Definition LAST_LONG_ENTRY : Z := 0x40.
Definition LOWER_BASE : Z := 0x08.
Definition LOWER_EXT : Z := 0x10.
Definition MAX_TAIL : Z := 999999.
(** [dir::ATTR_LONG_NAME]: read-only, hidden, system and volume ID together. *)
Definition ATTR_LONG_NAME : Z := 0x0F.

Definition PERIOD : Z := 46.
Definition SPACE : Z := 32.
Definition UNDERSCORE : Z := 95.
Definition TILDE : Z := 126.

(** [trim_end_matches('.')]. *)
Definition key (name : list Z) : list Z :=
  match rposition (fun c => negb (c =? PERIOD)) name with
  | Some i => take (S i) name
  | None => []
  end.

Definition same (a b : list Z) : bool := eq_ignore_ascii_case (key a) (key b).

(** [char::len_utf16]. *)
Definition char_len_utf16 (c : Z) : Z := if c <? 0x10000 then 1 else 2.
Definition utf16_len (s : list Z) : Z := foldr (fun c n => char_len_utf16 c + n) 0 s.

(** The characters [check] refuses: below 0x20, and * ? < > | quote : / and the
    backslash. *)
Definition bad_char (c : Z) : bool :=
  (c <? 0x20) || existsb (Z.eqb c) [42; 63; 60; 62; 124; 34; 58; 47; 92].

Definition check (name : list Z) : result FsError (list Z) :=
  let kept := key name in
  if MAX_UNITS <? utf16_len kept then Err NameTooLong
  else if bool_decide (kept = []) || bool_decide (last kept = Some SPACE) then Err BadName
  else if existsb bad_char kept then Err BadName
  else Ok kept.

(** [u8::rotate_right(1)]. *)
Definition rotate_right1 (x : Z) : Z := x / 2 + (x `mod` 2) * 128.

Definition checksum (short : list Z) : Z :=
  foldl (fun sum byte => (rotate_right1 sum + byte) `mod` 256) 0 short.

Definition is_ascii_uppercase (b : Z) : bool := (65 <=? b) && (b <=? 90).
Definition is_ascii_digit (b : Z) : bool := (48 <=? b) && (b <=? 57).

(** Upper-case letters, digits and ! # $ %% & ' ( ) - @ ^ _ ` { } ~ *)
Definition short_char (byte : Z) : bool :=
  is_ascii_uppercase byte || is_ascii_digit byte
  || existsb (Z.eqb byte) [33; 35; 36; 37; 38; 39; 40; 41; 45; 64; 94; 95; 96; 123; 125; 126].

(** Every byte of a character outside ASCII is 0x80 or more, which
    [short_char] refuses as it does the character itself. *)
Definition exact_short (name : list Z) : option (list Z) :=
  match (match rsplit_once PERIOD name with
         | Some (base, ext) => if bool_decide (ext = []) then None else Some (base, ext)
         | None => Some (name, [])
         end) with
  | None => None
  | Some (base, ext) =>
      if bool_decide (base = []) || (8 <? utf8_len base) || (3 <? utf8_len ext)
         || existsb (Z.eqb PERIOD) base
      then None
      else if negb (forallb short_char (base ++ ext)) then None
      else Some (put_bytes (put_bytes (replicate 11 SPACE) 0 base) 8 ext)
  end.

Definition CP437_HIGH : list Z :=
  [0xC7; 0xFC; 0xE9; 0xE2; 0xE4; 0xE0; 0xE5; 0xE7; 0xEA; 0xEB; 0xE8; 0xEF; 0xEE; 0xEC; 0xC4; 0xC5;
   0xC9; 0xE6; 0xC6; 0xF4; 0xF6; 0xF2; 0xFB; 0xF9; 0xFF; 0xD6; 0xDC; 0xA2; 0xA3; 0xA5; 0x20A7; 0x192;
   0xE1; 0xED; 0xF3; 0xFA; 0xF1; 0xD1; 0xAA; 0xBA; 0xBF; 0x2310; 0xAC; 0xBD; 0xBC; 0xA1; 0xAB; 0xBB;
   0x2591; 0x2592; 0x2593; 0x2502; 0x2524; 0x2561; 0x2562; 0x2556; 0x2555; 0x2563; 0x2551; 0x2557; 0x255D; 0x255C; 0x255B; 0x2510;
   0x2514; 0x2534; 0x252C; 0x251C; 0x2500; 0x253C; 0x255E; 0x255F; 0x255A; 0x2554; 0x2569; 0x2566; 0x2560; 0x2550; 0x256C; 0x2567;
   0x2568; 0x2564; 0x2565; 0x2559; 0x2558; 0x2552; 0x2553; 0x256B; 0x256A; 0x2518; 0x250C; 0x2588; 0x2584; 0x258C; 0x2590; 0x2580;
   0x3B1; 0xDF; 0x393; 0x3C0; 0x3A3; 0x3C3; 0xB5; 0x3C4; 0x3A6; 0x398; 0x3A9; 0x3B4; 0x221E; 0x3C6; 0x3B5; 0x2229;
   0x2261; 0xB1; 0x2265; 0x2264; 0x2320; 0x2321; 0xF7; 0x2248; 0xB0; 0x2219; 0xB7; 0x221A; 0x207F; 0xB2; 0x25A0; 0xA0].

Definition oem_char (byte : Z) (lower : bool) : option Z :=
  if (byte <=? 0x1F) || (byte =? SLASH) then None
  else if byte <=? 0x7F then Some (if lower then to_ascii_lowercase byte else byte)
  else get CP437_HIGH (byte - 0x80).

(** [iter().rposition(|b| b != b' ').map_or(0, |p| p + 1)]. *)
Definition padded_len (l : list Z) : nat :=
  match rposition (fun b => negb (b =? SPACE)) l with Some p => S p | None => O end.

Definition DOT_NAME : list Z := [PERIOD].
Definition DOTDOT_NAME : list Z := [PERIOD; PERIOD].

Definition shown (short : list Z) (lower : Z) : option (list Z) :=
  let base := match take 8 short with
              | b0 :: rest => (if b0 =? 0x05 then 0xE5 else b0) :: rest
              | [] => []
              end in
  let ext := drop 8 short in
  let base_len := padded_len base in
  let ext_len := padded_len ext in
  if (base_len =? 0)%nat then None
  else
    match mapM (fun byte => oem_char byte (negb (Z.land lower LOWER_BASE =? 0))) (take base_len base) with
    | None => None
    | Some out =>
        match (if (0 <? ext_len)%nat
               then (fun e => out ++ [PERIOD] ++ e) <$>
                      mapM (fun byte => oem_char byte (negb (Z.land lower LOWER_EXT =? 0))) (take ext_len ext)
               else Some out) with
        | None => None
        | Some out => if bool_decide (out = DOT_NAME) || bool_decide (out = DOTDOT_NAME) then None else Some out
        end
    end.

Record Basis := mkBasis { base : list Z; base_len : Z; ext : list Z; ext_len : Z }.

Definition basis_byte (c : Z) : option Z :=
  if (c =? SPACE) || (c =? PERIOD) then None
  else
    let upper := to_ascii_uppercase c in
    if is_ascii upper && short_char upper then Some upper else Some UNDERSCORE.

(** The loop that fills the slots of [base] and of [ext] until they run out. *)
Definition fill_basis (room : nat) (part : list Z) : list Z * Z :=
  let kept := take room (omap basis_byte part) in
  (put_bytes (replicate room SPACE) 0 kept, len kept).

Definition basis (name : list Z) : Basis :=
  let '(base_part, ext_part) :=
    match rsplit_once PERIOD name with
    | Some (before, after) =>
        if existsb (fun c => negb (c =? PERIOD) && negb (c =? SPACE)) before then (before, after) else (name, [])
    | None => (name, [])
    end in
  let '(base, base_len) := fill_basis 8 base_part in
  let '(ext, ext_len) := fill_basis 3 ext_part in
  if base_len =? 0 then mkBasis [UNDERSCORE; SPACE; SPACE; SPACE; SPACE; SPACE; SPACE; SPACE] 1 ext ext_len
  else mkBasis base base_len ext ext_len.

(** The digits of [value], the last first: the loop of [with_tail], which ends
    when nothing is left or its seven slots are full. *)
Fixpoint tail_digits (room : nat) (value : Z) : list Z :=
  match room with
  | O => []
  | S room => (48 + value `mod` 10) :: (if value / 10 =? 0 then [] else tail_digits room (value / 10))
  end.

Definition with_tail (b : Basis) (n : Z) : list Z :=
  let digits := tail_digits 7 n in
  let keep := Z.min (base_len b) (saturating_sub 8 (len digits + 1)) in
  let short := put_bytes (replicate 11 SPACE) 0 (take (Z.to_nat keep) (base b) ++ [TILDE] ++ reverse digits) in
  put_bytes short 8 (take (Z.to_nat (ext_len b)) (ext b)).

(** [(1..=MAX_TAIL).map(with_tail).find(!taken)], from [n] on. *)
Fixpoint find_tail (fuel : nat) (b : Basis) (taken : list Z -> bool) (n : Z) : option (list Z) :=
  match fuel with
  | O => None
  | S fuel => let short := with_tail b n in
              if taken short then find_tail fuel b taken (n + 1) else Some short
  end.

Definition short_name (name : list Z) (taken : list Z -> bool) : option (list Z * bool) :=
  match exact_short name with
  | Some short => if taken short then None else Some (short, false)
  | None => None
  end ∪
  (if forallb is_ascii name then
     match exact_short (to_ascii_uppercase <$> name) with
     | Some short => if taken short then None else Some (short, true)
     | None => None
     end
   else None) ∪
  ((fun short => (short, true)) <$> find_tail (Z.to_nat MAX_TAIL) (basis name) taken 1).

(** The unit of index [i] in the entries of a name of [units]. *)
Definition unit_at (units : list Z) (i : nat) : Z :=
  match units !! i with
  | Some unit => unit
  | None => if (i =? length units)%nat then 0x0000 else 0xFFFF
  end.

Fixpoint put_units (entry : list Z) (units : list Z) (start : nat) (ats : list Z) : list Z :=
  match ats with
  | [] => entry
  | at_ :: ats => put_units (put16 entry at_ (unit_at units start)) units (S start) ats
  end.

Definition long_entry (units : list Z) (checksum : Z) (count ord : Z) : list Z :=
  let flag := if ord =? count then LAST_LONG_ENTRY else 0 in
  let entry := replicate 32 0 in
  let entry := put8 entry 0 (Z.lor (as_u8 ord) flag) in
  let entry := put8 entry 11 ATTR_LONG_NAME in
  let entry := put8 entry 13 checksum in
  put_units entry units (Z.to_nat ((ord - 1) * UNITS_PER_ENTRY)) UNIT_AT.

Definition long_entries (units : list Z) (checksum : Z) : list (list Z) :=
  let count := Z.min (div_ceil (len units) UNITS_PER_ENTRY) MAX_LONG_ENTRIES in
  long_entry units checksum count <$> reverse (seqZ 1 count).

Definition entry_units (entry : list Z) : list Z := le16 entry <$> UNIT_AT.

(** [char::encode_utf16] and [str::encode_utf16]. *)
Definition encode_char (c : Z) : list Z :=
  if c <? 0x10000 then [c]
  else [0xD800 + (c - 0x10000) / 0x400; 0xDC00 + (c - 0x10000) `mod` 0x400].
Definition encode_utf16 (s : list Z) : list Z := s ≫= encode_char.

(** [char::decode_utf16], with nothing for an unpaired surrogate. *)
Fixpoint decode_utf16 (units : list Z) : option (list Z) :=
  match units with
  | [] => Some []
  | u :: rest =>
      if (u <? 0xD800) || (0xDFFF <? u) then cons u <$> decode_utf16 rest
      else if 0xDC00 <=? u then None
      else match rest with
           | v :: rest =>
               if (0xDC00 <=? v) && (v <=? 0xDFFF)
               then cons (0x10000 + (u - 0xD800) * 0x400 + (v - 0xDC00)) <$> decode_utf16 rest
               else None
           | [] => None
           end
  end.

Definition from_units (units : list Z) : option (list Z) :=
  match decode_utf16 units with
  | None => None
  | Some out =>
      if existsb (fun c => (c =? SLASH) || (c =? 0)) out then None
      else if bool_decide (out = []) || bool_decide (out = DOT_NAME) || bool_decide (out = DOTDOT_NAME) then None
      else Some out
  end.
