(* ===== verification/Cache.v ===== *)
(** * The block cache

    [kernel/src/storage/fat/cache.rs]: the volume addressed as bytes, over a
    device that moves whole blocks. The invariant of the cache and what each
    operation does to the bytes of the volume are in [CacheSpec]. *)

From S2P Require Import Prelude Bytes.

Definition CACHE_BLOCKS : Z := 8192.
Definition DIRECT_MAX : Z := 256.

Record Slot := mkSlot { sblock : Z; sdata : list Z; sdirty : bool; sused : bool }.

Record Cache (B : Type) := mkCache {
  blocks : B;
  slots : list Slot;
  index : gmap Z nat;
  hand : nat;
  cwritable : bool;
}.
Arguments mkCache {B}.
Arguments blocks {B}.
Arguments slots {B}.
Arguments index {B}.
Arguments hand {B}.
Arguments cwritable {B}.

Definition set_used (used : bool) (s : Slot) : Slot := mkSlot (sblock s) (sdata s) (sdirty s) used.
Definition set_dirty (dirty : bool) (s : Slot) : Slot := mkSlot (sblock s) (sdata s) dirty (sused s).
Definition set_data (data : list Z) (dirty : bool) (s : Slot) : Slot := mkSlot (sblock s) data dirty (sused s).

Section cache.
Context {B : Type} `{!Blocks B}.
Implicit Types c : Cache B.

Definition with_blocks (b : B) c : Cache B := mkCache b (slots c) (index c) (hand c) (cwritable c).
Definition with_slots (sl : list Slot) c : Cache B := mkCache (blocks c) sl (index c) (hand c) (cwritable c).
Definition with_index (ix : gmap Z nat) c : Cache B := mkCache (blocks c) (slots c) ix (hand c) (cwritable c).
Definition with_hand (h : nat) c : Cache B := mkCache (blocks c) (slots c) (index c) h (cwritable c).

(** [Cache::new]. *)
Definition new_cache (b : B) : Cache B := mkCache b [] ∅ O false.

Definition cache_bytes c : Z := saturating_mul64 (blk_count (blocks c)) BLOCK.

Definition set_writable (on : bool) c : Cache B := mkCache (blocks c) (slots c) (index c) (hand c) on.

Definition has_dirty c : bool := existsb sdirty (slots c).

Definition discard c : Cache B := mkCache (blocks c) [] ∅ O (cwritable c).

Definition check_range (offset len : Z) : M (Cache B) CacheError unit :=
  let! total := gets cache_bytes in
  match checked_add64 offset len with
  | Some stop => if stop <=? total then ret tt else throw CeOutOfRange
  | None => throw CeOutOfRange
  end.

(** [block.checked_add(count).map_or(true, |end| end > self.blocks.count())]. *)
Definition past_end c (block count : Z) : bool :=
  match checked_add64 block count with
  | Some stop => blk_count (blocks c) <? stop
  | None => true
  end.

Definition device_read (block len : Z) : M (Cache B) CacheError (list Z) :=
  let! out := gets (fun c => past_end c block (len / BLOCK)) in
  if out then throw CeOutOfRange
  else
    let! data := state (fun c => let (b, data) := blk_read (blocks c) block len in (with_blocks b c, data)) in
    ok_or data CeDevice.

Definition device_write (block : Z) (data : list Z) : M (Cache B) CacheError unit :=
  let! out := gets (fun c => past_end c block (len data / BLOCK)) in
  if out then throw CeOutOfRange
  else
    let! done := state (fun c => let (b, done) := blk_write (blocks c) block data in (with_blocks b c, done)) in
    ok_or done CeDevice.

(** The loop of [victim], [turns] passes over a slot left. *)
Fixpoint victim_loop (turns : nat) c : Cache B * option nat :=
  match turns with
  | O => (c, None)
  | S turns =>
      let at_ := (hand c `mod` length (slots c))%nat in
      let c := with_hand ((at_ + 1) `mod` length (slots c))%nat c in
      match slots c !! at_ with
      | None => (c, None)
      | Some slot =>
          if sdirty slot then victim_loop turns c
          else if sused slot then victim_loop turns (with_slots (<[at_ := set_used false slot]> (slots c)) c)
          else (c, Some at_)
      end
  end.

Definition victim c : Cache B * option nat :=
  match slots c with
  | [] => (c, None)
  | _ => victim_loop (2 * length (slots c)) c
  end.

(** The dirty blocks with their slots, in block order: a [BTreeMap] is
    iterated in the order of its keys. *)
Definition index_order (x y : Z * nat) : Prop := x.1 <= y.1.
#[global] Instance index_order_dec x y : Decision (index_order x y).
Proof. unfold index_order. apply _. Defined.

Definition slot_dirty c (at_ : nat) : bool :=
  match slots c !! at_ with Some slot => sdirty slot | None => false end.

Definition dirty_slots c : list (Z * nat) :=
  filter (fun p => slot_dirty c p.2 = true)
    (merge_sort index_order (map_to_list (index c))).

(** The inner loop of [flush]: the run of adjacent blocks from [first] the
    list starts with, [n] of them already taken. *)
Fixpoint take_run (first n : Z) (dirty : list (Z * nat)) : M (Cache B) CacheError (list (Z * nat)) :=
  match dirty with
  | [] => ret []
  | (block, slot) :: dirty =>
      let! expected := u64 (first + n) in
      if negb (block =? expected) || (DIRECT_MAX <=? n) then ret []
      else let! run := take_run first (n + 1) dirty in ret ((block, slot) :: run)
  end.

Definition run_bytes c (run : list (Z * nat)) : list Z :=
  run ≫= fun p => match slots c !! p.2 with Some slot => sdata slot | None => [] end.

Definition mark_clean (run : list (Z * nat)) c : Cache B :=
  with_slots (foldl (fun sl p => alter (set_dirty false) p.2 sl) (slots c) run) c.

Definition flush : M (Cache B) CacheError unit :=
  let! dirty := gets dirty_slots in
  loop (S (length dirty))
    (fun dirty =>
       match dirty with
       | [] => ret (inr tt)
       | (first, _) :: _ =>
           let! run := take_run first 0 dirty in
           let! data := gets (fun c => run_bytes c run) in
           device_write first data ;;;
           modify (mark_clean run) ;;;
           ret (inl (drop (length run) dirty))
       end) dirty.

(** The slot a block not in the cache is put in. *)
Definition room_for (fresh : Slot) : M (Cache B) CacheError nat :=
  let! n := gets (fun c => length (slots c)) in
  if Z.of_nat n <? CACHE_BLOCKS then
    modify (fun c => with_slots (slots c ++ [fresh]) c) ;;; ret n
  else
    let! found := state victim in
    let! at_ := match found with
                | Some at_ => ret at_
                | None =>
                    flush ;;;
                    let! found := state victim in
                    ok_or found CeDevice
                end in
    let! old := gets (fun c => slots c !! at_) in
    let! old := ok_or (sblock <$> old) CeDevice in
    modify (fun c => with_index (delete old (index c)) c) ;;;
    modify (fun c => with_slots (<[at_ := fresh]> (slots c)) c) ;;;
    ret at_.

Definition slot (block : Z) : M (Cache B) CacheError nat :=
  let! hit := gets (fun c => match index c !! block with
                             | Some at_ => match slots c !! at_ with Some slot => Some (at_, slot) | None => None end
                             | None => None
                             end) in
  match hit with
  | Some (at_, slot) =>
      modify (fun c => with_slots (<[at_ := set_used true slot]> (slots c)) c) ;;; ret at_
  | None =>
      let! data := device_read block BLOCK in
      let! at_ := room_for (mkSlot block data false true) in
      modify (fun c => with_index (<[block := at_]> (index c)) c) ;;;
      ret at_
  end.

(** [self.index.range(block..block + count)]: the cached blocks among these,
    in order, with their slots. *)
Definition index_range c (block count : Z) : list (Z * nat) :=
  omap (fun b => pair b <$> index c !! b) (seqZ block count).

(** What [read_at] does with cached blocks after a read of whole blocks: a
    dirty one is newer than the device. *)
Definition overlay c (block count : Z) (part : list Z) : list Z :=
  foldl (fun part p => match slots c !! p.2 with
                       | Some slot => if sdirty slot then splice part (Z.to_nat ((p.1 - block) * BLOCK)) (sdata slot) else part
                       | None => part
                       end) part (index_range c block count).

(** What [write_at] does with them after a write of whole blocks. *)
Definition replace_cached (block count : Z) (part : list Z) c : Cache B :=
  with_slots
    (foldl (fun sl p => match sl !! p.2, get_range part ((p.1 - block) * BLOCK) ((p.1 - block) * BLOCK + BLOCK) with
                        | Some slot, Some source => <[p.2 := set_data source false slot]> sl
                        | _, _ => sl
                        end) (slots c) (index_range c block count)) c.

(** One turn of the loop of [read_at]: the next bytes of the buffer. *)
Definition read_step (offset left : Z) : M (Cache B) CacheError (list Z) :=
  let block := offset / BLOCK in
  let within := offset `mod` BLOCK in
  if (within =? 0) && (BLOCK <=? left) then
    let count := Z.min (left / BLOCK) DIRECT_MAX in
    let! part := device_read block (count * BLOCK) in
    u64 (block + count) ;;;
    gets (fun c => overlay c block count part)
  else
    let! at_ := slot block in
    let n := Z.min (BLOCK - within) left in
    let! source := gets (fun c => match slots c !! at_ with
                                  | Some slot => get_range (sdata slot) within (within + n)
                                  | None => None
                                  end) in
    ok_or source CeOutOfRange.

(** [read_at], returning the bytes it puts in the buffer of length [n]. *)
Definition read_at (offset n : Z) : M (Cache B) CacheError (list Z) :=
  check_range offset n ;;;
  loop (S (Z.to_nat n))
    (fun buf =>
       if len buf <? n then
         let! at_ := u64 (offset + len buf) in
         let! part := read_step at_ (n - len buf) in
         ret (inl (buf ++ part))
       else ret (inr buf)) [].

(** One turn of the loop of [write_at]: how many bytes of [data] it took. *)
Definition write_step (offset : Z) (data : list Z) : M (Cache B) CacheError Z :=
  let block := offset / BLOCK in
  let within := offset `mod` BLOCK in
  let left := len data in
  if (within =? 0) && (BLOCK <=? left) then
    let count := Z.min (left / BLOCK) DIRECT_MAX in
    let! part := ok_or (get_range data 0 (count * BLOCK)) CeOutOfRange in
    device_write block part ;;;
    u64 (block + count) ;;;
    modify (replace_cached block count part) ;;;
    ret (count * BLOCK)
  else
    let! at_ := slot block in
    let n := Z.min (BLOCK - within) left in
    let! source := ok_or (get_range data 0 n) CeOutOfRange in
    let! slot := gets (fun c => slots c !! at_) in
    let! slot := ok_or slot CeOutOfRange in
    ok_or (get_range (sdata slot) within (within + n)) CeOutOfRange ;;;
    modify (fun c => with_slots (<[at_ := set_data (splice (sdata slot) (Z.to_nat within) source) true slot]> (slots c)) c) ;;;
    ret n.

Definition write_at (offset : Z) (data : list Z) : M (Cache B) CacheError unit :=
  let! writable := gets cwritable in
  if negb writable then throw CeReadOnly
  else
    check_range offset (len data) ;;;
    loop (S (length data))
      (fun done =>
         if done <? len data then
           let! at_ := u64 (offset + done) in
           let! n := write_step at_ (drop (Z.to_nat done) data) in
           ret (inl (done + n))
         else ret (inr tt)) 0.
End cache.
