(* ===== verification/CacheSpec.v ===== *)
(** * The cache keeps the bytes of the volume

    The invariant of the cache ([cache_ok]), the bytes of the volume as the
    cache shows them ([view], and [bv] byte by byte), and what every operation
    does to them: reads and flushes leave them alone, a write changes the bytes
    it is given and no others, and after a flush the device holds them. *)

From S2P Require Import Prelude Bytes Boot BootSpec Cache.

(** ** Lists *)

Lemma splice_length {A} (l : list A) n data :
  (n + length data <= length l)%nat -> length (splice l n data) = length l.
Proof. intros H. unfold splice. rewrite !length_app, length_take, length_drop. lia. Qed.

Lemma splice_lookup {A} (l : list A) n data i :
  (n + length data <= length l)%nat ->
  splice l n data !! i =
    (if decide (n <= i < n + length data)%nat then data !! (i - n)%nat else l !! i).
Proof.
  intros H. unfold splice. destruct (decide (i < n)%nat) as [Hi|Hi].
  - rewrite lookup_app_l by (rewrite length_take; lia). rewrite lookup_take_lt by lia. case_decide; [lia|done].
  - rewrite lookup_app_r by (rewrite length_take; lia). rewrite length_take, Nat.min_l by lia.
    destruct (decide (i < n + length data)%nat).
    + rewrite lookup_app_l by lia. case_decide; [done|lia].
    + rewrite lookup_app_r by lia. rewrite lookup_drop. case_decide; [lia|]. f_equal. lia.
Qed.

Lemma splice_Forall {A} (P : A -> Prop) l n data :
  Forall P l -> Forall P data -> Forall P (splice l n data).
Proof. intros Hl Hd. unfold splice. rewrite !Forall_app. auto using Forall_take, Forall_drop. Qed.

Lemma seqZ_app_split m a b : 0 <= a -> 0 <= b -> seqZ m (a + b) = seqZ m a ++ seqZ (m + a) b.
Proof. intros. apply seqZ_app; lia. Qed.

Lemma bind_length_const {A B} (f : A -> list B) n l :
  (forall x, x ∈ l -> length (f x) = n) -> length (l ≫= f) = (length l * n)%nat.
Proof.
  induction l as [|x l IH]; intros H; [done|]. cbn. rewrite length_app, H, IH by set_solver. lia.
Qed.

Section spec.
Context {B : Type} `{!Blocks B} `{!BlocksOk B}.
Implicit Types c : Cache B.

(** ** The invariant *)

Record cache_ok c : Prop := {
  ok_dev : dev_wf (blocks c);
  ok_index : forall b i, index c !! b = Some i -> exists sl, slots c !! i = Some sl /\ sblock sl = b;
  ok_slots : forall i sl, slots c !! i = Some sl -> index c !! sblock sl = Some i;
  ok_len : (length (slots c) <= Z.to_nat CACHE_BLOCKS)%nat;
  ok_block : forall i sl, slots c !! i = Some sl -> 0 <= sblock sl < blk_count (blocks c);
  ok_data : forall i sl, slots c !! i = Some sl -> length (sdata sl) = Z.to_nat BLOCK /\ is_bytes (sdata sl);
  ok_clean : forall i sl, slots c !! i = Some sl -> sdirty sl = false ->
    sdata sl = content (blocks c) (sblock sl);
}.

(** The slot a block is cached in. *)
Definition cached c (b : Z) : option Slot := index c !! b ≫= fun i => slots c !! i.

(** The bytes of block [b] as the cache shows them. *)
Definition view c (b : Z) : list Z :=
  match cached c b with Some sl => sdata sl | None => content (blocks c) b end.

(** The byte at position [p] of the volume. *)
Definition bv c (p : Z) : Z := view c (p / BLOCK) !!! Z.to_nat (p `mod` BLOCK).

(** Blocks written in memory and not on the device. *)
Definition dirty c (b : Z) : Prop := exists sl, cached c b = Some sl /\ sdirty sl = true.

(** What no operation changes. *)
Definition same_shape c c' : Prop :=
  blk_count (blocks c') = blk_count (blocks c) /\ cwritable c' = cwritable c.

(** What an operation that only reads does: blocks may be cached, evicted, or
    written out to make room. *)
Definition keeps c c' : Prop :=
  cache_ok c' /\ same_shape c c' /\ (forall b, view c' b = view c b) /\ (forall b, dirty c' b -> dirty c b).

(** What is left after a device command failed: the cache may be stale. *)
Definition broken c c' : Prop := dev_wf (blocks c') /\ same_shape c c'.

Lemma keeps_refl c : cache_ok c -> keeps c c.
Proof. done. Qed.

Lemma keeps_trans c1 c2 c3 : keeps c1 c2 -> keeps c2 c3 -> keeps c1 c3.
Proof.
  intros (H1 & [Hc1 Hw1] & Hv1 & Hd1) (H2 & [Hc2 Hw2] & Hv2 & Hd2).
  split_and!; [done| |intros b|auto]; [split; congruence|]. by rewrite Hv2, Hv1.
Qed.

Lemma keeps_broken c c' : keeps c c' -> broken c c'.
Proof. intros (H & Hs & _). split; [apply H|done]. Qed.

Lemma broken_trans c1 c2 c3 : broken c1 c2 -> broken c2 c3 -> broken c1 c3.
Proof. intros (H1 & [Hc1 Hw1]) (H2 & [Hc2 Hw2]). split; [done|]. split; congruence. Qed.

Lemma keeps_bv c c' p : keeps c c' -> bv c' p = bv c p.
Proof. intros (_ & _ & Hv & _). unfold bv. by rewrite Hv. Qed.

Lemma cached_Some c b sl :
  cache_ok c -> cached c b = Some sl <-> exists i, slots c !! i = Some sl /\ sblock sl = b.
Proof.
  intros Hok. unfold cached. split.
  - intros (i & Hi & Hsl)%bind_Some. exists i. split; [done|].
    destruct (ok_index _ Hok _ _ Hi) as (sl' & Hsl' & <-). congruence.
  - intros (i & Hi & <-). by rewrite (ok_slots _ Hok _ _ Hi).
Qed.

Lemma view_length c b : cache_ok c -> length (view c b) = Z.to_nat BLOCK.
Proof.
  intros Hok. unfold view. destruct (cached c b) as [sl|] eqn:E.
  - apply (cached_Some _ _ _ Hok) in E as (i & Hi & _). apply (ok_data _ Hok _ _ Hi).
  - apply content_length, Hok.
Qed.

Lemma view_bytes c b : cache_ok c -> is_bytes (view c b).
Proof.
  intros Hok. unfold view. destruct (cached c b) as [sl|] eqn:E.
  - apply (cached_Some _ _ _ Hok) in E as (i & Hi & _). apply (ok_data _ Hok _ _ Hi).
  - apply content_bytes, Hok.
Qed.

Lemma bv_byte c p : cache_ok c -> is_u8 (bv c p).
Proof.
  intros Hok. unfold bv. pose proof (view_bytes c (p / BLOCK) Hok) as Hb.
  pose proof (view_length c (p / BLOCK) Hok) as Hl.
  destruct (lookup_lt_is_Some_2 (view c (p / BLOCK)) (Z.to_nat (p `mod` BLOCK))) as [x Hx].
  { rewrite Hl. unfold BLOCK. lia. }
  rewrite (list_lookup_total_correct _ _ _ Hx). by eapply Forall_lookup_1.
Qed.

(** Whole blocks, byte by byte. *)
Lemma block_bytes c b : cache_ok c -> view c b = bv c <$> seqZ (b * BLOCK) BLOCK.
Proof.
  intros Hok. pose proof (view_length c b Hok) as Hl. unfold BLOCK in *.
  apply list_eq_same_length with 512%nat; [by rewrite length_fmap, length_seqZ|done|].
  intros i x y Hi Hx Hy. apply list_lookup_fmap_Some in Hy as (p & -> & Hp).
  apply lookup_seqZ in Hp as [-> _]. unfold bv, BLOCK.
  replace ((b * 512 + Z.of_nat i) / 512) with b by lia.
  replace (Z.to_nat ((b * 512 + Z.of_nat i) `mod` 512)) with i by lia.
  by rewrite (list_lookup_total_correct _ _ _ Hx).
Qed.

Lemma blocks_bytes c b k : cache_ok c -> 0 <= k -> seqZ b k ≫= view c = bv c <$> seqZ (b * BLOCK) (k * BLOCK).
Proof.
  intros Hok Hk. revert b. pattern k. apply natlike_ind; [done| |done].
  clear k Hk. intros k Hk IH b. rewrite <- Z.add_1_l, Z.mul_add_distr_r, Z.mul_1_l.
  rewrite !seqZ_app_split by (unfold BLOCK; lia). rewrite bind_app, fmap_app. f_equal.
  - rewrite seqZ_cons, seqZ_nil by lia. cbn [mbind list_bind]. rewrite app_nil_r. by apply block_bytes.
  - rewrite IH. do 2 f_equal. lia.
Qed.

(** ** The device *)

(** Another device with the same contents, the cache as it was. *)
Definition same_content c (d : B) : Prop :=
  dev_wf d /\ blk_count d = blk_count (blocks c) /\ forall b, content d b = content (blocks c) b.

Lemma with_blocks_keeps c d : cache_ok c -> same_content c d -> keeps c (with_blocks d c).
Proof.
  intros Hok (Hwf & Hcount & Hcont). split_and!; [|done| |done].
  - constructor; cbn; try apply Hok; [done| |].
    + intros i sl Hi. rewrite Hcount. by eapply ok_block.
    + intros i sl Hi Hd. rewrite Hcont. by eapply ok_clean.
  - intros b. unfold view. change (cached (with_blocks d c) b) with (cached c b).
    destruct (cached c b); [done|]. apply Hcont.
Qed.

Lemma past_end_false c block k :
  cache_ok c -> 0 <= block -> 0 <= k -> past_end c block k = false <-> block + k <= blk_count (blocks c).
Proof.
  intros Hok Hb Hk. pose proof (count_u64 (blocks c) (ok_dev _ Hok)). unfold past_end, checked_add64.
  destruct (block + k <=? u64_max) eqn:E; lia.
Qed.

Lemma wp_device_read c block k (Q : Cache B -> list Z -> Prop) X :
  cache_ok c -> 0 <= block -> 0 <= k -> block + k <= blk_count (blocks c) ->
  (forall d, same_content c d -> Q (with_blocks d c) (seqZ block k ≫= content (blocks c))) ->
  (forall d, same_content c d -> X (with_blocks d c) CeDevice) ->
  wp (device_read block (k * BLOCK)) Q X c.
Proof.
  intros Hok Hb Hk Hin HQ HX. unfold device_read. apply wp_bind, wp_gets.
  replace (k * BLOCK / BLOCK) with k by (unfold BLOCK; lia).
  rewrite (proj2 (past_end_false c block k Hok Hb Hk) Hin).
  apply wp_bind, wp_state. destruct (blk_read (blocks c) block (k * BLOCK)) as [d r] eqn:E. cbn [fst snd].
  assert (Hn : 0 <= k * BLOCK) by (unfold BLOCK; lia).
  pose proof (read_frame _ _ _ _ _ (ok_dev _ Hok) Hb Hn E) as Hframe.
  destruct r as [data|]; [|by apply HX].
  rewrite (read_data _ _ _ _ _ (ok_dev _ Hok) Hb Hk Hin E). by apply HQ.
Qed.

(** After a write of [k] blocks: those hold [data] when it succeeded, and no
    other block has changed. *)
Definition wrote c (block k : Z) (data : list Z) (d : B) : Prop :=
  dev_wf d /\ blk_count d = blk_count (blocks c) /\
  (forall b, ~ block <= b < block + k -> content d b = content (blocks c) b) /\
  data = seqZ block k ≫= content d.

Definition failed_write c (block k : Z) (d : B) : Prop :=
  dev_wf d /\ blk_count d = blk_count (blocks c) /\
  (forall b, ~ block <= b < block + k -> content d b = content (blocks c) b).

Lemma wp_device_write c block k data (Q : Cache B -> unit -> Prop) X :
  cache_ok c -> 0 <= block -> 0 <= k -> block + k <= blk_count (blocks c) ->
  len data = k * BLOCK -> is_bytes data ->
  (forall d, wrote c block k data d -> Q (with_blocks d c) tt) ->
  (forall d, failed_write c block k d -> X (with_blocks d c) CeDevice) ->
  wp (device_write block data) Q X c.
Proof.
  intros Hok Hb Hk Hin Hlen Hbytes HQ HX. unfold device_write. apply wp_bind, wp_gets.
  replace (len data / BLOCK) with k by (unfold BLOCK in *; lia).
  rewrite (proj2 (past_end_false c block k Hok Hb Hk) Hin).
  apply wp_bind, wp_state. destruct (blk_write (blocks c) block data) as [d r] eqn:E. cbn [fst snd].
  pose proof (write_frame _ _ _ _ _ _ (ok_dev _ Hok) Hb Hk Hin Hlen Hbytes E) as (Hwf & Hcount & Hframe).
  destruct r as [[]|]; [|by apply HX].
  apply HQ. split_and!; try done. by eapply write_data; [apply Hok|..].
Qed.

(** ** Slots: marks *)

(** The slots with other used marks. *)
Definition same_slot (s s' : Slot) : Prop := sblock s' = sblock s /\ sdata s' = sdata s /\ sdirty s' = sdirty s.

Definition marked c c' : Prop :=
  blocks c' = blocks c /\ index c' = index c /\ cwritable c' = cwritable c /\
  Forall2 same_slot (slots c) (slots c').

Lemma same_slots_refl sl : Forall2 same_slot sl sl.
Proof. apply Forall_Forall2_diag, Forall_true. done. Qed.

Lemma marked_refl c : marked c c.
Proof. split_and!; try done. apply same_slots_refl. Qed.

Lemma marked_trans c1 c2 c3 : marked c1 c2 -> marked c2 c3 -> marked c1 c3.
Proof.
  intros (H1 & H2 & H3 & H4) (H1' & H2' & H3' & H4'). split_and!; try congruence.
  eapply Forall2_trans; [|done..]. intros x y z (? & ? & ?) (? & ? & ?). split_and!; congruence.
Qed.

Lemma marked_cached c c' b sl' :
  marked c c' -> cached c' b = Some sl' -> exists sl, cached c b = Some sl /\ same_slot sl sl'.
Proof.
  intros (_ & Hix & _ & Hsl). unfold cached. rewrite Hix. intros (i & Hi & Hi')%bind_Some.
  destruct (Forall2_lookup_r _ _ _ _ _ Hsl Hi') as (sl & Hsl' & Hsame). exists sl. rewrite Hi. done.
Qed.

Lemma marked_cached_None c c' b : marked c c' -> cached c' b = None -> cached c b = None.
Proof.
  intros (_ & Hix & _ & Hsl). unfold cached. rewrite Hix. destruct (index c !! b) as [i|]; [|done]. cbn.
  intros H. apply lookup_ge_None in H. apply lookup_ge_None. by rewrite (Forall2_length _ _ _ Hsl).
Qed.

Lemma marked_keeps c c' : cache_ok c -> marked c c' -> keeps c c'.
Proof.
  intros Hok Hm. pose proof Hm as (Hb & Hix & Hw & Hsl). split_and!.
  - constructor; rewrite ?Hb, ?Hix.
    + apply Hok.
    + intros b i Hi. destruct (ok_index _ Hok _ _ Hi) as (sl & Hi' & <-).
      destruct (Forall2_lookup_l _ _ _ _ _ Hsl Hi') as (sl' & ? & ? & _). eauto.
    + intros i sl' Hi. destruct (Forall2_lookup_r _ _ _ _ _ Hsl Hi) as (sl & Hi' & -> & _). by eapply ok_slots.
    + rewrite <- (Forall2_length _ _ _ Hsl). apply Hok.
    + intros i sl' Hi. destruct (Forall2_lookup_r _ _ _ _ _ Hsl Hi) as (sl & Hi' & -> & _). by eapply ok_block.
    + intros i sl' Hi. destruct (Forall2_lookup_r _ _ _ _ _ Hsl Hi) as (sl & Hi' & _ & -> & _). by eapply ok_data.
    + intros i sl' Hi. destruct (Forall2_lookup_r _ _ _ _ _ Hsl Hi) as (sl & Hi' & -> & -> & ->). by eapply ok_clean.
  - split; congruence.
  - intros b. unfold view. rewrite Hb. destruct (cached c' b) as [sl'|] eqn:E.
    + destruct (marked_cached _ _ _ _ Hm E) as (sl & -> & _ & -> & _). done.
    + by rewrite (marked_cached_None _ _ _ Hm E).
  - intros b (sl' & Hc & Hd). destruct (marked_cached _ _ _ _ Hm Hc) as (sl & Hc' & _ & _ & Hd').
    exists sl. split; [done|congruence].
Qed.

Lemma set_used_marked c i u sl :
  slots c !! i = Some sl -> marked c (with_slots (<[i := set_used u sl]> (slots c)) c).
Proof.
  intros Hi. split_and!; try done. cbn. apply Forall2_same_length_lookup.
  split; [by rewrite length_insert|]. intros j x y Hx Hy. destruct (decide (i = j)) as [<-|Hne].
  - rewrite list_lookup_insert_eq in Hy by (by eapply lookup_lt_Some). by simplify_eq.
  - rewrite list_lookup_insert_ne in Hy by done. by simplify_eq.
Qed.

(** ** Choosing a slot to reuse *)

Lemma with_hand_marked h c : marked c (with_hand h c).
Proof. split_and!; try done. apply same_slots_refl. Qed.

Lemma victim_loop_spec turns c :
  marked c (victim_loop turns c).1 /\
  match (victim_loop turns c).2 with
  | Some i => exists sl, slots (victim_loop turns c).1 !! i = Some sl /\ sdirty sl = false
  | None => True
  end.
Proof.
  revert c. induction turns as [|turns IH]; intros c; [split; [apply marked_refl|done]|]. cbn [victim_loop].
  set (at_ := (hand c `mod` length (slots c))%nat).
  set (c1 := with_hand ((at_ + 1) `mod` length (slots c))%nat c).
  pose proof (with_hand_marked ((at_ + 1) `mod` length (slots c))%nat c : marked c c1) as Hm1.
  destruct (slots c1 !! at_) as [sl|] eqn:E; [|by split].
  destruct (sdirty sl) eqn:Ed.
  { destruct (IH c1) as [Hm2 H2]. split; [exact (marked_trans _ _ _ Hm1 Hm2)|exact H2]. }
  destruct (sused sl) eqn:Eu; [|split; [done|by exists sl]].
  pose proof (set_used_marked c1 at_ false sl E) as Hm2.
  destruct (IH (with_slots (<[at_ := set_used false sl]> (slots c1)) c1)) as [Hm3 H3].
  split; [|exact H3]. exact (marked_trans _ _ _ Hm1 (marked_trans _ _ _ Hm2 Hm3)).
Qed.

Lemma victim_spec c :
  marked c (victim c).1 /\
  match (victim c).2 with
  | Some i => exists sl, slots (victim c).1 !! i = Some sl /\ sdirty sl = false
  | None => True
  end.
Proof.
  unfold victim. destruct (slots c) eqn:E; [split; [apply marked_refl|done]|]. apply victim_loop_spec.
Qed.

(** The slot the hand reaches after [t] steps. *)
Definition ahead c (t : nat) : option Slot := slots c !! ((hand c + t) `mod` length (slots c))%nat.

Lemma ahead_step c t :
  slots c <> [] ->
  slots c !! ((((hand c `mod` length (slots c)) + 1) `mod` length (slots c) + t) `mod` length (slots c))%nat
  = ahead c (S t).
Proof.
  intros Hne. unfold ahead. assert (length (slots c) <> 0%nat) by (by destruct (slots c)).
  f_equal. rewrite Nat.Div0.add_mod_idemp_l.
  rewrite <- Nat.add_assoc. rewrite Nat.Div0.add_mod_idemp_l. f_equal.
Qed.

(** A clean slot whose used mark is off is taken when the hand gets to it. *)
Lemma victim_loop_unused turns c t sl :
  ahead c t = Some sl -> sdirty sl = false -> sused sl = false -> (t < turns)%nat ->
  is_Some (victim_loop turns c).2.
Proof.
  revert c t sl. induction turns as [|turns IH]; intros c t sl Hat Hd Hu Ht; [lia|].
  assert (Hne : slots c <> []). { intros E. unfold ahead in Hat. by rewrite E in Hat. }
  cbn [victim_loop]. set (at_ := (hand c `mod` length (slots c))%nat).
  cbn [slots with_hand]. destruct (slots c !! at_) as [sl0|] eqn:E0.
  2: { apply lookup_ge_None in E0. unfold at_ in E0.
       assert (length (slots c) <> 0%nat) by (by destruct (slots c)).
       pose proof (Nat.mod_upper_bound (hand c) (length (slots c))). lia. }
  destruct t as [|t].
  { unfold ahead in Hat. rewrite Nat.add_0_r in Hat. fold at_ in Hat. simplify_eq. rewrite Hd, Hu. by eexists. }
  destruct (sdirty sl0) eqn:Ed0.
  { eapply (IH _ t sl); [|done|done|lia]. unfold ahead. cbn [slots hand with_hand].
    rewrite <- ahead_step in Hat by done. exact Hat. }
  destruct (sused sl0) eqn:Eu0; [|by eexists].
  rewrite <- ahead_step in Hat by done. fold at_ in Hat.
  set (j := (((at_ + 1) `mod` length (slots c) + t) `mod` length (slots c))%nat) in Hat.
  destruct (decide (j = at_)) as [Hj|Hj].
  - assert (sl = sl0) as -> by (rewrite Hj in Hat; congruence). congruence.
  - eapply (IH _ t sl); [|done|done|lia]. unfold ahead. cbn [slots hand with_hand with_slots].
    rewrite length_insert. fold j. by rewrite list_lookup_insert_ne.
Qed.

(** A clean slot is taken within one more pass over all of them. *)
Lemma victim_loop_clean turns c t sl :
  ahead c t = Some sl -> sdirty sl = false -> (t < length (slots c))%nat -> (t + length (slots c) < turns)%nat ->
  is_Some (victim_loop turns c).2.
Proof.
  revert c t sl. induction turns as [|turns IH]; intros c t sl Hat Hd Ht Hturns; [lia|].
  assert (Hne : slots c <> []) by (intros E; rewrite E in Ht; cbn in Ht; lia).
  cbn [victim_loop]. set (at_ := (hand c `mod` length (slots c))%nat).
  assert (Hlt : (at_ < length (slots c))%nat) by (apply Nat.mod_upper_bound; lia).
  cbn [slots with_hand]. destruct (slots c !! at_) as [sl0|] eqn:E0; [|apply lookup_ge_None in E0; lia].
  destruct (sdirty sl0) eqn:Ed0.
  { destruct t as [|t].
    { unfold ahead in Hat. rewrite Nat.add_0_r in Hat. fold at_ in Hat. simplify_eq. congruence. }
    eapply (IH _ t sl); [|done|cbn; lia|cbn; lia]. unfold ahead. cbn [slots hand with_hand].
    rewrite <- ahead_step in Hat by done. exact Hat. }
  destruct (sused sl0) eqn:Eu0; [|by eexists].
  assert (Hlen : length (<[at_ := set_used false sl0]> (slots c)) = length (slots c)) by apply length_insert.
  destruct t as [|t].
  - assert (sl = sl0) as ->.
    { unfold ahead in Hat. rewrite Nat.add_0_r in Hat. fold at_ in Hat. congruence. }
    eapply (victim_loop_unused _ _ (length (slots c) - 1) (set_used false sl0)); [|done|done|lia].
    unfold ahead. cbn [slots hand with_hand with_slots]. rewrite Hlen.
    replace ((((at_ + 1) `mod` length (slots c)) + (length (slots c) - 1)) `mod` length (slots c))%nat with at_.
    { by apply list_lookup_insert_eq. }
    rewrite Nat.Div0.add_mod_idemp_l. replace (at_ + 1 + (length (slots c) - 1))%nat with (at_ + 1 * length (slots c))%nat by lia.
    rewrite Nat.Div0.mod_add. symmetry. by apply Nat.mod_small.
  - rewrite <- ahead_step in Hat by done. fold at_ in Hat.
    set (j := (((at_ + 1) `mod` length (slots c) + t) `mod` length (slots c))%nat) in Hat.
    set (c' := with_slots _ _).
    assert (Hj : exists sl', ahead c' t = Some sl' /\ sdirty sl' = false).
    { unfold ahead, c'. cbn [slots hand with_hand with_slots]. rewrite Hlen. fold j.
      destruct (decide (j = at_)) as [->|]; [|rewrite list_lookup_insert_ne by done; eauto].
      exists (set_used false sl0). split; [by apply list_lookup_insert_eq|done]. }
    destruct Hj as (sl' & Hat' & Hd'). eapply (IH _ t sl'); [done|done|..]; unfold c'; cbn; rewrite Hlen; lia.
Qed.

Lemma victim_finds c i sl :
  slots c !! i = Some sl -> sdirty sl = false -> is_Some (victim c).2.
Proof.
  intros Hi Hd. pose proof (lookup_lt_Some _ _ _ Hi) as Hlt. unfold victim.
  destruct (slots c) as [|s0 rest] eqn:Es; [done|]. rewrite <- Es in *.
  assert (Hn : length (slots c) <> 0%nat) by lia.
  pose proof (Nat.mod_upper_bound (hand c) (length (slots c)) Hn) as Hh.
  set (h := (hand c `mod` length (slots c))%nat) in *.
  set (t := ((i + length (slots c) - h) `mod` length (slots c))%nat).
  assert (Ht : (t < length (slots c))%nat) by (by apply Nat.mod_upper_bound).
  eapply (victim_loop_clean _ _ t sl); [|done|done|lia].
  unfold ahead. rewrite <- Hi. f_equal. rewrite <- Nat.Div0.add_mod_idemp_l. fold h. unfold t.
  rewrite Nat.Div0.add_mod_idemp_r. replace (h + (i + length (slots c) - h))%nat with (i + 1 * length (slots c))%nat by lia.
  rewrite Nat.Div0.mod_add. by apply Nat.mod_small.
Qed.
End spec.
