(* ===== verification/CacheFlush.v ===== *)
(** * Flushing the cache

    [flush] puts every dirty block on the device, in block order, in runs of
    adjacent blocks, and nothing else: afterwards no block is dirty and the
    device holds the bytes the cache showed. *)

From S2P Require Import Prelude Bytes Boot BootSpec Cache CacheSpec.

Lemma bind_inj {A B} (f g : A -> list B) n l :
  (forall x, length (f x) = n) -> (forall x, length (g x) = n) ->
  l ≫= f = l ≫= g -> forall x, x ∈ l -> f x = g x.
Proof.
  intros Hf Hg. induction l as [|y l IH]; intros Heq x Hx; [set_solver|]. cbn in Heq.
  apply app_inj_1 in Heq as [Hy Hl]; [|by rewrite Hf, Hg].
  apply elem_of_cons in Hx as [->|Hx]; auto.
Qed.

Definition ascending (d : list (Z * nat)) : Prop := StronglySorted (fun x y => x.1 < y.1) d.

Lemma ascending_strict l :
  StronglySorted index_order l -> NoDup l.*1 -> ascending l.
Proof.
  induction 1 as [|x l Hl IH Hx]; intros Hnd; [constructor|]. rewrite fmap_cons in Hnd.
  apply NoDup_cons in Hnd as [Hnin Hnd]. constructor; [by apply IH|].
  rewrite Forall_forall in *. intros y Hy. pose proof (Hx y Hy) as Hle. unfold index_order in Hle.
  assert (x.1 <> y.1); [|lia]. intros E. apply Hnin. rewrite E. by apply list_elem_of_fmap_2.
Qed.

Lemma ascending_filter P `{!forall x, Decision (P x)} l : ascending l -> ascending (filter P l).
Proof.
  induction 1 as [|x l Hl IH Hx]; [constructor|]. rewrite filter_cons. case_decide; [|done].
  constructor; [done|]. rewrite Forall_forall in *. intros y [_ Hy]%list_elem_of_filter. auto.
Qed.

Section flush.
Context {B : Type} `{!Blocks B} `{!BlocksOk B}.
Implicit Types c : Cache B.

Lemma dirty_slots_ascending c : ascending (dirty_slots c).
Proof.
  apply ascending_filter, ascending_strict.
  - apply StronglySorted_merge_sort.
    + intros x y z. unfold index_order. lia.
    + intros x y. unfold index_order. lia.
  - rewrite merge_sort_Permutation. apply NoDup_fst_map_to_list.
Qed.

(** An element of the list of dirty blocks. *)
Definition dirty_at c (p : Z * nat) : Prop :=
  index c !! p.1 = Some p.2 /\ exists sl, slots c !! p.2 = Some sl /\ sdirty sl = true.

Lemma elem_of_dirty_slots c p : p ∈ dirty_slots c <-> dirty_at c p.
Proof.
  unfold dirty_slots, dirty_at. rewrite list_elem_of_filter, merge_sort_Permutation.
  destruct p as [b i]. rewrite elem_of_map_to_list. cbn. unfold slot_dirty.
  destruct (slots c !! i) as [sl|]; naive_solver.
Qed.

Lemma dirty_dirty_at c b : dirty c b <-> exists i, dirty_at c (b, i).
Proof.
  unfold dirty, cached, dirty_at. cbn. split.
  - intros (sl & (i & Hi & Hsl)%bind_Some & Hd). eauto.
  - intros (i & Hi & sl & Hsl & Hd). exists sl. by rewrite Hi.
Qed.

(** The run of adjacent blocks a list starts with. *)
Definition is_run (first : Z) (run : list (Z * nat)) : Prop :=
  run.*1 = seqZ first (len run).

Lemma wp_take_run c first n d (Q : Cache B -> list (Z * nat) -> Prop) X :
  ascending d -> 0 <= n -> 0 <= first + n ->
  (forall p, p ∈ d -> first + n <= p.1 <= u64_max) ->
  (forall k, (k <= length d)%nat -> is_run (first + n) (take k d) ->
     ((exists i, head d = Some (first + n, i)) -> n < DIRECT_MAX -> k <> 0%nat) -> Q c (take k d)) ->
  wp (take_run first n d) Q X c.
Proof.
  revert n Q. induction d as [|[b i] d IH]; intros n Q Hasc Hn Hpos Hin HQ.
  { apply wp_ret, (HQ 0%nat); [done|done|]. by intros [? ?]. }
  cbn [take_run]. pose proof (Hin (b, i) ltac:(set_solver)) as Hb. cbn in Hb.
  apply wp_bind, wp_checked; [lia|].
  inversion_clear Hasc as [|? ? Hasc' Hlt].
  destruct (negb (b =? first + n) || (DIRECT_MAX <=? n)) eqn:E.
  { apply wp_ret, (HQ 0%nat); [cbn; lia|done|]. intros [j [= -> ->]] Hmax. lia. }
  apply wp_bind. assert (b = first + n) as -> by lia. eapply (IH (n + 1)); [done|lia|lia| |].
  - intros p Hp. rewrite Forall_forall in Hlt. pose proof (Hlt p Hp) as H1. cbn in H1.
    pose proof (Hin p ltac:(set_solver)). lia.
  - intros k Hk Hrun _. apply wp_ret, (HQ (S k)); [cbn; lia| |done].
    unfold is_run in *. cbn [take]. rewrite fmap_cons, Hrun. cbn [fst length].
    rewrite (seqZ_cons (first + n)) by lia. f_equal. f_equal; lia.
Qed.

Lemma is_run_lookup first run j p :
  is_run first run -> run !! j = Some p -> p.1 = first + Z.of_nat j.
Proof.
  intros Hrun Hj. assert (run.*1 !! j = Some p.1) as H by (by rewrite list_lookup_fmap, Hj).
  rewrite Hrun in H. apply lookup_seqZ in H. lia.
Qed.

Lemma is_run_elem first run b :
  is_run first run -> (exists i, (b, i) ∈ run) <-> first <= b < first + len run.
Proof.
  intros Hrun. rewrite <- elem_of_seqZ, <- Hrun. rewrite list_elem_of_fmap. split.
  - intros [i Hi]. by exists (b, i).
  - intros [[b' i] [-> Hi]]. by exists i.
Qed.

(** The bytes of a run are the bytes of its blocks. *)
Lemma run_bytes_view c run :
  (forall p, p ∈ run -> dirty_at c p) -> run_bytes c run = run.*1 ≫= view c.
Proof.
  induction run as [|[b i] run IH]; intros H; [done|]. rewrite fmap_cons. cbn.
  rewrite <- IH by (intros; apply H; set_solver). f_equal.
  destruct (H (b, i)) as (Hi & sl & Hsl & _); [set_solver|]. cbn in *.
  unfold view, cached. rewrite Hi. cbn. by rewrite Hsl.
Qed.

Lemma mark_clean_lookup (run : list (Z * nat)) (sl : list Slot) (i : nat) :
  foldl (fun sl p => alter (set_dirty false) p.2 sl) sl run !! i
  = (if decide (i ∈ run.*2) then set_dirty false <$> sl !! i else sl !! i).
Proof.
  revert sl. induction run as [|[b j] run IH]; intros sl; cbn [foldl].
  { case_decide; [set_solver|done]. }
  rewrite IH. cbn [snd]. destruct (decide (i = j)) as [->|Hne].
  - rewrite list_lookup_alter_eq. rewrite (decide_True (P := j ∈ ((b, j) :: run).*2)) by set_solver.
    case_decide; [|done]. by destruct (sl !! j).
  - rewrite list_lookup_alter_ne by done. rewrite fmap_cons. cbn.
    case_decide; case_decide; try done; set_solver.
Qed.

Lemma mark_clean_length (run : list (Z * nat)) (sl : list Slot) :
  length (foldl (fun sl p => alter (set_dirty false) p.2 sl) sl run) = length sl.
Proof. revert sl. induction run as [|p run IH]; intros sl; cbn; [done|]. by rewrite IH, length_alter. Qed.

(** The slots of a run are the slots of its blocks and no others. *)
Lemma run_slots c first run b i :
  cache_ok c -> is_run first run -> (forall p, p ∈ run -> dirty_at c p) -> index c !! b = Some i ->
  i ∈ run.*2 <-> first <= b < first + len run.
Proof.
  intros Hok Hrun Hd Hi. rewrite <- is_run_elem by done. rewrite list_elem_of_fmap. split.
  - intros [[b' i'] [-> Hp]]. exists i'. destruct (Hd _ Hp) as (Hi' & _). cbn in *.
    destruct (ok_index _ Hok _ _ Hi) as (s1 & Hs1 & <-). destruct (ok_index _ Hok _ _ Hi') as (s2 & Hs2 & <-).
    by simplify_eq.
  - intros [i' Hp]. exists (b, i'). split; [|done]. destruct (Hd _ Hp) as (Hi' & _). cbn in *. congruence.
Qed.

Lemma run_in_range c first run :
  cache_ok c -> run <> [] -> is_run first run -> (forall p, p ∈ run -> dirty_at c p) ->
  0 <= first /\ first + len run <= blk_count (blocks c).
Proof.
  intros Hok Hne Hrun Hd.
  assert (Hblk : forall b, first <= b < first + len run -> 0 <= b < blk_count (blocks c)).
  { intros b Hb. apply (is_run_elem first run b Hrun) in Hb as [i Hp].
    destruct (Hd _ Hp) as (Hi & sl & Hsl & _). cbn in *.
    destruct (ok_index _ Hok _ _ Hi) as (sl' & Hsl' & <-). by eapply ok_block. }
  assert (0 < len run) by (destruct run; [done|cbn; lia]).
  pose proof (Hblk first). pose proof (Hblk (first + len run - 1)). lia.
Qed.

(** ** Writing a run of dirty blocks and marking them clean *)

Lemma cleaned_slot c d (run : list (Z * nat)) i sl :
  slots (mark_clean run (with_blocks d c)) !! i = Some sl -> exists sl0, slots c !! i = Some sl0 /\
    sblock sl = sblock sl0 /\ sdata sl = sdata sl0 /\ sdirty sl = (if decide (i ∈ run.*2) then false else sdirty sl0).
Proof.
  unfold mark_clean. cbn. rewrite mark_clean_lookup. case_decide; [|eauto].
  intros Hi. apply fmap_Some in Hi as (sl0 & Hi & ->). eauto.
Qed.

Section written.
Context (c : Cache B) (first : Z) (run : list (Z * nat)) (d : B).
Context (Hok : cache_ok c) (Hrun : is_run first run) (Hd : forall p, p ∈ run -> dirty_at c p).
Context (Hw : wrote c first (len run) (run_bytes c run) d).
Let c' := mark_clean run (with_blocks d c).

Lemma written_content b : first <= b < first + len run -> content d b = view c b.
Proof using Hok Hrun Hd Hw.
  destruct Hw as (Hwf & _ & _ & Hdata). rewrite run_bytes_view, Hrun in Hdata by done.
  intros Hb. symmetry. eapply (bind_inj (view c) (content d) (Z.to_nat BLOCK)); [| |exact Hdata|].
  - intros x. by apply view_length.
  - intros x. by apply content_length.
  - apply elem_of_seqZ. lia.
Qed.

Lemma written_cached b : cached c' b = match cached c b with
  | Some sl => Some (if decide (first <= b < first + len run) then set_dirty false sl else sl)
  | None => None end.
Proof using Hok Hrun Hd.
  unfold cached, c'. change (index (mark_clean run (with_blocks d c))) with (index c).
  destruct (index c !! b) as [i|] eqn:Ei; [|done]. unfold mark_clean. cbn. rewrite mark_clean_lookup.
  pose proof (run_slots c first run b i Hok Hrun Hd Ei) as Hiff.
  destruct (slots c !! i) as [sl|], (decide (i ∈ run.*2)), (decide (first <= b < first + len run)); try done; tauto.
Qed.

Lemma written_ok : cache_ok c'.
Proof using Hok Hrun Hd Hw.
  destruct Hw as (Hwf & Hcount & Hframe & _).
  constructor; cbn [blocks with_blocks mark_clean with_slots c']; [done|..].
  - intros b i Hi. destruct (ok_index _ Hok _ _ Hi) as (sl & Hsl & <-). unfold mark_clean. cbn.
    rewrite mark_clean_lookup, Hsl. case_decide; cbn; eauto.
  - intros i sl Hi. destruct (cleaned_slot c d run i sl Hi) as (sl0 & Hi0 & -> & _). exact (ok_slots _ Hok _ _ Hi0).
  - unfold mark_clean. cbn. rewrite mark_clean_length. apply Hok.
  - intros i sl Hi. destruct (cleaned_slot c d run i sl Hi) as (sl0 & Hi0 & -> & _). rewrite Hcount. exact (ok_block _ Hok _ _ Hi0).
  - intros i sl Hi. destruct (cleaned_slot c d run i sl Hi) as (sl0 & Hi0 & _ & -> & _). exact (ok_data _ Hok _ _ Hi0).
  - intros i sl Hi. destruct (cleaned_slot c d run i sl Hi) as (sl0 & Hi0 & -> & -> & ->). intros Hclean.
    pose proof (ok_slots _ Hok _ _ Hi0) as Hix. pose proof (run_slots c first run (sblock sl0) i Hok Hrun Hd Hix) as Hiff.
    case_decide as Hin.
    + rewrite written_content by tauto. unfold view, cached. rewrite Hix. cbn. by rewrite Hi0.
    + rewrite Hframe by tauto. exact (ok_clean _ Hok _ _ Hi0 Hclean).
Qed.

Lemma written_dirty p : dirty_at c' p <-> dirty_at c p /\ ~ first <= p.1 < first + len run.
Proof using Hok Hrun Hd.
  destruct p as [b i]. unfold dirty_at, c'. change (index (mark_clean run (with_blocks d c))) with (index c). cbn [fst snd].
  unfold mark_clean. cbn. rewrite mark_clean_lookup. split.
  - intros (Hi & sl & Hsl & Hdirty). pose proof (run_slots c first run b i Hok Hrun Hd Hi) as Hiff. case_decide as Hin.
    + apply fmap_Some in Hsl as (sl0 & _ & ->). done.
    + split; [eauto|tauto].
  - intros ((Hi & sl & Hsl & Hdirty) & Hout). pose proof (run_slots c first run b i Hok Hrun Hd Hi) as Hiff.
    rewrite decide_False by tauto. eauto.
Qed.

Lemma written_keeps : keeps c c'.
Proof using Hok Hrun Hd Hw.
  destruct Hw as (_ & Hcount & Hframe & _). split; [exact written_ok|split; [by split|split]].
  - intros b. unfold view. rewrite written_cached. destruct (cached c b) as [sl|] eqn:E; [by case_decide|].
    apply Hframe. intros Hb.
    apply (is_run_elem first run b Hrun) in Hb as [i Hp]. destruct (Hd _ Hp) as (Hi & sl & Hsl & _). cbn in *.
    unfold cached in E. rewrite Hi in E. cbn in E. congruence.
  - intros b (sl & Hc & Hdirty). rewrite written_cached in Hc. destruct (cached c b) as [sl0|] eqn:E; [|done].
    injection Hc as Hc. case_decide; subst sl; [done|]. by exists sl0.
Qed.
End written.

(** A failed write of a run: the blocks are still dirty, so the cache still
    shows what they should hold. *)
Lemma failed_run_keeps c first run d :
  cache_ok c -> is_run first run -> (forall p, p ∈ run -> dirty_at c p) ->
  failed_write c first (len run) d -> keeps c (with_blocks d c).
Proof.
  intros Hok Hrun Hd (Hwf & Hcount & Hframe).
  assert (Hout : forall b sl, cached c b = Some sl -> sdirty sl = false -> content d b = content (blocks c) b).
  { intros b sl Hc Hclean. apply Hframe. intros Hb. apply (is_run_elem first run b Hrun) in Hb as [i Hp].
    destruct (Hd _ Hp) as (Hi & sl' & Hsl & Hdirty). cbn in *. unfold cached in Hc. rewrite Hi in Hc. cbn in Hc.
    congruence. }
  split_and!; [|done| |done].
  - constructor; cbn [blocks with_blocks slots index]; try apply Hok; [done| |].
    + intros i sl Hi. rewrite Hcount. by eapply ok_block.
    + intros i sl Hi Hclean. rewrite (Hout (sblock sl) sl); [by eapply ok_clean| |done].
      apply cached_Some; eauto.
  - intros b. unfold view. change (cached (with_blocks d c) b) with (cached c b).
    destruct (cached c b) as [sl|] eqn:E; [done|]. apply Hframe. intros Hb.
    apply (is_run_elem first run b Hrun) in Hb as [i Hp]. destruct (Hd _ Hp) as (Hi & sl & Hsl & _). cbn in *.
    unfold cached in E. rewrite Hi in E. cbn in E. congruence.
Qed.

Lemma ascending_drop k d : ascending d -> ascending (drop k d).
Proof.
  intros H. revert k. induction H as [|x l Hl IH Hx]; intros [|k]; cbn; [constructor..|by constructor|apply IH].
Qed.

(** The elements past a run are the ones whose blocks are not in it. *)
Lemma elem_of_drop_run first d k p :
  ascending d -> (k <= length d)%nat -> is_run first (take k d) -> p ∈ d ->
  p ∈ drop k d <-> ~ first <= p.1 < first + len (take k d).
Proof.
  intros Hasc Hk Hrun Hp. rewrite <- (take_drop k d) in Hasc, Hp.
  apply StronglySorted_app in Hasc as (Hlt & _ & _). split.
  - intros Hin Hrange. destruct p as [b i]. apply (is_run_elem _ _ b Hrun) in Hrange as [j Hj].
    pose proof (Hlt (b, j) (b, i) Hj Hin) as H. cbn in H. lia.
  - intros Hout. apply elem_of_app in Hp as [Hp|Hp]; [|done]. destruct Hout. destruct p as [b i].
    apply (is_run_elem _ _ b Hrun). by exists i.
Qed.

Lemma wp_flush c (Q : Cache B -> unit -> Prop) X :
  cache_ok c ->
  (forall c', keeps c c' -> index c' = index c -> (forall b, ~ dirty c' b) -> Q c' tt) ->
  (forall c', keeps c c' -> X c' CeDevice) ->
  wp flush Q X c.
Proof.
  intros Hok HQ HX. unfold flush. apply wp_bind, wp_gets.
  apply (wp_loop (fun d c' => keeps c c' /\ index c' = index c /\ ascending d /\ forall p, p ∈ d <-> dirty_at c' p)
           (fun d _ => length d)).
  2: { split_and!; [by apply keeps_refl|done|apply dirty_slots_ascending|apply elem_of_dirty_slots]. }
  2: lia.
  intros d c' (Hk & Hix & Hasc & Hd). pose proof Hk as (Hok' & _ & _ & _).
  destruct d as [|[first i0] d0] eqn:Ed.
  { apply wp_ret, HQ; [done|done|]. intros b [i Hb]%dirty_dirty_at. apply Hd in Hb. set_solver. }
  rewrite <- Ed in *. assert (Hhead : head d = Some (first, i0)) by (by rewrite Ed).
  assert (Hblk : forall p, p ∈ d -> first <= p.1 <= u64_max /\ 0 <= first).
  { assert (Hpos : forall p, p ∈ d -> 0 <= p.1 <= u64_max).
    { intros p Hp. apply Hd in Hp as (Hi & sl & Hsl & _).
      destruct (ok_index _ Hok' _ _ Hi) as (sl' & Hsl' & <-). pose proof (ok_block _ Hok' _ _ Hsl').
      pose proof (count_u64 _ (ok_dev _ Hok')). lia. }
    intros p Hp. pose proof (Hpos p Hp). pose proof (Hpos (first, i0) ltac:(rewrite Ed; set_solver)) as Hf.
    cbn in Hf. split; [|lia]. rewrite Ed in Hasc, Hp. inversion_clear Hasc as [|? ? _ Hlt].
    apply elem_of_cons in Hp as [->|Hp]; [cbn; lia|]. rewrite Forall_forall in Hlt.
    pose proof (Hlt p Hp) as Hlt'. cbn in Hlt'. lia. }
  pose proof (Hblk (first, i0) ltac:(rewrite Ed; set_solver)) as [_ Hfirst].
  apply wp_bind, wp_take_run; [done|lia|lia| |].
  { intros p Hp. pose proof (Hblk p Hp). lia. }
  intros k Hklen Hrun Hk0. rewrite Z.add_0_r in *.
  assert (Hkne : k <> 0%nat) by (apply Hk0; [by exists i0|done]).
  assert (Htake : take k d <> []) by (rewrite Ed; by destruct k).
  assert (Hdk : forall p, p ∈ take k d -> dirty_at c' p).
  { intros p Hp. apply Hd. rewrite <- (take_drop k d). set_solver. }
  pose proof (run_in_range c' first _ Hok' Htake Hrun Hdk) as [_ Hin].
  apply wp_bind, wp_gets, wp_bind.
  apply (wp_device_write c' first (len (take k d))); [done|lia|lia|done| | | |].
  { rewrite run_bytes_view by done. rewrite (bind_length_const (view c') (Z.to_nat BLOCK)) by (intros; by apply view_length).
    rewrite length_fmap. unfold BLOCK. lia. }
  { rewrite run_bytes_view by done. apply Forall_bind, Forall_true. intros. by apply view_bytes. }
  2: { intros dv Hfail. apply HX. eapply keeps_trans; [done|]. by eapply failed_run_keeps. }
  intros dv Hwrote. pose proof (written_keeps c' first _ dv Hok' Hrun Hdk Hwrote) as Hk'. pose proof (written_dirty c' first _ dv Hok' Hrun Hdk) as Hdirty.
  apply wp_bind, wp_modify, wp_ret. rewrite length_take, Nat.min_l by done. split; [|rewrite length_drop; lia].
  split_and!; [by eapply keeps_trans|done|by apply ascending_drop|].
  intros p. rewrite Hdirty, <- Hd. split.
  - intros Hp. assert (Hpd : p ∈ d) by (rewrite <- (take_drop k d); set_solver).
    split; [done|]. by apply (elem_of_drop_run first d k p Hasc Hklen Hrun Hpd).
  - intros [Hpd Hout]. by apply (elem_of_drop_run first d k p Hasc Hklen Hrun Hpd).
Qed.

(** With nothing dirty the device holds what the cache shows. *)
Lemma flushed_content c b : cache_ok c -> (forall x, ~ dirty c x) -> content (blocks c) b = view c b.
Proof.
  intros Hok Hclean. unfold view. destruct (cached c b) as [sl|] eqn:E; [|done].
  pose proof E as E'. apply (cached_Some _ _ _ Hok) in E' as (i & Hi & <-). symmetry.
  apply (ok_clean _ Hok _ _ Hi). destruct (sdirty sl) eqn:Ed; [|done].
  destruct (Hclean (sblock sl)). by exists sl.
Qed.

Lemma has_dirty_false c : cache_ok c -> has_dirty c = false <-> forall b, ~ dirty c b.
Proof.
  intros Hok. unfold has_dirty. split.
  - intros H b (sl & Hc & Hd). apply (cached_Some _ _ _ Hok) in Hc as (i & Hi & _).
    assert (existsb sdirty (slots c) = true); [|congruence].
    apply existsb_exists. exists sl. split; [|done]. by apply list_elem_of_In, (list_elem_of_lookup_2 _ i).
  - intros H. apply not_true_is_false. intros (sl & Hin & Hd)%existsb_exists.
    apply list_elem_of_In, list_elem_of_lookup_1 in Hin as [i Hi].
    destruct (H (sblock sl)). exists sl. split; [|done]. apply cached_Some; eauto.
Qed.
End flush.
