(* ===== verification/CacheIo.v ===== *)
(** * Reading and writing through the cache

    [read_at] returns the bytes of the volume, whatever is cached, and
    [write_at] changes the bytes it is given and no others. Neither panics, and
    both end. *)

From S2P Require Import Prelude Bytes Boot BootSpec Cache CacheSpec CacheFlush.

Section io.
Context {B : Type} `{!Blocks B} `{!BlocksOk B}.
Implicit Types c : Cache B.

(** ** Slots *)

(** A slot for a block read from the device just now. *)
Record fresh_slot c (fresh : Slot) : Prop := {
  fresh_block : 0 <= sblock fresh < blk_count (blocks c);
  fresh_index : index c !! sblock fresh = None;
  fresh_clean : sdirty fresh = false;
  fresh_data : sdata fresh = content (blocks c) (sblock fresh);
}.

Lemma fresh_data_ok c fresh :
  cache_ok c -> fresh_slot c fresh -> length (sdata fresh) = Z.to_nat BLOCK /\ is_bytes (sdata fresh).
Proof.
  intros Hok Hf. rewrite (fresh_data _ _ Hf). split; [apply content_length, Hok|apply content_bytes, Hok].
Qed.

Definition pushed c (fresh : Slot) : Cache B :=
  with_index (<[sblock fresh := length (slots c)]> (index c)) (with_slots (slots c ++ [fresh]) c).

Definition replaced c (at_ : nat) (old : Z) (fresh : Slot) : Cache B :=
  with_index (<[sblock fresh := at_]> (delete old (index c))) (with_slots (<[at_ := fresh]> (slots c)) c).

Lemma cached_same c c' b :
  (forall i, index c !! b = Some i -> index c' !! b = Some i /\ slots c' !! i = slots c !! i) ->
  is_Some (index c !! b) -> cached c' b = cached c b.
Proof.
  intros H [i Hi]. unfold cached. destruct (H i Hi) as [-> Hs]. rewrite Hi. cbn. by rewrite Hs.
Qed.

Lemma pushed_keeps c fresh :
  cache_ok c -> fresh_slot c fresh -> (length (slots c) < Z.to_nat CACHE_BLOCKS)%nat -> keeps c (pushed c fresh).
Proof.
  intros Hok Hf Hlen. set (n := length (slots c)).
  assert (Hslots : forall i sl, slots (pushed c fresh) !! i = Some sl ->
            slots c !! i = Some sl /\ i <> n \/ i = n /\ sl = fresh).
  { intros i sl Hi. cbn in Hi. apply lookup_app_Some in Hi as [Hi|[Hge Hi]].
    - left. split; [done|]. apply lookup_lt_Some in Hi. unfold n. lia.
    - right. apply list_lookup_singleton_Some in Hi as [Hi ->]. split; [unfold n; lia|done]. }
  assert (Hne : forall i sl, slots c !! i = Some sl -> sblock sl <> sblock fresh).
  { intros i sl Hi E. pose proof (ok_slots _ Hok _ _ Hi) as H. rewrite E, (fresh_index _ _ Hf) in H. done. }
  assert (Hcached : forall b, cached (pushed c fresh) b = if decide (b = sblock fresh) then Some fresh else cached c b).
  { intros b. unfold cached, pushed. cbn. case_decide as Hb.
    - subst b. rewrite lookup_insert_eq. cbn. by rewrite list_lookup_middle.
    - rewrite lookup_insert_ne by done. destruct (index c !! b) as [i|] eqn:Ei; [|done]. cbn.
      destruct (ok_index _ Hok _ _ Ei) as (sl & Hsl & _).
      rewrite Hsl. by apply lookup_app_l_Some. }
  split_and!.
  - constructor; cbn [blocks pushed with_index with_slots].
    + apply Hok.
    + intros b i Hi. cbn in Hi. rewrite lookup_insert in Hi. case_decide as Hb.
      * injection Hi as <-. exists fresh. cbn. rewrite list_lookup_middle by done. done.
      * destruct (ok_index _ Hok _ _ Hi) as (sl & Hsl & <-). exists sl. cbn. split; [|done].
        by apply lookup_app_l_Some.
    + intros i sl Hi. cbn [index pushed with_index]. destruct (Hslots _ _ Hi) as [[Hi' _]|[-> ->]].
      * rewrite lookup_insert_ne by (intros E; by apply (Hne i sl)). by apply (ok_slots _ Hok).
      * by rewrite lookup_insert_eq.
    + cbn. rewrite length_app. cbn. lia.
    + intros i sl Hi. destruct (Hslots _ _ Hi) as [[Hi' _]|[-> ->]]; [by apply (ok_block _ Hok _ _ Hi')|apply Hf].
    + intros i sl Hi. destruct (Hslots _ _ Hi) as [[Hi' _]|[-> ->]]; [by apply (ok_data _ Hok _ _ Hi')|by apply fresh_data_ok with c].
    + intros i sl Hi Hd. destruct (Hslots _ _ Hi) as [[Hi' _]|[-> ->]]; [by apply (ok_clean _ Hok _ _ Hi')|apply Hf].
  - done.
  - intros b. unfold view. rewrite Hcached. case_decide as Hb; [|done]. subst b.
    unfold cached. rewrite (fresh_index _ _ Hf). cbn. apply Hf.
  - intros b (sl & Hc & Hd). rewrite Hcached in Hc. case_decide; [|by exists sl].
    injection Hc as <-. rewrite (fresh_clean _ _ Hf) in Hd. done.
Qed.

Lemma replaced_keeps c at_ sl0 fresh :
  cache_ok c -> fresh_slot c fresh -> slots c !! at_ = Some sl0 -> sdirty sl0 = false ->
  keeps c (replaced c at_ (sblock sl0) fresh).
Proof.
  intros Hok Hf Hat Hclean. set (c' := replaced c at_ (sblock sl0) fresh).
  pose proof (lookup_lt_Some _ _ _ Hat) as Hlt.
  pose proof (ok_slots _ Hok _ _ Hat) as Hix0.
  assert (Hne0 : sblock sl0 <> sblock fresh) by (intros E; rewrite E, (fresh_index _ _ Hf) in Hix0; done).
  assert (Hslots : forall i sl, slots c' !! i = Some sl ->
            slots c !! i = Some sl /\ i <> at_ \/ i = at_ /\ sl = fresh).
  { intros i sl Hi. cbn in Hi. destruct (decide (i = at_)) as [->|Hne].
    - rewrite list_lookup_insert_eq in Hi by done. right. by simplify_eq.
    - rewrite list_lookup_insert_ne in Hi by done. by left. }
  assert (Hne : forall i sl, slots c !! i = Some sl -> i <> at_ -> sblock sl <> sblock fresh /\ sblock sl <> sblock sl0).
  { intros i sl Hi Hia. pose proof (ok_slots _ Hok _ _ Hi) as H. split; intros E; rewrite E in H.
    - by rewrite (fresh_index _ _ Hf) in H.
    - congruence. }
  assert (Hcached : forall b, cached c' b = if decide (b = sblock fresh) then Some fresh
            else if decide (b = sblock sl0) then None else cached c b).
  { intros b. unfold cached, c', replaced. cbn. case_decide as Hb; [|case_decide as Hb'].
    - subst b. rewrite lookup_insert_eq. cbn. by rewrite list_lookup_insert_eq.
    - subst b. by rewrite lookup_insert_ne, lookup_delete_eq by done.
    - rewrite lookup_insert_ne, lookup_delete_ne by done.
      destruct (index c !! b) as [i|] eqn:Ei; [|done]. cbn.
      rewrite list_lookup_insert_ne; [done|]. intros ->.
      destruct (ok_index _ Hok _ _ Ei) as (sl & Hsl & <-). congruence. }
  split_and!.
  - constructor; cbn [blocks c' replaced with_index with_slots].
    + apply Hok.
    + intros b i Hi. cbn in Hi. rewrite lookup_insert in Hi. case_decide as Hb.
      * injection Hi as <-. exists fresh. cbn. by rewrite list_lookup_insert_eq.
      * rewrite lookup_delete in Hi. case_decide as Hb'; [done|].
        destruct (ok_index _ Hok _ _ Hi) as (sl & Hsl & Hbl). exists sl. cbn. split; [|done].
        rewrite list_lookup_insert_ne; [done|]. intros ->. congruence.
    + intros i sl Hi. cbn. destruct (Hslots _ _ Hi) as [[Hi' Hia]|[-> ->]].
      * destruct (Hne i sl Hi' Hia) as [H1 H2]. rewrite lookup_insert_ne, lookup_delete_ne by done.
        by apply (ok_slots _ Hok).
      * by rewrite lookup_insert_eq.
    + cbn. rewrite length_insert. apply Hok.
    + intros i sl Hi. destruct (Hslots _ _ Hi) as [[Hi' _]|[-> ->]]; [by apply (ok_block _ Hok _ _ Hi')|apply Hf].
    + intros i sl Hi. destruct (Hslots _ _ Hi) as [[Hi' _]|[-> ->]]; [by apply (ok_data _ Hok _ _ Hi')|by apply fresh_data_ok with c].
    + intros i sl Hi Hd. destruct (Hslots _ _ Hi) as [[Hi' _]|[-> ->]]; [by apply (ok_clean _ Hok _ _ Hi')|apply Hf].
  - done.
  - intros b. unfold view. rewrite Hcached. case_decide as Hb; [|case_decide as Hb'].
    + subst b. unfold cached. rewrite (fresh_index _ _ Hf). cbn. apply Hf.
    + subst b. unfold cached. rewrite Hix0. cbn. rewrite Hat. symmetry. by apply (ok_clean _ Hok _ _ Hat).
    + done.
  - intros b (sl & Hc & Hd). rewrite Hcached in Hc. case_decide; [|case_decide; [done|by exists sl]].
    injection Hc as <-. rewrite (fresh_clean _ _ Hf) in Hd. done.
Qed.

(** A fresh slot is still one after other slots were marked or written out. *)
Lemma fresh_keeps c c' fresh :
  keeps c c' -> index c' = index c -> fresh_slot c fresh -> fresh_slot c' fresh.
Proof.
  intros (Hok & [Hcount _] & Hv & _) Hix Hf. constructor.
  - rewrite Hcount. apply Hf.
  - rewrite Hix. apply Hf.
  - apply Hf.
  - rewrite (fresh_data _ _ Hf). pose proof (Hv (sblock fresh)) as H. unfold view, cached in H.
    by rewrite Hix, (fresh_index _ _ Hf) in H.
Qed.

(** The state [room_for] leaves, completed by the caller's [index.insert]. *)
Lemma wp_room_for c fresh (Q : Cache B -> nat -> Prop) X :
  cache_ok c -> fresh_slot c fresh ->
  (forall c' i, keeps c (with_index (<[sblock fresh := i]> (index c')) c') -> slots c' !! i = Some fresh -> Q c' i) ->
  (forall c', keeps c c' -> X c' CeDevice) ->
  wp (room_for fresh) Q X c.
Proof.
  intros Hok Hf HQ HX. unfold room_for. apply wp_bind, wp_gets.
  destruct (Z.of_nat (length (slots c)) <? CACHE_BLOCKS) eqn:Hlen.
  { apply wp_bind, wp_modify, wp_ret, HQ.
    - exact (pushed_keeps c fresh Hok Hf ltac:(unfold CACHE_BLOCKS in *; lia)).
    - cbn. by rewrite list_lookup_middle. }
  (* Whichever clean slot was chosen, replacing it. *)
  assert (Hreplace : forall c1 at_ sl0, keeps c c1 -> index c1 = index c -> slots c1 !! at_ = Some sl0 -> sdirty sl0 = false ->
    wp (let! old := gets (fun c => slots c !! at_) in
        let! old := ok_or (sblock <$> old) CeDevice in
        modify (fun c => with_index (delete old (index c)) c) ;;;
        modify (fun c => with_slots (<[at_ := fresh]> (slots c)) c) ;;;
        ret at_) Q X c1).
  { intros c1 at_ sl0 Hk Hix Hat Hclean. pose proof Hk as (Hok1 & _).
    apply wp_bind, wp_gets. rewrite Hat. cbn [fmap option_fmap option_map ok_or].
    apply wp_bind, wp_ret, wp_bind, wp_modify, wp_bind, wp_modify, wp_ret, HQ.
    - eapply keeps_trans; [done|].
      exact (replaced_keeps c1 at_ sl0 fresh Hok1 (fresh_keeps _ _ _ Hk Hix Hf) Hat Hclean).
    - cbn. apply list_lookup_insert_eq. by eapply lookup_lt_Some. }
  apply wp_bind, wp_state. destruct (victim_spec c) as [Hm Hv].
  destruct (victim c) as [c1 [at_|]] eqn:Ev; cbn [fst snd] in *.
  { apply wp_bind, wp_ret. destruct Hv as (sl0 & Hat & Hclean).
    apply (Hreplace c1 at_ sl0); [by apply marked_keeps|apply Hm|done|done]. }
  pose proof (marked_keeps _ _ Hok Hm) as Hk1. pose proof Hk1 as (Hok1 & _).
  apply wp_bind, wp_bind, wp_flush; [done| |].
  2: { intros c2 Hk2. apply HX. by eapply keeps_trans. }
  intros c2 Hk2 Hix2 Hclean2. apply wp_bind, wp_state.
  destruct (victim_spec c2) as [Hm2 Hv2]. pose proof Hk2 as (Hok2 & _).
  pose proof (marked_keeps _ _ Hok2 Hm2) as Hk3.
  destruct (victim c2) as [c3 [at_|]] eqn:Ev2; cbn [fst snd] in *.
  { apply wp_ret. destruct Hv2 as (sl0 & Hat & Hclean). apply (Hreplace c3 at_ sl0); [| |done|done].
    - by eapply keeps_trans; [|eapply keeps_trans].
    - destruct Hm as (_ & Hi1 & _), Hm2 as (_ & Hi3 & _). congruence. }
  apply wp_throw, HX. by eapply keeps_trans; [|eapply keeps_trans].
Qed.

Lemma wp_slot c block (Q : Cache B -> nat -> Prop) X :
  cache_ok c -> 0 <= block < blk_count (blocks c) ->
  (forall c' i sl, keeps c c' -> index c' !! block = Some i -> slots c' !! i = Some sl -> Q c' i) ->
  (forall c', keeps c c' -> X c' CeDevice) ->
  wp (slot block) Q X c.
Proof.
  intros Hok Hb HQ HX. unfold slot. apply wp_bind, wp_gets.
  destruct (index c !! block) as [i|] eqn:Ei.
  { destruct (ok_index _ Hok _ _ Ei) as (sl & Hsl & Hbl). rewrite Hsl.
    apply wp_bind, wp_modify, wp_ret. apply (HQ _ _ (set_used true sl)).
    - by apply marked_keeps, set_used_marked.
    - done.
    - cbn. apply list_lookup_insert_eq. by eapply lookup_lt_Some. }
  apply wp_bind. replace BLOCK with (1 * BLOCK) by reflexivity.
  apply wp_device_read; [done|lia|lia|lia| |].
  2: { intros d Hd. by apply HX, with_blocks_keeps. }
  intros d Hd. pose proof (with_blocks_keeps c d Hok Hd) as Hk. pose proof Hk as (Hok1 & _).
  set (fresh := mkSlot block (seqZ block 1 ≫= content (blocks c)) false true).
  assert (Hf : fresh_slot (with_blocks d c) fresh).
  { destruct Hd as (_ & Hcount & Hcont). constructor; cbn.
    - by rewrite Hcount.
    - done.
    - done.
    - rewrite seqZ_cons, seqZ_nil by lia. cbn [mbind list_bind]. rewrite app_nil_r. by rewrite Hcont. }
  apply wp_bind. apply wp_room_for; [done|done| |].
  2: { intros c' Hk'. apply HX. by eapply keeps_trans. }
  intros c' i Hk' Hsl. apply wp_bind, wp_modify, wp_ret. apply (HQ _ _ fresh).
  - by eapply keeps_trans.
  - apply lookup_insert_eq.
  - done.
Qed.

(** ** Whole blocks *)

(** A run of blocks, [f b] the bytes of block [b]: the bytes of one block of
    it, and the run with one block replaced. *)
Definition whole (f : Z -> list Z) : Prop := forall b, length (f b) = Z.to_nat BLOCK.

Lemma run_ext (f g : Z -> list Z) block count :
  (forall b, block <= b < block + count -> f b = g b) -> seqZ block count ≫= f = seqZ block count ≫= g.
Proof.
  intros H. assert (Hl : forall b, b ∈ seqZ block count -> f b = g b) by (intros b Hb%elem_of_seqZ; by apply H).
  clear H. induction (seqZ block count) as [|b l IH]; [done|]. cbn. rewrite Hl, IH by set_solver. done.
Qed.

Lemma run_split (f : Z -> list Z) block count b :
  block <= b < block + count ->
  seqZ block count ≫= f = (seqZ block (b - block) ≫= f) ++ f b ++ (seqZ (b + 1) (block + count - b - 1) ≫= f).
Proof.
  intros Hb. replace count with ((b - block) + (1 + (block + count - b - 1))) at 1 by lia.
  rewrite !seqZ_app_split, !bind_app by lia. do 2 f_equal.
  - rewrite seqZ_cons, seqZ_nil by lia. cbn [mbind list_bind]. rewrite app_nil_r. f_equal. lia.
  - do 2 f_equal; lia.
Qed.

Lemma run_length (f : Z -> list Z) block count :
  whole f -> 0 <= count -> length (seqZ block count ≫= f) = Z.to_nat (count * BLOCK).
Proof.
  intros Hf Hc. rewrite (bind_length_const f (Z.to_nat BLOCK)) by (intros; apply Hf).
  rewrite length_seqZ. unfold BLOCK. lia.
Qed.

Lemma run_get_block (f : Z -> list Z) block count b :
  whole f -> block <= b < block + count ->
  get_range (seqZ block count ≫= f) ((b - block) * BLOCK) ((b - block) * BLOCK + BLOCK) = Some (f b).
Proof.
  intros Hf Hb. apply get_range_Some. rewrite run_length by (done || lia).
  split_and!; [unfold BLOCK; lia..|]. rewrite (run_split f block count b Hb).
  rewrite drop_app_length' by (rewrite run_length by (done || lia); done).
  replace (Z.to_nat ((b - block) * BLOCK + BLOCK - (b - block) * BLOCK)) with (length (f b)) by (rewrite Hf; f_equal; lia).
  by rewrite take_app_length.
Qed.

Lemma run_splice (f : Z -> list Z) block count b d :
  whole f -> block <= b < block + count -> length d = Z.to_nat BLOCK ->
  splice (seqZ block count ≫= f) (Z.to_nat ((b - block) * BLOCK)) d
  = seqZ block count ≫= (fun x => if decide (x = b) then d else f x).
Proof.
  intros Hf Hb Hd. unfold splice. rewrite (run_split f block count b Hb).
  rewrite (run_split (fun x => if decide (x = b) then d else f x) block count b Hb), decide_True by done.
  assert (Hpre : length (seqZ block (b - block) ≫= f) = Z.to_nat ((b - block) * BLOCK)) by (apply run_length; [done|lia]).
  rewrite take_app_length' by done.
  rewrite (app_assoc (_ ≫= f) (f b)), drop_app_length' by (rewrite length_app, Hpre, Hf, Hd; lia).
  f_equal; [|f_equal]; apply run_ext; intros x Hx; by rewrite decide_False by lia.
Qed.

Lemma elem_of_index_range c block count b i :
  (b, i) ∈ index_range c block count <-> block <= b < block + count /\ index c !! b = Some i.
Proof.
  unfold index_range. rewrite list_elem_of_omap. split.
  - intros (x & Hx & Hp). apply elem_of_seqZ in Hx. apply fmap_Some in Hp as (j & Hj & [= -> ->]). done.
  - intros [Hb Hi]. exists b. split; [by apply elem_of_seqZ|]. by rewrite Hi.
Qed.

(** Blocks read from the device with the newer cached ones put over them are
    the blocks of the volume. *)
Lemma overlay_view c block count :
  cache_ok c -> overlay c block count (seqZ block count ≫= content (blocks c)) = seqZ block count ≫= view c.
Proof.
  intros Hok. unfold overlay.
  assert (H : forall l (f : Z -> list Z), whole f ->
    (forall b i, (b, i) ∈ l -> block <= b < block + count /\ index c !! b = Some i) ->
    (forall b, block <= b < block + count -> f b = view c b \/ exists i, (b, i) ∈ l /\ dirty c b) ->
    foldl (fun part p => match slots c !! p.2 with
             | Some slot => if sdirty slot then splice part (Z.to_nat ((p.1 - block) * BLOCK)) (sdata slot) else part
             | None => part end) (seqZ block count ≫= f) l = seqZ block count ≫= view c).
  2: { apply H.
       - intros b. by apply content_length, Hok.
       - intros b i Hp. by apply elem_of_index_range.
       - intros b Hb. unfold view. destruct (cached c b) as [sl|] eqn:E; [|by left].
         pose proof E as (i & Hi & Hsl)%bind_Some. destruct (sdirty sl) eqn:Ed.
         + right. exists i. split; [by apply elem_of_index_range|by exists sl].
         + left. destruct (ok_index _ Hok _ _ Hi) as (sl' & Hsl' & <-). simplify_eq.
           symmetry. by apply (ok_clean _ Hok _ _ Hsl). }
  intros l. induction l as [|[b i] l IH]; intros f Hf Hl Hor.
  { cbn. apply run_ext. intros b Hb. destruct (Hor b Hb) as [?|(i & ? & _)]; [done|set_solver]. }
  destruct (Hl b i ltac:(set_solver)) as [Hb Hi]. destruct (ok_index _ Hok _ _ Hi) as (sl & Hsl & Hbl).
  cbn [foldl fst snd]. rewrite Hsl.
  assert (Hview : view c b = sdata sl) by (unfold view, cached; rewrite Hi; cbn; by rewrite Hsl).
  destruct (sdirty sl) eqn:Ed.
  - rewrite run_splice by (done || apply (ok_data _ Hok _ _ Hsl)). apply IH.
    + intros x. case_decide; [apply (ok_data _ Hok _ _ Hsl)|apply Hf].
    + intros x j Hx. apply Hl. set_solver.
    + intros x Hx. case_decide as Hxb; [left; by subst|]. destruct (Hor x Hx) as [?|(j & Hj & Hd)]; [by left|].
      right. exists j. split; [|done]. apply elem_of_cons in Hj as [[= ? ?]|?]; [done|done].
  - apply IH; [done|intros; apply Hl; set_solver|]. intros x Hx.
    destruct (Hor x Hx) as [?|(j & Hj & Hd)]; [by left|]. apply elem_of_cons in Hj as [[= -> ->]|?]; [|eauto].
    destruct Hd as (sl' & Hc & Hd'). unfold cached in Hc. rewrite Hi in Hc. cbn in Hc. congruence.
Qed.

(** ** Reading *)

(** Bytes inside one block. *)
Lemma view_range c offset n :
  cache_ok c -> 0 <= n -> offset `mod` BLOCK + n <= BLOCK ->
  get_range (view c (offset / BLOCK)) (offset `mod` BLOCK) (offset `mod` BLOCK + n) = Some (bv c <$> seqZ offset n).
Proof.
  intros Hok Hn Hin. apply get_range_Some. rewrite view_length by done. split_and!; [unfold BLOCK in *; lia..|].
  rewrite block_bytes by done. rewrite <- fmap_drop, <- fmap_take. f_equal.
  apply list_eq_same_length with (Z.to_nat n).
  - rewrite length_take, length_drop, length_seqZ. unfold BLOCK in *. lia.
  - by rewrite length_seqZ.
  - intros i x y Hi Hx Hy. apply lookup_seqZ in Hx as [-> _]. apply lookup_take_Some in Hy as [Hy _].
    rewrite lookup_drop in Hy. apply lookup_seqZ in Hy as [-> _]. unfold BLOCK in *. lia.
Qed.

Lemma wp_read_step c offset left (Q : Cache B -> list Z -> Prop) X :
  cache_ok c -> 0 <= offset -> 0 < left -> offset + left <= blk_count (blocks c) * BLOCK ->
  (forall c' n, keeps c c' -> 0 < n <= left -> Q c' (bv c <$> seqZ offset n)) ->
  (forall c', keeps c c' -> X c' CeDevice) ->
  wp (read_step offset left) Q X c.
Proof.
  intros Hok Ho Hl Hin HQ HX. unfold read_step. pose proof (count_u64 _ (ok_dev _ Hok)) as Hcount.
  destruct (_ && _) eqn:Eb.
  - set (count := Z.min (left / BLOCK) DIRECT_MAX).
    assert (0 < count /\ count * BLOCK <= left /\ offset = offset / BLOCK * BLOCK) as (Hc0 & Hcl & Hoff)
      by (unfold count, DIRECT_MAX, BLOCK in *; lia).
    assert (0 <= offset / BLOCK /\ offset / BLOCK + count <= blk_count (blocks c)) as [Hb0 Hbc] by (unfold BLOCK in *; lia).
    apply wp_bind, wp_device_read; [done..|lia|done| |].
    2: { intros d Hd. by apply HX, with_blocks_keeps. }
    intros d Hd. pose proof (with_blocks_keeps c d Hok Hd) as Hk. pose proof Hk as (Hok' & _ & Hv & _).
    apply wp_bind, wp_checked; [lia|]. apply wp_gets.
    replace (overlay _ _ _ _) with (bv c <$> seqZ offset (count * BLOCK)).
    { apply HQ; [done|unfold BLOCK in *; lia]. }
    destruct Hd as (_ & _ & Hcont). rewrite (run_ext _ (content d)) by (intros; symmetry; apply Hcont).
    rewrite (overlay_view (with_blocks d c)) by done. rewrite (run_ext _ (view c)) by (intros; apply Hv).
    rewrite blocks_bytes by (done || lia). by rewrite <- Hoff.
  - apply wp_bind, wp_slot; [done|unfold BLOCK in *; lia| |done].
    intros c' i sl Hk Hi Hsl. pose proof Hk as (Hok' & _ & Hv & _). apply wp_bind, wp_gets. rewrite Hsl.
    set (n := Z.min _ left).
    assert (Hview : sdata sl = view c' (offset / BLOCK)) by (unfold view, cached; rewrite Hi; cbn; by rewrite Hsl).
    rewrite Hview, Hv, view_range; [|done|unfold n, BLOCK; lia..].
    apply wp_ret, HQ; [done|unfold n, BLOCK; lia].
Qed.

(** What lies past the end of the device. *)
Definition out_of_range c (offset n : Z) : Prop := blk_count (blocks c) * BLOCK < offset + n \/ u64_max < offset + n.

Lemma wp_check_range c offset n (Q : Cache B -> unit -> Prop) X :
  cache_ok c ->
  (offset + n <= u64_max -> offset + n <= blk_count (blocks c) * BLOCK -> Q c tt) ->
  (out_of_range c offset n -> X c CeOutOfRange) ->
  wp (check_range offset n) Q X c.
Proof.
  intros Hok HQ HX. unfold check_range, checked_add64, cache_bytes, saturating_mul64.
  pose proof (count_u64 _ (ok_dev _ Hok)) as Hcount. apply wp_bind, wp_gets.
  destruct (offset + n <=? u64_max) eqn:E1; [|apply wp_throw, HX; unfold out_of_range; lia].
  destruct (offset + n <=? Z.min _ _) eqn:E2.
  - apply wp_ret, HQ; lia.
  - apply wp_throw, HX. unfold out_of_range. lia.
Qed.

Lemma wp_read_at c offset n (Q : Cache B -> list Z -> Prop) (X : Cache B -> CacheError -> Prop) :
  cache_ok c -> 0 <= offset -> 0 <= n ->
  (forall c', keeps c c' -> Q c' (bv c <$> seqZ offset n)) ->
  (forall c', keeps c c' -> X c' CeDevice) ->
  (out_of_range c offset n -> X c CeOutOfRange) ->
  wp (read_at offset n) Q X c.
Proof.
  intros Hok Ho Hn HQ HX HO. unfold read_at. apply wp_bind, wp_check_range; [done| |done].
  intros Hu64 Hin.
  apply (wp_loop (fun buf c' => keeps c c' /\ len buf <= n /\ buf = bv c <$> seqZ offset (len buf))
           (fun buf _ => Z.to_nat (n - len buf))).
  2: { split_and!; [by apply keeps_refl|cbn; lia|done]. }
  2: { cbn. lia. }
  intros buf c' (Hk & Hlen & Hbuf). pose proof Hk as (Hok' & [Hcount _] & Hv & _).
  destruct (len buf <? n) eqn:E.
  - apply wp_bind, wp_checked; [lia|]. apply wp_bind, wp_read_step; [done|lia|lia|rewrite Hcount; lia| |].
    2: { intros c2 Hk2. apply HX. by eapply keeps_trans. }
    intros c2 m Hk2 Hm. apply wp_ret. rewrite length_app, length_fmap, length_seqZ. split; [|lia].
    split_and!; [by eapply keeps_trans|lia|]. rewrite Hbuf at 1.
    replace (Z.of_nat (length buf + Z.to_nat m)) with (len buf + m) by lia.
    rewrite seqZ_app_split, fmap_app by lia. f_equal. apply list_fmap_ext. intros ? x _. by apply keeps_bv.
  - apply wp_ret. replace n with (len buf) in HQ by lia. rewrite Hbuf. by apply HQ.
Qed.
End io.
