(* ===== verification/CacheWrite.v ===== *)
(** * Writing through the cache

    [write_at] changes the bytes it is given and no others, whichever of its
    two ways each part takes: whole blocks straight to the device, the rest in
    the slot of its block. *)

From S2P Require Import Prelude Bytes Boot BootSpec Cache CacheSpec CacheFlush CacheIo.

Section write.
Context {B : Type} `{!Blocks B} `{!BlocksOk B}.
Implicit Types c : Cache B.

(** The volume with [data] at [offset]. *)
Definition poke (f : Z -> Z) (offset : Z) (data : list Z) (p : Z) : Z :=
  if decide (offset <= p < offset + len data) then data !!! Z.to_nat (p - offset) else f p.

(** What a write that succeeds does. *)
Definition writes c offset data c' : Prop :=
  cache_ok c' /\ same_shape c c' /\ forall p, bv c' p = poke (bv c) offset data p.

Lemma poke_nil f offset p : poke f offset [] p = f p.
Proof. unfold poke. cbn. case_decide; [lia|done]. Qed.

Lemma poke_app f offset a b p :
  poke f offset (a ++ b) p = poke (poke f offset a) (offset + len a) b p.
Proof.
  unfold poke. rewrite length_app. repeat case_decide; try lia; try done.
  - rewrite lookup_total_app_r by lia. f_equal. lia.
  - rewrite lookup_total_app_l by lia. done.
Qed.

Lemma same_shape_trans c1 c2 c3 : same_shape c1 c2 -> same_shape c2 c3 -> same_shape c1 c3.
Proof. intros [] []. split; congruence. Qed.

(** ** Whole blocks *)

Lemma replace_cached_lookup (part : list Z) block count (l : list (Z * nat)) (sl : list Slot) (f : Z -> list Z) i :
  whole f -> part = seqZ block count ≫= f ->
  (forall b j, (b, j) ∈ l -> block <= b < block + count /\ forall s, sl !! j = Some s -> sblock s = b) ->
  foldl (fun sl p => match sl !! p.2, get_range part ((p.1 - block) * BLOCK) ((p.1 - block) * BLOCK + BLOCK) with
                     | Some slot, Some source => <[p.2 := set_data source false slot]> sl
                     | _, _ => sl
                     end) sl l !! i
  = (fun s => if decide (i ∈ l.*2) then set_data (f (sblock s)) false s else s) <$> sl !! i.
Proof.
  intros Hf ->. revert sl. induction l as [|[b j] l IH]; intros sl Hl.
  { cbn. by destruct (sl !! i). }
  cbn [foldl fst snd]. destruct (Hl b j ltac:(set_solver)) as [Hb Hsl].
  rewrite run_get_block by done.
  destruct (sl !! j) as [s|] eqn:Ej.
  - pose proof (Hsl s eq_refl) as Hs. rewrite IH.
    2: { intros b' j' Hp. destruct (Hl b' j' ltac:(set_solver)) as [Hb' Hs']. split; [done|].
         intros s'. destruct (decide (j' = j)) as [->|Hne]; [|rewrite list_lookup_insert_ne by done; apply Hs'].
         rewrite list_lookup_insert_eq by (by eapply lookup_lt_Some). intros [= <-]. exact (Hs' s Ej). }
    destruct (decide (i = j)) as [->|Hne].
    + rewrite list_lookup_insert_eq by (by eapply lookup_lt_Some). rewrite Ej. cbn.
      f_equal. rewrite Hs. case_decide; case_decide; try done; set_solver.
    + rewrite list_lookup_insert_ne by done. destruct (sl !! i) as [s'|]; [|done]. cbn.
      f_equal. case_decide; case_decide; try done; set_solver.
  - rewrite IH by (intros b' j' Hp; apply Hl; set_solver). destruct (sl !! i) as [s'|] eqn:Ei; [|done]. cbn.
    f_equal. case_decide; case_decide; try done; [|set_solver].
    assert (i <> j) by congruence. set_solver.
Qed.

(** The cache after a write of whole blocks: the cached copies are new and
    clean, as the blocks on the device are. *)
Lemma replaced_blocks c block count part d :
  cache_ok c -> 0 <= block -> 0 <= count -> wrote c block count part d ->
  let c' := replace_cached block count part (with_blocks d c) in
  cache_ok c' /\ same_shape c c' /\
  forall b, view c' b = if decide (block <= b < block + count) then content d b else view c b.
Proof.
  intros Hok Hb0 Hc0 (Hwf & Hcount & Hframe & Hpart) c'.
  assert (Hslots : forall i, slots c' !! i = (fun s => if decide (block <= sblock s < block + count)
            then set_data (content d (sblock s)) false s else s) <$> slots c !! i).
  { intros i. unfold c', replace_cached. cbn [slots with_slots with_blocks].
    rewrite (replace_cached_lookup part block count _ _ (content d)); [|by intros b; apply content_length|done|].
    - destruct (slots c !! i) as [s|] eqn:Ei; [|done]. cbn. f_equal.
      pose proof (ok_slots _ Hok _ _ Ei) as Hix.
      assert (i ∈ (index_range (with_blocks d c) block count).*2 <-> block <= sblock s < block + count) as Hiff.
      { rewrite list_elem_of_fmap. split.
        - intros ([b j] & -> & Hp). apply elem_of_index_range in Hp as [Hb Hj]. cbn in *.
          destruct (ok_index _ Hok _ _ Hj) as (s' & Hs' & <-). congruence.
        - intros Hb. exists (sblock s, i). split; [done|]. by apply elem_of_index_range. }
      case_decide; case_decide; tauto.
    - intros b j Hp. apply elem_of_index_range in Hp as [Hb Hj]. split; [done|]. intros s Hs. cbn in Hj.
      destruct (ok_index _ Hok _ _ Hj) as (s' & Hs' & <-). congruence. }
  assert (Hpre : forall i sl, slots c' !! i = Some sl -> exists s0, slots c !! i = Some s0 /\ sblock sl = sblock s0 /\
            (if decide (block <= sblock s0 < block + count) then sdata sl = content d (sblock s0) /\ sdirty sl = false
             else sl = s0)).
  { intros i sl Hi. rewrite Hslots in Hi. apply fmap_Some in Hi as (s0 & Hi & ->). exists s0.
    by case_decide. }
  split_and!.
  - constructor; cbn [blocks with_blocks replace_cached with_slots c' index].
    + done.
    + intros b i Hi. destruct (ok_index _ Hok _ _ Hi) as (s0 & Hs0 & <-).
      rewrite Hslots, Hs0. cbn. eexists. split; [done|]. by case_decide.
    + intros i sl Hi. destruct (Hpre i sl Hi) as (s0 & Hs0 & -> & _). exact (ok_slots _ Hok _ _ Hs0).
    + apply Nat.le_trans with (length (slots c)); [|apply Hok]. apply Nat.nlt_ge. intros Hlt.
      apply lookup_lt_is_Some in Hlt as [sl Hsl]. destruct (Hpre _ sl Hsl) as (s0 & Hs0 & _).
      apply lookup_lt_Some in Hs0. lia.
    + intros i sl Hi. destruct (Hpre i sl Hi) as (s0 & Hs0 & -> & _). rewrite Hcount. exact (ok_block _ Hok _ _ Hs0).
    + intros i sl Hi. destruct (Hpre i sl Hi) as (s0 & Hs0 & _ & Hd). case_decide.
      * destruct Hd as [-> _]. split; [by apply content_length|by apply content_bytes].
      * subst. exact (ok_data _ Hok _ _ Hs0).
    + intros i sl Hi. destruct (Hpre i sl Hi) as (s0 & Hs0 & -> & Hd). case_decide as Hin.
      * by destruct Hd as [-> _].
      * subst. rewrite Hframe by done. exact (ok_clean _ Hok _ _ Hs0).
  - by split.
  - intros b. unfold view, cached. change (index c') with (index c). change (blocks c') with d.
    destruct (index c !! b) as [i|] eqn:Ei; cbn [mbind option_bind].
    + rewrite Hslots. destruct (ok_index _ Hok _ _ Ei) as (s0 & -> & <-). cbn. by case_decide.
    + case_decide; [done|]. by rewrite Hframe.
Qed.

Lemma writes_blocks c block count part d :
  cache_ok c -> 0 <= block -> 0 <= count -> wrote c block count part d ->
  writes c (block * BLOCK) part (replace_cached block count part (with_blocks d c)).
Proof.
  intros Hok Hb Hc Hwrote. destruct (replaced_blocks c block count part d Hok Hb Hc Hwrote) as (Hok' & Hs & Hv).
  split_and!; [done..|]. intros p. destruct Hwrote as (Hwf & _ & _ & Hpart).
  assert (Hwhole : whole (content d)) by (intros b; by apply content_length).
  assert (len part = count * BLOCK) as Hlen by (rewrite Hpart, run_length by done; unfold BLOCK; lia).
  unfold bv, poke. rewrite Hv, Hlen.
  destruct (decide (block <= p / BLOCK < block + count)) as [Hin|Hout].
  - rewrite decide_True by (unfold BLOCK in *; lia).
    pose proof (run_get_block (content d) block count _ Hwhole Hin) as Hget. rewrite <- Hpart in Hget.
    apply get_range_Some in Hget as (_ & _ & ->).
    rewrite lookup_total_take, decide_True, lookup_total_drop by (unfold BLOCK; lia). f_equal. unfold BLOCK in *. lia.
  - rewrite decide_False by (unfold BLOCK in *; lia). done.
Qed.

(** ** Part of a block *)

Lemma writes_part c i sl offset source :
  cache_ok c -> slots c !! i = Some sl -> sblock sl = offset / BLOCK ->
  offset `mod` BLOCK + len source <= BLOCK -> is_bytes source ->
  writes c offset source
    (with_slots (<[i := set_data (splice (sdata sl) (Z.to_nat (offset `mod` BLOCK)) source) true sl]> (slots c)) c).
Proof.
  intros Hok Hi Hbl Hin Hsrc. set (sl' := set_data _ true sl). set (c' := with_slots _ c).
  destruct (ok_data _ Hok _ _ Hi) as [Hlen Hbytes].
  pose proof (lookup_lt_Some _ _ _ Hi) as Hlt. pose proof (ok_slots _ Hok _ _ Hi) as Hix.
  assert (Hfit : (Z.to_nat (offset `mod` BLOCK) + length source <= length (sdata sl))%nat) by (rewrite Hlen; unfold BLOCK in *; lia).
  assert (Hslots : forall j s, slots c' !! j = Some s -> j = i /\ s = sl' \/ j <> i /\ slots c !! j = Some s).
  { intros j s Hj. cbn in Hj. destruct (decide (j = i)) as [->|Hne].
    - rewrite list_lookup_insert_eq in Hj by done. left. by simplify_eq.
    - rewrite list_lookup_insert_ne in Hj by done. by right. }
  assert (Hok' : cache_ok c').
  { constructor; cbn [blocks with_slots c' index].
    - apply Hok.
    - intros b j Hj. destruct (ok_index _ Hok _ _ Hj) as (s & Hs & <-). cbn.
      destruct (decide (j = i)) as [->|Hne]; [|rewrite list_lookup_insert_ne by done; eauto].
      rewrite list_lookup_insert_eq by done. exists sl'. split; [done|]. by simplify_eq.
    - intros j s Hj. destruct (Hslots j s Hj) as [[-> ->]|[_ Hs]]; [exact Hix|exact (ok_slots _ Hok _ _ Hs)].
    - cbn. rewrite length_insert. apply Hok.
    - intros j s Hj. destruct (Hslots j s Hj) as [[-> ->]|[_ Hs]]; [exact (ok_block _ Hok _ _ Hi)|exact (ok_block _ Hok _ _ Hs)].
    - intros j s Hj. destruct (Hslots j s Hj) as [[-> ->]|[_ Hs]]; [|exact (ok_data _ Hok _ _ Hs)]. cbn.
      split; [rewrite splice_length by done; exact Hlen|by apply splice_Forall].
    - intros j s Hj. destruct (Hslots j s Hj) as [[-> ->]|[_ Hs]]; [done|exact (ok_clean _ Hok _ _ Hs)]. }
  split_and!; [done|done|]. intros p.
  assert (Hview : forall b, view c' b = if decide (b = offset / BLOCK) then sdata sl' else view c b).
  { intros b. unfold view, cached. change (index c') with (index c). change (blocks c') with (blocks c).
    case_decide as Hb; [|].
    - subst b. rewrite <- Hbl, Hix. cbn. by rewrite list_lookup_insert_eq.
    - destruct (index c !! b) as [j|] eqn:Ej; [|done]. cbn. rewrite list_lookup_insert_ne; [done|]. intros ->.
      destruct (ok_index _ Hok _ _ Ej) as (s & Hs & <-). congruence. }
  unfold bv, poke. rewrite Hview. case_decide as Hb.
  - cbn [sdata sl' set_data]. rewrite list_lookup_total_alt, splice_lookup by done.
    assert (view c (p / BLOCK) = sdata sl) as -> by (rewrite Hb, <- Hbl; unfold view, cached; rewrite Hix; cbn; by rewrite Hi).
    destruct (decide (offset <= p < offset + len source)).
    + rewrite decide_True by (unfold BLOCK in *; lia). rewrite <- list_lookup_total_alt. f_equal. unfold BLOCK in *. lia.
    + rewrite decide_False by (unfold BLOCK in *; lia). by rewrite <- list_lookup_total_alt.
  - rewrite decide_False by (unfold BLOCK in *; lia). done.
Qed.

Lemma keeps_writes c c1 c2 offset data : keeps c c1 -> writes c1 offset data c2 -> writes c offset data c2.
Proof.
  intros Hk (Hok & Hs & Hb). split_and!; [done| |].
  - eapply same_shape_trans; [|done]. apply Hk.
  - intros p. rewrite Hb. unfold poke. case_decide; [done|]. by apply keeps_bv.
Qed.

Lemma writes_broken c c' offset data : writes c offset data c' -> broken c c'.
Proof. intros (Hok & Hs & _). split; [apply Hok|done]. Qed.

Lemma wp_write_step c offset data (Q : Cache B -> Z -> Prop) X :
  cache_ok c -> 0 <= offset -> 0 < len data -> is_bytes data -> offset + len data <= blk_count (blocks c) * BLOCK ->
  (forall c' n, writes c offset (take (Z.to_nat n) data) c' -> 0 < n <= len data -> Q c' n) ->
  (forall c', broken c c' -> X c' CeDevice) ->
  wp (write_step offset data) Q X c.
Proof.
  intros Hok Ho Hl Hbytes Hin HQ HX. unfold write_step. pose proof (count_u64 _ (ok_dev _ Hok)) as Hcount.
  destruct (_ && _) eqn:Eb.
  - set (count := Z.min (len data / BLOCK) DIRECT_MAX).
    assert (0 < count /\ count * BLOCK <= len data /\ offset = offset / BLOCK * BLOCK) as (Hc0 & Hcl & Hoff)
      by (unfold count, DIRECT_MAX, BLOCK in *; lia).
    assert (0 <= offset / BLOCK /\ offset / BLOCK + count <= blk_count (blocks c)) as [Hb0 Hbc] by (unfold BLOCK in *; lia).
    assert (Hget : get_range data 0 (count * BLOCK) = Some (take (Z.to_nat (count * BLOCK)) data)).
    { apply get_range_Some. split_and!; [unfold BLOCK in *; lia..|]. by rewrite Z.sub_0_r. }
    rewrite Hget. apply wp_bind, wp_ret, wp_bind.
    apply (wp_device_write c _ count); [done|done|lia|done| |by apply Forall_take| |].
    { rewrite length_take. unfold BLOCK in *. lia. }
    2: { intros d (Hwf & Hcnt & _). apply HX. by split. }
    intros d Hwrote. apply wp_bind, wp_checked; [lia|]. apply wp_bind, wp_modify, wp_ret, HQ.
    { rewrite Hoff at 1. apply writes_blocks; [done|done|lia|done]. }
    unfold BLOCK in *. lia.
  - apply wp_bind, wp_slot; [done|unfold BLOCK in *; lia| |by intros c' Hk; apply HX, keeps_broken].
    intros c' i sl Hk Hi Hsl. pose proof Hk as (Hok' & _). set (n := Z.min _ (len data)).
    assert (0 < n <= len data /\ offset `mod` BLOCK + n <= BLOCK) as [Hn Hfit] by (unfold n, BLOCK; lia).
    assert (Hget : get_range data 0 n = Some (take (Z.to_nat n) data)).
    { apply get_range_Some. split_and!; [lia..|]. by rewrite Z.sub_0_r. }
    rewrite Hget. apply wp_bind, wp_ret, wp_bind, wp_gets. rewrite Hsl. apply wp_bind, wp_ret.
    destruct (ok_index _ Hok' _ _ Hi) as (sl' & Hsl' & Hbl). assert (sl' = sl) as -> by congruence.
    assert (Hview : sdata sl = view c' (offset / BLOCK)) by (unfold view, cached; rewrite Hi; cbn; by rewrite Hsl).
    rewrite Hview at 1. rewrite view_range by (done || lia). apply wp_bind, wp_ret, wp_bind, wp_modify, wp_ret, HQ; [|done].
    eapply keeps_writes; [done|]. apply writes_part; [done|done|done| |by apply Forall_take].
    rewrite length_take. lia.
Qed.

Lemma writes_trans c1 c2 c3 offset a b :
  writes c1 offset a c2 -> writes c2 (offset + len a) b c3 -> writes c1 offset (a ++ b) c3.
Proof.
  intros (H1 & Hs1 & Hb1) (H2 & Hs2 & Hb2). split_and!; [done|by eapply same_shape_trans|].
  intros p. rewrite poke_app, Hb2. unfold poke. by case_decide; [|rewrite Hb1].
Qed.

Lemma wp_write_at c offset data (Q : Cache B -> unit -> Prop) (X : Cache B -> CacheError -> Prop) :
  cache_ok c -> 0 <= offset -> is_bytes data ->
  (forall c', writes c offset data c' -> cwritable c = true -> Q c' tt) ->
  (forall c', broken c c' -> cwritable c = true -> X c' CeDevice) ->
  (cwritable c = false -> X c CeReadOnly) ->
  (out_of_range c offset (len data) -> X c CeOutOfRange) ->
  wp (write_at offset data) Q X c.
Proof.
  intros Hok Ho Hbytes HQ HX HR HO. unfold write_at. apply wp_bind, wp_gets.
  destruct (cwritable c) eqn:Ew; cbn [negb]; [|by apply wp_throw, HR].
  apply wp_bind, wp_check_range; [done| |done]. intros Hu64 Hin.
  apply (wp_loop (fun done_ c' => 0 <= done_ <= len data /\ writes c offset (take (Z.to_nat done_) data) c')
           (fun done_ _ => Z.to_nat (len data - done_))).
  2: { split; [lia|]. split_and!; [done|done|]. intros p. by rewrite poke_nil. }
  2: { lia. }
  intros n c' (Hn & Hw). pose proof Hw as (Hok' & [Hcount _] & _).
  destruct (n <? len data) eqn:E.
  - apply wp_bind, wp_checked; [lia|].
    apply wp_bind, wp_write_step; [done|lia|rewrite length_drop; lia|by apply Forall_drop|rewrite length_drop, Hcount; lia| |].
    2: { intros c2 Hb2. apply HX; [|done]. eapply broken_trans; [|done]. by eapply writes_broken. }
    intros c2 m Hw2 Hm. rewrite length_drop in Hm. apply wp_ret. split; [|lia]. split; [lia|].
    replace (take (Z.to_nat (n + m)) data) with (take (Z.to_nat n) data ++ take (Z.to_nat m) (drop (Z.to_nat n) data)).
    { eapply writes_trans; [done|]. rewrite length_take. by replace (offset + _) with (offset + n) by lia. }
    rewrite take_take_drop. f_equal. lia.
  - apply wp_ret, HQ; [|done]. by rewrite take_ge in Hw by lia.
Qed.

(** [discard] after an error: whatever a failed command left, the cache holds
    what the device does. *)
Lemma discard_ok c : dev_wf (blocks c) -> cache_ok (discard c) /\ forall b, view (discard c) b = content (blocks c) b.
Proof.
  intros Hwf. split; [|done]. constructor; cbn; try done; lia.
Qed.

Lemma discard_clean c b : ~ dirty (discard c) b.
Proof. intros (sl & Hc & _). unfold cached, discard in Hc. cbn in Hc. by rewrite lookup_empty in Hc. Qed.
End write.

(** ** The theorems *)

Section theorems.
Context {B : Type} `{!Blocks B} `{!BlocksOk B}.
Implicit Types c : Cache B.

(** [read_at] returns the bytes of the volume, from the cache or from the
    device, and leaves them as they are; it fails only past the end, without
    touching anything, or when the device does, and never panics. *)
Theorem read_at_reads c offset n :
  cache_ok c -> 0 <= offset -> 0 <= n ->
  match read_at offset n c with
  | (c', Ok data) => data = bv c <$> seqZ offset n /\ cache_ok c' /\ (forall p, bv c' p = bv c p)
  | (c', Err CeDevice) => cache_ok c' /\ (forall p, bv c' p = bv c p)
  | (c', Err CeOutOfRange) => c' = c /\ out_of_range c offset n
  | (_, Err CeReadOnly) | (_, Stuck _) => False
  end.
Proof.
  intros Hok Ho Hn.
  assert (wp (read_at offset n)
    (fun c' data => data = bv c <$> seqZ offset n /\ cache_ok c' /\ (forall p, bv c' p = bv c p))
    (fun c' e => match e with
                 | CeDevice => cache_ok c' /\ (forall p, bv c' p = bv c p)
                 | CeOutOfRange => c' = c /\ out_of_range c offset n
                 | CeReadOnly => False
                 end) c) as H.
  { apply wp_read_at; [done..| | |done].
    - intros c' Hk. split_and!; [done|apply Hk|]. intros p. by apply keeps_bv.
    - intros c' Hk. split; [apply Hk|]. intros p. by apply keeps_bv. }
  unfold wp in H. by destruct (read_at offset n c) as [c' [data|[]|w]].
Qed.

(** C23: [write_at] changes the bytes it is given and no others, whether a
    part goes straight to the device or into a slot; it refuses, and changes
    nothing, when the volume is read-only or the range is past its end, and
    never panics. *)
Theorem write_at_writes c offset data :
  cache_ok c -> 0 <= offset -> is_bytes data ->
  match write_at offset data c with
  | (c', Ok _) => cwritable c = true /\ cache_ok c' /\ forall p, bv c' p = poke (bv c) offset data p
  | (c', Err CeDevice) => cwritable c = true /\ blk_count (blocks c') = blk_count (blocks c)
  | (c', Err CeOutOfRange) => c' = c /\ out_of_range c offset (len data)
  | (c', Err CeReadOnly) => c' = c /\ cwritable c = false
  | (_, Stuck _) => False
  end.
Proof.
  intros Hok Ho Hb.
  assert (wp (write_at offset data)
    (fun c' _ => cwritable c = true /\ cache_ok c' /\ forall p, bv c' p = poke (bv c) offset data p)
    (fun c' e => match e with
                 | CeDevice => cwritable c = true /\ blk_count (blocks c') = blk_count (blocks c)
                 | CeOutOfRange => c' = c /\ out_of_range c offset (len data)
                 | CeReadOnly => c' = c /\ cwritable c = false
                 end) c) as H.
  { apply wp_write_at; try done.
    - intros c' (Hok' & _ & Hp) Hw. done.
    - intros c' (_ & Hc & _) Hw. done. }
  unfold wp in H. by destruct (write_at offset data c) as [c' [u|[]|w]].
Qed.

(** what was written is read back, from the same volume. *)
Theorem write_then_read c offset data c1 c2 got :
  cache_ok c -> 0 <= offset -> is_bytes data ->
  write_at offset data c = (c1, Ok tt) -> read_at offset (len data) c1 = (c2, Ok got) -> got = data.
Proof.
  intros Hok Ho Hb Hw Hr.
  assert (writes c offset data c1) as (Hok1 & _ & Hp).
  { pose proof (wp_write_at c offset data (fun c' _ => writes c offset data c') (fun _ _ => True) Hok Ho Hb) as H.
    unfold wp in H. rewrite Hw in H. by apply H. }
  assert (got = bv c1 <$> seqZ offset (len data)) as ->.
  { pose proof (wp_read_at c1 offset (len data) (fun _ g => g = bv c1 <$> seqZ offset (len data)) (fun _ _ => True) Hok1 Ho) as H.
    unfold wp in H. rewrite Hr in H. apply H; [lia|done..]. }
  apply list_eq_same_length with (length data); [done|rewrite length_fmap, length_seqZ; lia|].
  intros i x y Hi Hx Hy. apply list_lookup_fmap_Some in Hx as (p & -> & Hq). apply lookup_seqZ in Hq as [-> Hlt].
  rewrite Hp. unfold poke. rewrite decide_True by lia.
  replace (Z.to_nat (offset + Z.of_nat i - offset)) with i by lia. by apply list_lookup_total_correct.
Qed.

(** C24: after [flush] the device holds every byte the cache showed, nothing is
    left to write, and the bytes are the same; a flush that fails leaves them
    to be written again, and no flush panics. *)
Theorem flush_writes_back c :
  cache_ok c ->
  match flush c with
  | (c', Ok _) => cache_ok c' /\ has_dirty c' = false /\ forall b, content (blocks c') b = view c b
  | (c', Err e) => e = CeDevice /\ cache_ok c' /\ forall b, view c' b = view c b
  | (_, Stuck _) => False
  end.
Proof.
  intros Hok.
  assert (wp flush
    (fun c' _ => cache_ok c' /\ has_dirty c' = false /\ forall b, content (blocks c') b = view c b)
    (fun c' e => e = CeDevice /\ cache_ok c' /\ forall b, view c' b = view c b) c) as H.
  { apply wp_flush; [done| |].
    - intros c' (Hok' & _ & Hv & _) _ Hclean. split_and!; [done|by apply has_dirty_false|].
      intros b. rewrite <- Hv. by apply flushed_content.
    - intros c' (Hok' & _ & Hv & _). done. }
  unfold wp in H. by destruct (flush c) as [c' [u|e|w]].
Qed.

(** when a block has to make room and some cached block is clean, the two
    passes of the clock hand find a clean one, so that only a cache full of
    blocks not yet written is ever flushed to make room. *)
Theorem victim_is_clean c :
  (exists i sl, slots c !! i = Some sl /\ sdirty sl = false) ->
  exists i sl, (victim c).2 = Some i /\ slots (victim c).1 !! i = Some sl /\ sdirty sl = false.
Proof.
  intros (i & sl & Hi & Hd). destruct (victim_finds c i sl Hi Hd) as [j Hj].
  destruct (victim_spec c) as [_ Hv]. rewrite Hj in Hv. destruct Hv as (sl' & Hsl & Hd'). eauto.
Qed.
End theorems.
