(* ===== verification/Devices.v ===== *)
(** * The devices in memory keep what the trait promises

    [Memory] and [Recorder] (tools/fatdisk/src/image.rs) are instances of
    [BlocksOk], so that everything proved over a device of that class holds on
    them, whatever writes [fail_after] makes fail. *)

From S2P Require Import Prelude Bytes Boot BootSpec Cache CacheSpec CacheIo.

(** ** The bytes of a volume in memory, block by block *)

Definition data_wf (data : list Z) : Prop := is_bytes data /\ len data <= u64_max.

Definition data_block (data : list Z) (b : Z) : list Z :=
  if decide (0 <= b < len data / SECTOR) then take (Z.to_nat SECTOR) (drop (Z.to_nat (b * SECTOR)) data)
  else replicate (Z.to_nat SECTOR) 0.

Lemma data_block_length data b : length (data_block data b) = Z.to_nat BLOCK.
Proof.
  unfold data_block, BLOCK, SECTOR. case_decide; [|by rewrite length_replicate].
  rewrite length_take, length_drop. lia.
Qed.

Lemma data_block_bytes data b : data_wf data -> is_bytes (data_block data b).
Proof.
  intros [Hb _]. unfold data_block. case_decide; [by apply Forall_take, Forall_drop|].
  apply Forall_replicate. unfold is_u8, u8_max. lia.
Qed.

Lemma data_run data b k :
  0 <= b -> 0 <= k -> b + k <= len data / SECTOR ->
  take (Z.to_nat (k * SECTOR)) (drop (Z.to_nat (b * SECTOR)) data) = seqZ b k ≫= data_block data.
Proof.
  intros Hb Hk. revert b Hb. pattern k. apply natlike_ind; [done| |done]. clear k Hk.
  intros k Hk IH b Hb Hin. rewrite <- Z.add_1_l, seqZ_app_split, bind_app by lia.
  rewrite <- IH by lia. rewrite (seqZ_cons b 1), seqZ_nil by lia. cbn [mbind list_bind]. rewrite app_nil_r.
  unfold data_block. rewrite decide_True by lia. unfold SECTOR in *.
  replace (Z.to_nat ((1 + k) * 512)) with (Z.to_nat 512 + Z.to_nat (k * 512))%nat by lia.
  rewrite <- take_take_drop, drop_drop. do 3 f_equal. lia.
Qed.

Lemma byte_range_in data b k :
  data_wf data -> 0 <= b -> 0 <= k -> b + k <= len data / SECTOR ->
  byte_range b (k * SECTOR) = Some (b * SECTOR, b * SECTOR + k * SECTOR) /\
  get_range data (b * SECTOR) (b * SECTOR + k * SECTOR) = Some (seqZ b k ≫= data_block data).
Proof.
  intros [_ Hu] Hb Hk Hin. unfold byte_range.
  rewrite !(proj2 (Z.leb_le _ _)) by (unfold SECTOR in *; lia). split; [done|].
  apply get_range_Some. split_and!; [unfold SECTOR in *; lia..|].
  rewrite <- data_run by done. f_equal. lia.
Qed.

Lemma data_read_in data b k part :
  data_wf data -> 0 <= b -> 0 <= k -> b + k <= len data / SECTOR ->
  data_read data b (k * SECTOR) = Some part -> part = seqZ b k ≫= data_block data.
Proof.
  intros Hwf Hb Hk Hin. unfold data_read. destruct (byte_range_in data b k Hwf Hb Hk Hin) as [-> ->]. congruence.
Qed.

Lemma data_read_bytes data b n part : data_wf data -> data_read data b n = Some part -> is_bytes part.
Proof.
  intros [Hb _]. unfold data_read. destruct (byte_range b n) as [[from to]|]; [|done]. by apply get_range_Forall.
Qed.

Lemma data_write_in data b k new data' :
  data_wf data -> 0 <= b -> 0 <= k -> b + k <= len data / SECTOR -> len new = k * SECTOR -> is_bytes new ->
  data_write data b new = Some data' ->
  data_wf data' /\ length data' = length data /\ new = seqZ b k ≫= data_block data' /\
  forall x, ~ b <= x < b + k -> data_block data' x = data_block data x.
Proof.
  intros Hwf Hb Hk Hin Hlen Hnew. unfold data_write. rewrite Hlen.
  destruct (byte_range_in data b k Hwf Hb Hk Hin) as [-> ->]. intros [= <-].
  assert (Hfit : (Z.to_nat (b * SECTOR) + length new <= length data)%nat) by (unfold SECTOR in *; lia).
  assert (Hl : length (splice data (Z.to_nat (b * SECTOR)) new) = length data) by (by apply splice_length).
  split_and!.
  - split; [by apply splice_Forall; [apply Hwf|]|]. rewrite Hl. apply Hwf.
  - done.
  - rewrite <- data_run by (rewrite ?Hl; done). unfold splice.
    rewrite drop_app_length' by (rewrite length_take; lia). by rewrite take_app_length' by lia.
  - intros x Hx. unfold data_block. rewrite Hl. case_decide as Hxc; [|done].
    apply list_eq_same_length with (Z.to_nat SECTOR).
    + rewrite length_take, length_drop. unfold SECTOR in *. lia.
    + rewrite length_take, length_drop, Hl. unfold SECTOR in *. lia.
    + intros i y z Hi Hy Hz. apply lookup_take_Some in Hy as [Hy _], Hz as [Hz _]. rewrite lookup_drop in Hy, Hz.
      rewrite splice_lookup, decide_False in Hy by (unfold SECTOR in *; lia). congruence.
Qed.

Lemma count_wf data : data_wf data -> 0 <= len data / SECTOR <= u64_max.
Proof. intros [_ Hu]. unfold SECTOR. lia. Qed.

(** ** The instances *)

#[global] Program Instance Memory_ok : BlocksOk Memory := {
  dev_wf m := data_wf (mem_data m);
  content m := data_block (mem_data m);
}.
Next Obligation. intros. by apply count_wf. Qed.
Next Obligation. intros. apply data_block_length. Qed.
Next Obligation. intros. by apply data_block_bytes. Qed.
Next Obligation. intros d b n d' r Hwf _ _. cbn. intros [= <- _]. done. Qed.
Next Obligation. intros d b n d' data Hwf _ _. cbn. intros [= _ H]. exact (data_read_bytes _ _ _ _ Hwf H). Qed.
Next Obligation. intros d b k d' data Hwf Hb Hk Hin. cbn. intros [= _ H]. by apply data_read_in in H. Qed.
Next Obligation.
  intros d b k data d' r Hwf Hb Hk Hin Hlen Hbytes. cbn.
  destruct (data_write (mem_data d) b data) as [data'|] eqn:E; intros [= <- _]; [|done].
  apply (data_write_in _ _ k) in E as (? & Hl & _ & ?); try done. cbn. by rewrite Hl.
Qed.
Next Obligation.
  intros d b k data d' Hwf Hb Hk Hin Hlen Hbytes. cbn.
  destruct (data_write (mem_data d) b data) as [data'|] eqn:E; intros [= <-].
  apply (data_write_in _ _ k) in E as (_ & _ & H & _); done.
Qed.

#[global] Program Instance Recorder_ok : BlocksOk Recorder := {
  dev_wf r := data_wf (rec_data r);
  content r := data_block (rec_data r);
}.
Next Obligation. intros. by apply count_wf. Qed.
Next Obligation. intros. apply data_block_length. Qed.
Next Obligation. intros. by apply data_block_bytes. Qed.
Next Obligation. intros d b n d' r Hwf _ _. cbn. intros [= <- _]. done. Qed.
Next Obligation.
  intros d b n d' data Hwf _ _. cbn. destruct (fail_reads d); intros [= _ H]. exact (data_read_bytes _ _ _ _ Hwf H).
Qed.
Next Obligation.
  intros d b k d' data Hwf Hb Hk Hin. cbn. destruct (fail_reads d); intros [= _ H]. by apply data_read_in in H.
Qed.
Next Obligation.
  intros d b k data d' r Hwf Hb Hk Hin Hlen Hbytes. cbn. destruct (writes_exhausted d); [by intros [= <- _]|].
  destruct (data_write (rec_data d) b data) as [data'|] eqn:E; intros [= <- _]; [|done].
  apply (data_write_in _ _ k) in E as (? & Hl & _ & ?); try done. cbn. by rewrite Hl.
Qed.
Next Obligation.
  intros d b k data d' Hwf Hb Hk Hin Hlen Hbytes. cbn. destruct (writes_exhausted d); [done|].
  destruct (data_write (rec_data d) b data) as [data'|] eqn:E; intros [= <-].
  apply (data_write_in _ _ k) in E as (_ & _ & H & _); done.
Qed.
