(* ===== verification/Table.v ===== *)
(** * The file allocation table

    [kernel/src/storage/fat/table.rs]: FAT entries and their copies, chains,
    free clusters, and FAT[1]'s clean-shutdown flag. A [Fat] keeps the layout,
    the count of free clusters once it is known, and where the next search for
    a free cluster starts. *)

From S2P Require Import Prelude Bytes Boot Cache.

Definition MASK : Z := 0x0FFFFFFF.
Definition RESERVED_BITS : Z := 0xF0000000.
Definition FREE : Z := 0.
Definition BAD : Z := 0x0FFFFFF7.
Definition END_MIN : Z := 0x0FFFFFF8.
Definition END : Z := 0x0FFFFFFF.
Definition CLEAN_SHUTDOWN : Z := 0x08000000.
Definition NO_HARD_ERROR : Z := 0x04000000.
Definition ENTRIES_PER_BLOCK : Z := BLOCK / 4.
Definition SCAN_BLOCKS : Z := 256.

Inductive Link := Free | Next (cluster : Z) | LinkEnd | Bad | Damaged (value : Z).

#[global] Instance Link_eq_dec : EqDecision Link.
Proof. solve_decision. Defined.

Record Fat := mkFat { layout : Layout; free : option Z; cursor : Z }.

Definition fat_new (l : Layout) (hint : Z) : Fat :=
  mkFat l None (if is_cluster l hint then hint else 2).

Definition classify (l : Layout) (value : Z) : Link :=
  let v := Z.land value MASK in
  if v =? FREE then Free
  else if is_cluster l v then Next v
  else if v =? BAD then Bad
  else if END_MIN <=? v then LinkEnd
  else Damaged v.

Definition known_free (f : Fat) : option Z := free f.
Definition forget_free (f : Fat) : Fat := mkFat (layout f) None (cursor f).
Definition took (count : Z) (f : Fat) : Fat :=
  mkFat (layout f) ((fun n => saturating_sub n count) <$> free f) (cursor f).
Definition gave (count : Z) (f : Fat) : Fat :=
  mkFat (layout f) ((fun n => Z.min (saturating_add32 n count) (clusters (layout f))) <$> free f) (cursor f).

Section table.
Context {B : Type} `{!Blocks B}.

Abbreviation CM := (M (Cache B) FsError).

(** [?] on a result of the cache. *)
Definition lift {A} (m : M (Cache B) CacheError A) : CM A := map_err fs_error_from m.

Definition read_raw (l : Layout) (copy entry : Z) : CM Z :=
  let! offset := fat_offset l copy entry in
  let! bytes := lift (read_at offset 4) in
  ret (le32 bytes 0).

Definition write_raw (l : Layout) (copy entry value : Z) : CM unit :=
  let! offset := fat_offset l copy entry in
  lift (write_at offset (le_bytes32 value)).

Definition link (l : Layout) (cluster : Z) : CM Link :=
  if negb (is_cluster l cluster) then throw Corrupt
  else
    let! value := read_raw l (read_copy l) cluster in
    ret (classify l value).

Definition next (l : Layout) (cluster : Z) : CM (option Z) :=
  let! found := link l cluster in
  match found with
  | Next cluster => ret (Some cluster)
  | LinkEnd => ret None
  | Free | Bad | Damaged _ => throw Corrupt
  end.

Definition set (l : Layout) (cluster value : Z) : CM unit :=
  if negb (is_cluster l cluster) then throw Corrupt
  else
    let! copies := written_copies l in
    mapM_ (fun copy =>
             let! old := read_raw l copy cluster in
             write_raw l copy cluster (Z.lor (Z.land old RESERVED_BITS) (Z.land value MASK))) copies.

Definition walk (l : Layout) (first : Z) : CM (Z * Z) :=
  if negb (is_cluster l first) then throw Corrupt
  else
    loop (S (Z.to_nat (clusters l)))
      (fun '(count, cluster) =>
         let! found := link l cluster in
         match found with
         | LinkEnd => ret (inr (count, cluster))
         | Next next =>
             if clusters l <=? count then throw Corrupt
             else let! count := u32 (count + 1) in ret (inl (count, next))
         | Free | Bad | Damaged _ => throw Corrupt
         end) (1, first).

(** The loop of [free_chain]: [i] clusters of [count] are done, and
    [cluster] is next. *)
Fixpoint free_loop (l : Layout) (todo : nat) (i count cluster : Z) : CM unit :=
  match todo with
  | O => ret tt
  | S todo =>
      let! found := link l cluster in
      set l cluster FREE ;;;
      let! i' := u32 (i + 1) in
      if i' <? count then
        match found with
        | Next next => free_loop l todo i' count next
        | _ => throw Corrupt
        end
      else free_loop l todo i' count cluster
  end.

Definition clean (l : Layout) : CM bool :=
  let! value := read_raw l (read_copy l) 1 in
  ret (negb (Z.land value CLEAN_SHUTDOWN =? 0)).

(** The loop of [set_clean]; [old & !CLEAN_SHUTDOWN] is on a [u32]. *)
Fixpoint set_clean_loop (l : Layout) (on : bool) (changed : bool) (copies : list Z) : CM bool :=
  match copies with
  | [] => ret changed
  | copy :: copies =>
      let! old := read_raw l copy 1 in
      let new := if on then Z.lor old CLEAN_SHUTDOWN else Z.land old (u32_max - CLEAN_SHUTDOWN) in
      if negb (new =? old) then write_raw l copy 1 new ;;; set_clean_loop l on true copies
      else set_clean_loop l on changed copies
  end.

Definition set_clean (l : Layout) (on : bool) : CM bool :=
  let! copies := written_copies l in
  set_clean_loop l on false copies.

(** The closure of [scan] and what it captures: it is given the entry's
    number and link, and says whether to go on. *)
Section scan.
Context {A : Type} (l : Layout) (visit : A -> Z -> Link -> A * bool).

(** The [for] loop over the entries of the sectors read; [inr] when
    [visit] has said to stop. *)
Fixpoint scan_entries (raws : list (list Z)) (at_ entry to : Z) (acc : A) : A + A :=
  match raws with
  | [] => inl acc
  | raw :: raws =>
      if at_ <? entry then scan_entries raws (at_ + 1) entry to acc
      else if to <=? at_ then inl acc
      else
        let (acc, go) := visit acc at_ (classify l (le32 raw 0)) in
        if go then scan_entries raws (at_ + 1) entry to acc else inr acc
  end.

Definition scan (from to : Z) (acc : A) : CM A :=
  let! last := u32 (clusters l + 2) in
  let to := Z.min to last in
  loop (S (Z.to_nat (to - from)))
    (fun '(entry, acc) =>
       if entry <? to then
         let block := entry / ENTRIES_PER_BLOCK in
         let blocks := Z.min ((to - 1) / ENTRIES_PER_BLOCK - block + 1) SCAN_BLOCKS in
         let first := block * ENTRIES_PER_BLOCK in
         let! offset := fat_offset l (read_copy l) first in
         let! bytes := lift (read_at offset (blocks * BLOCK)) in
         match scan_entries (chunks_exact 4 bytes) first entry to acc with
         | inr acc => ret (inr acc)
         | inl acc =>
             let! entry := u32 (first + blocks * ENTRIES_PER_BLOCK) in
             ret (inl (entry, acc))
         end
       else ret (inr acc)) (from, acc).
End scan.

(** The methods that take [&mut self] work on the table and the cache
    together. *)
Abbreviation FM := (M (Fat * Cache B) FsError).

Definition on_cache {A} (m : CM A) : FM A := zoom snd (fun c s => (s.1, c)) m.
Definition on_fat (f : Fat -> Fat) : FM unit := modify (fun s => (f s.1, s.2)).
Definition self_layout : FM Layout := gets (fun s => layout s.1).

Definition free_chain (first count : Z) : FM unit :=
  let! l := self_layout in
  on_cache (free_loop l (Z.to_nat count) 0 count first) ;;;
  on_fat (gave count).

Definition count_free (n : Z) (_ : Z) (link : Link) : Z * bool :=
  (if decide (link = Free) then n + 1 else n, true).

Definition free_count : FM Z :=
  let! known := gets (fun s => free s.1) in
  match known with
  | Some n => ret n
  | None =>
      let! l := self_layout in
      let! to := u32 (clusters l + 2) in
      let! n := on_cache (scan l count_free 2 to 0) in
      on_fat (fun f => mkFat (layout f) (Some n) (cursor f)) ;;;
      ret n
  end.

(** [out] with what is found pushed, and how many were found. *)
Definition collect_free (want : Z) (acc : list Z * Z) (cluster : Z) (link : Link) : (list Z * Z) * bool :=
  let acc := if decide (link = Free) then (acc.1 ++ [cluster], acc.2 + 1) else acc in
  (acc, acc.2 <? want).

Fixpoint find_in_ranges (want : Z) (ranges : list (Z * Z)) (acc : list Z * Z) : FM (list Z * Z) :=
  match ranges with
  | [] => ret acc
  | (from, to) :: ranges =>
      if want <=? acc.2 then ret acc
      else
        let! l := self_layout in
        let! acc := on_cache (scan l (collect_free want) from to acc) in
        find_in_ranges want ranges acc
  end.

Definition find_free (want : Z) (out : list Z) : FM (list Z) :=
  let! known := gets (fun s => free s.1) in
  if (want =? 0) || bool_decide (known = Some 0) then ret out
  else
    let! start := gets (fun s => cursor s.1) in
    let! l := self_layout in
    let! top := u32 (clusters l + 2) in
    let! acc := find_in_ranges want [(start, top); (2, start)] (out, 0) in
    (if acc.2 <? want then on_fat (fun f => mkFat (layout f) (Some acc.2) (cursor f)) else ret tt) ;;;
    match head acc.1 with
    | Some first =>
        if is_cluster l first then on_fat (fun f => mkFat (layout f) (free f) first) else ret tt
    | None => ret tt
    end ;;;
    ret acc.1.

Definition next_free_hint : FM Z :=
  let! one := find_free 1 [] in
  ret (default FSI_UNKNOWN (head one)).
End table.
