(* ===== verification/TableSpec.v ===== *)
(** * Entries and chains of the FAT

    The FAT as the code sees it: [word] the 32 bits at a position, [fat_link]
    what the entry of a cluster says, and [chain], a chain of clusters from its
    first to its end. [read_raw], [write_raw], [link], [set], [walk] and
    [free_chain] in those terms. *)

From S2P Require Import Prelude Words Bytes Boot BootSpec Cache CacheSpec CacheFlush CacheIo CacheWrite Table.

(** An entry written over [old]: the reserved bits of [old], the value asked for. *)
Definition entry_over (old value : Z) : Z := Z.lor (Z.land old RESERVED_BITS) (Z.land value MASK).

Lemma entry_over_u32 old value : is_u32 old -> is_u32 value -> is_u32 (entry_over old value).
Proof.
  intros Ho Hv. apply u32_lor; apply u32_land; unfold is_u32, u32_max, RESERVED_BITS, MASK in *; lia.
Qed.

Lemma entry_over_value old value : Z.land (entry_over old value) MASK = Z.land value MASK.
Proof.
  unfold entry_over. rewrite Z.land_lor_distr_l, <- !Z.land_assoc.
  change (Z.land RESERVED_BITS MASK) with 0. change (Z.land MASK MASK) with MASK.
  by rewrite Z.land_0_r, Z.lor_0_l.
Qed.

Lemma entry_over_reserved old value : Z.land (entry_over old value) RESERVED_BITS = Z.land old RESERVED_BITS.
Proof.
  unfold entry_over. rewrite Z.land_lor_distr_l, <- !Z.land_assoc.
  change (Z.land MASK RESERVED_BITS) with 0. change (Z.land RESERVED_BITS RESERVED_BITS) with RESERVED_BITS.
  by rewrite Z.land_0_r, Z.lor_0_r.
Qed.

Lemma classify_over l old value : classify l (entry_over old value) = classify l value.
Proof. unfold classify. by rewrite entry_over_value. Qed.

(** The word of the volume [f] at [p], little-endian. *)
Definition word (f : Z -> Z) (p : Z) : Z := f p + 256 * (f (p + 1) + 256 * (f (p + 2) + 256 * f (p + 3))).

Lemma word_ext f g p : (forall i, 0 <= i < 4 -> f (p + i) = g (p + i)) -> word f p = word g p.
Proof.
  intros H. unfold word. pose proof (H 0 ltac:(lia)) as H0. rewrite Z.add_0_r in H0.
  rewrite H0, (H 1), (H 2), (H 3) by lia. done.
Qed.

Lemma le32_word f p : le32 (f <$> seqZ p 4) 0 = word f p.
Proof.
  unfold le32, word. change (seqZ p 4) with [0 + p; 1 + p; 2 + p; 3 + p]. rewrite Z.add_0_l.
  rewrite (Z.add_comm 1), (Z.add_comm 2), (Z.add_comm 3). done.
Qed.

Lemma word_poke f p v : is_u32 v -> word (poke f p (le_bytes32 v)) p = v.
Proof.
  intros Hv. unfold word, poke. cbn [length le_bytes32].
  rewrite !decide_True by lia.
  replace (p - p) with 0 by lia. replace (p + 1 - p) with 1 by lia.
  replace (p + 2 - p) with 2 by lia. replace (p + 3 - p) with 3 by lia.
  change (le_bytes32 v !!! Z.to_nat 0) with (v `mod` 256).
  change (le_bytes32 v !!! Z.to_nat 1) with ((v / 256) `mod` 256).
  change (le_bytes32 v !!! Z.to_nat 2) with ((v / 65536) `mod` 256).
  change (le_bytes32 v !!! Z.to_nat 3) with ((v / 16777216) `mod` 256).
  unfold is_u32, u32_max in Hv. lia.
Qed.

Lemma le_bytes32_bytes v : is_bytes (le_bytes32 v).
Proof. repeat constructor; unfold u8_max; lia. Qed.

(** ** Chains *)

(** The clusters of a chain, from its first to the one marked as its end. *)
Inductive chain (lk : Z -> Link) : Z -> list Z -> Prop :=
| chain_end a : lk a = LinkEnd -> chain lk a [a]
| chain_next a b cs : lk a = Next b -> chain lk b cs -> chain lk a (a :: cs).

Section chain.
Context (lk : Z -> Link).

Lemma chain_fun a cs cs' : chain lk a cs -> chain lk a cs' -> cs = cs'.
Proof.
  intros H. revert cs'. induction H as [a Ha|a b cs Ha H IH]; inversion 1; simplify_eq; try congruence.
  f_equal. assert (b = b0) as <- by congruence. auto.
Qed.

Lemma chain_head a cs : chain lk a cs -> head cs = Some a.
Proof. by inversion 1. Qed.

Lemma chain_not_nil a cs : chain lk a cs -> cs <> [].
Proof. by inversion 1. Qed.

(** A chain from any of its clusters is a tail of it. *)
Lemma chain_suffix a cs x : chain lk a cs -> x ∈ cs -> exists k, chain lk x (drop k cs) /\ (x = a \/ 0 < k)%nat.
Proof.
  induction 1 as [a Ha|a b cs Ha H IH]; intros Hx.
  - apply list_elem_of_singleton in Hx as ->. exists 0%nat. split; [by constructor|by left].
  - apply elem_of_cons in Hx as [->|Hx].
    + exists 0%nat. split; [by econstructor|by left].
    + destruct (IH Hx) as (k & Hk & _). exists (S k). split; [done|right; lia].
Qed.

(** A chain that ends visits no cluster twice. *)
Lemma chain_NoDup a cs : chain lk a cs -> NoDup cs.
Proof.
  induction 1 as [a Ha|a b cs Ha H IH]; [apply NoDup_singleton|]. constructor; [|done].
  intros Hin. destruct (chain_suffix b cs a H Hin) as (k & Hk & _).
  assert (drop k cs = a :: cs) as E by (eapply chain_fun; [exact Hk|by econstructor]).
  apply (f_equal length) in E. rewrite length_drop in E. cbn in E. lia.
Qed.

(** The clusters after the first [k] of a chain. *)
Lemma chain_ext (lk' : Z -> Link) a cs :
  chain lk a cs -> (forall x, x ∈ cs -> lk' x = lk x) -> chain lk' a cs.
Proof.
  induction 1 as [a Ha|a b cs Ha H IH]; intros Hext.
  - constructor. rewrite Hext; [done|set_solver].
  - econstructor; [rewrite Hext; [done|set_solver]|]. apply IH. set_solver.
Qed.
End chain.

Section entries.
Context {B : Type} `{!Blocks B} `{!BlocksOk B}.
Implicit Types c : Cache B.
Context (l : Layout).

(** The cache of a volume with layout [l]. *)
Definition vol_ok c : Prop := cache_ok c /\ layout_wf (blk_count (blocks c)) l.

Definition fat_word c (copy entry : Z) : Z := word (bv c) (fat_pos l copy entry).
Definition fat_link c (cluster : Z) : Link := classify l (fat_word c (read_copy l) cluster).

Lemma vol_ok_keeps c c' : vol_ok c -> keeps c c' -> vol_ok c'.
Proof. intros [_ Hwf] (Hok & [Hc _] & _). split; [done|]. by rewrite Hc. Qed.

Lemma vol_ok_shape c c' : vol_ok c -> cache_ok c' -> same_shape c c' -> vol_ok c'.
Proof. intros [_ Hwf] Hok [Hc _]. split; [done|]. by rewrite Hc. Qed.

Lemma fat_word_keeps c c' copy e : keeps c c' -> fat_word c' copy e = fat_word c copy e.
Proof. intros Hk. apply word_ext. intros. by apply keeps_bv. Qed.

Lemma fat_link_keeps c c' a : keeps c c' -> fat_link c' a = fat_link c a.
Proof. intros Hk. unfold fat_link. by rewrite (fat_word_keeps _ _ _ _ Hk). Qed.

Lemma fat_word_u32 c copy e : cache_ok c -> is_u32 (fat_word c copy e).
Proof.
  intros Hok. unfold fat_word, word. pose proof (bv_byte c) as H.
  unfold is_u8, u8_max, is_u32, u32_max in *.
  set (p := fat_pos l copy e). pose proof (H p Hok). pose proof (H (p + 1) Hok).
  pose proof (H (p + 2) Hok). pose proof (H (p + 3) Hok). lia.
Qed.

(** Part of the volume is not past the device's end. *)
Lemma in_volume c p n : vol_ok c -> p + n <= sectors l * BLOCK -> ~ out_of_range c p n.
Proof.
  intros [_ Hwf] Hin. pose proof (wf_sectors _ _ Hwf). unfold out_of_range, BLOCK, u32_max, u64_max in *. lia.
Qed.

Lemma fat_in_volume c copy e :
  vol_ok c -> 0 <= copy < fats l -> 0 <= e < clusters l + 2 ->
  0 <= fat_pos l copy e /\ fat_pos l copy e + 4 <= sectors l * BLOCK.
Proof.
  intros [_ Hwf] Hc He. pose proof (fat_pos_data _ _ Hwf copy e Hc He).
  pose proof (data_start_range _ _ Hwf). unfold BLOCK in *. lia.
Qed.

Lemma wp_read_raw c copy e (Q : Cache B -> Z -> Prop) X :
  vol_ok c -> 0 <= copy < fats l -> 0 <= e < clusters l + 2 ->
  (forall c', keeps c c' -> Q c' (fat_word c copy e)) -> (forall c', keeps c c' -> X c' Io) ->
  wp (read_raw l copy e) Q X c.
Proof.
  intros Hv Hc He HQ HX. pose proof Hv as [Hok Hwf]. unfold read_raw.
  apply wp_bind, (wp_fat_offset _ _ Hwf); [done..|].
  destruct (fat_in_volume c copy e Hv Hc He) as [H0 Hend].
  apply wp_bind, wp_map_err, wp_read_at; [done|done|lia| |done|].
  - intros c' Hk. apply wp_ret. rewrite le32_word. by apply HQ.
  - intros Hout. by apply (in_volume c _ _ Hv Hend) in Hout.
Qed.

Lemma wp_write_raw c copy e v (Q : Cache B -> unit -> Prop) X :
  vol_ok c -> 0 <= copy < fats l -> 0 <= e < clusters l + 2 ->
  (forall c', writes c (fat_pos l copy e) (le_bytes32 v) c' -> cwritable c = true -> Q c' tt) ->
  (forall c', broken c c' -> cwritable c = true -> X c' Io) -> (cwritable c = false -> X c ReadOnly) ->
  wp (write_raw l copy e v) Q X c.
Proof.
  intros Hv Hc He HQ HX HR. pose proof Hv as [Hok Hwf]. unfold write_raw.
  apply wp_bind, (wp_fat_offset _ _ Hwf); [done..|].
  destruct (fat_in_volume c copy e Hv Hc He) as [H0 Hend].
  apply wp_map_err, wp_write_at; [done|done|apply le_bytes32_bytes|done|done|done|].
  intros Hout. by apply (in_volume c _ _ Hv Hend) in Hout.
Qed.

Lemma wp_link c a (Q : Cache B -> Link -> Prop) X :
  vol_ok c ->
  (forall c', keeps c c' -> is_cluster l a = true -> Q c' (fat_link c a)) ->
  (forall c', keeps c c' -> X c' Io) -> (is_cluster l a = false -> X c Corrupt) ->
  wp (link l a) Q X c.
Proof.
  intros Hv HQ HX HC. pose proof Hv as [Hok Hwf]. unfold link.
  destruct (is_cluster l a) eqn:Ha; cbn [negb]; [|by apply wp_throw, HC].
  pose proof Ha as Ha'. apply is_cluster_iff in Ha'.
  apply wp_bind, wp_read_raw; [done|apply (read_copy_range _ _ Hwf)|lia| |done].
  intros c' Hk. apply wp_ret. by apply HQ.
Qed.

(** ** Setting an entry *)

(** Where no copy of [a]'s entry is. *)
Definition off_entry (a p : Z) : Prop :=
  forall copy, copy ∈ copies l -> ~ fat_pos l copy a <= p < fat_pos l copy a + 4.

(** The entry of [a] set to [v] in every copy that is written, and nothing
    else of the volume changed. *)
Definition fat_set c a v c' : Prop :=
  cache_ok c' /\ same_shape c c' /\
  (forall copy, copy ∈ copies l -> fat_word c' copy a = entry_over (fat_word c copy a) v) /\
  (forall p, off_entry a p -> bv c' p = bv c p) /\ cwritable c = true.

Lemma fat_pos_off c copy e a i :
  vol_ok c -> 0 <= copy < fats l -> 0 <= e < clusters l + 2 -> 2 <= a < clusters l + 2 ->
  e <> a \/ copy ∉ copies l -> 0 <= i < 4 -> off_entry a (fat_pos l copy e + i).
Proof.
  intros [_ Hwf] Hc He Ha Hne Hi k Hk Hin. pose proof (copies_range _ _ Hwf) as Hr. rewrite Forall_forall in Hr.
  destruct (fat_pos_disjoint _ _ Hwf copy e k a); try lia; [auto|].
  intros [= -> ->]. by destruct Hne.
Qed.

Lemma fat_set_other c a v c' copy e :
  vol_ok c -> fat_set c a v c' -> 2 <= a < clusters l + 2 -> 0 <= copy < fats l -> 0 <= e < clusters l + 2 -> e <> a ->
  fat_word c' copy e = fat_word c copy e.
Proof.
  intros Hv (_ & _ & _ & Hf & _) Ha Hc He Hne. apply word_ext. intros i Hi. apply Hf. by eapply fat_pos_off; eauto.
Qed.

(** In terms of links: [a] links as the value says, every other cluster as before. *)
Lemma fat_set_link c a v c' x :
  vol_ok c -> fat_set c a v c' -> is_cluster l a = true -> is_cluster l x = true ->
  fat_link c' x = if decide (x = a) then classify l v else fat_link c x.
Proof.
  intros Hv Hset Ha Hx. pose proof Hv as [_ Hwf]. apply is_cluster_iff in Ha, Hx. unfold fat_link. case_decide as E.
  - subst x. destruct Hset as (_ & _ & Hw & _). rewrite Hw, classify_over by apply (copies_read _ _ Hwf). done.
  - by rewrite (fat_set_other c a v c') by (done || apply (read_copy_range _ _ Hwf) || lia).
Qed.

(** A cluster is in the data area, past the FATs. *)
Lemma fat_set_data c a v c' p :
  vol_ok c -> fat_set c a v c' -> is_cluster l a = true -> data_start l * BLOCK <= p -> bv c' p = bv c p.
Proof.
  intros [_ Hwf] (_ & _ & _ & Hf & _) Ha%is_cluster_iff Hp. apply Hf. intros k Hk Hin.
  pose proof (copies_range _ _ Hwf) as Hr. rewrite Forall_forall in Hr.
  pose proof (fat_pos_data _ _ Hwf k a (Hr k Hk)). lia.
Qed.

(** The errors of a write inside the volume: the device failed, or the
    volume was not made writable. *)
Definition write_error c (e : FsError) : Prop := e = Io \/ e = ReadOnly /\ cwritable c = false.

(** What such an error leaves: after a device error the cache may be stale. *)
Definition failed c c' (e : FsError) : Prop :=
  broken c c' /\ write_error c e /\ (e <> Io -> cache_ok c') /\ (cwritable c = false -> keeps c c').

Lemma failed_io c c' : broken c c' -> cwritable c = true -> failed c c' Io.
Proof. intros Hb Hw. split_and!; [done|by left|done|congruence]. Qed.

Lemma failed_read c c' : keeps c c' -> failed c c' Io.
Proof. intros Hk. split_and!; [by apply keeps_broken|by left|done|done]. Qed.

Lemma failed_after c c1 c' e :
  broken c c1 -> (cwritable c = false -> keeps c c1) -> failed c1 c' e -> failed c c' e.
Proof.
  intros Hb Hk (Hb' & He & Hok & Hk'). pose proof Hb as [_ [_ Hw]]. split_and!; [by eapply broken_trans| |done|].
  - destruct He as [->|[-> Hr]]; [by left|right]. split; [done|congruence].
  - intros Hr. eapply keeps_trans; [by apply Hk|]. apply Hk'. congruence.
Qed.

Lemma failed_later c c1 c' e : keeps c c1 -> failed c1 c' e -> failed c c' e.
Proof. intros Hk. apply failed_after; [by apply keeps_broken|done]. Qed.

Lemma ok_broken c c' : cache_ok c' -> same_shape c c' -> broken c c'.
Proof. intros Hok Hs. split; [apply Hok|done]. Qed.

(** One copy of an entry set, those of [pre] being set already. *)
Definition set_some c a v (pre : list Z) c' : Prop :=
  cache_ok c' /\ same_shape c c' /\
  (forall k, k ∈ pre -> fat_word c' k a = entry_over (fat_word c k a) v) /\
  (forall p, (forall k, k ∈ pre -> ~ fat_pos l k a <= p < fat_pos l k a + 4) -> bv c' p = bv c p) /\
  (pre = [] /\ c' = c \/ cwritable c = true).

Lemma set_some_more c a v pre c1 c2 c3 k :
  vol_ok c -> 2 <= a < clusters l + 2 -> is_u32 v -> k ∈ copies l -> k ∉ pre -> (forall j, j ∈ pre -> j ∈ copies l) ->
  set_some c a v pre c1 -> keeps c1 c2 ->
  writes c2 (fat_pos l k a) (le_bytes32 (entry_over (fat_word c1 k a) v)) c3 -> cwritable c2 = true ->
  set_some c a v (pre ++ [k]) c3.
Proof.
  intros Hv Ha Hu Hk Hkpre Hpre (Hok1 & Hs1 & Hw1 & Hf1 & _) Hk2 (Hok3 & Hs3 & Hb3) Hwr. pose proof Hv as [Hok Hwf].
  pose proof (copies_range _ _ Hwf) as Hr. rewrite Forall_forall in Hr.
  assert (Hsame : fat_word c1 k a = fat_word c k a).
  { apply word_ext. intros i Hi. apply Hf1. intros j Hj Hin.
    destruct (fat_pos_disjoint _ _ Hwf k a j a); auto; try lia. by intros [= ->]. }
  rewrite Hsame in Hb3. split_and!.
  - done.
  - eapply same_shape_trans; [done|]. eapply same_shape_trans; [|done]. apply Hk2.
  - intros j Hj. unfold fat_word. rewrite (word_ext _ _ _ (fun i _ => Hb3 _)).
    apply elem_of_app in Hj as [Hj|Hj]; [|apply list_elem_of_singleton in Hj as ->].
    + fold (fat_word c j a). rewrite <- (Hw1 j) by done. apply word_ext. intros i Hi. unfold poke. cbn [length le_bytes32]. rewrite decide_False.
      * by apply keeps_bv.
      * destruct (fat_pos_disjoint _ _ Hwf j a k a); auto; try lia. by intros [= ->].
    + rewrite word_poke; [done|]. apply entry_over_u32; [by apply fat_word_u32|done].
  - intros p Hp. rewrite Hb3. unfold poke. cbn [length le_bytes32]. rewrite decide_False.
    + rewrite (keeps_bv _ _ _ Hk2). apply Hf1. intros j Hj. apply Hp. set_solver.
    + apply Hp. set_solver.
  - right. destruct Hk2 as (_ & [_ H2] & _), Hs1 as [_ H1]. congruence.
Qed.

Lemma wp_set c a v (Q : Cache B -> unit -> Prop) X :
  vol_ok c -> is_u32 v ->
  (forall c', fat_set c a v c' -> is_cluster l a = true -> Q c' tt) ->
  (forall c' e, failed c c' e -> X c' e) ->
  (is_cluster l a = false -> X c Corrupt) ->
  wp (set l a v) Q X c.
Proof.
  intros Hv Hu HQ HX HC. pose proof Hv as [Hok Hwf]. unfold set.
  destruct (is_cluster l a) eqn:Ha; cbn [negb]; [|by apply wp_throw, HC].
  pose proof Ha as Ha'. apply is_cluster_iff in Ha'.
  apply wp_bind, (wp_written_copies _ _ Hwf).
  pose proof (copies_range _ _ Hwf) as Hr. rewrite Forall_forall in Hr. pose proof (copies_NoDup l) as Hnd.
  eapply wp_mono.
  - apply (wp_mapM _ (fun rest c' => exists pre, copies l = pre ++ rest /\ set_some c a v pre c') X).
    2: { exists []. split; [done|]. split_and!; try done; [by intros k Hk%elem_of_nil|by left]. }
    intros k rest c1 (pre & Hpre & Hsome). pose proof Hsome as (Hok1 & Hs1 & _ & _ & Hor).
    assert (Hkin : k ∈ copies l) by (rewrite Hpre; set_solver).
    assert (Hkpre : k ∉ pre).
    { rewrite Hpre in Hnd. apply NoDup_app in Hnd as (_ & H & _). intros Hin. apply (H k Hin). set_solver. }
    assert (Hv1 : vol_ok c1) by (by eapply vol_ok_shape). pose proof (ok_broken _ _ Hok1 Hs1) as Hb1.
    assert (Hk1 : cwritable c = false -> keeps c c1).
    { intros Hro. destruct Hor as [[_ ->]|Hw]; [by apply keeps_refl|congruence]. }
    apply wp_bind, wp_read_raw; [done|auto|lia| |].
    2: { intros c2 Hk2. apply HX. eapply failed_after; [exact Hb1|done|by apply failed_read]. }
    intros c2 Hk2. assert (Hv2 : vol_ok c2) by (by eapply vol_ok_keeps).
    assert (Hlater : forall c3 e, failed c2 c3 e -> failed c c3 e).
    { intros c3 e H. eapply failed_after; [exact Hb1|done|]. by eapply failed_later. }
    apply wp_write_raw; [done|auto|lia| | |].
    2: { intros c3 Hb3 Hw3. by apply HX, Hlater, failed_io. }
    2: { intros Hro. apply HX, Hlater.
         split_and!; [by apply keeps_broken, keeps_refl, Hv2|by right|intros _; apply Hv2|intros _; by apply keeps_refl, Hv2]. }
    intros c3 Hw3 Hwr3. exists (pre ++ [k]). split; [by rewrite <- app_assoc|].
    eapply set_some_more; try done. intros j Hj. rewrite Hpre. set_solver.
  - intros c' [] (pre & Hpre & Hok' & Hs' & Hw' & Hf' & Hor). rewrite app_nil_r in Hpre. subst pre.
    apply HQ; [|done]. split_and!; try done. destruct Hor as [[Hnil _]|]; [|done].
    pose proof (copies_read _ _ Hwf) as Hin. rewrite Hnil in Hin. by apply elem_of_nil in Hin.
  - done.
Qed.
End entries.

(** ** The theorems *)

Section theorems.
Context {B : Type} `{!Blocks B} `{!BlocksOk B}.

(** [set] writes the value in every FAT copy that is kept, keeps each
    copy's reserved high bits, and changes the entry of no other cluster and
    no byte of the data area; [link] then reads the value back. *)
Theorem set_sets l (c : Cache B) a v :
  vol_ok l c -> is_u32 v ->
  match set l a v c with
  | (c', Ok _) =>
      is_cluster l a = true /\
      (forall copy, copy ∈ copies l ->
         Z.land (fat_word l c' copy a) MASK = Z.land v MASK /\
         Z.land (fat_word l c' copy a) RESERVED_BITS = Z.land (fat_word l c copy a) RESERVED_BITS) /\
      fat_link l c' a = classify l v /\
      (forall x, is_cluster l x = true -> x <> a -> fat_link l c' x = fat_link l c x) /\
      (forall p, data_start l * BLOCK <= p -> bv c' p = bv c p)
  | (c', Err e) => e = Corrupt /\ is_cluster l a = false /\ c' = c \/ write_error c e
  | (_, Stuck _) => False
  end.
Proof.
  intros Hv Hu.
  assert (wp (set l a v) (fun c' _ => fat_set l c a v c' /\ is_cluster l a = true)
            (fun c' e => e = Corrupt /\ is_cluster l a = false /\ c' = c \/ write_error c e) c) as H.
  { apply wp_set; [done|done|done| |by left]. intros c' e (_ & He & _). by right. }
  unfold wp in H. destruct (set l a v c) as [c' [u|e|w]]; [|done|done]. destruct H as [Hset Ha]. split_and!.
  - done.
  - intros copy Hcopy. destruct Hset as (_ & _ & Hw & _). rewrite (Hw copy Hcopy).
    split; [apply entry_over_value|apply entry_over_reserved].
  - by rewrite (fat_set_link l c a v c' a Hv Hset Ha Ha), decide_True.
  - intros x Hx Hne. by rewrite (fat_set_link l c a v c' x Hv Hset Ha Hx), decide_False.
  - intros p Hp. by eapply fat_set_data.
Qed.
End theorems.
