(* ===== verification/Chains.v ===== *)
(** * Walking and freeing chains

    [walk] finds a chain exactly when there is one, and ends on every FAT,
    loops and damaged entries with it; [free_chain] frees the clusters of a
    chain and no others. *)

From S2P Require Import Prelude Bytes Boot BootSpec Cache CacheSpec CacheFlush CacheIo CacheWrite Table TableSpec.

(** Clusters without repetition are no more than the volume has. *)
Lemma clusters_bound l (cs : list Z) :
  NoDup cs -> Forall (fun x => is_cluster l x = true) cs -> 0 <= clusters l -> len cs <= clusters l.
Proof.
  intros Hnd Hall Hn. assert (cs ⊆+ seqZ 2 (clusters l)) as H.
  { apply NoDup_submseteq; [done|]. intros x Hx. rewrite Forall_forall in Hall.
    specialize (Hall x Hx). apply is_cluster_iff in Hall. apply elem_of_seqZ. lia. }
  apply submseteq_length in H. rewrite length_seqZ in H. lia.
Qed.

Section chains.
Context {B : Type} `{!Blocks B} `{!BlocksOk B}.
Implicit Types c : Cache B.
Context (l : Layout).
Abbreviation vol_ok := (vol_ok l).
Abbreviation fat_link := (fat_link l).

Lemma classify_next v x : classify l v = Next x -> is_cluster l x = true.
Proof. unfold classify. repeat case_match; congruence. Qed.

(** The clusters of a chain that starts at one are clusters. *)
Lemma chain_clusters c a cs :
  chain (fat_link c) a cs -> is_cluster l a = true -> Forall (fun x => is_cluster l x = true) cs.
Proof.
  induction 1 as [a Ha|a b cs Ha H IH]; intros Hc; [by apply Forall_singleton|].
  constructor; [done|]. apply IH. by eapply classify_next.
Qed.

(** ** [walk] *)

(** The chain from [a] goes through [pre] and then [b]. *)
Definition leads (lk : Z -> Link) (a : Z) (pre : list Z) (b : Z) : Prop :=
  (forall cs, chain lk b cs -> chain lk a (pre ++ cs)) /\
  (forall cs, chain lk a cs -> exists cs', cs = pre ++ cs' /\ chain lk b cs').

Lemma leads_nil lk a : leads lk a [] a.
Proof. split; [done|]. intros cs H. by exists cs. Qed.

Lemma leads_snoc lk a pre b b' : leads lk a pre b -> lk b = Next b' -> leads lk a (pre ++ [b]) b'.
Proof.
  intros [H1 H2] Hb. split.
  - intros cs Hcs. rewrite <- app_assoc. apply H1. by econstructor.
  - intros cs Hcs. destruct (H2 cs Hcs) as (cs' & -> & Hcs').
    inversion Hcs' as [x Hx|x y cs2 Hx Hy]; subst; [congruence|].
    assert (y = b') as -> by congruence. exists cs2. by rewrite <- app_assoc.
Qed.

Lemma walk_bound c a cs :
  vol_ok c -> is_cluster l a = true -> chain (fat_link c) a cs -> len cs <= clusters l.
Proof.
  intros [_ Hwf] Ha Hcs. apply clusters_bound.
  - by eapply chain_NoDup.
  - by eapply chain_clusters.
  - pose proof (wf_clusters _ _ Hwf). lia.
Qed.

Lemma wp_walk c first (Q : Cache B -> Z * Z -> Prop) X :
  vol_ok c ->
  (forall c' cs z, keeps c c' -> is_cluster l first = true -> chain (fat_link c) first cs ->
     last cs = Some z -> Q c' (len cs, z)) ->
  (forall c', keeps c c' -> X c' Io) ->
  (forall c', keeps c c' -> (is_cluster l first = true -> forall cs, ~ chain (fat_link c) first cs) -> X c' Corrupt) ->
  wp (walk l first) Q X c.
Proof.
  intros Hv HQ HX HC. pose proof Hv as [Hok Hwf]. pose proof (wf_clusters _ _ Hwf) as Hn.
  unfold MAX_CLUSTERS in Hn. unfold walk.
  destruct (is_cluster l first) eqn:Hf; cbn [negb].
  2: { apply wp_throw, HC; [by apply keeps_refl|done]. }
  apply (wp_loop
    (fun s c' => keeps c c' /\ is_cluster l s.2 = true /\ 1 <= s.1 <= clusters l /\
       exists pre, leads (fat_link c) first pre s.2 /\ s.1 = len pre + 1)
    (fun s _ => Z.to_nat (clusters l - s.1))).
  2: { split_and!; cbn; [by apply keeps_refl|done|lia|lia|]. exists []. split; [apply leads_nil|done]. }
  2: { cbn. lia. }
  intros [count cluster] c1 (Hk & Hcl & Hcount & pre & Hleads & Hpre). cbn [fst snd] in *.
  assert (Hnone : fat_link c cluster <> LinkEnd -> (forall b, fat_link c cluster <> Next b) ->
            forall cs, ~ chain (fat_link c) first cs).
  { intros H1 H2 cs Hcs. destruct Hleads as [_ Hl]. destruct (Hl cs Hcs) as (cs' & _ & Hcs').
    inversion Hcs'; subst; [done|by eapply H2]. }
  apply wp_bind, wp_link; [by eapply vol_ok_keeps| | |].
  2: { intros c2 Hk2. apply HX. by eapply keeps_trans. }
  2: { congruence. }
  intros c2 Hk2 _. rewrite (fat_link_keeps _ _ _ _ Hk). assert (Hk' : keeps c c2) by (by eapply keeps_trans).
  destruct (fat_link c cluster) as [|b| | |v] eqn:El; try (apply wp_throw, HC; [done|intros _; by apply Hnone]).
  - destruct (clusters l <=? count) eqn:Elim.
    + apply wp_throw, HC; [done|]. intros _ cs Hcs. pose proof (walk_bound c first cs Hv Hf Hcs) as Hb.
      destruct Hleads as [_ Hl]. destruct (Hl cs Hcs) as (cs' & -> & Hcs').
      inversion Hcs' as [x Hx|x y cs2 Hx Hy]; subst; [congruence|].
      rewrite length_app in Hb. cbn in Hb. apply chain_not_nil in Hy. destruct cs2; [done|]. cbn in Hb. lia.
    + apply wp_bind, wp_checked; [unfold u32_max; lia|]. apply wp_ret. cbn [fst snd]. split; [|lia].
      split_and!; [done|by eapply classify_next|lia|lia|]. exists (pre ++ [cluster]).
      split; [by apply leads_snoc|]. rewrite length_app. cbn. lia.
  - apply wp_ret. replace count with (len (pre ++ [cluster])) by (rewrite length_app; cbn; lia).
    apply HQ; [done|done| |by rewrite last_snoc]. apply Hleads. by constructor.
Qed.

(** ** [free_chain] *)

(** The clusters of [cs] made free, and nothing else of the volume changed. *)
Definition freed c (cs : list Z) c' : Prop :=
  cache_ok c' /\ same_shape c c' /\
  (forall x, is_cluster l x = true -> fat_link c' x = if decide (x ∈ cs) then Free else fat_link c x) /\
  (forall p, (forall a, a ∈ cs -> off_entry l a p) -> bv c' p = bv c p).

Lemma freed_nil c : cache_ok c -> freed c [] c.
Proof. intros Hok. split_and!; try done. Qed.

Lemma freed_cons c a c1 cs c2 :
  vol_ok c -> is_cluster l a = true -> fat_set l c a FREE c1 -> freed c1 cs c2 -> freed c (a :: cs) c2.
Proof.
  intros Hv Ha Hset (Hok2 & Hs2 & Hl2 & Hf2). pose proof Hset as (Hok1 & Hs1 & _ & Hf1 & _). split_and!.
  - done.
  - by eapply same_shape_trans.
  - intros x Hx. rewrite Hl2, (fat_set_link l c a FREE c1 x) by done.
    destruct (decide (x ∈ cs)), (decide (x = a)), (decide (x ∈ a :: cs)); try done; set_solver.
  - intros p Hp. rewrite Hf2 by set_solver. apply Hf1, Hp. set_solver.
Qed.

Lemma keeps_freed c c1 cs c2 : keeps c c1 -> freed c1 cs c2 -> freed c cs c2.
Proof.
  intros Hk (Hok2 & Hs2 & Hl2 & Hf2). split_and!.
  - done.
  - eapply same_shape_trans; [|done]. apply Hk.
  - intros x Hx. rewrite Hl2 by done. by rewrite (fat_link_keeps _ _ _ _ Hk).
  - intros p Hp. rewrite Hf2 by done. by apply keeps_bv.
Qed.

Lemma free_is_u32 : is_u32 FREE.
Proof. done. Qed.

Lemma wp_free_loop c a cs i count (Q : Cache B -> unit -> Prop) X :
  vol_ok c -> is_cluster l a = true -> chain (fat_link c) a cs -> 0 <= i -> i + len cs = count -> count <= u32_max ->
  (forall c', freed c cs c' -> Q c' tt) ->
  (forall c' e, failed c c' e -> X c' e) ->
  wp (free_loop l (length cs) i count a) Q X c.
Proof.
  revert c a i Q X. induction cs as [|x cs IH]; intros c a i Q X Hv Ha Hcs Hi Hcount Hu HQ HX; [by inversion Hcs|].
  cbn [length free_loop]. apply wp_bind, wp_link; [done| | |congruence].
  2: { intros c' Hk. by apply HX, failed_read. }
  intros c1 Hk _. assert (Hv1 : vol_ok c1) by (by eapply vol_ok_keeps).
  apply wp_bind, wp_set; [done|done| | |congruence].
  2: { intros c2 e Hb. apply HX. by eapply failed_later. }
  intros c2 Hset _. apply wp_bind, wp_checked; [cbn in Hcount; lia|].
  pose proof Hset as (Hok2 & Hs2 & _ & _ & Hwr). assert (Hv2 : vol_ok c2) by (by eapply vol_ok_shape).
  assert (x = a) as -> by (by apply chain_head in Hcs; cbn in Hcs; congruence).
  assert (Hb2 : broken c c2) by (eapply broken_trans; [by apply keeps_broken|by apply ok_broken]).
  assert (Hfreed : forall c3, freed c2 cs c3 -> freed c (a :: cs) c3).
  { intros c3 Hc3. eapply keeps_freed; [done|]. by eapply freed_cons. }
  pose proof (chain_NoDup _ _ _ Hcs) as Hnd. apply NoDup_cons in Hnd as [Hna _].
  inversion Hcs as [y Hy|y b cs' Hy Hb]; subst.
  - rewrite (proj2 (Z.ltb_ge _ _)) by (cbn in *; lia). apply wp_ret, HQ, Hfreed, freed_nil, Hok2.
  - pose proof (classify_next _ _ Hy) as Hbc.
    assert (Hlen : cs <> []) by (by eapply chain_not_nil).
    rewrite (proj2 (Z.ltb_lt _ _)) by (destruct cs; [done|cbn in *; lia]). rewrite Hy.
    apply IH; [done|done| |lia|cbn in *; lia|cbn in *; lia| |].
    + eapply chain_ext; [done|]. intros x Hx. rewrite (fat_set_link l c1 a FREE c2); [|done..|].
      * rewrite decide_False by congruence. by rewrite (fat_link_keeps _ _ _ _ Hk).
      * pose proof (chain_clusters _ _ _ Hb Hbc) as Hall. rewrite Forall_forall in Hall. auto.
    + intros c3 Hc3. apply HQ, Hfreed, Hc3.
    + intros c3 e Hb3. apply HX. eapply failed_after; [exact Hb2| |done]. destruct Hk as (_ & [_ Hw] & _). congruence.
Qed.

Lemma wp_free_chain f c a cs (Q : Fat * Cache B -> unit -> Prop) X :
  vol_ok c -> layout f = l -> is_cluster l a = true -> chain (fat_link c) a cs ->
  (forall c', freed c cs c' -> Q (gave (len cs) f, c') tt) ->
  (forall c' e, failed c c' e -> X (f, c') e) ->
  wp (free_chain a (len cs)) Q X (f, c).
Proof.
  intros Hv Hl Ha Hcs HQ HX. unfold free_chain, self_layout, on_cache. apply wp_bind, wp_gets. cbn [fst]. rewrite Hl.
  apply wp_bind, wp_zoom. cbn [snd fst]. rewrite Nat2Z.id.
  pose proof (walk_bound c a cs Hv Ha Hcs). pose proof Hv as [_ Hwf]. pose proof (wf_clusters _ _ Hwf).
  apply wp_free_loop; [done..|lia|lia|unfold u32_max, MAX_CLUSTERS in *; lia| |done].
  intros c' Hfreed. apply wp_modify. by apply HQ.
Qed.
End chains.

(** ** The theorems *)

Section theorems.
Context {B : Type} `{!Blocks B} `{!BlocksOk B}.

(** C25: [walk] ends on every FAT. It returns a chain's length and last cluster
    when the first cluster starts a chain that comes to an end, which then
    visits no cluster twice; and it says the volume is damaged when there is
    no such chain, be it a loop, a free, bad or damaged entry, or a number
    that is no cluster. *)
Theorem walk_decides_chain l (c : Cache B) first :
  vol_ok l c ->
  match walk l first c with
  | (_, Ok (count, z)) =>
      exists cs, chain (fat_link l c) first cs /\ Forall (fun x => is_cluster l x = true) cs /\ NoDup cs /\
        len cs = count /\ last cs = Some z
  | (_, Err Corrupt) => is_cluster l first = false \/ forall cs, ~ chain (fat_link l c) first cs
  | (_, Err e) => e = Io
  | (_, Stuck _) => False
  end.
Proof.
  intros Hv.
  assert (wp (walk l first)
    (fun _ r => exists cs, chain (fat_link l c) first cs /\ Forall (fun x => is_cluster l x = true) cs /\ NoDup cs /\
        len cs = r.1 /\ last cs = Some r.2)
    (fun _ e => match e with
                | Corrupt => is_cluster l first = false \/ forall cs, ~ chain (fat_link l c) first cs
                | e => e = Io end) c) as H.
  { apply wp_walk; [done| |done|].
    - intros c' cs z _ Hf Hcs Hz. exists cs. split_and!; [done|by eapply chain_clusters|by eapply chain_NoDup|done|done].
    - intros c' _ Hno. destruct (is_cluster l first) eqn:E; [right; by apply Hno|by left]. }
  unfold wp in H. destruct (walk l first c) as [c' [[count z]|[]|w]]; done.
Qed.

(** [free_chain], given a chain and its length as [walk] measured it,
    makes every cluster of the chain free and changes the entry of no other
    cluster and no byte of the data area, and adds to the count of free
    clusters what it freed. *)
Theorem free_chain_frees l (c : Cache B) f first cs :
  vol_ok l c -> layout f = l -> is_cluster l first = true -> chain (fat_link l c) first cs ->
  match free_chain first (len cs) (f, c) with
  | ((f', c'), Ok _) =>
      (forall x, is_cluster l x = true -> fat_link l c' x = if decide (x ∈ cs) then Free else fat_link l c x) /\
      (forall p, data_start l * BLOCK <= p -> bv c' p = bv c p) /\
      cache_ok c' /\ f' = gave (len cs) f
  | (_, Err e) => write_error c e
  | (_, Stuck _) => False
  end.
Proof.
  intros Hv Hl Hf Hcs. pose proof (chain_clusters l c first cs Hcs Hf) as Hall. rewrite Forall_forall in Hall.
  assert (wp (free_chain first (len cs)) (fun s _ => freed l c cs s.2 /\ s.1 = gave (len cs) f) (fun _ e => write_error c e) (f, c)) as H.
  { eapply wp_free_chain; [exact Hv|done|done|done|done|]. intros c' e (_ & He & _). done. }
  unfold wp in H. destruct (free_chain first (len cs) (f, c)) as [[f' c'] [u|e|w]]; [|done|done].
  cbn [fst snd] in H. destruct H as [(Hok & _ & Hlk & Hp) ->]. split_and!; try done.
  intros p Hpd. apply Hp. intros a Ha k Hk Hin. pose proof Hv as [_ Hwf].
  pose proof (copies_range _ _ Hwf) as Hr. rewrite Forall_forall in Hr.
  specialize (Hall a Ha). apply is_cluster_iff in Hall.
  pose proof (fat_pos_data _ _ Hwf k a (Hr k Hk)). lia.
Qed.
End theorems.
