(* ===== verification/Scans.v ===== *)
(** * Scans of the FAT, and free clusters

    [scan] visits the entries asked for, in order, once each, until its closure
    says to stop; [free_count] counts the free clusters, and [find_free] returns
    free clusters, without repetition, as many as asked for when there are that
    many. *)

From S2P Require Import Prelude Bytes Boot BootSpec Cache CacheSpec CacheFlush CacheIo CacheWrite Table TableSpec Chains.

(** ** Four bytes at a time *)

Lemma chunks_exact_fuel_words (f : Z -> Z) n : forall fuel p,
  (n < fuel \/ n = 0)%nat ->
  chunks_exact_fuel fuel 4 (f <$> seqZ p (4 * Z.of_nat n)) = (fun i => f <$> seqZ (p + 4 * i) 4) <$> seqZ 0 (Z.of_nat n).
Proof.
  induction n as [|n IH]; intros fuel p Hfuel.
  { destruct fuel; [done|]. done. }
  destruct fuel as [|fuel]; [lia|]. cbn [chunks_exact_fuel].
  assert (Hlen : (length (f <$> seqZ p (4 * Z.of_nat (S n))) <? 4)%nat = false).
  { rewrite length_fmap, length_seqZ. apply Nat.ltb_ge. lia. }
  rewrite Hlen. replace (4 * Z.of_nat (S n)) with (4 + 4 * Z.of_nat n) by lia.
  rewrite seqZ_app_split, fmap_app by lia.
  rewrite take_app_length' by (by rewrite length_fmap, length_seqZ).
  rewrite drop_app_length' by (by rewrite length_fmap, length_seqZ).
  rewrite IH by lia. replace (Z.of_nat (S n)) with (1 + Z.of_nat n) by lia.
  rewrite (seqZ_app_split 0), fmap_app by lia. change (seqZ 0 1) with [0]. cbn [fmap list_fmap app].
  f_equal; [do 2 f_equal; lia|]. rewrite <- (fmap_add_seqZ (0 + 1) 0), <- list_fmap_compose.
  apply list_fmap_ext. intros _ x _. cbn. do 2 f_equal. lia.
Qed.

Lemma chunks_exact_words (f : Z -> Z) p n :
  0 <= n -> chunks_exact 4 (f <$> seqZ p (4 * n)) = (fun i => f <$> seqZ (p + 4 * i) 4) <$> seqZ 0 n.
Proof.
  intros Hn. unfold chunks_exact. replace n with (Z.of_nat (Z.to_nat n)) by lia.
  apply chunks_exact_fuel_words. rewrite length_fmap, length_seqZ. lia.
Qed.

(** ** What a scan is *)

(** [visit] over entries in order, [inr] once it has said to stop. *)
Fixpoint fold_until {A} (visit : A -> Z -> Link -> A * bool) (lk : Z -> Link) (es : list Z) (acc : A) : A + A :=
  match es with
  | [] => inl acc
  | e :: es => let (acc, go) := visit acc e (lk e) in if go then fold_until visit lk es acc else inr acc
  end.

Definition outcome {A} (r : A + A) : A := match r with inl a | inr a => a end.

Lemma fold_until_app {A} visit lk es es' (acc : A) :
  fold_until visit lk (es ++ es') acc
  = match fold_until visit lk es acc with inl acc => fold_until visit lk es' acc | inr acc => inr acc end.
Proof. revert acc. induction es as [|e es IH]; intros acc; cbn; [done|]. destruct (visit _ _ _) as [a []]; auto. Qed.

Section scans.
Context {B : Type} `{!Blocks B} `{!BlocksOk B}.
Implicit Types c : Cache B.
Context (l : Layout).
Abbreviation vol_ok := (vol_ok l).
Abbreviation fat_link := (fat_link l).

(** The loop over the entries read, against the links of the FAT. *)
Lemma scan_entries_spec {A} (visit : A -> Z -> Link -> A * bool) (lk : Z -> Link) (raws : list (list Z)) at_ entry to acc :
  (forall i raw, raws !! i = Some raw -> classify l (le32 raw 0) = lk (at_ + Z.of_nat i)) ->
  scan_entries l visit raws at_ entry to acc
  = fold_until visit lk (seqZ (Z.max at_ entry) (Z.min to (at_ + len raws) - Z.max at_ entry)) acc.
Proof.
  revert at_ acc. induction raws as [|raw raws IH]; intros at_ acc Hlk; cbn [scan_entries].
  { rewrite seqZ_nil by (cbn; lia). done. }
  assert (Htail : forall i r, raws !! i = Some r -> classify l (le32 r 0) = lk (at_ + 1 + Z.of_nat i)).
  { intros i r Hi. rewrite (Hlk (S i) r Hi). f_equal. lia. }
  destruct (at_ <? entry) eqn:E1.
  { rewrite IH by done. do 2 f_equal; cbn [length]; lia. }
  destruct (to <=? at_) eqn:E2; [by rewrite seqZ_nil by (cbn; lia)|].
  replace (Z.max at_ entry) with at_ by lia. rewrite seqZ_cons by (cbn; lia). cbn [fold_until].
  pose proof (Hlk 0%nat raw eq_refl) as Hraw. rewrite Z.add_0_r in Hraw. rewrite <- Hraw.
  destruct (visit acc at_ _) as [acc' []]; [|done]. rewrite IH by done. do 2 f_equal; cbn [length]; lia.
Qed.

(** The bytes of whole FAT sectors, entry by entry. *)
Lemma sector_entries c first n i raw :
  cache_ok c -> 0 <= n ->
  chunks_exact 4 (bv c <$> seqZ (fat_pos l (read_copy l) first) (4 * n)) !! i = Some raw ->
  classify l (le32 raw 0) = fat_link c (first + Z.of_nat i).
Proof.
  intros Hok Hn. rewrite chunks_exact_words by done. intros (j & -> & Hj)%list_lookup_fmap_Some.
  apply lookup_seqZ in Hj as [-> _]. rewrite le32_word. unfold TableSpec.fat_link, fat_word, fat_pos. do 2 f_equal. lia.
Qed.

(** FAT sectors that hold entries of the volume are inside the FAT. *)
Lemma sectors_in_volume c first n :
  vol_ok c -> 0 <= first -> first `mod` 128 = 0 -> 0 < n -> first + (n - 1) * 128 < clusters l + 2 ->
  fat_pos l (read_copy l) first + n * BLOCK <= sectors l * BLOCK.
Proof.
  intros [_ Hwf] H0 Hmod Hn Hin. pose proof (read_copy_range _ _ Hwf) as Hc.
  pose proof (wf_entries _ _ Hwf). pose proof (data_start_range _ _ Hwf). pose proof (wf_data_start _ _ Hwf).
  assert (first / 128 + n <= fat_blocks l) by lia.
  assert ((read_copy l + 1) * fat_blocks l <= fats l * fat_blocks l) by (pose proof (wf_fat_blocks _ _ Hwf); nia).
  unfold fat_pos, BLOCK. lia.
Qed.

Lemma wp_scan {A} (visit : A -> Z -> Link -> A * bool) c from to acc (Q : Cache B -> A -> Prop) X :
  vol_ok c -> 0 <= from ->
  (forall c', keeps c c' ->
     Q c' (outcome (fold_until visit (fat_link c) (seqZ from (Z.min to (clusters l + 2) - from)) acc))) ->
  (forall c', keeps c c' -> X c' Io) ->
  wp (scan l visit from to acc) Q X c.
Proof.
  intros Hv Hfrom HQ HX. pose proof Hv as [Hok Hwf]. pose proof (wf_clusters _ _ Hwf) as Hn.
  unfold MAX_CLUSTERS in Hn. unfold scan. apply wp_bind, wp_checked; [unfold u32_max; lia|].
  set (stop := Z.min to (clusters l + 2)) in *. change ENTRIES_PER_BLOCK with 128.
  set (res := fold_until visit (fat_link c) (seqZ from (stop - from)) acc) in *.
  apply (wp_loop
    (fun s c' => keeps c c' /\ from <= s.1 /\ fold_until visit (fat_link c) (seqZ s.1 (stop - s.1)) s.2 = res)
    (fun s _ => Z.to_nat (stop - s.1))).
  2: { split_and!; [by apply keeps_refl|cbn; lia|done]. }
  2: { cbn. lia. }
  intros [entry a] c1 (Hk & Hge & Hres). cbn [fst snd] in *.
  destruct (entry <? stop) eqn:E.
  2: { rewrite seqZ_nil in Hres by lia. cbn in Hres. apply wp_ret. rewrite <- Hres in HQ. by apply HQ. }
  set (n := Z.min ((stop - 1) / 128 - entry / 128 + 1) SCAN_BLOCKS).
  assert (1 <= n <= 256 /\ entry / 128 * 128 + (n - 1) * 128 < stop) as [Hn1 Hn2] by (unfold n, SCAN_BLOCKS; lia).
  set (first := entry / 128 * 128). assert (0 <= first <= entry /\ first `mod` 128 = 0) as [Hf1 Hf2] by (unfold first; lia).
  assert (Hnext : entry < first + n * 128) by (unfold first; lia).
  assert (Hv1 : vol_ok c1) by (by eapply vol_ok_keeps).
  assert (Hpos : fat_pos l (read_copy l) first + n * BLOCK <= sectors l * BLOCK) by (eapply sectors_in_volume; eauto; unfold first; lia).
  pose proof (read_copy_range _ _ Hwf) as Hcopy.
  apply wp_bind, (wp_fat_offset _ _ Hwf); [done|lia|].
  destruct (fat_in_volume l c (read_copy l) first Hv Hcopy ltac:(lia)) as [Hp0 _].
  apply wp_bind, wp_map_err, wp_read_at; [apply Hv1|done|unfold BLOCK; lia| | |].
  2: { intros c2 Hk2. apply HX. by eapply keeps_trans. }
  2: { intros Hout. by apply (in_volume l c1 _ _ Hv1 Hpos) in Hout. }
  intros c2 Hk2. assert (Hk' : keeps c c2) by (by eapply keeps_trans).
  assert (Hraws : n * BLOCK = 4 * (n * 128)) by (unfold BLOCK; lia). rewrite Hraws.
  rewrite (scan_entries_spec visit (fat_link c)).
  2: { intros i raw Hi. rewrite <- (fat_link_keeps _ _ _ _ Hk). eapply sector_entries; [apply Hv1| |exact Hi]. lia. }
  rewrite chunks_exact_words, length_fmap, length_seqZ by lia.
  replace (Z.max first entry) with entry by lia. rewrite Z2Nat.id by lia.
  replace (stop - entry) with ((Z.min stop (first + n * 128) - entry) + (stop - Z.min stop (first + n * 128))) in Hres by lia.
  rewrite seqZ_app_split, fold_until_app in Hres by lia.
  destruct (fold_until visit (fat_link c) (seqZ entry (Z.min stop (first + n * 128) - entry)) a) as [a'|a'].
  - apply wp_bind, wp_checked; [unfold u32_max; lia|]. apply wp_ret. cbn [fst snd]. split; [|lia].
    split_and!; [done|lia|]. rewrite <- Hres. destruct (decide (first + n * 128 <= stop)).
    + do 2 f_equal; lia.
    + rewrite !seqZ_nil by lia. done.
  - apply wp_ret. rewrite <- Hres in HQ. by apply HQ.
Qed.

(** ** Free clusters *)

Definition free_of c (es : list Z) : list Z := filter (fun x => fat_link c x = Free) es.
Definition free_clusters c : list Z := free_of c (seqZ 2 (clusters l)).

(** What a [Fat] keeps in memory: a position and a count that make sense
    ([fat_wf]), and the count true of the FAT on the volume ([fat_ok]). *)
Record fat_wf (f : Fat) : Prop := {
  fat_layout : layout f = l;
  fat_cursor : is_cluster l (cursor f) = true;
  fat_bound : forall n, free f = Some n -> 0 <= n <= clusters l;
}.

Definition fat_ok (f : Fat) c : Prop := fat_wf f /\ forall n, free f = Some n -> n = len (free_clusters c).

Lemma free_clusters_bound c : 0 <= clusters l -> len (free_clusters c) <= clusters l.
Proof.
  intros Hn. unfold free_clusters, free_of. pose proof (length_filter (fun x => fat_link c x = Free) (seqZ 2 (clusters l))) as H.
  rewrite length_seqZ in H. lia.
Qed.

Lemma free_of_keeps c c' es : keeps c c' -> free_of c' es = free_of c es.
Proof. intros Hk. apply list_filter_iff. intros x. by rewrite (fat_link_keeps _ _ _ _ Hk). Qed.

Lemma fat_ok_keeps f c c' : fat_ok f c -> keeps c c' -> fat_ok f c'.
Proof.
  intros [H1 H3] Hk. split; [done|]. intros n Hn. unfold free_clusters.
  rewrite (free_of_keeps _ _ _ Hk). auto.
Qed.

Lemma fold_count_free lk es n :
  fold_until count_free lk es n = inl (n + len (filter (fun x => lk x = Free) es)).
Proof.
  revert n. induction es as [|e es IH]; intros n; cbn [fold_until count_free]; [cbn; f_equal; lia|].
  rewrite IH. f_equal. rewrite filter_cons. destruct (decide (lk e = Free)); cbn [length]; lia.
Qed.

Lemma wp_free_count f c (Q : Fat * Cache B -> Z -> Prop) X :
  vol_ok c -> fat_wf f ->
  (forall c', keeps c c' -> let n := default (len (free_clusters c)) (free f) in
     Q (mkFat l (Some n) (cursor f), c') n) ->
  (forall c', keeps c c' -> X (f, c') Io) ->
  wp free_count Q X (f, c).
Proof.
  intros Hv Hf HQ HX. pose proof Hv as [Hok Hwf]. pose proof (wf_clusters _ _ Hwf) as Hn.
  unfold MAX_CLUSTERS in Hn. unfold free_count, self_layout, on_cache. apply wp_bind, wp_gets. cbn [fst].
  destruct f as [l0 fr cur]. pose proof (fat_layout _ Hf) as Hl. cbn in Hl. subst l0. cbn [free cursor] in *.
  destruct fr as [n|].
  { apply wp_ret. exact (HQ c (keeps_refl _ Hok)). }
  apply wp_bind, wp_gets. cbn [fst layout].
  apply wp_bind, wp_checked; [unfold u32_max; lia|].
  apply wp_bind, wp_zoom. cbn [snd fst]. apply wp_scan; [done|lia| |done].
  intros c' Hk. rewrite Z.min_id, fold_count_free. cbn [outcome].
  replace (clusters l + 2 - 2) with (clusters l) by lia. rewrite Z.add_0_l.
  apply wp_bind, wp_modify, wp_ret. by apply HQ.
Qed.

(** ** [find_free] *)

Lemma fold_collect_free want lk es out n :
  n < want ->
  outcome (fold_until (collect_free want) lk es (out, n))
  = (out ++ take (Z.to_nat (want - n)) (filter (fun x => lk x = Free) es),
     n + Z.min (want - n) (len (filter (fun x => lk x = Free) es))).
Proof.
  revert out n. induction es as [|e es IH]; intros out n Hn; cbn [fold_until collect_free fst snd].
  { cbn. rewrite take_nil, app_nil_r. f_equal. lia. }
  rewrite filter_cons. destruct (decide (lk e = Free)) as [He|He]; cbn [fst snd].
  - destruct (n + 1 <? want) eqn:E.
    + rewrite IH by lia. rewrite <- app_assoc. cbn [app length]. f_equal; [|lia].
      f_equal. replace (Z.to_nat (want - n)) with (S (Z.to_nat (want - (n + 1)))) by lia. done.
    + cbn [outcome length]. replace (Z.to_nat (want - n)) with 1%nat by lia.
      cbn [firstn]. f_equal. lia.
  - rewrite (proj2 (Z.ltb_lt _ _)) by lia. by apply IH.
Qed.

(** The free clusters in the order they are searched for. *)
Definition search_order c (start : Z) : list Z :=
  free_of c (seqZ start (clusters l + 2 - start) ++ seqZ 2 (start - 2)).

Lemma search_order_perm c start : is_cluster l start = true -> search_order c start ≡ₚ free_clusters c.
Proof.
  intros Hs%is_cluster_iff. unfold search_order, free_clusters, free_of. apply filter_Permutation.
  rewrite Permutation_app_comm. replace (clusters l) with ((start - 2) + (clusters l + 2 - start)) at 2 by lia.
  rewrite seqZ_app_split by lia. by replace (2 + (start - 2)) with start by lia.
Qed.

Lemma wp_find_in_ranges f c want start out (Q : Fat * Cache B -> list Z * Z -> Prop) X :
  vol_ok c -> layout f = l -> is_cluster l start = true -> 0 < want ->
  (forall c', keeps c c' ->
     Q (f, c') (out ++ take (Z.to_nat want) (search_order c start), Z.min want (len (search_order c start)))) ->
  (forall c', keeps c c' -> X (f, c') Io) ->
  wp (find_in_ranges want [(start, clusters l + 2); (2, start)] (out, 0)) Q X (f, c).
Proof.
  intros Hv Hl Hs%is_cluster_iff Hw HQ HX. pose proof Hv as [Hok Hwf].
  cbn [find_in_ranges fst snd]. rewrite (proj2 (Z.leb_gt _ _)) by lia. unfold self_layout, on_cache.
  apply wp_bind, wp_gets. cbn [fst]. rewrite Hl. apply wp_bind, wp_zoom. cbn [fst snd].
  apply wp_scan; [done|lia| |done]. intros c1 Hk1. rewrite Z.min_id, fold_collect_free by lia. rewrite !Z.sub_0_r, Z.add_0_l.
  fold (free_of c (seqZ start (clusters l + 2 - start))). set (fs1 := free_of c (seqZ start (clusters l + 2 - start))) in *.
  assert (Hso : search_order c start = fs1 ++ free_of c (seqZ 2 (start - 2))) by apply filter_app.
  set (fs2 := free_of c (seqZ 2 (start - 2))) in *. cbn [fst snd].
  destruct (want <=? Z.min want (len fs1)) eqn:E.
  - apply wp_ret. specialize (HQ c1 Hk1). rewrite Hso, length_app, take_app_le in HQ by lia.
    replace (Z.min want (Z.of_nat (length fs1 + length fs2))) with (Z.min want (len fs1)) in HQ by lia. done.
  - assert (Hv1 : vol_ok c1) by (by eapply vol_ok_keeps).
    apply wp_bind, wp_gets. cbn [fst]. rewrite Hl. apply wp_bind, wp_zoom. cbn [fst snd].
    apply wp_scan; [done|lia| |intros c2 Hk2; apply HX; by eapply keeps_trans].
    intros c2 Hk2. rewrite Z.min_l by lia. rewrite fold_collect_free by lia. apply wp_ret.
    fold (free_of c1 (seqZ 2 (start - 2))). rewrite (free_of_keeps _ _ _ Hk1). fold fs2.
    specialize (HQ c2 (keeps_trans _ _ _ Hk1 Hk2)). rewrite Hso, length_app, take_app_ge in HQ by lia.
    rewrite (take_ge fs1) by lia. rewrite <- app_assoc.
    replace (Z.to_nat (want - Z.min want (len fs1))) with (Z.to_nat want - length fs1)%nat by lia.
    replace (Z.min want (len fs1) + Z.min (want - Z.min want (len fs1)) (len fs2))
      with (Z.min want (Z.of_nat (length fs1 + length fs2))) by lia. done.
Qed.

(** What [find_free] leaves of the table, and what it returns: nothing when
    the table says that nothing is free. *)
Definition found_fat (f : Fat) c (f' : Fat) : Prop :=
  fat_wf f' /\ (free f' = free f \/ free f' = Some (len (free_clusters c))).

Definition found_free (f : Fat) c (want : Z) : list Z :=
  if decide (free f = Some 0) then [] else take (Z.to_nat want) (search_order c (cursor f)).

Lemma wp_find_free f c want out (Q : Fat * Cache B -> list Z -> Prop) X :
  vol_ok c -> fat_wf f -> 0 <= want ->
  (forall f' c', keeps c c' -> found_fat f c f' -> Q (f', c') (out ++ found_free f c want)) ->
  (forall c', keeps c c' -> X (f, c') Io) ->
  wp (find_free want out) Q X (f, c).
Proof.
  intros Hv Hf Hw HQ HX. pose proof Hv as [Hok Hwf]. pose proof (wf_clusters _ _ Hwf) as Hn.
  unfold MAX_CLUSTERS in Hn. unfold find_free, self_layout. apply wp_bind, wp_gets. cbn [fst].
  pose proof (search_order_perm c (cursor f) (fat_cursor _ Hf)) as Hperm. unfold found_free in HQ.
  destruct ((want =? 0) || bool_decide (free f = Some 0)) eqn:E0.
  { apply wp_ret. specialize (HQ f c (keeps_refl _ Hok) ltac:(by split; [|left])). case_decide as Efr.
    - by rewrite app_nil_r in HQ.
    - rewrite bool_decide_eq_false_2, orb_false_r in E0 by done. apply Z.eqb_eq in E0 as ->.
      cbn in HQ. by rewrite app_nil_r in HQ. }
  apply orb_false_iff in E0 as [E0 Efr%bool_decide_eq_false]. rewrite decide_False in HQ by done.
  apply wp_bind, wp_gets, wp_bind, wp_gets. cbn [fst]. rewrite (fat_layout _ Hf).
  apply wp_bind, wp_checked; [unfold u32_max; lia|].
  apply wp_bind, wp_find_in_ranges; [done|apply Hf|apply Hf|lia| |done].
  intros c1 Hk1. cbn [fst snd]. set (found := Z.min want (len (search_order c (cursor f)))).
  set (f1 := if found <? want then mkFat l (Some found) (cursor f) else f).
  assert (Hf1 : found_fat f c f1).
  { unfold f1. destruct (found <? want) eqn:E; [|by split; [|left]].
    assert (found = len (free_clusters c)) as -> by (rewrite <- Hperm; lia). split; [|by right].
    constructor; cbn; [done|apply Hf|]. intros n [= <-]. pose proof (free_clusters_bound c). lia. }
  apply wp_bind. assert (wp (if found <? want then on_fat (fun f => mkFat (layout f) (Some found) (cursor f)) else ret tt)
    (fun s (_ : unit) => s = (f1, c1)) X (f, c1)) as Hstep.
  { unfold f1. destruct (found <? want); [apply wp_modify; cbn; by rewrite (fat_layout _ Hf)|by apply wp_ret]. }
  eapply wp_mono; [exact Hstep| |done]. intros s [] ->. apply wp_bind.
  destruct (head _) as [x|] eqn:Eh; [destruct (is_cluster l x) eqn:Ex|].
  - apply wp_modify, wp_ret. cbn [fst snd]. apply HQ; [done|]. destruct Hf1 as [Hf1 Hor]. split; [|done].
    constructor; cbn; [apply Hf1|done|apply Hf1].
  - by apply wp_ret, wp_ret, HQ.
  - by apply wp_ret, wp_ret, HQ.
Qed.

(** The clusters found are free ones, each once, as many as asked for or all
    there are. *)
Lemma found_free_spec f c want :
  fat_ok f c -> 0 <= want ->
  NoDup (found_free f c want) /\
  (forall x, x ∈ found_free f c want -> is_cluster l x = true /\ fat_link c x = Free) /\
  len (found_free f c want) = Z.min want (len (free_clusters c)).
Proof.
  intros [Hf Hfree] Hw. pose proof (search_order_perm c (cursor f) (fat_cursor _ Hf)) as Hperm.
  assert (Hclu : forall x, x ∈ free_clusters c -> is_cluster l x = true /\ fat_link c x = Free).
  { intros x Hx. apply list_elem_of_filter in Hx as [Hx Hin]. apply elem_of_seqZ in Hin.
    split; [apply is_cluster_iff; lia|done]. }
  unfold found_free. case_decide as E.
  - rewrite <- (Hfree 0 E). split_and!; [constructor|by intros x Hx%elem_of_nil|cbn; lia].
  - split_and!.
    + assert (NoDup (search_order c (cursor f))) as Hnd by (rewrite Hperm; apply NoDup_filter, NoDup_seqZ).
      rewrite <- (take_drop (Z.to_nat want) (search_order c (cursor f))) in Hnd. by apply NoDup_app in Hnd as (? & _ & _).
    + intros x Hx%elem_of_take. destruct Hx as (i & Hx & _). apply list_elem_of_lookup_2 in Hx.
      rewrite Hperm in Hx. auto.
    + rewrite length_take, Hperm. lia.
Qed.
End scans.

(** ** The theorems *)

Section theorems.
Context {B : Type} `{!Blocks B} `{!BlocksOk B}.

(** [free_count] returns the number of free clusters of the FAT, counted
    once over every entry, and the table remembers it. *)
Theorem free_count_counts l (c : Cache B) f :
  vol_ok l c -> fat_ok l f c ->
  match free_count (f, c) with
  | ((f', c'), Ok n) => n = len (free_clusters l c) /\ free f' = Some n /\ fat_ok l f' c' /\ vol_ok l c'
  | ((f', c'), Err e) => e = Io /\ f' = f /\ vol_ok l c'
  | (_, Stuck _) => False
  end.
Proof.
  intros Hv [Hf Hfree].
  assert (wp free_count
    (fun s n => n = len (free_clusters l c) /\ free s.1 = Some n /\ fat_ok l s.1 s.2 /\ vol_ok l s.2)
    (fun s e => e = Io /\ s.1 = f /\ vol_ok l s.2) (f, c)) as H.
  { apply (wp_free_count l); [done|done| |].
    - intros c' Hk n. assert (n = len (free_clusters l c)) as Hn.
      { unfold n. destruct (free f) as [m|] eqn:E; [|done]. cbn. by apply Hfree. }
      cbn [fst snd free]. split_and!; [done|done| |by eapply vol_ok_keeps].
      eapply fat_ok_keeps; [|done]. split.
      + constructor; cbn; [done|apply Hf|]. intros m [= <-]. rewrite Hn.
        pose proof (wf_clusters _ _ (proj2 Hv)). pose proof (free_clusters_bound l c). lia.
      + cbn. intros m [= <-]. exact Hn.
    - intros c' Hk. split_and!; [done|done|by eapply vol_ok_keeps]. }
  unfold wp in H. by destruct (free_count (f, c)) as [[f' c'] [n|e|w]].
Qed.

(** [find_free] returns free clusters of the volume, each once, as many as
    asked for, or all there are when there are fewer; a count the table keeps
    is still the count of the FAT. *)
Theorem find_free_finds l (c : Cache B) f want :
  vol_ok l c -> fat_ok l f c -> 0 <= want ->
  match find_free want [] (f, c) with
  | ((f', c'), Ok found) =>
      NoDup found /\ (forall x, x ∈ found -> is_cluster l x = true /\ fat_link l c x = Free) /\
      len found = Z.min want (len (free_clusters l c)) /\ fat_ok l f' c' /\ vol_ok l c'
  | ((f', c'), Err e) => e = Io /\ f' = f /\ vol_ok l c'
  | (_, Stuck _) => False
  end.
Proof.
  intros Hv Hf Hw.
  assert (wp (find_free want [])
    (fun s found => NoDup found /\ (forall x, x ∈ found -> is_cluster l x = true /\ fat_link l c x = Free) /\
      len found = Z.min want (len (free_clusters l c)) /\ fat_ok l s.1 s.2 /\ vol_ok l s.2)
    (fun s e => e = Io /\ s.1 = f /\ vol_ok l s.2) (f, c)) as H.
  { apply (wp_find_free l); [done|apply Hf|done| |].
    - intros f' c' Hk [Hf' Hor]. destruct (found_free_spec l f c want Hf Hw) as (H1 & H2 & H3). cbn [app fst snd].
      split_and!; try done; [|by eapply vol_ok_keeps]. eapply fat_ok_keeps; [|done]. split; [done|].
      destruct Hf as [_ Hfree]. intros n Hn. destruct Hor as [E|E]; rewrite E in Hn; [by apply Hfree|congruence].
    - intros c' Hk. split_and!; [done|done|by eapply vol_ok_keeps]. }
  unfold wp in H. by destruct (find_free want [] (f, c)) as [[f' c'] [n|e|w]].
Qed.
End theorems.
