(* ===== verification/Dir.v ===== *)
(** * Directories

    [kernel/src/storage/fat/dir.rs]: the 32-byte entries of a directory, the
    names in them, looking a name up, and finding room for a new one. *)

From S2P Require Import Prelude Bytes Time Boot Cache Table Name.

Definition ENTRY_BYTES : Z := 32.
Definition MAX_ENTRIES : Z := 65536.
Definition SLOTS_PER_SECTOR : Z := 16.

Definition ATTR_VOLUME_ID : Z := 0x08.
Definition ATTR_DIRECTORY : Z := 0x10.
Definition ATTR_ARCHIVE : Z := 0x20.
Definition ATTR_LONG_NAME_MASK : Z := 0x3F.

Definition FREE_MARK : Z := 0xE5.
Definition END_MARK : Z := 0x00.
Definition DOT : list Z := str ".          ".
Definition DOTDOT : list Z := str "..         ".

(** ** One entry as it is on the card: its 32 bytes *)

Definition raw_byte (raw : list Z) (at_ : Z) : Z := default 0 (get raw at_).

Definition short_of_raw (raw : list Z) : list Z :=
  put_bytes (replicate 11 0) 0 (take 11 raw).

Definition set_short (raw short : list Z) (lower : Z) : list Z :=
  put8 (put_bytes raw 0 short) 12 lower.

Definition first_byte (raw : list Z) : Z := raw_byte raw 0.
Definition attr (raw : list Z) : Z := raw_byte raw 11.
Definition set_attr (raw : list Z) (attr : Z) : list Z := put8 raw 11 attr.
Definition lower (raw : list Z) : Z := raw_byte raw 12.
Definition checksum_field (raw : list Z) : Z := raw_byte raw 13.
Definition is_long (raw : list Z) : bool := Z.land (attr raw) ATTR_LONG_NAME_MASK =? ATTR_LONG_NAME.
Definition is_volume (raw : list Z) : bool := negb (is_long raw) && negb (Z.land (attr raw) ATTR_VOLUME_ID =? 0).
Definition is_dir (raw : list Z) : bool := negb (Z.land (attr raw) ATTR_DIRECTORY =? 0).

Definition cluster_of (raw : list Z) : Z := Z.lor (Z.shiftl (le16 raw 20) 16) (le16 raw 26).
Definition set_cluster (raw : list Z) (cluster : Z) : list Z :=
  put16 (put16 raw 20 (as_u16 (Z.shiftr cluster 16))) 26 (as_u16 cluster).

Definition size_of (raw : list Z) : Z := le32 raw 28.
Definition set_size (raw : list Z) (size : Z) : list Z := put32 raw 28 size.

Definition modified (raw : list Z) : Z := decode (le16 raw 24) (le16 raw 22).
Definition set_modified (raw : list Z) (stamp : Stamp) : list Z :=
  put16 (put16 raw 22 (time stamp)) 24 (date stamp).

Definition raw_new (short : list Z) (attr cluster size : Z) (stamp : Stamp) : list Z :=
  let raw := set_short (replicate 32 0) short 0 in
  let raw := put8 raw 11 attr in
  let raw := put8 raw 13 (hundredths stamp) in
  let raw := put16 raw 14 (time stamp) in
  let raw := put16 raw 16 (date stamp) in
  let raw := put16 raw 18 (date stamp) in
  let raw := set_cluster raw cluster in
  let raw := set_modified raw stamp in
  set_size raw size.

(** Byte [at_] of [raw] after [take_contents(other)]. *)
Definition take_contents (raw other : list Z) : list Z :=
  imap (fun at_ byte => if (11 <=? at_)%nat && negb (at_ =? 12)%nat
                        then default byte (other !! at_) else byte) raw.

(** ** The slots of a directory *)

Record Slots := mkSlots { s_cluster : Z; s_within : Z; s_per_cluster : Z; s_index : Z }.

(** ** Names out of slots: the long-name entries since the last short one *)

Record Long := mkLong {
  units : list Z;
  l_count : Z;
  l_next : Z;
  l_checksum : Z;
  l_at : list Z;
  l_seen : Z;
}.

Definition long_new : Long :=
  mkLong (replicate (Z.to_nat (MAX_LONG_ENTRIES * UNITS_PER_ENTRY)) 0) 0 0 0
    (replicate (Z.to_nat MAX_LONG_ENTRIES) 0) 0.

Definition long_reset (g : Long) : Long := mkLong (units g) 0 0 (l_checksum g) (l_at g) 0.

(** The end of [push], for an entry that goes with the run: its units go in
    their place, and its position after the ones before it. *)
Definition long_store {S E} (g : Long) (raw : list Z) (at_ : Z) : M S E Long :=
  let! before := usize (l_next g - 1) in
  let start := before * UNITS_PER_ENTRY in
  let! seen := usize (l_seen g + 1) in
  ret (mkLong (put_bytes (units g) start (entry_units raw)) (l_count g) before (l_checksum g)
         (put8 (l_at g) (l_seen g) at_) seen).

Definition long_push {S E} (g : Long) (raw : list Z) (at_ : Z) : M S E Long :=
  let ord := first_byte raw in
  if negb (Z.land ord LAST_LONG_ENTRY =? 0) then
    let count := Z.land ord (u8_max - LAST_LONG_ENTRY) in
    if (count =? 0) || (MAX_LONG_ENTRIES <? count) then ret (long_reset g)
    else long_store (mkLong (units g) count count (checksum_field raw) (l_at g) 0) raw at_
  else if (l_next g =? 0) || negb (ord =? l_next g) || negb (checksum_field raw =? l_checksum g)
  then ret (long_reset g)
  else long_store g raw at_.

(** [take]: the name, the positions of the run and how many there are, and the
    run forgotten. *)
Definition long_take (g : Long) (short : list Z) : Long * option (option (list Z) * list Z * Z) :=
  let belongs := (0 <? l_count g) && (l_next g =? 0) && (l_checksum g =? checksum short) in
  let result :=
    if belongs then
      let us := default [] (get_range (units g) 0 (l_count g * UNITS_PER_ENTRY)) in
      let n := default (length us) (position (Z.eqb 0) us) in
      let name := if Z.of_nat n <=? MAX_UNITS then from_units (take n us) else None in
      Some (name, l_at g, l_seen g)
    else None in
  (long_reset g, result).

(** ** Items of a directory *)

Record Found := mkFound {
  f_name : list Z;
  f_raw : list Z;
  f_index : Z;
  f_at : Z;
  f_long_at : list Z;
  f_long_count : Z;
}.

Definition found_positions (f : Found) : list Z := take (Z.to_nat (f_long_count f)) (f_long_at f) ++ [f_at f].
Definition has_long (f : Found) : bool := 0 <? f_long_count f.

Inductive Item :=
| ItEntry (f : Found)
| ItOther (short : list Z) (dot volume : bool)
| ItFree (index : Z)
| ItEnd (index : Z).

Record Scan := mkScan { sc_slots : Slots; sc_long : Long; sc_ended : bool }.

Definition names (f : Found) (wanted : list Z) (wanted_short : option (list Z)) : bool :=
  same (f_name f) wanted || (has_long f && bool_decide (Some (short_of_raw (f_raw f)) = wanted_short)).

Definition short_of (wanted : list Z) : option (list Z) :=
  let k := key wanted in
  if forallb is_ascii k then exact_short (to_ascii_uppercase <$> k) else None.

(** ** What adding a name needs to know *)

Record Survey := mkSurvey {
  v_found : option Found;
  v_shorts : gset (list Z);
  v_longs : gset (list Z);
  v_total : Z;
  v_last_cluster : Z;
  v_end : option Z;
  v_first_free : option Z;
  v_run_wanted : Z;
  v_first_run : option Z;
  v_first_sector_run : option Z;
  v_run_start : Z;
  v_run_len : Z;
  v_sector_run_start : Z;
  v_sector_run_len : Z;
}.

Definition taken (v : Survey) (short : list Z) : bool :=
  bool_decide (short ∈ v_shorts v)
  || match shown short 0 with Some s => bool_decide (s ∈ v_longs v) | None => false end.

(** What is left of [place] when no run of free slots was found. *)
Definition place_at_end (v : Survey) (count : Z) : Z * Z :=
  if count <=? SLOTS_PER_SECTOR then (v_total v, count)
  else
    let trailing := (saturating_add32 (v_run_start v) (v_run_len v) =? v_total v) && (0 <? v_run_len v) in
    let '(start, n) := if trailing then (v_run_start v, v_run_len v) else (v_total v, 0) in
    (start, saturating_sub count n).

Definition place (v : Survey) (count : Z) : Z * Z :=
  if count <=? 1 then
    match v_first_free v with
    | Some index => (index, 0)
    | None => place_at_end v count
    end
  else if count <=? v_run_wanted v then
    match v_first_sector_run v with
    | Some index => (index, 0)
    | None =>
        if SLOTS_PER_SECTOR <? count then
          match v_first_run v with
          | Some index => (index, 0)
          | None => place_at_end v count
          end
        else place_at_end v count
    end
  else place_at_end v count.

Definition new_survey (first run_wanted : Z) : Survey :=
  mkSurvey None ∅ ∅ 0 first None None run_wanted None None 0 0 0 0.

(** [survey] on an [Item::Entry]. *)
Definition survey_entry (v : Survey) (f : Found) (wanted : list Z) (wanted_short : option (list Z))
    (except : option Z) : Survey :=
  let shorts := {[short_of_raw (f_raw f)]} ∪ v_shorts v in
  let longs := if utf8_len (f_name f) <=? 12
               then {[to_ascii_uppercase <$> key (f_name f)]} ∪ v_longs v else v_longs v in
  let found := match v_found v with
               | None => if negb (bool_decide (Some (f_at f) = except)) && names f wanted wanted_short
                         then Some f else None
               | Some g => Some g
               end in
  mkSurvey found shorts longs (v_total v) (v_last_cluster v) (v_end v) (v_first_free v) (v_run_wanted v)
    (v_first_run v) (v_first_sector_run v) (v_run_start v) (v_run_len v) (v_sector_run_start v) (v_sector_run_len v).

(** [survey] on an [Item::Other]. *)
Definition survey_other (v : Survey) (short : list Z) : Survey :=
  mkSurvey (v_found v) ({[short]} ∪ v_shorts v) (v_longs v) (v_total v) (v_last_cluster v) (v_end v)
    (v_first_free v) (v_run_wanted v) (v_first_run v) (v_first_sector_run v) (v_run_start v) (v_run_len v)
    (v_sector_run_start v) (v_sector_run_len v).

Definition or_else {A} (o : option A) (d : option A) : option A :=
  match o with Some a => Some a | None => d end.

(** [survey] on an [Item::Free], or an [Item::End] when [at_end]. *)
Definition survey_free {S E} (v : Survey) (at_end : bool) (index : Z) : M S E Survey :=
  let stop := if at_end then or_else (v_end v) (Some index) else v_end v in
  let first_free := or_else (v_first_free v) (Some index) in
  let '(run_start, run_len) :=
    if (v_run_len v =? 0) || negb (saturating_add32 (v_run_start v) (v_run_len v) =? index)
    then (index, 0) else (v_run_start v, v_run_len v) in
  let! run_len := u32 (run_len + 1) in
  let first_run := if v_run_wanted v <=? run_len then or_else (v_first_run v) (Some run_start) else v_first_run v in
  let '(sector_start, sector_len) :=
    if (v_sector_run_len v =? 0) || (index `mod` SLOTS_PER_SECTOR =? 0)
       || negb (saturating_add32 (v_sector_run_start v) (v_sector_run_len v) =? index)
    then (index, 0) else (v_sector_run_start v, v_sector_run_len v) in
  let! sector_len := u32 (sector_len + 1) in
  let first_sector_run :=
    if v_run_wanted v <=? sector_len then or_else (v_first_sector_run v) (Some sector_start)
    else v_first_sector_run v in
  ret (mkSurvey (v_found v) (v_shorts v) (v_longs v) (v_total v) (v_last_cluster v) stop first_free (v_run_wanted v)
         first_run first_sector_run run_start run_len sector_start sector_len).

Definition survey_item {S E} (v : Survey) (item : Item) (wanted : list Z) (wanted_short : option (list Z))
    (except : option Z) : M S E Survey :=
  match item with
  | ItEntry f => ret (survey_entry v f wanted wanted_short except)
  | ItOther short _ _ => ret (survey_other v short)
  | ItFree index => survey_free v false index
  | ItEnd index => survey_free v true index
  end.

Definition new_directory (l : Layout) (own parent : Z) (stamp : Stamp) : list Z :=
  let data := replicate (Z.to_nat (cluster_bytes l)) 0 in
  let dot := raw_new DOT ATTR_DIRECTORY own 0 stamp in
  let dotdot := raw_new DOTDOT ATTR_DIRECTORY parent 0 stamp in
  let data := match get_range data 0 32 with Some _ => splice data 0 dot | None => data end in
  match get_range data 32 64 with Some _ => splice data 32 dotdot | None => data end.

(** Turns of a loop over the slots of a directory: one per entry, and the two
    that find the end. *)
Definition DIR_FUEL : nat := Z.to_nat (MAX_ENTRIES + 2).

Section dir.
Context {B : Type} `{!Blocks B}.

Abbreviation CM := (M (Cache B) FsError).

Definition slots_new (l : Layout) (first : Z) : CM Slots :=
  if negb (is_cluster l first) then throw Corrupt
  else ret (mkSlots first 0 (cluster_bytes l / ENTRY_BYTES) 0).

(** A cluster's position, which it must have. *)
Definition offset_or_corrupt (l : Layout) (cluster : Z) : CM Z :=
  let! offset := cluster_offset l cluster in ok_or offset Corrupt.

Definition slots_next (l : Layout) (s : Slots) : CM (Slots * option (Z * Z * list Z)) :=
  let! moved :=
    (if s_per_cluster s <=? s_within s then
       let! found := next l (s_cluster s) in
       match found with
       | None => ret None
       | Some cluster => ret (Some (mkSlots cluster 0 (s_per_cluster s) (s_index s)))
       end
     else ret (Some s)) in
  match moved with
  | None => ret (s, None)
  | Some s =>
      if MAX_ENTRIES <=? s_index s then throw Corrupt
      else
        let! base := offset_or_corrupt l (s_cluster s) in
        let! at_ := u64 (base + s_within s * ENTRY_BYTES) in
        let! raw := lift (read_at at_ 32) in
        let! index := u32 (s_index s + 1) in
        let! within := u32 (s_within s + 1) in
        ret (mkSlots (s_cluster s) within (s_per_cluster s) index, Some (s_index s, at_, raw))
  end.

(** The first loop of [positions]: past the clusters before the first one. *)
Fixpoint skip_clusters (l : Layout) (n : nat) (cluster : Z) : CM (option Z) :=
  match n with
  | O => ret (Some cluster)
  | S n =>
      let! found := next l cluster in
      match found with
      | Some cluster => skip_clusters l n cluster
      | None => ret None
      end
  end.

(** The second: the positions from [index] on, in [cluster]. *)
Fixpoint positions_loop (l : Layout) (per_cluster start : Z) (n : nat) (index cluster : Z) (out : list Z) : CM (list Z) :=
  match n with
  | O => ret out
  | S n =>
      let! here :=
        (if negb (index =? start) && (index `mod` per_cluster =? 0) then next l cluster else ret (Some cluster)) in
      match here with
      | None => ret out
      | Some cluster =>
          let! base := offset_or_corrupt l cluster in
          let! at_ := u64 (base + (index `mod` per_cluster) * ENTRY_BYTES) in
          positions_loop l per_cluster start n (index + 1) cluster (out ++ [at_])
      end
  end.

Definition positions (l : Layout) (first start count : Z) : CM (list Z) :=
  let! per_cluster := divisor (cluster_bytes l / ENTRY_BYTES) in
  let! cluster := skip_clusters l (Z.to_nat (start / per_cluster)) first in
  match cluster with
  | None => ret []
  | Some cluster =>
      positions_loop l per_cluster start (Z.to_nat (saturating_add32 start count - start)) start cluster []
  end.

Definition scan_new (l : Layout) (first : Z) : CM Scan :=
  let! s := slots_new l first in ret (mkScan s long_new false).

(** A short entry in use: its name, from the long-name entries before it when
    they belong to it. *)
Definition short_item (g : Long) (index at_ : Z) (raw : list Z) : Long * Item :=
  let short := short_of_raw raw in
  let '(g, long) := long_take g short in
  let dot := bool_decide (short = DOT) || bool_decide (short = DOTDOT) in
  if dot || is_volume raw then (g, ItOther short dot (negb dot))
  else
    let '(long_name, long_at, long_count) :=
      match long with
      | Some (name, at_, count) => (name, at_, count)
      | None => (None, replicate (Z.to_nat MAX_LONG_ENTRIES) 0, 0)
      end in
    let name := or_else long_name (shown short (lower raw)) in
    (g, match name with
        | Some name => ItEntry (mkFound name raw index at_ long_at long_count)
        | None => ItOther short false false
        end).

Definition scan_next (l : Layout) (sc : Scan) : CM (Scan * option Item) :=
  loop DIR_FUEL
    (fun sc =>
       let! '(s, slot) := slots_next l (sc_slots sc) in
       match slot with
       | None => ret (inr (mkScan s (sc_long sc) (sc_ended sc), None))
       | Some (index, at_, raw) =>
           if sc_ended sc then ret (inr (mkScan s (sc_long sc) true, Some (ItFree index)))
           else if first_byte raw =? END_MARK then
             ret (inr (mkScan s (long_reset (sc_long sc)) true, Some (ItEnd index)))
           else if first_byte raw =? FREE_MARK then
             ret (inr (mkScan s (long_reset (sc_long sc)) false, Some (ItFree index)))
           else if is_long raw then
             let! g := long_push (sc_long sc) raw at_ in
             ret (inl (mkScan s g false))
           else
             let '(g, item) := short_item (sc_long sc) index at_ raw in
             ret (inr (mkScan s g false, Some item))
       end) sc.

(** [while let Some(item) = scan.next(..)?]: each item in turn to [visit],
    which goes on with [inl] or returns with [inr]. *)
Definition scan_items {A R} (l : Layout) (first : Z) (visit : A -> Item -> CM (A + R))
    (done : A -> Scan -> R) (a : A) : CM R :=
  let! sc := scan_new l first in
  loop DIR_FUEL
    (fun '(sc, a) =>
       let! '(sc, item) := scan_next l sc in
       match item with
       | None => ret (inr (done a sc))
       | Some item =>
           let! go := visit a item in
           match go with
           | inl a => ret (inl (sc, a))
           | inr r => ret (inr r)
           end
       end) (sc, a).

Definition find (l : Layout) (first : Z) (wanted : list Z) : CM (option Found) :=
  let wanted_short := short_of wanted in
  scan_items l first
    (fun _ item => ret match item with
                       | ItEntry found => if names found wanted wanted_short then inr (Some found) else inl tt
                       | ItEnd _ => inr None
                       | _ => inl tt
                       end)
    (fun _ _ => None) tt.

Definition is_empty (l : Layout) (first : Z) : CM bool :=
  scan_items l first
    (fun _ item => ret match item with
                       | ItEntry _ | ItOther _ false false => inr false
                       | ItEnd _ => inr true
                       | _ => inl tt
                       end)
    (fun _ _ => true) tt.

Definition survey (l : Layout) (first : Z) (wanted : list Z) (run_wanted : Z) (except : option Z) : CM Survey :=
  let wanted_short := short_of wanted in
  scan_items l first
    (fun v item => let! v := survey_item v item wanted wanted_short except in ret (inl v))
    (fun v sc => mkSurvey (v_found v) (v_shorts v) (v_longs v) (s_index (sc_slots sc)) (s_cluster (sc_slots sc))
                   (v_end v) (v_first_free v) (v_run_wanted v) (v_first_run v) (v_first_sector_run v)
                   (v_run_start v) (v_run_len v) (v_sector_run_start v) (v_sector_run_len v))
    (new_survey first run_wanted).
End dir.
