(* ===== verification/RawSpec.v ===== *)
(** * Directory entries, byte by byte

    What is put in an entry is read back, and nothing else of it changes; what
    is written to the card is bytes. *)

From S2P Require Import Prelude Bytes Boot BootSpec Time Cache CacheSpec CacheFlush CacheIo CacheWrite Table TableSpec Name Dir.

(** ** Bytes *)

Create HintDb bytes.

Lemma put8_bytes raw at_ x : is_bytes raw -> is_u8 x -> is_bytes (put8 raw at_ x).
Proof. intros Hr Hx. unfold put8. by apply Forall_insert. Qed.

Lemma put_bytes_bytes raw at_ xs : is_bytes raw -> is_bytes xs -> is_bytes (put_bytes raw at_ xs).
Proof.
  intros Hr Hx. revert raw at_ Hr. induction Hx as [|x xs Hx Hxs IH]; intros raw at_ Hr; [done|]. cbn [put_bytes].
  apply IH. by apply put8_bytes.
Qed.

Lemma le_bytes16_bytes x : is_bytes (le_bytes16 x).
Proof. repeat constructor; unfold u8_max; lia. Qed.

Lemma put16_bytes raw at_ x : is_bytes raw -> is_bytes (put16 raw at_ x).
Proof. intros Hr. apply put_bytes_bytes; [done|apply le_bytes16_bytes]. Qed.

Lemma put32_bytes raw at_ x : is_bytes raw -> is_bytes (put32 raw at_ x).
Proof. intros Hr. apply put_bytes_bytes; [done|apply le_bytes32_bytes]. Qed.

Lemma replicate_bytes n x : is_u8 x -> is_bytes (replicate n x).
Proof. intros Hx. by apply Forall_replicate. Qed.

Lemma put8_length raw at_ x : length (put8 raw at_ x) = length raw.
Proof. apply length_insert. Qed.

Lemma put_bytes_length raw at_ xs : length (put_bytes raw at_ xs) = length raw.
Proof. revert raw at_. induction xs as [|x xs IH]; intros raw at_; [done|]. cbn. by rewrite IH, put8_length. Qed.

Lemma take_bytes n raw : is_bytes raw -> is_bytes (take n raw).
Proof. apply Forall_take. Qed.

Lemma app_bytes a b : is_bytes a -> is_bytes b -> is_bytes (a ++ b).
Proof. apply Forall_app_2. Qed.

Lemma splice_bytes raw at_ new : is_bytes raw -> is_bytes new -> is_bytes (splice raw at_ new).
Proof. apply splice_Forall. Qed.

#[export] Hint Resolve put8_bytes put_bytes_bytes put16_bytes put32_bytes replicate_bytes le_bytes16_bytes le_bytes32_bytes
  take_bytes app_bytes splice_bytes : bytes.
#[export] Hint Extern 1 (is_u8 ?x) => (first [done | unfold is_u8, u8_max; lia]) : bytes.

Lemma raw_byte_u8 raw at_ : is_bytes raw -> is_u8 (raw_byte raw at_).
Proof.
  intros Hr. unfold raw_byte, get. destruct (0 <=? at_); [|done].
  destruct (raw !! Z.to_nat at_) as [x|] eqn:E; [by eapply Forall_lookup_1|done].
Qed.

Lemma u8_lor a b : is_u8 a -> is_u8 b -> is_u8 (Z.lor a b).
Proof.
  intros Ha Hb. unfold is_u8, u8_max in *.
  assert (0 <= Z.lor a b) by (apply Z.lor_nonneg; lia). split; [done|].
  destruct (decide (Z.lor a b = 0)); [lia|]. enough (Z.lor a b < 2 ^ 8) by lia.
  apply Z.log2_lt_pow2; [lia|]. rewrite Z.log2_lor by lia. apply Z.max_lub_lt.
  - destruct (decide (a = 0)) as [->|]; [cbn; lia|]. apply Z.log2_lt_pow2; lia.
  - destruct (decide (b = 0)) as [->|]; [cbn; lia|]. apply Z.log2_lt_pow2; lia.
Qed.

Lemma u8_land a b : is_u8 a -> 0 <= b -> is_u8 (Z.land a b).
Proof.
  intros Ha Hb. unfold is_u8, u8_max in *.
  assert (0 <= Z.land a b) by (apply Z.land_nonneg; lia). split; [done|].
  destruct (decide (Z.land a b = 0)); [lia|]. enough (Z.land a b < 2 ^ 8) by lia.
  apply Z.log2_lt_pow2; [lia|]. pose proof (Z.log2_land a b ltac:(lia) Hb).
  assert (a <> 0) by (intros ->; rewrite Z.land_0_l in *; lia). assert (Z.log2 a < 8) by (apply Z.log2_lt_pow2; lia). lia.
Qed.

Lemma short_of_raw_bytes raw : is_bytes raw -> is_bytes (short_of_raw raw).
Proof. intros Hr. unfold short_of_raw. auto 7 with bytes. Qed.

Lemma set_short_bytes raw short lower : is_bytes raw -> is_bytes short -> is_u8 lower -> is_bytes (set_short raw short lower).
Proof. intros. unfold set_short. auto with bytes. Qed.

Lemma set_cluster_bytes raw c : is_bytes raw -> is_bytes (set_cluster raw c).
Proof. intros. unfold set_cluster. auto with bytes. Qed.

Lemma set_size_bytes raw n : is_bytes raw -> is_bytes (set_size raw n).
Proof. intros. unfold set_size. auto with bytes. Qed.

Lemma set_modified_bytes raw s : is_bytes raw -> is_bytes (set_modified raw s).
Proof. intros. unfold set_modified. auto with bytes. Qed.

Lemma set_attr_bytes raw a : is_bytes raw -> is_u8 a -> is_bytes (set_attr raw a).
Proof. intros. unfold set_attr. auto with bytes. Qed.

Lemma take_contents_bytes raw other : is_bytes raw -> is_bytes other -> is_bytes (take_contents raw other).
Proof.
  intros Hr Ho. unfold take_contents. apply Forall_lookup. intros i x Hx. apply list_lookup_imap_Some in Hx as (y & Hy & ->).
  pose proof (Forall_lookup_1 _ _ _ _ Hr Hy) as Hyb. destruct (_ && _); [|done].
  destruct (other !! i) as [z|] eqn:Ez; [by eapply Forall_lookup_1|done].
Qed.

#[export] Hint Resolve raw_byte_u8 u8_lor u8_land short_of_raw_bytes set_short_bytes set_cluster_bytes set_size_bytes
  set_modified_bytes set_attr_bytes take_contents_bytes : bytes.

Lemma raw_new_bytes short attr cluster size stamp :
  is_bytes short -> is_u8 attr -> is_u8 (hundredths stamp) -> is_bytes (raw_new short attr cluster size stamp).
Proof. intros. unfold raw_new. auto 20 with bytes. Qed.

Lemma str_bytes s : is_bytes (str s).
Proof.
  unfold str. apply Forall_fmap, Forall_true. intros a. unfold compose, is_u8, u8_max.
  pose proof (Ascii.nat_ascii_bounded a). lia.
Qed.

(** ** Fields *)

(** An entry is 32 bytes, and its fields are read off them. *)
Ltac explode raw :=
  lazymatch goal with
  | H : length raw = 32%nat |- _ =>
      do 32 (destruct raw as [|? raw]; [discriminate H|]); destruct raw; [|discriminate H]; clear H
  end.
Ltac read_fields :=
  repeat first
    [ progress unfold cluster_of, size_of, modified, set_cluster, set_size, set_modified, set_attr, attr, raw_byte, short_of_raw, put16, put32
    | progress unfold le_bytes16, le_bytes32 ];
  lazy -[Z.modulo Z.div Z.add Z.mul Z.lor Z.shiftl Z.shiftr Z.land as_u16 decode].

Lemma u16_halves x : 0 <= x <= u16_max -> x `mod` 256 + 256 * ((x / 256) `mod` 256) = x.
Proof. unfold u16_max. lia. Qed.

Lemma cluster_halves c :
  is_u32 c -> Z.lor (Z.shiftl (as_u16 (Z.shiftr c 16)) 16) (as_u16 c) = c.
Proof.
  intros Hc. unfold is_u32, u32_max, as_u16 in *. rewrite Z.shiftr_div_pow2, lor_shift_add by lia.
  change (2 ^ 16) with 65536. lia.
Qed.

Lemma as_u16_range x : 0 <= as_u16 x <= u16_max.
Proof. unfold as_u16, u16_max. lia. Qed.

(** The fields of an entry, and what [set_cluster], [set_size], [set_modified]
    and [set_attr] do to each. *)
Lemma set_cluster_fields raw c :
  length raw = 32%nat -> is_u32 c ->
  cluster_of (set_cluster raw c) = c /\ size_of (set_cluster raw c) = size_of raw /\
  attr (set_cluster raw c) = attr raw /\ modified (set_cluster raw c) = modified raw /\
  short_of_raw (set_cluster raw c) = short_of_raw raw.
Proof.
  intros Hl Hc. split; [|explode raw; read_fields; done].
  rewrite <- (cluster_halves c) at 2 by done.
  rewrite <- (u16_halves (as_u16 c)), <- (u16_halves (as_u16 (Z.shiftr c 16))) by apply as_u16_range.
  explode raw. read_fields. done.
Qed.

Lemma set_size_fields raw n :
  length raw = 32%nat -> is_u32 n ->
  size_of (set_size raw n) = n /\ cluster_of (set_size raw n) = cluster_of raw /\
  attr (set_size raw n) = attr raw /\ modified (set_size raw n) = modified raw /\
  short_of_raw (set_size raw n) = short_of_raw raw.
Proof.
  intros Hl Hn. split; [|explode raw; read_fields; done].
  assert (n = n `mod` 256 + 256 * ((n / 256) `mod` 256 + 256 * ((n / 65536) `mod` 256 + 256 * ((n / 16777216) `mod` 256)))) as E
    by (unfold is_u32, u32_max in *; lia).
  rewrite E at 2. explode raw. read_fields. done.
Qed.

Lemma set_modified_fields raw s :
  length raw = 32%nat -> is_u16 (date s) -> is_u16 (time s) ->
  modified (set_modified raw s) = decode (date s) (time s) /\ cluster_of (set_modified raw s) = cluster_of raw /\
  size_of (set_modified raw s) = size_of raw /\ attr (set_modified raw s) = attr raw /\
  short_of_raw (set_modified raw s) = short_of_raw raw.
Proof.
  intros Hl Hd Ht. split; [|destruct s; explode raw; read_fields; done].
  rewrite <- (u16_halves (date s)), <- (u16_halves (time s)) by done.
  destruct s as [d t h]. cbn [date time]. explode raw. read_fields. done.
Qed.

Lemma set_attr_fields raw a :
  length raw = 32%nat ->
  attr (set_attr raw a) = a /\ cluster_of (set_attr raw a) = cluster_of raw /\
  size_of (set_attr raw a) = size_of raw /\ modified (set_attr raw a) = modified raw /\
  short_of_raw (set_attr raw a) = short_of_raw raw.
Proof. intros Hl. explode raw. read_fields. done. Qed.

Lemma set_cluster_length raw c : length (set_cluster raw c) = length raw.
Proof. unfold set_cluster, put16. by rewrite !put_bytes_length. Qed.

Lemma set_modified_length raw s : length (set_modified raw s) = length raw.
Proof. unfold set_modified, put16. by rewrite !put_bytes_length. Qed.

Lemma set_size_length raw n : length (set_size raw n) = length raw.
Proof. unfold set_size, put32. by rewrite put_bytes_length. Qed.

Lemma encode_u16 t : is_u16 (date (encode t)) /\ is_u16 (time (encode t)).
Proof.
  unfold encode. destruct (civil_from_days _) as [[y m] d]. cbn [date time].
  assert (Hlor : forall a b, is_u16 a -> is_u16 b -> is_u16 (Z.lor a b)).
  { intros a b Ha Hb. unfold is_u16, u16_max in *. assert (0 <= Z.lor a b) by (apply Z.lor_nonneg; lia). split; [done|].
    destruct (decide (Z.lor a b = 0)); [lia|]. enough (Z.lor a b < 2 ^ 16) by lia.
    apply Z.log2_lt_pow2; [lia|]. rewrite Z.log2_lor by lia. apply Z.max_lub_lt.
    - destruct (decide (a = 0)) as [->|]; [cbn; lia|]. apply Z.log2_lt_pow2; lia.
    - destruct (decide (b = 0)) as [->|]; [cbn; lia|]. apply Z.log2_lt_pow2; lia. }
  split; repeat apply Hlor; apply as_u16_range.
Qed.

Lemma encode_hundredths t : is_u8 (hundredths (encode t)).
Proof. unfold encode. destruct (civil_from_days _) as [[y m] d]. cbn [hundredths]. by destruct (_ =? 1). Qed.

Lemma raw_new_length short a c n s : length (raw_new short a c n s) = 32%nat.
Proof.
  unfold raw_new. rewrite set_size_length, set_modified_length, set_cluster_length.
  unfold put16, set_short. by repeat rewrite ?put_bytes_length, ?put8_length.
Qed.

Lemma take_contents_length raw other : length (take_contents raw other) = length raw.
Proof. apply length_imap. Qed.

(** ** The theorems *)

(** an entry made by [Raw::new] reads back as what it was made of: the
    short name, the attributes, the first cluster, the size, and the time as
    the date and time fields hold it. *)
Theorem raw_new_reads_back short a c n t :
  length short = 11%nat -> is_u32 c -> is_u32 n ->
  let raw := raw_new short a c n (encode t) in
  short_of_raw raw = short /\ attr raw = a /\ cluster_of raw = c /\ size_of raw = n /\
  modified raw = decode (date (encode t)) (time (encode t)).
Proof.
  intros Hs Hc Hn raw. unfold raw, raw_new. set (r0 := put16 _ 18 _).
  assert (length r0 = 32%nat) as Hr0.
  { unfold r0, put16, set_short. by repeat rewrite ?put_bytes_length, ?put8_length. }
  destruct (encode_u16 t) as [Hd Ht].
  destruct (set_size_fields (set_modified (set_cluster r0 c) (encode t)) n) as (-> & -> & -> & -> & ->);
    [by rewrite set_modified_length, set_cluster_length|done|].
  destruct (set_modified_fields (set_cluster r0 c) (encode t)) as (-> & -> & _ & -> & ->);
    [by rewrite set_cluster_length|done|done|].
  destruct (set_cluster_fields r0 c) as (-> & _ & -> & _ & ->); [done|done|].
  split_and!; try done.
  - do 11 (destruct short as [|? short]; [discriminate Hs|]). destruct short; [|discriminate Hs]. done.
  - do 11 (destruct short as [|? short]; [discriminate Hs|]). destruct short; [|discriminate Hs]. done.
Qed.

(** [take_contents], which a rename over an existing file uses, gives an
    entry the other's contents (attributes, first cluster, size, time) and
    keeps its own short name and case bits. *)
Theorem take_contents_fields raw other :
  length raw = 32%nat -> length other = 32%nat ->
  let new := take_contents raw other in
  short_of_raw new = short_of_raw raw /\ lower new = lower raw /\
  attr new = attr other /\ cluster_of new = cluster_of other /\ size_of new = size_of other /\
  modified new = modified other.
Proof. intros Hr Ho. explode raw. explode other. cbn zeta. unfold lower. read_fields. done. Qed.
