(* ===== verification/LongNames.v ===== *)
(** * Names

    What [name.rs] writes to the card is bytes, and the laws of its functions:
    how names compare, which are refused, and that a name written as a short
    name or as long-name entries is the name read back. *)

From S2P Require Import Prelude Bytes Time Boot BootSpec Name Cache CacheSpec CacheFlush CacheIo CacheWrite Table TableSpec Dir RawSpec.

(** ** What is written is bytes *)

Lemma short_char_u8 x : short_char x = true -> is_u8 x.
Proof.
  unfold short_char, is_ascii_uppercase, is_ascii_digit, is_u8, u8_max. intros H.
  apply orb_true_iff in H as [H|H]; [lia|]. apply existsb_exists in H as (y & Hy & ->%Z.eqb_eq).
  cbn in Hy. lia.
Qed.

Lemma forallb_Forall {A} (p : A -> bool) xs : forallb p xs = true <-> Forall (fun x => p x = true) xs.
Proof. by rewrite forallb_True, Is_true_true || (rewrite forallb_forall, Forall_forall; setoid_rewrite list_elem_of_In). Qed.

Lemma exact_short_bytes name short : exact_short name = Some short -> is_bytes short /\ length short = 11%nat.
Proof.
  unfold exact_short. destruct (match rsplit_once PERIOD name with Some _ => _ | None => _ end) as [[base ext]|]; [|done].
  destruct (_ || _ || _ || _); [done|]. destruct (forallb short_char (base ++ ext)) eqn:E; [|done]. cbn [negb].
  intros [= <-]. apply forallb_Forall, Forall_app in E as [Hb He]. split; [|by rewrite !put_bytes_length].
  assert (is_bytes base) by (eapply Forall_impl; [exact Hb|]; intros x; apply short_char_u8).
  assert (is_bytes ext) by (eapply Forall_impl; [exact He|]; intros x; apply short_char_u8).
  apply put_bytes_bytes; [|done]. apply put_bytes_bytes; [|done]. by apply (replicate_bytes 11 SPACE).
Qed.

Lemma basis_byte_u8 c x : basis_byte c = Some x -> is_u8 x.
Proof.
  unfold basis_byte. destruct (_ || _); [done|]. destruct (_ && _) eqn:E; intros [= <-]; [|done].
  apply andb_true_iff in E as [_ E]. by apply short_char_u8.
Qed.

Lemma fill_basis_bytes room part : is_bytes (fill_basis room part).1.
Proof.
  unfold fill_basis. cbn [fst]. apply put_bytes_bytes; [by apply replicate_bytes|]. apply take_bytes.
  apply Forall_forall. intros x Hx. apply list_elem_of_omap in Hx as (c & _ & Hc). by eapply basis_byte_u8.
Qed.

Lemma basis_bytes name : is_bytes (base (basis name)) /\ is_bytes (ext (basis name)).
Proof.
  unfold basis. destruct (match rsplit_once PERIOD name with Some _ => _ | None => _ end) as [bp ep].
  pose proof (fill_basis_bytes 8 bp) as Hb. pose proof (fill_basis_bytes 3 ep) as He.
  destruct (fill_basis 8 bp) as [b bl], (fill_basis 3 ep) as [e el]. cbn [fst] in *.
  destruct (bl =? 0); cbn [base ext]; [|done]. split; [|done]. repeat constructor; unfold u8_max, UNDERSCORE, SPACE; lia.
Qed.

Lemma tail_digits_bytes room n : is_bytes (tail_digits room n).
Proof.
  revert n. induction room as [|room IH]; intros n; [constructor|]. cbn [tail_digits]. constructor; [unfold is_u8, u8_max; lia|].
  destruct (n / 10 =? 0); [constructor|apply IH].
Qed.

Lemma with_tail_bytes b n : is_bytes (base b) -> is_bytes (ext b) -> is_bytes (with_tail b n) /\ length (with_tail b n) = 11%nat.
Proof.
  intros Hb He. unfold with_tail. split; [|by rewrite !put_bytes_length].
  assert (is_bytes (reverse (tail_digits 7 n))) by (apply Forall_reverse, tail_digits_bytes).
  assert (is_bytes [TILDE]) by (repeat constructor; unfold TILDE, u8_max; lia).
  auto 9 with bytes.
Qed.

Lemma find_tail_Some fuel b taken n short :
  find_tail fuel b taken n = Some short -> exists k, n <= k /\ k < n + Z.of_nat fuel /\ short = with_tail b k /\ taken short = false.
Proof.
  revert n. induction fuel as [|fuel IH]; intros n; [done|]. cbn [find_tail]. destruct (taken (with_tail b n)) eqn:E.
  - intros H. destruct (IH _ H) as (k & Hk1 & Hk2 & Hk3). exists k. split_and!; [lia|lia|apply Hk3..].
  - intros [= <-]. exists n. split_and!; [lia|lia|done|done].
Qed.

(** What [short_name] returns: one of its three kinds, not taken. *)
Lemma short_name_cases name taken short long :
  short_name name taken = Some (short, long) ->
  taken short = false /\
  (exact_short name = Some short /\ long = false \/
   exact_short (to_ascii_uppercase <$> name) = Some short /\ long = true \/
   (exists k, 1 <= k <= MAX_TAIL /\ short = with_tail (basis name) k) /\ long = true).
Proof.
  unfold short_name.
  pose proof (find_tail_Some (Z.to_nat MAX_TAIL) (basis name) taken 1) as Hft. revert Hft.
  generalize (find_tail (Z.to_nat MAX_TAIL) (basis name) taken 1) as ft. intros ft Hft.
  intros H. apply union_Some in H as [H|[_ H]]; [apply union_Some in H as [H|[_ H]]|].
  - destruct (exact_short name) as [s'|]; [|done]. destruct (taken s') eqn:Et; simplify_eq. eauto.
  - destruct (forallb is_ascii name); [|done].
    destruct (exact_short (to_ascii_uppercase <$> name)) as [s'|]; [|done]. destruct (taken s') eqn:Et; simplify_eq. eauto 6.
  - apply fmap_Some in H as (s & Hs & [= -> ->]). destruct (Hft _ Hs) as (k & Hk1 & Hk2 & -> & Ht). split; [done|].
    right. right. split; [|done]. exists k. split; [|done]. lia.
Qed.

Lemma short_name_bytes name taken short long :
  short_name name taken = Some (short, long) -> is_bytes short /\ length short = 11%nat.
Proof.
  intros (_ & [[H _]|[[H _]|[(k & _ & ->) _]]])%short_name_cases; [by eapply exact_short_bytes..|].
  destruct (basis_bytes name). by apply with_tail_bytes.
Qed.

Lemma checksum_u8 short : is_u8 (checksum short).
Proof.
  unfold checksum. assert (is_u8 0) as H by done. revert H. generalize 0 as s. induction short as [|x short IH]; intros s Hs; [done|].
  cbn [foldl]. apply IH. unfold is_u8, u8_max. lia.
Qed.

Lemma put_units_bytes entry us start ats : is_bytes entry -> is_bytes (put_units entry us start ats).
Proof. revert entry start. induction ats as [|a ats IH]; intros entry start He; [done|]. cbn. apply IH. auto with bytes. Qed.

Lemma long_entry_bytes us sum count ord : is_u8 sum -> is_bytes (long_entry us sum count ord).
Proof.
  intros Hs. unfold long_entry. apply put_units_bytes, put8_bytes; [|done]. apply put8_bytes; [|done].
  apply put8_bytes; [by apply replicate_bytes|]. apply u8_lor; [unfold as_u8, is_u8, u8_max; lia|by destruct (ord =? count)].
Qed.

Lemma long_entries_bytes us sum : is_u8 sum -> Forall is_bytes (long_entries us sum).
Proof. intros Hs. unfold long_entries. apply Forall_fmap, Forall_true. intros ord. by apply long_entry_bytes. Qed.

(** * Long names, written and read back

    A name is stored as UTF-16 units spread over long-name entries, the last
    part first. [long_entries] writes them and the scan of a directory gathers
    them ([long_push], [long_take]): the name gathered is the name written. *)

(** ** UTF-16 *)

(** A [char]: any code point but a surrogate. *)
Definition is_scalar (c : Z) : Prop := 0 <= c < 0xD800 \/ 0xE000 <= c < 0x110000.

Lemma decode_encode_char c s : is_scalar c -> decode_utf16 (encode_char c ++ s) = cons c <$> decode_utf16 s.
Proof.
  intros Hc. unfold encode_char, is_scalar in *. destruct (c <? 0x10000) eqn:E.
  - cbn [app decode_utf16]. replace ((c <? 0xD800) || (0xDFFF <? c)) with true by lia. done.
  - cbn [app decode_utf16].
    set (hi := 0xD800 + (c - 0x10000) / 0x400). set (lo := 0xDC00 + (c - 0x10000) `mod` 0x400).
    assert (0xD800 <= hi < 0xDC00) by (unfold hi; lia). assert (0xDC00 <= lo <= 0xDFFF) by (unfold lo; lia).
    replace ((hi <? 0xD800) || (0xDFFF <? hi)) with false by lia. rewrite (proj2 (Z.leb_gt _ _)) by lia.
    replace ((0xDC00 <=? lo) && (lo <=? 0xDFFF)) with true by lia.
    replace (0x10000 + (hi - 0xD800) * 0x400 + (lo - 0xDC00)) with c by (unfold hi, lo; lia). done.
Qed.

Lemma decode_encode_utf16 s : Forall is_scalar s -> decode_utf16 (encode_utf16 s) = Some s.
Proof.
  induction 1 as [|c s Hc Hs IH]; [done|]. unfold encode_utf16 in *. cbn [mbind list_bind].
  rewrite decode_encode_char by done. by rewrite IH.
Qed.

(** The units of a name that has no NUL: 16 bits, and not zero. *)
Lemma encode_units s : Forall is_scalar s -> Forall (fun c => c <> 0) s -> Forall (fun u => 0 < u <= u16_max) (encode_utf16 s).
Proof.
  intros Hs Hn. apply Forall_bind. rewrite Forall_forall in Hs, Hn. apply Forall_forall. intros c Hc.
  specialize (Hs c Hc). specialize (Hn c Hc). cbn. unfold encode_char, is_scalar, u16_max in *.
  destruct (c <? 0x10000) eqn:E; repeat (apply Forall_cons; split; [lia|]); constructor.
Qed.

(** ** Putting bytes in place *)

Lemma put_bytes_lookup l at_ xs i :
  0 <= at_ ->
  put_bytes l at_ xs !! i =
    (if decide (Z.to_nat at_ <= i < Z.to_nat at_ + length xs)%nat
     then (if decide (i < length l)%nat then xs !! (i - Z.to_nat at_)%nat else None) else l !! i).
Proof.
  revert l at_. induction xs as [|x xs IH]; intros l at_ Hat; cbn [put_bytes].
  { case_decide; [cbn in *; lia|done]. }
  rewrite IH by lia. unfold put8. rewrite length_insert. cbn [length].
  destruct (decide (i = Z.to_nat at_)) as [->|Hne].
  - rewrite decide_False by lia. rewrite (decide_True (P := (_ <= _ < _)%nat)) by lia. rewrite Nat.sub_diag. case_decide.
    + by rewrite list_lookup_insert_eq.
    + apply lookup_ge_None. rewrite length_insert. lia.
  - rewrite list_lookup_insert_ne by done.
    destruct (decide (Z.to_nat at_ <= i < Z.to_nat at_ + S (length xs))%nat).
    + rewrite decide_True by lia. case_decide; [|done].
      replace (i - Z.to_nat at_)%nat with (S (i - Z.to_nat (at_ + 1)))%nat by lia. done.
    + by rewrite decide_False by lia.
Qed.

(** ** One entry *)

(** The number in the first byte of the entry that holds part [ord] of [count]. *)
Definition ord_byte (count ord : Z) : Z := Z.lor (as_u8 ord) (if ord =? count then LAST_LONG_ENTRY else 0).

(** The twenty numbers there are. *)
Lemma ord_byte_table :
  forallb (fun o => negb (Z.land (Z.lor (as_u8 o) 64) 64 =? 0) && (Z.land (Z.lor (as_u8 o) 64) 191 =? o)
                    && (Z.land (Z.lor (as_u8 o) 0) 64 =? 0) && (Z.lor (as_u8 o) 0 =? o)) (seqZ 1 20) = true.
Proof. reflexivity. Qed.

Lemma ord_byte_spec count ord :
  1 <= ord <= count -> count <= MAX_LONG_ENTRIES ->
  (Z.land (ord_byte count ord) LAST_LONG_ENTRY =? 0) = negb (ord =? count) /\
  (ord = count -> Z.land (ord_byte count ord) (u8_max - LAST_LONG_ENTRY) = ord) /\
  (ord <> count -> ord_byte count ord = ord).
Proof.
  intros Ho Hc. unfold ord_byte, MAX_LONG_ENTRIES, u8_max, LAST_LONG_ENTRY in *.
  pose proof ord_byte_table as H. apply forallb_Forall in H. rewrite Forall_forall in H.
  specialize (H ord ltac:(apply elem_of_seqZ; lia)). rewrite !andb_true_iff in H. destruct H as [[[H1 H2] H3] H4].
  apply negb_true_iff in H1. change (255 - 64) with 191. destruct (ord =? count) eqn:E; cbn [negb]; split_and!; try lia; done.
Qed.

Lemma unit_at_range us i : Forall (fun u => 0 < u <= u16_max) us -> 0 <= unit_at us i <= u16_max.
Proof.
  intros Hu. unfold unit_at. destruct (us !! i) as [u|] eqn:E.
  - pose proof (Forall_lookup_1 _ _ _ _ Hu E) as H. cbn in H. lia.
  - unfold u16_max. destruct (i =? length us)%nat; lia.
Qed.

(** The fields of one entry. *)
Lemma long_entry_fields us sum count ord :
  Forall (fun u => 0 < u <= u16_max) us -> 1 <= ord ->
  let e := long_entry us sum count ord in
  first_byte e = ord_byte count ord /\ is_long e = true /\ checksum_field e = sum /\
  entry_units e = (fun k => unit_at us (Z.to_nat ((ord - 1) * UNITS_PER_ENTRY) + k)%nat) <$> seq 0 13.
Proof.
  intros Hu Ho e. unfold e, long_entry. set (s := Z.to_nat ((ord - 1) * UNITS_PER_ENTRY)). fold (ord_byte count ord).
  split_and!; [reflexivity..|].
  assert (Hh : forall k, (unit_at us k) `mod` 256 + 256 * ((unit_at us k / 256) `mod` 256) = unit_at us k).
  { intros k. apply u16_halves. by apply unit_at_range. }
  rewrite (list_fmap_ext _ (fun k => (unit_at us (s + k)%nat) `mod` 256 + 256 * ((unit_at us (s + k)%nat / 256) `mod` 256)))
    by (intros; by rewrite Hh).
  unfold entry_units, put16, le_bytes16. cbn [put_units UNIT_AT seq fmap list_fmap put_bytes].
  rewrite !Nat.add_0_r, !Nat.add_succ_r, !Nat.add_0_r.
  lazy -[Z.modulo Z.div Z.add Z.mul unit_at ord_byte]. done.
Qed.

(** ** A run of entries *)

(** The entries of a run, each with its position, as a scan meets them. *)
Fixpoint push_all {S E} (g : Long) (run : list (list Z * Z)) : M S E Long :=
  match run with
  | [] => ret g
  | (raw, at_) :: run => let! g := long_push g raw at_ in push_all g run
  end.

(** Room for a run: what [Long::new] makes and every step keeps. *)
Definition long_room (g : Long) : Prop :=
  length (units g) = Z.to_nat (MAX_LONG_ENTRIES * UNITS_PER_ENTRY) /\ length (l_at g) = Z.to_nat MAX_LONG_ENTRIES.

(** All parts of a name but the first [k] are gathered, from positions [ats]. *)
Record gathered (us : list Z) (sum count k : Z) (ats : list Z) (g : Long) : Prop := {
  ga_room : long_room g;
  ga_count : l_count g = count;
  ga_next : l_next g = k;
  ga_sum : l_checksum g = sum;
  ga_seen : l_seen g = count - k;
  ga_at : take (length ats) (l_at g) = ats /\ len ats = count - k;
  ga_units : forall j, (Z.to_nat (k * 13) <= j < Z.to_nat (count * 13))%nat -> units g !! j = Some (unit_at us j);
}.

Section run.
Context {S E : Type} (us : list Z) (sum count : Z).
Context (Hus : Forall (fun u => 0 < u <= u16_max) us) (Hcount : 1 <= count <= MAX_LONG_ENTRIES).

(** Storing part [k]: its units and its position go in their places. *)
Lemma long_store_gathers g k ats at_ (s : S) :
  long_room g -> l_count g = count -> l_next g = k -> l_checksum g = sum -> l_seen g = count - k ->
  take (length ats) (l_at g) = ats -> len ats = count - k -> 1 <= k <= count ->
  (forall j, (Z.to_nat (k * 13) <= j < Z.to_nat (count * 13))%nat -> units g !! j = Some (unit_at us j)) ->
  exists g', long_store (E := E) g (long_entry us sum count k) at_ s = (s, Ok g') /\
    gathered us sum count (k - 1) (ats ++ [at_]) g'.
Proof.
  intros [Hr1 Hr2] Hc Hn Hs Hseen Hat Hlen Hk Hu. unfold long_store, checked, MAX_LONG_ENTRIES, UNITS_PER_ENTRY in *.
  rewrite Hn, Hseen. replace ((0 <=? k - 1) && (k - 1 <=? u64_max)) with true by (unfold u64_max; lia).
  replace ((0 <=? count - k + 1) && (count - k + 1 <=? u64_max)) with true by (unfold u64_max; lia).
  exists (mkLong (put_bytes (units g) ((k - 1) * 13) (entry_units (long_entry us sum count k))) (l_count g) (k - 1) (l_checksum g)
            (put8 (l_at g) (count - k) at_) (count - k + 1)).
  split; [reflexivity|].
  destruct (long_entry_fields us sum count k Hus ltac:(lia)) as (_ & _ & _ & Heu). unfold UNITS_PER_ENTRY in Heu.
  constructor; cbn [units l_at l_count l_next l_checksum l_seen].
  - unfold long_room. cbn [units l_at]. by rewrite put_bytes_length, put8_length.
  - done.
  - done.
  - done.
  - lia.
  - rewrite length_app. cbn [length]. split; [|lia]. unfold put8.
    apply list_eq. intros i. rewrite lookup_take. case_decide as Hi.
    + destruct (decide (i = length ats)) as [->|Hne].
      * replace (Z.to_nat (count - k)) with (length ats) by lia. rewrite list_lookup_insert_eq by lia.
        by rewrite list_lookup_middle.
      * rewrite list_lookup_insert_ne by lia. rewrite lookup_app_l by lia. transitivity (take (length ats) (l_at g) !! i); [by rewrite lookup_take_lt by lia|by rewrite Hat].
    + symmetry. apply lookup_ge_None. rewrite length_app. cbn. lia.
  - intros j Hj. rewrite put_bytes_lookup by lia. rewrite Heu, length_fmap, length_seq.
    destruct (decide (Z.to_nat ((k - 1) * 13) <= j < Z.to_nat ((k - 1) * 13) + 13)%nat) as [Hin|Hout].
    + rewrite decide_True by (rewrite Hr1; lia). rewrite list_lookup_fmap, lookup_seq_lt by lia. cbn. f_equal. f_equal. lia.
    + apply Hu. lia.
Qed.

Lemma push_gathers g k ats at_ (s : S) :
  1 <= k <= count -> (k = count -> ats = [] /\ long_room g) -> (k <> count -> gathered us sum count k ats g) ->
  exists g', long_push (E := E) g (long_entry us sum count k) at_ s = (s, Ok g') /\
    gathered us sum count (k - 1) (ats ++ [at_]) g'.
Proof.
  intros Hk Hfirst Hnext. unfold long_push.
  destruct (long_entry_fields us sum count k Hus ltac:(lia)) as (Hfb & _ & Hsum & _). rewrite Hfb, Hsum.
  destruct (ord_byte_spec count k Hk ltac:(lia)) as (Hlast & Hord & Hplain). rewrite Hlast, negb_involutive.
  destruct (k =? count) eqn:Ek.
  - apply Z.eqb_eq in Ek. destruct (Hfirst Ek) as [-> Hroom]. rewrite (Hord Ek). subst k. unfold MAX_LONG_ENTRIES in *.
    replace ((count =? 0) || (20 <? count)) with false by lia.
    apply (long_store_gathers (mkLong (units g) count count sum (l_at g) 0) count []); cbn; try done; lia.
  - apply Z.eqb_neq in Ek. rewrite (Hplain Ek). destruct (Hnext Ek) as [Hroom Hc Hn Hs Hseen [Hat Hlen] Hu]. rewrite Hn, Hs.
    replace ((k =? 0) || negb (k =? k) || negb (sum =? sum)) with false by lia.
    apply (long_store_gathers g k ats); done.
Qed.

Lemma push_all_gathers (k : nat) g ats more (s : S) :
  Z.of_nat k <= count -> length more = k ->
  (Z.of_nat k = count -> ats = [] /\ long_room g) -> (Z.of_nat k <> count -> gathered us sum count (Z.of_nat k) ats g) ->
  (0 < k)%nat ->
  exists g', push_all (E := E) g (zip (long_entry us sum count <$> reverse (seqZ 1 (Z.of_nat k))) more) s = (s, Ok g') /\
    gathered us sum count 0 (ats ++ more) g'.
Proof.
  revert g ats more. induction k as [|k IH]; intros g ats more Hk Hlen Hfirst Hnext Hpos; [lia|].
  destruct more as [|at_ more]; [done|]. cbn in Hlen.
  replace (Z.of_nat (Datatypes.S k)) with (Z.of_nat k + 1) in * by lia.
  rewrite seqZ_app_split, reverse_app by lia. change (seqZ (1 + Z.of_nat k) 1) with [0 + (1 + Z.of_nat k)].
  rewrite Z.add_0_l, (Z.add_comm 1). cbn [reverse rev_append app fmap list_fmap zip zip_with push_all].
  destruct (push_gathers g (Z.of_nat k + 1) ats at_ s ltac:(lia) Hfirst Hnext) as (g1 & Hpush & Hg1).
  unfold bind. rewrite Hpush. replace (Z.of_nat k + 1 - 1) with (Z.of_nat k) in Hg1 by lia.
  destruct (decide (k = 0%nat)) as [->|Hk0].
  { cbn [Z.of_nat] in *. assert (more = []) as -> by (destruct more; [done|cbn in Hlen; lia]).
    exists g1. split; [reflexivity|]. exact Hg1. }
  destruct (IH g1 (ats ++ [at_]) more) as (g2 & Hpush2 & Hg2); [lia|lia|lia|done|lia|].
  exists g2. split; [exact Hpush2|]. by rewrite <- app_assoc in Hg2.
Qed.
End run.

(** ** The name read is the name written *)

Lemma position_app_none {A} (p : A -> bool) xs ys :
  Forall (fun x => p x = false) xs -> position p (xs ++ ys) = Nat.add (length xs) <$> position p ys.
Proof.
  induction 1 as [|x xs Hx _ IH]; cbn [app position length].
  - by destruct (position p ys).
  - rewrite Hx, IH. by destruct (position p ys).
Qed.

(** The units of a name, then a zero if there is room for it, then ones. *)
Lemma position_unit_at us (n : nat) :
  Forall (fun u => 0 < u <= u16_max) us -> (length us <= n)%nat ->
  default n (position (Z.eqb 0) (unit_at us <$> seq 0 n)) = length us /\ take (length us) (unit_at us <$> seq 0 n) = us.
Proof.
  intros Hu Hn. assert (Htake : take (length us) (unit_at us <$> seq 0 n) = us).
  { apply list_eq. intros i. rewrite lookup_take. case_decide as Hi; [|symmetry; apply lookup_ge_None; lia].
    rewrite list_lookup_fmap, lookup_seq_lt by lia. cbn. unfold unit_at. destruct (us !! i) eqn:Ei; [done|].
    apply lookup_ge_None in Ei. lia. }
  split; [|done]. rewrite <- (take_drop (length us) (unit_at us <$> seq 0 n)), Htake.
  rewrite position_app_none by (eapply Forall_impl; [exact Hu|]; intros u Hr; apply Z.eqb_neq; cbn in Hr; lia).
  destruct (decide (length us = n)) as [->|Hne].
  - rewrite drop_ge by (rewrite length_fmap, length_seq; done). done.
  - rewrite (drop_S _ 0 (length us)); [cbn; lia|]. rewrite list_lookup_fmap, lookup_seq_lt by lia. cbn. unfold unit_at.
    rewrite lookup_ge_None_2 by done. by rewrite Nat.eqb_refl.
Qed.

Lemma utf16_len_encode s : utf16_len s = len (encode_utf16 s).
Proof.
  induction s as [|c s IH]; [done|]. unfold utf16_len, encode_utf16 in *. cbn [foldr mbind list_bind].
  rewrite length_app, Nat2Z.inj_add, <- IH. f_equal. unfold char_len_utf16, encode_char. by destruct (c <? 0x10000).
Qed.

Lemma rposition_last {A} (p : A -> bool) xs i : rposition p xs = Some i -> exists x, xs !! i = Some x /\ p x = true /\ (i < length xs)%nat.
Proof.
  revert i. induction xs as [|x xs IH]; intros i; [done|]. cbn [rposition]. destruct (rposition p xs) as [j|].
  - intros [= <-]. destruct (IH j eq_refl) as (y & Hy & Hp & Hj). exists y. cbn. split_and!; [done|done|lia].
  - destruct (p x) eqn:Hp; [|done]. intros [= <-]. exists x. cbn. split_and!; [done|done|lia].
Qed.

(** What [check] lets through: at most 255 units, neither empty nor ending in a
    period or a space, and no character that a name may not have. *)
Lemma check_ok name kept :
  check name = Ok kept ->
  len (encode_utf16 kept) <= MAX_UNITS /\ kept <> [] /\ last kept <> Some PERIOD /\ last kept <> Some SPACE /\ Forall (fun c => bad_char c = false) kept.
Proof.
  unfold check. destruct (MAX_UNITS <? utf16_len (key name)) eqn:Hl; [done|].
  destruct (bool_decide (key name = []) || bool_decide (last (key name) = Some SPACE)) eqn:He; [done|].
  destruct (existsb bad_char (key name)) eqn:Hb; [done|]. intros [= <-]. rewrite utf16_len_encode in Hl.
  apply orb_false_iff in He as [He%bool_decide_eq_false Hs%bool_decide_eq_false]. split_and!; [lia|done| |done|].
  - unfold key in *. destruct (rposition _ name) as [i|] eqn:Hr; [|done]. apply rposition_last in Hr as (c & Hc & Hp & Hi).
    rewrite last_lookup, length_take, Nat.min_l by lia. cbn [pred]. rewrite lookup_take_lt, Hc by lia. intros [= ->]. done.
  - apply Forall_forall. intros c Hc. apply not_true_is_false. intros Hbad.
    apply not_true_iff_false in Hb. apply Hb, existsb_exists. exists c. by rewrite <- list_elem_of_In.
Qed.

Lemma from_units_check name kept : Forall is_scalar kept -> check name = Ok kept -> from_units (encode_utf16 kept) = Some kept.
Proof.
  intros Hs (_ & Hne & Hp & _ & Hb)%check_ok. unfold from_units. rewrite decode_encode_utf16 by done.
  replace (existsb (fun c => (c =? SLASH) || (c =? 0)) kept) with false.
  - rewrite !bool_decide_eq_false_2; [done|..]; [intros ->; by apply Hp| intros ->; by apply Hp|done].
  - symmetry. apply not_true_is_false. intros (c & Hc%list_elem_of_In & Hz)%existsb_exists.
    rewrite Forall_forall in Hb. specialize (Hb c Hc). cbn in Hb. apply orb_true_iff in Hz as [Hz|Hz]; apply Z.eqb_eq in Hz; by subst c.
Qed.

(** C34: a name that [check] accepts comes back as it was written. The entries
    [long_entries] makes of its units, met one after the other at any positions
    by a scan in any state, leave a run that [take] gives to the short name of
    that checksum: the name itself, and the position of every one of its
    entries, so that removing the file later frees all of them. *)
Theorem long_name_round_trip {S E} (name kept short ats : list Z) (g : Long) (s : S) :
  Forall is_scalar name -> check name = Ok kept -> long_room g ->
  let entries := long_entries (encode_utf16 kept) (checksum short) in
  length ats = length entries ->
  exists g', push_all (E := E) g (zip entries ats) s = (s, Ok g') /\
    exists at_, long_take g' short = (long_reset g', Some (Some kept, at_, len ats)) /\ take (length ats) at_ = ats.
Proof.
  intros Hsc Hcheck Hroom entries Hats. set (us := encode_utf16 kept) in *.
  assert (Hks : Forall is_scalar kept).
  { revert Hcheck. unfold check. repeat (case_match; [done|]). intros [= <-]. unfold key. case_match; [by apply Forall_take|constructor]. }
  destruct (check_ok _ _ Hcheck) as (Hlen & Hne & _ & _ & Hbad).
  assert (Hus : Forall (fun u => 0 < u <= u16_max) us).
  { apply encode_units; [done|]. eapply Forall_impl; [exact Hbad|]. intros c Hc ->. done. }
  assert (Hpos : 0 < len us).
  { unfold us. rewrite <- utf16_len_encode. destruct kept as [|c k]; [done|]. cbn [utf16_len foldr].
    change (foldr _ 0 k) with (utf16_len k). rewrite utf16_len_encode. unfold char_len_utf16. destruct (c <? 65536); lia. }
  set (count := div_ceil (len us) 13).
  assert (Hcount : 1 <= count <= 20 /\ len us <= count * 13) by
    (fold us in Hlen; unfold count, div_ceil, MAX_UNITS in *; destruct (len us `mod` 13 =? 0) eqn:Em; lia).
  assert (He : entries = long_entry us (checksum short) count <$> reverse (seqZ 1 (Z.of_nat (Z.to_nat count)))).
  { unfold entries, long_entries, UNITS_PER_ENTRY, MAX_LONG_ENTRIES. fold count. by rewrite Z2Nat.id, Z.min_l by lia. }
  rewrite He in *. rewrite length_fmap, length_reverse, length_seqZ in Hats.
  destruct (push_all_gathers (S := S) (E := E) us (checksum short) count Hus ltac:(unfold MAX_LONG_ENTRIES; lia)
              (Z.to_nat count) g [] ats s) as (g' & Hpush & Hg); [lia|lia|done|lia|lia|].
  exists g'. split; [exact Hpush|]. exists (l_at g'). cbn [app] in Hg. destruct Hg as [[Hr1 Hr2] Hc Hn Hsum Hseen [Hat Hal] Hu].
  split; [|exact Hat]. unfold long_take. rewrite Hc, Hn, Hsum, Hseen, !Z.eqb_refl, Z.sub_0_r, Hal, Z.sub_0_r.
  rewrite (proj2 (Z.ltb_lt _ _)) by lia. cbn [andb]. do 4 f_equal.
  unfold get_range, UNITS_PER_ENTRY, MAX_LONG_ENTRIES in *.
  rewrite (proj2 (Z.leb_le 0 (count * 13))), (proj2 (Z.leb_le (count * 13) _)) by lia. cbn [andb Z.leb Z.compare].
  rewrite Z.sub_0_r, drop_0. cbn [default from_option id].
  assert (Hall : take (Z.to_nat (count * 13)) (units g') = unit_at us <$> seq 0 (Z.to_nat (count * 13))).
  { apply list_eq. intros i. rewrite lookup_take, list_lookup_fmap. case_decide as Hi.
    - rewrite lookup_seq_lt by lia. by rewrite Hu by lia.
    - by rewrite lookup_seq_ge by lia. }
  rewrite Hall. destruct (position_unit_at us (Z.to_nat (count * 13)) Hus ltac:(lia)) as [Hp Ht].
  rewrite length_fmap, length_seq, Hp, Ht. rewrite (proj2 (Z.leb_le _ _)) by exact Hlen. by apply (from_units_check name).
Qed.

(** ** A name that needs no long-name entries *)

Lemma short_char_range c : short_char c = true -> 0x21 <= c <= 0x7E /\ c <> SLASH /\ c <> PERIOD /\ c <> SPACE.
Proof.
  unfold short_char, is_ascii_uppercase, is_ascii_digit, SLASH, PERIOD, SPACE. intros H.
  apply orb_true_iff in H as [H|H]; [lia|]. apply existsb_exists in H as (y & Hy & ->%Z.eqb_eq). cbn in Hy. lia.
Qed.

Lemma rposition_app {A} (p : A -> bool) xs ys :
  rposition p (xs ++ ys) = match rposition p ys with Some i => Some (length xs + i)%nat | None => rposition p xs end.
Proof.
  induction xs as [|x xs IH]; cbn [app rposition length]; [by destruct (rposition p ys)|]. rewrite IH. by destruct (rposition p ys).
Qed.

Lemma rposition_none {A} (p : A -> bool) xs : Forall (fun x => p x = false) xs -> rposition p xs = None.
Proof. induction 1 as [|x xs Hx _ IH]; [done|]. cbn. by rewrite IH, Hx. Qed.

Lemma padded_len_pad part k : Forall (fun c => c <> SPACE) part -> padded_len (part ++ replicate k SPACE) = length part.
Proof.
  intros Hp. unfold padded_len. rewrite rposition_app, rposition_none by (by apply Forall_replicate).
  destruct (rposition _ part) as [i|] eqn:E.
  - destruct part as [|x part] using rev_ind; [done|]. rewrite rposition_app in E. apply Forall_app in Hp as [_ Hx].
    apply Forall_inv in Hx. cbn in E. rewrite (proj2 (Z.eqb_neq _ _) Hx) in E. injection E as <-. rewrite length_app. cbn. lia.
  - destruct part as [|x part]; [done|]. exfalso. apply Forall_cons in Hp as [Hx _]. cbn in E.
    rewrite (proj2 (Z.eqb_neq _ _) Hx) in E. by destruct (rposition _ part).
Qed.

(** The eleven bytes: each part, then spaces. *)
Lemma short_parts base ext :
  (length base <= 8)%nat -> (length ext <= 3)%nat ->
  let short := put_bytes (put_bytes (replicate 11 SPACE) 0 base) 8 ext in
  take 8 short = base ++ replicate (8 - length base) SPACE /\ drop 8 short = ext ++ replicate (3 - length ext) SPACE.
Proof.
  intros Hb He short.
  assert (Hl : length short = 11%nat) by (unfold short; by rewrite !put_bytes_length).
  assert (Hat : forall i, (i < 11)%nat -> short !! i =
    Some (if decide (i < 8)%nat then default SPACE (base !! i) else default SPACE (ext !! (i - 8)%nat))).
  { intros i Hi. unfold short. rewrite put_bytes_lookup by lia. rewrite put_bytes_length, put_bytes_lookup by lia.
    rewrite !length_replicate. change (Z.to_nat 8) with 8%nat. change (Z.to_nat 0) with 0%nat. rewrite Nat.sub_0_r.
    destruct (decide (i < 8)%nat) as [H8|H8].
    - rewrite decide_False by lia. destruct (decide (0 <= i < 0 + length base)%nat) as [Hin|Hout].
      + rewrite decide_True by lia. destruct (lookup_lt_is_Some_2 base i) as [x Hx]; [lia|]. by rewrite Hx.
      + rewrite lookup_replicate_2 by lia. by rewrite lookup_ge_None_2 by lia.
    - destruct (decide (8 <= i < 8 + length ext)%nat) as [Hin|Hout].
      + rewrite decide_True by lia. destruct (lookup_lt_is_Some_2 ext (i - 8)) as [x Hx]; [lia|]. by rewrite Hx.
      + rewrite decide_False by lia. rewrite lookup_replicate_2 by lia. by rewrite lookup_ge_None_2 by lia. }
  assert (Hpad : forall part k i, (length part <= k)%nat ->
    (part ++ replicate (k - length part) SPACE) !! i = if decide (i < k)%nat then Some (default SPACE (part !! i)) else None).
  { intros part k i Hk. rewrite lookup_app. destruct (part !! i) as [x|] eqn:Hx.
    - apply lookup_lt_Some in Hx. by rewrite decide_True by lia.
    - apply lookup_ge_None in Hx. case_decide; [by rewrite lookup_replicate_2 by lia|apply lookup_ge_None; rewrite length_replicate; lia]. }
  split; apply list_eq; intros i; rewrite Hpad by done.
  - rewrite lookup_take. case_decide; [|done]. rewrite Hat by lia. by rewrite decide_True by lia.
  - rewrite lookup_drop. destruct (decide (i < 3)%nat) as [Hi|Hi].
    + rewrite Hat by lia. rewrite decide_False by lia. by replace (8 + i - 8)%nat with i by lia.
    + apply lookup_ge_None. lia.
Qed.

Lemma mapM_oem part : Forall (fun c => short_char c = true) part -> mapM (fun byte => oem_char byte false) part = Some part.
Proof.
  intros Hp. apply mapM_Some. induction Hp as [|c part Hc _ IH]; [done|]. constructor; [|done].
  apply short_char_range in Hc as (Hr & Hs & _ & _). unfold oem_char.
  rewrite (proj2 (Z.leb_gt c 0x1F)), (proj2 (Z.eqb_neq c SLASH)), (proj2 (Z.leb_le c 0x7F)) by lia. done.
Qed.

Lemma length_utf8 s : len s <= utf8_len s.
Proof.
  induction s as [|c s IH]; [done|]. unfold utf8_len in *. cbn [foldr length].
  assert (1 <= char_len_utf8 c) by (unfold char_len_utf8; repeat case_match; lia). lia.
Qed.

(** A name split at its last period and put together again. *)
Lemma rsplit_once_join c s before after : rsplit_once c s = Some (before, after) -> s = before ++ [c] ++ after.
Proof.
  unfold rsplit_once. destruct (rposition (Z.eqb c) s) as [i|] eqn:E; [|done]. intros [= <- <-].
  apply rposition_last in E as (x & Hx & Hc%Z.eqb_eq & Hi). subst x. symmetry. exact (take_drop_middle _ _ _ Hx).
Qed.

Lemma exact_short_shown name short : exact_short name = Some short -> shown short 0 = Some name.
Proof.
  unfold exact_short. destruct (match rsplit_once PERIOD name with Some _ => _ | None => _ end) as [[b e]|] eqn:Es; [|done].
  destruct (bool_decide (b = []) || (8 <? utf8_len b) || (3 <? utf8_len e) || existsb (Z.eqb PERIOD) b) eqn:Ec; [done|].
  destruct (forallb short_char (b ++ e)) eqn:Ef; [|done]. cbn [negb]. intros Hsh.
  assert (short = put_bytes (put_bytes (replicate 11 SPACE) 0 b) 8 e) as -> by congruence. clear Hsh.
  rewrite !orb_false_iff in Ec. destruct Ec as [[[Eb%bool_decide_eq_false E8] E3] _].
  apply forallb_Forall, Forall_app in Ef as [Hb He]. pose proof (length_utf8 b). pose proof (length_utf8 e).
  destruct (short_parts b e) as [Ht Hd]; [lia|lia|]. cbn zeta in Ht, Hd. unfold shown. rewrite Ht, Hd.
  destruct b as [|b0 b]; [done|]. pose proof (Forall_inv Hb) as Hb0. cbn in Hb0. apply short_char_range in Hb0 as (Hr0 & _ & Hp0 & _).
  cbn [app]. rewrite (proj2 (Z.eqb_neq b0 0x05)) by lia. rewrite app_comm_cons.
  assert (Hns : forall part, Forall (fun c => short_char c = true) part -> Forall (fun c => c <> SPACE) part).
  { intros part Hpart. eapply Forall_impl; [exact Hpart|]. intros c Hc%short_char_range. apply Hc. }
  rewrite !padded_len_pad by auto. rewrite !take_app_length. change (Z.land 0 LOWER_BASE =? 0) with true.
  change (Z.land 0 LOWER_EXT =? 0) with true. cbn [negb length Nat.eqb]. rewrite !mapM_oem by done.
  assert (Hname : (if (0 <? length e)%nat then (b0 :: b) ++ [PERIOD] ++ e else b0 :: b) = name).
  { destruct (rsplit_once PERIOD name) as [[b1 e1]|] eqn:Er.
    - case_bool_decide; [done|]. injection Es as <- <-. apply rsplit_once_join in Er. destruct e1; [done|]. exact (eq_sym Er).
    - by injection Es as <- <-. }
  assert (Hdots : bool_decide (name = DOT_NAME) || bool_decide (name = DOTDOT_NAME) = false).
  { rewrite <- Hname. apply orb_false_iff. rewrite !bool_decide_eq_false. destruct (0 <? length e)%nat; split; intros [= Heq _]; done. }
  destruct (0 <? length e)%nat; cbn [fmap option_fmap option_map app] in Hname |- *; by rewrite Hname, Hdots.
Qed.

(** a name that is given a short name alone is shown as it was given, and
    the short name was not taken; a name that is given one with long-name
    entries is given one that was not taken either. So with
    [long_name_round_trip] every name of a directory reads back as written, and
    no two entries of a directory get one short name. *)
Theorem short_name_shows name taken short long :
  short_name name taken = Some (short, long) ->
  taken short = false /\ length short = 11%nat /\ is_bytes short /\ (long = false -> shown short 0 = Some name).
Proof.
  intros H. pose proof (short_name_bytes _ _ _ _ H) as [Hb Hl]. apply short_name_cases in H as [Ht Hc].
  split_and!; [done|done|done|]. intros ->. destruct Hc as [[Hx _]|[[_ ?]|[_ ?]]]; [|done|done]. by apply exact_short_shown.
Qed.
