(* ===== verification/SafeDir.v ===== *)
(** * The FAT code is safe

    On any volume with a well-formed layout, whatever its FAT holds, the code
    of table.rs ends without a panic and keeps the cache's invariant; after an
    error of the device the cache may be stale, and [cbad] says what is left. *)

From S2P Require Import Prelude Safe Bytes Time Boot BootSpec Name Cache CacheSpec CacheFlush CacheIo CacheWrite Table TableSpec Chains Scans Dir RawSpec.

Create HintDb safe.

(** Whether the volume may be written, and what the device holds, block by
    block, if not. *)
Record Image := mkImage { img_writable : bool; img_content : Z -> list Z }.

Section table.
Context {B : Type} `{!Blocks B} `{!BlocksOk B}.
Implicit Types c : Cache B.
Context (l : Layout) (D : Image).

(** While the volume is not writable the device holds what it held when the
    volume was mounted, and nothing waits to be written. *)
Definition frozen c : Prop :=
  cwritable c = img_writable D /\
  (cwritable c = false -> (forall b, ~ dirty c b) /\ forall b, content (blocks c) b = img_content D b).

Definition cinv c : Prop := vol_ok l c /\ frozen c.
Definition cbad c (e : FsError) : Prop :=
  dev_wf (blocks c) /\ layout_wf (blk_count (blocks c)) l /\ (e <> Io -> cache_ok c) /\ frozen c.

Abbreviation csafe := (safe cinv cbad).

Lemma cinv_wf c : cinv c -> layout_wf (blk_count (blocks c)) l.
Proof. intros [[_ H] _]. done. Qed.

Lemma cinv_bad c e : cinv c -> cbad c e.
Proof. intros [[Hok Hwf] Hf]. split_and!; [apply Hok|done|done|done]. Qed.

Lemma keeps_frozen c c' : cache_ok c -> keeps c c' -> frozen c -> frozen c'.
Proof.
  intros Hok (Hok' & [_ Hw] & Hv & Hd) [Hi Hf]. split; [congruence|]. intros Hr. destruct (Hf ltac:(congruence)) as [Hc HD].
  assert (Hc' : forall b, ~ dirty c' b) by (intros b Hb; by apply (Hc b), Hd). split; [done|]. intros b.
  rewrite (flushed_content c' b Hok' Hc'), Hv, <- (flushed_content c b Hok Hc). apply HD.
Qed.

Lemma writable_frozen c c' : frozen c -> cwritable c = true -> same_shape c c' -> frozen c'.
Proof. intros [Hi _] Hw [_ Hs]. split; [congruence|]. intros Hr. congruence. Qed.

Lemma cinv_keeps c c' : cinv c -> keeps c c' -> cinv c'.
Proof. intros [Hv Hf] Hk. split; [by eapply vol_ok_keeps|]. eapply keeps_frozen; [apply Hv|done|done]. Qed.

Lemma cinv_shape c c' : cinv c -> cache_ok c' -> same_shape c c' -> cwritable c = true -> cinv c'.
Proof. intros [Hv Hf] Hok Hs Hw. split; [by eapply vol_ok_shape|]. by eapply writable_frozen. Qed.

Lemma keeps_bad c c' e : cinv c -> keeps c c' -> cbad c' e.
Proof. intros Hv Hk. by eapply cinv_bad, cinv_keeps. Qed.

Lemma broken_bad c c' : cinv c -> broken c c' -> cwritable c = true -> cbad c' Io.
Proof.
  intros [[_ Hwf] Hf] [Hd Hs] Hw. pose proof Hs as [Hc _]. split_and!; [done|by rewrite Hc|done|by eapply writable_frozen].
Qed.

Lemma failed_bad c c' e : cinv c -> failed c c' e -> cbad c' e.
Proof.
  intros [[Hok0 Hwf] Hf] ([Hd Hs] & _ & Hok & Hk). pose proof Hs as [Hc _]. split_and!; [done|by rewrite Hc|done|].
  destruct (cwritable c) eqn:Hw; [by eapply writable_frozen|]. eapply keeps_frozen; [exact Hok0|by apply Hk|done].
Qed.

(** ** The cache *)

Lemma csafe_read_at offset n :
  0 <= offset -> 0 <= n -> csafe (lift (read_at offset n)) (fun data => is_bytes data /\ len data = n).
Proof.
  intros Ho Hn c Hv. apply wp_map_err, wp_read_at; [apply Hv|done|done| | |].
  - intros c' Hk. split; [by eapply cinv_keeps|]. rewrite length_fmap, length_seqZ. split; [|lia].
    apply Forall_fmap, Forall_true. intros p. apply bv_byte, Hv.
  - intros c' Hk. by eapply keeps_bad.
  - intros _. by apply cinv_bad.
Qed.

Lemma csafe_write_at offset data :
  0 <= offset -> is_bytes data -> csafe (lift (write_at offset data)) (fun _ => True).
Proof.
  intros Ho Hb c Hv. apply wp_map_err, wp_write_at; [apply Hv|done|done| | | |].
  - intros c' (Hok & Hs & _) Hw. split; [by eapply cinv_shape|done].
  - intros c' Hbr Hw. by eapply broken_bad.
  - intros _. by apply cinv_bad.
  - intros _. by apply cinv_bad.
Qed.

Lemma csafe_flush : csafe (lift flush) (fun _ => True).
Proof.
  intros c Hv. apply wp_map_err, wp_flush; [apply Hv| |].
  - intros c' Hk _ _. split; [by eapply cinv_keeps|done].
  - intros c' Hk. by eapply keeps_bad.
Qed.

(** ** Entries and chains *)

Lemma csafe_read_raw copy e :
  (forall c : Cache B, vol_ok l c -> 0 <= copy < fats l) -> (forall c : Cache B, vol_ok l c -> 0 <= e < clusters l + 2) ->
  csafe (read_raw l copy e) is_u32.
Proof.
  intros Hc He c Hv. apply wp_read_raw; [apply Hv|eapply Hc, Hv|eapply He, Hv| |].
  - intros c' Hk. split; [by eapply cinv_keeps|]. apply fat_word_u32, Hv.
  - intros c' Hk. by eapply keeps_bad.
Qed.

Lemma csafe_link a : csafe (link l a) (fun found => forall x, found = Next x -> is_cluster l x = true).
Proof.
  intros c Hv. apply wp_link; [apply Hv| | |].
  - intros c' Hk _. split; [by eapply cinv_keeps|]. intros x. apply classify_next.
  - intros c' Hk. by eapply keeps_bad.
  - intros _. by apply cinv_bad.
Qed.

Lemma csafe_next a : csafe (next l a) (fun found => forall x, found = Some x -> is_cluster l x = true).
Proof.
  eapply safe_bind; [apply csafe_link|]. intros [|x| | |v] Hx; try (apply safe_throw, cinv_bad);
    apply safe_ret; [|done]. intros y [= <-]. auto.
Qed.

Lemma csafe_set a v : is_u32 v -> csafe (set l a v) (fun _ => True).
Proof.
  intros Hu c Hv. apply wp_set; [apply Hv|done| | |].
  - intros c' (Hok & Hs & _ & _ & Hw) _. split; [by eapply cinv_shape|done].
  - intros c' e Hf. by eapply failed_bad.
  - intros _. by apply cinv_bad.
Qed.

Lemma csafe_walk first : csafe (walk l first) (fun r => 1 <= r.1 <= clusters l).
Proof.
  intros c Hv. apply wp_walk; [apply Hv| | |].
  - intros c' cs z Hk Hf Hcs _. split; [by eapply cinv_keeps|]. cbn.
    pose proof (walk_bound l c first cs (proj1 Hv) Hf Hcs). apply chain_not_nil in Hcs. destruct cs; [done|]. cbn in *. lia.
  - intros c' Hk. by eapply keeps_bad.
  - intros c' Hk _. by eapply keeps_bad.
Qed.

Lemma csafe_free_loop todo i count a :
  0 <= i -> i + Z.of_nat todo <= u32_max -> csafe (free_loop l todo i count a) (fun _ => True).
Proof.
  revert i a. induction todo as [|todo IH]; intros i a Hi Hu; [by apply safe_ret|]. cbn [free_loop].
  eapply safe_bind; [apply csafe_link|]. intros found _.
  eapply safe_bind; [by apply csafe_set|]. intros [] _.
  eapply (safe_bind _ _ _ _ (fun i' => i' = i + 1)); [apply safe_checked; [lia|done]|]. intros ? ->.
  destruct (i + 1 <? count); [destruct found; try (apply safe_throw, cinv_bad)|]; apply IH; lia.
Qed.

Lemma csafe_clean : csafe (clean l) (fun _ => True).
Proof.
  eapply safe_bind; [|intros v _; by apply safe_ret]. apply csafe_read_raw.
  - intros c [_ Hwf]. apply (read_copy_range _ _ Hwf).
  - intros c [_ Hwf]. pose proof (wf_clusters _ _ Hwf). lia.
Qed.

Lemma csafe_write_raw copy e v :
  (forall c : Cache B, vol_ok l c -> 0 <= copy < fats l) -> (forall c : Cache B, vol_ok l c -> 0 <= e < clusters l + 2) ->
  csafe (write_raw l copy e v) (fun _ => True).
Proof.
  intros Hc He c Hv. apply wp_write_raw; [apply Hv|eapply Hc, Hv|eapply He, Hv| | |].
  - intros c' (Hok & Hs & _) Hw. split; [by eapply cinv_shape|done].
  - intros c' Hb Hw. by eapply broken_bad.
  - intros _. by apply cinv_bad.
Qed.

Lemma csafe_set_clean_loop on changed ks :
  (forall c : Cache B, vol_ok l c -> Forall (fun k => 0 <= k < fats l) ks) ->
  csafe (set_clean_loop l on changed ks) (fun _ => True).
Proof.
  assert (Hone : forall c, vol_ok l c -> 0 <= 1 < clusters l + 2) by (intros c [_ Hwf]; pose proof (wf_clusters _ _ Hwf); lia).
  revert changed. induction ks as [|k ks IH]; intros changed Hks; [by apply safe_ret|]. cbn [set_clean_loop].
  assert (Hk : forall c, vol_ok l c -> 0 <= k < fats l) by (intros c Hv; specialize (Hks c Hv); by inversion Hks).
  assert (Hks' : forall c, vol_ok l c -> Forall (fun k => 0 <= k < fats l) ks) by (intros c Hv; specialize (Hks c Hv); by inversion Hks).
  eapply safe_bind; [by apply csafe_read_raw|]. intros old _. set (new := if on then _ else _). clearbody new.
  destruct (negb (new =? old)); [|auto]. eapply safe_bind; [by apply csafe_write_raw|]. auto.
Qed.

Lemma csafe_set_clean on : csafe (set_clean l on) (fun _ => True).
Proof.
  intros c Hv. unfold set_clean. apply wp_bind, (wp_written_copies _ _ (cinv_wf _ Hv)).
  apply csafe_set_clean_loop; [|done]. intros c' [_ Hwf]. apply (copies_range _ _ Hwf).
Qed.

(** ** The table and the cache together *)

Definition fc_ok (s : Fat * Cache B) : Prop := fat_wf l s.1 /\ cinv s.2.
Definition fc_bad (s : Fat * Cache B) (e : FsError) : Prop := fat_wf l s.1 /\ cbad s.2 e.

Abbreviation fsafe := (safe fc_ok fc_bad).

Lemma fsafe_free_count : fsafe free_count (fun n => 0 <= n <= clusters l).
Proof.
  intros [f c] [Hf Hv]. cbn [fst snd] in *. apply (wp_free_count l); [apply Hv|done| |].
  - intros c' Hk n. assert (0 <= n <= clusters l) as Hn.
    { unfold n. destruct (free f) as [m|] eqn:E; [by apply (fat_bound _ _ Hf)|]. cbn.
      pose proof (wf_clusters _ _ (cinv_wf _ Hv)). pose proof (free_clusters_bound l c). lia. }
    split; [|done]. split; [|by eapply cinv_keeps]. cbn [fst]. constructor; cbn; [done|apply Hf|]. by intros ? [= <-].
  - intros c' Hk. split; [done|by eapply keeps_bad].
Qed.

Lemma fsafe_find_free want :
  0 <= want ->
  fsafe (find_free want []) (fun found => Forall (fun x => is_cluster l x = true) found /\ len found <= want).
Proof.
  intros Hw [f c] [Hf Hv]. cbn [fst snd] in *. apply (wp_find_free l); [apply Hv|done|done| |].
  - intros f' c' Hk Hf'. split; [split; [apply Hf'|by eapply cinv_keeps]|]. cbn [app].
    pose proof (search_order_perm l c (cursor f) (fat_cursor _ _ Hf)) as Hperm.
    unfold found_free. case_decide; [split; [constructor|cbn; lia]|]. split; [|rewrite length_take; lia].
    apply Forall_take. rewrite Hperm. apply Forall_forall. intros x Hx. apply list_elem_of_filter in Hx as [_ Hx].
    apply elem_of_seqZ in Hx. apply is_cluster_iff. lia.
  - intros c' Hk. split; [done|by eapply keeps_bad].
Qed.

Lemma gave_wf f n : fat_wf l f -> 0 <= n -> 0 <= clusters l -> fat_wf l (gave n f).
Proof.
  intros [H1 H2 H3] Hn Hc. constructor; cbn; [done..|]. intros m Hm. apply fmap_Some in Hm as (k & Hk & ->).
  rewrite H1. pose proof (H3 k Hk). unfold saturating_add32, u32_max. lia.
Qed.

Lemma took_wf f n : fat_wf l f -> 0 <= n -> fat_wf l (took n f).
Proof.
  intros [H1 H2 H3] Hn. constructor; cbn; [done..|]. intros m Hm. apply fmap_Some in Hm as (k & Hk & ->).
  pose proof (H3 k Hk). unfold saturating_sub. lia.
Qed.

Lemma forget_free_wf f : fat_wf l f -> fat_wf l (forget_free f).
Proof. intros [H1 H2 H3]. by constructor. Qed.

Lemma fsafe_free_chain first count :
  0 <= count <= u32_max -> fsafe (free_chain first count) (fun _ => True).
Proof.
  intros Hc [f c] [Hf Hv]. cbn [fst snd] in *. unfold free_chain, self_layout, on_cache.
  apply wp_bind, wp_gets. cbn [fst]. rewrite (fat_layout _ _ Hf). apply wp_bind, wp_zoom. cbn [fst snd].
  eapply wp_mono; [apply csafe_free_loop; [lia|lia|done]| |].
  - intros c' [] [Hv' _]. apply wp_modify. split; [|done]. split; [|done]. cbn.
    apply gave_wf; [done|lia|]. pose proof (wf_clusters _ _ (cinv_wf _ Hv)). lia.
  - intros c' e Hbad. by split.
Qed.

Lemma fsafe_next_free_hint : fsafe next_free_hint (fun _ => True).
Proof. eapply safe_bind; [by apply fsafe_find_free|]. intros one _. by apply safe_ret. Qed.

Lemma fsafe_gave n : 0 <= n -> fsafe (on_fat (gave n)) (fun _ => True).
Proof.
  intros Hn. apply safe_modify; [|done]. intros [f c] [Hf Hv]. split; [|done].
  apply gave_wf; [done|done|]. pose proof (wf_clusters _ _ (cinv_wf _ Hv)). lia.
Qed.

Lemma fsafe_took n : 0 <= n -> fsafe (on_fat (took n)) (fun _ => True).
Proof. intros Hn. apply safe_modify; [|done]. intros [f c] [Hf Hv]. split; [|done]. by apply took_wf. Qed.
End table.

(** * The directory code is safe

    Whatever bytes a directory holds and whatever its chain is, the code of
    dir.rs ends without a panic, reads at most [MAX_ENTRIES] entries, and what
    it returns lies in the volume. *)

Section dir.
Context {B : Type} `{!Blocks B} `{!BlocksOk B}.
Context (l : Layout) (D : Image) (size : Z) (Hwf : layout_wf size l).

Abbreviation csafe := (safe (cinv l D) (cbad l D) (S := Cache B)).

Lemma csafe_throw {A} e (P : A -> Prop) : csafe (throw e) P.
Proof. apply safe_throw, cinv_bad. Qed.

Lemma csafe_ok_or {A} (o : option A) e (P : A -> Prop) : (forall a, o = Some a -> P a) -> csafe (ok_or o e) P.
Proof. apply safe_ok_or, cinv_bad. Qed.

(** A cluster's position leaves room for the cluster below the end of the
    volume. *)
Definition base_ok (at_ : Z) : Prop := 0 <= at_ /\ at_ + cluster_bytes l <= u32_max * 512.

Lemma base_ok_pos a : is_cluster l a = true -> base_ok (cluster_pos l a).
Proof.
  intros Ha. pose proof (cluster_pos_range _ _ Hwf a Ha). pose proof (wf_sectors _ _ Hwf).
  pose proof (data_start_range _ _ Hwf). unfold base_ok, BLOCK, u32_max in *. lia.
Qed.

Lemma csafe_offset a : csafe (offset_or_corrupt l a) base_ok.
Proof.
  eapply (safe_bind _ _ _ _ (fun o => forall at_, o = Some at_ -> base_ok at_)).
  - intros c Hv. apply (wp_cluster_offset _ _ (cinv_wf _ _ _ Hv)). split; [done|].
    destruct (is_cluster l a) eqn:E; intros at_ [= <-]. by apply base_ok_pos.
  - intros o Ho. by apply csafe_ok_or.
Qed.

(** ** Slots *)

Definition slots_ok (s : Slots) : Prop :=
  s_per_cluster s = cluster_bytes l / 32 /\ 0 <= s_within s <= s_per_cluster s /\ 0 <= s_index s <= MAX_ENTRIES.

Definition raw_ok (raw : list Z) : Prop := is_bytes raw /\ len raw = 32.

Definition slot_next_ok (s : Slots) (r : Slots * option (Z * Z * list Z)) : Prop :=
  slots_ok r.1 /\
  match r.2 with
  | None => s_index r.1 = s_index s
  | Some (index, at_, raw) =>
      index = s_index s /\ s_index r.1 = index + 1 /\ index < MAX_ENTRIES /\ 0 <= at_ /\ raw_ok raw
  end.

Lemma csafe_slots_next s : slots_ok s -> csafe (slots_next l s) (slot_next_ok s).
Proof.
  intros Hs. pose proof (cluster_blocks_cases _ _ Hwf) as (_ & Hcb & Hmod). unfold slots_next.
  eapply (safe_bind _ _ _ _ (fun moved => forall s', moved = Some s' ->
    slots_ok s' /\ s_within s' < s_per_cluster s' /\ s_index s' = s_index s)).
  { destruct (s_per_cluster s <=? s_within s) eqn:E.
    - eapply safe_bind; [apply csafe_next|]. intros [a|] _; apply safe_ret; [|done]. intros s' [= <-].
      destruct Hs as (H1 & H2 & H3). unfold slots_ok. cbn. lia.
    - apply safe_ret. intros s' [= <-]. split; [done|]. lia. }
  intros [s'|] Hs'; [|by apply safe_ret].
  destruct (Hs' s' eq_refl) as ((H1 & H2 & H3) & Hlt & Hi).
  destruct (MAX_ENTRIES <=? s_index s') eqn:E; [apply csafe_throw|].
  eapply safe_bind; [apply csafe_offset|]. intros base [Hb0 Hb1].
  assert (0 <= s_within s' * 32 /\ s_within s' * 32 + 32 <= cluster_bytes l) by lia.
  eapply (safe_bind _ _ _ _ (fun at_ => at_ = base + s_within s' * 32)).
  { apply safe_checked; [unfold ENTRY_BYTES, u32_max, u64_max in *; lia|done]. }
  intros ? ->. eapply safe_bind; [apply csafe_read_at; lia|]. intros raw Hraw.
  eapply (safe_bind _ _ _ _ (fun x => x = s_index s' + 1)).
  { apply safe_checked; [unfold u32_max, MAX_ENTRIES in *; lia|done]. }
  intros ? ->. eapply (safe_bind _ _ _ _ (fun x => x = s_within s' + 1)).
  { apply safe_checked; [unfold u32_max in *; lia|done]. }
  intros ? ->. apply safe_ret. split; cbn; [|by split_and!; try lia; destruct Hraw].
  unfold slots_ok. cbn. lia.
Qed.

(** ** Names *)

Definition nonneg (l : list Z) : Prop := Forall (fun x => 0 <= x) l.

Definition long_ok (g : Long) : Prop :=
  0 <= l_next g /\ 0 <= l_seen g /\ l_next g + l_seen g <= MAX_LONG_ENTRIES /\ nonneg (l_at g).

Lemma long_reset_ok g : long_ok g -> long_ok (long_reset g).
Proof. intros (H1 & H2 & H3 & H4). unfold long_ok, MAX_LONG_ENTRIES. cbn. split_and!; [lia..|done]. Qed.

Lemma csafe_long_store g raw at_ : long_ok g -> 0 < l_next g -> 0 <= at_ -> csafe (long_store g raw at_) long_ok.
Proof.
  intros (H1 & H2 & H3 & H4) Hn Hat. unfold long_store, MAX_LONG_ENTRIES in *.
  eapply (safe_bind _ _ _ _ (fun x => x = l_next g - 1)); [apply safe_checked; [unfold u64_max; lia|done]|]. intros ? ->.
  eapply (safe_bind _ _ _ _ (fun x => x = l_seen g + 1)); [apply safe_checked; [unfold u64_max; lia|done]|]. intros ? ->.
  apply safe_ret. unfold long_ok, MAX_LONG_ENTRIES. cbn. split_and!; [lia..|]. by apply Forall_insert.
Qed.

Lemma csafe_long_push g raw at_ : long_ok g -> 0 <= at_ -> csafe (long_push g raw at_) long_ok.
Proof.
  intros Hg Hat. unfold long_push. apply safe_if; intros _.
  - set (count := Z.land _ _). apply safe_if; intros E; [by apply safe_ret, long_reset_ok|].
    assert (0 <= count) by (apply Z.land_nonneg; right; unfold u8_max, LAST_LONG_ENTRY; lia).
    apply csafe_long_store; [|cbn; lia|done]. unfold long_ok, MAX_LONG_ENTRIES in *. cbn. split_and!; [lia..|apply Hg].
  - apply safe_if; intros E; [by apply safe_ret, long_reset_ok|].
    apply csafe_long_store; [done| |done]. destruct Hg as (H1 & _). lia.
Qed.

Definition found_ok (f : Found) : Prop := raw_ok (f_raw f) /\ 0 <= f_at f /\ nonneg (f_long_at f).

Definition item_ok (item : Item) : Prop :=
  match item with
  | ItEntry f => found_ok f
  | ItOther _ _ _ => True
  | ItFree index | ItEnd index => 0 <= index < MAX_ENTRIES
  end.

Lemma short_item_ok g index at_ raw :
  long_ok g -> 0 <= at_ -> raw_ok raw -> long_ok (short_item g index at_ raw).1 /\ item_ok (short_item g index at_ raw).2.
Proof.
  intros Hg Hat Hraw. pose proof (long_reset_ok g Hg) as Hr. unfold short_item, long_take.
  assert (Hz : nonneg (replicate (Z.to_nat MAX_LONG_ENTRIES) 0)) by (apply Forall_replicate; lia).
  pose proof Hg as (_ & _ & _ & Hl).
  destruct (_ && _ && _); cbn [fst snd]; (destruct (_ || is_volume raw); [done|]); cbn [fst snd];
    (destruct (or_else _ _); [|done]); cbn; done.
Qed.

(** ** Scans *)

Definition scan_ok (sc : Scan) : Prop := slots_ok (sc_slots sc) /\ long_ok (sc_long sc).

Lemma csafe_scan_next sc :
  scan_ok sc ->
  csafe (scan_next l sc)
    (fun r => scan_ok r.1 /\ match r.2 with
                             | None => True
                             | Some item => item_ok item /\ s_index (sc_slots sc) < s_index (sc_slots r.1)
                             end).
Proof.
  intros Hsc. unfold scan_next.
  apply (safe_loop _ _ (fun sc' => scan_ok sc' /\ s_index (sc_slots sc) <= s_index (sc_slots sc'))
           (fun sc' => Z.to_nat (MAX_ENTRIES - s_index (sc_slots sc')))); [|by split|].
  2: { destruct Hsc as [(_ & _ & H) _]. unfold DIR_FUEL, MAX_ENTRIES in *. lia. }
  intros sc' [[Hs Hl] Hge]. eapply safe_bind; [by apply csafe_slots_next|].
  intros [s [[[index at_] raw]|]] [Hs' Hnext]; cbn [fst snd] in *.
  2: { apply safe_ret. cbn. split; [split; [done|done]|done]. }
  destruct Hnext as (-> & Hi & Hmax & Hat & Hraw).
  assert (Hidx : 0 <= s_index (sc_slots sc') < MAX_ENTRIES) by (destruct Hs as (_ & _ & H); lia).
  destruct (sc_ended sc').
  { apply safe_ret. cbn. split; [by split|]. lia. }
  destruct (first_byte raw =? END_MARK).
  { apply safe_ret. cbn. split; [split; [done|by apply long_reset_ok]|]. lia. }
  destruct (first_byte raw =? FREE_MARK).
  { apply safe_ret. cbn. split; [split; [done|by apply long_reset_ok]|]. lia. }
  destruct (is_long raw).
  { eapply safe_bind; [by apply csafe_long_push|]. intros g Hg. apply safe_ret. cbn. split; [|lia]. split; [by split|lia]. }
  destruct (short_item_ok (sc_long sc') (s_index (sc_slots sc')) at_ raw Hl Hat Hraw) as [Hg Hit].
  destruct (short_item _ _ _ _) as [g item]. cbn [fst snd] in *. apply safe_ret. cbn. split; [by split|]. split; [done|lia].
Qed.

Lemma csafe_scan_items {A R} first (visit : A -> Item -> M (Cache B) FsError (A + R)) done_ a
    (I : Z -> A -> Prop) (P : R -> Prop) :
  I 0 a ->
  (forall a item i j, I i a -> item_ok item -> 0 <= i < j -> j <= MAX_ENTRIES ->
     csafe (visit a item) (fun go => match go with inl a' => I j a' | inr r => P r end)) ->
  (forall a sc i, I i a -> scan_ok sc -> P (done_ a sc)) ->
  csafe (scan_items l first visit done_ a) P.
Proof.
  intros Ha Hvisit Hdone. unfold scan_items, scan_new, slots_new.
  pose proof (cluster_blocks_cases _ _ Hwf) as (_ & Hcb & _).
  eapply (safe_bind _ _ _ _ (fun sc => scan_ok sc /\ s_index (sc_slots sc) = 0)).
  { destruct (negb (is_cluster l first)); [apply (safe_bind _ _ _ _ (fun _ => False)); [apply csafe_throw|done]|].
    eapply (safe_bind _ _ _ _ (fun s => slots_ok s /\ s_index s = 0)).
    - apply safe_ret. unfold slots_ok, ENTRY_BYTES, MAX_ENTRIES. cbn. split_and!; lia.
    - intros s [Hs H0]. apply safe_ret. split; [|done]. split; [done|]. unfold long_ok, MAX_LONG_ENTRIES. cbn.
      split_and!; [lia..|]. apply Forall_replicate. lia. }
  intros sc [Hsc H0].
  apply (safe_loop _ _ (fun s => scan_ok s.1 /\ I (s_index (sc_slots s.1)) s.2)
           (fun s => Z.to_nat (MAX_ENTRIES - s_index (sc_slots s.1)))); [|by cbn; rewrite H0|].
  2: { cbn. rewrite H0. unfold DIR_FUEL, MAX_ENTRIES. lia. }
  clear sc a Ha Hsc H0. intros [sc a] [Hsc Ha]. cbn [fst snd] in *.
  eapply safe_bind; [by apply csafe_scan_next|]. intros [sc' [item|]] [Hsc' Hitem]; cbn [fst snd] in *.
  2: { apply safe_ret. by eapply Hdone. }
  destruct Hitem as [Hitem Hlt]. pose proof Hsc as [(_ & _ & Hi) _]. pose proof Hsc' as [(_ & _ & Hi') _].
  eapply safe_bind; [apply (Hvisit a item (s_index (sc_slots sc)) (s_index (sc_slots sc'))); [done|done|lia|lia]|].
  intros [a'|r] Hgo; apply safe_ret; [|done]. cbn. split; [by split|]. lia.
Qed.

Lemma csafe_find first wanted :
  csafe (find l first wanted) (fun o => forall f, o = Some f -> found_ok f).
Proof.
  apply csafe_scan_items with (I := fun _ _ => True); [done| |done].
  intros [] item i j _ Hitem _ _. apply safe_ret. destruct item; cbn in *; try done.
  destruct (names f wanted (short_of wanted)); [|done]. by intros ? [= <-].
Qed.

Lemma csafe_is_empty first : csafe (is_empty l first) (fun _ => True).
Proof.
  apply csafe_scan_items with (I := fun _ _ => True); [done| |done].
  intros [] item i j _ Hitem _ _. apply safe_ret. by destruct item as [|? [] []| |].
Qed.

(** ** Surveys *)

Definition index_ok (o : option Z) : Prop := forall i, o = Some i -> 0 <= i < MAX_ENTRIES.

Record survey_ok (i : Z) (v : Survey) : Prop := {
  sv_found : forall f, v_found v = Some f -> found_ok f;
  sv_total : 0 <= v_total v <= MAX_ENTRIES;
  sv_end : index_ok (v_end v);
  sv_free : index_ok (v_first_free v);
  sv_run : index_ok (v_first_run v);
  sv_sector_run : index_ok (v_first_sector_run v);
  sv_start : 0 <= v_run_start v < MAX_ENTRIES;
  sv_sector_start : 0 <= v_sector_run_start v < MAX_ENTRIES;
  sv_len : 0 <= v_run_len v <= i;
  sv_sector_len : 0 <= v_sector_run_len v <= i;
}.

Lemma survey_ok_weaken i j v : survey_ok i v -> i <= j -> survey_ok j v.
Proof. intros [] Hij. constructor; try done; lia. Qed.

Lemma or_else_ok (o : option Z) i : index_ok o -> 0 <= i < MAX_ENTRIES -> index_ok (or_else o (Some i)).
Proof. intros Ho Hi j. destruct o; cbn; [apply Ho|]. by intros [= <-]. Qed.

Lemma csafe_survey_free i j v at_end index :
  survey_ok i v -> 0 <= index < MAX_ENTRIES -> 0 <= i < j -> j <= MAX_ENTRIES ->
  csafe (survey_free v at_end index) (survey_ok j).
Proof.
  intros Hv Hx Hij Hj. unfold survey_free. pose proof Hv as [? ? ? ? ? ? ? ? ? ?]. unfold u32_max, MAX_ENTRIES in *.
  destruct (if (v_run_len v =? 0) || _ then _ else _) as [rs rl] eqn:E1.
  assert (0 <= rs < 65536 /\ 0 <= rl <= i) as [Hrs Hrl] by (destruct ((v_run_len v =? 0) || _); injection E1 as <- <-; lia).
  destruct (if (v_sector_run_len v =? 0) || _ || _ then _ else _) as [ss sl] eqn:E2.
  assert (0 <= ss < 65536 /\ 0 <= sl <= i) as [Hss Hsl] by (destruct ((v_sector_run_len v =? 0) || _ || _); injection E2 as <- <-; lia).
  eapply (safe_bind _ _ _ _ (fun x => x = rl + 1)); [apply safe_checked; [unfold u32_max; lia|done]|]. intros ? ->.
  eapply (safe_bind _ _ _ _ (fun x => x = sl + 1)); [apply safe_checked; [unfold u32_max; lia|done]|]. intros ? ->.
  apply safe_ret. constructor; cbn; try done; unfold MAX_ENTRIES; try lia.
  - destruct at_end; [by apply or_else_ok|done].
  - by apply or_else_ok.
  - destruct (_ <=? rl + 1); [by apply or_else_ok|done].
  - destruct (_ <=? sl + 1); [by apply or_else_ok|done].
Qed.

Lemma csafe_survey first wanted run_wanted except :
  csafe (survey l first wanted run_wanted except) (survey_ok MAX_ENTRIES).
Proof.
  apply csafe_scan_items with (I := fun i v => i <= MAX_ENTRIES /\ survey_ok i v).
  - split; [unfold MAX_ENTRIES; lia|]. constructor; cbn; unfold MAX_ENTRIES; try lia; try done.
  - intros v item i j [_ Hv] Hitem Hij Hj. eapply (safe_bind _ _ _ _ (survey_ok j)).
    2: { intros v' Hv'. by apply safe_ret. }
    pose proof (survey_ok_weaken i j v Hv ltac:(lia)) as Hvj. destruct Hvj.
    destruct item as [f|s d vo|x|x]; cbn [survey_item item_ok] in *.
    + apply safe_ret. constructor; cbn; try done. destruct (v_found v) as [g|]; [done|].
      destruct (_ && _); [|done]. by intros ? [= <-].
    + apply safe_ret. by constructor.
    + by eapply csafe_survey_free.
    + by eapply csafe_survey_free.
  - intros v sc i [Hi Hv] [(_ & _ & Hidx) _]. pose proof (survey_ok_weaken i MAX_ENTRIES v Hv Hi) as Hvj. destruct Hvj.
    by constructor.
Qed.

(** ** Positions *)

Lemma csafe_skip_clusters k a : csafe (skip_clusters l k a) (fun _ => True).
Proof.
  revert a. induction k as [|k IH]; intros a; [by apply safe_ret|]. cbn [skip_clusters].
  eapply safe_bind; [apply csafe_next|]. intros [x|] _; [apply IH|by apply safe_ret].
Qed.

Lemma csafe_positions_loop per start k index a out :
  0 < per -> per * 32 <= cluster_bytes l -> nonneg out ->
  csafe (positions_loop l per start k index a out) nonneg.
Proof.
  intros Hper Hcb. revert index a out. induction k as [|k IH]; intros index a out Hout; [by apply safe_ret|].
  cbn [positions_loop]. eapply (safe_bind _ _ _ _ (fun _ => True)).
  { apply safe_if; intros _; [eapply safe_mono; [apply csafe_next|done]|by apply safe_ret]. }
  intros [x|] _; [|by apply safe_ret]. eapply safe_bind; [apply csafe_offset|]. intros base [Hb0 Hb1].
  assert (0 <= index `mod` per < per) by (apply Z.mod_pos_bound; lia).
  eapply (safe_bind _ _ _ _ (fun at_ => 0 <= at_)).
  { apply safe_checked; unfold ENTRY_BYTES, u64_max, u32_max in *; lia. }
  intros at_ Hat. apply IH. apply Forall_app. split; [done|]. by apply Forall_singleton.
Qed.

Lemma csafe_positions first start count : csafe (positions l first start count) nonneg.
Proof.
  pose proof (cluster_blocks_cases _ _ Hwf) as (_ & Hcb & _). unfold positions, ENTRY_BYTES.
  eapply (safe_bind _ _ _ _ (fun per => per = cluster_bytes l / 32)); [apply safe_divisor; [lia|done]|]. intros ? ->.
  eapply safe_bind; [apply csafe_skip_clusters|]. intros [x|] _; [|apply safe_ret; constructor].
  apply csafe_positions_loop; [lia|lia|constructor].
Qed.
End dir.
