(* ===== verification/Volume.v ===== *)
(** * The mounted volume

    [kernel/src/storage/fat/volume.rs]: the operations /data is made of, and
    the order in which their writes reach the card. *)

From S2P Require Import Prelude Bytes Time Boot Cache Table Name Dir.

Definition MAX_OPEN : nat := 32.
Definition MAX_DIRS : nat := 32.
Definition ROUND_CLUSTERS : Z := 1024.
Definition RUN_BYTES : Z := 1048576.
Definition ZERO_BYTES : Z := 131072.
Definition MAX_FILE : Z := u32_max.

Record Entry := mkEntry { e_name : list Z; e_is_dir : bool; e_len : Z; e_mtime : Z }.

Definition entry_of (found : Found) : Entry :=
  let d := is_dir (f_raw found) in
  mkEntry (f_name found) d (if d then 0 else size_of (f_raw found)) (modified (f_raw found)).

Record Open := mkOpen {
  o_path : list Z;
  o_first : Z;
  o_size : Z;
  o_entry_at : Z;
  o_clusters : Z;
  o_last : Z;
  o_pos : option (Z * Z);
}.

Record Known := mkKnown { k_path : list Z; k_cluster : Z }.

Inductive Piece := Zeros (n : Z) | Data (data : list Z).

Definition piece_len (p : Piece) : Z := match p with Zeros n => n | Data data => len data end.

(** Whether [path] is below [ancestor]. *)
Definition is_under (path ancestor : list Z) : bool :=
  match ancestor with
  | [] => negb (bool_decide (path = []))
  | _ => (utf8_len ancestor <? utf8_len path) && starts_with path ancestor
         && bool_decide (path !! length ancestor = Some SLASH)
  end.

Definition split (path : list Z) : list Z * list Z := default ([], path) (rsplit_once SLASH path).

Definition one_sector (positions : list Z) : bool :=
  match positions with
  | [] => true
  | first :: rest => forallb (fun at_ => at_ / BLOCK =? first / BLOCK) rest
  end.

(** The clock is read each time it is asked; [ticks] counts the readings. *)
Record Volume (B : Type) := mkVolume {
  cache : Cache B;
  vfat : Fat;
  clock : nat -> Z;
  ticks : nat;
  opens : list Open;
  dirs : list Known;
  dirty_at_mount : bool;
  marked : bool;
}.
Arguments mkVolume {B}.
Arguments cache {B}.
Arguments vfat {B}.
Arguments clock {B}.
Arguments ticks {B}.
Arguments opens {B}.
Arguments dirs {B}.
Arguments dirty_at_mount {B}.
Arguments marked {B}.

(** The known directory with the longest path among these that [path] is
    under; of two as long, the later one ([max_by_key]). *)
Definition deepest (path : list Z) (known : list Known) : option Known :=
  foldl (fun best k => match best with
                       | Some b => if utf8_len (k_path b) <=? utf8_len (k_path k) then Some k else Some b
                       | None => Some k
                       end) None (filter (fun k => is_under path (k_path k) = true) known).

(** [iter().position(..)] with [remove] and [push] of what was found. *)
Definition to_back {A} (p : A -> bool) (l : list A) : option (A * list A) :=
  match position p l with
  | Some i => match l !! i with Some a => Some (a, take i l ++ drop (S i) l ++ [a]) | None => None end
  | None => None
  end.

(** [if len >= max { remove(0) }; push(x)]. *)
Definition push_bounded {A} (max : nat) (l : list A) (x : A) : list A :=
  (if (max <=? length l)%nat then tail l else l) ++ [x].

(** A path split at its slashes, the empty parts left out. *)
Definition parts (path : list Z) : list (list Z) := filter (fun part => part <> []) (split_on SLASH path).

Section volume.
Context {B : Type} `{!Blocks B}.
Implicit Types v : Volume B.

Abbreviation VM := (M (Volume B) FsError).

Definition with_cache (c : Cache B) v : Volume B :=
  mkVolume c (vfat v) (clock v) (ticks v) (opens v) (dirs v) (dirty_at_mount v) (marked v).
Definition with_fat_cache (fc : Fat * Cache B) v : Volume B :=
  mkVolume fc.2 fc.1 (clock v) (ticks v) (opens v) (dirs v) (dirty_at_mount v) (marked v).
Definition with_fat (f : Fat) v : Volume B := with_fat_cache (f, cache v) v.
Definition with_opens (o : list Open) v : Volume B :=
  mkVolume (cache v) (vfat v) (clock v) (ticks v) o (dirs v) (dirty_at_mount v) (marked v).
Definition with_dirs (d : list Known) v : Volume B :=
  mkVolume (cache v) (vfat v) (clock v) (ticks v) (opens v) d (dirty_at_mount v) (marked v).
Definition with_marked (m : bool) v : Volume B :=
  mkVolume (cache v) (vfat v) (clock v) (ticks v) (opens v) (dirs v) (dirty_at_mount v) m.

Definition on {A} (m : M (Cache B) FsError A) : VM A := zoom cache with_cache m.
Definition on_table {A} (m : M (Fat * Cache B) FsError A) : VM A :=
  zoom (fun v => (vfat v, cache v)) with_fat_cache m.
Definition vlayout : VM Layout := gets (fun v => layout (vfat v)).
Definition vread (offset n : Z) : VM (list Z) := on (lift (read_at offset n)).
Definition vwrite (offset : Z) (data : list Z) : VM unit := on (lift (write_at offset data)).
Definition vflush : VM unit := on (lift flush).
Definition now : VM Z :=
  state (fun v => (mkVolume (cache v) (vfat v) (clock v) (S (ticks v)) (opens v) (dirs v) (dirty_at_mount v) (marked v),
                   clock v (ticks v))).

Definition mount (b : B) (l : Layout) (clk : nat -> Z) : result FsError (Volume B) :=
  match (let! hint :=
           match fsinfo l with
           | Some sector =>
               let! offset := u64 (sector * BLOCK) in
               let! bytes := lift (read_at offset BLOCK) in
               ret (match fsinfo_hints bytes with Some (_, next) => next | None => FSI_UNKNOWN end)
           | None => ret FSI_UNKNOWN
           end in
         let! ok := clean l in
         ret (hint, ok)) (new_cache b) with
  | (c, Ok (hint, ok)) => Ok (mkVolume c (fat_new l hint) clk 0 [] [] (negb ok) false)
  | (_, Err e) => Err e
  | (_, Stuck w) => Stuck w
  end.

Definition allow_writes v : Volume B := with_cache (set_writable true (cache v)) v.

Definition vcluster_bytes : VM Z := gets (fun v => cluster_bytes (layout (vfat v))).

Definition offset_of (cluster : Z) : VM Z :=
  let! l := vlayout in
  let! offset := cluster_offset l cluster in
  ok_or offset Corrupt.

Definition forget v : Volume B := with_dirs [] (with_opens [] v).

Definition run {A} (op : VM A) : VM A :=
  let! done := try_ op in
  let! done := match done with
               | inl value => try_ (vflush ;;; ret value)
               | inr error => ret (inr error)
               end in
  match done with
  | inl value => ret value
  | inr error =>
      modify (fun v =>
        if has_dirty (cache v) || bool_decide (error = Io)
        then forget (with_fat (forget_free (vfat v)) (with_cache (discard (cache v)) v))
        else if bool_decide (error = Corrupt) then forget v else v) ;;;
      throw error
  end.

Definition set_linux_state (dirty : bool) : VM unit :=
  let! byte := vread LINUX_STATE 1 in
  let old := default 0 (head byte) in
  let new := if dirty then Z.lor old LINUX_STATE_DIRTY else Z.land old (u8_max - LINUX_STATE_DIRTY) in
  if negb (new =? old) then vwrite LINUX_STATE [new] else ret tt.

Definition begin_write : VM unit :=
  let! writable := gets (fun v => cwritable (cache v)) in
  if negb writable then throw ReadOnly
  else
    let! m := gets marked in
    if negb m then
      let! was_dirty := gets dirty_at_mount in
      let! l := vlayout in
      (if negb was_dirty then on (set_clean l false) ;;; ret tt else ret tt) ;;;
      set_linux_state true ;;;
      vflush ;;;
      modify (with_marked true)
    else ret tt.

(** *** Directories by path *)

Definition remember (path : list Z) (cluster : Z) v : Volume B :=
  with_dirs (push_bounded MAX_DIRS (filter (fun k => k_path k <> path) (dirs v)) (mkKnown path cluster)) v.

Definition subdir_cluster (found : Found) : VM Z :=
  let! l := vlayout in
  let cluster := cluster_of (f_raw found) in
  if is_cluster l cluster then ret cluster else throw Corrupt.

Definition vfind (dir : Z) (name : list Z) : VM (option Found) :=
  let! l := vlayout in on (find l dir name).

(** [dir::find(..)?.ok_or(FsError::NotFound)?]. *)
Definition find_or (dir : Z) (name : list Z) : VM Found :=
  let! found := vfind dir name in ok_or found NotFound.

Fixpoint descend (walked : list Z) (cluster : Z) (names : list (list Z)) : VM Z :=
  match names with
  | [] => ret cluster
  | part :: names =>
      let! found := find_or cluster part in
      if negb (is_dir (f_raw found)) then throw NotDir
      else
        let! cluster := subdir_cluster found in
        let walked := join walked (f_name found) in
        modify (remember walked cluster) ;;;
        descend walked cluster names
  end.

Definition dir_cluster (path : list Z) : VM Z :=
  let! l := vlayout in
  if bool_decide (path = []) then ret (root_cluster l)
  else
    let! known := gets dirs in
    match to_back (fun k => bool_decide (k_path k = path)) known with
    | Some (k, known) => modify (with_dirs known) ;;; ret (k_cluster k)
    | None =>
        let '(walked, cluster) :=
          match deepest path known with Some k => (k_path k, k_cluster k) | None => ([], root_cluster l) end in
        descend walked cluster (parts (drop (length walked) path))
    end.

Fixpoint path_clusters_loop (walked : list Z) (names : list (list Z)) (out : list Z) : VM (list Z) :=
  match names with
  | [] => ret out
  | part :: names =>
      let walked := join walked part in
      let! cluster := dir_cluster walked in
      path_clusters_loop walked names (out ++ [cluster])
  end.

Definition path_clusters (path : list Z) : VM (list Z) :=
  let! l := vlayout in
  path_clusters_loop [] (parts path) [root_cluster l].

Definition close_under (path : list Z) v : Volume B :=
  with_dirs (filter (fun k => k_path k <> path /\ is_under (k_path k) path = false) (dirs v))
    (with_opens (filter (fun o => o_path o <> path /\ is_under (o_path o) path = false) (opens v)) v).

(** *** Open files *)

Definition opened (at_ : nat) : VM Open :=
  let! o := gets (fun v => opens v !! at_) in ok_or o Corrupt.

Definition update_opened (at_ : nat) (f : Open -> Open) : VM unit :=
  let! o := opened at_ in
  modify (fun v => with_opens (<[at_ := f o]> (opens v)) v).

Definition handle (path : list Z) : VM nat :=
  let! files := gets opens in
  match to_back (fun o => bool_decide (o_path o = path)) files with
  | Some (_, files) => modify (with_opens files) ;;; ret (length files - 1)%nat
  | None =>
      let '(parent, name) := split path in
      let! dir := dir_cluster parent in
      let! found := find_or dir name in
      if is_dir (f_raw found) then throw IsDir
      else
        let first := cluster_of (f_raw found) in
        let size := size_of (f_raw found) in
        let! l := vlayout in
        let! '(clusters, last) := (if first =? 0 then ret (0, 0) else on (walk l first)) in
        let! bytes := u64 (clusters * cluster_bytes l) in
        if bytes <? size then throw Corrupt
        else
          modify (fun v => with_opens (push_bounded MAX_OPEN (opens v)
                                         (mkOpen path first size (f_at found) clusters last None)) v) ;;;
          let! files := gets opens in
          ret (length files - 1)%nat
  end.

Definition set_pos (pos : option (Z * Z)) (o : Open) : Open :=
  mkOpen (o_path o) (o_first o) (o_size o) (o_entry_at o) (o_clusters o) (o_last o) pos.

(** The [while] loop of [cluster_at]: along [n] links of the chain. *)
Fixpoint follow (l : Layout) (n : nat) (cluster : Z) : VM Z :=
  match n with
  | O => ret cluster
  | S n =>
      let! found := on (next l cluster) in
      let! cluster := ok_or found Corrupt in
      follow l n cluster
  end.

Definition cluster_at (slot : nat) (index : Z) : VM Z :=
  let! open := opened slot in
  if o_clusters open <=? index then throw Corrupt
  else
    let! after := u32 (index + 1) in
    if after =? o_clusters open then ret (o_last open)
    else
      let '(at_, cluster) := match o_pos open with
                             | Some (at_, cluster) => if at_ <=? index then (at_, cluster) else (0, o_first open)
                             | None => (0, o_first open)
                             end in
      let! l := vlayout in
      let! cluster := follow l (Z.to_nat (index - at_)) cluster in
      update_opened slot (set_pos (Some (index, cluster))) ;;;
      ret cluster.

Definition run_at (slot : nat) (index within remaining : Z) : VM (Z * Z) :=
  let! cb := vcluster_bytes in
  let! open := opened slot in
  let! first := cluster_at slot index in
  let! count :=
    loop (S (Z.to_nat (o_clusters open)))
      (fun '(count, last) =>
         let! bytes := u64 (count * cb) in
         let! beyond := u64 (bytes - within) in
         if (beyond <? remaining) && (bytes <? RUN_BYTES) then
           let! ahead := u32 (index + count) in
           if ahead <? o_clusters open then
             let! next := cluster_at slot ahead in
             if negb (bool_decide (Some next = checked_add32 last 1)) then ret (inr count)
             else let! count := u32 (count + 1) in ret (inl (count, next))
           else ret (inr count)
         else ret (inr count)) (1, first) in
  let! bytes := u64 (count * cb) in
  let! beyond := u64 (bytes - within) in
  ret (first, Z.min beyond remaining).

(** *** Writing file contents *)

Definition write_piece (piece : Piece) (zeros : list Z) (at_ from n : Z) : VM unit :=
  match piece with
  | Data data =>
      let! stop := ok_or (checked_add64 from n) TooBig in
      let! part := ok_or (get_range data from stop) Corrupt in
      vwrite at_ part
  | Zeros _ =>
      loop (S (Z.to_nat n))
        (fun done =>
           if done <? n then
             let step := Z.min (n - done) (len zeros) in
             if step =? 0 then throw Corrupt
             else
               let! here := u64 (at_ + done) in
               let! part := ok_or (get_range zeros 0 step) Corrupt in
               vwrite here part ;;;
               ret (inl (done + step))
           else ret (inr tt)) 0
  end.

Definition vset (cluster value : Z) : VM unit := let! l := vlayout in on (set l cluster value).

(** [for pair in found.windows(2)]. *)
Fixpoint link_pairs (found : list Z) : VM unit :=
  match found with
  | from :: ((to :: _) as rest) => vset from to ;;; link_pairs rest
  | _ => ret tt
  end.

Definition link_new (prev : option Z) (found : list Z) : VM unit :=
  match head found, last found with
  | Some first, Some last =>
      link_pairs found ;;;
      vset last END ;;;
      match prev with
      | Some prev =>
          (if existsb (fun cluster => negb (cluster / ENTRIES_PER_BLOCK =? prev / ENTRIES_PER_BLOCK)) found
           then vflush else ret tt) ;;;
          vset prev first
      | None => ret tt
      end ;;;
      vflush ;;;
      on_table (on_fat (took (as_u32 (len found))))
  | _, _ => ret tt
  end.

(** [while found.get(i + count) == first.checked_add(count)]: the length of
    the run of adjacent clusters [found] has from [i]. *)
Definition run_length (found : list Z) (i : nat) (first : Z) : VM nat :=
  loop (S (length found))
    (fun count => if bool_decide (found !! (i + count)%nat = checked_add32 first (as_u32 (Z.of_nat count)))
                  then ret (inl (S count)) else ret (inr count)) 1%nat.

(** The new clusters filled, a run of adjacent ones at a time; the bytes
    written. *)
Definition write_runs (piece : Piece) (zeros : list Z) (found : list Z) (total done cb : Z) : VM Z :=
  loop (S (length found))
    (fun '(i, written) =>
       match found !! i with
       | None => ret (inr written)
       | Some first =>
           let! count := run_length found i first in
           let! bytes := u64 (Z.of_nat count * cb) in
           let! rest := u64 (total - done - written) in
           let n := Z.min bytes rest in
           let! at_ := offset_of first in
           let! from := u64 (done + written) in
           write_piece piece zeros at_ from n ;;;
           let! written := u64 (written + n) in
           ret (inl ((i + count)%nat, written))
       end) (O, 0).

(** Past the chain's end: new clusters found, written and linked. *)
Definition extend (slot : nat) (piece : Piece) (zeros : list Z) (clusters last total done cb : Z) : VM Z :=
  let want := as_u32 (Z.min (div_ceil (total - done) cb) ROUND_CLUSTERS) in
  let! found := on_table (find_free want []) in
  if bool_decide (found = []) then throw NoSpace
  else
    let! written := write_runs piece zeros found total done cb in
    vflush ;;;
    link_new (if 0 <? clusters then Some last else None) found ;;;
    let! open := opened slot in
    let! more := u32 (o_clusters open + as_u32 (len found)) in
    update_opened slot (fun o =>
      mkOpen (o_path o) (if clusters =? 0 then default 0 (head found) else o_first o) (o_size o) (o_entry_at o)
        more (default 0 (list.last found)) (o_pos o)) ;;;
    ret written.

Definition fill (slot : nat) (start : Z) (piece : Piece) : VM unit :=
  let! cb := vcluster_bytes in
  let! cb := divisor cb in
  let total := piece_len piece in
  let zeros := match piece with Zeros _ => replicate (Z.to_nat ZERO_BYTES) 0 | Data _ => [] end in
  loop (S (Z.to_nat total))
    (fun done =>
       if done <? total then
         let! pos := u64 (start + done) in
         let! index := (if pos / cb <=? u32_max then ret (pos / cb) else throw TooBig) in
         let within := pos `mod` cb in
         let! open := opened slot in
         if index <? o_clusters open then
           let! '(cluster, n) := run_at slot index within (total - done) in
           let! base := offset_of cluster in
           let! at_ := u64 (base + within) in
           write_piece piece zeros at_ done n ;;;
           let! done := u64 (done + n) in
           ret (inl done)
         else if negb (index =? o_clusters open) || negb (within =? 0) then throw Corrupt
         else
           let! written := extend slot piece zeros (o_clusters open) (o_last open) total done cb in
           let! done := u64 (done + written) in
           ret (inl done)
       else ret (inr tt)) 0 ;;;
  vflush.

Definition update_entry (slot : nat) (size : Z) : VM unit :=
  let! time := now in
  let! open := opened slot in
  let! bytes := vread (o_entry_at open) 32 in
  if is_long bytes || is_dir bytes || (first_byte bytes =? FREE_MARK) || (first_byte bytes =? END_MARK)
  then throw Corrupt
  else
    let raw := set_cluster bytes (o_first open) in
    let raw := set_size raw size in
    let raw := set_modified raw (encode time) in
    let raw := set_attr raw (Z.lor (attr raw) ATTR_ARCHIVE) in
    (if negb (bool_decide (raw = bytes)) then vwrite (o_entry_at open) raw ;;; vflush else ret tt) ;;;
    update_opened slot (fun o =>
      mkOpen (o_path o) (o_first o) size (o_entry_at o) (o_clusters o) (o_last o) (o_pos o)).

Definition room (clusters : Z) : VM Z :=
  let! free := on_table free_count in
  let! cb := vcluster_bytes in
  u64 ((clusters + free) * cb).
End volume.
