(* ===== verification/Linking.v ===== *)
(** * Linking new clusters

    [link_new] of volume.rs puts clusters that were free at the end of a chain,
    or makes a chain of them: what the FAT says after it, cluster by cluster. *)

From S2P Require Import Prelude Safe Bytes Boot BootSpec Time Cache CacheSpec CacheFlush CacheIo CacheWrite Table TableSpec Chains Scans Name Dir Volume.

(** ** Links as values *)

Lemma classify_cluster blocks l a : layout_wf blocks l -> is_cluster l a = true -> classify l a = Next a.
Proof.
  intros Hwf Ha. pose proof Ha as Ha'. apply is_cluster_iff in Ha'. pose proof (wf_clusters _ _ Hwf) as Hn.
  unfold MAX_CLUSTERS in Hn. unfold classify.
  assert (Z.land a MASK = a) as ->.
  { change MASK with (Z.ones 28). rewrite Z.land_ones by lia. apply Z.mod_small. lia. }
  rewrite (proj2 (Z.eqb_neq a FREE)) by (unfold FREE; lia). by rewrite Ha.
Qed.

Lemma classify_end blocks l : layout_wf blocks l -> classify l END = LinkEnd.
Proof.
  intros Hwf. pose proof (wf_clusters _ _ Hwf) as Hn. unfold MAX_CLUSTERS in Hn. unfold classify.
  change (Z.land END MASK) with END. cbn [Z.eqb END FREE]. unfold is_cluster.
  rewrite (proj2 (Z.ltb_ge _ _)) by (unfold END; lia). by rewrite andb_false_r.
Qed.

Lemma classify_free l : classify l FREE = Free.
Proof. done. Qed.

(** ** Chains out of links *)

(** Every cluster of [found] links to the one after it. *)
Definition in_order (lk : Z -> Link) (found : list Z) : Prop :=
  forall i x y, found !! i = Some x -> found !! S i = Some y -> lk x = Next y.

Lemma in_order_tail lk a found : in_order lk (a :: found) -> in_order lk found.
Proof. intros H i x y Hx Hy. by apply (H (S i)). Qed.

Lemma in_order_chain lk a found z :
  in_order lk (a :: found) -> last (a :: found) = Some z -> lk z = LinkEnd -> chain lk a (a :: found).
Proof.
  revert a. induction found as [|b found IH]; intros a Hord Hz Hend.
  - cbn in Hz. simplify_eq. by constructor.
  - apply (chain_next _ a b); [by apply (Hord 0%nat)|]. apply IH; [by eapply in_order_tail|done|done].
Qed.

(** A chain whose end is linked to another chain goes on with it. *)
Lemma chain_extend lk lk' a cs p b found :
  chain lk a cs -> last cs = Some p -> lk' p = Next b -> chain lk' b found ->
  (forall x, x ∈ cs -> x <> p -> lk' x = lk x) -> chain lk' a (cs ++ found).
Proof.
  induction 1 as [a Ha|a a' cs Ha H IH]; intros Hlast Hp Hb Hsame.
  - cbn in Hlast. simplify_eq. by econstructor.
  - pose proof (chain_not_nil _ _ _ H) as Hne.
    assert (a <> p) as Hap.
    { intros ->. assert (p ∈ cs) as Hin.
      { destruct cs; [done|]. rewrite last_cons_cons in Hlast. by apply last_Some_elem_of in Hlast. }
      assert (chain lk p (p :: cs)) as Hc by (by econstructor). apply chain_NoDup in Hc. by inversion Hc. }
    cbn [app]. econstructor.
    + rewrite Hsame; [done|set_solver|done].
    + apply IH; [|done|done|]. 2: { intros x Hx. apply Hsame. set_solver. }
      destruct cs; [done|]. by rewrite last_cons_cons in Hlast.
Qed.

Section linking.
Context {B : Type} `{!Blocks B} `{!BlocksOk B}.
Implicit Types v : Volume B.
Context (l : Layout).

(** What link_new may leave in place of [c]: the same volume, other links for
    [changed] only. *)
Definition relinked (c c' : Cache B) (changed : Z -> Prop) : Prop :=
  vol_ok l c' /\ same_shape c c' /\
  (forall x, is_cluster l x = true -> ~ changed x -> fat_link l c' x = fat_link l c x) /\
  (forall p, data_start l * BLOCK <= p -> bv c' p = bv c p).

Lemma relinked_refl c : vol_ok l c -> relinked c c (fun _ => False).
Proof. done. Qed.

Lemma relinked_trans c1 c2 c3 (P Q R : Z -> Prop) :
  relinked c1 c2 P -> relinked c2 c3 Q -> (forall x, P x \/ Q x -> R x) -> relinked c1 c3 R.
Proof.
  intros (H1 & Hs1 & Hl1 & Hb1) (H2 & Hs2 & Hl2 & Hb2) HR. split_and!; [done|by eapply same_shape_trans| |].
  - intros x Hx Hn. rewrite Hl2, Hl1; eauto.
  - intros p Hp. by rewrite Hb2, Hb1.
Qed.

Lemma keeps_relinked c c' : vol_ok l c -> keeps c c' -> relinked c c' (fun _ => False).
Proof.
  intros Hv Hk. split_and!; [by eapply vol_ok_keeps|apply Hk| |].
  - intros x _ _. by apply fat_link_keeps.
  - intros p _. by apply keeps_bv.
Qed.

Lemma fat_set_relinked c a x c' :
  vol_ok l c -> is_cluster l a = true -> fat_set l c a x c' -> relinked c c' (eq a) /\ fat_link l c' a = classify l x.
Proof.
  intros Hv Ha Hset. pose proof Hset as (Hok & Hs & _). split.
  - split_and!; [by eapply vol_ok_shape|done| |].
    + intros y Hy Hne. rewrite (fat_set_link l c a x c') by done. by rewrite decide_False.
    + intros p Hp. by eapply fat_set_data.
  - by rewrite (fat_set_link l c a x c'), decide_True.
Qed.

(** The error of a step, after others. *)
Abbreviation bad c := (fun (v : Volume B) (e : FsError) => write_error c e).

Lemma write_error_shape' (c c' : Cache B) e : same_shape c c' -> write_error c' e -> write_error c e.
Proof. intros [_ Hw] [->|[-> Hr]]; [by left|right]. split; [done|congruence]. Qed.

Lemma wp_vset v a x (Q : Volume B -> unit -> Prop) c0 :
  vol_ok l (cache v) -> layout (vfat v) = l -> is_cluster l a = true -> is_u32 x -> same_shape c0 (cache v) ->
  (forall c', relinked (cache v) c' (eq a) -> fat_link l c' a = classify l x -> Q (with_cache c' v) tt) ->
  wp (vset a x) Q (bad c0) v.
Proof.
  intros Hv Hl Ha Hx Hs HQ. unfold vset, vlayout. apply wp_bind, wp_gets. rewrite Hl. apply wp_zoom.
  apply wp_set; [done|done| | |congruence].
  - intros c' Hset _. by apply HQ; apply (fat_set_relinked (cache v) a x).
  - intros c' e (_ & He & _). by eapply write_error_shape'.
Qed.

Lemma wp_vflush v (Q : Volume B -> unit -> Prop) c0 :
  vol_ok l (cache v) -> same_shape c0 (cache v) ->
  (forall c', keeps (cache v) c' -> (forall b, ~ dirty c' b) -> Q (with_cache c' v) tt) ->
  wp vflush Q (bad c0) v.
Proof.
  intros Hv Hs HQ. apply wp_zoom, wp_map_err, wp_flush; [apply Hv| |].
  - intros c' Hk _ Hd. by apply HQ.
  - intros c' _. by left.
Qed.

Lemma cluster_is_u32 blocks a : layout_wf blocks l -> is_cluster l a = true -> is_u32 a.
Proof.
  intros Hwf Ha%is_cluster_iff. pose proof (wf_clusters _ _ Hwf) as Hn. unfold MAX_CLUSTERS in Hn. unfold is_u32, u32_max. lia.
Qed.

Lemma wp_link_pairs v found (Q : Volume B -> unit -> Prop) c0 :
  vol_ok l (cache v) -> layout (vfat v) = l -> NoDup found -> Forall (fun x => is_cluster l x = true) found ->
  same_shape c0 (cache v) ->
  (forall c', relinked (cache v) c' (fun x => x ∈ found /\ last found <> Some x) ->
     in_order (fat_link l c') found -> Q (with_cache c' v) tt) ->
  wp (link_pairs found) Q (bad c0) v.
Proof.
  revert v Q. induction found as [|a found IH]; intros v Q Hv Hl Hnd Hall Hs HQ.
  { apply wp_ret. specialize (HQ (cache v)). destruct v. apply HQ; [|done]. by split_and!. }
  destruct found as [|b found].
  { apply wp_ret. specialize (HQ (cache v)). destruct v. apply HQ; [by split_and!|]. intros [|i] x y; done. }
  cbn [link_pairs]. pose proof Hv as [_ Hwf].
  inversion Hnd as [|? ? Hna Hnd']; subst. inversion Hall as [|? ? Ha Hall']; subst.
  assert (is_cluster l b = true) as Hb by (by inversion Hall').
  apply wp_bind, wp_vset; [done|done|done|by eapply cluster_is_u32|done|].
  intros c1 Hr1 Hlink. pose proof Hr1 as (Hv1 & Hs1 & _).
  apply IH; [done|done|done|done|by eapply same_shape_trans|].
  intros c2 Hr2 Hord. cbn [cache with_cache] in *. apply (HQ c2).
  - eapply relinked_trans; [exact Hr1|exact Hr2|]. rewrite last_cons_cons. intros x [<-|[Hx Hlast]].
    + split; [set_solver|]. intros Hlast. apply Hna. by eapply last_Some_elem_of.
    + split; [set_solver|done].
  - intros [|i] x y Hx Hy; [|by eapply Hord]. cbn in Hx, Hy. simplify_eq.
    pose proof Hr2 as (_ & _ & Hl2 & _). rewrite Hl2; [|done|].
    + rewrite Hlink. by eapply classify_cluster.
    + intros [Hin _]. done.
Qed.

(** After [link_new]: [found] is in order and ends the chain, and [prev]
    links to its first cluster. *)
Definition linked (c c' : Cache B) (prev : option Z) (found : list Z) : Prop :=
  relinked c c' (fun x => x ∈ found \/ prev = Some x) /\ in_order (fat_link l c') found /\
  (forall z, last found = Some z -> fat_link l c' z = LinkEnd) /\
  (forall p first, prev = Some p -> head found = Some first -> fat_link l c' p = Next first) /\
  (forall b, ~ dirty c' b).

Lemma wp_link_new v prev found (Q : Volume B -> unit -> Prop) :
  vol_ok l (cache v) -> layout (vfat v) = l -> found <> [] -> NoDup found ->
  Forall (fun x => is_cluster l x = true) found ->
  (forall p, prev = Some p -> is_cluster l p = true /\ p ∉ found) ->
  (forall c', linked (cache v) c' prev found ->
     Q (with_fat_cache (took (as_u32 (len found)) (vfat v), c') v) tt) ->
  wp (link_new prev found) Q (bad (cache v)) v.
Proof.
  intros Hv Hl Hne Hnd Hall Hprev HQ. pose proof Hv as [_ Hwf]. unfold link_new.
  destruct found as [|first rest] eqn:Ef; [done|]. rewrite <- Ef in *. replace (head found) with (Some first) by (by rewrite Ef).
  destruct (last found) as [z|] eqn:Ez; [|by rewrite Ef in Ez; apply last_None in Ez].
  assert (Hz : z ∈ found) by (by eapply last_Some_elem_of).
  rewrite Forall_forall in Hall. assert (Hfirst : is_cluster l first = true) by (apply Hall; rewrite Ef; set_solver).
  apply wp_bind, wp_link_pairs; [done|done|done|by apply Forall_forall|done|].
  intros c1 Hr1 Hord1. pose proof Hr1 as (Hv1 & Hs1 & _).
  apply wp_bind, wp_vset; [done|done|by apply Hall|done|done|].
  intros c2 Hr2 Hend. cbn [cache with_cache] in *. rewrite (classify_end _ _ Hwf) in Hend.
  pose proof (relinked_trans _ _ _ _ _ (fun x => x ∈ found) Hr1 Hr2 ltac:(intros x [[? _]|<-]; done)) as Hr12.
  assert (Hord2 : in_order (fat_link l c2) found).
  { intros i x y Hx Hy. destruct Hr2 as (_ & _ & Hl2 & _). rewrite Hl2; [by eapply Hord1|by apply Hall; eapply list_elem_of_lookup_2|].
    intros <-. apply (NoDup_lookup _ i (pred (length found)) z) in Hnd; [|done|by rewrite <- last_lookup].
    apply lookup_lt_Some in Hy. lia. }
  pose proof Hr12 as (Hv2 & Hs2 & _). apply wp_bind.
  (* The cache once [prev] is linked. *)
  apply wp_mono with (Q := fun v' _ => exists c3, v' = with_cache c3 v /\
      relinked (cache v) c3 (fun x => x ∈ found \/ prev = Some x) /\ in_order (fat_link l c3) found /\
      fat_link l c3 z = LinkEnd /\ (forall p, prev = Some p -> fat_link l c3 p = Next first)) (X := bad (cache v)); [| |done].
  { destruct prev as [p|].
    2: { apply wp_ret. exists c2. split_and!; [by destruct v| |done|done|done].
         eapply relinked_trans; [exact Hr12|by apply relinked_refl|]. intros x [?|[]]. by left. }
    destruct (Hprev p eq_refl) as [Hp Hpf]. apply wp_bind.
    apply wp_mono with (Q := fun v' _ => exists c3, v' = with_cache c3 v /\ keeps c2 c3) (X := bad (cache v)); [| |done].
    { case_match; [|apply wp_ret; exists c2; split; [by destruct v|by apply keeps_refl, Hv2]].
      apply wp_vflush; [done|done|]. intros c3 Hk _. exists c3. split; [by destruct v|done]. }
    intros v' [] (c3 & -> & Hk). pose proof (keeps_relinked _ _ Hv2 Hk) as Hr3.
    pose proof Hr3 as (Hv3 & Hs3 & Hl3 & _).
    apply wp_vset; [done|done|done|by eapply cluster_is_u32|by eapply same_shape_trans|].
    intros c4 Hr4 Hp4. cbn [cache with_cache] in *. rewrite (classify_cluster _ _ _ Hwf Hfirst) in Hp4.
    assert (Hkeep : forall x, x ∈ found -> fat_link l c4 x = fat_link l c2 x).
    { intros x Hx. destruct Hr4 as (_ & _ & Hl4 & _). rewrite Hl4, Hl3; auto; intros <-; done. }
    exists c4. split_and!; [by destruct v| | | |].
    - eapply relinked_trans; [exact Hr12| |intros x H; exact H].
      eapply relinked_trans; [exact Hr3|exact Hr4|]. by intros x [[]|<-].
    - intros i x y Hx Hy. rewrite Hkeep; [by eapply Hord2|by eapply list_elem_of_lookup_2].
    - by rewrite Hkeep.
    - intros q [= <-]. done. }
  intros v' [] (c3 & -> & Hr3 & Hord3 & Hend3 & Hp3). pose proof Hr3 as (Hv3 & Hs3 & _).
  apply wp_bind, wp_vflush; [done|done|]. intros c4 Hk4 Hclean. pose proof (keeps_relinked _ _ Hv3 Hk4) as Hr4.
  assert (Hsame : forall x, fat_link l c4 x = fat_link l c3 x) by (intros x; by apply fat_link_keeps).
  apply wp_zoom, wp_modify. apply (HQ c4). split_and!; [| | | |done].
  - eapply relinked_trans; [exact Hr3|exact Hr4|]. by intros x [?|[]].
  - intros i x y Hx Hy. rewrite Hsame. by eapply Hord3.
  - intros z' Hz'. rewrite Hsame. congruence.
  - intros p f Hp Hf. rewrite Hsame, (Hp3 p Hp). rewrite Ef in Hf. cbn in Hf. congruence.
Qed.
End linking.

Section theorems.
Context {B : Type} `{!Blocks B} `{!BlocksOk B}.

(** [link_new] after the last cluster of a chain: the chain goes on with
    the new clusters, in the order found, to its end; no other entry of the
    FAT has changed, and no byte of the data area; and the change is on the
    device. *)
Theorem link_new_extends l (v : Volume B) a cs p found :
  vol_ok l (cache v) -> layout (vfat v) = l ->
  is_cluster l a = true -> chain (fat_link l (cache v)) a cs -> last cs = Some p ->
  found <> [] -> NoDup found -> Forall (fun x => is_cluster l x = true /\ x ∉ cs) found ->
  match link_new (Some p) found v with
  | (v', Ok _) =>
      chain (fat_link l (cache v')) a (cs ++ found) /\
      (forall x, is_cluster l x = true -> x ∉ found -> x <> p -> fat_link l (cache v') x = fat_link l (cache v) x) /\
      (forall q, data_start l * BLOCK <= q -> bv (cache v') q = bv (cache v) q) /\
      vol_ok l (cache v') /\ has_dirty (cache v') = false
  | (_, Err e) => write_error (cache v) e
  | (_, Stuck _) => False
  end.
Proof.
  intros Hv Hl Ha Hcs Hp Hne Hnd Hall. rewrite Forall_forall in Hall.
  assert (Hpcs : p ∈ cs) by (by eapply last_Some_elem_of).
  assert (wp (link_new (Some p) found) (fun v' _ => linked l (cache v) (cache v') (Some p) found) (fun _ e => write_error (cache v) e) v) as H.
  { apply (wp_link_new l); [done|done|done|done|apply Forall_forall; intros x Hx; by apply Hall| |done].
    intros q [= <-]. split; [|intros Hin; by destruct (Hall p Hin)].
    pose proof (chain_clusters l (cache v) a cs Hcs Ha) as Hc. rewrite Forall_forall in Hc. auto. }
  unfold wp in H. destruct (link_new (Some p) found v) as [v' [u|e|w]]; [|done|done].
  destruct H as ((Hv' & _ & Hl' & Hb') & Hord & Hend & Hlink & Hclean). split_and!.
  - destruct found as [|first rest] eqn:Ef; [done|]. rewrite <- Ef in *.
    eapply (chain_extend (fat_link l (cache v)) _ a cs p first); [done|done| | |].
    + apply Hlink; [done|by rewrite Ef].
    + destruct (last found) as [z|] eqn:Ez; [|by rewrite Ef in Ez; apply last_None in Ez].
      rewrite Ef. apply (in_order_chain _ _ _ z); [by rewrite <- Ef|by rewrite <- Ef|by apply Hend].
    + intros x Hx Hxp. apply Hl'.
      * pose proof (chain_clusters l (cache v) a cs Hcs Ha) as Hc. rewrite Forall_forall in Hc. auto.
      * intros [Hin|[= ->]]; [|done]. by destruct (Hall x Hin).
  - intros x Hx Hxf Hxp. apply Hl'; [done|]. by intros [?|[= ->]].
  - done.
  - done.
  - apply has_dirty_false; [apply Hv'|done].
Qed.

(** [link_new] with no cluster before: the new clusters are a chain of
    their own, and no other entry of the FAT has changed. *)
Theorem link_new_starts l (v : Volume B) first rest :
  vol_ok l (cache v) -> layout (vfat v) = l ->
  NoDup (first :: rest) -> Forall (fun x => is_cluster l x = true) (first :: rest) ->
  match link_new None (first :: rest) v with
  | (v', Ok _) =>
      chain (fat_link l (cache v')) first (first :: rest) /\
      (forall x, is_cluster l x = true -> x ∉ first :: rest -> fat_link l (cache v') x = fat_link l (cache v) x) /\
      (forall q, data_start l * BLOCK <= q -> bv (cache v') q = bv (cache v) q) /\
      vol_ok l (cache v') /\ has_dirty (cache v') = false
  | (_, Err e) => write_error (cache v) e
  | (_, Stuck _) => False
  end.
Proof.
  intros Hv Hl Hnd Hall.
  assert (wp (link_new None (first :: rest)) (fun v' _ => linked l (cache v) (cache v') None (first :: rest))
            (fun _ e => write_error (cache v) e) v) as H.
  { by apply (wp_link_new l). }
  unfold wp in H. destruct (link_new None (first :: rest) v) as [v' [u|e|w]]; [|done|done].
  destruct H as ((Hv' & _ & Hl' & Hb') & Hord & Hend & _ & Hclean). split_and!; try done.
  - destruct (last (first :: rest)) as [z|] eqn:Ez; [|by apply last_None in Ez].
    apply (in_order_chain _ _ _ z); [done|done|by apply Hend].
  - intros x Hx Hxf. apply Hl'; [done|]. by intros [?|?].
  - apply has_dirty_false; [apply Hv'|done].
Qed.
End theorems.
