(* ===== verification/SafeVolume.v ===== *)
(** * The volume code is safe: the steps of volume.rs

    The invariant of a mounted volume, and that the steps its operations are
    made of keep it. Nothing is asked of what the volume holds: a FAT with
    loops or cross-linked chains and directories of arbitrary bytes are
    volumes as good as any. *)

From S2P Require Import Prelude Safe Bytes Boot BootSpec Time Cache CacheSpec CacheFlush CacheIo CacheWrite Table TableSpec Chains Scans SafeDir Name Dir RawSpec Volume.

(** A file the volume keeps open: what it remembers is in range. *)
Record open_ok (o : Open) : Prop := {
  open_entry : 0 <= o_entry_at o;
  open_size : is_u32 (o_size o);
  open_clusters : is_u32 (o_clusters o);
  open_pos : forall at_ a, o_pos o = Some (at_, a) -> 0 <= at_;
}.

Section volume.
Context {B : Type} `{!Blocks B} `{!BlocksOk B}.
Implicit Types v : Volume B.
Context (l : Layout) (D : Image) (size : Z) (Hwf : layout_wf size l).

Record kept_ok v : Prop := {
  kept_fat : fat_wf l (vfat v);
  kept_opens : Forall open_ok (opens v);
  kept_opens_len : (length (opens v) <= MAX_OPEN)%nat;
  kept_dirs : Forall (fun k => is_cluster l (k_cluster k) = true) (dirs v);
  kept_dirs_len : (length (dirs v) <= MAX_DIRS)%nat;
}.

Definition vol_inv v : Prop := kept_ok v /\ cinv l D (cache v).

(** The invariant with more known of the open files, which most steps leave
    alone. *)
Context (R : list Open -> Prop).
Definition vol_inv_with v : Prop := vol_inv v /\ R (opens v).
Definition vol_bad v (e : FsError) : Prop := kept_ok v /\ cbad l D (cache v) e.

Abbreviation vsafe := (safe vol_inv_with vol_bad).

Lemma vol_inv_bad v e : vol_inv_with v -> vol_bad v e.
Proof. intros [[Hk Hv] _]. split; [done|by apply cinv_bad]. Qed.

Lemma vsafe_throw {A} e (P : A -> Prop) : vsafe (throw e) P.
Proof. apply safe_throw, vol_inv_bad. Qed.

Lemma vsafe_ok_or {A} (o : option A) e (P : A -> Prop) : (forall a, o = Some a -> P a) -> vsafe (ok_or o e) P.
Proof. apply safe_ok_or, vol_inv_bad. Qed.

(** A checked sum or difference. *)
Lemma vsafe_checked hi x : 0 <= x <= hi -> vsafe (checked hi x) (fun y => y = x).
Proof. intros Hx. by apply safe_checked. Qed.

Lemma vsafe_on {A} (m : M (Cache B) FsError A) P : safe (cinv l D) (cbad l D) m P -> vsafe (on m) P.
Proof.
  apply safe_zoom.
  - intros v [[_ Hv] _]. done.
  - intros v c [[[] Hv] HR] Hc. split; [split; [by constructor|done]|done].
  - intros v c e [[[] Hv] HR] Hc. split; [by constructor|done].
Qed.

Lemma vsafe_on_table {A} (m : M (Fat * Cache B) FsError A) P : safe (fc_ok l D) (fc_bad l D) m P -> vsafe (on_table m) P.
Proof.
  apply safe_zoom.
  - intros v [[[] Hv] _]. done.
  - intros v [f c] [[[] Hv] HR] [Hf Hc]. split; [split; [by constructor|done]|done].
  - intros v [f c] e [[[] Hv] HR] [Hf Hc]. split; [by constructor|done].
Qed.

Lemma vsafe_vlayout : vsafe vlayout (fun l' => l' = l).
Proof. apply safe_gets. intros v [[[] _] _]. by apply fat_layout. Qed.

Lemma vsafe_cluster_bytes : vsafe vcluster_bytes (fun cb => cb = cluster_bytes l).
Proof. apply safe_gets. intros v [[[] _] _]. by rewrite (fat_layout l _ kept_fat0). Qed.

Lemma vsafe_vread offset n : 0 <= offset -> 0 <= n -> vsafe (vread offset n) (fun data => is_bytes data /\ len data = n).
Proof. intros Ho Hn. by apply vsafe_on, csafe_read_at. Qed.

Lemma vsafe_vwrite offset data : 0 <= offset -> is_bytes data -> vsafe (vwrite offset data) (fun _ => True).
Proof. intros Ho Hb. by apply vsafe_on, csafe_write_at. Qed.

Lemma vsafe_vflush : vsafe vflush (fun _ => True).
Proof. apply vsafe_on, csafe_flush. Qed.

Lemma vsafe_now : vsafe now (fun _ => True).
Proof. apply safe_state. intros v [[[] Hv] HR]. split; [|done]. split; [|done]. split; [by constructor|done]. Qed.

Lemma vsafe_offset_of a : vsafe (offset_of a) (base_ok l).
Proof.
  eapply safe_bind; [apply vsafe_vlayout|]. intros ? ->.
  eapply (safe_bind _ _ _ _ (fun o => forall at_, o = Some at_ -> base_ok l at_)).
  - intros v [[Hk Hv] HR]. apply (wp_cluster_offset _ _ (cinv_wf _ _ _ Hv)). split; [done|].
    destruct (is_cluster l a) eqn:E; intros at_ [= <-]. by eapply base_ok_pos.
  - intros o Ho. by apply vsafe_ok_or.
Qed.

Lemma vsafe_vset a x : is_u32 x -> vsafe (vset a x) (fun _ => True).
Proof.
  intros Hx. eapply safe_bind; [apply vsafe_vlayout|]. intros ? ->. by apply vsafe_on, csafe_set.
Qed.

Lemma vsafe_vfind dir name : vsafe (vfind dir name) (fun o => forall f, o = Some f -> found_ok f).
Proof. eapply safe_bind; [apply vsafe_vlayout|]. intros ? ->. by eapply vsafe_on, csafe_find. Qed.

Lemma vsafe_find_or dir name : vsafe (find_or dir name) found_ok.
Proof. eapply safe_bind; [apply vsafe_vfind|]. intros o Ho. by apply vsafe_ok_or. Qed.

(** A change of what is kept in memory only. *)
Lemma vsafe_keep (f : Volume B -> Volume B) :
  (forall v, cache (f v) = cache v) -> (forall v, kept_ok v -> kept_ok (f v)) ->
  (forall v, kept_ok v -> R (opens v) -> R (opens (f v))) -> vsafe (modify f) (fun _ => True).
Proof.
  intros Hc Hk HR. apply safe_modify; [|done]. intros v [[Hkv Hv] HRv]. split; [|auto]. split; [auto|]. by rewrite Hc.
Qed.

(** ** The lists of known directories and open files *)

Lemma push_bounded_length {A} max (xs : list A) x :
  (0 < max)%nat -> (length xs <= max)%nat -> (length (push_bounded max xs x) <= max)%nat.
Proof.
  intros Hm Hl. unfold push_bounded. rewrite length_app. cbn.
  destruct (max <=? length xs)%nat eqn:E; [apply Nat.leb_le in E|apply Nat.leb_gt in E; lia].
  destruct xs; cbn in *; lia.
Qed.

Lemma push_bounded_Forall {A} (P : A -> Prop) max xs x : Forall P xs -> P x -> Forall P (push_bounded max xs x).
Proof.
  intros Hxs Hx. unfold push_bounded. apply Forall_app. split; [|by apply Forall_singleton].
  destruct (max <=? length xs)%nat; [|done]. destruct Hxs; [constructor|done].
Qed.

Lemma to_back_spec {A} (p : A -> bool) xs x ys :
  to_back p xs = Some (x, ys) -> length ys = length xs /\ x ∈ xs /\ forall y, y ∈ ys -> y ∈ xs.
Proof.
  unfold to_back. destruct (position p xs) as [i|]; [|done]. destruct (xs !! i) as [y|] eqn:E; [|done].
  intros [= -> <-]. pose proof (lookup_lt_Some _ _ _ E). split_and!.
  - rewrite !length_app, length_take, length_drop. cbn. lia.
  - by eapply list_elem_of_lookup_2.
  - intros z. rewrite <- (take_drop_middle _ _ _ E) at 3. set_solver.
Qed.

Lemma to_back_Forall {A} (P : A -> Prop) (p : A -> bool) xs x ys :
  to_back p xs = Some (x, ys) -> Forall P xs -> P x /\ Forall P ys.
Proof.
  intros (_ & Hx & Hy)%to_back_spec Hall. rewrite Forall_forall in Hall. split; [auto|].
  apply Forall_forall. auto.
Qed.

Lemma Forall_filtered {A} (P Q : A -> Prop) `{!forall x, Decision (Q x)} xs : Forall P xs -> Forall P (filter Q xs).
Proof. rewrite !Forall_forall. intros HP x Hx. apply list_elem_of_filter in Hx as [_ Hx]. auto. Qed.

Lemma with_dirs_kept v ds :
  kept_ok v -> Forall (fun k => is_cluster l (k_cluster k) = true) ds -> (length ds <= MAX_DIRS)%nat ->
  kept_ok (with_dirs ds v).
Proof. intros [] H1 H2. by constructor. Qed.

Lemma with_opens_kept v os :
  kept_ok v -> Forall open_ok os -> (length os <= MAX_OPEN)%nat -> kept_ok (with_opens os v).
Proof. intros [] H1 H2. by constructor. Qed.

Lemma remember_kept v path a : kept_ok v -> is_cluster l a = true -> kept_ok (remember path a v).
Proof.
  intros Hk Ha. pose proof Hk as []. unfold remember. set (ds := filter _ (dirs v)).
  assert (length ds <= length (dirs v))%nat by apply length_filter.
  apply with_dirs_kept; [done| |].
  - apply push_bounded_Forall; [|done]. by apply Forall_filtered.
  - apply push_bounded_length; [unfold MAX_DIRS|]; lia.
Qed.

Lemma forget_kept v : kept_ok v -> kept_ok (forget v).
Proof. intros []. constructor; cbn; try done; lia. Qed.

Lemma close_under_kept v path : kept_ok v -> kept_ok (close_under path v).
Proof.
  intros Hk. pose proof Hk as []. unfold close_under.
  apply with_dirs_kept; [apply with_opens_kept; [done| |]| |].
  - by apply Forall_filtered.
  - etrans; [apply length_filter|done].
  - by apply Forall_filtered.
  - etrans; [apply length_filter|done].
Qed.

(** ** Directories by path *)

Lemma vsafe_subdir_cluster f : vsafe (subdir_cluster f) (fun a => is_cluster l a = true).
Proof.
  eapply safe_bind; [apply vsafe_vlayout|]. intros ? ->.
  apply safe_if; intros E; [by apply safe_ret|apply vsafe_throw].
Qed.

Lemma vsafe_remember path a : is_cluster l a = true -> vsafe (modify (remember path a)) (fun _ => True).
Proof. intros Ha. apply vsafe_keep; [done| |done]. intros v Hk. by apply remember_kept. Qed.

Lemma vsafe_descend walked a names :
  is_cluster l a = true -> vsafe (descend walked a names) (fun a => is_cluster l a = true).
Proof.
  revert walked a. induction names as [|part names IH]; intros walked a Ha; [by apply safe_ret|]. cbn [descend].
  eapply safe_bind; [apply vsafe_find_or|]. intros f Hf. destruct (negb _); [apply vsafe_throw|].
  eapply safe_bind; [apply vsafe_subdir_cluster|]. intros a' Ha'.
  eapply safe_bind; [by apply vsafe_remember|]. intros [] _. by apply IH.
Qed.

Lemma deepest_elem path ks k : deepest path ks = Some k -> k ∈ ks.
Proof.
  unfold deepest. intros H.
  assert (Hgen : forall xs best, (forall b, best = Some b -> b ∈ ks) -> (forall x, x ∈ xs -> x ∈ ks) ->
    forall k, foldl (fun best k => match best with
                     | Some b => if utf8_len (k_path b) <=? utf8_len (k_path k) then Some k else Some b
                     | None => Some k
                     end) best xs = Some k -> k ∈ ks).
  { induction xs as [|x xs IH]; intros best Hb Hx k'; cbn; [apply Hb|]. apply IH; [|set_solver].
    intros b. destruct best as [b0|]; [destruct (_ <=? _)|]; intros [= <-]; [|auto|]; set_solver. }
  eapply Hgen; [| |exact H]; [done|]. intros x Hx. by apply list_elem_of_filter in Hx as [_ ?].
Qed.

Lemma root_ok : is_cluster l (root_cluster l) = true.
Proof. apply is_cluster_iff, (wf_root _ _ Hwf). Qed.

Lemma vsafe_dir_cluster path : vsafe (dir_cluster path) (fun a => is_cluster l a = true).
Proof.
  eapply safe_bind; [apply vsafe_vlayout|]. intros ? ->. apply safe_if; intros _; [apply safe_ret, root_ok|].
  eapply (safe_bind _ _ _ _ (fun ds => Forall (fun k => is_cluster l (k_cluster k) = true) ds /\ (length ds <= MAX_DIRS)%nat)).
  { apply safe_gets. intros v [[[] _] _]. done. }
  intros ds [Hds Hlen]. destruct (to_back _ ds) as [[k ds']|] eqn:E.
  - pose proof (to_back_Forall _ _ _ _ _ E Hds) as [Hk Hds']. apply to_back_spec in E as (El & _).
    eapply safe_bind; [|intros [] _; by apply safe_ret].
    apply vsafe_keep; [done| |done]. intros v Hv. apply with_dirs_kept; [done|done|lia].
  - destruct (deepest path ds) as [k|] eqn:Ed; [|apply vsafe_descend, root_ok].
    apply vsafe_descend. rewrite Forall_forall in Hds. by apply Hds, (deepest_elem path).
Qed.

Lemma vsafe_path_clusters path : vsafe (path_clusters path) (fun _ => True).
Proof.
  eapply safe_bind; [apply vsafe_vlayout|]. intros ? ->. generalize [root_cluster l] as out.
  generalize (parts path) as names, (@nil Z) as walked. intros names. induction names as [|part names IH]; intros walked out.
  - by apply safe_ret.
  - cbn [path_clusters_loop]. eapply safe_bind; [apply vsafe_dir_cluster|]. intros a _. apply IH.
Qed.

(** ** Open files *)

Lemma vsafe_opened i : vsafe (opened i) open_ok.
Proof.
  eapply (safe_bind _ _ _ _ (fun o => forall a, o = Some a -> open_ok a)).
  - apply safe_gets. intros v [[[] _] _] o Ho. by eapply Forall_lookup_1.
  - intros o Ho. by apply vsafe_ok_or.
Qed.

Lemma vsafe_update_opened i f :
  (forall o, open_ok o -> open_ok (f o)) -> (forall os o, R os -> R (<[i := f o]> os)) ->
  vsafe (update_opened i f) (fun _ => True).
Proof.
  intros Hf HR. eapply safe_bind; [apply vsafe_opened|]. intros o Ho. apply vsafe_keep; [done| |intros; by apply HR].
  intros v Hk. pose proof Hk as []. apply with_opens_kept; [done|by apply Forall_insert; auto|by rewrite length_insert].
Qed.

Lemma cluster_of_range raw : is_bytes raw -> is_u32 (cluster_of raw).
Proof.
  intros Hr. unfold cluster_of. pose proof (le16_range raw 20 Hr). pose proof (le16_range raw 26 Hr).
  unfold u16_max in *. rewrite lor_shift_add by lia. unfold is_u32, u32_max. change (2 ^ 16) with 65536. lia.
Qed.

Lemma vsafe_handle path : (forall os, R os) -> vsafe (handle path) (fun _ => True).
Proof.
  intros HR.
  eapply (safe_bind _ _ _ _ (fun os => Forall open_ok os /\ (length os <= MAX_OPEN)%nat)).
  { apply safe_gets. intros v [[[] _] _]. done. }
  intros os [Hos Hlen]. destruct (to_back _ os) as [[o os']|] eqn:E.
  { pose proof (to_back_Forall _ _ _ _ _ E Hos) as [Ho Hos']. apply to_back_spec in E as (El & _).
    eapply safe_bind; [|intros [] _; by apply safe_ret].
    apply vsafe_keep; [done| |done]. intros v Hv. apply with_opens_kept; [done|done|lia]. }
  destruct (split path) as [parent name]. eapply safe_bind; [apply vsafe_dir_cluster|]. intros dir _.
  eapply safe_bind; [apply vsafe_find_or|]. intros f ([Hraw _] & Hat & _). apply safe_if; intros _; [apply vsafe_throw|].
  eapply safe_bind; [apply vsafe_vlayout|]. intros ? ->.
  pose proof (wf_clusters _ _ Hwf) as Hn. unfold MAX_CLUSTERS in Hn.
  pose proof (cluster_blocks_cases _ _ Hwf) as (_ & Hcb & _).
  eapply (safe_bind _ _ _ _ (fun r => 0 <= r.1 <= clusters l)).
  { destruct (cluster_of (f_raw f) =? 0); [apply safe_ret; cbn; lia|].
    eapply safe_mono; [apply vsafe_on, csafe_walk|]. cbn. intros. lia. }
  intros [n last] Hnr. cbn [fst] in Hnr.
  eapply safe_bind; [apply vsafe_checked; unfold u64_max; nia|]. intros ? ->.
  apply safe_if; intros _; [apply vsafe_throw|].
  eapply (safe_bind _ _ _ _ (fun _ => True)).
  - apply vsafe_keep; [done| |done]. intros v Hk. pose proof Hk as []. apply with_opens_kept; [done| |].
    + apply push_bounded_Forall; [done|]. constructor; cbn; [done| | |done].
      * by apply le32_range.
      * unfold is_u32, u32_max. lia.
    + apply push_bounded_length; [unfold MAX_OPEN; lia|done].
  - intros [] _. eapply safe_bind; [by apply (safe_gets _ _ _ (fun _ => True))|]. intros. by apply safe_ret.
Qed.
End volume.
