(* ===== verification/SafeFiles.v ===== *)
(** * The volume code is safe: file contents, and the end of an operation

    Finding a file's clusters, writing its contents, linking new clusters, and
    [run], which ends every operation with nothing left to write. *)

From S2P Require Import Prelude Safe Bytes Boot BootSpec Time Cache CacheSpec CacheFlush CacheIo CacheWrite Table TableSpec Chains Scans SafeDir Name Dir RawSpec Volume SafeVolume.

Section steps.
Context {B : Type} `{!Blocks B} `{!BlocksOk B}.
Implicit Types v : Volume B.
Context (l : Layout) (D : Image) (size : Z) (Hwf : layout_wf size l).
Context (R : list Open -> Prop).

Abbreviation vsafe := (safe (vol_inv_with l D R) (vol_bad l D)).

Lemma cb_range : 512 <= cluster_bytes l <= 65536.
Proof. apply (cluster_blocks_cases _ _ Hwf). Qed.

(** ** Writing *)

Definition piece_ok (p : Piece) : Prop := match p with Zeros _ => True | Data data => is_bytes data end.

Lemma vsafe_get_range data from to e : is_bytes data -> vsafe (ok_or (get_range data from to) e) is_bytes.
Proof. intros Hb. apply vsafe_ok_or. intros part Hpart. by eapply get_range_Forall. Qed.

Lemma vsafe_write_piece piece zeros at_ from n :
  piece_ok piece -> is_bytes zeros -> 0 <= at_ -> 0 <= n -> at_ + n <= u64_max ->
  vsafe (write_piece piece zeros at_ from n) (fun _ => True).
Proof.
  intros Hp Hz Hat Hn Hu. destruct piece as [m|data]; cbn [write_piece piece_ok] in *.
  - apply (safe_loop _ _ (fun d => 0 <= d <= n) (fun d => Z.to_nat (n - d))); [|lia|lia].
    intros d Hd. apply safe_if; intros E1; [|by apply safe_ret].
    apply safe_if; intros E2; [apply vsafe_throw|]. set (step := Z.min (n - d) (len zeros)) in *.
    eapply safe_bind; [apply vsafe_checked; lia|]. intros ? ->.
    eapply safe_bind; [by eapply vsafe_get_range|]. intros part Hb.
    eapply safe_bind; [apply vsafe_vwrite; [lia|done]|]. intros [] _. apply safe_ret. unfold step in *. lia.
  - eapply safe_bind; [by apply (vsafe_ok_or _ _ _ _ _ (fun _ => True))|]. intros stop _.
    eapply safe_bind; [by eapply vsafe_get_range|]. intros part Hb.
    by apply vsafe_vwrite.
Qed.

(** ** New clusters *)

Abbreviation all_clusters := (Forall (fun x => is_cluster l x = true)).

Lemma cluster_u32 a : is_cluster l a = true -> is_u32 a.
Proof.
  intros Ha%is_cluster_iff. pose proof (wf_clusters _ _ Hwf) as Hn. unfold MAX_CLUSTERS in Hn. unfold is_u32, u32_max. lia.
Qed.

Lemma vsafe_link_pairs found : all_clusters found -> vsafe (link_pairs found) (fun _ => True).
Proof.
  induction 1 as [|x found Hx Hf IH]; [by apply safe_ret|]. cbn [link_pairs]. destruct found as [|y found]; [by apply safe_ret|].
  eapply safe_bind; [|intros [] _; exact IH]. apply vsafe_vset, cluster_u32. by inversion Hf.
Qed.

Lemma vsafe_link_new prev found : all_clusters found -> vsafe (link_new prev found) (fun _ => True).
Proof.
  intros Hf. unfold link_new. destruct (head found) as [first|] eqn:E1; [|by apply safe_ret].
  destruct (last found) as [z|] eqn:E2; [|by apply safe_ret].
  assert (is_cluster l first = true) as Hfirst.
  { destruct found; [done|]. cbn in E1. simplify_eq. by inversion Hf. }
  eapply safe_bind; [by apply vsafe_link_pairs|]. intros [] _.
  eapply safe_bind; [by apply vsafe_vset|]. intros [] _.
  eapply (safe_bind _ _ _ _ (fun _ => True)).
  { destruct prev as [p|]; [|by apply safe_ret].
    eapply (safe_bind _ _ _ _ (fun _ => True)); [apply safe_if; intros _; [apply vsafe_vflush|by apply safe_ret]|].
    intros [] _. by apply vsafe_vset, cluster_u32. }
  intros [] _. eapply safe_bind; [apply vsafe_vflush|]. intros [] _.
  apply vsafe_on_table, fsafe_took. unfold as_u32. lia.
Qed.

Lemma vsafe_run_length found i first :
  is_cluster l first = true -> (i < length found)%nat -> len found <= 1024 ->
  vsafe (run_length found i first) (fun n => (1 <= n)%nat /\ (i + n <= length found)%nat).
Proof.
  intros Hf Hi Hlen. pose proof (cluster_u32 first Hf) as Hu. apply is_cluster_iff in Hf.
  pose proof (wf_clusters _ _ Hwf) as Hn. unfold MAX_CLUSTERS in Hn.
  apply (safe_loop _ _ (fun n => (1 <= n)%nat /\ (i + n <= length found)%nat) (fun n => (length found - n)%nat)); [|lia|lia].
  intros n [Hn1 Hn2]. apply safe_if; intros E; apply safe_ret; [|done].
  apply bool_decide_eq_true in E. unfold checked_add32, as_u32 in E. rewrite Z.mod_small in E by lia.
  rewrite (proj2 (Z.leb_le _ _)) in E by (unfold u32_max; lia). apply lookup_lt_Some in E. lia.
Qed.

Lemma vsafe_write_runs piece zeros found total done_ :
  piece_ok piece -> is_bytes zeros -> all_clusters found -> found <> [] -> len found <= 1024 ->
  0 <= done_ < total -> total <= u32_max ->
  vsafe (write_runs piece zeros found total done_ (cluster_bytes l)) (fun w => 0 < w <= total - done_).
Proof.
  intros Hp Hz Hf Hne Hlen Hd Ht. pose proof cb_range as Hcb. unfold u32_max in Ht.
  apply (safe_loop _ _ (fun s => 0 <= s.2 <= total - done_ /\ (s.1 = 0%nat \/ 0 < s.2))
           (fun s => (length found - s.1)%nat)); cbn [fst snd]; [|lia|lia].
  intros [i w] [Hw Hi]. cbn [fst snd] in *. destruct (found !! i) as [first|] eqn:E.
  2: { apply safe_ret. destruct Hi as [->|]; [|lia]. by destruct found. }
  pose proof (lookup_lt_Some _ _ _ E) as Hilt. pose proof (Forall_lookup_1 _ _ _ _ Hf E) as Hfirst.
  eapply safe_bind; [by apply vsafe_run_length|]. intros n [Hn1 Hn2].
  eapply safe_bind; [apply vsafe_checked; unfold u64_max; nia|]. intros ? ->.
  eapply safe_bind; [apply vsafe_checked; unfold u64_max; lia|]. intros ? ->.
  eapply safe_bind; [by eapply vsafe_offset_of|]. intros at_ [Hat0 Hat1].
  eapply safe_bind; [apply vsafe_checked; unfold u64_max; lia|]. intros ? ->.
  set (k := Z.min (Z.of_nat n * cluster_bytes l) (total - done_ - w)).
  assert (0 <= k <= total - done_ - w /\ (w = 0 -> 0 < k)) as [Hk0 Hk1] by (unfold k; nia).
  eapply safe_bind; [apply vsafe_write_piece; try done; unfold u64_max, u32_max in *; lia|]. intros [] _.
  eapply safe_bind; [apply vsafe_checked; unfold u64_max; lia|]. intros ? ->. apply safe_ret. cbn [fst snd]. lia.
Qed.

(** ** Marking the volume as being written *)

Lemma vsafe_set_linux_state dirty : vsafe (set_linux_state dirty) (fun _ => True).
Proof.
  eapply safe_bind; [apply vsafe_vread; unfold LINUX_STATE; lia|]. intros byte [Hb Hl].
  set (old := default 0 (head byte)).
  set (new := if dirty then Z.lor old LINUX_STATE_DIRTY else Z.land old (u8_max - LINUX_STATE_DIRTY)).
  assert (is_u8 old) as Hold by (unfold old; destruct byte; [done|]; by inversion Hb).
  assert (is_u8 new) as Hnew.
  { unfold new. destruct dirty; [by apply u8_lor|]. apply u8_land; [done|]. unfold u8_max, LINUX_STATE_DIRTY. lia. }
  apply safe_if; intros _; [|by apply safe_ret]. apply vsafe_vwrite; [unfold LINUX_STATE; lia|]. by apply Forall_singleton.
Qed.

Lemma vsafe_begin_write : vsafe begin_write (fun _ => True).
Proof.
  eapply safe_bind; [by apply (safe_gets _ _ _ (fun _ => True))|]. intros w _. apply safe_if; intros _; [apply vsafe_throw|].
  eapply safe_bind; [by apply (safe_gets _ _ _ (fun _ => True))|]. intros m _. apply safe_if; intros _; [|by apply safe_ret].
  eapply safe_bind; [by apply (safe_gets _ _ _ (fun _ => True))|]. intros d _.
  eapply safe_bind; [apply vsafe_vlayout|]. intros ? ->.
  eapply (safe_bind _ _ _ _ (fun _ => True)).
  { apply safe_if; intros _; [|by apply safe_ret].
    eapply safe_bind; [apply vsafe_on, csafe_set_clean|]. intros. by apply safe_ret. }
  intros [] _. eapply safe_bind; [apply vsafe_set_linux_state|]. intros [] _.
  eapply safe_bind; [apply vsafe_vflush|]. intros [] _.
  apply vsafe_keep; [done| |done]. intros v []. by constructor.
Qed.

Lemma vsafe_room n : is_u32 n -> vsafe (room n) (fun x => 0 <= x).
Proof.
  intros Hn. pose proof (wf_clusters _ _ Hwf) as Hc. pose proof cb_range as Hcb.
  unfold is_u32, u32_max, MAX_CLUSTERS in *.
  eapply safe_bind; [apply vsafe_on_table, fsafe_free_count|]. intros k Hk. cbn beta in Hk.
  eapply safe_bind; [apply vsafe_cluster_bytes|]. intros ? ->.
  assert (0 <= (n + k) * cluster_bytes l <= 8589934592 * 65536).
  { split; [apply Z.mul_nonneg_nonneg; lia|apply Z.mul_le_mono_nonneg; lia]. }
  eapply safe_mono; [apply vsafe_checked; unfold u64_max; lia|]. intros ? ->. lia.
Qed.
End steps.

Section files.
Context {B : Type} `{!Blocks B} `{!BlocksOk B}.
Implicit Types v : Volume B.
Context (l : Layout) (D : Image) (size : Z) (Hwf : layout_wf size l).

Abbreviation any := (fun _ : list Open => True).
Abbreviation vsafe := (safe (vol_inv_with l D any) (vol_bad l D)).

(** ** Clusters of a file *)

Lemma vsafe_follow n a : vsafe (follow l n a) (fun _ => True).
Proof.
  revert a. induction n as [|n IH]; intros a; [by apply safe_ret|]. cbn [follow].
  eapply safe_bind; [apply vsafe_on, csafe_next|]. intros found _.
  eapply safe_bind; [by apply (vsafe_ok_or _ _ _ _ _ (fun _ => True))|]. intros x _. apply IH.
Qed.

Lemma set_pos_ok o pos : open_ok o -> (forall at_ a, pos = Some (at_, a) -> 0 <= at_) -> open_ok (set_pos pos o).
Proof. intros [] Hp. by constructor. Qed.

Lemma vsafe_cluster_at slot index : 0 <= index -> vsafe (cluster_at slot index) (fun _ => True).
Proof.
  intros Hi. eapply safe_bind; [apply vsafe_opened|]. intros o Ho. apply safe_if; intros E; [apply vsafe_throw|].
  pose proof (open_clusters _ Ho) as Hc. unfold is_u32 in Hc.
  eapply safe_bind; [apply vsafe_checked; lia|]. intros ? ->. apply safe_if; intros _; [by apply safe_ret|].
  destruct (match o_pos o with Some _ => _ | None => _ end) as [at_ a].
  eapply safe_bind; [apply vsafe_vlayout|]. intros ? ->.
  eapply safe_bind; [apply vsafe_follow|]. intros x _.
  eapply safe_bind; [|intros [] _; by apply safe_ret]. apply vsafe_update_opened; [|done].
  intros o' Ho'. apply set_pos_ok; [done|]. by intros ? ? [= <- _].
Qed.

Lemma vsafe_run_at slot index within remaining :
  0 <= index < u32_max -> 0 <= within < cluster_bytes l -> 0 < remaining ->
  vsafe (run_at slot index within remaining) (fun r => 0 < r.2 <= remaining).
Proof.
  intros Hi Hw Hr. pose proof (cb_range l size Hwf) as Hcb.
  eapply safe_bind; [apply vsafe_cluster_bytes|]. intros ? ->.
  eapply safe_bind; [apply vsafe_opened|]. intros o Ho. pose proof (open_clusters _ Ho) as Hc. unfold is_u32, u32_max in *.
  eapply safe_bind; [apply vsafe_cluster_at; lia|]. intros first _.
  assert (Hmul : forall k, 1 <= k <= 4294967296 -> cluster_bytes l <= k * cluster_bytes l <= 4294967296 * 65536) by (intros; nia).
  eapply (safe_bind _ _ _ _ (fun k => 1 <= k <= 4294967296)).
  { apply (safe_loop _ _ (fun s => 1 <= s.1 <= Z.max 1 (o_clusters o - index)) (fun s => Z.to_nat (o_clusters o - s.1)));
      cbn [fst]; [|lia|lia].
    intros [k last] Hk. cbn [fst] in *. pose proof (Hmul k ltac:(lia)) as Hkb.
    eapply safe_bind; [apply vsafe_checked; unfold u64_max; lia|]. intros ? ->.
    eapply safe_bind; [apply vsafe_checked; unfold u64_max; lia|]. intros ? ->.
    apply safe_if; intros _; [|apply safe_ret; lia].
    eapply safe_bind; [apply vsafe_checked; unfold u32_max; lia|]. intros ? ->.
    apply safe_if; intros E; [|apply safe_ret; lia].
    eapply safe_bind; [apply vsafe_cluster_at; lia|]. intros nx _.
    apply safe_if; intros _; [apply safe_ret; lia|].
    eapply safe_bind; [apply vsafe_checked; unfold u32_max; lia|]. intros ? ->. apply safe_ret. cbn [fst]. lia. }
  intros k Hk. pose proof (Hmul k Hk) as Hkb.
  eapply safe_bind; [apply vsafe_checked; unfold u64_max; lia|]. intros ? ->.
  eapply safe_bind; [apply vsafe_checked; unfold u64_max; lia|]. intros ? ->.
  apply safe_ret. cbn [snd]. lia.
Qed.

(** ** Writing a file *)

(** What [opened] returns is the file of the state it was asked in. *)
Lemma wp_opened {A} slot (k : Open -> M (Volume B) FsError A) Q v :
  vol_inv_with l D any v ->
  (forall o, opens v !! slot = Some o -> open_ok o -> wp (k o) Q (vol_bad l D) v) ->
  wp (bind (opened slot) k) Q (vol_bad l D) v.
Proof.
  intros Hv Hk. apply wp_bind. unfold opened. apply wp_bind, wp_gets.
  destruct (opens v !! slot) as [o|] eqn:E; [|by eapply wp_throw, vol_inv_bad].
  apply wp_ret, Hk; [done|]. destruct Hv as [[[] _] _]. by eapply Forall_lookup_1.
Qed.

(** A file with room for as many more clusters as are added at a time. *)
Definition has_room (slot : nat) (os : list Open) : Prop :=
  forall o, os !! slot = Some o -> o_clusters o + ROUND_CLUSTERS <= u32_max.

Lemma wp_extend slot piece zeros n last total done_ v :
  vol_inv_with l D (has_room slot) v -> piece_ok piece -> is_bytes zeros -> 0 <= done_ < total -> total <= u32_max ->
  wp (extend slot piece zeros n last total done_ (cluster_bytes l))
    (fun v' w => vol_inv_with l D any v' /\ 0 < w <= total - done_) (vol_bad l D) v.
Proof.
  intros Hv Hp Hz Hd Ht. pose proof (cb_range l size Hwf) as Hcb. unfold extend.
  set (want := as_u32 _).
  assert (1 <= want <= 1024) as Hwant.
  { unfold want, as_u32, ROUND_CLUSTERS. pose proof (div_ceil_spec (total - done_) (cluster_bytes l)) as Hdc.
    assert (1 <= div_ceil (total - done_) (cluster_bytes l)) by nia. rewrite Z.mod_small; lia. }
  apply wp_bind. eapply wp_mono; [eapply vsafe_on_table; [|exact Hv]; apply fsafe_find_free; lia| |done].
  intros v1 found [Hv1 [Hfound Hlen]]. destruct (decide (found = [])) as [->|Hne].
  { rewrite bool_decide_eq_true_2 by done. by eapply wp_throw, vol_inv_bad. }
  rewrite bool_decide_eq_false_2 by done. cbn beta in Hlen.
  apply wp_bind. eapply wp_mono; [eapply vsafe_write_runs; [exact Hwf|..|exact Hv1]; try done; lia| |done].
  intros v2 w [Hv2 Hw]. apply wp_bind. eapply wp_mono; [apply vsafe_vflush, Hv2| |done].
  intros v3 [] [Hv3 _]. apply wp_bind. eapply wp_mono; [eapply vsafe_link_new; [exact Hwf|exact Hfound|exact Hv3]| |done].
  intros v4 [] [[Hv4 Hroom] _]. assert (vol_inv_with l D any v4) as Hv4' by (by split).
  apply wp_opened; [done|]. intros o Ho Hok. pose proof (Hroom o Ho) as Hr. pose proof (open_clusters _ Hok) as Hoc.
  unfold ROUND_CLUSTERS, is_u32, u32_max in *.
  assert (as_u32 (len found) = len found) as Hlf by (unfold as_u32; rewrite Z.mod_small; lia). rewrite Hlf.
  apply wp_bind, wp_checked; [unfold u32_max; lia|]. apply wp_bind.
  eapply wp_mono; [eapply (vsafe_update_opened l D any); [|done|exact Hv4']| |done].
  - intros o' []. constructor; cbn; try done. unfold is_u32, u32_max. lia.
  - intros v5 [] [Hv5 _]. by apply wp_ret.
Qed.

Lemma vsafe_fill slot start piece :
  piece_ok piece -> 0 <= start -> 0 <= piece_len piece -> start + piece_len piece <= u32_max ->
  vsafe (fill slot start piece) (fun _ => True).
Proof.
  intros Hp Hs Hl Hu. pose proof (cb_range l size Hwf) as Hcb.
  eapply safe_bind; [apply vsafe_cluster_bytes|]. intros ? ->.
  eapply (safe_bind _ _ _ _ (fun cb => cb = cluster_bytes l)); [apply safe_divisor; [lia|done]|]. intros ? ->.
  set (total := piece_len piece) in *. set (zeros := match piece with Zeros _ => _ | Data _ => _ end).
  assert (is_bytes zeros) as Hz by (unfold zeros; destruct piece; [by apply replicate_bytes|constructor]).
  clearbody zeros total. eapply safe_bind; [|intros [] _; apply vsafe_vflush].
  apply (safe_loop _ _ (fun d => 0 <= d <= total) (fun d => Z.to_nat (total - d)) _ (fun _ => True)); [|lia|lia].
  intros d Hd. apply safe_if; intros E; [|by apply safe_ret]. unfold u32_max in Hu.
  eapply safe_bind; [apply vsafe_checked; unfold u64_max; lia|]. intros ? ->.
  set (pos := start + d) in *. assert (0 <= pos / cluster_bytes l <= 8388608) as Hidx.
  { split; [apply Z.div_pos; lia|]. transitivity (pos / 512); [apply Z.div_le_compat_l; lia|unfold pos; lia]. }
  assert (0 <= pos `mod` cluster_bytes l < cluster_bytes l) as Hwithin by (apply Z.mod_pos_bound; lia).
  eapply (safe_bind _ _ _ _ (fun x => x = pos / cluster_bytes l)).
  { rewrite (proj2 (Z.leb_le _ _)) by (unfold u32_max; lia). by apply safe_ret. }
  intros ? ->. intros v Hv. apply wp_opened; [done|]. intros o Ho Hok.
  destruct (pos / cluster_bytes l <? o_clusters o) eqn:Ein.
  - revert v Hv Ho.
    enough (vsafe (let! '(cluster, n) := run_at slot (pos / cluster_bytes l) (pos `mod` cluster_bytes l) (total - d) in
           let! base := offset_of cluster in
           let! at_ := u64 (base + pos `mod` cluster_bytes l) in
           write_piece piece zeros at_ d n ;;;
           let! done := u64 (d + n) in
           ret (inl done))
      (fun r : Z + unit => match r with inl a' => 0 <= a' <= total /\ (Z.to_nat (total - a') < Z.to_nat (total - d))%nat | inr _ => True end)) as H
      by (intros v Hv _; by apply H).
    eapply safe_bind; [apply vsafe_run_at; [unfold u32_max; lia|done|lia]|]. intros [cluster n] Hn. cbn [snd] in Hn.
    eapply safe_bind; [by eapply vsafe_offset_of|]. intros base [Hb0 Hb1].
    eapply safe_bind; [apply vsafe_checked; unfold u64_max, u32_max in *; lia|]. intros ? ->.
    eapply safe_bind; [apply vsafe_write_piece; try done; unfold u64_max, u32_max in *; lia|]. intros [] _.
    eapply safe_bind; [apply vsafe_checked; unfold u64_max; lia|]. intros ? ->. apply safe_ret. lia.
  - destruct (negb (pos / cluster_bytes l =? o_clusters o) || negb (pos `mod` cluster_bytes l =? 0)) eqn:Eat.
    { by eapply wp_throw, vol_inv_bad. }
    apply wp_bind. eapply wp_mono; [eapply wp_extend; try done; [|lia|unfold u32_max; lia]| |done].
    + split; [apply Hv|]. intros o' Ho'. assert (o' = o) as -> by congruence. unfold ROUND_CLUSTERS, u32_max. lia.
    + intros v' w [Hv' Hw]. apply wp_bind, wp_checked; [unfold u64_max; lia|]. apply wp_ret. split; [done|]. lia.
Qed.

Lemma vsafe_update_entry slot n : is_u32 n -> vsafe (update_entry slot n) (fun _ => True).
Proof.
  intros Hn. eapply safe_bind; [apply vsafe_now|]. intros t _.
  eapply safe_bind; [apply vsafe_opened|]. intros o Ho. pose proof (open_entry _ Ho).
  eapply safe_bind; [apply vsafe_vread; lia|]. intros bytes [Hb _]. apply safe_if; intros _; [apply vsafe_throw|].
  cbn zeta. set (raw := set_attr _ _). assert (is_bytes raw) as Hraw.
  { unfold raw, attr, ATTR_ARCHIVE. auto 20 with bytes. }
  eapply (safe_bind _ _ _ _ (fun _ => True)).
  { apply safe_if; intros _; [|by apply safe_ret].
    eapply safe_bind; [by apply vsafe_vwrite|]. intros [] _. apply vsafe_vflush. }
  intros [] _. apply vsafe_update_opened; [|done]. intros o' []. by constructor.
Qed.

(** ** The end of an operation *)

(** Nothing is left to write. *)
Definition flushed v : Prop := forall b, ~ dirty (cache v) b.

Lemma discarded_rests v e :
  vol_bad l D v e ->
  let v' := forget (with_fat (forget_free (vfat v)) (with_cache (discard (cache v)) v)) in
  vol_inv l D v' /\ flushed v'.
Proof.
  intros (Hk & Hd & Hw & _ & Hfr) v'. split; [split|].
  - destruct Hk. constructor; cbn; try done; try lia. by apply forget_free_wf.
  - split; [split; [by apply discard_ok|done]|]. destruct Hfr as [Hi Hfr]. split; [done|]. intros Hr. split; [intros b; apply discard_clean|]. by apply Hfr.
  - intros b. apply discard_clean.
Qed.

Lemma wp_run {A} (op : M (Volume B) FsError A) (P : A -> Prop) v :
  vsafe op P -> vol_inv l D v ->
  wp (run op) (fun v' a => vol_inv l D v' /\ flushed v' /\ P a) (fun v' _ => vol_inv l D v' /\ flushed v') v.
Proof.
  intros Hop Hv. unfold run. apply wp_bind.
  apply wp_mono with (Q := fun v' r => match r with
      | inl a => vol_inv l D v' /\ P a | inr e => vol_bad l D v' e end) (X := fun _ _ => False); [| |done].
  { apply wp_try. eapply wp_mono; [by apply Hop| |]; [intros v' a [[? _] ?]; done|done]. }
  intros v1 [a|e] Hv1.
  - destruct Hv1 as [[Hk1 Hc1] Ha]. apply wp_bind, wp_try, wp_bind, wp_zoom, wp_map_err, wp_flush; [apply Hc1| |].
    + intros c Hk _ Hclean. apply wp_ret, wp_ret. split_and!; [|done|done].
      split; [destruct Hk1; by constructor|]. by eapply cinv_keeps.
    + intros c Hk. apply wp_bind, wp_modify, wp_throw. cbn [bool_decide fs_error_from]. rewrite orb_true_r.
      apply (discarded_rests _ Io). split; [destruct Hk1; by constructor|]. by eapply keeps_bad.
  - apply wp_bind, wp_ret. apply wp_bind, wp_modify, wp_throw.
    destruct (has_dirty (cache v1) || bool_decide (e = Io)) eqn:E; [by eapply discarded_rests|].
    destruct Hv1 as (Hk & Hd & Hw & Hok & Hfr).
    apply orb_false_iff in E as [E1 E2%bool_decide_eq_false]. pose proof (Hok E2) as Hok'.
    assert (flushed v1) as Hcl by exact (proj1 (has_dirty_false _ Hok') E1).
    destruct (bool_decide (e = Corrupt)); [|done]. split; [split; [by apply forget_kept|done]|done].
Qed.
End files.
