(* ===== verification/Ops.v ===== *)
(** * The operations of the volume

    The public methods of [Volume] in [kernel/src/storage/fat/volume.rs], and
    the steps they share: adding entries to a directory, marking them free,
    and giving clusters back. *)

From S2P Require Import Prelude Bytes Time Boot Cache Table Name Dir Volume.

Section ops.
Context {B : Type} `{!Blocks B}.
Implicit Types v : Volume B.

Abbreviation VM := (M (Volume B) FsError).

Definition lookup_entry (dir name : list Z) : VM Entry :=
  run
    (let! cluster := dir_cluster dir in
     if bool_decide (key name = []) then throw NotFound
     else
       let! found := find_or cluster name in
       (if is_dir (f_raw found) then
          let! child := try_ (subdir_cluster found) in
          match child with
          | inl child => modify (remember (join dir (f_name found)) child)
          | inr _ => ret tt
          end
        else ret tt) ;;;
       ret (entry_of found)).

Definition list_dir (dir : list Z) : VM (list Entry) :=
  run
    (let! cluster := dir_cluster dir in
     let! l := vlayout in
     on (scan_items l cluster
           (fun out item => ret match item with
                                | ItEntry found => inl (out ++ [entry_of found])
                                | ItEnd _ => inr out
                                | _ => inl out
                                end)
           (fun out _ => out) [])).

(** [read], returning the bytes it puts at the start of a buffer of [n]. *)
Definition read (path : list Z) (offset n : Z) : VM (list Z) :=
  run
    (let! slot := handle path in
     let! open := opened slot in
     let size := o_size open in
     if (size <=? offset) || (n =? 0) then ret []
     else
       let want := Z.min (size - offset) n in
       let! cb := vcluster_bytes in
       let! cb := divisor cb in
       loop (S (Z.to_nat want))
         (fun buf =>
            let done := len buf in
            if done <? want then
              let! pos := u64 (offset + done) in
              let! index := (if pos / cb <=? u32_max then ret (pos / cb) else throw Corrupt) in
              let! '(cluster, n) := run_at slot index (pos `mod` cb) (want - done) in
              let! base := offset_of cluster in
              let! at_ := u64 (base + pos `mod` cb) in
              let! part := vread at_ n in
              ret (inl (buf ++ part))
            else ret (inr buf)) []).

Definition write (path : list Z) (offset : Z) (data : list Z) : VM Z :=
  let! stop := ok_or (checked_add64 offset (len data)) TooBig in
  if MAX_FILE <? stop then throw TooBig
  else if bool_decide (data = []) then ret 0
  else
    run
      (let! slot := handle path in
       let! open := opened slot in
       let size := o_size open in
       let! cb := vcluster_bytes in
       let! cb := divisor cb in
       let! stop := (if o_clusters open <? div_ceil stop cb then
                       let! reach := room (o_clusters open) in
                       if reach <=? offset then throw NoSpace else ret (Z.min stop reach)
                     else ret stop) in
       let! n := u64 (stop - offset) in
       let! data := ok_or (get_range data 0 n) Corrupt in
       begin_write ;;;
       (if size <? offset then fill slot size (Zeros (offset - size)) else ret tt) ;;;
       fill slot offset (Data data) ;;;
       update_entry slot (as_u32 (Z.max size stop)) ;;;
       ret (len data)).

Definition truncate (path : list Z) (n : Z) : VM unit :=
  if MAX_FILE <? n then throw TooBig
  else
    run
      (let! slot := handle path in
       let! open := opened slot in
       let size := o_size open in
       let clusters := o_clusters open in
       let! cb := vcluster_bytes in
       let! cb := divisor cb in
       let keep := as_u32 (div_ceil n cb) in
       if size <? n then
         (if clusters <? keep then
            let! reach := room clusters in
            if reach <? n then throw NoSpace else ret tt
          else ret tt) ;;;
         begin_write ;;;
         fill slot size (Zeros (n - size)) ;;;
         update_entry slot (as_u32 n)
       else
         begin_write ;;;
         if clusters <=? keep then update_entry slot (as_u32 n)
         else
           let! new_last := (if 0 <? keep then let! c := cluster_at slot (keep - 1) in ret (Some c) else ret None) in
           let! l := vlayout in
           let! rest := match new_last with
                        | Some cluster => let! found := on (next l cluster) in ok_or found Corrupt
                        | None => let! open := opened slot in ret (o_first open)
                        end in
           (if keep =? 0 then
              update_opened slot (fun o =>
                mkOpen (o_path o) 0 (o_size o) (o_entry_at o) (o_clusters o) (o_last o) (o_pos o))
            else ret tt) ;;;
           update_entry slot (as_u32 n) ;;;
           match new_last with
           | Some cluster => vset cluster END ;;; vflush
           | None => ret tt
           end ;;;
           on_table (free_chain rest (clusters - keep)) ;;;
           vflush ;;;
           update_opened slot (fun o =>
             mkOpen (o_path o) (o_first o) (o_size o) (o_entry_at o) keep (default 0 new_last) None)).

(** Add clusters to a directory whose chain ends at [last]. *)
Definition grow (last slots : Z) : VM unit :=
  let! cb := vcluster_bytes in
  let! per := divisor (as_u32 (cb / ENTRY_BYTES)) in
  let want := div_ceil slots per in
  let! found := on_table (find_free want []) in
  if as_u32 (len found) <? want then throw NoSpace
  else
    let zeros := replicate (Z.to_nat cb) 0 in
    mapM_ (fun cluster => let! at_ := offset_of cluster in vwrite at_ zeros) found ;;;
    vflush ;;;
    link_new (Some last) found.

(** [for (at, entry) in positions.zip(entries)] of [add_entry]. *)
Fixpoint write_entries (positions : list Z) (entries : list (list Z)) : VM unit :=
  match positions, entries with
  | at_ :: positions, entry :: entries => vwrite at_ entry ;;; write_entries positions entries
  | _, _ => ret tt
  end.

Definition add_entry (dir : Z) (name template : list Z) (except : option Z) : VM (list Z) :=
  let us := encode_utf16 name in
  let long_slots := as_u32 (div_ceil (len us) UNITS_PER_ENTRY) in
  let! l := vlayout in
  let! run_wanted := u32 (long_slots + 1) in
  let! sv := on (survey l dir name run_wanted except) in
  match v_found sv with
  | Some _ => throw Exists
  | None =>
      let! '(short, long) := ok_or (short_name name (taken sv)) NoSpace in
      let count := if (long : bool) then run_wanted else 1 in
      let '(start, missing) := place sv count in
      if MAX_ENTRIES <? start + count then throw NoSpace
      else
        (if 0 <? missing then
           let! free := on_table free_count in
           let! cb := vcluster_bytes in
           let! per_cluster := divisor (as_u32 (cb / ENTRY_BYTES)) in
           if free <? div_ceil missing per_cluster then throw NoSpace else ret tt
         else ret tt) ;;;
        begin_write ;;;
        (if 0 <? missing then grow (v_last_cluster sv) missing else ret tt) ;;;
        match v_end sv with
        | Some stop =>
            if stop <? start then
              let! ats := on (positions l dir stop (start - stop)) in
              mapM_ (fun at_ => vwrite at_ [FREE_MARK]) ats ;;;
              vflush
            else ret tt
        | None => ret tt
        end ;;;
        let! one_more := u32 (count + 1) in
        let! ats := on (positions l dir start one_more) in
        if as_u32 (len ats) <? count then throw Corrupt
        else
          let raw := set_short template short 0 in
          let entries := (if (long : bool) then long_entries us (checksum short) else []) ++ [raw] in
          write_entries ats entries ;;;
          match v_end sv with
          | Some stop =>
              let! after := u32 (start + count) in
              if stop <? after then
                match ats !! Z.to_nat count with
                | Some at_ =>
                    let! first := vread at_ 1 in
                    if negb (bool_decide (first = [END_MARK])) then vwrite at_ [END_MARK] else ret tt
                | None => ret tt
                end
              else ret tt
          | None => ret tt
          end ;;;
          ret (take (Z.to_nat count) ats)
  end.

(** [name::check(name)?] *)
Definition checked_name (name : list Z) : VM (list Z) :=
  match check name with
  | Ok name => ret name
  | Err e => throw e
  | Stuck w => fail_with w
  end.

Definition create (dir name : list Z) : VM Entry :=
  let! name := checked_name name in
  run
    (let! cluster := dir_cluster dir in
     let! time := now in
     let raw := raw_new (replicate 11 SPACE) ATTR_ARCHIVE 0 0 (encode time) in
     add_entry cluster name raw None ;;;
     vflush ;;;
     ret (mkEntry name false 0 (modified raw))).

Definition mkdir (dir name : list Z) : VM Entry :=
  let! name := checked_name name in
  run
    (let! parent := dir_cluster dir in
     let! there := vfind parent name in
     match there with
     | Some _ => throw Exists
     | None =>
         let! n := on_table free_count in
         if n =? 0 then throw NoSpace
         else
           begin_write ;;;
           let! time := now in
           let stamp := encode time in
           let! found := on_table (find_free 1 []) in
           let! own := ok_or (head found) NoSpace in
           let! l := vlayout in
           let parent_field := if parent =? root_cluster l then 0 else parent in
           let! at_ := offset_of own in
           vwrite at_ (new_directory l own parent_field stamp) ;;;
           vflush ;;;
           link_new None [own] ;;;
           let raw := raw_new (replicate 11 SPACE) ATTR_DIRECTORY own 0 stamp in
           let! added := try_ (add_entry parent name raw None) in
           match added with
           | inr error =>
               let! dirty := gets (fun v => has_dirty (cache v)) in
               (if negb dirty && negb (bool_decide (error = Io)) then
                  vset own FREE ;;;
                  vflush ;;;
                  on_table (on_fat (gave 1))
                else ret tt) ;;;
               throw error
           | inl _ =>
               vflush ;;;
               ret (mkEntry name true 0 (modified raw))
           end
     end).

(** The chain an entry naming [first] owns, with its length. *)
Definition owned_chain (first : Z) : VM (option (Z * Z)) :=
  let! l := vlayout in
  if (first =? 0) || (first =? root_cluster l) || negb (is_cluster l first) then ret None
  else
    let! walked := try_ (on (walk l first)) in
    match walked with
    | inl (count, _) => ret (Some (first, count))
    | inr Corrupt => ret None
    | inr error => throw error
    end.

Definition mark_free (found : Found) : VM unit :=
  mapM_ (fun at_ => vwrite at_ [FREE_MARK]) (filter (fun at_ => at_ <> f_at found) (found_positions found)) ;;;
  (if negb (one_sector (found_positions found)) then vflush else ret tt) ;;;
  vwrite (f_at found) [FREE_MARK].

Definition free_owned (chain : option (Z * Z)) : VM unit :=
  match chain with
  | Some (first, count) => on_table (free_chain first count) ;;; vflush
  | None => ret tt
  end.

(** Whether the directory an entry names holds anything; one that names no
    cluster holds nothing. *)
Definition holds_entries (is_directory : bool) (first : Z) : VM bool :=
  let! l := vlayout in
  if is_directory && is_cluster l first then let! empty := on (is_empty l first) in ret (negb empty)
  else ret false.

Definition remove (dir_path name : list Z) (want_dir : bool) : VM unit :=
  run
    (let! parent := dir_cluster dir_path in
     let! found := find_or parent name in
     let directory := is_dir (f_raw found) in
     if negb (Bool.eqb directory want_dir) then throw (if directory then IsDir else NotDir)
     else
       let first := cluster_of (f_raw found) in
       let! full := holds_entries directory first in
       if (full : bool) then throw NotEmpty
       else
         let! chain := owned_chain first in
         modify (close_under (join dir_path (f_name found))) ;;;
         begin_write ;;;
         mark_free found ;;;
         vflush ;;;
         free_owned chain).

Definition dotdot (first : Z) : VM (Z * list Z) :=
  let! base := offset_of first in
  let! at_ := u64 (base + ENTRY_BYTES) in
  let! raw := vread at_ 32 in
  if negb (bool_decide (short_of_raw raw = DOTDOT)) || negb (is_dir raw) then throw Corrupt
  else ret (at_, raw).

Definition point_dotdot (first parent : Z) : VM unit :=
  let! '(at_, raw) := dotdot first in
  let! l := vlayout in
  vwrite at_ (set_cluster raw (if parent =? root_cluster l then 0 else parent)) ;;;
  vflush.

(** The same entry under a new spelling. *)
Definition rename_respell (source : Found) (source_path : list Z) (to_cluster : Z) (to_name : list Z) : VM (list Z) :=
  if bool_decide (f_name source = to_name) then ret (f_name source)
  else
    modify (close_under source_path) ;;;
    let! written := add_entry to_cluster to_name (f_raw source) (Some (f_at source)) in
    (if negb (one_sector (written ++ found_positions source)) then vflush else ret tt) ;;;
    mark_free source ;;;
    vflush ;;;
    ret to_name.

(** Over an existing entry of the same kind. *)
Definition rename_over (source target : Found) (source_path to_dir : list Z) (to_cluster : Z) (moves : bool) : VM (list Z) :=
  let directory := is_dir (f_raw source) in
  let target_dir := is_dir (f_raw target) in
  if directory && negb target_dir then throw NotDir
  else if negb directory && target_dir then throw IsDir
  else
    let target_first := cluster_of (f_raw target) in
    let! full := holds_entries target_dir target_first in
    if (full : bool) then throw NotEmpty
    else
      let! replaced := owned_chain target_first in
      modify (close_under source_path) ;;;
      modify (close_under (join to_dir (f_name target))) ;;;
      begin_write ;;;
      vwrite (f_at target) (take_contents (f_raw target) (f_raw source)) ;;;
      (if moves || negb (one_sector (f_at target :: found_positions source)) then vflush else ret tt) ;;;
      (if moves then point_dotdot (cluster_of (f_raw source)) to_cluster else ret tt) ;;;
      mark_free source ;;;
      vflush ;;;
      free_owned replaced ;;;
      ret (f_name target).

(** To a name not in use. *)
Definition rename_new (source : Found) (source_path : list Z) (to_cluster : Z) (to_name : list Z) (moves : bool) : VM (list Z) :=
  modify (close_under source_path) ;;;
  let! written := add_entry to_cluster to_name (f_raw source) None in
  (if moves || negb (one_sector (written ++ found_positions source)) then vflush else ret tt) ;;;
  (if moves then point_dotdot (cluster_of (f_raw source)) to_cluster else ret tt) ;;;
  mark_free source ;;;
  vflush ;;;
  ret to_name.

Definition rename (from_dir from_name to_dir to_name : list Z) : VM (list Z) :=
  let! to_name := checked_name to_name in
  run
    (let! from_cluster := dir_cluster from_dir in
     let! source := find_or from_cluster from_name in
     let source_path := join from_dir (f_name source) in
     let directory := is_dir (f_raw source) in
     let! to_cluster := dir_cluster to_dir in
     let moves := directory && negb (from_cluster =? to_cluster) in
     (if directory then
        if bool_decide (to_dir = source_path) || is_under to_dir source_path then throw Invalid
        else
          let! along := path_clusters to_dir in
          if existsb (Z.eqb (cluster_of (f_raw source))) along then throw Invalid else ret tt
      else ret tt) ;;;
     (if moves then
        let! first := subdir_cluster source in
        dotdot first ;;; ret tt
      else ret tt) ;;;
     let! target := vfind to_cluster to_name in
     match target with
     | Some target =>
         if f_at target =? f_at source then rename_respell source source_path to_cluster to_name
         else rename_over source target source_path to_dir to_cluster moves
     | None => rename_new source source_path to_cluster to_name moves
     end).

Definition fsync (path : list Z) : VM unit := run (ret tt).

Definition sync : VM unit :=
  run
    (let! m := gets marked in
     if negb m then ret tt
     else
       let! free := on_table free_count in
       let! next := on_table next_free_hint in
       let! l := vlayout in
       match fsinfo l with
       | Some sector =>
           let! offset := u64 (sector * BLOCK) in
           let! bytes := vread offset BLOCK in
           match fsinfo_hints bytes with
           | Some hints =>
               if negb (bool_decide (hints = (free, next))) then
                 vwrite offset (set_fsinfo_hints bytes free next) ;;;
                 vflush
               else ret tt
           | None => ret tt
           end
       | None => ret tt
       end ;;;
       let! was_dirty := gets dirty_at_mount in
       if negb was_dirty then
         on (set_clean l true) ;;;
         set_linux_state false ;;;
         vflush ;;;
         modify (with_marked false)
       else ret tt).

Definition stats : VM (Z * Z * Z) :=
  run
    (let! l := vlayout in
     let! free := on_table free_count in
     ret (cluster_bytes l, clusters l, free)).

Definition boot_file : VM (option (list Z)) :=
  run
    (let! l := vlayout in
     on (scan_items l (root_cluster l)
           (fun _ item => ret match item with
                              | ItEntry found =>
                                  if negb (is_dir (f_raw found))
                                     && (same (f_name found) (str "start4.elf") || same (f_name found) (str "kernel8.img"))
                                  then inr (Some (f_name found)) else inl tt
                              | ItEnd _ => inr None
                              | _ => inl tt
                              end)
           (fun _ _ => None) tt)).

(** The loop of [clusters_of]: [n] clusters left from [cluster]. *)
Fixpoint clusters_loop (l : Layout) (n : nat) (cluster : Z) (out : list Z) : VM (list Z) :=
  match n with
  | O => ret out
  | S O => ret (out ++ [cluster])
  | S n =>
      let! found := on (next l cluster) in
      let! following := ok_or found Corrupt in
      clusters_loop l n following (out ++ [cluster])
  end.

Definition clusters_of (dir name : list Z) : VM (list Z) :=
  run
    (let! parent := dir_cluster dir in
     let! found := find_or parent name in
     let first := cluster_of (f_raw found) in
     if first =? 0 then ret []
     else
       let! l := vlayout in
       let! '(count, _) := on (walk l first) in
       clusters_loop l (Z.to_nat count) first []).
End ops.
