(* ===== verification/SafeOps.v ===== *)
(** * The volume code is safe: the operations

    Every operation of volume.rs, on any volume that was mounted, ends without
    a panic and leaves the volume with its invariant and with nothing to write,
    whether it succeeds or not and whatever the device does. *)

From S2P Require Import Prelude Safe Bytes Boot BootSpec Time Cache CacheSpec CacheFlush CacheIo CacheWrite Table TableSpec Chains Scans SafeDir Name Dir RawSpec LongNames Volume SafeVolume SafeFiles Ops.

(** ** Names *)

Lemma utf16_len_app a b : utf16_len (a ++ b) = utf16_len a + utf16_len b.
Proof. induction a as [|x a IH]; [done|]. cbn. fold (utf16_len a) (utf16_len (a ++ b)). lia. Qed.

Lemma encode_utf16_length s : len (encode_utf16 s) = utf16_len s.
Proof.
  induction s as [|x s IH]; [done|]. cbn. rewrite length_app, Nat2Z.inj_add. unfold encode_utf16 in IH. rewrite IH.
  f_equal. unfold encode_char, char_len_utf16. by destruct (x <? 0x10000).
Qed.

(** A name the volume can hold. *)
Definition name_fits (name : list Z) : Prop := len (encode_utf16 name) <= MAX_UNITS.

Lemma check_fits name name' : check name = Ok name' -> name_fits name'.
Proof.
  unfold check, name_fits. destruct (MAX_UNITS <? utf16_len (key name)) eqn:E; [done|].
  destruct (_ || _); [done|]. destruct (existsb _ _); [done|]. intros [= <-]. rewrite encode_utf16_length. lia.
Qed.

Section ops.
Context {B : Type} `{!Blocks B} `{!BlocksOk B}.
Implicit Types v : Volume B.
Context (l : Layout) (D : Image) (size : Z) (Hwf : layout_wf size l).

Abbreviation any := (fun _ : list Open => True).
Abbreviation vsafe := (safe (vol_inv_with l D any) (vol_bad l D)).
Abbreviation all_clusters := (Forall (fun x => is_cluster l x = true)).

(** What holds between operations. *)
Definition resting v : Prop := vol_inv l D v /\ flushed v.
Definition settles {A} (op : M (Volume B) FsError A) : Prop :=
  forall v, resting v -> wp op (fun v' _ => resting v') (fun v' _ => resting v') v.

Lemma settles_run {A} (op : M (Volume B) FsError A) P : vsafe op P -> settles (run op).
Proof.
  intros Hop v [Hv _]. eapply wp_mono; [by eapply wp_run| |done]. intros v' a (H1 & H2 & _). by split.
Qed.

Lemma settles_throw {A} e : settles (throw e : M (Volume B) FsError A).
Proof. intros v Hv. by apply wp_throw. Qed.

Lemma settles_ret {A} (a : A) : settles (ret a : M (Volume B) FsError A).
Proof. intros v Hv. by apply wp_ret. Qed.

(** After an error that is not the device's the invariant still holds. *)
Lemma bad_inv v e : vol_bad l D v e -> e <> Io -> vol_inv_with l D any v.
Proof. intros (Hk & Hd & Hw & Hok & Hf) He. split; [|done]. split; [done|]. split; [split; auto|done]. Qed.

Lemma vsafe_gets {A} (f : Volume B -> A) : vsafe (gets f) (fun _ => True).
Proof. by apply safe_gets. Qed.

Lemma vsafe_close_under path : vsafe (modify (close_under path)) (fun _ => True).
Proof. apply vsafe_keep; [done| |done]. intros v Hk. by apply close_under_kept. Qed.

(** ** Looking up and reading *)

Lemma settles_lookup dir name : settles (lookup_entry dir name).
Proof.
  eapply settles_run. eapply safe_bind; [by eapply vsafe_dir_cluster|]. intros a _.
  apply safe_if; intros _; [apply vsafe_throw|].
  eapply safe_bind; [by eapply vsafe_find_or|]. intros f _.
  eapply (safe_bind _ _ _ _ (fun _ => True)); [|intros [] _; by apply (safe_ret _ _ _ (fun _ => True))].
  apply safe_if; intros _; [|by apply safe_ret]. intros v Hv. apply wp_bind, wp_try.
  unfold subdir_cluster, vlayout. apply wp_bind, wp_gets.
  assert (layout (vfat v) = l) as -> by (destruct Hv as [[[] _] _]; by apply fat_layout).
  destruct (is_cluster l (cluster_of (f_raw f))) eqn:E; [|by apply wp_throw, wp_ret].
  apply wp_ret. by apply vsafe_remember.
Qed.

Lemma vsafe_scan_all {A R'} first (visit : A -> Item -> A + R') done_ a :
  vsafe (on (scan_items l first (fun a item => ret (visit a item)) done_ a)) (fun _ => True).
Proof.
  eapply vsafe_on, csafe_scan_items with (I := fun _ _ => True); [exact Hwf|done| |done].
  intros a' item i j _ _ _ _. apply safe_ret. by destruct (visit a' item).
Qed.

Lemma settles_list_dir dir : settles (list_dir dir).
Proof.
  eapply settles_run. eapply safe_bind; [by eapply vsafe_dir_cluster|]. intros a _.
  eapply safe_bind; [apply vsafe_vlayout|]. intros ? ->. apply vsafe_scan_all.
Qed.

Lemma settles_read path offset n : 0 <= offset -> 0 <= n -> settles (read path offset n).
Proof.
  intros Ho Hn. pose proof (cb_range l size Hwf) as Hcb.
  eapply (settles_run _ (fun _ => True)). eapply safe_bind; [by eapply vsafe_handle|]. intros slot _.
  eapply safe_bind; [apply vsafe_opened|]. intros o Hok. pose proof (open_size _ Hok) as Hs. unfold is_u32, u32_max in Hs.
  apply safe_if; intros E; [by apply safe_ret|]. set (want := Z.min (o_size o - offset) n) in *.
  assert (0 < want /\ offset + want <= o_size o) as [Hw1 Hw2] by (unfold want; lia). clearbody want.
  eapply safe_bind; [apply vsafe_cluster_bytes|]. intros ? ->.
  eapply (safe_bind _ _ _ _ (fun cb => cb = cluster_bytes l)); [apply safe_divisor; [lia|done]|]. intros ? ->.
  apply (safe_loop _ _ (fun buf => len buf <= want) (fun buf => Z.to_nat (want - len buf)) _ (fun _ => True)); [|cbn; lia|cbn; lia].
  intros buf Hbuf. apply safe_if; intros E2; [|by apply safe_ret].
  eapply safe_bind; [apply vsafe_checked; unfold u64_max; lia|]. intros ? ->. set (pos := offset + len buf) in *.
  assert (0 <= pos / cluster_bytes l <= 8388608) as Hidx.
  { split; [apply Z.div_pos; lia|]. transitivity (pos / 512); [apply Z.div_le_compat_l; lia|unfold pos; lia]. }
  assert (0 <= pos `mod` cluster_bytes l < cluster_bytes l) as Hwithin by (apply Z.mod_pos_bound; lia).
  eapply (safe_bind _ _ _ _ (fun x => x = pos / cluster_bytes l)).
  { rewrite (proj2 (Z.leb_le _ _)) by (unfold u32_max; lia). by apply safe_ret. }
  intros ? ->. eapply safe_bind; [eapply vsafe_run_at; [exact Hwf|unfold u32_max; lia|done|lia]|].
  intros [a k] Hk. cbn [snd] in Hk. eapply safe_bind; [by eapply vsafe_offset_of|]. intros base [Hb0 Hb1].
  eapply safe_bind; [apply vsafe_checked; unfold u64_max, u32_max in *; lia|]. intros ? ->.
  eapply safe_bind; [apply vsafe_vread; lia|]. intros part [_ Hpl]. apply safe_ret. rewrite length_app. lia.
Qed.

(** ** Writing and truncating *)

Lemma as_u32_ok x : is_u32 (as_u32 x).
Proof. unfold is_u32, as_u32, u32_max. lia. Qed.

Lemma settles_write path offset data : 0 <= offset -> is_bytes data -> settles (write path offset data).
Proof.
  intros Ho Hb v Hv. unfold write, checked_add64. destruct (offset + len data <=? u64_max) eqn:E1; [|by apply wp_throw].
  apply wp_bind, wp_ret. set (stop := offset + len data) in *.
  destruct (MAX_FILE <? stop) eqn:E2; [by apply wp_throw|].
  destruct (bool_decide (data = [])); [by apply wp_ret|]. revert v Hv. fold (settles (A := Z)). unfold MAX_FILE in E2.
  pose proof (cb_range l size Hwf) as Hcb.
  eapply (settles_run _ (fun _ => True)). eapply safe_bind; [by eapply vsafe_handle|]. intros slot _.
  eapply safe_bind; [apply vsafe_opened|]. intros o Hok. pose proof (open_size _ Hok) as Hs. unfold is_u32 in Hs.
  eapply safe_bind; [apply vsafe_cluster_bytes|]. intros ? ->.
  eapply (safe_bind _ _ _ _ (fun cb => cb = cluster_bytes l)); [apply safe_divisor; [lia|done]|]. intros ? ->.
  eapply (safe_bind _ _ _ _ (fun s => offset <= s <= stop)).
  { apply safe_if; intros _; [|apply safe_ret; lia].
    eapply safe_bind; [eapply vsafe_room; [exact Hwf|apply Hok]|]. intros reach Hr.
    apply safe_if; intros E; [apply vsafe_throw|apply safe_ret; lia]. }
  intros stop' Hstop. eapply safe_bind; [apply vsafe_checked; unfold u64_max, u32_max in *; lia|]. intros ? ->.
  eapply (safe_bind _ _ _ _ (fun part => is_bytes part /\ len part = stop' - offset)).
  { apply vsafe_ok_or. intros part Hp. split; [by eapply get_range_Forall|]. apply get_range_length in Hp. lia. }
  intros part [Hpb Hpl]. eapply safe_bind; [apply vsafe_begin_write|]. intros [] _.
  eapply (safe_bind _ _ _ _ (fun _ => True)).
  { apply safe_if; intros E; [|by apply safe_ret]. eapply vsafe_fill; [exact Hwf|done|lia|cbn; lia|cbn; lia]. }
  intros [] _. eapply safe_bind; [eapply vsafe_fill; [exact Hwf|done|lia|cbn; lia|cbn; lia]|]. intros [] _.
  eapply safe_bind; [apply vsafe_update_entry, as_u32_ok|]. intros [] _. by apply safe_ret.
Qed.

Lemma settles_truncate path n : 0 <= n -> settles (truncate path n).
Proof.
  intros Hn. unfold truncate. destruct (MAX_FILE <? n) eqn:E2; [apply settles_throw|]. unfold MAX_FILE in E2.
  pose proof (cb_range l size Hwf) as Hcb.
  eapply (settles_run _ (fun _ => True)). eapply safe_bind; [by eapply vsafe_handle|]. intros slot _.
  eapply safe_bind; [apply vsafe_opened|]. intros o Hok.
  pose proof (open_size _ Hok) as Hs. pose proof (open_clusters _ Hok) as Hc. unfold is_u32 in Hs.
  eapply safe_bind; [apply vsafe_cluster_bytes|]. intros ? ->.
  eapply (safe_bind _ _ _ _ (fun cb => cb = cluster_bytes l)); [apply safe_divisor; [lia|done]|]. intros ? ->.
  set (keep := as_u32 (div_ceil n (cluster_bytes l))). pose proof (as_u32_ok (div_ceil n (cluster_bytes l)) : is_u32 keep) as Hkeep.
  clearbody keep. apply safe_if; intros Es.
  - eapply (safe_bind _ _ _ _ (fun _ => True)).
    { apply safe_if; intros _; [|by apply safe_ret].
      eapply safe_bind; [by eapply vsafe_room|]. intros reach Hr. apply safe_if; intros _; [apply vsafe_throw|by apply safe_ret]. }
    intros [] _. eapply safe_bind; [apply vsafe_begin_write|]. intros [] _.
    eapply safe_bind; [eapply vsafe_fill; [exact Hwf|done|lia|cbn; lia|cbn; lia]|]. intros [] _.
    apply vsafe_update_entry, as_u32_ok.
  - eapply safe_bind; [apply vsafe_begin_write|]. intros [] _. apply safe_if; intros Ek; [apply vsafe_update_entry, as_u32_ok|].
    unfold is_u32 in *. eapply (safe_bind _ _ _ _ (fun _ => True)).
    { apply safe_if; intros E0; [|by apply safe_ret].
      eapply safe_bind; [apply vsafe_cluster_at; lia|]. intros. by apply safe_ret. }
    intros new_last _. eapply safe_bind; [apply vsafe_vlayout|]. intros ? ->.
    eapply (safe_bind _ _ _ _ (fun _ => True)).
    { destruct new_last as [a|].
      - eapply safe_bind; [apply vsafe_on, csafe_next|]. intros x _. by apply vsafe_ok_or.
      - eapply safe_bind; [apply vsafe_opened|]. intros. by apply safe_ret. }
    intros rest _. eapply (safe_bind _ _ _ _ (fun _ => True)).
    { apply safe_if; intros _; [|by apply safe_ret]. apply vsafe_update_opened; [|done]. intros o' []. by constructor. }
    intros [] _. eapply safe_bind; [apply vsafe_update_entry, as_u32_ok|]. intros [] _.
    eapply (safe_bind _ _ _ _ (fun _ => True)).
    { destruct new_last as [a|]; [|by apply safe_ret].
      eapply safe_bind; [by apply vsafe_vset|]. intros [] _. apply vsafe_vflush. }
    intros [] _. eapply safe_bind; [apply vsafe_on_table, fsafe_free_chain; lia|]. intros [] _.
    eapply safe_bind; [apply vsafe_vflush|]. intros [] _.
    apply vsafe_update_opened; [|done]. intros o' []. by constructor.
Qed.

(** ** Adding entries *)

Lemma vsafe_grow last slots : 0 <= slots -> vsafe (grow last slots) (fun _ => True).
Proof.
  intros Hs. pose proof (cb_range l size Hwf) as Hcb.
  eapply safe_bind; [apply vsafe_cluster_bytes|]. intros ? ->.
  assert (as_u32 (cluster_bytes l / ENTRY_BYTES) = cluster_bytes l / 32) as -> by (unfold as_u32, ENTRY_BYTES; rewrite Z.mod_small; lia).
  eapply (safe_bind _ _ _ _ (fun per => per = cluster_bytes l / 32)); [apply safe_divisor; [lia|done]|]. intros ? ->.
  pose proof (div_ceil_spec slots (cluster_bytes l / 32)).
  eapply safe_bind; [apply vsafe_on_table, fsafe_find_free; lia|]. intros found [Hf _].
  apply safe_if; intros _; [apply vsafe_throw|].
  eapply safe_bind.
  { apply safe_mapM. intros a _. eapply safe_bind; [by eapply vsafe_offset_of|]. intros at_ [Hat _].
    apply vsafe_vwrite; [done|]. by apply replicate_bytes. }
  intros [] _. eapply safe_bind; [apply vsafe_vflush|]. intros [] _. by eapply vsafe_link_new.
Qed.

Lemma vsafe_write_entries ats entries :
  nonneg ats -> Forall is_bytes entries -> vsafe (write_entries ats entries) (fun _ => True).
Proof.
  intros Ha. revert entries. induction Ha as [|a ats Ha Hats IH]; intros entries He; [by apply safe_ret|].
  cbn [write_entries]. destruct He as [|e entries He Hes]; [by apply safe_ret|].
  eapply safe_bind; [by apply vsafe_vwrite|]. intros [] _. by apply IH.
Qed.

Lemma vsafe_marks ats x : nonneg ats -> is_u8 x -> vsafe (mapM_ (fun at_ => vwrite at_ [x]) ats) (fun _ => True).
Proof.
  intros Ha Hx. apply safe_mapM. intros a Hin. unfold nonneg in Ha. rewrite Forall_forall in Ha.
  apply vsafe_vwrite; [by apply Ha|]. by apply Forall_singleton.
Qed.

Lemma place_at_end_range sv i count : survey_ok i sv -> 0 <= count ->
  0 <= (place_at_end sv count).1 /\ 0 <= (place_at_end sv count).2.
Proof.
  intros [] Hc. unfold place_at_end. destruct (count <=? SLOTS_PER_SECTOR); [cbn; lia|].
  destruct ((_ =? _) && _); cbn [fst snd]; unfold saturating_sub; lia.
Qed.

Lemma place_range sv i count : survey_ok i sv -> 0 <= count -> 0 <= (place sv count).1 /\ 0 <= (place sv count).2.
Proof.
  intros Hv Hc. pose proof (place_at_end_range sv i count Hv Hc) as Hend. destruct Hv. unfold place.
  assert (Hx : forall o, index_ok o -> forall x, o = Some x -> 0 <= x) by (intros o Ho x E; specialize (Ho x E); lia).
  destruct (count <=? 1).
  { destruct (v_first_free sv) as [x|] eqn:E; [|done]. cbn. pose proof (Hx _ sv_free x eq_refl). lia. }
  destruct (count <=? v_run_wanted sv); [|done].
  destruct (v_first_sector_run sv) as [x|] eqn:E1; [cbn; pose proof (Hx _ sv_sector_run x eq_refl); lia|].
  destruct (SLOTS_PER_SECTOR <? count); [|done].
  destruct (v_first_run sv) as [x|] eqn:E2; [|done]. cbn. pose proof (Hx _ sv_run x eq_refl). lia.
Qed.

Lemma vsafe_add_entry dir name template except :
  name_fits name -> is_bytes template -> vsafe (add_entry dir name template except) nonneg.
Proof.
  intros Hname Ht. unfold name_fits, MAX_UNITS in Hname. pose proof (cb_range l size Hwf) as Hcb. unfold add_entry.
  pose proof (div_ceil_spec (len (encode_utf16 name)) UNITS_PER_ENTRY ltac:(lia) ltac:(unfold UNITS_PER_ENTRY; lia)) as Hdc.
  set (us := encode_utf16 name) in *. unfold UNITS_PER_ENTRY in *.
  set (slots := as_u32 (div_ceil (len us) 13)).
  assert (0 <= slots <= 20) as Hslots by (unfold slots, as_u32; rewrite Z.mod_small; lia). clearbody slots.
  eapply safe_bind; [apply vsafe_vlayout|]. intros ? ->.
  eapply safe_bind; [apply vsafe_checked; unfold u32_max; lia|]. intros ? ->.
  eapply safe_bind; [by eapply vsafe_on, csafe_survey|]. intros sv Hsv. destruct (v_found sv); [apply vsafe_throw|].
  eapply (safe_bind _ _ _ _ (fun r => is_bytes r.1)).
  { apply vsafe_ok_or. intros [short long] Hsn. by apply short_name_bytes in Hsn as [? _]. }
  intros [short long] Hshort. cbn [fst] in Hshort. set (count := if long then slots + 1 else 1).
  assert (1 <= count <= 21) as Hcount by (unfold count; destruct long; lia). clearbody count.
  pose proof (place_range sv MAX_ENTRIES count Hsv ltac:(lia)) as [Hstart Hmissing].
  destruct (place sv count) as [start missing]. cbn [fst snd] in *.
  apply safe_if; intros Emax; [apply vsafe_throw|]. unfold MAX_ENTRIES in Emax.
  assert (as_u32 (cluster_bytes l / ENTRY_BYTES) = cluster_bytes l / 32) as Hper by (unfold as_u32, ENTRY_BYTES; rewrite Z.mod_small; lia).
  eapply (safe_bind _ _ _ _ (fun _ => True)).
  { apply safe_if; intros _; [|by apply safe_ret]. eapply safe_bind; [apply vsafe_on_table, fsafe_free_count|]. intros k _.
    eapply safe_bind; [apply vsafe_cluster_bytes|]. intros ? ->. rewrite Hper.
    eapply safe_bind; [by apply (safe_divisor _ _ _ (fun _ => True)); [lia|]|]. intros per _.
    apply safe_if; intros _; [apply vsafe_throw|by apply safe_ret]. }
  intros [] _. eapply safe_bind; [apply vsafe_begin_write|]. intros [] _.
  eapply (safe_bind _ _ _ _ (fun _ => True)); [apply safe_if; intros _; [by apply vsafe_grow|by apply safe_ret]|]. intros [] _.
  eapply (safe_bind _ _ _ _ (fun _ => True)).
  { destruct (v_end sv) as [stop|]; [|by apply safe_ret]. apply safe_if; intros _; [|by apply safe_ret].
    eapply safe_bind; [by eapply vsafe_on, csafe_positions|]. intros ats Hats.
    eapply safe_bind; [by apply vsafe_marks|]. intros [] _. apply vsafe_vflush. }
  intros [] _. eapply safe_bind; [apply vsafe_checked; unfold u32_max; lia|]. intros ? ->.
  eapply safe_bind; [by eapply vsafe_on, csafe_positions|]. intros ats Hats.
  apply safe_if; intros _; [apply vsafe_throw|].
  eapply safe_bind.
  { apply vsafe_write_entries; [done|]. apply Forall_app. split.
    - destruct long; [apply long_entries_bytes, checksum_u8|constructor].
    - apply Forall_singleton. by apply set_short_bytes. }
  intros [] _. eapply (safe_bind _ _ _ _ (fun _ => True)).
  { destruct (v_end sv) as [stop|]; [|by apply safe_ret].
    eapply safe_bind; [apply vsafe_checked; unfold u32_max; lia|]. intros ? ->.
    apply safe_if; intros _; [|by apply safe_ret]. destruct (ats !! Z.to_nat count) as [at_|] eqn:Eat; [|by apply safe_ret].
    pose proof (Forall_lookup_1 _ _ _ _ Hats Eat) as Hat. cbn in Hat.
    eapply safe_bind; [apply vsafe_vread; lia|]. intros first _. apply safe_if; intros _; [|by apply safe_ret].
    apply vsafe_vwrite; [done|]. by apply Forall_singleton. }
  intros [] _. apply safe_ret. by apply Forall_take.
Qed.

(** A name is checked before anything else is done with it. *)
Lemma settles_checked_name {A} name (k : list Z -> M (Volume B) FsError A) :
  (forall name, name_fits name -> settles (k name)) -> settles (let! name := checked_name name in k name).
Proof.
  intros Hk v Hv. unfold checked_name. apply wp_bind. destruct (check name) as [name'|e|w] eqn:E.
  - apply wp_ret. eapply Hk; [by eapply check_fits|done].
  - by apply wp_throw.
  - unfold check in E. repeat case_match; done.
Qed.

Lemma settles_create dir name : settles (create dir name).
Proof.
  apply settles_checked_name. clear name. intros name Hname. eapply (settles_run _ (fun _ => True)).
  eapply safe_bind; [by eapply vsafe_dir_cluster|]. intros a _.
  eapply safe_bind; [apply vsafe_now|]. intros t _. cbn zeta.
  eapply safe_bind; [apply vsafe_add_entry; [done|]|].
  { apply raw_new_bytes; [by apply replicate_bytes|done|apply encode_hundredths]. }
  intros ats _. eapply safe_bind; [apply vsafe_vflush|]. intros [] _. by apply safe_ret.
Qed.

Lemma new_directory_bytes own parent t : is_bytes (new_directory l own parent (encode t)).
Proof.
  unfold new_directory.
  assert (Hraw : forall s c, is_bytes (raw_new (str s) ATTR_DIRECTORY c 0 (encode t))).
  { intros s c. apply raw_new_bytes; [apply str_bytes|done|apply encode_hundredths]. }
  repeat case_match; repeat (apply splice_bytes; [|apply Hraw]); by apply replicate_bytes.
Qed.

Lemma settles_mkdir dir name : settles (mkdir dir name).
Proof.
  apply settles_checked_name. clear name. intros name Hname. eapply (settles_run _ (fun _ => True)).
  eapply safe_bind; [by eapply vsafe_dir_cluster|]. intros parent _.
  eapply safe_bind; [by eapply vsafe_vfind|]. intros [f|] _; [apply vsafe_throw|].
  eapply safe_bind; [apply vsafe_on_table, fsafe_free_count|]. intros n _. apply safe_if; intros _; [apply vsafe_throw|].
  eapply safe_bind; [apply vsafe_begin_write|]. intros [] _.
  eapply safe_bind; [apply vsafe_now|]. intros t _. cbn zeta.
  eapply safe_bind; [apply vsafe_on_table, fsafe_find_free; lia|]. intros found [Hf _].
  eapply (safe_bind _ _ _ _ (fun own => is_cluster l own = true)).
  { apply vsafe_ok_or. intros own Hown. destruct found; [done|]. cbn in Hown. simplify_eq. by inversion Hf. }
  intros own Hown. eapply safe_bind; [apply vsafe_vlayout|]. intros ? ->.
  eapply safe_bind; [by eapply vsafe_offset_of|]. intros at_ [Hat _].
  eapply safe_bind; [apply vsafe_vwrite; [done|apply new_directory_bytes]|]. intros [] _.
  eapply safe_bind; [apply vsafe_vflush|]. intros [] _.
  eapply safe_bind; [eapply vsafe_link_new; [exact Hwf|by apply Forall_singleton]|]. intros [] _.
  intros v Hv. apply wp_bind, wp_try.
  eapply wp_mono; [apply vsafe_add_entry; [done| |exact Hv]| |].
  { apply raw_new_bytes; [by apply replicate_bytes|done|apply encode_hundredths]. }
  - intros v1 ats [Hv1 _]. revert v1 Hv1.
    enough (vsafe (vflush ;;; ret (mkEntry name true 0 (modified (raw_new (replicate 11 SPACE) ATTR_DIRECTORY own 0 (encode t)))))
              (fun _ => True)) as H by exact H.
    eapply safe_bind; [apply vsafe_vflush|]. intros [] _. by apply safe_ret.
  - intros v1 e Hbad. apply wp_bind, wp_gets. destruct (negb (has_dirty (cache v1)) && negb (bool_decide (e = Io))) eqn:E.
    + apply andb_true_iff in E as [_ E]. apply negb_true_iff, bool_decide_eq_false in E.
      assert (vol_inv_with l D any v1) as Hv1.
      { by apply (bad_inv _ e). }
      revert v1 Hbad Hv1.
      enough (vsafe ((vset own FREE ;;; vflush ;;; on_table (on_fat (gave 1))) ;;; throw e)
                (fun _ : Entry => True)) as H by (intros v1 _ Hv1; by apply H).
      eapply (safe_bind _ _ _ _ (fun _ => True)); [|intros [] _; apply vsafe_throw].
      eapply safe_bind; [by apply vsafe_vset|]. intros [] _. eapply safe_bind; [apply vsafe_vflush|]. intros [] _.
      apply vsafe_on_table, fsafe_gave. lia.
    + apply wp_bind, wp_ret. by apply wp_throw.
Qed.

(** ** Removing and renaming *)

Lemma vsafe_owned_chain first :
  vsafe (owned_chain first) (fun o => forall a n, o = Some (a, n) -> 0 <= n <= clusters l).
Proof.
  eapply safe_bind; [apply vsafe_vlayout|]. intros ? ->. apply safe_if; intros _; [by apply safe_ret|].
  intros v Hv. apply wp_bind, wp_try. eapply wp_mono; [apply (vsafe_on l D any), Hv; apply csafe_walk| |].
  - intros v1 [n z] [Hv1 Hn]. apply wp_ret. split; [done|]. cbn in Hn. intros a m [= <- <-]. lia.
  - intros v1 e Hbad. assert (e = Corrupt -> vol_inv_with l D any v1) as Hc.
    { intros ->. by apply (bad_inv _ Corrupt). }
    destruct e; try (by apply wp_throw). apply wp_ret. split; [auto|done].
Qed.

Lemma found_positions_nonneg f : found_ok f -> nonneg (found_positions f).
Proof. intros (_ & Hat & Hl). apply Forall_app. split; [by apply Forall_take|by apply Forall_singleton]. Qed.

Lemma vsafe_mark_free f : found_ok f -> vsafe (mark_free f) (fun _ => True).
Proof.
  intros Hf. eapply safe_bind; [apply vsafe_marks; [|done]|].
  { apply Forall_filtered, found_positions_nonneg, Hf. }
  intros [] _. eapply (safe_bind _ _ _ _ (fun _ => True)).
  { apply safe_if; intros _; [apply vsafe_vflush|by apply safe_ret]. }
  intros [] _. apply vsafe_vwrite; [apply Hf|by apply Forall_singleton].
Qed.

Lemma vsafe_free_owned o :
  (forall a n, o = Some (a, n) -> 0 <= n <= clusters l) -> vsafe (free_owned o) (fun _ => True).
Proof.
  intros Ho. destruct o as [[a n]|]; [|by apply safe_ret]. pose proof (Ho a n eq_refl) as Hn.
  pose proof (wf_clusters _ _ Hwf) as Hc. unfold MAX_CLUSTERS in Hc.
  eapply safe_bind; [apply vsafe_on_table, fsafe_free_chain; unfold u32_max; lia|]. intros [] _. apply vsafe_vflush.
Qed.

Lemma vsafe_holds_entries d first : vsafe (holds_entries d first) (fun _ => True).
Proof.
  eapply safe_bind; [apply vsafe_vlayout|]. intros ? ->. apply safe_if; intros _; [|by apply safe_ret].
  eapply safe_bind; [by eapply vsafe_on, csafe_is_empty|]. intros. by apply safe_ret.
Qed.

Lemma settles_remove dir name want_dir : settles (remove dir name want_dir).
Proof.
  eapply settles_run. eapply safe_bind; [by eapply vsafe_dir_cluster|]. intros parent _.
  eapply safe_bind; [by eapply vsafe_find_or|]. intros f Hf. apply safe_if; intros _; [apply vsafe_throw|].
  eapply safe_bind; [apply vsafe_holds_entries|]. intros full _. apply safe_if; intros _; [apply vsafe_throw|].
  eapply safe_bind; [apply vsafe_owned_chain|]. intros chain Hchain.
  eapply safe_bind; [apply vsafe_close_under|]. intros [] _.
  eapply safe_bind; [apply vsafe_begin_write|]. intros [] _.
  eapply safe_bind; [by apply vsafe_mark_free|]. intros [] _.
  eapply safe_bind; [apply vsafe_vflush|]. intros [] _. by apply vsafe_free_owned.
Qed.

Lemma vsafe_dotdot first : vsafe (dotdot first) (fun r => 0 <= r.1 /\ is_bytes r.2).
Proof.
  pose proof (cb_range l size Hwf) as Hcb. unfold dotdot, ENTRY_BYTES.
  eapply safe_bind; [by eapply vsafe_offset_of|]. intros base [Hb0 Hb1].
  eapply safe_bind; [apply vsafe_checked; unfold u64_max, u32_max in *; lia|]. intros ? ->.
  eapply safe_bind; [apply vsafe_vread; lia|]. intros raw [Hraw _]. apply safe_if; intros _; [apply vsafe_throw|].
  apply safe_ret. cbn. split; [lia|done].
Qed.

Lemma vsafe_point_dotdot first parent : vsafe (point_dotdot first parent) (fun _ => True).
Proof.
  eapply safe_bind; [apply vsafe_dotdot|]. intros [at_ raw] [Hat Hraw]. cbn [fst snd] in *.
  eapply safe_bind; [apply vsafe_vlayout|]. intros ? ->.
  eapply safe_bind; [apply vsafe_vwrite; [done|by apply set_cluster_bytes]|]. intros [] _. apply vsafe_vflush.
Qed.

Lemma vsafe_flush_if (b : bool) : vsafe (if b then vflush else ret tt) (fun _ => True).
Proof. apply safe_if; intros _; [apply vsafe_vflush|by apply safe_ret]. Qed.

Lemma vsafe_point_if (b : bool) first parent :
  vsafe (if b then point_dotdot first parent else ret tt) (fun _ => True).
Proof. apply safe_if; intros _; [apply vsafe_point_dotdot|by apply safe_ret]. Qed.

Lemma vsafe_rename_respell source path a name :
  found_ok source -> name_fits name -> vsafe (rename_respell source path a name) (fun _ => True).
Proof.
  intros Hs Hname. apply safe_if; intros _; [by apply safe_ret|].
  eapply safe_bind; [apply vsafe_close_under|]. intros [] _.
  eapply safe_bind; [apply vsafe_add_entry; [done|apply Hs]|]. intros ats _.
  eapply safe_bind; [apply vsafe_flush_if|]. intros [] _.
  eapply safe_bind; [by apply vsafe_mark_free|]. intros [] _.
  eapply safe_bind; [apply vsafe_vflush|]. intros [] _. by apply safe_ret.
Qed.

Lemma vsafe_rename_over source target path to_dir a moves :
  found_ok source -> found_ok target -> vsafe (rename_over source target path to_dir a moves) (fun _ => True).
Proof.
  intros Hs Ht. unfold rename_over. apply safe_if; intros _; [apply vsafe_throw|]. apply safe_if; intros _; [apply vsafe_throw|].
  eapply safe_bind; [apply vsafe_holds_entries|]. intros full _. apply safe_if; intros _; [apply vsafe_throw|].
  eapply safe_bind; [apply vsafe_owned_chain|]. intros chain Hchain.
  eapply safe_bind; [apply vsafe_close_under|]. intros [] _.
  eapply safe_bind; [apply vsafe_close_under|]. intros [] _.
  eapply safe_bind; [apply vsafe_begin_write|]. intros [] _.
  eapply safe_bind; [apply vsafe_vwrite; [apply Ht|apply take_contents_bytes; [apply Ht|apply Hs]]|]. intros [] _.
  eapply safe_bind; [apply vsafe_flush_if|]. intros [] _.
  eapply safe_bind; [apply vsafe_point_if|]. intros [] _.
  eapply safe_bind; [by apply vsafe_mark_free|]. intros [] _.
  eapply safe_bind; [apply vsafe_vflush|]. intros [] _.
  eapply safe_bind; [by apply vsafe_free_owned|]. intros [] _. by apply safe_ret.
Qed.

Lemma vsafe_rename_new source path a name moves :
  found_ok source -> name_fits name -> vsafe (rename_new source path a name moves) (fun _ => True).
Proof.
  intros Hs Hname. eapply safe_bind; [apply vsafe_close_under|]. intros [] _.
  eapply safe_bind; [apply vsafe_add_entry; [done|apply Hs]|]. intros ats _.
  eapply safe_bind; [apply vsafe_flush_if|]. intros [] _.
  eapply safe_bind; [apply vsafe_point_if|]. intros [] _.
  eapply safe_bind; [by apply vsafe_mark_free|]. intros [] _.
  eapply safe_bind; [apply vsafe_vflush|]. intros [] _. by apply safe_ret.
Qed.

Lemma settles_rename from_dir from_name to_dir to_name : settles (rename from_dir from_name to_dir to_name).
Proof.
  apply settles_checked_name. clear to_name. intros to_name Hname. eapply (settles_run _ (fun _ => True)).
  eapply safe_bind; [by eapply vsafe_dir_cluster|]. intros from _.
  eapply safe_bind; [by eapply vsafe_find_or|]. intros source Hs.
  eapply safe_bind; [by eapply vsafe_dir_cluster|]. intros to _. cbn zeta.
  eapply (safe_bind _ _ _ _ (fun _ => True)).
  { apply safe_if; intros _; [|by apply safe_ret]. apply safe_if; intros _; [apply vsafe_throw|].
    eapply safe_bind; [by eapply vsafe_path_clusters|]. intros along _.
    apply safe_if; intros _; [apply vsafe_throw|by apply safe_ret]. }
  intros [] _. eapply (safe_bind _ _ _ _ (fun _ => True)).
  { apply safe_if; intros _; [|by apply safe_ret].
    eapply safe_bind; [apply vsafe_subdir_cluster|]. intros first _.
    eapply safe_bind; [apply vsafe_dotdot|]. intros r _. by apply safe_ret. }
  intros [] _. eapply safe_bind; [by eapply vsafe_vfind|]. intros [target|] Ht.
  - specialize (Ht target eq_refl). apply safe_if; intros _; [by apply vsafe_rename_respell|by apply vsafe_rename_over].
  - by apply vsafe_rename_new.
Qed.

(** ** The rest *)

Lemma settles_sync : settles sync.
Proof.
  eapply (settles_run _ (fun _ => True)). eapply safe_bind; [apply vsafe_gets|]. intros m _.
  apply safe_if; intros _; [by apply safe_ret|].
  eapply safe_bind; [apply vsafe_on_table, fsafe_free_count|]. intros k _.
  eapply safe_bind; [apply vsafe_on_table, fsafe_next_free_hint|]. intros nx _.
  eapply safe_bind; [apply vsafe_vlayout|]. intros ? ->.
  eapply (safe_bind _ _ _ _ (fun _ => True)).
  { destruct (fsinfo l) as [s|] eqn:Es; [|by apply safe_ret]. pose proof (wf_fsinfo _ _ Hwf s Es).
    pose proof (wf_fat_start _ _ Hwf). unfold BLOCK, u16_max in *.
    eapply safe_bind; [apply vsafe_checked; unfold u64_max; lia|]. intros ? ->.
    eapply safe_bind; [apply vsafe_vread; lia|]. intros bytes [Hb _].
    destruct (fsinfo_hints bytes) as [hints|]; [|by apply safe_ret]. apply safe_if; intros _; [|by apply safe_ret].
    eapply safe_bind; [apply vsafe_vwrite; [lia|unfold set_fsinfo_hints; auto with bytes]|]. intros [] _. apply vsafe_vflush. }
  intros [] _. eapply safe_bind; [apply vsafe_gets|]. intros d _. apply safe_if; intros _; [|by apply safe_ret].
  eapply safe_bind; [apply vsafe_on, csafe_set_clean|]. intros x _.
  eapply safe_bind; [apply vsafe_set_linux_state|]. intros [] _.
  eapply safe_bind; [apply vsafe_vflush|]. intros [] _.
  apply vsafe_keep; [done| |done]. intros v []. by constructor.
Qed.

Lemma settles_stats : settles stats.
Proof.
  eapply (settles_run _ (fun _ => True)). eapply safe_bind; [apply vsafe_vlayout|]. intros ? ->.
  eapply safe_bind; [apply vsafe_on_table, fsafe_free_count|]. intros k _. by apply safe_ret.
Qed.

Lemma settles_boot_file : settles boot_file.
Proof. eapply settles_run. eapply safe_bind; [apply vsafe_vlayout|]. intros ? ->. apply vsafe_scan_all. Qed.

Lemma vsafe_clusters_loop n a out : vsafe (clusters_loop l n a out) (fun _ => True).
Proof.
  revert a out. induction n as [|n IH]; intros a out; [by apply safe_ret|]. cbn [clusters_loop].
  destruct n as [|n]; [by apply safe_ret|].
  eapply safe_bind; [apply vsafe_on, csafe_next|]. intros x _.
  eapply safe_bind; [by apply (vsafe_ok_or _ _ _ _ _ (fun _ => True))|]. intros y _. apply IH.
Qed.

Lemma settles_clusters_of dir name : settles (clusters_of dir name).
Proof.
  eapply settles_run. eapply safe_bind; [by eapply vsafe_dir_cluster|]. intros parent _.
  eapply safe_bind; [by eapply vsafe_find_or|]. intros f _.
  apply (safe_if _ _ _ _ _ (fun _ => True)); intros _; [by apply safe_ret|].
  eapply safe_bind; [apply vsafe_vlayout|]. intros ? ->.
  eapply safe_bind; [apply vsafe_on, csafe_walk|]. intros [n z] _. apply vsafe_clusters_loop.
Qed.
End ops.
