(* ===== verification/Mounted.v ===== *)
(** * A mounted volume and the requests it serves

    What /data asks of the volume, one request at a time, and what holds of
    every volume that can be reached from a mount: the theorems about the
    volume as a whole. *)

From S2P Require Import Prelude Safe Bytes Boot BootSpec Time Cache CacheSpec CacheFlush CacheIo CacheWrite Table TableSpec Chains Scans SafeDir Name Dir RawSpec LongNames Volume SafeVolume SafeFiles Ops SafeOps.

(** The public methods of [Volume]. *)
Inductive request :=
| RAllowWrites
| RLookup (dir name : list Z)
| RList (dir : list Z)
| RRead (path : list Z) (offset n : Z)
| RWrite (path : list Z) (offset : Z) (data : list Z)
| RTruncate (path : list Z) (n : Z)
| RCreate (dir name : list Z)
| RMkdir (dir name : list Z)
| RRemove (dir name : list Z) (want_dir : bool)
| RRename (from_dir from_name to_dir to_name : list Z)
| RFsync (path : list Z)
| RSync
| RStats
| RBootFile
| RClustersOf (dir name : list Z).

#[global] Instance request_eq_dec : EqDecision request.
Proof. solve_decision. Defined.

(** Positions and lengths are unsigned, and data is bytes. *)
Definition request_ok (r : request) : Prop :=
  match r with
  | RRead _ offset n => 0 <= offset /\ 0 <= n
  | RWrite _ offset data => 0 <= offset /\ is_bytes data
  | RTruncate _ n => 0 <= n
  | _ => True
  end.

Section mounted.
Context {B : Type} `{!Blocks B}.

(** The volume after a request, and how it ended. *)
Definition serve (r : request) : M (Volume B) FsError unit :=
  match r with
  | RAllowWrites => modify allow_writes
  | RLookup dir name => lookup_entry dir name ;;; ret tt
  | RList dir => list_dir dir ;;; ret tt
  | RRead path offset n => read path offset n ;;; ret tt
  | RWrite path offset data => write path offset data ;;; ret tt
  | RTruncate path n => truncate path n
  | RCreate dir name => create dir name ;;; ret tt
  | RMkdir dir name => mkdir dir name ;;; ret tt
  | RRemove dir name want_dir => remove dir name want_dir
  | RRename from_dir from_name to_dir to_name => rename from_dir from_name to_dir to_name ;;; ret tt
  | RFsync path => fsync path
  | RSync => sync
  | RStats => stats ;;; ret tt
  | RBootFile => boot_file ;;; ret tt
  | RClustersOf dir name => clusters_of dir name ;;; ret tt
  end.

(** One request served, successfully or not; [allowed] are the requests that
    may come. *)
Inductive step (allowed : request -> Prop) : Volume B -> Volume B -> Prop :=
| step_served r v v' a : allowed r -> request_ok r -> serve r v = (v', Ok a) -> step allowed v v'
| step_failed r v v' e : allowed r -> request_ok r -> serve r v = (v', Err e) -> step allowed v v'.

Definition reachable (allowed : request -> Prop) : Volume B -> Volume B -> Prop := rtc (step allowed).

Context `{!BlocksOk B}.
Context (l : Layout) (size : Z) (Hwf : layout_wf size l).

Lemma settles_bind_ret {A} D (m : M (Volume B) FsError A) :
  settles l D m -> settles l D (m ;;; ret tt).
Proof. intros Hm v Hv. apply wp_bind. eapply wp_mono; [by apply Hm| |done]. intros v' a Hv'. by apply wp_ret. Qed.

(** Every request but the one that allows writes keeps what is known of the
    volume. *)
Lemma serve_settles D r : request_ok r -> r <> RAllowWrites -> settles l D (serve r).
Proof.
  intros Hr Hne. destruct r; cbn [serve request_ok] in *.
  - done.
  - by eapply settles_bind_ret, settles_lookup.
  - by eapply settles_bind_ret, settles_list_dir.
  - destruct Hr. by eapply settles_bind_ret, settles_read.
  - destruct Hr. by eapply settles_bind_ret, settles_write.
  - by eapply settles_truncate.
  - by eapply settles_bind_ret, settles_create.
  - by eapply settles_bind_ret, settles_mkdir.
  - by eapply settles_remove.
  - by eapply settles_bind_ret, settles_rename.
  - eapply settles_run. by apply (safe_ret _ _ _ (fun _ => True)).
  - by eapply settles_sync.
  - by eapply settles_bind_ret, settles_stats.
  - by eapply settles_bind_ret, settles_boot_file.
  - by eapply settles_bind_ret, settles_clusters_of.
Qed.

Lemma allow_writes_rests D v : resting l D v -> resting l (mkImage true (img_content D)) (allow_writes v).
Proof.
  intros [[Hk [[Hok Hw] _]] Hf]. split; [split|].
  - destruct Hk. by constructor.
  - split; [split; [|done]|]; [by destruct Hok|]. split; [done|]. intros Hr. done.
  - exact Hf.
Qed.

Lemma csafe_mount D :
  safe (cinv (B := B) l D) (cbad l D)
    (let! hint :=
       match fsinfo l with
       | Some sector =>
           let! offset := u64 (sector * BLOCK) in
           let! bytes := lift (read_at offset BLOCK) in
           ret (match fsinfo_hints bytes with Some (_, next) => next | None => FSI_UNKNOWN end)
       | None => ret FSI_UNKNOWN
       end in
     let! ok := clean l in
     ret (hint, ok)) (fun _ => True).
Proof.
  eapply (safe_bind _ _ _ _ (fun _ => True)).
  - destruct (fsinfo l) as [s|] eqn:Es; [|by apply safe_ret]. pose proof (wf_fsinfo _ _ Hwf s Es).
    pose proof (wf_fat_start _ _ Hwf). unfold BLOCK, u16_max in *.
    eapply (safe_bind _ _ _ _ (fun x => 0 <= x)); [apply safe_checked; unfold u64_max; lia|]. intros x Hx.
    eapply safe_bind; [apply csafe_read_at; lia|]. intros bytes _. by apply safe_ret.
  - intros hint _. eapply safe_bind; [apply csafe_clean|]. intros ok _. by apply safe_ret.
Qed.

Lemma new_cache_inv (b : B) :
  dev_wf b -> layout_wf (blk_count b) l -> cinv l (mkImage false (content b)) (new_cache b).
Proof.
  intros Hb Hl. split; [split; [|done]|].
  - constructor; cbn; try done; lia.
  - split; [done|]. intros _. split; [|done]. intros x (sl & Hc & _).
    unfold cached, new_cache in Hc. cbn in Hc. by rewrite lookup_empty in Hc.
Qed.
End mounted.

Section mount.
Context {B : Type} `{!Blocks B} `{!BlocksOk B} (l : Layout).

Lemma mount_safe (b : B) clk w : dev_wf b -> layout_wf (blk_count b) l -> mount b l clk <> Stuck w.
Proof.
  intros Hb Hl. unfold mount. pose proof (csafe_mount l _ Hl _ _ (new_cache_inv l b Hb Hl)) as Hwp. unfold wp in Hwp.
  by destruct (bind _ _ _) as [c [[hint ok]|e|s]].
Qed.

Lemma resting_mount (b : B) clk v :
  dev_wf b -> layout_wf (blk_count b) l -> mount b l clk = Ok v -> resting l (mkImage false (content b)) v.
Proof.
  intros Hb Hl. unfold mount. pose proof (csafe_mount l _ Hl _ _ (new_cache_inv l b Hb Hl)) as Hwp. unfold wp in Hwp.
  destruct (bind _ _ _) as [c [[hint ok]|e|s]]; [|done|done].
  intros [= <-]. destruct Hwp as [Hc _]. split; [split; [|done]|].
  - constructor; cbn; try constructor; cbn; try done; try (unfold MAX_OPEN, MAX_DIRS; lia).
    destruct (is_cluster l hint) eqn:Eh; [done|]. apply is_cluster_iff. pose proof (wf_clusters _ _ Hl). lia.
  - destruct Hc as [_ [Hi Hfr]]. intros x. by apply Hfr.
Qed.
End mount.


Section theorems.
Context {B : Type} `{!Blocks B} `{!BlocksOk B}.

(** What [probe] accepts is a volume that fits the device. *)
Lemma probe_layout (b b' : B) p :
  dev_wf b -> probe b = (b', Ok p) ->
  dev_wf b' /\ layout_wf (blk_count b') (layout_of p) /\ forall x, content b' x = content b x.
Proof.
  intros Hb Hp. pose proof (wp_probe b Hb) as H. unfold wp in H. rewrite Hp in H.
  destruct H as [(Hd & Hc & Hx) Hl]. split_and!; [done|by rewrite Hc|done].
Qed.

Lemma step_resting l size D v v' :
  layout_wf size l -> (exists w, resting l (mkImage w D) v) -> step (fun _ => True) v v' -> exists w, resting l (mkImage w D) v'.
Proof.
  intros Hwf [w Hv] Hstep.
  assert (Hr : forall r, request_ok r ->
    wp (serve r) (fun v' _ => exists w, resting l (mkImage w D) v') (fun v' _ => exists w, resting l (mkImage w D) v') v).
  { intros r Hr. destruct (decide (r = RAllowWrites)) as [->|Hne].
    - apply wp_modify. exists true. exact (allow_writes_rests l _ v Hv).
    - eapply wp_mono; [exact (serve_settles l _ Hwf _ r Hr Hne v Hv)| |]; intros v1 x Hv1; exists w; exact Hv1. }
  destruct Hstep as [r v v' a _ Hok E|r v v' e _ Hok E]; specialize (Hr r Hok); unfold wp in Hr; by rewrite E in Hr.
Qed.

Lemma reachable_resting l size D v v' :
  layout_wf size l -> (exists w, resting l (mkImage w D) v) -> reachable (fun _ => True) v v' ->
  exists w, resting l (mkImage w D) v'.
Proof. intros Hwf Hv. induction 1 as [v|v v1 v' Hs _ IH]; [done|]. apply IH. by eapply step_resting. Qed.

(** C1: a device is probed and mounted, and any requests are served, whatever
    the device holds and whichever of its commands fail. Then the next
    request ends, with a value or an error and without a panic; and between
    requests the cache has its invariant, nothing is left to write, so the
    device holds what the cache shows, and at most 32 files and 32
    directories are remembered. *)
Theorem volume_serves (b b' : B) p clk v v' r :
  dev_wf b -> probe b = (b', Ok p) -> mount b' (layout_of p) clk = Ok v ->
  reachable (fun _ => True) v v' -> request_ok r ->
  ((exists v'' a, serve r v' = (v'', Ok a)) \/ (exists v'' e, serve r v' = (v'', Err e))) /\
  cache_ok (cache v') /\ has_dirty (cache v') = false /\
  (forall x, content (blocks (cache v')) x = view (cache v') x) /\
  (length (opens v') <= MAX_OPEN)%nat /\ (length (dirs v') <= MAX_DIRS)%nat.
Proof.
  intros Hb Hp Hm Hreach Hr. destruct (probe_layout b b' p Hb Hp) as (Hb' & Hl & _).
  pose proof (resting_mount (layout_of p) b' clk v Hb' Hl Hm) as Hv.
  destruct (reachable_resting _ _ (content b') v v' Hl ltac:(by eexists) Hreach) as [w Hv'].
  pose proof Hv' as [[Hk [[Hok _] _]] Hf]. destruct Hk. split_and!; try done.
  - assert (wp (serve r) (fun _ _ => True) (fun _ _ => True) v') as Hwp.
    { destruct (decide (r = RAllowWrites)) as [->|Hne]; [by apply wp_modify|].
      eapply wp_mono; [eapply serve_settles; [exact Hl|done|done|exact Hv']|done|done]. }
    unfold wp in Hwp. destruct (serve r v') as [v'' [a|e|s]]; [left; by exists v'', a|right; by exists v'', e|done].
  - by apply has_dirty_false.
  - intros x. by apply flushed_content.
Qed.

(** until writes are allowed, no request changes a block of the device. *)
Theorem read_only_until_allowed (b b' : B) p clk v v' :
  dev_wf b -> probe b = (b', Ok p) -> mount b' (layout_of p) clk = Ok v ->
  reachable (fun r => r <> RAllowWrites) v v' ->
  cwritable (cache v') = false /\ forall x, content (blocks (cache v')) x = content b x.
Proof.
  intros Hb Hp Hm Hreach. destruct (probe_layout b b' p Hb Hp) as (Hb' & Hl & Hx).
  pose proof (resting_mount (layout_of p) b' clk v Hb' Hl Hm) as Hv.
  assert (resting (layout_of p) (mkImage false (content b')) v') as [[_ [_ [Hw Hf]]] _].
  { clear Hm. induction Hreach as [v|v v1 v' Hs _ IH]; [done|]. apply IH.
    destruct Hs as [r v v1 a Hne Hok E|r v v1 e Hne Hok E];
      pose proof (serve_settles _ _ Hl (mkImage false (content b')) r Hok Hne v Hv) as Hwp; unfold wp in Hwp; by rewrite E in Hwp. }
  split; [done|]. intros x. rewrite <- Hx. by apply Hf.
Qed.

(** mounting ends without a panic, and the volume it returns remembers
    nothing, has written nothing, and searches for free clusters from a
    cluster of the volume. *)
Theorem mount_ends (b b' : B) p clk :
  dev_wf b -> probe b = (b', Ok p) ->
  match mount b' (layout_of p) clk with
  | Ok v => opens v = [] /\ dirs v = [] /\ marked v = false /\ has_dirty (cache v) = false /\
      is_cluster (layout_of p) (cursor (vfat v)) = true /\ free (vfat v) = None /\
      forall x, content (blocks (cache v)) x = content b x
  | Err _ => True
  | Stuck _ => False
  end.
Proof.
  intros Hb Hp. destruct (probe_layout b b' p Hb Hp) as (Hb' & Hl & Hx).
  destruct (mount b' (layout_of p) clk) as [v|e|s] eqn:E; [|done|by apply (mount_safe _ _ _ _ Hb' Hl) in E].
  pose proof (resting_mount (layout_of p) b' clk v Hb' Hl E) as [[[Hf _ _ _ _] [[Hok _] [Hw Hfr]]] Hcl].
  unfold mount in E. destruct (bind _ _ _) as [c [[hint ok]|e|s]]; [|done|done]. injection E as <-. split_and!; try done.
  - by apply has_dirty_false.
  - apply (fat_cursor _ _ Hf).
  - intros x. rewrite <- Hx. by apply Hfr.
Qed.
End theorems.
