(* ===== verification/Card.v ===== *)
(** * The SD card

    The part of [kernel/src/storage/card.rs] that moves blocks, over a host
    controller that is a parameter: the driver of the controller
    ([mmc/sdhci.rs]) is reads and writes of its registers, and what matters of
    it here is one operation, [command], and the clock of [mmc/delay.rs]. *)

From S2P Require Import Prelude Bytes Boot.

(** ** The host controller *)

Inductive Response := R1 | R1B.

Record Command := mkCommand { opcode : Z; argument : Z; response : Response }.

(** A buffer to read into is the number of its bytes. *)
Inductive Data := Read (bytes : Z) | Write (buf : list Z).

Definition data_len (d : Data) : Z := match d with Read n => n | Write buf => len buf end.
Definition is_write (d : Data) : bool := match d with Read _ => false | Write _ => true end.

Record Transfer := mkTransfer { block_size : Z; t_blocks : Z; t_data : Data; stop : bool }.

Record SdError := mkSdError { e_what : list Z; e_status : Z }.

(** The four words of a response. *)
Definition Words : Type := Z * Z * Z * Z.
Definition word0 (w : Words) : Z := let '(w0, _, _, _) := w in w0.

(** A command that succeeds gives its response and, for a [Read], what is in
    the buffer. *)
Class SdHost (H : Type) := {
  host_command : H -> Command -> option Transfer -> H * (Words * list Z + SdError);
  auto_cmd12 : H -> bool;
  now_us : H -> Z;
  spin_us : Z -> H -> H;
  sleep_ms : Z -> H -> H;
}.

(** ** Constants *)

Definition MMC_STOP_TRANSMISSION : Z := 12.
Definition MMC_SEND_STATUS : Z := 13.
Definition MMC_READ_SINGLE_BLOCK : Z := 17.
Definition MMC_READ_MULTIPLE_BLOCK : Z := 18.
Definition MMC_WRITE_BLOCK : Z := 24.
Definition MMC_WRITE_MULTIPLE_BLOCK : Z := 25.
Definition R1_READY_FOR_DATA : Z := Z.shiftl 1 8.
Definition R1_STATE_TRAN : Z := 4.
Definition R1_OUT_OF_RANGE : Z := Z.shiftl 1 31.
Definition CMD_ERRORS : Z :=
  Z.lor R1_OUT_OF_RANGE (Z.lor (Z.shiftl 1 30) (Z.lor (Z.shiftl 1 29) (Z.lor (Z.shiftl 1 26)
    (Z.lor (Z.shiftl 1 21) (Z.lor (Z.shiftl 1 20) (Z.shiftl 1 19)))))).
Definition BUSY_TIMEOUT_MS : Z := 10000.
Definition CHUNK_BLOCKS : Z := 256.
Definition DEFAULT_SPEED_DTR : Z := 25000000.

Definition TRAN_EXP : list Z := [10000; 100000; 1000000; 10000000; 0; 0; 0; 0].
Definition TRAN_MANT : list Z := [0; 10; 12; 13; 15; 20; 25; 30; 35; 40; 45; 50; 55; 60; 70; 80].

(** ** What the card says about itself *)

Record Identity := mkIdentity {
  block_addressed : bool;
  id_blocks : Z;
  high_speed : bool;
  four_bit : bool;
  clock : Z;
  rca : Z;
  manufacturer : Z;
  product : list Z;
  write_protected : bool;
}.

(** What the messages of the card's errors say. [NoTry] is the empty string
    [transfer] starts from. *)
Inductive CardError :=
| NotInside (bytes lba : Z)
| CannotAddress (lba : Z)
| BadStatus (opcode lba status : Z)
| StopFailed (opcode : Z) (e : SdError)
| CommandFailed (opcode blocks lba : Z) (e : SdError)
| StatusFailed (e : SdError)
| AfterWrite (status : Z)
| StayedBusy (status : Z)
| BadBlockLength (read_bl_len : Z)
| BadCsd (structure : Z)
| NoTry.

(** [UNSTUFF_BITS]. A shift to the left drops what leaves the 32 bits. *)
Definition bits {S E} (register : list Z) (start size : Z) : M S E Z :=
  let mask := if size <? 32 then Z.shiftl 1 size - 1 else u32_max in
  let at_ := 3 - start / 32 in
  let shift := start `mod` 32 in
  let! word := index_at register at_ in
  let value := Z.shiftr word shift in
  let! value :=
    if 32 <? size + shift then
      let! before := index_at register (at_ - 1) in
      ret (Z.lor value (as_u32 (Z.shiftl before ((32 - shift) `mod` 32))))
    else ret value in
  ret (Z.land value mask).

(** The command classes and the rate, with the size and the write protection
    put in [identity]. *)
Definition decode_csd {S} (csd : list Z) (identity : Identity) : M S CardError (Identity * (Z * Z)) :=
  let! structure := bits csd 126 2 in
  let! exp := bits csd 96 3 in
  let! exp := index_at TRAN_EXP exp in
  let! mant := bits csd 99 4 in
  let! mant := index_at TRAN_MANT mant in
  let! rate := u32 (exp * mant) in
  let max_dtr := if rate =? 0 then DEFAULT_SPEED_DTR else Z.min rate DEFAULT_SPEED_DTR in
  let! classes := bits csd 84 12 in
  let! blocks :=
    if structure =? 0 then
      let! c_size := bits csd 62 12 in
      let! multiplier := bits csd 47 3 in
      let! read_bl_len := bits csd 80 4 in
      refuse (negb ((9 <=? read_bl_len) && (read_bl_len <=? 11))) (BadBlockLength read_bl_len) ;;;
      let! more := u64 (c_size + 1) in
      let! by_ := u32 (multiplier + 2) in
      let! over := u32 (read_bl_len - 9) in
      ret (Z.shiftl (Z.shiftl more by_ `mod` 2 ^ 64) over `mod` 2 ^ 64)
    else if structure =? 1 then
      let! size := bits csd 48 22 in
      let! more := u64 (size + 1) in
      ret (Z.shiftl more 10 `mod` 2 ^ 64)
    else throw (BadCsd structure) in
  let! protected := bits csd 12 2 in
  ret (mkIdentity (block_addressed identity) blocks (high_speed identity) (four_bit identity) (clock identity)
         (rca identity) (manufacturer identity) (product identity) (negb (protected =? 0)), (classes, max_dtr)).

(** ** The card *)

Record Card (H : Type) := mkCard { host : H; identity : Identity }.
Arguments mkCard {H} host identity.
Arguments host {H} c.
Arguments identity {H} c.

(** [2 ^ POLL_TURNS] turns are more than the microseconds of the wait, and each
    turn sends a command, which takes one at least. *)
Definition POLL_TURNS : nat := 24.

Section card.
Context {H : Type} `{!SdHost H}.

Abbreviation DM := (M (Card H) CardError).

Definition with_host (h : H) (c : Card H) : Card H := mkCard h (identity c).

(** [self.host.command(..)]. *)
Definition host_do (cmd : Command) (transfer : option Transfer) : DM (Words * list Z + SdError) :=
  state (fun c => let (h, answer) := host_command (host c) cmd transfer in (with_host h c, answer)).

(** [command(&mut self.host, ..)]. *)
Definition command (opcode argument : Z) (response : Response) : DM (Words + SdError) :=
  let! answer := host_do (mkCommand opcode argument response) None in
  ret (match answer with inl (words, _) => inl words | inr e => inr e end).

(** The card's address of block [lba]. *)
Definition address (c : Card H) (lba : Z) : option Z :=
  if block_addressed (identity c) then (if lba <=? u32_max then Some lba else None)
  else if lba * BLOCK <=? u64_max then (if lba * BLOCK <=? u32_max then Some (lba * BLOCK) else None) else None.

Definition check_range (lba bytes : Z) : DM unit :=
  let! blocks := gets (fun c => id_blocks (identity c)) in
  let count := bytes / BLOCK in
  refuse (negb (bytes `mod` BLOCK =? 0)
          || match checked_add64 lba count with Some stop => blocks <? stop | None => true end)
    (NotInside bytes lba).

(** One turn of [wait_programmed]: [polls] before it, [deadline] when to give
    up. *)
Definition poll (deadline : Z) (polls : Z) : DM (Z + unit) :=
  let! rca := gets (fun c => rca (identity c)) in
  let! answer := command MMC_SEND_STATUS (Z.shiftl rca 16) R1 in
  match answer with
  | inr e => throw (StatusFailed e)
  | inl words =>
      let status := word0 words in
      refuse (negb (Z.land (Z.land status CMD_ERRORS) (u32_max - R1_OUT_OF_RANGE) =? 0)) (AfterWrite status) ;;;
      if negb (Z.land status R1_READY_FOR_DATA =? 0) && (Z.land (Z.shiftr status 9) 0xF =? R1_STATE_TRAN)
      then ret (inr tt)
      else
        let! now := gets (fun c => now_us (host c)) in
        refuse (deadline <=? now) (StayedBusy status) ;;;
        modify (fun c => with_host (if polls <? 32 then spin_us 100 (host c) else sleep_ms 1 (host c)) c) ;;;
        let! polls := u32 (polls + 1) in
        ret (inl polls)
  end.

Definition wait_programmed : DM unit :=
  let! now := gets (fun c => now_us (host c)) in
  let deadline := Z.min (now + BUSY_TIMEOUT_MS * 1000) u64_max in
  long_loop POLL_TURNS (poll deadline) 0.

(** One turn of the loop of [transfer], up to its [outcome]. *)
Definition attempt (lba opcode address blocks : Z) (data : Data) : DM (list Z) :=
  let! answer := host_do (mkCommand opcode address R1) (Some (mkTransfer BLOCK blocks data (1 <? blocks))) in
  match answer with
  | inr e => throw (CommandFailed opcode blocks lba e)
  | inl (words, buf) =>
      refuse (negb (Z.land (word0 words) CMD_ERRORS =? 0)) (BadStatus opcode lba (word0 words)) ;;;
      let! auto := gets (fun c => auto_cmd12 (host c)) in
      (if (1 <? blocks) && negb auto then
         let! stopped := command MMC_STOP_TRANSMISSION 0 R1B in
         match stopped with inl _ => ret tt | inr e => throw (StopFailed opcode e) end
       else ret tt) ;;;
      (if is_write data then wait_programmed else ret tt) ;;;
      ret buf
  end.

(** The loop itself: [n] turns left, [last] why the one before failed. *)
Fixpoint tries (n : nat) (try_once : DM (list Z)) (last : CardError) : DM (list Z) :=
  match n with
  | O => throw last
  | Datatypes.S n =>
      let! outcome := try_ try_once in
      match outcome with
      | inl buf => ret buf
      | inr why =>
          let! _ := command MMC_STOP_TRANSMISSION 0 R1B in
          let! _ := try_ wait_programmed in
          tries n try_once why
      end
  end.

Definition transfer (lba : Z) (data : Data) : DM (list Z) :=
  let blocks := data_len data / BLOCK in
  let! addr := gets (fun c => address c lba) in
  let! addr := ok_or addr (CannotAddress lba) in
  let opcode :=
    match is_write data, 1 <? blocks with
    | false, false => MMC_READ_SINGLE_BLOCK
    | false, true => MMC_READ_MULTIPLE_BLOCK
    | true, false => MMC_WRITE_BLOCK
    | true, true => MMC_WRITE_MULTIPLE_BLOCK
    end in
  tries 2 (attempt lba opcode addr blocks data) NoTry.

Definition CHUNK : Z := CHUNK_BLOCKS * BLOCK.

(** [chunks_mut] and [chunks]: chunk [i] of [bytes] bytes, or of [data]. *)
Definition chunk_bytes (bytes i : Z) : Z := Z.min CHUNK (bytes - i * CHUNK).
Definition chunk (data : list Z) (i : Z) : list Z := take (Z.to_nat CHUNK) (drop (Z.to_nat (i * CHUNK)) data).

(** The loops over [n] chunks from chunk [i]. *)
Fixpoint read_chunks (n : nat) (lba bytes i : Z) : DM (list Z) :=
  match n with
  | O => ret []
  | Datatypes.S n =>
      let! at_ := u64 (lba + i * CHUNK_BLOCKS) in
      let! part := transfer at_ (Read (chunk_bytes bytes i)) in
      let! rest := read_chunks n lba bytes (i + 1) in
      ret (part ++ rest)
  end.

Fixpoint write_chunks (n : nat) (lba : Z) (data : list Z) (i : Z) : DM unit :=
  match n with
  | O => ret tt
  | Datatypes.S n =>
      let! at_ := u64 (lba + i * CHUNK_BLOCKS) in
      let! _ := transfer at_ (Write (chunk data i)) in
      write_chunks n lba data (i + 1)
  end.

Definition read_blocks (lba bytes : Z) : DM (list Z) :=
  check_range lba bytes ;;;
  read_chunks (Z.to_nat (div_ceil bytes CHUNK)) lba bytes 0.

Definition write_blocks (lba : Z) (data : list Z) : DM unit :=
  check_range lba (len data) ;;;
  write_chunks (Z.to_nat (div_ceil (len data) CHUNK)) lba data 0.
End card.
