(* ===== verification/CardSpec.v ===== *)
(** * The card does what its commands promise

    What an SD host and card promise of a command ([SdHostOk]), and what the
    block functions of the card make of it: a read returns what the blocks
    hold, a write that succeeds has been programmed, and a write that fails,
    tried twice, has touched no block but its own. *)

From S2P Require Import Prelude Bytes Boot BootSpec Cache CacheSpec CacheIo Card.

(** ** The promises

    [card_content h b] is what a read of block [b] of the card returns;
    [card_size h] its blocks; [block_mode h] whether it is addressed by block.
    [accepted h b data]: the last command that wrote put [data] at block [b],
    and the card took it. Taking it is not programming it: that is known from
    the status, once it says that the card is ready and back in the transfer
    state with no error. *)

Definition card_address (mode : bool) (b : Z) : Z := if mode then b else b * BLOCK.

Definition read_command (mode : bool) (b k : Z) : Command :=
  mkCommand (if 1 <? k then MMC_READ_MULTIPLE_BLOCK else MMC_READ_SINGLE_BLOCK) (card_address mode b) R1.
Definition write_command (mode : bool) (b k : Z) : Command :=
  mkCommand (if 1 <? k then MMC_WRITE_MULTIPLE_BLOCK else MMC_WRITE_BLOCK) (card_address mode b) R1.

(** The commands without data that the block functions send. *)
Definition quiet (cmd : Command) : Prop := opcode cmd = MMC_STOP_TRANSMISSION \/ opcode cmd = MMC_SEND_STATUS.

Definition clean (w : Words) : Prop := Z.land (word0 w) CMD_ERRORS = 0.
Definition programmed (w : Words) : Prop :=
  Z.land (Z.land (word0 w) CMD_ERRORS) (u32_max - R1_OUT_OF_RANGE) = 0 /\
  Z.land (word0 w) R1_READY_FOR_DATA <> 0 /\ Z.land (Z.shiftr (word0 w) 9) 0xF = R1_STATE_TRAN.

Class SdHostOk (H : Type) `{!SdHost H} := {
  host_wf : H -> Prop;
  block_mode : H -> bool;
  card_size : H -> Z;
  card_content : H -> Z -> list Z;
  accepted : H -> Z -> list Z -> Prop;
  card_length h b : host_wf h -> length (card_content h b) = Z.to_nat BLOCK;
  card_bytes h b : host_wf h -> is_bytes (card_content h b);
  (** A command keeps the card's kind and size, and takes a microsecond: its 48
      bits and the 48 of its response are at most 50 to a microsecond. *)
  command_keeps h cmd t h' r : host_wf h -> host_command h cmd t = (h', r) ->
    host_wf h' /\ block_mode h' = block_mode h /\ card_size h' = card_size h /\ now_us h + 1 <= now_us h';
  quiet_content h cmd h' r : host_wf h -> quiet cmd -> host_command h cmd None = (h', r) ->
    (forall x, card_content h' x = card_content h x) /\ (forall b data, accepted h b data -> accepted h' b data);
  read_content h b k h' r : host_wf h -> 0 <= b -> 1 <= k <= CHUNK_BLOCKS -> b + k <= card_size h ->
    host_command h (read_command (block_mode h) b k) (Some (mkTransfer BLOCK k (Read (k * BLOCK)) (1 <? k))) = (h', r) ->
    (forall x, card_content h' x = card_content h x) /\
    (forall w buf, r = inl (w, buf) -> clean w -> buf = seqZ b k ≫= card_content h);
  write_content h b k data h' r : host_wf h -> 0 <= b -> 1 <= k <= CHUNK_BLOCKS -> b + k <= card_size h ->
    len data = k * BLOCK -> is_bytes data ->
    host_command h (write_command (block_mode h) b k) (Some (mkTransfer BLOCK k (Write data) (1 <? k))) = (h', r) ->
    (forall x, ~ b <= x < b + k -> card_content h' x = card_content h x) /\
    (forall w buf, r = inl (w, buf) -> clean w -> accepted h' b data);
  status_programmed h arg h' w buf b k data : host_wf h ->
    host_command h (mkCommand MMC_SEND_STATUS arg R1) None = (h', inl (w, buf)) -> programmed w ->
    accepted h b data -> 0 <= k -> len data = k * BLOCK -> data = seqZ b k ≫= card_content h';
  spin_keeps h n : host_wf h ->
    host_wf (spin_us n h) /\ block_mode (spin_us n h) = block_mode h /\ card_size (spin_us n h) = card_size h /\
    now_us h <= now_us (spin_us n h) /\ (forall x, card_content (spin_us n h) x = card_content h x) /\
    (forall b data, accepted h b data -> accepted (spin_us n h) b data);
  sleep_keeps h n : host_wf h ->
    host_wf (sleep_ms n h) /\ block_mode (sleep_ms n h) = block_mode h /\ card_size (sleep_ms n h) = card_size h /\
    now_us h <= now_us (sleep_ms n h) /\ (forall x, card_content (sleep_ms n h) x = card_content h x) /\
    (forall b data, accepted h b data -> accepted (sleep_ms n h) b data);
}.

Section spec.
Context {H : Type} `{!SdHost H} `{!SdHostOk H}.
Implicit Types (c : Card H).

(** The card as [attach] leaves it: [identity] tells the truth. *)
Record card_wf (c : Card H) : Prop := {
  cw_host : host_wf (host c);
  cw_mode : block_addressed (identity c) = block_mode (host c);
  cw_size : id_blocks (identity c) = card_size (host c) /\ 0 <= card_size (host c) <= u64_max;
}.

(** [c'] is [c0] later, and only blocks in [R] may have changed. *)
Record evolves (R : Z -> Prop) (c0 c' : Card H) : Prop := {
  ev_wf : card_wf c';
  ev_identity : identity c' = identity c0;
  ev_content : forall x, ~ R x -> card_content (host c') x = card_content (host c0) x;
}.

Definition nothing (x : Z) : Prop := False.
Definition run_of (b k x : Z) : Prop := b <= x < b + k.

Lemma evolves_refl R c : card_wf c -> evolves R c c.
Proof. done. Qed.

Lemma evolves_trans R c0 c1 c2 : evolves R c0 c1 -> evolves R c1 c2 -> evolves R c0 c2.
Proof.
  intros [H1 I1 C1] [H2 I2 C2]. split; [done|congruence|]. intros x Hx. by rewrite C2, C1.
Qed.

Lemma evolves_weaken (R R' : Z -> Prop) c0 c1 : (forall x, R x -> R' x) -> evolves R c0 c1 -> evolves R' c0 c1.
Proof. intros HR [H1 I1 C1]. split; [done|done|]. intros x Hx. apply C1. auto. Qed.

Lemma ev_same c0 c1 : evolves nothing c0 c1 -> forall x, card_content (host c1) x = card_content (host c0) x.
Proof. intros Hev x. apply (ev_content _ _ _ Hev). intros []. Qed.

(** What is not a command that writes: nothing changes, and what was accepted
    still is. *)
Definition calm (c c' : Card H) : Prop :=
  evolves nothing c c' /\ forall b data, accepted (host c) b data -> accepted (host c') b data.

Lemma calm_refl c : card_wf c -> calm c c.
Proof. done. Qed.
Lemma calm_trans c0 c1 c2 : calm c0 c1 -> calm c1 c2 -> calm c0 c2.
Proof. intros [H1 A1] [H2 A2]. split; [by eapply evolves_trans|]. auto. Qed.

Lemma calm_evolves R c0 c1 c2 : evolves R c0 c1 -> calm c1 c2 -> evolves R c0 c2.
Proof. intros H1 [H2 _]. eapply evolves_trans; [done|]. eapply evolves_weaken; [|exact H2]. intros x []. Qed.

(** ** Commands *)

Lemma host_evolves R c h :
  card_wf c -> host_wf h -> block_mode h = block_mode (host c) -> card_size h = card_size (host c) ->
  (forall x, ~ R x -> card_content h x = card_content (host c) x) -> evolves R c (with_host h c).
Proof.
  intros [Hh Hm Hs] Hwf Hb Hz Hx. split; [split; cbn; [done|congruence|by rewrite Hz]|done|done].
Qed.

Lemma wp_command op arg rsp (Q : Card H -> Words + SdError -> Prop) X c :
  card_wf c -> op = MMC_STOP_TRANSMISSION \/ op = MMC_SEND_STATUS ->
  (forall c' r, calm c c' -> now_us (host c) + 1 <= now_us (host c') ->
     (forall w b k data, op = MMC_SEND_STATUS -> rsp = R1 -> r = inl w -> programmed w -> accepted (host c) b data -> 0 <= k ->
        len data = k * BLOCK -> data = seqZ b k ≫= card_content (host c')) ->
     Q c' r) ->
  wp (command op arg rsp) Q X c.
Proof.
  intros Hc Hop HQ. unfold command, host_do. apply wp_bind, wp_state.
  destruct (host_command (host c) (mkCommand op arg rsp) None) as [h r] eqn:E. cbn [fst snd]. apply wp_ret.
  destruct (command_keeps _ _ _ _ _ (cw_host _ Hc) E) as (Hwf & Hm & Hs & Hnow).
  destruct (quiet_content _ _ _ _ (cw_host _ Hc) (Hop : quiet (mkCommand op arg rsp)) E) as [Hx Ha].
  apply HQ; [split; [by apply host_evolves|done]|done|].
  intros w b k data -> -> Hr Hp Hacc Hk Hl. destruct r as [[w' buf]|]; [|done]. injection Hr as ->.
  by eapply (status_programmed _ _ _ _ _ _ _ _ (cw_host _ Hc) E).
Qed.

(** ** Waiting *)

Lemma wp_wait_programmed (Q : Card H -> unit -> Prop) X c :
  card_wf c ->
  (forall c', calm c c' ->
     (forall b k data, accepted (host c) b data -> 0 <= k -> len data = k * BLOCK -> data = seqZ b k ≫= card_content (host c')) ->
     Q c' tt) ->
  (forall c' e, calm c c' -> X c' e) ->
  wp wait_programmed Q X c.
Proof.
  intros Hc HQ HX. unfold wait_programmed. apply wp_bind, wp_gets. cbn zeta.
  set (start := now_us (host c)). set (deadline := Z.min (start + BUSY_TIMEOUT_MS * 1000) u64_max).
  apply (wp_long_loop
           (fun polls c' => calm c c' /\ 0 <= polls <= now_us (host c') - start /\ polls <= BUSY_TIMEOUT_MS * 1000)
           (fun polls _ => BUSY_TIMEOUT_MS * 1000 - polls)).
  - intros polls c' (_ & Hp & Hd). lia.
  - intros polls c' (Hcalm & Hp & Hd). pose proof (ev_wf _ _ _ (proj1 Hcalm)) as Hwf'.
    unfold poll. apply wp_bind, wp_gets, wp_bind. apply (wp_command _ _ _ _ _ _ Hwf'); [by right|].
    intros c1 r Hc1 Hnow Hprog. assert (Hcalm1 : calm c c1) by (by eapply calm_trans).
    destruct r as [w|e]; [|apply wp_throw; by apply HX].
    apply wp_bind. unfold refuse. case_match eqn:Ee; [apply wp_throw; by apply HX|]. apply wp_ret.
    case_match eqn:Er.
    { apply wp_ret, HQ; [done|]. intros b k data Hacc Hk Hl.
      apply (Hprog w b k data eq_refl eq_refl eq_refl); [|by apply Hcalm|done|done].
      apply andb_true_iff in Er as [Er1%negb_true_iff%Z.eqb_neq Er2%Z.eqb_eq].
      by apply negb_false_iff, Z.eqb_eq in Ee. }
    apply wp_bind, wp_gets, wp_bind. case_match eqn:Et; [apply wp_throw; by apply HX|]. apply wp_ret, wp_bind, wp_modify.
    apply Z.leb_gt in Et.
    assert (Hw : exists c2, c2 = with_host (if polls <? 32 then spin_us 100 (host c1) else sleep_ms 1 (host c1)) c1 /\
      calm c1 c2 /\ now_us (host c1) <= now_us (host c2)).
    { eexists. split; [reflexivity|]. pose proof (ev_wf _ _ _ (proj1 Hcalm1)) as Hwf1. destruct (polls <? 32).
      - destruct (spin_keeps (host c1) 100 (cw_host _ Hwf1)) as (? & ? & ? & ? & ? & ?).
        split; [split; [by apply host_evolves; auto|done]|done].
      - destruct (sleep_keeps (host c1) 1 (cw_host _ Hwf1)) as (? & ? & ? & ? & ? & ?).
        split; [split; [by apply host_evolves; auto|done]|done]. }
    destruct Hw as (c2 & <- & Hcalm2 & Hn2). apply wp_bind, wp_checked.
    { unfold deadline, BUSY_TIMEOUT_MS, u32_max in *. lia. }
    apply wp_ret. split; [|lia]. split_and!; [by eapply calm_trans|lia|lia|].
    unfold deadline in Et. lia.
  - split_and!; [by apply calm_refl|lia|unfold start; lia|unfold BUSY_TIMEOUT_MS; lia].
  - unfold BUSY_TIMEOUT_MS, POLL_TURNS. lia.
Qed.

(** ** One transfer *)

(** The end of an attempt, once the card has answered with no error. *)
Lemma wp_attempt_rest op blocks data (buf : list Z) (Q : Card H -> list Z -> Prop) X c :
  card_wf c ->
  (forall c', calm c c' ->
     (is_write data = true -> forall b k d, accepted (host c) b d -> 0 <= k -> len d = k * BLOCK ->
        d = seqZ b k ≫= card_content (host c')) -> Q c' buf) ->
  (forall c' e, calm c c' -> X c' e) ->
  wp (let! auto := gets (fun c => auto_cmd12 (host c)) in
      (if (1 <? blocks) && negb auto then
         let! stopped := command MMC_STOP_TRANSMISSION 0 R1B in
         match stopped with inl _ => ret tt | inr e => throw (StopFailed op e) end
       else ret tt) ;;;
      (if is_write data then wait_programmed else ret tt) ;;;
      ret buf) Q X c.
Proof.
  intros Hc HQ HX. apply wp_bind, wp_gets, wp_bind.
  assert (Hend : forall c1, calm c c1 -> wp ((if is_write data then wait_programmed else ret tt) ;;; ret buf) Q X c1).
  { intros c1 Hcalm. pose proof (ev_wf _ _ _ (proj1 Hcalm)) as Hwf1. apply wp_bind. destruct (is_write data).
    - apply wp_wait_programmed; [done| |intros c2 e H2; apply HX; by eapply calm_trans].
      intros c2 H2 Hp. apply wp_ret, HQ; [by eapply calm_trans|]. intros _ b k d Ha. apply Hp. by apply Hcalm.
    - apply wp_ret, wp_ret. by apply HQ. }
  destruct ((1 <? blocks) && negb (auto_cmd12 (host c))).
  - apply wp_bind, wp_command; [done|by left|]. intros c1 r H1 _ _.
    destruct r; [apply wp_ret; by apply Hend|apply wp_throw; by apply HX].
  - apply wp_ret. by apply Hend, calm_refl.
Qed.

Lemma wp_attempt_read lba b k (Q : Card H -> list Z -> Prop) X c :
  card_wf c -> 0 <= b -> 1 <= k <= CHUNK_BLOCKS -> b + k <= card_size (host c) ->
  (forall c', evolves nothing c c' -> Q c' (seqZ b k ≫= card_content (host c))) ->
  (forall c' e, evolves nothing c c' -> X c' e) ->
  let cmd := read_command (block_mode (host c)) b k in
  wp (attempt lba (opcode cmd) (argument cmd) k (Read (k * BLOCK))) Q X c.
Proof.
  intros Hc Hb Hk Hin HQ HX cmd. unfold attempt, host_do. apply wp_bind, wp_state. fold cmd.
  change (mkCommand (opcode cmd) (argument cmd) R1) with cmd.
  destruct (host_command (host c) cmd _) as [h r] eqn:E. cbn [fst snd].
  destruct (command_keeps _ _ _ _ _ (cw_host _ Hc) E) as (Hwf & Hm & Hs & _).
  destruct (read_content _ _ _ _ _ (cw_host _ Hc) Hb Hk Hin E) as [Hx Hdata].
  assert (Hev : evolves nothing c (with_host h c)) by (by apply host_evolves).
  destruct r as [[w buf]|e]; [|by apply wp_throw, HX].
  apply wp_bind. unfold refuse. case_match eqn:Ee; [by apply wp_throw, HX|]. apply wp_ret.
  apply negb_false_iff, Z.eqb_eq in Ee. rewrite (Hdata w buf eq_refl Ee).
  apply wp_attempt_rest; [apply Hev| |]; intros; [apply HQ|apply HX]; by eapply calm_evolves.
Qed.

Lemma wp_attempt_write lba b k data (Q : Card H -> list Z -> Prop) X c :
  card_wf c -> 0 <= b -> 1 <= k <= CHUNK_BLOCKS -> b + k <= card_size (host c) -> len data = k * BLOCK -> is_bytes data ->
  (forall c' buf, evolves (run_of b k) c c' -> data = seqZ b k ≫= card_content (host c') -> Q c' buf) ->
  (forall c' e, evolves (run_of b k) c c' -> X c' e) ->
  let cmd := write_command (block_mode (host c)) b k in
  wp (attempt lba (opcode cmd) (argument cmd) k (Write data)) Q X c.
Proof.
  intros Hc Hb Hk Hin Hl Hbytes HQ HX cmd. unfold attempt, host_do. apply wp_bind, wp_state. fold cmd.
  change (mkCommand (opcode cmd) (argument cmd) R1) with cmd.
  destruct (host_command (host c) cmd _) as [h r] eqn:E. cbn [fst snd].
  destruct (command_keeps _ _ _ _ _ (cw_host _ Hc) E) as (Hwf & Hm & Hs & _).
  destruct (write_content _ _ _ _ _ _ (cw_host _ Hc) Hb Hk Hin Hl Hbytes E) as [Hx Hacc].
  assert (Hev : evolves (run_of b k) c (with_host h c)) by (by apply host_evolves).
  destruct r as [[w buf]|e]; [|by apply wp_throw, HX].
  apply wp_bind. unfold refuse. case_match eqn:Ee; [by apply wp_throw, HX|]. apply wp_ret.
  apply negb_false_iff, Z.eqb_eq in Ee. specialize (Hacc w buf eq_refl Ee).
  apply wp_attempt_rest; [apply Hev| |].
  - intros c' Hcalm Hp. apply HQ; [by eapply calm_evolves|]. apply (Hp eq_refl); [done|lia|done].
  - intros c' e Hcalm. apply HX. by eapply calm_evolves.
Qed.

(** Tries, each from wherever the one before left the card. *)
Lemma wp_tries R n once last (Q : Card H -> list Z -> Prop) (X : Card H -> CardError -> Prop) c :
  (forall c1, evolves R c c1 -> wp once Q (fun c' _ => evolves R c c') c1) ->
  (forall c' e, evolves R c c' -> X c' e) ->
  forall c1, evolves R c c1 -> wp (tries n once last) Q X c1.
Proof.
  intros Honce HX. revert last. induction n as [|n IH]; intros last c1 Hc1; [by apply wp_throw, HX|].
  cbn [tries]. apply wp_bind, wp_try. eapply wp_mono; [by apply Honce| |]; [intros; by apply wp_ret|].
  intros c2 e Hc2. cbn beta. apply wp_bind, wp_command; [apply Hc2|by left|]. intros c3 r H3 _ _.
  assert (Hc3 : evolves R c c3) by (eapply calm_evolves; [exact Hc2|done]).
  apply wp_bind, wp_try, wp_wait_programmed; [apply Hc3| |]; intros; apply IH; (eapply calm_evolves; [exact Hc3|done]).
Qed.

Lemma address_spec c b : card_wf c -> 0 <= b ->
  match address c b with Some a => a = card_address (block_mode (host c)) b | None => True end.
Proof.
  intros Hc Hb. unfold address, card_address. rewrite (cw_mode _ Hc).
  destruct (block_mode (host c)); repeat case_match; simplify_eq; done.
Qed.

Lemma evolves_host R c c' : card_wf c -> evolves R c c' ->
  block_mode (host c') = block_mode (host c) /\ card_size (host c') = card_size (host c).
Proof.
  intros [_ Hm [Hs _]] [[_ Hm' [Hs' _]] Hi _]. rewrite Hi in Hm', Hs'. split; congruence.
Qed.

Lemma wp_transfer_read b k (Q : Card H -> list Z -> Prop) X c :
  card_wf c -> 0 <= b -> 1 <= k <= CHUNK_BLOCKS -> b + k <= card_size (host c) ->
  (forall c', evolves nothing c c' -> Q c' (seqZ b k ≫= card_content (host c))) ->
  (forall c' e, evolves nothing c c' -> X c' e) ->
  wp (transfer b (Read (k * BLOCK))) Q X c.
Proof.
  intros Hc Hb Hk Hin HQ HX. unfold transfer. cbn [data_len is_write]. apply wp_bind, wp_gets, wp_bind, wp_ok_or.
  pose proof (address_spec c b Hc Hb) as Ha. destruct (address c b) as [a|]; [|by apply HX].
  rewrite Z.div_mul by done. subst a. apply (wp_tries nothing 2 _ _ _ _ c); [|done|done].
  intros c1 Hc1. destruct (evolves_host _ _ _ Hc Hc1) as [Hm Hs]. rewrite <- Hm.
  replace (if 1 <? k then MMC_READ_MULTIPLE_BLOCK else MMC_READ_SINGLE_BLOCK)
    with (opcode (read_command (block_mode (host c1)) b k)) by done.
  apply wp_attempt_read; [apply Hc1|done|done|by rewrite Hs| |].
  - intros c' Hc'. rewrite (run_ext _ (card_content (host c))); [apply HQ; by eapply evolves_trans|].
    intros x _. by apply ev_same.
  - intros c' _ Hc'. by eapply evolves_trans.
Qed.

Lemma wp_transfer_write b k data (Q : Card H -> list Z -> Prop) X c :
  card_wf c -> 0 <= b -> 1 <= k <= CHUNK_BLOCKS -> b + k <= card_size (host c) -> len data = k * BLOCK -> is_bytes data ->
  (forall c' buf, evolves (run_of b k) c c' -> data = seqZ b k ≫= card_content (host c') -> Q c' buf) ->
  (forall c' e, evolves (run_of b k) c c' -> X c' e) ->
  wp (transfer b (Write data)) Q X c.
Proof.
  intros Hc Hb Hk Hin Hl Hbytes HQ HX. unfold transfer. cbn [data_len is_write]. rewrite Hl.
  apply wp_bind, wp_gets, wp_bind, wp_ok_or.
  pose proof (address_spec c b Hc Hb) as Ha. destruct (address c b) as [a|]; [|by apply HX].
  rewrite Z.div_mul by done. subst a. apply (wp_tries (run_of b k) 2 _ _ _ _ c); [|done|done].
  intros c1 Hc1. destruct (evolves_host _ _ _ Hc Hc1) as [Hm Hs]. rewrite <- Hm.
  replace (if 1 <? k then MMC_WRITE_MULTIPLE_BLOCK else MMC_WRITE_BLOCK)
    with (opcode (write_command (block_mode (host c1)) b k)) by done.
  apply wp_attempt_write; [apply Hc1|done|done|by rewrite Hs|done|done| |].
  - intros c' buf Hc' Hd. apply HQ; [by eapply evolves_trans|done].
  - intros c' _ Hc'. by eapply evolves_trans.
Qed.

(** ** Whole runs, in chunks *)

(** [n] chunks are what [rem] blocks take. *)
Definition chunks_left (n : nat) (rem : Z) : Prop :=
  0 <= rem /\ CHUNK_BLOCKS * (Z.of_nat n - 1) < rem <= CHUNK_BLOCKS * Z.of_nat n.

Lemma chunks_left_start k : 0 <= k -> chunks_left (Z.to_nat (div_ceil (k * BLOCK) CHUNK)) k.
Proof.
  intros Hk. unfold chunks_left, div_ceil, CHUNK, CHUNK_BLOCKS, BLOCK.
  destruct ((k * 512) `mod` (256 * 512) =? 0) eqn:E; lia.
Qed.

Lemma chunks_left_next n rem :
  chunks_left (Datatypes.S n) rem ->
  1 <= Z.min CHUNK_BLOCKS rem <= CHUNK_BLOCKS /\ chunks_left n (rem - Z.min CHUNK_BLOCKS rem).
Proof. unfold chunks_left, CHUNK_BLOCKS. lia. Qed.

Lemma wp_read_chunks lba K n i (Q : Card H -> list Z -> Prop) X c :
  card_wf c -> 0 <= lba -> 0 <= i -> lba + K <= card_size (host c) -> chunks_left n (K - i * CHUNK_BLOCKS) ->
  (forall c', evolves nothing c c' ->
     Q c' (seqZ (lba + i * CHUNK_BLOCKS) (K - i * CHUNK_BLOCKS) ≫= card_content (host c))) ->
  (forall c' e, evolves nothing c c' -> X c' e) ->
  wp (read_chunks n lba (K * BLOCK) i) Q X c.
Proof.
  revert i Q c. induction n as [|n IH]; intros i Q c Hc Hl Hi Hin Hn HQ HX; cbn [read_chunks].
  { apply wp_ret. replace (K - i * CHUNK_BLOCKS) with 0 in HQ by (unfold chunks_left, CHUNK_BLOCKS in *; lia). by apply HQ. }
  destruct (chunks_left_next _ _ Hn) as [Hk Hn']. set (k := Z.min CHUNK_BLOCKS (K - i * CHUNK_BLOCKS)) in *.
  pose proof (cw_size _ Hc) as [_ Hsize]. apply wp_bind, wp_checked; [unfold CHUNK_BLOCKS in *; lia|]. apply wp_bind.
  replace (chunk_bytes (K * BLOCK) i) with (k * BLOCK) by (unfold chunk_bytes, k, CHUNK, CHUNK_BLOCKS, BLOCK; lia).
  apply wp_transfer_read; [done|unfold CHUNK_BLOCKS; lia|done|lia| |done].
  intros c1 Hc1. destruct (evolves_host _ _ _ Hc Hc1) as [_ Hs1]. apply wp_bind.
  destruct (decide (k = CHUNK_BLOCKS)) as [Hfull|Hpart].
  - apply IH; [apply Hc1|done|lia|by rewrite Hs1| | |].
    + replace (K - (i + 1) * CHUNK_BLOCKS) with (K - i * CHUNK_BLOCKS - k) by lia. done.
    + intros c2 Hc2. apply wp_ret.
      assert (Hall : evolves nothing c c2) by (by eapply evolves_trans). specialize (HQ c2 Hall).
      replace (K - i * CHUNK_BLOCKS) with (k + (K - (i + 1) * CHUNK_BLOCKS)) in HQ by lia.
      rewrite seqZ_app_split, bind_app in HQ by (unfold chunks_left in *; lia).
      replace (lba + i * CHUNK_BLOCKS + k) with (lba + (i + 1) * CHUNK_BLOCKS) in HQ by lia.
      rewrite (run_ext (card_content (host c1)) (card_content (host c))); [exact HQ|].
      intros x _. by apply ev_same.
    + intros c2 e Hc2. apply HX. by eapply evolves_trans.
  - destruct n as [|n]; [|unfold chunks_left, CHUNK_BLOCKS in *; lia]. cbn [read_chunks]. apply wp_ret, wp_ret.
    replace (K - i * CHUNK_BLOCKS) with k in HQ by (unfold k; lia). rewrite app_nil_r. by apply HQ.
Qed.

Lemma chunk_split data i K :
  0 <= i -> len data = K * BLOCK -> 0 <= K - i * CHUNK_BLOCKS ->
  len (chunk data i) = Z.min CHUNK_BLOCKS (K - i * CHUNK_BLOCKS) * BLOCK /\
  drop (Z.to_nat (i * CHUNK)) data = chunk data i ++ drop (Z.to_nat ((i + 1) * CHUNK)) data.
Proof.
  intros Hi Hl Hrem. unfold chunk, CHUNK, CHUNK_BLOCKS, BLOCK in *. split.
  - rewrite length_take, length_drop. lia.
  - replace (Z.to_nat ((i + 1) * (256 * 512))) with (Z.to_nat (i * (256 * 512)) + Z.to_nat (256 * 512))%nat by lia.
    rewrite <- drop_drop. by rewrite take_drop.
Qed.

Lemma wp_write_chunks lba K data n i (Q : Card H -> unit -> Prop) X c :
  card_wf c -> 0 <= lba -> 0 <= i -> lba + K <= card_size (host c) -> chunks_left n (K - i * CHUNK_BLOCKS) ->
  len data = K * BLOCK -> is_bytes data ->
  let b := lba + i * CHUNK_BLOCKS in
  let k := K - i * CHUNK_BLOCKS in
  (forall c', evolves (run_of b k) c c' -> drop (Z.to_nat (i * CHUNK)) data = seqZ b k ≫= card_content (host c') -> Q c' tt) ->
  (forall c' e, evolves (run_of b k) c c' -> X c' e) ->
  wp (write_chunks n lba data i) Q X c.
Proof.
  revert i Q c. induction n as [|n IH]; intros i Q c Hc Hl Hi Hin Hn Hd Hb b k HQ HX; cbn [write_chunks].
  { apply wp_ret. assert (k = 0) as -> by (unfold k, chunks_left, CHUNK_BLOCKS in *; lia).
    apply HQ; [by apply evolves_refl|]. apply drop_ge. unfold chunks_left, CHUNK, CHUNK_BLOCKS, BLOCK in *. lia. }
  destruct (chunks_left_next _ _ Hn) as [Hj Hn']. fold k in Hj, Hn'. set (j := Z.min CHUNK_BLOCKS k) in *.
  pose proof (cw_size _ Hc) as [_ Hsize]. apply wp_bind, wp_checked; [unfold k, CHUNK_BLOCKS in *; lia|]. apply wp_bind.
  destruct (chunk_split data i K Hi Hd ltac:(unfold chunks_left in *; lia)) as [Hcl Hcd]. fold k in Hcl. fold j in Hcl. fold b.
  assert (Hsub : forall c', evolves (run_of b j) c c' -> evolves (run_of b k) c c').
  { intros c'. apply evolves_weaken. unfold run_of, j. lia. }
  apply (wp_transfer_write b j); [done|unfold b, CHUNK_BLOCKS; lia|done|unfold b, k in *; lia|done|by apply Forall_take, Forall_drop| |auto].
  intros c1 _ Hc1 Hpart. destruct (evolves_host _ _ _ Hc Hc1) as [_ Hs1].
  destruct (decide (j = CHUNK_BLOCKS)) as [Hfull|Hpartial].
  - assert (Hk' : K - (i + 1) * CHUNK_BLOCKS = k - j) by (unfold k; lia).
    assert (Hb' : lba + (i + 1) * CHUNK_BLOCKS = b + j) by (unfold b; lia).
    assert (Hmore : forall c', evolves (run_of (b + j) (k - j)) c1 c' -> evolves (run_of b k) c c').
    { intros c' Hc'. eapply evolves_trans; [by apply Hsub|]. eapply evolves_weaken; [|done]. unfold run_of, j. lia. }
    apply IH; [apply Hc1|done|lia|by rewrite Hs1|by rewrite Hk'|done|done|..]; rewrite Hk', Hb'; [|auto].
    intros c2 Hc2 Hrest. apply HQ; [auto|].
    rewrite Hcd, Hrest, Hpart. replace k with (j + (k - j)) at 2 by lia.
    rewrite seqZ_app_split, bind_app by (unfold j; lia). f_equal.
    apply run_ext. intros x Hx. symmetry. apply (ev_content _ _ _ Hc2). unfold run_of. lia.
  - assert (Hjk : j = k) by (unfold j; lia). assert (n = 0%nat) as -> by (unfold chunks_left, CHUNK_BLOCKS in *; lia).
    cbn [write_chunks]. apply wp_ret, HQ; [auto|]. rewrite Hcd, Hpart, <- Hjk. rewrite drop_ge, app_nil_r; [done|].
    unfold j, k, CHUNK, CHUNK_BLOCKS, BLOCK in *. lia.
Qed.

(** ** The block functions *)

Lemma wp_card_range lba bytes (Q : Card H -> unit -> Prop) X c :
  card_wf c ->
  ((exists k, bytes = k * BLOCK /\ lba + k <= card_size (host c)) -> Q c tt) -> (forall e, X c e) ->
  wp (check_range lba bytes) Q X c.
Proof.
  intros Hc HQ HX. unfold check_range. apply wp_bind, wp_gets. unfold refuse. case_match eqn:E; [by apply wp_throw|].
  apply wp_ret, HQ. apply orb_false_iff in E as [Em%negb_false_iff%Z.eqb_eq Ea].
  unfold checked_add64 in Ea. destruct (lba + bytes / BLOCK <=? u64_max); [|done]. apply Z.ltb_ge in Ea. pose proof (cw_size _ Hc) as [Hs _].
  exists (bytes / BLOCK). unfold BLOCK in *. lia.
Qed.

Lemma wp_read_blocks lba bytes (Q : Card H -> list Z -> Prop) X c :
  card_wf c -> 0 <= lba -> 0 <= bytes ->
  (forall c' k, evolves nothing c c' -> bytes = k * BLOCK -> lba + k <= card_size (host c) ->
     Q c' (seqZ lba k ≫= card_content (host c))) ->
  (forall c' e, evolves nothing c c' -> X c' e) ->
  wp (read_blocks lba bytes) Q X c.
Proof.
  intros Hc Hl Hb HQ HX. unfold read_blocks. apply wp_bind, wp_card_range; [done| |intros; by apply HX].
  intros (k & -> & Hin). assert (0 <= k) by (unfold BLOCK in *; lia).
  apply wp_read_chunks; [done|done|lia|done| | |done]; rewrite Z.mul_0_l, Z.sub_0_r, ?Z.add_0_r.
  - by apply chunks_left_start.
  - intros c' Hc'. by apply HQ.
Qed.

Lemma wp_write_blocks lba data (Q : Card H -> unit -> Prop) X c :
  card_wf c -> 0 <= lba -> is_bytes data ->
  (forall c' k, evolves (run_of lba k) c c' -> len data = k * BLOCK -> lba + k <= card_size (host c) ->
     data = seqZ lba k ≫= card_content (host c') -> Q c' tt) ->
  (forall c' e, evolves (run_of lba (len data / BLOCK)) c c' -> X c' e) ->
  wp (write_blocks lba data) Q X c.
Proof.
  intros Hc Hl Hb HQ HX. unfold write_blocks. apply wp_bind, wp_card_range; [done| |intros; by apply HX].
  intros (k & Hk & Hin). assert (0 <= k) by (unfold BLOCK in *; lia).
  rewrite Hk in HX. rewrite Z.div_mul in HX by done.
  apply (wp_write_chunks lba k); [done|done|lia|done| |done|done|..]; rewrite ?Z.mul_0_l, ?Z.sub_0_r, ?Z.add_0_r; [| |done].
  - rewrite Hk. by apply chunks_left_start.
  - intros c' Hc' Hd. by apply (HQ c' k).
Qed.
End spec.

(** ** The size in a CSD *)

Lemma land_ones_range x n : 0 <= n -> 0 <= Z.land x (Z.shiftl 1 n - 1) < 2 ^ n.
Proof.
  intros Hn. rewrite Z.shiftl_1_l. replace (2 ^ n - 1) with (Z.ones n) by (rewrite Z.ones_equiv; lia).
  rewrite Z.land_ones by lia. apply Z.mod_pos_bound. lia.
Qed.

(** A field of at most 31 bits that lies in the register. *)
Lemma wp_bits {S E} register start size (Q : S -> Z -> Prop) (X : S -> E -> Prop) s :
  length register = 4%nat -> 0 <= start -> 0 < size < 32 -> start + size <= 128 ->
  (forall x, 0 <= x < 2 ^ size -> Q s x) -> wp (bits register start size) Q X s.
Proof.
  intros Hr Hst Hsz Hin HQ. unfold bits, index_at, get.
  assert (Hat : forall i, 0 <= i <= 3 -> exists w, register !! Z.to_nat i = Some w).
  { intros i Hi. apply lookup_lt_is_Some_2. lia. }
  assert (Ha : 0 <= 3 - start / 32 <= 3) by lia.
  rewrite (proj2 (Z.leb_le _ _)) by lia. destruct (Hat _ Ha) as [w ->]. apply wp_bind, wp_ret, wp_bind.
  rewrite (proj2 (Z.ltb_lt size 32)) by lia.
  destruct (32 <? size + start mod 32) eqn:Ec; [|by apply wp_ret, wp_ret, HQ, land_ones_range; lia].
  assert (Hb : 0 <= 3 - start / 32 - 1 <= 3) by lia.
  rewrite (proj2 (Z.leb_le _ _)) by lia. destruct (Hat _ Hb) as [w' ->].
  apply wp_bind, wp_ret, wp_ret, wp_ret, HQ, land_ones_range; lia.
Qed.

(** The size of a standard-capacity card: at most [4096 * 2 ^ 9 * 2 ^ 2]. *)
Lemma csd_size cs mu bl :
  0 <= cs < 2 ^ 12 -> 0 <= mu < 2 ^ 3 -> 9 <= bl <= 11 ->
  4 <= Z.shiftl (Z.shiftl (cs + 1) (mu + 2) `mod` 2 ^ 64) (bl - 9) `mod` 2 ^ 64 <= 2 ^ 32.
Proof.
  intros Hcs Hmu Hbl. rewrite !Z.shiftl_mul_pow2 by lia.
  assert (Hp : 2 ^ 2 <= 2 ^ (mu + 2) <= 2 ^ 9) by (split; apply Z.pow_le_mono_r; lia).
  assert (Hq : 2 ^ 0 <= 2 ^ (bl - 9) <= 2 ^ 2) by (split; apply Z.pow_le_mono_r; lia).
  change (2 ^ 0) with 1 in Hq. change (2 ^ 2) with 4 in *. change (2 ^ 9) with 512 in *. change (2 ^ 12) with 4096 in *.
  rewrite (Z.mod_small ((cs + 1) * _)) by nia. rewrite Z.mod_small by nia. nia.
Qed.

(** reading a CSD never panics, whatever its 128 bits are, and a size it
    gives is between 4 blocks and 2 to the 32 of them, the most the SD standard
    has an SDXC card hold, so that every block of a card of that kind has a
    32-bit address. *)
Theorem decode_csd_size csd id0 :
  length csd = 4%nat ->
  match decode_csd csd id0 tt with
  | (_, Ok (id, (classes, rate))) =>
      4 <= id_blocks id <= 2 ^ 32 /\ 0 < rate <= DEFAULT_SPEED_DTR /\ 0 <= classes < 2 ^ 12 /\
      block_addressed id = block_addressed id0 /\ rca id = rca id0
  | (_, Err _) => True
  | (_, Stuck _) => False
  end.
Proof.
  intros Hl. set (post := fun (_ : unit) '(id, (classes, rate)) =>
      4 <= id_blocks id <= 2 ^ 32 /\ 0 < rate <= DEFAULT_SPEED_DTR /\ 0 <= classes < 2 ^ 12 /\
      block_addressed id = block_addressed id0 /\ rca id = rca id0).
  assert (Hwp : wp (decode_csd csd id0) post (fun _ _ => True) tt).
  { unfold decode_csd.
    apply wp_bind, wp_bits; [done|lia..|]. intros structure Hstr.
    apply wp_bind, wp_bits; [done|lia..|]. intros ei Hei. apply wp_bind, wp_index; [cbn; lia|]. intros ex Hex.
    apply wp_bind, wp_bits; [done|lia..|]. intros mi Hmi. apply wp_bind, wp_index; [cbn; lia|]. intros mx Hmx.
    assert (He : 0 <= ex <= 10000000) by (unfold TRAN_EXP in Hex; set_unfold in Hex; lia).
    assert (Hm : 0 <= mx <= 80) by (unfold TRAN_MANT in Hmx; set_unfold in Hmx; lia).
    apply wp_bind, wp_checked; [unfold u32_max; nia|]. cbn zeta.
    assert (Hrate : forall r, r = ex * mx -> 0 < (if r =? 0 then DEFAULT_SPEED_DTR else Z.min r DEFAULT_SPEED_DTR) <= DEFAULT_SPEED_DTR).
    { intros r Hr. unfold DEFAULT_SPEED_DTR. assert (0 <= r) by nia. destruct (r =? 0) eqn:E; lia. }
    apply wp_bind, wp_bits; [done|lia..|]. intros classes Hcl.
    assert (Hend : forall blocks, 4 <= blocks <= 2 ^ 32 ->
      wp (let! protected := bits csd 12 2 in
          ret (mkIdentity (block_addressed id0) blocks (high_speed id0) (four_bit id0) (clock id0) (rca id0)
                 (manufacturer id0) (product id0) (negb (protected =? 0)),
               (classes, if ex * mx =? 0 then DEFAULT_SPEED_DTR else Z.min (ex * mx) DEFAULT_SPEED_DTR)))
        post (fun _ (_ : CardError) => True) tt).
    { intros blocks Hb. apply wp_bind, wp_bits; [done|lia..|]. intros prot _. apply wp_ret. unfold post. cbn.
      specialize (Hrate _ eq_refl). split_and!; try done; lia. }
    apply wp_bind. destruct (structure =? 0).
    - apply wp_bind, wp_bits; [done|lia..|]. intros cs Hcs. apply wp_bind, wp_bits; [done|lia..|]. intros mu Hmu.
      apply wp_bind, wp_bits; [done|lia..|]. intros bl Hbl. apply wp_bind. unfold refuse.
      destruct (negb ((9 <=? bl) && (bl <=? 11))) eqn:Eb; [by apply wp_throw|]. apply wp_ret. do 3 (apply wp_bind, wp_checked; [unfold u64_max, u32_max; lia|]). apply wp_ret, Hend.
      apply csd_size; lia.
    - destruct (structure =? 1); [|by apply wp_throw]. apply wp_bind, wp_bits; [done|lia..|]. intros sz Hsz.
      apply wp_bind, wp_checked; [unfold u64_max; lia|]. apply wp_ret, Hend. rewrite Z.shiftl_mul_pow2 by lia. lia. }
  unfold wp in Hwp. destruct (decode_csd csd id0 tt) as [[] [[id [classes rate]]|e|w]]; done.
Qed.

(** ** The theorems *)

Section theorems.
Context {H : Type} `{!SdHost H} `{!SdHostOk H}.

(** waiting for a write to be programmed always ends, within as many turns
    as its ten seconds have microseconds, without its count of polls
    overflowing; and when it succeeds, what the card had accepted is what its
    blocks hold. *)
Theorem wait_programmed_ends (c : Card H) :
  card_wf c ->
  match wait_programmed c with
  | (c', Ok _) => (forall x, card_content (host c') x = card_content (host c) x) /\
      forall b k data, accepted (host c) b data -> 0 <= k -> len data = k * BLOCK ->
        data = seqZ b k ≫= card_content (host c')
  | (c', Err _) => forall x, card_content (host c') x = card_content (host c) x
  | (_, Stuck _) => False
  end.
Proof.
  intros Hc. pose proof (wp_wait_programmed
    (fun c' _ => calm c c' /\ forall b k data, accepted (host c) b data -> 0 <= k -> len data = k * BLOCK ->
        data = seqZ b k ≫= card_content (host c')) (fun c' _ => calm c c') c Hc ltac:(done) ltac:(done)) as Hwp.
  revert Hwp. unfold wp. generalize (wait_programmed c). intros [c' [[]|e|w]]; [|intros Hcalm; by apply ev_same, Hcalm|done].
  intros [Hcalm Hp]. split; [by apply ev_same, Hcalm|done].
Qed.

(** bytes written to the card and read back are the bytes written, however
    many commands the write and the read are split into and whichever of them
    had to be tried again; and a write, whether it succeeds or fails, changes
    no block but the ones it names. *)
Theorem card_write_then_read (c : Card H) lba data :
  card_wf c -> 0 <= lba -> is_bytes data ->
  match write_blocks lba data c with
  | (c1, Ok _) => (forall c2 buf, read_blocks lba (len data) c1 = (c2, Ok buf) -> buf = data) /\
      forall x, ~ lba <= x < lba + len data / BLOCK -> card_content (host c1) x = card_content (host c) x
  | (c1, Err _) => forall x, ~ lba <= x < lba + len data / BLOCK -> card_content (host c1) x = card_content (host c) x
  | (_, Stuck _) => False
  end.
Proof.
  intros Hc Hl Hd. pose proof (wp_write_blocks lba data
    (fun c1 _ => exists k, evolves (run_of lba k) c c1 /\ len data = k * BLOCK /\ data = seqZ lba k ≫= card_content (host c1))
    (fun c1 _ => evolves (run_of lba (len data / BLOCK)) c c1) c Hc Hl Hd) as Hwp. unfold wp in Hwp.
  destruct (write_blocks lba data c) as [c1 [[]|e|w]]; [| |by apply Hwp; [intros c2 k; exists k|]].
  - destruct Hwp as (k & Hev & Hk & Hdat); [intros c2 k; exists k; done|done|]. split.
    + intros c2 buf Er. pose proof (wp_read_blocks lba (len data) (fun _ buf => buf = data) (fun _ _ => True) c1
        (ev_wf _ _ _ Hev) Hl ltac:(lia)) as Hr. unfold wp in Hr. rewrite Er in Hr. apply Hr; [|done].
      intros c3 k' _ Hk' _. assert (k' = k) as -> by (unfold BLOCK in *; lia). done.
    + intros x Hx. apply (ev_content _ _ _ Hev). unfold run_of. rewrite Hk in Hx. rewrite Z.div_mul in Hx by done. done.
  - intros x Hx. assert (Hev : evolves (run_of lba (len data / BLOCK)) c c1) by (apply Hwp; [intros c2 k; exists k|]; done).
    by apply (ev_content _ _ _ Hev).
Qed.
End theorems.
