(* ===== verification/Partition.v ===== *)
(** * Which part of the card the volume is

    [kernel/src/storage/card/partition.rs]: the [Partition] the filesystem is
    given, which is the card with the first block and the length of one volume,
    and [choose], which finds that volume on a card. What a message says is a
    value here; what [report] prints on the console is left out. *)

From S2P Require Import Prelude Safe Bytes Boot BootSpec Cache CacheSpec CacheFlush CacheIo CacheWrite Table TableSpec SafeDir Volume SafeVolume Ops SafeOps Mounted Card CardSpec.

Definition FAT_TYPES : list Z := [0x01; 0x04; 0x06; 0x07; 0x0B; 0x0C; 0x0E].
Definition GPT_PROTECTIVE : Z := 0xEE.

Inductive Verb := Reading | Writing.

(** The message of the last error: what was done, at which block of the volume,
    and why it failed. *)
Definition Report : Type := Verb * Z * CardError.

Record Partition (H : Type) := mkPartition {
  p_card : Card H;
  p_first : Z;
  p_count : Z;
  p_errors : Z;
  p_last : option Report;
}.
Arguments mkPartition {H} p_card p_first p_count p_errors p_last.
Arguments p_card {H} p.
Arguments p_first {H} p.
Arguments p_count {H} p.
Arguments p_errors {H} p.
Arguments p_last {H} p.

Inductive DeviceErr := DeviceError.

Section partition.
Context {H : Type} `{!SdHost H}.

Abbreviation PM := (M (Partition H) DeviceErr).

Definition absolute (block bytes : Z) : PM Z :=
  let! volume := gets p_count in
  let! first := gets p_first in
  let count := bytes / BLOCK in
  refuse (negb (bytes `mod` BLOCK =? 0)
          || match checked_add64 block count with Some stop => volume <? stop | None => true end)
    DeviceError ;;;
  u64 (first + block).

Definition report {A} (what : Verb) (block : Z) (why : CardError) : PM A :=
  modify (fun p => mkPartition (p_card p) (p_first p) (p_count p) (saturating_add32 (p_errors p) 1)
                     (Some (what, block, why))) ;;;
  throw DeviceError.

(** [self.card.method(..)], its error a value. *)
Definition on_card {A} (m : M (Card H) CardError A) : PM (A + CardError) :=
  fun p => match m (p_card p) with
           | (c, r) =>
               (mkPartition c (p_first p) (p_count p) (p_errors p) (p_last p),
                match r with Ok a => Ok (inl a) | Err e => Ok (inr e) | Stuck w => Stuck w end)
           end.

Definition partition_read (block bytes : Z) : PM (list Z) :=
  let! lba := absolute block bytes in
  let! r := on_card (read_blocks lba bytes) in
  match r with inl buf => ret buf | inr why => report Reading block why end.

Definition partition_write (block : Z) (data : list Z) : PM unit :=
  let! lba := absolute block (len data) in
  let! r := on_card (write_blocks lba data) in
  match r with inl _ => ret tt | inr why => report Writing block why end.

(** [impl Blocks for Partition]. A panic, which the theorems rule out, is no
    value of the trait. *)
#[global] Instance Partition_Blocks : Blocks (Partition H) := {
  blk_count := p_count;
  blk_read p block n :=
    match partition_read block n p with (p', Ok buf) => (p', Some buf) | (p', _) => (p', None) end;
  blk_write p block data :=
    match partition_write block data p with (p', Ok _) => (p', Some tt) | (p', _) => (p', None) end;
}.

(** ** Choosing the volume *)

(** Which part of the card a candidate is. *)
Inductive Part := WholeCard | PartitionOf (slot : Z).

Definition Candidate : Type := Z * Z * Part * option Z.

Record Chosen := mkChosen { partition : Partition H; probed : Probe; what_part : Part; slot : option Z }.

Inductive Seen :=
| SeenLabel (what : Part) (label : list Z)
| SeenError (what : Part) (why : BootError) (card_error : option Report).

Inductive ChooseError :=
| BlockZero (why : CardError)
| NoValidTable
| GptTable
| NoTable
| NoFatPartition
| NoLabel (label : list Z) (seen : list Seen).

Abbreviation KM := (M (Card H) ChooseError).

(** The [le32] of this file, which panics outside the slice. *)
Definition entry_le32 (data : list Z) (at_ : Z) : KM Z :=
  let! b0 := index_at data at_ in
  let! b1 := index_at data (at_ + 1) in
  let! b2 := index_at data (at_ + 2) in
  let! b3 := index_at data (at_ + 3) in
  ret (b0 + 256 * b1 + 65536 * b2 + 16777216 * b3).

(** [entries.iter().any(..)]: a boot indicator other than 0 or 0x80. *)
Fixpoint bad_indicator (entries : list (list Z)) : KM bool :=
  match entries with
  | [] => ret false
  | entry :: entries =>
      let! indicator := index_at entry 0 in
      if negb (indicator =? 0) && negb (indicator =? 0x80) then ret true else bad_indicator entries
  end.

(** The loop over the MBR's entries, from entry [at_]. *)
Fixpoint table_candidates (blocks at_ : Z) (entries : list (list Z)) (found : list Candidate) : KM (list Candidate) :=
  match entries with
  | [] => ret found
  | entry :: entries =>
      let! kind := index_at entry 4 in
      let! start := entry_le32 entry 8 in
      let! length := entry_le32 entry 12 in
      refuse (kind =? GPT_PROTECTIVE) GptTable ;;;
      let! stop := u64 (start + length) in
      let! number := usize (at_ + 1) in
      let found :=
        if existsb (Z.eqb kind) FAT_TYPES && (0 <? start) && (0 <? length) && (stop <=? blocks)
        then found ++ [(start, length, PartitionOf number, Some number)] else found in
      table_candidates blocks number entries found
  end.

Definition candidates (sector : list Z) (blocks : Z) : KM (list Candidate) :=
  if looks_like_boot_sector sector then ret [(0, blocks, WholeCard, None)]
  else
    let! s0 := index_at sector 510 in
    let! s1 := index_at sector 511 in
    if (s0 =? 0x55) && (s1 =? 0xAA) then
      let! table := match get_range sector 446 510 with Some t => ret t | None => fail_with Panic end in
      let entries := chunks_exact 16 table in
      let! bad := bad_indicator entries in
      refuse bad NoValidTable ;;;
      table_candidates blocks 0 entries []
    else throw NoTable.

(** The loop over the candidates. *)
Fixpoint look_at (label : list Z) (found : list Candidate) (seen : list Seen) : KM Chosen :=
  match found with
  | [] => throw (match seen with [] => NoFatPartition | _ => NoLabel label seen end)
  | (first, count, what, slot) :: found =>
      fun card =>
        match probe (mkPartition card first count 0 None) with
        | (p, Ok pr) =>
            if labelled pr label then (p_card p, Ok (mkChosen p pr what slot))
            else look_at label found (seen ++ [SeenLabel what (Boot.label pr)]) (p_card p)
        | (p, Err why) => look_at label found (seen ++ [SeenError what why (p_last p)]) (p_card p)
        | (p, Stuck w) => (p_card p, Stuck w)
        end
  end.

Definition choose (label : list Z) : KM Chosen :=
  let! sector := map_err BlockZero (read_blocks 0 BLOCK) in
  let! blocks := gets (fun c => id_blocks (identity c)) in
  let! found := candidates sector blocks in
  look_at label found [].
End partition.
Arguments Chosen : clear implicits.

(** * A partition is a device, and only a part of the card

    [Partition] keeps what the cache and the volume rely on of a device, and
    whatever is read or written through it, no other block of the card changes.
    The laws of the device carry that with them ([dev_wf] of [Partition_ok]), so
    it holds after any requests on a volume mounted on a partition. *)

Section spec.
Context {H : Type} `{!SdHost H} `{!SdHostOk H}.
Implicit Types (c : Card H) (p : Partition H).

(** The volume lies in the card. *)
Record partition_wf p : Prop := {
  pw_card : card_wf (p_card p);
  pw_first : 0 <= p_first p;
  pw_count : 0 <= p_count p;
  pw_inside : p_first p + p_count p <= card_size (host (p_card p));
}.

(** [p'] is [p] later: the same part of the card, of which only the blocks
    [R] of the volume may have changed. *)
Definition moves (R : Z -> Prop) p p' : Prop :=
  partition_wf p' /\ p_first p' = p_first p /\ p_count p' = p_count p /\
  evolves (fun x => R (x - p_first p)) (p_card p) (p_card p').

Lemma moves_step R p c e l :
  partition_wf p -> evolves (fun x => R (x - p_first p)) (p_card p) c ->
  moves R p (mkPartition c (p_first p) (p_count p) e l).
Proof.
  intros [Hc Hf Hn Hin] Hev. destruct (evolves_host _ _ _ Hc Hev) as [_ Hs].
  split; [split; cbn; [apply Hev|done|done|by rewrite Hs]|done].
Qed.

Lemma moves_refl R p : partition_wf p -> moves R p p.
Proof. intros Hp. split; [done|]. split_and!; [done|done|]. apply evolves_refl. apply Hp. Qed.

(** [absolute]: the one place a block of the volume becomes one of the card. *)
Lemma wp_absolute block bytes (Q : Partition H -> Z -> Prop) X p :
  partition_wf p -> 0 <= block -> 0 <= bytes ->
  (forall k, bytes = k * BLOCK -> 0 <= k -> block + k <= p_count p -> Q p (p_first p + block)) -> X p DeviceError ->
  wp (absolute block bytes) Q X p.
Proof.
  intros Hp Hb Hn HQ HX. unfold absolute. apply wp_bind, wp_gets, wp_bind, wp_gets, wp_bind. unfold refuse.
  case_match eqn:E; [by apply wp_throw|]. apply wp_ret. apply orb_false_iff in E as [Em%negb_false_iff%Z.eqb_eq Ea].
  unfold checked_add64 in Ea. destruct (block + bytes / BLOCK <=? u64_max); [|done]. apply Z.ltb_ge in Ea.
  pose proof (cw_size _ (pw_card _ Hp)) as [_ Hs]. pose proof (pw_first _ Hp). pose proof (pw_inside _ Hp).
  assert (0 <= bytes / BLOCK) by (unfold BLOCK; lia).
  apply wp_checked; [lia|]. apply (HQ (bytes / BLOCK)); unfold BLOCK in *; lia.
Qed.

Lemma wp_partition_read block bytes (Q : Partition H -> list Z -> Prop) X p :
  partition_wf p -> 0 <= block -> 0 <= bytes ->
  (forall p' k, moves nothing p p' -> bytes = k * BLOCK -> 0 <= k -> block + k <= p_count p ->
     Q p' (seqZ (p_first p + block) k ≫= card_content (host (p_card p)))) ->
  (forall p', moves nothing p p' -> X p' DeviceError) ->
  wp (partition_read block bytes) Q X p.
Proof.
  intros Hp Hb Hn HQ HX. unfold partition_read. apply wp_bind, wp_absolute; [done..| |by apply HX, moves_refl].
  intros k Hk Hk0 Hin. apply wp_bind. unfold on_card, wp.
  pose proof (wp_read_blocks (p_first p + block) bytes
                (fun c' buf => evolves nothing (p_card p) c' /\ buf = seqZ (p_first p + block) k ≫= card_content (host (p_card p)))
                (fun c' _ => evolves nothing (p_card p) c') (p_card p) (pw_card _ Hp)) as Hr.
  pose proof (pw_first _ Hp). specialize (Hr ltac:(lia) Hn).
  assert (Hr' : wp (read_blocks (p_first p + block) bytes)
                (fun c' buf => evolves nothing (p_card p) c' /\ buf = seqZ (p_first p + block) k ≫= card_content (host (p_card p)))
                (fun c' _ => evolves nothing (p_card p) c') (p_card p)).
  { apply Hr; [|done]. intros c' k' Hc' Hk' _. split; [done|]. assert (k' = k) as -> by (unfold BLOCK in *; lia). done. }
  clear Hr. unfold wp in Hr'. destruct (read_blocks _ _ _) as [c' [buf|e|w]]; [| |done].
  - destruct Hr' as [Hev ->]. cbn. apply (HQ _ k); [by apply moves_step|done..].
  - cbn. by apply HX, moves_step.
Qed.

Lemma wp_partition_write block data (Q : Partition H -> unit -> Prop) X p :
  partition_wf p -> 0 <= block -> is_bytes data ->
  let k := len data / BLOCK in
  (forall p', moves (run_of block k) p p' -> block + k <= p_count p -> len data = k * BLOCK ->
     data = seqZ (p_first p + block) k ≫= card_content (host (p_card p')) -> Q p' tt) ->
  (forall p', moves (fun x => run_of block k x /\ block + k <= p_count p) p p' -> X p' DeviceError) ->
  wp (partition_write block data) Q X p.
Proof.
  intros Hp Hb Hd k HQ HX. unfold partition_write. apply wp_bind, wp_absolute; [done|done|lia| |by apply HX, moves_refl].
  intros k' Hk Hk0 Hin. assert (k' = k) as -> by (unfold k; rewrite Hk; unfold BLOCK; lia).
  apply wp_bind. unfold on_card, wp. pose proof (pw_first _ Hp).
  assert (Hshift : forall c', evolves (run_of (p_first p + block) k) (p_card p) c' ->
    evolves (fun x => run_of block k (x - p_first p)) (p_card p) c').
  { intros c'. apply evolves_weaken. unfold run_of. lia. }
  assert (Hw : wp (write_blocks (p_first p + block) data)
                (fun c' _ => evolves (run_of (p_first p + block) k) (p_card p) c' /\
                   data = seqZ (p_first p + block) k ≫= card_content (host c'))
                (fun c' _ => evolves (run_of (p_first p + block) k) (p_card p) c') (p_card p)).
  { apply wp_write_blocks; [apply Hp|lia|done| |done]. intros c' k' Hc' Hk' _ Hdat.
    assert (k' = k) as -> by (unfold BLOCK in *; lia). done. }
  unfold wp in Hw. destruct (write_blocks _ _ _) as [c' [[]|e|w]]; [| |done].
  - destruct Hw as [Hev Hdat]. cbn. apply HQ; [by apply moves_step, Hshift|done|done|done].
  - cbn. apply HX, moves_step; [done|]. eapply evolves_weaken; [|by apply Hshift]. cbn. auto.
Qed.

(** ** The laws of a device *)

(** A partition of the [count] blocks from [first] of the card that was [c0],
    and whose other blocks hold what they held then. *)
Definition guarded (first count : Z) (c0 : Card H) p : Prop :=
  partition_wf p /\ p_first p = first /\ p_count p = count /\ evolves (run_of first count) c0 (p_card p).

Lemma moves_guarded (R : Z -> Prop) first count c0 p p' :
  guarded first count c0 p -> (forall x, R x -> 0 <= x < count) -> moves R p p' ->
  guarded first count c0 p' /\ p_count p' = p_count p /\
  forall x, ~ R x -> card_content (host (p_card p')) (p_first p' + x) = card_content (host (p_card p)) (p_first p + x).
Proof.
  intros (Hp & <- & <- & Hout) HR (Hp' & Hf & Hc & Hev). split; [|split; [done|]].
  - split_and!; [done|done|done|]. eapply evolves_trans; [done|]. eapply evolves_weaken; [|done].
    intros x Hr%HR. unfold run_of. lia.
  - intros x Hx. rewrite Hf. apply (ev_content _ _ _ Hev). by replace (p_first p + x - p_first p) with x by lia.
Qed.

Lemma run_shift (f : Z -> list Z) first b k : seqZ (first + b) k ≫= f = seqZ b k ≫= (fun x => f (first + x)).
Proof. by rewrite <- (fmap_add_seqZ first b k), list_fmap_bind. Qed.

Lemma run_bytes (f : Z -> list Z) b k : (forall x, is_bytes (f x)) -> is_bytes (seqZ b k ≫= f).
Proof. intros Hf. apply Forall_bind, Forall_forall. intros x _. apply Hf. Qed.

#[program] Definition Partition_ok (first count : Z) (c0 : Card H) : BlocksOk (Partition H) := {|
  dev_wf := guarded first count c0;
  content p x := card_content (host (p_card p)) (p_first p + x);
|}.
Next Obligation.
  intros first count c0 p (Hp & _). pose proof (cw_size _ (pw_card _ Hp)). destruct Hp. cbn. lia.
Qed.
Next Obligation. intros first count c0 p b (Hp & _). apply card_length, (pw_card _ Hp). Qed.
Next Obligation. intros first count c0 p b (Hp & _). apply card_bytes, (pw_card _ Hp). Qed.
Next Obligation.
  intros first count c0 p b n p' r Hp Hb Hn. cbn. intros E.
  pose proof (wp_partition_read b n (fun p' _ => moves nothing p p') (fun p' _ => moves nothing p p') p (proj1 Hp) Hb Hn
                ltac:(done) ltac:(done)) as Hwp. unfold wp in Hwp.
  assert (Hm : moves nothing p p') by (destruct (partition_read b n p) as [p1 [d|e|w]]; [by simplify_eq..|done]).
  destruct (moves_guarded nothing _ _ _ _ _ Hp ltac:(done) Hm) as (Hg & Hc & Hx). split_and!; [done|done|]. intros x. apply Hx. intros [].
Qed.
Next Obligation.
  intros first count c0 p b n p' data (Hp & _) Hb Hn. cbn. intros E.
  pose proof (wp_partition_read b n (fun _ buf => is_bytes buf) (fun _ _ => True) p Hp Hb Hn) as Hwp. unfold wp in Hwp.
  destruct (partition_read b n p) as [p1 [d|e|w]]; [|done|done]. injection E as -> ->. apply Hwp; [|done].
  intros p1 k _ _ _ _. apply run_bytes. intros x. apply card_bytes, (pw_card _ Hp).
Qed.
Next Obligation.
  intros first count c0 p b k p' data (Hp & _) Hb Hk Hin. cbn. intros E.
  pose proof (wp_partition_read b (k * BLOCK)
                (fun _ buf => buf = seqZ (p_first p + b) k ≫= card_content (host (p_card p)))
                (fun _ _ => True) p Hp Hb ltac:(unfold BLOCK; lia)) as Hwp. unfold wp in Hwp.
  destruct (partition_read b (k * BLOCK) p) as [p1 [d|e|w]]; [|done|done]. injection E as -> ->.
  rewrite <- run_shift. apply Hwp; [|done].
  intros p1 k' _ Hk' _ _. assert (k' = k) as -> by (unfold BLOCK in *; lia). done.
Qed.
Next Obligation.
  intros first count c0 p b k data p' r Hp Hb Hk Hin Hl Hd. cbn in *. intros E.
  assert (Hkk : len data / BLOCK = k) by (rewrite Hl; unfold BLOCK; lia).
  pose proof (wp_partition_write b data (fun p' _ => moves (run_of b k) p p') (fun p' _ => moves (run_of b k) p p') p
                (proj1 Hp) Hb Hd) as Hwp. cbn zeta in Hwp. rewrite Hkk in Hwp. specialize (Hwp ltac:(done)).
  assert (Hany : forall p', moves (fun x => run_of b k x /\ b + k <= p_count p) p p' -> moves (run_of b k) p p').
  { intros p2 (? & ? & ? & Hev). split_and!; [done..|]. eapply evolves_weaken; [|exact Hev]. cbn. tauto. }
  specialize (Hwp Hany). unfold wp in Hwp.
  assert (Hm : moves (run_of b k) p p').
  { destruct (partition_write b data p) as [p1 [d|e|w]]; [injection E as <- _; exact Hwp..|done]. }
  destruct Hp as (Hp & Hf & Hc & Ho).
  destruct (moves_guarded (run_of b k) first count c0 p p') as (Hg & Hc' & Hx); [done| |done|].
  - unfold run_of. cbn in Hin. lia.
  - split_and!; [done|done|]. intros x Hnx. by apply Hx.
Qed.
Next Obligation.
  intros first count c0 p b k data p' (Hp & Hf & Hc & Ho) Hb Hk Hin Hl Hd. cbn in *. intros E.
  assert (Hkk : len data / BLOCK = k) by (rewrite Hl; unfold BLOCK; lia).
  pose proof (wp_partition_write b data
                (fun p' _ => p_first p' = p_first p /\ data = seqZ (p_first p + b) k ≫= card_content (host (p_card p')))
                (fun _ _ => True) p Hp Hb Hd) as Hwp. cbn zeta in Hwp. rewrite Hkk in Hwp. unfold wp in Hwp.
  destruct (partition_write b data p) as [p1 [d|e|w]]; [|done|done]. injection E as ->.
  destruct Hwp as [Hff Hdat]; [intros p2 (_ & ? & _) _ _ ?; done|done|]. rewrite <- run_shift, Hff. exact Hdat.
Qed.

(** ** Choosing *)

(** What every candidate is: a part of the card, and the whole of it only for
    a card without a partition table. *)
Definition candidate_ok (blocks : Z) (k : Candidate) : Prop :=
  let '(first, count, what, slot) := k in
  0 <= first /\ 0 <= count /\ first + count <= blocks /\
  match slot with
  | None => what = WholeCard /\ first = 0 /\ count = blocks
  | Some n => what = PartitionOf n /\ 0 < first /\ 0 < count /\ 1 <= n <= 4
  end.

(** An entry of the table. *)
Definition entry_ok (entry : list Z) : Prop := length entry = 16%nat /\ is_bytes entry.

Lemma chunks_exact_ok fuel l :
  is_bytes l -> Forall entry_ok (chunks_exact_fuel fuel 16 l) /\ (length (chunks_exact_fuel fuel 16 l) * 16 <= length l)%nat.
Proof.
  revert l. induction fuel as [|fuel IH]; intros l Hl; cbn [chunks_exact_fuel]; [split; [constructor|cbn; lia]|].
  destruct (length l <? 16)%nat eqn:E; [split; [constructor|cbn; lia]|]. apply Nat.ltb_ge in E.
  destruct (IH (drop 16 l) ltac:(by apply Forall_drop)) as [HF HL]. rewrite length_drop in HL. split; [|cbn [length]; lia].
  constructor; [|done]. split; [rewrite length_take; lia|by apply Forall_take].
Qed.

Lemma wp_entry_index entry i (Q : Card H -> Z -> Prop) (X : Card H -> ChooseError -> Prop) c :
  entry_ok entry -> 0 <= i < 16 -> (forall x, is_u8 x -> Q c x) -> wp (index_at entry i) Q X c.
Proof.
  intros [Hl Hb] Hi HQ. apply wp_index; [lia|]. intros x Hx. apply HQ. unfold is_bytes in Hb. rewrite Forall_forall in Hb. by apply Hb.
Qed.

Lemma wp_entry_le32 entry i (Q : Card H -> Z -> Prop) (X : Card H -> ChooseError -> Prop) c :
  entry_ok entry -> 0 <= i -> i + 4 <= 16 -> (forall x, 0 <= x <= u32_max -> Q c x) -> wp (entry_le32 entry i) Q X c.
Proof.
  intros He Hi Hi4 HQ. unfold entry_le32.
  apply wp_bind, wp_entry_index; [done|lia|]. intros b0 H0. apply wp_bind, wp_entry_index; [done|lia|]. intros b1 H1.
  apply wp_bind, wp_entry_index; [done|lia|]. intros b2 H2. apply wp_bind, wp_entry_index; [done|lia|]. intros b3 H3.
  apply wp_ret, HQ. unfold is_u8, u8_max, u32_max in *. lia.
Qed.

Lemma wp_bad_indicator entries (Q : Card H -> bool -> Prop) (X : Card H -> ChooseError -> Prop) c :
  Forall entry_ok entries -> (forall b, Q c b) -> wp (bad_indicator entries) Q X c.
Proof.
  intros He HQ. induction He as [|entry entries He _ IH]; [by apply wp_ret|]. cbn [bad_indicator].
  apply wp_bind, wp_entry_index; [done|lia|]. intros x _. case_match; [by apply wp_ret|done].
Qed.

Lemma wp_table_candidates blocks at_ entries found (Q : Card H -> list Candidate -> Prop) (X : Card H -> ChooseError -> Prop) c :
  Forall entry_ok entries -> 0 <= at_ -> at_ + len entries <= 4 -> Forall (candidate_ok blocks) found ->
  (forall found, Forall (candidate_ok blocks) found -> Q c found) -> (forall e, X c e) ->
  wp (table_candidates blocks at_ entries found) Q X c.
Proof.
  intros He Hat Hn Hf HQ HX. revert at_ found Hat Hn Hf.
  induction He as [|entry entries He _ IH]; intros at_ found Hat Hn Hf; cbn [table_candidates]; [by apply wp_ret, HQ|].
  cbn [length] in Hn. apply wp_bind, wp_entry_index; [done|lia|]. intros kind _.
  apply wp_bind, wp_entry_le32; [done|lia|lia|]. intros start Hs.
  apply wp_bind, wp_entry_le32; [done|lia|lia|]. intros count Hc.
  apply wp_bind. unfold refuse. case_match; [by apply wp_throw|]. apply wp_ret.
  apply wp_bind, wp_checked; [unfold u32_max, u64_max in *; lia|].
  apply wp_bind, wp_checked; [unfold u64_max; lia|]. apply IH; [lia|lia|].
  destruct (existsb (Z.eqb kind) FAT_TYPES && (0 <? start) && (0 <? count) && (start + count <=? blocks)) eqn:E; [|done].
  apply andb_true_iff in E as [E Eb]. apply andb_true_iff in E as [E Ec]. apply andb_true_iff in E as [_ Es].
  apply Forall_app. split; [done|]. constructor; [|constructor]. cbn. split_and!; try done; lia.
Qed.

Lemma wp_candidates sector blocks (Q : Card H -> list Candidate -> Prop) (X : Card H -> ChooseError -> Prop) c :
  length sector = Z.to_nat BLOCK -> is_bytes sector -> 0 <= blocks ->
  (forall found, Forall (candidate_ok blocks) found -> Q c found) -> (forall e, X c e) ->
  wp (candidates sector blocks) Q X c.
Proof.
  intros Hl Hb Hn HQ HX. unfold candidates, BLOCK in *. destruct (looks_like_boot_sector sector).
  { apply wp_ret, HQ. constructor; [|constructor]. cbn. split_and!; try done; lia. }
  apply wp_bind, wp_index; [lia|]. intros s0 _. apply wp_bind, wp_index; [lia|]. intros s1 _.
  destruct ((s0 =? 0x55) && (s1 =? 0xAA)); [|by apply wp_throw]. apply wp_bind.
  destruct (get_range sector 446 510) as [table|] eqn:Et.
  - apply wp_ret. apply get_range_Some in Et as (_ & _ & ->).
    destruct (chunks_exact_ok (length (take (Z.to_nat (510 - 446)) (drop (Z.to_nat 446) sector)))
                (take (Z.to_nat (510 - 446)) (drop (Z.to_nat 446) sector))) as [He Hcount]; [by apply Forall_take, Forall_drop|].
    rewrite length_take, length_drop in Hcount. fold (chunks_exact 16 (take (Z.to_nat (510 - 446)) (drop (Z.to_nat 446) sector))) in *.
    apply wp_bind, wp_bad_indicator; [done|]. intros bad. apply wp_bind. unfold refuse. destruct bad; [by apply wp_throw|].
    apply wp_ret, wp_table_candidates; [done|lia| |constructor|done|done]. unfold chunks_exact. rewrite length_take, length_drop. lia.
  - unfold get_range in Et. replace ((0 <=? 446) && (446 <=? 510) && (510 <=? len sector)) with true in Et by lia. done.
Qed.

(** A partition of a candidate, on a card that may have been read since. *)
Lemma candidate_guarded c first count what slot e l :
  card_wf c -> candidate_ok (id_blocks (identity c)) (first, count, what, slot) ->
  guarded first count c (mkPartition c first count e l).
Proof.
  intros Hc (H1 & H2 & H3 & _). destruct (cw_size _ Hc) as [Hs _]. rewrite Hs in H3. by split; [split|].
Qed.

(** What [choose] promises of the volume it chose. *)
Record chosen_ok (label : list Z) c (ch : Chosen H) : Prop := {
  ch_candidate : candidate_ok (id_blocks (identity c))
                   (p_first (partition ch), p_count (partition ch), what_part ch, slot ch);
  ch_device : guarded (p_first (partition ch)) (p_count (partition ch)) c (partition ch);
  ch_unchanged : evolves nothing c (p_card (partition ch));
  ch_layout : layout_wf (p_count (partition ch)) (layout_of (probed ch));
  ch_label : labelled (probed ch) label = true;
}.

(** Probing a candidate reads, and changes nothing. *)
Lemma wp_probe_candidate c first count what slot :
  card_wf c -> candidate_ok (id_blocks (identity c)) (first, count, what, slot) ->
  let after := fun p => guarded first count c p /\ evolves nothing c (p_card p) in
  wp probe (fun p pr => after p /\ layout_wf count (layout_of pr)) (fun p _ => after p) (mkPartition c first count 0 None).
Proof.
  intros Hc Hk after. pose proof (candidate_guarded c first count what slot 0 None Hc Hk) as Hg.
  assert (Hafter : forall p, @same_device _ _ (Partition_ok first count c) (mkPartition c first count 0 None) p -> after p).
  { intros p (Hp & Hn & Hx). split; [done|]. destruct Hp as (_ & Hf & _ & Hev). cbn in Hx. rewrite Hf in Hx.
    split; [apply Hev|apply Hev|]. intros x _. destruct (decide (run_of first count x)) as [Hr|Hr].
    - specialize (Hx (x - first)). by replace (first + (x - first)) with x in Hx by lia.
    - by apply (ev_content _ _ _ Hev). }
  eapply wp_mono; [exact (@wp_probe _ _ (Partition_ok first count c) _ Hg)| |]; [|intros p e Hp; by apply Hafter].
  intros p pr [Hp Hl]. split; [by apply Hafter|exact Hl].
Qed.

Lemma wp_look_at label found seen c0 c :
  card_wf c0 -> evolves nothing c0 c -> Forall (candidate_ok (id_blocks (identity c0))) found ->
  wp (look_at label found seen)
    (fun c' ch => p_card (partition ch) = c' /\ chosen_ok label c0 ch) (fun c' _ => evolves nothing c0 c') c.
Proof.
  intros Hc0 Hc Hf. revert seen c Hc. induction Hf as [|[[[first count] what] slot] found Hk _ IH]; intros seen c Hc; cbn [look_at].
  { by apply wp_throw. }
  assert (Hk' : candidate_ok (id_blocks (identity c)) (first, count, what, slot)) by (by rewrite (ev_identity _ _ _ Hc)).
  pose proof (wp_probe_candidate c first count what slot (ev_wf _ _ _ Hc) Hk') as Hwp. unfold wp in Hwp |- *.
  destruct (probe _) as [p [pr|why|w]]; [| |done].
  - destruct Hwp as [[Hg Hev] Hl]. assert (Hall : evolves nothing c0 (p_card p)) by (by eapply evolves_trans).
    destruct (labelled pr label) eqn:El; [|by apply IH].
    split; [done|]. destruct Hg as (Hp & Hf & Hn & Hg). split; cbn; rewrite ?Hf, ?Hn; try done.
    split_and!; try done. eapply evolves_weaken; [|exact Hall]. intros x [].
  - destruct Hwp as [_ Hev]. apply IH. by eapply evolves_trans.
Qed.

Lemma wp_choose label c :
  card_wf c ->
  wp (choose label) (fun c' ch => p_card (partition ch) = c' /\ chosen_ok label c ch) (fun c' _ => evolves nothing c c') c.
Proof.
  intros Hc. unfold choose. apply wp_bind, wp_map_err, wp_read_blocks; [done|lia|unfold BLOCK; lia| |done].
  intros c1 k Hc1 Hk Hin. assert (k = 1) as -> by (unfold BLOCK in *; lia). apply wp_bind, wp_gets, wp_bind.
  rewrite (ev_identity _ _ _ Hc1). destruct (cw_size _ Hc) as [Hs Hu].
  apply wp_candidates; [|apply run_bytes; intros x; apply card_bytes, Hc|lia| |done].
  - rewrite (bind_length_const _ (Z.to_nat BLOCK)); [done|]. intros x _. apply card_length, Hc.
  - intros found Hf. by apply wp_look_at.
Qed.
End spec.

(** ** The theorems *)

Section theorems.
Context {H : Type} `{!SdHost H} `{!SdHostOk H}.

(** whatever block and bytes the filesystem asks a partition to write, no
    block of the card outside the partition changes, and of the partition
    only those it asked for; bytes that do not fit in the partition are
    refused and change nothing. It never panics, and this holds when commands
    of the card fail half-way. *)
Theorem partition_write_contained (p : Partition H) block data :
  partition_wf p -> 0 <= block -> is_bytes data ->
  let after := fun p' =>
    forall x, ~ (p_first p + block <= x < p_first p + block + len data / BLOCK /\ p_first p <= x < p_first p + p_count p) ->
      card_content (host (p_card p')) x = card_content (host (p_card p)) x in
  match partition_write block data p with
  | (p', Ok _) => after p' /\ block + len data / BLOCK <= p_count p
  | (p', Err _) => after p' /\
      (p_count p < block + len data / BLOCK -> forall x, card_content (host (p_card p')) x = card_content (host (p_card p)) x)
  | (_, Stuck _) => False
  end.
Proof.
  intros Hp Hb Hd after.
  pose proof (wp_partition_write block data
    (fun p' _ => moves (run_of block (len data / BLOCK)) p p' /\ block + len data / BLOCK <= p_count p)
    (fun p' _ => moves (fun x => run_of block (len data / BLOCK) x /\ block + len data / BLOCK <= p_count p) p p')
    p Hp Hb Hd ltac:(done) ltac:(done)) as Hwp. unfold wp in Hwp.
  destruct (partition_write block data p) as [p' [[]|e|w]]; [| |done].
  - destruct Hwp as [(_ & _ & _ & Hev) Hin]. split; [|done]. intros x Hx. apply (ev_content _ _ _ Hev). unfold run_of. lia.
  - destruct Hwp as (_ & _ & _ & Hev). split; [intros x Hx|intros Hout x]; apply (ev_content _ _ _ Hev); unfold run_of; lia.
Qed.

(** a card is searched for its volume without writing to it and without a
    panic, whatever the card holds. The volume chosen lies inside the card;
    it is past block 0 unless there is no partition table, and then it is the
    whole card; its label is the one asked for; and its layout fits in it. *)
Theorem choose_chooses (c : Card H) label :
  card_wf c ->
  match choose label c with
  | (c', Ok ch) =>
      p_card (partition ch) = c' /\ labelled (probed ch) label = true /\
      candidate_ok (card_size (host c)) (p_first (partition ch), p_count (partition ch), what_part ch, slot ch) /\
      layout_wf (p_count (partition ch)) (layout_of (probed ch)) /\
      forall x, card_content (host c') x = card_content (host c) x
  | (c', Err _) => forall x, card_content (host c') x = card_content (host c) x
  | (_, Stuck _) => False
  end.
Proof.
  intros Hc. pose proof (wp_choose label c Hc) as Hwp. unfold wp in Hwp. destruct (cw_size _ Hc) as [Hs _].
  destruct (choose label c) as [c' [ch|e|w]]; [| |done].
  - destruct Hwp as [<- [Hk _ Hev Hl Hlab]]. rewrite Hs in Hk. split_and!; try done. by apply ev_same.
  - by apply ev_same.
Qed.

(** C2: a volume is chosen on a card and mounted, and any requests are served.
    Then every block of the card outside the volume's partition holds what it
    held before the card was looked at: whatever the FAT, the directories or
    the requests say, and whichever commands fail, the boot partition is not
    touched. *)
Theorem rest_of_card_untouched (c c' : Card H) label ch clk v v' :
  card_wf c -> choose label c = (c', Ok ch) ->
  mount (partition ch) (layout_of (probed ch)) clk = Ok v -> reachable (fun _ => True) v v' ->
  forall x, ~ p_first (partition ch) <= x < p_first (partition ch) + p_count (partition ch) ->
    card_content (host (p_card (blocks (cache v')))) x = card_content (host c) x.
Proof.
  intros Hc Hch Hm Hreach x Hx. pose proof (wp_choose label c Hc) as Hwp. unfold wp in Hwp. rewrite Hch in Hwp.
  destruct Hwp as [_ [_ Hdev _ Hl _]]. set (laws := Partition_ok (p_first (partition ch)) (p_count (partition ch)) c).
  pose proof (@resting_mount _ _ laws _ _ clk v Hdev Hl Hm) as Hv.
  destruct (@reachable_resting _ _ laws _ _ _ v v' Hl ltac:(by eexists) Hreach) as [w [[_ [[Hok _] _]] _]].
  destruct (ok_dev _ Hok) as (_ & _ & _ & Hev). by apply (ev_content _ _ _ Hev).
Qed.
End theorems.
