(* ===== verification/Pipe.v ===== *)
(** * Pipes

    [kernel/src/fs/pipe.rs]: the buffer of a pipe, and the named pipes that are
    open. A task may be preempted, and another run, wherever no lock is held, so
    what one holding of a lock does is one step here, and the operations are
    their steps: [read] is [read_take], which holds the buffer's lock, and then
    [read_verdict], which does not. The queues of waiting tasks are left out: a
    task that waits looks again, and waking it changes nothing of a pipe. *)

From S2P Require Import Prelude Words.

Definition PIPE_CAPACITY : Z := 64 * 1024.

Inductive PipeEnd := EndRead | EndWrite | EndBoth.

#[global] Instance PipeEnd_eq : EqDecision PipeEnd.
Proof. solve_decision. Defined.

Definition reads (e : PipeEnd) : bool := match e with EndRead | EndBoth => true | EndWrite => false end.
Definition writes_end (e : PipeEnd) : bool := match e with EndWrite | EndBoth => true | EndRead => false end.

Record Buffer := mkBuffer { b_data : list Z; b_head : Z }.

Record Pipe := mkPipe {
  buffer : Buffer;
  readers : Z;
  writers : Z;
  reader_opens : Z;
  writer_opens : Z;
  fifo : option Z;
}.

(** [fetch_add] and [fetch_sub] wrap. *)
Definition wrap64 (x : Z) : Z := x `mod` (u64_max + 1).

Definition make (ino : option Z) : Pipe := mkPipe (mkBuffer [] 0) 0 0 0 0 ino.

Definition with_buffer (b : Buffer) (p : Pipe) : Pipe :=
  mkPipe b (readers p) (writers p) (reader_opens p) (writer_opens p) (fifo p).

Definition available (p : Pipe) : Z := len (b_data (buffer p)) - b_head (buffer p).
Definition writable_now (p : Pipe) : bool := available p <? PIPE_CAPACITY.

(** ** Reading and writing *)

(** The first part of the loop of [read], under the buffer's lock: up to [n]
    bytes, or nothing if there are none. *)
Definition read_take (n : Z) (p : Pipe) : Pipe * option (list Z) :=
  let b := buffer p in
  let avail := available p in
  if 0 <? avail then
    let n := Z.min avail n in
    let got := take (Z.to_nat n) (drop (Z.to_nat (b_head b)) (b_data b)) in
    let head := b_head b + n in
    let b := if head =? len (b_data b) then mkBuffer [] 0 else mkBuffer (b_data b) head in
    (with_buffer b p, Some got)
  else (p, None).

(** What a turn of the loop ends with: a return, or a wait for the pipe to
    change, after which the loop goes round again. *)
Inductive Outcome := Done (bytes : list Z) | Fails (e : Errno) | Waits.

(** The rest of the loop, after an empty buffer: [signal] is
    [has_pending_signal()]. *)
Definition read_verdict (nonblock signal : bool) (p : Pipe) : Outcome :=
  if writers p =? 0 then Done []
  else if nonblock then Fails EAGAIN
  else if signal then Fails EINTR
  else Waits.

(** One turn of [read] that nothing comes between. *)
Definition read (n : Z) (nonblock signal : bool) (p : Pipe) : Pipe * Outcome :=
  if n =? 0 then (p, Done [])
  else
    match read_take n p with
    | (p, Some got) => (p, Done got)
    | (p, None) => (p, read_verdict nonblock signal p)
    end.

(** [write] under the buffer's lock: as many bytes of [buf] as there is room
    for. *)
Definition write_put (buf : list Z) (p : Pipe) : Pipe * option Z :=
  let b := buffer p in
  let used := available p in
  if used <? PIPE_CAPACITY then
    let n := Z.min (len buf) (PIPE_CAPACITY - used) in
    (with_buffer (mkBuffer (b_data b ++ take (Z.to_nat n) buf) (b_head b)) p, Some n)
  else (p, None).

Inductive Written := Wrote (n : Z) | WriteFails (e : Errno) | WriteWaits.

Definition write (buf : list Z) (nonblock signal : bool) (p : Pipe) : Pipe * Written :=
  if bool_decide (buf = []) then (p, Wrote 0)
  else if readers p =? 0 then (p, WriteFails EPIPE)
  else
    match write_put buf p with
    | (p, Some n) => (p, Wrote n)
    | (p, None) => (p, if nonblock then WriteFails EAGAIN else if signal then WriteFails EINTR else WriteWaits)
    end.

(** The predicates [wait_until] waits for. *)
Definition read_ready (signal : bool) (p : Pipe) : bool :=
  (b_head (buffer p) <? len (b_data (buffer p))) || (writers p =? 0) || signal.
Definition write_ready (signal : bool) (p : Pipe) : bool :=
  (available p <? PIPE_CAPACITY) || (readers p =? 0) || signal.

(** ** Counting the ends *)

(** The counts of [fifo_join]. *)
Definition count_on (e : PipeEnd) (p : Pipe) : Pipe :=
  let p := if reads e then mkPipe (buffer p) (wrap64 (readers p + 1)) (writers p)
                             (wrap64 (reader_opens p + 1)) (writer_opens p) (fifo p) else p in
  if writes_end e then mkPipe (buffer p) (readers p) (wrap64 (writers p + 1))
                         (reader_opens p) (wrap64 (writer_opens p + 1)) (fifo p) else p.

Definition give_back (e : PipeEnd) (p : Pipe) : Pipe :=
  let p := if reads e then mkPipe (buffer p) (wrap64 (readers p - 1)) (writers p)
                             (reader_opens p) (writer_opens p) (fifo p) else p in
  if writes_end e then mkPipe (buffer p) (readers p) (wrap64 (writers p - 1))
                         (reader_opens p) (writer_opens p) (fifo p) else p.

(** ** Named pipes

    [heap] holds every pipe ever made, an [Arc] being an index into it;
    [fifos] is [FIFOS]; [opened] the open files on pipes, each with its pipe
    and the ends it holds. *)

Record World := mkWorld { heap : list Pipe; fifos : gmap Z nat; opened : list (nat * PipeEnd) }.

Definition update_pipe (id : nat) (f : Pipe -> Pipe) (w : World) : World :=
  mkWorld (alter f id (heap w)) (fifos w) (opened w).

Definition pipe_of (w : World) (id : nat) : Pipe := default (make None) (heap w !! id).

(** The pipe joined, and the other side's count of opens before that. *)
Definition fifo_join (ino : Z) (e : PipeEnd) (nonblock : bool) (w : World) : World * result Errno (nat * Z) :=
  let existing := fifos w !! ino in
  let no_readers := match existing with Some id => readers (pipe_of w id) =? 0 | None => true end in
  if bool_decide (e = EndWrite) && nonblock && no_readers then (w, Err ENXIO)
  else
    let '(id, w) := match existing with
                    | Some id => (id, w)
                    | None => let id := length (heap w) in
                              (id, mkWorld (heap w ++ [make (Some ino)]) (<[ino := id]> (fifos w)) (opened w))
                    end in
    let p := pipe_of w id in
    let seen := if bool_decide (e = EndWrite) then reader_opens p else writer_opens p in
    (update_pipe id (count_on e) w, Ok (id, seen)).

Definition leave (id : nat) (e : PipeEnd) (w : World) : World :=
  match fifo (pipe_of w id) with
  | None => update_pipe id (give_back e) w
  | Some ino =>
      let w := update_pipe id (give_back e) w in
      let p := pipe_of w id in
      if (readers p =? 0) && (writers p =? 0) then mkWorld (heap w) (delete ino (fifos w)) (opened w) else w
  end.

Definition O_WRONLY : Z := 1.
Definition O_RDWR : Z := 2.
Definition O_ACCMODE : Z := 3.
Definition O_NONBLOCK : Z := 2048.

Definition end_of (flags : Z) : PipeEnd :=
  let mode := Z.land flags O_ACCMODE in
  if mode =? O_WRONLY then EndWrite else if mode =? O_RDWR then EndBoth else EndRead.

(** [open_fifo] up to its wait: the file is open, and [waits] says whether the
    call goes on to wait for the other side, with the count it saw. *)
Record Opening := mkOpening { o_pipe : nat; o_end : PipeEnd; o_seen : Z; o_waits : bool }.

Definition open_fifo (ino flags : Z) (w : World) : World * result Errno Opening :=
  let e := end_of flags in
  let nonblock := negb (Z.land flags O_NONBLOCK =? 0) in
  match fifo_join ino e nonblock w with
  | (w, Ok (id, seen)) =>
      (mkWorld (heap w) (fifos w) ((id, e) :: opened w),
       Ok (mkOpening id e seen (negb (bool_decide (e = EndBoth)) && negb nonblock)))
  | (w, Err err) => (w, Err err)
  | (w, Stuck s) => (w, Stuck s)
  end.

(** [arrived], for a file that holds one end. *)
Definition arrived (w : World) (o : Opening) : bool :=
  let p := pipe_of w (o_pipe o) in
  let '(want, opens) :=
    if bool_decide (o_end o = EndWrite) then (readers p, reader_opens p) else (writers p, writer_opens p) in
  (0 <? want) || negb (opens =? o_seen o).

Definition create_pair (w : World) : World * (nat * nat) :=
  let id := length (heap w) in
  (mkWorld (heap w ++ [mkPipe (mkBuffer [] 0) 1 1 0 0 None]) (fifos w) ((id, EndRead) :: (id, EndWrite) :: opened w), (id, id)).

(** [Drop for OpenFile], for a file on a pipe. *)
Definition close (id : nat) (e : PipeEnd) (w : World) : World :=
  match list_find (fun f => f = (id, e)) (opened w) with
  | Some (i, _) => let w := leave id e w in mkWorld (heap w) (fifos w) (delete i (opened w))
  | None => w
  end.

(** * A pipe is a queue of bytes

    What is read from a pipe is what was written to it, in order, whatever the
    interleaving of its readers and writers; a task waits exactly while the
    condition it waits for is false; and two properties the code does not have:
    the end of file a reader sees is not always the end, and the memory of a
    pipe is not bounded by its capacity. *)

(** ** The buffer *)

(** What has been written and not read. *)
Definition contents (p : Pipe) : list Z := drop (Z.to_nat (b_head (buffer p))) (b_data (buffer p)).

Record pipe_wf (p : Pipe) : Prop := {
  pi_head : 0 <= b_head (buffer p) <= len (b_data (buffer p));
  pi_room : available p <= PIPE_CAPACITY;
  pi_empty : available p = 0 -> buffer p = mkBuffer [] 0;
}.

Lemma contents_length p : pipe_wf p -> len (contents p) = available p.
Proof. intros [Hh _ _]. unfold contents, available. rewrite length_drop. lia. Qed.

Lemma make_wf ino : pipe_wf (make ino).
Proof. split; cbn; done || (unfold available, PIPE_CAPACITY; cbn; lia). Qed.

(** The bytes come off the front, at least one and at most [n]. *)
Lemma read_take_spec n p :
  pipe_wf p -> 0 < n ->
  match read_take n p with
  | (p', Some got) => pipe_wf p' /\ contents p = got ++ contents p' /\ len got = Z.min (available p) n /\ 0 < len got /\
      p' = with_buffer (buffer p') p
  | (p', None) => p' = p /\ contents p = []
  end.
Proof.
  intros [Hh Hr He] Hn. unfold read_take. destruct (0 <? available p) eqn:Ea.
  - apply Z.ltb_lt in Ea. set (k := Z.min (available p) n). set (data := b_data (buffer p)) in *. set (head := b_head (buffer p)) in *.
    assert (Hav : available p = len data - head) by done.
    assert (Hk : 0 < k <= len data - head) by (unfold k; lia).
    assert (Hgot : len (take (Z.to_nat k) (drop (Z.to_nat head) data)) = k) by (rewrite length_take, length_drop; lia).
    assert (Hsplit : drop (Z.to_nat head) data = take (Z.to_nat k) (drop (Z.to_nat head) data) ++ drop (Z.to_nat (head + k)) data).
    { replace (Z.to_nat (head + k)) with (Z.to_nat head + Z.to_nat k)%nat by lia. by rewrite <- drop_drop, take_drop. }
    destruct (head + k =? len data) eqn:El.
    + apply Z.eqb_eq in El. split_and!; [split; cbn; [lia|unfold available; cbn; unfold PIPE_CAPACITY; lia|done]| |done|lia|done].
      transitivity (take (Z.to_nat k) (drop (Z.to_nat head) data) ++ drop (Z.to_nat (head + k)) data); [exact Hsplit|].
      f_equal. rewrite drop_ge by lia. done.
    + apply Z.eqb_neq in El. split_and!; [split; cbn; [lia| |]|done|done|lia|done].
      * unfold available at 1. cbn. fold data. lia.
      * unfold available at 1. cbn. fold data. lia.
  - apply Z.ltb_ge in Ea. split; [done|]. unfold contents. apply drop_ge. unfold available in *. lia.
Qed.

(** The bytes go on the back, at least one of them if there were any. *)
Lemma write_put_spec buf p :
  pipe_wf p ->
  match write_put buf p with
  | (p', Some n) => pipe_wf p' /\ contents p' = contents p ++ take (Z.to_nat n) buf /\ 0 <= n <= len buf /\
      (buf <> [] -> 0 < n) /\ (n < len buf -> available p' = PIPE_CAPACITY) /\ p' = with_buffer (buffer p') p
  | (p', None) => p' = p /\ available p = PIPE_CAPACITY
  end.
Proof.
  intros [Hh Hr He]. unfold write_put. destruct (available p <? PIPE_CAPACITY) eqn:Ea; [|split; [done|lia]].
  apply Z.ltb_lt in Ea. set (n := Z.min (len buf) (PIPE_CAPACITY - available p)).
  assert (Hn : 0 <= n <= len buf) by (unfold n; lia).
  assert (Hav : len (b_data (buffer p) ++ take (Z.to_nat n) buf) - b_head (buffer p) = available p + n).
  { rewrite length_app, length_take. unfold available. lia. }
  split_and!; [split; cbn| |lia|lia| | |done].
  - rewrite length_app. lia.
  - unfold available at 1. cbn. rewrite Hav. unfold n. lia.
  - unfold available at 1. cbn. rewrite Hav. intros H0. assert (n = 0) by (unfold available in *; lia).
    rewrite (He ltac:(lia)). cbn. replace (Z.to_nat n) with 0%nat by lia. done.
  - unfold contents. cbn. rewrite drop_app_le by lia. done.
  - intros Hb. destruct buf; [done|]. unfold n. cbn [length]. lia.
  - intros Hlt. unfold available at 1. cbn. rewrite Hav. unfold n in *. lia.
Qed.

(** ** Any interleaving *)

(** What a task does to a pipe while it holds the lock or with one atomic
    operation, in the order it happens. *)
Inductive event :=
| EvTake (n : Z)
| EvPut (buf : list Z)
| EvJoin (e : PipeEnd)
| EvLeave (e : PipeEnd).

Definition event_ok (ev : event) : Prop := match ev with EvTake n => 0 < n | _ => True end.

(** The pipe after, what was read, and what was written. *)
Definition happen (ev : event) (p : Pipe) : Pipe * list Z * list Z :=
  match ev with
  | EvTake n => let '(p, got) := read_take n p in (p, default [] got, [])
  | EvPut buf => let '(p, n) := write_put buf p in (p, [], match n with Some n => take (Z.to_nat n) buf | None => [] end)
  | EvJoin e => (count_on e p, [], [])
  | EvLeave e => (give_back e p, [], [])
  end.

Fixpoint happens (evs : list event) (p : Pipe) : Pipe * list Z * list Z :=
  match evs with
  | [] => (p, [], [])
  | ev :: evs =>
      let '(p, got, put) := happen ev p in
      let '(p, got', put') := happens evs p in
      (p, got ++ got', put ++ put')
  end.

Lemma same_buffer_wf p q : buffer q = buffer p -> pipe_wf p -> pipe_wf q.
Proof. intros Hb [Hh Hr He]. unfold available in *. split; unfold available; by rewrite Hb. Qed.

Lemma count_on_buffer e p : buffer (count_on e p) = buffer p.
Proof. by destruct e. Qed.
Lemma give_back_buffer e p : buffer (give_back e p) = buffer p.
Proof. by destruct e. Qed.

Lemma happen_spec ev p :
  pipe_wf p -> event_ok ev ->
  let '(p', got, put) := happen ev p in pipe_wf p' /\ contents p ++ put = got ++ contents p'.
Proof.
  intros Hp Hev. destruct ev as [n|buf|e|e]; cbn [happen].
  - pose proof (read_take_spec n p Hp Hev) as H. destruct (read_take n p) as [p' [got|]]; cbn.
    + destruct H as (Hp' & Hc & _). by rewrite app_nil_r.
    + destruct H as [-> _]. by rewrite app_nil_r.
  - pose proof (write_put_spec buf p Hp) as H. destruct (write_put buf p) as [p' [n|]].
    + by destruct H as (Hp' & Hc & _).
    + destruct H as [-> _]. by rewrite app_nil_r.
  - rewrite app_nil_r. split; [by eapply same_buffer_wf; [apply count_on_buffer|]|]. unfold contents. by rewrite count_on_buffer.
  - rewrite app_nil_r. split; [by eapply same_buffer_wf; [apply give_back_buffer|]|]. unfold contents. by rewrite give_back_buffer.
Qed.

(** C35: whatever the tasks that share a pipe do, in whatever order their steps
    fall, the bytes read so far followed by those still in it are the bytes that
    were in it followed by those written: none is lost, read twice, or out of
    order. And it never holds more unread than its capacity. *)
Theorem pipe_is_queue evs p :
  pipe_wf p -> Forall event_ok evs ->
  let '(p', got, put) := happens evs p in
  contents p ++ put = got ++ contents p' /\ pipe_wf p' /\ len (contents p') <= PIPE_CAPACITY.
Proof.
  revert p. induction evs as [|ev evs IH]; intros p Hp Hevs; cbn [happens].
  { rewrite app_nil_r. split_and!; [done|done|]. rewrite contents_length by done. apply Hp. }
  apply Forall_cons in Hevs as [Hev Hevs]. pose proof (happen_spec ev p Hp Hev) as H1.
  destruct (happen ev p) as [[p1 got] put]. destruct H1 as [Hp1 Hc1]. specialize (IH p1 Hp1 Hevs).
  destruct (happens evs p1) as [[p2 got'] put']. destruct IH as (Hc2 & Hp2 & Hl). split_and!; [|done|done].
  by rewrite app_assoc, Hc1, <- app_assoc, Hc2, app_assoc.
Qed.

(** a task that reads waits exactly while the condition it sleeps on is
    false, so a wake-up that finds the condition true always gets it past the
    wait; when nothing comes between its look at the buffer and its look at the
    writers, end of file means that the pipe is empty and has no writer. *)
Theorem read_waits_iff n nonblock signal p :
  pipe_wf p -> 0 < n ->
  ((read n nonblock signal p).2 = Waits <-> nonblock = false /\ read_ready signal p = false) /\
  ((read n nonblock signal p).2 = Done [] <-> contents p = [] /\ writers p = 0).
Proof.
  intros Hp Hn. unfold read, read_ready. rewrite (proj2 (Z.eqb_neq n 0)) by lia.
  pose proof (read_take_spec n p Hp Hn) as H. pose proof (contents_length p Hp) as Hl. unfold available in Hl.
  destruct (read_take n p) as [p' [got|]]; cbn [snd].
  - destruct H as (_ & Hc & Hlen & Hpos & _). assert (Hne : contents p <> []) by (destruct got; [cbn in Hpos; lia|by rewrite Hc]).
    assert (0 < len (contents p)) by (destruct (contents p); [done|cbn; lia]).
    rewrite (proj2 (Z.ltb_lt _ _)) by lia. split; split; [done|by intros [_ ?]| |by intros [? _]].
    intros [= ->]. cbn in Hpos. lia.
  - destruct H as [-> Hc]. rewrite Hc in Hl. cbn in Hl. rewrite (proj2 (Z.ltb_ge _ _)) by lia. cbn [orb]. unfold read_verdict.
    destruct (writers p =? 0) eqn:Ew; [apply Z.eqb_eq in Ew|apply Z.eqb_neq in Ew]; cbn [orb].
    + split; split; [done|by intros [_ ?]|done|done].
    + destruct nonblock, signal; split; split; naive_solver.
Qed.

(** a task that writes waits exactly while the condition it sleeps on is
    false, and a write that ends well has put a first part of its bytes, not
    none of them, and all of them unless the pipe is now full. *)
Theorem write_waits_iff buf nonblock signal p :
  pipe_wf p -> buf <> [] ->
  ((write buf nonblock signal p).2 = WriteWaits <-> nonblock = false /\ write_ready signal p = false) /\
  (forall p' n, write buf nonblock signal p = (p', Wrote n) ->
     0 < n <= len buf /\ contents p' = contents p ++ take (Z.to_nat n) buf /\ (n < len buf -> available p' = PIPE_CAPACITY)).
Proof.
  intros Hp Hb. unfold write, write_ready. rewrite bool_decide_eq_false_2 by done.
  pose proof (write_put_spec buf p Hp) as H.
  destruct (readers p =? 0) eqn:Er; [rewrite orb_true_r; cbn; split; [split; [done|by intros [_ ?]]|done]|].
  destruct (write_put buf p) as [p' [n|]] eqn:Ew; cbn [snd].
  - destruct H as (_ & Hc & Hn & Hpos & Hfull & _). split.
    + unfold write_put in Ew. destruct (available p <? PIPE_CAPACITY); [|done]. split; [done|by intros [_ ?]].
    + intros p1 n1 [= <- <-]. split_and!; [by apply Hpos|lia|done|done].
  - destruct H as [-> Hf]. rewrite (proj2 (Z.ltb_ge _ _)) by lia. cbn [orb].
    split; [destruct nonblock, signal; naive_solver|]. intros p1 n1. by destruct nonblock, signal.
Qed.

(** ** One reader among other tasks *)

(** Where a reader of [n] bytes is: before its look at the buffer, after having
    found it empty, or returned. *)
Inductive ReaderAt := Looking | FoundEmpty | Returned (o : Outcome).

Inductive reader_step (n : Z) (nonblock : bool) : Pipe * ReaderAt -> Pipe * ReaderAt -> Prop :=
| rs_take p p' got : read_take n p = (p', Some got) -> reader_step n nonblock (p, Looking) (p', Returned (Done got))
| rs_empty p p' : read_take n p = (p', None) -> reader_step n nonblock (p, Looking) (p', FoundEmpty)
| rs_return p signal o : read_verdict nonblock signal p = o -> o <> Waits -> reader_step n nonblock (p, FoundEmpty) (p, Returned o)
| rs_wait p signal : read_verdict nonblock signal p = Waits -> reader_step n nonblock (p, FoundEmpty) (p, Looking)
| rs_other p p' got put at_ ev : event_ok ev -> happen ev p = (p', got, put) -> reader_step n nonblock (p, at_) (p', at_).

(** C37: end of file is reported to a reader although there are bytes in the
    pipe. The buffer's lock is given up before the writers are counted; a task
    that writes and closes in between leaves a pipe with bytes and no writers,
    and the reader, which saw no bytes and now sees no writers, returns 0. *)
Theorem early_end_of_file :
  exists p p' : Pipe, pipe_wf p /\ readers p = 1 /\ writers p = 1 /\
    rtc (reader_step 1 false) (p, Looking) (p', Returned (Done [])) /\ contents p' = [65].
Proof.
  exists (mkPipe (mkBuffer [] 0) 1 1 0 0 None), (mkPipe (mkBuffer [65] 0) 1 0 0 0 None).
  split_and!; [by apply (same_buffer_wf (make None)); [|apply make_wf]|done|done| |done].
  eapply rtc_l; [by eapply rs_empty|].
  eapply rtc_l; [by eapply (rs_other _ _ _ _ _ _ _ (EvPut [65]))|].
  eapply rtc_l; [by eapply (rs_other _ _ _ _ _ _ _ (EvLeave EndWrite))|].
  eapply rtc_l; [by eapply (rs_return _ _ _ false)|]. done.
Qed.

(** ** The memory of a pipe *)

(** One byte in, then [k] times one byte in and one out. *)
Definition never_empty (k : nat) : list event := EvPut [0] :: concat (replicate k [EvPut [0]; EvTake 1]).

Lemma put_one j p :
  buffer p = mkBuffer (replicate (S j) 0) (Z.of_nat j) ->
  write_put [0] p = (with_buffer (mkBuffer (replicate (S (S j)) 0) (Z.of_nat j)) p, Some 1).
Proof.
  intros Hb. unfold write_put. assert (available p = 1) as -> by (unfold available; rewrite Hb; cbn; rewrite length_replicate; lia).
  rewrite Hb. by rewrite (replicate_S_end (S j)).
Qed.

Lemma take_one j p :
  buffer p = mkBuffer (replicate (S (S j)) 0) (Z.of_nat j) ->
  buffer (read_take 1 p).1 = mkBuffer (replicate (S (S j)) 0) (Z.of_nat (S j)).
Proof.
  intros Hb. unfold read_take. assert (available p = 2) as -> by (unfold available; rewrite Hb; cbn; rewrite length_replicate; lia).
  rewrite Hb. cbn [b_data b_head]. rewrite length_replicate. change (Z.min 2 1) with 1. change (0 <? 2) with true. cbn iota.
  rewrite (proj2 (Z.eqb_neq (Z.of_nat j + 1) _)) by lia. cbn. f_equal. lia.
Qed.

Lemma never_empty_grows k j p :
  buffer p = mkBuffer (replicate (S j) 0) (Z.of_nat j) ->
  buffer (happens (concat (replicate k [EvPut [0]; EvTake 1])) p).1.1 = mkBuffer (replicate (S (k + j)) 0) (Z.of_nat (k + j)).
Proof.
  revert j p. induction k as [|k IH]; intros j p Hb; [exact Hb|]. cbn [replicate concat app happens happen].
  rewrite (put_one j p Hb). set (p1 := with_buffer _ p). pose proof (take_one j p1 eq_refl) as Ht.
  destruct (read_take 1 p1) as [p2 got]. specialize (IH (S j) p2 Ht). rewrite Nat.add_succ_r in IH.
  destruct (happens _ p2) as [[p3 got'] put']. exact IH.
Qed.

(** the memory a pipe takes is not bounded by its capacity. Bytes that have
    been read stay in the buffer until it is empty, so a reader that is always
    one byte behind its writer makes it grow by every byte that passes. *)
Theorem pipe_memory_unbounded (bound : Z) :
  exists evs, Forall event_ok evs /\
    let '(p, _, _) := happens evs (make None) in bound < len (b_data (buffer p)) /\ len (contents p) <= 1.
Proof.
  exists (never_empty (Z.to_nat bound)). split.
  { constructor; [done|]. apply Forall_concat, Forall_replicate. repeat constructor; cbn; lia. }
  unfold never_empty. cbn [happens happen]. change (write_put [0] (make None)) with
    (with_buffer (mkBuffer [0] 0) (make None), Some 1). cbn iota beta.
  pose proof (never_empty_grows (Z.to_nat bound) 0 (with_buffer (mkBuffer [0] 0) (make None)) eq_refl) as Hg.
  destruct (happens _ _) as [[p got] put]. cbn [fst] in Hg. unfold contents. rewrite Hg. cbn [b_data b_head].
  rewrite length_drop, length_replicate. lia.
Qed.
