(* ===== verification/FifoSpec.v ===== *)
(** * The named pipes that are open

    The counts of a pipe are the open files that hold its ends, and the
    registry holds a pipe exactly while a file is open on it, so that the two
    sides of a FIFO meet at one buffer and no entry is left behind. *)

From S2P Require Import Prelude Words Pipe.

(** How many open files hold an end of pipe [id] that [f] accepts. *)
Definition ends (f : PipeEnd -> bool) (id : nat) (files : list (nat * PipeEnd)) : Z :=
  len (filter (fun x => x.1 = id /\ f x.2 = true) files).

Definition live (w : World) (id : nat) : Prop := exists e, (id, e) ∈ opened w.

(** Pipe [id] is the FIFO of inode [ino]. *)
Definition names (w : World) (id : nat) (ino : Z) : Prop := exists p, heap w !! id = Some p /\ fifo p = Some ino.

(** The invariant, while the pipes in [extra] are registered and about to be
    joined: [fifo_join] registers a pipe before it counts the first end on it,
    under one lock. *)
Record wf_but (extra : nat -> Prop) (w : World) : Prop := {
  ww_opened : forall id, live w id -> (id < length (heap w))%nat;
  ww_readers : forall id p, heap w !! id = Some p -> readers p = ends reads id (opened w);
  ww_writers : forall id p, heap w !! id = Some p -> writers p = ends writes_end id (opened w);
  ww_fifos : forall ino id, fifos w !! ino = Some id <-> names w id ino /\ (live w id \/ extra id);
  ww_few : len (opened w) <= u64_max;
}.

Definition world_wf : World -> Prop := wf_but (fun _ => False).

(** ** Counting *)

Lemma ends_cons f id x files : ends f id (x :: files) = (if decide (x.1 = id /\ f x.2 = true) then 1 else 0) + ends f id files.
Proof. unfold ends. rewrite filter_cons. case_decide; cbn [length]; lia. Qed.

Lemma ends_range f id files : 0 <= ends f id files <= len files.
Proof. unfold ends. pose proof (length_filter (fun x : nat * PipeEnd => x.1 = id /\ f x.2 = true) files). lia. Qed.

Lemma ends_perm f id files files' : files ≡ₚ files' -> ends f id files = ends f id files'.
Proof. intros Hp. unfold ends. by rewrite Hp. Qed.

Lemma ends_fresh f id files : (forall e, (id, e) ∉ files) -> ends f id files = 0.
Proof.
  intros Hn. induction files as [|[i e] files IH]; [done|]. rewrite ends_cons, IH by (intros e'; specialize (Hn e'); set_solver).
  case_decide as Hd; [|done]. destruct Hd as [Hi _]. cbn in Hi. subst i. specialize (Hn e). set_solver.
Qed.

(** No ends at all: no file. *)
Lemma ends_none id files : ends reads id files = 0 -> ends writes_end id files = 0 -> forall e, (id, e) ∉ files.
Proof.
  induction files as [|[i e] files IH]; intros Hr Hw e'; [set_solver|]. rewrite ends_cons in Hr, Hw.
  pose proof (ends_range reads id files). pose proof (ends_range writes_end id files). cbn [fst snd] in *.
  intros [Heq|Hin]%elem_of_cons; [|revert Hin; apply IH; repeat case_decide; lia].
  injection Heq as <- <-. destruct e'; repeat case_decide; naive_solver lia.
Qed.

Lemma wrap64_small x : 0 <= x <= u64_max -> wrap64 x = x.
Proof. intros Hx. unfold wrap64. apply Z.mod_small. lia. Qed.

Lemma count_on_counts e p :
  0 <= readers p < u64_max -> 0 <= writers p < u64_max ->
  readers (count_on e p) = readers p + (if reads e then 1 else 0) /\
  writers (count_on e p) = writers p + (if writes_end e then 1 else 0) /\ fifo (count_on e p) = fifo p.
Proof. intros Hr Hw. destruct e; cbn; rewrite ?wrap64_small by lia; split_and!; lia || done. Qed.

Lemma give_back_counts e p :
  (reads e = true -> 0 < readers p <= u64_max) -> (writes_end e = true -> 0 < writers p <= u64_max) ->
  readers (give_back e p) = readers p - (if reads e then 1 else 0) /\
  writers (give_back e p) = writers p - (if writes_end e then 1 else 0) /\ fifo (give_back e p) = fifo p.
Proof. intros Hr Hw. destruct e; cbn in *; rewrite ?wrap64_small by (specialize (Hr eq_refl) || specialize (Hw eq_refl); lia); split_and!; lia || done. Qed.

(** ** Opening *)

(** Joining a pipe that the registry holds. *)
Lemma join_wf w id e ino :
  wf_but (eq id) w -> names w id ino -> len (opened w) < u64_max ->
  world_wf (mkWorld (alter (count_on e) id (heap w)) (fifos w) ((id, e) :: opened w)).
Proof.
  intros [Ho Hr Hw Hf Hn] (p & Hp & Hino) Hroom.
  assert (Hcnt : forall i q, heap w !! i = Some q -> 0 <= readers q < u64_max /\ 0 <= writers q < u64_max).
  { intros i q Hq. rewrite (Hr _ _ Hq), (Hw _ _ Hq).
    pose proof (ends_range reads i (opened w)). pose proof (ends_range writes_end i (opened w)). lia. }
  assert (Hnames : forall i n, names (mkWorld (alter (count_on e) id (heap w)) (fifos w) ((id, e) :: opened w)) i n <-> names w i n).
  { intros i n. unfold names. cbn. destruct (decide (i = id)) as [->|Hne].
    - rewrite list_lookup_alter_eq, Hp. cbn. split; intros (q & [= <-] & Hq); eexists; (split; [done|]); by destruct e.
    - by rewrite list_lookup_alter_ne. }
  split; cbn [heap fifos opened].
  - intros i (e' & Hin). cbn in Hin. rewrite length_alter. apply elem_of_cons in Hin as [[= -> ->]|Hin].
    + by apply lookup_lt_Some in Hp.
    + apply Ho. by exists e'.
  - intros i q Hq. rewrite ends_cons. cbn [fst snd]. destruct (decide (i = id)) as [->|Hne].
    + rewrite list_lookup_alter_eq, Hp in Hq. injection Hq as <-. destruct (Hcnt _ _ Hp) as [H1 H2].
      destruct (count_on_counts e p H1 H2) as (-> & _). rewrite (Hr _ _ Hp). destruct (reads e); case_decide; naive_solver lia.
    + rewrite list_lookup_alter_ne in Hq by done. rewrite decide_False by naive_solver. by apply Hr.
  - intros i q Hq. rewrite ends_cons. cbn [fst snd]. destruct (decide (i = id)) as [->|Hne].
    + rewrite list_lookup_alter_eq, Hp in Hq. injection Hq as <-. destruct (Hcnt _ _ Hp) as [H1 H2].
      destruct (count_on_counts e p H1 H2) as (_ & -> & _). rewrite (Hw _ _ Hp). destruct (writes_end e); case_decide; naive_solver lia.
    + rewrite list_lookup_alter_ne in Hq by done. rewrite decide_False by naive_solver. by apply Hw.
  - intros n i. rewrite Hnames, Hf. unfold live. cbn [opened]. split; intros [Hi Hl]; (split; [done|]).
    + left. destruct Hl as [[e' Hin]|<-]; [exists e'; by apply elem_of_cons; right|exists e; by apply elem_of_cons; left].
    + destruct Hl as [[e' Hin]|[]]. apply elem_of_cons in Hin as [[= -> ->]|Hin]; [by right|left; by exists e'].
  - cbn [length]. lia.
Qed.

Lemma registered_wf w id ino : world_wf w -> fifos w !! ino = Some id -> wf_but (eq id) w /\ names w id ino.
Proof.
  intros [Ho Hr Hw Hf Hn] Hreg. apply Hf in Hreg as [Hnm [Hlive|[]]]. split; [|done]. split; [done..| |done].
  intros n i. rewrite Hf. naive_solver.
Qed.

(** A new pipe, registered. *)
Lemma fresh_wf w ino :
  world_wf w -> fifos w !! ino = None ->
  let id := length (heap w) in
  let w' := mkWorld (heap w ++ [make (Some ino)]) (<[ino := id]> (fifos w)) (opened w) in
  wf_but (eq id) w' /\ names w' id ino.
Proof.
  intros [Ho Hr Hw Hf Hn] Hnone id w'.
  assert (Hfresh : forall e, (id, e) ∉ opened w) by (intros e Hin; specialize (Ho id ltac:(by exists e)); unfold id in Ho; lia).
  assert (Hlook : forall i q, heap w' !! i = Some q -> heap w !! i = Some q \/ (i = id /\ q = make (Some ino))).
  { intros i q Hq. cbn in Hq. apply lookup_app_Some in Hq as [Hq|[Hge Hq]]; [by left|right].
    apply list_lookup_singleton_Some in Hq as [Hz <-]. unfold id. split; [lia|done]. }
  assert (Hnew : names w' id ino) by (exists (make (Some ino)); split; [cbn; by rewrite list_lookup_middle|done]).
  assert (Hold : forall i n, i <> id -> names w' i n <-> names w i n).
  { intros i n Hne. split; intros (q & Hq & Hqn).
    - apply Hlook in Hq as [Hq|[? _]]; [by exists q|done].
    - exists q. split; [cbn; by apply lookup_app_l_Some|done]. }
  split; [|done]. split.
  - intros i Hi. cbn. rewrite length_app. specialize (Ho i Hi). lia.
  - intros i q Hq. apply Hlook in Hq as [Hq|[-> ->]]; [by apply Hr|]. cbn. by rewrite ends_fresh.
  - intros i q Hq. apply Hlook in Hq as [Hq|[-> ->]]; [by apply Hw|]. cbn. by rewrite ends_fresh.
  - intros n i. cbn [fifos w']. destruct (decide (n = ino)) as [->|Hne].
    + rewrite lookup_insert_eq. split; [intros [= <-]; by split; [|right]|]. intros [Hnm Hl].
      destruct (decide (i = id)) as [->|Hni]; [done|]. apply Hold in Hnm; [|done].
      destruct Hl as [Hl|<-]; [|done]. rewrite (proj2 (Hf ino i)) in Hnone by (split; [done|by left]). done.
    + rewrite lookup_insert_ne by done. rewrite Hf. destruct (decide (i = id)) as [->|Hni].
      * split; intros [Hnm Hl].
        -- destruct Hl as [[e Hin]|[]]. by apply Hfresh in Hin.
        -- destruct Hnm as (q & Hq & Hqn). apply Hlook in Hq as [Hq|[_ ->]]; [apply lookup_lt_Some in Hq; unfold id in Hq; lia|].
           injection Hqn as ->. done.
      * rewrite Hold by done. unfold live. cbn. naive_solver.
  - done.
Qed.

Lemma open_fifo_wf ino flags w w' r :
  world_wf w -> len (opened w) < u64_max -> open_fifo ino flags w = (w', r) -> world_wf w'.
Proof.
  intros Hw Hroom. unfold open_fifo, fifo_join. destruct (_ && _ && _); [by intros [= <- _]|].
  destruct (fifos w !! ino) as [id|] eqn:Er; intros [= <- _].
  - destruct (registered_wf w id ino Hw Er) as [Hb Hnm]. by apply (join_wf w id _ ino).
  - destruct (fresh_wf w ino Hw Er) as [Hb Hnm]. exact (join_wf _ _ (end_of flags) ino Hb Hnm Hroom).
Qed.

Lemma create_pair_wf w : world_wf w -> len (opened w) + 1 < u64_max -> world_wf (create_pair w).1.
Proof.
  intros [Ho Hr Hw Hf Hn] Hroom. unfold create_pair. cbn [fst]. set (id := length (heap w)).
  assert (Hfresh : forall e, (id, e) ∉ opened w) by (intros e Hin; specialize (Ho id ltac:(by exists e)); unfold id in Ho; lia).
  set (p0 := mkPipe _ 1 1 0 0 None).
  assert (Hlook : forall i q, (heap w ++ [p0]) !! i = Some q -> (i <> id /\ heap w !! i = Some q) \/ (i = id /\ q = p0)).
  { intros i q Hq. apply lookup_app_Some in Hq as [Hq|[Hge Hq]].
    - left. split; [|done]. apply lookup_lt_Some in Hq. unfold id. lia.
    - right. apply list_lookup_singleton_Some in Hq as [Hz <-]. unfold id. split; [lia|done]. }
  assert (Hcount : forall f i, ends f i ((id, EndRead) :: (id, EndWrite) :: opened w) =
    (if decide (i = id) then (if f EndRead then 1 else 0) + (if f EndWrite then 1 else 0) else ends f i (opened w))).
  { intros f i. rewrite !ends_cons. cbn [fst snd]. destruct (decide (i = id)) as [->|Hne].
    - rewrite ends_fresh by done. destruct (f EndRead), (f EndWrite); repeat case_decide; naive_solver lia.
    - rewrite !decide_False by naive_solver. lia. }
  split; cbn [heap fifos opened].
  - intros i (e & Hin). cbn in Hin. rewrite length_app. cbn. rewrite !elem_of_cons in Hin.
    destruct Hin as [[= -> ->]|[[= -> ->]|Hin]]; [unfold id; lia..|]. specialize (Ho i ltac:(by exists e)). lia.
  - intros i q [[Hne Hq]|[-> ->]]%Hlook; rewrite Hcount; [rewrite decide_False by done; by apply Hr|by rewrite decide_True].
  - intros i q [[Hne Hq]|[-> ->]]%Hlook; rewrite Hcount; [rewrite decide_False by done; by apply Hw|by rewrite decide_True].
  - intros n i. rewrite Hf. unfold names, live. cbn [heap opened]. split.
    + intros [(q & Hq & Hqn) [[e Hin]|[]]]. split; [exists q; split; [by apply lookup_app_l_Some|done]|].
      left. exists e. rewrite !elem_of_cons. by right; right.
    + intros [(q & [[Hne Hq]|[-> ->]]%Hlook & Hqn) [[e Hin]|[]]]; [|done]. split; [by exists q|]. left. exists e.
      rewrite !elem_of_cons in Hin. naive_solver.
  - cbn [length]. lia.
Qed.

(** ** Reading and writing *)

Lemma buffer_wf w id f :
  (forall p, f p = with_buffer (buffer (f p)) p) -> world_wf w -> world_wf (update_pipe id f w).
Proof.
  intros Hb [Ho Hr Hw Hf Hn]. unfold update_pipe.
  assert (Hlook : forall i q, alter f id (heap w) !! i = Some q ->
    exists p, heap w !! i = Some p /\ readers q = readers p /\ writers q = writers p /\ fifo q = fifo p).
  { intros i q. destruct (decide (i = id)) as [->|Hne].
    - rewrite list_lookup_alter_eq. intros (p & Hp & ->)%fmap_Some. exists p. rewrite Hb. done.
    - rewrite list_lookup_alter_ne by done. intros Hq. by exists q. }
  split; cbn [heap fifos opened].
  - intros i Hi. rewrite length_alter. by apply Ho.
  - intros i q (p & Hp & -> & _)%Hlook. by apply Hr.
  - intros i q (p & Hp & _ & -> & _)%Hlook. by apply Hw.
  - intros n i. rewrite Hf. unfold names, live. cbn [heap opened]. split; intros [(q & Hq & Hqn) Hl]; (split; [|done]).
    + destruct (decide (i = id)) as [->|Hne].
      * exists (f q). rewrite list_lookup_alter_eq, Hq. split; [done|]. by rewrite Hb.
      * exists q. by rewrite list_lookup_alter_ne.
    + apply Hlook in Hq as (p & Hp & _ & _ & Hpf). exists p. split; [done|congruence].
  - done.
Qed.

(** ** Closing *)

Section closing.
Context (w : World) (id : nat) (e : PipeEnd) (rest : list (nat * PipeEnd)).
Context (Hwf : world_wf w) (Hperm : opened w ≡ₚ (id, e) :: rest).

Lemma closing_ends f i : ends f i (opened w) = (if decide (id = i /\ f e = true) then 1 else 0) + ends f i rest.
Proof. rewrite (ends_perm _ _ _ _ Hperm). apply ends_cons. Qed.

Lemma closing_pipe : exists p, heap w !! id = Some p /\ pipe_of w id = p /\
  readers (give_back e p) = ends reads id rest /\ writers (give_back e p) = ends writes_end id rest /\ fifo (give_back e p) = fifo p.
Proof.
  destruct Hwf as [Ho Hr Hw _ Hn]. assert (Hlive : live w id) by (exists e; rewrite Hperm; set_solver).
  destruct (lookup_lt_is_Some_2 (heap w) id (Ho _ Hlive)) as [p Hp]. exists p.
  assert (Hlen : len (opened w) = len rest + 1) by (rewrite Hperm; cbn [length]; lia).
  pose proof (ends_range reads id rest). pose proof (ends_range writes_end id rest).
  destruct (give_back_counts e p) as (Hgr & Hgw & Hgf).
  { intros He. rewrite (Hr _ _ Hp), closing_ends, decide_True by done. lia. }
  { intros He. rewrite (Hw _ _ Hp), closing_ends, decide_True by done. lia. }
  split_and!; [done|unfold pipe_of; by rewrite Hp| | |done].
  - rewrite Hgr, (Hr _ _ Hp), closing_ends. destruct (reads e); case_decide; naive_solver lia.
  - rewrite Hgw, (Hw _ _ Hp), closing_ends. destruct (writes_end e); case_decide; naive_solver lia.
Qed.

(** The ends given back and the file gone, with a registry that has what it
    should. *)
Lemma give_back_wf reg :
  (forall n j, reg !! n = Some j <-> names w j n /\ exists e', (j, e') ∈ rest) ->
  world_wf (mkWorld (alter (give_back e) id (heap w)) reg rest).
Proof.
  intros Hreg. destruct closing_pipe as (p & Hp & _ & Hcr & Hcw & Hgf). destruct Hwf as [Ho Hr Hw Hf Hn].
  assert (Hheap : forall j q, alter (give_back e) id (heap w) !! j = Some q ->
    (j = id /\ q = give_back e p) \/ (j <> id /\ heap w !! j = Some q)).
  { intros j q. destruct (decide (j = id)) as [->|Hne]; [rewrite list_lookup_alter_eq, Hp; intros [= <-]; by left|].
    rewrite list_lookup_alter_ne by done. by right. }
  split; cbn [heap fifos opened].
  - intros j (e' & Hin). rewrite length_alter. apply Ho. exists e'. rewrite Hperm. cbn in Hin. set_solver.
  - intros j q [[-> ->]|[Hne Hq]]%Hheap; [done|]. rewrite (Hr _ _ Hq), closing_ends, decide_False by naive_solver. done.
  - intros j q [[-> ->]|[Hne Hq]]%Hheap; [done|]. rewrite (Hw _ _ Hq), closing_ends, decide_False by naive_solver. done.
  - intros n j. rewrite Hreg. unfold live. cbn [opened].
    enough (names w j n <-> names (mkWorld (alter (give_back e) id (heap w)) reg rest) j n) by naive_solver.
    unfold names. cbn [heap]. destruct (decide (j = id)) as [->|Hne]; [|by rewrite list_lookup_alter_ne].
    rewrite list_lookup_alter_eq, Hp. cbn. split; intros (q & [= <-] & Hq); eexists; (split; [done|congruence]).
  - assert (len (opened w) = len rest + 1) by (rewrite Hperm; cbn [length]; lia). lia.
Qed.

(** A pipe of another file, or another pipe. *)
Lemma closing_live j : j <> id -> live w j <-> exists e', (j, e') ∈ rest.
Proof. intros Hne. unfold live. setoid_rewrite Hperm. setoid_rewrite elem_of_cons. naive_solver. Qed.

Lemma leave_wf : world_wf (mkWorld (heap (leave id e w)) (fifos (leave id e w)) rest).
Proof.
  destruct closing_pipe as (p & Hp & Hpo & Hcr & Hcw & Hgf). pose proof (ww_fifos _ _ Hwf) as Hf. unfold leave. rewrite Hpo.
  assert (Hin : live w id) by (exists e; rewrite Hperm; set_solver).
  destruct (fifo p) as [ino|] eqn:Ef.
  - assert (Hpo' : pipe_of (update_pipe id (give_back e) w) id = give_back e p).
    { unfold pipe_of, update_pipe. cbn. by rewrite list_lookup_alter_eq, Hp. }
    assert (Hid : forall n, names w id n <-> n = ino) by (intros n; unfold names; rewrite Hp; naive_solver).
    assert (Hreg : fifos w !! ino = Some id) by (apply Hf; split; [by apply Hid|by left]).
    cbn zeta. rewrite Hpo', Hcr, Hcw. destruct ((_ =? 0) && (_ =? 0)) eqn:E0; cbn [heap fifos update_pipe]; apply give_back_wf; intros n j.
    + apply andb_true_iff in E0 as [E1%Z.eqb_eq E2%Z.eqb_eq]. pose proof (ends_none id rest E1 E2) as Hnone.
      destruct (decide (j = id)) as [->|Hj].
      * split; [|by intros [_ [e' ?%Hnone]]]. intros [Hne Hreg']%lookup_delete_Some. apply Hf in Hreg' as [Hnm _].
        by apply Hid in Hnm.
      * rewrite lookup_delete_Some, Hf, <- closing_live by done. split; [naive_solver|]. intros [Hnm Hl].
        split; [|naive_solver]. intros <-. apply Hj. assert (fifos w !! ino = Some j) by (apply Hf; naive_solver). congruence.
    + destruct (decide (j = id)) as [->|Hj]; [|rewrite Hf, <- closing_live by done; naive_solver].
      rewrite Hf. split; [|intros [Hnm _]; split; [done|by left]]. intros [Hnm _]. split; [done|].
      destruct (decide (Exists (fun x => x.1 = id) rest)) as [[[j e'] [Hx Hj]]%Exists_exists|Hno]; [cbn in Hj; subst j; by exists e'|].
      rewrite !ends_fresh in E0; [done|..]; intros e' He'; apply Hno, Exists_exists; by exists (id, e').
  - cbn [heap fifos update_pipe]. apply give_back_wf. intros n j. rewrite Hf. destruct (decide (j = id)) as [->|Hj].
    + unfold names. rewrite Hp. naive_solver.
    + rewrite <- closing_live by done. naive_solver.
Qed.
End closing.

Lemma leave_opened id e w : opened (leave id e w) = opened w.
Proof. unfold leave. destruct (fifo _); [|done]. cbn zeta. by destruct (_ && _). Qed.

Lemma close_wf w id e : world_wf w -> world_wf (close id e w).
Proof.
  intros Hwf. unfold close. destruct (list_find _ (opened w)) as [[i x]|] eqn:El; [|done].
  apply list_find_Some in El as (Hi & -> & _). cbn zeta. rewrite leave_opened. apply leave_wf; [done|]. by apply delete_Permutation.
Qed.

(** ** Any sequence of steps *)

(** What tasks do to the pipes of the system. Each open file is an object in
    memory, so there is always room for a count of them. *)
Inductive world_step : World -> World -> Prop :=
| ws_open ino flags w w' r : len (opened w) < u64_max -> open_fifo ino flags w = (w', r) -> world_step w w'
| ws_pair w : len (opened w) + 1 < u64_max -> world_step w (create_pair w).1
| ws_close id e w : world_step w (close id e w)
| ws_take id n w : world_step w (update_pipe id (fun p => (read_take n p).1) w)
| ws_put id buf w : world_step w (update_pipe id (fun p => (write_put buf p).1) w).

Lemma world_step_wf w w' : world_wf w -> world_step w w' -> world_wf w'.
Proof.
  intros Hwf Hs. destruct Hs as [ino flags w w' r Hroom E|w Hroom|id e w|id n w|id buf w].
  - by eapply open_fifo_wf.
  - by apply create_pair_wf.
  - by apply close_wf.
  - apply buffer_wf; [|done]. intros p. unfold read_take. by destruct (0 <? available p); [|destruct p].
  - apply buffer_wf; [|done]. intros p. unfold write_put. by destruct (available p <? PIPE_CAPACITY); [|destruct p].
Qed.

Definition no_pipes : World := mkWorld [] ∅ [].

Lemma no_pipes_wf : world_wf no_pipes.
Proof.
  split; cbn; try done.
  - intros id [e He]. cbn in He. set_solver.
  - intros ino id. rewrite lookup_empty. split; [done|]. intros [(p & Hp & _) _]. done.
Qed.

(** C36: after any opens, closes, reads and writes, in any order, the counts of
    every pipe are the open files that hold its ends; the registry holds a pipe
    exactly while a file is open on it, so two files open on one FIFO have one
    buffer between them, and no entry stays when the last file is closed. *)
Theorem fifos_exact w :
  rtc world_step no_pipes w ->
  (forall id p, heap w !! id = Some p -> readers p = ends reads id (opened w) /\ writers p = ends writes_end id (opened w)) /\
  (forall ino id, fifos w !! ino = Some id <-> names w id ino /\ live w id) /\
  (forall ino id1 id2, names w id1 ino -> names w id2 ino -> live w id1 -> live w id2 -> id1 = id2).
Proof.
  intros Hreach. assert (Hwf : world_wf w).
  { revert Hreach. generalize no_pipes, no_pipes_wf. intros w0 H0 Hr. induction Hr as [|w0 w1 w2 Hs _ IH]; [done|].
    apply IH. by eapply world_step_wf. }
  destruct Hwf as [Ho Hr Hw Hf Hn]. split_and!; [auto|intros ino id; rewrite Hf; naive_solver|].
  intros ino i1 i2 H1 H2 L1 L2. assert (fifos w !! ino = Some i1) by (apply Hf; auto). assert (fifos w !! ino = Some i2) by (apply Hf; auto).
  congruence.
Qed.
