(* ===== verification/Witness.v ===== *)
(** * Small volumes

    Every theorem with a hypothesis, at a volume where the hypothesis holds: a
    volume of seven blocks in memory, with two FATs and four clusters, of which
    the first two are one chain and the others are free. *)

From S2P Require Import Prelude Bytes Time Boot BootSpec Name Cache CacheSpec CacheFlush CacheIo CacheWrite Devices Table TableSpec Chains Scans Dir RawSpec LongNames Volume Linking Pipe FifoSpec.

Definition tiny_layout : Layout := mkLayout 7 1 512 1 1 2 3 4 2 None None.

Definition tiny_image : list Z := put32 (put32 (replicate 3584 0) 520 3) 524 END.

Definition tiny_cache : Cache Memory := mkCache (mkMemory tiny_image) [] ∅ 0 true.

Definition tiny_volume : Volume Memory := mkVolume tiny_cache (fat_new tiny_layout 2) (fun _ => 0) 0 [] [] false false.

Lemma tiny_bytes : is_bytes tiny_image.
Proof. unfold tiny_image. auto with bytes. Qed.

Lemma tiny_length : len tiny_image = 3584.
Proof. unfold tiny_image, put32. by rewrite !put_bytes_length, length_replicate. Qed.

Lemma tiny_count : blk_count (blocks tiny_cache) = 7.
Proof. cbn -[tiny_image]. by rewrite tiny_length. Qed.

Lemma tiny_ok : cache_ok tiny_cache.
Proof.
  constructor; cbn -[tiny_image]; try done.
  - split; [exact tiny_bytes|]. rewrite tiny_length. unfold u64_max. lia.
  - unfold CACHE_BLOCKS. lia.
Qed.

Lemma tiny_wf : layout_wf 7 tiny_layout.
Proof.
  constructor; cbn; unfold u32_max, u16_max, BLOCK, MAX_CLUSTERS; try lia; try done.
  exists 0. split; [lia|done].
Qed.

Lemma tiny_vol : vol_ok tiny_layout tiny_cache.
Proof. split; [exact tiny_ok|]. rewrite tiny_count. exact tiny_wf. Qed.

Lemma tiny_links :
  fat_link tiny_layout tiny_cache 2 = Next 3 /\ fat_link tiny_layout tiny_cache 3 = LinkEnd /\
  fat_link tiny_layout tiny_cache 4 = Free /\ fat_link tiny_layout tiny_cache 5 = Free.
Proof. split_and!; vm_compute; reflexivity. Qed.

Lemma tiny_chain : chain (fat_link tiny_layout tiny_cache) 2 [2; 3].
Proof. destruct tiny_links as (H2 & H3 & _). eapply chain_next; [exact H2|]. by apply chain_end. Qed.

(** ** The block cache *)

Lemma read_at_reads_witness :
  match read_at 510 4 tiny_cache with
  | (_, Ok data) => data = bv tiny_cache <$> seqZ 510 4
  | (_, Err e) => e <> CeReadOnly
  | (_, Stuck _) => False
  end.
Proof.
  pose proof (read_at_reads tiny_cache 510 4 tiny_ok ltac:(lia) ltac:(lia)) as H. revert H.
  generalize (read_at 510 4 tiny_cache). intros [c [data|[]|w]] H; [apply H|done..].
Defined.

Lemma write_at_writes_witness :
  match write_at 510 [1; 2; 3; 4] tiny_cache with
  | (c', Ok _) => bv c' 511 = 2 /\ bv c' 514 = bv tiny_cache 514
  | (_, Err e) => e <> CeReadOnly
  | (_, Stuck _) => False
  end.
Proof.
  assert (Hd : is_bytes [1; 2; 3; 4]) by (repeat constructor; done).
  pose proof (write_at_writes tiny_cache 510 [1; 2; 3; 4] tiny_ok ltac:(lia) Hd) as H. revert H.
  generalize (write_at 510 [1; 2; 3; 4] tiny_cache). intros [c [u|e|w]] H; [| |done].
  - destruct H as (_ & _ & Hp). by rewrite !Hp.
  - intros ->. by destruct H.
Defined.

(** A cached block that differs from the device's. *)
Definition dirty_cache : Cache Memory :=
  mkCache (mkMemory tiny_image) [mkSlot 1 (replicate 512 7) true false] {[1 := 0%nat]} 0 true.

Lemma dirty_ok : cache_ok dirty_cache.
Proof.
  assert (Hone : forall i sl, slots dirty_cache !! i = Some sl -> i = 0%nat /\ sl = mkSlot 1 (replicate 512 7) true false).
  { intros i sl H. cbn in H. apply list_lookup_singleton_Some in H as [-> <-]. done. }
  constructor.
  - split; [exact tiny_bytes|]. cbn -[tiny_image]. rewrite tiny_length. unfold u64_max. lia.
  - intros b i Hi. cbn in Hi. apply lookup_singleton_Some in Hi as [<- <-]. by eexists.
  - intros i sl [-> ->]%Hone. done.
  - cbn. unfold CACHE_BLOCKS. lia.
  - intros i sl [-> ->]%Hone. cbn -[tiny_image]. rewrite tiny_length. done.
  - intros i sl [-> ->]%Hone. cbn [sdata]. rewrite length_replicate. split; [done|]. apply (replicate_bytes 512 7). done.
  - intros i sl [-> ->]%Hone. done.
Qed.

Lemma write_then_read_witness :
  match write_at 5 [9] tiny_cache with
  | (c1, Ok _) => match read_at 5 1 c1 with (_, Ok got) => got = [9] | _ => False end
  | _ => False
  end.
Proof.
  assert (Hd : is_bytes [9]) by (repeat constructor; done).
  assert (H1 : (write_at 5 [9] tiny_cache).2 = Ok tt) by (vm_compute; reflexivity).
  assert (H2 : match (read_at 5 1 (write_at 5 [9] tiny_cache).1).2 with Ok _ => true | _ => false end = true)
    by (vm_compute; reflexivity).
  destruct (write_at 5 [9] tiny_cache) as [c1 r] eqn:E1. cbn [fst snd] in *. subst r.
  destruct (read_at 5 1 c1) as [c2 [got|e|w]] eqn:E2; [|done|done].
  exact (write_then_read tiny_cache 5 [9] c1 c2 got tiny_ok ltac:(lia) Hd E1 E2).
Defined.

Lemma flush_writes_back_witness :
  match flush dirty_cache with
  | (c', Ok _) => has_dirty c' = false /\ content (blocks c') 1 = replicate 512 7
  | (c', Err _) => view c' 1 = replicate 512 7
  | (_, Stuck _) => False
  end.
Proof.
  pose proof (flush_writes_back dirty_cache dirty_ok) as H. revert H.
  generalize (flush dirty_cache). intros [c [u|e|w]] H; [|destruct H as (_ & _ & H); by rewrite H|done].
  destruct H as (_ & Hd & Hc). split; [done|]. by rewrite Hc.
Defined.

(** One slot dirty, one clean and used. *)
Definition mixed_cache : Cache Memory :=
  mkCache (mkMemory tiny_image) [mkSlot 1 (replicate 512 7) true false; mkSlot 2 (replicate 512 0) false true]
    {[1 := 0%nat; 2 := 1%nat]} 0 true.

Lemma victim_is_clean_witness :
  exists i sl, (victim mixed_cache).2 = Some i /\ slots (victim mixed_cache).1 !! i = Some sl /\ sdirty sl = false.
Proof. apply (victim_is_clean mixed_cache). exists 1%nat. by eexists. Defined.

(** ** The file allocation table *)

Lemma set_sets_witness :
  match set tiny_layout 4 END tiny_cache with
  | (c', Ok _) => fat_link tiny_layout c' 4 = LinkEnd /\ fat_link tiny_layout c' 2 = Next 3
  | (_, Err _) => True
  | (_, Stuck _) => False
  end.
Proof.
  pose proof (set_sets tiny_layout tiny_cache 4 END tiny_vol ltac:(done)) as H. revert H.
  generalize (set tiny_layout 4 END tiny_cache). intros [c [u|e|w]] H; [|done|done].
  destruct H as (_ & _ & H4 & Hx & _). split; [exact H4|]. rewrite Hx by done. apply tiny_links.
Defined.

Lemma walk_decides_chain_witness :
  match walk tiny_layout 2 tiny_cache with
  | (_, Ok (count, z)) => count = 2 /\ z = 3
  | (_, Err e) => e = Io
  | (_, Stuck _) => False
  end.
Proof.
  pose proof (walk_decides_chain tiny_layout tiny_cache 2 tiny_vol) as H. revert H.
  generalize (walk tiny_layout 2 tiny_cache). intros [c [[count z]|e|w]] H; [| |done].
  - destruct H as (cs & Hc & _ & _ & Hn & Hz). rewrite (chain_fun _ _ _ _ Hc tiny_chain) in Hn, Hz.
    cbn in Hn, Hz. by simplify_eq.
  - destruct e; try done. destruct H as [H|H]; [done|]. destruct (H _ tiny_chain).
Defined.

Lemma free_chain_frees_witness :
  match free_chain 2 2 (fat_new tiny_layout 2, tiny_cache) with
  | ((_, c'), Ok _) => fat_link tiny_layout c' 2 = Free /\ fat_link tiny_layout c' 3 = Free
  | (_, Err e) => write_error tiny_cache e
  | (_, Stuck _) => False
  end.
Proof.
  pose proof (free_chain_frees tiny_layout tiny_cache (fat_new tiny_layout 2) 2 [2; 3] tiny_vol eq_refl eq_refl tiny_chain) as H.
  revert H. change (len [2; 3]) with 2. generalize (free_chain 2 2 (fat_new tiny_layout 2, tiny_cache)).
  intros [[f c] [u|e|w]] H; [|done|done]. destruct H as (Hl & _). by rewrite !Hl.
Defined.

Lemma tiny_fat_ok : fat_ok tiny_layout (fat_new tiny_layout 2) tiny_cache.
Proof. split; [by constructor|done]. Qed.

Lemma tiny_free : free_clusters tiny_layout tiny_cache = [4; 5].
Proof.
  destruct tiny_links as (H2 & H3 & H4 & H5). unfold free_clusters, free_of. change (seqZ 2 (clusters tiny_layout)) with [2; 3; 4; 5].
  rewrite !filter_cons, H2, H3, H4, H5. done.
Qed.

Lemma free_count_counts_witness :
  match free_count (fat_new tiny_layout 2, tiny_cache) with
  | (_, Ok n) => n = 2
  | (_, Err e) => e = Io
  | (_, Stuck _) => False
  end.
Proof.
  pose proof (free_count_counts tiny_layout tiny_cache (fat_new tiny_layout 2) tiny_vol tiny_fat_ok) as H. revert H.
  generalize (free_count (fat_new tiny_layout 2, tiny_cache)). intros [[f c] [n|e|w]] H; [|apply H|done].
  destruct H as (-> & _). by rewrite tiny_free.
Defined.

Lemma find_free_finds_witness :
  match find_free 3 [] (fat_new tiny_layout 2, tiny_cache) with
  | (_, Ok found) => len found = 2 /\ NoDup found
  | (_, Err e) => e = Io
  | (_, Stuck _) => False
  end.
Proof.
  pose proof (find_free_finds tiny_layout tiny_cache (fat_new tiny_layout 2) 3 tiny_vol tiny_fat_ok ltac:(lia)) as H. revert H.
  generalize (find_free 3 [] (fat_new tiny_layout 2, tiny_cache)). intros [[f c] [found|e|w]] H; [|apply H|done].
  destruct H as (Hn & _ & Hl & _). split; [|done]. by rewrite Hl, tiny_free.
Defined.

Lemma link_new_extends_witness :
  match link_new (Some 3) [4; 5] tiny_volume with
  | (v', Ok _) => chain (fat_link tiny_layout (cache v')) 2 [2; 3; 4; 5]
  | (_, Err e) => write_error tiny_cache e
  | (_, Stuck _) => False
  end.
Proof.
  assert (Hnd : NoDup [4; 5]) by (repeat constructor; set_solver).
  assert (Hin : Forall (fun x => is_cluster tiny_layout x = true /\ x ∉ [2; 3]) [4; 5]) by (repeat constructor; set_solver).
  pose proof (link_new_extends tiny_layout tiny_volume 2 [2; 3] 3 [4; 5] tiny_vol eq_refl eq_refl tiny_chain eq_refl
                ltac:(done) Hnd Hin) as H. revert H.
  generalize (link_new (Some 3) [4; 5] tiny_volume). intros [v [u|e|w]] H; [apply H|done|done].
Defined.

Lemma link_new_starts_witness :
  match link_new None [4; 5] tiny_volume with
  | (v', Ok _) => chain (fat_link tiny_layout (cache v')) 4 [4; 5]
  | (_, Err e) => write_error tiny_cache e
  | (_, Stuck _) => False
  end.
Proof.
  assert (Hnd : NoDup [4; 5]) by (repeat constructor; set_solver).
  assert (Hin : Forall (fun x => is_cluster tiny_layout x = true) [4; 5]) by (repeat constructor).
  pose proof (link_new_starts tiny_layout tiny_volume 4 [5] tiny_vol eq_refl Hnd Hin) as H. revert H.
  generalize (link_new None [4; 5] tiny_volume). intros [v [u|e|w]] H; [apply H|done|done].
Defined.

(** ** The boot sector and the layout *)

(** The boot sector of a volume of 66000 clusters of one block, labelled DATA:
    32 reserved blocks and two FATs of 520. *)
Definition boot_sector : list Z :=
  let s := replicate 512 0 in
  let s := put16 s 11 512 in
  let s := put8 s 13 1 in
  let s := put16 s 14 32 in
  let s := put8 s 16 2 in
  let s := put8 s 21 0xF8 in
  let s := put32 s 32 67072 in
  let s := put32 s 36 520 in
  let s := put32 s 44 2 in
  let s := put8 s 66 0x29 in
  let s := put_bytes s 71 (str "DATA       ") in
  put_bytes s 510 [0x55; 0xAA].

Lemma boot_sector_bytes : is_bytes boot_sector.
Proof.
  assert (is_bytes (str "DATA       ")) by (repeat constructor; done).
  assert (is_bytes [0x55; 0xAA]) by (repeat constructor; done). unfold boot_sector. auto 20 with bytes.
Qed.

Lemma boot_sector_length : length boot_sector = 512%nat.
Proof. reflexivity. Qed.

Lemma parse_wf_witness :
  exists l, parse boot_sector 67072 tt = (tt, Ok l) /\ layout_wf 67072 l /\ clusters l = 66000.
Proof.
  pose proof (parse_wf boot_sector 67072 boot_sector_bytes) as H.
  assert (Hp : parse boot_sector 67072 tt = (tt, Ok (mkLayout 67072 1 512 32 520 2 1072 66000 2 None None)))
    by (vm_compute; reflexivity).
  rewrite Hp in H |- *. eexists. split; [reflexivity|]. split; [apply H|reflexivity].
Defined.

Lemma clusters_disjoint_witness :
  exists o1 o2,
    cluster_offset (S:=unit) (E:=FsError) tiny_layout 2 tt = (tt, Ok (Some o1)) /\
    cluster_offset (S:=unit) (E:=FsError) tiny_layout 5 tt = (tt, Ok (Some o2)) /\
    (o1 + 512 <= o2 \/ o2 + 512 <= o1).
Proof.
  destruct (clusters_disjoint 7 tiny_layout 2 5 tiny_wf ltac:(cbn; lia) ltac:(cbn; lia) ltac:(done))
    as (_ & o1 & o2 & H1 & H2 & _ & _ & Hd). exists o1, o2. done.
Defined.

Lemma fat_entries_disjoint_witness :
  exists o1 o2,
    fat_offset (S:=unit) (E:=FsError) tiny_layout 0 2 tt = (tt, Ok o1) /\
    fat_offset (S:=unit) (E:=FsError) tiny_layout 1 2 tt = (tt, Ok o2) /\ (o1 + 4 <= o2 \/ o2 + 4 <= o1).
Proof.
  destruct (fat_entries_disjoint 7 tiny_layout 0 2 1 2 tiny_wf ltac:(cbn; lia) ltac:(cbn; lia) ltac:(cbn; lia) ltac:(cbn; lia)
              ltac:(done)) as (o1 & o2 & H1 & H2 & _ & _ & _ & Hd). exists o1, o2. done.
Defined.

(** ** Entries, times and names *)

Definition new_raw : list Z := raw_new (str "README  TXT") ATTR_ARCHIVE 70000 12345 (encode 1700000000).

Lemma raw_new_reads_back_witness :
  short_of_raw new_raw = str "README  TXT" /\ cluster_of new_raw = 70000 /\ size_of new_raw = 12345.
Proof.
  destruct (raw_new_reads_back (str "README  TXT") ATTR_ARCHIVE 70000 12345 1700000000 ltac:(done) ltac:(done) ltac:(done))
    as (H1 & _ & H2 & H3 & _). done.
Defined.

Definition other_raw : list Z := raw_new (str "OLD        ") 0 9 512 (encode 0).

Lemma take_contents_fields_witness :
  short_of_raw (take_contents new_raw other_raw) = str "README  TXT" /\
  cluster_of (take_contents new_raw other_raw) = 9 /\ size_of (take_contents new_raw other_raw) = 512.
Proof.
  destruct (take_contents_fields new_raw other_raw ltac:(done) ltac:(done)) as (H1 & _ & _ & H2 & H3 & _).
  rewrite H1, H2, H3. done.
Defined.

Lemma decode_in_range_witness : FAT_EPOCH <= decode 0xFFFF 0xFFFF <= FAT_END.
Proof. apply (decode_in_range 0xFFFF 0xFFFF ltac:(done) ltac:(done)). Defined.

(** A name of two entries, which [long_new] has room for. *)
Lemma long_name_round_trip_witness :
  exists g', push_all (S := unit) (E := FsError) long_new
      (zip (long_entries (encode_utf16 (str "A longer name.txt")) (checksum (str "ALONGE~1TXT"))) [64; 96]) tt = (tt, Ok g') /\
    exists at_, long_take g' (str "ALONGE~1TXT") = (long_reset g', Some (Some (str "A longer name.txt"), at_, 2)) /\
      take 2 at_ = [64; 96].
Proof.
  assert (Hs : Forall is_scalar (str "A longer name.txt")) by (repeat constructor; unfold is_scalar; cbn; lia).
  exact (long_name_round_trip (S := unit) (E := FsError) (str "A longer name.txt") (str "A longer name.txt") (str "ALONGE~1TXT")
           [64; 96] long_new tt Hs eq_refl ltac:(done) ltac:(reflexivity)).
Defined.

Lemma short_name_shows_witness : shown (str "README  TXT") 0 = Some (str "README.TXT").
Proof. apply (short_name_shows (str "README.TXT") (fun _ => false) (str "README  TXT") false); reflexivity. Defined.

(** ** Pipes *)

Lemma pipe_is_queue_witness :
  let '(p', got, put) := happens [EvPut [1; 2; 3]; EvTake 2; EvPut [4]] (make None) in
  got = [1; 2] /\ put = [1; 2; 3; 4] /\ contents p' = [3; 4].
Proof.
  assert (He : Forall event_ok [EvPut [1; 2; 3]; EvTake 2; EvPut [4]]) by (repeat constructor; cbn; lia).
  pose proof (pipe_is_queue [EvPut [1; 2; 3]; EvTake 2; EvPut [4]] (make None) (make_wf None) He) as H.
  destruct (happens _ _) as [[p' got] put] eqn:E. injection E as <- <- <-. split_and!; [done|done|].
  destruct H as (H & _). by apply (app_inv_head [1; 2]).
Defined.

Lemma read_waits_iff_witness :
  (read 8 false false (mkPipe (mkBuffer [] 0) 1 1 0 0 None)).2 = Waits.
Proof.
  apply (read_waits_iff 8 false false (mkPipe (mkBuffer [] 0) 1 1 0 0 None)); [|lia|done].
  by apply (same_buffer_wf (make None)); [|apply make_wf].
Defined.

Lemma write_waits_iff_witness :
  (write [1] false false (mkPipe (mkBuffer [] 0) 1 1 0 0 None)).2 <> WriteWaits.
Proof.
  intros H. apply (write_waits_iff [1] false false (mkPipe (mkBuffer [] 0) 1 1 0 0 None)) in H; [by destruct H| |done].
  by apply (same_buffer_wf (make None)); [|apply make_wf].
Defined.

(** A reader and a writer of FIFO 7, opened without waiting. *)
Definition one_reader : World := (open_fifo 7 O_NONBLOCK no_pipes).1.
Definition reader_and_writer : World := (open_fifo 7 (Z.lor O_WRONLY O_NONBLOCK) one_reader).1.

Lemma fifos_exact_witness :
  readers (pipe_of reader_and_writer 0) = ends reads 0 (opened reader_and_writer) /\
  writers (pipe_of reader_and_writer 0) = ends writes_end 0 (opened reader_and_writer).
Proof.
  apply (fifos_exact reader_and_writer); [|reflexivity].
  eapply rtc_l; [by eapply (ws_open 7 O_NONBLOCK)|]. eapply rtc_l; [by eapply (ws_open 7 (Z.lor O_WRONLY O_NONBLOCK))|]. done.
Defined.
