(* ===== verification/WitnessMemory.v ===== *)
(** * A small machine

    The theorems about frames, where their hypotheses hold: an allocator of five
    frames of which two are held, and a PC with two megabytes of memory, a range
    the firmware keeps and a range the loader reserved. *)

From S2P Require Import Prelude Words Handoff Frame FrameSpec FrameAlloc FrameOwners FrameInit.

(** Frames 0 and 2 of 5 are held. *)
Definition five : BitmapAllocator := mkAllocator [5] [1; 0; 1; 0; 0] 5 5 2 1 0 0.

Lemma five_ok : frames_ok five.
Proof.
  split; [|by vm_compute]. constructor; cbn; unfold MAX_FRAMES, u64_max; try lia; repeat constructor; cbn; unfold is_u64, is_u16, u64_max, u16_max; lia.
Qed.

(** The hint is frame 1, whose word is searched from its start: frame 1 is the
    first free frame. *)
Lemma alloc_is_next_fit_witness : (alloc five).2 = Ok (Some 4096).
Proof. by rewrite (proj1 (alloc_is_next_fit five five_ok)). Defined.

(** A frame is taken and shared, and one handle is dropped: the other keeps it
    from being handed out. *)
Definition five' : BitmapAllocator := (free 4096 (share 4096 (alloc five).1).1).1.

Lemma few_counted a hs : (length hs <= 2)%nat -> counted (mkKernel a hs).
Proof. intros H p. cbn [handles]. unfold occ. pose proof (count_bounds (Z.eqb p) hs). unfold u16_max. lia. Qed.

Lemma five_steps : rtc counted_step (mkKernel five []) (mkKernel five' [4096]).
Proof.
  eapply rtc_l; [split; [apply (step_alloc five (alloc five).1 (Some 4096) []); reflexivity|apply few_counted; cbn; lia]|].
  eapply rtc_l; [split; [apply (step_share _ (share 4096 (alloc five).1).1 4096 [4096]); [by left|reflexivity]|apply few_counted; cbn; lia]|].
  eapply rtc_l; [split; [apply (step_drop _ five' 4096 _ [4096]); reflexivity|apply few_counted; cbn; lia]|]. apply rtc_refl.
Qed.

Lemma frames_exclusive_witness : exists a' r, alloc five' = (a', Ok r) /\ r <> Some 4096.
Proof.
  destruct (frames_exclusive five five' [4096] five_ok five_steps) as [(a' & r & E & H) _]. exists a', r. split; [exact E|].
  destruct r as [p|]; [|done]. destruct H as (f & _ & _ & Hn & _). intros [= ->]. apply Hn. by left.
Defined.

Lemma saturated_count_releases_witness :
  held (free_times (Z.to_nat u16_max) 0 (share_times (Z.to_nat u16_max) 0 five)) 0 = false.
Proof. apply (saturated_count_releases five 0 five_ok); [cbn; lia|reflexivity|reflexivity]. Defined.

#[local] Instance pc : Machine := x86_64 0x120000.

Lemma pc_ok : MachineOk.
Proof. apply x86_64_ok. unfold is_u64, u64_max. lia. Qed.




(** One page at the very top, before memory with plenty of room. *)
Definition top_boot : BootInfo := 
  add_region 0x100000 0x100000 true (add_region (u64_max - 4094) 4094 true boot_new).

Lemma top_region_panics_witness : (init top_boot None).2 = Stuck Panic.
Proof. apply (@top_region_panics pc pc_ok top_boot _ _ eq_refl); vm_compute; congruence. Defined.

(** * A small heap

    The theorems about the kernel heap, where their hypotheses hold: the heap as
    it is set up, two tasks that allocate, and page tables that always have a
    page. *)

From S2P Require Import Heap HeapSpec HeapOwners.

Definition small : Layout := mkLayout 100 8.

Lemma small_ok : layout_ok small.
Proof. split; [cbn; unfold KERNEL_HEAP_MAX; lia|]. exists 3. split; [lia|reflexivity]. Qed.

(** The block is carved from the front of the one hole. *)
Lemma alloc_exact_witness :
  (alloc small first_heap).2 = Ok (Some KERNEL_HEAP_BASE) /\ dealloc KERNEL_HEAP_BASE small (alloc small first_heap).1 = (first_heap, Ok tt).
Proof.
  pose proof (alloc_exact first_heap small (so_heap _ first_heap_ok) small_ok) as H.
  change (alloc small first_heap) with ((alloc small first_heap).1, @Ok Empty_set _ (Some KERNEL_HEAP_BASE)) in H.
  split; [reflexivity|]. apply H.
Defined.

(** Two tasks take a block each, and the first hands its block back. *)
Definition after_one : HoleList := (alloc small first_heap).1.
Definition after_two : HoleList := (alloc small after_one).1.
Definition after_three : HoleList := (dealloc KERNEL_HEAP_BASE small after_two).1.

Lemma two_tasks :
  rtc hstep (mkShared first_heap [] []) (mkShared after_three [(KERNEL_HEAP_BASE + 112, small)] []).
Proof.
  eapply rtc_l; [apply (step_alloc first_heap after_one small (Some KERNEL_HEAP_BASE) [] [] small_ok); reflexivity|].
  eapply rtc_l; [apply (step_alloc after_one after_two small (Some (KERNEL_HEAP_BASE + 112)) _ [] small_ok); reflexivity|].
  eapply rtc_l; [apply (step_dealloc after_two after_three KERNEL_HEAP_BASE small _ [(KERNEL_HEAP_BASE + 112, small)] []); [apply Permutation_swap|reflexivity]|].
  apply rtc_refl.
Qed.

Lemma blocks_apart_witness : total_bytes after_three = free_bytes after_three + 112.
Proof. exact (proj2 (proj2 (proj2 (blocks_apart _ _ _ two_tasks)))). Defined.

(** A gigabyte of memory, and no page refused. *)
#[local] Instance plenty : Tables unit := {| frame_stats := fun _ => (0, 262144); map_new := fun _ k => (k, true) |}.

Lemma plenty_ok : TablesOk unit.
Proof. split. intros []. cbn. lia. Qed.

Definition first_world : World unit := mkWorld first_heap false tt.

(** More than the first heap holds: the heap grows. *)
Definition large : Layout := mkLayout (KERNEL_HEAP_SIZE + 1) 4096.

Lemma large_ok : layout_ok large.
Proof. split; [cbn; unfold KERNEL_HEAP_MAX, KERNEL_HEAP_SIZE; lia|]. exists 12. split; [lia|reflexivity]. Qed.

Lemma locked_alloc_serves_witness :
  exists p, (locked_alloc large first_world).2 = Ok (Some p) /\ margin_right (locked_alloc large first_world).1.
Proof.
  pose proof (@locked_alloc_serves unit plenty plenty_ok large first_world [] [] first_heap_ok large_ok eq_refl) as H.
  assert (Hr : exists p, (locked_alloc large first_world).2 = Ok (Some p)) by (eexists; vm_compute; reflexivity).
  destruct Hr as [p Hr]. exists p. split; [exact Hr|]. destruct (locked_alloc large first_world) as [w' [r|[]|u]]; [exact (proj1 H)|done].
Defined.
