(* ===== verification/WitnessCard.v ===== *)
(** * A card in memory

    A host controller and a card that keep the promises of [SdHostOk]: a card of
    70000 blocks with a partition table, whose one partition is the volume
    labelled DATA of [boot_sector]. On it the volume is chosen and mounted. *)

From S2P Require Import Prelude Safe Bytes Boot BootSpec Cache CacheSpec CacheIo RawSpec Volume Ops Mounted Card CardSpec Partition Witness.

(** ** The host *)

Record RamHost := mkRam { ram : Z -> list Z; ram_now : Z }.

(** Ready for data, in the transfer state, no error. *)
Definition READY : Words := (0x900, 0, 0, 0).

Definition ram_put (b k : Z) (data : list Z) (m : Z -> list Z) (x : Z) : list Z :=
  if (b <=? x) && (x <? b + k) then take (Z.to_nat BLOCK) (drop (Z.to_nat ((x - b) * BLOCK)) data) else m x.

Definition good_write (k : Z) (data : list Z) : bool :=
  (0 <=? k) && (len data =? k * BLOCK) && forallb (fun x => (0 <=? x) && (x <=? u8_max)) data.

#[global] Instance RamHost_SdHost : SdHost RamHost := {
  host_command h cmd t :=
    let h' m := mkRam m (ram_now h + 1) in
    match t with
    | None => (h' (ram h), inl (READY, []))
    | Some (mkTransfer _ k (Read _) _) => (h' (ram h), inl (READY, seqZ (argument cmd) k ≫= ram h))
    | Some (mkTransfer _ k (Write data) _) =>
        if good_write k data then (h' (ram_put (argument cmd) k data (ram h)), inl (READY, []))
        else (h' (ram h), inr (mkSdError [] 0))
    end;
  auto_cmd12 _ := true;
  now_us := ram_now;
  spin_us n h := mkRam (ram h) (ram_now h + Z.max 0 n);
  sleep_ms n h := mkRam (ram h) (ram_now h + Z.max 0 (n * 1000));
}.

Definition ram_wf (h : RamHost) : Prop := forall b, length (ram h b) = Z.to_nat BLOCK /\ is_bytes (ram h b).

Lemma good_write_spec k data : good_write k data = true -> 0 <= k /\ len data = k * BLOCK /\ is_bytes data.
Proof.
  unfold good_write. intros H. apply andb_true_iff in H as [H Hb]. split_and!; [lia|lia|].
  apply LongNames.forallb_Forall in Hb. eapply Forall_impl; [exact Hb|]. intros x Hx. cbn in Hx. unfold is_u8. lia.
Qed.

Lemma ram_put_wf b k data m x :
  0 <= k -> len data = k * BLOCK -> is_bytes data -> length (m x) = Z.to_nat BLOCK /\ is_bytes (m x) ->
  length (ram_put b k data m x) = Z.to_nat BLOCK /\ is_bytes (ram_put b k data m x).
Proof.
  intros Hk Hl Hd Hm. unfold ram_put. destruct ((b <=? x) && (x <? b + k)) eqn:E; [|done].
  split; [|by apply Forall_take, Forall_drop]. rewrite length_take, length_drop. unfold BLOCK in *. lia.
Qed.

(** The blocks written are the bytes given. *)
Lemma ram_put_run k data m : forall b,
  0 <= k -> len data = k * BLOCK -> seqZ b k ≫= ram_put b k data m = data.
Proof.
  intros b Hk Hl.
  assert (Hgen : forall n j, 0 <= j -> j + Z.of_nat n = k ->
    seqZ (b + j) (Z.of_nat n) ≫= ram_put b k data m = drop (Z.to_nat (j * BLOCK)) data).
  { induction n as [|n IH]; intros j Hj Hn.
    - cbn. symmetry. apply drop_ge. unfold BLOCK in *. lia.
    - rewrite seqZ_cons by lia. cbn [mbind list_bind]. replace (Z.pred (Z.of_nat (S n))) with (Z.of_nat n) by lia.
      replace (Z.succ (b + j)) with (b + (j + 1)) by lia. rewrite (IH (j + 1)) by lia. unfold ram_put.
      replace ((b <=? b + j) && (b + j <? b + k)) with true by lia. replace (b + j - b) with j by lia.
      replace (Z.to_nat ((j + 1) * BLOCK)) with (Z.to_nat (j * BLOCK) + Z.to_nat BLOCK)%nat by (unfold BLOCK; lia).
      rewrite <- drop_drop. apply take_drop. }
  specialize (Hgen (Z.to_nat k) 0 ltac:(lia) ltac:(lia)). rewrite Z2Nat.id, Z.add_0_r in Hgen by lia. exact Hgen.
Qed.

#[global, program] Instance RamHost_ok : SdHostOk RamHost := {
  host_wf := ram_wf;
  block_mode _ := true;
  card_size _ := 70000;
  card_content := ram;
  accepted h b data := forall k, 0 <= k -> len data = k * BLOCK -> data = seqZ b k ≫= ram h;
}.
Next Obligation. intros h b Hh. apply Hh. Qed.
Next Obligation. intros h b Hh. apply Hh. Qed.
Next Obligation.
  intros h cmd t h' r Hh. cbn. destruct t as [[bs k [n|data] st]|]; [| |].
  - intros [= <- _]. cbn. split_and!; [done|done|done|lia].
  - destruct (good_write k data) eqn:E; intros [= <- _]; cbn; split_and!; try done; try lia.
    apply good_write_spec in E as (Hk & Hl & Hd). intros x. apply ram_put_wf; [done|done|done|apply Hh].
  - intros [= <- _]. cbn. split_and!; [done|done|done|lia].
Qed.
Next Obligation. intros h cmd h' r Hh _. cbn. intros [= <- _]. done. Qed.
Next Obligation.
  intros h b k h' r Hh Hb Hk Hin. cbn. intros [= <- <-]. split; [done|]. by intros w buf [= _ <-] _.
Qed.
Next Obligation.
  intros h b k data h' r Hh Hb Hk Hin Hl Hd. cbn. destruct (good_write k data) eqn:E; intros [= <- <-]; (split; [|]); cbn.
  - intros x Hx. unfold ram_put. by replace ((b <=? x) && (x <? b + k)) with false by lia.
  - intros w buf _ _ k' Hk' Hl'. assert (k' = k) as -> by (unfold BLOCK in *; lia). symmetry. apply ram_put_run; [lia|done].
  - done.
  - done.
Qed.
Next Obligation. intros h arg h' w buf b k data Hh. cbn. intros [= <- <- <-] _ Ha Hk Hl. by apply Ha. Qed.
Next Obligation. intros h n Hh. cbn. split_and!; try done. lia. Qed.
Next Obligation. intros h n Hh. cbn. split_and!; try done. lia. Qed.

(** ** The card *)

(** A partition table with one entry: FAT32, 67072 blocks from block 64. *)
Definition mbr : list Z :=
  let s := replicate 512 0 in
  let s := put8 s 450 0x0C in
  let s := put32 s 454 64 in
  let s := put32 s 458 67072 in
  put_bytes s 510 [0x55; 0xAA].

Definition zero_block : list Z := replicate 512 0.

Definition card_image (x : Z) : list Z :=
  if x =? 0 then mbr else if x =? 64 then boot_sector else zero_block.

Definition card0 : Card RamHost :=
  mkCard (mkRam card_image 0) (mkIdentity true 70000 false true 50000000 1 0 [] false).

Lemma card0_wf : card_wf card0.
Proof.
  constructor; [|done|cbn; unfold u64_max; lia].
  intros b. cbn -[mbr boot_sector zero_block]. unfold card_image.
  destruct (b =? 0); [split; [reflexivity|]|destruct (b =? 64); [split; [reflexivity|exact boot_sector_bytes]|]].
  - assert (is_bytes [0x55; 0xAA]) by (repeat constructor; done). unfold mbr. auto 20 with bytes.
  - split; [reflexivity|]. unfold zero_block. auto with bytes.
Qed.

Definition part0 : Partition RamHost := mkPartition card0 64 67072 0 None.

Lemma part0_wf : partition_wf part0.
Proof. constructor; [exact card0_wf|cbn; lia..]. Qed.

Definition is_ok {E A} (r : result E A) : bool := match r with Ok _ => true | _ => false end.

(** ** The card's theorems *)

Definition identity0 : Identity := mkIdentity true 0 false false 0 0 0 [] false.

Lemma decode_csd_size_witness :
  match decode_csd [0x400E0032; 0x5B590000; 0x76B27F80; 0x0A404012] identity0 tt with
  | (_, Ok (id, _)) => 4 <= id_blocks id <= 2 ^ 32
  | (_, Err _) => True
  | (_, Stuck _) => False
  end.
Proof.
  pose proof (decode_csd_size [0x400E0032; 0x5B590000; 0x76B27F80; 0x0A404012] identity0 ltac:(done)) as H. revert H.
  generalize (decode_csd (S := unit) [0x400E0032; 0x5B590000; 0x76B27F80; 0x0A404012] identity0 tt).
  intros [u [[i [classes rate]]|e|w]] H; [apply H|done|done].
Defined.

Lemma wait_programmed_ends_witness :
  match wait_programmed card0 with
  | (c', Ok _) => card_content (host c') 0 = mbr
  | (_, Err _) => True
  | (_, Stuck _) => False
  end.
Proof.
  pose proof (wait_programmed_ends card0 card0_wf) as H. revert H.
  generalize (wait_programmed card0). intros [c [u|e|w]] H; [|done|done]. destruct H as [H _]. by rewrite H.
Defined.

Lemma card_write_then_read_witness :
  match write_blocks 100 boot_sector card0 with
  | (c1, Ok _) => (forall c2 buf, read_blocks 100 512 c1 = (c2, Ok buf) -> buf = boot_sector) /\ card_content (host c1) 0 = mbr
  | (c1, Err _) => card_content (host c1) 0 = mbr
  | (_, Stuck _) => False
  end.
Proof.
  pose proof (card_write_then_read card0 100 boot_sector card0_wf ltac:(lia) boot_sector_bytes) as H. revert H.
  rewrite boot_sector_length. change (Z.of_nat 512) with 512. change (512 / BLOCK) with 1.
  generalize (write_blocks 100 boot_sector card0). intros [c [u|e|w]] H; [| |done].
  - destruct H as [Hr Hx]. split; [exact Hr|]. by rewrite Hx by lia.
  - by rewrite H by lia.
Defined.

Lemma partition_write_contained_witness :
  match partition_write 67071 (boot_sector ++ boot_sector) part0 with
  | (p', Ok _) => False
  | (p', Err _) => forall x, card_content (host (p_card p')) x = card_image x
  | (_, Stuck _) => False
  end.
Proof.
  assert (Hd : is_bytes (boot_sector ++ boot_sector)) by (apply Forall_app; split; exact boot_sector_bytes).
  pose proof (partition_write_contained part0 67071 (boot_sector ++ boot_sector) part0_wf ltac:(lia) Hd) as H. revert H.
  cbn zeta. rewrite length_app, boot_sector_length. change (Z.of_nat (512 + 512) / BLOCK) with 2.
  generalize (partition_write 67071 (boot_sector ++ boot_sector) part0). intros [p [u|e|w]] H; [| |done].
  - destruct H as [_ H]. cbn in H. lia.
  - destruct H as [_ H]. apply H. cbn. lia.
Defined.

(** ** The volume on it *)

Lemma chosen0_ok : is_ok (choose (str "data") card0).2 = true.
Proof. vm_compute. reflexivity. Qed.

Lemma choose_chooses_witness :
  match choose (str "data") card0 with
  | (c', Ok ch) => labelled (probed ch) (str "data") = true /\ card_content (host c') 0 = mbr /\
      p_first (partition ch) + p_count (partition ch) <= 70000
  | _ => False
  end.
Proof.
  pose proof (choose_chooses card0 (str "data") card0_wf) as H. pose proof chosen0_ok as Hok. revert H Hok.
  generalize (choose (str "data") card0). intros [c [ch|e|w]] H Hok; [|done|done].
  destruct H as (_ & Hl & Hk & _ & Hx). split_and!; [done|by rewrite Hx|]. cbn in Hk. lia.
Defined.

Definition clock0 (n : nat) : Z := 1700000000 + Z.of_nat n.

Lemma mounted0_ok :
  match choose (str "data") card0 with
  | (_, Ok ch) => is_ok (mount (partition ch) (layout_of (probed ch)) clock0) && (p_first (partition ch) =? 64)
  | _ => false
  end = true.
Proof. vm_compute. reflexivity. Qed.

Lemma probed0_ok :
  match probe part0 with
  | (b, Ok p) => is_ok (mount b (layout_of p) clock0)
  | _ => false
  end = true.
Proof. vm_compute. reflexivity. Qed.

(** Writes allowed. *)
Lemma allow_writes_step {B} `{!Blocks B} (v : Volume B) : reachable (fun _ => True) v (allow_writes v).
Proof. apply rtc_once. by apply (step_served _ RAllowWrites v (allow_writes v) tt). Qed.

Lemma rest_of_card_untouched_witness :
  match choose (str "data") card0 with
  | (_, Ok ch) =>
      match mount (partition ch) (layout_of (probed ch)) clock0 with
      | Ok v => card_content (host (p_card (blocks (cache (allow_writes v))))) 0 = mbr
      | _ => False
      end
  | _ => False
  end.
Proof.
  pose proof (rest_of_card_untouched card0) as H. pose proof mounted0_ok as Hok.
  destruct (choose (str "data") card0) as [c' [ch|e|w]] eqn:Ec; [|done|done].
  destruct (mount (partition ch) (layout_of (probed ch)) clock0) as [v|e|w] eqn:Em; [|done|done].
  apply andb_true_iff in Hok as [_ Hf%Z.eqb_eq].
  rewrite (H c' (str "data") ch clock0 v (allow_writes v) card0_wf Ec Em (allow_writes_step v) 0); [reflexivity|]. rewrite Hf. lia.
Defined.

Lemma part0_guarded : guarded 64 67072 card0 part0.
Proof. split; [exact part0_wf|]. split_and!; [done|done|]. apply evolves_refl, card0_wf. Qed.

#[local] Instance part0_laws : BlocksOk (Partition RamHost) := Partition_ok 64 67072 card0.

Lemma volume_serves_witness :
  match probe part0 with
  | (b, Ok p) =>
      match mount b (layout_of p) clock0 with
      | Ok v => exists v'' r, serve (RCreate [] (str "A")) (allow_writes v) = (v'', r) /\ forall w, r <> Stuck w
      | _ => False
      end
  | _ => False
  end.
Proof.
  pose proof (volume_serves part0) as H. pose proof probed0_ok as Hok.
  destruct (probe part0) as [b [p|e|w]] eqn:Ep; [|done|done].
  destruct (mount b (layout_of p) clock0) as [v|e|w] eqn:Em; [|done|done].
  destruct (H b p clock0 v (allow_writes v) (RCreate [] (str "A")) part0_guarded eq_refl Em (allow_writes_step v) I)
    as ([(v'' & a & Hs)|(v'' & e & Hs)] & _); [exists v'', (Ok a)|exists v'', (Err e)]; (split; [exact Hs|]); intros w; discriminate.
Defined.

Lemma read_only_until_allowed_witness :
  match probe part0 with
  | (b, Ok p) =>
      match mount b (layout_of p) clock0 with
      | Ok v => cwritable (cache v) = false /\ content (blocks (cache v)) 0 = boot_sector
      | _ => False
      end
  | _ => False
  end.
Proof.
  pose proof (read_only_until_allowed part0) as H. pose proof probed0_ok as Hok.
  destruct (probe part0) as [b [p|e|w]] eqn:Ep; [|done|done].
  destruct (mount b (layout_of p) clock0) as [v|e|w] eqn:Em; [|done|done].
  destruct (H b p clock0 v v part0_guarded eq_refl Em ltac:(apply rtc_refl)) as [Hw Hx]. split; [done|]. rewrite Hx. reflexivity.
Defined.

Lemma mount_ends_witness :
  match probe part0 with
  | (b, Ok p) =>
      match mount b (layout_of p) clock0 with
      | Ok v => opens v = [] /\ has_dirty (cache v) = false
      | _ => False
      end
  | _ => False
  end.
Proof.
  pose proof (mount_ends part0) as H. pose proof probed0_ok as Hok.
  destruct (probe part0) as [b [p|e|w]] eqn:Ep; [|done|done]. specialize (H b p clock0 part0_guarded eq_refl).
  destruct (mount b (layout_of p) clock0) as [v|e|w]; [|done|done]. destruct H as (H1 & _ & _ & H2 & _). exact (conj H1 H2).
Defined.
