(* ===== verification/WitnessNet.v ===== *)
(** * A connection on a wire that is written down

    The theorems about the network where their hypotheses hold: the wire and the
    sort of [TcpStream], a connection between two ends, a few segments. *)

From stdpp Require Import sorting.
From S2P Require Import Prelude Safe Words Packets PacketSpec Config Tcp TcpInput TcpRuns TcpReceive TcpStream TcpBounds TcpServes Link LinkSpec Udp Sockets SocketsSpec SocketsServe Dhcp DhcpSpec Host.

(** ** The instances *)

#[export] Instance merge_sorter_ok : SorterOk.
Proof.
  split.
  - intros key l. apply merge_sort_Permutation.
  - intros key l. apply StronglySorted_merge_sort; [intros x y z; lia|intros x y; lia].
Qed.

#[local] Instance tape_wire_ok : WireOk Tape.
Proof.
  refine {| wire_inv := fun n => 0 <= tape_ticks n <= 1000000 |}; intros; cbn.
  - split_and!; try done; lia.
  - split; [unfold is_u64, u64_max; lia|done].
  - done.
  - split; [done|]. vm_compute. split; discriminate.
  - done.
  - done.
Defined.

(** ** Packets *)

Ltac small := vm_compute; split; discriminate.
Ltac bytes := repeat (apply Forall_cons; split; [small|]); by apply Forall_nil.

Lemma checksum_is_rfc1071_witness : @Ip.checksum unit Errno [1; 2; 3; 4; 5] tt = (tt, Ok (65535 - ones_sum (words [1; 2; 3; 4; 5]))).
Proof. apply (@checksum_is_rfc1071 unit Errno [1; 2; 3; 4; 5] tt); [bytes|cbn; lia]. Defined.

Definition here : Endpoint := mkEndpoint (Ip.addr 10 0 0 1) 49152.
Definition there : Endpoint := mkEndpoint (Ip.addr 10 0 0 2) 80.

Lemma frame_carries_segment_witness :
  exists segment datagram rest,
    @Segment.build unit Errno here there 7 9 24 1000 None [104; 105] tt = (tt, Ok segment) /\
    @Ip.build unit Errno 3 (address here) (address there) Ip.PROTO_TCP segment tt = (tt, Ok datagram) /\
    @Ether.parse unit Errno (Ether.build [1; 2; 3; 4; 5; 6] [7; 8; 9; 10; 11; 12] Ether.ETHERTYPE_IPV4 datagram) tt =
      (tt, Ok (Some (Ether.mkFrame [1; 2; 3; 4; 5; 6] [7; 8; 9; 10; 11; 12] Ether.ETHERTYPE_IPV4 rest))) /\
    @Segment.parse unit Errno segment tt = (tt, Ok (Some (Segment.mkSegment 49152 80 7 9 24 1000 None [104; 105]))).
Proof.
  destruct (@frame_carries_segment unit Errno here there 7 9 24 1000 None [104; 105] 3 [1; 2; 3; 4; 5; 6] [7; 8; 9; 10; 11; 12] tt)
    as (segment & datagram & rest & H1 & H2 & H3 & _ & H4 & _);
    [split; small|split; small|small|small|small|small|constructor|bytes|vm_compute; discriminate|small|reflexivity|reflexivity|].
  exists segment, datagram, rest. exact (conj H1 (conj H2 (conj H3 H4))).
Defined.

(** ** The stream *)

(** The other end says 1, 2, 3 and is done. *)
Definition stream3 : list Z := [1; 2; 3].
Definition said (p flags : Z) (data : list Z) : Segment.Segment := Segment.mkSegment 80 49152 (5001 + p) first_byte (Z.lor Segment.ACK flags) 65535 None data.

(** The end of the stream first, then all of it, then the end once more. *)
Definition w_gap : Tcb * Tape := run_of (on_segment (said 2 Segment.FIN [3])) w_established.
Definition w_filled : Tcb * Tape := run_of (on_segment (said 0 0 [1; 2; 3])) w_gap.
Definition w_read : Tcb * Tape := run_of (Tcp.read 2 false) w_filled.

Lemma spoken t n p flags data :
  irs t = 5000 -> n = 0 -> 0 <= p <= 3 -> data = drop (Z.to_nat p) stream3 -> speaks_of stream3 t n (said p flags data).
Proof.
  intros Hi -> Hp ->. unfold speaks_of, said. rewrite Hi. exists p. cbn [Segment.sequence Segment.payload]. split_and!.
  - unfold seqno, as_u32, u32_max. lia.
  - lia.
  - lia.
  - intros i b Hb _. rewrite lookup_drop in Hb. by replace (Z.to_nat (p + Z.of_nat i)) with (Z.to_nat p + i)%nat by lia.
  - rewrite length_drop. cbn. lia.
  - intros _. rewrite length_drop. cbn. lia.
Qed.

Lemma three_bytes : rtc (cstep stream3) (mkConn w_established.1 w_established.2 [] false) (mkConn w_read.1 w_read.2 [1; 2] false).
Proof.
  eapply rtc_l; [apply (step_segment stream3 (said 2 Segment.FIN [3]) w_established.1 w_established.2 w_gap.1 w_gap.2 false)|].
  - intros _ _. apply spoken; [vm_compute; reflexivity|vm_compute; reflexivity|lia|reflexivity].
  - vm_compute. reflexivity.
  - eapply rtc_l; [apply (step_segment stream3 (said 0 0 [1; 2; 3]) w_gap.1 w_gap.2 w_filled.1 w_filled.2 true)|].
    + intros _ _. apply spoken; [vm_compute; reflexivity|vm_compute; reflexivity|lia|reflexivity].
    + vm_compute. reflexivity.
    + eapply rtc_l; [apply (step_read stream3 2 w_filled.1 w_filled.2 w_read.1 w_read.2 [1; 2] [] false); vm_compute; reflexivity|]. apply rtc_refl.
Qed.

Lemma stream_in_order_witness : fin_received w_read.1 = true /\ [1; 2] ++ received w_read.1 = stream3.
Proof.
  assert (Hf : fin_received w_read.1 = true) by (vm_compute; reflexivity). split; [exact Hf|].
  refine (proj2 (proj2 (stream_in_order stream3 w_established.1 w_established.2 w_read.1 w_read.2 [1; 2] false _ three_bytes)) eq_refl Hf).
  unfold started. vm_compute. split; [right; reflexivity|]. repeat split.
Defined.

(** ** A whole life *)

Definition life : list Call :=
  [CallOpen; CallSegment (said 0 Segment.SYN []); CallWrite [1; 2; 3]; CallTimer 500; CallRead 10 false; CallShutdown; CallAbandon].

Lemma tcp_serves_witness : exists t' n', run_calls life (fresh here there, mkTape 1 [] 0) = ((t', n'), Ok tt) /\ 20 <= rto t' <= 600.
Proof.
  destruct (tcp_serves here there (mkTape 1 [] 0) life) as (served & rest & t' & n' & E & H & Hend & _ & _ & _ & _ & _ & _ & Hr).
  - vm_compute. split; split; discriminate.
  - vm_compute. split; split; discriminate.
  - cbn. lia.
  - vm_compute. split; discriminate.
  - repeat constructor; cbn; try lia; try (vm_compute; discriminate).
  - assert (rest = []) as -> by (destruct Hend as [?|[_ Hl]]; [done|apply (f_equal length) in E; rewrite length_app in E; cbn [life length] in E; lia]).
    rewrite app_nil_r in E. subst served. exists t', n'. exact (conj H Hr).
Defined.

(** * A machine with a card that is written down

    The theorems about the network where their hypotheses hold: a machine whose
    card keeps the frames it takes, a configuration, a few events. *)

(** ** The machine *)

Record Tower := mkTower { tower_ticks : Z; tower_seed : Z; tower_frames : list (list Z) }.

Definition tower_mac : list Z := [2; 0; 0; 0; 0; 1].

#[local] Instance tower_machine : Machine Tower := {
  read_ticks := fun c => (c, tower_ticks c);
  read_ns := fun c => (c, 1000);
  next_u64 := fun c => (mkTower (tower_ticks c) ((tower_seed c + 12345) `mod` 65536) (tower_frames c), tower_seed c);
  attached := fun _ => true;
  nic_mac := fun _ => tower_mac;
  nic_link_up := fun _ => true;
  nic_transmit := fun frame => modify (fun c => mkTower (tower_ticks c) (tower_seed c) (tower_frames c ++ [frame]));
}.

#[local] Instance tower_ok : MachineOk Tower.
Proof.
  refine {| machine_inv := fun c => 0 <= tower_ticks c <= 1000000 /\ 0 <= tower_seed c <= 65535; frames := tower_frames |}; intros; cbn in *.
  - split_and!; try done; lia.
  - split_and!; try done; unfold is_u64, u64_max; lia.
  - split_and!; try done; unfold is_u64, u64_max; lia.
  - split; [done|]. bytes.
  - by split.
Defined.

Definition tower : Tower := mkTower 5 7 [].

Lemma tower_inv : machine_inv tower.
Proof. cbn. lia. Qed.

(** ** Configuration *)

Definition tower_address : Z := Ip.addr 192 168 1 20.
Definition tower_router : Z := Ip.addr 192 168 1 1.
Definition tower_config : Config := mkConfig tower_address (Ip.addr 255 255 255 0) (Some tower_router) [tower_router; 0; 0] 1.

Lemma config_exact_witness :
  config_new tower_address (Ip.addr 255 255 255 0) (Some tower_router) [tower_router; 0] tt = (tt, Ok tower_config) /\
  exists p, netmask tower_config = prefix_mask p /\ host_on p tower_address (Some tower_router).
Proof.
  pose proof (config_exact tower_address (Ip.addr 255 255 255 0) (Some tower_router) [tower_router; 0] tt ltac:(small) ltac:(small) ltac:(constructor; small)) as H.
  assert (E : config_new tower_address (Ip.addr 255 255 255 0) (Some tower_router) [tower_router; 0] tt = (tt, Ok tower_config)) by (vm_compute; reflexivity).
  rewrite E in H. destruct H as (_ & p & H1 & H2 & _). split; [exact E|]. exists p. exact (conj H1 H2).
Defined.

(** ** The link *)

Lemma tower_config_ok : config_ok tower_config.
Proof. split; [small|]. split; [vm_compute; reflexivity|]. constructor. small. Qed.

Lemma tower_link_ok : link_ok (link_boot tower).
Proof. exact (nk_link _ _ (proj1 (proj1 (boot_ok tower 0 tower_inv ltac:(unfold u32_max; lia))))). Qed.

Definition tower_ops : list LinkOp :=
  [OpConfigure (Some tower_config); OpSend tower_address tower_router Ip.PROTO_UDP [1; 2; 3]; OpLearn tower_router [6; 5; 4; 3; 2; 1]; OpExpire; OpConfigure None].

Lemma own_address_only_witness : exists l', run_ops tower_ops (link_boot tower) = (l', Ok tt) /\ Forall (fun p => own_frame p.1 p.2) (departures tower_ops (link_boot tower)).
Proof.
  destruct (own_address_only tower_ops (link_boot tower) tower_link_ok) as (l' & E & _ & _ & _ & _ & H).
  - unfold tower_ops. constructor; [constructor; exact tower_config_ok|]. constructor; [cbn; split; [small|bytes]|]. constructor; [cbn; split; [reflexivity|bytes]|]. constructor; [exact I|]. constructor; [constructor|constructor].
  - exists l'. exact (conj E H).
Defined.

(** ** DHCP *)

(** A netmask in two pieces, between pads, cut by the end option. *)
Definition mask_pieces : list (option (Z * list Z)) := [None; Some (1, [255; 255]); Some (51, [0; 0; 14; 16]); None; Some (1, [255; 0])].

Lemma options_read_back_witness :
  exists entries, @Dhcp.read unit Errno [] (lay_out mask_pieces ++ [255; 9; 9]) tt = (tt, Ok (Some entries)) /\ Dhcp.get_option entries 1 = Some [255; 255; 255; 0].
Proof.
  apply (@options_read_back unit Errno mask_pieces [255; 9; 9] tt 1).
  - repeat constructor; discriminate.
  - right. reflexivity.
  - vm_compute. discriminate.
Defined.

Definition tower_client (s : Dhcp.State) : Dhcp.Client := Dhcp.mkClient 0 tower_mac None s true.

Lemma tower_client_ok j s : state_ok j s -> client_ok j (tower_client s).
Proof. intros Hs. constructor; [|constructor|done]. split; [reflexivity|]. cbn. bytes. Qed.

Lemma due_is_asked_witness :
  exists c' n' effects, Dhcp.on_timer 5 (tower_client (Dhcp.Init 5), net (host_boot tower)) = ((c', n'), Ok effects) /\ 5 < Dhcp.next_deadline c' /\ messages effects = 1%nat.
Proof.
  apply (due_is_asked (tower_client (Dhcp.Init 5)) (net (host_boot tower)) 5).
  - lia.
  - apply tower_client_ok. exact I.
  - exact tower_inv.
Defined.

(** A lease due for renewal, on a machine whose client has started. *)
Definition tower_lease : Dhcp.Lease := Dhcp.mkLease tower_config tower_router 3600 3 300000 360000.
Definition tower_started : Host Tower := (dhcp_start None (host_boot tower)).1.
Definition tower_leased : Host Tower :=
  mkHost (with_link (with_config (Some tower_config) (link (net tower_started))) (net tower_started)) (Some (tower_client (Dhcp.Bound tower_lease))) false.

Lemma tower_started_ok : host_at ∅ 1 tower_started.
Proof.
  assert (Hr : 0 <= 1 + DELIVERY <= u32_max) by (vm_compute; split; discriminate).
  pose proof (hs_dhcp_start ∅ None ltac:(constructor) 1 (host_boot tower) ltac:(lia) (boot_ok tower (1 + DELIVERY) tower_inv Hr)) as H.
  unfold wp in H. unfold tower_started. destruct (dhcp_start None (host_boot tower)) as [h [a|e|w]]; [exact (proj1 H)|exact H|destruct H].
Qed.

Lemma tower_leased_ok : host_at ∅ 1 tower_leased.
Proof.
  destruct tower_started_ok as [Hn _]. assert (E : client_refs (client tower_started) = client_refs (client tower_leased)) by (vm_compute; reflexivity). rewrite E in Hn.
  split; [|constructor; apply tower_client_ok; constructor; [exact tower_config_ok|small|vm_compute; repeat split; discriminate]]. apply net_link; [exact Hn| |reflexivity].
  assert (Ec : cache (link (net tower_started)) = []) by (vm_compute; reflexivity). pose proof (nk_link _ _ (proj1 Hn)) as Hl. destruct Hl. constructor; cbn [with_config hw config cache loopback next_id loss sent arrived secret held_share]; try assumption.
  - constructor. exact tower_config_ok.
  - rewrite Ec. constructor.
Qed.

Lemma lease_is_configuration_witness :
  exists h' c', dhcp_on_tick tower_leased = (h', Ok tt) /\ client h' = Some c' /\ config (link (net h')) = DhcpSpec.held (Dhcp.c_state c') /\ 5 < Dhcp.next_deadline c'.
Proof.
  destruct (lease_is_configuration tower_leased (tower_client (Dhcp.Bound tower_lease)) tower_leased_ok eq_refl) as (h' & c' & H1 & H2 & _ & H3 & _ & H4).
  - assert (Hs : exists s, heap (net tower_leased) !! 0%nat = Some s /\ (match inner s with ProtoUdp _ => True | _ => False end)) by (eexists; split; [vm_compute; reflexivity|exact I]).
    destruct Hs as (s & Hs & Hi). unfold datagrams. cbn [tower_client Dhcp.c_socket]. exists s. destruct (inner s) as [|u] eqn:Ei; [destruct Hi|]. exists u. exact (conj Hs eq_refl).
  - reflexivity.
  - exists h', c'. assert (Et : (read_ticks (hw (link (net tower_leased)))).2 = 5) by (vm_compute; reflexivity). rewrite Et in H4. exact (conj H1 (conj H2 (conj H3 H4))).
Defined.

(** ** Everything *)

Definition tower_frame : list Z := Ether.build Ether.BROADCAST [6; 5; 4; 3; 2; 1] Ether.ETHERTYPE_IPV4 [69; 0; 0; 20].

Definition tower_calls : list HostCall :=
  [OnStart None; OnSocket true; OnBind 1 (mkEndpoint 0 80); OnListen 1 4; OnFrame tower_frame; OnTick; OnSocket true;
   OnConnect 2 (mkEndpoint (Ip.addr 127 0 0 1) 80); OnTick; OnAccept 1; OnClose 2; OnTick; OnClose 1; OnDrop 2].

Lemma network_serves_witness :
  exists h fds, host_run tower_calls (host_boot tower, ∅) = ((h, fds), Ok tt) /\ held_share (link (net h)) = held_total (heap (net h)).
Proof.
  destruct (network_serves tower tower_calls tower_inv) as (served & rest & h & fds & E & H1 & Hend & _ & _ & H2 & _).
  - unfold tower_calls. repeat match goal with |- Forall host_call_ok _ => constructor end; cbn [host_call_ok];
      first [exact I | apply few_bytes; vm_compute; reflexivity | split; small | constructor].
  - assert (rest = []) as -> by (destruct Hend as [?|[_ Hl]]; [done|apply (f_equal length) in E; rewrite length_app in E; cbn [tower_calls length] in E; lia]).
    rewrite app_nil_r in E. subst served. exists h, fds. exact (conj H1 H2).
Defined.
