(* ===== verification/WitnessFs.v ===== *)
(** * The filesystem at work

    A small machine with the tree of [Fs] in it, on which the theorems about files,
    directories, descriptors and the archive are applied, and on which three things
    the code does are shown. *)

From S2P Require Import Prelude Words Time Fs FsSpec FsCalls Fd Cpio.

(** A machine where time stands still, with a megabyte for files and one process,
    number 1, that has the console open. *)
Inductive Desk := desk.

#[global] Instance desk_env : FsEnv Desk := {
  unix_time v := (v, 0);
  file_available v := (v, 1048576);
  current_pid _ := 1;
  open_files _ pid := if pid =? 1 then Some [(0, str "/dev/console")] else None;
  contents_of _ _ := [];
  random_fill size v := (v, replicate (Z.to_nat size) 4);
  console_read _ := ret [];
  console_write _ v := v;
}.
#[global] Instance desk_laws : FsLaws.
Proof.
  split; [intros v; cbn; unfold isize_max; lia|]. cbn. intros v pid open fd path. destruct (pid =? 1); [|done]. intros [= <-] H.
  apply list_elem_of_singleton in H. injection H as -> ->. vm_compute. done.
Defined.
#[global] Instance desk_channels : Channels Desk := {
  channel_read _ _ _ := ret [];
  channel_write _ _ buf := ret (len buf);
  fifo_open _ _ := throw ENXIO;
  exe_path _ := str "/bin/cbox";
  exe_of _ pid := if pid =? 1 then Some (str "/bin/cbox") else None;
}.

Definition setup : list FsCall :=
  [Mkdir (str "/tmp/a") 0x1ED; Create (str "/tmp/a/x") 0x1A4; WriteFile (str "/tmp/a/x") 0 (str "hello"); Mkdir (str "/tmp/b") 0x1ED; MakeSymlink (str "/tmp/link") (str "a/x")].
Definition lab : Fs Desk := fst ((fs_init ;;; run setup) (fs_boot desk)).

Lemma lab_ok : tree_ok 6 lab.
Proof.
  assert (wp (fs_init ;;; run setup) (fun f' _ => tree_ok 6 f') (fun f' _ => tree_ok 1 f') (fs_boot desk)) as H.
  { apply wp_bind. eapply wp_mono; [apply wp_fs_init| |done]. cbv beta. intros f _ Hf. eapply wp_mono; [apply (wp_calls 1 setup f)| |]; [lia|vm_compute; done|done| |done|done].
    repeat constructor; vm_compute; done. }
  unfold lab. unfold wp in H. destruct ((fs_init ;;; run setup) (fs_boot desk)) as [f [[]|e|w]]; [done| |done]. by apply (tree_ok_weaken 1 6).
Qed.

(** What a call on the machine comes to. *)
Lemma ran {A} (m : M (Fs Desk) Errno A) (f : Fs Desk) (r : result Errno A) : snd (m f) = r -> m f = (fst (m f), r).
Proof. intros <-. by destruct (m f). Qed.

(** ** Paths and contents *)

Lemma normalize_step_witness : components (normalize (str "/tmp") (str "a" ++ SLASH :: DOTDOT_NAME)) = [str "tmp"].
Proof. rewrite (normalize_step (str "/tmp") (str "a") DOTDOT_NAME); [reflexivity|discriminate|]. unfold DOTDOT_NAME. rewrite !not_elem_of_cons. split_and!; [discriminate|discriminate|apply not_elem_of_nil]. Defined.

(** The node of [/tmp/a/x]. *)
Definition x_id : nat := 31.
Definition x_node : Node := mkNode File 0x81A4 0 0 (str "hello") 5 ∅ 0 1 false None.
Lemma x_there : nodes lab !! x_id = Some x_node.
Proof. vm_compute. reflexivity. Qed.
Lemma x_contents : contents_ok x_node.
Proof. vm_compute. split; discriminate. Qed.

Lemma write_at_array_witness : exists n', nodes (fst (write_at x_id 7 (str "you") lab)) !! x_id = Some n' /\ data n' !! 6%nat = Some 0 /\ data n' !! 8%nat = Some 111.
Proof.
  pose proof (write_at_array x_id x_node 7 (str "you") lab x_there eq_refl x_contents eq_refl ltac:(lia)) as H.
  rewrite (ran (write_at x_id 7 (str "you")) lab (Ok 3)) in H by (vm_compute; reflexivity). cbn [fst]. destruct H as (_ & _ & n' & Hone & _ & _ & Hat).
  exists n'. split; [by eapply only_node_at|]. rewrite !Hat. split; reflexivity.
Defined.

Lemma write_read_back_witness : read_at x_id 7 3 (fst (write_at x_id 7 (str "you") lab)) = (fst (write_at x_id 7 (str "you") lab), Ok (str "you")).
Proof.
  apply (write_read_back x_id x_node 7 (str "you") 3 lab _ x_there eq_refl x_contents eq_refl ltac:(lia)). apply ran. vm_compute. reflexivity.
Defined.

Lemma truncate_array_witness : exists n', nodes (fst (truncate x_id 2 lab)) !! x_id = Some n' /\ len (data n') = 2 /\ data n' !! 1%nat = Some 101.
Proof.
  pose proof (truncate_array x_id x_node 2 lab x_there eq_refl ltac:(discriminate) x_contents eq_refl ltac:(unfold u64_max; lia)) as H.
  rewrite (ran (truncate x_id 2) lab (Ok tt)) in H by (vm_compute; reflexivity). cbn [fst]. destruct H as (n' & Hone & _ & _ & Hlen & Hat).
  exists n'. split; [by eapply only_node_at|]. split; [exact Hlen|]. rewrite Hat by lia. reflexivity.
Defined.

(** ** The tree *)

Lemma tree_from_boot_witness : tree_ok 6 (fst ((fs_init ;;; run setup) (fs_boot desk))).
Proof.
  assert (wp (fs_init ;;; run setup) (fun f' _ => tree_ok 6 f') (fun f' _ => tree_ok 1 f') (fs_boot desk)) as H.
  { apply (tree_from_boot desk setup); [repeat constructor; vm_compute; discriminate|vm_compute; discriminate]. }
  unfold wp in H. rewrite (ran (fs_init ;;; run setup) (fs_boot desk) (Ok tt)) in H by (vm_compute; reflexivity). exact H.
Defined.

Lemma refused_changes_nothing_witness : nodes (fst (exec (Rename (str "/tmp/a") (str "/tmp/a/c")) lab)) !! x_id = Some x_node.
Proof.
  apply (refused_changes_nothing 6 (Rename (str "/tmp/a") (str "/tmp/a/c")) EINVAL lab); [vm_compute; split; [discriminate|reflexivity]|exact lab_ok|exact I|reflexivity| |exact x_there|vm_compute; reflexivity].
  apply ran. vm_compute. reflexivity.
Defined.

Lemma within_decides_witness : exists b, is_within 30 x_id lab = (lab, Ok b) /\ (b = true <-> beneath (nodes lab) 30 x_id).
Proof. apply (within_decides 6 30 x_id lab lab_ok). vm_compute. eexists. reflexivity. Defined.

Lemma rename_moves_witness : exists f1, looked lab f1 /\ renamed (str "/tmp/a/x") (str "/tmp/b/y") lab f1 (fst (rename (str "/tmp/a/x") (str "/tmp/b/y") lab)).
Proof.
  apply (rename_moves 6 (str "/tmp/a/x") (str "/tmp/b/y") lab (fst (rename (str "/tmp/a/x") (str "/tmp/b/y") lab)) ltac:(lia) lab_ok).
  apply ran. vm_compute. reflexivity.
Defined.

Lemma unlink_removes_witness : exists f1, looked lab f1 /\ removed (str "/tmp/a/x") false lab f1 (fst (unlink (str "/tmp/a/x") false lab)).
Proof.
  apply (unlink_removes 6 (str "/tmp/a/x") false lab (fst (unlink (str "/tmp/a/x") false lab)) ltac:(lia) lab_ok). apply ran. vm_compute. reflexivity.
Defined.

Lemma replace_is_whole_witness : exists f1, looked lab f1 /\ replaced (str "/tmp/a/x") (str "new") f1 (fst (replace_file (str "/tmp/a/x") (str "new") 0x1A4 lab)).
Proof.
  apply (replace_is_whole 6 (str "/tmp/a/x") (str "new") 0x1A4 lab (fst (replace_file (str "/tmp/a/x") (str "new") 0x1A4 lab)) ltac:(lia) lab_ok).
  apply ran. vm_compute. reflexivity.
Defined.

(** The machine with the directory of process 1 made and published. *)
Definition made : Fs Desk := fst (build_process 1 lab).
Definition home : Fs Desk := fst (publish_process (Some 3%nat, str "1", 34%nat) made).

Lemma built_ran : build_process 1 lab = (made, Ok (Some 3%nat, str "1", 34%nat)).
Proof. unfold made. apply (ran (build_process 1) lab (Ok (Some 3%nat, str "1", 34%nat))). vm_compute. reflexivity. Qed.
Lemma proc_there : is_directory lab 3.
Proof. exists (default x_node (nodes lab !! 3%nat)). split; vm_compute; reflexivity. Qed.

Lemma process_published_witness : ~ beneath (nodes made) 34 3 /\ nodes lab !! 34%nat = None.
Proof.
  assert (1 <= 6) as H6 by lia. destruct (process_published 6 1 lab made 3 (str "1") 34 H6 lab_ok built_ran proc_there) as (H1 & H2 & _). exact (conj H1 H2).
Defined.

(** ** Descriptors *)

Definition three : FdInner := mkFdInner [Some 1%nat; None; Some 2%nat] [false; true; true].

Lemma alloc_lowest_witness : exists x, 1 = Z.of_nat x /\ lowest_free three 0 x /\ put_at three x (Some 7%nat) false (mkFdInner [Some 1%nat; Some 7%nat; Some 2%nat] [false; false; true]).
Proof. apply (alloc_lowest 0 7 false three). split; vm_compute; [reflexivity|lia]. Defined.

Lemma exec_closes_marked_witness : slot (close_on_exec three) 2 = None.
Proof. destruct (exec_closes_marked three ltac:(split; vm_compute; [reflexivity|lia])) as [_ H]. by rewrite (proj1 (H 2%nat)). Defined.

(** A process with [/tmp/a/x] open to read as 0, [/tmp] open as 1, and [/tmp/a/x] open
    twice to append as 2 and 3. *)
Definition shop : Proc Desk :=
  mkProc home {[1%nat := from_node_at x_id O_RDONLY (str "/tmp/a/x"); 2%nat := from_node_at 4 O_RDONLY (str "/tmp");
                3%nat := from_node_at x_id (Z.lor O_WRONLY O_APPEND) (str "/tmp/a/x"); 4%nat := from_node_at x_id (Z.lor O_WRONLY O_APPEND) (str "/tmp/a/x")]}
    5 (mkFdInner [Some 1%nat; Some 2%nat; Some 3%nat; Some 4%nat] [false; false; false; false]) (str "/") 0x12.

Lemma read_to_end_witness : exists p', loop 6 (read_turn 0 2) [] shop = (p', Ok (str "hello")).
Proof.
  apply (read_to_end 0 1 x_id (from_node_at x_id O_RDONLY (str "/tmp/a/x")) x_node 2 shop); try reflexivity; [|exact x_contents|vm_compute; split; [reflexivity|discriminate]|vm_compute; split; discriminate].
  split_and!; try reflexivity; vm_compute; reflexivity.
Defined.

Lemma home_ok : tree_ok 6 home.
Proof.
  pose proof (wp_build_process 6 1 lab ltac:(lia) lab_ok) as H. unfold wp in H. rewrite (ran (build_process 1) lab (Ok (Some 3%nat, str "1", 34%nat))) in H by (vm_compute; reflexivity).
  destruct H as (H1 & _ & _ & H2 & _ & H3). fold made in H1, H2, H3. unfold home. assert (is_directory made 3) as Hp by (vm_compute; eexists; split; reflexivity).
  rewrite publish_is by (by apply directory_there). apply tree_ok_entered; [done|done|by apply directory_there|]. intros Hb. apply H3 in Hb. vm_compute in Hb. discriminate.
Qed.

(** What [/tmp] holds. *)
Definition tmp_list : list DirEntry :=
  [mkDirEntry 4 4 DOT_NAME; mkDirEntry 4 4 DOTDOT_NAME; mkDirEntry 30 4 (str "a"); mkDirEntry 32 4 (str "b"); mkDirEntry 33 10 (str "link")].

(** Everything in it is removed while it is listed. *)
Definition emptied (_ : nat) (f : Fs Desk) : Fs Desk := with_nodes (alter (set_children ∅) 4%nat (nodes f)) f.
Lemma emptied_directory i (f : Fs Desk) : is_directory f 4 -> is_directory (emptied i f) 4.
Proof. intros (n & Hn & Hd). exists (set_children ∅ n). split; [|done]. cbn. by rewrite lookup_alter_eq, Hn. Qed.
Lemma tmp_there : is_directory home 4.
Proof. exists (default x_node (nodes home !! 4%nat)). split; vm_compute; reflexivity. Qed.
Lemma tmp_listed : readdir 4 home = (fst (readdir 4 home), Ok tmp_list).
Proof. apply (ran (readdir 4) home). vm_compute. reflexivity. Qed.

Lemma listing_whole_witness : exists p', loop 7 (list_turn 1 24 emptied) (0%nat, []) shop = (p', Ok (records 0 tmp_list)).
Proof.
  assert (1 <= 6) as H6 by lia. assert (0 <= 24 <= isize_max) as H24 by (unfold isize_max; lia).
  assert (Forall (fun e => record_length e <= 24) tmp_list) as Hfit by (repeat (apply Forall_cons; split; [vm_compute; discriminate|]); by apply Forall_nil).
  exact (listing_whole 6 1 2 4 (from_node_at 4 O_RDONLY (str "/tmp")) tmp_list 24 emptied (fst (readdir 4 home)) shop H6 home_ok eq_refl eq_refl eq_refl eq_refl tmp_there tmp_listed emptied_directory H24 Hfit).
Defined.

(** ** The archive *)

Definition two_entries : list CpioEntry := [mkCpioEntry (str "bin") 0x41ED 5 []; mkCpioEntry (str "./bin/sh") 0x81ED 9 (str "#!")].

Lemma extract_reads_back_witness : snd (extract (archive_of two_entries) lab) = Ok (mkStats 1 1 0 2 9).
Proof.
  rewrite (extract_reads_back two_entries lab); [vm_compute; reflexivity| |vm_compute; discriminate].
  repeat (apply Forall_cons; split; [split; vm_compute; repeat split; discriminate|]). by apply Forall_nil.
Defined.

(** ** What the code does *)

(** [/proc/self] stands for the directory of the calling process when it is looked up,
    and there is no entry of that name: renaming it gives the directory a second name,
    keeps the first, and counts one. *)
Theorem rename_self_two_names :
  let f := fst (rename (str "/proc/self") (str "/tmp/me") home) in
  snd (rename (str "/proc/self") (str "/tmp/me") home) = Ok tt /\
  snd (lookup_path (str "/proc/1") f) = Ok 34%nat /\ snd (lookup_path (str "/tmp/me") f) = Ok 34%nat /\
  (nlink <$> nodes f !! 34%nat) = Some 1 /\ (kind <$> nodes f !! 34%nat) = Some Dir.
Proof. vm_compute. repeat split. Qed.

(** A descriptor that was opened to read refuses [write] and takes [pwrite]; a
    [pwrite] of nothing past the end makes the file longer. *)
Theorem pwrite_unchecked :
  snd (sys_write 0 3 (Some (str "bye")) shop) = Err EBADF /\
  snd (pwrite 0 3 (Some (str "bye")) 0 shop) = Ok 3 /\
  (data <$> nodes (fs (fst (pwrite 0 3 (Some (str "bye")) 0 shop))) !! x_id) = Some (str "byelo") /\
  (length ∘ data <$> nodes (fs (fst (pwrite 0 0 (Some []) 9 shop))) !! x_id) = Some 9%nat.
Proof. vm_compute. repeat split. Qed.

(** Two descriptors that append. One write after the other, both are kept; when the
    second finds out where the end is before the first has written, the first is
    written over. *)
Theorem append_lost :
  (data <$> nodes (fs (fst ((let! _ := file_write 3 (str "AA") in file_write 4 (str "BB")) shop))) !! x_id) = Some (str "helloAABB") /\
  let o := write_position (from_node_at x_id (Z.lor O_WRONLY O_APPEND) (str "/tmp/a/x")) x_node desk in
  (data <$> nodes (fs (fst ((let! _ := write_there 3 x_id o (str "AA") in write_there 4 x_id o (str "BB")) shop))) !! x_id) = Some (str "helloBB").
Proof. vm_compute. repeat split. Qed.
