(* ===== verification/Walk.v ===== *)
(** * Descriptors of the two machines

    [kernel/src/arch/x86_64/paging.rs] and [kernel/src/arch/aarch64/paging.rs],
    behind the trait [Machine] of [kernel/src/mm/walk.rs]: what a descriptor is
    made of. [PagingLaws] is what the walk relies on; both machines have it. *)

From stdpp Require Import gmap.
From S2P Require Import Prelude Words Handoff Frame.

(** [flags & bit != 0]. *)
Definition has (bit f : Z) : bool := negb (Z.land f bit =? 0).

(** The part of [Machine] that is about descriptors. *)
Class Paging := {
  PRESENT : Z;
  WRITABLE : Z;
  USER : Z;
  NO_EXECUTE : Z;
  COW : Z;
  leaf_bits : Z -> Z -> Z;
  table_bits : Z -> Z -> Z;
  present : Z -> bool;
  ends_walk : Z -> Z -> bool;
  addr : Z -> Z;
  flags : Z -> Z;
  shared : Z -> option Z;
  widen : Z -> Z -> option Z;
}.

Module X86.
Definition PRESENT : Z := Z.shiftl 1 0.
Definition WRITABLE : Z := Z.shiftl 1 1.
Definition USER : Z := Z.shiftl 1 2.
Definition HUGE : Z := Z.shiftl 1 7.
Definition NO_EXECUTE : Z := Z.shiftl 1 63.
Definition COW : Z := Z.shiftl 1 9.
Definition ADDR_MASK : Z := 0x000FFFFFFFFFF000.

Definition leaf (phys flags : Z) : Z :=
  Z.lor (Z.lor (Z.land phys ADDR_MASK) (Z.land flags (not64 ADDR_MASK))) PRESENT.

Definition table (phys under : Z) : Z :=
  Z.lor (Z.lor (Z.lor (Z.land phys ADDR_MASK) PRESENT) WRITABLE) (Z.land under USER).

Definition present (bits : Z) : bool := has PRESENT bits.
Definition ends_walk (bits level : Z) : bool := (0 <? level) && has HUGE bits.
Definition addr (bits : Z) : Z := Z.land bits ADDR_MASK.
Definition flags (bits : Z) : Z := Z.land bits (not64 ADDR_MASK).

Definition shared (flags : Z) : option Z :=
  if has WRITABLE flags then Some (Z.lor (Z.land flags (not64 WRITABLE)) COW) else None.

Definition widen (table_bits leaf_flags : Z) : option Z :=
  if has USER leaf_flags && negb (has USER table_bits) then Some (Z.lor table_bits USER) else None.

(** [is_user_addr], the same on both machines. *)
Definition is_user_addr (virt : Z) : bool := virt <? 0x0000800000000000.
End X86.

Module Arm.
Definition PRESENT : Z := Z.shiftl 1 0.
Definition WRITABLE : Z := Z.shiftl 1 55.
Definition USER : Z := Z.shiftl 1 6.
Definition NO_EXECUTE : Z := Z.shiftl 1 54.
Definition COW : Z := Z.shiftl 1 56.
Definition ADDR_MASK : Z := 0x0000FFFFFFFFF000.
Definition PAGE_DESCRIPTOR : Z := Z.shiftl 1 1.
Definition ACCESSED : Z := Z.shiftl 1 10.
Definition SHARED : Z := Z.shiftl 3 8.
Definition READ_ONLY : Z := Z.shiftl 1 7.
Definition NO_EXECUTE_EL1 : Z := Z.shiftl 1 53.
Definition FLAG_MASK : Z := not64 ADDR_MASK.

Definition leaf (phys flags : Z) : Z :=
  let bits := Z.lor (Z.lor (Z.lor (Z.lor (Z.land phys ADDR_MASK) (Z.land flags FLAG_MASK)) PAGE_DESCRIPTOR) ACCESSED) SHARED in
  let bits := if negb (has WRITABLE flags) || has COW flags then Z.lor bits READ_ONLY else Z.land bits (not64 READ_ONLY) in
  if has (Z.lor NO_EXECUTE USER) flags then Z.lor bits NO_EXECUTE_EL1 else bits.

Definition table (phys _under : Z) : Z := Z.lor (Z.lor (Z.land phys ADDR_MASK) PRESENT) PAGE_DESCRIPTOR.

Definition present (bits : Z) : bool := has PRESENT bits.
Definition ends_walk (bits level : Z) : bool := (0 <? level) && negb (has PAGE_DESCRIPTOR bits).
Definition addr (bits : Z) : Z := Z.land bits ADDR_MASK.
Definition flags (bits : Z) : Z := Z.land bits FLAG_MASK.

Definition shared (flags : Z) : option Z := if has WRITABLE flags then Some (Z.lor flags COW) else None.
Definition widen (_table_bits _leaf_flags : Z) : option Z := None.

(** The operand of an invalidation by address. *)
Definition invalidation_operand (virt : Z) : Z := Z.land (Z.shiftr virt 12) 0xFFFFFFFFFFF.
End Arm.

Create HintDb paging.
#[global] Hint Unfold X86.leaf X86.table X86.present X86.ends_walk X86.addr X86.flags X86.shared X86.widen
  Arm.leaf Arm.table Arm.present Arm.ends_walk Arm.addr Arm.flags Arm.shared Arm.widen : paging.

Definition x86_paging : Paging := {|
  PRESENT := X86.PRESENT; WRITABLE := X86.WRITABLE; USER := X86.USER; NO_EXECUTE := X86.NO_EXECUTE; COW := X86.COW;
  leaf_bits := X86.leaf; table_bits := X86.table; present := X86.present; ends_walk := X86.ends_walk;
  addr := X86.addr; flags := X86.flags; shared := X86.shared; widen := X86.widen;
|}.

Definition arm_paging : Paging := {|
  PRESENT := Arm.PRESENT; WRITABLE := Arm.WRITABLE; USER := Arm.USER; NO_EXECUTE := Arm.NO_EXECUTE; COW := Arm.COW;
  leaf_bits := Arm.leaf; table_bits := Arm.table; present := Arm.present; ends_walk := Arm.ends_walk;
  addr := Arm.addr; flags := Arm.flags; shared := Arm.shared; widen := Arm.widen;
|}.

(** What the processor makes of a descriptor at the last level: whether a
    program may store through it, by the manuals of the two. *)
Definition x86_writes (bits : Z) : bool := has X86.WRITABLE bits && has X86.USER bits.
Definition arm_writes (bits : Z) : bool := negb (has Arm.READ_ONLY bits) && has Arm.USER bits.

(** An address a descriptor of either machine can name. *)
Definition frame_addr (p : Z) : Prop := exists f, 0 <= f < 2 ^ 36 /\ p = f * 4096.

(** What the walk and the address spaces rely on. [writes] is whether a program
    may store through a descriptor. *)
Class PagingLaws (P : Paging) (writes : Z -> bool) : Prop := {
  absent_zero : present 0 = false;
  addr_leaf p f : frame_addr p -> addr (leaf_bits p f) = p;
  present_leaf p f : has PRESENT f = true -> present (leaf_bits p f) = true;
  addr_table p u : frame_addr p -> addr (table_bits p u) = p;
  present_table p u : present (table_bits p u) = true;
  goes_on_table p u l : ends_walk (table_bits p u) l = false;
  ends_any b l l' : 0 < l -> 0 < l' -> ends_walk b l = ends_walk b l';
  widen_same b u b' : widen b u = Some b' -> addr b' = addr b /\ present b' = present b /\ forall l, ends_walk b' l = ends_walk b l;
  (** The flags come back as they were asked for, as far as the kernel reads
      them, and asking for them again makes the same descriptor. *)
  flags_kept p f bit : bit ∈ [PRESENT; WRITABLE; USER; NO_EXECUTE; COW] -> has PRESENT f = true ->
    has bit (flags (leaf_bits p f)) = has bit f;
  leaf_again p f : leaf_bits p (flags (leaf_bits p f)) = leaf_bits p f;
  (** Sharing marks a page that may be written and makes it read-only. *)
  shared_marks f s : shared f = Some s -> has COW s = true /\ has PRESENT s = has PRESENT f /\ has USER s = has USER f /\
    forall p, writes (leaf_bits p s) = false;
  shared_none f : shared f = None -> forall p, writes (leaf_bits p f) = false;
  (** A page that may be written and has no mark is one a program may store to. *)
  writes_plain p f : has PRESENT f = true -> has WRITABLE f = true -> has USER f = true -> has COW f = false ->
    writes (leaf_bits p f) = true;
  unshare_flags f : let f' := Z.lor (Z.land f (not64 COW)) WRITABLE in
    has COW f' = false /\ has WRITABLE f' = true /\ has PRESENT f' = has PRESENT f /\ has USER f' = has USER f;
  bits_there : has PRESENT PRESENT = true /\ has USER USER = true;
  bits_apart : has WRITABLE WRITABLE = true /\ Forall (fun bit => has COW bit = false) [PRESENT; WRITABLE; USER; NO_EXECUTE];
}.

(** ** Both machines have the laws *)

Lemma has_lor b x y : has b (Z.lor x y) = has b x || has b y.
Proof.
  unfold has. rewrite Z.land_lor_distr_l.
  pose proof (Z.lor_eq_0_iff (Z.land x b) (Z.land y b)) as H.
  destruct (Z.eqb_spec (Z.land x b) 0), (Z.eqb_spec (Z.land y b) 0), (Z.eqb_spec (Z.lor (Z.land x b) (Z.land y b)) 0); cbn; tauto.
Qed.

Lemma has_land b x m : has b (Z.land x m) = has (Z.land m b) x.
Proof. unfold has. by rewrite Z.land_assoc. Qed.

Lemma has_nothing x : has 0 x = false.
Proof. unfold has. by rewrite Z.land_0_r. Qed.

Lemma land_frame p m : frame_addr p -> Z.land m 0x0000FFFFFFFFF000 = 0x0000FFFFFFFFF000 -> Z.land p m = p.
Proof.
  intros (f & Hf & ->) Hm. replace (f * 4096) with (Z.land (f * 4096) 0x0000FFFFFFFFF000) at 1.
  { rewrite <- Z.land_assoc, (Z.land_comm _ m), Hm. change 0x0000FFFFFFFFF000 with (Z.shiftl (Z.ones 36) 12).
    change 4096 with (2 ^ 12). rewrite <- Z.shiftl_mul_pow2, <- Z.shiftl_land, Z.land_ones, Z.mod_small by lia. done. }
  change 0x0000FFFFFFFFF000 with (Z.shiftl (Z.ones 36) 12).
  change 4096 with (2 ^ 12). rewrite <- Z.shiftl_mul_pow2, <- Z.shiftl_land, Z.land_ones, Z.mod_small by lia. done.
Qed.

(** [t], made of the constants [m] and [b], as a number. *)
Ltac word_constant m :=
  first [is_var m; fail 1 | lazymatch m with Z.land _ _ => fail | Z.lor _ _ => fail | _ => idtac end;
    let v := eval vm_compute in m in lazymatch v with Zpos _ => idtac | Z0 => idtac end].
Ltac compute_word m b t :=
  word_constant m; word_constant b; let v := eval vm_compute in t in change t with v.

(** A bit asked of a word that masks and constants make: the masks meet, and
    the constants compute. *)
Ltac ask_bits :=
  repeat match goal with
  | |- context[has ?b (Z.lor ?x ?y)] => rewrite (has_lor b x y)
  | |- context[has ?b (Z.land ?x ?m)] => rewrite (has_land b x m)
  end;
  repeat match goal with
  | |- context[Z.land ?m ?b] => compute_word m b (Z.land m b)
  | |- context[Z.lor ?m ?b] => compute_word m b (Z.lor m b)
  end;
  rewrite ?has_nothing.

Lemma has_and b x : has b x = true -> forall c, has (Z.lor b c) x = true.
Proof.
  intros H c. unfold has in *. rewrite Z.land_lor_distr_r. pose proof (Z.lor_eq_0_iff (Z.land x b) (Z.land x c)) as E.
  destruct (Z.eqb_spec (Z.lor (Z.land x b) (Z.land x c)) 0); [|done]. destruct (Z.eqb_spec (Z.land x b) 0); [done|tauto].
Qed.

(** The address of a descriptor: the masked address, and nothing of the rest. *)
Ltac address :=
  rewrite ?Z.land_lor_distr_l, <- ?Z.land_assoc;
  repeat match goal with
  | |- context[Z.land ?m ?b] => compute_word m b (Z.land m b)
  end;
  rewrite ?Z.land_0_r, ?Z.lor_0_r.

(** What a constant says of a bit of another. *)
Lemma bit_apart a b i : Z.land a b = 0 -> Z.testbit a i && Z.testbit b i = false.
Proof. intros H. by rewrite <- Z.land_spec, H, Z.bits_0. Qed.
Lemma bit_within a b i : Z.land a b = a -> Z.testbit a i = true -> Z.testbit b i = true.
Proof. intros H Ha. rewrite <- H, Z.land_spec in Ha. by apply andb_prop in Ha as [_ ?]. Qed.

Ltac number b := lazymatch b with Zpos _ => fail | _ => let v := eval vm_compute in b in lazymatch v with Zpos _ => change b with v in * end end.
Ltac leaf_laws :=
  autounfold with paging in *; cbv zeta in *; ask_bits;
  repeat match goal with
  | |- context[has ?b _] => number b
  | H : context[has ?b _] |- _ => number b
  end;
  repeat match goal with
  | |- context[has (Zpos ?b) (Zpos ?c)] => let v := eval vm_compute in (has (Zpos b) (Zpos c)) in change (has (Zpos b) (Zpos c)) with v
  end;
  repeat match goal with
  | H : has _ _ = true |- _ => rewrite H
  | H : has _ _ = false |- _ => rewrite H
  end;
  rewrite ?orb_false_r, ?orb_true_r, ?orb_false_l, ?andb_false_r, ?andb_true_r; try done.

#[global] Instance x86_laws : PagingLaws x86_paging x86_writes.
Proof.
  split; cbn.
  - done.
  - intros p f Hp. autounfold with paging. address. by apply land_frame.
  - intros p f _. by leaf_laws.
  - intros p u Hp. autounfold with paging. address. by apply land_frame.
  - intros p u. by leaf_laws.
  - intros p u l. by leaf_laws.
  - intros b l l' Hl Hl'. autounfold with paging. by rewrite !(proj2 (Z.ltb_lt _ _)).
  - intros b u b'. autounfold with paging. destruct (_ && _); [|done]. intros [= <-]. split_and!; [by address|by leaf_laws|].
    intros l. autounfold with paging. f_equal. by leaf_laws.
  - intros p f bit Hbit Hf. unfold X86.PRESENT in *. repeat (apply elem_of_cons in Hbit as [->|Hbit]); [..|by apply elem_of_nil in Hbit]; by leaf_laws.
  - intros p f. autounfold with paging. apply Z.bits_inj'. intros i Hi. rewrite !Z.lor_spec, !Z.land_spec, !Z.lor_spec, !Z.land_spec.
    pose proof (bit_apart X86.ADDR_MASK (not64 X86.ADDR_MASK) i eq_refl) as H.
    destruct (Z.testbit X86.ADDR_MASK i), (Z.testbit (not64 X86.ADDR_MASK) i), (Z.testbit X86.PRESENT i), (Z.testbit p i), (Z.testbit f i); done.
  - intros f s. unfold X86.shared. destruct (has X86.WRITABLE f); [|done]. intros [= <-]. split_and!.
    all: intros; unfold x86_writes; by leaf_laws.
  - intros f. unfold X86.shared. destruct (has X86.WRITABLE f) eqn:E; [done|]. intros _ p. unfold x86_writes. by leaf_laws.
  - intros p f HP HW HU HC. unfold x86_writes. by leaf_laws.
  - intros f. split_and!; by leaf_laws.
  - by split; vm_compute.
  - split; [done|]. by repeat constructor.
Qed.

(** The bits the portable code asks of a descriptor of [Arm.leaf]. *)
Lemma arm_leaf_has p f bit :
  bit ∈ [Arm.PRESENT; Arm.WRITABLE; Arm.USER; Arm.NO_EXECUTE; Arm.COW] -> has bit (Arm.leaf p f) = has bit f.
Proof.
  intros Hbit. unfold Arm.leaf. cbv zeta. set (e := has (Z.lor _ _) f). set (w := negb _ || _).
  repeat (apply elem_of_cons in Hbit as [->|Hbit]); [..|by apply elem_of_nil in Hbit].
  all: destruct e, w; by leaf_laws.
Qed.

Lemma arm_leaf_read_only p f : has Arm.READ_ONLY (Arm.leaf p f) = negb (has Arm.WRITABLE f) || has Arm.COW f.
Proof. unfold Arm.leaf. cbv zeta. set (e := has (Z.lor _ _) f). destruct (negb _ || _); destruct e; by leaf_laws. Qed.

Lemma arm_flags_has x bit : Z.land Arm.ADDR_MASK bit = 0 -> 0 < bit < 2 ^ 64 -> has bit (Arm.flags x) = has bit x.
Proof.
  intros Ha Hb. unfold Arm.flags. rewrite has_land. f_equal. apply Z.bits_inj'. intros i Hi. rewrite Z.land_spec.
  pose proof (bit_apart Arm.ADDR_MASK bit i Ha) as H. unfold Arm.FLAG_MASK. destruct (decide (i < 64)).
  - rewrite not64_bit by lia. by destruct (Z.testbit Arm.ADDR_MASK i), (Z.testbit bit i).
  - rewrite (high_bits bit) by (lia || (unfold is_u64, u64_max; lia)). apply andb_false_r.
Qed.

Lemma arm_leaf_again p f : Arm.leaf p (Arm.flags (Arm.leaf p f)) = Arm.leaf p f.
Proof.
  assert (Hk : forall bit, bit ∈ [Arm.PRESENT; Arm.WRITABLE; Arm.USER; Arm.NO_EXECUTE; Arm.COW] -> has bit (Arm.flags (Arm.leaf p f)) = has bit f).
  { intros bit Hbit. rewrite <- (arm_leaf_has p f bit Hbit). apply arm_flags_has.
    all: repeat (apply elem_of_cons in Hbit as [->|Hbit]); [..|by apply elem_of_nil in Hbit]; done. }
  assert (Ho : forall x, has (Z.lor Arm.NO_EXECUTE Arm.USER) x = has Arm.NO_EXECUTE x || has Arm.USER x).
  { intros x. unfold has. rewrite Z.land_lor_distr_r. pose proof (Z.lor_eq_0_iff (Z.land x Arm.NO_EXECUTE) (Z.land x Arm.USER)).
    destruct (Z.eqb_spec (Z.land x Arm.NO_EXECUTE) 0), (Z.eqb_spec (Z.land x Arm.USER) 0), (Z.eqb_spec (Z.lor (Z.land x Arm.NO_EXECUTE) (Z.land x Arm.USER)) 0); cbn; tauto. }
  unfold Arm.leaf at 1. cbv zeta. rewrite Ho, !Hk by set_solver. unfold Arm.leaf. cbv zeta. rewrite Ho.
  set (w := negb _ || _). set (e := _ || _). clearbody w e. unfold Arm.flags.
  apply Z.bits_inj'. intros i Hi.
  pose proof (bit_apart Arm.ADDR_MASK Arm.FLAG_MASK i eq_refl) as H1.
  pose proof (bit_within Arm.READ_ONLY Arm.FLAG_MASK i eq_refl) as H2.
  pose proof (bit_within Arm.PAGE_DESCRIPTOR Arm.FLAG_MASK i eq_refl) as H3.
  pose proof (bit_within Arm.ACCESSED Arm.FLAG_MASK i eq_refl) as H4.
  pose proof (bit_within Arm.SHARED Arm.FLAG_MASK i eq_refl) as H5.
  pose proof (bit_within Arm.NO_EXECUTE_EL1 Arm.FLAG_MASK i eq_refl) as H6.
  destruct w, e; repeat (rewrite Z.lor_spec || rewrite Z.land_spec).
  all: destruct (Z.testbit Arm.FLAG_MASK i), (Z.testbit Arm.ADDR_MASK i); try done.
  all: rewrite ?andb_false_r, ?andb_true_r, ?orb_false_r, ?orb_false_l.
  all: destruct (Z.testbit Arm.READ_ONLY i), (Z.testbit Arm.PAGE_DESCRIPTOR i), (Z.testbit Arm.ACCESSED i), (Z.testbit Arm.SHARED i),
    (Z.testbit Arm.NO_EXECUTE_EL1 i); try (discriminate (H2 eq_refl) || discriminate (H3 eq_refl) || discriminate (H4 eq_refl) || discriminate (H5 eq_refl) || discriminate (H6 eq_refl)).
  all: clear; repeat match goal with |- context[Z.testbit ?c _] => destruct (Z.testbit c _) end; try reflexivity.
Qed.

#[global] Instance arm_laws : PagingLaws arm_paging arm_writes.
Proof.
  split; cbn.
  - done.
  - intros p f Hp. unfold Arm.addr, Arm.leaf. cbv zeta. repeat case_match. all: address. all: by apply land_frame.
  - intros p f Hf. unfold Arm.present. rewrite arm_leaf_has by set_solver. done.
  - intros p u Hp. unfold Arm.addr, Arm.table. address. by apply land_frame.
  - intros p u. by leaf_laws.
  - intros p u l. by leaf_laws.
  - intros b l l' Hl Hl'. unfold Arm.ends_walk. by rewrite !(proj2 (Z.ltb_lt _ _)).
  - done.
  - intros p f bit Hbit Hf. rewrite <- (arm_leaf_has p f bit Hbit). apply arm_flags_has.
    all: repeat (apply elem_of_cons in Hbit as [->|Hbit]); [..|by apply elem_of_nil in Hbit]; done.
  - apply arm_leaf_again.
  - intros f s. unfold Arm.shared. destruct (has Arm.WRITABLE f); [|done]. intros [= <-]. split_and!; [by leaf_laws..|].
    intros p. unfold arm_writes. rewrite arm_leaf_read_only, !has_lor. change (has Arm.COW Arm.COW) with true. by rewrite !orb_true_r.
  - intros f. unfold Arm.shared. destruct (has Arm.WRITABLE f) eqn:E; [done|]. intros _ p. unfold arm_writes. by rewrite arm_leaf_read_only, E.
  - intros p f HP HW HU HC. unfold arm_writes. rewrite arm_leaf_read_only, arm_leaf_has by set_solver. by rewrite HW, HC, HU.
  - intros f. split_and!; by leaf_laws.
  - by split; vm_compute.
  - split; [done|]. by repeat constructor.
Qed.

(** * The walk of the translation tables, and every change to them

    [kernel/src/mm/walk.rs], with what [Mach] of [kernel/src/mm/tables.rs]
    supplies it: physical memory, the frame allocator and the caches of the
    processor. A physical word is named by the frame it is in and its index; one
    that was never written is zero. The [TableStock] and the [Tlb] a call is lent
    are part of the state. *)

Definition ENTRIES : Z := 512.
Definition DEPTH : nat := 3.
Definition PAGE_BITS : Z := 12.
Definition LEVEL_BITS : Z := 9.
Definition SPAN : Z := Z.shiftl 1 (PAGE_BITS + LEVEL_BITS * 4).

Definition index_of (virt level : Z) : Z := Z.land (Z.shiftr virt (PAGE_BITS + LEVEL_BITS * level)) 0x1FF.
Definition level_size (level : Z) : Z := Z.shiftl 1 (PAGE_BITS + LEVEL_BITS * level).

(** ** Translations left behind *)

Inductive Tlb := Clean | Page (virt : Z) | All.

Definition note (virt : Z) (t : Tlb) : Tlb :=
  match t with
  | Clean => Page virt
  | Page already => if already =? virt then Page virt else All
  | All => All
  end.
Definition note_all (_ : Tlb) : Tlb := All.
Definition is_clean (t : Tlb) : bool := match t with Clean => true | _ => false end.

(** A change refused. *)
Inductive Refused := Occupied | ShortOfTables | Blocked.

#[global] Instance refused_eq : EqDecision Refused.
Proof. solve_decision. Defined.

(** [cached] is what the processor keeps of the tables it is on: by page, the
    descriptor it found. *)
Record Walk := mkWalk {
  words : gmap (Z * Z) Z;
  pool : BitmapAllocator;
  cached : gmap Z Z;
  stock : list Z;
  tlb : Tlb;
}.

Definition set_words (w : gmap (Z * Z) Z) (s : Walk) : Walk := mkWalk w (pool s) (cached s) (stock s) (tlb s).
Definition set_pool (a : BitmapAllocator) (s : Walk) : Walk := mkWalk (words s) a (cached s) (stock s) (tlb s).
Definition set_cached (c : gmap Z Z) (s : Walk) : Walk := mkWalk (words s) (pool s) c (stock s) (tlb s).
Definition set_stock (l : list Z) (s : Walk) : Walk := mkWalk (words s) (pool s) (cached s) l (tlb s).
Definition set_tlb (t : Tlb) (s : Walk) : Walk := mkWalk (words s) (pool s) (cached s) (stock s) t.

(** ** Frames, through the allocator *)

Definition in_pool {E A} (m : FM A) : M Walk E A :=
  zoom pool set_pool (map_err (fun e : Empty_set => match e with end) m).

(** [frame::alloc_zeroed], the frame filled through the direct map. *)
Definition zero_frame (p : Z) (w : gmap (Z * Z) Z) : gmap (Z * Z) Z := filter (fun kv => kv.1.1 <> p) w.
Definition alloc_zeroed {E} : M Walk E (option Z) :=
  let! p := in_pool alloc in
  match p with
  | Some phys => modify (fun s => set_words (zero_frame phys (words s)) s) ;;; ret (Some phys)
  | None => ret None
  end.

Definition machine_free {E} (phys : Z) : M Walk E unit := in_pool (free phys).
Definition machine_share {E} (phys : Z) : M Walk E unit := in_pool (share phys).
Definition machine_references {E} (phys : Z) : M Walk E Z := in_pool (references phys).

Definition flush_page {E} (virt : Z) : M Walk E unit := modify (fun s => set_cached (delete (virt / 4096) (cached s)) s).
Definition flush_all {E} : M Walk E unit := modify (set_cached ∅).

Definition note_page {E} (virt : Z) : M Walk E unit := modify (fun s => set_tlb (note virt (tlb s)) s).

(** [Tlb::flush]. *)
Definition tlb_flush {E} : M Walk E unit :=
  let! t := gets tlb in
  modify (set_tlb Clean) ;;;
  match t with
  | Clean => ret tt
  | Page virt => flush_page virt
  | All => flush_all
  end.

(** [TableStock]: the frames it holds, the one it gives next first. *)
Definition stock_push {E} (phys : Z) : M Walk E unit :=
  let! l := gets stock in
  if (length l <? DEPTH)%nat then modify (set_stock (phys :: l)) else fail_with Panic.
Definition stock_take {E} : M Walk E (option Z) :=
  let! l := gets stock in
  match l with
  | [] => ret None
  | phys :: l => modify (set_stock l) ;;; ret (Some phys)
  end.

Section walk.
Context `{Paging}.

(** ** Reading *)

Definition read (w : gmap (Z * Z) Z) (table index : Z) : Z := default 0 (w !! (table, index)).

(** The table a descriptor names, if the walk goes on. *)
Definition step (w : gmap (Z * Z) Z) (table virt level : Z) : option Z :=
  let bits := read w table (index_of virt level) in
  if negb (present bits) || ends_walk bits level then None else Some (addr bits).

Fixpoint descend (w : gmap (Z * Z) Z) (levels : list Z) (virt table : Z) : option Z :=
  match levels with
  | [] => Some table
  | level :: levels =>
      match step w table virt level with
      | Some next => descend w levels virt next
      | None => None
      end
  end.

Definition leaf_table (w : gmap (Z * Z) Z) (root virt : Z) : option Z := descend w [3; 2; 1] virt root.

Fixpoint missing_from (w : gmap (Z * Z) Z) (levels : list Z) (virt table : Z) : Z :=
  match levels with
  | [] => 0
  | level :: levels =>
      match step w table virt level with
      | Some next => missing_from w levels virt next
      | None => level
      end
  end.
Definition missing_tables (w : gmap (Z * Z) Z) (root virt : Z) : Z := missing_from w [3; 2; 1] virt root.

Definition leaf (w : gmap (Z * Z) Z) (root virt : Z) : option Z :=
  match leaf_table w root virt with
  | None => None
  | Some table => let bits := read w table (index_of virt 0) in if present bits then Some bits else None
  end.

Definition flags_of (w : gmap (Z * Z) Z) (root virt : Z) : option Z := flags <$> leaf w root virt.

Fixpoint translate_from (w : gmap (Z * Z) Z) (levels : list Z) (virt table : Z) : option Z :=
  match levels with
  | [] =>
      let bits := read w table (index_of virt 0) in
      if present bits then Some (Z.lor (addr bits) (Z.land virt (level_size 0 - 1))) else None
  | level :: levels =>
      let bits := read w table (index_of virt level) in
      if negb (present bits) then None
      else if ends_walk bits level then
        let size := level_size level in
        Some (Z.lor (Z.land (addr bits) (not64 (size - 1))) (Z.land virt (size - 1)))
      else translate_from w levels virt (addr bits)
  end.
Definition translate (w : gmap (Z * Z) Z) (root virt : Z) : option Z := translate_from w [3; 2; 1] virt root.

Fixpoint walk_from (w : gmap (Z * Z) Z) (levels : list Z) (virt table : Z) : list (Z * Z * Z) :=
  match levels with
  | [] => []
  | level :: levels =>
      let index := index_of virt level in
      let bits := read w table index in
      (level, index, bits) ::
      (if negb (present bits) || (level =? 0) || ends_walk bits level then [] else walk_from w levels virt (addr bits))
  end.
Definition walk_of (w : gmap (Z * Z) Z) (root virt : Z) : list (Z * Z * Z) := walk_from w [3; 2; 1; 0] virt root.

(** The sweep starts one past [cleared]. *)
Definition table_is_empty (w : gmap (Z * Z) Z) (phys cleared : Z) : bool :=
  forallb (fun step => negb (present (read w phys ((cleared + step) `mod` ENTRIES)))) (seqZ 1 ENTRIES).

(** ** Writing *)

Definition store {E} (table index bits : Z) : M Walk E unit := modify (fun s => set_words (<[(table, index) := bits]> (words s)) s).

Fixpoint creating (levels : list Z) (virt under table : Z) : M Walk Refused Z :=
  match levels with
  | [] => ret table
  | level :: levels =>
      let index := index_of virt level in
      let! w := gets words in
      let bits := read w table index in
      if negb (present bits) then
        let! fresh := stock_take in
        let! fresh := ok_or fresh ShortOfTables in
        store table index (table_bits fresh under) ;;;
        creating levels virt under fresh
      else if ends_walk bits level then throw Blocked
      else
        match widen bits under with
        | Some wider => store table index wider
        | None => ret tt
        end ;;;
        creating levels virt under (addr bits)
  end.
Definition leaf_table_creating (root virt under : Z) : M Walk Refused Z := creating [3; 2; 1] virt under root.

Definition publish (root virt phys fl : Z) : M Walk Refused unit :=
  let! table := leaf_table_creating root virt fl in
  let index := index_of virt 0 in
  let! w := gets words in
  if present (read w table index) then throw Occupied
  else
    store table index (leaf_bits phys fl) ;;;
    note_page virt.

Definition replace {E} (root virt phys fl : Z) : M Walk E (option Z) :=
  let! w := gets words in
  match leaf_table w root virt with
  | None => ret None
  | Some table =>
      let index := index_of virt 0 in
      let old := read w table index in
      if negb (present old) then ret None
      else
        store table index (leaf_bits phys fl) ;;;
        note_page virt ;;;
        ret (Some (addr old))
  end.

Definition protect {E} (root virt fl : Z) : M Walk E (option Z) :=
  let! w := gets words in
  match leaf_table w root virt with
  | None => ret None
  | Some table =>
      let index := index_of virt 0 in
      let old := read w table index in
      if negb (present old) then ret None
      else
        let phys := addr old in
        store table index (leaf_bits phys fl) ;;;
        note_page virt ;;;
        ret (Some phys)
  end.

(** [for level in 1..4], the levels above walked again each turn. The stock is
    the one the tables go into. *)
Fixpoint reclaim_levels {E} (levels : list Z) (root virt : Z) : M Walk E unit :=
  match levels with
  | [] => ret tt
  | level :: levels =>
      let! w := gets words in
      match descend w (reverse (seqZ (level + 1) (4 - (level + 1)))) virt root with
      | None => ret tt
      | Some parent =>
          let index := index_of virt level in
          let bits := read w parent index in
          if negb (present bits) || ends_walk bits level then ret tt
          else
            let table := addr bits in
            if negb (table_is_empty w table (index_of virt (level - 1))) then ret tt
            else
              let! references := machine_references table in
              if negb (references =? 1) then ret tt
              else
                store parent index 0 ;;;
                modify (fun s => set_tlb (note_all (tlb s)) s) ;;;
                stock_push table ;;;
                reclaim_levels levels root virt
      end
  end.
Definition reclaim {E} (root virt : Z) : M Walk E unit := reclaim_levels [1; 2; 3] root virt.

Definition unmap {E} (root virt : Z) : M Walk E (option Z) :=
  let! w := gets words in
  match leaf_table w root virt with
  | None => ret None
  | Some table =>
      let index := index_of virt 0 in
      let old := read w table index in
      if negb (present old) then ret None
      else
        store table index 0 ;;;
        note_page virt ;;;
        reclaim root virt ;;;
        ret (Some (addr old))
  end.

(** [next_populated]: one turn of the loop at [virt]. *)
Definition populated_turn (w : gmap (Z * Z) Z) (root limit virt : Z) : Z + option Z :=
  if virt <? limit then
    match missing_tables w root virt with
    | 0 => inr (Some virt)
    | level =>
        let size := level_size level in
        match checked_add64 (Z.land virt (not64 (size - 1))) size with
        | Some next => inl next
        | None => inr None
        end
    end
  else inr None.
(** A turn passes a block of two megabytes at least, so [2 ^ 28] are more than
    enough. *)
Definition next_populated {E} (root from limit : Z) : M Walk E (option Z) :=
  let! w := gets words in
  let limit := Z.min limit SPAN in
  long_loop 28 (fun virt => ret (populated_turn w root limit virt)) (Z.land from (not64 (level_size 1 - 1))).

Definition share_from (self parent virt : Z) : M Walk Refused unit :=
  let! w := gets words in
  match leaf_table w parent virt with
  | None => ret tt
  | Some table =>
      let index := index_of virt 0 in
      let bits := read w table index in
      if negb (present bits) then ret tt
      else
        let phys := addr bits in
        machine_share phys ;;;
        let! fl :=
          match shared (flags bits) with
          | Some s => store table index (leaf_bits phys s) ;;; note_page virt ;;; ret s
          | None => ret (flags bits)
          end in
        let! done := try_ (publish self virt phys fl) in
        match done with
        | inl _ => ret tt
        | inr err => machine_free phys ;;; throw err
        end
  end.

Definition share_range (self parent start count : Z) : M Walk Refused unit :=
  mapM_ (fun index =>
           let! virt := u64 (start + index * level_size 0) in
           share_from self parent virt) (seqZ 0 count).

(** [free_table] at [level = n + 1]. *)
Fixpoint free_table {E} (n : nat) (phys : Z) : M Walk E unit :=
  mapM_ (fun index =>
    let! w := gets words in
    let bits := read w phys index in
    if negb (present bits) then ret tt
    else
      match n with
      | O => machine_free (addr bits)
      | S n => if ends_walk bits (Z.of_nat n + 2) then machine_free (addr bits) else free_table n (addr bits)
      end ;;;
      store phys index 0) (seqZ 0 ENTRIES) ;;;
  machine_free phys.

(** The top descriptors below [tops], detached one after the other. *)
Fixpoint detach {E} (root : Z) (indexes : list Z) : M Walk E (list Z) :=
  match indexes with
  | [] => ret []
  | index :: indexes =>
      let! w := gets words in
      let bits := read w root index in
      (if present bits then store root index 0 else ret tt) ;;;
      let! rest := detach root indexes in
      ret (bits :: rest)
  end.

Definition free_below {E} (root limit : Z) : M Walk E unit :=
  let tops := Z.shiftr limit (PAGE_BITS + LEVEL_BITS * 3) in
  let! detached := detach root (seqZ 0 (Z.min tops ENTRIES)) in
  flush_all ;;;
  mapM_ (fun bits => if present bits && negb (ends_walk bits 3) then free_table 2 (addr bits) else ret tt) detached.

Definition adopt_top {E} (root src from to : Z) : M Walk E unit :=
  mapM_ (fun index =>
           let! w := gets words in
           let bits := read w src index in
           if negb (bits =? 0) then store root index bits else ret tt) (seqZ from (to - from)).
End walk.
