(* ===== verification/WalkSpec.v ===== *)
(** * What the tables stand for

    A hierarchy of tables stands for two maps: [tabs], the frame of the table for
    each level and prefix of an address, and [maps], the descriptor of each page.
    [hier] says that the words in memory are those of the two maps, and that no
    frame is used for two tables. The lemmas say what one store does to the maps,
    and what the calls that build on it do. *)

From stdpp Require Import gmap.
From S2P Require Import Prelude Words Handoff Frame FrameSpec FrameAlloc FrameOwners Walk.

#[export] Hint Resolve not_elem_of_nil : core.

(** ** Addresses *)

(** What is above the bits of [level]: the table of [virt] at [level] is the one
    for this prefix, and at level [-1] it is the number of the page. *)
Definition pre (level virt : Z) : Z := virt / 2 ^ (12 + 9 * (level + 1)).
Definition page_of_virt (virt : Z) : Z := virt / 4096.

Lemma index_of_spec v l : 0 <= l -> index_of v l = (v / 2 ^ (12 + 9 * l)) `mod` 512.
Proof.
  intros Hl. unfold index_of, PAGE_BITS, LEVEL_BITS. change 0x1FF with (Z.ones 9).
  rewrite Z.land_ones, Z.shiftr_div_pow2 by lia. done.
Qed.

Lemma index_of_range v l : 0 <= l -> 0 <= index_of v l < 512.
Proof. intros Hl. rewrite index_of_spec by done. apply Z.mod_pos_bound. lia. Qed.

Lemma pre_up v l : 0 <= l -> pre l v = pre (l - 1) v / 512.
Proof.
  intros Hl. unfold pre. change 512 with (2 ^ 9). rewrite Z.div_div, <- Z.pow_add_r by (try apply Z.pow_nonzero; try apply Z.pow_pos_nonneg; lia).
  f_equal. f_equal. lia.
Qed.

Lemma pre_down v l : 0 <= l -> pre (l - 1) v = pre l v * 512 + index_of v l.
Proof.
  intros Hl. rewrite index_of_spec, (pre_up v l) by done. unfold pre. replace (12 + 9 * (l - 1 + 1)) with (12 + 9 * l) by lia.
  set (x := v / _). pose proof (Z.div_mod x 512). lia.
Qed.

Lemma pre_top v : 0 <= v < 2 ^ 48 -> pre 3 v = 0.
Proof. intros Hv. unfold pre. apply Z.div_small. change (12 + 9 * (3 + 1)) with 48. lia. Qed.

Lemma pre_nonneg v l : 0 <= v -> 0 <= pre l v.
Proof. intros Hv. unfold pre. destruct (decide (0 <= 12 + 9 * (l + 1))); [apply Z.div_pos; [lia|apply Z.pow_pos_nonneg; lia]|]. rewrite Z.pow_neg_r, Z.div_0_r by lia. done. Qed.

Lemma page_pre v : page_of_virt v = pre (-1) v.
Proof. done. Qed.

Lemma page_parts v : page_of_virt v = pre 0 v * 512 + index_of v 0.
Proof. rewrite page_pre. apply (pre_down v 0). lia. Qed.

Lemma child_parent p i : 0 <= i < 512 -> (p * 512 + i) / 512 = p.
Proof. intros Hi. rewrite Z.div_add_l, Z.div_small by lia. lia. Qed.

Lemma child_inj p i q j : 0 <= i < 512 -> 0 <= j < 512 -> p * 512 + i = q * 512 + j -> p = q /\ i = j.
Proof. lia. Qed.

(** ** Words *)

Lemma read_store w t i b t' i' :
  read (<[(t, i) := b]> w) t' i' = if decide (t' = t /\ i' = i) then b else read w t' i'.
Proof.
  unfold read. case_decide as E.
  - destruct E as [-> ->]. by rewrite lookup_insert_eq.
  - rewrite lookup_insert_ne by (intros [= -> ->]; tauto). done.
Qed.

Lemma read_zero p w t i : read (zero_frame p w) t i = if decide (t = p) then 0 else read w t i.
Proof.
  unfold read, zero_frame. destruct (w !! (t, i)) as [x|] eqn:E.
  - case_decide as Et.
    + rewrite (proj2 (map_lookup_filter_None _ w (t, i))); [done|]. right. intros y Hy. cbn. tauto.
    + rewrite (proj2 (map_lookup_filter_Some _ w (t, i) x)); [done|]. split; [done|]. done.
  - rewrite (proj2 (map_lookup_filter_None _ w (t, i))) by (by left). by case_decide.
Qed.

Section spec.
Context {P : Paging} {writes : Z -> bool} {PL : PagingLaws P writes}.

(** What a descriptor at [level > 0] names, and what one at level 0 does. *)
Definition table_of (level bits : Z) : option Z :=
  if negb (present bits) || ends_walk bits level then None else Some (addr bits).
Definition leaf_of (bits : Z) : option Z := if present bits then Some bits else None.

(** Which descriptors of the top table are the hierarchy's own. *)
Context (own : Z -> bool).

(** The words of the tables are those of the maps, but for the descriptors
    above [holes]. *)
Record tables_ok (w : gmap (Z * Z) Z) (tabs : gmap (Z * Z) Z) (maps : gmap Z Z) (holes : list (Z * Z)) : Prop := {
  tk_key l p t : tabs !! (l, p) = Some t -> 0 <= l <= 3 /\ 0 <= p /\ (l = 3 -> p = 0);
  tk_down l p t i : tabs !! (l, p) = Some t -> 0 < l -> 0 <= i < 512 -> (l = 3 -> own i = true) ->
    (l - 1, p * 512 + i) ∉ holes -> tabs !! (l - 1, p * 512 + i) = table_of l (read w t i);
  tk_leaf p t i : tabs !! (0, p) = Some t -> 0 <= i < 512 -> maps !! (p * 512 + i) = leaf_of (read w t i);
  tk_block l p t i : tabs !! (l, p) = Some t -> 0 < l -> 0 <= i < 512 -> (l = 3 -> own i = true) ->
    present (read w t i) = true -> ends_walk (read w t i) l = false;
  tk_maps q b : maps !! q = Some b -> 0 <= q /\ is_Some (tabs !! (0, q / 512));
  tk_inj k k' t : tabs !! k = Some t -> tabs !! k' = Some t -> k = k';
}.

(** Every table has the one above it, up to the top. *)
Definition closed (tabs : gmap (Z * Z) Z) : Prop :=
  forall l p t, tabs !! (l, p) = Some t -> l < 3 ->
    is_Some (tabs !! (l + 1, p / 512)) /\ (l = 2 -> own (p `mod` 512) = true).

Record hier (w : gmap (Z * Z) Z) (root : Z) (tabs : gmap (Z * Z) Z) (maps : gmap Z Z) : Prop := {
  h_root : tabs !! (3, 0) = Some root;
  h_tables : tables_ok w tabs maps [];
  h_closed : closed tabs;
}.

(** An address the hierarchy has descriptors for. *)
Definition owned (virt : Z) : Prop := 0 <= virt < 2 ^ 48 /\ own (index_of virt 3) = true.

Lemma own_index v l : owned v -> l = 3 -> own (index_of v l) = true.
Proof. by intros [_ H] ->. Qed.

(** ** Walking down *)

Lemma step_tabs w root tabs maps l v t :
  hier w root tabs maps -> owned v -> 0 < l -> tabs !! (l, pre l v) = Some t ->
  step w t v l = tabs !! (l - 1, pre (l - 1) v).
Proof.
  intros Hh Hv Hl Ht. rewrite pre_down by lia.
  rewrite (tk_down _ _ _ _ (h_tables _ _ _ _ Hh) l _ t) by (done || lia || (apply index_of_range; lia) || (by apply own_index)). done.
Qed.

Lemma below_none tabs l v : closed tabs -> 0 < l <= 3 -> tabs !! (l, pre l v) = None -> tabs !! (l - 1, pre (l - 1) v) = None.
Proof.
  intros Hc Hl Hn. destruct (tabs !! (l - 1, pre (l - 1) v)) as [t|] eqn:E; [|done].
  destruct (Hc _ _ _ E) as [[x Hx] _]; [lia|]. rewrite <- pre_up in Hx by lia. replace (l - 1 + 1) with l in Hx by lia. congruence.
Qed.

(** The levels from [n] down to 1. *)
Fixpoint down (n : nat) : list Z := match n with O => [] | S m => Z.of_nat n :: down m end.

Lemma none_below tabs n v : closed tabs -> (n <= 3)%nat -> tabs !! (Z.of_nat n, pre (Z.of_nat n) v) = None -> tabs !! (0, pre 0 v) = None.
Proof.
  intros Hc. induction n as [|n IH]; intros Hn E; [done|]. apply IH; [lia|].
  pose proof (below_none tabs (Z.of_nat (S n)) v Hc) as H. replace (Z.of_nat (S n) - 1) with (Z.of_nat n) in H by lia. apply H; [lia|done].
Qed.

Lemma descend_tabs w root tabs maps n v t :
  hier w root tabs maps -> owned v -> (n <= 3)%nat -> tabs !! (Z.of_nat n, pre (Z.of_nat n) v) = Some t ->
  descend w (down n) v t = tabs !! (0, pre 0 v).
Proof.
  intros Hh Hv. revert t. induction n as [|n IH]; intros t Hn Ht; [done|]. cbn [down descend].
  erewrite step_tabs by (done || lia). replace (Z.of_nat (S n) - 1) with (Z.of_nat n) by lia.
  destruct (tabs !! (Z.of_nat n, _)) as [t'|] eqn:E; [apply IH; [lia|done]|].
  symmetry. apply (none_below tabs n v); [apply Hh|lia|done].
Qed.

Lemma root_pre w root tabs maps v : hier w root tabs maps -> owned v -> tabs !! (3, pre 3 v) = Some root.
Proof. intros Hh [Hv _]. rewrite pre_top by done. apply Hh. Qed.

Lemma leaf_table_tabs w root tabs maps v :
  hier w root tabs maps -> owned v -> leaf_table w root v = tabs !! (0, pre 0 v).
Proof. intros Hh Hv. apply (descend_tabs w root tabs maps 3); [done..|]. by apply (root_pre w root tabs maps). Qed.

(** The descriptor of a page is the one of the map. *)
Lemma leaf_maps w root tabs maps v : hier w root tabs maps -> owned v -> leaf w root v = maps !! page_of_virt v.
Proof.
  intros Hh Hv. unfold leaf. rewrite (leaf_table_tabs _ _ _ _ _ Hh Hv), page_parts.
  destruct (tabs !! (0, pre 0 v)) as [t|] eqn:E.
  - rewrite (tk_leaf _ _ _ _ (h_tables _ _ _ _ Hh) _ t) by (done || (apply index_of_range; lia)). done.
  - destruct (maps !! _) as [b|] eqn:Em; [|done]. apply (tk_maps _ _ _ _ (h_tables _ _ _ _ Hh)) in Em as [_ [t Ht]].
    rewrite child_parent in Ht by (apply index_of_range; lia). congruence.
Qed.

(** The address a page is at, with the offset in it. *)
Lemma translate_maps w root tabs maps v :
  hier w root tabs maps -> owned v -> translate w root v = (fun b => Z.lor (addr b) (Z.land v 4095)) <$> maps !! page_of_virt v.
Proof.
  intros Hh Hv. rewrite <- (leaf_maps w root tabs maps v Hh Hv). unfold translate, leaf, leaf_table.
  assert (Hgen : forall n t, (n <= 3)%nat -> tabs !! (Z.of_nat n, pre (Z.of_nat n) v) = Some t ->
    translate_from w (down n) v t = (fun b => Z.lor (addr b) (Z.land v 4095)) <$>
      match descend w (down n) v t with None => None | Some table => let bits := read w table (index_of v 0) in if present bits then Some bits else None end).
  { induction n as [|n IH]; intros t Hn Ht; cbn [down translate_from descend].
    { cbv zeta. change (level_size 0 - 1) with 4095. by destruct (present _). }
    set (l := Z.of_nat (S n)) in *. pose proof (step_tabs w root tabs maps l v t Hh Hv ltac:(lia) Ht) as Hs. unfold step in *.
    pose proof (tk_block _ _ _ _ (h_tables _ _ _ _ Hh) l (pre l v) t (index_of v l) Ht ltac:(lia) (index_of_range v l ltac:(lia)) (own_index v l Hv)) as Hb.
    destruct (present _) eqn:Ep; cbn [negb orb] in *; [|done]. rewrite Hb in * by done. cbn [orb] in *. apply IH; [lia|].
    replace (l - 1) with (Z.of_nat n) in Hs by lia. done. }
  apply (Hgen 3%nat); [lia|]. by apply (root_pre w root tabs maps).
Qed.

Lemma missing_none w root tabs maps n v t :
  hier w root tabs maps -> owned v -> (n <= 3)%nat -> tabs !! (Z.of_nat n, pre (Z.of_nat n) v) = Some t ->
  let m := missing_from w (down n) v t in
  0 <= m <= Z.of_nat n /\ is_Some (tabs !! (m, pre m v)) /\ forall l, 0 <= l < m -> tabs !! (l, pre l v) = None.
Proof.
  intros Hh Hv. revert t. induction n as [|n IH]; intros t Hn Ht; cbn [down missing_from]; [by split_and!; [lia|lia|eauto|lia]|].
  erewrite step_tabs by (done || lia). replace (Z.of_nat (S n) - 1) with (Z.of_nat n) by lia.
  destruct (tabs !! (Z.of_nat n, _)) as [t'|] eqn:E; cbv zeta.
  - destruct (IH t') as (H1 & H2 & H3); [lia|done|]. split_and!; [lia|lia|done|done].
  - split_and!; [lia|lia|eauto|]. intros l Hl. clear -Hh E Hl Hn. revert E Hn. assert (Hc := h_closed _ _ _ _ Hh).
    remember (n - Z.to_nat l)%nat as k eqn:Ek. revert n Ek Hl. induction k as [|k IH]; intros n Ek Hl E Hn.
    { replace l with (Z.of_nat n) by lia. done. }
    apply (IH (n - 1)%nat); [lia|lia| |lia]. pose proof (below_none tabs (Z.of_nat n) v Hc) as H.
    replace (Z.of_nat n - 1) with (Z.of_nat (n - 1)) in H by lia. apply H; [lia|done].
Qed.

(** ** One store *)

(** Words outside the tables may change. *)
Lemma tables_frame w w' tabs maps holes :
  (forall k t i, tabs !! k = Some t -> read w' t i = read w t i) -> tables_ok w tabs maps holes -> tables_ok w' tabs maps holes.
Proof.
  intros Hw [H1 H2 H3 H4 H5 H6]. split; try done.
  - intros l p t i Ht. rewrite (Hw _ _ _ Ht). by apply H2.
  - intros p t i Ht. rewrite (Hw _ _ _ Ht). by apply H3.
  - intros l p t i Ht. rewrite (Hw _ _ _ Ht). by eapply H4.
Qed.

Lemma hier_frame w w' root tabs maps :
  (forall k t i, tabs !! k = Some t -> read w' t i = read w t i) -> hier w root tabs maps -> hier w' root tabs maps.
Proof. intros Hw [H1 H2 H3]. split; [done|by eapply tables_frame|done]. Qed.

(** A descriptor that stands for the same as before: a wider one. *)
Lemma tables_same w tabs maps holes l p t i b :
  tables_ok w tabs maps holes -> tabs !! (l, p) = Some t -> 0 < l ->
  table_of l b = table_of l (read w t i) -> (present b = true -> ends_walk b l = false) ->
  tables_ok (<[(t, i) := b]> w) tabs maps holes.
Proof.
  intros [H1 H2 H3 H4 H5 H6] Ht Hl Hb Hends. split; try done.
  - intros l' p' t' j Ht' Hl' Hj Hown Hh. rewrite read_store. case_decide as E; [|by apply H2].
    destruct E as [-> ->]. pose proof (H6 _ _ _ Ht Ht'); simplify_eq. rewrite Hb. by apply H2.
  - intros p' t' j Ht' Hj. rewrite read_store. case_decide as E; [|by apply H3].
    destruct E as [-> ->]. pose proof (H6 _ _ _ Ht Ht'); simplify_eq; lia.
  - intros l' p' t' j Ht' Hl' Hj Hown. rewrite read_store. case_decide as E; [|by eapply H4].
    destruct E as [-> ->]. by pose proof (H6 _ _ _ Ht Ht'); simplify_eq.
Qed.

(** What the map of pages becomes when the descriptor of page [q] is [b]. *)
Definition set_page (q b : Z) (maps : gmap Z Z) : gmap Z Z :=
  match leaf_of b with Some b => <[q := b]> maps | None => delete q maps end.

Lemma set_page_lookup q b maps q' : set_page q b maps !! q' = if decide (q' = q) then leaf_of b else maps !! q'.
Proof.
  unfold set_page. case_decide as E; [subst|]; destruct (leaf_of b);
    [by rewrite lookup_insert_eq|by rewrite lookup_delete_eq|by rewrite lookup_insert_ne|by rewrite lookup_delete_ne].
Qed.

Lemma tables_leaf w tabs maps holes p t i b :
  tables_ok w tabs maps holes -> tabs !! (0, p) = Some t -> 0 <= i < 512 ->
  tables_ok (<[(t, i) := b]> w) tabs (set_page (p * 512 + i) b maps) holes.
Proof.
  intros [H1 H2 H3 H4 H5 H6] Ht Hi. pose proof (H1 _ _ _ Ht) as (_ & Hp & _). split; try done.
  - intros l' p' t' j Ht' Hl' Hj Hown Hh. rewrite read_store, decide_False; [by apply H2|].
    intros [-> ->]. pose proof (H6 _ _ _ Ht Ht'); simplify_eq; lia.
  - intros p' t' j Ht' Hj. rewrite read_store, set_page_lookup. destruct (decide (t' = t)) as [->|Hne].
    + pose proof (H6 _ _ _ Ht Ht'); simplify_eq. destruct (decide (j = i)) as [->|Hji].
      * by rewrite !decide_True.
      * rewrite !decide_False by (lia || tauto). by apply H3.
    + rewrite !decide_False; [by apply H3|tauto|]. intros E. apply child_inj in E as [-> ->]; [congruence|done..].
  - intros l' p' t' j Ht' Hl' Hj Hown. rewrite read_store, decide_False; [by eapply H4|].
    intros [-> ->]. pose proof (H6 _ _ _ Ht Ht'); simplify_eq; lia.
  - intros q b'. rewrite set_page_lookup. case_decide as E; [|by apply H5]. intros _. subst q. split; [lia|].
    rewrite child_parent by done. eauto.
Qed.

Lemma table_of_new f u l : frame_addr f -> table_of l (table_bits f u) = Some f.
Proof. intros Hf. unfold table_of. by rewrite present_table, goes_on_table, addr_table. Qed.

(** A fresh table of zeroes where there was none. *)
Lemma hier_new w root tabs maps l p t i f u :
  hier w root tabs maps -> tabs !! (l, p) = Some t -> 0 < l -> 0 <= i < 512 -> (l = 3 -> own i = true) ->
  tabs !! (l - 1, p * 512 + i) = None -> frame_addr f -> (forall k, tabs !! k <> Some f) -> (forall j, read w f j = 0) ->
  hier (<[(t, i) := table_bits f u]> w) root (<[(l - 1, p * 512 + i) := f]> tabs) maps.
Proof.
  intros [Hr [H1 H2 H3 H4 H5 H6] Hc] Ht Hl Hi Hown Hnone Hf Hfresh Hzero.
  pose proof (H1 _ _ _ Ht) as (Hl3 & Hp & Hp0). assert (Hft : f <> t) by (intros ->; by apply (Hfresh (l, p))).
  (* The new table has nothing below it. *)
  assert (Hkids : forall c, (c / 512 = p * 512 + i) -> tabs !! (l - 1 - 1, c) = None).
  { intros c Hcc. destruct (tabs !! (l - 1 - 1, c)) as [x|] eqn:E; [|done].
    destruct (Hc _ _ _ E) as [[y Hy] _]; [lia|]. rewrite Hcc in Hy. replace (l - 1 - 1 + 1) with (l - 1) in Hy by lia. congruence. }
  split.
  - rewrite lookup_insert_ne; [done|]. intros [=]. lia.
  - split.
    + intros l' p' t'. rewrite lookup_insert_Some. intros [[[= <- <-] <-]|[_ Ht']]; [lia|by apply (H1 _ _ t')].
    + intros l' p' t' j. rewrite lookup_insert_Some. intros [[[= <- <-] <-]|[Hne Ht']] Hl' Hj Hown' _.
      * rewrite read_store, decide_False by naive_solver. rewrite Hzero. unfold table_of. rewrite absent_zero. cbn.
        rewrite lookup_insert_ne by (intros [=]; lia). apply Hkids. by apply child_parent.
      * rewrite read_store. case_decide as E.
        -- destruct E as [-> ->]. pose proof (H6 _ _ _ Ht Ht'); simplify_eq. by rewrite lookup_insert_eq, table_of_new.
        -- rewrite lookup_insert_ne; [by apply H2|]. intros [= E1 E2]. apply child_inj in E2 as [-> ->]; [|done..].
           assert (l' = l) as -> by lia. simplify_eq. tauto.
    + intros p' t' j. rewrite lookup_insert_Some. intros [[[= E <-] <-]|[Hne Ht']] Hj.
      * rewrite read_store, decide_False by naive_solver. rewrite Hzero. unfold leaf_of. rewrite absent_zero.
        destruct (maps !! _) as [b|] eqn:Em; [|done]. apply H5 in Em as [_ [x Hx]]. rewrite child_parent in Hx by done. rewrite <- E in Hx. congruence.
      * rewrite read_store, decide_False; [by apply H3|]. intros [-> ->]. pose proof (H6 _ _ _ Ht Ht'); simplify_eq; lia.
    + intros l' p' t' j. rewrite lookup_insert_Some. intros [[[= <- <-] <-]|[Hne Ht']] Hl' Hj Hown'.
      * rewrite read_store, decide_False by naive_solver. rewrite Hzero, absent_zero. done.
      * rewrite read_store. case_decide as E; [intros _; apply goes_on_table|by eapply H4].
    + intros q b Hq. destruct (H5 _ _ Hq) as [? [x Hx]]. split; [done|]. rewrite lookup_insert_is_Some. destruct (decide ((l - 1, p * 512 + i) = (0, q / 512))); eauto.
    + intros k k' t'. rewrite !lookup_insert_Some. intros [[<- <-]|[_ E]] [[<- E']|[_ E']]; [done| | |by eapply H6]; exfalso.
      * by apply (Hfresh k').
      * subst t'. by apply (Hfresh k).
  - intros l' p' t'. rewrite lookup_insert_Some. intros [[[= <- <-] <-]|[_ Ht']] Hl'.
    + split; [|intros E; rewrite Z.add_comm, Z.mod_add, Z.mod_small by lia; apply Hown; lia].
      rewrite child_parent by done. replace (l - 1 + 1) with l by lia. rewrite lookup_insert_ne by (intros [=]; lia). eauto.
    + destruct (Hc _ _ _ Ht' Hl') as [[x Hx] Ho]. split; [|done]. rewrite lookup_insert_is_Some. destruct (decide ((l - 1, p * 512 + i) = (l' + 1, p' / 512))); eauto.
Qed.

(** A descriptor cleared above a table with nothing in it. *)
Lemma hier_drop w root tabs maps l p t i f :
  hier w root tabs maps -> tabs !! (l, p) = Some t -> 0 < l -> 0 <= i < 512 ->
  tabs !! (l - 1, p * 512 + i) = Some f -> (forall j, 0 <= j < 512 -> present (read w f j) = false) ->
  hier (<[(t, i) := 0]> w) root (delete (l - 1, p * 512 + i) tabs) maps.
Proof.
  intros [Hr [H1 H2 H3 H4 H5 H6] Hc] Ht Hl Hi Hf Hempty. pose proof (H1 _ _ _ Ht) as (Hl3 & Hp & Hp0).
  (* Nothing hangs below the table. *)
  assert (Hkids : 0 < l - 1 -> forall c, (c / 512 = p * 512 + i) -> tabs !! (l - 1 - 1, c) = None).
  { intros Hlow c Hcc. pose proof (Z.div_mod c 512 ltac:(lia)) as Hd. rewrite Hcc in Hd. replace c with ((p * 512 + i) * 512 + c `mod` 512) by lia.
    rewrite (H2 _ _ f) by (done || lia || (apply Z.mod_pos_bound; lia)). unfold table_of. rewrite Hempty by (apply Z.mod_pos_bound; lia). done. }
  split.
  - rewrite lookup_delete_ne; [done|]. intros [=]. lia.
  - split.
    + intros l' p' t'. rewrite lookup_delete_Some. intros [_ Ht']. by apply (H1 _ _ t').
    + intros l' p' t' j. rewrite lookup_delete_Some. intros [Hne Ht'] Hl' Hj Hown' _. rewrite read_store. case_decide as E.
      * destruct E as [-> ->]. pose proof (H6 _ _ _ Ht Ht'); simplify_eq. rewrite lookup_delete_eq. unfold table_of. by rewrite absent_zero.
      * rewrite lookup_delete_ne; [by apply H2|]. intros [= E1 E2]. apply child_inj in E2 as [-> ->]; [|done..].
        assert (l' = l) as -> by lia. simplify_eq. tauto.
    + intros p' t' j. rewrite lookup_delete_Some. intros [Hne Ht'] Hj. rewrite read_store, decide_False; [by apply H3|].
      intros [-> ->]. pose proof (H6 _ _ _ Ht Ht'); simplify_eq; lia.
    + intros l' p' t' j. rewrite lookup_delete_Some. intros [Hne Ht'] Hl' Hj Hown'. rewrite read_store. case_decide; [by rewrite absent_zero|by eapply H4].
    + intros q b Hq. destruct (H5 _ _ Hq) as [Hq0 [x Hx]]. split; [done|]. rewrite lookup_delete_ne; [eauto|]. intros [= E1 E2].
      pose proof (Z.div_mod q 512 ltac:(lia)) as Hd. rewrite <- E2 in Hd, Hx. rewrite <- E1 in Hx. rewrite Hf in Hx. injection Hx as ->.
      rewrite E1 in Hf. pose proof (H3 _ _ (q `mod` 512) Hf (Z.mod_pos_bound q 512 ltac:(lia))) as Hm.
      replace ((p * 512 + i) * 512 + q `mod` 512) with q in Hm by lia. rewrite Hq in Hm. unfold leaf_of in Hm.
      by rewrite Hempty in Hm by (apply Z.mod_pos_bound; lia).
    + intros k k' t'. rewrite !lookup_delete_Some. intros [_ E] [_ E']. by eapply H6.
  - intros l' p' t'. rewrite lookup_delete_Some. intros [Hne Ht'] Hl'. destruct (Hc _ _ _ Ht' Hl') as [[x Hx] Ho]. split; [|done].
    rewrite lookup_delete_ne; [eauto|]. intros [= E1 E2]. destruct (decide (0 < l - 1)) as [Hlow|].
    + rewrite <- E1 in *. specialize (Hkids Hlow p' (eq_sym E2)). assert (l' = l - 1 - 1) as -> by lia. congruence.
    + pose proof (H1 _ _ _ Ht'). lia.
Qed.

(** ** Creating what is missing *)

(** How many of the tables below level [n] there are not. *)
Fixpoint lacking (tabs : gmap (Z * Z) Z) (n : nat) (v : Z) : nat :=
  match n with
  | O => O
  | S m => (if tabs !! (Z.of_nat m, pre (Z.of_nat m) v) is Some _ then O else 1%nat) + lacking tabs m v
  end.

Lemma lacking_all tabs n v : closed tabs -> (n <= 3)%nat -> tabs !! (Z.of_nat n, pre (Z.of_nat n) v) = None -> lacking tabs n v = n.
Proof.
  intros Hc. induction n as [|n IH]; intros Hn E; [done|]. cbn [lacking].
  pose proof (below_none tabs (Z.of_nat (S n)) v Hc) as H. replace (Z.of_nat (S n) - 1) with (Z.of_nat n) in H by lia.
  rewrite H by (lia || done). rewrite IH; [done|lia|]. apply H; [lia|done].
Qed.

Lemma lacking_none tabs n v : closed tabs -> (n <= 3)%nat -> is_Some (tabs !! (0, pre 0 v)) -> lacking tabs n v = O.
Proof.
  intros Hc Hn [x Hx]. induction n as [|n IH]; [done|]. cbn [lacking]. rewrite IH by lia.
  destruct (tabs !! (Z.of_nat n, pre (Z.of_nat n) v)) eqn:E; [done|]. apply none_below in E; [congruence|done|lia].
Qed.

Lemma lacking_ext tabs tabs' n v :
  (forall l, 0 <= l < Z.of_nat n -> tabs' !! (l, pre l v) = tabs !! (l, pre l v)) -> lacking tabs' n v = lacking tabs n v.
Proof. induction n as [|n IH]; intros H; [done|]. cbn [lacking]. rewrite H, IH by (lia || (intros; apply H; lia)). done. Qed.

Lemma missing_lacking w root tabs maps n v t :
  hier w root tabs maps -> owned v -> (n <= 3)%nat -> tabs !! (Z.of_nat n, pre (Z.of_nat n) v) = Some t ->
  missing_from w (down n) v t = Z.of_nat (lacking tabs n v).
Proof.
  intros Hh Hv. revert t. induction n as [|n IH]; intros t Hn Ht; [done|]. cbn [down missing_from lacking].
  erewrite step_tabs by (done || lia). replace (Z.of_nat (S n) - 1) with (Z.of_nat n) by lia.
  destruct (tabs !! (Z.of_nat n, _)) as [t'|] eqn:E; [apply IH; [lia|done]|].
  rewrite lacking_all; [lia|apply Hh|lia|done].
Qed.

Lemma missing_tables_lacking w root tabs maps v :
  hier w root tabs maps -> owned v -> missing_tables w root v = Z.of_nat (lacking tabs 3 v).
Proof. intros Hh Hv. apply (missing_lacking w root tabs maps 3); [done..|by apply (root_pre w root tabs maps)]. Qed.

Definition tab_frames (tabs : gmap (Z * Z) Z) : list Z := (map_to_list tabs).*2.

Lemma tab_frames_in tabs t : t ∈ tab_frames tabs <-> exists k, tabs !! k = Some t.
Proof.
  unfold tab_frames. rewrite list_elem_of_fmap. split.
  - intros ([k x] & -> & H%elem_of_map_to_list). by exists k.
  - intros [k H]. exists (k, t). split; [done|]. by apply elem_of_map_to_list.
Qed.

Lemma tab_frames_insert tabs k t : tabs !! k = None -> tab_frames (<[k := t]> tabs) ≡ₚ t :: tab_frames tabs.
Proof. intros H. unfold tab_frames. by rewrite map_to_list_insert. Qed.

Lemma tab_frames_delete tabs k t : tabs !! k = Some t -> tab_frames tabs ≡ₚ t :: tab_frames (delete k tabs).
Proof. intros H. unfold tab_frames. by rewrite <- (map_to_list_delete tabs k t H). Qed.

(** The frames of the stock are zeroed and no table of the hierarchy. *)
Definition stock_ok (tabs : gmap (Z * Z) Z) (s : Walk) : Prop :=
  NoDup (stock s) /\ forall f, f ∈ stock s -> frame_addr f /\ (f ∉ tab_frames tabs) /\ forall i, read (words s) f i = 0.

(** From [s] to [s'] the tables [used] of the stock were put in. *)
Record grown (s s' : Walk) (tabs tabs' : gmap (Z * Z) Z) (used : list Z) : Prop := {
  g_stock : stock s = used ++ stock s';
  g_frames : tab_frames tabs' ≡ₚ used ++ tab_frames tabs;
  g_more : tabs ⊆ tabs';
  g_pool : pool s' = pool s;
  g_cached : cached s' = cached s;
  g_tlb : tlb s' = tlb s;
  g_else t i : t ∉ tab_frames tabs' -> read (words s') t i = read (words s) t i;
  g_ok : stock_ok tabs' s';
}.

Lemma grown_refl s tabs : stock_ok tabs s -> grown s s tabs tabs [].
Proof. by split. Qed.

Lemma grown_trans s1 s2 s3 t1 t2 t3 u v : grown s1 s2 t1 t2 u -> grown s2 s3 t2 t3 v -> grown s1 s3 t1 t3 (u ++ v).
Proof.
  intros [A1 A2 A3 A4 A5 A6 A7 A8] [B1 B2 B3 B4 B5 B6 B7 B8]. split; try congruence; try done.
  - by rewrite A1, B1, app_assoc.
  - rewrite B2, A2. rewrite !app_assoc. by rewrite (Permutation_app_comm u v).
  - by etransitivity.
  - intros t i Ht. rewrite B7 by done. apply A7. intros Hin. apply Ht. rewrite B2. apply elem_of_app. by right.
Qed.

(** A store into a table that is there. *)
Lemma grown_store s tabs k t i b : tabs !! k = Some t -> stock_ok tabs s -> grown s (set_words (<[(t, i) := b]> (words s)) s) tabs tabs [].
Proof.
  intros Ht [Hnd Hs]. split; try done.
  - intros t' i' Hni. cbn. rewrite read_store, decide_False; [done|]. intros [-> ->]. apply Hni, tab_frames_in. eauto.
  - split; [done|]. intros f Hf. destruct (Hs f Hf) as (H1 & H2 & H3). split_and!; [done..|]. intros j. cbn.
    rewrite read_store, decide_False; [apply H3|]. intros [-> ->]. apply H2, tab_frames_in. eauto.
Qed.

(** The first frame of the stock, put in. *)
Lemma grown_new s tabs k k' t i f rest b :
  tabs !! k = Some t -> k' <> k -> tabs !! k' = None -> stock s = f :: rest -> stock_ok tabs s ->
  grown s (set_words (<[(t, i) := b]> (words s)) (set_stock rest s)) tabs (<[k' := f]> tabs) [f].
Proof.
  intros Ht Hk Hk' Es [Hnd Hs]. rewrite Es in Hnd, Hs. apply NoDup_cons in Hnd as [Hni Hnd]. split; try done.
  - by apply tab_frames_insert.
  - by apply insert_subseteq.
  - intros t' i' Ht'. cbn. rewrite read_store, decide_False; [done|]. intros [-> ->]. apply Ht', tab_frames_in.
    exists k. by rewrite lookup_insert_ne.
  - split; [done|]. intros g Hg. destruct (Hs g ltac:(by right)) as (G1 & G2 & G3). split_and!; [done| |].
    + rewrite tab_frames_insert by done. rewrite elem_of_cons. intros [->|?]; done.
    + intros j. cbn. rewrite read_store, decide_False; [apply G3|]. intros [-> ->]. apply G2, tab_frames_in. eauto.
Qed.

Lemma fresh_frame tabs f : f ∉ tab_frames tabs -> forall k, tabs !! k <> Some f.
Proof. intros H k Hk. apply H, tab_frames_in. eauto. Qed.

Lemma wp_creating n v u : forall s root tabs maps t,
  hier (words s) root tabs maps -> owned v -> (n <= 3)%nat -> tabs !! (Z.of_nat n, pre (Z.of_nat n) v) = Some t -> stock_ok tabs s ->
  wp (creating (down n) v u t)
    (fun s' t' => exists tabs' used, hier (words s') root tabs' maps /\ tabs' !! (0, pre 0 v) = Some t' /\
       grown s s' tabs tabs' used /\ length used = lacking tabs n v /\ (used = [] -> tabs' = tabs))
    (fun s' e => e = ShortOfTables /\ exists tabs', hier (words s') root tabs' maps /\
       grown s s' tabs tabs' (stock s) /\ (length (stock s) < lacking tabs n v)%nat) s.
Proof.
  induction n as [|n IH]; intros s root tabs maps t Hh Hv Hn Ht Hs.
  { apply wp_ret. exists tabs, []. split_and!; [done..|by apply grown_refl|done|done]. }
  cbn [down creating lacking]. apply wp_bind, wp_gets. set (l := Z.of_nat (S n)) in *.
  pose proof (h_tables _ _ _ _ Hh) as Hk. assert (Hi : 0 <= index_of v l < 512) by (apply index_of_range; lia).
  assert (Hd : tabs !! (Z.of_nat n, pre (Z.of_nat n) v) = table_of l (read (words s) t (index_of v l))).
  { replace (Z.of_nat n) with (l - 1) by lia. rewrite pre_down by lia. by apply (tk_down _ _ _ _ Hk); [|lia| |apply own_index|]. }
  assert (Hchild : (Z.of_nat n, pre (Z.of_nat n) v) = (l - 1, pre l v * 512 + index_of v l)).
  { rewrite <- pre_down by lia. by replace (l - 1) with (Z.of_nat n) by lia. }
  set (bits := read _ _ _) in *. destruct (present bits) eqn:Epres; cbn [negb].
  - assert (Hends : ends_walk bits l = false) by (apply (tk_block _ _ _ _ Hk l (pre l v)); [done|lia|done|by apply own_index|done]).
    rewrite Hends. unfold table_of in Hd. rewrite Epres, Hends in Hd. cbn in Hd. rewrite Hd. cbn [Nat.add].
    destruct (widen bits u) as [b|] eqn:Ew; apply wp_bind.
    + destruct (widen_same _ _ _ Ew) as (E1 & E2 & E3). apply wp_modify.
      assert (Hh' : hier (<[(t, index_of v l) := b]> (words s)) root tabs maps).
      { split; [apply Hh| |apply Hh]. apply (tables_same _ _ _ _ l (pre l v)); [done|done|lia| |].
        - fold bits. unfold table_of. by rewrite E1, E2, E3.
        - intros _. by rewrite E3. }
      pose proof (grown_store s tabs _ t (index_of v l) b Ht Hs) as Hg.
      eapply wp_mono; [apply (IH _ root tabs maps); [exact Hh'|done|lia|done|apply Hg]| |].
      * intros s' t' (tabs' & used & H1 & H2 & H3 & H4). exists tabs', used. split_and!; [done..|by apply (grown_trans _ _ _ _ _ _ [] _ Hg)|apply H4|apply H4].
      * intros s' e (-> & tabs' & H1 & H2 & H3). split; [done|]. exists tabs'. split_and!; [done|by apply (grown_trans _ _ _ _ _ _ [] _ Hg)|done].
    + apply wp_ret. apply IH; [done..|lia|done|done].
  - unfold table_of in Hd. rewrite Epres in Hd. cbn in Hd. rewrite Hd.
    apply wp_bind. unfold stock_take. apply wp_bind, wp_gets. destruct (stock s) as [|f rest] eqn:Es.
    + apply wp_ret. apply wp_bind, wp_throw. split; [done|]. exists tabs. split_and!; [done|by apply grown_refl|cbn; lia].
    + apply wp_bind, wp_modify, wp_ret. apply wp_bind, wp_ret. apply wp_bind, wp_modify. cbn [words set_stock].
      destruct (proj2 Hs f ltac:(rewrite Es; by left)) as (Hf & Hfresh & Hzero). pose proof (fresh_frame _ _ Hfresh) as Hff.
      assert (Hh' : hier (<[(t, index_of v l) := table_bits f u]> (words s)) root (<[(Z.of_nat n, pre (Z.of_nat n) v) := f]> tabs) maps).
      { rewrite Hchild. apply hier_new; [done|done|lia|done|by apply own_index|by rewrite <- Hchild|done|done|done]. }
      set (s1 := set_words _ _). set (tabs1 := <[_ := f]> tabs) in *.
      assert (Hg : grown s s1 tabs tabs1 [f]) by (eapply grown_new; [exact Ht|intros [=]; lia|done|done|done]).
      assert (Hl : lacking tabs1 n v = lacking tabs n v).
      { apply lacking_ext. intros k Hk'. unfold tabs1. rewrite lookup_insert_ne; [done|]. intros [=]. lia. }
      eapply wp_mono; [apply (IH s1 root tabs1 maps); [exact Hh'|done|lia|by apply lookup_insert_eq|apply Hg]| |].
      * intros s' t' (tabs' & used & H1 & H2 & H3 & H4 & _). exists tabs', (f :: used). split_and!; [done..| |cbn; lia|done].
        by apply (grown_trans _ _ _ _ _ _ [f] _ Hg).
      * intros s' e (-> & tabs' & H1 & H2 & H3). split; [done|]. exists tabs'. split_and!; [done| |cbn in *; lia].
        by apply (grown_trans _ _ _ _ _ _ [f] _ Hg).
Qed.

(** ** The calls *)

Lemma leaf_of_leaf phys fl : has PRESENT fl = true -> leaf_of (leaf_bits phys fl) = Some (leaf_bits phys fl).
Proof. intros Hf. unfold leaf_of. by rewrite present_leaf. Qed.

Lemma wp_publish_leaf s root tabs maps v phys fl :
  hier (words s) root tabs maps -> owned v -> stock_ok tabs s -> has PRESENT fl = true ->
  wp (publish root v phys fl)
    (fun s' _ => maps !! page_of_virt v = None /\ exists tabs' used,
       hier (words s') root tabs' (<[page_of_virt v := leaf_bits phys fl]> maps) /\
       grown s (set_tlb (tlb s) s') tabs tabs' used /\ length used = lacking tabs 3 v /\ tlb s' = note v (tlb s) /\
       is_Some (tabs' !! (0, pre 0 v)))
    (fun s' e => exists tabs' used, hier (words s') root tabs' maps /\ grown s s' tabs tabs' used /\
       match e with
       | Occupied => is_Some (maps !! page_of_virt v) /\ tabs' = tabs /\ used = []
       | ShortOfTables => used = stock s /\ (length (stock s) < lacking tabs 3 v)%nat
       | Blocked => False
       end) s.
Proof.
  intros Hh Hv Hs Hfl. unfold publish, leaf_table_creating. apply wp_bind.
  eapply wp_mono; [apply (wp_creating 3 v fl s root tabs maps); [done..|by apply (root_pre (words s) root tabs maps)|done]| |].
  2: { intros s' e (-> & tabs' & H1 & H2 & H3). eauto 8. }
  intros s1 t (tabs' & used & Hh1 & Ht & Hg & Hlen & Hsame). apply wp_bind, wp_gets.
  assert (Hi : 0 <= index_of v 0 < 512) by (apply index_of_range; lia).
  pose proof (tk_leaf _ _ _ _ (h_tables _ _ _ _ Hh1) _ _ _ Ht Hi) as Hm. rewrite <- page_parts in Hm. unfold leaf_of in Hm.
  destruct (present (read (words s1) t (index_of v 0))) eqn:Ep.
  - apply wp_throw. exists tabs', used. split_and!; [done..|eauto| |].
    all: assert (used = []) as -> by (apply nil_length_inv; rewrite Hlen; apply lacking_none; [apply Hh|done|];
      destruct (tk_maps _ _ _ _ (h_tables _ _ _ _ Hh) _ _ Hm) as (_ & [x Hx]); rewrite page_parts, child_parent in Hx by done; eauto).
    all: auto.
  - apply wp_bind, wp_modify, wp_modify. split; [done|]. exists tabs', used.
    pose proof (grown_store s1 tabs' _ t (index_of v 0) (leaf_bits phys fl) Ht (g_ok _ _ _ _ _ Hg)) as Hst.
    split_and!; [|by rewrite <- (app_nil_r used); apply (grown_trans _ _ _ _ _ _ _ _ Hg) in Hst; destruct Hst; split|done| |eauto].
    + cbn. split; [apply Hh1| |apply Hh1]. rewrite page_parts.
      replace (<[_ := _]> maps) with (set_page (pre 0 v * 512 + index_of v 0) (leaf_bits phys fl) maps).
      { apply tables_leaf; [apply Hh1|done|done]. }
      unfold set_page. by rewrite leaf_of_leaf.
    + cbn. by rewrite (g_tlb _ _ _ _ _ Hg).
Qed.

(** One descriptor at the last level written, and noted. *)
Record edited (s s' : Walk) (tabs : gmap (Z * Z) Z) (v : Z) : Prop := {
  e_pool : pool s' = pool s;
  e_cached : cached s' = cached s;
  e_stock : stock s' = stock s;
  e_tlb : tlb s' = note v (tlb s);
  e_else t i : t ∉ tab_frames tabs -> read (words s') t i = read (words s) t i;
}.

Lemma edit_page s root tabs maps v t b :
  hier (words s) root tabs maps -> owned v -> tabs !! (0, pre 0 v) = Some t ->
  let s' := set_tlb (note v (tlb s)) (set_words (<[(t, index_of v 0) := b]> (words s)) s) in
  edited s s' tabs v /\ hier (words s') root tabs (set_page (page_of_virt v) b maps).
Proof.
  intros Hh Hv Ht s'. split.
  - split; try done. intros t' i Ht'. cbn. rewrite read_store, decide_False; [done|]. intros [-> ->]. apply Ht', tab_frames_in. eauto.
  - split; [apply Hh| |apply Hh]. rewrite page_parts. apply tables_leaf; [apply Hh|done|apply index_of_range; lia].
Qed.

(** What [replace], [protect] and [unmap] find at [v]. *)
Lemma leaf_found w root tabs maps v :
  hier w root tabs maps -> owned v ->
  match leaf_table w root v with
  | None => maps !! page_of_virt v = None
  | Some t => tabs !! (0, pre 0 v) = Some t /\ maps !! page_of_virt v = leaf_of (read w t (index_of v 0))
  end.
Proof.
  intros Hh Hv. pose proof (leaf_maps w root tabs maps v Hh Hv) as Hl. unfold leaf in Hl.
  pose proof (leaf_table_tabs w root tabs maps v Hh Hv) as Ht. destruct (leaf_table w root v); [|done]. done.
Qed.

Lemma wp_replace {E} s root tabs maps v phys fl (X : Walk -> E -> Prop) :
  hier (words s) root tabs maps -> owned v -> has PRESENT fl = true ->
  wp (replace root v phys fl) (fun s' r =>
    r = addr <$> maps !! page_of_virt v /\
    match maps !! page_of_virt v with
    | None => s' = s
    | Some _ => edited s s' tabs v /\ hier (words s') root tabs (<[page_of_virt v := leaf_bits phys fl]> maps)
    end) X s.
Proof.
  intros Hh Hv Hfl. unfold replace. apply wp_bind, wp_gets. pose proof (leaf_found _ _ _ _ v Hh Hv) as Hf.
  destruct (leaf_table (words s) root v) as [t|]; [|apply wp_ret; by rewrite Hf]. destruct Hf as [Ht Hm]. unfold leaf_of in Hm.
  destruct (present _) eqn:Ep; cbn [negb]; [|apply wp_ret; by rewrite Hm].
  apply wp_bind, wp_modify, wp_bind, wp_modify, wp_ret. rewrite Hm. split; [done|].
  pose proof (edit_page s root tabs maps v t (leaf_bits phys fl) Hh Hv Ht) as [H1 H2]. split; [done|].
  unfold set_page in H2. by rewrite leaf_of_leaf in H2.
Qed.

Lemma wp_protect {E} s root tabs maps v fl (X : Walk -> E -> Prop) :
  hier (words s) root tabs maps -> owned v -> has PRESENT fl = true ->
  wp (protect root v fl) (fun s' r =>
    r = addr <$> maps !! page_of_virt v /\
    match maps !! page_of_virt v with
    | None => s' = s
    | Some b => edited s s' tabs v /\ hier (words s') root tabs (<[page_of_virt v := leaf_bits (addr b) fl]> maps)
    end) X s.
Proof.
  intros Hh Hv Hfl. unfold protect. apply wp_bind, wp_gets. pose proof (leaf_found _ _ _ _ v Hh Hv) as Hf.
  destruct (leaf_table (words s) root v) as [t|]; [|apply wp_ret; by rewrite Hf]. destruct Hf as [Ht Hm]. unfold leaf_of in Hm.
  destruct (present _) eqn:Ep; cbn [negb]; [|apply wp_ret; by rewrite Hm].
  apply wp_bind, wp_modify, wp_bind, wp_modify, wp_ret. rewrite Hm. split; [done|].
  pose proof (edit_page s root tabs maps v t (leaf_bits (addr (read (words s) t (index_of v 0))) fl) Hh Hv Ht) as [H1 H2]. split; [done|].
  unfold set_page in H2. by rewrite leaf_of_leaf in H2.
Qed.
End spec.

(** * Taking tables away

    [unmap] with the tables it leaves empty, and the teardown of a whole
    hierarchy: what goes back is exactly what the maps no longer name. *)

Section free.
Context {P : Paging} {writes : Z -> bool} {PL : PagingLaws P writes} (own : Z -> bool).
Abbreviation hier := (hier own).
Abbreviation owned := (owned own).

Lemma table_is_empty_spec w t c : table_is_empty w t c = true <-> forall j, 0 <= j < 512 -> present (read w t j) = false.
Proof.
  unfold table_is_empty, ENTRIES. rewrite forallb_forall. split.
  - intros H j Hj. specialize (H ((j - c - 1) `mod` 512 + 1)). apply negb_true_iff.
    replace j with ((c + ((j - c - 1) `mod` 512 + 1)) `mod` 512) at 1.
    + apply H, list_elem_of_In, elem_of_seqZ. pose proof (Z.mod_pos_bound (j - c - 1) 512). lia.
    + rewrite Z.add_assoc, (Z.add_comm c), <- Z.add_assoc, Zplus_mod_idemp_l. replace (j - c - 1 + (c + 1)) with j by lia. by apply Z.mod_small.
  - intros H x _. rewrite H; [done|]. apply Z.mod_pos_bound. lia.
Qed.

(** Every table but the top one leads to a page. *)
Definition leads (maps : gmap Z Z) (l p : Z) : Prop := exists q b, maps !! q = Some b /\ q / 512 ^ (l + 1) = p.
Definition tidy (tabs : gmap (Z * Z) Z) (maps : gmap Z Z) : Prop :=
  forall l p t, tabs !! (l, p) = Some t -> l < 3 -> leads maps l p.

(** The same but for the tables on the way to [v]. *)
Definition tidy_beside (v : Z) (tabs : gmap (Z * Z) Z) (maps : gmap Z Z) : Prop :=
  forall l p t, tabs !! (l, p) = Some t -> l < 3 -> p = pre l v \/ leads maps l p.

Lemma leads_up maps l p : 0 <= l -> leads maps l p -> leads maps (l + 1) (p / 512).
Proof.
  intros Hl (q & b & Hq & <-). exists q, b. split; [done|]. rewrite Z.div_div by (try apply Z.pow_nonzero; lia).
  f_equal. replace (l + 1 + 1) with (Z.succ (l + 1)) by lia. rewrite Z.pow_succ_r by lia. lia.
Qed.

Lemma leads_path maps v l0 l : 0 <= l0 <= l -> leads maps l0 (pre l0 v) -> leads maps l (pre l v).
Proof.
  intros Hl H. remember (Z.to_nat (l - l0)) as m eqn:Em. revert l Hl Em. induction m as [|m IH]; intros l Hl Em; [by replace l with l0 by lia|].
  replace l with (l - 1 + 1) by lia. rewrite (pre_up v (l - 1 + 1)) by lia. replace (l - 1 + 1 - 1) with (l - 1) by lia.
  apply leads_up; [lia|]. apply IH; lia.
Qed.

(** A descriptor in use leads to a page, unless it is on the way to [v]. *)
Lemma used_leads w root tabs maps l p t j v :
  hier w root tabs maps -> tidy_beside v tabs maps -> tabs !! (l, p) = Some t -> l < 3 -> 0 <= j < 512 ->
  present (read w t j) = true -> (0 < l -> tabs !! (l - 1, pre (l - 1) v) = None) -> leads maps l p.
Proof.
  intros [Hr [H1 H2 H3 H4 H5 H6] Hc] Htidy Ht Hl Hj Hp Hpath. pose proof (H1 _ _ _ Ht) as (Hl0 & Hp0 & _).
  destruct (decide (l = 0)) as [->|Hne].
  - pose proof (H3 _ _ _ Ht Hj) as Hm. unfold leaf_of in Hm. rewrite Hp in Hm. exists (p * 512 + j), (read w t j). split; [done|].
    change (512 ^ (0 + 1)) with 512. by apply child_parent.
  - pose proof (H2 _ _ _ j Ht ltac:(lia) Hj ltac:(lia) ltac:(done)) as Hd. unfold table_of in Hd.
    rewrite Hp, (H4 _ _ _ j Ht ltac:(lia) Hj ltac:(lia) Hp) in Hd. cbn in Hd.
    destruct (Htidy _ _ _ Hd) as [E|Hlead]; [lia| |].
    + rewrite <- E, Hd in Hpath. specialize (Hpath ltac:(lia)). done.
    + apply leads_up in Hlead; [|lia]. rewrite child_parent in Hlead by done. by replace (l - 1 + 1) with l in Hlead by lia.
Qed.

Lemma descend_above w root tabs maps k v :
  hier w root tabs maps -> owned v -> 1 <= k <= 3 ->
  descend w (reverse (seqZ (k + 1) (4 - (k + 1)))) v root = tabs !! (k, pre k v).
Proof.
  intros Hh Hv Hk. pose proof (root_pre own w root tabs maps v Hh Hv) as Hr. assert (k = 1 \/ k = 2 \/ k = 3) as [->|[->| ->]] by lia.
  - change (reverse (seqZ (1 + 1) (4 - (1 + 1)))) with [3; 2]. cbn [descend].
    rewrite (step_tabs own w root tabs maps 3 v root Hh Hv ltac:(lia) Hr). change (3 - 1) with 2.
    destruct (tabs !! (2, pre 2 v)) as [t|] eqn:E.
    + rewrite (step_tabs own w root tabs maps 2 v t Hh Hv ltac:(lia) E). change (2 - 1) with 1. by destruct (tabs !! (1, pre 1 v)).
    + symmetry. apply (below_none own tabs 2 v); [apply Hh|lia|done].
  - change (reverse (seqZ (2 + 1) (4 - (2 + 1)))) with [3]. cbn [descend].
    rewrite (step_tabs own w root tabs maps 3 v root Hh Hv ltac:(lia) Hr). change (3 - 1) with 2. by destruct (tabs !! (2, pre 2 v)).
  - done.
Qed.

(** [reclaimed]: the tables taken from [tabs] to [tabs'] are in the stock. *)
Record shrunk (s s' : Walk) (tabs tabs' : gmap (Z * Z) Z) (gone : list Z) : Prop := {
  sh_stock : stock s' = gone ++ stock s;
  sh_frames : tab_frames tabs ≡ₚ gone ++ tab_frames tabs';
  sh_pool : pool s' = pool s;
  sh_cached : cached s' = cached s;
  sh_tlb : tlb s' = if decide (gone = []) then tlb s else All;
  sh_else t i : t ∉ tab_frames tabs -> read (words s') t i = read (words s) t i;
}.

Lemma shrunk_refl s tabs : shrunk s s tabs tabs [].
Proof. by split. Qed.

(** The lowest table on the way to [v] is in use: all of them lead to a page. *)
Lemma path_in_use w root tabs maps v l0 t0 j :
  hier w root tabs maps -> tabs !! (l0, pre l0 v) = Some t0 -> 0 <= l0 < 3 -> 0 <= j < 512 -> present (read w t0 j) = true ->
  (forall l, 0 <= l < l0 -> tabs !! (l, pre l v) = None) -> tidy_beside v tabs maps -> tidy tabs maps.
Proof.
  intros Hh Ht0 Hl0 Hj Hp0 Hpath Htidy.
  pose proof (used_leads _ _ _ _ l0 _ t0 j v Hh Htidy Ht0 ltac:(lia) Hj Hp0 ltac:(intros; apply Hpath; lia)) as Hlead.
  intros l p t Hl Hlt. destruct (Htidy _ _ _ Hl Hlt) as [->|]; [|done]. destruct (tk_key _ _ _ _ _ (h_tables _ _ _ _ _ Hh) _ _ _ Hl) as [Hl' _].
  destruct (decide (l < l0)); [by rewrite Hpath in Hl by lia|]. apply (leads_path maps v l0); [lia|done].
Qed.

Lemma in_pool_reads {E A} (m : FM A) (r : A) s : m (pool s) = (pool s, Ok r) -> in_pool (E := E) m s = (s, Ok r).
Proof. intros H. unfold in_pool, zoom, map_err. rewrite H. by destruct s. Qed.

Lemma shrunk_drop s s2 tabs tabs2 k t0 parent i gone :
  tabs !! k = Some t0 -> (exists k', tabs !! k' = Some parent) ->
  shrunk (set_stock (t0 :: stock s) (set_tlb All (set_words (<[(parent, i) := 0]> (words s)) s))) s2 (delete k tabs) tabs2 gone ->
  shrunk s s2 tabs tabs2 (gone ++ [t0]).
Proof.
  intros Hk Hpar [A1 A2 A3 A4 A5 A6]. cbn in *. split; try done.
  - by rewrite A1, <- app_assoc.
  - rewrite (tab_frames_delete tabs k t0 Hk), A2, <- app_assoc. cbn. apply Permutation_middle.
  - rewrite A5. rewrite (decide_False (P := gone ++ [t0] = [])) by (by destruct gone). by case_decide.
  - intros t j Ht. rewrite A6.
    + rewrite read_store, decide_False; [done|]. intros [-> ->]. by apply Ht, tab_frames_in.
    + intros Hin. apply Ht. rewrite (tab_frames_delete tabs k t0 Hk). by right.
Qed.

Lemma wp_reclaim {E} n v (X : Walk -> E -> Prop) : forall s root tabs maps k,
  hier (words s) root tabs maps -> owned v -> k + Z.of_nat n = 4 -> 1 <= k -> is_Some (tabs !! (k - 1, pre (k - 1) v)) ->
  (forall t, t ∈ tab_frames tabs -> references t (pool s) = (pool s, Ok 1)) -> (length (stock s) + n <= 3)%nat ->
  wp (reclaim_levels (seqZ k (Z.of_nat n)) root v)
    (fun s' _ => exists tabs' gone, hier (words s') root tabs' maps /\ shrunk s s' tabs tabs' gone /\
       ((forall l, 0 <= l < k - 1 -> tabs !! (l, pre l v) = None) -> tidy_beside v tabs maps -> tidy tabs' maps)) X s.
Proof.
  induction n as [|n IH]; intros s root tabs maps k Hh Hv Hk Hk1 [t0 Ht0] Hrefs Hroom.
  { apply wp_ret. exists tabs, []. split_and!; [done|by apply shrunk_refl|]. intros Hpath Ht l p t Hl Hl3.
    destruct (Ht _ _ _ Hl Hl3) as [->|]; [|done]. destruct (tk_key _ _ _ _ _ (h_tables _ _ _ _ _ Hh) _ _ _ Hl). rewrite Hpath in Hl by lia. done. }
  rewrite seqZ_cons by lia. replace (Z.pred (Z.of_nat (S n))) with (Z.of_nat n) by lia. cbn [reclaim_levels]. apply wp_bind, wp_gets.
  rewrite (descend_above _ _ _ _ _ _ Hh Hv) by lia. pose proof (h_tables _ _ _ _ _ Hh) as Hok.
  destruct (h_closed _ _ _ _ _ Hh _ _ _ Ht0) as [[parent Hpar] _]; [lia|]. rewrite <- pre_up in Hpar by lia. replace (k - 1 + 1) with k in Hpar by lia.
  rewrite Hpar. assert (Hi : 0 <= index_of v k < 512) by (apply index_of_range; lia).
  assert (Hd : tabs !! (k - 1, pre (k - 1) v) = table_of k (read (words s) parent (index_of v k))).
  { rewrite pre_down by lia. by apply (tk_down _ _ _ _ _ Hok); [|lia| |apply own_index|]. }
  rewrite Ht0 in Hd. unfold table_of in Hd. destruct (negb _ || _) eqn:Eb; [done|]. injection Hd as Hd. rewrite <- Hd. destruct (table_is_empty _ _ _) eqn:Ee; cbn [negb].
  2: { apply wp_ret. exists tabs, []. split_and!; [done|by apply shrunk_refl|]. intros Hpath Htidy.
    apply not_true_iff_false in Ee. rewrite table_is_empty_spec in Ee.
    destruct (decide (Exists (fun j => present (read (words s) t0 j) = true) (seqZ 0 512))) as [Hex|Hnex].
    - apply Exists_exists in Hex as (j & Hj%elem_of_seqZ & Hp). by eapply (path_in_use _ _ _ _ v (k - 1) t0 j); [done|done|lia|lia|..].
    - exfalso. apply Ee. intros j Hj. apply not_true_iff_false. intros Hp. apply Hnex, Exists_exists. exists j. split; [apply elem_of_seqZ; lia|done]. }
  rewrite table_is_empty_spec in Ee. apply wp_bind.
  eapply wp_fun; [apply in_pool_reads, Hrefs, tab_frames_in; eauto|]. change (negb (1 =? 1)) with false. cbv iota.
  apply wp_bind, wp_modify, wp_bind, wp_modify, wp_bind, wp_bind, wp_gets. cbn [stock set_tlb set_words].
  rewrite (proj2 (Nat.ltb_lt _ _)) by (unfold DEPTH; lia). apply wp_modify. cbn [words pool cached stock tlb set_words set_tlb note_all].
  set (s1 := set_stock _ _).
  assert (Hh1 : hier (words s1) root (delete (k - 1, pre (k - 1) v) tabs) maps).
  { cbn. rewrite pre_down in Ht0 |- * by lia. by apply (hier_drop own _ _ _ _ k _ _ _ t0); [| |lia|..]. }
  eapply wp_mono; [apply (IH s1 root _ maps (k + 1) Hh1 Hv)| |done].
  - lia.
  - lia.
  - replace (k + 1 - 1) with k by lia. rewrite lookup_delete_ne by (intros [=]; lia). eauto.
  - intros t Ht. apply Hrefs. rewrite (tab_frames_delete tabs _ t0 Ht0). by right.
  - cbn. lia.
  - cbn. intros s2 _ (tabs2 & gone & H1 & H2 & H3). exists tabs2, (gone ++ [t0]). split_and!; [done|by eapply shrunk_drop; eauto|].
    intros Hpath Htidy. apply H3.
    + intros l Hl. destruct (decide (l = k - 1)) as [->|]; [apply lookup_delete_eq|]. rewrite lookup_delete_ne by (intros [=]; lia). apply Hpath. lia.
    + intros l p t [_ Hl]%lookup_delete_Some Hl3. by eapply Htidy.
Qed.

Lemma page_prefix v l : 0 <= l -> page_of_virt v / 512 ^ (l + 1) = pre l v.
Proof.
  intros Hl. unfold page_of_virt, pre. change 4096 with (2 ^ 12). change 512 with (2 ^ 9).
  rewrite <- Z.pow_mul_r, Z.div_div, <- Z.pow_add_r by (try apply Z.pow_nonzero; try apply Z.pow_pos_nonneg; lia). f_equal.
Qed.

Lemma wp_unmap {E} s root tabs maps v (X : Walk -> E -> Prop) :
  hier (words s) root tabs maps -> owned v -> stock s = [] ->
  (forall t, t ∈ tab_frames tabs -> references t (pool s) = (pool s, Ok 1)) ->
  wp (unmap root v) (fun s' r =>
    r = addr <$> maps !! page_of_virt v /\
    match maps !! page_of_virt v with
    | None => s' = s
    | Some _ => exists tabs' gone, hier (words s') root tabs' (delete (page_of_virt v) maps) /\
        shrunk (set_tlb (note v (tlb s)) s) s' tabs tabs' gone /\ (tidy tabs maps -> tidy tabs' (delete (page_of_virt v) maps))
    end) X s.
Proof.
  intros Hh Hv Hst Hrefs. unfold unmap. apply wp_bind, wp_gets. pose proof (leaf_found own _ _ _ _ v Hh Hv) as Hf.
  destruct (leaf_table (words s) root v) as [t|]; [|apply wp_ret; by rewrite Hf]. destruct Hf as [Ht Hm]. unfold leaf_of in Hm.
  destruct (present _) eqn:Ep; cbn [negb]; [|apply wp_ret; by rewrite Hm].
  apply wp_bind, wp_modify, wp_bind, wp_modify.
  destruct (edit_page own s root tabs maps v t 0 Hh Hv Ht) as [He Hh1]. unfold set_page, leaf_of in Hh1. rewrite absent_zero in Hh1.
  cbn [tlb set_words] in *. set (s1 := set_tlb _ _) in *. apply wp_bind. change (reclaim root v) with (reclaim_levels (E := E) (seqZ 1 (Z.of_nat 3)) root v).
  eapply wp_mono; [apply (wp_reclaim 3 v X s1 root tabs _ 1 Hh1 Hv)| |done].
  1-5: [> lia|lia|eauto|exact Hrefs|change (stock s1) with (stock s); rewrite Hst; cbn; lia].
  intros s2 _ (tabs' & gone & H1 & H2 & H3). apply wp_ret. rewrite Hm. split; [done|]. exists tabs', gone. split_and!; [done| |].
  - destruct H2 as [B1 B2 B3 B4 B5 B6]. split; try done. intros t' i Ht'. rewrite B6 by done. by apply (e_else _ _ _ _ He).
  - intros Htidy. apply H3; [intros; lia|]. intros l p t' Hl Hl3.
    destruct (tk_key _ _ _ _ _ (h_tables _ _ _ _ _ Hh) _ _ _ Hl) as [Hl0 _].
    destruct (Htidy _ _ _ Hl Hl3) as (q & b & Hq & <-). destruct (decide (q = page_of_virt v)) as [->|Hne].
    + left. apply page_prefix. lia.
    + right. exists q, b. by rewrite lookup_delete_ne.
Qed.

(** ** The teardown *)

Definition page_frames (maps : gmap Z Z) : list Z := (fun kv => addr kv.2) <$> map_to_list maps.

Lemma page_frames_insert maps q b : maps !! q = None -> page_frames (<[q := b]> maps) ≡ₚ addr b :: page_frames maps.
Proof. intros H. unfold page_frames. by rewrite map_to_list_insert. Qed.

Lemma page_frames_delete maps q b : maps !! q = Some b -> page_frames maps ≡ₚ addr b :: page_frames (delete q maps).
Proof. intros H. unfold page_frames. by rewrite <- (map_to_list_delete maps q b H). Qed.

Lemma page_frames_in maps p : p ∈ page_frames maps <-> exists q b, maps !! q = Some b /\ addr b = p.
Proof.
  unfold page_frames. rewrite list_elem_of_fmap. split.
  - intros ([q b] & -> & H%elem_of_map_to_list). by exists q, b.
  - intros (q & b & H & <-). exists (q, b). split; [done|]. by apply elem_of_map_to_list.
Qed.

Section owners.
Context (r : Z -> bool) (nf : Z).

Definition owners (s : Walk) (hs : list Z) : Prop := owners_ok r nf (mkKernel (pool s) hs).

Lemma owners_perm a hs hs' : hs ≡ₚ hs' -> owners_ok r nf (mkKernel a hs) -> owners_ok r nf (mkKernel a hs').
Proof.
  intros Hp (H1 & H2 & H3 & H4). cbn [allocator handles] in *. split_and!; [done|done|cbn; by rewrite <- Hp|].
  intros f Hf. specialize (H4 f Hf). unfold owned_right in *. cbn [allocator handles] in *. by rewrite <- (occ_perm _ _ _ Hp).
Qed.

Lemma wp_machine_free {E} s hs p hs' (X : Walk -> E -> Prop) :
  owners s hs -> hs ≡ₚ p :: hs' ->
  wp (machine_free p) (fun s' _ => exists a, s' = set_pool a s /\ owners s' hs') X s.
Proof.
  intros Ho Hp. destruct (handle_held r nf (pool s) hs p Ho ltac:(rewrite Hp; left)) as (f & Hf & Hpf & _).
  assert (Hfree : exists a, free p (pool s) = (a, Ok tt)).
  { rewrite free_spec by (apply Ho || (unfold PAGE_SIZE in *; lia)). by eexists. }
  destruct Hfree as [a Hfree]. unfold wp, machine_free, in_pool, zoom, map_err. rewrite Hfree. exists a. split; [done|].
  by eapply (owners_drop r nf).
Qed.

(** The table for [(l', p')] is the one for [(l, p)] or below it. *)
Definition under (l p : Z) (k : Z * Z) : bool := (k.1 <=? l) && (k.2 / 512 ^ (l - k.1) =? p).
Definition page_under (l p q : Z) : bool := q / 512 ^ (l + 1) =? p.

(** From [tabs] and [maps] everything under [(l, p)] has gone. *)
Definition pruned (l p : Z) (tabs tabs' : gmap (Z * Z) Z) (maps maps' : gmap Z Z) : Prop :=
  (forall k, tabs' !! k = if under l p k then None else tabs !! k) /\
  (forall q, maps' !! q = if page_under l p q then None else maps !! q).

(** The descriptors of the table for [(l, p)] from [lo] up to [hi] lead to [k]. *)
Definition through (l p lo hi : Z) (k : Z * Z) : bool :=
  (k.1 <? l) && (p * 512 + lo <=? k.2 / 512 ^ (l - 1 - k.1)) && (k.2 / 512 ^ (l - 1 - k.1) <? p * 512 + hi).
Definition page_through (l p lo hi q : Z) : bool := (p * 512 + lo <=? q / 512 ^ l) && (q / 512 ^ l <? p * 512 + hi).

Lemma through_under l p i k : through l p i (i + 1) k = under (l - 1) (p * 512 + i) k.
Proof.
  unfold through, under. destruct (Z.ltb_spec k.1 l), (Z.leb_spec k.1 (l - 1)); cbn; [|lia|lia|done].
  destruct (Z.leb_spec (p * 512 + i) (k.2 / 512 ^ (l - 1 - k.1))), (Z.ltb_spec (k.2 / 512 ^ (l - 1 - k.1)) (p * 512 + (i + 1))),
    (Z.eqb_spec (k.2 / 512 ^ (l - 1 - k.1)) (p * 512 + i)); cbn; lia.
Qed.

Lemma through_split l p i k : 0 <= i -> through l p 0 (i + 1) k = through l p 0 i k || through l p i (i + 1) k.
Proof. intros Hi. unfold through. destruct (k.1 <? l); cbn; [|done]. generalize (k.2 / 512 ^ (l - 1 - k.1)). intros x. lia. Qed.

Definition closed_below (m : Z) (tabs : gmap (Z * Z) Z) : Prop :=
  forall l p t, tabs !! (l, p) = Some t -> l < m -> is_Some (tabs !! (l + 1, p / 512)).

(** A table with something under it is there. *)
Lemma closed_under m tabs l p k t : closed_below m tabs -> l <= m -> tabs !! k = Some t -> under l p k = true -> is_Some (tabs !! (l, p)).
Proof.
  intros Hc Hl Hk [Hle Hp]%andb_prop. apply Z.leb_le in Hle. apply Z.eqb_eq in Hp. destruct k as [l' p']. cbn in *.
  remember (Z.to_nat (l - l')) as d eqn:Ed. revert l' p' t Hk Hle Hp Ed. induction d as [|d IH]; intros l' p' t Hk Hle Hp Ed.
  { assert (l' = l) as -> by lia. rewrite Z.sub_diag, Z.pow_0_r, Z.div_1_r in Hp. subst. eauto. }
  destruct (Hc _ _ _ Hk) as [x Hx]; [lia|]. apply (IH (l' + 1) (p' / 512) x); [done|lia| |lia].
  rewrite Z.div_div by (try apply Z.pow_nonzero; lia). rewrite <- Hp. f_equal. rewrite <- Z.pow_succ_r by lia. f_equal. lia.
Qed.

(** Where a teardown that started in [s0] with [tabs0] has got to. *)
Record alive (s0 s : Walk) (tabs0 tabs : gmap (Z * Z) Z) (maps : gmap Z Z) (holes : list (Z * Z)) (rest : list Z) : Prop := {
  al_ok : tables_ok own (words s) tabs maps holes;
  al_owners : owners s (tab_frames tabs ++ page_frames maps ++ rest);
  al_cached : cached s = cached s0;
  al_stock : stock s = stock s0;
  al_tlb : tlb s = tlb s0;
  al_else t i : t ∉ tab_frames tabs0 -> read (words s) t i = read (words s0) t i;
}.

(** A last-level descriptor's frame goes back. *)
Lemma wp_free_leaf {E} s0 s tabs0 tabs maps holes rest p t i (X : Walk -> E -> Prop) :
  alive s0 s tabs0 tabs maps holes rest -> tabs !! (0, p) = Some t -> t ∈ tab_frames tabs0 -> 0 <= i < 512 ->
  present (read (words s) t i) = true ->
  wp (machine_free (addr (read (words s) t i)) ;;; store t i 0)
    (fun s' _ => alive s0 s' tabs0 tabs (delete (p * 512 + i) maps) holes rest) X s.
Proof.
  intros [A1 A2 A3 A4 A5 A6] Ht Ht0 Hi Hp. pose proof (tk_leaf _ _ _ _ _ A1 _ _ _ Ht Hi) as Hm. unfold leaf_of in Hm. rewrite Hp in Hm.
  apply wp_bind. eapply wp_mono; [apply (wp_machine_free s _ _ (tab_frames tabs ++ page_frames (delete (p * 512 + i) maps) ++ rest) X A2)| |done].
  { rewrite (page_frames_delete maps _ _ Hm). cbn. symmetry. apply Permutation_middle. }
  intros s1 _ (a & -> & Ho). apply wp_modify. cbn. split; try done.
  - pose proof (tables_leaf own _ _ _ _ _ _ _ 0 A1 Ht Hi) as H. unfold set_page, leaf_of in H. by rewrite absent_zero in H.
  - intros t' j Ht'. cbn. rewrite read_store, decide_False; [by apply A6|]. intros [-> ->]. done.
Qed.

(** The descriptor above a table that has gone is cleared. *)
Lemma tables_fill w tabs maps holes l p t i :
  tables_ok own w tabs maps ((l - 1, p * 512 + i) :: holes) -> tabs !! (l, p) = Some t -> 0 < l -> 0 <= i < 512 ->
  tabs !! (l - 1, p * 512 + i) = None -> tables_ok own (<[(t, i) := 0]> w) tabs maps holes.
Proof.
  intros [H1 H2 H3 H4 H5 H6] Ht Hl Hi Hnone. split; try done.
  - intros l' p' t' j Ht' Hl' Hj Hown Hh. rewrite read_store. case_decide as E.
    + destruct E as [-> ->]. pose proof (H6 _ _ _ Ht Ht'). simplify_eq. rewrite Hnone. unfold table_of. by rewrite absent_zero.
    + apply H2; [done..|]. rewrite elem_of_cons. intros [[= E1 E2]|]; [|done]. apply child_inj in E2 as [-> ->]; [|done..].
      assert (l' = l) as -> by lia. simplify_eq. tauto.
  - intros p' t' j Ht' Hj. rewrite read_store, decide_False; [by apply H3|]. intros [-> ->]. pose proof (H6 _ _ _ Ht Ht'); simplify_eq; lia.
  - intros l' p' t' j Ht' Hl' Hj Hown. rewrite read_store. case_decide; [by rewrite absent_zero|by eapply H4].
Qed.

(** A table with nothing in it is forgotten. *)
Lemma tables_forget w tabs maps holes l p t :
  tables_ok own w tabs maps holes -> tabs !! (l, p) = Some t -> (l = 0 -> forall q, q / 512 = p -> maps !! q = None) ->
  tables_ok own w (delete (l, p) tabs) maps ((l, p) :: holes).
Proof.
  intros [H1 H2 H3 H4 H5 H6] Ht Hnone. split.
  - intros l' p' t' [_ Ht']%lookup_delete_Some. by eapply H1.
  - intros l' p' t' i [_ Ht']%lookup_delete_Some Hl Hi Hown Hh. rewrite elem_of_cons in Hh. rewrite lookup_delete_ne by naive_solver.
    apply H2; [done..|]. naive_solver.
  - intros p' t' i [_ Ht']%lookup_delete_Some. by apply H3.
  - intros l' p' t' i [_ Ht']%lookup_delete_Some. by eapply H4.
  - intros q b Hq. destruct (H5 _ _ Hq) as [? [x Hx]]. split; [done|]. rewrite lookup_delete_ne; [eauto|].
    intros [= -> E]. by rewrite (Hnone eq_refl q) in Hq.
  - intros k k' t' [_ E]%lookup_delete_Some [_ E']%lookup_delete_Some. by eapply H6.
Qed.

Lemma page_through_under l p i q : page_through l p i (i + 1) q = page_under (l - 1) (p * 512 + i) q.
Proof.
  unfold page_through, page_under. replace (l - 1 + 1) with l by lia. generalize (q / 512 ^ l). intros x. lia.
Qed.

Lemma page_through_split l p i q : 0 <= i -> page_through l p 0 (i + 1) q = page_through l p 0 i q || page_through l p i (i + 1) q.
Proof. intros Hi. unfold page_through. generalize (q / 512 ^ l). intros x. lia. Qed.

Lemma div_pow_succ x n : 0 <= n -> x / 512 ^ (n + 1) = x / 512 ^ n / 512.
Proof. intros Hn. rewrite Z.div_div by (try apply Z.pow_nonzero; lia). f_equal. rewrite Z.pow_add_r by lia. done. Qed.

Lemma under_all l p k : under l p k = bool_decide (k = (l, p)) || through l p 0 512 k.
Proof.
  unfold under, through. destruct k as [l' p']. cbn. destruct (Z.ltb_spec l' l), (Z.leb_spec l' l); cbn; try lia.
  - rewrite bool_decide_false by (intros [=]; lia). cbn. replace (l - l') with (l - 1 - l' + 1) by lia. rewrite div_pow_succ by lia.
    generalize (p' / 512 ^ (l - 1 - l')). intros x. lia.
  - assert (l' = l) as -> by lia. rewrite Z.sub_diag, Z.pow_0_r, Z.div_1_r. rewrite orb_false_r. case_bool_decide; [simplify_eq; lia|]. destruct (Z.eqb_spec p' p); [congruence|done].
  - rewrite bool_decide_false by (intros [=]; lia). done.
Qed.

Lemma page_under_all l p q : 0 <= l -> page_under l p q = page_through l p 0 512 q.
Proof. intros Hl. unfold page_under, page_through. rewrite div_pow_succ by lia. generalize (q / 512 ^ l). intros x. lia. Qed.

(** Nothing hangs from a table that is not there. *)
Lemma pruned_none w tabs maps holes l c :
  tables_ok own w tabs maps holes -> closed_below l tabs -> tabs !! (l, c) = None -> 0 <= l -> pruned l c tabs tabs maps maps.
Proof.
  intros Hok Hc Hnone Hl.
  assert (Hno : forall k t', tabs !! k = Some t' -> under l c k = true -> False).
  { intros k t' Hk Hu. destruct (closed_under l tabs l c k t' Hc ltac:(lia) Hk Hu) as [x Hx]. congruence. }
  split.
  - intros k. destruct (under _ _ k) eqn:E; [|done]. destruct (tabs !! k) as [t'|] eqn:Ek; [|done]. exfalso. eauto.
  - intros q. destruct (page_under _ _ q) eqn:E; [|done]. destruct (maps !! q) as [b|] eqn:Eq; [|done]. exfalso.
    unfold page_under in E. apply Z.eqb_eq in E. destruct (tk_maps _ _ _ _ _ Hok _ _ Eq) as [_ [x Hx]].
    apply (Hno _ _ Hx). unfold under. cbn. apply andb_true_intro. split; [lia|]. apply Z.eqb_eq.
    rewrite <- E, Z.sub_0_r, Z.add_comm, Z.pow_add_r by lia. rewrite <- Z.div_div by (try apply Z.pow_nonzero; lia). done.
Qed.

(** Nothing hangs from a descriptor that is absent. *)
Lemma pruned_absent w tabs maps holes l p t i :
  tables_ok own w tabs maps holes -> closed_below l tabs -> tabs !! (l, p) = Some t -> 0 <= l <= 2 -> 0 <= i < 512 ->
  (l - 1, p * 512 + i) ∉ holes -> present (read w t i) = false -> pruned (l - 1) (p * 512 + i) tabs tabs maps maps.
Proof.
  intros Hok Hc Ht Hl Hi Hh Hp. destruct (decide (l = 0)) as [->|].
  - pose proof (tk_leaf _ _ _ _ _ Hok _ _ i Ht Hi) as Hm. unfold leaf_of in Hm. rewrite Hp in Hm. split.
    + intros k. destruct (under _ _ k) eqn:E; [|done]. apply andb_prop in E as [E _]. apply Z.leb_le in E.
      destruct (tabs !! k) as [x|] eqn:Ek; [|done]. destruct k as [l' p']. pose proof (tk_key _ _ _ _ _ Hok _ _ _ Ek). cbn in E. lia.
    + intros q. unfold page_under. change (512 ^ (0 - 1 + 1)) with 1. rewrite Z.div_1_r. by destruct (Z.eqb_spec q (p * 512 + i)) as [->|].
  - eapply pruned_none; [done|intros l' p' t' Hk Hl'; eapply Hc; [done|lia]| |lia].
    rewrite (tk_down _ _ _ _ _ Hok _ _ _ i Ht) by (done || lia). unfold table_of. by rewrite Hp.
Qed.

(** The loop of [free_table] over the table for [(l, p)], at descriptor [x]. *)
Definition turned (s0 : Walk) (tabs0 : gmap (Z * Z) Z) (maps0 : gmap Z Z) (m l p : Z) (holes : list (Z * Z)) (rest : list Z) (x : Z) (s : Walk) : Prop :=
  exists tabs maps, alive s0 s tabs0 tabs maps holes rest /\ closed_below m tabs /\
    (forall k, tabs !! k = if through l p 0 x k then None else tabs0 !! k) /\
    (forall q, maps !! q = if page_through l p 0 x q then None else maps0 !! q).

Lemma closed_pruned m l c tabs tabs' maps maps' :
  pruned (l - 1) c tabs tabs' maps maps' -> closed_below m tabs -> closed_below m tabs'.
Proof.
  intros [Hp _] Hc l' p' t' Hk Hl. rewrite Hp in Hk. destruct (under _ _ (l', p')) eqn:E; [done|].
  rewrite Hp. destruct (under (l - 1) c (l' + 1, p' / 512)) eqn:E'; [|by eapply Hc].
  unfold under in *. cbn in *. apply andb_prop in E' as [E1 E2]. apply Z.leb_le in E1. apply Z.eqb_eq in E2.
  exfalso. revert E. apply not_false_iff_true. apply andb_true_intro. split; [apply Z.leb_le; lia|]. apply Z.eqb_eq. rewrite <- E2.
  replace (l - 1 - l') with (l - 1 - (l' + 1) + 1) by lia. rewrite Z.add_comm, Z.pow_add_r by lia. rewrite <- Z.div_div by (try apply Z.pow_nonzero; lia). done.
Qed.

Lemma turned_next s0 s tabs0 maps0 m l p holes rest x tabs maps tabs' maps' :
  0 <= x -> closed_below m tabs ->
  (forall k, tabs !! k = if through l p 0 x k then None else tabs0 !! k) ->
  (forall q, maps !! q = if page_through l p 0 x q then None else maps0 !! q) ->
  pruned (l - 1) (p * 512 + x) tabs tabs' maps maps' -> alive s0 s tabs0 tabs' maps' holes rest ->
  turned s0 tabs0 maps0 m l p holes rest (x + 1) s.
Proof.
  intros Hx Hc Ht Hm Hp Ha. exists tabs', maps'. split_and!; [done|by eapply closed_pruned| |]; destruct Hp as [Hp1 Hp2].
  - intros k. rewrite Hp1, Ht, through_split, <- through_under by done. by destruct (through l p 0 x k), (through l p x (x + 1) k).
  - intros q. rewrite Hp2, Hm, page_through_split, <- page_through_under by done. by destruct (page_through l p 0 x q), (page_through l p x (x + 1) q).
Qed.

Lemma alive_trans s0 s1 s2 tabs0 tabs1 tabs2 maps holes rest :
  (forall t, t ∈ tab_frames tabs1 -> t ∈ tab_frames tabs0) ->
  cached s1 = cached s0 /\ stock s1 = stock s0 /\ tlb s1 = tlb s0 /\ (forall t i, t ∉ tab_frames tabs0 -> read (words s1) t i = read (words s0) t i) ->
  alive s1 s2 tabs1 tabs2 maps holes rest -> alive s0 s2 tabs0 tabs2 maps holes rest.
Proof.
  intros Hsub (E1 & E2 & E3 & E4) [B1 B2 B3 B4 B5 B6]. split; try done; try congruence.
  intros t i Ht. rewrite B6 by naive_solver. by apply E4.
Qed.

Lemma pruned_frames l p tabs tabs' maps maps' : pruned l p tabs tabs' maps maps' -> forall t, t ∈ tab_frames tabs' -> t ∈ tab_frames tabs.
Proof. intros [Hp _] t [k Hk]%tab_frames_in. rewrite Hp in Hk. destruct (under l p k); [done|]. apply tab_frames_in. eauto. Qed.

Lemma pruned_page p tabs maps holes w i :
  tables_ok own w tabs maps holes -> pruned (0 - 1) (p * 512 + i) tabs tabs maps (delete (p * 512 + i) maps).
Proof.
  intros Hok. split.
  - intros k. destruct (under _ _ k) eqn:E; [|done]. apply andb_prop in E as [E _]. apply Z.leb_le in E.
    destruct (tabs !! k) as [t|] eqn:Ek; [|done]. destruct k as [l' p']. pose proof (tk_key _ _ _ _ _ Hok _ _ _ Ek). cbn in E. lia.
  - intros q. unfold page_under. change (512 ^ (0 - 1 + 1)) with 1. rewrite Z.div_1_r.
    destruct (Z.eqb_spec q (p * 512 + i)) as [->|]; [by rewrite lookup_delete_eq|by rewrite lookup_delete_ne].
Qed.

Lemma turned_start s tabs maps m l p holes rest :
  alive s s tabs tabs maps holes rest -> closed_below m tabs -> turned s tabs maps m l p holes rest 0 s.
Proof.
  intros Ha Hc. exists tabs, maps. split_and!; [done|done| |].
  - intros k. unfold through. destruct (k.1 <? l); cbn; [|done]. generalize (k.2 / 512 ^ (l - 1 - k.1)). intros z.
    destruct (Z.leb_spec (p * 512 + 0) z), (Z.ltb_spec z (p * 512 + 0)); cbn; done || lia.
  - intros q. unfold page_through. generalize (q / 512 ^ l). intros z.
    destruct (Z.leb_spec (p * 512 + 0) z), (Z.ltb_spec z (p * 512 + 0)); cbn; done || lia.
Qed.

(** The frame of the table itself, when nothing hangs from it. *)
Lemma wp_free_empty {E} s0 s tabs0 maps0 l p t holes rest (X : Walk -> E -> Prop) :
  turned s0 tabs0 maps0 l l p holes rest 512 s -> tabs0 !! (l, p) = Some t -> 0 <= l ->
  wp (machine_free t) (fun s' _ => exists tabs' maps', alive s0 s' tabs0 tabs' maps' ((l, p) :: holes) rest /\ pruned l p tabs0 tabs' maps0 maps') X s.
Proof.
  intros (tabs & maps & [A1 A2 A3 A4 A5 A6] & Hc & Ht & Hm) Hroot Hl.
  assert (Hself : tabs !! (l, p) = Some t) by (rewrite Ht; unfold through; cbn; by rewrite Z.ltb_irrefl).
  eapply wp_mono; [apply (wp_machine_free s _ t (tab_frames (delete (l, p) tabs) ++ page_frames maps ++ rest) X A2)| |done].
  { by rewrite (tab_frames_delete tabs _ _ Hself). }
  intros s' _ (a & -> & Ho). exists (delete (l, p) tabs), maps. split.
  - split; try done. apply (tables_forget _ _ _ _ _ _ t); [done..|]. intros -> q Hq. rewrite Hm, <- page_under_all by lia.
    unfold page_under. change (512 ^ (0 + 1)) with 512. by rewrite Hq, Z.eqb_refl.
  - split.
    + intros k. rewrite under_all. case_bool_decide as E1; cbn.
      * subst k. by rewrite lookup_delete_eq.
      * rewrite lookup_delete_ne by done. apply Ht.
    + intros q. rewrite Hm, page_under_all by lia. done.
Qed.

Lemma wp_free_table {E} n (X : Walk -> E -> Prop) : forall s tabs maps holes rest p t,
  alive s s tabs tabs maps holes rest -> closed_below (Z.of_nat n) tabs -> (n <= 2)%nat -> tabs !! (Z.of_nat n, p) = Some t ->
  (forall h, h ∈ holes -> Z.of_nat n <= h.1) ->
  wp (free_table n t) (fun s' _ => exists tabs' maps', alive s s' tabs tabs' maps' ((Z.of_nat n, p) :: holes) rest /\
    pruned (Z.of_nat n) p tabs tabs' maps maps') X s.
Proof.
  induction n as [|n IH]; intros s tabs0 maps0 holes rest p t Ha0 Hc0 Hn Hroot Hholes; cbn [free_table]; apply wp_bind;
    change (seqZ 0 ENTRIES) with (seqZ 0 (512 - 0)); match type of Hc0 with closed_below ?m _ => set (l := m) in * end;
    apply (wp_for _ (fun x s' => turned s tabs0 maps0 l l p holes rest x s')); try (intros s' Hs'; change (Z.max 0 512) with 512 in Hs'; by eapply wp_free_empty; [..|lia]).
  2, 4: by apply turned_start.
  all: intros x s1 Hx (tabs & maps & Ha & Hc & Ht & Hm); pose proof Ha as [A1 A2 A3 A4 A5 A6].
  all: assert (Hself : tabs !! (l, p) = Some t) by (rewrite Ht; unfold through; cbn; by rewrite Z.ltb_irrefl).
  all: assert (Hsub : forall u, u ∈ tab_frames tabs -> u ∈ tab_frames tabs0) by
    (intros u [k Hk]%tab_frames_in; rewrite Ht in Hk; destruct (through _ _ _ _ k); [done|]; apply tab_frames_in; eauto).
  all: assert (Hch : (l - 1, p * 512 + x) ∉ holes) by (intros Hin; specialize (Hholes _ Hin); cbn in Hholes; lia).
  all: apply wp_bind, wp_gets; destruct (present _) eqn:Ep; cbn [negb].
  2, 4: apply wp_ret; eapply turned_next; [lia|done..|eapply pruned_absent; eauto; lia|done].
  - eapply wp_mono; [apply (wp_free_leaf s s1 tabs0 tabs maps holes rest p t x X Ha); [done|apply tab_frames_in; eauto|lia|done]| |done].
    intros s2 ? Ha2. cbv beta in Ha2. eapply turned_next; [lia|done..|by eapply pruned_page|done].
  - assert (Hends : ends_walk (read (words s1) t x) l = false) by (eapply (tk_block _ _ _ _ _ A1); [done|lia|lia|lia|done]).
    rewrite (ends_any _ _ l), Hends by lia. pose proof (tk_down _ _ _ _ _ A1 _ _ _ x Hself ltac:(lia) ltac:(lia) ltac:(lia) Hch) as Hd.
    unfold table_of in Hd. rewrite Ep, Hends in Hd. cbn in Hd. replace (l - 1) with (Z.of_nat n) in Hd by lia. apply wp_bind.
    eapply wp_mono; [apply (IH s1 tabs maps holes rest (p * 512 + x)); [by split|intros l' p' t' Hk Hl'; eapply Hc; [done|lia]|lia|exact Hd|intros h Hh; specialize (Hholes h Hh); lia]| |done].
    intros s2 _ (tabs' & maps' & Ha2 & Hp). apply wp_modify. replace (Z.of_nat n) with (l - 1) in Hp, Ha2 by lia.
    eapply turned_next; [lia|done..|exact Hp|]. pose proof (alive_trans s s1 s2 tabs0 tabs tabs' maps' _ rest Hsub ltac:(done) Ha2) as [B1 B2 B3 B4 B5 B6].
    assert (Hself' : tabs' !! (l, p) = Some t) by (rewrite (proj1 Hp); unfold under; cbn; replace (l <=? l - 1) with false by lia; done).
    split; try done.
    + cbn. eapply tables_fill; [exact B1|done|lia|lia|]. rewrite (proj1 Hp). unfold under. cbn. rewrite Z.leb_refl, Z.sub_diag, Z.pow_0_r, Z.div_1_r, Z.eqb_refl. done.
    + intros u j Hu. cbn. rewrite read_store, decide_False; [by apply B6|]. intros [-> ->]. apply Hu, tab_frames_in. eauto.
Qed.

(** [detach] reads the descriptors and clears those that are present. *)
Lemma wp_detach {E} root (X : Walk -> E -> Prop) (n : nat) : forall i s,
  wp (detach root (seqZ i (Z.of_nat n)))
    (fun s' r => r = read (words s) root <$> seqZ i (Z.of_nat n) /\
       exists w, s' = set_words w s /\ (forall t j, t <> root -> read w t j = read (words s) t j)) X s.
Proof.
  induction n as [|n IH]; intros i s.
  { apply wp_ret. split; [done|]. exists (words s). split; [by destruct s|done]. }
  rewrite seqZ_cons by lia. replace (Z.pred (Z.of_nat (S n))) with (Z.of_nat n) by lia. cbn [detach fmap list_fmap]. apply wp_bind, wp_gets, wp_bind.
  assert (Hrest : forall s1, (forall j, j <> i -> read (words s1) root j = read (words s) root j) ->
    read (words s1) root <$> seqZ (Z.succ i) (Z.of_nat n) = read (words s) root <$> seqZ (Z.succ i) (Z.of_nat n)).
  { intros s1 Hs1. apply list_fmap_ext. intros k x Hx%lookup_seqZ. apply Hs1. lia. }
  destruct (present _); [apply wp_modify|apply wp_ret]; apply wp_bind; (eapply wp_mono; [apply IH| |done]);
    intros s2 x [-> (w & -> & Hw)]; apply wp_ret.
  - split.
    + f_equal. apply Hrest. intros j Hj. cbn. rewrite read_store, decide_False; [done|]. naive_solver.
    + exists w. split; [done|]. intros t j Ht. rewrite Hw by done. cbn. rewrite read_store, decide_False; [done|]. naive_solver.
  - split; [done|]. by exists w.
Qed.

Lemma mapM_fmap {S E A B} (g : A -> B) (f : B -> M S E unit) l : mapM_ f (g <$> l) = mapM_ (fun x => f (g x)) l.
Proof. induction l as [|x l IH]; [done|]. cbn. by rewrite IH. Qed.

(** The exemption of a descriptor in no table says nothing. *)
Lemma drop_hole w tabs maps holes c :
  (forall p, tabs !! (3, p) = None) -> tables_ok own w tabs maps ((2, c) :: holes) -> tables_ok own w tabs maps holes.
Proof.
  intros Htop [H1 H2 H3 H4 H5 H6]. split; try done. intros l p t i Ht Hl Hi Hown Hh. apply H2; [done..|].
  rewrite elem_of_cons. intros [[= E1 E2]|]; [|done]. assert (l = 3) as -> by lia. by rewrite Htop in Ht.
Qed.

(** One of the detached tables. *)
Lemma wp_free_top {E} s0 s tabs0 maps0 rest bits x (X : Walk -> E -> Prop) :
  turned s0 tabs0 maps0 2 3 0 [] rest x s -> 0 <= x < 512 -> (forall p, tabs0 !! (3, p) = None) ->
  tabs0 !! (2, x) = table_of 3 bits ->
  wp (if present bits && negb (ends_walk bits 3) then free_table 2 (addr bits) else ret tt)
    (fun s' _ => turned s0 tabs0 maps0 2 3 0 [] rest (x + 1) s') X s.
Proof.
  intros (tabs & maps & Ha & Hc & Ht & Hm) Hx Htop Hd. pose proof Ha as [A1 A2 A3 A4 A5 A6].
  assert (Hself : tabs !! (2, x) = table_of 3 bits).
  { rewrite Ht, <- Hd. unfold through. cbn [fst snd]. change (512 ^ (3 - 1 - 2)) with 1. rewrite Z.div_1_r. replace (x <? 0 * 512 + x) with false by lia. by rewrite andb_false_r. }
  assert (Hsub : forall u, u ∈ tab_frames tabs -> u ∈ tab_frames tabs0).
  { intros u [k Hk]%tab_frames_in. rewrite Ht in Hk. destruct (through _ _ _ _ k); [done|]. apply tab_frames_in; eauto. }
  unfold table_of in Hself. destruct (present bits), (ends_walk bits 3); cbn [andb negb orb] in *.
  1, 3, 4: apply wp_ret; eapply turned_next; [lia|done..| |done]; by eapply pruned_none.
  eapply wp_mono; [apply (wp_free_table 2 X s tabs maps [] rest x (addr bits)); [by split|done|lia|done|by intros h ?%elem_of_nil]| |done].
  intros s' _ (tabs' & maps' & Ha' & Hp). eapply turned_next; [lia|done..|exact Hp|].
  destruct (alive_trans s0 s s' tabs0 tabs tabs' maps' _ rest Hsub ltac:(done) Ha') as [B1 B2 B3 B4 B5 B6]. split; try done.
  eapply drop_hole; [|exact B1]. intros p. rewrite (proj1 Hp). destruct (under _ _ _); [done|]. rewrite Ht. destruct (through _ _ _ _ _); [done|]. apply Htop.
Qed.

Lemma tables_rootless w root tabs maps :
  hier w root tabs maps -> tables_ok own w (delete (3, 0) tabs) maps [] /\ (forall p, delete (3, 0) tabs !! (3, p) = None) /\
  closed_below 2 (delete (3, 0) tabs) /\ (root ∉ tab_frames (delete (3, 0) tabs)).
Proof.
  intros [Hr Hok Hc]. assert (Htop : forall p, delete (3, 0) tabs !! (3, p) = None).
  { intros p. destruct (decide (p = 0)) as [->|]; [apply lookup_delete_eq|]. rewrite lookup_delete_ne by congruence.
    destruct (tabs !! (3, p)) eqn:E; [|done]. apply (tk_key _ _ _ _ _ Hok) in E. lia. }
  split_and!; [|done| |].
  - destruct (tables_forget w tabs maps [] 3 0 root Hok Hr ltac:(lia)) as [H1 H2 H3 H4 H5 H6]. split; try done.
    intros l p t i Ht Hl Hi Hown _. apply H2; [done..|]. rewrite list_elem_of_singleton. intros [= E1 E2]. pose proof (H1 _ _ _ Ht). lia.
  - intros l p t [_ Ht]%lookup_delete_Some Hl. destruct (Hc _ _ _ Ht ltac:(lia)) as [Hs _]. rewrite lookup_delete_ne by (intros [=]; lia). done.
  - intros [k [Hne Hk]%lookup_delete_Some]%tab_frames_in. by pose proof (tk_inj _ _ _ _ _ Hok _ _ _ Hr Hk).
Qed.

(** [free_below] of the half a program owns: every page and every table but the
    top one goes back, and nothing else does. *)
Lemma wp_free_below {E} s root tabs maps rest (X : Walk -> E -> Prop) :
  (forall i, own i = (i <? 256)) -> hier (words s) root tabs maps -> owners s (tab_frames tabs ++ page_frames maps ++ rest) ->
  wp (free_below root (2 ^ 47))
    (fun s' _ => owners s' (root :: rest) /\ cached s' = ∅ /\ stock s' = stock s /\ tlb s' = tlb s /\
       forall t i, t ∉ tab_frames tabs -> read (words s') t i = read (words s) t i) X s.
Proof.
  intros Hown Hh Ho. destruct (tables_rootless _ _ _ _ Hh) as (Hok1 & Htop & Hc1 & Hroot). set (tabs1 := delete (3, 0) tabs) in *.
  pose proof (tab_frames_delete tabs _ _ (h_root _ _ _ _ _ Hh)) as Hfr. fold tabs1 in Hfr.
  unfold free_below. change (Z.shiftr (2 ^ 47) _) with 256. change (Z.min 256 ENTRIES) with (Z.of_nat 256). apply wp_bind.
  eapply wp_mono; [apply wp_detach| |done]. intros s1 x [-> (w & -> & Hw)]. apply wp_bind, wp_modify.
  set (s1 := set_cached ∅ (set_words w s)). rewrite mapM_fmap. change (Z.of_nat 256) with (256 - 0).
  apply (wp_for _ (fun x s' => turned s1 tabs1 maps 2 3 0 [] (root :: rest) x s')).
  - intros x s2 Hx Ht. eapply wp_free_top; [done|lia|done|]. unfold tabs1. rewrite lookup_delete_ne by (intros [=]; lia).
    replace x with (0 * 512 + x) at 1 by lia. apply (tk_down _ _ _ _ _ (h_tables _ _ _ _ _ Hh) 3 0 root x); [apply Hh|lia|lia| |done]. intros _. rewrite Hown. lia.
  - apply turned_start; [|done]. split; try done.
    + eapply tables_frame; [|exact Hok1]. intros k t i Hk. cbn. apply Hw. intros ->. apply Hroot, tab_frames_in. eauto.
    + unfold owners in *. cbn. eapply owners_perm; [|exact Ho]. rewrite Hfr. cbn. rewrite <- !Permutation_middle. done.
  - intros s2 (tabs2 & maps2 & [A1 A2 A3 A4 A5 A6] & Hc2 & Ht2 & Hm2). change (Z.max 0 256) with 256 in *.
    assert (Hpre : forall k t, tabs1 !! k = Some t -> through 3 0 0 256 k = true).
    { intros [l p] t Hk. pose proof (tk_key _ _ _ _ _ Hok1 _ _ _ Hk) as (Hl & Hp0 & _).
      assert (Hl3 : l <> 3) by (intros ->; by rewrite Htop in Hk).
      destruct (closed_under 2 tabs1 2 (p / 512 ^ (2 - l)) (l, p) t Hc1 ltac:(lia) Hk) as [y Hy].
      { unfold under. cbn. apply andb_true_intro. split; [lia|apply Z.eqb_refl]. }
      apply lookup_delete_Some in Hy as [_ Hy]. destruct (h_closed _ _ _ _ _ Hh _ _ _ Hy ltac:(lia)) as [[z Hz] Ho2].
      apply (tk_key _ _ _ _ _ (h_tables _ _ _ _ _ Hh)) in Hz as (_ & _ & Hz). specialize (Hz eq_refl). specialize (Ho2 eq_refl). rewrite Hown in Ho2.
      unfold through. cbn. change (3 - 1) with 2. revert Hz Ho2. generalize (p / 512 ^ (2 - l)). intros u Hz Ho2. lia. }
    assert (tabs2 = ∅) as ->.
    { apply map_empty. intros k. rewrite Ht2. destruct (through _ _ _ _ k) eqn:Ek; [done|]. destruct (tabs1 !! k) eqn:E1; [|done]. by rewrite (Hpre _ _ E1) in Ek. }
    assert (maps2 = ∅) as ->.
    { apply map_empty. intros q. destruct (maps2 !! q) eqn:Eq; [|done]. apply (tk_maps _ _ _ _ _ A1) in Eq as [_ [y Hy]]. done. }
    split_and!; [done|done|done|done|]. intros t i Ht. rewrite A6; [|intros Hin; apply Ht; rewrite Hfr; by right].
    cbn. apply Hw. intros ->. apply Ht. rewrite Hfr. by left.
Qed.
End owners.
End free.
