(* ===== verification/Space.v ===== *)
(** * Address spaces

    [kernel/src/mm/space.rs] with the owners of [kernel/src/mm/tables.rs]: a page
    prepared before the lock is taken, frames that wait for an invalidation, the
    record of regions, and the calls on an address space. An address space is
    named by the frame of its top table, as [Mm::id] does. What is done under one
    turn of its lock is one computation between [locked] and the flush its guard
    ends with. The contents of a file are a parameter. *)

From stdpp Require Import gmap.
From S2P Require Import Prelude Words Handoff Frame Walk.

Definition PAGE : Z := 4096.
Definition USER_LIMIT : Z := 0x0000800000000000.
Definition USER_MMAP_BASE : Z := 0x00007F0000000000.
Definition PROT_WRITE : Z := 2.
Definition PROT_EXEC : Z := 4.
Definition MAX_MAPPING : Z := Z.shiftl 1 40.
Definition MAP_FIXED : Z := 0x10.
Definition MAP_ANONYMOUS : Z := 0x20.
Definition TOP_UP_TRIES : nat := 4.
Definition RETIRED_MAX : Z := 32.
Definition UNMAP_CHUNK : Z := 128.
Definition is_user_addr (virt : Z) : bool := virt <? USER_LIMIT.
Definition page_align_down (v : Z) : Z := align_down v PAGE.

(** What a file is to an address space: what a read of it comes to. *)
Class Files (V : Type) := {
  file_eq : EqDecision V;
  contents : V -> list Z + Errno;
}.
#[global] Existing Instance file_eq.

Section space.
Context {P : Paging} {V : Type} {FV : Files V}.

(** ** The record of what is in an address space *)

Record FileMap := mkFileMap { node : V; offset : Z; length : Z }.
Record Vma := mkVma { start : Z; end_ : Z; prot : Z; vflags : Z; file : option FileMap }.

Definition contains (v : Vma) (a : Z) : bool := (start v <=? a) && (a <? end_ v).

Definition page_flags (v : Vma) : Z :=
  let bits := Z.lor PRESENT USER in
  let bits := if has PROT_WRITE (prot v) then Z.lor bits WRITABLE else bits in
  if has PROT_EXEC (prot v) then bits else Z.lor bits NO_EXECUTE.

Record MemState := mkMem { vmas : list Vma; brk_start : Z; brk : Z; mmap_top : Z; saved_auxv : list Z }.

Definition mem_new : MemState := mkMem [] 0 0 USER_MMAP_BASE [].
Definition set_vmas (l : list Vma) (m : MemState) : MemState := mkMem l (brk_start m) (brk m) (mmap_top m) (saved_auxv m).
Definition set_brk (b : Z) (m : MemState) : MemState := mkMem (vmas m) (brk_start m) b (mmap_top m) (saved_auxv m).
Definition set_mmap_top (t : Z) (m : MemState) : MemState := mkMem (vmas m) (brk_start m) (brk m) t (saved_auxv m).

Definition find_vma (a : Z) (m : MemState) : option Vma := List.find (fun v => contains v a) (vmas m).

Definition range_is_free (from to : Z) (m : MemState) : bool :=
  forallb (fun v => (end_ v <=? from) || (to <=? start v)) (vmas m).

Definition with_prot (p : Z) (v : Vma) : Vma := mkVma (start v) (end_ v) p (vflags v) (file v).
Definition set_vma_prot (from to p : Z) (m : MemState) : MemState :=
  set_vmas ((fun v => if (start v <? to) && (from <? end_ v) then with_prot p v else v) <$> vmas m) m.

(** The parts of [v] outside [from .. to]. *)
Definition head_of (from : Z) (v : Vma) : list Vma :=
  if start v <? from then
    [mkVma (start v) from (prot v) (vflags v)
       ((fun f => mkFileMap (node f) (offset f) (Z.min (length f) (from - start v))) <$> file v)]
  else [].
Definition tail_of {S E} (to : Z) (v : Vma) : M S E (list Vma) :=
  if to <? end_ v then
    match file v with
    | None => ret [mkVma to (end_ v) (prot v) (vflags v) None]
    | Some f =>
        let skipped := to - start v in
        let! offset := u64 (offset f + skipped) in
        ret [mkVma to (end_ v) (prot v) (vflags v) (Some (mkFileMap (node f) offset (saturating_sub (length f) skipped)))]
    end
  else ret [].
Fixpoint cut_vmas {S E} (from to : Z) (l : list Vma) : M S E (list Vma) :=
  match l with
  | [] => ret []
  | v :: l =>
      if (end_ v <=? from) || (to <=? start v) then
        let! rest := cut_vmas from to l in ret (v :: rest)
      else
        let! tail := tail_of to v in
        let! rest := cut_vmas from to l in
        ret (head_of from v ++ tail ++ rest)
  end.
Definition remove_vma_range {S E} (from to : Z) (m : MemState) : M S E MemState :=
  let! l := cut_vmas from to (vmas m) in ret (set_vmas l m).

(** A region passed is not met again, so the loop turns at most once for each. *)
Definition find_free_region {S E} (len : Z) (m : MemState) : M S E (Z * MemState) :=
  let! len := page_align_up len in
  loop (Datatypes.S (Datatypes.length (vmas m))) (fun candidate =>
    let! to := u64 (candidate + len) in
    match List.find (fun v => (start v <? to) && (candidate <? end_ v)) (vmas m) with
    | Some v => ret (inl (end_ v))
    | None => ret (inr (candidate, set_mmap_top to m))
    end) (mmap_top m).

Definition virtual_size {S E} (m : MemState) : M S E Z :=
  let! regions := (fix sum l := match l with
                                | [] => ret 0
                                | v :: l => let! d := u64 (end_ v - start v) in let! n := sum l in u64 (d + n)
                                end) (vmas m) in
  u64 (regions + saturating_sub (brk m) (brk_start m)).

(** ** The machine, and one turn of a lock

    [retired] are the frames the guard holds back; the [Tlb] of the guard is the
    one of the walk. *)

Record Sys := mkSys { walk : Walk; retired : list Z; mems : gmap Z MemState }.
Definition set_walk (w : Walk) (s : Sys) : Sys := mkSys w (retired s) (mems s).
Definition set_retired (l : list Z) (s : Sys) : Sys := mkSys (walk s) l (mems s).
Definition set_mems (l : gmap Z MemState) (s : Sys) : Sys := mkSys (walk s) (retired s) l.

Definition on_walk {E A} (m : M Walk E A) : M Sys E A := zoom walk set_walk m.
Definition phys_words (s : Sys) : gmap (Z * Z) Z := words (walk s).
Definition record_of (root : Z) (s : Sys) : MemState := default mem_new (mems s !! root).
Definition put_record {E} (root : Z) (m : MemState) : M Sys E unit := modify (fun s => set_mems (<[root := m]> (mems s)) s).

(** [Frame]s dropped one after the other. *)
Definition drop_frames {E} (l : list Z) : M Sys E unit := on_walk (mapM_ machine_free l).

(** [MmGuard::flush]: the invalidation, then the frames that waited on it. *)
Definition guard_flush {E} : M Sys E unit :=
  on_walk tlb_flush ;;;
  let! l := gets retired in
  drop_frames l ;;;
  modify (set_retired []).

Definition retire {E} (stale : list Z) : M Sys E unit :=
  let! l := gets retired in
  (if RETIRED_MAX <? len l + len stale then guard_flush else ret tt) ;;;
  modify (fun s => set_retired (retired s ++ stale) s).

(** [self.lock()], with the guard dropped at the end. An error leaves through
    the same drop. *)
Definition locked {E A} (m : M Sys E A) : M Sys E A :=
  modify (fun s => set_retired [] (set_walk (set_tlb Clean (walk s)) s)) ;;;
  let! r := try_ m in
  guard_flush ;;;
  match r with inl a => ret a | inr e => throw e end.

(** A call that is lent the stock [l]: what it came to, and what is left. *)
Definition with_stock {E E' A} (l : list Z) (m : M Walk E A) : M Sys E' ((A + E) * list Z) :=
  on_walk (fun w => match m (set_stock l w) with
                    | (w', Ok a) => (w', Ok (inl a, stock w'))
                    | (w', Err e) => (w', Ok (inr e, stock w'))
                    | (w', Stuck x) => (w', Stuck x)
                    end).

(** ** A page on its way in *)

Record Prepared := mkPrepared { page : option Z; tables : list Z }.

(** [alloc_zeroed] for each of [n] tables: [inr] is what was taken when there
    are no more. *)
Fixpoint take_tables {E} (n : nat) (l : list Z) : M Sys E (list Z + list Z) :=
  match n with
  | O => ret (inl l)
  | S n =>
      let! p := on_walk alloc_zeroed in
      match p with
      | Some phys => take_tables n (phys :: l)
      | None => ret (inr l)
      end
  end.

(** Dropping one gives back what is left in it. *)
Definition give_back {E} (p : Prepared) : M Sys E unit := drop_frames (option_list (page p) ++ tables p).

Definition prepared_new {E} (n : Z) : M Sys E (option Prepared) :=
  let! p := on_walk alloc_zeroed in
  match p with
  | None => ret None
  | Some phys =>
      let! l := take_tables (Nat.min (Z.to_nat n) DEPTH) [] in
      match l with
      | inl l => ret (Some (mkPrepared (Some phys) l))
      | inr l => give_back (mkPrepared (Some phys) l) ;;; ret None
      end
  end.

Definition top_up {E} (want : Z) (p : Prepared) : M Sys E (Prepared * bool) :=
  let! l := take_tables (Nat.min (Z.to_nat want) DEPTH - Datatypes.length (tables p)) (tables p) in
  match l with
  | inl l => ret (mkPrepared (page p) l, true)
  | inr l => ret (mkPrepared (page p) l, false)
  end.

(** ** The calls of the guard *)

(** [commit] and [uncommit] of the page are the two ways [page] comes back. *)
Definition guard_publish {E} (root virt : Z) (p : Prepared) (fl : Z) : M Sys E (Prepared * (Z + Refused)) :=
  match page p with
  | None => fail_with Panic
  | Some phys =>
      let! '(done, unused) := with_stock (tables p) (publish root virt phys fl) in
      match done with
      | inl _ => ret (mkPrepared None unused, inl phys)
      | inr refused =>
          ret (mkPrepared (Some phys) unused, inr (match refused with ShortOfTables => ShortOfTables | _ => Occupied end))
      end
  end.

(** [Ok(stale)] is the frame to retire, [Err(frame)] the one handed back. *)
Definition guard_replace {E} (root virt frame fl : Z) : M Sys E (list Z + Z) :=
  let! old := on_walk (replace root virt frame fl) in
  match old with
  | Some old => ret (inl [old])
  | None => ret (inr frame)
  end.

Definition guard_protect {E} (root virt fl : Z) : M Sys E (option Z) := on_walk (protect root virt fl).

(** The page, and the tables its removal emptied. *)
Definition guard_unmap {E} (root virt : Z) : M Sys E (option (list Z)) :=
  if negb (is_user_addr virt) then fail_with Panic
  else
    let! '(done, reclaimed) := with_stock [] (unmap (E := Empty_set) root virt) in
    match done with
    | inl (Some phys) => ret (Some (phys :: reclaimed))
    | inl None => ret None
    | inr e => match e with end
    end.

Definition pages_from (from to : Z) : list Z := (fun i => from + i * PAGE) <$> seqZ 0 (div_ceil (to - from) PAGE).

(** [while page < end]. *)
Definition unmap_range {E} (root from to : Z) : M Sys E unit :=
  mapM_ (fun at_ =>
           let! stale := guard_unmap root at_ in
           match stale with Some l => retire l | None => ret tt end ;;;
           let! _ := u64 (at_ + PAGE) in ret tt) (pages_from from to).

Inductive Source := Zero | OfFile (n : V) (off want : Z).
Record Plan := mkPlan { p_flags : Z; source : Source; p_tables : Z }.

Definition in_heap (m : MemState) (at_ : Z) : bool := (brk_start m <=? at_) && (at_ <? brk m).

Definition heap_flags : Z := Z.lor (Z.lor (Z.lor PRESENT WRITABLE) USER) NO_EXECUTE.

Definition plan {E} (root at_ : Z) : M Sys E (option Plan) :=
  let! w := gets phys_words in
  let! m := gets (record_of root) in
  let n := missing_tables w root at_ in
  if in_heap m at_ then ret (Some (mkPlan heap_flags Zero n))
  else
    match find_vma at_ m with
    | None => ret None
    | Some v =>
        match file v with
        | None => ret (Some (mkPlan (page_flags v) Zero n))
        | Some f =>
            let into := at_ - start v in
            if length f <=? into then ret (Some (mkPlan (page_flags v) Zero n))
            else
              let! off := u64 (offset f + into) in
              ret (Some (mkPlan (page_flags v) (OfFile (node f) off (Z.min (length f - into) PAGE)) n))
        end
    end.

Definition same_page_as (a b : Plan) : bool :=
  (p_flags a =? p_flags b) &&
  match source a, source b with
  | Zero, Zero => true
  | OfFile n o w, OfFile n' o' w' => bool_decide (n = n') && (o =? o') && (w =? w')
  | _, _ => false
  end.

Inductive Commit := Done | Already | Changed | Short.

Definition guard_commit {E} (root at_ : Z) (pl : Plan) (p : Prepared) : M Sys E (Prepared * Commit) :=
  let! w := gets phys_words in
  match translate w root at_ with
  | Some _ => ret (p, Already)
  | None =>
      let! now := plan root at_ in
      match now with
      | None => ret (p, Changed)
      | Some now =>
          if negb (same_page_as now pl) then ret (p, Changed)
          else
            let! '(p, done) := guard_publish root at_ p (p_flags pl) in
            ret (p, match done with inl _ => Done | inr ShortOfTables => Short | inr _ => Already end)
      end
  end.

(** ** The address space *)

(** The words a page is given: what the file has of it, and zeroes. *)
Definition le_word (bs : list Z) : Z := foldr (fun b acc => b + 256 * acc) 0 bs.
Definition write_page (phys : Z) (bs : list Z) (w : gmap (Z * Z) Z) : gmap (Z * Z) Z :=
  foldr (fun iw w => <[(phys, iw.1) := iw.2]> w) w (zip (seqZ 0 512) (le_word <$> chunks 8 bs)).

Definition fill {E} (pl : Plan) (p : Prepared) : M Sys E bool :=
  match source pl with
  | Zero => ret true
  | OfFile n off want =>
      match contents n, page p with
      | inr _, _ => ret false
      | _, None => fail_with Panic
      | inl data, Some phys =>
          let bs := take (Z.to_nat want) (drop (Z.to_nat off) data) in
          on_walk (modify (fun w => set_words (write_page phys bs (words w)) w)) ;;;
          ret true
      end
  end.

(** One of the tries of [fault_in]: [None] asks for another. *)
Definition fault_try {E} (root at_ : Z) : M Sys E (option bool) :=
  let! first := locked (
    let! w := gets phys_words in
    match translate w root at_ with
    | Some _ => ret (inl true)
    | None => let! pl := plan root at_ in ret (match pl with Some pl => inr pl | None => inl false end)
    end) in
  match first with
  | inl r => ret (Some r)
  | inr pl =>
      let! p := prepared_new (p_tables pl) in
      match p with
      | None => ret (Some false)
      | Some p =>
          let! filled := fill pl p in
          if negb filled then give_back p ;;; ret (Some false)
          else
            let! '(p, outcome) := locked (guard_commit root at_ pl p) in
            give_back p ;;;
            ret (match outcome with Done | Already => Some true | Changed | Short => None end)
      end
  end.
Fixpoint fault_tries {E} (n : nat) (root at_ : Z) : M Sys E bool :=
  match n with
  | O => ret false
  | S n => let! r := fault_try root at_ in match r with Some r => ret r | None => fault_tries n root at_ end
  end.
Definition fault_in {E} (root addr : Z) : M Sys E bool := fault_tries 8 root (page_align_down addr).

(** [unmap_pages], a chunk of pages for each turn of the lock. *)
Definition chunks_from (from to : Z) : list Z :=
  (fun i => from + i * (UNMAP_CHUNK * PAGE)) <$> seqZ 0 (div_ceil (to - from) (UNMAP_CHUNK * PAGE)).
Definition unmap_pages {E} (root from to : Z) : M Sys E unit :=
  mapM_ (fun at_ => let! stop := u64 (at_ + UNMAP_CHUNK * PAGE) in locked (unmap_range root at_ (Z.min to stop))) (chunks_from from to).

Definition unmap_recorded {E} (root from to : Z) : M Sys E unit :=
  locked (let! m := gets (record_of root) in let! m := remove_vma_range from to m in put_record root m) ;;;
  unmap_pages root from to.

Fixpoint publish_tries {E} (n : nat) (root virt : Z) (p : Prepared) (fl : Z) : M Sys E (Prepared * (Z + Refused)) :=
  match n with
  | O => ret (p, inr ShortOfTables)
  | S n =>
      let! missing := locked (gets (fun s => missing_tables (phys_words s) root virt)) in
      let! '(p, enough) := (if len (tables p) <? missing then top_up missing p else ret (p, true)) in
      if negb enough then ret (p, inr ShortOfTables)
      else
        let! '(p, done) := locked (guard_publish root virt p fl) in
        match done with
        | inr ShortOfTables => publish_tries n root virt p fl
        | done => ret (p, done)
        end
  end.
Definition publish_page {E} (root virt : Z) (p : Prepared) (fl : Z) : M Sys E (Prepared * (Z + Refused)) :=
  publish_tries TOP_UP_TRIES root virt p fl.

(** [copy_nonoverlapping] of a page through the direct map. *)
Definition copy_frame (from to : Z) (w : gmap (Z * Z) Z) : gmap (Z * Z) Z :=
  foldr (fun i w' => <[(to, i) := read w from i]> w') w (seqZ 0 512).

Definition unshare (fl : Z) : Z := Z.lor (Z.land fl (not64 COW)) WRITABLE.

(** What is done under the lock: whether a write may be made, and what was not
    used of [spare]. *)
Definition cow_section {E} (root at_ : Z) (spare : option Z) : M Sys E (bool * list Z) :=
  let! w := gets phys_words in
  match flags_of w root at_ with
  | None => ret (false, option_list spare)
  | Some fl =>
      if negb (has COW fl) then ret (has WRITABLE fl && has USER fl, option_list spare)
      else
        match page_align_down <$> translate w root at_ with
        | None => ret (false, option_list spare)
        | Some phys =>
            let! n := on_walk (machine_references phys) in
            if n <=? 1 then
              let! r := guard_protect root at_ (unshare fl) in
              ret (bool_decide (is_Some r), option_list spare)
            else
              match spare with
              | None => ret (false, [])
              | Some copy =>
                  on_walk (modify (fun w => set_words (copy_frame phys copy (words w)) w)) ;;;
                  let! r := guard_replace root at_ copy (unshare fl) in
                  match r with
                  | inl stale => retire stale ;;; ret (true, [])
                  | inr frame => ret (false, [frame])
                  end
              end
        end
  end.

Definition break_cow {E} (root addr : Z) : M Sys E bool :=
  let at_ := page_align_down addr in
  let! spare := on_walk (in_pool alloc) in
  let! '(r, unused) := locked (cow_section root at_ spare) in
  drop_frames unused ;;;
  ret r.

(** [Mm::new_user], with [PageTables::new_user]: the kernel's half is the one of
    the table at [kernel]. *)
Definition new_user {E} (kernel : Z) : M Sys E (option Z) :=
  let! root := on_walk alloc_zeroed in
  match root with
  | None => ret None
  | Some root =>
      on_walk (adopt_top root kernel 256 ENTRIES) ;;;
      put_record root mem_new ;;;
      ret (Some root)
  end.

(** The last reference to an address space goes, with the processor on the
    tables at [live]. *)
Definition drop_mm {E} (live root : Z) : M Sys E unit :=
  if root =? live then fail_with Panic
  else
    on_walk (free_below root USER_LIMIT) ;;;
    on_walk (machine_free root) ;;;
    modify (fun s => set_mems (delete root (mems s)) s).

(** The pieces of a block, each under the locks of both spaces: what is left of
    the stock, and whether it all went in. *)
Fixpoint fork_pieces {E} (pieces : list Z) (child parent : Z) (st : list Z) : M Sys E (list Z * bool) :=
  match pieces with
  | [] => ret (st, true)
  | piece :: pieces =>
      let! '(done, st) := locked (with_stock st (share_range child parent piece UNMAP_CHUNK)) in
      match done with
      | inl _ => fork_pieces pieces child parent st
      | inr _ => ret (st, false)
      end
  end.

(** One turn of the loop of [fork]: [inr] is how it ends. The frames of a stock
    that could not be filled stay where they are. *)
Definition fork_turn {E} (live child parent at_ : Z) : M Sys E (Z + bool) :=
  if negb (at_ <? USER_LIMIT) then ret (inr true)
  else
    let! block := locked (on_walk (next_populated parent at_ USER_LIMIT)) in
    match block with
    | None => ret (inr true)
    | Some block =>
        let! st := take_tables DEPTH [] in
        match st with
        | inr _ => ret (inr false)
        | inl st =>
            let! '(st, done) :=
              fork_pieces ((fun i => block + i * (UNMAP_CHUNK * PAGE)) <$> seqZ 0 4) child parent st in
            drop_frames st ;;;
            if negb done then ret (inr false)
            else
              match checked_add64 block (level_size 1) with
              | Some next => ret (inl next)
              | None => ret (inr false)
              end
        end
    end.
Definition fork {E} (kernel live parent : Z) : M Sys E (option Z) :=
  let! child := new_user kernel in
  match child with
  | None => ret None
  | Some child =>
      let! done := long_loop 28 (fork_turn live child parent) 0 in
      if negb done then drop_mm live child ;;; ret None
      else
        let! m := gets (record_of parent) in
        put_record child m ;;;
        ret (Some child)
  end.

(** ** System calls ([kernel/src/syscall/mem.rs]) *)

Definition in_user_space (a n : Z) : bool :=
  match checked_add64 a n with
  | Some to => is_user_addr a && is_user_addr (saturating_sub to 1)
  | None => false
  end.

Definition prot_to_flags (p : Z) : Z :=
  let bits := Z.lor PRESENT USER in
  let bits := if has PROT_WRITE p then Z.lor bits WRITABLE else bits in
  if has PROT_EXEC p then bits else Z.lor bits NO_EXECUTE.

Definition sys_brk (root request : Z) : M Sys Errno Z :=
  let! first := locked (
    let! m := gets (record_of root) in
    if (request =? 0) || (request <? brk_start m) then ret (inl (brk m))
    else
      let! new_brk := page_align_up request in
      if USER_MMAP_BASE <? new_brk then ret (inl (brk m))
      else
        put_record root (set_brk new_brk m) ;;;
        ret (if brk m <=? new_brk then inl new_brk else inr (new_brk, brk m))) in
  match first with
  | inl r => ret r
  | inr (new_brk, current) => unmap_pages root new_brk current ;;; ret new_brk
  end.

(** [populate_from_file]: one page of it. Whatever is left of [fresh] goes back
    before an error leaves. *)
Definition populate_page (root : Z) (n : V) (base off bits at_ : Z) : M Sys Errno unit :=
  let! fresh := prepared_new 0 in
  let! fresh := ok_or fresh ENOMEM in
  let refuse e := give_back fresh ;;; throw e in
  match checked_add64 off (at_ - base) with
  | None => refuse EINVAL
  | Some from =>
      match contents n, page fresh with
      | inr e, _ => refuse e
      | _, None => fail_with Panic
      | inl data, Some phys =>
          let bs := take (Z.to_nat PAGE) (drop (Z.to_nat from) data) in
          on_walk (modify (fun w => set_words (write_page phys bs (words w)) w)) ;;;
          let! '(fresh, done) := publish_page root at_ fresh bits in
          give_back fresh ;;;
          match done with
          | inl _ | inr Occupied => let! _ := u64 (at_ + PAGE) in ret tt
          | inr _ => throw ENOMEM
          end
      end
  end.
Definition populate_from_file (root : Z) (n : V) (base size off bits : Z) : M Sys Errno unit :=
  let! to := u64 (base + size) in
  mapM_ (populate_page root n base off bits) (pages_from base to).

(** Where a mapping goes, and its region recorded there: one turn of the lock. *)
Definition place (root a size p fl : Z) (map : option FileMap) : M Sys Errno Z :=
  locked (
    let! m := gets (record_of root) in
    let hint := page_align_down a in
    let! '(base, m) :=
      if has MAP_FIXED fl then ret (a, m)
      else if negb (hint =? 0) && (USER_MMAP_BASE <=? hint) && in_user_space hint size && range_is_free hint (hint + size) m
        then ret (hint, m)
      else find_free_region size m in
    let! to := u64 (base + size) in
    put_record root (set_vmas (vmas m ++ [mkVma base to p fl map]) m) ;;;
    ret base).

(** [mmap], where [open] is what the descriptor table says of a descriptor. *)
Definition sys_mmap (open : Z -> V + Errno) (root a n p fl fd off : Z) : M Sys Errno Z :=
  if (n =? 0) || (MAX_MAPPING <? n) then throw EINVAL
  else
    let! size := page_align_up n in
    let! map :=
      if has MAP_ANONYMOUS fl || (fd <? 0) then ret None
      else match open fd with inl v => ret (Some (mkFileMap v off size)) | inr e => throw e end in
    (if has MAP_FIXED fl then
       if (a =? 0) || negb (Z.land a (PAGE - 1) =? 0) || negb (in_user_space a size) then throw EINVAL
       else
         let! to := u64 (a + size) in
         let! to := page_align_up to in
         unmap_recorded root (page_align_down a) to
     else ret tt) ;;;
    let! base := place root a size p fl map in
    match map with
    | None => ret base
    | Some f =>
        let! done := try_ (populate_from_file root (node f) base size off (prot_to_flags p)) in
        match done with
        | inl _ => ret base
        | inr e => let! to := u64 (base + size) in unmap_recorded root base to ;;; throw e
        end
    end.

Definition sys_munmap (root a n : Z) : M Sys Errno Z :=
  if (n =? 0) || negb (Z.land a (PAGE - 1) =? 0) || negb (in_user_space a n) then throw EINVAL
  else
    let! to := u64 (a + n) in
    let! to := page_align_up to in
    unmap_recorded root (page_align_down a) to ;;;
    ret 0.

(** One page of [mprotect]. *)
Definition retag {E} (root bits at_ : Z) : M Sys E unit :=
  let! w := gets phys_words in
  match flags_of w root at_ with
  | None => ret tt
  | Some existing =>
      let bits := if has COW existing then Z.lor (Z.land bits (not64 WRITABLE)) COW else bits in
      let! _ := guard_protect root at_ bits in ret tt
  end.

Definition sys_mprotect (root a n p : Z) : M Sys Errno Z :=
  if negb (Z.land a (PAGE - 1) =? 0) || negb (in_user_space a n) then throw EINVAL
  else
    let from := page_align_down a in
    let! to := u64 (a + n) in
    let! to := page_align_up to in
    let bits := prot_to_flags p in
    locked (let! m := gets (record_of root) in put_record root (set_vma_prot from to p m)) ;;;
    mapM_ (fun at_ => locked (mapM_ (retag root bits) (pages_from at_ (Z.min to (at_ + ENTRIES * PAGE)))))
      ((fun i => from + i * (ENTRIES * PAGE)) <$> seqZ 0 (div_ceil (to - from) (ENTRIES * PAGE))) ;;;
    ret 0.
End space.
Arguments FileMap : clear implicits.
Arguments Vma : clear implicits.
Arguments MemState : clear implicits.
Arguments Sys : clear implicits.
Arguments Source : clear implicits.
Arguments Plan : clear implicits.

(** * The record of regions

    [region_at] is what the record says of a page: its protection, its flags, and
    what of which file it is made of. [remove_vma_range] takes away what it says
    of a range and nothing else; [find_free_region] ends, with a range no region
    meets. *)

Section regions.
Context {P : Paging} {V : Type} {FV : Files V}.

Definition file_ok (v : Vma V) (f : FileMap V) : Prop := 0 <= offset f /\ 0 <= length f /\ offset f + (end_ v - start v) <= u64_max.
Definition vma_ok (v : Vma V) : Prop :=
  0 <= start v < end_ v /\ start v `mod` PAGE = 0 /\ end_ v `mod` PAGE = 0 /\ forall f, file v = Some f -> file_ok v f.

(** What a page of a region comes from: a file, where in it, and how much. *)
Definition backing (v : Vma V) (a : Z) : option (V * Z * Z) :=
  match file v with
  | None => None
  | Some f => let into := a - start v in if length f <=? into then None else Some (node f, offset f + into, Z.min (length f - into) PAGE)
  end.
Definition said (v : Vma V) (a : Z) : Z * Z * option (V * Z * Z) := (prot v, vflags v, backing v a).
Definition region_in (l : list (Vma V)) (a : Z) : option (Z * Z * option (V * Z * Z)) := (fun v => said v a) <$> List.find (fun v => contains v a) l.
Definition region_at (m : MemState V) (a : Z) : option (Z * Z * option (V * Z * Z)) := region_in (vmas m) a.

Lemma region_cons v l a : region_in (v :: l) a = if contains v a then Some (said v a) else region_in l a.
Proof. unfold region_in. cbn. by destruct (contains v a). Qed.

Lemma region_app l l' a : region_in (l ++ l') a = match region_in l a with Some x => Some x | None => region_in l' a end.
Proof. induction l as [|v l IH]; [done|]. cbn [app]. rewrite !region_cons, IH. by destruct (contains v a). Qed.

Lemma contains_spec (v : Vma V) a : contains v a = true <-> start v <= a < end_ v.
Proof. unfold contains. rewrite andb_true_iff. lia. Qed.

(** The part below [from]. *)
Lemma head_of_ok from v : vma_ok v -> 0 <= from < end_ v -> from `mod` PAGE = 0 -> Forall vma_ok (head_of from v).
Proof.
  intros (H1 & H2 & H3 & H4) Hf Hal. unfold head_of. destruct (Z.ltb_spec (start v) from); [|constructor]. constructor; [|constructor].
  split_and!; cbn; [lia|lia|done|done|]. intros f. destruct (file v) as [g|] eqn:E; [|done]. cbn. intros [= <-].
  destruct (H4 g eq_refl) as (? & ? & ?). unfold file_ok. cbn. lia.
Qed.

Lemma head_of_says from v a : vma_ok v -> from < end_ v -> from `mod` PAGE = 0 -> a `mod` PAGE = 0 ->
  region_in (head_of from v) a = if contains v a && (a <? from) then Some (said v a) else None.
Proof.
  intros (H1 & H2 & H3 & H4) Hf Hal Ha. unfold head_of. destruct (Z.ltb_spec (start v) from).
  - unfold PAGE in *. rewrite region_cons. unfold contains. cbn [start end_]. destruct (Z.leb_spec (start v) a), (Z.ltb_spec a from), (Z.ltb_spec a (end_ v)); cbn; try done; try lia.
    f_equal. unfold said, backing. cbn [file prot vflags start]. destruct (file v) as [f|]; [|done]. cbn [fmap option_fmap option_map length node offset].
    destruct (H4 f eq_refl) as (? & ? & ?). f_equal. unfold PAGE.
    destruct (Z.leb_spec (Z.min (length f) (from - start v)) (a - start v)), (Z.leb_spec (length f) (a - start v)); try done; try lia. do 2 f_equal. lia.
  - clear H2 H3 Hal Ha. unfold contains. destruct (Z.leb_spec (start v) a), (Z.ltb_spec a (end_ v)), (Z.ltb_spec a from); cbn; done || lia.
Qed.

(** The part from [to] on. *)
Lemma wp_tail_of {S E} to v (X : S -> E -> Prop) (s : S) : vma_ok v -> start v < to -> to `mod` PAGE = 0 ->
  wp (tail_of to v) (fun s' l => s' = s /\ Forall vma_ok l /\
    forall a, a `mod` PAGE = 0 -> region_in l a = if contains v a && (to <=? a) then Some (said v a) else None) X s.
Proof.
  intros (H1 & H2 & H3 & H4) Ht Hal. unfold tail_of. destruct (Z.ltb_spec to (end_ v)).
  2: { apply wp_ret. split_and!; [done|constructor|]. intros a _. clear H2 H3 Hal. unfold contains. destruct (Z.leb_spec (start v) a), (Z.ltb_spec a (end_ v)), (Z.leb_spec to a); cbn; done || lia. }
  assert (Hsays : forall v', start v' = to -> end_ v' = end_ v -> (forall a, to <= a < end_ v -> said v' a = said v a) ->
    forall a, a `mod` PAGE = 0 -> region_in [v'] a = if contains v a && (to <=? a) then Some (said v a) else None).
  { intros v' E1 E2 Hs a _. clear H2 H3 Hal. rewrite region_cons. unfold contains. rewrite E1, E2.
    destruct (Z.leb_spec (start v) a), (Z.ltb_spec a (end_ v)), (Z.leb_spec to a); cbn; try done; try lia. rewrite Hs by lia. done. }
  destruct (file v) as [f|] eqn:Ef.
  - destruct (H4 f eq_refl) as (F1 & F2 & F3). apply wp_bind, wp_checked; [clear H2 H3 Hal; lia|]. apply wp_ret. split_and!; [done| |].
    + constructor; [|constructor]. split_and!; cbn; [lia|lia|done|done|]. intros g [= <-]. unfold file_ok. cbn. unfold saturating_sub. lia.
    + apply Hsays; [done..|]. intros a Ha. clear H2 H3 Hal Hsays. unfold said, backing. cbn. rewrite Ef. cbn. f_equal. unfold saturating_sub.
      destruct (Z.leb_spec (Z.max 0 (length f - (to - start v))) (a - to)), (Z.leb_spec (length f) (a - start v)); try done; try lia. f_equal. f_equal; [f_equal|]; lia.
  - apply wp_ret. split_and!; [done| |].
    + constructor; [|constructor]. split_and!; cbn; [lia|lia|done..].
    + apply Hsays; [done..|]. intros a Ha. unfold said, backing. cbn. by rewrite Ef.
Qed.

Lemma wp_cut_vmas {S E} from to l : forall (X : S -> E -> Prop) (s : S),
  Forall vma_ok l -> 0 <= from <= to -> from `mod` PAGE = 0 -> to `mod` PAGE = 0 ->
  wp (cut_vmas from to l) (fun s' l' => s' = s /\ Forall vma_ok l' /\
    forall a, a `mod` PAGE = 0 -> region_in l' a = if decide (from <= a < to) then None else region_in l a) X s.
Proof.
  induction l as [|v l IH]; intros X s Hl Hr Hf Ht.
  { apply wp_ret. split_and!; [done|constructor|]. intros a _. by case_decide. }
  apply Forall_cons in Hl as [Hv Hl]. cbn [cut_vmas]. destruct ((end_ v <=? from) || (to <=? start v)) eqn:E1.
  - apply wp_bind. eapply wp_mono; [by apply (IH X s)| |done]. intros s' l' (-> & Hok & Hs). apply wp_ret. split_and!; [done|by constructor|].
    intros a Ha. rewrite !region_cons, Hs by done. destruct (contains v a) eqn:Ec; [|done]. apply contains_spec in Ec. rewrite decide_False; [done|]. clear -E1 Ec Hr. lia.
  - assert (Hin : start v < to /\ from < end_ v) by (clear -E1; lia). apply wp_bind.
    eapply wp_mono; [apply (wp_tail_of to v (fun _ (_ : E) => False) s); tauto| |done]. intros s1 tail (-> & Htok & Htail). apply wp_bind.
    eapply wp_mono; [by apply (IH (fun _ (_ : E) => False) s)| |done]. intros s' l' (-> & Hok & Hs). apply wp_ret. split_and!; [done| |].
    + apply Forall_app. split; [apply head_of_ok; tauto || (clear -Hin Hr; lia)|]. by apply Forall_app.
    + intros a Ha. rewrite !region_app, region_cons, Htail, head_of_says, Hs by tauto. destruct (contains v a) eqn:Ec; cbn [andb]; [|done].
      clear -Hr. destruct (Z.ltb_spec a from), (Z.leb_spec to a); case_decide; done || lia.
Qed.

Lemma wp_remove_vma_range {S E} from to (m : MemState V) (X : S -> E -> Prop) (s : S) :
  Forall vma_ok (vmas m) -> 0 <= from <= to -> from `mod` PAGE = 0 -> to `mod` PAGE = 0 ->
  wp (remove_vma_range from to m) (fun s' m' => s' = s /\ m' = set_vmas (vmas m') m /\ Forall vma_ok (vmas m') /\
    forall a, a `mod` PAGE = 0 -> region_at m' a = if decide (from <= a < to) then None else region_at m a) X s.
Proof.
  intros Hm Hr Hf Ht. unfold remove_vma_range. apply wp_bind. eapply wp_mono; [by apply (wp_cut_vmas from to (vmas m) (fun _ (_ : E) => False) s)| |done].
  intros s' l (-> & Hl & Hs). by apply wp_ret.
Qed.

(** ** A place for a mapping *)

Definition ends_past (c : Z) (l : list (Vma V)) : nat := Datatypes.length (filter (fun v => c < end_ v) l).

Lemma ends_past_less c v l : v ∈ l -> c < end_ v -> (ends_past (end_ v) l < ends_past c l)%nat.
Proof.
  intros Hin Hc. unfold ends_past. induction l as [|x l IH]; [by apply elem_of_nil in Hin|].
  assert (Hle : (Datatypes.length (filter (fun y => (end_ v < end_ y)%Z) l) <= Datatypes.length (filter (fun y => (c < end_ y)%Z) l))%nat).
  { clear IH Hin. induction l as [|y l IH]; [done|]. rewrite !filter_cons. repeat case_decide; cbn; lia. }
  rewrite !filter_cons. apply elem_of_cons in Hin as [->|Hin].
  - rewrite (decide_False (P := end_ x < end_ x)), (decide_True (P := c < end_ x)) by lia. cbn. lia.
  - specialize (IH Hin). repeat case_decide; cbn; lia.
Qed.

Lemma wp_find_free_region {S E} n (m : MemState V) top (X : S -> E -> Prop) (s : S) :
  0 < n -> n + 4096 <= u64_max -> 0 <= mmap_top m <= top -> (forall v, v ∈ vmas m -> end_ v <= top) -> top + n + 4096 <= u64_max ->
  wp (find_free_region n m) (fun s' '(at_, m') => s' = s /\ exists size, rounded_up n PAGE size /\
    m' = set_mmap_top (at_ + size) m /\ mmap_top m <= at_ <= top /\ range_is_free at_ (at_ + size) m = true) X s.
Proof.
  intros Hn Hmax Htop Hends Hroom. unfold find_free_region. apply wp_bind. unfold page_align_up, PAGE_SIZE. change 4096 with (2 ^ 12).
  apply wp_align_up; [lia|lia|change (2 ^ 12) with 4096; lia|]. intros size Hsize. change (2 ^ 12) with 4096 in Hsize.
  assert (Hs : n <= size < n + 4096) by apply Hsize.
  apply (wp_loop (fun c s' => s' = s /\ mmap_top m <= c <= top) (fun c _ => ends_past c (vmas m))).
  - intros c s' [-> Hc]. apply wp_bind, wp_checked; [lia|]. destruct (List.find _ _) as [v|] eqn:Ef.
    + apply List.find_some in Ef as [Hin%list_elem_of_In Hb]. apply wp_ret. split_and!; [done|lia|by apply Hends|]. apply ends_past_less; [done|lia].
    + apply wp_ret. split; [done|]. exists size. split_and!; [done|done|lia|lia|]. unfold range_is_free. apply forallb_forall. intros v Hv.
      pose proof (List.find_none _ _ Ef v Hv). cbn in *. lia.
  - split; [done|lia].
  - unfold ends_past. pose proof (length_filter (fun v => mmap_top m < end_ v) (vmas m)). lia.
Qed.

Lemma region_free l from to a : forallb (fun x => (end_ x <=? from) || (to <=? start x)) l = true -> from <= a < to -> region_in l a = None.
Proof.
  intros Hf Ha. unfold region_in. destruct (List.find _ l) as [x|] eqn:Ef; [|done]. apply List.find_some in Ef as [Hin Hx%contains_spec].
  rewrite forallb_forall in Hf. specialize (Hf x Hin). lia.
Qed.

(** A region in a range that was free. *)
Lemma region_new l v a :
  forallb (fun x => (end_ x <=? start v) || (end_ v <=? start x)) l = true ->
  region_in (l ++ [v]) a = if contains v a then Some (said v a) else region_in l a.
Proof.
  intros Hf. rewrite region_app, region_cons. destruct (contains v a) eqn:Ec; [|by destruct (region_in l a)].
  by rewrite (region_free l _ _ a Hf (proj1 (contains_spec v a) Ec)).
Qed.

(** C15: [find_free_region] ends, for every record, and returns a place from the
    top of the last one on with room for the whole mapping that meets no region;
    the top moves past it. *)
Theorem free_region_found n (m : MemState V) top :
  0 < n -> n + 4096 <= u64_max -> 0 <= mmap_top m <= top -> (forall v, v ∈ vmas m -> end_ v <= top) -> top + n + 4096 <= u64_max ->
  wp (find_free_region n m) (fun _ '(at_, m') => exists size, rounded_up n PAGE size /\
    m' = set_mmap_top (at_ + size) m /\ mmap_top m <= at_ <= top /\ forall v a, v ∈ vmas m -> at_ <= a < at_ + size -> contains v a = false) (fun _ (_ : Empty_set) => False) tt.
Proof.
  intros H1 H2 H3 H4 H5. eapply wp_mono; [by apply (wp_find_free_region n m top (fun _ (_ : Empty_set) => False) tt)| |done].
  intros _ [at_ m'] (_ & size & Hs & Hm & Ha & Hf). exists size. split_and!; [done|done|lia|lia|]. intros v a Hv Hin. unfold range_is_free in Hf. rewrite forallb_forall in Hf.
  specialize (Hf v ltac:(by apply list_elem_of_In)). destruct (contains v a) eqn:Ec; [|done]. apply contains_spec in Ec. lia.
Qed.
End regions.
