(* ===== verification/SpaceSpec.v ===== *)
(** * What holds of all address spaces together

    [inv]: the tables of every address space are in order, every frame has as
    many references as there are descriptors and owners that name it, a frame
    with two mappings is writable through neither, and what the processor keeps
    of the tables is what they hold or is noted to be thrown away. Every section
    under a lock keeps it. *)

From stdpp Require Import gmap.
From S2P Require Import Prelude Words Handoff Frame FrameSpec FrameAlloc FrameOwners Walk WalkSpec Space.

(** The half a program owns. *)
Definition user_half (i : Z) : bool := i <? 256.

Lemma user_owned v : 0 <= v < USER_LIMIT -> owned user_half v.
Proof.
  intros Hv. change USER_LIMIT with (2 ^ 47) in Hv. split; [lia|]. unfold user_half. rewrite index_of_spec by lia.
  change (2 ^ (12 + 9 * 3)) with (2 ^ 39). apply Z.ltb_lt. assert (v / 2 ^ 39 < 256) by (apply Z.div_lt_upper_bound; lia).
  assert (0 <= v / 2 ^ 39) by (apply Z.div_pos; lia). rewrite Z.mod_small by lia. done.
Qed.

(** By address space, its tables and its pages. *)
Abbreviation Ghost := (gmap Z (gmap (Z * Z) Z * gmap Z Z)) (only parsing).

(** ** Counting handles *)

Lemma count_occ_occ l x : Z.of_nat (count_occ Z.eq_dec l x) = occ x l.
Proof. induction l as [|y l IH]; [done|]. rewrite occ_cons, <- IH. cbn. destruct (Z.eq_dec y x), (decide (x = y)); try congruence; lia. Qed.

Lemma perm_occ (l l' : list Z) : (forall x, occ x l = occ x l') -> l ≡ₚ l'.
Proof. intros H. apply (Permutation_count_occ Z.eq_dec). intros x. specialize (H x). rewrite <- !count_occ_occ in H. lia. Qed.

Lemma occ_nil x : occ x [] = 0.
Proof. done. Qed.

Lemma occ_not_in x l : x ∉ l -> occ x l = 0.
Proof. intros H. pose proof (occ_nonneg x l). destruct (decide (0 < occ x l)) as [?%occ_pos|]; [done|lia]. Qed.

(** Two lists with the same members as often each, by counting them. *)
Ltac by_counting :=
  apply perm_occ; let x := fresh "x" in intros x;
  repeat match goal with H : Permutation _ _ |- _ => apply (occ_perm x) in H end;
  rewrite ?occ_app, ?occ_cons, ?occ_app, ?occ_cons, ?occ_nil in *; lia.

Section inv.
Context {P : Paging} {writes : Z -> bool} {PL : PagingLaws P writes} {V : Type} {FV : Files V}.
Context (r : Z -> bool) (nf : Z).

Definition space_frames (g : gmap (Z * Z) Z * gmap Z Z) : list Z := tab_frames g.1 ++ page_frames g.2.
Definition all_frames (G : Ghost) : list Z := concat (space_frames <$> (map_to_list G).*2).

Lemma all_frames_insert G root g : G !! root = None -> all_frames (<[root := g]> G) ≡ₚ space_frames g ++ all_frames G.
Proof. intros H. unfold all_frames. rewrite map_to_list_insert by done. done. Qed.

Lemma all_frames_delete G root g : G !! root = Some g -> all_frames G ≡ₚ space_frames g ++ all_frames (delete root G).
Proof. intros H. rewrite <- (insert_delete_id G root g H) at 1. apply all_frames_insert. apply lookup_delete_eq. Qed.

Lemma all_frames_update G root g g' :
  G !! root = Some g -> all_frames (<[root := g']> G) ≡ₚ space_frames g' ++ all_frames (delete root G).
Proof. intros H. rewrite <- insert_delete_eq. apply all_frames_insert, lookup_delete_eq. Qed.

(** Page [q] of address space [root] has descriptor [b]. *)
Definition slot (G : Ghost) (root q b : Z) : Prop := exists tabs maps, G !! root = Some (tabs, maps) /\ maps !! q = Some b.

(** A frame mapped twice is written through neither mapping, and it is the same
    page of two address spaces. *)
Definition cow_ok (G : Ghost) : Prop :=
  forall root q b root' q' b', slot G root q b -> slot G root' q' b' -> addr b = addr b' -> (root, q) <> (root', q') -> writes b = false /\ q' = q.

(** Flags of a program's page. *)
Definition user_flags (fl : Z) : Prop := has PRESENT fl = true /\ has USER fl = true.

(** What has been noted to be thrown away. *)
Definition covers (t : Tlb) (q : Z) : Prop :=
  match t with Clean => False | Page v => page_of_virt v = q | All => True end.

(** The address space the processor is on. *)
Context (active : Z).

Record inv (G : Ghost) (rest : list Z) (s : Walk) : Prop := {
  i_hier root tabs maps : G !! root = Some (tabs, maps) -> hier user_half (words s) root tabs maps;
  i_owners : owners r nf s (all_frames G ++ rest);
  i_alone root tabs maps t : G !! root = Some (tabs, maps) -> t ∈ tab_frames tabs -> occ t (all_frames G ++ rest) = 1;
  i_leaf root q b : slot G root q b -> exists fl, b = leaf_bits (addr b) fl /\ user_flags fl;
  i_cow : cow_ok G;
  i_cache q b : cached s !! q = Some b -> covers (tlb s) q \/ slot G active q b;
  i_frames : nf <= 2 ^ 36;
}.

(** Two mappings of a frame are two references to it. *)
Lemma occ_slots G root q b root' q' b' p :
  slot G root q b -> slot G root' q' b' -> (root, q) <> (root', q') -> addr b = p -> addr b' = p -> 2 <= occ p (all_frames G).
Proof.
  intros (tabs & maps & HG & Hq) (tabs' & maps' & HG' & Hq') Hne Hb Hb'.
  rewrite (occ_perm _ _ _ (all_frames_delete _ _ _ HG)). unfold space_frames. cbn [fst snd]. rewrite !occ_app.
  rewrite (occ_perm _ _ _ (page_frames_delete _ _ _ Hq)), occ_cons, decide_True by done.
  pose proof (occ_nonneg p (tab_frames tabs)). pose proof (occ_nonneg p (page_frames (delete q maps))). pose proof (occ_nonneg p (all_frames (delete root G))).
  destruct (decide (root' = root)) as [->|Hr].
  - rewrite HG in HG'. injection HG' as <- <-. assert (p ∈ page_frames (delete q maps)) as Hin%occ_pos; [|lia].
    apply page_frames_in. exists q', b'. split; [|done]. rewrite lookup_delete_ne; [done|congruence].
  - assert (p ∈ all_frames (delete root G)) as Hin%occ_pos; [|lia].
    rewrite (all_frames_delete (delete root G) root' (tabs', maps')) by (by rewrite lookup_delete_ne).
    apply elem_of_app. left. apply elem_of_app. right. apply page_frames_in. eauto.
Qed.

(** A frame with one reference, which is a mapping, has no other. *)
Lemma slot_alone G rest root q b root' q' b' :
  slot G root q b -> slot G root' q' b' -> addr b = addr b' -> occ (addr b) (all_frames G ++ rest) <= 1 -> (root, q) = (root', q').
Proof.
  intros H1 H2 E Ho. destruct (decide ((root, q) = (root', q'))) as [|Hne]; [done|]. exfalso.
  pose proof (occ_slots _ _ _ _ _ _ _ (addr b) H1 H2 Hne eq_refl (eq_sym E)). rewrite occ_app in Ho. pose proof (occ_nonneg (addr b) rest). lia.
Qed.

Lemma slot_frame G rest s root q b : inv G rest s -> slot G root q b -> addr b ∈ all_frames G /\ frame_addr (addr b).
Proof.
  intros Hi (tabs & maps & HG & Hq). assert (Hin : addr b ∈ all_frames G).
  { rewrite (all_frames_delete _ _ _ HG). apply elem_of_app. left. apply elem_of_app. right. apply page_frames_in. eauto. }
  split; [done|]. destruct (handle_held r nf _ _ (addr b) (i_owners _ _ _ Hi)) as (f & Hf & Hp & _); [apply elem_of_app; by left|].
  exists f. pose proof (i_frames _ _ _ Hi). unfold PAGE_SIZE in Hp. lia.
Qed.

(** The tables of an address space are no page of any, and no table of another. *)
Lemma table_alone G rest s root tabs maps t root' tabs' maps' :
  inv G rest s -> G !! root = Some (tabs, maps) -> t ∈ tab_frames tabs -> G !! root' = Some (tabs', maps') ->
  (t ∉ page_frames maps') /\ (root' <> root -> t ∉ tab_frames tabs').
Proof.
  intros Hi HG Ht HG'. pose proof (i_alone _ _ _ Hi _ _ _ _ HG Ht) as Ho. rewrite occ_app in Ho. pose proof (occ_nonneg t rest).
  rewrite (occ_perm _ _ _ (all_frames_delete _ _ _ HG)) in Ho. unfold space_frames in Ho. cbn [fst snd] in Ho. rewrite !occ_app in Ho.
  pose proof (occ_nonneg t (page_frames maps)). pose proof (occ_nonneg t (all_frames (delete root G))). apply occ_pos in Ht.
  destruct (decide (root' = root)) as [->|Hne].
  - rewrite HG in HG'. injection HG' as <- <-. split; [|done]. intros Hin%occ_pos. lia.
  - assert (Hn : t ∉ all_frames (delete root G)) by (intros Hin%occ_pos; lia).
    rewrite (all_frames_delete (delete root G) root' (tabs', maps')) in Hn by (by rewrite lookup_delete_ne).
    split; [intros Hin|intros _ Hin]; apply Hn, elem_of_app; left; apply elem_of_app; auto.
Qed.

Lemma root_in G rest s root tabs maps : inv G rest s -> G !! root = Some (tabs, maps) -> root ∈ tab_frames tabs.
Proof. intros Hi HG. apply tab_frames_in. exists (3, 0). by destruct (i_hier _ _ _ Hi _ _ _ HG). Qed.

(** ** One address space changes *)

Lemma slot_update G root tabs maps tabs' maps' root' q b :
  G !! root = Some (tabs, maps) ->
  slot (<[root := (tabs', maps')]> G) root' q b <-> if decide (root' = root) then maps' !! q = Some b else slot G root' q b.
Proof.
  intros HG. unfold slot. destruct (decide (root' = root)) as [->|Hne].
  - rewrite lookup_insert_eq. split; [intros (? & ? & [= <- <-] & ?); done|eauto].
  - rewrite lookup_insert_ne by done. done.
Qed.

(** The words of one address space's tables, and its maps, change; the handles
    are only moved. *)
Lemma inv_edit G rest s root tabs maps s' tabs' maps' rest' :
  inv G rest s -> G !! root = Some (tabs, maps) -> hier user_half (words s') root tabs' maps' -> pool s' = pool s ->
  (forall t i, t ∉ tab_frames tabs -> t ∉ tab_frames tabs' -> read (words s') t i = read (words s) t i) ->
  space_frames (tabs', maps') ++ rest' ≡ₚ space_frames (tabs, maps) ++ rest ->
  (forall t, t ∈ tab_frames tabs' -> t ∈ tab_frames tabs \/ occ t (all_frames G ++ rest) = 1) ->
  (forall q b, maps' !! q = Some b -> maps !! q = Some b \/ exists fl, b = leaf_bits (addr b) fl /\ user_flags fl) ->
  cow_ok (<[root := (tabs', maps')]> G) ->
  (forall q b, cached s' !! q = Some b -> covers (tlb s') q \/ slot (<[root := (tabs', maps')]> G) active q b) ->
  inv (<[root := (tabs', maps')]> G) rest' s'.
Proof.
  intros Hi HG Hh Hpool Hw Hperm Htabs Hleaf Hcow Hcache.
  assert (Hall : all_frames (<[root := (tabs', maps')]> G) ++ rest' ≡ₚ all_frames G ++ rest).
  { rewrite (all_frames_update _ _ _ _ HG), (all_frames_delete _ _ _ HG), <- !app_assoc.
    rewrite (Permutation_app_comm (all_frames _) rest'), (Permutation_app_comm (all_frames _) rest), !app_assoc. by rewrite Hperm. }
  assert (Hone : forall t, t ∈ tab_frames tabs' -> occ t (all_frames G ++ rest) = 1).
  { intros t Ht. destruct (Htabs t Ht) as [Ht'|]; [by apply (i_alone _ _ _ Hi _ _ _ _ HG)|done]. }
  split; try done.
  - intros root2 tabs2 maps2. rewrite lookup_insert_Some. intros [[<- [= <- <-]]|[Hne HG2]]; [done|].
    pose proof (i_hier _ _ _ Hi _ _ _ HG2) as Hh2. eapply hier_frame; [|exact Hh2]. intros k t i Hk.
    assert (Ht : t ∈ tab_frames tabs2) by (apply tab_frames_in; eauto). apply Hw.
    + by apply (table_alone _ _ _ _ _ _ _ _ _ _ Hi HG2 Ht HG).
    + intros Hin. specialize (Hone t Hin). rewrite <- (occ_perm _ _ _ Hall), occ_app in Hone. pose proof (occ_nonneg t rest').
      rewrite (occ_perm _ _ _ (all_frames_update _ _ _ _ HG)), occ_app in Hone. unfold space_frames at 1 in Hone. cbn [fst snd] in Hone. rewrite occ_app in Hone.
      pose proof (occ_nonneg t (page_frames maps')). apply occ_pos in Hin.
      assert (t ∈ all_frames (delete root G)) as Hin2%occ_pos; [|lia].
      rewrite (all_frames_delete (delete root G) root2 (tabs2, maps2)) by (by rewrite lookup_delete_ne). apply elem_of_app. left. apply elem_of_app. by left.
  - unfold owners. rewrite Hpool. eapply owners_perm; [|apply (i_owners _ _ _ Hi)]. by symmetry.
  - intros root2 tabs2 maps2 t. rewrite (occ_perm _ _ _ Hall), lookup_insert_Some. intros [[<- [= <- <-]]|[Hne HG2]] Ht; [by apply Hone|].
    by apply (i_alone _ _ _ Hi _ _ _ _ HG2).
  - intros root2 q b. rewrite (slot_update _ _ _ _ _ _ _ _ _ HG). destruct (decide (root2 = root)) as [->|]; [|apply Hi].
    intros Hq. destruct (Hleaf q b Hq) as [Hold|]; [|done]. apply (i_leaf _ _ _ Hi root q). by exists tabs, maps.
  - apply (i_frames _ _ _ Hi).
Qed.

Lemma cow_put G root tabs maps tabs' q b :
  G !! root = Some (tabs, maps) -> cow_ok G ->
  (forall root2 q2 b2, slot G root2 q2 b2 -> (root2, q2) <> (root, q) -> addr b2 = addr b -> writes b = false /\ writes b2 = false /\ q2 = q) ->
  cow_ok (<[root := (tabs', <[q := b]> maps)]> G).
Proof.
  intros HG Hc Hb.
  assert (Hs : forall r1 q1 b1, slot (<[root := (tabs', <[q := b]> maps)]> G) r1 q1 b1 ->
    ((r1, q1) = (root, q) /\ b1 = b) \/ ((r1, q1) <> (root, q) /\ slot G r1 q1 b1)).
  { intros r1 q1 b1. rewrite (slot_update _ _ _ _ _ _ _ _ _ HG). destruct (decide (r1 = root)) as [->|Hne].
    - destruct (decide (q1 = q)) as [->|]; [rewrite lookup_insert_eq; intros [= <-]; by left|]. rewrite lookup_insert_ne by done.
      intros Hq. right. split; [congruence|by exists tabs, maps].
    - intros H. right. split; [congruence|done]. }
  intros r1 q1 b1 r2 q2 b2 H1%Hs H2%Hs E Hne. destruct H1 as [[[= -> ->] ->]|[Hn1 H1]], H2 as [[[= -> ->] ->]|[Hn2 H2]].
  - done.
  - destruct (Hb r2 q2 b2) as (? & ? & ?); [done|done|done|]. by split.
  - destruct (Hb r1 q1 b1) as (? & ? & ?); [done|done|done|]. by split.
  - by apply (Hc r1 q1 b1 r2 q2 b2).
Qed.

Lemma cow_shrink G root tabs maps tabs' maps' :
  G !! root = Some (tabs, maps) -> cow_ok G -> maps' ⊆ maps -> cow_ok (<[root := (tabs', maps')]> G).
Proof.
  intros HG Hc Hsub. assert (Hs : forall r1 q1 b1, slot (<[root := (tabs', maps')]> G) r1 q1 b1 -> slot G r1 q1 b1).
  { intros r1 q1 b1. rewrite (slot_update _ _ _ _ _ _ _ _ _ HG). destruct (decide (r1 = root)) as [->|]; [|done].
    intros Hq. exists tabs, maps. split; [done|]. by eapply lookup_weaken. }
  intros r1 q1 b1 r2 q2 b2 H1%Hs H2%Hs. by apply Hc.
Qed.

Lemma covers_note t v q : covers t q -> covers (note v t) q.
Proof. destruct t as [|v'|]; cbn; [done| |done]. destruct (Z.eqb_spec v' v) as [->|]; done. Qed.
Lemma covers_noted t v : covers (note v t) (page_of_virt v).
Proof. destruct t as [|v'|]; cbn; [done| |done]. by destruct (Z.eqb_spec v' v). Qed.

(** What the processor keeps, after the descriptor of [v] alone changed. *)
Lemma cache_noted G rest s root tabs maps tabs' maps' v s' :
  inv G rest s -> G !! root = Some (tabs, maps) -> cached s' = cached s ->
  (forall q, covers (tlb s) q -> covers (tlb s') q) -> covers (tlb s') (page_of_virt v) ->
  (forall q, q <> page_of_virt v -> maps' !! q = maps !! q) ->
  forall q b, cached s' !! q = Some b -> covers (tlb s') q \/ slot (<[root := (tabs', maps')]> G) active q b.
Proof.
  intros Hi HG Hc Ht Hv Hm q b Hq. rewrite Hc in Hq. destruct (i_cache _ _ _ Hi q b Hq) as [H|(tb & mp & HA & Hb)]; [left; by apply Ht|].
  destruct (decide (q = page_of_virt v)) as [->|Hne]; [by left|right]. rewrite (slot_update _ _ _ _ _ _ _ _ _ HG).
  destruct (decide (active = root)) as [E|]; [|by exists tb, mp]. rewrite Hm by done. congruence.
Qed.

(** ** The calls of the walk *)

(** The frames of a stock: zeroed, and no one else's. *)
Definition spare_frames (G : Ghost) (rest : list Z) (s : Walk) (l : list Z) : Prop :=
  forall f, f ∈ l -> occ f (all_frames G ++ rest) = 1 /\ forall i, read (words s) f i = 0.

Lemma spare_stock G rest s root tabs maps :
  inv G (stock s ++ rest) s -> spare_frames G (stock s ++ rest) s (stock s) -> G !! root = Some (tabs, maps) -> stock_ok tabs s.
Proof.
  intros Hi Hs HG. split.
  - apply NoDup_ListNoDup. apply (NoDup_count_occ Z.eq_dec). intros f. destruct (decide (f ∈ stock s)) as [Hin|Hni].
    + destruct (Hs f Hin) as [Ho _]. rewrite !occ_app in Ho. pose proof (occ_nonneg f (all_frames G)). pose proof (occ_nonneg f rest).
      rewrite <- count_occ_occ in Ho. rewrite <- (count_occ_occ (stock s)) in Ho. lia.
    + rewrite (proj1 (count_occ_not_In Z.eq_dec (stock s) f)); [lia|]. by rewrite <- list_elem_of_In.
  - intros f Hf. destruct (Hs f Hf) as [Ho Hz]. split_and!; [| |done].
    + destruct (handle_held r nf _ _ f (i_owners _ _ _ Hi)) as (g & Hg & Hp & _); [apply elem_of_app; right; apply elem_of_app; by left|].
      exists g. pose proof (i_frames _ _ _ Hi). unfold PAGE_SIZE in Hp. lia.
    + intros Hin. rewrite !occ_app in Ho. apply occ_pos in Hf. pose proof (occ_nonneg f rest).
      assert (f ∈ all_frames G) as Hin2%occ_pos; [|lia]. rewrite (all_frames_delete _ _ _ HG). apply elem_of_app. left. apply elem_of_app. by left.
Qed.

(** [b], which names [phys], may be put in at page [q] of [root]: the other
    mappings of the frame are of the same page and not writable, and neither is [b]
    if there are any. *)
Definition may_map (G : Ghost) (root q b phys : Z) : Prop :=
  forall root2 q2 b2, slot G root2 q2 b2 -> (root2, q2) <> (root, q) -> addr b2 = phys -> writes b = false /\ writes b2 = false /\ q2 = q.

(** A frame that is only in the hands of its owner. *)
Lemma may_map_fresh G rest s root q b phys :
  inv G rest s -> phys ∈ rest -> occ phys (all_frames G ++ rest) <= 1 -> may_map G root q b phys.
Proof.
  intros Hi Hin%occ_pos Hone r2 q2 b2 Hs2 _ E. exfalso. destruct (slot_frame _ _ _ _ _ _ Hi Hs2) as [Hin2 _]. rewrite E in Hin2. apply occ_pos in Hin2.
  rewrite !occ_app in Hone. lia.
Qed.

Lemma handle_frame G rest s p : inv G rest s -> p ∈ all_frames G ++ rest -> frame_addr p /\ references p (pool s) = (pool s, Ok (occ p (all_frames G ++ rest))).
Proof.
  intros Hi Hin. destruct (handle_held r nf _ _ p (i_owners _ _ _ Hi) Hin) as (f & Hf & Hp & _ & _ & Hheld & Hrefs & _).
  pose proof (i_frames _ _ _ Hi). pose proof (i_owners _ _ _ Hi) as (Ha & Hn & _). cbn [allocator] in *. split.
  - exists f. unfold PAGE_SIZE in Hp. lia.
  - unfold references, bind, gets. rewrite Hp, page_of, Hn, (proj2 (Z.ltb_lt f nf)) by lia. unfold count_of.
    rewrite (proj1 (frame_count (pool s) f Ha ltac:(lia))). by rewrite Hrefs, Hp.
Qed.

(** The allocator alone says how often a frame is named. *)
Lemma same_pool_occ G rest s G' rest' s' f :
  inv G rest s -> inv G' rest' s' -> pool s = pool s' -> f ∈ all_frames G ++ rest -> f ∈ all_frames G' ++ rest' ->
  occ f (all_frames G ++ rest) = occ f (all_frames G' ++ rest').
Proof.
  intros Hi Hi' E H H'. destruct (handle_frame _ _ _ _ Hi H) as [_ E1]. destruct (handle_frame _ _ _ _ Hi' H') as [_ E2]. rewrite E in E1. congruence.
Qed.

(** What tables taken from the stock leave as it was, and what is left of it. *)
Lemma grown_else s s' tabs tabs' used : grown s s' tabs tabs' used ->
  forall t i, t ∉ tab_frames tabs -> t ∉ stock s -> read (words s') t i = read (words s) t i.
Proof.
  intros Hg t i Ht Hs. apply (g_else _ _ _ _ _ Hg). rewrite (g_frames _ _ _ _ _ Hg), elem_of_app. intros [Hu|]; [|done].
  apply Hs. rewrite (g_stock _ _ _ _ _ Hg). apply elem_of_app. by left.
Qed.

Lemma grown_tables G rest s s' tabs tabs' used : grown s s' tabs tabs' used -> spare_frames G rest s (stock s) ->
  forall t, t ∈ tab_frames tabs' -> t ∈ tab_frames tabs \/ occ t (all_frames G ++ rest) = 1.
Proof.
  intros Hg Hsp t. rewrite (g_frames _ _ _ _ _ Hg), elem_of_app. intros [Hu|]; [right|by left].
  apply Hsp. rewrite (g_stock _ _ _ _ _ Hg). apply elem_of_app. by left.
Qed.

Lemma grown_spare G rest s G' rest' s' s2 tabs tabs' used :
  grown s s2 tabs tabs' used -> inv G (stock s ++ rest) s -> spare_frames G (stock s ++ rest) s (stock s) ->
  pool s' = pool s2 -> words s' = words s2 -> stock s' = stock s2 -> inv G' (stock s' ++ rest') s' ->
  spare_frames G' (stock s' ++ rest') s' (stock s').
Proof.
  intros Hg Hi Hsp E1 E2 E3 Hi' f Hf. rewrite E2. rewrite E3 in Hf. destruct (g_ok _ _ _ _ _ Hg) as [_ Hz]. split; [|by apply Hz].
  rewrite (same_pool_occ G' (stock s' ++ rest') s' G _ s f Hi' Hi).
  - apply Hsp. rewrite (g_stock _ _ _ _ _ Hg). apply elem_of_app. by right.
  - by rewrite E1, (g_pool _ _ _ _ _ Hg).
  - rewrite E3. set_solver.
  - rewrite (g_stock _ _ _ _ _ Hg). set_solver.
Qed.

Lemma wp_inv_publish G rest s root tabs maps v phys fl :
  inv G (stock s ++ phys :: rest) s -> spare_frames G (stock s ++ phys :: rest) s (stock s) ->
  may_map G root (page_of_virt v) (leaf_bits phys fl) phys -> G !! root = Some (tabs, maps) -> 0 <= v < USER_LIMIT -> user_flags fl ->
  wp (publish root v phys fl)
    (fun s' _ => maps !! page_of_virt v = None /\ exists tabs',
       inv (<[root := (tabs', <[page_of_virt v := leaf_bits phys fl]> maps)]> G) (stock s' ++ rest) s' /\
       (exists used, stock s = used ++ stock s') /\ covers (tlb s') (page_of_virt v) /\
       (forall t i, t ∉ tab_frames tabs -> t ∉ stock s -> read (words s') t i = read (words s) t i) /\ tabs ⊆ tabs' /\
       spare_frames (<[root := (tabs', <[page_of_virt v := leaf_bits phys fl]> maps)]> G) (stock s' ++ rest) s' (stock s'))
    (fun s' e => (match e with Occupied => is_Some (maps !! page_of_virt v) | ShortOfTables => stock s' = [] | Blocked => False end) /\ exists tabs',
       inv (<[root := (tabs', maps)]> G) (stock s' ++ phys :: rest) s' /\
       (exists used, stock s = used ++ stock s') /\
       (forall t i, t ∉ tab_frames tabs -> t ∉ stock s -> read (words s') t i = read (words s) t i) /\ tabs ⊆ tabs' /\
       spare_frames (<[root := (tabs', maps)]> G) (stock s' ++ phys :: rest) s' (stock s')) s.
Proof.
  intros Hi Hsp Hmay HG Hv Hfl. pose proof (i_hier _ _ _ Hi _ _ _ HG) as Hh. pose proof (user_owned v Hv) as Hown.
  pose proof (spare_stock _ _ _ _ _ _ Hi Hsp HG) as Hst.
  assert (Hph : addr (leaf_bits phys fl) = phys).
  { apply addr_leaf. apply (handle_frame _ _ _ _ Hi). apply elem_of_app. right. apply elem_of_app. right. left. }
  eapply wp_mono; [apply (wp_publish_leaf user_half s root tabs maps v phys fl Hh Hown Hst (proj1 Hfl))| |].
  - intros s' _ (Hnone & tabs' & used & Hh' & Hg & Hlen & Htlb & _). split; [done|]. exists tabs'.
    assert (Hi' : inv (<[root := (tabs', <[page_of_virt v := leaf_bits phys fl]> maps)]> G) (stock s' ++ rest) s').
    { eapply inv_edit; [exact Hi|exact HG|exact Hh'|apply (g_pool _ _ _ _ _ Hg)| | | | | |].
      * intros t i Ht1 Ht2. by apply (g_else _ _ _ _ _ Hg).
      * unfold space_frames. cbn [fst snd]. rewrite page_frames_insert, Hph by done.
        pose proof (g_frames _ _ _ _ _ Hg). rewrite (g_stock _ _ _ _ _ Hg). cbn [stock set_tlb]. by_counting.
      * by apply (grown_tables _ _ _ _ _ _ _ Hg Hsp).
      * intros q b. rewrite lookup_insert_Some. intros [[<- <-]|[_ ?]]; [right|by left]. exists fl. by rewrite Hph.
      * apply (cow_put _ _ tabs maps); [done|apply Hi|]. by rewrite Hph.
      * eapply (cache_noted _ _ s _ _ _ _ _ v); [exact Hi|exact HG|apply (g_cached _ _ _ _ _ Hg)| | |].
        -- intros q Hq. rewrite Htlb. by apply covers_note.
        -- rewrite Htlb. apply covers_noted.
        -- intros q Hq. by rewrite lookup_insert_ne. }
    split_and!; [done|..].
    + exists used. apply (g_stock _ _ _ _ _ Hg).
    + rewrite Htlb. apply covers_noted.
    + exact (grown_else _ _ _ _ _ Hg).
    + apply (g_more _ _ _ _ _ Hg).
    + by eapply (grown_spare G (phys :: rest) s _ rest s' (set_tlb (tlb s) s') tabs tabs' used).
  - intros s' e (tabs' & used & Hh' & Hg & He). split.
    { destruct e; [apply He| |done]. destruct He as [-> _]. pose proof (g_stock _ _ _ _ _ Hg) as E. destruct (stock s'); [done|].
      apply (f_equal (@Datatypes.length Z)) in E. rewrite length_app in E. cbn in E. lia. }
    exists tabs'. assert (Hi' : inv (<[root := (tabs', maps)]> G) (stock s' ++ phys :: rest) s').
    { eapply inv_edit; [exact Hi|exact HG|exact Hh'|apply (g_pool _ _ _ _ _ Hg)| | | | | |].
      * intros t i Ht1 Ht2. by apply (g_else _ _ _ _ _ Hg).
      * unfold space_frames. cbn [fst snd]. pose proof (g_frames _ _ _ _ _ Hg). rewrite (g_stock _ _ _ _ _ Hg). by_counting.
      * by apply (grown_tables _ _ _ _ _ _ _ Hg Hsp).
      * auto.
      * apply (cow_shrink _ _ tabs maps); [done|apply Hi|done].
      * intros q b. rewrite (g_cached _ _ _ _ _ Hg), (g_tlb _ _ _ _ _ Hg). intros Hq. destruct (i_cache _ _ _ Hi q b Hq) as [|(tb & mp & HA & Hb)]; [by left|right].
        rewrite (slot_update _ _ _ _ _ _ _ _ _ HG). destruct (decide (active = root)) as [E|]; [congruence|by exists tb, mp]. }
    split_and!; [done|..].
    + exists used. apply (g_stock _ _ _ _ _ Hg).
    + exact (grown_else _ _ _ _ _ Hg).
    + apply (g_more _ _ _ _ _ Hg).
    + by eapply (grown_spare G (phys :: rest) s _ (phys :: rest) s' s' tabs tabs' used).
Qed.

(** One descriptor at the last level is written over another. *)
Lemma inv_put G rest rest' s root tabs maps v b phys fl s' :
  inv G rest s -> addr b :: rest ≡ₚ phys :: rest' -> G !! root = Some (tabs, maps) -> maps !! page_of_virt v = Some b ->
  edited s s' tabs v -> hier user_half (words s') root tabs (<[page_of_virt v := leaf_bits phys fl]> maps) ->
  user_flags fl -> may_map G root (page_of_virt v) (leaf_bits phys fl) phys -> frame_addr phys ->
  inv (<[root := (tabs, <[page_of_virt v := leaf_bits phys fl]> maps)]> G) rest' s'.
Proof.
  intros Hi Hrest HG Hb [E1 E2 E3 E4 E5] Hh Hfl Hmay Hph. pose proof (addr_leaf phys fl Hph) as Ha.
  eapply inv_edit; [exact Hi|exact HG|exact Hh|done|auto| |auto| | |].
  - unfold space_frames. cbn [fst snd]. pose proof (page_frames_delete _ _ _ Hb). rewrite <- insert_delete_eq.
    pose proof (page_frames_insert (delete (page_of_virt v) maps) _ (leaf_bits phys fl) (lookup_delete_eq _ _)). rewrite Ha in *. by_counting.
  - intros q b'. rewrite lookup_insert_Some. intros [[<- <-]|[_ ?]]; [right|by left]. exists fl. by rewrite Ha.
  - apply (cow_put _ _ tabs maps); [done|apply Hi|]. by rewrite Ha.
  - eapply (cache_noted _ _ s _ _ _ _ _ v); [exact Hi|exact HG|done| | |].
    + intros q Hq. rewrite E4. by apply covers_note.
    + rewrite E4. apply covers_noted.
    + intros q Hq. by rewrite lookup_insert_ne.
Qed.

Lemma wp_inv_replace {E} G rest s root tabs maps v b phys fl (X : Walk -> E -> Prop) :
  inv G (phys :: rest) s -> G !! root = Some (tabs, maps) -> maps !! page_of_virt v = Some b -> 0 <= v < USER_LIMIT ->
  user_flags fl -> occ phys (all_frames G ++ phys :: rest) = 1 ->
  wp (replace root v phys fl) (fun s' o => o = Some (addr b) /\
    inv (<[root := (tabs, <[page_of_virt v := leaf_bits phys fl]> maps)]> G) (addr b :: rest) s' /\ edited s s' tabs v) X s.
Proof.
  intros Hi HG Hb Hv Hfl Hone. pose proof (i_hier _ _ _ Hi _ _ _ HG) as Hh.
  eapply wp_mono; [apply (wp_replace user_half s root tabs maps v phys fl X Hh (user_owned v Hv) (proj1 Hfl))| |done].
  intros s' o. rewrite Hb. intros (-> & He & Hh'). split_and!; [done| |done]. eapply inv_put; [exact Hi|apply Permutation_swap|eauto..| |].
  - eapply (may_map_fresh _ _ _ _ _ _ _ Hi); [by left|lia].
  - apply (handle_frame _ _ _ _ Hi). apply elem_of_app. right. left.
Qed.

Lemma wp_inv_protect {E} G rest s root tabs maps v b fl (X : Walk -> E -> Prop) :
  inv G rest s -> G !! root = Some (tabs, maps) -> maps !! page_of_virt v = Some b -> 0 <= v < USER_LIMIT -> user_flags fl ->
  may_map G root (page_of_virt v) (leaf_bits (addr b) fl) (addr b) ->
  wp (protect root v fl) (fun s' o => o = Some (addr b) /\
    inv (<[root := (tabs, <[page_of_virt v := leaf_bits (addr b) fl]> maps)]> G) rest s' /\ edited s s' tabs v) X s.
Proof.
  intros Hi HG Hb Hv Hfl Hmay. pose proof (i_hier _ _ _ Hi _ _ _ HG) as Hh.
  eapply wp_mono; [apply (wp_protect user_half s root tabs maps v fl X Hh (user_owned v Hv) (proj1 Hfl))| |done].
  intros s' o. rewrite Hb. intros (-> & He & Hh'). split_and!; [done| |done].
  destruct (slot_frame G rest s root (page_of_virt v) b Hi ltac:(by exists tabs, maps)) as [_ Hph].
  by eapply inv_put.
Qed.

Lemma wp_inv_unmap {E} G rest s root tabs maps v (X : Walk -> E -> Prop) :
  inv G rest s -> stock s = [] -> G !! root = Some (tabs, maps) -> 0 <= v < USER_LIMIT ->
  wp (unmap root v) (fun s' o => o = addr <$> maps !! page_of_virt v /\
    match maps !! page_of_virt v with
    | None => s' = s
    | Some b => exists tabs', inv (<[root := (tabs', delete (page_of_virt v) maps)]> G) (addr b :: stock s' ++ rest) s' /\
        (tidy tabs maps -> tidy tabs' (delete (page_of_virt v) maps)) /\
        forall t i, t ∉ tab_frames tabs -> read (words s') t i = read (words s) t i
    end) X s.
Proof.
  intros Hi Hst HG Hv. pose proof (i_hier _ _ _ Hi _ _ _ HG) as Hh.
  eapply wp_mono; [apply (wp_unmap user_half s root tabs maps v X Hh (user_owned v Hv) Hst)| |done].
  { intros t Ht. pose proof (i_alone _ _ _ Hi _ _ _ _ HG Ht) as Ho. rewrite <- Ho. apply (handle_frame _ _ _ _ Hi). apply occ_pos. lia. }
  intros s' o [-> H]. split; [done|]. destruct (maps !! page_of_virt v) as [b|] eqn:Hb; [|done]. destruct H as (tabs' & gone & Hh' & [S1 S2 S3 S4 S5 S6] & Htidy).
  cbn [stock pool cached tlb words set_tlb] in *. rewrite Hst, app_nil_r in S1. exists tabs'. split_and!; [|done|done].
  eapply inv_edit; [exact Hi|exact HG|exact Hh'|done|auto| | | | |].
  - unfold space_frames. cbn [fst snd]. pose proof (page_frames_delete _ _ _ Hb). rewrite S1. by_counting.
  - intros t Ht. left. rewrite S2. apply elem_of_app. by right.
  - intros q b' [_ ?]%lookup_delete_Some. by left.
  - apply (cow_shrink _ _ tabs maps); [done|apply Hi|]. apply delete_subseteq.
  - eapply (cache_noted _ _ s _ _ _ _ _ v); [exact Hi|exact HG|done| | |].
    + intros q Hq. rewrite S5. case_decide; [by apply covers_note|done].
    + rewrite S5. case_decide; [apply covers_noted|done].
    + intros q Hq. by rewrite lookup_delete_ne.
Qed.

(** ** References taken and given back *)

Lemma inv_perm G rest rest' s : rest ≡ₚ rest' -> inv G rest s -> inv G rest' s.
Proof.
  intros Hp Hi. pose proof Hi as [H1 H2 H3 H4 H5 H6 H7]. assert (Hall : all_frames G ++ rest ≡ₚ all_frames G ++ rest') by (by rewrite Hp).
  split; try done; [by eapply owners_perm|]. intros root tabs maps t HG Ht. rewrite <- (occ_perm _ _ _ Hall). by eapply H3.
Qed.

(** What no table is made of is taken or given back. *)
Lemma inv_pool G rest rest' s a :
  inv G rest s -> owners r nf (set_pool a s) (all_frames G ++ rest') ->
  (forall root tabs maps t, G !! root = Some (tabs, maps) -> t ∈ tab_frames tabs -> occ t rest' = occ t rest) -> inv G rest' (set_pool a s).
Proof.
  intros [H1 H2 H3 H4 H5 H6 H7] Ho Ht. split; try done. intros root tabs maps t HG Hin. rewrite occ_app, (Ht _ _ _ _ HG Hin), <- occ_app. by eapply H3.
Qed.

Lemma table_not_page G rest s root q b root' tabs maps t :
  inv G rest s -> slot G root q b -> G !! root' = Some (tabs, maps) -> t ∈ tab_frames tabs -> t <> addr b.
Proof.
  intros Hi (tb & mp & HG & Hq) HG' Ht ->. destruct (table_alone _ _ _ _ _ _ _ _ _ _ Hi HG' Ht HG) as [Hn _]. apply Hn, page_frames_in. eauto.
Qed.

Lemma wp_inv_take {E} G rest s root q b (X : Walk -> E -> Prop) :
  inv G rest s -> slot G root q b -> occ (addr b) (all_frames G ++ rest) < u16_max ->
  wp (machine_share (addr b)) (fun s' _ => inv G (addr b :: rest) s' /\ exists a, s' = set_pool a s) X s.
Proof.
  intros Hi Hs Hroom. destruct (slot_frame _ _ _ _ _ _ Hi Hs) as [Hin (f & Hf & Hp)].
  assert (Hin' : addr b ∈ all_frames G ++ rest) by (apply elem_of_app; by left).
  assert (Hsh : exists a, share (addr b) (pool s) = (a, Ok tt)).
  { pose proof (i_owners _ _ _ Hi) as (Ha & _). cbn [allocator] in Ha. rewrite share_spec by (done || lia). by eexists. }
  destruct Hsh as [a Hsh]. unfold wp, machine_share, in_pool, zoom, map_err. rewrite Hsh. split; [|by exists a].
  apply (inv_pool _ rest); [done| |].
  - unfold owners. eapply owners_perm; [|by eapply (owners_share r nf _ _ _ _ (i_owners _ _ _ Hi))]. by rewrite Permutation_middle.
  - intros root' tabs maps t HG Ht. rewrite occ_cons, decide_False; [done|]. by eapply table_not_page.
Qed.

Lemma wp_inv_free {E} G rest s p (X : Walk -> E -> Prop) :
  inv G (p :: rest) s -> (forall root tabs maps, G !! root = Some (tabs, maps) -> p ∉ tab_frames tabs) ->
  wp (machine_free p) (fun s' _ => inv G rest s' /\ exists a, s' = set_pool a s) X s.
Proof.
  intros Hi Hn. eapply wp_mono; [apply (wp_machine_free user_half r nf s _ p (all_frames G ++ rest) X (i_owners _ _ _ Hi))| |done].
  { by rewrite Permutation_middle. }
  intros s' _ (a & -> & Ho). split; [|eauto]. apply (inv_pool _ (p :: rest)); [done|done|]. intros root tabs maps t HG Ht.
  rewrite occ_cons, decide_False; [done|]. intros ->. by eapply Hn.
Qed.

(** What a page in use tells of a frame in other hands. *)
Lemma rest_not_table G rest s p root tabs maps : inv G rest s -> p ∈ rest -> G !! root = Some (tabs, maps) -> p ∉ tab_frames tabs.
Proof.
  intros Hi Hin%occ_pos HG Ht. pose proof (i_alone _ _ _ Hi _ _ _ _ HG Ht) as Ho. rewrite occ_app in Ho.
  assert (p ∈ all_frames G) as Hin2%occ_pos; [|lia]. rewrite (all_frames_delete _ _ _ HG). apply elem_of_app. left. apply elem_of_app. by left.
Qed.

(** ** Sharing a page *)

Lemma wp_assoc {S E A B C} (m : M S E A) (f : A -> M S E B) (k : B -> M S E C) Q X s :
  wp (bind m f) (fun s' b => wp (k b) Q X s') X s -> wp (bind m (fun a => bind (f a) k)) Q X s.
Proof. unfold wp, bind. destruct (m s) as [s' [a|e|w]]; [|done..]. by destruct (f a s') as [? []]. Qed.

(** The descriptor a page is left with, and the flags the other side gets. *)
Definition shared_flags (b : Z) : Z := match shared (flags b) with Some f => f | None => flags b end.
Definition shared_leaf (b : Z) : Z := match shared (flags b) with Some f => leaf_bits (addr b) f | None => b end.

Lemma shared_facts G rest s root q b :
  inv G rest s -> slot G root q b ->
  user_flags (shared_flags b) /\ writes (leaf_bits (addr b) (shared_flags b)) = false /\ addr (shared_leaf b) = addr b /\
  writes (shared_leaf b) = false /\ shared_leaf b = leaf_bits (addr b) (shared_flags b).
Proof.
  intros Hi Hs. destruct (slot_frame _ _ _ _ _ _ Hi Hs) as [_ Hf]. destruct (i_leaf _ _ _ Hi _ _ _ Hs) as (fl & Hb & Hfl & Hus).
  assert (Hp : user_flags (flags b)) by (split; rewrite Hb, flags_kept; [done|set_solver|done..|set_solver|done]).
  assert (Hagain : b = leaf_bits (addr b) (flags b)) by (rewrite Hb at 3; rewrite leaf_again; done).
  unfold shared_flags, shared_leaf. destruct (shared (flags b)) as [f|] eqn:E.
  - destruct (shared_marks _ _ E) as (_ & H1 & H1' & H2). destruct Hp. split_and!; [split; congruence|done|by apply addr_leaf|done|done].
  - pose proof (shared_none _ E (addr b)) as H. rewrite <- Hagain in H. split_and!; [done|congruence|done|done|done].
Qed.

(** The parent's side of it: the reference, and the page marked. *)
Lemma wp_share_parent G rest s parent tabs maps v b t :
  inv G rest s -> G !! parent = Some (tabs, maps) -> maps !! page_of_virt v = Some b -> 0 <= v < USER_LIMIT ->
  tabs !! (0, pre 0 v) = Some t -> occ (addr b) (all_frames G ++ rest) < u16_max ->
  wp (E := Refused)
    (machine_share (addr b) ;;;
     match shared (flags b) with
     | Some f => store t (index_of v 0) (leaf_bits (addr b) f) ;;; note_page v ;;; ret f
     | None => ret (flags b)
     end)
    (fun s' f => f = shared_flags b /\ inv (<[parent := (tabs, <[page_of_virt v := shared_leaf b]> maps)]> G) (addr b :: rest) s' /\
       stock s' = stock s /\ forall t' i, t' ∉ tab_frames tabs -> read (words s') t' i = read (words s) t' i) (fun _ _ => False) s.
Proof.
  intros Hi HG Hb Hv Ht Hroom. assert (Hs : slot G parent (page_of_virt v) b) by (by exists tabs, maps).
  destruct (shared_facts _ _ _ _ _ _ Hi Hs) as (F1 & F2 & F3 & F4 & F5). apply wp_bind.
  eapply wp_mono; [apply (wp_inv_take _ _ _ _ _ _ (fun _ (_ : Refused) => False) Hi Hs Hroom)| |done]. intros s1 _ [Hi1 [a ->]].
  unfold shared_flags, shared_leaf in *. destruct (shared (flags b)) as [f|] eqn:Ef.
  - apply wp_bind, wp_modify, wp_bind, wp_modify, wp_ret. split; [done|].
    destruct (edit_page user_half (set_pool a s) parent tabs maps v t (leaf_bits (addr b) f) (i_hier _ _ _ Hi1 _ _ _ HG) (user_owned v Hv) Ht) as [He Hh].
    unfold set_page in Hh. rewrite leaf_of_leaf in Hh by apply F1. split_and!; [|done|apply He].
    eapply inv_put; [exact Hi1|done|done|exact Hb|exact He|exact Hh|done| |by eapply slot_frame].
    intros r2 q2 b2 Hs2 Hne E. destruct (i_cow _ _ _ Hi _ _ _ _ _ _ Hs2 Hs E Hne). done.
  - apply wp_ret. split_and!; [done| |done|done]. rewrite (insert_id maps) by done. by rewrite insert_id.
Qed.

Lemma wp_inv_share G rest s child parent ptabs pmaps ctabs cmaps v :
  inv G (stock s ++ rest) s -> spare_frames G (stock s ++ rest) s (stock s) ->
  G !! parent = Some (ptabs, pmaps) -> G !! child = Some (ctabs, cmaps) -> child <> parent -> 0 <= v < USER_LIMIT ->
  (forall b, pmaps !! page_of_virt v = Some b -> occ (addr b) (all_frames G ++ stock s ++ rest) < u16_max) ->
  let marked b := <[parent := (ptabs, <[page_of_virt v := shared_leaf b]> pmaps)]> G in
  wp (share_from child parent v)
    (fun s' _ => match pmaps !! page_of_virt v with
       | None => s' = s
       | Some b => cmaps !! page_of_virt v = None /\ exists ctabs',
           inv (<[child := (ctabs', <[page_of_virt v := shared_leaf b]> cmaps)]> (marked b)) (stock s' ++ rest) s' /\
             spare_frames (<[child := (ctabs', <[page_of_virt v := shared_leaf b]> cmaps)]> (marked b)) (stock s' ++ rest) s' (stock s')
       end /\ (exists used, stock s = used ++ stock s') /\
       (forall t i, t ∉ tab_frames ptabs -> t ∉ tab_frames ctabs -> t ∉ stock s -> read (words s') t i = read (words s) t i))
    (fun s' _ => (exists b ctabs', pmaps !! page_of_virt v = Some b /\ inv (<[child := (ctabs', cmaps)]> (marked b)) (stock s' ++ rest) s' /\
         spare_frames (<[child := (ctabs', cmaps)]> (marked b)) (stock s' ++ rest) s' (stock s')) /\
       (exists used, stock s = used ++ stock s') /\
       (forall t i, t ∉ tab_frames ptabs -> t ∉ tab_frames ctabs -> t ∉ stock s -> read (words s') t i = read (words s) t i)) s.
Proof.
  intros Hi Hsp HGp HGc Hne Hv Hroom marked. unfold share_from. apply wp_bind, wp_gets.
  pose proof (leaf_found user_half _ _ _ _ v (i_hier _ _ _ Hi _ _ _ HGp) (user_owned v Hv)) as Hf.
  destruct (leaf_table (words s) parent v) as [t|]; [|apply wp_ret; rewrite Hf; split_and!; [done|by exists []|done]].
  destruct Hf as [Ht Hm]. unfold leaf_of in Hm. set (b := read (words s) t (index_of v 0)) in *.
  destruct (present b) eqn:Ep; cbn [negb]; [|apply wp_ret; rewrite Hm; split_and!; [done|by exists []|done]].
  assert (Hs : slot G parent (page_of_virt v) b) by (by exists ptabs, pmaps).
  destruct (shared_facts _ _ _ _ _ _ Hi Hs) as (F1 & F2 & F3 & F4 & F5). rewrite Hm.
  apply wp_assoc. eapply wp_mono; [apply (wp_share_parent _ _ _ _ _ _ v b t Hi HGp Hm Hv Ht (Hroom b Hm))| |done].
  intros s1 f (-> & Hi1 & Hst & Hw). apply wp_bind, wp_try.
  fold (marked b) in Hi1. assert (HGc' : marked b !! child = Some (ctabs, cmaps)) by (unfold marked; by rewrite lookup_insert_ne).
  assert (Hi1' : inv (marked b) (stock s1 ++ addr b :: rest) s1) by (rewrite Hst; eapply inv_perm; [|exact Hi1]; by rewrite Permutation_middle).
  assert (Hnt : addr b ∉ stock s).
  { intros Hin. destruct (Hsp _ Hin) as [Ho _]. apply occ_pos in Hin. rewrite !occ_app in Ho. pose proof (occ_nonneg (addr b) rest).
    destruct (slot_frame _ _ _ _ _ _ Hi Hs) as [Hin2%occ_pos _]. lia. }
  assert (Hocc : forall x, occ x (all_frames (marked b)) = occ x (all_frames G)).
  { intros x. unfold marked. rewrite (occ_perm _ _ _ (all_frames_update _ _ _ _ HGp)), (occ_perm _ _ _ (all_frames_delete _ _ _ HGp)). unfold space_frames. cbn [fst snd]. rewrite !occ_app.
    rewrite (occ_perm _ _ _ (page_frames_delete _ _ _ Hm)), <- insert_delete_eq, (occ_perm _ _ _ (page_frames_insert _ _ _ (lookup_delete_eq _ _))), !occ_cons, F3. lia. }
  assert (Hsp1 : spare_frames (marked b) (stock s1 ++ addr b :: rest) s1 (stock s1)).
  { rewrite Hst. intros g Hg. destruct (Hsp g Hg) as [Ho Hz]. split.
    - rewrite !occ_app, Hocc, occ_cons, decide_False by (intros ->; done). rewrite !occ_app in Ho. lia.
    - intros i. rewrite Hw; [apply Hz|]. eapply (rest_not_table _ _ _ _ _ _ _ Hi); [|exact HGp]. apply elem_of_app. by left. }
  assert (Hmay : may_map (marked b) child (page_of_virt v) (leaf_bits (addr b) (shared_flags b)) (addr b)).
  { intros r2 q2 b2 Hs2 Hne2 E. destruct (decide ((r2, q2) = (parent, page_of_virt v))) as [[= -> ->]|Hn].
    - unfold marked in Hs2. rewrite (slot_update _ _ _ _ _ _ _ _ _ HGp), decide_True, lookup_insert_eq in Hs2 by done. by injection Hs2 as <-.
    - assert (Hs1 : slot (marked b) parent (page_of_virt v) (shared_leaf b)); [|destruct (i_cow _ _ _ Hi1 _ _ _ _ _ _ Hs2 Hs1); [by rewrite F3|exact Hn|done]]. unfold marked. rewrite (slot_update _ _ _ _ _ _ _ _ _ HGp), decide_True by done. apply lookup_insert_eq. }
  pose proof (wp_inv_publish (marked b) rest s1 child ctabs cmaps v (addr b) (shared_flags b) Hi1' Hsp1 Hmay HGc' Hv F1) as Hpub.
  rewrite F5. rewrite Hst in Hpub. eapply wp_mono; [exact Hpub| |].
  - intros s2 _ (Hnone & ctabs' & Hi2 & Hused & _ & Hw2 & _ & Hsp2). apply wp_ret. split_and!; [done|by exists ctabs'|done|]. intros t' i H1 H2 H3. rewrite Hw2 by done. by apply Hw.
  - intros s2 e (_ & ctabs' & Hi2 & Hused & Hw2 & _ & Hsp2).
    assert (Hi2' : inv (<[child := (ctabs', cmaps)]> (marked b)) (addr b :: stock s2 ++ rest) s2) by (eapply inv_perm; [|exact Hi2]; by rewrite Permutation_middle).
    apply wp_bind. eapply wp_mono; [apply (wp_inv_free _ _ s2 (addr b) (fun _ (_ : Refused) => False) Hi2')| |done].
    { intros root tb mp HG'. eapply (rest_not_table _ _ _ _ _ _ _ Hi2'); [by left|done]. }
    intros s3 _ [Hi3 [a ->]]. apply wp_throw. cbn. split_and!; [exists b, ctabs'; split_and!; [done..|]|done|].
    { intros g Hg. destruct (Hsp2 g Hg) as [Ho Hz]. split; [|done]. rewrite !occ_app, occ_cons in Ho. rewrite !occ_app.
      rewrite decide_False in Ho; [lia|]. intros ->. apply Hnt. destruct Hused as [u ->]. apply elem_of_app. by right. }
    intros t' i H1 H2 H3. rewrite Hw2 by done. by apply Hw.
Qed.
End inv.

Arguments i_hier {P writes r nf active G rest s} _ {root tabs maps} _.
Arguments i_owners {P writes r nf active G rest s} _.
Arguments i_alone {P writes r nf active G rest s} _ {root tabs maps t} _ _.
Arguments i_leaf {P writes r nf active G rest s} _ {root q b} _.
Arguments i_cow {P writes r nf active G rest s} _.
Arguments i_cache {P writes r nf active G rest s} _ {q b} _.
Arguments i_frames {P writes r nf active G rest s} _.
Arguments table_not_page {P writes r nf active G rest s root q b root' tabs maps t} _ _ _ _ _.
Arguments slot_frame {P writes r nf active G rest s root q b} _ _.
Arguments rest_not_table {P writes r nf active G rest s p root tabs maps} _ _ _ _.
Arguments handle_frame {P writes r nf active G rest s p} _ _.
Arguments shared_facts {P writes PL r nf active G rest s root q b} _ _.
