(* ===== verification/SpaceRun.v ===== *)
(** * What the calls on address spaces do to the pages of programs

    [amem] is what programs see: for each address space and page, the words in
    it. The lemmas say what each call of [kernel/src/mm/space.rs] does to it, and
    that it leaves [inv]. *)

From stdpp Require Import gmap.
From S2P Require Import Prelude Words Handoff Frame FrameSpec FrameAlloc FrameOwners Walk WalkSpec Space SpaceSpec.

Definition frame_words (w : gmap (Z * Z) Z) (p : Z) : list Z := read w p <$> seqZ 0 512.

Lemma frame_words_ext w w' p : (forall i, read w' p i = read w p i) -> frame_words w' p = frame_words w p.
Proof. intros H. apply list_fmap_ext. intros i x _. apply H. Qed.

Section run.
Context {P : Paging} {writes : Z -> bool} {PL : PagingLaws P writes} {V : Type} {FV : Files V}.
Context (r : Z -> bool) (nf : Z) (active : Z).
Abbreviation inv := (inv (writes := writes) r nf active).

(** What the programs see of their memory. *)
Definition space_pages (w : gmap (Z * Z) Z) (maps : gmap Z Z) : gmap Z (list Z) := (fun b => frame_words w (addr b)) <$> maps.
Definition amem (G : Ghost) (w : gmap (Z * Z) Z) : gmap Z (gmap Z (list Z)) := (fun g => space_pages w g.2) <$> G.

Lemma amem_same G w w' :
  (forall root q b, slot G root q b -> forall i, read w' (addr b) i = read w (addr b) i) -> amem G w' = amem G w.
Proof.
  intros H. apply map_fmap_ext. intros root [tabs maps] HG. apply map_fmap_ext. intros q b Hq. apply frame_words_ext. apply (H root q b). by exists tabs, maps.
Qed.

Lemma amem_update G root g w : amem (<[root := g]> G) w = <[root := space_pages w g.2]> (amem G w).
Proof. unfold amem. by rewrite fmap_insert. Qed.

(** Only tables, and frames in other hands, were written. *)
Lemma amem_tables G rest s root tabs maps w' (l : list Z) :
  inv G rest s -> G !! root = Some (tabs, maps) -> (forall f, f ∈ l -> occ f (all_frames G ++ rest) = 1 /\ f ∈ rest) ->
  (forall t i, t ∉ tab_frames tabs -> t ∉ l -> read w' t i = read (words s) t i) -> amem G w' = amem G (words s).
Proof.
  intros Hi HG Hl Hw. apply amem_same. intros root' q b Hs i. apply Hw.
  - intros Ht. by apply (table_not_page Hi Hs HG Ht).
  - intros Hin. destruct (Hl _ Hin) as [Ho Hr%occ_pos]. rewrite occ_app in Ho.
    destruct (slot_frame Hi Hs) as [Hin2%occ_pos _]. lia.
Qed.

(** ** Frames *)

(** A frame the allocator hands out was in no one's hands. *)
Lemma alloc_fresh a a' p hs : owners_ok r nf (mkKernel a hs) -> alloc a = (a', Ok (Some p)) -> p ∉ hs.
Proof.
  intros (Ha & Hn & _ & Hf) Hal. cbn [allocator handles] in *. rewrite alloc_is_next_fit_eq in Hal by done.
  pose proof (next_fit_spec a Ha) as Hfit. destruct (next_fit _ _ _) as [f|]; [|done]. injection Hal as <- <-.
  destruct Hfit as [Hfr Hfree]. specialize (Hf f ltac:(lia)). unfold owned_right in Hf. cbn in Hf. rewrite Hfree in Hf.
  intros Hin%occ_pos. destruct (r f); destruct Hf as [H _]; [done|]. symmetry in H. apply Z.ltb_ge in H. lia.
Qed.

Lemma wp_inv_alloc {E} G rest s (X : Walk -> E -> Prop) :
  inv G rest s ->
  wp (in_pool alloc) (fun s' o => (exists a, s' = set_pool a s) /\
    match o with
    | None => inv G rest s' /\ alloc (pool s) = (pool s', Ok None)
    | Some p => inv G (p :: rest) s' /\ occ p (all_frames G ++ p :: rest) = 1
    end) X s.
Proof.
  intros Hi. pose proof (i_owners Hi) as Ho. destruct Ho as (Ha & Hrest). cbn [allocator] in Ha.
  assert (Hal : exists a o, alloc (pool s) = (a, Ok o)).
  { rewrite alloc_is_next_fit_eq by done. destruct (next_fit _ _ _); by eexists _, _. }
  destruct Hal as (a & o & Hal). unfold wp, in_pool, zoom, map_err. rewrite Hal. split; [by exists a|].
  pose proof (owners_alloc r nf _ _ _ _ (i_owners Hi) Hal) as Ho'. destruct o as [p|]; cbn in Ho'.
  - pose proof (alloc_fresh _ _ _ _ (i_owners Hi) Hal) as Hp. split.
    + apply (inv_pool r nf active _ rest); [done| |].
      * eapply owners_perm; [|exact Ho']. by rewrite Permutation_middle.
      * intros root tabs maps t HG Ht. rewrite occ_cons, decide_False; [done|]. intros ->. apply Hp, elem_of_app. left.
        rewrite (all_frames_delete _ _ _ HG). apply elem_of_app. left. apply elem_of_app. by left.
    + rewrite occ_app, occ_cons, decide_True by done. assert (occ p (all_frames G ++ rest) = 0) as H0.
      { pose proof (occ_nonneg p (all_frames G ++ rest)). destruct (decide (0 < occ p (all_frames G ++ rest))) as [Hpos%occ_pos|]; [done|lia]. }
      rewrite occ_app in H0. lia.
  - split; [by apply (inv_pool r nf active _ rest)|done].
Qed.

(** Words of frames no table is made of may change. *)
Lemma inv_words G rest s w :
  inv G rest s -> (forall root tabs maps t i, G !! root = Some (tabs, maps) -> t ∈ tab_frames tabs -> read w t i = read (words s) t i) ->
  inv G rest (set_words w s).
Proof.
  intros [H1 H2 H3 H4 H5 H6 H7] Hw. split; try done. intros root tabs maps HG. eapply hier_frame; [|by apply H1].
  intros k t i Hk. eapply Hw; [done|]. apply tab_frames_in. eauto.
Qed.

(** The words of a frame in other hands. *)
Lemma inv_rest_words G rest s w p :
  inv G rest s -> p ∈ rest -> (forall t i, t <> p -> read w t i = read (words s) t i) -> inv G rest (set_words w s).
Proof.
  intros Hi Hp Hw. apply inv_words; [done|]. intros root tabs maps t i HG Ht. apply Hw. intros ->.
  by apply (rest_not_table Hi Hp HG).
Qed.

Lemma wp_inv_zeroed {E} G rest s (X : Walk -> E -> Prop) :
  inv G rest s ->
  wp alloc_zeroed (fun s' o => stock s' = stock s /\ tlb s' = tlb s /\ cached s' = cached s /\
    match o with
    | None => inv G rest s' /\ words s' = words s
    | Some p => inv G (p :: rest) s' /\ occ p (all_frames G ++ p :: rest) = 1 /\ (forall i, read (words s') p i = 0) /\
        forall t i, t <> p -> read (words s') t i = read (words s) t i
    end) X s.
Proof.
  intros Hi. unfold alloc_zeroed. apply wp_bind. eapply wp_mono; [by apply wp_inv_alloc| |done].
  intros s1 o [[a ->] H]. destruct o as [p|]; [|apply wp_ret; split_and!; [done..|apply H|done]]. destruct H as [Hi1 Ho]. apply wp_bind, wp_modify, wp_ret. cbn.
  split_and!; [done..| |done| |].
  - apply (inv_rest_words _ _ (set_pool a s) _ p); [done|by left|]. intros t i Ht. cbn. by rewrite read_zero, decide_False.
  - intros i. by rewrite read_zero, decide_True.
  - intros t i Ht. by rewrite read_zero, decide_False.
Qed.

(** ** One turn of a lock *)

(** No lock is held: nothing is left to be thrown away or given back. *)
Definition calm (G : Ghost) (rest : list Z) (s : Sys V) : Prop := inv G rest (walk s) /\ tlb (walk s) = Clean /\ retired s = [].

Lemma wp_drop_frames {E} l : forall G rest (s : Sys V) (X : Sys V -> E -> Prop),
  inv G (l ++ rest) (walk s) -> wp (drop_frames l) (fun s' _ => inv G rest (walk s') /\ exists a, s' = set_walk (set_pool a (walk s)) s) X s.
Proof.
  intros G rest s X Hi. unfold drop_frames, on_walk. apply wp_zoom.
  enough (H : wp (mapM_ machine_free l) (fun w _ => inv G rest w /\ exists a, w = set_pool a (walk s)) (fun _ (_ : E) => False) (walk s)).
  { eapply wp_mono; [exact H| |done]. intros w _ [Hi' [a ->]]. split; [done|by exists a]. }
  revert Hi. generalize (walk s). clear s X. induction l as [|p l IH]; intros w Hi.
  { apply wp_ret. split; [done|]. exists (pool w). by destruct w. }
  apply wp_bind. eapply wp_mono; [apply (wp_inv_free r nf active G (l ++ rest) w p (fun _ (_ : E) => False) Hi)| |done].
  { intros root tabs maps HG. eapply (rest_not_table Hi); [by left|exact HG]. }
  intros w1 _ [Hi1 [a ->]]. eapply wp_mono; [by apply IH| |done]. intros w2 _ [Hi2 [a2 ->]]. split; [done|by exists a2].
Qed.

Lemma wp_tlb_flush {E} G rest w (X : Walk -> E -> Prop) :
  inv G rest w -> wp tlb_flush (fun w' _ => inv G rest w' /\ tlb w' = Clean /\ words w' = words w /\ stock w' = stock w) X w.
Proof.
  intros Hi. unfold tlb_flush. apply wp_bind, wp_gets, wp_bind, wp_modify. pose proof Hi as [H1 H2 H3 H4 H5 H6 H7].
  destruct (tlb w) as [|v|] eqn:Et; [apply wp_ret|apply wp_modify..]; split_and!; try done; split; try done.
  - intros q b Hq. cbn in *. apply lookup_delete_Some in Hq as [Hne Hq]. right. destruct (H6 q b Hq) as [Hc|]; [|done]. done.
Qed.

Lemma wp_guard_flush {E} G rest (s : Sys V) (X : Sys V -> E -> Prop) :
  inv G (retired s ++ rest) (walk s) ->
  wp guard_flush (fun s' _ => inv G rest (walk s') /\ tlb (walk s') = Clean /\ phys_words s' = phys_words s /\ mems s' = mems s /\ retired s' = []) X s.
Proof.
  intros Hi. unfold guard_flush. apply wp_bind. unfold on_walk. apply wp_zoom.
  eapply wp_mono; [apply (wp_tlb_flush _ _ _ (fun _ (_ : E) => False) Hi)| |done]. intros w _ (Hi1 & Ht & Hw & Hst).
  apply wp_bind, wp_gets, wp_bind. cbn [retired set_walk].
  eapply wp_mono; [apply (wp_drop_frames (retired s) G rest (set_walk w s) (fun _ (_ : E) => False)); exact Hi1| |done].
  intros s2 _ [Hi2 [a ->]]. apply wp_modify. cbn. split_and!; done.
Qed.

(** A section under a lock that ends in order. *)
Lemma wp_locked {E A} (m : M (Sys V) E A) (Q : Sys V -> A -> Prop) (X : Sys V -> E -> Prop) G0 rest0 s :
  calm G0 rest0 s ->
  wp m (fun s1 a => exists G rest, inv G (retired s1 ++ rest) (walk s1) /\
          forall s2, calm G rest s2 -> phys_words s2 = phys_words s1 -> mems s2 = mems s1 -> Q s2 a) (fun _ _ => False) s ->
  wp (locked m) Q X s.
Proof.
  intros (Hi & Ht & Hr) H. unfold locked. apply wp_bind, wp_modify.
  replace (set_retired [] (set_walk (set_tlb Clean (walk s)) s)) with s by (destruct s as [[] ? ?]; cbn in *; by subst).
  apply wp_bind, wp_try. eapply wp_mono; [exact H| |done]. intros s1 a (G & rest & Hi1 & HQ). apply wp_bind.
  eapply wp_mono; [by apply (wp_guard_flush G rest s1 X)| |done]. intros s2 _ (H1 & H2 & H3 & H4 & H5). apply wp_ret, HQ; [by split_and!|done|done].
Qed.

Lemma wp_retire {E} G rest l (s : Sys V) (X : Sys V -> E -> Prop) :
  inv G (retired s ++ l ++ rest) (walk s) ->
  wp (retire l) (fun s' _ => inv G (retired s' ++ rest) (walk s') /\ phys_words s' = phys_words s /\ mems s' = mems s) X s.
Proof.
  intros Hi. unfold retire. apply wp_bind, wp_gets, wp_bind. destruct (RETIRED_MAX <? _).
  - eapply wp_mono; [by apply wp_guard_flush| |done]. intros s1 _ (Hi1 & Ht & Hw & Hm & Hr). apply wp_modify. cbn. rewrite Hr. split_and!; done.
  - apply wp_ret, wp_modify. cbn. split_and!; [|done|done]. by rewrite <- app_assoc.
Qed.

(** ** Copy on write *)

Lemma read_copy from to l w t i :
  from <> to -> NoDup l ->
  read (foldr (fun i w' => <[(to, i) := read w from i]> w') w l) t i = if decide (t = to /\ i ∈ l) then read w from i else read w t i.
Proof.
  intros Hne. induction l as [|x l IH]; intros Hnd; cbn [foldr].
  { rewrite decide_False; [done|]. intros [_ ?%elem_of_nil]. done. }
  apply NoDup_cons in Hnd as [Hx Hnd]. rewrite read_store, IH by done.
  destruct (decide (t = to)) as [->|Ht]; [|by rewrite !decide_False by tauto].
  destruct (decide (i = x)) as [->|Hix].
  - by rewrite (decide_True (P := to = to /\ x = x)), (decide_True (P := to = to /\ x ∈ x :: l)) by (done || (split; [done|by left])).
  - rewrite (decide_False (P := to = to /\ i = x)) by tauto. apply decide_ext. rewrite elem_of_cons. tauto.
Qed.

Lemma copy_frame_words from to w : from <> to -> frame_words (copy_frame from to w) to = frame_words w from.
Proof.
  intros Hne. apply list_fmap_ext. intros i x Hx%list_elem_of_lookup_2. unfold copy_frame. rewrite read_copy, decide_True by (done || apply NoDup_seqZ). done.
Qed.

Lemma copy_frame_else from to w t i : from <> to -> t <> to -> read (copy_frame from to w) t i = read w t i.
Proof. intros Hne Ht. unfold copy_frame. rewrite read_copy, decide_False by (apply NoDup_seqZ || naive_solver). done. Qed.

Lemma flags_of_maps G rest s root tabs maps v :
  inv G rest s -> G !! root = Some (tabs, maps) -> 0 <= v < USER_LIMIT -> flags_of (words s) root v = flags <$> maps !! page_of_virt v.
Proof. intros Hi HG Hv. unfold flags_of. by rewrite (leaf_maps user_half _ _ tabs maps v (i_hier Hi HG) (user_owned v Hv)). Qed.

Lemma translate_pages G rest s root tabs maps v :
  inv G rest s -> G !! root = Some (tabs, maps) -> 0 <= v < USER_LIMIT -> v `mod` 4096 = 0 ->
  translate (words s) root v = addr <$> maps !! page_of_virt v.
Proof.
  intros Hi HG Hv Hal. rewrite (translate_maps user_half _ _ tabs maps v (i_hier Hi HG) (user_owned v Hv)).
  change 4095 with (Z.ones 12). rewrite Z.land_ones by lia. change (2 ^ 12) with 4096. rewrite Hal.
  destruct (maps !! page_of_virt v); [|done]. cbn. by rewrite Z.lor_0_r.
Qed.

Lemma frame_aligned p : frame_addr p -> page_align_down p = p.
Proof.
  intros (f & Hf & ->). unfold page_align_down, PAGE. change 4096 with (2 ^ 12). rewrite align_down_spec by (unfold is_u64, u64_max; lia). rewrite Z.mod_mul by lia. lia.
Qed.

(** The page [v] of [root] has [b'] now; the pages of programs are as they were. *)
Lemma amem_put G root tabs maps q b b' w' :
  G !! root = Some (tabs, maps) -> maps !! q = Some b -> frame_words w' (addr b') = frame_words w' (addr b) ->
  amem (<[root := (tabs, <[q := b']> maps)]> G) w' = amem G w'.
Proof.
  intros HG Hb Hw. rewrite amem_update. cbn [snd]. apply insert_id. unfold amem. rewrite lookup_fmap, HG. cbn. f_equal.
  unfold space_pages. rewrite fmap_insert. symmetry. apply insert_id. rewrite lookup_fmap, Hb. cbn. by rewrite Hw.
Qed.

(** What the flags of a mapping say of it. *)
Lemma mapping_flags G rest s root q b bit :
  inv G rest s -> slot G root q b -> bit ∈ [PRESENT; WRITABLE; USER; NO_EXECUTE; COW] ->
  exists fl, b = leaf_bits (addr b) fl /\ user_flags fl /\ has bit (flags b) = has bit fl.
Proof. intros Hi Hs Hbit. destruct (i_leaf Hi Hs) as (fl & Hb & Hfl). exists fl. split_and!; [done..|]. rewrite Hb. by apply flags_kept; [|apply Hfl]. Qed.

Lemma mapping_user G rest s root q b : inv G rest s -> slot G root q b -> user_flags (flags b) /\ b = leaf_bits (addr b) (flags b).
Proof.
  intros Hi Hs. destruct (i_leaf Hi Hs) as (fl & Hb & Hp & Hu). split.
  - split; rewrite Hb, flags_kept; done || set_solver.
  - rewrite Hb at 3. by rewrite leaf_again.
Qed.

Lemma unshare_user fl p : user_flags fl -> user_flags (unshare fl) /\ writes (leaf_bits p (unshare fl)) = true.
Proof.
  intros [Hp Hu]. destruct (unshare_flags fl) as (H1 & H2 & H3 & H4). fold (unshare fl) in *.
  split; [split; congruence|]. apply writes_plain; congruence.
Qed.

(** The last owner takes the page back. *)
Lemma wp_cow_last {E} G rest s root tabs maps v b (X : Walk -> E -> Prop) :
  inv G rest s -> G !! root = Some (tabs, maps) -> maps !! page_of_virt v = Some b -> 0 <= v < USER_LIMIT ->
  occ (addr b) (all_frames G ++ rest) <= 1 ->
  let b' := leaf_bits (addr b) (unshare (flags b)) in
  wp (protect root v (unshare (flags b))) (fun s' o => o = Some (addr b) /\
    inv (<[root := (tabs, <[page_of_virt v := b']> maps)]> G) rest s' /\ writes b' = true /\
    amem (<[root := (tabs, <[page_of_virt v := b']> maps)]> G) (words s') = amem G (words s)) X s.
Proof.
  intros Hi HG Hb Hv Hone b'. assert (Hs : slot G root (page_of_virt v) b) by (by exists tabs, maps).
  destruct (unshare_user (flags b) (addr b) (proj1 (mapping_user _ _ _ _ _ _ Hi Hs))) as [Hfl Hwr].
  eapply wp_mono; [apply (wp_inv_protect r nf active G rest s root tabs maps v b (unshare (flags b)) X Hi HG Hb Hv Hfl)| |done].
  { intros r2 q2 b2 Hs2 Hne E2. exfalso. apply Hne. symmetry. eapply (slot_alone r G rest); [exact Hs|exact Hs2|done|done]. }
  intros s' o (-> & Hi' & He). split_and!; [done..|]. erewrite amem_put; [|exact HG|exact Hb|].
  - eapply (amem_tables _ _ s root tabs maps _ []); [exact Hi|exact HG|by intros f ?%elem_of_nil|]. intros t i Ht _. by apply (e_else _ _ _ _ He).
  - unfold b'. by rewrite addr_leaf by apply (slot_frame Hi Hs).
Qed.

(** A copy takes the place of the shared page. *)
Lemma wp_cow_copy {E} G rest s root tabs maps v b copy (X : Walk -> E -> Prop) :
  inv G (copy :: rest) s -> G !! root = Some (tabs, maps) -> maps !! page_of_virt v = Some b -> 0 <= v < USER_LIMIT ->
  occ copy (all_frames G ++ copy :: rest) = 1 ->
  let b' := leaf_bits copy (unshare (flags b)) in
  wp (replace root v copy (unshare (flags b))) (fun s' o => o = Some (addr b) /\
    inv (<[root := (tabs, <[page_of_virt v := b']> maps)]> G) (addr b :: rest) s' /\ writes b' = true /\
    amem (<[root := (tabs, <[page_of_virt v := b']> maps)]> G) (words s') = amem G (words s)) X (set_words (copy_frame (addr b) copy (words s)) s).
Proof.
  intros Hi HG Hb Hv Hone b'. assert (Hs : slot G root (page_of_virt v) b) by (by exists tabs, maps).
  destruct (unshare_user (flags b) copy (proj1 (mapping_user _ _ _ _ _ _ Hi Hs))) as [Hfl Hwr].
  destruct (slot_frame Hi Hs) as [Hin%occ_pos Hfr]. assert (Hne : addr b <> copy).
  { intros E1. rewrite E1 in Hin. rewrite occ_app, occ_cons, decide_True in Hone by done. pose proof (occ_nonneg copy rest). lia. }
  set (w1 := copy_frame _ _ _). assert (Hi1 : inv G (copy :: rest) (set_words w1 s)).
  { apply (inv_rest_words _ _ _ _ copy); [done|by left|]. intros t i Ht. by apply copy_frame_else. }
  assert (Hcopy : frame_addr copy) by (apply (handle_frame Hi); apply elem_of_app; right; left).
  eapply wp_mono; [apply (wp_inv_replace r nf active G rest _ root tabs maps v b copy (unshare (flags b)) X Hi1 HG Hb Hv Hfl Hone)| |done].
  intros s' o (-> & Hi' & He). split_and!; [done..|].
  assert (Htab : forall p i, p ∈ page_frames maps \/ p = copy -> read (words s') p i = read w1 p i).
  { intros p i Hp. apply (e_else _ _ _ _ He). destruct Hp as [(q & b2 & Hq & <-)%page_frames_in| ->].
    - intros Ht. by apply (table_not_page Hi (root := root) (q := q) (b := b2) ltac:(by exists tabs, maps) HG Ht).
    - eapply (rest_not_table Hi); [by left|exact HG]. }
  erewrite amem_put; [|exact HG|exact Hb|].
  - eapply (amem_tables _ _ s root tabs maps _ [copy]); [exact Hi|exact HG|intros f ->%list_elem_of_singleton; split; [done|by left]|].
    intros t i Ht Hc. rewrite (e_else _ _ _ _ He) by done. cbn. apply copy_frame_else; [done|]. by rewrite list_elem_of_singleton in Hc.
  - unfold b'. rewrite addr_leaf by done. transitivity (frame_words w1 copy).
    + apply frame_words_ext. intros i. apply Htab. by right.
    + unfold w1 at 1. rewrite copy_frame_words by done. symmetry. apply frame_words_ext. intros i. rewrite Htab.
      * by apply copy_frame_else.
      * left. apply page_frames_in. eauto.
Qed.

Lemma page_align_user a : 0 <= a < USER_LIMIT ->
  0 <= page_align_down a < USER_LIMIT /\ page_align_down a `mod` 4096 = 0 /\ page_of_virt (page_align_down a) = page_of_virt a.
Proof.
  intros Ha. assert (Hal : page_align_down a = a - a `mod` 4096).
  { unfold page_align_down, PAGE. change 4096 with (2 ^ 12). apply align_down_spec; [|lia]. change USER_LIMIT with (2 ^ 47) in Ha. unfold is_u64, u64_max. lia. }
  unfold page_of_virt. change USER_LIMIT with (2 ^ 47) in *. rewrite Hal. lia.
Qed.

Lemma wp_cow_section {E} G rest (s : Sys V) root tabs maps v spare (X : Sys V -> E -> Prop) :
  inv G (retired s ++ option_list spare ++ rest) (walk s) ->
  (forall p, spare = Some p -> occ p (all_frames G ++ retired s ++ option_list spare ++ rest) = 1) ->
  G !! root = Some (tabs, maps) -> 0 <= v < USER_LIMIT -> v `mod` 4096 = 0 ->
  wp (cow_section root v spare) (fun s' '(ok, unused) => exists maps',
    inv (<[root := (tabs, maps')]> G) (retired s' ++ unused ++ rest) (walk s') /\
    amem (<[root := (tabs, maps')]> G) (phys_words s') = amem G (phys_words s) /\ mems s' = mems s /\
    if (ok : bool) then exists b, maps' !! page_of_virt v = Some b /\ writes b = true
    else forall b, maps !! page_of_virt v = Some b -> has COW (flags b) = true -> spare = None) X s.
Proof.
  intros Hi Hsp HG Hv Hal. unfold cow_section. apply wp_bind, wp_gets. unfold phys_words at 1 2. rewrite (flags_of_maps _ _ _ _ _ _ _ Hi HG Hv).
  assert (Hsame : forall (ok : bool), (if ok then exists b, maps !! page_of_virt v = Some b /\ writes b = true
      else forall b, maps !! page_of_virt v = Some b -> has COW (flags b) = true -> spare = None) ->
    exists maps', inv (<[root := (tabs, maps')]> G) (retired s ++ option_list spare ++ rest) (walk s) /\
    amem (<[root := (tabs, maps')]> G) (phys_words s) = amem G (phys_words s) /\ mems s = mems s /\
    if ok then exists b, maps' !! page_of_virt v = Some b /\ writes b = true
    else forall b, maps !! page_of_virt v = Some b -> has COW (flags b) = true -> spare = None).
  { intros ok Hok. exists maps. by rewrite insert_id. }
  destruct (maps !! page_of_virt v) as [b|] eqn:Hb; cbn [fmap option_fmap option_map]; [|apply wp_ret; by apply (Hsame false)].
  assert (Hs : slot G root (page_of_virt v) b) by (by exists tabs, maps).
  destruct (has COW (flags b)) eqn:Ecow; cbn [negb].
  2: { apply wp_ret, Hsame. destruct (has WRITABLE (flags b)) eqn:Ew; [|intros ? [= <-]; congruence]. destruct (has USER (flags b)) eqn:Eu; [|intros ? [= <-]; congruence].
    exists b. split; [done|]. destruct (mapping_user _ _ _ _ _ _ Hi Hs) as [[Hp _] ->]. by apply writes_plain. }
  rewrite (translate_pages _ _ _ _ _ _ _ Hi HG Hv Hal), Hb. cbn [fmap option_fmap option_map].
  destruct (slot_frame Hi Hs) as [Hin Hfr]. rewrite frame_aligned by done. apply wp_bind. unfold on_walk at 1. apply wp_zoom.
  eapply wp_fun; [apply in_pool_reads, (handle_frame Hi); apply elem_of_app; by left|].
  replace (set_walk (walk s) s) with s by (by destruct s). destruct (Z.leb_spec (occ (addr b) (all_frames G ++ retired s ++ option_list spare ++ rest)) 1) as [Hle|Hgt].
  - apply wp_bind. unfold guard_protect, on_walk. apply wp_zoom. eapply wp_mono; [by apply (wp_cow_last _ _ _ _ tabs maps v b (fun _ (_ : E) => False) Hi HG Hb Hv)| |done].
    intros w' o (-> & Hi' & Hw' & Ha'). apply wp_ret. rewrite bool_decide_true by eauto. eexists. split_and!; [exact Hi'|exact Ha'|done|].
    rewrite lookup_insert_eq. eauto.
  - destruct spare as [copy|]; [|apply wp_ret; by apply (Hsame false)]. change (option_list (Some copy)) with [copy] in *. apply wp_bind. unfold on_walk at 1. apply wp_zoom, wp_modify.
    assert (Hi2 : inv G (copy :: retired s ++ rest) (walk s)) by (eapply inv_perm; [|exact Hi]; by_counting).
    assert (Ho2 : occ copy (all_frames G ++ copy :: retired s ++ rest) = 1).
    { specialize (Hsp copy eq_refl). rewrite !occ_app, occ_cons in *. rewrite !occ_app in *. rewrite occ_nil in Hsp. lia. }
    apply wp_bind. unfold guard_replace. apply wp_bind. unfold on_walk. apply wp_zoom.
    eapply wp_mono; [by apply (wp_cow_copy _ _ _ _ tabs maps v b copy (fun _ (_ : E) => False) Hi2 HG Hb Hv Ho2)| |done].
    intros w' o (-> & Hi' & Hw' & Ha'). apply wp_ret, wp_bind.
    eapply wp_mono; [eapply (wp_retire _ rest [addr b] _ (fun _ (_ : E) => False))| |done].
    { cbn. eapply inv_perm; [|exact Hi']. by_counting. }
    intros s' _ (Hi3 & Hw3 & Hm3). apply wp_ret. eexists. split_and!; [exact Hi3|rewrite Hw3; exact Ha'|done|]. rewrite lookup_insert_eq. eauto.
Qed.

(** [break_cow]: the pages of all programs are as they were; if it says so, the
    one it was asked about can be written. *)
Lemma wp_break_cow {E} G rest (s : Sys V) root tabs maps a (X : Sys V -> E -> Prop) :
  calm G rest s -> G !! root = Some (tabs, maps) -> 0 <= a < USER_LIMIT ->
  wp (break_cow root a) (fun s' ok => exists maps',
    calm (<[root := (tabs, maps')]> G) rest s' /\ amem (<[root := (tabs, maps')]> G) (phys_words s') = amem G (phys_words s) /\ mems s' = mems s /\
    if (ok : bool) then exists b, maps' !! page_of_virt a = Some b /\ writes b = true
    else forall b, maps !! page_of_virt a = Some b -> has COW (flags b) = true -> exists al, alloc (pool (walk s)) = (al, Ok None)) X s.
Proof.
  intros (Hi & Ht & Hr) HG Ha. destruct (page_align_user a Ha) as (Hv & Hv0 & Hpv). set (v := page_align_down a) in *.
  unfold break_cow. fold v. apply wp_bind. unfold on_walk at 1. apply wp_zoom.
  eapply wp_mono; [apply (wp_inv_alloc G rest (walk s) (fun _ (_ : E) => False) Hi)| |done].
  cbv beta. intros w1 spare [[al ->] Hsp]. set (s1 := set_walk _ _). apply wp_bind.
  assert (Hi1 : inv G (option_list spare ++ rest) (walk s1)) by (destruct spare; [apply Hsp|exact (proj1 Hsp)]).
  eapply (wp_locked _ _ _ G (option_list spare ++ rest)); [by split_and!|].
  eapply wp_mono; [apply (wp_cow_section G rest s1 root tabs maps v spare (fun _ (_ : E) => False))| |done].
  - cbn. rewrite Hr. exact Hi1.
  - intros p ->. cbn in *. rewrite Hr. apply Hsp.
  - done.
  - done.
  - done.
  - intros s2 [ok unused] (maps' & Hi2 & Ha2 & Hm2 & Hok). exists (<[root := (tabs, maps')]> G), (unused ++ rest). split; [done|].
    intros s3 (Hi3 & Ht3 & Hr3) Hw3 Hm3. apply wp_bind. eapply wp_mono; [apply (wp_drop_frames unused _ rest s3 (fun _ (_ : E) => False) Hi3)| |done].
    intros s4 _ [Hi4 [al4 ->]]. apply wp_ret. exists maps'. split_and!; [by split_and!| |cbn; by rewrite Hm3, Hm2|rewrite <- Hpv; destruct ok; [done|]; intros b Hb Hc; specialize (Hok b Hb Hc); subst spare; exists al; apply Hsp].
    change (phys_words _) with (phys_words s3) at 1. by rewrite Hw3.
Qed.

(** C5: [break_cow] leaves the pages of every program with the words they had and
    every frame with as many references as it has owners, and puts no frame in the
    allocator that a program or the processor could still reach. It answers true
    only when the page can now be written, and false for a page marked
    copy-on-write only when there is no frame to copy it to. *)
Theorem break_cow_parts G rest (s : Sys V) root tabs maps a :
  calm G rest s -> G !! root = Some (tabs, maps) -> 0 <= a < USER_LIMIT ->
  wp (E := Errno) (break_cow root a) (fun s' ok => exists maps',
    calm (<[root := (tabs, maps')]> G) rest s' /\ amem (<[root := (tabs, maps')]> G) (phys_words s') = amem G (phys_words s) /\ mems s' = mems s /\
    if (ok : bool) then exists b, maps' !! page_of_virt a = Some b /\ writes b = true
    else forall b, maps !! page_of_virt a = Some b -> has COW (flags b) = true -> exists al, alloc (pool (walk s)) = (al, Ok None)) (fun _ _ => False) s.
Proof. intros Hc HG Ha. by apply wp_break_cow. Qed.
End run.

(** * Pages that go

    [unmap_range], [unmap_pages] and [munmap] take exactly the pages of a range
    out of one address space; [drop_mm] takes all of it. What other address
    spaces hold is as it was, and no frame is given back while the processor may
    still go by an old descriptor. *)

(** The pages [l] taken out of what an address space holds. *)
Definition without {A} (l : list Z) (m : gmap Z A) : gmap Z A := foldl (fun m q => delete q m) m l.

Lemma without_lookup {A} l : forall (m : gmap Z A) q, without l m !! q = if decide (q ∈ l) then None else m !! q.
Proof.
  induction l as [|x l IH]; intros m q; [done|]. cbn. fold (without l (delete x m)). rewrite IH.
  destruct (decide (q = x)) as [->|Hne].
  - rewrite (decide_True (P := x ∈ x :: l)) by left. case_decide; [done|apply lookup_delete_eq].
  - rewrite lookup_delete_ne by done. apply decide_ext. rewrite elem_of_cons. naive_solver.
Qed.

(** The pages below [a], and those from [b] on. *)
Definition outside {A} (a b : Z) (m : gmap Z A) : gmap Z A := filter (fun kv => ~ (a <= kv.1 < b)) m.

Lemma outside_lookup {A} a b (m : gmap Z A) q : outside a b m !! q = if decide (a <= q < b) then None else m !! q.
Proof. unfold outside. rewrite map_lookup_filter. destruct (m !! q); cbn; repeat case_guard || case_decide; naive_solver. Qed.

Lemma without_outside {A} l a b (m : gmap Z A) : (forall q, q ∈ l <-> a <= q < b) -> without l m = outside a b m.
Proof. intros Hl. apply map_eq. intros q. rewrite without_lookup, outside_lookup. apply decide_ext. apply Hl. Qed.

Lemma outside_more {A} a b c (m : gmap Z A) : a <= b <= c -> outside b c (outside a b m) = outside a c m.
Proof. intros H. apply map_eq. intros q. rewrite !outside_lookup. repeat case_decide; done || lia. Qed.

Lemma outside_none {A} a (m : gmap Z A) : outside a a m = m.
Proof. apply map_eq. intros q. rewrite outside_lookup. case_decide; [lia|done]. Qed.

Lemma alter_twice {A} (f g : A -> A) k (m : gmap Z A) : alter f k (alter g k m) = alter (fun x => f (g x)) k m.
Proof.
  apply map_eq. intros x. destruct (decide (x = k)) as [->|Hne]; [rewrite !lookup_alter_eq|by rewrite !lookup_alter_ne].
  by destruct (m !! k).
Qed.

Section unmap.
Context {P : Paging} {writes : Z -> bool} {PL : PagingLaws P writes} {V : Type} {FV : Files V}.
Context (r : Z -> bool) (nf : Z) (active : Z).
Abbreviation inv := (inv (writes := writes) r nf active).
Abbreviation calm := (calm (writes := writes) r nf active).

Lemma wp_with_stock {E E' A} l (m : M Walk E A) (Q : Sys V -> (A + E) * list Z -> Prop) (X : Sys V -> E' -> Prop) s :
  wp m (fun w a => Q (set_walk w s) (inl a, stock w)) (fun w e => Q (set_walk w s) (inr e, stock w)) (set_stock l (walk s)) ->
  wp (with_stock l m) Q X s.
Proof. unfold wp, with_stock, on_walk, zoom. by destruct (m _) as [w [a|e|x]]. Qed.

Lemma inv_stock G rest w l : inv G rest w -> inv G rest (set_stock l w).
Proof. intros [H1 H2 H3 H4 H5 H6 H7]. by split. Qed.

Lemma without_pages l w maps : space_pages w (without l maps) = without l (space_pages w maps).
Proof. apply map_eq. intros q. unfold space_pages. rewrite !lookup_fmap, !without_lookup, lookup_fmap. by case_decide. Qed.

(** What one address space is left with. *)
Lemma amem_without G root tabs maps tabs' l w :
  G !! root = Some (tabs, maps) -> amem (<[root := (tabs', without l maps)]> G) w = alter (without l) root (amem G w).
Proof.
  intros HG. rewrite amem_update. cbn [snd]. rewrite without_pages. apply map_eq. intros x. destruct (decide (x = root)) as [->|Hne].
  - rewrite lookup_insert_eq, lookup_alter_eq. unfold amem. by rewrite lookup_fmap, HG.
  - by rewrite lookup_insert_ne, lookup_alter_ne.
Qed.

Lemma wp_guard_unmap {E} G rest (s : Sys V) root tabs maps v (X : Sys V -> E -> Prop) :
  inv G rest (walk s) -> G !! root = Some (tabs, maps) -> 0 <= v < USER_LIMIT ->
  wp (guard_unmap root v) (fun s' o => retired s' = retired s /\ mems s' = mems s /\
    exists tabs', inv (<[root := (tabs', without [page_of_virt v] maps)]> G) (default [] o ++ rest) (walk s') /\
    amem (<[root := (tabs', without [page_of_virt v] maps)]> G) (phys_words s') = alter (without [page_of_virt v]) root (amem G (phys_words s)) /\
    (tidy tabs maps -> tidy tabs' (without [page_of_virt v] maps))) X s.
Proof.
  intros Hi HG Hv. unfold guard_unmap, is_user_addr. rewrite (proj2 (Z.ltb_lt _ _)) by lia. cbn [negb]. apply wp_bind, wp_with_stock.
  eapply wp_mono; [apply (wp_inv_unmap r nf active G rest _ root tabs maps v (fun _ (_ : Empty_set) => False) (inv_stock _ _ _ [] Hi) eq_refl HG Hv)| |done].
  intros w o [-> H]. destruct (maps !! page_of_virt v) as [b|] eqn:Hb; cbn [fmap option_fmap option_map].
  - destruct H as (tabs' & Hi' & Htidy & Hw). apply wp_ret. split_and!; [done..|]. exists tabs'. cbn [without foldl]. split_and!; [|etrans; [apply (amem_without _ _ tabs maps tabs' [page_of_virt v]); done|]|done].
    + exact Hi'.
    + f_equal. eapply (amem_tables r nf active _ _ (walk s) root tabs maps _ []); [exact Hi|exact HG|by intros f ?%elem_of_nil|]. intros t i Ht _. by apply Hw.
  - subst w. apply wp_ret. split_and!; [done..|]. assert (E1 : without [page_of_virt v] maps = maps) by (by apply delete_id).
    exists tabs. rewrite E1, insert_id by done. split_and!; [by apply inv_stock| |done]. symmetry. rewrite <- (amem_without _ _ tabs maps tabs), E1, insert_id by done. done.
Qed.

(** A turn of [unmap_range], and all of them. *)
Lemma wp_unmap_list {E} root l : forall G rest (s : Sys V) tabs maps (X : Sys V -> E -> Prop),
  inv G (retired s ++ rest) (walk s) -> G !! root = Some (tabs, maps) -> Forall (fun v => 0 <= v < USER_LIMIT) l ->
  wp (mapM_ (fun at_ => let! stale := guard_unmap root at_ in
                        match stale with Some l => retire l | None => ret tt end ;;;
                        let! _ := u64 (at_ + PAGE) in ret tt) l)
    (fun s' _ => mems s' = mems s /\ exists tabs',
      inv (<[root := (tabs', without (page_of_virt <$> l) maps)]> G) (retired s' ++ rest) (walk s') /\
      amem (<[root := (tabs', without (page_of_virt <$> l) maps)]> G) (phys_words s') = alter (without (page_of_virt <$> l)) root (amem G (phys_words s)) /\
      (tidy tabs maps -> tidy tabs' (without (page_of_virt <$> l) maps))) X s.
Proof.
  induction l as [|v l IH]; intros G rest s tabs maps X Hi HG Hl.
  { apply wp_ret. split; [done|]. exists tabs. cbn. rewrite insert_id by done. split_and!; [done| |done]. symmetry. apply alter_id. done. }
  apply Forall_cons in Hl as [Hv Hl]. apply wp_bind, wp_bind.
  eapply wp_mono; [apply (wp_guard_unmap G (retired s ++ rest) s root tabs maps v (fun _ (_ : E) => False) Hi HG Hv)| |done].
  intros s1 o (Hr1 & Hm1 & tabs1 & Hi1 & Ha1 & Ht1). set (G1 := <[root := _]> G) in *. rewrite <- Hr1 in Hi1. apply wp_bind.
  assert (Hretire : wp (match o with Some l => retire l | None => ret tt end) (fun s' _ => inv G1 (retired s' ++ rest) (walk s') /\ phys_words s' = phys_words s1 /\ mems s' = mems s1) X s1).
  { destruct o as [fs|]; [|apply wp_ret; done]. apply wp_retire. eapply inv_perm; [|exact Hi1]. cbn. by_counting. }
  eapply wp_mono; [exact Hretire| |done]. intros s2 _ (Hi2 & Hw2 & Hm2). apply wp_bind, wp_checked; [change USER_LIMIT with (2 ^ 47) in Hv; unfold PAGE, u64_max; lia|].
  apply wp_ret. eapply wp_mono; [apply (IH G1 rest s2 tabs1 (without [page_of_virt v] maps) X Hi2 (lookup_insert_eq _ _ _) Hl)| |done].
  intros s3 _ (Hm3 & tabs3 & Hi3 & Ha3 & Ht3). split; [congruence|]. exists tabs3. unfold G1 in Hi3, Ha3. rewrite insert_insert_eq in Hi3, Ha3.
  split_and!; [exact Hi3| |auto]. etrans; [exact Ha3|]. fold G1. rewrite Hw2, Ha1, alter_twice. done.
Qed.

Lemma pages_from_spec from to q : 0 <= from <= to -> from `mod` 4096 = 0 -> to `mod` 4096 = 0 ->
  q ∈ page_of_virt <$> pages_from from to <-> page_of_virt from <= q < page_of_virt to.
Proof.
  intros Hr Hf Ht. unfold pages_from, page_of_virt, PAGE. pose proof (div_ceil_spec (to - from) 4096 ltac:(lia) ltac:(lia)).
  rewrite list_elem_of_fmap. setoid_rewrite list_elem_of_fmap. setoid_rewrite elem_of_seqZ. split.
  - intros (y & -> & i & -> & Hi). lia.
  - intros Hq. exists (q * 4096). split; [lia|]. exists (q - from / 4096). lia.
Qed.

Lemma pages_from_user from to : 0 <= from -> to <= USER_LIMIT -> from <= to -> Forall (fun v => 0 <= v < USER_LIMIT) (pages_from from to).
Proof.
  intros H1 H2 H3. apply Forall_forall. intros v. unfold pages_from, PAGE. pose proof (div_ceil_spec (to - from) 4096 ltac:(lia) ltac:(lia)).
  rewrite list_elem_of_fmap. setoid_rewrite elem_of_seqZ. intros (i & -> & Hi). lia.
Qed.

(** The pages from [a] up to [b] are out of [root], and nothing else is. *)
Definition cleared (a b root : Z) (tabs : gmap (Z * Z) Z) (maps : gmap Z Z) (G : Ghost) (w : gmap (Z * Z) Z) (G' : Ghost) (w' : gmap (Z * Z) Z) : Prop :=
  exists tabs', G' = <[root := (tabs', outside a b maps)]> G /\ amem G' w' = alter (outside a b) root (amem G w) /\
    (tidy tabs maps -> tidy tabs' (outside a b maps)).

(** [unmap_range], under the lock. *)
Lemma wp_unmap_range {E} G rest (s : Sys V) root tabs maps from to (X : Sys V -> E -> Prop) :
  inv G (retired s ++ rest) (walk s) -> G !! root = Some (tabs, maps) ->
  0 <= from <= to -> to <= USER_LIMIT -> from `mod` 4096 = 0 -> to `mod` 4096 = 0 ->
  wp (unmap_range root from to) (fun s' _ => mems s' = mems s /\ exists G', inv G' (retired s' ++ rest) (walk s') /\
    cleared (page_of_virt from) (page_of_virt to) root tabs maps G (phys_words s) G' (phys_words s')) X s.
Proof.
  intros Hi HG Hr Hlim Hf Ht. pose proof (fun q => pages_from_spec from to q Hr Hf Ht) as Hq.
  eapply wp_mono; [apply (wp_unmap_list root _ G rest s tabs maps (fun _ (_ : E) => False) Hi HG)| |done].
  { apply pages_from_user; lia. }
  intros s' _ (Hm & tabs' & H). split; [done|]. rewrite (without_outside _ _ _ maps Hq) in H. destruct H as (H1 & H2 & H3).
  eexists. split; [exact H1|]. exists tabs'. split_and!; [done| |done]. rewrite H2. apply alter_ext. intros m _. by apply without_outside.
Qed.

Lemma cleared_none a root tabs maps G w : G !! root = Some (tabs, maps) -> cleared a a root tabs maps G w G w.
Proof.
  intros HG. exists tabs. rewrite outside_none, insert_id by done. split_and!; [done| |done]. symmetry. apply alter_id. intros m _. apply outside_none.
Qed.

Lemma cleared_lookup a b root tabs maps G w G' w' : cleared a b root tabs maps G w G' w' -> exists tabs', G' !! root = Some (tabs', outside a b maps).
Proof. intros (tabs' & -> & _). exists tabs'. apply lookup_insert_eq. Qed.

Lemma cleared_more a b c root tabs maps tabs1 G w G1 w1 G2 w2 :
  a <= b <= c -> cleared a b root tabs maps G w G1 w1 -> G1 !! root = Some (tabs1, outside a b maps) ->
  cleared b c root tabs1 (outside a b maps) G1 w1 G2 w2 -> cleared a c root tabs maps G w G2 w2.
Proof.
  intros H (tabs' & -> & A1 & T1) HG (tabs2 & -> & A2 & T2). rewrite lookup_insert_eq in HG. injection HG as ->.
  exists tabs2. rewrite insert_insert_eq, outside_more in * by done. split_and!; [done| |auto].
  rewrite A2, A1, alter_twice. apply alter_ext. intros m _. by apply outside_more.
Qed.

(** [unmap_pages]: the turns of the lock. *)
Lemma wp_unmap_pages {E} G rest (s : Sys V) root tabs maps from to (X : Sys V -> E -> Prop) :
  calm G rest s -> G !! root = Some (tabs, maps) -> 0 <= from <= to -> to <= USER_LIMIT -> from `mod` 4096 = 0 -> to `mod` 4096 = 0 ->
  wp (unmap_pages root from to) (fun s' _ => mems s' = mems s /\ exists G', calm G' rest s' /\
    cleared (page_of_virt from) (page_of_virt to) root tabs maps G (phys_words s) G' (phys_words s')) X s.
Proof.
  intros Hc HG Hr Hlim Hf Ht. unfold unmap_pages, chunks_from. rewrite mapM_fmap.
  change (UNMAP_CHUNK * PAGE) with (128 * 4096) in *. pose proof (div_ceil_spec (to - from) (128 * 4096) ltac:(lia) ltac:(lia)) as Hn.
  set (n := div_ceil _ _) in *. set (upto i := Z.min to (from + i * (128 * 4096))). rewrite <- (Z.sub_0_r n).
  apply (wp_for _ (fun i s' => mems s' = mems s /\ exists G', calm G' rest s' /\
    cleared (page_of_virt from) (page_of_virt (upto i)) root tabs maps G (phys_words s) G' (phys_words s'))).
  - intros i s1 Hi (Hm1 & G1 & Hc1 & Hcl1). destruct (cleared_lookup _ _ _ _ _ _ _ _ _ Hcl1) as [tabs1 HG1].
    set (at_ := from + i * (128 * 4096)) in *. change USER_LIMIT with (2 ^ 47) in *.
    apply wp_bind, wp_checked; [unfold u64_max; lia|]. eapply wp_locked; [exact Hc1|].
    replace (upto i) with at_ in * by (unfold upto, at_; lia). replace (Z.min to (at_ + 128 * 4096)) with (upto (i + 1)) by (unfold upto, at_; lia).
    assert (Hs : from <= at_ <= upto (i + 1) /\ upto (i + 1) <= to /\ at_ `mod` 4096 = 0 /\ upto (i + 1) `mod` 4096 = 0) by (unfold upto, at_; lia).
    generalize dependent (upto (i + 1)). intros stop Hs. clearbody at_. destruct Hc1 as (Hi1 & Htl1 & Hr1).
    eapply wp_mono; [apply (wp_unmap_range G1 rest s1 root tabs1 (outside (page_of_virt from) (page_of_virt at_) maps) at_ stop (fun _ (_ : E) => False))| |done].
    1: by rewrite Hr1.
    1: exact HG1.
    1-4: change USER_LIMIT with (2 ^ 47); lia.
    intros s2 _ (Hm2 & G2 & Hi2 & Hcl2). exists G2, rest. split; [exact Hi2|]. intros s3 Hc3 Hw3 Hm3. split; [congruence|].
    exists G2. split; [done|]. rewrite Hw3. eapply cleared_more; [|exact Hcl1|exact HG1|exact Hcl2]. unfold page_of_virt. lia.
  - split; [done|]. exists G. split; [done|]. replace (upto 0) with from by (unfold upto; lia). by apply cleared_none.
  - intros s' (Hm & G' & Hc' & H). split; [done|]. exists G'. split; [done|]. by replace (upto (Z.max 0 n)) with to in H by (unfold upto; lia).
Qed.

Lemma wp_locked_record {E} G rest (s : Sys V) root (f : MemState V -> M (Sys V) E (MemState V)) (Q : Sys V -> unit -> Prop) X :
  calm G rest s -> wp (f (record_of root s)) (fun s' m => s' = s /\ forall s2, calm G rest s2 -> phys_words s2 = phys_words s -> mems s2 = <[root := m]> (mems s) -> Q s2 tt) (fun _ _ => False) s ->
  wp (locked (let! m := gets (record_of root) in let! m := f m in put_record root m)) Q X s.
Proof.
  intros Hc H. eapply wp_locked; [exact Hc|]. apply wp_bind, wp_gets, wp_bind. eapply wp_mono; [exact H| |done].
  intros s' m [-> HQ]. apply wp_modify. destruct Hc as (Hi & Ht & Hr). exists G, rest. cbn. rewrite Hr. split; [done|]. intros s2 H1 H2 H3. by apply HQ.
Qed.

Lemma wp_unmap_recorded {E} G rest (s : Sys V) root tabs maps from to (X : Sys V -> E -> Prop) :
  calm G rest s -> G !! root = Some (tabs, maps) -> Forall vma_ok (vmas (record_of root s)) ->
  0 <= from <= to -> to <= USER_LIMIT -> from `mod` 4096 = 0 -> to `mod` 4096 = 0 ->
  wp (unmap_recorded root from to) (fun s' _ => exists G' m', calm G' rest s' /\
    cleared (page_of_virt from) (page_of_virt to) root tabs maps G (phys_words s) G' (phys_words s') /\
    mems s' = <[root := m']> (mems s) /\ m' = set_vmas (vmas m') (record_of root s) /\ Forall vma_ok (vmas m') /\
    forall a, a `mod` 4096 = 0 -> region_at m' a = if decide (from <= a < to) then None else region_at (record_of root s) a) X s.
Proof.
  intros Hc HG Hok Hr Hl Hf Ht. unfold unmap_recorded. apply wp_bind. eapply wp_locked_record; [exact Hc|].
  eapply wp_mono; [apply (wp_remove_vma_range from to (record_of root s) (fun _ (_ : E) => False) s); done| |done].
  intros s' m' (-> & Hm & Hok' & Hs). split; [done|]. intros s1 Hc1 Hw1 Hm1.
  eapply wp_mono; [apply (wp_unmap_pages G rest s1 root tabs maps from to (fun _ (_ : E) => False)); done| |done].
  intros s2 _ (Hm2 & G2 & Hc2 & Hcl). exists G2, m'. rewrite Hw1 in Hcl. split_and!; try done. congruence.
Qed.

(** What [munmap] takes for an answer. *)
Definition munmap_args (a n : Z) : Prop := n <> 0 /\ a `mod` 4096 = 0 /\ a + n <= USER_LIMIT.

Lemma in_user_space_spec a n : is_u64 a -> is_u64 n -> 0 < n -> in_user_space a n = true <-> a + n <= USER_LIMIT.
Proof.
  unfold is_u64, u64_max. intros Ha Hn Hpos. unfold in_user_space, checked_add64, is_user_addr, saturating_sub. change USER_LIMIT with (2 ^ 47).
  destruct (Z.leb_spec (a + n) u64_max) as [|Hbig]; unfold u64_max in *; [rewrite andb_true_iff|]; lia.
Qed.

Lemma wp_sys_munmap G rest (s : Sys V) root tabs maps a n :
  calm G rest s -> G !! root = Some (tabs, maps) -> Forall vma_ok (vmas (record_of root s)) -> is_u64 a -> is_u64 n ->
  wp (sys_munmap root a n) (fun s' x => x = 0 /\ munmap_args a n /\ exists to G' m', rounded_up (a + n) 4096 to /\ calm G' rest s' /\
      cleared (page_of_virt a) (page_of_virt to) root tabs maps G (phys_words s) G' (phys_words s') /\
      mems s' = <[root := m']> (mems s) /\ m' = set_vmas (vmas m') (record_of root s) /\ Forall vma_ok (vmas m') /\
      forall b, b `mod` 4096 = 0 -> region_at m' b = if decide (a <= b < to) then None else region_at (record_of root s) b)
    (fun s' e => s' = s /\ e = EINVAL /\ ~ munmap_args a n) s.
Proof.
  intros Hc HG Hok Ha Hn. unfold sys_munmap. change (PAGE - 1) with (Z.ones 12). rewrite Z.land_ones by lia. change (2 ^ 12) with 4096.
  destruct (Z.eqb_spec n 0) as [->|Hn0]; cbn [orb]; [apply wp_throw; split_and!; [done..|by intros [[] _]]|].
  destruct (Z.eqb_spec (a `mod` 4096) 0) as [Hal|]; cbn [orb negb]; [|apply wp_throw; split_and!; [done..|by intros (_ & ? & _)]].
  pose proof (in_user_space_spec a n Ha Hn ltac:(unfold is_u64 in *; lia)) as Hu.
  destruct (in_user_space a n) eqn:E1; cbn [negb]; [|apply wp_throw; split_and!; [done..|intros (_ & _ & H); by apply Hu in H]].
  assert (Hlim : a + n <= USER_LIMIT) by (by apply Hu). clear Hu E1. change USER_LIMIT with (2 ^ 47) in *. unfold is_u64 in *.
  apply wp_bind, wp_checked; [unfold u64_max; lia|]. apply wp_bind. unfold page_align_up, PAGE_SIZE. change 4096 with (2 ^ 12) at 1.
  apply wp_align_up; [lia|lia|unfold u64_max; lia|]. change (2 ^ 12) with 4096. intros to Hto. pose proof Hto as [Hto1 Hto2].
  assert (Hdown : page_align_down a = a).
  { unfold page_align_down, PAGE. change 4096 with (2 ^ 12). rewrite align_down_spec by (unfold is_u64; lia). change (2 ^ 12) with 4096. lia. }
  rewrite Hdown. apply wp_bind. eapply wp_mono; [apply (wp_unmap_recorded G rest s root tabs maps a to (fun _ (_ : Errno) => False)); try done; change USER_LIMIT with (2 ^ 47); lia| |done].
  intros s' _ (G' & m' & H). apply wp_ret. split; [done|]. split; [done|]. exists to, G', m'. tauto.
Qed.

(** ** The end of an address space *)

Lemma slot_delete G root root' q b : slot (delete root G) root' q b -> slot G root' q b /\ root' <> root.
Proof. intros (tabs & maps & [Hne HG]%lookup_delete_Some & Hq). split; [by exists tabs, maps|done]. Qed.

(** One address space is taken out, its frames with it. *)
Lemma inv_delete G rest w root g w' :
  inv G rest w -> G !! root = Some g -> owners r nf w' (all_frames (delete root G) ++ rest) -> cached w' = ∅ ->
  (forall t i, t ∉ tab_frames g.1 -> read (words w') t i = read (words w) t i) -> inv (delete root G) rest w'.
Proof.
  intros Hi HG Ho Hca Hw. destruct g as [tabs maps]. split.
  - intros root2 tabs2 maps2 [Hne HG2]%lookup_delete_Some. eapply hier_frame; [|apply (i_hier Hi HG2)]. intros k t i Hk. apply Hw.
    eapply (table_alone r nf active); [exact Hi|exact HG2|apply tab_frames_in; eauto|exact HG|done].
  - done.
  - intros root2 tabs2 maps2 t [Hne HG2]%lookup_delete_Some Ht. pose proof (i_alone Hi HG2 Ht) as H1. rewrite !occ_app in *.
    rewrite (occ_perm _ _ _ (all_frames_delete _ _ _ HG)), occ_app in H1. pose proof (occ_nonneg t rest). pose proof (occ_nonneg t (space_frames (tabs, maps))).
    assert (t ∈ all_frames (delete root G)) as Hin%occ_pos; [|lia].
    rewrite (all_frames_delete (delete root G) root2 (tabs2, maps2)) by (by rewrite lookup_delete_ne). apply elem_of_app. left. apply elem_of_app. by left.
  - intros root2 q b [Hs _]%slot_delete. by apply (i_leaf Hi Hs).
  - intros r1 q1 b1 r2 q2 b2 [H1 _]%slot_delete [H2 _]%slot_delete. by apply (i_cow Hi).
  - intros q b. by rewrite Hca.
  - apply (i_frames Hi).
Qed.

Lemma wp_drop_mm {E} G rest (s : Sys V) live root tabs maps (X : Sys V -> E -> Prop) :
  calm G rest s -> G !! root = Some (tabs, maps) -> root <> live ->
  wp (drop_mm live root) (fun s' _ => calm (delete root G) rest s' /\ amem (delete root G) (phys_words s') = delete root (amem G (phys_words s)) /\
    mems s' = delete root (mems s) /\ cached (walk s') = ∅) X s.
Proof.
  intros (Hi & Ht & Hr) HG Hne. unfold drop_mm. rewrite (proj2 (Z.eqb_neq _ _)) by done. apply wp_bind. unfold on_walk at 1. apply wp_zoom.
  change USER_LIMIT with (2 ^ 47). eapply wp_mono; [apply (wp_free_below user_half r nf (walk s) root tabs maps (all_frames (delete root G) ++ rest) (fun _ (_ : E) => False))| |done].
  - done.
  - apply (i_hier Hi HG).
  - unfold owners. eapply owners_perm; [|exact (i_owners Hi)]. rewrite (all_frames_delete _ _ _ HG). unfold space_frames. cbn [fst snd]. by rewrite <- !app_assoc.
  - intros w _ (Ho & Hca & Hst & Htl & Hw). apply wp_bind. unfold on_walk. apply wp_zoom. cbn [walk set_walk].
    eapply wp_mono; [apply (wp_machine_free user_half r nf w _ root (all_frames (delete root G) ++ rest) (fun _ (_ : E) => False) Ho); reflexivity| |done].
    intros w2 _ (a & -> & Ho2). apply wp_modify. cbn. split_and!; [| |done|done].
    + split_and!; cbn; [|congruence|done]. eapply inv_delete; [exact Hi|exact HG|exact Ho2|exact Hca|exact Hw].
    + transitivity (amem (delete root G) (phys_words s)); [|unfold amem; by rewrite fmap_delete]. apply amem_same.
      intros root2 q b [Hs _]%slot_delete i. apply Hw. intros Hin. by apply (table_not_page Hi Hs HG Hin).
Qed.

(** ** A mapping with no file *)

(** What [find_free_region] has to work with. *)
Definition placed (top : Z) (m : MemState V) : Prop :=
  Forall vma_ok (vmas m) /\ 0 <= mmap_top m <= top /\ mmap_top m `mod` 4096 = 0 /\ forall v, v ∈ vmas m -> end_ v <= top.

(** Every region ends before the place the next one is looked for. *)
Definition below_top (m : MemState V) : Prop := forall v, v ∈ vmas m -> end_ v <= mmap_top m.

(** [find_free_region] stays on page boundaries. *)
Lemma wp_find_aligned {S E} n (m : MemState V) top (X : S -> E -> Prop) (s : S) :
  placed top m -> 0 < n -> n `mod` 4096 = 0 -> top + n + 4096 <= u64_max ->
  wp (find_free_region n m) (fun s' '(at_, m') => s' = s /\ m' = set_mmap_top (at_ + n) m /\ mmap_top m <= at_ <= top /\ at_ `mod` 4096 = 0 /\
    range_is_free at_ (at_ + n) m = true /\ (below_top m -> at_ = mmap_top m)) X s.
Proof.
  intros (Hok & Htop & Hal & Hends) Hn Hna Hroom. unfold find_free_region. apply wp_bind. unfold page_align_up, PAGE_SIZE. change 4096 with (2 ^ 12).
  apply wp_align_up; [lia|lia|change (2 ^ 12) with 4096; lia|]. change (2 ^ 12) with 4096. intros size [Hs1 Hs2]. assert (size = n) as -> by lia.
  apply (wp_loop (fun c s' => s' = s /\ mmap_top m <= c <= top /\ c `mod` 4096 = 0 /\ (below_top m -> c = mmap_top m)) (fun c _ => ends_past c (vmas m))).
  - intros c s' (-> & Hc & Hca & Hbt). apply wp_bind, wp_checked; [lia|]. destruct (List.find _ _) as [v|] eqn:Ef.
    + apply List.find_some in Ef as [Hin%list_elem_of_In Hb]. rewrite Forall_forall in Hok. destruct (Hok v Hin) as (_ & _ & Hv & _).
      apply wp_ret. split_and!; [done|lia|by apply Hends|done| |apply ends_past_less; [done|lia]].
      intros Hbel. specialize (Hbel v Hin). lia.
    + apply wp_ret. split_and!; [done|done|lia|lia|done| |done]. unfold range_is_free. apply forallb_forall. intros v Hv. pose proof (List.find_none _ _ Ef v Hv). cbn in *. lia.
  - split_and!; [done|lia|lia|done|done].
  - unfold ends_past. pose proof (length_filter (fun v => mmap_top m < end_ v) (vmas m)). lia.
Qed.

Lemma wp_mmap_anonymous open G rest (s : Sys V) root n size p fd off top :
  calm G rest s -> placed top (record_of root s) -> 0 < n <= MAX_MAPPING -> rounded_up n 4096 size -> top + MAX_MAPPING + 8192 <= u64_max ->
  wp (sys_mmap open root 0 n p MAP_ANONYMOUS fd off) (fun s' base => exists m', calm G rest s' /\ phys_words s' = phys_words s /\ mems s' = <[root := m']> (mems s) /\
    mmap_top (record_of root s) <= base <= top /\ (below_top (record_of root s) -> base = mmap_top (record_of root s) /\ below_top m') /\
    m' = set_vmas (vmas (record_of root s) ++ [mkVma base (base + size) p MAP_ANONYMOUS None]) (set_mmap_top (base + size) (record_of root s)) /\
    placed (Z.max top (base + size)) m' /\ (forall a, base <= a < base + size -> region_at (record_of root s) a = None) /\
    forall a, region_at m' a = if decide (base <= a < base + size) then Some (p, MAP_ANONYMOUS, None) else region_at (record_of root s) a) (fun _ _ => False) s.
Proof.
  intros Hc Hpl Hn [Hs1 Hs2] Hroom. change MAX_MAPPING with (2 ^ 40) in *. unfold sys_mmap. rewrite (proj2 (Z.eqb_neq _ _)), (proj2 (Z.ltb_ge _ _)) by (change MAX_MAPPING with (2 ^ 40); lia). cbn [orb].
  apply wp_bind. unfold page_align_up at 1, PAGE_SIZE. change 4096 with (2 ^ 12) at 1. apply wp_align_up; [lia|lia|unfold u64_max; lia|]. change (2 ^ 12) with 4096. intros x [Hx1 Hx2].
  assert (x = size) as -> by lia. change (has MAP_ANONYMOUS MAP_ANONYMOUS) with true. change (has MAP_FIXED MAP_ANONYMOUS) with false. cbn [orb].
  apply wp_bind, wp_ret, wp_bind, wp_ret, wp_bind. unfold place. change (has MAP_FIXED MAP_ANONYMOUS) with false. cbv iota. eapply wp_locked; [exact Hc|]. apply wp_bind, wp_gets.
  change (page_align_down 0) with 0. change (0 =? 0) with true. cbn [negb andb]. apply wp_bind.
  eapply wp_mono; [apply (wp_find_aligned size (record_of root s) top (fun _ (_ : Errno) => False) s Hpl); unfold u64_max in *; lia| |done].
  intros s' [base m'] (-> & -> & Hb & Hba & Hfree & Hbt). apply wp_bind, wp_checked; [unfold u64_max in *; destruct Hpl as (_ & ? & _); lia|]. apply wp_bind, wp_modify, wp_ret.
  destruct Hc as (Hi & Ht & Hr). exists G, rest. cbn [retired set_mems walk]. rewrite Hr. split; [done|]. intros s2 Hc2 Hw2 Hm2. apply wp_ret. eexists. split_and!; [apply Hc2|done|exact Hm2|lia|lia| |done| | |].
  - intros Hbel. rewrite <- (Hbt Hbel). split; [done|]. intros v. cbn. rewrite elem_of_app, list_elem_of_singleton. pose proof (Hbt Hbel). intros [Hv| ->]; cbn; [specialize (Hbel v Hv)|]; lia.
  - destruct Hpl as (Hok & Htop & Hta & Hends). split_and!; cbn.
    + apply Forall_app. split; [done|]. constructor; [|constructor]. split_and!; cbn; unfold PAGE; [lia|lia|done|lia|done].
    + lia.
    + lia.
    + lia.
    + intros v. rewrite elem_of_app, list_elem_of_singleton. intros [Hv| ->]; cbn; [specialize (Hends v Hv)|]; lia.
  - intros a Ha. by apply (region_free _ base (base + size)).
  - intros a. unfold region_at. cbn [vmas set_vmas set_mmap_top]. rewrite region_new by exact Hfree. unfold contains. cbn [start end_].
    destruct (decide (base <= a < base + size)); [rewrite (proj2 (Z.leb_le _ _)), (proj2 (Z.ltb_lt _ _)) by lia; done|].
    destruct (Z.leb_spec base a), (Z.ltb_spec a (base + size)); done || lia.
Qed.

(** [mmap] of memory with no file records the whole range asked for at a place
    where there was no region, says of every other address what was said before,
    and changes no page of any program. *)
Theorem mmap_records open G rest (s : Sys V) root n size p fd off top :
  calm G rest s -> placed top (record_of root s) -> 0 < n <= MAX_MAPPING -> rounded_up n 4096 size -> top + MAX_MAPPING + 8192 <= u64_max ->
  wp (sys_mmap open root 0 n p MAP_ANONYMOUS fd off) (fun s' base => calm G rest s' /\ amem G (phys_words s') = amem G (phys_words s) /\
    (forall a, base <= a < base + size -> region_at (record_of root s) a = None) /\
    forall a, region_at (record_of root s') a = if decide (base <= a < base + size) then Some (p, MAP_ANONYMOUS, None) else region_at (record_of root s) a)
    (fun _ _ => False) s.
Proof.
  intros Hc Hpl Hn Hs Hroom. eapply wp_mono; [by apply (wp_mmap_anonymous open G rest s root n size p fd off top)| |done].
  intros s' base (m' & Hc' & Hw & Hm & _ & _ & _ & _ & Hnone & Hreg). split_and!; [exact Hc'|by rewrite Hw|done|].
  intros a. unfold record_of at 1. rewrite Hm, lookup_insert_eq. apply Hreg.
Qed.

(** C40: The place [mmap] chooses is not held to the half of the address space a
    program owns: after one mapping as long as a mapping may be, the next one with
    no address of its own is put at the first address of the kernel's half, and the
    call succeeds. *)
Theorem mmap_past_user_half open G rest (s : Sys V) root n p fd off :
  calm G rest s -> record_of root s = mem_new -> 0 < n <= MAX_MAPPING ->
  wp (let! _ := sys_mmap open root 0 MAX_MAPPING p MAP_ANONYMOUS fd off in sys_mmap open root 0 n p MAP_ANONYMOUS fd off)
    (fun _ base => base = USER_LIMIT /\ is_user_addr base = false) (fun _ _ => False) s.
Proof.
  intros Hc Hrec Hn. apply wp_bind.
  assert (Hpl : placed USER_LIMIT (record_of root s)) by (rewrite Hrec; split_and!; [constructor|done|done|done|by intros v ?%elem_of_nil]).
  eapply wp_mono; [apply (wp_mmap_anonymous open G rest s root MAX_MAPPING MAX_MAPPING p fd off USER_LIMIT Hc Hpl)| |done].
  - done.
  - done.
  - done.
  - intros s1 base (m' & Hc1 & _ & Hm1 & Hb & Hbt & -> & Hpl1 & _ & _). destruct Hbt as [-> Hbel]; [rewrite Hrec; by intros v ?%elem_of_nil|].
    set (m1 := set_vmas _ _) in *. assert (Hrec1 : record_of root s1 = m1) by (unfold record_of; by rewrite Hm1, lookup_insert_eq).
    assert (Htop : mmap_top m1 = USER_LIMIT) by (unfold m1; rewrite Hrec; done).
    pose proof (div_ceil_spec n 4096 ltac:(lia) ltac:(lia)) as Hd. change MAX_MAPPING with (2 ^ 40) in *.
    eapply wp_mono; [apply (wp_mmap_anonymous open G rest s1 root n (div_ceil n 4096 * 4096) p fd off USER_LIMIT Hc1)| |done].
    + rewrite Hrec1. rewrite Hrec in Hpl1. exact Hpl1.
    + done.
    + split; [by apply Z.mod_mul|lia].
    + done.
    + intros s2 base2 (? & _ & _ & _ & _ & Hbt2 & _). destruct Hbt2 as [-> _]; [by rewrite Hrec1|]. by rewrite Hrec1, Htop.
Qed.

(** C12: [munmap] takes exactly the pages of the range, rounded up, out of the
    address space and what the record says of them with it, keeps every other page
    of every program, and leaves no table that leads to no page if there was none.
    It is refused, with nothing changed, exactly for a length of zero, an address
    inside a page or a range outside the program's half. *)
Theorem munmap_exact G rest (s : Sys V) root tabs maps a n :
  calm G rest s -> G !! root = Some (tabs, maps) -> Forall vma_ok (vmas (record_of root s)) -> is_u64 a -> is_u64 n ->
  wp (sys_munmap root a n) (fun s' x => x = 0 /\ munmap_args a n /\ exists to G', rounded_up (a + n) 4096 to /\ calm G' rest s' /\
      cleared (page_of_virt a) (page_of_virt to) root tabs maps G (phys_words s) G' (phys_words s') /\
      forall b, b `mod` 4096 = 0 -> region_at (record_of root s') b = if decide (a <= b < to) then None else region_at (record_of root s) b)
    (fun s' e => s' = s /\ e = EINVAL /\ ~ munmap_args a n) s.
Proof.
  intros Hc HG Hok Ha Hn. eapply wp_mono; [by apply (wp_sys_munmap G rest s root tabs maps a n)| |done].
  intros s' x (-> & Hargs & to & G' & m' & Hto & Hc' & Hcl & Hm & _ & _ & Hreg). split_and!; [done|done|]. exists to, G'. split_and!; [exact Hto|exact Hc'|done|].
  intros b Hb. unfold record_of at 1. rewrite Hm, lookup_insert_eq. by apply Hreg.
Qed.

(** C13: The end of an address space gives back every table and every page of it
    once, whatever its tables look like: a frame of it that no other owner has is
    free afterwards, one that has others keeps them, and no other program sees a
    difference. The processor keeps no descriptor of it. *)
Theorem exit_gives_back G rest (s : Sys V) live root tabs maps :
  calm G rest s -> G !! root = Some (tabs, maps) -> root <> live ->
  wp (E := Errno) (drop_mm live root) (fun s' _ => calm (delete root G) rest s' /\ amem (delete root G) (phys_words s') = delete root (amem G (phys_words s)) /\
    cached (walk s') = ∅ /\ forall p, p ∈ space_frames (tabs, maps) -> exists f, p = f * 4096 /\
      held (pool (walk s')) f = bool_decide (p ∈ all_frames (delete root G) ++ rest)) (fun _ _ => False) s.
Proof.
  intros Hc HG Hne. eapply wp_mono; [by apply (wp_drop_mm G rest s live root tabs maps (fun _ (_ : Errno) => False))| |done].
  intros s' _ (Hc' & Ha & _ & Hca). split_and!; [exact Hc'|done|done|]. intros p Hp. destruct Hc as (Hi & _ & _), Hc' as (Hi' & _ & _).
  destruct (handle_held r nf _ _ p (i_owners Hi)) as (f & Hf & -> & Hr & _).
  { rewrite (all_frames_delete _ _ _ HG), !elem_of_app. auto. }
  exists f. split; [done|]. destruct (i_owners Hi') as (_ & _ & _ & Hown). specialize (Hown f Hf). unfold owned_right in Hown. rewrite Hr in Hown. cbn [allocator handles] in Hown. destruct Hown as [-> _].
  apply eq_bool_prop_intro. rewrite bool_decide_spec. split; intros H; [apply occ_pos; by apply Is_true_true, Z.ltb_lt in H|apply Is_true_true, Z.ltb_lt; by apply occ_pos].
Qed.
End unmap.
