(* ===== verification/SpaceFork.v ===== *)
(** * An address space that is another's copy

    [Mm::fork]: the child has exactly the pages of its parent, with the same words
    in them, and neither the parent nor any other program sees a difference. No
    page is copied: both sides are left unable to write the frames they share, so
    that [break_cow] parts them. *)

From stdpp Require Import gmap.
From S2P Require Import Prelude Words Handoff Frame FrameSpec FrameAlloc FrameOwners Walk WalkSpec Space SpaceSpec SpaceRun.

(** ** The pages that follow *)

Section next.
Context {P : Paging} {writes : Z -> bool} {PL : PagingLaws P writes}.

Lemma lacking_first tabs n m v : closed user_half tabs -> (n <= 3)%nat -> lacking tabs n v = S m -> tabs !! (Z.of_nat m, pre (Z.of_nat m) v) = None.
Proof.
  intros Hc. induction n as [|n IH]; intros Hn; cbn [lacking]; [done|]. destruct (tabs !! (Z.of_nat n, pre (Z.of_nat n) v)) eqn:E; [apply IH; lia|].
  rewrite (lacking_all user_half) by (done || lia). by intros [= <-].
Qed.

(** Nothing is mapped in the block whose table there is not. *)
Lemma missing_block w root tabs maps v l q :
  hier user_half w root tabs maps -> 0 <= v < USER_LIMIT -> missing_tables w root v = l -> l <> 0 ->
  q * 4096 / level_size l = v / level_size l -> maps !! q = None.
Proof.
  intros Hh Hv Hl Hl0 Hq. rewrite (missing_tables_lacking user_half w root tabs maps v Hh (user_owned v Hv)) in Hl.
  destruct (lacking tabs 3 v) as [|m] eqn:Em; [lia|]. subst l. assert (Hm : (m < 3)%nat).
  { destruct (decide (m < 3)%nat) as [|Hge]; [done|]. clear -Em Hge. exfalso. cbn in Em. repeat destruct (tabs !! _); lia. }
  pose proof (lacking_first tabs 3 m v (h_closed _ _ _ _ _ Hh) ltac:(lia) Em) as Hn.
  assert (Hpre : pre (Z.of_nat m) (q * 4096) = pre (Z.of_nat m) v).
  { unfold pre. unfold level_size, PAGE_BITS, LEVEL_BITS in Hq. rewrite !Z.shiftl_mul_pow2, Z.mul_1_l in Hq by lia.
    by replace (Z.of_nat m + 1) with (Z.of_nat (S m)) by lia. }
  rewrite <- Hpre in Hn. apply (none_below user_half) in Hn; [|apply Hh|lia]. destruct (maps !! q) as [b|] eqn:Eb; [|done].
  apply (tk_maps _ _ _ _ _ (h_tables _ _ _ _ _ Hh)) in Eb as [Hq0 [t Ht]]. unfold pre in Hn. change (2 ^ (12 + 9 * (0 + 1))) with (4096 * 512) in Hn.
  rewrite <- Z.div_div, Z.div_mul in Hn by lia. congruence.
Qed.

Lemma level_size_spec l : 1 <= l <= 3 -> exists k, level_size l = 2 ^ 21 * k /\ 0 < k /\ level_size l <= 2 ^ 39 /\ exists n, level_size l = 2 ^ n /\ 0 <= n < 64.
Proof.
  intros Hl. assert (l = 1 \/ l = 2 \/ l = 3) as [-> |[-> | ->]] by lia.
  - exists 1. split_and!; [done..|]. by exists 21.
  - exists 512. split_and!; [done..|]. by exists 30.
  - exists (512 * 512). split_and!; [done..|]. by exists 39.
Qed.

(** What [next_populated] passed over. *)
Definition bare (maps : gmap Z Z) (from to : Z) : Prop := forall q, from <= q * 4096 < to -> maps !! q = None.

Lemma wp_next_populated {E} s root tabs maps from (X : Walk -> E -> Prop) :
  hier user_half (words s) root tabs maps -> 0 <= from < USER_LIMIT -> from `mod` 2 ^ 21 = 0 ->
  wp (next_populated root from USER_LIMIT) (fun s' o => s' = s /\
    match o with
    | Some v => v `mod` 2 ^ 21 = 0 /\ from <= v < USER_LIMIT /\ bare maps from v
    | None => bare maps from USER_LIMIT
    end) X s.
Proof.
  intros Hh Hfrom Hal. unfold next_populated. apply wp_bind, wp_gets. change (Z.min USER_LIMIT SPAN) with USER_LIMIT.
  change (Z.land from (not64 (level_size 1 - 1))) with (align_down from (2 ^ 21)). rewrite align_down_spec, Hal, Z.sub_0_r by (change USER_LIMIT with (2 ^ 47) in *; unfold is_u64, u64_max; lia).
  apply (wp_long_loop (fun v s' => s' = s /\ v `mod` 2 ^ 21 = 0 /\ from <= v <= USER_LIMIT /\ bare maps from v) (fun v _ => (USER_LIMIT - v) / 2 ^ 21)).
  - intros v s' (_ & _ & Hv & _). apply Z.div_pos; lia.
  - intros v s' (-> & Hva & Hv & Hb). apply wp_ret. unfold populated_turn. destruct (Z.ltb_spec v USER_LIMIT) as [Hlt|]; [|split; [done|]; by replace USER_LIMIT with v by lia].
    destruct (missing_tables (words s) root v) as [|p|p] eqn:Em; [split_and!; done || lia| |].
    2: { rewrite (missing_tables_lacking user_half _ root tabs maps v Hh (user_owned v ltac:(lia))) in Em. lia. }
    assert (Hp : 1 <= Z.pos p <= 3).
    { rewrite (missing_tables_lacking user_half _ root tabs maps v Hh (user_owned v ltac:(lia))) in Em. cbn in Em. repeat destruct (tabs !! _); lia. }
    destruct (level_size_spec (Z.pos p) Hp) as (k & Hk & Hk0 & Hmax & n & Hn & Hn64). change USER_LIMIT with (2 ^ 47) in *. unfold checked_add64.
    change (Z.land v (not64 (level_size (Z.pos p) - 1))) with (align_down v (level_size (Z.pos p))).
    assert (align_down v (level_size (Z.pos p)) = v - v `mod` level_size (Z.pos p)) as -> by (rewrite Hn; apply align_down_spec; [unfold is_u64, u64_max; lia|done]).
    pose proof (Z.mod_pos_bound v (level_size (Z.pos p)) ltac:(lia)) as Hmod.
    rewrite (proj2 (Z.leb_le _ _)) by (unfold u64_max; lia). set (next := v - v `mod` level_size (Z.pos p) + level_size (Z.pos p)).
    assert (Hnext : next = (v / level_size (Z.pos p) + 1) * level_size (Z.pos p)) by (unfold next; pose proof (Z.div_mod v (level_size (Z.pos p)) ltac:(lia)); lia).
    assert (Hdiv : exists c, 2 ^ 47 = level_size (Z.pos p) * c).
    { exists (2 ^ (47 - n)). rewrite Hn, <- Z.pow_add_r; [f_equal; lia|lia|]. assert (2 ^ n <= 2 ^ 39) as Hle by lia. apply Z.pow_le_mono_r_iff in Hle; lia. }
    destruct Hdiv as [c Hc]. assert (Hnl : next <= 2 ^ 47).
    { rewrite Hnext, Hc, (Z.mul_comm _ c). apply Z.mul_le_mono_nonneg_r; [lia|]. assert (v / level_size (Z.pos p) < c) by (apply Z.div_lt_upper_bound; lia). lia. }
    assert (Hstep : exists d, next = v + 2 ^ 21 * d /\ 0 < d).
    { assert (Hv2 : v = 2 ^ 21 * (v / 2 ^ 21)) by (apply Z.div_exact; done). assert (Hgt : v < next) by (unfold next; lia).
      assert (Hn2 : next = 2 ^ 21 * ((v / level_size (Z.pos p) + 1) * k)) by (rewrite Hnext, Hk at 1; rewrite Hk; lia).
      exists ((v / level_size (Z.pos p) + 1) * k - v / 2 ^ 21). clear -Hv2 Hgt Hn2. lia. }
    destruct Hstep as (d & Hd & Hd0). split_and!; [done| |lia|lia| |].
    + rewrite Hd, (Z.mul_comm _ d), Z.mod_add by done. done.
    + intros q Hq. destruct (decide (q * 4096 < v)) as [|Hge]; [apply Hb; lia|].
      eapply (missing_block (words s) root tabs maps v (Z.pos p) q); [done|change USER_LIMIT with (2 ^ 47); lia|done|done|].
      symmetry. apply (Z.div_unique_pos (q * 4096) _ _ (q * 4096 - v / level_size (Z.pos p) * level_size (Z.pos p))); [|lia].
      pose proof (Z.div_mod v (level_size (Z.pos p)) ltac:(lia)). lia.
    + rewrite Hd. replace (2 ^ 47 - (v + 2 ^ 21 * d)) with (2 ^ 47 - v + - d * 2 ^ 21) by lia. rewrite Z.div_add by done. lia.
  - split_and!; [done|done|lia|lia|]. intros q Hq. lia.
  - change USER_LIMIT with (2 ^ 47) in *. apply Z.div_lt_upper_bound; [done|]. change (2 ^ 21 * 2 ^ Z.of_nat 28) with (2 ^ 49). lia.
Qed.
End next.

(** Page [q] of [parent] put into [child] too. *)
Definition copied (parent child q : Z) (A : gmap Z (gmap Z (list Z))) : gmap Z (gmap Z (list Z)) :=
  match A !! parent ≫= (.!! q) with
  | Some c => alter <[q := c]> child A
  | None => A
  end.

Section fork.
Context {P : Paging} {writes : Z -> bool} {PL : PagingLaws P writes} {V : Type} {FV : Files V}.
Context (r : Z -> bool) (nf : Z) (active : Z).
Abbreviation inv := (inv (writes := writes) r nf active).
Abbreviation calm := (calm (writes := writes) r nf active).

(** The pages of [root] from [lo] on can each take one more reference. *)
Definition room (G : Ghost) (rest : list Z) (root lo : Z) : Prop :=
  forall q b, lo <= q -> slot G root q b -> occ (addr b) (all_frames G ++ rest) < u16_max.

(** The frames of the stock are no page. *)
Lemma spare_not_page G rest s root q b : inv G (stock s ++ rest) s -> spare_frames G (stock s ++ rest) s (stock s) -> slot G root q b -> occ (addr b) (stock s) = 0.
Proof.
  intros Hi Hsp Hs. pose proof (occ_nonneg (addr b) (stock s)) as H0. destruct (decide (0 < occ (addr b) (stock s))) as [Hp|]; [|lia].
  apply occ_pos in Hp. destruct (Hsp _ Hp) as [Ho _]. apply occ_pos in Hp. destruct (slot_frame Hi Hs) as [Hin%occ_pos _]. rewrite !occ_app in Ho.
  pose proof (occ_nonneg (addr b) rest). lia.
Qed.

(** Only the tables of two address spaces, and the stock, were written. *)
Lemma amem_two G rest s w' parent ptabs pmaps child ctabs cmaps :
  inv G (stock s ++ rest) s -> spare_frames G (stock s ++ rest) s (stock s) -> G !! parent = Some (ptabs, pmaps) -> G !! child = Some (ctabs, cmaps) ->
  (forall t i, t ∉ tab_frames ptabs -> t ∉ tab_frames ctabs -> t ∉ stock s -> read w' t i = read (words s) t i) -> amem G w' = amem G (words s).
Proof.
  intros Hi Hsp HP HC Hw. apply amem_same. intros root q b Hs i. apply Hw.
  - intros Ht. by apply (table_not_page Hi Hs HP Ht).
  - intros Ht. by apply (table_not_page Hi Hs HC Ht).
  - intros Ht%occ_pos. rewrite (spare_not_page _ _ _ _ _ _ Hi Hsp Hs) in Ht. lia.
Qed.

(** The page of a frame is exchanged for another of the same frame. *)
Lemma occ_put G root tabs maps q b b' x :
  G !! root = Some (tabs, maps) -> maps !! q = Some b -> addr b' = addr b ->
  occ x (all_frames (<[root := (tabs, <[q := b']> maps)]> G)) = occ x (all_frames G).
Proof.
  intros HG Hq E. rewrite (occ_perm _ _ _ (all_frames_update _ _ _ _ HG)), (occ_perm _ _ _ (all_frames_delete _ _ _ HG)). unfold space_frames. cbn [fst snd]. rewrite !occ_app.
  rewrite (occ_perm _ _ _ (page_frames_delete _ _ _ Hq)), <- insert_delete_eq, (occ_perm _ _ _ (page_frames_insert _ _ _ (lookup_delete_eq _ _))), !occ_cons, E. lia.
Qed.

(** ** A stock of tables *)

(** A frame that was just handed out was in no one's hands. *)
Lemma fresh_kept (G : Ghost) (rest : list Z) (w w' : gmap (Z * Z) Z) p :
  occ p (all_frames G ++ p :: rest) = 1 -> (forall t i, t <> p -> read w' t i = read w t i) ->
  forall t i, t ∈ all_frames G ++ rest -> read w' t i = read w t i.
Proof.
  intros Ho Hw t i Ht. apply Hw. intros ->. apply occ_pos in Ht. rewrite occ_app in Ht. rewrite occ_app, occ_cons, decide_True in Ho by done. lia.
Qed.

Lemma amem_kept G rest s w' : inv G rest s -> (forall t i, t ∈ all_frames G ++ rest -> read w' t i = read (words s) t i) -> amem G w' = amem G (words s).
Proof. intros Hi Hw. apply amem_same. intros root q b Hs i. apply Hw. apply elem_of_app. left. by apply (slot_frame Hi Hs). Qed.

Lemma wp_take_tables {E} G rest (X : Sys V -> E -> Prop) n : forall (s : Sys V) l,
  calm G (l ++ rest) s -> spare_frames G (l ++ rest) (walk s) l ->
  wp (take_tables n l) (fun s' o => mems s' = mems s /\ (forall t i, t ∈ all_frames G ++ l ++ rest -> read (phys_words s') t i = read (phys_words s) t i) /\
    exists l', (o = inl l' \/ o = inr l') /\ calm G (l' ++ rest) s' /\ spare_frames G (l' ++ rest) (walk s') l') X s.
Proof.
  induction n as [|n IH]; intros s l (Hi & Ht & Hr) Hsp.
  { apply wp_ret. split_and!; [done..|]. exists l. split_and!; [by left|done|done]. }
  cbn [take_tables]. apply wp_bind. unfold on_walk. apply wp_zoom.
  eapply wp_mono; [apply (wp_inv_zeroed r nf active G (l ++ rest) (walk s) (fun _ (_ : E) => False) Hi)| |done]. intros w o (Hst & Htl & Hca & H). destruct o as [p|].
  - destruct H as (Hi1 & Ho & Hz & Hw). pose proof (fresh_kept _ _ _ _ _ Ho Hw) as Hk. eapply wp_mono; [apply (IH (set_walk w s) (p :: l))| |done].
    + split_and!; [exact Hi1|cbn; congruence|done].
    + intros f [->|Hf]%elem_of_cons; [by split|]. destruct (Hsp f Hf) as [Hof Hzf]. split.
      * cbn [app]. rewrite occ_app, occ_cons, decide_False, Z.add_0_l, <- occ_app; [done|]. intros ->.
        rewrite occ_app, occ_cons, decide_True in Ho by done. apply occ_pos in Hf. rewrite occ_app in Ho. pose proof (occ_nonneg p (all_frames G)). pose proof (occ_nonneg p rest). lia.
      * intros i. cbn [walk set_walk]. rewrite Hk; [apply Hzf|]. apply elem_of_app. right. apply elem_of_app. by left.
    + intros s' o (Hm & Hk' & l' & H). split_and!; [done| |by exists l']. intros t i Hti. rewrite Hk'; [by apply Hk|]. rewrite !elem_of_app in *. set_solver.
  - destruct H as [Hi1 Hw]. apply wp_ret. unfold phys_words. cbn. rewrite Hw. split_and!; [done|done|]. exists l. split_and!; [by right|split_and!; cbn; congruence|].
    intros f Hf. cbn. rewrite Hw. by apply Hsp.
Qed.

(** ** An address space with nothing in it *)

Lemma wp_adopt_top {E} root src w (X : Walk -> E -> Prop) :
  wp (adopt_top root src 256 ENTRIES) (fun w' _ => (exists ws, w' = set_words ws w) /\
    forall t i, (t <> root \/ i < 256) -> read (words w') t i = read (words w) t i) X w.
Proof.
  unfold adopt_top. apply (wp_for _ (fun _ w' => (exists ws, w' = set_words ws w) /\ forall t i, (t <> root \/ i < 256) -> read (words w') t i = read (words w) t i)).
  - intros x w' Hx [[ws ->] Hr]. apply wp_bind, wp_gets. destruct (_ =? 0); cbn [negb]; [apply wp_ret; split; [by exists ws|done]|].
    apply wp_modify. split; [by eexists|]. intros t i Hti. cbn. rewrite read_store, decide_False by lia. by apply Hr.
  - split; [exists (words w); by destruct w|done].
  - done.
Qed.

Definition bare_tables (root : Z) : gmap (Z * Z) Z := {[(3, 0) := root]}.

Lemma hier_bare w root : (forall i, i < 256 -> read w root i = 0) -> hier user_half w root (bare_tables root) ∅.
Proof.
  intros Hz. unfold bare_tables. assert (Hk : forall l p t, ({[(3, 0) := root]} : gmap (Z * Z) Z) !! (l, p) = Some t -> l = 3 /\ p = 0 /\ t = root).
  { intros l p t H. apply lookup_singleton_Some in H as [[= <- <-] <-]. done. }
  split; [apply lookup_singleton_eq| |].
  - split.
    + intros l p t (-> & -> & ->)%Hk. lia.
    + intros l p t i (-> & -> & ->)%Hk _ Hi Hown _. specialize (Hown eq_refl). unfold user_half in Hown. rewrite Hz by lia. unfold table_of. rewrite absent_zero. cbn.
      apply lookup_singleton_ne. intros [=].
    + intros p t i (? & _)%Hk. done.
    + intros l p t i (-> & -> & ->)%Hk _ Hi Hown. specialize (Hown eq_refl). unfold user_half in Hown. rewrite Hz, absent_zero by lia. done.
    + intros q b. by rewrite lookup_empty.
    + intros [l p] [l' p'] t (-> & -> & ->)%Hk (-> & -> & _)%Hk. done.
  - intros l p t (-> & _)%Hk. lia.
Qed.

Lemma slot_insert G root g root' q b : slot (<[root := g]> G) root' q b -> root' <> root -> slot G root' q b.
Proof. intros (tabs & maps & HG & Hq) Hne. rewrite lookup_insert_ne in HG by done. by exists tabs, maps. Qed.

Lemma inv_bare G rest s root :
  inv G (root :: rest) s -> occ root (all_frames G ++ root :: rest) = 1 -> (forall i, i < 256 -> read (words s) root i = 0) ->
  G !! root = None /\ inv (<[root := (bare_tables root, ∅)]> G) rest s.
Proof.
  intros Hi Ho Hz. assert (Hno : G !! root = None).
  { destruct (G !! root) as [[tabs maps]|] eqn:HG; [|done]. exfalso. apply (rest_not_table Hi (p := root) ltac:(by left) HG). by eapply (root_in r nf active). }
  split; [done|]. assert (Hfr : all_frames (<[root := (bare_tables root, ∅)]> G) ++ rest ≡ₚ all_frames G ++ root :: rest).
  { rewrite all_frames_insert by done. unfold space_frames, tab_frames, page_frames, bare_tables. cbn [fst snd]. rewrite map_to_list_singleton, map_to_list_empty. cbn. by rewrite Permutation_middle. }
  assert (Hslot : forall r1 q b, slot (<[root := (bare_tables root, ∅)]> G) r1 q b -> slot G r1 q b).
  { intros r1 q b Hs. eapply slot_insert; [exact Hs|]. intros ->. destruct Hs as (tb & mp & HG & Hq). rewrite lookup_insert_eq in HG. injection HG as <- <-. done. }
  split.
  - intros r1 tabs maps. rewrite lookup_insert_Some. intros [[<- [= <- <-]]|[Hne HG]]; [by apply hier_bare|by apply (i_hier Hi)].
  - unfold owners. eapply owners_perm; [symmetry; exact Hfr|apply (i_owners Hi)].
  - intros r1 tabs maps t HG Ht. rewrite (occ_perm _ _ _ Hfr). revert HG Ht. rewrite lookup_insert_Some. intros [[<- [= <- <-]]|[Hne HG]] Ht; [|by apply (i_alone Hi HG)].
    unfold tab_frames, bare_tables in Ht. rewrite map_to_list_singleton in Ht. cbn in Ht. apply list_elem_of_singleton in Ht as ->. done.
  - intros r1 q b Hs%Hslot. by apply (i_leaf Hi Hs).
  - intros r1 q1 b1 r2 q2 b2 H1%Hslot H2%Hslot. by apply (i_cow Hi).
  - intros q b Hq. destruct (i_cache Hi Hq) as [|(tabs & maps & HG & Hb)]; [by left|right]. exists tabs, maps. split; [|done]. rewrite lookup_insert_ne; [done|congruence].
  - apply (i_frames Hi).
Qed.

Lemma wp_new_user {E} kernel G rest (s : Sys V) (X : Sys V -> E -> Prop) :
  calm G rest s ->
  wp (new_user kernel) (fun s' o =>
    match o with
    | None => calm G rest s' /\ amem G (phys_words s') = amem G (phys_words s) /\ mems s' = mems s
    | Some root => G !! root = None /\ calm (<[root := (bare_tables root, ∅)]> G) rest s' /\
        amem (<[root := (bare_tables root, ∅)]> G) (phys_words s') = <[root := ∅]> (amem G (phys_words s)) /\ mems s' = <[root := mem_new]> (mems s)
    end) X s.
Proof.
  intros (Hi & Ht & Hr). unfold new_user. apply wp_bind. unfold on_walk at 1. apply wp_zoom.
  eapply wp_mono; [apply (wp_inv_zeroed r nf active G rest (walk s) (fun _ (_ : E) => False) Hi)| |done]. intros w o (Hst & Htl & Hca & H). destruct o as [root|].
  - destruct H as (Hi1 & Ho & Hz & Hw). apply wp_bind. unfold on_walk. apply wp_zoom. cbn [walk set_walk].
    eapply wp_mono; [apply (wp_adopt_top root kernel w (fun _ (_ : E) => False))| |done]. intros w2 _ [[ws ->] Hw2].
    assert (Hi2 : inv G (root :: rest) (set_words ws w)).
    { eapply (inv_rest_words r nf active _ _ _ _ root); [exact Hi1|by left|]. intros t i Hne. apply Hw2. by left. }
    destruct (inv_bare G rest _ root Hi2 Ho) as [Hno Hi3].
    { intros i Hi0. rewrite Hw2 by (by right). apply Hz. }
    apply wp_bind, wp_modify, wp_ret. split_and!; [done|split_and!; [exact Hi3|cbn; congruence|done]| |done].
    rewrite amem_update. cbn [snd]. unfold space_pages at 1. rewrite fmap_empty. f_equal. unfold phys_words. cbn.
    apply (amem_kept G rest (walk s) ws Hi), (fresh_kept _ _ _ _ _ Ho). intros t i Hne. transitivity (read (words w) t i); [apply (Hw2 t i); by left|by apply Hw].
  - destruct H as [Hi1 Hw]. apply wp_ret. split_and!; [split_and!; [done|cbn; congruence|done]| |done]. unfold phys_words. cbn. by rewrite Hw.
Qed.

(** ** The child so far *)

Definition below (lo : Z) (m : gmap Z (list Z)) : gmap Z (list Z) := filter (fun kv => kv.1 < lo) m.

Lemma below_lookup lo m q : below lo m !! q = if decide (q < lo) then m !! q else None.
Proof. unfold below. rewrite map_lookup_filter. destruct (m !! q); cbn; repeat case_guard || case_decide; naive_solver. Qed.

Lemma copied_below parent child q A pp :
  A !! parent = Some pp -> child <> parent -> copied parent child q (<[child := below q pp]> A) = <[child := below (q + 1) pp]> A.
Proof.
  intros HA Hne. unfold copied. rewrite lookup_insert_ne, HA by done. cbn. destruct (pp !! q) as [c|] eqn:E.
  - rewrite alter_insert_eq. f_equal. apply map_eq. intros x. rewrite below_lookup. destruct (decide (x = q)) as [->|].
    + by rewrite lookup_insert_eq, decide_True by lia.
    + rewrite lookup_insert_ne, below_lookup by done. apply decide_ext. lia.
  - f_equal. apply map_eq. intros x. rewrite !below_lookup. destruct (decide (x = q)) as [->|]; [rewrite E; repeat case_decide; done|apply decide_ext; lia].
Qed.

Section sharing.
(** Pages of [parent] that are neither writable nor marked. *)
Context (plain : Z -> Z -> Prop) (Hplain : forall q b, plain q b -> shared (flags b) = None).

(** A stock is lent, and [parent] goes into [child] from page [lo] on. What is
    shared has the same descriptor on both sides, and a page that could not be
    written has the one it had. *)
Record forking (G : Ghost) (rest : list Z) (parent child lo : Z) (st : list Z) (s : Walk) : Prop := {
  fk_inv : inv G (st ++ rest) s;
  fk_spare : spare_frames G (st ++ rest) s st;
  fk_parent : is_Some (G !! parent);
  fk_child : is_Some (G !! child);
  fk_room : room G rest parent lo;
  fk_same : forall q b, slot G child q b -> slot G parent q b;
  fk_plain : forall q b, plain q b -> slot G parent q b;
}.

Lemma shared_slots G parent child ptabs pmaps ctabs cmaps ctabs' q b :
  G !! parent = Some (ptabs, pmaps) -> G !! child = Some (ctabs, cmaps) -> child <> parent -> pmaps !! q = Some b ->
  (forall q b, slot G child q b -> slot G parent q b) -> (forall q b, plain q b -> slot G parent q b) ->
  let G' := <[child := (ctabs', <[q := shared_leaf b]> cmaps)]> (<[parent := (ptabs, <[q := shared_leaf b]> pmaps)]> G) in
  (forall q b, slot G' child q b -> slot G' parent q b) /\ (forall q b, plain q b -> slot G' parent q b).
Proof using Hplain.
  intros HP HC Hne Hb Hsame Hpl G'.
  assert (HP' : G' !! parent = Some (ptabs, <[q := shared_leaf b]> pmaps)) by (unfold G'; by rewrite lookup_insert_ne, lookup_insert_eq).
  assert (HC' : G' !! child = Some (ctabs', <[q := shared_leaf b]> cmaps)) by (unfold G'; by rewrite lookup_insert_eq). split.
  - intros q2 b2 (tb & mp & HG & Hm). rewrite HC' in HG. injection HG as <- <-. exists ptabs, (<[q := shared_leaf b]> pmaps). split; [done|].
    destruct (decide (q2 = q)) as [->|Hq]; [by rewrite lookup_insert_eq in *|]. rewrite lookup_insert_ne in * by done.
    destruct (Hsame q2 b2) as (tb & mp & HG & Hm'); [by exists ctabs, cmaps|]. congruence.
  - intros q2 b2 H2. destruct (Hpl q2 b2 H2) as (tb & mp & HG & Hm). rewrite HP in HG. injection HG as <- <-. exists ptabs, (<[q := shared_leaf b]> pmaps). split; [done|].
    destruct (decide (q2 = q)) as [->|Hq]; [|by rewrite lookup_insert_ne]. rewrite lookup_insert_eq. assert (b2 = b) as -> by congruence. unfold shared_leaf. by rewrite (Hplain q b H2).
Qed.

Lemma wp_share_page G rest s parent child v :
  forking G rest parent child (page_of_virt v) (stock s) s -> child <> parent -> 0 <= v < USER_LIMIT ->
  wp (share_from child parent v)
    (fun s' _ => exists G', forking G' rest parent child (page_of_virt v + 1) (stock s') s' /\ dom G' = dom G /\
       amem G' (words s') = copied parent child (page_of_virt v) (amem G (words s)))
    (fun s' _ => exists G', inv G' (stock s' ++ rest) s' /\ spare_frames G' (stock s' ++ rest) s' (stock s') /\ dom G' = dom G /\
       amem G' (words s') = amem G (words s)) s.
Proof.
  intros [Hi Hsp [[ptabs pmaps] HP] [[ctabs cmaps] HC] Hroom Hsame Hpl] Hne Hv. set (q := page_of_virt v) in *.
  assert (Hd : forall ctabs' pm cm, dom (<[child := (ctabs', cm)]> (<[parent := (ptabs, pm)]> G)) = dom G).
  { intros ctabs' pm cm. rewrite !dom_insert_lookup_L; [done|by eexists|rewrite lookup_insert_ne by done; by eexists]. }
  assert (Hpage : forall b w', pmaps !! q = Some b -> amem (<[parent := (ptabs, <[q := shared_leaf b]> pmaps)]> G) w' = amem G w').
  { intros b w' Hb. eapply amem_put; [exact HP|exact Hb|]. destruct (shared_facts (root := parent) (q := q) (b := b) Hi ltac:(by exists ptabs, pmaps)) as (_ & _ & -> & _). done. }
  eapply wp_mono; [apply (wp_inv_share r nf active G rest s child parent ptabs pmaps ctabs cmaps v Hi Hsp HP HC Hne Hv)| |].
  { intros b Hb. rewrite !occ_app, (spare_not_page G rest s parent q b Hi Hsp), Z.add_0_l, <- occ_app by (by exists ptabs, pmaps).
    apply (Hroom q); [lia|by exists ptabs, pmaps]. }
  - intros s' _ (H & [used Hst] & Hw). pose proof (amem_two _ _ _ _ _ _ _ _ _ _ Hi Hsp HP HC Hw) as Ha. fold q in H. destruct (pmaps !! q) as [b|] eqn:Hb.
    + destruct H as (Hnone & ctabs' & Hi' & Hsp'). assert (Hs : slot G parent q b) by (by exists ptabs, pmaps).
      destruct (shared_facts Hi Hs) as (_ & _ & F3 & _). eexists. split; [split; [exact Hi'|exact Hsp'|rewrite lookup_insert_ne, lookup_insert_eq by done; by eexists|rewrite lookup_insert_eq; by eexists| |by apply (shared_slots G parent child ptabs pmaps ctabs cmaps)..]|split; [apply Hd|]].
      * intros q2 b2 Hq2 Hs2. assert (Hs2' : slot G parent q2 b2).
        { destruct Hs2 as (tb & mp & HG2 & Hm2). rewrite lookup_insert_ne, lookup_insert_eq in HG2 by done. injection HG2 as <- <-. rewrite lookup_insert_ne in Hm2 by lia. by exists ptabs, pmaps. }
        assert (Hx : addr b2 <> addr b). { intros E. destruct (i_cow Hi _ _ _ _ _ _ Hs2' Hs E) as [_ E2]; [|lia]. intros [= E2]. lia. }
        assert (HCm : forall pm, (<[parent := (ptabs, pm)]> G) !! child = Some (ctabs, cmaps)) by (intros pm; by rewrite lookup_insert_ne).
        specialize (Hroom q2 b2 ltac:(lia) Hs2'). rewrite occ_app in *. rewrite <- (occ_put _ _ _ _ _ _ (shared_leaf b) (addr b2) HP Hb F3) in Hroom.
        rewrite (occ_perm _ _ _ (all_frames_delete _ _ _ (HCm _))) in Hroom. rewrite (occ_perm _ _ _ (all_frames_update _ _ _ _ (HCm _))).
        unfold space_frames in *. cbn [fst snd] in *. rewrite !occ_app in *. rewrite (occ_perm _ _ _ (page_frames_insert _ _ _ Hnone)), occ_cons, F3, decide_False by done.
        assert (occ (addr b2) (tab_frames ctabs') = 0) as ->; [|pose proof (occ_nonneg (addr b2) (tab_frames ctabs)); lia].
        pose proof (occ_nonneg (addr b2) (tab_frames ctabs')). destruct (decide (0 < occ (addr b2) (tab_frames ctabs'))) as [Hp%occ_pos|]; [|lia].
        exfalso. by apply (table_not_page Hi' Hs2 (lookup_insert_eq _ _ _) Hp).
      * rewrite amem_update, (Hpage b _ eq_refl). cbn [snd]. rewrite <- Ha. unfold copied.
        assert (amem G (words s') !! parent ≫= (.!! q) = Some (frame_words (words s') (addr b))) as ->.
        { unfold amem. rewrite lookup_fmap, HP. cbn. unfold space_pages. by rewrite lookup_fmap, Hb. }
        apply map_eq. intros x. destruct (decide (x = child)) as [->|]; [|by rewrite lookup_insert_ne, lookup_alter_ne].
        rewrite lookup_insert_eq, lookup_alter_eq. unfold amem. rewrite lookup_fmap, HC. cbn. unfold space_pages. by rewrite fmap_insert, F3.
    + subst s'. exists G. split_and!; [split; try done; [by eexists..|]|done|].
      * intros q2 b2 Hq2. apply Hroom. lia.
      * unfold copied, amem. rewrite lookup_fmap, HP. cbn. unfold space_pages. rewrite lookup_fmap, Hb. done.
  - intros s' e ((b & ctabs' & Hb & Hi' & Hsp') & _ & Hw). pose proof (amem_two _ _ _ _ _ _ _ _ _ _ Hi Hsp HP HC Hw) as Ha. eexists. split_and!; [exact Hi'|exact Hsp'|apply Hd|].
    rewrite amem_update, (Hpage b) by done. cbn [snd]. rewrite <- Ha. apply insert_id. unfold amem. by rewrite lookup_fmap, HC.
Qed.

(** What holds when [child] has the pages of [parent] below [lo]; [A] is what the
    programs saw before, and [pp] what the parent did. *)
Definition forked (D : gset Z) (A : gmap Z (gmap Z (list Z))) (pp : gmap Z (list Z)) (rest : list Z) (parent child lo : Z) (st : list Z) (s : Walk) : Prop :=
  exists G, forking G rest parent child lo st s /\ dom G = D /\ amem G (words s) = <[child := below lo pp]> A.

(** What holds when it stopped on the way. *)
Definition stopped_with (D : gset Z) (A : gmap Z (gmap Z (list Z))) (rest : list Z) (child : Z) (st : list Z) (s : Walk) : Prop :=
  exists G cp, inv G (st ++ rest) s /\ spare_frames G (st ++ rest) s st /\ dom G = D /\ amem G (words s) = <[child := cp]> A.

Section pieces.
Context (D : gset Z) (A : gmap Z (gmap Z (list Z))) (pp : gmap Z (list Z)) (rest : list Z) (parent child : Z).
Context (HA : A !! parent = Some pp) (Hne : child <> parent).
Abbreviation forked := (forked D A pp rest parent child).
Abbreviation stopped := (stopped_with D A rest child).

Lemma forked_stopped lo st s : forked lo st s -> stopped st s.
Proof. intros (G & [H1 H2 _ _ _ _ _] & H3 & H4). by exists G, (below lo pp). Qed.

Lemma wp_share_range s start n :
  forked (page_of_virt start) (stock s) s -> 0 <= start -> 0 <= n -> start + n * 4096 <= USER_LIMIT -> start `mod` 4096 = 0 ->
  wp (share_range child parent start n) (fun s' _ => forked (page_of_virt start + n) (stock s') s') (fun s' _ => stopped (stock s') s') s.
Proof.
  intros Hf Hs0 Hn Hlim Hal. unfold share_range. rewrite <- (Z.sub_0_r n).
  apply (wp_for _ (fun i s' => forked (page_of_virt start + i) (stock s') s')).
  - intros i s' Hi (G & Hfk & HD & Ha). apply wp_bind. change (level_size 0) with 4096. change USER_LIMIT with (2 ^ 47) in *. apply wp_checked; [unfold u64_max; lia|].
    assert (Hq : page_of_virt (start + i * 4096) = page_of_virt start + i) by (unfold page_of_virt; lia). rewrite <- Hq in Hfk, Ha.
    eapply wp_mono; [apply (wp_share_page G rest s' parent child _ Hfk Hne); change USER_LIMIT with (2 ^ 47); lia| |].
    + intros s2 _ (G2 & Hfk2 & HD2 & Ha2). exists G2. replace (page_of_virt start + (i + 1)) with (page_of_virt (start + i * 4096) + 1) by lia.
      split_and!; [done|congruence|]. rewrite Ha2, Ha. by apply copied_below.
    + intros s2 _ (G2 & Hi2 & Hsp2 & HD2 & Ha2). exists G2. eexists. split_and!; [done|done|congruence|]. rewrite Ha2. exact Ha.
  - by rewrite Z.add_0_r.
  - intros s' H. rewrite Z.sub_0_r. by replace (Z.max 0 n) with n in H by lia.
Qed.

(** The same for the machine, with no lock held. *)
Definition rested (Q : Walk -> Prop) (s : Sys V) : Prop := tlb (walk s) = Clean /\ retired s = [] /\ Q (walk s).

Lemma rested_calm G rest' s : calm G rest' s -> rested (inv G rest') s.
Proof. by intros (H1 & H2 & H3). Qed.

Lemma forking_words G lo st s s' : forking G rest parent child lo st s -> inv G (st ++ rest) s' -> words s' = words s -> forking G rest parent child lo st s'.
Proof. intros [H1 H2 H3 H4 H5 H6 H7] Hi Hw. split; try done. intros f Hf. rewrite Hw. by apply H2. Qed.

Lemma wp_fork_piece {E} (s : Sys V) st start (X : Sys V -> E -> Prop) :
  rested (forked (page_of_virt start) st) s -> 0 <= start -> start + UNMAP_CHUNK * 4096 <= USER_LIMIT -> start `mod` 4096 = 0 ->
  wp (locked (with_stock st (share_range child parent start UNMAP_CHUNK)))
    (fun s' '(done, st') => mems s' = mems s /\
       match done with
       | inl _ => rested (forked (page_of_virt start + UNMAP_CHUNK) st') s'
       | inr _ => rested (stopped st') s'
       end) X s.
Proof.
  intros (Ht & Hr & G & Hfk & HD & Ha) Hs0 Hlim Hal. eapply (wp_locked r nf active _ _ _ G (st ++ rest)); [split_and!; [apply Hfk|done|done]|].
  apply wp_with_stock. eapply wp_mono; [apply (wp_share_range (set_stock st (walk s)) start UNMAP_CHUNK); try done| |].
  - exists G. split_and!; [|done|done]. eapply forking_words; [exact Hfk|apply inv_stock, Hfk|done].
  - intros w _ (G' & Hfk' & HD' & Ha'). exists G', (stock w ++ rest). cbn [retired set_walk walk]. rewrite Hr. split; [apply Hfk'|].
    intros s2 (Hi2 & Ht2 & Hr2) Hw2 Hm2. split; [done|]. split_and!; [done|done|]. exists G'. split_and!; [|done|unfold phys_words in Hw2; cbn in Hw2; by rewrite Hw2].
    by eapply forking_words.
  - intros w e (G' & cp & Hi' & Hsp' & HD' & Ha'). exists G', (stock w ++ rest). cbn [retired set_walk walk]. rewrite Hr. split; [done|].
    intros s2 (Hi2 & Ht2 & Hr2) Hw2 Hm2. unfold phys_words in Hw2. cbn in Hw2. split; [done|]. split_and!; [done|done|]. exists G', cp. split_and!; [done| |done|by rewrite Hw2].
    intros f Hf. rewrite Hw2. by apply Hsp'.
Qed.

Lemma wp_fork_pieces {E} (X : Sys V -> E -> Prop) (n : nat) : forall (s : Sys V) st start,
  rested (forked (page_of_virt start) st) s -> 0 <= start -> start + Z.of_nat n * (UNMAP_CHUNK * 4096) <= USER_LIMIT -> start `mod` 4096 = 0 ->
  wp (fork_pieces ((fun i => start + i * (UNMAP_CHUNK * PAGE)) <$> seqZ 0 (Z.of_nat n)) child parent st)
    (fun s' '(st', done) => mems s' = mems s /\
       if (done : bool) then rested (forked (page_of_virt start + Z.of_nat n * UNMAP_CHUNK) st') s' else rested (stopped st') s') X s.
Proof.
  change PAGE with 4096. change UNMAP_CHUNK with 128. induction n as [|n IH]; intros s st start Hf Hs0 Hlim Hal.
  { cbn. apply wp_ret. split; [done|]. by rewrite Z.add_0_r. }
  rewrite seqZ_cons by lia. cbn [fmap list_fmap fork_pieces]. rewrite Z.mul_0_l, Z.add_0_r. apply wp_bind.
  eapply wp_mono; [apply (wp_fork_piece s st start (fun _ (_ : E) => False)); done || (change UNMAP_CHUNK with 128; lia)| |done].
  intros s1 [[[]|e] st1] [Hm1 H1]; [|by apply wp_ret]. change UNMAP_CHUNK with 128 in H1.
  replace ((fun i => start + i * (128 * 4096)) <$> seqZ (Z.succ 0) (Z.pred (Z.of_nat (S n)))) with ((fun i => start + 128 * 4096 + i * (128 * 4096)) <$> seqZ 0 (Z.of_nat n)).
  2: { replace (Z.pred (Z.of_nat (S n))) with (Z.of_nat n) by lia. change (Z.succ 0) with (Z.succ 0). rewrite <- (fmap_add_seqZ 1 0), <- list_fmap_compose. apply list_fmap_ext. intros i x _. cbn. lia. }
  eapply wp_mono; [apply (IH s1 st1 (start + 128 * 4096)); try lia| |done].
  - replace (page_of_virt (start + 128 * 4096)) with (page_of_virt start + 128) by (unfold page_of_virt; lia). done.
  - intros s2 [st2 b] [Hm2 H2]. split; [congruence|]. destruct b; [|done].
    by replace (page_of_virt start + Z.of_nat (S n) * 128) with (page_of_virt (start + 128 * 4096) + Z.of_nat n * 128) by (unfold page_of_virt; lia).
Qed.

(** Blocks with nothing in them can be passed over. *)
Lemma forked_skip G a b st w ptabs pmaps :
  forking G rest parent child a st w -> dom G = D -> amem G (words w) = <[child := below a pp]> A ->
  G !! parent = Some (ptabs, pmaps) -> a <= b -> (forall q, a <= q < b -> pmaps !! q = None) -> forked b st w.
Proof.
  intros [H1 H2 H3 H4 H5 H6 H7] HD Ha HP Hab Hbare. exists G. split_and!; [split; try done|done|].
  - intros q c Hq. apply H5. lia.
  - rewrite Ha. f_equal. apply map_eq. intros q. rewrite !below_lookup. repeat case_decide; try done; [lia|].
    assert (amem G (words w) !! parent = Some pp) as Hpp by (by rewrite Ha, lookup_insert_ne).
    unfold amem in Hpp. rewrite lookup_fmap, HP in Hpp. cbn in Hpp. injection Hpp as <-. unfold space_pages. rewrite lookup_fmap, Hbare by lia. done.
Qed.

(** What is left of the stock goes back. *)
Lemma wp_drop_stock {E} lo st (s : Sys V) (X : Sys V -> E -> Prop) :
  rested (forked lo st) s -> wp (drop_frames st) (fun s' _ => mems s' = mems s /\ rested (forked lo []) s') X s.
Proof.
  intros (Ht & Hr & G & [H1 H2 H3 H4 H5 H6 H7] & HD & Ha). eapply wp_mono; [apply (wp_drop_frames r nf active st G rest s X H1)| |done].
  intros s' _ [Hi' [a ->]]. split; [done|]. split_and!; [done..|]. exists G. split_and!; [split; try done; by intros f ?%elem_of_nil|done|done].
Qed.
Lemma wp_drop_stopped {E} st (s : Sys V) (X : Sys V -> E -> Prop) :
  rested (stopped st) s -> wp (drop_frames st) (fun s' _ => mems s' = mems s /\ rested (stopped []) s') X s.
Proof.
  intros (Ht & Hr & G & cp & H1 & H2 & HD & Ha). eapply wp_mono; [apply (wp_drop_frames r nf active st G rest s X H1)| |done].
  intros s' _ [Hi' [a ->]]. split; [done|]. split_and!; [done..|]. exists G, cp. split_and!; [done|by intros f ?%elem_of_nil|done|done].
Qed.

(** A turn of the loop at [at_]. *)
Definition turn_start (m : gmap Z (MemState V)) (at_ : Z) (s : Sys V) : Prop :=
  rested (forked (page_of_virt at_) []) s /\ mems s = m /\ 0 <= at_ <= USER_LIMIT /\ at_ `mod` 2 ^ 21 = 0.

Definition gave_up (m : gmap Z (MemState V)) (s : Sys V) : Prop :=
  mems s = m /\ exists leak, rested (stopped_with D A (leak ++ rest) child []) s.

Lemma wp_fork_turn {E} m live at_ (s : Sys V) (X : Sys V -> E -> Prop) :
  turn_start m at_ s ->
  wp (fork_turn live child parent at_) (fun s' o =>
    match o with
    | inl next => turn_start m next s' /\ at_ < next
    | inr true => mems s' = m /\ rested (forked (page_of_virt USER_LIMIT) []) s'
    | inr false => gave_up m s'
    end) X s.
Proof.
  intros (Hf & Hm & Hat & Hal). unfold fork_turn. destruct (Z.ltb_spec at_ USER_LIMIT) as [Hlt|]; cbn [negb]; [|apply wp_ret; by replace USER_LIMIT with at_ by lia].
  pose proof Hf as (Ht & Hr & G & [Hi Hsp [[ptabs pmaps] HP] HC Hroom Hsame Hpl] & HD & Ha). apply wp_bind. eapply (wp_locked r nf active _ _ _ G rest); [by split_and!|].
  unfold on_walk. apply wp_zoom. eapply wp_mono; [apply (wp_next_populated (walk s) parent ptabs pmaps at_ (fun _ (_ : E) => False) (i_hier Hi HP)); done || lia| |done].
  intros w o [-> Ho]. exists G, rest. replace (set_walk (walk s) s) with s by (by destruct s). rewrite Hr. split; [done|]. intros s1 Hc1 Hw1 Hm1.
  unfold phys_words in Hw1. assert (Hfk1 : forking G rest parent child (page_of_virt at_) [] (walk s1)).
  { eapply forking_words; [by split|apply Hc1|done]. }
  rewrite <- Hw1 in Ha. destruct o as [block|].
  2: { apply wp_ret. split; [congruence|]. split_and!; [apply Hc1..|]. eapply (forked_skip _ _ _ _ _ _ _ Hfk1 HD Ha HP); [unfold page_of_virt; lia|].
    intros q Hq. apply Ho. change USER_LIMIT with (2 ^ 47) in *. unfold page_of_virt in Hq. lia. }
  destruct Ho as (Hbal & Hblock & Hbare). apply wp_bind. eapply wp_mono; [apply (wp_take_tables G rest (fun _ (_ : E) => False) DEPTH s1 []); [done|by intros f ?%elem_of_nil]| |done].
  intros s2 o (Hm2 & Hk2 & l & Hl & (Hi2 & Ht2 & Hr2) & Hsp2). pose proof (amem_kept G rest (walk s1) _ (proj1 Hc1) Hk2) as Ha2. destruct Hl as [-> | ->].
  2: { apply wp_ret. split; [congruence|]. exists l. split_and!; [done..|]. exists G, (below (page_of_virt at_) pp). split_and!; [done|by intros f ?%elem_of_nil|done|].
    unfold phys_words in Ha2. congruence. }
  assert (Hf2 : forked (page_of_virt block) l (walk s2)).
  { eapply (forked_skip G (page_of_virt at_)); [by split|done|unfold phys_words in Ha2; congruence|exact HP|unfold page_of_virt; lia|].
    intros q Hq. apply Hbare. change (2 ^ 21) with (4096 * 512) in *. unfold page_of_virt in Hq. lia. }
  change USER_LIMIT with (2 ^ 47) in *. change (2 ^ 21) with (4096 * 512) in *.
  apply wp_bind. eapply wp_mono; [apply (wp_fork_pieces (fun _ (_ : E) => False) 4 s2 l block); [done|lia|change USER_LIMIT with (2 ^ 47); change UNMAP_CHUNK with 128; lia|lia]| |done].
  intros s3 [st done] [Hm3 H3]. apply wp_bind. destruct done; cbn [negb].
  - eapply wp_mono; [apply (wp_drop_stock _ st s3 (fun _ (_ : E) => False) H3)| |done]. intros s4 _ [Hm4 H4].
    unfold checked_add64. change (level_size 1) with (4096 * 512). rewrite (proj2 (Z.leb_le _ _)) by (unfold u64_max; lia). apply wp_ret. split; [|lia].
    split_and!; [|congruence|lia|change USER_LIMIT with (2 ^ 47); lia|change (2 ^ 21) with (4096 * 512); lia].
    replace (page_of_virt (block + 4096 * 512)) with (page_of_virt block + Z.of_nat 4 * UNMAP_CHUNK) by (change UNMAP_CHUNK with 128; unfold page_of_virt; lia). done.
  - eapply wp_mono; [apply (wp_drop_stopped st s3 (fun _ (_ : E) => False) H3)| |done]. intros s4 _ [Hm4 H4]. apply wp_ret. split; [congruence|]. by exists [].
Qed.

Lemma wp_fork_loop {E} m live (s : Sys V) (X : Sys V -> E -> Prop) :
  turn_start m 0 s ->
  wp (long_loop 28 (fork_turn live child parent) 0) (fun s' (done : bool) => mems s' = m /\
    if done then rested (forked (page_of_virt USER_LIMIT) []) s' else gave_up m s') X s.
Proof.
  intros Hs. apply (wp_long_loop (turn_start m) (fun at_ _ => (USER_LIMIT - at_) / 2 ^ 21)).
  - intros at_ s' (_ & _ & H & _). apply Z.div_pos; lia.
  - intros at_ s' H. pose proof H as (_ & _ & Hat & Hal). eapply wp_mono; [by apply (wp_fork_turn m live at_ s' (fun _ (_ : E) => False))| |done].
    intros s2 [next|[]] H2; [|done|split; [apply H2|done]]. destruct H2 as [H2 Hlt]. split; [done|]. destruct H2 as (_ & _ & _ & Hal2).
    change USER_LIMIT with (2 ^ 47) in *. lia.
  - done.
  - change USER_LIMIT with (2 ^ 47) in *. done.
Qed.
End pieces.

(** ** All of it *)

Lemma user_pages w root tabs maps q b : hier user_half w root tabs maps -> maps !! q = Some b -> 0 <= q < page_of_virt USER_LIMIT.
Proof.
  intros [Hr Hok Hc] Hq. destruct (tk_maps _ _ _ _ _ Hok _ _ Hq) as [H0 [t0 Ht0]]. destruct (Hc _ _ _ Ht0) as [[t1 Ht1] _]; [lia|].
  destruct (Hc _ _ _ Ht1) as [[t2 Ht2] _]; [lia|]. destruct (Hc _ _ _ Ht2) as [[t3 Ht3] Hown]; [lia|]. specialize (Hown eq_refl). unfold user_half in Hown.
  destruct (tk_key _ _ _ _ _ Hok _ _ _ Ht3) as (_ & _ & Htop). specialize (Htop eq_refl). change (page_of_virt USER_LIMIT) with (256 * 512 * 512 * 512). lia.
Qed.

(** Each address space with a record has tables. *)
Definition recorded (G : Ghost) (s : Sys V) : Prop := forall root, G !! root = None -> mems s !! root = None.

Lemma forked_start (G : Ghost) rest (s : Sys V) parent child ptabs pmaps :
  (forall q b, plain q b -> slot G parent q b) -> calm G rest s -> G !! parent = Some (ptabs, pmaps) -> room G rest parent 0 -> G !! child = None ->
  forall s1 A, calm (<[child := (bare_tables child, ∅)]> G) rest s1 -> amem (<[child := (bare_tables child, ∅)]> G) (phys_words s1) = <[child := ∅]> A -> A = amem G (phys_words s) ->
  turn_start (dom (<[child := (bare_tables child, ∅)]> G)) A (space_pages (phys_words s) pmaps) rest parent child (mems s1) 0 s1.
Proof.
  intros Hpl Hc HP Hroom Hno s1 A (Hi1 & Ht1 & Hr1) Ha HA. assert (Hne : child <> parent) by congruence.
  split_and!; [|done|done|done|done]. split_and!; [done|done|]. eexists. split_and!; [split|reflexivity|].
  - exact Hi1.
  - by intros f ?%elem_of_nil.
  - rewrite lookup_insert_ne by done. by eexists.
  - rewrite lookup_insert_eq. by eexists.
  - intros q b Hq Hs. assert (Hs0 : slot G parent q b) by (by eapply slot_insert; [exact Hs|]). specialize (Hroom q b Hq Hs0).
    rewrite occ_app, (occ_perm _ _ _ (all_frames_insert _ _ _ Hno)), occ_app, <- Z.add_assoc, <- occ_app.
    unfold space_frames, tab_frames, page_frames, bare_tables. cbn [fst snd]. rewrite map_to_list_singleton, map_to_list_empty. cbn. rewrite occ_cons, occ_nil, decide_False; [lia|].
    intros E1. apply (table_not_page (t := child) Hi1 Hs (lookup_insert_eq _ _ _)); [|done]. unfold tab_frames, bare_tables. rewrite map_to_list_singleton. cbn. by left.
  - intros q b (tb & mp & HG & Hq). rewrite lookup_insert_eq in HG. injection HG as <- <-. done.
  - intros q b Hq. destruct (Hpl q b Hq) as (tb & mp & HG & Hm). exists tb, mp. by rewrite lookup_insert_ne.
  - unfold phys_words in Ha at 1. rewrite Ha. f_equal. apply map_eq. intros q. rewrite lookup_empty, below_lookup. case_decide as Hq; [|done].
    unfold space_pages. rewrite lookup_fmap. destruct (pmaps !! q) as [b|] eqn:Hb; [|done]. destruct Hc as [Hi _].
    pose proof (user_pages _ _ _ _ _ _ (i_hier Hi HP) Hb). change (page_of_virt 0) with 0 in Hq. lia.
Qed.

End sharing.

Lemma wp_fork_plain {E} kernel live G rest (s : Sys V) parent ptabs pmaps (X : Sys V -> E -> Prop) :
  calm G rest s -> G !! parent = Some (ptabs, pmaps) -> room G rest parent 0 -> is_Some (G !! live) -> recorded G s ->
  wp (fork kernel live parent) (fun s' o =>
    match o with
    | None => exists G' leak, calm G' (leak ++ rest) s' /\ dom G' = dom G /\ amem G' (phys_words s') = amem G (phys_words s) /\ mems s' = mems s
    | Some child => G !! child = None /\ exists G', calm G' rest s' /\ dom G' = {[child]} ∪ dom G /\
        amem G' (phys_words s') = <[child := space_pages (phys_words s) pmaps]> (amem G (phys_words s)) /\
        mems s' = <[child := record_of parent s]> (mems s) /\
        forall q b, pmaps !! q = Some b -> shared (flags b) = None -> slot G' parent q b /\ slot G' child q b
    end) X s.
Proof.
  intros Hc HP Hroom [gl Hlive] Hrec. unfold fork. apply wp_bind. eapply wp_mono; [apply (wp_new_user kernel G rest s (fun _ (_ : E) => False) Hc)| |done].
  intros s1 [child|]; [|intros (Hc1 & Ha1 & Hm1); apply wp_ret; by exists G, []]. intros (Hno & Hc1 & Ha1 & Hm1).
  assert (Hne : child <> parent) by congruence. assert (HA : amem G (phys_words s) !! parent = Some (space_pages (phys_words s) pmaps)) by (unfold amem; by rewrite lookup_fmap, HP).
  set (plain q b := pmaps !! q = Some b /\ shared (flags b) = None). assert (Hplain : forall q b, plain q b -> shared (flags b) = None) by (by intros q b [_ H]).
  pose proof (forked_start plain G rest s parent child ptabs pmaps ltac:(intros q b [Hq _]; by exists ptabs, pmaps) Hc HP Hroom Hno s1 _ Hc1 Ha1 eq_refl) as Hstart. rewrite dom_insert_L in Hstart. apply wp_bind.
  eapply wp_mono; [apply (wp_fork_loop plain Hplain _ _ _ rest parent child HA Hne (mems s1) live s1 (fun _ (_ : E) => False) Hstart)| |done].
  intros s2 ok [Hm2 H2]. destruct ok; cbn [negb].
  - destruct H2 as (Ht2 & Hr2 & G2 & [Hi2 _ _ _ _ Hsame Hpl] & HD2 & Ha2). apply wp_bind, wp_gets, wp_bind, wp_modify, wp_ret. split; [done|]. exists G2. split_and!; [done|done| | |].
    + unfold phys_words at 1. cbn. rewrite Ha2. f_equal. apply map_eq. intros q. rewrite below_lookup. case_decide as Hq; [done|]. unfold space_pages. rewrite lookup_fmap.
      destruct (pmaps !! q) as [b|] eqn:Hb; [|done]. destruct Hc as [Hi _]. pose proof (user_pages _ _ _ _ _ _ (i_hier Hi HP) Hb). lia.
    + cbn. rewrite Hm2, Hm1, insert_insert_eq. f_equal. unfold record_of. by rewrite Hm2, Hm1, lookup_insert_ne.
    + intros q b Hq Hsh. assert (Hs : slot G2 parent q b) by (by apply Hpl). split; [done|].
      pose proof (user_pages _ _ _ _ _ _ (i_hier (proj1 Hc) HP) Hq) as Hqr.
      assert (is_Some (amem G2 (words (walk s2)) !! child ≫= (.!! q))) as [x Hx].
      { rewrite Ha2, lookup_insert_eq. cbn. rewrite below_lookup, decide_True by lia. unfold space_pages. rewrite lookup_fmap, Hq. by eexists. }
      unfold amem in Hx. rewrite lookup_fmap in Hx. destruct (G2 !! child) as [[ctabs cmaps]|] eqn:HC; [|done]. cbn in Hx. unfold space_pages in Hx. rewrite lookup_fmap in Hx.
      destruct (cmaps !! q) as [b'|] eqn:Hb'; [|done]. assert (Hs' : slot G2 child q b') by (by exists ctabs, cmaps).
      destruct (Hsame q b' Hs') as (tb & mp & HG & Hm). destruct Hs as (tb2 & mp2 & HG2 & Hm2'). assert (b' = b) as -> by congruence. done.
  - destruct H2 as (_ & leak & Ht2 & Hr2 & G2 & cp & Hi2 & _ & HD2 & Ha2). assert (is_Some (G2 !! child)) as [[ctabs cmaps] HC] by (apply elem_of_dom; rewrite HD2; set_solver).
    apply wp_bind. eapply wp_mono; [apply (wp_drop_mm r nf active G2 (leak ++ rest) s2 live child ctabs cmaps (fun _ (_ : E) => False)); [by split_and!|done|congruence]| |done].
    intros s3 _ (Hc3 & Ha3 & Hm3 & _). apply wp_ret. exists (delete child G2), leak. split_and!; [done| | |].
    + rewrite dom_delete_L, HD2. assert (child ∉ dom G) by (by apply not_elem_of_dom). set_solver.
    + rewrite Ha3. unfold phys_words at 1. rewrite Ha2, delete_insert_id; [done|]. unfold amem. by rewrite lookup_fmap, Hno.
    + rewrite Hm3, Hm2, Hm1, delete_insert_id; [done|by apply Hrec].
Qed.

Lemma wp_fork {E} kernel live G rest (s : Sys V) parent ptabs pmaps (X : Sys V -> E -> Prop) :
  calm G rest s -> G !! parent = Some (ptabs, pmaps) -> room G rest parent 0 -> is_Some (G !! live) -> recorded G s ->
  wp (fork kernel live parent) (fun s' o =>
    match o with
    | None => exists G' leak, calm G' (leak ++ rest) s' /\ dom G' = dom G /\ amem G' (phys_words s') = amem G (phys_words s) /\ mems s' = mems s
    | Some child => G !! child = None /\ exists G', calm G' rest s' /\ dom G' = {[child]} ∪ dom G /\
        amem G' (phys_words s') = <[child := space_pages (phys_words s) pmaps]> (amem G (phys_words s)) /\
        mems s' = <[child := record_of parent s]> (mems s)
    end) X s.
Proof.
  intros Hc HP Hroom Hlive Hrec. eapply wp_mono; [by apply (wp_fork_plain kernel live G rest s parent ptabs pmaps (fun _ _ => False))| |done].
  intros s' [child|]; [|done]. intros (Hno & G' & H1 & H2 & H3 & H4 & _). split; [done|]. by exists G'.
Qed.

(** C4: [fork] that succeeds makes an address space that was not there, with
    exactly the pages of the parent and the same words in each; one that fails
    leaves no new address space. Either way the memories of the parent and of every
    other program are as they were, no frame has more owners than references, and
    no program can write a frame that two of them map. *)
Theorem fork_copies kernel live G rest (s : Sys V) parent ptabs pmaps :
  calm G rest s -> G !! parent = Some (ptabs, pmaps) -> room G rest parent 0 -> is_Some (G !! live) -> recorded G s ->
  wp (E := Errno) (fork kernel live parent) (fun s' o =>
    match o with
    | None => exists G' leak, calm G' (leak ++ rest) s' /\ dom G' = dom G /\ amem G' (phys_words s') = amem G (phys_words s) /\ mems s' = mems s
    | Some child => G !! child = None /\ exists G', calm G' rest s' /\ dom G' = {[child]} ∪ dom G /\
        amem G' (phys_words s') = <[child := space_pages (phys_words s) pmaps]> (amem G (phys_words s)) /\
        mems s' = <[child := record_of parent s]> (mems s)
    end) (fun _ _ => False) s.
Proof. intros Hc HG Hr Hl Hrec. by apply (wp_fork kernel live G rest s parent ptabs pmaps). Qed.
End fork.
