(* ===== verification/SpaceIso.v ===== *)
(** * A page that is touched for the first time

    [fault_in] and what it is made of. A page is prepared with no lock held and
    committed under it, where the record is asked again: [guard_commit] puts in
    only what the record says at that moment, and only where there is nothing. The
    second half is the machine with its programs, and the abstract machine in which
    each has a memory of its own. The end is where two programs are not kept apart:
    [mprotect] of a page that could not be written when its program forked. *)

From stdpp Require Import gmap.
From S2P Require Import Prelude Words Handoff Frame FrameSpec FrameAlloc FrameOwners Walk WalkSpec Space SpaceSpec SpaceRun SpaceFork.

(** ** What the record says a page holds *)

(** The words of a page with the bytes [bs] in it and zeroes after them. *)
Definition page_of_bytes (bs : list Z) : list Z := (fun i => le_word (take 8 (drop (8 * Z.to_nat i) bs))) <$> seqZ 0 512.

Section fault.
Context {P : Paging} {writes : Z -> bool} {PL : PagingLaws P writes} {V : Type} {FV : Files V}.
Context (r : Z -> bool) (nf : Z) (active : Z).
Abbreviation inv := (inv (writes := writes) r nf active).
Abbreviation calm := (calm (writes := writes) r nf active).

Definition planned (m : MemState V) (a : Z) : option (Z * Source V) :=
  if in_heap m a then Some (heap_flags, Zero)
  else
    match find_vma a m with
    | None => None
    | Some v => Some (page_flags v, match backing v a with None => Zero | Some (n, off, want) => OfFile n off want end)
    end.

Definition source_bytes (src : Source V) : option (list Z) :=
  match src with
  | Zero => Some []
  | OfFile n off want => match contents n with inl data => Some (take (Z.to_nat want) (drop (Z.to_nat off) data)) | inr _ => None end
  end.

Lemma region_flags w e : user_flags (let bits := Z.lor PRESENT USER in let bits := if (w : bool) then Z.lor bits WRITABLE else bits in if (e : bool) then bits else Z.lor bits NO_EXECUTE).
Proof. destruct bits_there as [H1 H2]. cbv zeta. split; destruct w, e; rewrite !has_lor, ?H1, ?H2, ?orb_true_r; done. Qed.

Lemma planned_user m a fl src : planned m a = Some (fl, src) -> user_flags fl.
Proof.
  unfold planned. destruct (in_heap m a).
  - intros [= <- <-]. destruct bits_there as [H1 H2]. unfold heap_flags. split; rewrite !has_lor, ?H1, ?H2, ?orb_true_r; done.
  - destruct (find_vma a m) as [v|]; [|done]. intros [= <- <-]. apply region_flags.
Qed.

Lemma wp_plan {E} root a (s : Sys V) (X : Sys V -> E -> Prop) :
  Forall vma_ok (vmas (record_of root s)) ->
  wp (plan root a) (fun s' o => s' = s /\ o = (fun fs => mkPlan fs.1 fs.2 (missing_tables (phys_words s) root a)) <$> planned (record_of root s) a) X s.
Proof.
  intros Hok. unfold plan, planned. apply wp_bind, wp_gets, wp_bind, wp_gets. destruct (in_heap _ a); [by apply wp_ret|].
  destruct (find_vma a _) as [v|] eqn:Ef; [|by apply wp_ret]. apply List.find_some in Ef as [Hin%list_elem_of_In Hc%contains_spec].
  rewrite Forall_forall in Hok. destruct (Hok v Hin) as (H1 & _ & _ & H4). unfold backing. destruct (file v) as [f|] eqn:Ev; [|by apply wp_ret].
  destruct (length f <=? a - start v); [by apply wp_ret|]. destruct (H4 f eq_refl) as (F1 & F2 & F3). apply wp_bind, wp_checked; [lia|]. by apply wp_ret.
Qed.

Lemma same_page_spec (now pl : Plan V) : same_page_as now pl = true <-> p_flags now = p_flags pl /\ source now = source pl.
Proof.
  unfold same_page_as. rewrite andb_true_iff, Z.eqb_eq. destruct (source now) as [|n o w], (source pl) as [|n' o' w']; try naive_solver.
  rewrite !andb_true_iff, bool_decide_eq_true, !Z.eqb_eq. naive_solver.
Qed.

(** ** A page and its tables, prepared *)

(** The frames of [p], each its own, all zeroes but for the page. *)
Definition prepared (G : Ghost) (rest : list Z) (p : Prepared) (s : Sys V) : Prop :=
  calm G (option_list (page p) ++ tables p ++ rest) s /\ spare_frames G (option_list (page p) ++ tables p ++ rest) (walk s) (tables p) /\
  forall phys, page p = Some phys -> occ phys (all_frames G ++ phys :: tables p ++ rest) = 1.

Definition blank (p : Prepared) (s : Sys V) : Prop := forall phys, page p = Some phys -> forall i, read (phys_words s) phys i = 0.

(** What page [p] holds. *)
Definition holds (p : Prepared) (c : list Z) (s : Sys V) : Prop := forall phys, page p = Some phys -> frame_words (phys_words s) phys = c.

Lemma wp_give_back {E} G rest p (s : Sys V) (X : Sys V -> E -> Prop) :
  calm G (option_list (page p) ++ tables p ++ rest) s -> wp (give_back p) (fun s' _ => calm G rest s' /\ phys_words s' = phys_words s /\ mems s' = mems s) X s.
Proof.
  intros (Hi & Ht & Hr). unfold give_back. rewrite app_assoc in Hi. eapply wp_mono; [apply (wp_drop_frames r nf active _ G rest s X Hi)| |done].
  intros s' _ [Hi' [a ->]]. split_and!; done.
Qed.

Lemma wp_prepared_new {E} G rest n (s : Sys V) (X : Sys V -> E -> Prop) :
  calm G rest s ->
  wp (prepared_new n) (fun s' o => mems s' = mems s /\ amem G (phys_words s') = amem G (phys_words s) /\
    match o with
    | None => calm G rest s'
    | Some p => prepared G rest p s' /\ blank p s' /\ is_Some (page p)
    end) X s.
Proof.
  intros (Hi & Ht & Hr). unfold prepared_new. apply wp_bind. unfold on_walk at 1. apply wp_zoom.
  eapply wp_mono; [apply (wp_inv_zeroed r nf active G rest (walk s) (fun _ (_ : E) => False) Hi)| |done]. intros w o (Hst & Htl & Hca & H). destruct o as [phys|].
  2: { destruct H as [Hi1 Hw]. apply wp_ret. split_and!; [done|unfold phys_words; cbn; by rewrite Hw|]. split_and!; [done|cbn; congruence|done]. }
  destruct H as (Hi1 & Ho & Hz & Hw). pose proof (fresh_kept r _ _ _ _ _ Ho Hw) as Hk. apply wp_bind.
  eapply wp_mono; [apply (wp_take_tables r nf active G (phys :: rest) (fun _ (_ : E) => False) _ (set_walk w s) [])| |done].
  { split_and!; [done|cbn; congruence|done]. }
  { by intros f ?%elem_of_nil. }
  intros s2 o (Hm2 & Hk2 & l & Hl & Hc2 & Hsp2). cbn [app] in Hk2.
  assert (Hkk : forall t i, t ∈ all_frames G ++ rest -> read (phys_words s2) t i = read (phys_words s) t i).
  { intros t i Ht2. rewrite Hk2; [by apply Hk|]. rewrite elem_of_app in *. set_solver. }
  assert (Hc2' : calm G (phys :: l ++ rest) s2) by (destruct Hc2 as (Hi2 & ? & ?); split_and!; [|done..]; eapply inv_perm; [|exact Hi2]; by_counting).
  pose proof (amem_kept r nf active G rest (walk s) _ Hi Hkk) as Ha2. destruct Hl as [-> | ->].
  - apply wp_ret. split_and!; [done|done| | |by eexists].
    + split_and!; cbn [page tables option_list]; [done| |].
      * intros f Hf. destruct (Hsp2 f Hf) as [Hof Hzf]. split; [|done]. rewrite <- Hof. apply occ_perm. cbn. by_counting.
      * intros ? [= <-]. rewrite occ_app, occ_cons, decide_True, occ_app by done. rewrite occ_app, occ_cons, decide_True in Ho by done.
        destruct (decide (phys ∈ l)) as [Hin|Hnin%occ_not_in]; [|lia]. destruct (Hsp2 phys Hin) as [H2 _]. apply occ_pos in Hin.
        rewrite !occ_app, occ_cons, decide_True in H2 by done. pose proof (occ_nonneg phys (all_frames G)). pose proof (occ_nonneg phys rest). lia.
    + intros ? [= <-] i. etrans; [apply (Hk2 phys); apply elem_of_app; right; left|]. apply Hz.
  - apply wp_bind. eapply wp_mono; [apply (wp_give_back G rest (mkPrepared (Some phys) l) s2 (fun _ (_ : E) => False)); exact Hc2'| |done].
    intros s3 _ (Hc3 & Hw3 & Hm3). apply wp_ret. split_and!; [by rewrite Hm3, Hm2|by rewrite Hw3|exact Hc3].
Qed.

(** ** What is read into it *)

Lemma chunks_at (bs : list Z) : forall fuel i, (Datatypes.length bs <= fuel)%nat ->
  default [] (chunks_fuel fuel 8 bs !! i) = take 8 (drop (8 * i) bs).
Proof.
  intros fuel. revert bs. induction fuel as [|fuel IH]; intros bs i Hl.
  - destruct bs; [|cbn in Hl; lia]. by rewrite drop_nil.
  - cbn [chunks_fuel]. destruct bs as [|b bs]; [by rewrite drop_nil|]. destruct i as [|i]; [done|]. cbn [lookup list_lookup].
    rewrite IH by (rewrite length_drop; cbn in *; lia). rewrite drop_drop. f_equal. f_equal. lia.
Qed.

Lemma read_write_page phys (l : list Z) : forall lo n w t i,
  read (foldr (fun iw w => <[(phys, iw.1) := iw.2]> w) w (zip (seqZ lo n) l)) t i =
  if decide (t = phys /\ lo <= i < lo + Z.min n (len l)) then default 0 (l !! Z.to_nat (i - lo)) else read w t i.
Proof.
  induction l as [|x l IH]; intros lo n w t i.
  { destruct (seqZ lo n); cbn; rewrite decide_False by lia; done. }
  destruct (decide (0 < n)) as [Hn|Hn].
  - rewrite seqZ_cons by lia. cbn [zip foldr zip_with fst snd]. rewrite read_store, IH. cbn [Datatypes.length].
    destruct (decide (t = phys /\ i = lo)) as [[-> ->]|H1].
    + rewrite decide_True by lia. replace (Z.to_nat (lo - lo)) with 0%nat by lia. done.
    + destruct (decide (t = phys /\ Z.succ lo <= i < _)) as [H2|H2]; [rewrite decide_True by lia|rewrite decide_False by lia; done].
      replace (Z.to_nat (i - lo)) with (Datatypes.S (Z.to_nat (i - Z.succ lo))) by lia. done.
  - rewrite seqZ_nil by lia. cbn. rewrite decide_False by lia. done.
Qed.

Lemma write_page_words phys bs w :
  (forall i, read w phys i = 0) -> frame_words (write_page phys bs w) phys = page_of_bytes bs /\
  forall t i, t <> phys -> read (write_page phys bs w) t i = read w t i.
Proof.
  intros Hz. unfold write_page. split.
  - apply list_fmap_ext. intros i x Hx%list_elem_of_lookup_2%elem_of_seqZ. rewrite read_write_page, length_fmap, list_lookup_fmap.
    unfold chunks. pose proof (chunks_at bs (Datatypes.length bs) (Z.to_nat x) ltac:(lia)) as Hc. case_decide as Hd.
    + replace (Z.to_nat (x - 0)) with (Z.to_nat x) by lia. rewrite <- Hc. by destruct (_ !! _).
    + rewrite Hz, <- Hc. destruct (chunks_fuel _ 8 bs !! Z.to_nat x) eqn:E; [|done]. apply lookup_lt_Some in E. lia.
  - intros t i Ht. rewrite read_write_page, decide_False by naive_solver. done.
Qed.

(** The page is what the source says. *)
Lemma wp_fill_plan {E} G rest (s : Sys V) p pl (X : Sys V -> E -> Prop) :
  prepared G rest p s -> blank p s -> is_Some (page p) ->
  wp (fill pl p) (fun s' ok => prepared G rest p s' /\ mems s' = mems s /\ amem G (phys_words s') = amem G (phys_words s) /\
    match source_bytes (source pl) with Some bs => ok = true /\ holds p (page_of_bytes bs) s' | None => ok = false end) X s.
Proof.
  intros Hp Hh [phys Hphys]. specialize (Hh phys Hphys). unfold fill. destruct (source pl) as [|n off want]; cbn [source_bytes].
  { apply wp_ret. split_and!; [done..|]. unfold holds. rewrite Hphys. intros ? [= <-]. apply list_fmap_ext. intros i x _. by rewrite drop_nil, Hh. }
  destruct (contents n) as [data|e]; [|by apply wp_ret]. rewrite Hphys. apply wp_bind. unfold on_walk. apply wp_zoom, wp_modify, wp_ret.
  destruct Hp as ((Hi & Ht & Hr) & Hsp & Ho). specialize (Ho phys Hphys). rewrite Hphys in *. change (option_list (Some phys)) with [phys] in *. cbn [app] in *.
  destruct (write_page_words phys (take (Z.to_nat want) (drop (Z.to_nat off) data)) (phys_words s) Hh) as [Hw1 Hw2]. set (w := write_page _ _ _) in *.
  assert (Hne : forall f, f ∈ tables p -> f <> phys).
  { intros f Hf ->. apply occ_pos in Hf. rewrite occ_app, occ_cons, decide_True, occ_app in Ho by done. pose proof (occ_nonneg phys (all_frames G)). pose proof (occ_nonneg phys rest). lia. }
  split_and!; [|done| |done|].
  - split_and!; rewrite ?Hphys; change (option_list (Some phys)) with [phys]; cbn [app].
    + split_and!; [|done|done]. eapply (inv_rest_words r nf active _ _ (walk s) _ phys); [exact Hi|by left|exact Hw2].
    + intros f Hf. destruct (Hsp f Hf) as [Hof Hzf]. split; [done|]. intros i. unfold phys_words in Hw2. cbn. rewrite Hw2 by (by apply Hne). apply Hzf.
    + by intros ? [= <-].
  - apply amem_same. intros root q b Hs i. apply (fresh_kept r _ _ _ _ _ Ho Hw2). apply elem_of_app. left. by apply (slot_frame Hi Hs).
  - unfold holds. rewrite Hphys. by intros ? [= <-].
Qed.

(** ** The commit *)

(** A page that goes in where there was none. *)
Lemma amem_new (G : Ghost) root tabs maps tabs' q b w :
  G !! root = Some (tabs, maps) -> amem (<[root := (tabs', <[q := b]> maps)]> G) w = alter <[q := frame_words w (addr b)]> root (amem G w).
Proof.
  intros HG. rewrite amem_update. cbn [snd]. unfold space_pages. rewrite fmap_insert. apply map_eq. intros x. destruct (decide (x = root)) as [->|].
  - rewrite lookup_insert_eq, lookup_alter_eq. unfold amem. by rewrite lookup_fmap, HG.
  - by rewrite lookup_insert_ne, lookup_alter_ne.
Qed.

(** Under the lock: the frames of [p], which are no one else's. *)
Definition in_hand (G : Ghost) (rest : list Z) (phys : Z) (l : list Z) (s : Sys V) : Prop :=
  inv G (retired s ++ phys :: l ++ rest) (walk s) /\ spare_frames G (retired s ++ phys :: l ++ rest) (walk s) l /\
  occ phys (all_frames G ++ retired s ++ phys :: l ++ rest) = 1.

(** What [guard_publish] leaves of [G] and of the prepared page. *)
Definition published (G : Ghost) (rest : list Z) root maps v phys fl (s s' : Sys V) (p' : Prepared) (o : Z + Refused) : Prop :=
  retired s' = retired s /\ mems s' = mems s /\ exists tabs',
  match o with
  | inl x => x = phys /\ page p' = None /\ maps !! page_of_virt v = None /\
      let G' := <[root := (tabs', <[page_of_virt v := leaf_bits phys fl]> maps)]> G in
      inv G' (retired s' ++ tables p' ++ rest) (walk s') /\
      amem G' (phys_words s') = alter <[page_of_virt v := frame_words (phys_words s) phys]> root (amem G (phys_words s))
  | inr e => (e <> ShortOfTables -> is_Some (maps !! page_of_virt v)) /\ page p' = Some phys /\
      let G' := <[root := (tabs', maps)]> G in
      inv G' (retired s' ++ phys :: tables p' ++ rest) (walk s') /\ amem G' (phys_words s') = amem G (phys_words s)
  end.

Lemma wp_guard_publish {E} G rest (s : Sys V) root tabs maps v phys l fl (X : Sys V -> E -> Prop) :
  in_hand G rest phys l s -> G !! root = Some (tabs, maps) -> 0 <= v < USER_LIMIT -> user_flags fl ->
  wp (guard_publish root v (mkPrepared (Some phys) l) fl) (fun s' '(p', o) => published G rest root maps v phys fl s s' p' o) X s.
Proof.
  intros (Hi & Hsp & Ho) HG Hv Hfl. unfold guard_publish. cbn [page tables]. apply wp_bind, wp_with_stock.
  assert (Hi1 : inv G (l ++ phys :: retired s ++ rest) (set_stock l (walk s))) by (apply inv_stock; eapply inv_perm; [|exact Hi]; by_counting).
  assert (Hsame : forall x, occ x (all_frames G ++ l ++ phys :: retired s ++ rest) = occ x (all_frames G ++ retired s ++ phys :: l ++ rest)) by (intros x; apply occ_perm; by_counting).
  assert (Hsp1 : spare_frames G (l ++ phys :: retired s ++ rest) (set_stock l (walk s)) l) by (intros f Hf; rewrite Hsame; by apply Hsp).
  assert (Hnl : phys ∉ l).
  { intros Hin%occ_pos. rewrite !occ_app, occ_cons, decide_True, occ_app in Ho by done. pose proof (occ_nonneg phys (all_frames G)).
    pose proof (occ_nonneg phys (retired s)). pose proof (occ_nonneg phys rest). lia. }
  assert (Hpin : phys ∈ retired s ++ phys :: l ++ rest) by (apply elem_of_app; right; left).
  assert (Hmay : may_map (writes := writes) G root (page_of_virt v) (leaf_bits phys fl) phys) by (eapply (may_map_fresh r nf active _ _ _ _ _ _ _ Hi); [done|lia]).
  assert (Hkeep : forall w', (forall t i, t ∉ tab_frames tabs -> t ∉ l -> read w' t i = read (phys_words s) t i) ->
    amem G w' = amem G (phys_words s) /\ frame_words w' phys = frame_words (phys_words s) phys).
  { intros w' Hw. split.
    - eapply (amem_tables r nf active G _ (walk s) root tabs maps w' l Hi HG); [|exact Hw]. intros f Hf. split; [by apply Hsp|].
      apply elem_of_app. right. right. apply elem_of_app. by left.
    - apply frame_words_ext. intros i. apply Hw; [|done]. eapply (rest_not_table Hi Hpin HG). }
  eapply wp_mono; [apply (wp_inv_publish r nf active G (retired s ++ rest) (set_stock l (walk s)) root tabs maps v phys fl Hi1 Hsp1 Hmay HG Hv Hfl)| |].
  - intros w _ (Hnone & tabs' & Hi2 & _ & _ & Hw2 & _ & _). apply wp_ret. split_and!; [done..|]. exists tabs'. split_and!; [done|done|done|]. cbv zeta. split.
    + cbn. eapply inv_perm; [|exact Hi2]. by_counting.
    + destruct (Hkeep (words w) Hw2) as [Ha Hf]. rewrite (amem_new _ _ tabs maps) by done. unfold phys_words at 1 2. cbn [walk set_walk]. rewrite Ha, addr_leaf; [by rewrite Hf|].
      apply (handle_frame Hi). apply elem_of_app. by right.
  - intros w e (He & tabs' & Hi2 & _ & Hw2 & _ & _). destruct (Hkeep (words w) Hw2) as [Ha _].
    assert (Hfail : published G rest root maps v phys fl s (set_walk w s) (mkPrepared (Some phys) (stock w)) (inr e)).
    { split_and!; [done..|]. exists tabs'. split_and!; [by destruct e|done|]. cbv zeta. split.
      - cbn. eapply inv_perm; [|exact Hi2]. by_counting.
      - rewrite amem_update. unfold phys_words at 1 2. cbn [walk set_walk snd]. rewrite <- Ha. apply insert_id. unfold amem. by rewrite lookup_fmap, HG. }
    apply wp_ret. destruct e; [done|done|by destruct He].
Qed.

(** The page of [root] at [q], as the programs see it. *)
Definition page_at (A : gmap Z (gmap Z (list Z))) (root q : Z) : option (list Z) := A !! root ≫= (.!! q).

Lemma page_at_maps (G : Ghost) root tabs maps q w : G !! root = Some (tabs, maps) -> page_at (amem G w) root q = (fun b => frame_words w (addr b)) <$> maps !! q.
Proof. intros HG. unfold page_at, amem. rewrite lookup_fmap, HG. cbn. unfold space_pages. by rewrite lookup_fmap. Qed.

(** [guard_commit], whatever happened since the plan was made: a page goes in
    only if there is none and the record, asked now, says the same. *)
Lemma wp_guard_commit {E} G rest (s : Sys V) root v phys l pl (X : Sys V -> E -> Prop) :
  in_hand G rest phys l s -> is_Some (G !! root) -> Forall vma_ok (vmas (record_of root s)) -> 0 <= v < USER_LIMIT -> v `mod` 4096 = 0 ->
  wp (guard_commit root v pl (mkPrepared (Some phys) l)) (fun s' '(p', c) => mems s' = mems s /\ exists G', dom G' = dom G /\
    inv G' (retired s' ++ option_list (page p') ++ tables p' ++ rest) (walk s') /\
    let q := page_of_virt v in let A := amem G (phys_words s) in
    match c with
    | Done => page_at A root q = None /\ planned (record_of root s) v = Some (p_flags pl, source pl) /\
        amem G' (phys_words s') = alter <[q := frame_words (phys_words s) phys]> root A
    | Already => is_Some (page_at A root q) /\ amem G' (phys_words s') = A
    | Changed => planned (record_of root s) v <> Some (p_flags pl, source pl) /\ amem G' (phys_words s') = A
    | Short => amem G' (phys_words s') = A
    end) X s.
Proof.
  intros Hin [[tabs maps] HG] Hok Hv Hal. pose proof Hin as (Hi & _ & _). unfold guard_commit. apply wp_bind, wp_gets. unfold phys_words at 1.
  rewrite (translate_pages r nf active _ _ _ root tabs maps v Hi HG Hv Hal). cbv zeta. rewrite (page_at_maps _ _ _ _ _ _ HG).
  destruct (maps !! page_of_virt v) as [b|] eqn:Hb; cbn [fmap option_fmap option_map]; [apply wp_ret; split; [done|]; exists G; split_and!; [done|exact Hi|by eexists|done]|].
  apply wp_bind. eapply wp_mono; [apply (wp_plan root v s (fun _ (_ : E) => False) Hok)| |done]. intros s' o [-> ->].
  destruct (planned (record_of root s) v) as [[fl src]|] eqn:Hpl; cbn [fmap option_fmap option_map]; [|apply wp_ret; split; [done|]; exists G; split_and!; [done|exact Hi|done|done]].
  destruct (same_page_as _ pl) eqn:Es; cbn [negb].
  2: { apply wp_ret. split; [done|]. exists G. split_and!; [done|exact Hi| |done]. intros [= -> ->]. rewrite (proj2 (same_page_spec _ _)) in Es by done. done. }
  apply same_page_spec in Es as [E1 E2]. cbn in E1, E2. subst fl src. apply wp_bind.
  eapply wp_mono; [apply (wp_guard_publish G rest s root tabs maps v phys l _ (fun _ (_ : E) => False) Hin HG Hv (planned_user _ _ _ _ Hpl))| |done].
  intros s' [p' [x|e]] (Hr & Hm & tabs' & H); cbv zeta in H; apply wp_ret; (split; [done|]).
  - destruct H as (-> & Hp & _ & Hi' & Ha'). eexists. split_and!; [|rewrite Hp; exact Hi'|done|done|exact Ha']. apply dom_insert_lookup_L. by eexists.
  - destruct H as (He & Hp & Hi' & Ha'). eexists. split_and!; [|rewrite Hp; exact Hi'|]; [apply dom_insert_lookup_L; by eexists|].
    destruct (decide (e = ShortOfTables)) as [->|Hne]; [done|]. destruct (He Hne). congruence.
Qed.

(** ** A fault *)

(** What a fault at page [q] makes of what the programs see. *)
Definition served (A A' : gmap Z (gmap Z (list Z))) (root v : Z) (m : MemState V) (ok : bool) : Prop :=
  let q := page_of_virt v in
  (A' = A /\ (ok = true -> is_Some (page_at A root q))) \/
  (ok = true /\ page_at A root q = None /\ exists fl src bs, planned m v = Some (fl, src) /\ source_bytes src = Some bs /\ A' = alter <[q := page_of_bytes bs]> root A).

Lemma wp_fault_try {E} G rest (s : Sys V) root v (X : Sys V -> E -> Prop) :
  calm G rest s -> is_Some (G !! root) -> Forall vma_ok (vmas (record_of root s)) -> 0 <= v < USER_LIMIT -> v `mod` 4096 = 0 ->
  wp (fault_try root v) (fun s' o => mems s' = mems s /\ exists G', calm G' rest s' /\ dom G' = dom G /\
    match o with
    | None => amem G' (phys_words s') = amem G (phys_words s)
    | Some ok => served (amem G (phys_words s)) (amem G' (phys_words s')) root v (record_of root s) ok
    end) X s.
Proof.
  intros Hc [[tabs maps] HG] Hok Hv Hal. pose proof Hc as (Hi & Ht & Hr). unfold fault_try. apply wp_bind. eapply wp_locked; [exact Hc|]. apply wp_bind, wp_gets. unfold phys_words at 1.
  rewrite (translate_pages r nf active _ _ _ root tabs maps v Hi HG Hv Hal). destruct (maps !! page_of_virt v) as [b|] eqn:Hb; cbn [fmap option_fmap option_map].
  { apply wp_ret. exists G, rest. rewrite Hr. split; [done|]. intros s1 Hc1 Hw1 Hm1. apply wp_ret. split; [done|]. exists G. rewrite Hw1. split_and!; [apply Hc1|done|].
    left. split; [done|]. intros _. rewrite (page_at_maps _ _ _ _ _ _ HG), Hb. by eexists. }
  apply wp_bind. eapply wp_mono; [apply (wp_plan root v s (fun _ (_ : E) => False) Hok)| |done]. intros s' o [-> ->]. apply wp_ret.
  exists G, rest. rewrite Hr. split; [done|]. intros s1 Hc1 Hw1 Hm1.
  assert (Hnone : forall s', mems s' = mems s1 -> calm G rest s' -> amem G (phys_words s') = amem G (phys_words s1) -> mems s' = mems s /\ exists G', calm G' rest s' /\ dom G' = dom G /\ served (amem G (phys_words s)) (amem G' (phys_words s')) root v (record_of root s) false).
  { intros s' Hm' Hc' Ha'. split; [congruence|]. exists G. split_and!; [apply Hc'|done|]. left. rewrite Ha', Hw1. done. }
  destruct (planned (record_of root s) v) as [[fl src]|] eqn:Hpl; cbn [fmap option_fmap option_map]; [|apply wp_ret; by apply Hnone].
  apply wp_bind. eapply wp_mono; [apply (wp_prepared_new G rest _ s1 (fun _ (_ : E) => False) Hc1)| |done]. intros s2 [p|] (Hm2 & Ha2 & H2); [|apply wp_ret; by apply Hnone].
  destruct H2 as (Hp2 & Hbl2 & Hpg2). apply wp_bind. eapply wp_mono; [apply (wp_fill_plan G rest s2 p _ (fun _ (_ : E) => False) Hp2 Hbl2 Hpg2)| |done].
  intros s3 ok (Hp3 & Hm3 & Ha3 & H3). change (source _) with src in H3. destruct (source_bytes src) as [bs|] eqn:Hsrc; [destruct H3 as [-> Hh3]|subst ok]; cbn [negb].
  2: { apply wp_bind. eapply wp_mono; [apply (wp_give_back G rest p s3 (fun _ (_ : E) => False) (proj1 Hp3))| |done]. intros s4 _ (Hc4 & Hw4 & Hm4). apply wp_ret, Hnone; [congruence|done|]. by rewrite Hw4, Ha3. }
  destruct Hp3 as (Hc3 & Hsp3 & Ho3). destruct p as [pg l]. destruct Hpg2 as [phys Hpg]. cbn [page tables] in *. subst pg. change (option_list (Some phys)) with [phys] in *. cbn [app] in *.
  specialize (Ho3 phys eq_refl). specialize (Hh3 phys eq_refl). apply wp_bind. eapply wp_locked; [exact Hc3|]. destruct Hc3 as (Hi3 & Ht3 & Hr3).
  assert (Hrec : record_of root s3 = record_of root s) by (unfold record_of; congruence).
  eapply wp_mono; [apply (wp_guard_commit G rest s3 root v phys l _ (fun _ (_ : E) => False)); [unfold in_hand; by rewrite Hr3|by eexists|by rewrite Hrec|done|done]| |done].
  intros s4 [p' c] (Hm4 & G4 & HD4 & Hi4 & H4). cbv zeta in H4. exists G4, (option_list (page p') ++ tables p' ++ rest). split; [done|]. intros s5 Hc5 Hw5 Hm5. apply wp_bind.
  eapply wp_mono; [apply (wp_give_back G4 rest p' s5 (fun _ (_ : E) => False) Hc5)| |done]. intros s6 _ (Hc6 & Hw6 & Hm6). apply wp_ret.
  assert (HA : amem G (phys_words s3) = amem G (phys_words s)) by (by rewrite Ha3, Ha2, Hw1). rewrite HA, Hrec in H4. split; [congruence|]. exists G4. split_and!; [apply Hc6|done|]. rewrite Hw6, Hw5.
  destruct c; cbn.
  - right. destruct H4 as (H5 & H6 & ->). split_and!; [done|done|]. exists fl, src, bs. by rewrite Hh3.
  - destruct H4 as [H5 ->]. by left.
  - by destruct H4.
  - done.
Qed.

(** [fault_in]: nothing the programs see changes but for the page asked for,
    which was not there and is now what the record says it is. *)
Lemma wp_fault_in {E} G rest (s : Sys V) root a (X : Sys V -> E -> Prop) :
  calm G rest s -> is_Some (G !! root) -> Forall vma_ok (vmas (record_of root s)) -> 0 <= a < USER_LIMIT ->
  wp (fault_in root a) (fun s' ok => mems s' = mems s /\ exists G', calm G' rest s' /\ dom G' = dom G /\
    served (amem G (phys_words s)) (amem G' (phys_words s')) root (page_align_down a) (record_of root s) ok) X s.
Proof.
  intros Hc HG Hok Ha. unfold fault_in. destruct (page_align_user r a Ha) as (Hv & Hal & _). generalize dependent (page_align_down a). intros v Hv Hal. clear a Ha.
  generalize 8%nat. intros n. revert G s Hc HG Hok. induction n as [|n IH]; intros G s Hc HG Hok; cbn [fault_tries].
  { apply wp_ret. split; [done|]. exists G. split_and!; [apply Hc|done|]. by left. }
  apply wp_bind. eapply wp_mono; [apply (wp_fault_try G rest s root v (fun _ (_ : E) => False)); done| |done].
  intros s1 [ok|] (Hm1 & G1 & Hc1 & HD1 & H1); [apply wp_ret; split; [done|]; by exists G1|].
  assert (Hrec : record_of root s1 = record_of root s) by (unfold record_of; congruence).
  eapply wp_mono; [apply (IH G1 s1 Hc1)| |done].
  - apply elem_of_dom. rewrite HD1. by apply elem_of_dom.
  - by rewrite Hrec.
  - intros s2 ok (Hm2 & G2 & Hc2 & HD2 & H2). rewrite H1, Hrec in H2. split; [congruence|]. exists G2. split_and!; [apply Hc2|congruence|done].
Qed.

(** C14: A page prepared with no lock held is committed only where there is no page
    and only when the record, asked again under the lock, still says what it said
    when the page was planned, whatever other threads did in between; otherwise no
    program sees a difference. Every frame of it is accounted for either way. *)
Theorem commit_rechecks G rest (s : Sys V) root v phys l pl :
  in_hand G rest phys l s -> is_Some (G !! root) -> Forall vma_ok (vmas (record_of root s)) -> 0 <= v < USER_LIMIT -> v `mod` 4096 = 0 ->
  wp (E := Errno) (guard_commit root v pl (mkPrepared (Some phys) l)) (fun s' '(p', c) => mems s' = mems s /\ exists G', dom G' = dom G /\
    inv G' (retired s' ++ option_list (page p') ++ tables p' ++ rest) (walk s') /\
    let q := page_of_virt v in let A := amem G (phys_words s) in
    match c with
    | Done => page_at A root q = None /\ planned (record_of root s) v = Some (p_flags pl, source pl) /\
        amem G' (phys_words s') = alter <[q := frame_words (phys_words s) phys]> root A
    | Already => is_Some (page_at A root q) /\ amem G' (phys_words s') = A
    | Changed => planned (record_of root s) v <> Some (p_flags pl, source pl) /\ amem G' (phys_words s') = A
    | Short => amem G' (phys_words s') = A
    end) (fun _ _ => False) s.
Proof. intros H1 H2 H3 H4 H5. by apply wp_guard_commit. Qed.
End fault.

(** * Private memories

    The machine with its programs: they store through the descriptors the
    processor has or finds, and the kernel serves their faults, unmaps, forks and
    ends them. Every run of it is one of an abstract machine in which each program
    has a memory of its own, a map from pages to words, that no other touches. *)

(** ** The abstract machine *)

Abbreviation Memories := (gmap Z (gmap Z (list Z))) (only parsing).

Inductive Event :=
  | Store (q i x : Z) | Cache | Switch (root : Z)
  | Fault (root a : Z) | Break (root a : Z) | Unmap (root a n : Z) | Fork (parent : Z) (child : option Z) | Exit (root : Z).

(** What an event makes of the memories; [on] is the program that runs. *)
Inductive private (on : Z) (A : Memories) : Event -> Memories -> Prop :=
  | p_store q i x c : page_at A on q = Some c -> private on A (Store q i x) (alter <[q := <[Z.to_nat i := x]> c]> on A)
  | p_cache : private on A Cache A
  | p_switch root : private on A (Switch root) A
  | p_no_fault root a : private on A (Fault root a) A
  | p_fault root a bs : page_at A root (page_of_virt a) = None ->
      private on A (Fault root a) (alter <[page_of_virt a := page_of_bytes bs]> root A)
  | p_break root a : private on A (Break root a) A
  | p_unmap root a n to : rounded_up (a + n) 4096 to ->
      private on A (Unmap root a n) (alter (outside (page_of_virt a) (page_of_virt to)) root A)
  | p_no_fork parent : private on A (Fork parent None) A
  | p_fork parent child pp : A !! child = None -> A !! parent = Some pp -> private on A (Fork parent (Some child)) (<[child := pp]> A)
  | p_exit root : private on A (Exit root) (delete root A).

Section iso.
Context {P : Paging} {writes : Z -> bool} {PL : PagingLaws P writes} {V : Type} {FV : Files V}.
Context (r : Z -> bool) (nf : Z) (kernel : Z).
Abbreviation inv := (inv (writes := writes) r nf).
Abbreviation calm := (calm (writes := writes) r nf).

(** ** The machine *)

Definition set_user_words (w : gmap (Z * Z) Z) (s : Sys V) : Sys V := set_walk (set_words w (walk s)) s.
Definition set_user_cache (c : gmap Z Z) (s : Sys V) : Sys V := set_walk (set_cached c (walk s)) s.

(** The descriptor the processor goes by for page [q]: the one it keeps, or else
    the one of the tables. *)
Definition descriptor (on q : Z) (s : Sys V) : option Z :=
  match cached (walk s) !! q with
  | Some b => Some b
  | None => leaf (phys_words s) on (q * 4096)
  end.

(** No frame of [parent] has as many references as can be counted. *)
Definition forkable (parent : Z) (s : Sys V) : Prop :=
  forall q b, 0 <= q < page_of_virt USER_LIMIT -> leaf (phys_words s) parent (q * 4096) = Some b ->
    exists n, references (addr b) (pool (walk s)) = (pool (walk s), Ok n) /\ n < u16_max.

Inductive step : Z * Sys V -> Event -> Z * Sys V -> Prop :=
  | s_store on s q i x b : 0 <= q < page_of_virt USER_LIMIT -> 0 <= i < 512 -> descriptor on q s = Some b -> writes b = true ->
      step (on, s) (Store q i x) (on, set_user_words (<[(addr b, i) := x]> (phys_words s)) s)
  | s_cache on s q b : 0 <= q < page_of_virt USER_LIMIT -> leaf (phys_words s) on (q * 4096) = Some b ->
      step (on, s) Cache (on, set_user_cache (<[q := b]> (cached (walk s))) s)
  | s_switch on s root : is_Some (mems s !! root) -> step (on, s) (Switch root) (root, set_user_cache ∅ s)
  | s_fault on s s' root a ok : is_Some (mems s !! root) -> 0 <= a < USER_LIMIT -> fault_in (E := Errno) root a s = (s', Ok ok) ->
      step (on, s) (Fault root a) (on, s')
  | s_break on s s' root a ok : is_Some (mems s !! root) -> 0 <= a < USER_LIMIT -> break_cow (E := Errno) root a s = (s', Ok ok) ->
      step (on, s) (Break root a) (on, s')
  | s_unmap on s s' root a n x : is_Some (mems s !! root) -> is_u64 a -> is_u64 n -> sys_munmap root a n s = (s', Ok x) ->
      step (on, s) (Unmap root a n) (on, s')
  | s_fork on s s' parent child : is_Some (mems s !! parent) -> forkable parent s -> fork (E := Errno) kernel on parent s = (s', Ok child) ->
      step (on, s) (Fork parent child) (on, s')
  | s_exit on s s' root : is_Some (mems s !! root) -> root <> on -> drop_mm (E := Errno) on root s = (s', Ok tt) ->
      step (on, s) (Exit root) (on, s').

(** The memories of a machine in order. *)
Definition has_memories (m : Z * Sys V) (A : Memories) : Prop :=
  exists G rest, calm m.1 G rest m.2 /\ is_Some (G !! m.1) /\ (forall root, is_Some (mems m.2 !! root) <-> is_Some (G !! root)) /\
    (forall root x, mems m.2 !! root = Some x -> Forall vma_ok (vmas x)) /\ A = amem G (phys_words m.2).

(** ** Stores *)

Lemma descriptor_slot on G rest (s : Sys V) q b :
  calm on G rest s -> is_Some (G !! on) -> 0 <= q < page_of_virt USER_LIMIT -> descriptor on q s = Some b -> slot G on q b.
Proof.
  intros (Hi & Ht & Hr) [[tabs maps] HG] Hq. unfold descriptor. destruct (cached (walk s) !! q) as [b'|] eqn:Ec.
  - intros [= ->]. destruct (i_cache Hi Ec) as [H|]; [|done]. by rewrite Ht in H.
  - change (page_of_virt USER_LIMIT) with (2 ^ 35) in Hq. unfold phys_words.
    rewrite (leaf_maps user_half _ _ tabs maps _ (i_hier Hi HG) (user_owned (q * 4096) ltac:(change USER_LIMIT with (2 ^ 47); lia))).
    unfold page_of_virt. rewrite Z.div_mul by lia. intros Hb. by exists tabs, maps.
Qed.

Lemma frame_words_store w p i x p' : 0 <= i < 512 ->
  frame_words (<[(p, i) := x]> w) p' = if decide (p' = p) then <[Z.to_nat i := x]> (frame_words w p) else frame_words w p'.
Proof.
  intros Hi. case_decide as Hp.
  - subst p'. unfold frame_words. apply list_eq. intros j. destruct (decide (j = Z.to_nat i)) as [->|Hj].
    + rewrite list_lookup_insert_eq by (rewrite length_fmap, length_seqZ; lia). rewrite list_lookup_fmap, lookup_seqZ_lt by lia. cbn. rewrite read_store, decide_True; [done|]. lia.
    + rewrite list_lookup_insert_ne, !list_lookup_fmap by done. destruct (seqZ 0 512 !! j) eqn:E; [|done]. apply lookup_seqZ in E. cbn. rewrite read_store, decide_False; [done|]. lia.
  - apply frame_words_ext. intros j. rewrite read_store, decide_False; [done|]. naive_solver.
Qed.

(** A store changes the page it is made to, of the program that makes it, and no
    other page of any program. *)
Lemma store_amem on G rest (s : Sys V) q i x b :
  calm on G rest s -> slot G on q b -> writes b = true -> 0 <= i < 512 ->
  amem G (<[(addr b, i) := x]> (phys_words s)) = alter <[q := <[Z.to_nat i := x]> (frame_words (phys_words s) (addr b))]> on (amem G (phys_words s)).
Proof.
  intros (Hi & _ & _) Hs Hw Hix. apply map_eq. intros root. destruct (decide (root = on)) as [->|Hne].
  - rewrite lookup_alter_eq. unfold amem. rewrite !lookup_fmap. destruct (G !! on) as [[tabs maps]|] eqn:HG; [|done]. cbn. f_equal.
    apply map_eq. intros q'. destruct (decide (q' = q)) as [->|Hq].
    + rewrite lookup_insert_eq. unfold space_pages. rewrite lookup_fmap. destruct Hs as (tb & mp & HG' & Hb). rewrite HG in HG'. injection HG' as <- <-. rewrite Hb. cbn.
      by rewrite frame_words_store, decide_True by done.
    + rewrite lookup_insert_ne by done. unfold space_pages. rewrite !lookup_fmap. destruct (maps !! q') as [b'|] eqn:Hb'; [|done]. cbn. f_equal.
      rewrite frame_words_store by done. rewrite decide_False; [done|]. intros E. assert (Hs' : slot G on q' b') by (by exists tabs, maps).
      destruct (i_cow Hi _ _ _ _ _ _ Hs Hs' (eq_sym E)) as [Hf _]; [congruence|congruence].
  - rewrite lookup_alter_ne by done. unfold amem. rewrite !lookup_fmap. destruct (G !! root) as [[tabs maps]|] eqn:HG; [|done]. cbn. f_equal.
    apply map_fmap_ext. intros q' b' Hb'. rewrite frame_words_store by done. rewrite decide_False; [done|]. intros E. assert (Hs' : slot G root q' b') by (by exists tabs, maps).
    destruct (i_cow Hi _ _ _ _ _ _ Hs Hs' (eq_sym E)) as [Hf _]; [congruence|congruence].
Qed.

Lemma store_calm on G rest (s : Sys V) q i x b :
  calm on G rest s -> slot G on q b -> calm on G rest (set_user_words (<[(addr b, i) := x]> (phys_words s)) s).
Proof.
  intros (Hi & Ht & Hr) Hs. split_and!; [|done|done]. apply inv_words; [done|]. intros root tabs maps t j HG Hin. rewrite read_store, decide_False; [done|].
  intros [-> _]. by apply (table_not_page Hi Hs HG Hin).
Qed.

(** ** Every step *)

Lemma wp_ok {S E A} (m : M S E A) Q X s s' a : wp m Q X s -> m s = (s', Ok a) -> Q s' a.
Proof. unfold wp. intros H E1. by rewrite E1 in H. Qed.

Lemma dom_records (G G' : Ghost) (ms ms' : gmap Z (MemState V)) :
  (forall root, is_Some (ms !! root) <-> is_Some (G !! root)) -> dom ms' = dom ms -> dom G' = dom G -> forall root, is_Some (ms' !! root) <-> is_Some (G' !! root).
Proof. intros H HM HD root. rewrite <- !elem_of_dom, HM, HD, !elem_of_dom. apply H. Qed.

Lemma records_ok (ms : gmap Z (MemState V)) root s : mems s = ms -> is_Some (ms !! root) ->
  (forall root x, ms !! root = Some x -> Forall vma_ok (vmas x)) -> Forall vma_ok (vmas (record_of root s)).
Proof. intros <- [x Hx] H. unfold record_of. rewrite Hx. by apply (H root). Qed.

Lemma insert_records (ms : gmap Z (MemState V)) root m :
  Forall vma_ok (vmas m) -> (forall root x, ms !! root = Some x -> Forall vma_ok (vmas x)) ->
  forall root' x, <[root := m]> ms !! root' = Some x -> Forall vma_ok (vmas x).
Proof. intros Hm H root' x. rewrite lookup_insert_Some. intros [[_ <-]|[_ Hx]]; [done|by eapply H]. Qed.

Lemma forkable_room on G rest (s : Sys V) parent : calm on G rest s -> is_Some (G !! parent) -> forkable parent s -> room G rest parent 0.
Proof.
  intros (Hi & _ & _) [[tabs maps] HG] Hf q b _ Hs. destruct (slot_frame Hi Hs) as [Hin _]. pose proof Hs as (tb & mp & HG' & Hb). rewrite HG in HG'. injection HG' as <- <-.
  pose proof (user_pages r _ _ _ _ _ _ (i_hier Hi HG) Hb) as Hq. destruct (Hf q b Hq) as (n & Hn & Hlt).
  - change (page_of_virt USER_LIMIT) with (2 ^ 35) in Hq. unfold phys_words.
    rewrite (leaf_maps user_half _ _ tabs maps _ (i_hier Hi HG) (user_owned (q * 4096) ltac:(change USER_LIMIT with (2 ^ 47); lia))). unfold page_of_virt. by rewrite Z.div_mul by lia.
  - assert (Hin' : addr b ∈ all_frames G ++ rest) by (apply elem_of_app; by left). destruct (handle_frame Hi Hin') as [_ Hr]. congruence.
Qed.

(** The records are as they were. *)
Lemma again (on : Z) (G : Ghost) (s s' : Sys V) (G' : Ghost) (rest' : list Z) :
  calm on G' rest' s' -> dom G' = dom G -> mems s' = mems s -> is_Some (G !! on) -> (forall root, is_Some (mems s !! root) <-> is_Some (G !! root)) ->
  (forall root x, mems s !! root = Some x -> Forall vma_ok (vmas x)) -> has_memories (on, s') (amem G' (phys_words s')).
Proof.
  intros Hc HD Hm Hon Hms Hok. exists G', rest'. cbn [fst snd]. rewrite Hm. split_and!; [done| | |done|done].
  - apply elem_of_dom. rewrite HD. by apply elem_of_dom.
  - by eapply dom_records.
Qed.

(** What one event is to the memories of the programs. *)
Definition privately (on : Z) (s : Sys V) (ev : Event) (m' : Z * Sys V) : Prop :=
  forall A, has_memories (on, s) A -> exists A', has_memories m' A' /\ private on A ev A'.

Lemma store_private on (s : Sys V) q i x b :
  0 <= q < page_of_virt USER_LIMIT -> 0 <= i < 512 -> descriptor on q s = Some b -> writes b = true ->
  privately on s (Store q i x) (on, set_user_words (<[(addr b, i) := x]> (phys_words s)) s).
Proof.
  intros Hq Hi Hd Hw A (G & rest & Hc & Hon & Hms & Hok & ->). cbn [fst snd] in *.
  assert (Hs : slot G on q b) by (by eapply descriptor_slot). eexists. split.
  + exists G, rest. split_and!; [by eapply store_calm|done|done|done|reflexivity].
  + cbn [fst snd]. change (phys_words (set_user_words ?w _)) with w. erewrite store_amem by done. apply p_store.
    destruct Hs as (tabs & maps & HG & Hb). rewrite (page_at_maps _ _ _ _ _ _ HG), Hb. done.
Qed.

Lemma fault_private on (s : Sys V) s' root a ok :
  is_Some (mems s !! root) -> 0 <= a < USER_LIMIT -> fault_in (E := Errno) root a s = (s', Ok ok) ->
  privately on s (Fault root a) (on, s').
Proof.
  intros Hthere Hin Hrun A (G & rest & Hc & Hon & Hms & Hok & ->). cbn [fst snd] in *.
  eapply wp_ok in Hrun; [|apply (wp_fault_in r nf on G rest s root a (fun _ _ => False)); [done|by apply Hms|by eapply records_ok|done]].
  destruct Hrun as (Hm & G' & Hc' & HD & Hs). exists (amem G' (phys_words s')). split.
  + apply (again on G s s' G' rest); done.
  + destruct (page_align_user r a Hin) as (_ & _ & Hpa). unfold served in Hs. rewrite Hpa in Hs. destruct Hs as [[-> _]|(_ & Hnone & fl & src & bs & _ & _ & ->)]; [constructor|by apply p_fault].
Qed.

Lemma break_private on (s : Sys V) s' root a ok :
  is_Some (mems s !! root) -> 0 <= a < USER_LIMIT -> break_cow (E := Errno) root a s = (s', Ok ok) ->
  privately on s (Break root a) (on, s').
Proof.
  intros Hthere Hin Hrun A (G & rest & Hc & Hon & Hms & Hok & ->). cbn [fst snd] in *.
  destruct (proj1 (Hms root) Hthere) as [[tabs maps] HG].
  eapply wp_ok in Hrun; [|apply (wp_break_cow r nf on G rest s root tabs maps a (fun _ _ => False)); done].
  destruct Hrun as (maps' & Hc' & Ha & Hm & _). exists (amem (<[root := (tabs, maps')]> G) (phys_words s')). split; [|rewrite Ha; constructor].
  eapply (again on G s s'); try done. apply dom_insert_lookup_L. by eexists.
Qed.

Lemma unmap_private on (s : Sys V) s' root a n x :
  is_Some (mems s !! root) -> is_u64 a -> is_u64 n -> sys_munmap root a n s = (s', Ok x) ->
  privately on s (Unmap root a n) (on, s').
Proof.
  intros Hthere Ha0 Hn0 Hrun A (G & rest & Hc & Hon & Hms & Hok & ->). cbn [fst snd] in *.
  destruct (proj1 (Hms root) Hthere) as [[tabs maps] HG].
  eapply wp_ok in Hrun; [|apply (wp_sys_munmap r nf on G rest s root tabs maps a n); try done; by eapply records_ok].
  destruct Hrun as (_ & _ & to & G' & m' & Hto & Hc' & (tabs' & -> & Ha & _) & Hm & _ & Hv & _). set (G' := <[root := _]> G) in *. exists (amem G' (phys_words s')). split; [|rewrite Ha; by econstructor].
  exists G', rest. unfold G' in *. cbn [fst snd]. split_and!; [done| | | |done].
  + apply elem_of_dom. rewrite dom_insert_lookup_L by (by eexists). by apply elem_of_dom.
  + rewrite Hm. eapply dom_records; [exact Hms|by apply dom_insert_lookup_L|]. apply dom_insert_lookup_L. by eexists.
  + rewrite Hm. by apply insert_records.
Qed.

Lemma fork_private on (s : Sys V) s' parent child :
  is_Some (mems s !! parent) -> forkable parent s -> fork (E := Errno) kernel on parent s = (s', Ok child) ->
  privately on s (Fork parent child) (on, s').
Proof.
  intros Hthere Hfk Hrun A (G & rest & Hc & Hon & Hms & Hok & ->). cbn [fst snd] in *.
  destruct (proj1 (Hms parent) Hthere) as [[tabs maps] HG]. assert (Hrec : recorded G s).
  { intros root Hno. destruct (mems s !! root) eqn:Em; [|done]. destruct (proj1 (Hms root)) as [? ?]; [by eexists|congruence]. }
  eapply wp_ok in Hrun; [|apply (wp_fork r nf on kernel on G rest s parent tabs maps (fun _ _ => False)); [done|done|by eapply forkable_room|done|done]].
  destruct child as [child|].
  + destruct Hrun as (Hno & G' & Hc' & HD & Ha & Hm). exists (amem G' (phys_words s')). split; [|rewrite Ha; apply p_fork].
    * exists G', rest. cbn [fst snd]. split_and!; [done| | | |done].
      -- apply elem_of_dom. rewrite HD. apply elem_of_union. right. by apply elem_of_dom.
      -- intros root. rewrite Hm, <- !elem_of_dom, HD, dom_insert_L, !elem_of_union, !elem_of_dom, Hms. done.
      -- rewrite Hm. apply insert_records; [by eapply records_ok|done].
    * unfold amem. by rewrite lookup_fmap, Hno.
    * unfold amem. by rewrite lookup_fmap, HG.
  + destruct Hrun as (G' & leak & Hc' & HD & Ha & Hm). exists (amem G' (phys_words s')). split; [by eapply (again on G s s' G' (leak ++ rest))|]. rewrite Ha. constructor.
Qed.

Lemma exit_private on (s : Sys V) s' root :
  is_Some (mems s !! root) -> root <> on -> drop_mm (E := Errno) on root s = (s', Ok tt) ->
  privately on s (Exit root) (on, s').
Proof.
  intros Hthere Hne Hrun A (G & rest & Hc & Hon & Hms & Hok & ->). cbn [fst snd] in *.
  destruct (proj1 (Hms root) Hthere) as [[tabs maps] HG].
  eapply wp_ok in Hrun; [|apply (wp_drop_mm r nf on G rest s on root tabs maps (fun _ _ => False)); done].
  destruct Hrun as (Hc' & Ha & Hm & _). exists (amem (delete root G) (phys_words s')). split; [|rewrite Ha; constructor]. exists (delete root G), rest. cbn [fst snd]. split_and!; [done| | | |done].
  + by rewrite lookup_delete_ne.
  + intros root'. rewrite Hm. destruct (decide (root' = root)) as [->|]; [by rewrite !lookup_delete_eq|rewrite !lookup_delete_ne by done; apply Hms].
  + intros root' x. rewrite Hm, lookup_delete_Some. intros [_ Hx]. by eapply Hok.
Qed.

Lemma step_private on (s : Sys V) ev m' : step (on, s) ev m' -> privately on s ev m'.
Proof.
  inversion 1; subst; eauto using store_private, fault_private, break_private, unmap_private, fork_private, exit_private.
  all: intros A (G & rest & Hc & Hon & Hms & Hok & ->); cbn [fst snd] in *.
  - exists (amem G (phys_words s)). split; [|constructor]. exists G, rest. split_and!; try done. destruct Hc as (Hi & Ht & Hr). split_and!; [|done|done].
    pose proof Hi as [J1 J2 J3 J4 J5 J6 J7]. split; try done. intros q' b'. cbn. rewrite lookup_insert_Some. intros [[<- <-]|[_ Hq']]; [right|by apply J6].
    destruct Hon as [[tabs maps] HG].
    change (page_of_virt USER_LIMIT) with (2 ^ 35) in *. unfold phys_words in *.
    rewrite (leaf_maps user_half _ _ tabs maps _ (i_hier Hi HG) (user_owned (q * 4096) ltac:(change USER_LIMIT with (2 ^ 47); lia))) in *.
    unfold page_of_virt in *. rewrite Z.div_mul in * by lia. by exists tabs, maps.
  - exists (amem G (phys_words s)). split; [|constructor]. exists G, rest. split_and!; try done; [|by apply Hms]. destruct Hc as (Hi & Ht & Hr). split_and!; [|done|done].
    pose proof Hi as [J1 J2 J3 J4 J5 J6 J7]. by split.
Qed.

(** Runs of both machines. *)
Inductive runs : Z * Sys V -> list Event -> Z * Sys V -> Prop :=
  | r_nil m : runs m [] m
  | r_cons m ev m1 evs m2 : step m ev m1 -> runs m1 evs m2 -> runs m (ev :: evs) m2.
Inductive private_runs : Z -> Memories -> list Event -> Memories -> Prop :=
  | q_nil on A : private_runs on A [] A
  | q_cons on A ev A1 evs A2 : private on A ev A1 -> private_runs (match ev with Switch root => root | _ => on end) A1 evs A2 -> private_runs on A (ev :: evs) A2.

Lemma runs_private m evs m' : runs m evs m' -> forall A, has_memories m A -> exists A', has_memories m' A' /\ private_runs m.1 A evs A'.
Proof.
  induction 1 as [m|[on s] ev m1 evs m2 Hs Hr IH]; intros A HA; [exists A; split; [done|constructor]|].
  destruct (step_private on s ev m1 Hs A HA) as (A1 & HA1 & Hp). destruct (IH A1 HA1) as (A2 & HA2 & Hp2). exists A2. split; [done|].
  econstructor; [exact Hp|]. cbn [fst]. replace (match ev with Switch root => root | _ => on end) with m1.1; [done|]. by inversion Hs; subst.
Qed.

(** C3: Every run of the machine, with programs storing through whatever descriptor
    the processor goes by and the kernel serving faults, copy-on-write, unmapping,
    forks and ends in any order, is a run of the machine in which each program has
    a memory of its own: a store changes one word of one page of the program that
    makes it, a fork gives the child a copy, and nothing else changes any memory. *)
Theorem programs_private m evs m' A :
  runs m evs m' -> has_memories m A -> exists A', has_memories m' A' /\ private_runs m.1 A evs A'.
Proof. intros Hr HA. by apply (runs_private m evs m'). Qed.
End iso.

(** * A page that could not be written when its program forked

    [mprotect] asks for a mark to know a page that is shared. A page that was
    read-only has none: fork leaves it with the same descriptor on both sides, and
    [mprotect] makes one of them writable without parting them. *)

Section unmarked.
Context {P : Paging} {writes : Z -> bool} {PL : PagingLaws P writes} {V : Type} {FV : Files V}.
Context (r : Z -> bool) (nf : Z) (kernel : Z).
Abbreviation calm := (calm (writes := writes) r nf).

(** Word [i] of the page at [v], as the program [root] sees it. *)
Definition sees (s : Sys V) (root v i : Z) : option Z := (fun b => read (phys_words s) (addr b) i) <$> leaf (phys_words s) root v.

Lemma asked_flags p : has PROT_WRITE p = true ->
  has PRESENT (prot_to_flags p) = true /\ has USER (prot_to_flags p) = true /\ has WRITABLE (prot_to_flags p) = true /\ has COW (prot_to_flags p) = false.
Proof.
  intros Hp. destruct bits_there as [H1 H2]. destruct bits_apart as [H3 H4]. rewrite !Forall_cons in H4. destruct H4 as (C1 & C2 & C3 & C4 & _).
  unfold prot_to_flags. rewrite Hp. cbv zeta. destruct (has PROT_EXEC p); rewrite !has_lor, ?H1, ?H2, ?H3, ?C1, ?C2, ?C3, ?C4, ?orb_true_r; done.
Qed.

(** The end of a turn in which nothing was taken out. *)
Lemma wp_flush_nothing {E} (s : Sys V) (X : Sys V -> E -> Prop) :
  retired s = [] -> wp guard_flush (fun s' _ => phys_words s' = phys_words s /\ mems s' = mems s) X s.
Proof.
  intros Hr. unfold guard_flush. apply wp_bind. unfold on_walk. apply wp_zoom. unfold tlb_flush. apply wp_bind, wp_gets, wp_bind, wp_modify.
  destruct (tlb (walk s)); [apply wp_ret|apply wp_modify|apply wp_modify]; apply wp_bind, wp_gets; cbn [retired set_walk]; rewrite Hr.
  all: apply wp_bind; unfold drop_frames, on_walk; apply wp_zoom, wp_ret, wp_modify; done.
Qed.

Lemma wp_retag_unmarked {E} on G rest (s : Sys V) root tabs maps v b bits (X : Sys V -> E -> Prop) :
  calm on G rest s -> G !! root = Some (tabs, maps) -> maps !! page_of_virt v = Some b -> 0 <= v < USER_LIMIT ->
  has COW (flags b) = false -> has PRESENT bits = true ->
  wp (retag root bits v) (fun s' _ => retired s' = [] /\ mems s' = mems s /\ edited (walk s) (walk s') tabs v /\
    hier user_half (words (walk s')) root tabs (<[page_of_virt v := leaf_bits (addr b) bits]> maps)) X s.
Proof.
  intros (Hi & _ & Hr) HG Hb Hv Hcow Hp. pose proof (i_hier Hi HG) as Hh. pose proof (user_owned v Hv) as Hown. unfold retag. apply wp_bind, wp_gets.
  unfold flags_of, phys_words. rewrite (leaf_maps user_half _ _ _ _ _ Hh Hown), Hb. cbn [fmap option_fmap option_map]. rewrite Hcow. apply wp_bind.
  unfold guard_protect, on_walk. apply wp_zoom. eapply wp_mono; [apply (wp_protect user_half (walk s) root tabs maps v bits (fun _ (_ : E) => False)); done| |done].
  intros w r0 [_ H]. rewrite Hb in H. apply wp_ret. cbn. split_and!; [done|done|apply H..].
Qed.

Lemma wp_mprotect_unmarked on G rest (s : Sys V) root tabs maps v n p b (X : Sys V -> Errno -> Prop) :
  calm on G rest s -> G !! root = Some (tabs, maps) -> maps !! page_of_virt v = Some b -> 0 <= v < USER_LIMIT -> v `mod` 4096 = 0 -> 0 < n <= 4096 ->
  has COW (flags b) = false -> has PROT_WRITE p = true ->
  wp (sys_mprotect root v n p) (fun s' x => x = 0 /\ is_Some (mems s' !! root) /\ leaf (phys_words s') root v = Some (leaf_bits (addr b) (prot_to_flags p)) /\
    forall t i, t ∉ tab_frames tabs -> read (phys_words s') t i = read (phys_words s) t i) X s.
Proof.
  intros Hc HG Hb Hv Hal Hn Hcow Hp. change USER_LIMIT with (2 ^ 47) in Hv. unfold sys_mprotect.
  assert (Hland : Z.land v (PAGE - 1) = 0) by (change (PAGE - 1) with (Z.ones 12); by rewrite Z.land_ones by lia).
  rewrite Hland. cbn [Z.eqb negb orb]. rewrite (proj2 (in_user_space_spec r v n ltac:(unfold is_u64, u64_max; lia) ltac:(unfold is_u64, u64_max; lia) ltac:(lia))) by (change USER_LIMIT with (2 ^ 47); lia).
  cbn [negb]. apply wp_bind, wp_checked; [unfold u64_max; lia|]. apply wp_bind. unfold page_align_up, PAGE_SIZE. change 4096 with (2 ^ 12).
  apply wp_align_up; [lia|lia|unfold u64_max; lia|]. intros to Hto. assert (to = v + 4096) as -> by (destruct Hto; lia).
  assert (page_align_down v = v) as -> by (unfold page_align_down; change PAGE with (2 ^ 12); rewrite align_down_spec by (unfold is_u64, u64_max; lia); lia).
  apply wp_bind. eapply (wp_locked r nf on); [exact Hc|]. apply wp_bind, wp_gets, wp_modify. exists G, rest. pose proof Hc as (Hi & _ & Hr). cbn [retired walk set_mems]. rewrite Hr. split; [exact Hi|].
  intros s1 Hc1 Hw1 Hm1. change (ENTRIES * PAGE) with 2097152. replace (v + 4096 - v) with 4096 by lia. change (seqZ 0 (div_ceil 4096 2097152)) with [0]. cbn [fmap list_fmap mapM_].
  rewrite Z.mul_0_l, Z.add_0_r, Z.min_l by lia. unfold pages_from. replace (v + 4096 - v) with 4096 by lia. change (seqZ 0 (div_ceil 4096 PAGE)) with [0]. cbn [fmap list_fmap mapM_].
  rewrite Z.mul_0_l, Z.add_0_r. apply wp_bind, wp_bind. unfold locked. apply wp_bind, wp_modify.
  pose proof Hc1 as (Hi1 & Ht1 & Hr1). replace (set_retired [] (set_walk (set_tlb Clean (walk s1)) s1)) with s1 by (destruct s1 as [[] ? ?]; cbn in *; by subst).
  apply wp_bind, wp_try, wp_bind. eapply wp_mono; [apply (wp_retag_unmarked on G rest s1 root tabs maps v b (prot_to_flags p) (fun _ (_ : Errno) => False)); try done; by apply asked_flags| |done].
  intros s2 _ (Hr2 & Hm2 & He & Hh2). apply wp_ret, wp_bind. eapply wp_mono; [by apply (wp_flush_nothing s2 (fun _ (_ : Errno) => False))| |done].
  intros s3 _ [Hw3 Hm3]. apply wp_ret, wp_ret, wp_ret. split; [done|]. unfold phys_words in *. rewrite Hw3. split_and!.
  - rewrite Hm3, Hm2, Hm1. cbn. rewrite lookup_insert_eq. by eexists.
  - rewrite (leaf_maps user_half _ _ _ _ _ Hh2 (user_owned v Hv)). apply lookup_insert_eq.
  - intros t i Ht. rewrite (e_else _ _ _ _ He) by done. by rewrite Hw1.
Qed.

(** C39: A page that can neither be written nor has a mark when its program forks:
    the child that asks [mprotect] for it to be writable is given the frame itself,
    which the parent still maps, so that whatever the child then stores in the page
    is what the parent reads there. *)
Theorem mprotect_writes_through on G rest (s : Sys V) parent ptabs pmaps v b s1 child n p :
  calm on G rest s -> G !! parent = Some (ptabs, pmaps) -> room G rest parent 0 -> is_Some (G !! on) -> recorded G s ->
  0 <= v < USER_LIMIT -> v `mod` 4096 = 0 -> pmaps !! page_of_virt v = Some b -> shared (flags b) = None -> has COW (flags b) = false ->
  fork (E := Errno) kernel on parent s = (s1, Ok (Some child)) -> 0 < n <= 4096 -> has PROT_WRITE p = true ->
  exists s2, sys_mprotect child v n p s1 = (s2, Ok 0) /\ child <> parent /\
    forall i x, 0 <= i < 512 -> exists s3 s4,
      step (writes := writes) kernel (on, s2) (Switch child) (child, s3) /\ step (writes := writes) kernel (child, s3) (Store (page_of_virt v) i x) (child, s4) /\
      sees s4 parent v i = Some x.
Proof.
  intros Hc HP Hroom Hon Hrec Hv Hal Hb Hsh Hcow Hfork Hn Hp.
  pose proof (wp_fork_plain r nf on kernel on G rest s parent ptabs pmaps (fun _ (_ : Errno) => False) Hc HP Hroom Hon Hrec) as H. unfold wp in H. rewrite Hfork in H.
  destruct H as (Hno & G1 & Hc1 & _ & _ & _ & Hsame). destruct (Hsame _ _ Hb Hsh) as [(pt1 & pm1 & HP1 & Hpb) (ct1 & cm1 & HC1 & Hcb)].
  assert (Hne : child <> parent) by congruence. pose proof (user_owned v Hv) as Hown.
  pose proof (wp_mprotect_unmarked on G1 rest s1 child ct1 cm1 v n p b (fun _ _ => False) Hc1 HC1 Hcb Hv Hal Hn Hcow Hp) as Hm. unfold wp in Hm.
  destruct (sys_mprotect child v n p s1) as [s2 [x0|e|w0]]; [|done..]. destruct Hm as (-> & Hthere & Hleaf & Helse). exists s2. split; [done|]. split; [done|].
  pose proof Hc1 as (Hi1 & _ & _). assert (Hsp : slot G1 parent (page_of_virt v) b) by (by eexists _, _).
  destruct (slot_frame Hi1 Hsp) as [_ Hfr]. destruct (asked_flags p Hp) as (A1 & A2 & A3 & A4).
  assert (Hparent : hier user_half (phys_words s2) parent pt1 pm1).
  { eapply hier_frame; [|apply (i_hier Hi1 HP1)]. intros k t i Hk. apply Helse.
    eapply (table_alone r nf on); [exact Hi1|exact HP1|apply tab_frames_in; eauto|exact HC1|done]. }
  intros i x Hix. eexists _, _. split; [by apply s_switch|]. split.
  - apply (s_store kernel child (set_user_cache ∅ s2) (page_of_virt v) i x (leaf_bits (addr b) (prot_to_flags p))); [|done| |by apply writes_plain].
    + by eapply user_pages.
    + unfold descriptor, page_of_virt. cbn [cached walk set_user_cache set_walk set_cached]. rewrite lookup_empty. replace (v / 4096 * 4096) with v by lia. exact Hleaf.
  - rewrite addr_leaf by done. unfold sees.
    assert (Hh : hier user_half (<[(addr b, i) := x]> (phys_words s2)) parent pt1 pm1).
    { eapply hier_frame; [|exact Hparent]. intros k t j Hk. rewrite read_store, decide_False; [done|]. intros [-> _].
      apply (table_not_page Hi1 Hsp HP1 (t := addr b)); [|done]. apply tab_frames_in. eauto. }
    change (phys_words (set_user_words _ _)) with (<[(addr b, i) := x]> (phys_words s2)).
    rewrite (leaf_maps user_half _ _ _ _ _ Hh Hown), Hpb. cbn. rewrite read_store, decide_True by done. done.
Qed.
End unmarked.
