(* ===== verification/SpaceLab.v ===== *)
(** * A small machine with programs

    The theorems about address spaces, where their hypotheses hold: a PC with
    twenty-four frames, and a program that maps a page, touches it and forks. *)

From stdpp Require Import gmap.
From S2P Require Import Prelude Words Handoff Frame FrameSpec FrameAlloc FrameOwners Walk WalkSpec Space SpaceSpec SpaceRun SpaceFork SpaceIso.

#[local] Existing Instance x86_paging.
#[local] Instance one_file : Files unit := {| file_eq := _; contents := fun _ => inl [65; 66; 67] |}.

Definition no_files (_ : Z) : unit + Errno := inr EBADF.

(** Frame 0 is the kernel's. *)
Definition lab_pool : BitmapAllocator := mkAllocator [1] (1 :: replicate 23 0) 24 24 1 1 0 0.
Definition lab0 : Sys unit := mkSys (mkWalk ∅ lab_pool ∅ [] Clean) [] ∅.

Definition first_program : M (Sys unit) Errno Z :=
  let! root := new_user 0 in ok_or root ENOMEM.

(** ** The machine is in order *)

Lemma lab_pool_ok : frames_ok lab_pool.
Proof.
  split; [|by vm_compute]. constructor; cbn; unfold MAX_FRAMES, u64_max; try lia; repeat constructor; cbn; unfold is_u64, is_u16, u64_max, u16_max; lia.
Qed.

Definition lab_held : Z -> bool := held lab_pool.

Lemma lab0_calm active : calm (writes := x86_writes) lab_held 24 active ∅ [] lab0.
Proof.
  split_and!; [|done|done]. assert (Hs : forall root q b, ~ slot ∅ root q b) by (intros root q b (tabs & maps & H & _); by rewrite lookup_empty in H).
  split.
  - intros root tabs maps. by rewrite lookup_empty.
  - exact (owners_start lab_pool lab_pool_ok).
  - intros root tabs maps t. by rewrite lookup_empty.
  - by intros root q b ?%Hs.
  - by intros r1 q1 b1 r2 q2 b2 ?%Hs.
  - intros q b. cbn. by rewrite lookup_empty.
  - lia.
Qed.

(** The first program, and the page it asks for. *)
Definition G1 : Ghost := <[4096 := (bare_tables 4096, ∅)]> ∅.
Definition lab1 : Sys unit := (first_program lab0).1.
Definition lab2 : Sys unit := (sys_mmap no_files 4096 0 4096 3 MAP_ANONYMOUS (-1) 0 lab1).1.

Lemma lab1_calm : calm (writes := x86_writes) lab_held 24 4096 G1 [] lab1.
Proof.
  pose proof (wp_new_user lab_held 24 4096 0 ∅ [] lab0 (fun _ (_ : Errno) => False) (lab0_calm 4096)) as H.
  assert (E : new_user (E := Errno) 0 lab0 = (lab1, Ok (Some 4096))) by (vm_compute; reflexivity). eapply wp_ok in H; [|exact E]. apply H.
Qed.

Lemma lab1_placed : placed USER_LIMIT (record_of 4096 lab1).
Proof. replace (record_of 4096 lab1) with (mem_new (V := unit)) by (vm_compute; reflexivity). split_and!; [constructor|done|done|done|by intros v ?%elem_of_nil]. Qed.

Lemma mapped_calm p s : sys_mmap no_files 4096 0 4096 p MAP_ANONYMOUS (-1) 0 lab1 = (s, Ok USER_MMAP_BASE) ->
  calm (writes := x86_writes) lab_held 24 4096 G1 [] s /\ Forall vma_ok (vmas (record_of 4096 s)).
Proof.
  intros E. pose proof (wp_mmap_anonymous lab_held 24 4096 no_files G1 [] lab1 4096 4096 4096 p (-1) 0 USER_LIMIT lab1_calm lab1_placed ltac:(done) ltac:(done) ltac:(done)) as H.
  eapply wp_ok in H; [|exact E]. destruct H as (m' & Hc & _ & Hm & _ & _ & _ & (Hok & _) & _). split; [exact Hc|]. unfold record_of. by rewrite Hm, lookup_insert_eq.
Qed.

Lemma lab2_calm : calm (writes := x86_writes) lab_held 24 4096 G1 [] lab2 /\ Forall vma_ok (vmas (record_of 4096 lab2)).
Proof. apply (mapped_calm 3). vm_compute. reflexivity. Qed.

(** The page is touched. *)
Definition lab3 : Sys unit := (fault_in (E := Errno) 4096 USER_MMAP_BASE lab2).1.

Lemma base_user : 0 <= USER_MMAP_BASE < USER_LIMIT.
Proof. vm_compute. split; congruence. Qed.

Lemma lab3_ran : fault_in (E := Errno) 4096 USER_MMAP_BASE lab2 = (lab3, Ok true).
Proof. vm_compute. reflexivity. Qed.

Lemma touched_calm (s s' : Sys unit) :
  calm (writes := x86_writes) lab_held 24 4096 G1 [] s -> Forall vma_ok (vmas (record_of 4096 s)) ->
  fault_in (E := Errno) 4096 USER_MMAP_BASE s = (s', Ok true) ->
  exists G tabs maps, calm (writes := x86_writes) lab_held 24 4096 G [] s' /\ G !! 4096 = Some (tabs, maps) /\
    dom G = {[4096]} /\ Forall vma_ok (vmas (record_of 4096 s')).
Proof.
  intros Hc Hok Hran.
  pose proof (wp_fault_in lab_held 24 4096 G1 [] s 4096 USER_MMAP_BASE (fun _ (_ : Errno) => False) Hc (mk_is_Some _ _ (lookup_insert_eq _ _ _)) Hok base_user) as H.
  destruct (wp_ok _ _ _ _ _ _ H Hran) as (Hm & G & Hc' & HD & _).
  assert (is_Some (G !! 4096)) as [[tabs maps] HG] by (apply elem_of_dom; rewrite HD; unfold G1; set_solver).
  exists G, tabs, maps. split; [exact Hc'|]. split_and!; [done|rewrite HD; unfold G1; set_solver|]. unfold record_of in *. by rewrite Hm.
Qed.

Lemma lab3_calm : exists G tabs maps, calm (writes := x86_writes) lab_held 24 4096 G [] lab3 /\ G !! 4096 = Some (tabs, maps) /\
  dom G = {[4096]} /\ Forall vma_ok (vmas (record_of 4096 lab3)).
Proof. destruct lab2_calm as [Hc Hok]. exact (touched_calm lab2 lab3 Hc Hok lab3_ran). Qed.

Lemma few_references (a : BitmapAllocator) f : forallb (fun n => n <? u16_max) (refcounts a) = true -> refs a f < u16_max.
Proof.
  intros H. unfold refs. destruct (refcounts a !! Z.to_nat f) as [n|] eqn:E.
  - rewrite (list_lookup_total_correct _ _ _ E). rewrite forallb_forall in H. apply Z.ltb_lt, H, list_elem_of_In. by eapply list_elem_of_lookup_2.
  - rewrite list_lookup_total_alt, E. done.
Qed.

Lemma small_room on G rest (s : Sys unit) root :
  calm (writes := x86_writes) lab_held 24 on G rest s -> forallb (fun n => n <? u16_max) (refcounts (pool (walk s))) = true -> room G rest root 0.
Proof.
  intros (Hi & _ & _) Hs q b _ Hsl. destruct (slot_frame Hi Hsl) as [Hin _].
  destruct (handle_held lab_held 24 _ _ (addr b) (i_owners Hi)) as (f & _ & _ & _ & _ & _ & <- & _); [apply elem_of_app; by left|]. by apply few_references.
Qed.

Lemma wp_ran {S E A} (m : M S E A) Q X s a : wp m Q X s -> (m s).2 = Ok a -> Q (m s).1 a.
Proof. unfold wp. destruct (m s) as [s' [x|e|w]]; cbn; intros H E1; [|discriminate..]. injection E1 as ->. exact H. Qed.

Lemma break_cow_parts_witness :
  exists tabs' maps' b, calm (writes := x86_writes) lab_held 24 4096 {[4096 := (tabs', maps')]} [] (break_cow (E := Errno) 4096 USER_MMAP_BASE lab3).1 /\
    maps' !! page_of_virt USER_MMAP_BASE = Some b /\ x86_writes b = true.
Proof.
  destruct lab3_calm as (G & tabs & maps & Hc & HG & HD & _). pose proof (break_cow_parts lab_held 24 4096 G [] lab3 4096 tabs maps USER_MMAP_BASE Hc HG base_user) as H.
  assert (E1 : (break_cow (E := Errno) 4096 USER_MMAP_BASE lab3).2 = Ok true) by (vm_compute; reflexivity).
  destruct (wp_ran _ _ _ _ _ H E1) as (maps' & Hc' & _ & _ & b & Hb & Hw). exists tabs, maps', b. split; [|exact (conj Hb Hw)].
  replace ({[4096 := (tabs, maps')]} : Ghost) with (<[4096 := (tabs, maps')]> G); [exact Hc'|].
  apply map_eq. intros x. destruct (decide (x = 4096)) as [->|Hx]; [by rewrite lookup_insert_eq, lookup_singleton_eq|].
  rewrite lookup_insert_ne, lookup_singleton_ne by done. apply not_elem_of_dom. rewrite HD. clear -Hx. set_solver.
Defined.

Lemma munmap_exact_witness : exists G', calm (writes := x86_writes) lab_held 24 4096 G' [] (sys_munmap 4096 USER_MMAP_BASE 4096 lab3).1.
Proof.
  destruct lab3_calm as (G & tabs & maps & Hc & HG & _ & Hok).
  pose proof (munmap_exact lab_held 24 4096 G [] lab3 4096 tabs maps USER_MMAP_BASE 4096 Hc HG Hok ltac:(vm_compute; split; congruence) ltac:(vm_compute; split; congruence)) as H.
  assert (E1 : (sys_munmap 4096 USER_MMAP_BASE 4096 lab3).2 = Ok 0) by (vm_compute; reflexivity).
  destruct (wp_ran _ _ _ _ _ H E1) as (_ & _ & to & G' & _ & Hc' & _). exists G'. exact Hc'.
Defined.

Lemma exit_gives_back_witness : cached (walk (drop_mm (E := Errno) 0 4096 lab3).1) = ∅.
Proof.
  destruct lab3_calm as (G & tabs & maps & Hc & HG & _). pose proof (exit_gives_back lab_held 24 4096 G [] lab3 0 4096 tabs maps Hc HG ltac:(discriminate)) as H.
  assert (E1 : (drop_mm (E := Errno) 0 4096 lab3).2 = Ok tt) by (vm_compute; reflexivity).
  destruct (wp_ran _ _ _ _ _ H E1) as (_ & _ & Hca & _). exact Hca.
Defined.

Lemma small_recorded G (s : Sys unit) : dom (mems s) = {[4096]} -> is_Some (G !! 4096) -> recorded G s.
Proof.
  intros Hm [g HG] root Hno. assert (Hr : root <> 4096) by congruence. apply not_elem_of_dom. rewrite Hm. clear -Hr. set_solver.
Qed.

Lemma fork_copies_witness : exists child G', (fork (E := Errno) 0 4096 4096 lab3).2 = Ok (Some child) /\
  calm (writes := x86_writes) lab_held 24 4096 G' [] (fork (E := Errno) 0 4096 4096 lab3).1 /\ dom G' = {[child]} ∪ {[4096]}.
Proof.
  destruct lab3_calm as (G & tabs & maps & Hc & HG & HD & _).
  assert (Hroom : room G [] 4096 0) by (eapply small_room; [exact Hc|vm_compute; reflexivity]).
  assert (Hm : dom (mems lab3) = {[4096]}) by (vm_compute; reflexivity).
  pose proof (fork_copies lab_held 24 4096 0 4096 G [] lab3 4096 tabs maps Hc HG Hroom (mk_is_Some _ _ HG) (small_recorded G lab3 Hm (mk_is_Some _ _ HG))) as H.
  assert (E2 : exists child, (fork (E := Errno) 0 4096 4096 lab3).2 = Ok (Some child)) by (eexists; vm_compute; reflexivity). destruct E2 as [child E2].
  destruct (wp_ran _ _ _ _ _ H E2) as (_ & G' & Hc' & HD' & _). exists child, G'. split; [exact E2|]. split; [exact Hc'|]. rewrite HD', HD. reflexivity.
Defined.

(** The page is one that may only be read, and the child asks to write it. *)
Definition read2 : Sys unit := (sys_mmap no_files 4096 0 4096 1 MAP_ANONYMOUS (-1) 0 lab1).1.
Definition read3 : Sys unit := (fault_in (E := Errno) 4096 USER_MMAP_BASE read2).1.
Definition read4 : Sys unit := (fork (E := Errno) 0 4096 4096 read3).1.
Definition read_leaf : Z := default 0 (leaf (phys_words read3) 4096 USER_MMAP_BASE).

Lemma read3_ran : sys_mmap no_files 4096 0 4096 1 MAP_ANONYMOUS (-1) 0 lab1 = (read2, Ok USER_MMAP_BASE) /\
  fault_in (E := Errno) 4096 USER_MMAP_BASE read2 = (read3, Ok true) /\ fork (E := Errno) 0 4096 4096 read3 = (read4, Ok (Some 24576)).
Proof. split; [|split]; vm_compute; reflexivity. Qed.

Lemma mprotect_writes_through_witness :
  exists s2, sys_mprotect 24576 USER_MMAP_BASE 4096 3 read4 = (s2, Ok 0) /\
    exists s3 s4, step (writes := x86_writes) 0 (4096, s2) (Switch 24576) (24576, s3) /\
      step (writes := x86_writes) 0 (24576, s3) (Store (page_of_virt USER_MMAP_BASE) 0 7) (24576, s4) /\ sees s4 4096 USER_MMAP_BASE 0 = Some 7.
Proof.
  destruct read3_ran as (E2 & E3 & E4). destruct (mapped_calm 1 read2 E2) as [Hc2 Hok2].
  destruct (touched_calm read2 read3 Hc2 Hok2 E3) as (G & tabs & maps & Hc & HG & _).
  assert (Hroom : room G [] 4096 0) by (eapply small_room; [exact Hc|vm_compute; reflexivity]).
  assert (Hm : dom (mems read3) = {[4096]}) by (vm_compute; reflexivity).
  assert (Hl : leaf (phys_words read3) 4096 USER_MMAP_BASE = Some read_leaf) by (vm_compute; reflexivity).
  pose proof (leaf_maps user_half _ _ tabs maps USER_MMAP_BASE (i_hier (proj1 Hc) HG) (user_owned USER_MMAP_BASE base_user)) as Hb.
  assert (Hf : shared (flags read_leaf) = None /\ has COW (flags read_leaf) = false) by (split; vm_compute; reflexivity).
  destruct (mprotect_writes_through lab_held 24 0 4096 G [] read3 4096 tabs maps USER_MMAP_BASE read_leaf read4 24576 4096 3 Hc HG Hroom (mk_is_Some _ _ HG)
    (small_recorded G read3 Hm (mk_is_Some _ _ HG)) base_user ltac:(vm_compute; reflexivity) (eq_trans (eq_sym Hb) Hl) (proj1 Hf) (proj2 Hf) E4 ltac:(lia) ltac:(vm_compute; reflexivity))
    as (s2 & Hs2 & _ & H). exists s2. split; [exact Hs2|]. exact (H 0 7 ltac:(lia)).
Defined.

Lemma mmap_past_user_half_witness :
  wp (let! _ := sys_mmap no_files 4096 0 MAX_MAPPING 3 MAP_ANONYMOUS (-1) 0 in sys_mmap no_files 4096 0 1 3 MAP_ANONYMOUS (-1) 0)
    (fun _ base => base = USER_LIMIT /\ is_user_addr base = false) (fun _ _ => False) lab1.
Proof.
  apply (mmap_past_user_half lab_held 24 4096 no_files G1 [] lab1 4096 1 3 (-1) 0 lab1_calm); [vm_compute; reflexivity|vm_compute; split; congruence].
Defined.

(** A second region that lies in the way. *)
Definition crowded : MemState unit :=
  set_vmas [mkVma USER_MMAP_BASE (USER_MMAP_BASE + 8192) 3 MAP_ANONYMOUS None] mem_new.

Lemma free_region_found_witness :
  exists at_ m', find_free_region (E := Empty_set) 5000 crowded tt = (tt, Ok (at_, m')) /\ at_ = USER_MMAP_BASE + 8192 /\ mmap_top m' = at_ + 8192.
Proof.
  pose proof (free_region_found 5000 crowded USER_LIMIT ltac:(lia) ltac:(unfold u64_max; lia) ltac:(vm_compute; split; congruence)
    ltac:(intros v ->%list_elem_of_singleton; vm_compute; congruence) ltac:(change USER_LIMIT with (2 ^ 47); unfold u64_max; lia)) as H.
  unfold wp in H. assert (E : find_free_region (E := Empty_set) 5000 crowded tt = (tt, Ok (USER_MMAP_BASE + 8192, set_mmap_top (USER_MMAP_BASE + 16384) crowded))) by (vm_compute; reflexivity).
  rewrite E in H. destruct H as (size & _ & Hm & _). exists (USER_MMAP_BASE + 8192), (set_mmap_top (USER_MMAP_BASE + 16384) crowded).
  split; [exact E|]. split; [reflexivity|vm_compute; reflexivity].
Defined.

(** A page prepared for the second page of the region. *)
Definition prepared_lab : Sys unit := (prepared_new (E := Errno) 3 lab2).1.
Definition lab_plan : Plan unit := mkPlan heap_flags Zero 3.

Lemma prepared_ran : prepared_new (E := Errno) 3 lab2 = (prepared_lab, Ok (Some (mkPrepared (Some 8192) [20480; 16384; 12288]))).
Proof. vm_compute. reflexivity. Qed.

Lemma commit_rechecks_witness :
  exists G', inv (writes := x86_writes) lab_held 24 4096 G' [] (walk (guard_commit (E := Errno) 4096 USER_MMAP_BASE lab_plan (mkPrepared (Some 8192) [20480; 16384; 12288]) prepared_lab).1) /\
    is_Some (page_at (amem G' (phys_words (guard_commit (E := Errno) 4096 USER_MMAP_BASE lab_plan (mkPrepared (Some 8192) [20480; 16384; 12288]) prepared_lab).1)) 4096 (page_of_virt USER_MMAP_BASE)).
Proof.
  destruct lab2_calm as [Hc Hok]. pose proof (wp_prepared_new lab_held 24 4096 G1 [] 3 lab2 (fun _ (_ : Errno) => False) Hc) as H0.
  destruct (wp_ok _ _ _ _ _ _ H0 prepared_ran) as (Hm & _ & (Hc' & Hsp & Ho) & _ & _). specialize (Ho 8192 eq_refl).
  assert (Hr : retired prepared_lab = []) by (vm_compute; reflexivity).
  assert (Hin : in_hand (writes := x86_writes) lab_held 24 4096 G1 [] 8192 [20480; 16384; 12288] prepared_lab).
  { unfold in_hand. rewrite Hr. split; [exact (proj1 Hc')|]. split; [exact Hsp|exact Ho]. }
  assert (Hok' : Forall vma_ok (vmas (record_of 4096 prepared_lab))) by (unfold record_of in *; rewrite Hm; exact Hok).
  pose proof (commit_rechecks lab_held 24 4096 G1 [] prepared_lab 4096 USER_MMAP_BASE 8192 [20480; 16384; 12288] lab_plan Hin (mk_is_Some _ _ (lookup_insert_eq _ _ _)) Hok' base_user ltac:(vm_compute; reflexivity)) as H.
  assert (E1 : (guard_commit (E := Errno) 4096 USER_MMAP_BASE lab_plan (mkPrepared (Some 8192) [20480; 16384; 12288]) prepared_lab).2 = Ok (mkPrepared None [], Done)) by (vm_compute; reflexivity).
  assert (E2 : retired (guard_commit (E := Errno) 4096 USER_MMAP_BASE lab_plan (mkPrepared (Some 8192) [20480; 16384; 12288]) prepared_lab).1 = []) by (vm_compute; reflexivity).
  destruct (wp_ran _ _ _ _ _ H E1) as (_ & G' & HD & Hi & _ & _ & Ha). exists G'. rewrite E2 in Hi. split; [exact Hi|]. rewrite Ha.
  unfold page_at. rewrite lookup_alter_eq. unfold amem. rewrite lookup_fmap. unfold G1. rewrite lookup_insert_eq. cbn [fmap option_fmap option_map snd mbind option_bind].
  eexists. apply lookup_insert_eq.
Defined.

(** The program is asked for, forks, writes and hands over to its child. *)
Definition lab_q : Z := page_of_virt USER_MMAP_BASE.
Definition lab4 : Sys unit := (fork (E := Errno) 0 4096 4096 lab3).1.
Definition lab5 : Sys unit := (break_cow (E := Errno) 4096 USER_MMAP_BASE lab4).1.
Definition lab5_leaf : Z := default 0 (descriptor 4096 lab_q lab5).
Definition lab6 : Sys unit := set_user_words (<[(addr lab5_leaf, 5) := 42]> (phys_words lab5)) lab5.
Definition lab7 : Sys unit := set_user_cache ∅ lab6.
Definition lab_events : list Event :=
  [Fault 4096 USER_MMAP_BASE; Fork 4096 (Some 24576); Break 4096 USER_MMAP_BASE; Store lab_q 5 42; Switch 24576].

Lemma lab2_memories : has_memories (writes := x86_writes) lab_held 24 (4096, lab2) (amem G1 (phys_words lab2)).
Proof.
  destruct lab2_calm as [Hc Hok]. exists G1, []. cbn [fst snd]. split; [exact Hc|]. split; [by eexists; apply lookup_insert_eq|]. split; [|split; [|done]].
  - assert (Hm : dom (mems lab2) = {[4096]}) by (vm_compute; reflexivity). intros root. rewrite <- !elem_of_dom, Hm. unfold G1. rewrite dom_insert_L. clear. set_solver.
  - intros root x Hx. destruct (decide (root = 4096)) as [->|Hr].
    + unfold record_of in Hok. by rewrite Hx in Hok.
    + exfalso. assert (Hm : dom (mems lab2) = {[4096]}) by (vm_compute; reflexivity). apply Hr. apply elem_of_dom_2 in Hx. rewrite Hm in Hx. by apply elem_of_singleton in Hx.
Qed.

Lemma small_forkable on G rest (s : Sys unit) parent tabs maps :
  calm (writes := x86_writes) lab_held 24 on G rest s -> G !! parent = Some (tabs, maps) ->
  forallb (fun n => n <? u16_max) (refcounts (pool (walk s))) = true -> forkable parent s.
Proof.
  intros Hc HG Hf q b Hq Hb. assert (Hs : slot G parent q b).
  { destruct Hc as (Hi & _ & _). exists tabs, maps. split; [done|]. change (page_of_virt USER_LIMIT) with (2 ^ 35) in Hq. unfold phys_words in Hb.
    rewrite (leaf_maps user_half _ _ tabs maps _ (i_hier Hi HG) (user_owned (q * 4096) ltac:(change USER_LIMIT with (2 ^ 47); lia))) in Hb.
    unfold page_of_virt in Hb. by rewrite Z.div_mul in Hb by lia. }
  pose proof (small_room on G rest s parent Hc Hf q b ltac:(lia) Hs) as Hr. destruct Hc as (Hi & _ & _).
  destruct (slot_frame Hi Hs) as [Hin _]. exists (occ (addr b) (all_frames G ++ rest)). split; [|exact Hr]. apply (handle_frame Hi). apply elem_of_app. by left.
Qed.

Lemma lab3_forkable : forkable 4096 lab3.
Proof.
  assert (Hf : forallb (fun n => n <? u16_max) (refcounts (pool (walk lab3))) = true) by (vm_compute; reflexivity).
  destruct lab3_calm as (G & tabs & maps & Hc & HG & _). exact (small_forkable 4096 G [] lab3 4096 tabs maps Hc HG Hf).
Qed.

Lemma ran_to {S E A} (m : M S E A) s a : (m s).2 = Ok a -> m s = ((m s).1, Ok a).
Proof. intros <-. by destruct (m s). Qed.

Lemma lab_there : is_Some (mems lab2 !! 4096) /\ is_Some (mems lab3 !! 4096) /\ is_Some (mems lab4 !! 4096) /\ is_Some (mems lab6 !! 24576).
Proof. split; [|split; [|split]]; eexists; vm_compute; reflexivity. Qed.

Lemma lab_ran : fork (E := Errno) 0 4096 4096 lab3 = (lab4, Ok (Some 24576)) /\ break_cow (E := Errno) 4096 USER_MMAP_BASE lab4 = (lab5, Ok true).
Proof.
  assert (E1 : (fork (E := Errno) 0 4096 4096 lab3).2 = Ok (Some 24576)) by (vm_compute; reflexivity).
  assert (E2 : (break_cow (E := Errno) 4096 USER_MMAP_BASE lab4).2 = Ok true) by (vm_compute; reflexivity).
  split; [exact (ran_to (fork 0 4096 4096) lab3 (Some 24576) E1)|exact (ran_to (break_cow 4096 USER_MMAP_BASE) lab4 true E2)].
Qed.

Lemma lab_stores : 0 <= lab_q < page_of_virt USER_LIMIT /\ descriptor 4096 lab_q lab5 = Some lab5_leaf /\ x86_writes lab5_leaf = true.
Proof. split; [vm_compute; split; congruence|]. split; vm_compute; reflexivity. Qed.

Lemma five_small : 0 <= 5 < 512.
Proof. lia. Qed.

Lemma lab_runs : runs (writes := x86_writes) 0 (4096, lab2) lab_events (24576, lab7).
Proof.
  destruct lab_there as (H2 & H3 & H4 & H6), lab_ran as [Hf Hb], lab_stores as (Hq & Hd & Hw).
  apply (r_cons _ _ _ (4096, lab3)); [exact (s_fault _ 4096 lab2 lab3 4096 USER_MMAP_BASE true H2 base_user lab3_ran)|].
  apply (r_cons _ _ _ (4096, lab4)); [exact (s_fork _ 4096 lab3 lab4 4096 (Some 24576) H3 lab3_forkable Hf)|].
  apply (r_cons _ _ _ (4096, lab5)); [exact (s_break _ 4096 lab4 lab5 4096 USER_MMAP_BASE true H4 base_user Hb)|].
  apply (r_cons _ _ _ (4096, lab6)); [exact (s_store _ 4096 lab5 lab_q 5 42 lab5_leaf Hq five_small Hd Hw)|].
  apply (r_cons _ _ _ (24576, lab7)); [exact (s_switch _ 4096 lab6 24576 H6)|apply r_nil].
Qed.

Lemma programs_private_witness : exists A', has_memories (writes := x86_writes) lab_held 24 (24576, lab7) A' /\ private_runs 4096 (amem G1 (phys_words lab2)) lab_events A'.
Proof. exact (programs_private lab_held 24 0 (4096, lab2) lab_events (24576, lab7) _ lab_runs lab2_memories). Defined.
